(* ===== verification/_CoqProject ===== *)
-Q . S2P
Prelude.v
UintSet.v
OsslTime.v
FlowControl.v
Congestion.v
Packet.v
Wire.v
CcMethod.v
Ackm.v
AckmTx.v
AckmInv.v
AckmAck.v
AckmRx.v
RingBuf.v
Sstream.v
SfList.v
Rstream.v
WirePkt.v
Qrl.v
QrlKeys.v
Qtx.v
StreamMap.v
StreamStates.v
StreamProps.v
Cfq.v
Txpim.v
Fifd.v
FifdInv.v
FifdProps.v
Txp.v
TxpNotify.v
TxpHelper.v
TxpGen.v
TxpSend.v
TxpFrames.v
TxpLen.v
TxpWp.v
TxpPay.v
Qrx.v
QrxInv.v
QrxKeys.v
QrxRound.v
PriorityQueue.v
Lcidm.v
LcidmInv.v
LcidmProps.v
Srtm.v
