(* ===== verification/Prelude.v ===== *)
(** * The QUIC transport core of PAPQUIC: verification development

    PAPQUIC is a fork of OpenSSL 3.6.0 used to study post-quantum authentication
    over QUIC.  Its own protocol logic is the QUIC stack in
    [src/openssl-3.6.0/ssl/quic/] with headers in [include/internal/]; this
    library models the part of that stack that keeps protocol state and parses
    and writes the wire format, and proves what makes it correct.  File names
    below are relative to [src/openssl-3.6.0/]; a definition has the name of the
    C function, type or macro it translates wherever Rocq allows the name.

    ** How the modelled parts fit together

    A connection receives datagrams; the receive record layer (Qrx) takes them
    apart into packets, decodes and unprotects the headers (WirePkt), decrypts the
    packets with the keys of the encryption level set (Qrl), and defers datagrams
    whose keys are not there yet; the frames in a packet are decoded (Wire).  A STREAM
    or CRYPTO frame is accounted by the receive flow controller (FlowControl)
    and queued in a receive stream (Rstream), which orders frames in a list
    (SfList) and may copy them to a ring buffer (RingBuf).  The packet's number
    and any ACK frame go to the ACK manager (Ackm), which records received
    numbers in integer sets (UintSet), generates ACK frames, tells which
    transmitted packets are acknowledged or lost, samples the round-trip time
    (the statistics manager, in Congestion) and reports bytes to a congestion
    controller through the [OSSL_CC_METHOD] table (CcMethod), NewReno
    (Congestion) being the implementation.  Application data to be sent waits in
    a send stream (Sstream), a ring buffer with two integer sets that say which
    bytes are new and which acknowledged; the transmit flow controller bounds
    what may be sent.  A stream object holds a send stream, a receive stream, their
    flow controllers and the states of its two parts; the stream map (StreamMap)
    finds it by its ID, keeps it in the list of streams with something to
    transmit, which the packetiser visits in rotation, in the queue of incoming
    streams and in the list of streams ready to be freed.

    The transmit packetiser (Txp) decides what goes into the next datagram.  A
    packet is put together from vectors (TxpHelper): the frames are generated one
    after another from the state of the connection, the control frame queue (Cfq),
    the crypto streams and the active streams (TxpGen), and the staged packets of a
    datagram are padded, committed and handed to the record layer (TxpSend).  Each
    packet has a record (Txpim) of the stream ranges and control frames in it.  The
    record layer (Qtx) protects packets with the keys of the encryption level set
    (Qrl), which moves through key updates, and coalesces them into datagrams.  The
    frame-in-flight dispatcher
    (Fifd) gives the packet to the ACK manager and, when the ACK manager reports
    its fate, settles every frame: stream ranges are marked acknowledged or to be
    sent again, queued control frames are freed or queued again, and for frames
    that are generated anew the packetiser is notified.

    Around the connections, the local connection ID manager (Lcidm) issues the
    connection IDs and says to which connection a received packet belongs, and the
    stateless reset token manager (Srtm) finds the connections whose peer announced
    the token that a packet ends with.  The priority queue (PriorityQueue) is a
    container of the library.

    ** Files

    - Prelude: this header; record update ([r <| f := v |>] with the [Eta]
      class), 64-bit wrap-around arithmetic ([+u], [-u], [*u]), the tactics and
      hint databases the files share, generic list and integer lemmas.
    - UintSet: [ssl/quic/uint_set.c], integer sets as sorted range lists.
    - OsslTime: [include/internal/time.h] and the checked arithmetic of
      [safe_math.h] that the stack uses.
    - FlowControl: [ssl/quic/quic_fc.c], TXFC and RXFC of streams and connection.
    - Congestion: [ssl/quic/quic_statm.c] and [ssl/quic/cc_newreno.c].
    - Packet: [crypto/quic_vlint.c], [crypto/packet.c] and the inline functions
      of [packet.h], [packet_quic.h] and [quic_vlint.h] used by the stack, with
      the reader and writer monads [reader] and [writer].
    - Wire: [ssl/quic/quic_wire.c], every frame and the transport parameters.
    - WirePkt: [ssl/quic/quic_wire_pkt.c], packet headers, packet numbers,
      header protection and the Retry integrity tag.
    - CcMethod: [include/internal/quic_cc.h], the congestion controller table as
      the class [OSSL_CC_METHOD], its accounting promise as [CC_ACCOUNTING], and
      NewReno as an instance of both.
    - Ackm, AckmTx, AckmInv, AckmAck, AckmRx: [ssl/quic/quic_ackm.c].  Ackm has
      all definitions; AckmTx the lemmas on the transmit history; AckmInv the
      invariant over all operations; AckmAck the exact effect of an ACK frame;
      AckmRx the received packet numbers and the ACK frames generated.
    - RingBuf: [include/internal/ring_buf.h].
    - Sstream: [ssl/quic/quic_sstream.c], send streams.
    - SfList: [ssl/quic/quic_sf_list.c], the list of received frames.
    - Rstream: [ssl/quic/quic_rstream.c], receive streams.
    - StreamMap, StreamStates, StreamProps: [ssl/quic/quic_stream_map.c] and
      the inline functions of its header.  StreamMap has all definitions and the
      structural invariant of the lists; StreamStates what each operation does to
      a stream and the invariant over all histories; StreamProps the properties.
    - Cfq: [ssl/quic/quic_cfq.c], the queue of control frames.
    - Txpim: [ssl/quic/quic_txpim.c], the records of transmitted packets.
    - Fifd, FifdInv, FifdProps: [ssl/quic/quic_fifd.c].  Fifd has the definitions
      and how the events of the ACK manager reach its callbacks; FifdInv what one
      callback does to the frames of its packet; FifdProps the invariant over all
      histories of the dispatcher, the queue, the pool and the ACK manager.
    - Qrl, QrlKeys: [ssl/quic/quic_record_shared.c] and [quic_record_util.c], the
      cipher suites and the encryption level set with its key slots; QrlKeys has
      the invariant of the slots over every history.
    - Qtx: [ssl/quic/quic_record_tx.c], protection and coalescing of packets.
    - Qrx, QrxInv, QrxKeys, QrxRound: [ssl/quic/quic_record_rx.c].  Qrx has the
      definitions; QrxInv the histories of the operations and the invariant of
      datagrams and packet entries; QrxKeys the keys in the slots, in terms of the
      secrets provided, and what may be delivered; QrxRound composes the two record
      layers.
    - PriorityQueue: [ssl/priority_queue.c], a binary heap with handles.
    - Lcidm, LcidmInv, LcidmProps: [ssl/quic/quic_lcidm.c] and the generation of
      random connection IDs of [quic_types.c].  Lcidm has the definitions; LcidmInv
      the invariant of the tables and their shared objects; LcidmProps the histories,
      their specification and the theorems.
    - Srtm: [ssl/quic/quic_srtm.c], with an explicit memory of the items.
    - Txp, TxpHelper, TxpGen, TxpSend, TxpNotify: [ssl/quic/quic_txp.c].  Txp has
      the state of the packetiser, credits, archetypes, packet geometry, what wants
      to be sent, and the notifications of the dispatcher; TxpHelper the vectors and
      the scratch buffer of a packet and the length planning; TxpGen the generators
      of frames ([txp_generate_for_el] and below); TxpSend the staging, padding and
      commit of the packets of a datagram ([ossl_quic_tx_packetiser_generate]).
      TxpNotify has the theorems on the notifications and a small history of the
      whole transmit side.
    - TxpFrames, TxpLen, TxpWp, TxpPay: what the packetiser puts into a packet.
      TxpFrames says what a payload is, which frame types a packet may carry and what
      a successful frame writer wrote; TxpLen what the length planning guarantees;
      TxpWp reasons about the generators by weakest preconditions; TxpPay has the
      invariant of the payload under construction and the theorem.

    ** Conventions

    A structure is a record and an operation a function from the old record to
    the new one and the return value; objects that C code shares through
    pointers (the connection's flow controller below the controllers of its
    streams, the statistics manager, the caller's diagnostic variables) are
    passed in and out beside it, so the sharing is explicit.  Integers are [Z] at
    the width of the code, with the wrap-around written out; [u64 x] says that
    [x] is a 64-bit value.  A function that fails returns [option], a boolean or
    its error code, with the state as the C code leaves it.  Memory allocation,
    the clock and the cryptographic library are not part of the stack: whether an
    allocation succeeds is an argument, the clock is a function of the number of
    readings, and a cipher is a function argument whose documented behaviour
    (block length, stream length) is a hypothesis where a theorem needs it.
    [assert] is a no-op, as in a build with [NDEBUG], and the conditions asserted
    are part of the invariants proved, but where the model says that a failed
    assertion is [None]: setting up a key slot that has a context
    ([el_setup_keyslot]), the marks of the packetiser ([gassert]), copies of the
    ring buffer and the queues of the transmit record layer.  There the model
    stops, as a build without [NDEBUG] does; histories end at such a stop, and a
    theorem that an operation returns shows that the assertion holds.

    Two things are taken to succeed because the code ignores their result: the
    insertions into the hash tables of the packet history
    ([tx_pkt_history_add_actual]) and of the stream map
    ([ossl_quic_stream_map_alloc]).  A pointer into the memory of a received
    datagram (the payload, the token of an Initial packet) is modelled by the
    bytes it designates at that moment, so how long these bytes stay valid is not
    part of the model.

    ** Interfaces

    The ACK manager is defined and proved against the classes [OSSL_CC_METHOD]
    and [CC_ACCOUNTING]; [newreno_method] and [newreno_accounts] discharge them.
    Moving frame data to another buffer (the callback of the frame list) is
    proved against the class [SideStorage] of SfList; [ring_storage] of Rstream,
    the ring buffer, is its instance.  The dispatcher is defined and its
    invariant proved against the callbacks of its owner, the class
    [FIFD_CALLBACKS]; the packetiser ([txp_callbacks]) is the instance.  The
    comparison function of a priority queue satisfies the class [CompareOrder].  The
    sorting function of the C library is the class [QSort] with its law.

    ** Theorems

    - UintSet: [uint_set_refines_set] (set semantics and order of any history),
      [point_insert_keeps_gaps], [insert_overlap_leaves_bordering_ranges],
      [remove_crashes_only_on_failed_alloc].
    - FlowControl: [txfc_never_exceeds_limits], [rxfc_frame_errors_exact],
      [rxfc_conservation], [rxfc_retire_window].
    - Congestion: [statm_estimates_bounded], [newreno_accounting],
      [newreno_one_reduction_per_recovery], [newreno_growth].
    - Packet and Wire: [vlint_roundtrip], [frame_roundtrip], [ack_roundtrip],
      [tparam_roundtrip]; what a hostile packet can make the decoders accept:
      [ack_decode_sound], [ack_truncated_decode_accepts_invalid],
      [stream_decode_bounds]; [frame_hdr_len_exact]; [ack_loops_terminate].
    - WirePkt: [pkt_pn_roundtrip] (truncated packet numbers are recovered),
      [pkt_hdr_roundtrip] (headers of every type), [pkt_protection_roundtrip]
      (encode, protect, partial decode, unprotect, decode, for every cipher).
    - ACK manager: [ackm_accounting] and [ackm_reports_once] over every history
      of operations; [ack_frame_acks_exactly], [loss_detection_exact];
      [rx_pn_processed_once], [ack_frame_sound], [ack_frame_three_ranges];
      [ecn_never_signalled].
    - Streams: [sstream_refines] and [rstream_refines] relate a buffer, over
      every history of operations, to an abstract stream (a state per byte; the
      prefix received without a gap); [sstream_frame_exact],
      [sstream_totally_acked_exact], [sstream_overlapping_acks_stick],
      [rstream_read_exact], [rstream_reassembles],
      [rstream_locked_packet_released].

    - Stream map: [stream_map_in_order] (well-formedness over every life of a map,
      with the releases its callers make, and no operation fails), [stream_states_follow_rfc] (the state machines of
      RFC 9000, final sizes), [update_state_exact] (which streams are active),
      [iter_round_robin], [accept_queue_first_of_kind],
      [finished_stream_never_collected].
    - Transmission: [cfq_frames_conserved] (no control frame is lost or freed
      twice), [cfq_walk_in_priority_order], [txpim_chunks_exact],
      [fifd_frames_owned] (every frame in flight belongs to exactly one packet,
      and each record in use to exactly one packet, over every history),
      [fifd_fate_of_frames] (what happens to the frames and the record of a packet
      that is acknowledged, lost or discarded),
      [lost_data_requeued], [reset_feedback_dropped];
      [packet_payload_well_formed] (every packet the packetiser generates is a
      sequence of well-formed frames that fits and that its type may carry, its
      record says what is in it, and the generation always ends).
    - Keys: [qrl_keys_follow_epochs] (neither key slot ever holds a key of another
      epoch, whichever library calls fail).
    - Received packets: [qrx_conserves] (no datagram or packet entry is lost or
      duplicated, deferral is bounded), [qrx_only_authentic] (only what the AEAD
      accepted under the keys of the level and epoch is delivered),
      [qrx_read_never_stuck] (every read ends, whatever arrived);
      [qrx_reads_what_qtx_wrote] and [qrx_read_returns_what_was_sent] (what one end
      writes the other reads, also in the middle of a key update).

    - Containers and routing: [pqueue_refines] (a heap is a finite map of which pop
      gives a least element), [lcidm_refines] (two tables with shared objects are one
      routing table), [lcidm_seq_nums_unique], [srtm_refines] (two hash tables of
      sorted lists are one map from connection and sequence number to token).

    Theorems that state an unwanted behaviour (an overlapping insertion that
    leaves bordering ranges, a truncated ACK decode that accepts what a full one
    refuses, ACK frames of at most three ranges, ECN marks never reported, a
    locked frame released, streams never collected, a lost RESET_STREAM never sent
    again) describe what the code does.

    ** Bounds and fuel

    Walks of linked lists are structural recursions.  The other loops carry fuel
    equal to a bound the loop cannot exceed: the bytes left in the packet for the
    ACK range loops ([ack_loops_terminate] shows that the count in the frame does
    not matter beyond it), the number of tracked ranges for the trimming of the
    receive history, the length of the data for the copies in and out of a ring
    buffer (each round moves at least one byte, at most two rounds are needed),
    the number of frames for the reads of a receive stream, the number of items
    of the control frame queue for the walks along it and along the items of a
    packet, the number of active streams for a visit of them, and one more than the space left
    in a packet for the CRYPTO and STREAM frames put into it ([packet_payload_well_formed]
    includes that the space is enough), and the 64 packets that the code looks at in a
    datagram ([QUIC_MAX_PKT_PER_URXE]), the 110 rounds in which a heap grows by 8/5 up
    to its maximal size, the height of the heap, and the 8 and 10 draws of a random
    connection ID that the code makes.  The theorems about
    these operations are about their results with this fuel, so running out of
    it is excluded by the proofs.

    ** Not modelled

    Of the modelled files: functions that only free memory, the cleansing of the
    memory of released packets, the set-up of cipher contexts, and the logging
    hooks; the provisioning of the Initial secrets; the setters of the packetiser's
    callbacks.  Files of the stack that keep state and are outside the library: the dispatch of received frames ([quic_rx_depack.c]); the
    states of a connection ([quic_channel.c]); the remote connection ID manager
    ([quic_rcidm.c]), which the channel of this version does not use; the JSON encoder
    ([json_enc.c]).  Left aside: the fuzzing-only check of the token manager and the
    generation of reset tokens, an HMAC; sockets, threads and the event loop, the
    SSL API front end, the TLS handshake, the loggers and the handshake timing of
    the fork (text output and clocks), the rest of OpenSSL, the vendored
    oqs-provider, and the Python and shell scripts of the benchmarks. *)

From Stdlib Require Export ZArith Lia.
From stdpp Require Export base tactics numbers option sorting gmap list_numbers list.

Declare Scope quic_scope.
Delimit Scope quic_scope with quic.
#[global] Open Scope Z_scope.
#[global] Open Scope quic_scope.

(** ** Record update

    [r <| f := v |>] is the record [r] with the field [f] replaced.  A record
    type opts in by giving its eta-expansion as an [Eta] instance; the setter
    of a field is derived from it by abstracting that field's projection. *)

Class Eta (R : Type) := eta_of : R -> R.

Class FieldUpd {R E : Type} (proj : R -> E) := field_upd : (E -> E) -> R -> R.
Arguments field_upd {R E} proj {_} _ _ /.

Ltac derive_field_upd :=
  lazymatch goal with
  | |- @FieldUpd ?R ?E ?proj =>
      let e := eval hnf in (eta_of (R := R)) in
      let g := fresh "g" in let r := fresh "r" in
      unfold FieldUpd; intros g r;
      let body := eval cbv beta in (e r) in
      lazymatch eval pattern (proj r) in body with
      | ?f _ => let t := eval cbv beta in (f (g (proj r))) in exact t
      end
  end.
#[export] Hint Extern 1 (FieldUpd _) => derive_field_upd : typeclass_instances.

Notation "r <| f := v |>" := (field_upd f (fun _ => v) r)
  (at level 1, left associativity, f at level 8, v at level 200,
   format "r  <| f  :=  v |>") : quic_scope.

(** ** Machine integers

    [uint64_t] and [size_t] are both 64 bits wide (LP64); a value is a [Z] and
    every arithmetic operation of the C code wraps modulo [2^64]. *)

Definition U64_MOD : Z := 18446744073709551616.
Definition UINT64_MAX : Z := 18446744073709551615.
Definition SIZE_MAX : Z := UINT64_MAX.

Definition u64 (x : Z) : Prop := 0 <= x < U64_MOD.

Definition add64 (a b : Z) : Z := (a + b) mod U64_MOD.
Definition sub64 (a b : Z) : Z := (a - b) mod U64_MOD.
Definition mul64 (a b : Z) : Z := (a * b) mod U64_MOD.

Infix "+u" := add64 (at level 50, left associativity) : quic_scope.
Infix "-u" := sub64 (at level 50, left associativity) : quic_scope.
Infix "*u" := mul64 (at level 40, left associativity) : quic_scope.

#[global] Arguments add64 : simpl never.
#[global] Arguments sub64 : simpl never.
#[global] Arguments mul64 : simpl never.

Create HintDb u64 discriminated.

Lemma add64_small (a b : Z) : 0 <= a + b < U64_MOD -> a +u b = a + b.
Proof. intros; unfold add64; by apply Z.mod_small. Qed.

Lemma sub64_small (a b : Z) : 0 <= a - b < U64_MOD -> a -u b = a - b.
Proof. intros; unfold sub64; by apply Z.mod_small. Qed.

Lemma mul64_small (a b : Z) : 0 <= a * b < U64_MOD -> a *u b = a * b.
Proof. intros; unfold mul64; by apply Z.mod_small. Qed.

Lemma add64_u64 (a b : Z) : u64 (a +u b).
Proof. unfold u64, add64, U64_MOD; apply Z.mod_pos_bound; lia. Qed.

Lemma sub64_u64 (a b : Z) : u64 (a -u b).
Proof. unfold u64, sub64, U64_MOD; apply Z.mod_pos_bound; lia. Qed.

Lemma mul64_u64 (a b : Z) : u64 (a *u b).
Proof. unfold u64, mul64, U64_MOD; apply Z.mod_pos_bound; lia. Qed.

#[export] Hint Resolve add64_u64 sub64_u64 mul64_u64 : u64.

(** [u64_lia] turns the wrapping operators into euclidean equations and calls
    [lia]; [u64_simpl] removes the wrap of operations that cannot overflow. *)
Ltac u64_unfold := unfold u64, add64, sub64, mul64, SIZE_MAX, UINT64_MAX, U64_MOD in *.
Ltac u64_lia := u64_unfold; Z.to_euclidean_division_equations; lia.
Ltac u64_side := unfold u64, SIZE_MAX, UINT64_MAX, U64_MOD in *; lia.
Ltac u64_simpl :=
  repeat first
    [ rewrite add64_small in * by u64_side
    | rewrite sub64_small in * by u64_side
    | rewrite mul64_small in * by u64_side ].

(** Case analysis on the boolean comparisons of the code. *)
Ltac bdestruct_one :=
  match goal with
  | |- context [Z.ltb ?a ?b] => destruct (Z.ltb_spec a b)
  | |- context [Z.leb ?a ?b] => destruct (Z.leb_spec a b)
  | |- context [Z.eqb ?a ?b] => destruct (Z.eqb_spec a b)
  | H : context [Z.ltb ?a ?b] |- _ => destruct (Z.ltb_spec a b)
  | H : context [Z.leb ?a ?b] |- _ => destruct (Z.leb_spec a b)
  | H : context [Z.eqb ?a ?b] |- _ => destruct (Z.eqb_spec a b)
  end.
Ltac bdestruct_all := repeat (bdestruct_one; cbn [andb orb negb] in *).

(** A C [int] used as a truth value. *)
Definition b2z (b : bool) : Z := if b then 1 else 0.

(** ** [OSSL_SAFE_MATH_UNSIGNED] at [uint64_t]: the result and the error flag *)

Definition safe_add (a b : Z) (err : bool) : Z * bool :=
  (a +u b, err || (U64_MOD <=? a + b)).

Definition safe_sub (a b : Z) (err : bool) : Z * bool :=
  (a -u b, err || (a <? b)).

Definition safe_mul (a b : Z) (err : bool) : Z * bool :=
  (a *u b, err || (U64_MOD <=? a * b)).

Definition safe_div (a b : Z) (err : bool) : Z * bool :=
  if negb (b =? 0) then (a / b, err) else (UINT64_MAX, true).

Definition safe_muldiv (a b c : Z) (err : bool) : Z * bool :=
  if c =? 0 then (if (a =? 0) || (b =? 0) then 0 else UINT64_MAX, true)
  else
    let '(x, e2) := safe_mul a b false in
    if negb e2 then (x / c, err)
    else
      let '(a, b) := if a <? b then (b, a) else (a, b) in
      let '(x, err) := safe_mul (a mod c) b err in
      let '(y, err) := safe_mul (a / c) b err in
      safe_add y (x / c) err.

#[global] Arguments safe_muldiv : simpl never.

Lemma u64_0 : u64 0.
Proof. u64_side. Qed.

Lemma u64_max : u64 UINT64_MAX.
Proof. u64_side. Qed.

Lemma u64_div (a b : Z) : u64 a -> 0 < b -> u64 (a / b).
Proof.
  intros Ha Hb. unfold u64 in *. split; [apply Z.div_pos; lia|].
  apply Z.le_lt_trans with a; [|lia]. apply Z.div_le_upper_bound; nia.
Qed.

#[export] Hint Resolve u64_0 u64_max u64_div : u64.

Lemma muldiv_split (a b c : Z) :
  0 < c -> a * b / c = (a / c) * b + (a mod c) * b / c.
Proof.
  intros Hc. rewrite (Z.div_mod a c) at 1 by lia.
  replace ((c * (a / c) + a mod c) * b) with ((a mod c) * b + ((a / c) * b) * c) by ring.
  rewrite Z.div_add by lia. ring.
Qed.

(** The two-step fallback of [safe_muldiv] is exact whenever it reports no
    error: the result is the true quotient, never a wrapped one. *)
Lemma safe_muldiv_exact (a b c r : Z) :
  u64 a -> u64 b -> u64 c ->
  safe_muldiv a b c false = (r, false) -> c <> 0 /\ r = a * b / c.
Proof.
  intros Ha Hb Hc. unfold safe_muldiv, safe_mul, safe_add. cbn [orb].
  assert (Hdm : forall x, 0 <= x -> 0 < c -> 0 <= x / c)
    by (intros; apply Z.div_pos; lia).
  destruct (Z.eqb_spec c 0) as [|Hc0]; [by destruct (_ || _)|].
  assert (0 < c) by u64_side.
  destruct (Z.leb_spec U64_MOD (a * b)) as [Hov|Hno]; cbn [negb].
  2:{ intros [= <-]. split; [done|]. rewrite mul64_small; [done|]. unfold u64 in *; nia. }
  set (p := if a <? b then (b, a) else (a, b)).
  assert (exists x y, p = (x, y) /\ x * y = a * b /\ 0 <= x /\ 0 <= y) as (x & y & -> & Hxy & Hx & Hy).
  { subst p. destruct (a <? b); do 2 eexists; (split; [done|]); unfold u64 in *; lia. }
  intros [= <- He]. apply orb_false_iff in He as [He He3]. apply orb_false_iff in He as [He1 He2].
  apply Z.leb_gt in He1, He2, He3. split; [done|].
  pose proof (Z.mod_pos_bound x c ltac:(lia)). specialize (Hdm x Hx ltac:(lia)).
  rewrite (mul64_small (x mod c)) in * by nia. rewrite (mul64_small (x / c)) in * by nia.
  assert (0 <= x mod c * y / c) by (apply Z.div_pos; nia).
  rewrite add64_small by nia. rewrite <- Hxy. symmetry; apply muldiv_split; lia.
Qed.

(** ** Sums over finite maps *)

Definition msum {A} (f : A -> Z) (m : gmap Z A) : Z := map_fold (fun _ a acc => f a + acc) 0 m.

Section Msum.
Context {A : Type} (f : A -> Z).

Lemma msum_empty : msum f ∅ = 0.
Proof. apply map_fold_empty. Qed.

Lemma msum_insert_new (m : gmap Z A) (i : Z) (a : A) :
  m !! i = None -> msum f (<[i:=a]> m) = f a + msum f m.
Proof. intros. unfold msum. rewrite map_fold_insert_L; [done|intros; lia|done]. Qed.

Lemma msum_delete (m : gmap Z A) (i : Z) (a : A) :
  m !! i = Some a -> msum f m = f a + msum f (delete i m).
Proof. intros. unfold msum. rewrite (map_fold_delete_L _ _ i a); [done|intros; lia|done]. Qed.

Lemma msum_insert (m : gmap Z A) (i : Z) (a b : A) :
  m !! i = Some a -> msum f (<[i:=b]> m) = msum f m - f a + f b.
Proof.
  intros Hi. rewrite (msum_delete m i a Hi), <- insert_delete_eq.
  rewrite msum_insert_new by apply lookup_delete_eq. lia.
Qed.

Lemma msum_nonneg (m : gmap Z A) :
  (forall i a, m !! i = Some a -> 0 <= f a) -> 0 <= msum f m.
Proof.
  induction m as [|i a m Hi IH] using map_ind; intros H; [by rewrite msum_empty|].
  rewrite msum_insert_new by done. pose proof (H i a (lookup_insert_eq _ _ _)).
  enough (0 <= msum f m) by lia. apply IH. intros j b Hj. apply (H j).
  rewrite lookup_insert_ne; [done|congruence].
Qed.

(** One summand is at most the sum of non-negative summands. *)
Lemma msum_le (m : gmap Z A) (i : Z) (a : A) :
  (forall j b, m !! j = Some b -> 0 <= f b) -> m !! i = Some a -> f a <= msum f m.
Proof.
  intros H Hi. rewrite (msum_delete m i a Hi).
  enough (0 <= msum f (delete i m)) by lia. apply msum_nonneg.
  intros j b [_ Hj]%lookup_delete_Some. eauto.
Qed.
End Msum.

Lemma msum_mono {A} (f g : A -> Z) (m : gmap Z A) :
  (forall i a, m !! i = Some a -> f a <= g a) -> msum f m <= msum g m.
Proof.
  induction m as [|i a m Hi IH] using map_ind; intros H; [by rewrite !msum_empty|].
  rewrite !msum_insert_new by done. pose proof (H i a (lookup_insert_eq _ _ _)).
  enough (msum f m <= msum g m) by lia. apply IH. intros j b Hj. apply (H j).
  rewrite lookup_insert_ne; [done|congruence].
Qed.

(** ** Counting the integers of a range *)

Lemma NoDup_range_length (l : list Z) (n : Z) : 0 <= n -> NoDup l -> (forall x, x ∈ l -> 0 <= x < n) -> Z.of_nat (length l) <= n.
Proof.
  intros Hn Hnd Hr. assert (length l <= length (seqZ 0 n))%nat as Hle.
  { apply submseteq_length, NoDup_submseteq; [done|]. intros x Hx%Hr. apply elem_of_seqZ. lia. }
  rewrite length_seqZ in Hle. lia.
Qed.

Lemma msum_flag_bound {A} (f : A -> bool) (m : gmap Z A) (n : Z) : 0 <= n -> (forall i a, m !! i = Some a -> 0 <= i < n) ->
  0 <= msum (fun a => b2z (f a)) m <= n.
Proof.
  intros Hn Hr. assert (msum (fun a => b2z (f a)) m <= Z.of_nat (length (map_to_list m).*1)) as Hle.
  { clear Hn Hr n. rewrite length_fmap, length_map_to_list. induction m as [|i a m Hi IH] using map_ind.
    - by rewrite msum_empty.
    - rewrite msum_insert_new, map_size_insert_None by done. unfold b2z in *. destruct (f a); lia. }
  split; [apply msum_nonneg; intros; unfold b2z; by destruct (f _)|].
  etrans; [exact Hle|]. apply NoDup_range_length; [done|apply NoDup_fst_map_to_list|].
  intros x ([i a] & -> & ?%elem_of_map_to_list)%list_elem_of_fmap. by eapply Hr.
Qed.
