(* ===== verification/UintSet.v ===== *)
(** * Sets of 64-bit integers as range lists (ssl/quic/uint_set.c)

    A [UINT_SET] is the doubly linked list of ranges, in list order (head
    first).  A backwards walk of the C code is a recursion over the reversed
    list, with the part already walked over kept in order ([rprev] / [after],
    so that the list is always [rev rprev ++ after]).  [alloc] says whether
    the call's allocation of a list item succeeds. *)

From S2P Require Import Prelude.

Record UINT_RANGE := mkRange { r_start : Z; r_end : Z }.
#[export] Instance eta_range : Eta UINT_RANGE := fun r => mkRange (r_start r) (r_end r).

Abbreviation UINT_SET := (list UINT_RANGE).

Definition ossl_uint_set_init : UINT_SET := [].

Definition u64_min (x y : Z) : Z := if x <? y then x else y.
Definition u64_max_of (x y : Z) : Z := if y <? x then x else y.

Definition uint_range_overlaps (a b : UINT_RANGE) : bool :=
  u64_max_of (r_start a) (r_start b) <=? u64_min (r_end a) (r_end b).

(** Possible merge of [x] with the item before it; the result is the reversed
    list of items before [x], and [x]. *)
Definition uint_set_merge_adjacent (rprev : UINT_SET) (x : UINT_RANGE) : UINT_SET * UINT_RANGE :=
  match rprev with
  | [] => (rprev, x)
  | xprev :: rest =>
      if negb (r_start x -u 1 =? r_end xprev) then (rprev, x)
      else (rest, x <| r_start := r_start xprev |>)
  end.

Definition create_set_item (alloc : bool) (start end_ : Z) : option UINT_RANGE :=
  if alloc then Some (mkRange start end_) else None.

(** The inner loop of the overlap case: walk back to the earliest overlapping
    item; gives its start and the items before it. *)
Fixpoint earliest_overlap (range z : UINT_RANGE) (rprev : UINT_SET) : UINT_RANGE * UINT_SET :=
  match rprev with
  | zprev :: rest =>
      if uint_range_overlaps zprev range then earliest_overlap range zprev rest
      else (z, rprev)
  | [] => (z, [])
  end.

(** The new range lies between the item before [z] and [z]: extend [z]
    backwards, else extend the item before it forwards, else link in a new
    item. *)
Definition insert_between (alloc : bool) (range z : UINT_RANGE) (rprev after : UINT_SET)
  : UINT_SET * bool :=
  let start := r_start range in
  let end_ := r_end range in
  let create :=
    match create_set_item alloc start end_ with
    | None => (rev rprev ++ z :: after, false)
    | Some x => (rev rprev ++ x :: z :: after, true)
    end in
  if r_start z =? end_ +u 1 then
    let '(rprev', z') := uint_set_merge_adjacent rprev (z <| r_start := start |>) in
    (rev rprev' ++ z' :: after, true)
  else
    match rprev with
    | zprev :: rest =>
        if r_end zprev +u 1 =? start then
          let '(rprev', z') := uint_set_merge_adjacent (zprev <| r_end := end_ |> :: rest) z in
          (rev rprev' ++ z' :: after, true)
        else create
    | [] => create
    end.

(** One pass of the [for (; z != NULL; z = zprev)] loop per item of [rz]. *)
Fixpoint insert_walk (alloc : bool) (range : UINT_RANGE) (rz after : UINT_SET) : UINT_SET * bool :=
  match rz with
  | [] => (after, true)
  | z :: rprev =>
      let start := r_start range in
      let end_ := r_end range in
      if (r_start z <=? start) && (end_ <=? r_end z) then (rev rprev ++ z :: after, true)
      else if uint_range_overlaps z range then
        let ov_end := u64_max_of end_ (r_end z) in
        let '(zfirst, rest) := earliest_overlap range z rprev in
        (rev rest ++ mkRange (u64_min start (r_start zfirst)) ov_end :: after, true)
      else if (end_ <? r_start z)
              && match rprev with [] => true | zprev :: _ => r_end zprev <? start end then
        insert_between alloc range z rprev after
      else insert_walk alloc range rprev (z :: after)
  end.

Definition ossl_uint_set_insert (alloc : bool) (s : UINT_SET) (range : UINT_RANGE) : UINT_SET * bool :=
  let start := r_start range in
  let end_ := r_end range in
  if negb (start <=? end_) then (s, false)
  else
    match s, rev s with
    | f :: rest, z :: zrest =>
        if r_end z <? start then
          if r_end z +u 1 =? start then
            (rev zrest ++ [z <| r_end := end_ |>], true)
          else
            match create_set_item alloc start end_ with
            | None => (s, false)
            | Some x => (s ++ [x], true)
            end
        else if (start <=? r_start f) && (r_end z <=? end_) then
          ([mkRange start end_], true)
        else if end_ <? r_start f then insert_walk alloc range [f] rest
        else insert_walk alloc range (rev s) []
    | _, _ =>
        match create_set_item alloc start end_ with
        | None => (s, false)
        | Some x => ([x], true)
        end
    end.

(** The backwards walk of [ossl_uint_set_remove].  [None] is the dereference
    of the NULL item that [create_set_item] returns when it cannot allocate:
    the code links the result in without testing it. *)
Fixpoint remove_walk (alloc : bool) (range : UINT_RANGE) (rz after : UINT_SET) : option UINT_SET :=
  match rz with
  | [] => Some after
  | z :: rprev =>
      let start := r_start range in
      let end_ := r_end range in
      if r_end z <? start then Some (rev rz ++ after)
      else if (start <=? r_start z) && (r_end z <=? end_) then
        remove_walk alloc range rprev after
      else if (start <=? r_start z) && (r_start z <=? end_) then
        remove_walk alloc range rprev (z <| r_start := end_ +u 1 |> :: after)
      else if r_end z <=? end_ then
        Some (rev rprev ++ z <| r_end := start -u 1 |> :: after)
      else if (r_start z <? start) && (end_ <? r_end z) then
        match create_set_item alloc (end_ +u 1) (r_end z) with
        | None => None
        | Some y => Some (rev rprev ++ z <| r_end := start -u 1 |> :: y :: after)
        end
      else remove_walk alloc range rprev (z :: after)
  end.

Definition ossl_uint_set_remove (alloc : bool) (s : UINT_SET) (range : UINT_RANGE)
  : option (UINT_SET * bool) :=
  if negb (r_start range <=? r_end range) then Some (s, false)
  else
    match remove_walk alloc range (rev s) [] with
    | None => None
    | Some s' => Some (s', true)
    end.

Fixpoint query_walk (rz : UINT_SET) (v : Z) : bool :=
  match rz with
  | [] => false
  | x :: rprev =>
      if (r_start x <=? v) && (v <=? r_end x) then true
      else if r_end x <? v then false
      else query_walk rprev v
  end.

Definition ossl_uint_set_query (s : UINT_SET) (v : Z) : bool :=
  match s with
  | [] => false
  | _ => query_walk (rev s) v
  end.

(** ** Invariants

    [us_wf] is what every sequence of operations preserves: ranges are
    non-empty, sorted and disjoint.  [us_gaps] adds the documented requirement
    that neighbouring ranges are separated by at least one absent integer. *)

Definition range_ok (r : UINT_RANGE) : Prop := 0 <= r_start r <= r_end r /\ r_end r < U64_MOD.
Definition before (a b : UINT_RANGE) : Prop := r_end a < r_start b.
Definition gap_before (a b : UINT_RANGE) : Prop := r_end a + 1 < r_start b.

Definition chain (R : UINT_RANGE -> UINT_RANGE -> Prop) (s : UINT_SET) : Prop :=
  Forall range_ok s /\ StronglySorted R s.
Definition us_wf : UINT_SET -> Prop := chain before.
Definition us_gaps : UINT_SET -> Prop := chain gap_before.

Definition in_range (v : Z) (r : UINT_RANGE) : Prop := r_start r <= v <= r_end r.
Definition us_has (s : UINT_SET) (v : Z) : Prop := Exists (in_range v) s.

(** ** Generic facts about chains of ranges *)

Lemma chain_app (R : UINT_RANGE -> UINT_RANGE -> Prop) (l1 l2 : UINT_SET) :
  chain R (l1 ++ l2) <->
  chain R l1 /\ chain R l2 /\ forall a b, a ∈ l1 -> b ∈ l2 -> R a b.
Proof.
  unfold chain. rewrite Forall_app, StronglySorted_app. tauto.
Qed.

Lemma chain_cons (R : UINT_RANGE -> UINT_RANGE -> Prop) (x : UINT_RANGE) (l : UINT_SET) :
  chain R (x :: l) <-> range_ok x /\ chain R l /\ forall b, b ∈ l -> R x b.
Proof.
  unfold chain. rewrite Forall_cons, StronglySorted_cons, (Forall_forall (R x) l). tauto.
Qed.

Lemma chain_nil (R : UINT_RANGE -> UINT_RANGE -> Prop) : chain R [].
Proof. split; constructor. Qed.

Lemma chain_ok (R : UINT_RANGE -> UINT_RANGE -> Prop) (s : UINT_SET) (x : UINT_RANGE) :
  chain R s -> x ∈ s -> range_ok x.
Proof. intros [H _]. by rewrite Forall_forall in H; apply H. Qed.

Lemma us_has_nil (v : Z) : ~ us_has [] v.
Proof. intros H; inversion H. Qed.

Lemma us_has_cons (x : UINT_RANGE) (l : UINT_SET) (v : Z) :
  us_has (x :: l) v <-> in_range v x \/ us_has l v.
Proof. apply Exists_cons. Qed.

Lemma us_has_app (l1 l2 : UINT_SET) (v : Z) :
  us_has (l1 ++ l2) v <-> us_has l1 v \/ us_has l2 v.
Proof. apply Exists_app. Qed.

Lemma us_has_rev (l : UINT_SET) (v : Z) : us_has (rev l) v <-> us_has l v.
Proof.
  induction l as [|x l IH]; [done|]. cbn [rev].
  rewrite us_has_app, !us_has_cons, IH. pose proof (us_has_nil v). tauto.
Qed.

Lemma us_has_elem (l : UINT_SET) (v : Z) :
  us_has l v <-> exists r, r ∈ l /\ in_range v r.
Proof. apply Exists_exists. Qed.

Lemma elem_of_rev (x : UINT_RANGE) (l : UINT_SET) : x ∈ rev l <-> x ∈ l.
Proof. rewrite !list_elem_of_In. symmetry. apply in_rev. Qed.

Lemma us_gaps_wf (s : UINT_SET) : us_gaps s -> us_wf s.
Proof.
  unfold us_gaps, us_wf. induction s as [|x s IH]; [intros; apply chain_nil|].
  rewrite !chain_cons. unfold gap_before, before. intros (? & ? & Hx).
  split_and!; auto. intros b Hb; specialize (Hx b Hb); lia.
Qed.

Lemma overlaps_spec (a b : UINT_RANGE) :
  range_ok a -> range_ok b ->
  uint_range_overlaps a b = true <-> r_start a <= r_end b /\ r_start b <= r_end a.
Proof.
  unfold range_ok, uint_range_overlaps, u64_max_of, u64_min. intros.
  rewrite Z.leb_le. bdestruct_all; lia.
Qed.

Lemma chain_mid (R : UINT_RANGE -> UINT_RANGE -> Prop) (l r : UINT_SET) (x : UINT_RANGE) :
  chain R (l ++ x :: r) <->
  chain R l /\ chain R r /\ range_ok x /\ (forall a, a ∈ l -> R a x) /\
  (forall b, b ∈ r -> R x b) /\ (forall a b, a ∈ l -> b ∈ r -> R a b).
Proof.
  rewrite chain_app, chain_cons. split.
  - intros (Hl & (Hx & Hr & Hxr) & Hc). split_and!; auto.
    + intros a Ha. apply Hc; [done|]. by left.
    + intros a b Ha Hb. apply Hc; [done|]. by right.
  - intros (Hl & Hr & Hx & Hlx & Hxr & Hc). split_and!; auto.
    intros a b Ha [->|Hb]%elem_of_cons; auto.
Qed.

(** Exchanging one item for another that keeps its distance to both sides. *)
Lemma chain_replace (R : UINT_RANGE -> UINT_RANGE -> Prop) (l r : UINT_SET) (x x' : UINT_RANGE) :
  chain R (l ++ x :: r) -> range_ok x' ->
  (forall a, a ∈ l -> R a x') -> (forall b, b ∈ r -> R x' b) ->
  chain R (l ++ x' :: r).
Proof. rewrite !chain_mid. tauto. Qed.

Lemma us_has_bounded_l (l : UINT_SET) (v b : Z) :
  (forall a, a ∈ l -> r_end a < b) -> us_has l v -> v < b.
Proof.
  rewrite us_has_elem. unfold in_range. intros H (r & Hr & Hv). specialize (H r Hr). lia.
Qed.

Lemma chain_snoc (R : UINT_RANGE -> UINT_RANGE -> Prop) (l : UINT_SET) (x : UINT_RANGE) :
  chain R (l ++ [x]) <-> chain R l /\ range_ok x /\ forall a, a ∈ l -> R a x.
Proof.
  rewrite chain_app, chain_cons. setoid_rewrite list_elem_of_singleton.
  pose proof (chain_nil R). split; [naive_solver|].
  intros (? & ? & ?). split_and!; auto; [by intros ? []%elem_of_nil|naive_solver].
Qed.

(** What walking back to the earliest overlapping item establishes. *)
Definition overlap_post (range z zf : UINT_RANGE) (rprev rest : UINT_SET) : Prop :=
  (us_wf (rev rest) /\ range_ok zf /\ r_start zf <= r_start z /\
   r_start zf <= r_end range /\ r_start range <= r_end zf) /\
  (forall a, a ∈ rest -> a ∈ rprev /\ r_end a < r_start zf /\ r_end a < r_start range) /\
  (forall v, us_has (z :: rprev) v -> us_has rest v \/ r_start zf <= v <= r_end z) /\
  (forall v, us_has rest v \/ in_range v zf -> us_has (z :: rprev) v).

Lemma overlap_stop (range z p : UINT_RANGE) (rprev : UINT_SET) :
  range_ok range -> us_wf (rev (p :: rprev)) -> range_ok z -> r_end p < r_start z ->
  r_start z <= r_end range -> r_start range <= r_end z ->
  uint_range_overlaps p range = false ->
  overlap_post range z z (p :: rprev) (p :: rprev).
Proof.
  intros Hr Hwf Hz Hpz Hz1 Hz2 Hov. pose proof Hwf as Hwf0.
  cbn [rev] in Hwf. apply chain_snoc in Hwf as (Hl & Hp & Hlp).
  assert (Hpe : r_end p < r_start range).
  { destruct (Z.lt_ge_cases (r_end p) (r_start range)); [done|exfalso].
    enough (uint_range_overlaps p range = true) by congruence.
    apply overlaps_spec; [done..|]. unfold range_ok in *. lia. }
  split; [split_and!; auto; lia|]. split_and!; [|intros v; rewrite !us_has_cons; unfold in_range; tauto..].
  intros a Ha. assert (r_end a <= r_end p); [|split; [done|lia]].
  apply elem_of_cons in Ha as [->|Ha]; [lia|].
  specialize (Hlp a). rewrite elem_of_rev in Hlp. specialize (Hlp Ha).
  unfold before, range_ok in *. lia.
Qed.

Lemma overlap_extend (range z p zf : UINT_RANGE) (rprev rest : UINT_SET) :
  range_ok z -> r_end p < r_start z -> range_ok p ->
  overlap_post range p zf rprev rest -> overlap_post range z zf (p :: rprev) rest.
Proof.
  intros Hz Hpz Hp ((Hwf & Hzf & H1 & H2 & H3) & Hrest & Hto & Hfrom). unfold range_ok in Hz, Hp.
  split; [split_and!; auto; lia|]. split_and!.
  - intros a Ha. destruct (Hrest a Ha) as (? & ? & ?). split; [by right|done].
  - intros v. rewrite us_has_cons. intros [Hv|Hv]; [right; unfold in_range in Hv; lia|].
    destruct (Hto v Hv); [tauto|]. right. lia.
  - intros v Hv. rewrite us_has_cons. right. by apply Hfrom.
Qed.

Lemma earliest_overlap_spec (range : UINT_RANGE) (rprev : UINT_SET) : range_ok range ->
  forall z zf rest,
  us_wf (rev rprev ++ [z]) -> r_start z <= r_end range -> r_start range <= r_end z ->
  earliest_overlap range z rprev = (zf, rest) -> overlap_post range z zf rprev rest.
Proof.
  intros Hr. induction rprev as [|p rprev IH]; cbn [earliest_overlap]; intros z zf rest Hwf Hz1 Hz2;
    apply chain_snoc in Hwf as (Hl & Hz & Hlz).
  - intros [= <- <-]. split; [split_and!; auto using chain_nil; lia|].
    split_and!; [by intros a []%elem_of_nil|intros v; rewrite !us_has_cons; unfold in_range; tauto..].
  - assert (Hpz : r_end p < r_start z) by (apply Hlz, elem_of_rev; by left).
    destruct (uint_range_overlaps p range) eqn:Hov.
    + intros Heq. cbn [rev] in Hl. pose proof Hl as Hl'. apply chain_snoc in Hl as (_ & Hp & _).
      apply overlaps_spec in Hov as [? ?]; [|done..]. apply overlap_extend; auto.
    + intros [= <- <-]. by apply overlap_stop.
Qed.

Lemma merge_adjacent_spec (rprev after rprev' : UINT_SET) (x x' : UINT_RANGE) :
  us_wf (rev rprev ++ x :: after) ->
  uint_set_merge_adjacent rprev x = (rprev', x') ->
  us_wf (rev rprev' ++ x' :: after) /\
  forall v, us_has (rev rprev' ++ x' :: after) v <-> us_has (rev rprev ++ x :: after) v.
Proof.
  unfold uint_set_merge_adjacent. intros Hwf. destruct rprev as [|p rest]; [by intros [= <- <-]|].
  destruct (Z.eqb_spec (r_start x -u 1) (r_end p)) as [Heq|]; cbn [negb]; [|by intros [= <- <-]].
  intros [= <- <-]. cbn. cbn [rev] in Hwf. rewrite <- app_assoc in Hwf. cbn [app] in Hwf.
  apply chain_mid in Hwf as (Hl & Hr & Hp & Hlp & Hpr & Hlr).
  apply chain_cons in Hr as (Hx & Hr & Hxr).
  assert (Hpx : r_end p < r_start x) by (apply Hpr; by left).
  unfold range_ok in *. rewrite sub64_small in Heq by lia.
  split.
  - apply chain_mid. unfold before, range_ok in *; cbn. split_and!; auto; try lia.
    intros a b Ha Hb. apply Hlr; [done|by right].
  - intros v. rewrite !us_has_app, !us_has_cons. unfold in_range; cbn.
    pose proof (us_has_nil v). intuition lia.
Qed.

Definition insert_post (alloc : bool) (range : UINT_RANGE) (s s' : UINT_SET) (ok : bool) : Prop :=
  us_wf s' /\
  (ok = true -> forall v, us_has s' v <-> us_has s v \/ in_range v range) /\
  (ok = false -> s' = s /\ alloc = false).

Lemma insert_post_true (alloc : bool) (range : UINT_RANGE) (s s' : UINT_SET) :
  us_wf s' -> (forall v, us_has s' v <-> us_has s v \/ in_range v range) ->
  insert_post alloc range s s' true.
Proof. done. Qed.

Lemma walk_overlap (alloc : bool) (range z zf : UINT_RANGE) (rprev rest after : UINT_SET) :
  range_ok range -> us_wf (rev rprev ++ z :: after) ->
  (forall b, b ∈ after -> r_end range < r_start b) ->
  r_start z <= r_end range -> r_start range <= r_end z ->
  overlap_post range z zf rprev rest ->
  insert_post alloc range (rev rprev ++ z :: after)
    (rev rest ++ mkRange (u64_min (r_start range) (r_start zf)) (u64_max_of (r_end range) (r_end z)) :: after)
    true.
Proof.
  intros Hr Hwf Haft Hz1 Hz2 ((Hrw & Hzf & Hs1 & Hs2 & Hs3) & Hrest & Hto & Hfrom).
  apply chain_mid in Hwf as (Hl & Ha & Hz & Hlz & Hza & Hla).
  unfold u64_min, u64_max_of, range_ok in *. apply insert_post_true.
  - apply chain_mid. unfold before, range_ok in *. cbn. split_and!; auto; try (bdestruct_all; lia).
    + intros a Ha'. rewrite elem_of_rev in Ha'. destruct (Hrest a Ha'). bdestruct_all; lia.
    + intros b Hb. specialize (Haft b Hb). specialize (Hza b Hb). bdestruct_all; lia.
    + intros a b Ha' Hb. rewrite elem_of_rev in Ha'. destruct (Hrest a Ha') as (Ha'' & _).
      apply Hla; [by apply elem_of_rev|done].
  - intros v. specialize (Hto v). specialize (Hfrom v). rewrite us_has_cons in Hto, Hfrom.
    rewrite !us_has_app, !us_has_cons, !us_has_rev. unfold in_range in *. cbn.
    split.
    + intros [Hv|[Hv|Hv]]; [tauto| |tauto].
      destruct (Z.lt_ge_cases v (r_start range)); [|destruct (Z.lt_ge_cases (r_end range) v)];
        bdestruct_all; (lia || (assert (r_start zf <= v <= r_end zf) by lia; tauto) || idtac);
        assert (r_start z <= v <= r_end z) by lia; tauto.
    + intros [[Hv|[Hv|Hv]]|Hv]; [| |tauto|right; left; bdestruct_all; lia].
      * destruct Hto; [tauto|tauto|]. right; left; bdestruct_all; lia.
      * destruct Hto; [tauto|tauto|]. right; left; bdestruct_all; lia.
Qed.

(** The new range lies strictly between the item before [z] and [z]. *)
Section Between.
Context (alloc : bool) (range z : UINT_RANGE) (rprev after : UINT_SET).
Context (Hr : range_ok range) (Hwf : us_wf (rev rprev ++ z :: after)).
Context (Hez : r_end range < r_start z) (Hps : forall a, a ∈ rprev -> r_end a < r_start range).

Lemma between_create (s' : UINT_SET) (ok : bool) :
  match create_set_item alloc (r_start range) (r_end range) with
  | None => (rev rprev ++ z :: after, false)
  | Some x => (rev rprev ++ x :: z :: after, true)
  end = (s', ok) ->
  insert_post alloc range (rev rprev ++ z :: after) s' ok.
Proof using Hr Hwf Hez Hps.
  pose proof Hwf as (Hl & Ha & Hz & Hlz & Hza & Hla)%chain_mid.
  unfold create_set_item. destruct alloc; intros [= <- <-]; [|by split].
  apply insert_post_true.
  - apply chain_mid. split_and!; auto; cbn.
    + apply chain_cons; auto.
    + intros a Ha'. rewrite elem_of_rev in Ha'. by apply Hps.
    + intros b [->|Hb]%elem_of_cons; [unfold before; cbn; lia|].
      specialize (Hza b Hb). unfold before, range_ok in *; cbn; lia.
    + intros a b Ha' [->|Hb]%elem_of_cons; auto.
  - intros v. rewrite !us_has_app, !us_has_cons. unfold in_range; cbn. tauto.
Qed.

Lemma between_extend_next (rprev' : UINT_SET) (z' : UINT_RANGE) :
  r_start z = r_end range +u 1 ->
  uint_set_merge_adjacent rprev (z <| r_start := r_start range |>) = (rprev', z') ->
  insert_post alloc range (rev rprev ++ z :: after) (rev rprev' ++ z' :: after) true.
Proof using Hr Hwf Hez Hps.
  pose proof Hwf as (Hl & Ha & Hz & Hlz & Hza & Hla)%chain_mid. intros Heq Hm.
  rewrite add64_small in Heq by (unfold range_ok in *; lia).
  assert (Hx : us_wf (rev rprev ++ z <| r_start := r_start range |> :: after)).
  { apply chain_replace with z; auto; unfold before, range_ok in *; cbn; [lia|].
    intros a Ha'. rewrite elem_of_rev in Ha'. by apply Hps. }
  apply (merge_adjacent_spec _ _ _ _ _ Hx) in Hm as [Hw Hh].
  apply insert_post_true; [done|]. intros v. rewrite Hh, !us_has_app, !us_has_cons.
  unfold in_range, range_ok in *; cbn. intuition lia.
Qed.

Lemma between_extend_prev (zp : UINT_RANGE) (rest rprev' : UINT_SET) (z' : UINT_RANGE) :
  rprev = zp :: rest -> r_end zp +u 1 = r_start range ->
  uint_set_merge_adjacent (zp <| r_end := r_end range |> :: rest) z = (rprev', z') ->
  insert_post alloc range (rev rprev ++ z :: after) (rev rprev' ++ z' :: after) true.
Proof using Hr Hwf Hez Hps.
  intros -> Heq Hm. pose proof Hwf as Hwf1. cbn [rev] in Hwf1.
  rewrite <- app_assoc in Hwf1. cbn [app] in Hwf1.
  pose proof Hwf1 as (Hl & Ha & Hz & Hlz & Hza & Hla)%chain_mid.
  pose proof (Hps zp ltac:(by left)).
  assert (Hx : us_wf (rev (zp <| r_end := r_end range |> :: rest) ++ z :: after)).
  { cbn [rev]. rewrite <- app_assoc. cbn [app].
    apply chain_replace with zp; auto; unfold before, range_ok in *; cbn; [lia|].
    apply chain_cons in Ha as (? & _ & Hzb). unfold range_ok in *.
    intros b [->|Hb]%elem_of_cons; [lia|]. specialize (Hzb b Hb). lia. }
  apply (merge_adjacent_spec _ _ _ _ _ Hx) in Hm as [Hw Hh].
  rewrite add64_small in Heq by (unfold range_ok in *; lia).
  apply insert_post_true; [done|]. intros v. rewrite Hh. cbn [rev].
  rewrite !us_has_app, !us_has_cons. pose proof (us_has_nil v).
  unfold in_range, range_ok in *; cbn. intuition lia.
Qed.

End Between.

Lemma insert_between_spec (alloc : bool) (range z : UINT_RANGE) (rprev after s' : UINT_SET) (ok : bool) :
  range_ok range -> us_wf (rev rprev ++ z :: after) ->
  r_end range < r_start z -> (forall a, a ∈ rprev -> r_end a < r_start range) ->
  insert_between alloc range z rprev after = (s', ok) ->
  insert_post alloc range (rev rprev ++ z :: after) s' ok.
Proof.
  unfold insert_between. cbn zeta. intros Hr Hwf Hez Hps.
  destruct (Z.eqb_spec (r_start z) (r_end range +u 1)).
  { destruct (uint_set_merge_adjacent _ _) eqn:Hm. intros [= <- <-].
    by apply between_extend_next. }
  destruct rprev as [|zp rest]; [by apply between_create|].
  destruct (Z.eqb_spec (r_end zp +u 1) (r_start range)); [|by apply between_create].
  destruct (uint_set_merge_adjacent _ _) eqn:Hm. intros [= <- <-].
  by apply between_extend_prev with zp rest.
Qed.

Lemma insert_walk_spec (alloc : bool) (range : UINT_RANGE) (rz : UINT_SET) : range_ok range ->
  forall after s' ok,
  us_wf (rev rz ++ after) ->
  (forall b, b ∈ after -> r_end range < r_start b) ->
  match rz with [] => False | z :: _ => r_start range <= r_end z end ->
  insert_walk alloc range rz after = (s', ok) ->
  insert_post alloc range (rev rz ++ after) s' ok.
Proof.
  intros Hr. induction rz as [|z rprev IH]; intros after s' ok Hwf Haft Hne; [done|].
  assert (Heqs : rev (z :: rprev) ++ after = rev rprev ++ z :: after)
    by (cbn [rev]; by rewrite <- app_assoc).
  cbn [insert_walk]. rewrite Heqs in Hwf |- *.
  pose proof Hwf as (Hl & Ha & Hz & Hlz & Hza & Hla)%chain_mid.
  destruct ((r_start z <=? r_start range) && (r_end range <=? r_end z)) eqn:Hin.
  { intros [= <- <-]. rewrite andb_true_iff, !Z.leb_le in Hin.
    apply insert_post_true; [done|]. intros v. rewrite !us_has_app, !us_has_cons.
    unfold in_range, range_ok in *. intuition lia. }
  destruct (uint_range_overlaps z range) eqn:Hov.
  { apply overlaps_spec in Hov as [? ?]; [|done..].
    destruct (earliest_overlap range z rprev) as [zf rest] eqn:He. intros [= <- <-].
    apply walk_overlap; auto. apply earliest_overlap_spec with (zf := zf) (rest := rest) in He; auto.
    apply chain_snoc. auto. }
  assert (Hez : r_end range < r_start z).
  { destruct (Z.lt_ge_cases (r_end range) (r_start z)); [done|exfalso].
    enough (uint_range_overlaps z range = true) by congruence. apply overlaps_spec; auto. }
  rewrite (proj2 (Z.ltb_lt _ _) Hez). cbn [andb].
  destruct (match rprev with [] => true | zprev :: _ => r_end zprev <? r_start range end) eqn:Hp.
  - assert (Hps : forall a, a ∈ rprev -> r_end a < r_start range).
    { destruct rprev as [|zp rest]; [by intros a []%elem_of_nil|]. apply Z.ltb_lt in Hp.
      cbn [rev] in Hl. apply chain_snoc in Hl as (_ & Hzp & Hlt).
      intros a [->|Ha']%elem_of_cons; [done|]. specialize (Hlt a ltac:(by apply elem_of_rev)).
      unfold before, range_ok in *. lia. }
    by apply insert_between_spec.
  - intros Heq. destruct rprev as [|zp rest]; [done|]. apply Z.ltb_ge in Hp.
    apply IH in Heq; auto. intros b [->|Hb]%elem_of_cons; auto.
Qed.

Lemma rev_cons_inv (s zrest : UINT_SET) (z : UINT_RANGE) :
  rev s = z :: zrest -> s = rev zrest ++ [z].
Proof. intros H. rewrite <- (rev_involutive s), H. done. Qed.

Lemma insert_append (alloc : bool) (range z : UINT_RANGE) (zrest s' : UINT_SET) (ok : bool) :
  range_ok range -> us_wf (rev zrest ++ [z]) -> r_end z < r_start range ->
  (if r_end z +u 1 =? r_start range then (rev zrest ++ [z <| r_end := r_end range |>], true)
   else match create_set_item alloc (r_start range) (r_end range) with
        | None => (rev zrest ++ [z], false)
        | Some x => ((rev zrest ++ [z]) ++ [x], true)
        end) = (s', ok) ->
  insert_post alloc range (rev zrest ++ [z]) s' ok.
Proof.
  intros Hr Hwf Hz. pose proof Hwf as (Hl & Hzok & Hlz)%chain_snoc.
  destruct (Z.eqb_spec (r_end z +u 1) (r_start range)) as [Heq|].
  - intros [= <- <-]. rewrite add64_small in Heq by (unfold range_ok in *; lia).
    apply insert_post_true.
    + apply chain_snoc. split_and!; auto; unfold range_ok in *; cbn; lia.
    + intros v. rewrite !us_has_app, !us_has_cons. pose proof (us_has_nil v).
      unfold in_range, range_ok in *; cbn. intuition lia.
  - unfold create_set_item. destruct alloc; intros [= <- <-]; [|by split].
    apply insert_post_true.
    + apply chain_snoc. split_and!; auto. intros a Ha. unfold before; cbn.
      apply elem_of_app in Ha as [Ha|Ha]; [|by apply list_elem_of_singleton in Ha as ->].
      specialize (Hlz a Ha). unfold before, range_ok in *. lia.
    + intros v. rewrite !us_has_app, !us_has_cons. pose proof (us_has_nil v).
      unfold in_range, range_ok in *; cbn. intuition lia.
Qed.

Lemma us_has_span (f z : UINT_RANGE) (rest zrest : UINT_SET) (v : Z) :
  f :: rest = rev zrest ++ [z] -> us_wf (f :: rest) -> us_has (f :: rest) v ->
  r_start f <= v <= r_end z.
Proof.
  intros Heq Hwf Hv. split.
  - apply chain_cons in Hwf as (Hf & _ & Hfr). rewrite us_has_cons, us_has_elem in Hv.
    unfold in_range, range_ok, before in *. destruct Hv as [?|(r & Hr & ?)]; [lia|].
    specialize (Hfr r Hr). lia.
  - rewrite Heq in *. apply chain_snoc in Hwf as (_ & Hz & Hlz).
    rewrite us_has_app, us_has_cons, us_has_elem in Hv. pose proof (us_has_nil v).
    unfold in_range, range_ok, before in *.
    destruct Hv as [(r & Hr & ?)|[?|?]]; [|lia|done]. specialize (Hlz r Hr). lia.
Qed.

(** Adding a range to a well-formed set gives a well-formed set with exactly
    the union of the two; the only failure is the failed allocation, and it
    leaves the set as it was. *)
Lemma insert_spec (alloc : bool) (s s' : UINT_SET) (range : UINT_RANGE) (ok : bool) :
  us_wf s -> range_ok range ->
  ossl_uint_set_insert alloc s range = (s', ok) ->
  insert_post alloc range s s' ok.
Proof.
  intros Hwf Hr. unfold ossl_uint_set_insert.
  rewrite (proj2 (Z.leb_le (r_start range) (r_end range))) by apply Hr. cbn [negb].
  destruct s as [|f rest].
  { unfold create_set_item. destruct alloc; intros [= <- <-]; [|by split].
    apply insert_post_true; [by apply chain_cons; split_and!; auto using chain_nil; intros b []%elem_of_nil|].
    intros v. rewrite us_has_cons. unfold in_range; cbn. tauto. }
  destruct (rev (f :: rest)) as [|z zrest] eqn:Hrev.
  { apply (f_equal length) in Hrev. by rewrite length_rev in Hrev. }
  pose proof (rev_cons_inv _ _ _ Hrev) as Hs.
  assert (Hzok : range_ok z) by (eapply chain_ok; [exact Hwf|rewrite Hs; set_solver]).
  destruct (Z.ltb_spec (r_end z) (r_start range)).
  { rewrite Hs in *. intros Heq. by apply insert_append. }
  destruct ((r_start range <=? r_start f) && (r_end z <=? r_end range)) eqn:Hd.
  { intros [= <- <-]. rewrite andb_true_iff, !Z.leb_le in Hd. apply insert_post_true.
    - apply chain_cons; split_and!; auto using chain_nil; by intros b []%elem_of_nil.
    - intros v. rewrite (us_has_cons _ []). pose proof (us_has_nil v).
      pose proof (us_has_span f z rest zrest v Hs Hwf). unfold in_range; cbn. intuition lia. }
  pose proof Hwf as (Hf & Hrw & Hfr)%chain_cons.
  destruct (Z.ltb_spec (r_end range) (r_start f)); intros Heq.
  - change (f :: rest) with (rev [f] ++ rest). apply insert_walk_spec in Heq; auto.
    + intros b Hb. specialize (Hfr b Hb). unfold before, range_ok in *. lia.
    + unfold range_ok in *. lia.
  - rewrite <- Hrev in Heq. apply insert_walk_spec in Heq; rewrite ?rev_involutive, ?app_nil_r in *; auto.
    + by intros b []%elem_of_nil.
    + by rewrite Hrev.
Qed.

(** ** Removal and query *)

Section Removal.
(** Both orders on ranges allow shrinking and cutting. *)
Context (R : UINT_RANGE -> UINT_RANGE -> Prop).
Context (Rmono : forall a b a' b', R a b -> r_end a' <= r_end a -> r_start b <= r_start b' -> R a' b').
Context (Rbefore : forall a b, R a b -> r_end a < r_start b).
Context (Rcut : forall a b, r_end a + 1 < r_start b -> R a b).

Lemma chain_shrink (l r : UINT_SET) (x x' : UINT_RANGE) :
  chain R (l ++ x :: r) -> range_ok x' -> r_start x <= r_start x' -> r_end x' <= r_end x ->
  chain R (l ++ x' :: r).
Proof using Rmono.
  intros Hc Hok Hs He. pose proof Hc as (_ & _ & _ & Hlx & Hxr & _)%chain_mid.
  apply chain_replace with x; eauto using Z.le_refl.
Qed.

Lemma chain_delete (l r : UINT_SET) (x : UINT_RANGE) : chain R (l ++ x :: r) -> chain R (l ++ r).
Proof. rewrite chain_mid, chain_app. tauto. Qed.

Lemma chain_cut (l r : UINT_SET) (x : UINT_RANGE) (e s : Z) :
  chain R (l ++ x :: r) -> r_start x <= e -> e + 1 < s -> s <= r_end x ->
  chain R (l ++ x <| r_end := e |> :: mkRange s (r_end x) :: r).
Proof using Rmono Rcut.
  intros (Hl & Hr & Hx & Hlx & Hxr & Hlr)%chain_mid H1 H2 H3. unfold range_ok in Hx.
  apply chain_mid. cbn. split_and!; auto.
  - apply chain_cons. split_and!; auto; [unfold range_ok; cbn; lia|].
    intros b Hb. apply Rmono with x b; cbn; auto; lia.
  - unfold range_ok; cbn; lia.
  - intros a Ha. apply Rmono with a x; cbn; auto; lia.
  - intros b [->|Hb]%elem_of_cons; [apply Rcut; cbn; lia|].
    apply Rmono with x b; cbn; auto; lia.
  - intros a b Ha [->|Hb]%elem_of_cons; [|by auto]. apply Rmono with a x; cbn; auto; lia.
Qed.

Lemma remove_walk_spec (alloc : bool) (range : UINT_RANGE) (rz : UINT_SET) : range_ok range ->
  forall after s',
  chain R (rev rz ++ after) -> (forall b, b ∈ after -> r_end range < r_start b) ->
  remove_walk alloc range rz after = Some s' ->
  chain R s' /\ forall v, us_has s' v <-> us_has (rev rz ++ after) v /\ ~ in_range v range.
Proof using Rmono Rbefore Rcut.
  intros Hr. assert (Haft_has : forall after v, (forall b, b ∈ after -> r_end range < r_start b) ->
    us_has after v -> ~ in_range v range).
  { intros after v Haft (b & Hb & Hv)%us_has_elem. specialize (Haft b Hb). unfold in_range in *. lia. }
  induction rz as [|z rprev IH]; intros after s' Hc Haft; cbn [remove_walk].
  { intros [= <-]. cbn [rev app] in *. split; [done|]. intros v. specialize (Haft_has after v Haft). tauto. }
  assert (Heqs : rev (z :: rprev) ++ after = rev rprev ++ z :: after)
    by (cbn [rev]; by rewrite <- app_assoc).
  rewrite Heqs in Hc |- *.
  pose proof Hc as (Hl & Ha & Hz & Hlz & Hza & Hla)%chain_mid. unfold range_ok in Hr, Hz.
  assert (Hlow : forall v, us_has rprev v -> v < r_start z).
  { intros v Hv. apply (us_has_bounded_l rprev); [|done]. intros a Ha'.
    apply Rbefore, Hlz, elem_of_rev. done. }
  assert (Hhas : forall v, us_has (rev rprev ++ z :: after) v <-> us_has rprev v \/ in_range v z \/ us_has after v).
  { intros v. by rewrite us_has_app, us_has_cons, us_has_rev. }
  setoid_rewrite Hhas. specialize (Haft_has after).
  destruct (Z.ltb_spec (r_end z) (r_start range)).
  { intros [= <-]. split; [done|]. intros v. rewrite Hhas. specialize (Haft_has v Haft).
    specialize (Hlow v). unfold in_range in *. intuition lia. }
  destruct ((r_start range <=? r_start z) && (r_end z <=? r_end range)) eqn:Hd.
  { rewrite andb_true_iff, !Z.leb_le in Hd. intros Heq.
    destruct (IH after s' (chain_delete _ _ _ Hc) Haft Heq) as [Hc' Hh]. split; [done|].
    intros v. rewrite Hh, us_has_app, us_has_rev. unfold in_range. intuition lia. }
  destruct ((r_start range <=? r_start z) && (r_start z <=? r_end range)) eqn:Hd2.
  { rewrite andb_true_iff, !Z.leb_le in Hd2. rewrite andb_false_iff, !Z.leb_gt in Hd.
    intros Heq. rewrite add64_small in Heq by lia. apply IH in Heq as [Hc' Hh].
    - split; [done|]. intros v. rewrite Hh, us_has_app, us_has_cons, us_has_rev.
      unfold in_range; cbn. intuition lia.
    - apply chain_shrink with z; auto; unfold range_ok; cbn; lia.
    - intros b [->|Hb]%elem_of_cons; cbn; [lia|auto]. }
  rewrite andb_false_iff, !Z.leb_gt in Hd, Hd2.
  destruct (Z.leb_spec (r_end z) (r_end range)).
  { intros [= <-]. rewrite sub64_small by lia. split.
    - apply chain_shrink with z; auto; unfold range_ok; cbn; lia.
    - intros v. rewrite us_has_app, us_has_cons, us_has_rev. specialize (Haft_has v Haft).
      specialize (Hlow v). unfold in_range in *; cbn. intuition lia. }
  destruct ((r_start z <? r_start range) && (r_end range <? r_end z)) eqn:Hd3.
  { rewrite andb_true_iff, !Z.ltb_lt in Hd3. unfold create_set_item. destruct alloc; [|done].
    intros [= <-]. rewrite sub64_small, add64_small by lia. split.
    - apply chain_cut; auto; lia.
    - intros v. rewrite us_has_app, !us_has_cons, us_has_rev. specialize (Haft_has v Haft).
      specialize (Hlow v). unfold in_range in *; cbn. intuition lia. }
  rewrite andb_false_iff, !Z.ltb_ge in Hd3. intros Heq. apply IH in Heq as [Hc' Hh]; auto.
  - split; [done|]. intros v. by rewrite Hh, Hhas.
  - intros b [->|Hb]%elem_of_cons; [lia|auto].
Qed.
End Removal.

Lemma remove_total (range : UINT_RANGE) (rz : UINT_SET) :
  forall after, remove_walk true range rz after <> None.
Proof.
  induction rz as [|z rprev IH]; intros after; cbn [remove_walk]; [done|].
  repeat case_match; auto; done.
Qed.

Lemma query_walk_spec (rz : UINT_SET) (v : Z) :
  us_wf (rev rz) -> query_walk rz v = true <-> us_has rz v.
Proof.
  induction rz as [|x rz IH]; cbn [query_walk rev]; intros Hwf.
  - pose proof (us_has_nil v). split; [done|tauto].
  - apply chain_snoc in Hwf as (Hl & Hx & Hlx). rewrite us_has_cons. unfold in_range.
    assert (us_has rz v -> v < r_start x).
    { apply us_has_bounded_l. intros a Ha. apply Hlx, elem_of_rev. done. }
    specialize (IH Hl). unfold range_ok in Hx. bdestruct_all; try tauto; intuition (try lia; done).
Qed.

(** ** Separated ranges *)

Lemma gaps_join (l r : UINT_SET) (p x : UINT_RANGE) :
  us_gaps (l ++ [p]) -> us_gaps (x :: r) -> r_end p + 1 < r_start x ->
  us_gaps (l ++ p :: x :: r).
Proof.
  intros (Hl & Hp & Hlp)%chain_snoc Hxr Hpx. pose proof Hxr as (Hx & Hr & Hxb)%chain_cons.
  unfold gap_before, range_ok in *.
  assert (Hpb : forall b, b ∈ x :: r -> r_end p + 1 < r_start b).
  { intros b [->|Hb]%elem_of_cons; [done|]. specialize (Hxb b Hb). lia. }
  apply chain_mid. split_and!; auto.
  intros a b Ha Hb. specialize (Hlp a Ha). specialize (Hpb b Hb). unfold gap_before. lia.
Qed.

Lemma merge_adjacent_gaps (rprev after rprev' : UINT_SET) (x x' : UINT_RANGE) :
  us_gaps (rev rprev) -> us_gaps (x :: after) ->
  (forall a, a ∈ rprev -> r_end a < r_start x) ->
  uint_set_merge_adjacent rprev x = (rprev', x') ->
  us_gaps (rev rprev' ++ x' :: after).
Proof.
  unfold uint_set_merge_adjacent. intros Hl Hxr Hpx.
  destruct rprev as [|p rest]; [by intros [= <- <-]|]. cbn [rev] in Hl.
  pose proof Hl as (Hrest & Hp & Hlp)%chain_snoc. specialize (Hpx p ltac:(by left)).
  pose proof Hxr as (Hx & Hr & Hxb)%chain_cons. unfold range_ok in Hp, Hx.
  rewrite sub64_small by lia.
  destruct (Z.eqb_spec (r_start x - 1) (r_end p)); cbn [negb]; intros [= <- <-].
  - apply chain_mid. cbn. unfold gap_before, range_ok in *. cbn. split_and!; auto; try lia.
    intros a b Ha Hb. specialize (Hlp a Ha). specialize (Hxb b Hb). lia.
  - cbn [rev]. rewrite <- app_assoc. apply gaps_join; auto. lia.
Qed.

Lemma chain_single (R : UINT_RANGE -> UINT_RANGE -> Prop) (x : UINT_RANGE) :
  range_ok x -> chain R [x].
Proof. intros. apply chain_cons. split_and!; auto using chain_nil. by intros b []%elem_of_nil. Qed.

Lemma insert_between_gaps (alloc : bool) (range z : UINT_RANGE) (rprev after s' : UINT_SET) (ok : bool) :
  range_ok range -> us_gaps (rev rprev ++ z :: after) -> r_end range < r_start z ->
  (forall a, a ∈ rprev -> r_end a < r_start range) ->
  insert_between alloc range z rprev after = (s', ok) -> us_gaps s'.
Proof.
  unfold insert_between. cbn zeta. intros Hr Hg Hez Hps.
  pose proof Hg as (Hl & Hzr & _)%chain_app. pose proof Hzr as (Hz & Ha & Hza)%chain_cons.
  assert (Hrz : r_end range + 1 < r_start z -> us_gaps (range :: z :: after)).
  { intros. apply (gaps_join [] after range z); auto. by apply chain_single. }
  rewrite add64_small by (unfold range_ok in *; lia).
  destruct (Z.eqb_spec (r_start z) (r_end range + 1)).
  { destruct (uint_set_merge_adjacent _ _) eqn:Hm. intros [= <- <-].
    eapply merge_adjacent_gaps; [exact Hl| | |exact Hm]; [|done].
    apply chain_cons; split_and!; auto; unfold range_ok in *; cbn; lia. }
  specialize (Hrz ltac:(lia)). destruct range as [st en]. cbn [r_start r_end] in *.
  destruct rprev as [|zp rest].
  { unfold create_set_item. destruct alloc; intros [= <- <-]; [done|done]. }
  pose proof Hl as (Hrest & Hzp & Hrz')%chain_snoc. pose proof (Hps zp ltac:(by left)).
  rewrite add64_small by (unfold range_ok in *; cbn in *; lia).
  destruct (Z.eqb_spec (r_end zp + 1) st).
  - destruct (uint_set_merge_adjacent _ _) eqn:Hm. intros [= <- <-].
    eapply merge_adjacent_gaps; [| exact Hzr| |exact Hm].
    + cbn [rev]. apply chain_snoc. split_and!; auto; unfold range_ok in *; cbn in *; lia.
    + intros a [->|Ha']%elem_of_cons; cbn; [lia|]. specialize (Hps a ltac:(by right)).
      unfold range_ok in *; cbn in *; lia.
  - unfold create_set_item. destruct alloc; intros [= <- <-]; [|done].
    cbn [rev]. rewrite <- app_assoc. cbn [app]. apply gaps_join; auto; cbn; lia.
Qed.

Lemma insert_walk_gaps (alloc : bool) (range : UINT_RANGE) (rz : UINT_SET) :
  range_ok range -> r_start range = r_end range ->
  forall after s' ok,
  us_gaps (rev rz ++ after) ->
  match rz with [] => False | z :: _ => r_start range <= r_end z end ->
  insert_walk alloc range rz after = (s', ok) -> us_gaps s'.
Proof.
  intros Hr Hpt. induction rz as [|z rprev IH]; intros after s' ok Hg Hne; [done|].
  cbn [insert_walk]. cbn [rev] in Hg. rewrite <- app_assoc in Hg. cbn [app] in Hg.
  pose proof Hg as (Hl & Ha & Hz & Hlz & Hza & Hla)%chain_mid.
  destruct ((r_start z <=? r_start range) && (r_end range <=? r_end z)) eqn:Hin.
  { by intros [= <- <-]. }
  rewrite andb_false_iff, !Z.leb_gt in Hin.
  assert (Hez : r_end range < r_start z) by (unfold range_ok in *; lia).
  destruct (uint_range_overlaps z range) eqn:Hov.
  { apply overlaps_spec in Hov; auto. unfold range_ok in *. lia. }
  rewrite (proj2 (Z.ltb_lt _ _) Hez). cbn [andb].
  destruct rprev as [|zp rest].
  { apply insert_between_gaps; auto. by intros a []%elem_of_nil. }
  destruct (Z.ltb_spec (r_end zp) (r_start range)).
  - apply insert_between_gaps; auto. intros a [->|Ha']%elem_of_cons; [done|].
    cbn [rev] in Hl. apply chain_snoc in Hl as (_ & Hzp & Hrz).
    specialize (Hrz a ltac:(by apply elem_of_rev)). unfold gap_before, range_ok in *. lia.
  - intros Heq. by apply IH in Heq.
Qed.

(** ** The set as clients see it *)

Inductive set_op := OpInsert (r : UINT_RANGE) | OpRemove (r : UINT_RANGE).

Definition op_range (o : set_op) : UINT_RANGE :=
  match o with OpInsert r | OpRemove r => r end.

(** A call with a working allocator; [None] when it crashes or returns 0. *)
Definition run_op (s : UINT_SET) (o : set_op) : option UINT_SET :=
  match o with
  | OpInsert r => match ossl_uint_set_insert true s r with (s', true) => Some s' | _ => None end
  | OpRemove r => match ossl_uint_set_remove true s r with Some (s', true) => Some s' | _ => None end
  end.

Definition run_ops (ops : list set_op) : option UINT_SET :=
  foldl (fun os o => os ≫= fun s => run_op s o) (Some ossl_uint_set_init) ops.

(** The abstract set: the last operation whose range covers [v] decides. *)
Definition abs_step (v : Z) (b : bool) (o : set_op) : bool :=
  if (r_start (op_range o) <=? v) && (v <=? r_end (op_range o))
  then match o with OpInsert _ => true | OpRemove _ => false end
  else b.

Definition abs_has (ops : list set_op) (v : Z) : bool := foldl (abs_step v) false ops.

Lemma remove_spec (R : UINT_RANGE -> UINT_RANGE -> Prop) (s : UINT_SET) (range : UINT_RANGE) :
  R = before \/ R = gap_before ->
  chain R s -> range_ok range ->
  exists s', ossl_uint_set_remove true s range = Some (s', true) /\
    chain R s' /\ forall v, us_has s' v <-> us_has s v /\ ~ in_range v range.
Proof.
  intros HR Hc Hr. unfold ossl_uint_set_remove.
  rewrite (proj2 (Z.leb_le (r_start range) (r_end range))) by apply Hr. cbn [negb].
  destruct (remove_walk true range (rev s) []) as [s'|] eqn:He; [|by apply remove_total in He].
  exists s'. split; [done|]. apply (remove_walk_spec R) in He; auto;
    rewrite ?rev_involutive, ?app_nil_r in *; auto; try (by intros b []%elem_of_nil);
    destruct HR; subst R; unfold before, gap_before; intros; lia.
Qed.

Lemma query_spec (s : UINT_SET) (v : Z) : us_wf s -> ossl_uint_set_query s v = true <-> us_has s v.
Proof.
  intros Hwf. unfold ossl_uint_set_query. destruct s as [|x s]; [|rewrite <- us_has_rev].
  - pose proof (us_has_nil v). split; [done|tauto].
  - apply query_walk_spec. by rewrite rev_involutive.
Qed.

Lemma run_op_spec (s : UINT_SET) (o : set_op) :
  us_wf s -> range_ok (op_range o) ->
  exists s', run_op s o = Some s' /\ us_wf s' /\
    forall v, us_has s' v <-> abs_step v (ossl_uint_set_query s v) o = true.
Proof.
  intros Hwf Hr. assert (Hin : forall v, ((r_start (op_range o) <=? v) && (v <=? r_end (op_range o))) = true
    <-> in_range v (op_range o)).
  { intros v. rewrite andb_true_iff, !Z.leb_le. done. }
  unfold abs_step.
  destruct o as [r|r]; cbn [run_op op_range] in *.
  - destruct (ossl_uint_set_insert true s r) as [s' ok] eqn:He.
    apply insert_spec in He as (Hw & Hh & Hf); auto.
    destruct ok; [|by destruct Hf as [_ ?]]. exists s'. split_and!; auto. intros v.
    rewrite Hh by done. specialize (Hin v). pose proof (query_spec s v Hwf).
    destruct (_ && _); intuition congruence.
  - destruct (remove_spec before s r) as (s' & -> & Hw & Hh); auto. exists s'.
    split_and!; auto. intros v. rewrite Hh. specialize (Hin v). pose proof (query_spec s v Hwf).
    destruct (_ && _); intuition congruence.
Qed.

(** C16. [UINT_SET] refines a mathematical set: after any sequence of range
    insertions and removals with valid ranges no call fails, the range list is
    sorted and disjoint, and a query answers exactly whether the last
    operation covering the value was an insertion. *)
Theorem uint_set_refines_set (ops : list set_op) :
  Forall (fun o => range_ok (op_range o)) ops ->
  exists s, run_ops ops = Some s /\ us_wf s /\
    forall v, ossl_uint_set_query s v = abs_has ops v.
Proof.
  unfold run_ops, abs_has. induction ops as [|o ops IH] using rev_ind; intros Hok.
  - exists []. split_and!; [done|apply chain_nil|done].
  - apply Forall_app in Hok as [Hok Ho]. rewrite Forall_singleton in Ho.
    destruct (IH Hok) as (s & Hrun & Hwf & Hq). rewrite foldl_app, Hrun. cbn.
    destruct (run_op_spec s o Hwf Ho) as (s' & -> & Hwf' & Hh). exists s'. split_and!; auto.
    intros v. rewrite foldl_app. cbn. rewrite <- Hq. specialize (Hh v).
    pose proof (query_spec s' v Hwf'). destruct (ossl_uint_set_query s' v), (abs_step _ _ _); intuition congruence.
Qed.

Lemma uint_set_refines_set_witness :
  exists s, run_ops [OpInsert (mkRange 1 4); OpInsert (mkRange 8 9); OpRemove (mkRange 3 8)] = Some s /\
    us_wf s /\ forall v, ossl_uint_set_query s v =
      abs_has [OpInsert (mkRange 1 4); OpInsert (mkRange 8 9); OpRemove (mkRange 3 8)] v.
Proof.
  apply (uint_set_refines_set [OpInsert (mkRange 1 4); OpInsert (mkRange 8 9); OpRemove (mkRange 3 8)]).
  repeat constructor; cbn; lia.
Defined.

Lemma insert_point_gaps_aux (alloc : bool) (s s' : UINT_SET) (range : UINT_RANGE) (ok : bool) :
  us_gaps s -> range_ok range -> r_start range = r_end range ->
  ossl_uint_set_insert alloc s range = (s', ok) -> us_gaps s'.
Proof.
  intros Hg Hr Hpt. unfold ossl_uint_set_insert.
  rewrite (proj2 (Z.leb_le (r_start range) (r_end range))) by apply Hr. cbn [negb].
  destruct s as [|f rest].
  { unfold create_set_item. destruct alloc; intros [= <- <-]; auto using chain_single, chain_nil.
    by apply chain_single. }
  destruct (rev (f :: rest)) as [|z zrest] eqn:Hrev.
  { apply (f_equal length) in Hrev. by rewrite length_rev in Hrev. }
  pose proof (rev_cons_inv _ _ _ Hrev) as Hs.
  assert (Hzok : range_ok z) by (eapply chain_ok; [exact Hg|rewrite Hs; set_solver]).
  destruct (Z.ltb_spec (r_end z) (r_start range)).
  - rewrite Hs in *. pose proof Hg as (Hl & _ & Hlz)%chain_snoc.
    rewrite add64_small by (unfold range_ok in *; lia).
    destruct (Z.eqb_spec (r_end z + 1) (r_start range)).
    + intros [= <- <-]. apply chain_snoc. unfold range_ok, gap_before in *; cbn. split_and!; auto; lia.
    + unfold create_set_item. destruct alloc; intros [= <- <-]; [|done].
      rewrite <- app_assoc. cbn [app]. apply gaps_join; auto; [|cbn; lia].
      by apply chain_single.
  - destruct ((r_start range <=? r_start f) && (r_end z <=? r_end range)) eqn:Hd.
    { intros [= <- <-]. by apply chain_single. }
    pose proof Hg as (Hf & _ & _)%chain_cons.
    destruct (Z.ltb_spec (r_end range) (r_start f)); intros Heq.
    + apply insert_walk_gaps in Heq; auto. unfold range_ok in *. lia.
    + rewrite <- Hrev in Heq. apply insert_walk_gaps in Heq; auto.
      * by rewrite rev_involutive, app_nil_r.
      * by rewrite Hrev.
Qed.

(** Inserting single integers, as the ACK manager does with packet
    numbers, keeps every two neighbouring ranges separated by an absent
    integer, and so does removing a range. *)
Theorem point_insert_keeps_gaps (s : UINT_SET) (pn : Z) (range : UINT_RANGE) :
  us_gaps s -> u64 pn -> range_ok range ->
  us_gaps (fst (ossl_uint_set_insert true s (mkRange pn pn))) /\
  exists s', ossl_uint_set_remove true s range = Some (s', true) /\ us_gaps s'.
Proof.
  intros Hg Hpn Hr. split.
  - destruct (ossl_uint_set_insert true s (mkRange pn pn)) eqn:He.
    eapply insert_point_gaps_aux in He; eauto. unfold range_ok, u64 in *; cbn; lia.
  - destruct (remove_spec gap_before s range) as (s' & ? & ? & _); auto. by exists s'.
Qed.

Lemma point_insert_keeps_gaps_witness :
  us_gaps (fst (ossl_uint_set_insert true [mkRange 0 2; mkRange 4 5] (mkRange 3 3))) /\
  exists s', ossl_uint_set_remove true [mkRange 0 2; mkRange 4 5] (mkRange 1 1) = Some (s', true) /\ us_gaps s'.
Proof.
  apply (point_insert_keeps_gaps [mkRange 0 2; mkRange 4 5] 3 (mkRange 1 1)).
  - repeat constructor; cbn; lia.
  - by vm_compute.
  - by vm_compute.
Defined.

(** The documented invariant that bordering ranges are always merged does
    not hold for general ranges: inserting [3,5] into {[1,2], [5,6]} leaves
    [1,2] and [3,6] as two items. *)
Theorem insert_overlap_leaves_bordering_ranges :
  let s := [mkRange 1 2; mkRange 5 6] in
  us_gaps s /\
  ossl_uint_set_insert true s (mkRange 3 5) = ([mkRange 1 2; mkRange 3 6], true) /\
  ~ us_gaps [mkRange 1 2; mkRange 3 6].
Proof.
  split_and!; [repeat constructor; cbn; lia|done|].
  intros [_ (Hlt & _)%StronglySorted_cons]. rewrite Forall_singleton in Hlt.
  unfold gap_before in Hlt; cbn in Hlt. lia.
Qed.

(** Cutting a range in two when the new item cannot be allocated
    dereferences NULL; the header promises a return of 0 with the set
    unchanged.  With a working allocator removal never crashes. *)
Theorem remove_crashes_only_on_failed_alloc (s : UINT_SET) (range : UINT_RANGE) :
  us_wf s -> range_ok range ->
  ossl_uint_set_remove true s range <> None /\
  (forall z, s = [z] -> r_start z < r_start range -> r_end range < r_end z ->
   ossl_uint_set_remove false s range = None).
Proof.
  intros Hwf Hr. split.
  - destruct (remove_spec before s range) as (s' & -> & _); auto.
  - intros z -> H1 H2. unfold ossl_uint_set_remove. cbn. unfold range_ok in Hr.
    bdestruct_all; try lia; done.
Qed.

Lemma remove_crashes_only_on_failed_alloc_witness :
  ossl_uint_set_remove true [mkRange 1 9] (mkRange 4 5) <> None /\
  (forall z, [mkRange 1 9] = [z] -> r_start z < 4 -> 5 < r_end z ->
   ossl_uint_set_remove false [mkRange 1 9] (mkRange 4 5) = None).
Proof.
  apply (remove_crashes_only_on_failed_alloc [mkRange 1 9] (mkRange 4 5)).
  - repeat constructor; cbn; lia.
  - by vm_compute.
Defined.

(** *** Ranges disjoint from the set *)

Definition apart (range z : UINT_RANGE) : Prop := r_end range < r_start z \/ r_end z < r_start range.

Lemma insert_walk_gaps_apart (alloc : bool) (range : UINT_RANGE) (rz : UINT_SET) :
  range_ok range -> (forall z, z ∈ rz -> apart range z) ->
  forall after s' ok,
  us_gaps (rev rz ++ after) ->
  match rz with [] => False | z :: _ => r_start range <= r_end z end ->
  insert_walk alloc range rz after = (s', ok) -> us_gaps s'.
Proof.
  intros Hr. induction rz as [|z rprev IH]; intros Hap after s' ok Hg Hne; [done|].
  cbn [insert_walk]. cbn [rev] in Hg. rewrite <- app_assoc in Hg. cbn [app] in Hg.
  pose proof Hg as (Hl & Ha & Hz & Hlz & Hza & Hla)%chain_mid.
  assert (Hez : r_end range < r_start z) by (destruct (Hap z ltac:(set_solver)); unfold range_ok in *; lia).
  rewrite (proj2 (Z.leb_gt (r_start z) (r_start range))) by (unfold range_ok in *; lia). cbn [andb].
  destruct (uint_range_overlaps z range) eqn:Hov.
  { apply overlaps_spec in Hov; auto. unfold range_ok in *. lia. }
  rewrite (proj2 (Z.ltb_lt _ _) Hez). cbn [andb].
  destruct rprev as [|zp rest].
  { apply insert_between_gaps; auto. by intros a []%elem_of_nil. }
  destruct (Z.ltb_spec (r_end zp) (r_start range)).
  - apply insert_between_gaps; auto. intros a [->|Ha']%elem_of_cons; [done|].
    cbn [rev] in Hl. apply chain_snoc in Hl as (_ & Hzp & Hrz).
    specialize (Hrz a ltac:(by apply elem_of_rev)). unfold gap_before, range_ok in *. lia.
  - intros Heq. apply IH in Heq; auto. set_solver.
Qed.

(** Inserting a range that meets no item keeps the gaps. *)
Lemma insert_apart_gaps (alloc : bool) (s s' : UINT_SET) (range : UINT_RANGE) (ok : bool) :
  us_gaps s -> range_ok range -> (forall v, us_has s v -> ~ in_range v range) ->
  ossl_uint_set_insert alloc s range = (s', ok) -> us_gaps s'.
Proof.
  intros Hg Hr Hdis. unfold ossl_uint_set_insert.
  assert (Hap : forall z, z ∈ s -> apart range z).
  { intros z Hz. pose proof (chain_ok _ _ _ Hg Hz) as Hzok. unfold range_ok, apart in *.
    destruct (Z.lt_ge_cases (r_end range) (r_start z)); [by left|]. destruct (Z.lt_ge_cases (r_end z) (r_start range)); [by right|].
    exfalso. apply (Hdis (Z.max (r_start range) (r_start z))); [apply us_has_elem; exists z|]; unfold in_range; [split; [done|]|]; lia. }
  rewrite (proj2 (Z.leb_le (r_start range) (r_end range))) by apply Hr. cbn [negb].
  destruct s as [|f rest].
  { unfold create_set_item. destruct alloc; intros [= <- <-]; [by apply chain_single|apply chain_nil]. }
  destruct (rev (f :: rest)) as [|z zrest] eqn:Hrev.
  { apply (f_equal length) in Hrev. by rewrite length_rev in Hrev. }
  pose proof (rev_cons_inv _ _ _ Hrev) as Hs.
  assert (Hzin : z ∈ f :: rest) by (rewrite Hs; set_solver). pose proof (chain_ok _ _ _ Hg Hzin) as Hzok.
  pose proof Hg as (Hf & _ & _)%chain_cons.
  destruct (Z.ltb_spec (r_end z) (r_start range)).
  - rewrite Hs in Hg |- *. pose proof Hg as (Hl & _ & Hlz)%chain_snoc.
    rewrite add64_small by (unfold range_ok in *; lia).
    destruct (Z.eqb_spec (r_end z + 1) (r_start range)).
    + intros [= <- <-]. apply chain_snoc. unfold range_ok, gap_before in *; cbn. split_and!; auto; lia.
    + unfold create_set_item. destruct alloc; intros [= <- <-]; [|done].
      rewrite <- app_assoc. cbn [app]. apply gaps_join; auto; [|cbn; lia].
      by apply chain_single.
  - destruct (Hap z Hzin) as [Hlt|]; [|lia].
    rewrite (proj2 (Z.leb_gt (r_end z) (r_end range))) by (unfold range_ok in *; lia). rewrite andb_false_r.
    destruct (Z.ltb_spec (r_end range) (r_start f)); intros Heq.
    + apply insert_walk_gaps_apart in Heq; auto; [intros x Hx; apply Hap; set_solver|unfold range_ok in *; lia].
    + rewrite <- Hrev in Heq. apply insert_walk_gaps_apart in Heq; auto.
      * intros x Hx. apply Hap. by apply elem_of_rev.
      * by rewrite rev_involutive, app_nil_r.
      * by rewrite Hrev.
Qed.
