(* ===== verification/OsslTime.v ===== *)
(** * Saturating time arithmetic (include/internal/time.h)

    An [OSSL_TIME] is its 64-bit tick count (nanoseconds). *)

From S2P Require Import Prelude.

Abbreviation OSSL_TIME := Z.

Definition OSSL_TIME_SECOND : Z := 1000000000.
Definition OSSL_TIME_MS : Z := OSSL_TIME_SECOND / 1000.
Definition OSSL_TIME_US : Z := OSSL_TIME_MS / 1000.

Definition ossl_ticks2time (ticks : Z) : OSSL_TIME := ticks.
Definition ossl_time2ticks (t : OSSL_TIME) : Z := t.
Definition ossl_ms2time (ms : Z) : OSSL_TIME := ossl_ticks2time (ms *u OSSL_TIME_MS).

Definition ossl_time_zero : OSSL_TIME := ossl_ticks2time 0.
Definition ossl_time_infinite : OSSL_TIME := ossl_ticks2time UINT64_MAX.

Definition ossl_time_compare (a b : OSSL_TIME) : Z :=
  if b <? a then 1 else if a <? b then -1 else 0.

Definition ossl_time_is_zero (t : OSSL_TIME) : bool := ossl_time_compare t ossl_time_zero =? 0.
Definition ossl_time_is_infinite (t : OSSL_TIME) : bool := ossl_time_compare t ossl_time_infinite =? 0.

Definition ossl_time_add (a b : OSSL_TIME) : OSSL_TIME :=
  let '(r, err) := safe_add a b false in if err then ossl_time_infinite else r.

Definition ossl_time_subtract (a b : OSSL_TIME) : OSSL_TIME :=
  let '(r, err) := safe_sub a b false in if err then ossl_time_zero else r.

Definition ossl_time_abs_difference (a b : OSSL_TIME) : OSSL_TIME :=
  if b <? a then ossl_time_subtract a b else ossl_time_subtract b a.

Definition ossl_time_multiply (a : OSSL_TIME) (b : Z) : OSSL_TIME :=
  let '(r, err) := safe_mul a b false in if err then ossl_time_infinite else r.

Definition ossl_time_divide (a : OSSL_TIME) (b : Z) : OSSL_TIME :=
  let '(r, err) := safe_div a b false in if err then ossl_time_zero else r.

Definition ossl_time_muldiv (a : OSSL_TIME) (b c : Z) : OSSL_TIME :=
  let '(r, err) := safe_muldiv a b c false in if err then ossl_time_zero else r.

Definition ossl_time_max (a b : OSSL_TIME) : OSSL_TIME := if b <? a then a else b.
Definition ossl_time_min (a b : OSSL_TIME) : OSSL_TIME := if a <? b then a else b.

#[global] Arguments ossl_time_compare : simpl never.
#[global] Arguments ossl_time_is_zero : simpl never.
#[global] Arguments ossl_time_add : simpl never.
#[global] Arguments ossl_time_subtract : simpl never.
#[global] Arguments ossl_time_abs_difference : simpl never.
#[global] Arguments ossl_time_multiply : simpl never.
#[global] Arguments ossl_time_divide : simpl never.
#[global] Arguments ossl_time_muldiv : simpl never.
#[global] Arguments ossl_time_max : simpl never.
#[global] Arguments ossl_time_min : simpl never.

(** ** What the operations compute on 64-bit operands *)

Lemma time_add_spec (a b : Z) : u64 a -> u64 b -> ossl_time_add a b = Z.min (a + b) UINT64_MAX.
Proof.
  intros Ha Hb. unfold ossl_time_add, safe_add, ossl_time_infinite, ossl_ticks2time. cbn.
  destruct (Z.leb_spec U64_MOD (a + b)); u64_lia.
Qed.

Lemma time_subtract_spec (a b : Z) : u64 a -> u64 b -> ossl_time_subtract a b = Z.max (a - b) 0.
Proof.
  intros Ha Hb. unfold ossl_time_subtract, safe_sub, ossl_time_zero, ossl_ticks2time. cbn.
  destruct (Z.ltb_spec a b); u64_lia.
Qed.

Lemma time_multiply_spec (a b : Z) : u64 a -> u64 b -> ossl_time_multiply a b = Z.min (a * b) UINT64_MAX.
Proof.
  intros Ha Hb. unfold ossl_time_multiply, safe_mul, ossl_time_infinite, ossl_ticks2time. cbn.
  assert (0 <= a * b) by (unfold u64 in *; nia).
  destruct (Z.leb_spec U64_MOD (a * b)); [u64_side|].
  rewrite mul64_small by u64_side. u64_side.
Qed.

Lemma time_divide_spec (a b : Z) : 0 < b -> ossl_time_divide a b = a / b.
Proof. intros. unfold ossl_time_divide, safe_div. bdestruct_all; [lia|done]. Qed.

Lemma time_abs_difference_spec (a b : Z) :
  u64 a -> u64 b -> ossl_time_abs_difference a b = Z.abs (a - b).
Proof.
  intros Ha Hb. unfold ossl_time_abs_difference.
  destruct (Z.ltb_spec b a); rewrite time_subtract_spec by done; lia.
Qed.

Lemma time_compare_lt (a b : Z) : (ossl_time_compare a b <? 0) = (a <? b).
Proof. unfold ossl_time_compare. bdestruct_all; auto; lia. Qed.

Lemma time_compare_le (a b : Z) : (ossl_time_compare a b <=? 0) = (a <=? b).
Proof. unfold ossl_time_compare. bdestruct_all; auto; lia. Qed.

Lemma time_compare_ge (a b : Z) : (0 <=? ossl_time_compare a b) = (b <=? a).
Proof. unfold ossl_time_compare. bdestruct_all; auto; lia. Qed.

Lemma time_is_zero_spec (t : Z) : ossl_time_is_zero t = (t =? 0).
Proof. unfold ossl_time_is_zero, ossl_time_compare, ossl_time_zero, ossl_ticks2time. bdestruct_all; auto; lia. Qed.

Lemma time_max_spec (a b : Z) : ossl_time_max a b = Z.max a b.
Proof. unfold ossl_time_max. bdestruct_all; lia. Qed.

Lemma time_min_spec (a b : Z) : ossl_time_min a b = Z.min a b.
Proof. unfold ossl_time_min. bdestruct_all; lia. Qed.
