(* ===== verification/FlowControl.v ===== *)
(** * Flow control (ssl/quic/quic_fc.c)

    A controller is a record; the object its [parent] pointer refers to (the
    connection-level controller, or NULL) is passed and returned beside it, so
    that all streams of a connection work on the one connection-level record.
    The clock callback is the function [now]: its [n]-th reading is [now n], and
    an operation that reads the clock threads the count of readings.  [assert]s
    are no-ops, as in a build with [NDEBUG]; the conditions they state are
    theorems below. *)

From S2P Require Import Prelude OsslTime.

Definition OSSL_QUIC_ERR_FLOW_CONTROL_ERROR : Z := 3.
Definition OSSL_QUIC_ERR_FINAL_SIZE_ERROR : Z := 6.

(** ** Transmit side *)

Record QUIC_TXFC := mkTxfc { tx_swm : Z; tx_cwm : Z; tx_has_become_blocked : bool }.
#[export] Instance eta_txfc : Eta QUIC_TXFC :=
  fun t => mkTxfc (tx_swm t) (tx_cwm t) (tx_has_become_blocked t).

(** [conn] is [None] for a NULL [conn_txfc], otherwise whether the controller
    it points to has a parent itself. *)
Definition ossl_quic_txfc_init (conn : option bool) : option QUIC_TXFC :=
  match conn with
  | Some true => None
  | _ => Some (mkTxfc 0 0 false)
  end.

Definition ossl_quic_txfc_bump_cwm (txfc : QUIC_TXFC) (cwm : Z) : QUIC_TXFC * bool :=
  if cwm <=? tx_cwm txfc then (txfc, false) else (txfc <| tx_cwm := cwm |>, true).

Definition ossl_quic_txfc_get_credit_local (txfc : QUIC_TXFC) (consumed : Z) : Z :=
  tx_cwm txfc -u (consumed +u tx_swm txfc).

Definition ossl_quic_txfc_get_credit (txfc : QUIC_TXFC) (parent : option QUIC_TXFC) (consumed : Z) : Z :=
  let r := ossl_quic_txfc_get_credit_local txfc 0 in
  match parent with
  | Some conn =>
      let conn_r := ossl_quic_txfc_get_credit_local conn consumed in
      if conn_r <? r then conn_r else r
  | None => r
  end.

Definition ossl_quic_txfc_consume_credit_local (txfc : QUIC_TXFC) (num_bytes : Z) : QUIC_TXFC * bool :=
  let credit := ossl_quic_txfc_get_credit_local txfc 0 in
  let '(ok, num_bytes) := if credit <? num_bytes then (false, credit) else (true, num_bytes) in
  let txfc := if (0 <? num_bytes) && (num_bytes =? credit)
              then txfc <| tx_has_become_blocked := true |> else txfc in
  (txfc <| tx_swm := tx_swm txfc +u num_bytes |>, ok).

Definition ossl_quic_txfc_consume_credit (txfc : QUIC_TXFC) (parent : option QUIC_TXFC) (num_bytes : Z)
  : QUIC_TXFC * option QUIC_TXFC * bool :=
  let '(txfc, ok) := ossl_quic_txfc_consume_credit_local txfc num_bytes in
  match parent with
  | Some conn =>
      let '(conn, conn_ok) := ossl_quic_txfc_consume_credit_local conn num_bytes in
      (txfc, Some conn, if negb conn_ok then false else ok)
  | None => (txfc, None, ok)
  end.

Definition ossl_quic_txfc_has_become_blocked (txfc : QUIC_TXFC) (clear : bool) : QUIC_TXFC * bool :=
  let r := tx_has_become_blocked txfc in
  (if clear then txfc <| tx_has_become_blocked := false |> else txfc, r).

Definition ossl_quic_txfc_get_cwm (txfc : QUIC_TXFC) : Z := tx_cwm txfc.
Definition ossl_quic_txfc_get_swm (txfc : QUIC_TXFC) : Z := tx_swm txfc.

(** ** Receive side *)

Record QUIC_RXFC := mkRxfc {
  cwm : Z; swm : Z; rwm : Z; esrwm : Z; hwm : Z;
  cur_window_size : Z; max_window_size : Z;
  epoch_start : OSSL_TIME;
  error_code : Z; has_cwm_changed : bool; is_fin : bool; standalone : bool }.
#[export] Instance eta_rxfc : Eta QUIC_RXFC := fun r =>
  mkRxfc (cwm r) (swm r) (rwm r) (esrwm r) (hwm r) (cur_window_size r) (max_window_size r)
    (epoch_start r) (error_code r) (has_cwm_changed r) (is_fin r) (standalone r).

Definition ossl_quic_rxfc_init (conn : option bool) (initial_window_size max_window_size : Z)
  : option QUIC_RXFC :=
  match conn with
  | Some true => None
  | _ => Some (mkRxfc initial_window_size 0 0 0 0 initial_window_size max_window_size
                 ossl_time_zero 0 false false false)
  end.

Definition ossl_quic_rxfc_init_standalone (initial_window_size : Z) : option QUIC_RXFC :=
  match ossl_quic_rxfc_init None initial_window_size initial_window_size with
  | None => None
  | Some rxfc => Some (rxfc <| standalone := true |>)
  end.

Definition ossl_quic_rxfc_set_max_window_size (rxfc : QUIC_RXFC) (size : Z) : QUIC_RXFC :=
  rxfc <| max_window_size := size |>.

Definition on_rx_controlled_bytes (rxfc : QUIC_RXFC) (num_bytes : Z) : QUIC_RXFC * bool :=
  let credit := cwm rxfc -u swm rxfc in
  let '(ok, num_bytes, rxfc) :=
    if credit <? num_bytes
    then (false, credit, rxfc <| error_code := OSSL_QUIC_ERR_FLOW_CONTROL_ERROR |>)
    else (true, num_bytes, rxfc) in
  (rxfc <| swm := swm rxfc +u num_bytes |>, ok).

Definition ossl_quic_rxfc_on_rx_stream_frame (rxfc : QUIC_RXFC) (parent : option QUIC_RXFC)
    (end_ : Z) (fin : bool) : QUIC_RXFC * option QUIC_RXFC * bool :=
  if negb (standalone rxfc) && match parent with None => true | Some _ => false end
  then (rxfc, parent, false)
  else if is_fin rxfc && ((fin && negb (hwm rxfc =? end_)) || (hwm rxfc <? end_))
  then (rxfc <| error_code := OSSL_QUIC_ERR_FINAL_SIZE_ERROR |>, parent, true)
  else
    let rxfc := if fin then rxfc <| is_fin := true |> else rxfc in
    if hwm rxfc <? end_ then
      let delta := end_ -u hwm rxfc in
      let rxfc := rxfc <| hwm := end_ |> in
      let '(rxfc, _) := on_rx_controlled_bytes rxfc delta in
      let parent :=
        match parent with
        | Some conn => Some (fst (on_rx_controlled_bytes conn delta))
        | None => None
        end in
      (rxfc, parent, true)
    else if (end_ <? hwm rxfc) && fin
    then (rxfc <| error_code := OSSL_QUIC_ERR_FINAL_SIZE_ERROR |>, parent, true)
    else (rxfc, parent, true).

Definition WINDOW_THRESHOLD_NUM : Z := 3.
Definition WINDOW_THRESHOLD_DEN : Z := 4.

Definition rxfc_cwm_bump_desired (rxfc : QUIC_RXFC) : bool :=
  let window_rem := cwm rxfc -u rwm rxfc in
  let '(threshold, err) :=
    safe_muldiv (cur_window_size rxfc) WINDOW_THRESHOLD_NUM WINDOW_THRESHOLD_DEN false in
  let threshold := if err then cur_window_size rxfc / 2 else threshold in
  negb (is_fin rxfc) && (window_rem <=? threshold).

Section Clock.
Context (now : nat -> OSSL_TIME).

Definition rxfc_start_epoch (rxfc : QUIC_RXFC) (n : nat) : QUIC_RXFC * nat :=
  (rxfc <| epoch_start := now n |> <| esrwm := rwm rxfc |>, S n).

Definition rxfc_should_bump_window_size (rxfc : QUIC_RXFC) (rtt : OSSL_TIME) (n : nat) : bool * nat :=
  let b := rwm rxfc -u esrwm rxfc in
  if b =? 0 then (false, n)
  else
    let dt := ossl_time_subtract (now n) (epoch_start rxfc) in
    let t_window := ossl_time_muldiv dt (cur_window_size rxfc) b in
    (ossl_time_compare t_window (ossl_time_multiply rtt 4) <? 0, S n).

Definition rxfc_adjust_window_size (rxfc : QUIC_RXFC) (min_window_size : Z) (rtt : OSSL_TIME) (n : nat)
  : QUIC_RXFC * nat :=
  let '(bump, n) := rxfc_should_bump_window_size rxfc rtt n in
  let new_window_size := if bump then cur_window_size rxfc *u 2 else cur_window_size rxfc in
  let new_window_size := if new_window_size <? min_window_size then min_window_size else new_window_size in
  let new_window_size :=
    if max_window_size rxfc <? new_window_size then max_window_size rxfc else new_window_size in
  rxfc_start_epoch (rxfc <| cur_window_size := new_window_size |>) n.

Definition rxfc_update_cwm (rxfc : QUIC_RXFC) (min_window_size : Z) (rtt : OSSL_TIME) (n : nat)
  : QUIC_RXFC * nat :=
  if negb (rxfc_cwm_bump_desired rxfc) then (rxfc, n)
  else
    let '(rxfc, n) := rxfc_adjust_window_size rxfc min_window_size rtt n in
    let new_cwm := rwm rxfc +u cur_window_size rxfc in
    if cwm rxfc <? new_cwm
    then (rxfc <| cwm := new_cwm |> <| has_cwm_changed := true |>, n)
    else (rxfc, n).

Definition rxfc_on_retire (rxfc : QUIC_RXFC) (num_bytes min_window_size : Z) (rtt : OSSL_TIME) (n : nat)
  : QUIC_RXFC * nat :=
  let '(rxfc, n) :=
    if ossl_time_is_zero (epoch_start rxfc) then rxfc_start_epoch rxfc n else (rxfc, n) in
  let rxfc := rxfc <| rwm := rwm rxfc +u num_bytes |> in
  rxfc_update_cwm rxfc min_window_size rtt n.

(** The parent of a controller that is not standalone is never NULL here: the
    first test has ruled it out. *)
Definition ossl_quic_rxfc_on_retire (rxfc : QUIC_RXFC) (parent : option QUIC_RXFC)
    (num_bytes : Z) (rtt : OSSL_TIME) (n : nat) : QUIC_RXFC * option QUIC_RXFC * bool * nat :=
  if match parent with None => true | Some _ => false end && negb (standalone rxfc)
  then (rxfc, parent, false, n)
  else if num_bytes =? 0 then (rxfc, parent, true, n)
  else if swm rxfc <? rwm rxfc +u num_bytes then (rxfc, parent, false, n)
  else
    let '(rxfc, n) := rxfc_on_retire rxfc num_bytes 0 rtt n in
    match parent with
    | Some conn =>
        if negb (standalone rxfc) then
          let '(conn, n) := rxfc_on_retire conn num_bytes (cur_window_size rxfc) rtt n in
          (rxfc, Some conn, true, n)
        else (rxfc, Some conn, true, n)
    | None => (rxfc, None, true, n)
    end.
End Clock.

Definition ossl_quic_rxfc_get_cwm (rxfc : QUIC_RXFC) : Z := cwm rxfc.
Definition ossl_quic_rxfc_get_swm (rxfc : QUIC_RXFC) : Z := swm rxfc.
Definition ossl_quic_rxfc_get_rwm (rxfc : QUIC_RXFC) : Z := rwm rxfc.
Definition ossl_quic_rxfc_get_credit (rxfc : QUIC_RXFC) : Z :=
  ossl_quic_rxfc_get_cwm rxfc -u ossl_quic_rxfc_get_swm rxfc.

Definition ossl_quic_rxfc_has_cwm_changed (rxfc : QUIC_RXFC) (clear : bool) : QUIC_RXFC * bool :=
  let r := has_cwm_changed rxfc in
  (if clear then rxfc <| has_cwm_changed := false |> else rxfc, r).

Definition ossl_quic_rxfc_get_error (rxfc : QUIC_RXFC) (clear : bool) : QUIC_RXFC * Z :=
  let r := error_code rxfc in
  (if clear then rxfc <| error_code := 0 |> else rxfc, r).

Definition ossl_quic_rxfc_get_final_size (rxfc : QUIC_RXFC) : option Z :=
  if negb (is_fin rxfc) then None else Some (hwm rxfc).

(** ** A connection's transmit controllers *)

Record tx_group := mkTxGroup { tx_conn : QUIC_TXFC; tx_streams : gmap Z QUIC_TXFC }.

Definition txfc_fresh : QUIC_TXFC := mkTxfc 0 0 false.
Definition tx_initial : tx_group := mkTxGroup txfc_fresh ∅.

(** The calls the packetiser and the frame handlers make.  [any] says how credit is
    consumed: any amount when it is set, otherwise no more than
    [ossl_quic_txfc_get_credit] grants, as the packetiser does. *)
Inductive tx_step (any : bool) : tx_group -> tx_group -> Prop :=
| tx_open g i s :
    tx_streams g !! i = None -> ossl_quic_txfc_init (Some false) = Some s ->
    tx_step any g (mkTxGroup (tx_conn g) (<[i:=s]> (tx_streams g)))
| tx_max_data g v :
    u64 v -> tx_step any g (mkTxGroup (fst (ossl_quic_txfc_bump_cwm (tx_conn g) v)) (tx_streams g))
| tx_max_stream_data g i s v :
    u64 v -> tx_streams g !! i = Some s ->
    tx_step any g (mkTxGroup (tx_conn g) (<[i:=fst (ossl_quic_txfc_bump_cwm s v)]> (tx_streams g)))
| tx_send g i s n s' c' ok :
    tx_streams g !! i = Some s -> u64 n ->
    (any = false -> n <= ossl_quic_txfc_get_credit s (Some (tx_conn g)) 0) ->
    ossl_quic_txfc_consume_credit s (Some (tx_conn g)) n = (s', Some c', ok) ->
    tx_step any g (mkTxGroup c' (<[i:=s']> (tx_streams g)))
| tx_poll_blocked g i s clear :
    tx_streams g !! i = Some s ->
    tx_step any g (mkTxGroup (tx_conn g) (<[i:=fst (ossl_quic_txfc_has_become_blocked s clear)]> (tx_streams g))).

(** Never past the limit the peer set. *)
Definition txfc_ok (t : QUIC_TXFC) : Prop := 0 <= tx_swm t <= tx_cwm t /\ tx_cwm t < U64_MOD.

Definition tx_within (g : tx_group) : Prop :=
  txfc_ok (tx_conn g) /\ map_Forall (fun _ s => txfc_ok s) (tx_streams g).

Definition tx_exact (g : tx_group) : Prop := tx_swm (tx_conn g) = msum tx_swm (tx_streams g).

(** ** A connection's receive controllers *)

Record rx_group := mkRxGroup { rx_conn : QUIC_RXFC; rx_streams : gmap Z QUIC_RXFC }.

Definition rx_no_error (g : rx_group) : Prop :=
  error_code (rx_conn g) = 0 /\ map_Forall (fun _ s => error_code s = 0) (rx_streams g).

(** The calls made while no flow control error has been raised; an error closes
    the connection. *)
Inductive rx_step : rx_group -> rx_group -> Prop :=
| rx_open g i w m s :
    rx_no_error g -> rx_streams g !! i = None -> u64 w -> u64 m ->
    ossl_quic_rxfc_init (Some false) w m = Some s ->
    rx_step g (mkRxGroup (rx_conn g) (<[i:=s]> (rx_streams g)))
| rx_frame g i s e fin s' c' :
    rx_no_error g -> rx_streams g !! i = Some s -> u64 e ->
    ossl_quic_rxfc_on_rx_stream_frame s (Some (rx_conn g)) e fin = (s', Some c', true) ->
    rx_step g (mkRxGroup c' (<[i:=s']> (rx_streams g)))
| rx_retire g i s n rtt now k s' c' ok k' :
    rx_no_error g -> rx_streams g !! i = Some s -> 0 <= n -> rwm s + n < U64_MOD ->
    ossl_quic_rxfc_on_retire now s (Some (rx_conn g)) n rtt k = (s', Some c', ok, k') ->
    rx_step g (mkRxGroup c' (<[i:=s']> (rx_streams g)))
| rx_poll_cwm g i s clear :
    rx_no_error g -> rx_streams g !! i = Some s ->
    rx_step g (mkRxGroup (rx_conn g) (<[i:=fst (ossl_quic_rxfc_has_cwm_changed s clear)]> (rx_streams g))).

(** Retired at most received at most allowed. *)
Definition rxfc_ok (r : QUIC_RXFC) : Prop :=
  0 <= rwm r <= swm r /\ swm r <= cwm r /\ cwm r < U64_MOD.

Definition rx_stream_ok (r : QUIC_RXFC) : Prop :=
  rxfc_ok r /\ swm r = hwm r /\ standalone r = false.

Definition rx_inv (g : rx_group) : Prop :=
  rxfc_ok (rx_conn g) /\ map_Forall (fun _ s => rx_stream_ok s) (rx_streams g) /\
  swm (rx_conn g) = msum swm (rx_streams g) /\ rwm (rx_conn g) = msum rwm (rx_streams g).

(** ** Transmit lemmas *)

Lemma txfc_credit_local (t : QUIC_TXFC) (n : Z) :
  txfc_ok t -> 0 <= n -> tx_swm t + n <= tx_cwm t ->
  ossl_quic_txfc_get_credit_local t n = tx_cwm t - tx_swm t - n.
Proof.
  unfold txfc_ok, ossl_quic_txfc_get_credit_local. intros.
  rewrite add64_small, sub64_small; lia.
Qed.

(** Consumption is capped at the limit, and the flag is raised exactly when the
    last of a positive credit goes. *)
Lemma txfc_consume_local_spec (t : QUIC_TXFC) (n : Z) : txfc_ok t -> 0 <= n ->
  ossl_quic_txfc_consume_credit_local t n =
    (mkTxfc (Z.min (tx_swm t + n) (tx_cwm t)) (tx_cwm t)
       (tx_has_become_blocked t || (tx_swm t <? tx_cwm t) && (tx_cwm t <=? tx_swm t + n)),
     tx_swm t + n <=? tx_cwm t).
Proof.
  intros Ht Hn. unfold ossl_quic_txfc_consume_credit_local.
  rewrite txfc_credit_local by (unfold txfc_ok in *; lia).
  destruct t as [sw cw bl]; unfold txfc_ok in *; cbn in *. replace (cw - sw - 0) with (cw - sw) by lia.
  destruct (Z.ltb_spec (cw - sw) n); cbn; bdestruct_all; try lia; cbn;
    rewrite add64_small by lia; rewrite ?orb_true_r, ?orb_false_r; do 2 f_equal; lia.
Qed.

Lemma txfc_credit_le (s c : QUIC_TXFC) : txfc_ok s -> txfc_ok c ->
  ossl_quic_txfc_get_credit s (Some c) 0 = Z.min (tx_cwm s - tx_swm s) (tx_cwm c - tx_swm c).
Proof.
  intros Hs Hc. unfold ossl_quic_txfc_get_credit.
  rewrite !txfc_credit_local by (unfold txfc_ok in *; lia). bdestruct_all; lia.
Qed.

Lemma txfc_bump_ok (t : QUIC_TXFC) (v : Z) :
  txfc_ok t -> u64 v -> txfc_ok (fst (ossl_quic_txfc_bump_cwm t v)) /\
  tx_swm (fst (ossl_quic_txfc_bump_cwm t v)) = tx_swm t.
Proof.
  unfold ossl_quic_txfc_bump_cwm, txfc_ok, u64. intros. destruct (Z.leb_spec v (tx_cwm t)); cbn; lia.
Qed.

(** What consuming any amount does: both controllers are cut off at their limits, and the result says
    whether the amount was within the credit. *)
Lemma txfc_consume_spec (s c : QUIC_TXFC) (n : Z) : txfc_ok s -> txfc_ok c -> 0 <= n ->
  exists s' c', ossl_quic_txfc_consume_credit s (Some c) n = (s', Some c', n <=? ossl_quic_txfc_get_credit s (Some c) 0) /\
    tx_swm s' = Z.min (tx_swm s + n) (tx_cwm s) /\ tx_cwm s' = tx_cwm s /\
    tx_swm c' = Z.min (tx_swm c + n) (tx_cwm c) /\ tx_cwm c' = tx_cwm c.
Proof.
  intros Hs Hc Hn. rewrite txfc_credit_le by done. unfold ossl_quic_txfc_consume_credit.
  rewrite !txfc_consume_local_spec by done. eexists _, _. split; [f_equal; bdestruct_all; (reflexivity || lia)|done].
Qed.

Lemma tx_step_within (any : bool) (g g' : tx_group) : tx_within g -> tx_step any g g' -> tx_within g'.
Proof.
  intros [Hc Hs] Hstep. destruct Hstep as [g i s Hi [= <-]|g v Hv|g i s v Hv Hi|g i s n s' c' ok Hi Hn _ Heq|g i s clear Hi].
  - split; [done|]. apply map_Forall_insert_2; [by unfold txfc_ok, U64_MOD|done].
  - split; [by apply txfc_bump_ok|done].
  - split; [done|]. apply map_Forall_insert_2; [apply txfc_bump_ok; [exact (Hs _ _ Hi)|done]|done].
  - destruct (txfc_consume_spec s (tx_conn g) n (Hs _ _ Hi) Hc ltac:(unfold u64 in Hn; lia)) as (s1 & c1 & E & S1 & S2 & C1 & C2).
    rewrite Heq in E. injection E as -> -> _. pose proof (Hs _ _ Hi) as Hso. unfold tx_within, txfc_ok, u64 in *. split; cbn; [lia|].
    apply map_Forall_insert_2; [lia|done].
  - split; [done|]. apply map_Forall_insert_2; [|done]. unfold ossl_quic_txfc_has_become_blocked. destruct clear; exact (Hs _ _ Hi).
Qed.

Lemma tx_step_exact (g g' : tx_group) : tx_within g -> tx_exact g -> tx_step false g g' -> tx_exact g'.
Proof.
  unfold tx_exact. intros [Hc Hs] Hsum Hstep. destruct Hstep as [g i s Hi [= <-]|g v Hv|g i s v Hv Hi|g i s n s' c' ok Hi Hn Hg Heq|g i s clear Hi]; cbn.
  - rewrite msum_insert_new by done. cbn. lia.
  - destruct (txfc_bump_ok (tx_conn g) v Hc Hv). lia.
  - destruct (txfc_bump_ok s v (Hs _ _ Hi) Hv). rewrite (msum_insert _ _ i s _ Hi). lia.
  - specialize (Hg eq_refl). rewrite txfc_credit_le in Hg by (done || exact (Hs _ _ Hi)).
    destruct (txfc_consume_spec s (tx_conn g) n (Hs _ _ Hi) Hc ltac:(unfold u64 in Hn; lia)) as (s1 & c1 & E & S1 & S2 & C1 & C2).
    rewrite Heq in E. injection E as -> -> _. rewrite (msum_insert _ _ i s s1 Hi). pose proof (Hs _ _ Hi). unfold txfc_ok in *. lia.
  - rewrite (msum_insert _ _ i s _ Hi). unfold ossl_quic_txfc_has_become_blocked. destruct clear; cbn; lia.
Qed.

(** C13. However streams are opened, limits raised and credit consumed, in any
    amounts, no stream and not the connection ever counts more as sent than the
    limit its peer advertised: consuming an amount adds it up to the limit of
    the stream and of the connection, and succeeds exactly if the amount is
    within the credit.  While no more than the credit is consumed, the
    connection counts exactly the sum of what its streams count. *)
Theorem txfc_never_exceeds_limits (any : bool) (g : tx_group) :
  rtc (tx_step any) tx_initial g ->
  tx_within g /\
  (any = false -> tx_exact g) /\
  forall i s n, tx_streams g !! i = Some s -> u64 n ->
    exists s' c', ossl_quic_txfc_consume_credit s (Some (tx_conn g)) n =
        (s', Some c', n <=? ossl_quic_txfc_get_credit s (Some (tx_conn g)) 0) /\
      tx_swm s' = Z.min (tx_swm s + n) (tx_cwm s) /\
      tx_swm c' = Z.min (tx_swm (tx_conn g) + n) (tx_cwm (tx_conn g)).
Proof.
  intros Hr. assert (H0 : tx_within tx_initial) by (split; [by unfold txfc_ok, U64_MOD|apply map_Forall_empty]).
  assert (Hw : tx_within g) by (induction Hr; eauto using tx_step_within). split; [done|]. split.
  - intros ->. assert (E0 : tx_exact tx_initial) by (unfold tx_exact; cbn; by rewrite msum_empty).
    clear Hw. induction Hr; eauto using tx_step_within, tx_step_exact.
  - intros i s n Hi Hn. destruct Hw as [Hc Hs].
    destruct (txfc_consume_spec s (tx_conn g) n (Hs _ _ Hi) Hc ltac:(unfold u64 in Hn; lia)) as (s' & c' & E & S1 & _ & C1 & _). by exists s', c'.
Qed.

Lemma txfc_never_exceeds_limits_witness :
  let s := mkTxfc 0 10 false in
  let g := mkTxGroup (mkTxfc 0 7 false) (<[4:=s]> ∅) in
  tx_within g /\ (false = false -> tx_exact g) /\
  forall i s n, tx_streams g !! i = Some s -> u64 n ->
    exists s' c', ossl_quic_txfc_consume_credit s (Some (tx_conn g)) n =
        (s', Some c', n <=? ossl_quic_txfc_get_credit s (Some (tx_conn g)) 0) /\
      tx_swm s' = Z.min (tx_swm s + n) (tx_cwm s) /\
      tx_swm c' = Z.min (tx_swm (tx_conn g) + n) (tx_cwm (tx_conn g)).
Proof.
  intros s g. apply (txfc_never_exceeds_limits false g).
  eapply rtc_l; [apply (tx_open _ _ 4 txfc_fresh); [apply lookup_empty|done]|].
  eapply rtc_l; [apply (tx_max_data _ _ 7); by vm_compute|].
  eapply rtc_l; [apply (tx_max_stream_data _ _ 4 txfc_fresh 10); [by vm_compute|apply lookup_insert_eq]|].
  replace g with (mkTxGroup (mkTxfc 0 7 false) (<[4:=s]> (<[4:=txfc_fresh]> ∅))); [apply rtc_refl|].
  unfold g. by rewrite insert_insert_eq.
Defined.

(** ** Receive lemmas *)

Lemma on_rx_controlled_bytes_spec (r : QUIC_RXFC) (n : Z) : rxfc_ok r -> 0 <= n ->
  on_rx_controlled_bytes r n =
    (r <| error_code := if cwm r <? swm r + n then OSSL_QUIC_ERR_FLOW_CONTROL_ERROR else error_code r |>
       <| swm := Z.min (swm r + n) (cwm r) |>, swm r + n <=? cwm r).
Proof.
  unfold rxfc_ok, on_rx_controlled_bytes. intros. rewrite sub64_small by lia.
  destruct (Z.ltb_spec (cwm r - swm r) n); destruct (Z.ltb_spec (cwm r) (swm r + n));
    destruct (Z.leb_spec (swm r + n) (cwm r)); try lia; cbn; rewrite add64_small by lia;
    do 2 f_equal; lia.
Qed.

Definition final_size_violation (r : QUIC_RXFC) (e : Z) (fin : bool) : bool :=
  (is_fin r && (hwm r <? e)) || (fin && (e <? hwm r)).

(** C25. What a STREAM frame ending at [e] does to an error-free stream
    controller and its connection: a final size error exactly when the frame
    contradicts the known final size or is a smaller final size, otherwise a
    flow control error exactly at the level whose limit the frame passes, and
    the received counts never pass the limits. *)
Theorem rxfc_frame_errors_exact (s c s' : QUIC_RXFC) (pc' : option QUIC_RXFC) (e : Z) (fin ok : bool) :
  rx_stream_ok s -> rxfc_ok c -> error_code s = 0 -> error_code c = 0 -> u64 e ->
  ossl_quic_rxfc_on_rx_stream_frame s (Some c) e fin = (s', pc', ok) ->
  ok = true /\
  error_code s' = (if final_size_violation s e fin then OSSL_QUIC_ERR_FINAL_SIZE_ERROR
                   else if cwm s <? e then OSSL_QUIC_ERR_FLOW_CONTROL_ERROR else 0) /\
  exists c', pc' = Some c' /\
    error_code c' = (if final_size_violation s e fin then 0
                     else if (hwm s <? e) && (cwm c <? swm c + (e - hwm s))
                     then OSSL_QUIC_ERR_FLOW_CONTROL_ERROR else 0) /\
    swm s' <= cwm s' /\ cwm s' = cwm s /\ swm c' <= cwm c' /\ cwm c' = cwm c.
Proof.
  intros (Hs & Hsh & Hst) Hc Hes Hec He. unfold ossl_quic_rxfc_on_rx_stream_frame, final_size_violation.
  rewrite Hst. cbn [negb andb]. pose proof Hs as (? & ? & ?). pose proof Hc as (? & ? & ?).
  destruct (is_fin s && (fin && negb (hwm s =? e) || (hwm s <? e))) eqn:Hf.
  { intros [= <- <- <-]. split; [done|]. cbn.
    assert ((is_fin s && (hwm s <? e)) || (fin && (e <? hwm s)) = true) as ->.
    { destruct (is_fin s), fin; cbn in *; bdestruct_all; auto; lia. }
    split; [done|]. exists c. split_and!; auto. }
  destruct (is_fin s && (hwm s <? e)) eqn:Hf2.
  { destruct (is_fin s); [|done]. cbn in *. rewrite Hf2, orb_true_r in Hf. done. }
  cbn [orb]. set (s1 := if fin then s <| is_fin := true |> else s).
  assert (Hs1 : rxfc_ok s1 /\ hwm s1 = hwm s /\ swm s1 = swm s /\ cwm s1 = cwm s /\ error_code s1 = 0)
    by (subst s1; destruct fin; done).
  destruct Hs1 as (Hok1 & Hh1 & Hsw1 & Hcw1 & He1). rewrite Hh1.
  destruct (Z.ltb_spec (hwm s) e) as [Hlt|Hge].
  - rewrite sub64_small by u64_side. rewrite !on_rx_controlled_bytes_spec by (done || lia). cbn.
    intros [= <- <- <-]. split; [done|]. rewrite Hsw1, Hcw1, He1.
    assert (fin && (e <? hwm s) = false) as -> by (destruct fin; cbn; bdestruct_all; auto; lia).
    cbn. rewrite Hsh. replace (hwm s + (e - hwm s)) with e by lia. split; [done|].
    eexists; split_and!; [done|by rewrite Hec|cbn; lia..|done].
  - destruct fin; cbn [andb]; rewrite ?andb_true_r, ?andb_false_r;
      [destruct (Z.ltb_spec e (hwm s))|]; intros [= <- <- <-]; (split; [done|]); cbn;
      rewrite ?(proj2 (Z.ltb_ge (cwm s) e)) by lia; rewrite ?Hes;
      (split; [done|]); eexists; split_and!; done || (cbn; lia).
Qed.

Lemma rxfc_frame_errors_exact_witness :
  let s := mkRxfc 100 40 10 0 40 50 200 1 0 false false false in
  let c := mkRxfc 150 140 20 0 0 50 200 1 0 false false false in
  snd (ossl_quic_rxfc_on_rx_stream_frame s (Some c) 60 false) = true /\
  error_code (fst (fst (ossl_quic_rxfc_on_rx_stream_frame s (Some c) 60 false))) = 0 /\
  exists c', snd (fst (ossl_quic_rxfc_on_rx_stream_frame s (Some c) 60 false)) = Some c' /\
    error_code c' = OSSL_QUIC_ERR_FLOW_CONTROL_ERROR.
Proof.
  intros s c.
  destruct (ossl_quic_rxfc_on_rx_stream_frame s (Some c) 60 false) as [[s' pc'] ok] eqn:He.
  destruct (rxfc_frame_errors_exact s c s' pc' 60 false ok) as (-> & Hs & c' & -> & Hc & _); auto.
  - split_and!; by vm_compute.
  - by vm_compute.
  - by vm_compute.
  - split_and!; [done|done|]. by exists c'.
Defined.

Lemma rx_frame_conserves (s c s' c' : QUIC_RXFC) (e : Z) (fin ok : bool) :
  rx_stream_ok s -> rxfc_ok c -> u64 e ->
  ossl_quic_rxfc_on_rx_stream_frame s (Some c) e fin = (s', Some c', ok) ->
  error_code s' = 0 -> error_code c' = 0 ->
  rx_stream_ok s' /\ rxfc_ok c' /\ swm c' - swm c = swm s' - swm s /\ rwm s' = rwm s /\ rwm c' = rwm c.
Proof.
  intros (Hs & Hsh & Hst) Hc He. unfold ossl_quic_rxfc_on_rx_stream_frame. rewrite Hst. cbn [negb andb].
  pose proof Hs as (? & ? & ?). pose proof Hc as (? & ? & ?).
  destruct (is_fin s && _); [by intros [= <- <- <-]|].
  set (s1 := if fin then s <| is_fin := true |> else s).
  assert (Hs1 : rxfc_ok s1 /\ hwm s1 = hwm s /\ swm s1 = swm s /\ cwm s1 = cwm s /\ rwm s1 = rwm s
                /\ standalone s1 = false) by (subst s1; destruct fin; done).
  destruct Hs1 as (Hok1 & Hh1 & Hsw1 & Hcw1 & Hr1 & Hst1). rewrite Hh1.
  destruct (Z.ltb_spec (hwm s) e) as [Hlt|Hge].
  - rewrite sub64_small by u64_side. rewrite !on_rx_controlled_bytes_spec by (done || lia). cbn.
    intros [= <- <- <-]. cbn. rewrite Hsw1, Hcw1.
    destruct (Z.ltb_spec (cwm s) (swm s + (e - hwm s))); [done|].
    destruct (Z.ltb_spec (cwm c) (swm c + (e - hwm s))); [done|]. intros _ _.
    unfold rx_stream_ok, rxfc_ok in *; cbn. rewrite ?Hsw1, ?Hcw1, ?Hr1, ?Hst1. split_and!; auto; lia.
  - destruct ((e <? hwm s) && fin); intros [= <- <- <-]; [done|]. intros _ _.
    unfold rx_stream_ok. split_and!; auto; try lia.
Qed.

Lemma threshold_exact (w : Z) : u64 w ->
  safe_muldiv w WINDOW_THRESHOLD_NUM WINDOW_THRESHOLD_DEN false = (w * 3 / 4, false).
Proof.
  intros Hw. destruct (safe_muldiv w 3 4 false) as [r err] eqn:He.
  enough (err = false) as ->.
  { destruct (safe_muldiv_exact w 3 4 r) as [_ ->]; auto; u64_side. }
  unfold safe_muldiv, safe_mul, safe_add in He. cbn [Z.eqb orb] in He.
  destruct (Z.leb_spec U64_MOD (w * 3)); cbn [negb] in He; [|by injection He].
  rewrite (proj2 (Z.ltb_ge w 3)) in He by u64_side.
  injection He as _ <-. pose proof (Z.mod_pos_bound w 4 ltac:(lia)).
  assert (0 <= w / 4 < 4611686018427387904).
  { unfold u64, U64_MOD in Hw. split; [apply Z.div_pos; lia|]. apply Z.div_lt_upper_bound; lia. }
  assert (0 <= w mod 4 * 3 / 4 <= 2) by (split; [apply Z.div_pos; lia|]; apply Z.lt_succ_r, Z.div_lt_upper_bound; lia).
  rewrite !mul64_small by u64_side.
  apply orb_false_iff; split; [apply orb_false_iff; split|]; apply Z.leb_gt; u64_side.
Qed.

Lemma bump_desired_spec (r : QUIC_RXFC) : rxfc_ok r -> u64 (cur_window_size r) ->
  rxfc_cwm_bump_desired r = negb (is_fin r) && (cwm r - rwm r <=? cur_window_size r * 3 / 4).
Proof.
  intros Hr Hw. unfold rxfc_cwm_bump_desired. rewrite threshold_exact by done.
  unfold rxfc_ok in Hr. rewrite sub64_small by lia. done.
Qed.

Definition same_but_window (r r' : QUIC_RXFC) : Prop :=
  swm r' = swm r /\ rwm r' = rwm r /\ hwm r' = hwm r /\ error_code r' = error_code r /\
  standalone r' = standalone r /\ is_fin r' = is_fin r /\ max_window_size r' = max_window_size r.

Lemma adjust_window_spec now (r r' : QUIC_RXFC) (mw rtt : Z) (k k' : nat) :
  u64 (cur_window_size r) -> u64 mw -> u64 (max_window_size r) ->
  rxfc_adjust_window_size now r mw rtt k = (r', k') ->
  same_but_window r r' /\ cwm r' = cwm r /\ has_cwm_changed r' = has_cwm_changed r /\
  u64 (cur_window_size r') /\ cur_window_size r' <= max_window_size r /\
  Z.min mw (max_window_size r) <= cur_window_size r'.
Proof.
  intros Hw Hmw Hmax. unfold rxfc_adjust_window_size, rxfc_start_epoch.
  destruct (rxfc_should_bump_window_size now r rtt k) as [bump n]. intros [= <- _]. cbn.
  pose proof (mul64_u64 (cur_window_size r) 2). unfold same_but_window; cbn. unfold u64 in *.
  destruct bump; split_and!; auto; bdestruct_all; lia.
Qed.

Lemma update_cwm_spec now (r r' : QUIC_RXFC) (mw rtt : Z) (k k' : nat) :
  u64 (cwm r) -> u64 (cur_window_size r) -> u64 mw -> u64 (max_window_size r) ->
  rxfc_update_cwm now r mw rtt k = (r', k') ->
  same_but_window r r' /\ cwm r <= cwm r' < U64_MOD /\
  (cwm r' <> cwm r -> has_cwm_changed r' = true /\ cwm r' = rwm r' +u cur_window_size r') /\
  (cur_window_size r' <> cur_window_size r -> cur_window_size r' <= max_window_size r).
Proof.
  intros Hc Hw Hmw Hmax. unfold rxfc_update_cwm. unfold u64 in Hc.
  destruct (rxfc_cwm_bump_desired r); cbn [negb];
    [|intros [= <- <-]; unfold same_but_window; split_and!; auto; try lia; congruence].
  destruct (rxfc_adjust_window_size now r mw rtt k) as [r1 k1] eqn:Ha.
  apply adjust_window_spec in Ha as ((? & ? & ? & ? & ? & ? & ?) & Hcw & ? & ? & ? & ?); auto.
  pose proof (add64_u64 (rwm r1) (cur_window_size r1)) as Hu. unfold u64 in Hu.
  destruct (Z.ltb_spec (cwm r1) (rwm r1 +u cur_window_size r1)); intros [= <- <-];
    unfold same_but_window; cbn; split_and!; auto; try lia.
Qed.

(** What retiring [n] bytes does to one controller. *)
Definition retire_post (r r' : QUIC_RXFC) (n : Z) : Prop :=
  same_but_window (r <| rwm := rwm r + n |>) r' /\
  cwm r <= cwm r' < U64_MOD /\ u64 (cur_window_size r') /\
  (cwm r' <> cwm r -> has_cwm_changed r' = true /\ cwm r' = rwm r' +u cur_window_size r') /\
  (cur_window_size r' <> cur_window_size r -> cur_window_size r' <= max_window_size r).

Lemma on_retire_spec now (r r' : QUIC_RXFC) (n mw rtt : Z) (k k' : nat) :
  rxfc_ok r -> u64 (cur_window_size r) -> u64 mw -> u64 (max_window_size r) ->
  0 <= n -> rwm r + n < U64_MOD ->
  rxfc_on_retire now r n mw rtt k = (r', k') -> retire_post r r' n.
Proof.
  intros Hr Hw Hmw Hmax Hn Hov. unfold rxfc_on_retire.
  destruct (if ossl_time_is_zero (epoch_start r) then rxfc_start_epoch now r k else (r, k)) as [r1 k1] eqn:H1.
  assert (same_but_window r r1 /\ cwm r1 = cwm r /\ cur_window_size r1 = cur_window_size r)
    as ((? & Hrw & ? & ? & ? & ? & ?) & Hcw & Hcs).
  { unfold rxfc_start_epoch in H1. destruct (ossl_time_is_zero _); injection H1 as <- <-; by split_and!. }
  unfold rxfc_ok in Hr. intros Hu. rewrite Hrw, add64_small in Hu by lia.
  set (r2 := r1 <| rwm := rwm r + n |>) in *.
  assert (u64 (cur_window_size r')).
  { unfold rxfc_update_cwm in Hu. destruct (negb _); [injection Hu as <- <-; subst r2; cbn; by rewrite Hcs|].
    destruct (rxfc_adjust_window_size now r2 mw rtt k1) as [r3 k3] eqn:Ha.
    apply adjust_window_spec in Ha as (_ & _ & _ & ? & _ & _); subst r2; cbn in *; rewrite ?Hcs; auto; [|congruence].
    destruct (cwm r3 <? _); injection Hu as <- <-; done. }
  apply update_cwm_spec in Hu as ((? & ? & ? & ? & ? & ? & ?) & ? & ? & ?); subst r2; cbn in *;
    rewrite ?Hcw, ?Hcs in *; auto; try (unfold u64; lia); try congruence.
  unfold retire_post, same_but_window; cbn. split_and!; auto; congruence || lia.
Qed.

Definition rx_windows_ok (g : rx_group) : Prop :=
  let ok r := u64 (cur_window_size r) /\ u64 (max_window_size r) in
  ok (rx_conn g) /\ map_Forall (fun _ s => ok s) (rx_streams g).

Lemma rx_inv_update (g : rx_group) (i : Z) (s s' c' : QUIC_RXFC) :
  rx_inv g -> rx_streams g !! i = Some s -> rx_stream_ok s' -> rxfc_ok c' ->
  swm c' - swm (rx_conn g) = swm s' - swm s -> rwm c' - rwm (rx_conn g) = rwm s' - rwm s ->
  rx_inv (mkRxGroup c' (<[i:=s']> (rx_streams g))).
Proof.
  intros (Hc & Hs & Hsw & Hrw) Hi Hs' Hc' Hd1 Hd2. split; [done|]. cbn.
  split; [by apply map_Forall_insert_2|].
  rewrite (msum_insert swm _ i s s' Hi), (msum_insert rwm _ i s s' Hi). lia.
Qed.

(** Bytes one stream may still retire are covered at the connection level. *)
Lemma rx_retire_covered (g : rx_group) (i : Z) (s : QUIC_RXFC) (n : Z) :
  rx_inv g -> rx_streams g !! i = Some s -> rwm s + n <= swm s ->
  rwm (rx_conn g) + n <= swm (rx_conn g).
Proof.
  intros (Hc & Hs & -> & ->) Hi Hn.
  rewrite (msum_delete swm _ i s Hi), (msum_delete rwm _ i s Hi).
  enough (msum rwm (delete i (rx_streams g)) <= msum swm (delete i (rx_streams g))) by lia.
  apply msum_mono. intros j b [_ Hj]%lookup_delete_Some. destruct (Hs _ _ Hj) as [(? & ? & ?) _]. lia.
Qed.

Lemma rx_frame_windows (s c s' c' : QUIC_RXFC) (e : Z) (fin ok : bool) :
  ossl_quic_rxfc_on_rx_stream_frame s (Some c) e fin = (s', Some c', ok) ->
  cur_window_size s' = cur_window_size s /\ max_window_size s' = max_window_size s /\
  cur_window_size c' = cur_window_size c /\ max_window_size c' = max_window_size c.
Proof.
  unfold ossl_quic_rxfc_on_rx_stream_frame, on_rx_controlled_bytes. intros Heq.
  repeat case_match; simplify_eq/=; done.
Qed.

Lemma rx_retire_step now (g : rx_group) (i n rtt : Z) (s s' c' : QUIC_RXFC) (k k' : nat) (ok : bool) :
  rx_inv g -> rx_windows_ok g -> rx_streams g !! i = Some s -> 0 <= n -> rwm s + n < U64_MOD ->
  ossl_quic_rxfc_on_retire now s (Some (rx_conn g)) n rtt k = (s', Some c', ok, k') ->
  rx_windows_ok (mkRxGroup c' (<[i:=s']> (rx_streams g))) /\
  rx_inv (mkRxGroup c' (<[i:=s']> (rx_streams g))).
Proof.
  intros Hinv Hwin Hi Hn Hov Heq. pose proof Hinv as (Hc & Hs & Hsw & Hrw).
  pose proof Hwin as ([Hccw Hcmw] & Hws).
  pose proof (Hs _ _ Hi) as (Hsok & Hsh & Hst). destruct (Hws _ _ Hi) as [Hcw Hmw].
  unfold ossl_quic_rxfc_on_retire in Heq. rewrite Hst in Heq. cbn [negb andb] in Heq.
  destruct (Z.eqb_spec n 0); [injection Heq as <- <- _ _; rewrite insert_id by done; by destruct g|].
  rewrite add64_small in Heq by (unfold rxfc_ok in *; lia).
  destruct (Z.ltb_spec (swm s) (rwm s + n));
    [injection Heq as <- <- _ _; rewrite insert_id by done; by destruct g|].
  pose proof (rx_retire_covered g i s n Hinv Hi ltac:(lia)) as Hcov.
  destruct (rxfc_on_retire now s n 0 rtt k) as [s1 k1] eqn:Hr1.
  apply on_retire_spec in Hr1 as ((Hs1 & Hs2 & Hs3 & Hs4 & Hs5 & Hs6 & Hs7) & Hs8 & Hs9 & _); auto using u64_0.
  cbn in *. rewrite Hs5, Hst in Heq. cbn [negb] in Heq.
  destruct (rxfc_on_retire now (rx_conn g) n (cur_window_size s1) rtt k1) as [c1 k2] eqn:Hr2.
  apply on_retire_spec in Hr2 as ((Hc1 & Hc2 & Hc3 & Hc4 & Hc5 & Hc6 & Hc7) & Hc8 & Hc9 & _); auto;
    [|unfold rxfc_ok in *; lia].
  cbn in *. injection Heq as <- <- _ _. split.
  - split; cbn; [by rewrite Hc7|]. apply map_Forall_insert_2; [|done]. split; [done|congruence].
  - unfold rxfc_ok in *. eapply rx_inv_update; eauto; unfold rx_stream_ok, rxfc_ok; try lia.
    split_and!; try lia; congruence.
Qed.

Lemma rx_step_inv (g g' : rx_group) :
  rx_inv g -> rx_windows_ok g -> rx_step g g' ->
  rx_windows_ok g' /\ (rx_no_error g' -> rx_inv g').
Proof.
  intros Hinv Hwin Hstep. pose proof Hinv as (Hc & Hs & Hsw & Hrw). pose proof Hwin as (Hwc & Hws).
  destruct Hstep as [g i w m s Hne Hi Hw Hm [= <-]|g i s e fin s' c' Hne Hi He Heq
                    |g i s n rtt now k s' c' ok k' Hne Hi Hn Hov Heq|g i s clear Hne Hi].
  - split; [split; [done|]; cbn; by apply map_Forall_insert_2|]. intros _. split; [done|]. cbn.
    unfold u64 in *. split.
    + apply map_Forall_insert_2; [|done]. split; [split_and!; cbn; lia|done].
    + rewrite !msum_insert_new by done. cbn. lia.
  - split.
    + apply rx_frame_windows in Heq as (Ha & Hb & Hd & Hf). destruct (Hws _ _ Hi).
      split; cbn; rewrite ?Hd, ?Hf; [done|]. apply map_Forall_insert_2; [|done]. by rewrite Ha, Hb.
    + intros [Hec Hes]. cbn in Hec, Hes.
      destruct (rx_frame_conserves s (rx_conn g) s' c' e fin true) as (? & ? & ? & ? & ?); auto.
      { apply (Hs _ _ Hi). }
      { apply (Hes i). apply lookup_insert_eq. }
      eapply rx_inv_update; eauto; lia.
  - destruct (rx_retire_step now g i n rtt s s' c' k k' ok); auto.
  - unfold ossl_quic_rxfc_has_cwm_changed; cbn [fst]. split.
    + split; [done|]. cbn. apply map_Forall_insert_2; [|done]. destruct clear; apply (Hws _ _ Hi).
    + intros _. eapply rx_inv_update; eauto; destruct clear; cbn; try apply (Hs _ _ Hi); lia.
Qed.

Definition rx_initial (w m : Z) : rx_group :=
  mkRxGroup (mkRxfc w 0 0 0 0 w m ossl_time_zero 0 false false false) ∅.

(** C14. While no flow control error has been raised, the connection-level
    controller accounts for exactly the bytes its streams received and retired,
    and on every controller retired <= received <= advertised limit; hence the
    connection-level retirement, which the code does not check, never retires
    more than was received. *)
Theorem rxfc_conservation (w m : Z) (g : rx_group) :
  u64 w -> u64 m -> rtc rx_step (rx_initial w m) g -> rx_no_error g -> rx_inv g.
Proof.
  intros Hw Hm Hr. enough (rx_windows_ok g /\ (rx_no_error g -> rx_inv g)) by tauto.
  assert (H0 : rx_windows_ok (rx_initial w m) /\ (rx_no_error (rx_initial w m) -> rx_inv (rx_initial w m))).
  { split; [by split; [|apply map_Forall_empty]|]. intros _. unfold u64 in *.
    split; [split_and!; cbn; lia|]. split; [apply map_Forall_empty|]. cbn. by rewrite !msum_empty. }
  induction Hr as [|g0 g1 g2 Hstep Hr IH]; [done|]. apply IH.
  destruct H0 as [Hwin Hinv]. apply (rx_step_inv g0); auto. apply Hinv. by destruct Hstep.
Qed.

Lemma rxfc_conservation_witness :
  let s0 := mkRxfc 100 0 0 0 0 100 200 0 0 false false false in
  let g1 := mkRxGroup (rx_conn (rx_initial 50 80)) (<[0:=s0]> (rx_streams (rx_initial 50 80))) in
  let s1 := mkRxfc 100 30 0 0 30 100 200 0 0 false false false in
  let c1 := mkRxfc 50 30 0 0 0 50 80 0 0 false false false in
  rx_inv (mkRxGroup c1 (<[0:=s1]> (rx_streams g1))).
Proof.
  intros s0 g1 s1 c1. apply (rxfc_conservation 50 80); [by vm_compute|by vm_compute| |].
  - apply rtc_l with g1; [apply rx_open with 100 200;
      [split; [done|apply map_Forall_empty]|apply lookup_empty|by vm_compute..|done]|].
    apply rtc_once, rx_frame with s0 30 false;
      [split; [done|]|apply lookup_insert_eq|by vm_compute|done].
    apply map_Forall_insert_2; [done|apply map_Forall_empty].
  - split; [done|]. do 2 (apply map_Forall_insert_2; [done|]). apply map_Forall_empty.
Defined.

(** Retiring received bytes never lowers the advertised limit, raises the
    change flag whenever it raises the limit, raises it exactly to retired plus
    window, and never lets the auto-tuned window pass its configured maximum;
    the limit is left alone while more than three quarters of the window
    remain or once the final size is known. *)
Theorem rxfc_retire_window now (r r' : QUIC_RXFC) (n mw rtt : Z) (k k' : nat) :
  rxfc_ok r -> u64 (cur_window_size r) -> u64 mw -> u64 (max_window_size r) ->
  0 <= n -> rwm r + n <= swm r ->
  rxfc_on_retire now r n mw rtt k = (r', k') ->
  rwm r' = rwm r + n /\ swm r' = swm r /\ cwm r <= cwm r' /\ rxfc_ok r' /\
  (cwm r' <> cwm r -> has_cwm_changed r' = true /\ cwm r' = rwm r' + cur_window_size r' \/
                      U64_MOD <= rwm r' + cur_window_size r') /\
  (cur_window_size r' <> cur_window_size r -> cur_window_size r' <= max_window_size r) /\
  (is_fin r = true \/ cur_window_size r * 3 / 4 < cwm r - (rwm r + n) ->
   cwm r' = cwm r /\ cur_window_size r' = cur_window_size r).
Proof.
  intros Hr Hw Hmw Hmax Hn Hret Heq. pose proof Heq as Heq0. unfold rxfc_ok in Hr.
  apply on_retire_spec in Heq as ((H1 & H2 & H3 & H4 & H5 & H6 & H7) & H8 & H9 & H10 & H11); auto; [|lia].
  cbn in *. unfold rxfc_ok. split_and!; auto; try lia.
  - intros Hne. destruct (H10 Hne) as [? Hc].
    destruct (Z.lt_ge_cases (rwm r' + cur_window_size r') U64_MOD); [|tauto]. left. split; [done|].
    rewrite add64_small in Hc by (unfold u64 in *; lia). done.
  - intros Hno. unfold rxfc_on_retire in Heq0.
    destruct (if ossl_time_is_zero (epoch_start r) then rxfc_start_epoch now r k else (r, k)) as [r1 k1] eqn:He.
    assert (same_but_window r r1 /\ cwm r1 = cwm r /\ cur_window_size r1 = cur_window_size r)
      as ((? & Hrw & ? & ? & ? & Hfin & ?) & Hcw & Hcs).
    { unfold rxfc_start_epoch in He. destruct (ossl_time_is_zero _); injection He as <- <-; by split_and!. }
    unfold rxfc_update_cwm in Heq0. rewrite bump_desired_spec in Heq0; cbn in *;
      rewrite ?Hrw, ?Hcs, ?add64_small in * by lia; auto; [|unfold rxfc_ok; cbn; lia].
    rewrite Hfin, Hcw in Heq0.
    assert (negb (is_fin r) && (cwm r - (rwm r + n) <=? cur_window_size r * 3 / 4) = false) as Hf.
    { destruct Hno as [->|]; [done|]. rewrite (proj2 (Z.leb_gt _ _)) by done. apply andb_false_r. }
    rewrite Hf in Heq0. injection Heq0 as <- <-. by cbn.
Qed.

Lemma rxfc_retire_window_witness :
  let r := mkRxfc 100 90 0 0 90 100 400 5 0 false false false in
  exists r' k', rxfc_on_retire (fun n => Z.of_nat n + 10) r 40 0 1000 0 = (r', k') /\
    rwm r' = 40 /\ cwm r <= cwm r'.
Proof.
  intros r. eexists _, _. split; [reflexivity|].
  match goal with |- rwm ?r' = _ /\ _ =>
    pose proof (rxfc_retire_window (fun n => Z.of_nat n + 10) r r' 40 0 1000 0 2) as H end.
  destruct H as (H1 & _ & H2 & _); [split_and!; by vm_compute|by vm_compute..|].
  exact (conj H1 H2).
Defined.
