(* ===== verification/Congestion.v ===== *)
(** * RTT statistics and the NewReno congestion controller
    (ssl/quic/quic_statm.c, ssl/quic/cc_newreno.c)

    The diagnostic output locations of the congestion controller are addresses
    of [diag_mem], the caller's memory they are written to.  [now] is the value
    the clock callback returns in the call ([newreno_cong] is the only reader,
    and reads it at most once per operation). *)

From stdpp Require Import strings.
From S2P Require Import Prelude OsslTime.

(** ** Statistics manager *)

Record OSSL_STATM := mkStatm {
  smoothed_rtt : OSSL_TIME; latest_rtt : OSSL_TIME; min_rtt : OSSL_TIME;
  rtt_variance : OSSL_TIME; have_first_sample : bool }.
#[export] Instance eta_statm : Eta OSSL_STATM := fun s =>
  mkStatm (smoothed_rtt s) (latest_rtt s) (min_rtt s) (rtt_variance s) (have_first_sample s).

Definition K_INITIAL_RTT : OSSL_TIME := ossl_ms2time 333.

Definition ossl_statm_init : OSSL_STATM :=
  mkStatm K_INITIAL_RTT ossl_time_zero ossl_time_infinite (ossl_time_divide K_INITIAL_RTT 2) false.

Definition ossl_statm_update_rtt (statm : OSSL_STATM) (ack_delay override_latest_rtt : OSSL_TIME)
  : OSSL_STATM :=
  let '(latest, statm) :=
    if ossl_time_is_zero override_latest_rtt then (latest_rtt statm, statm)
    else (override_latest_rtt, statm <| latest_rtt := override_latest_rtt |>) in
  if negb (have_first_sample statm) then
    statm <| min_rtt := latest |> <| smoothed_rtt := latest |>
          <| rtt_variance := ossl_time_divide latest 2 |> <| have_first_sample := true |>
  else
    let statm := if ossl_time_compare latest (min_rtt statm) <? 0
                 then statm <| min_rtt := latest |> else statm in
    let adjusted_rtt :=
      if 0 <=? ossl_time_compare latest (ossl_time_add (min_rtt statm) ack_delay)
      then ossl_time_subtract latest ack_delay else latest in
    let statm := statm <| rtt_variance :=
      ossl_time_divide (ossl_time_add (ossl_time_multiply (rtt_variance statm) 3)
                          (ossl_time_abs_difference (smoothed_rtt statm) adjusted_rtt)) 4 |> in
    statm <| smoothed_rtt :=
      ossl_time_divide (ossl_time_add (ossl_time_multiply (smoothed_rtt statm) 7) adjusted_rtt) 8 |>.

Record OSSL_RTT_INFO := mkRttInfo {
  ri_min_rtt : OSSL_TIME; ri_latest_rtt : OSSL_TIME; ri_smoothed_rtt : OSSL_TIME; ri_rtt_variance : OSSL_TIME }.

Definition ossl_statm_get_rtt_info (statm : OSSL_STATM) : OSSL_RTT_INFO :=
  mkRttInfo (min_rtt statm) (latest_rtt statm) (smoothed_rtt statm) (rtt_variance statm).

(** ** NewReno *)

Record OSSL_CC_NEWRENO := mkNr {
  k_init_wnd : Z; k_min_wnd : Z;
  k_loss_reduction_factor_num : Z; k_loss_reduction_factor_den : Z;
  persistent_cong_thresh : Z;
  max_dgram_size : Z;
  bytes_in_flight : Z; cong_wnd : Z; slow_start_thresh : Z; bytes_acked : Z;
  cong_recovery_start_time : OSSL_TIME;
  processing_loss : bool; tx_time_of_last_loss : OSSL_TIME;
  in_congestion_recovery : bool;
  p_diag_max_dgram_payload_len : option Z; p_diag_cur_cwnd_size : option Z;
  p_diag_min_cwnd_size : option Z; p_diag_cur_bytes_in_flight : option Z;
  p_diag_cur_state : option Z;
  diag_mem : gmap Z Z }.
#[export] Instance eta_nr : Eta OSSL_CC_NEWRENO := fun n =>
  mkNr (k_init_wnd n) (k_min_wnd n) (k_loss_reduction_factor_num n) (k_loss_reduction_factor_den n)
    (persistent_cong_thresh n) (max_dgram_size n) (bytes_in_flight n) (cong_wnd n)
    (slow_start_thresh n) (bytes_acked n) (cong_recovery_start_time n) (processing_loss n)
    (tx_time_of_last_loss n) (in_congestion_recovery n) (p_diag_max_dgram_payload_len n)
    (p_diag_cur_cwnd_size n) (p_diag_min_cwnd_size n) (p_diag_cur_bytes_in_flight n)
    (p_diag_cur_state n) (diag_mem n).

Definition MIN_MAX_INIT_WND_SIZE : Z := 14720.
Definition QUIC_MIN_INITIAL_DGRAM_LEN : Z := 1200.

(** [*p = v] for a pointer that may be NULL. *)
Definition store_diag (p : option Z) (v : Z) (m : gmap Z Z) : gmap Z Z :=
  match p with Some a => <[a:=v]> m | None => m end.

Definition CHAR_R : Z := 82.
Definition CHAR_S : Z := 83.
Definition CHAR_A : Z := 65.

Definition newreno_update_diag (nr : OSSL_CC_NEWRENO) : OSSL_CC_NEWRENO :=
  let m := store_diag (p_diag_max_dgram_payload_len nr) (max_dgram_size nr) (diag_mem nr) in
  let m := store_diag (p_diag_cur_cwnd_size nr) (cong_wnd nr) m in
  let m := store_diag (p_diag_min_cwnd_size nr) (k_min_wnd nr) m in
  let m := store_diag (p_diag_cur_bytes_in_flight nr) (bytes_in_flight nr) m in
  let m := store_diag (p_diag_cur_state nr)
             (if in_congestion_recovery nr then CHAR_R
              else if cong_wnd nr <? slow_start_thresh nr then CHAR_S else CHAR_A) m in
  nr <| diag_mem := m |>.

Definition newreno_set_max_dgram_size (nr : OSSL_CC_NEWRENO) (size : Z) : OSSL_CC_NEWRENO :=
  let is_reduced := size <? max_dgram_size nr in
  let nr := nr <| max_dgram_size := size |> in
  let max_init_wnd := 2 *u size in
  let max_init_wnd := if max_init_wnd <? MIN_MAX_INIT_WND_SIZE then MIN_MAX_INIT_WND_SIZE else max_init_wnd in
  let nr := nr <| k_init_wnd := 10 *u size |> in
  let nr := if max_init_wnd <? k_init_wnd nr then nr <| k_init_wnd := max_init_wnd |> else nr in
  let nr := nr <| k_min_wnd := 2 *u size |> in
  let nr := if is_reduced then nr <| cong_wnd := k_init_wnd nr |> else nr in
  newreno_update_diag nr.

Definition newreno_reset (nr : OSSL_CC_NEWRENO) : OSSL_CC_NEWRENO :=
  nr <| k_loss_reduction_factor_num := 1 |> <| k_loss_reduction_factor_den := 2 |>
     <| persistent_cong_thresh := 3 |>
     <| cong_wnd := k_init_wnd nr |> <| bytes_in_flight := 0 |> <| bytes_acked := 0 |>
     <| slow_start_thresh := UINT64_MAX |> <| cong_recovery_start_time := ossl_time_zero |>
     <| processing_loss := false |> <| tx_time_of_last_loss := ossl_time_zero |>
     <| in_congestion_recovery := false |>.

(** [OPENSSL_zalloc]: all fields zero; [mem] is the memory of the process that
    diagnostic locations may later be bound in. *)
Definition newreno_new (mem : gmap Z Z) : OSSL_CC_NEWRENO :=
  let nr := mkNr 0 0 0 0 0 0 0 0 0 0 0 false 0 false None None None None None mem in
  newreno_reset (newreno_set_max_dgram_size nr QUIC_MIN_INITIAL_DGRAM_LEN).

(** *** Parameters: a NULL-terminated array as a list *)

Record OSSL_PARAM := mkParam { p_key : string; p_unsigned : bool; p_data : Z; p_data_size : Z }.

Definition OSSL_PARAM_locate_const (params : list OSSL_PARAM) (key : string) : option OSSL_PARAM :=
  List.find (fun p => String.eqb key (p_key p)) params.

Definition OSSL_CC_OPTION_MAX_DGRAM_PAYLOAD_LEN : string := "max_dgram_payload_len".
Definition OSSL_CC_OPTION_CUR_CWND_SIZE : string := "cur_cwnd_size".
Definition OSSL_CC_OPTION_MIN_CWND_SIZE : string := "min_cwnd_size".
Definition OSSL_CC_OPTION_CUR_BYTES_IN_FLIGHT : string := "bytes_in_flight".
Definition OSSL_CC_OPTION_CUR_STATE : string := "cur_state".

Section Params.
(** [OSSL_PARAM_get_size_t] (crypto/params.c): the value, or failure. *)
Context (OSSL_PARAM_get_size_t : OSSL_PARAM -> option Z).

Definition newreno_set_input_params (nr : OSSL_CC_NEWRENO) (params : list OSSL_PARAM)
  : OSSL_CC_NEWRENO * bool :=
  match OSSL_PARAM_locate_const params OSSL_CC_OPTION_MAX_DGRAM_PAYLOAD_LEN with
  | Some p =>
      match OSSL_PARAM_get_size_t p with
      | None => (nr, false)
      | Some value =>
          if value <? QUIC_MIN_INITIAL_DGRAM_LEN then (nr, false)
          else (newreno_set_max_dgram_size nr value, true)
      end
  | None => (nr, true)
  end.
End Params.

(** [None]: return 0; [Some p]: success with [*pp = p]. *)
Definition bind_diag (params : list OSSL_PARAM) (name : string) (len : Z) : option (option Z) :=
  match OSSL_PARAM_locate_const params name with
  | None => Some None
  | Some p => if negb (p_unsigned p) || negb (p_data_size p =? len) then None else Some (Some (p_data p))
  end.

Definition or_old (new old : option Z) : option Z :=
  match new with Some a => Some a | None => old end.

Definition newreno_bind_diagnostic (nr : OSSL_CC_NEWRENO) (params : list OSSL_PARAM)
  : OSSL_CC_NEWRENO * bool :=
  match bind_diag params OSSL_CC_OPTION_MAX_DGRAM_PAYLOAD_LEN 8,
        bind_diag params OSSL_CC_OPTION_CUR_CWND_SIZE 8,
        bind_diag params OSSL_CC_OPTION_MIN_CWND_SIZE 8,
        bind_diag params OSSL_CC_OPTION_CUR_BYTES_IN_FLIGHT 8,
        bind_diag params OSSL_CC_OPTION_CUR_STATE 4 with
  | Some a, Some b, Some c, Some d, Some e =>
      (newreno_update_diag
         (nr <| p_diag_max_dgram_payload_len := or_old a (p_diag_max_dgram_payload_len nr) |>
             <| p_diag_cur_cwnd_size := or_old b (p_diag_cur_cwnd_size nr) |>
             <| p_diag_min_cwnd_size := or_old c (p_diag_min_cwnd_size nr) |>
             <| p_diag_cur_bytes_in_flight := or_old d (p_diag_cur_bytes_in_flight nr) |>
             <| p_diag_cur_state := or_old e (p_diag_cur_state nr) |>), true)
  | _, _, _, _, _ => (nr, false)
  end.

Definition unbind_diag (params : list OSSL_PARAM) (name : string) (pp : option Z) : option Z :=
  match OSSL_PARAM_locate_const params name with Some _ => None | None => pp end.

Definition newreno_unbind_diagnostic (nr : OSSL_CC_NEWRENO) (params : list OSSL_PARAM) : OSSL_CC_NEWRENO :=
  nr <| p_diag_max_dgram_payload_len :=
          unbind_diag params OSSL_CC_OPTION_MAX_DGRAM_PAYLOAD_LEN (p_diag_max_dgram_payload_len nr) |>
     <| p_diag_cur_cwnd_size := unbind_diag params OSSL_CC_OPTION_CUR_CWND_SIZE (p_diag_cur_cwnd_size nr) |>
     <| p_diag_min_cwnd_size := unbind_diag params OSSL_CC_OPTION_MIN_CWND_SIZE (p_diag_min_cwnd_size nr) |>
     <| p_diag_cur_bytes_in_flight :=
          unbind_diag params OSSL_CC_OPTION_CUR_BYTES_IN_FLIGHT (p_diag_cur_bytes_in_flight nr) |>
     <| p_diag_cur_state := unbind_diag params OSSL_CC_OPTION_CUR_STATE (p_diag_cur_state nr) |>.

(** *** Congestion events *)

Definition OSSL_CC_LOST_FLAG_PERSISTENT_CONGESTION : Z := 1.

Definition newreno_in_cong_recovery (nr : OSSL_CC_NEWRENO) (tx_time : OSSL_TIME) : bool :=
  ossl_time_compare tx_time (cong_recovery_start_time nr) <=? 0.

Definition newreno_cong (now : OSSL_TIME) (nr : OSSL_CC_NEWRENO) (tx_time : OSSL_TIME) : OSSL_CC_NEWRENO :=
  if newreno_in_cong_recovery nr tx_time then nr
  else
    let nr := nr <| in_congestion_recovery := true |> <| cong_recovery_start_time := now |> in
    let '(t, err) := safe_muldiv (cong_wnd nr) (k_loss_reduction_factor_num nr)
                       (k_loss_reduction_factor_den nr) false in
    let nr := nr <| slow_start_thresh := t |> in
    let nr := if err then nr <| slow_start_thresh := UINT64_MAX |> else nr in
    let nr := nr <| cong_wnd := slow_start_thresh nr |> in
    if cong_wnd nr <? k_min_wnd nr then nr <| cong_wnd := k_min_wnd nr |> else nr.

Definition newreno_flush (now : OSSL_TIME) (nr : OSSL_CC_NEWRENO) (flags : Z) : OSSL_CC_NEWRENO :=
  if negb (processing_loss nr) then nr
  else
    let nr := newreno_cong now nr (tx_time_of_last_loss nr) in
    let nr := if negb (Z.land flags OSSL_CC_LOST_FLAG_PERSISTENT_CONGESTION =? 0)
              then nr <| cong_wnd := k_min_wnd nr |> <| cong_recovery_start_time := ossl_time_zero |>
              else nr in
    newreno_update_diag (nr <| processing_loss := false |>).

Definition newreno_get_tx_allowance (nr : OSSL_CC_NEWRENO) : Z :=
  if cong_wnd nr <=? bytes_in_flight nr then 0 else cong_wnd nr -u bytes_in_flight nr.

Definition newreno_get_wakeup_deadline (nr : OSSL_CC_NEWRENO) : OSSL_TIME :=
  if 0 <? newreno_get_tx_allowance nr then ossl_time_zero else ossl_time_infinite.

Definition newreno_on_data_sent (nr : OSSL_CC_NEWRENO) (num_bytes : Z) : OSSL_CC_NEWRENO :=
  newreno_update_diag (nr <| bytes_in_flight := bytes_in_flight nr +u num_bytes |>).

Definition newreno_is_cong_limited (nr : OSSL_CC_NEWRENO) : bool :=
  if cong_wnd nr <=? bytes_in_flight nr then true
  else
    let wnd_rem := cong_wnd nr -u bytes_in_flight nr in
    ((cong_wnd nr <? slow_start_thresh nr) && (wnd_rem <=? cong_wnd nr / 2))
    || (wnd_rem <=? 3 *u max_dgram_size nr).

Record OSSL_CC_ACK_INFO := mkAckInfo { ai_tx_time : OSSL_TIME; ai_tx_size : Z }.

Definition newreno_on_data_acked (nr : OSSL_CC_NEWRENO) (info : OSSL_CC_ACK_INFO) : OSSL_CC_NEWRENO :=
  let nr := nr <| bytes_in_flight := bytes_in_flight nr -u ai_tx_size info |> in
  let nr :=
    if negb (newreno_is_cong_limited nr) then nr
    else if newreno_in_cong_recovery nr (ai_tx_time info) then nr
    else if cong_wnd nr <? slow_start_thresh nr then
      nr <| cong_wnd := cong_wnd nr +u ai_tx_size info |> <| in_congestion_recovery := false |>
    else
      let nr := nr <| bytes_acked := bytes_acked nr +u ai_tx_size info |> in
      let nr := if cong_wnd nr <=? bytes_acked nr
                then nr <| bytes_acked := bytes_acked nr -u cong_wnd nr |>
                        <| cong_wnd := cong_wnd nr +u max_dgram_size nr |>
                else nr in
      nr <| in_congestion_recovery := false |> in
  newreno_update_diag nr.

Definition newreno_on_data_lost (nr : OSSL_CC_NEWRENO) (info : OSSL_CC_ACK_INFO) : OSSL_CC_NEWRENO * bool :=
  if bytes_in_flight nr <? ai_tx_size info then (nr, false)
  else
    let nr := nr <| bytes_in_flight := bytes_in_flight nr -u ai_tx_size info |> in
    if negb (processing_loss nr)
       && (ossl_time_compare (ai_tx_time info) (tx_time_of_last_loss nr) <=? 0)
    then (newreno_update_diag nr, true)
    else
      let nr := if negb (processing_loss nr)
                then nr <| processing_loss := true |> <| bytes_acked := 0 |> else nr in
      let nr := nr <| tx_time_of_last_loss :=
                  ossl_time_max (tx_time_of_last_loss nr) (ai_tx_time info) |> in
      (newreno_update_diag nr, true).

Definition newreno_on_data_lost_finished (now : OSSL_TIME) (nr : OSSL_CC_NEWRENO) (flags : Z)
  : OSSL_CC_NEWRENO := newreno_flush now nr flags.

Definition newreno_on_data_invalidated (nr : OSSL_CC_NEWRENO) (num_bytes : Z) : OSSL_CC_NEWRENO :=
  newreno_update_diag (nr <| bytes_in_flight := bytes_in_flight nr -u num_bytes |>).

Definition newreno_on_ecn (now : OSSL_TIME) (nr : OSSL_CC_NEWRENO) (largest_acked_time : OSSL_TIME)
  : OSSL_CC_NEWRENO :=
  newreno_flush now
    (nr <| processing_loss := true |> <| bytes_acked := 0 |>
        <| tx_time_of_last_loss := largest_acked_time |>) 0.

(** ** RTT estimates stay within the samples *)

(** A run of samples (ack delay, measured RTT) after initialisation. *)
Definition statm_run (samples : list (Z * Z)) : OSSL_STATM :=
  foldl (fun s '(d, r) => ossl_statm_update_rtt s d r) ossl_statm_init samples.

Definition sample_ok (hi : Z) (s : Z * Z) : Prop := u64 (fst s) /\ 0 < snd s <= hi.

Definition list_min (x : Z) (l : list Z) : Z := foldl Z.min x l.

Definition statm_inv (hi : Z) (s : OSSL_STATM) : Prop :=
  have_first_sample s = true /\ 0 < min_rtt s /\ min_rtt s <= smoothed_rtt s <= hi /\
  0 <= rtt_variance s <= hi.

Lemma avg_bounds (k lo hi a b : Z) : 0 < k -> lo <= a <= hi -> lo <= b <= hi ->
  lo <= (a * (k - 1) + b) / k <= hi.
Proof.
  intros Hk Ha Hb. split.
  - apply Z.div_le_lower_bound; nia.
  - apply Z.lt_succ_r, Z.div_lt_upper_bound; nia.
Qed.

Lemma statm_update_first (s : OSSL_STATM) (d r hi : Z) :
  have_first_sample s = false -> 0 < r <= hi ->
  statm_inv hi (ossl_statm_update_rtt s d r) /\ min_rtt (ossl_statm_update_rtt s d r) = r.
Proof.
  intros Hf Hr. unfold ossl_statm_update_rtt. rewrite time_is_zero_spec.
  destruct (Z.eqb_spec r 0); [lia|]. cbn. rewrite Hf. cbn. rewrite time_divide_spec by lia.
  unfold statm_inv; cbn. assert (0 <= r / 2 <= r).
  { split; [apply Z.div_pos; lia|]. apply Z.div_le_upper_bound; lia. }
  split_and!; auto; lia.
Qed.

Lemma statm_update_next (s : OSSL_STATM) (d r hi : Z) :
  statm_inv hi s -> u64 d -> 0 < r <= hi -> 8 * hi < U64_MOD ->
  statm_inv hi (ossl_statm_update_rtt s d r) /\
  min_rtt (ossl_statm_update_rtt s d r) = Z.min (min_rtt s) r.
Proof.
  intros (Hf & Hm & Hsm & Hv) Hd Hr Hhi. unfold ossl_statm_update_rtt. rewrite time_is_zero_spec.
  destruct (Z.eqb_spec r 0); [lia|]. cbn [have_first_sample]. cbn. rewrite Hf. cbn [negb].
  rewrite time_compare_lt.
  set (s1 := if r <? min_rtt s then _ else _).
  assert (Hs1 : min_rtt s1 = Z.min (min_rtt s) r /\ smoothed_rtt s1 = smoothed_rtt s /\
                rtt_variance s1 = rtt_variance s /\ have_first_sample s1 = true).
  { subst s1. destruct (Z.ltb_spec r (min_rtt s)); cbn; split_and!; auto; lia. }
  destruct Hs1 as (H1 & H2 & H3 & H4). clearbody s1. rewrite time_compare_ge, (time_add_spec (min_rtt s1) d) by u64_side.
  set (adj := if _ <=? r then _ else _).
  assert (Hadj : min_rtt s1 <= adj <= r).
  { subst adj. destruct (Z.leb_spec (Z.min (min_rtt s1 + d) UINT64_MAX) r).
    - rewrite time_subtract_spec by u64_side. u64_side.
    - lia. }
  clearbody adj. cbn. rewrite H2, H3, H4, time_abs_difference_spec by u64_side.
  rewrite !time_multiply_spec by u64_side. rewrite !Z.min_l by u64_side.
  rewrite !time_add_spec by u64_side. rewrite !Z.min_l by u64_side. rewrite !time_divide_spec by lia.
  pose proof (avg_bounds 8 (min_rtt s1) hi (smoothed_rtt s) adj ltac:(lia) ltac:(lia) ltac:(lia)).
  pose proof (avg_bounds 4 0 hi (rtt_variance s) (Z.abs (smoothed_rtt s - adj)) ltac:(lia) ltac:(lia) ltac:(lia)).
  change (8 - 1) with 7 in *. change (4 - 1) with 3 in *.
  unfold statm_inv; cbn. split; [split_and!; auto; lia|done].
Qed.

Lemma statm_update_latest (s : OSSL_STATM) (d r : Z) : 0 < r -> latest_rtt (ossl_statm_update_rtt s d r) = r.
Proof.
  intros Hr. unfold ossl_statm_update_rtt. assert (ossl_time_is_zero r = false) as ->.
  { unfold ossl_time_is_zero, ossl_time_compare, ossl_time_zero, ossl_ticks2time. repeat case_match; lia. }
  destruct (negb _); [done|]. by destruct (ossl_time_compare _ _ <? 0).
Qed.

Lemma statm_latest (hi d0 r0 : Z) (samples : list (Z * Z)) : Forall (sample_ok hi) ((d0, r0) :: samples) ->
  latest_rtt (statm_run ((d0, r0) :: samples)) = List.last (map snd samples) r0.
Proof.
  intros Hok. destruct samples as [|[d r] l _] using rev_ind.
  - apply Forall_cons in Hok as [[_ Hr] _]. unfold statm_run. cbn [foldl]. apply statm_update_latest, Hr.
  - rewrite app_comm_cons in Hok. apply Forall_app in Hok as [_ [[_ Hr] _]%Forall_cons]. rewrite map_app. cbn [map snd]. rewrite last_last.
    rewrite app_comm_cons. unfold statm_run. rewrite foldl_app. cbn [foldl]. apply statm_update_latest, Hr.
Qed.

(** C26. After any non-empty run of RTT samples of at most [hi] (an eighth of
    the time range), the minimum RTT is the smallest sample, and the smoothed
    RTT lies between the smallest sample and [hi], whatever ack delays the peer
    claims; the variance never exceeds [hi], and the latest RTT is the last
    sample. *)
Theorem statm_estimates_bounded (hi d0 r0 : Z) (samples : list (Z * Z)) :
  8 * hi < U64_MOD -> Forall (sample_ok hi) ((d0, r0) :: samples) ->
  let s := statm_run ((d0, r0) :: samples) in
  min_rtt s = list_min r0 (map snd samples) /\
  min_rtt s <= smoothed_rtt s <= hi /\ 0 <= rtt_variance s <= hi /\
  latest_rtt s = List.last (map snd samples) r0.
Proof.
  intros Hhi Hok. cbn zeta.
  enough ((statm_inv hi (statm_run ((d0, r0) :: samples)) /\
          min_rtt (statm_run ((d0, r0) :: samples)) = list_min r0 (map snd samples)) /\
          latest_rtt (statm_run ((d0, r0) :: samples)) = List.last (map snd samples) r0) as [[(?&?&?&?) ?] ?]
    by (split_and!; auto; lia).
  split; [|by apply (statm_latest hi d0)].
  induction samples as [|[d r] l IH] using rev_ind.
  - apply Forall_cons in Hok as [[_ Hr] _]. by apply statm_update_first.
  - rewrite app_comm_cons in Hok. apply Forall_app in Hok as [Hok Hl]. rewrite Forall_singleton in Hl.
    destruct Hl as [Hd Hr]. destruct (IH Hok) as [Hi Hm].
    rewrite app_comm_cons. unfold statm_run. rewrite foldl_app. fold (statm_run ((d0, r0) :: l)).
    unfold list_min. rewrite map_app, foldl_app. cbn [map foldl snd]. fold (list_min r0 (map snd l)).
    rewrite <- Hm. by apply statm_update_next.
Qed.

Lemma statm_estimates_bounded_witness :
  let s := statm_run [(0, 100); (40, 120); (500, 80)] in
  min_rtt s = list_min 100 [120; 80] /\ min_rtt s <= smoothed_rtt s <= 1000 /\ 0 <= rtt_variance s <= 1000 /\
  latest_rtt s = List.last [120; 80] 100.
Proof.
  apply (statm_estimates_bounded 1000 0 100 [(40, 120); (500, 80)]); [by vm_compute|].
  repeat constructor; cbn; by vm_compute.
Defined.

(** ** NewReno: bytes in flight and the window floor *)

Definition nr_world : Type := OSSL_CC_NEWRENO * list OSSL_CC_ACK_INFO.

Definition total_size (l : list OSSL_CC_ACK_INFO) : Z := foldr (fun p acc => ai_tx_size p + acc) 0 l.

(** The calls the ACK manager makes: packets are reported sent, and each packet
    in flight is later reported acknowledged, lost or invalidated once.  The
    amount of data stays below [2^64]. *)
Inductive nr_step : nr_world -> nr_world -> Prop :=
| nr_sent nr l p :
    0 <= ai_tx_size p -> total_size l + ai_tx_size p < U64_MOD ->
    nr_step (nr, l) (newreno_on_data_sent nr (ai_tx_size p), p :: l)
| nr_acked nr l p l' :
    l ≡ₚ p :: l' -> cong_wnd nr + ai_tx_size p < U64_MOD -> cong_wnd nr + max_dgram_size nr < U64_MOD ->
    nr_step (nr, l) (newreno_on_data_acked nr p, l')
| nr_lost nr l p l' nr' ok :
    l ≡ₚ p :: l' -> newreno_on_data_lost nr p = (nr', ok) -> nr_step (nr, l) (nr', l')
| nr_lost_finished nr l now flags :
    nr_step (nr, l) (newreno_on_data_lost_finished now nr flags, l)
| nr_invalidated nr l p l' :
    l ≡ₚ p :: l' -> nr_step (nr, l) (newreno_on_data_invalidated nr (ai_tx_size p), l')
| nr_ecn nr l now t :
    nr_step (nr, l) (newreno_on_ecn now nr t, l)
| nr_reduce_dgram nr l size :
    QUIC_MIN_INITIAL_DGRAM_LEN <= size <= max_dgram_size nr -> nr_step (nr, l) (newreno_set_max_dgram_size nr size, l).

Definition nr_inv (w : nr_world) : Prop :=
  let '(nr, l) := w in
  Forall (fun p => 0 <= ai_tx_size p) l /\
  bytes_in_flight nr = total_size l /\ total_size l < U64_MOD /\
  k_min_wnd nr = 2 * max_dgram_size nr /\ k_min_wnd nr <= cong_wnd nr < U64_MOD /\
  0 <= max_dgram_size nr < 1000000000000000000 /\
  k_loss_reduction_factor_num nr = 1 /\ k_loss_reduction_factor_den nr = 2.

Lemma total_size_cons (p : OSSL_CC_ACK_INFO) (l : list OSSL_CC_ACK_INFO) :
  total_size (p :: l) = ai_tx_size p + total_size l.
Proof. done. Qed.

#[global] Arguments total_size : simpl never.

Lemma total_size_perm (l l' : list OSSL_CC_ACK_INFO) : l ≡ₚ l' -> total_size l = total_size l'.
Proof. unfold total_size. induction 1; cbn in *; lia. Qed.

Lemma total_size_nonneg (l : list OSSL_CC_ACK_INFO) :
  Forall (fun p => 0 <= ai_tx_size p) l -> 0 <= total_size l.
Proof. unfold total_size. induction 1; cbn in *; lia. Qed.

(** Taking one packet out of flight. *)
Lemma take_packet (l l' : list OSSL_CC_ACK_INFO) (p : OSSL_CC_ACK_INFO) :
  l ≡ₚ p :: l' -> Forall (fun p => 0 <= ai_tx_size p) l -> total_size l < U64_MOD ->
  Forall (fun p => 0 <= ai_tx_size p) l' /\ 0 <= ai_tx_size p /\
  total_size l = ai_tx_size p + total_size l' /\ 0 <= total_size l' /\
  total_size l -u ai_tx_size p = total_size l'.
Proof.
  intros Hp Hl Ht. rewrite Hp in Hl. apply Forall_cons in Hl as [Hp0 Hl'].
  pose proof (total_size_nonneg _ Hl'). rewrite (total_size_perm _ _ Hp), total_size_cons in *.
  rewrite sub64_small by lia. split_and!; auto; lia.
Qed.

(** The loss reduction factor is one half and the division never fails. *)
Lemma newreno_cong_spec (now t : Z) (nr : OSSL_CC_NEWRENO) :
  u64 (cong_wnd nr) -> k_loss_reduction_factor_num nr = 1 -> k_loss_reduction_factor_den nr = 2 ->
  newreno_cong now nr t =
    if t <=? cong_recovery_start_time nr then nr
    else nr <| in_congestion_recovery := true |> <| cong_recovery_start_time := now |>
            <| slow_start_thresh := cong_wnd nr / 2 |>
            <| cong_wnd := Z.max (cong_wnd nr / 2) (k_min_wnd nr) |>.
Proof.
  intros Hw Hn Hd. unfold newreno_cong, newreno_in_cong_recovery. rewrite time_compare_le.
  destruct (t <=? _); [done|]. cbn. rewrite Hn, Hd.
  assert (safe_muldiv (cong_wnd nr) 1 2 false = (cong_wnd nr / 2, false)) as ->.
  { unfold safe_muldiv, safe_mul. cbn [Z.eqb]. rewrite Z.mul_1_r.
    rewrite (proj2 (Z.leb_gt _ _)) by u64_side. cbn. rewrite mul64_small; u64_side || (f_equal; f_equal; lia). }
  cbn. destruct (Z.ltb_spec (cong_wnd nr / 2) (k_min_wnd nr)); cbn;
    rewrite ?Z.max_l, ?Z.max_r by lia; done.
Qed.

Lemma flush_inv (now : Z) (nr : OSSL_CC_NEWRENO) (l : list OSSL_CC_ACK_INFO) (flags : Z) :
  nr_inv (nr, l) -> nr_inv (newreno_flush now nr flags, l).
Proof.
  intros (Hl & Hb & Ht & Hk & Hw & Hm & Hn & Hd). unfold newreno_flush.
  destruct (processing_loss nr); cbn [negb]; [|done].
  rewrite newreno_cong_spec by (u64_side || done).
  assert (0 <= cong_wnd nr / 2 <= cong_wnd nr).
  { split; [apply Z.div_pos; lia|apply Z.div_le_upper_bound; lia]. }
  destruct (_ <=? cong_recovery_start_time nr), (negb (Z.land flags _ =? 0));
    unfold nr_inv; cbn; split_and!; auto; lia.
Qed.

Lemma acked_inv (nr : OSSL_CC_NEWRENO) (l l' : list OSSL_CC_ACK_INFO) (p : OSSL_CC_ACK_INFO) :
  nr_inv (nr, l) -> l ≡ₚ p :: l' ->
  cong_wnd nr + ai_tx_size p < U64_MOD -> cong_wnd nr + max_dgram_size nr < U64_MOD ->
  nr_inv (newreno_on_data_acked nr p, l').
Proof.
  intros (Hl & Hb & Ht & Hk & Hw & Hm & Hn & Hd) Hp Hov1 Hov2.
  destruct (take_packet _ _ _ Hp Hl Ht) as (Hl' & Hp0 & Hs & Hl0 & Hsub).
  unfold newreno_on_data_acked, nr_inv. rewrite Hb, Hsub.
  repeat case_match; cbn; rewrite ?add64_small by lia; split_and!; auto; lia.
Qed.

Lemma lost_inv (nr nr' : OSSL_CC_NEWRENO) (l l' : list OSSL_CC_ACK_INFO) (p : OSSL_CC_ACK_INFO) (ok : bool) :
  nr_inv (nr, l) -> l ≡ₚ p :: l' -> newreno_on_data_lost nr p = (nr', ok) ->
  nr_inv (nr', l') /\ ok = true.
Proof.
  intros (Hl & Hb & Ht & Hk & Hw & Hm & Hn & Hd) Hp.
  destruct (take_packet _ _ _ Hp Hl Ht) as (Hl' & Hp0 & Hs & Hl0 & Hsub).
  unfold newreno_on_data_lost. rewrite Hb, (proj2 (Z.ltb_ge _ _)), Hsub by lia.
  unfold nr_inv. destruct (processing_loss _) eqn:?; cbn; [|destruct (_ <=? 0)];
    intros [= <- <-]; cbn; rewrite ?Heqb; cbn; split_and!; auto; lia.
Qed.

Lemma init_wnd_floor (size : Z) : 0 <= size < 1000000000000000000 ->
  forall nr, let nr' := newreno_set_max_dgram_size nr size in
  k_min_wnd nr' = 2 * size /\ 2 * size <= k_init_wnd nr' < U64_MOD /\ max_dgram_size nr' = size /\
  cong_wnd nr' = (if size <? max_dgram_size nr then k_init_wnd nr' else cong_wnd nr).
Proof.
  intros Hs nr. unfold newreno_set_max_dgram_size, MIN_MAX_INIT_WND_SIZE. cbn.
  rewrite !mul64_small by u64_side.
  destruct (size <? max_dgram_size nr) eqn:Hr; bdestruct_all; cbn; unfold U64_MOD; split_and!; auto; lia.
Qed.

Lemma dgram_inv (nr : OSSL_CC_NEWRENO) (l : list OSSL_CC_ACK_INFO) (size : Z) :
  nr_inv (nr, l) -> QUIC_MIN_INITIAL_DGRAM_LEN <= size <= max_dgram_size nr ->
  nr_inv (newreno_set_max_dgram_size nr size, l).
Proof.
  intros (Hl & Hb & Ht & Hk & Hw & Hm & Hn & Hd) Hsz. unfold QUIC_MIN_INITIAL_DGRAM_LEN in *.
  destruct (init_wnd_floor size ltac:(lia) nr) as (H1 & H2 & H3 & H4). cbn zeta in *.
  unfold nr_inv. rewrite H1, H3, H4.
  assert (bytes_in_flight (newreno_set_max_dgram_size nr size) = bytes_in_flight nr /\
    k_loss_reduction_factor_num (newreno_set_max_dgram_size nr size) = 1 /\
    k_loss_reduction_factor_den (newreno_set_max_dgram_size nr size) = 2) as (-> & -> & ->).
  { unfold newreno_set_max_dgram_size. repeat case_match; by cbn. }
  split_and!; auto; try lia; destruct (Z.ltb_spec size (max_dgram_size nr)); lia.
Qed.

Lemma nr_step_inv (w w' : nr_world) : nr_inv w -> nr_step w w' -> nr_inv w'.
Proof.
  intros Hinv Hstep. destruct Hstep; eauto using acked_inv, flush_inv, dgram_inv.
  - destruct Hinv as (Hl & Hb & Ht & Hk & Hw & Hm & Hn & Hd). pose proof (total_size_nonneg _ Hl).
    unfold nr_inv, newreno_on_data_sent; cbn. rewrite Hb, add64_small, total_size_cons by lia.
    split_and!; auto; lia.
  - eapply lost_inv; eauto.
  - destruct Hinv as (Hl & Hb & Ht & Hk & Hw & Hm & Hn & Hd).
    destruct (take_packet _ _ _ H Hl Ht) as (Hl' & Hp0 & Hs & Hl0 & Hsub).
    unfold nr_inv, newreno_on_data_invalidated; cbn. rewrite Hb, Hsub. split_and!; auto; lia.
Qed.

(** C27. Over any run of sent, acknowledged, lost, invalidated and ECN reports
    the controller's bytes in flight are exactly the sizes of the packets in
    flight, the window never falls below two datagrams, the transmit allowance
    is the unused part of the window, and the report of a loss of a packet in
    flight is never refused. *)
Theorem newreno_accounting (mem : gmap Z Z) (nr : OSSL_CC_NEWRENO) (l : list OSSL_CC_ACK_INFO) :
  rtc nr_step (newreno_new mem, []) (nr, l) ->
  bytes_in_flight nr = total_size l /\
  2 * max_dgram_size nr <= cong_wnd nr /\
  newreno_get_tx_allowance nr = Z.max 0 (cong_wnd nr - total_size l) /\
  forall p l', l ≡ₚ p :: l' -> snd (newreno_on_data_lost nr p) = true.
Proof.
  intros Hr. assert (Hinv : nr_inv (nr, l)).
  { assert (H0 : nr_inv (newreno_new mem, [])) by (vm_compute; repeat constructor; discriminate).
    remember (newreno_new mem, []) as w0. remember (nr, l) as w1. clear Heqw0 Heqw1.
    induction Hr; eauto using nr_step_inv. }
  pose proof Hinv as (Hl & Hb & Ht & Hk & Hw & Hm & Hn & Hd). pose proof (total_size_nonneg _ Hl).
  split_and!; auto; [lia| |].
  - unfold newreno_get_tx_allowance. rewrite Hb. bdestruct_all; [lia|]. rewrite sub64_small; lia.
  - intros p l' Hp. destruct (newreno_on_data_lost nr p) as [nr' ok] eqn:He.
    by destruct (lost_inv nr nr' l l' p ok).
Qed.

Lemma newreno_accounting_witness :
  let p := mkAckInfo 5 1200 in
  let nr := newreno_on_data_sent (newreno_new ∅) 1200 in
  bytes_in_flight nr = total_size [p] /\ 2 * max_dgram_size nr <= cong_wnd nr /\
  newreno_get_tx_allowance nr = Z.max 0 (cong_wnd nr - total_size [p]) /\
  forall q l', [p] ≡ₚ q :: l' -> snd (newreno_on_data_lost nr q) = true.
Proof.
  intros p nr. apply (newreno_accounting ∅). apply rtc_once. apply (nr_sent _ [] p); by vm_compute.
Defined.

(** One lost flight costs one reduction: flushing losses whose latest
    packet was sent before the current recovery period changes neither window
    nor threshold, otherwise the window becomes half of itself (the floor at
    least) and a new recovery period starts; persistent congestion collapses
    the window to the floor. *)
Theorem newreno_one_reduction_per_recovery (now : Z) (nr : OSSL_CC_NEWRENO) (l : list OSSL_CC_ACK_INFO) :
  nr_inv (nr, l) -> processing_loss nr = true ->
  let quiet := newreno_on_data_lost_finished now nr 0 in
  let pers := newreno_on_data_lost_finished now nr OSSL_CC_LOST_FLAG_PERSISTENT_CONGESTION in
  (tx_time_of_last_loss nr <= cong_recovery_start_time nr ->
     cong_wnd quiet = cong_wnd nr /\ slow_start_thresh quiet = slow_start_thresh nr) /\
  (cong_recovery_start_time nr < tx_time_of_last_loss nr ->
     cong_wnd quiet = Z.max (cong_wnd nr / 2) (k_min_wnd nr) /\
     slow_start_thresh quiet = cong_wnd nr / 2 /\ cong_recovery_start_time quiet = now /\
     in_congestion_recovery quiet = true /\ processing_loss quiet = false) /\
  cong_wnd pers = k_min_wnd nr /\ cong_recovery_start_time pers = 0.
Proof.
  intros (Hl & Hb & Ht & Hk & Hw & Hm & Hn & Hd) Hp. cbn zeta.
  unfold newreno_on_data_lost_finished, newreno_flush. rewrite Hp. cbn [negb].
  rewrite newreno_cong_spec by (u64_side || done).
  destruct (Z.leb_spec (tx_time_of_last_loss nr) (cong_recovery_start_time nr)); cbn;
    split_and!; auto; intros; try lia; split_and!; auto.
Qed.

Lemma newreno_one_reduction_per_recovery_witness :
  let nr0 := newreno_on_data_sent (newreno_new ∅) 1200 in
  let nr := fst (newreno_on_data_lost nr0 (mkAckInfo 5 1200)) in
  cong_wnd (newreno_on_data_lost_finished 9 nr 0) = 6000.
Proof.
  intros nr0 nr.
  destruct (newreno_one_reduction_per_recovery 9 nr []) as (_ & H & _).
  - vm_compute. repeat constructor; discriminate.
  - by vm_compute.
  - destruct H as [H _]; [by vm_compute|]. rewrite H. by vm_compute.
Defined.

(** The window grows only while it is being used and outside recovery:
    by the acknowledged size in slow start, by one datagram per window of
    acknowledged bytes in congestion avoidance, and otherwise not at all. *)
Theorem newreno_growth (nr : OSSL_CC_NEWRENO) (p : OSSL_CC_ACK_INFO) (l : list OSSL_CC_ACK_INFO) :
  nr_inv (nr, l) -> p ∈ l ->
  cong_wnd nr + ai_tx_size p < U64_MOD -> cong_wnd nr + max_dgram_size nr < U64_MOD ->
  0 <= bytes_acked nr < cong_wnd nr ->
  let nr' := newreno_on_data_acked nr p in
  let rem := cong_wnd nr - (bytes_in_flight nr - ai_tx_size p) in
  let used := rem <= 3 * max_dgram_size nr \/
              cong_wnd nr < slow_start_thresh nr /\ rem <= cong_wnd nr / 2 in
  let recovering := ai_tx_time p <= cong_recovery_start_time nr in
  (~ used \/ recovering -> cong_wnd nr' = cong_wnd nr /\ bytes_acked nr' = bytes_acked nr) /\
  (used -> ~ recovering -> cong_wnd nr < slow_start_thresh nr ->
     cong_wnd nr' = cong_wnd nr + ai_tx_size p) /\
  (used -> ~ recovering -> slow_start_thresh nr <= cong_wnd nr -> bytes_acked nr + ai_tx_size p < U64_MOD ->
     if cong_wnd nr <=? bytes_acked nr + ai_tx_size p
     then cong_wnd nr' = cong_wnd nr + max_dgram_size nr /\
          bytes_acked nr' = bytes_acked nr + ai_tx_size p - cong_wnd nr
     else cong_wnd nr' = cong_wnd nr /\ bytes_acked nr' = bytes_acked nr + ai_tx_size p).
Proof.
  intros (Hl & Hb & Ht & Hk & Hw & Hm & Hn & Hd) Hin Hov1 Hov2 Hba. cbn zeta.
  apply list_elem_of_split in Hin as (l1 & l2 & ->).
  destruct (take_packet (l1 ++ p :: l2) (l1 ++ l2) p) as (Hl' & Hp0 & Hs & Hl0 & Hsub); auto.
  { symmetry. apply Permutation_middle. }
  unfold newreno_on_data_acked, newreno_is_cong_limited, newreno_in_cong_recovery. cbn.
  rewrite Hb, Hsub. replace (total_size (l1 ++ p :: l2) - ai_tx_size p) with (total_size (l1 ++ l2)) by lia.
  rewrite time_compare_le, mul64_small by u64_side.
  assert (Hlim : forall q : Prop, (q <-> (cong_wnd nr - total_size (l1 ++ l2) <= 3 * max_dgram_size nr \/
      cong_wnd nr < slow_start_thresh nr /\ cong_wnd nr - total_size (l1 ++ l2) <= cong_wnd nr / 2)) ->
    exists b : bool, (b = true <-> q) /\ b =
      if cong_wnd nr <=? total_size (l1 ++ l2) then true
      else (cong_wnd nr <? slow_start_thresh nr) && (cong_wnd nr -u total_size (l1 ++ l2) <=? cong_wnd nr / 2)
           || (cong_wnd nr -u total_size (l1 ++ l2) <=? 3 * max_dgram_size nr)).
  { intros q Hq. eexists; split; [|done]. rewrite Hq.
    destruct (Z.leb_spec (cong_wnd nr) (total_size (l1 ++ l2))); [split; [lia|done]|].
    rewrite sub64_small by lia. rewrite orb_true_iff, andb_true_iff, !Z.leb_le, Z.ltb_lt. lia. }
  destruct (Hlim _ (iff_refl _)) as (b & Hb' & <-). clear Hlim.
  split_and!; [intros Hno|intros Hu Hre Hss|intros Hu Hre Hca Hov3].
  - destruct b; cbn; [|done]. rewrite (proj2 (Z.leb_le _ _)) by (destruct Hno; [tauto|done]). done.
  - apply Hb' in Hu as ->. cbn. rewrite (proj2 (Z.leb_gt (ai_tx_time p) _)), (proj2 (Z.ltb_lt (cong_wnd nr) (slow_start_thresh nr))) by lia.
    cbn. apply add64_small. lia.
  - apply Hb' in Hu as ->. cbn. rewrite (proj2 (Z.leb_gt (ai_tx_time p) _)), (proj2 (Z.ltb_ge (cong_wnd nr) (slow_start_thresh nr))) by lia.
    cbn. rewrite (add64_small (bytes_acked nr)) by lia.
    destruct (Z.leb_spec (cong_wnd nr) (bytes_acked nr + ai_tx_size p)); cbn; [|done].
    rewrite add64_small, sub64_small by lia. done.
Qed.

Lemma newreno_growth_witness :
  let p := mkAckInfo 5 7000 in
  let nr := newreno_on_data_sent (newreno_new ∅) 7000 in
  let nr := newreno_on_data_sent nr 7000 in
  cong_wnd (newreno_on_data_acked nr p) = 19000.
Proof.
  intros p nr0 nr. destruct (newreno_growth nr p [p; p]) as (_ & H & _).
  - vm_compute. repeat constructor; discriminate.
  - by left.
  - by vm_compute.
  - by vm_compute.
  - by vm_compute.
  - cbn zeta in H. rewrite H; [by vm_compute| |by vm_compute|by vm_compute].
    right. by vm_compute.
Defined.
