(* ===== verification/Packet.v ===== *)
(** * Variable-length integers, packet readers and writers
    (crypto/quic_vlint.c, include/internal/quic_vlint.h, crypto/packet.c,
    include/internal/packet.h, include/internal/packet_quic.h)

    A byte is a [Z] in [0, 256).  A [PACKET] is the list of bytes not yet read;
    a reader gives the value read and the rest, or fails.  A [WPACKET] over a
    static buffer is the bytes written so far and the rest of the buffer, whose
    length is the space left; a writer gives the new state and whether it
    succeeded (what was written before a failure stays written). *)

From S2P Require Import Prelude.

Abbreviation bytes := (list Z).

Create HintDb packet discriminated.

Definition u8 (x : Z) : Z := Z.land x 255.

(** ** Variable-length integers *)

Definition OSSL_QUIC_VLINT_2B_MIN : Z := 64.
Definition OSSL_QUIC_VLINT_4B_MIN : Z := 16384.
Definition OSSL_QUIC_VLINT_8B_MIN : Z := 1073741824.
Definition OSSL_QUIC_VLINT_MAX : Z := 4611686018427387903.

Definition ossl_quic_vlint_encode_len (v : Z) : Z :=
  if v <? OSSL_QUIC_VLINT_2B_MIN then 1
  else if v <? OSSL_QUIC_VLINT_4B_MIN then 2
  else if v <? OSSL_QUIC_VLINT_8B_MIN then 4
  else if v <=? OSSL_QUIC_VLINT_MAX then 8
  else 0.

(** The bytes stored at [buf]. *)
Definition ossl_quic_vlint_encode_n (v n : Z) : bytes :=
  if n =? 1 then [u8 v]
  else if n =? 2 then [u8 (Z.lor 64 (Z.land (Z.shiftr v 8) 63)); u8 v]
  else if n =? 4 then
    [u8 (Z.lor 128 (Z.land (Z.shiftr v 24) 63)); u8 (Z.shiftr v 16); u8 (Z.shiftr v 8); u8 v]
  else
    [u8 (Z.lor 192 (Z.land (Z.shiftr v 56) 63)); u8 (Z.shiftr v 48); u8 (Z.shiftr v 40);
     u8 (Z.shiftr v 32); u8 (Z.shiftr v 24); u8 (Z.shiftr v 16); u8 (Z.shiftr v 8); u8 v].

Definition ossl_quic_vlint_encode (v : Z) : bytes :=
  ossl_quic_vlint_encode_n v (ossl_quic_vlint_encode_len v).

Definition ossl_quic_vlint_decode_len (first_byte : Z) : Z :=
  Z.shiftl 1 (Z.shiftr (Z.land first_byte 192) 6).

(** [buf[i]]; the callers check that the buffer is long enough. *)
Definition byte_at (buf : bytes) (i : nat) : Z := nth i buf 0.

Definition ossl_quic_vlint_decode_unchecked (buf : bytes) : Z :=
  let b := byte_at buf in
  let first_byte := b 0%nat in
  let sz := ossl_quic_vlint_decode_len first_byte in
  if sz =? 1 then Z.land first_byte 63
  else if sz =? 2 then Z.lor (Z.shiftl (Z.land first_byte 63) 8) (b 1%nat)
  else if sz =? 4 then
    Z.lor (Z.lor (Z.lor (Z.shiftl (Z.land first_byte 63) 24) (Z.shiftl (b 1%nat) 16))
             (Z.shiftl (b 2%nat) 8)) (b 3%nat)
  else
    Z.lor (Z.lor (Z.lor (Z.lor (Z.lor (Z.lor (Z.lor (Z.shiftl (Z.land first_byte 63) 56)
      (Z.shiftl (b 1%nat) 48)) (Z.shiftl (b 2%nat) 40)) (Z.shiftl (b 3%nat) 32))
      (Z.shiftl (b 4%nat) 24)) (Z.shiftl (b 5%nat) 16)) (Z.shiftl (b 6%nat) 8)) (b 7%nat).

Definition zlen {A} (l : list A) : Z := Z.of_nat (length l).

(** The value and the number of bytes used; [None] for a return of 0. *)
Definition ossl_quic_vlint_decode (buf : bytes) : option (Z * Z) :=
  if zlen buf <? 1 then None
  else
    let dec_len := ossl_quic_vlint_decode_len (byte_at buf 0) in
    if zlen buf <? dec_len then None
    else Some (ossl_quic_vlint_decode_unchecked buf, dec_len).

(** ** Readers *)

Definition PACKET := bytes.
Definition reader (A : Type) : Type := PACKET -> option (A * PACKET).

#[export] Instance reader_ret : MRet reader := fun A a pkt => Some (a, pkt).
#[export] Instance reader_bind : MBind reader := fun A B k m pkt =>
  match m pkt with
  | Some (a, pkt') => k a pkt'
  | None => None
  end.

(** A test of the code whose failure makes the reader return 0. *)
Definition check (b : bool) : reader unit := fun pkt => if b then Some (tt, pkt) else None.

Definition rfail {A} : reader A := fun _ => None.

(** A loop over a packet, given the number of bytes left as its fuel. *)
Definition with_fuel {A} (loop : nat -> reader A) : reader A := fun pkt => loop (length pkt) pkt.

Definition PACKET_remaining : reader Z := fun pkt => Some (zlen pkt, pkt).

Definition packet_forward (pkt : PACKET) (len : Z) : PACKET := drop (Z.to_nat len) pkt.

Definition PACKET_forward (len : Z) : reader unit := fun pkt =>
  if zlen pkt <? len then None else Some (tt, packet_forward pkt len).

(** [PACKET_get_bytes] and [PACKET_copy_bytes]. *)
Definition PACKET_get_bytes (len : Z) : reader bytes := fun pkt =>
  if zlen pkt <? len then None else Some (take (Z.to_nat len) pkt, packet_forward pkt len).

Definition PACKET_get_1 : reader Z := fun pkt =>
  match pkt with [] => None | b :: rest => Some (b, rest) end.

Definition PACKET_get_net_2 : reader Z := fun pkt =>
  if zlen pkt <? 2 then None
  else Some (Z.lor (Z.shiftl (byte_at pkt 0) 8) (byte_at pkt 1), packet_forward pkt 2).

Definition PACKET_get_net_8 : reader Z := fun pkt =>
  if zlen pkt <? 8 then None
  else
    let b := byte_at pkt in
    Some (Z.lor (Z.lor (Z.lor (Z.lor (Z.lor (Z.lor (Z.lor (Z.shiftl (b 0%nat) 56)
      (Z.shiftl (b 1%nat) 48)) (Z.shiftl (b 2%nat) 40)) (Z.shiftl (b 3%nat) 32))
      (Z.shiftl (b 4%nat) 24)) (Z.shiftl (b 5%nat) 16)) (Z.shiftl (b 6%nat) 8)) (b 7%nat),
      packet_forward pkt 8).

Definition PACKET_get_quic_vlint : reader Z := fun pkt =>
  if zlen pkt <? 1 then None
  else
    let enclen := ossl_quic_vlint_decode_len (byte_at pkt 0) in
    if zlen pkt <? enclen then None
    else Some (ossl_quic_vlint_decode_unchecked pkt, packet_forward pkt enclen).

(** The value and whether its encoding was minimal; the position stays. *)
Definition PACKET_peek_quic_vlint_ex (pkt : PACKET) : option (Z * bool) :=
  if zlen pkt <? 1 then None
  else
    let enclen := ossl_quic_vlint_decode_len (byte_at pkt 0) in
    if zlen pkt <? enclen then None
    else
      let data := ossl_quic_vlint_decode_unchecked pkt in
      Some (data, enclen =? ossl_quic_vlint_encode_len data).

Definition PACKET_skip_quic_vlint : reader unit := fun pkt =>
  if zlen pkt <? 1 then None
  else
    let enclen := ossl_quic_vlint_decode_len (byte_at pkt 0) in
    if zlen pkt <? enclen then None else Some (tt, packet_forward pkt enclen).

(** ** Writers *)

Record WPACKET := mkWpkt { wp_done : bytes; wp_rest : bytes }.

Definition writer : Type := WPACKET -> WPACKET * bool.

(** [a ;;; b]: [if (!a || !b) return 0]. *)
Definition wseq (a b : writer) : writer := fun w =>
  match a w with
  | (w', true) => b w'
  | (w', false) => (w', false)
  end.
Notation "a ;;; b" := (wseq a b) (at level 60, right associativity) : quic_scope.

Definition wok : writer := fun w => (w, true).
Definition wfail : writer := fun w => (w, false).
Definition wwhen (b : bool) (a : writer) : writer := if b then a else wok.

(** Whether [len] bytes can be reserved; a zero length is refused. *)
Definition WPACKET_reserve_bytes (w : WPACKET) (len : Z) : bool :=
  if len =? 0 then false
  else if zlen (wp_rest w) <? len then false
  else true.

(** Reserve [len] bytes, leaving what the buffer held there. *)
Definition WPACKET_allocate_bytes (len : Z) : writer := fun w =>
  if negb (WPACKET_reserve_bytes w len) then (w, false)
  else (mkWpkt (wp_done w ++ take (Z.to_nat len) (wp_rest w)) (drop (Z.to_nat len) (wp_rest w)), true).

(** Reserve room for [bs] and store it there. *)
Definition wput (bs : bytes) : writer := fun w =>
  match WPACKET_allocate_bytes (zlen bs) w with
  | (w', true) => (mkWpkt (wp_done w ++ bs) (wp_rest w'), true)
  | r => r
  end.

(** [WPACKET_allocate_bytes(pkt, len, &p)], then [memcpy(p, data, len)] unless
    [data] is [NULL]: the caller fills the reserved bytes then. *)
Definition wput_data (data : option bytes) (len : Z) : writer := fun w =>
  match WPACKET_allocate_bytes len w, data with
  | (w', true), Some d => (mkWpkt (wp_done w ++ take (Z.to_nat len) d) (wp_rest w'), true)
  | r, _ => r
  end.

Definition WPACKET_memset (ch len : Z) : writer :=
  if len =? 0 then wok else wput (replicate (Z.to_nat len) ch).

Definition WPACKET_memcpy (src : bytes) : writer :=
  if zlen src =? 0 then wok else wput src.

(** [size] bytes of [val], most significant first. *)
Fixpoint be_bytes (size : nat) (val : Z) : bytes :=
  match size with
  | O => []
  | S n => be_bytes n (Z.shiftr val 8) ++ [Z.land val 255]
  end.

Definition WPACKET_put_bytes (val size : Z) : writer := fun w =>
  match wput (be_bytes (Z.to_nat size) val) w with
  | (w', true) => (w', Z.shiftr val (8 * size) <=? 0)
  | r => r
  end.

Definition WPACKET_quic_write_vlint (v : Z) : writer :=
  if ossl_quic_vlint_encode_len v =? 0 then wfail else wput (ossl_quic_vlint_encode v).

(** ** Bits *)

Lemma split_bits (v n m : Z) : 0 <= n -> 0 <= m ->
  Z.lor (Z.shiftl (Z.land (Z.shiftr v n) (Z.ones m)) n) (Z.land v (Z.ones n)) = Z.land v (Z.ones (n + m)).
Proof.
  intros Hn Hm. apply Z.bits_inj'; intros i Hi.
  rewrite Z.lor_spec, Z.shiftl_spec, !Z.land_spec by lia.
  destruct (Z.lt_ge_cases i n).
  - rewrite (Z.testbit_neg_r _ (i - n)), andb_false_l, orb_false_l, !Z.testbit_ones_nonneg by lia.
    rewrite (proj2 (Z.ltb_lt i n)), (proj2 (Z.ltb_lt i (n + m))) by lia. done.
  - rewrite Z.shiftr_spec, !Z.testbit_ones_nonneg by lia.
    replace (i - n + n) with i by lia. rewrite (proj2 (Z.ltb_ge i n)) by lia.
    rewrite andb_false_r, orb_false_r. f_equal. bdestruct_all; auto; lia.
Qed.

Lemma split_bits_eq (v n m k : Z) : 0 <= n -> 0 <= m -> k = n + m ->
  Z.lor (Z.shiftl (Z.land (Z.shiftr v n) (Z.ones m)) n) (Z.land v (Z.ones n)) = Z.land v (Z.ones k).
Proof. intros ? ? ->. by apply split_bits. Qed.

Lemma land_ones_small (v n : Z) : 0 <= n -> 0 <= v < 2 ^ n -> Z.land v (Z.ones n) = v.
Proof. intros. rewrite Z.land_ones by lia. apply Z.mod_small. lia. Qed.

(** The value bits of the first byte survive the length tag. *)
Lemma first_byte_low (c x : Z) : Z.land c 63 = 0 ->
  Z.land (u8 (Z.lor c (Z.land x 63))) 63 = Z.land x 63.
Proof.
  intros Hc. unfold u8. rewrite <- Z.land_assoc. change (Z.land 255 63) with 63.
  rewrite Z.land_lor_distr_l, Hc, Z.lor_0_l, <- Z.land_assoc. done.
Qed.

Lemma first_byte_tag (c x : Z) : Z.land (Z.land c 255) 192 = c -> 
  Z.land (u8 (Z.lor c (Z.land x 63))) 192 = c.
Proof.
  intros Hc. unfold u8. rewrite <- Z.land_assoc. change (Z.land 255 192) with 192.
  rewrite Z.land_lor_distr_l, <- Z.land_assoc. change (Z.land 63 192) with 0.
  rewrite Z.land_0_r, Z.lor_0_r. rewrite <- Hc at 2. rewrite <- Z.land_assoc. done.
Qed.

Lemma u8_range (x : Z) : 0 <= u8 x < 256.
Proof. unfold u8. change 255 with (Z.ones 8). rewrite Z.land_ones by lia. by apply Z.mod_pos_bound. Qed.

(** [vlint_enc v bs]: [bs] is an encoding of [v] in 1, 2, 4 or 8 bytes. *)
Definition vlint_len_ok (n : Z) : Prop := n = 1 \/ n = 2 \/ n = 4 \/ n = 8.

Definition vlint_range (n v : Z) : Prop := 0 <= v < 2 ^ (8 * n - 2).

Lemma vlint_decode_encode_n (v n : Z) (tl : bytes) : vlint_len_ok n -> vlint_range n v ->
  ossl_quic_vlint_decode_len (byte_at (ossl_quic_vlint_encode_n v n ++ tl) 0) = n /\
  zlen (ossl_quic_vlint_encode_n v n) = n /\
  ossl_quic_vlint_decode_unchecked (ossl_quic_vlint_encode_n v n ++ tl) = v.
Proof.
  unfold vlint_range. intros Hn Hv.
  unfold ossl_quic_vlint_decode_unchecked, ossl_quic_vlint_decode_len, ossl_quic_vlint_encode_n, byte_at.
  destruct Hn as [ -> | [ -> | [ -> | -> ] ] ]; cbn [Z.eqb Pos.eqb app nth length zlen Z.of_nat].
  - assert (u8 v = v) as ->.
    { unfold u8. change 255 with (Z.ones 8). apply land_ones_small; cbn in *; lia. }
    assert (Z.land v 192 = 0) as ->.
    { rewrite <- (land_ones_small v 6) by (cbn in *; lia). rewrite <- Z.land_assoc.
      change (Z.land (Z.ones 6) 192) with 0. apply Z.land_0_r. }
    cbn. split_and!; auto. change 63 with (Z.ones 6). apply land_ones_small; cbn in *; lia.
  - rewrite first_byte_tag by done. cbn [Z.shiftr Z.shiftl Z.eqb].
    rewrite first_byte_low by done. split_and!; auto. change (Z.shiftl 1 (Z.shiftr 64 6)) with 2. cbn.
    unfold u8. change 63 with (Z.ones 6). change 255 with (Z.ones 8).
    rewrite split_bits by lia. apply land_ones_small; cbn in *; lia.
  - rewrite first_byte_tag by done. rewrite first_byte_low by done. split_and!; auto.
    change (Z.shiftl 1 (Z.shiftr 128 6)) with 4. cbn.
    unfold u8. change 63 with (Z.ones 6). change 255 with (Z.ones 8). rewrite <- !Z.lor_assoc.
    rewrite (split_bits_eq v 8 8 16), (split_bits_eq v 16 8 24), (split_bits_eq v 24 6 30) by lia.
    apply land_ones_small; cbn in *; lia.
  - rewrite first_byte_tag by done. rewrite first_byte_low by done. split_and!; auto.
    change (Z.shiftl 1 (Z.shiftr 192 6)) with 8. cbn.
    unfold u8. change 63 with (Z.ones 6). change 255 with (Z.ones 8). rewrite <- !Z.lor_assoc.
    rewrite (split_bits_eq v 8 8 16), (split_bits_eq v 16 8 24), (split_bits_eq v 24 8 32),
      (split_bits_eq v 32 8 40), (split_bits_eq v 40 8 48), (split_bits_eq v 48 8 56),
      (split_bits_eq v 56 6 62) by lia.
    apply land_ones_small; cbn in *; lia.
Qed.

(** ** Ranges of decoded values *)

Definition is_byte (b : Z) : Prop := 0 <= b < 256.
Definition is_bytes (bs : bytes) : Prop := Forall is_byte bs.

Lemma byte_at_range (bs : bytes) (i : nat) : is_bytes bs -> is_byte (byte_at bs i).
Proof.
  intros H. unfold byte_at. destruct (nth_in_or_default i bs 0) as [Hin| ->]; [|unfold is_byte; lia].
  apply list_elem_of_In in Hin. by apply (proj1 (Forall_forall _ _) H).
Qed.

Lemma lor_below (a b n : Z) : 0 <= n -> 0 <= a < 2 ^ n -> 0 <= b < 2 ^ n -> 0 <= Z.lor a b < 2 ^ n.
Proof.
  intros Hn Ha Hb. split; [apply Z.lor_nonneg; lia|].
  rewrite <- (land_ones_small a n), <- (land_ones_small b n) by lia.
  rewrite <- Z.land_lor_distr_l, Z.land_ones by lia. apply Z.mod_pos_bound. lia.
Qed.

Lemma shiftl_below (a k m n : Z) : 0 <= k -> 0 <= m -> k + m <= n -> 0 <= a < 2 ^ k ->
  0 <= Z.shiftl a m < 2 ^ n.
Proof.
  intros Hk Hm Hn Ha. rewrite Z.shiftl_mul_pow2 by lia. split; [nia|].
  apply Z.lt_le_trans with (2 ^ (k + m)); [rewrite Z.pow_add_r by lia; nia|].
  apply Z.pow_le_mono_r; lia.
Qed.

Lemma land_63_below (x : Z) : 0 <= Z.land x 63 < 2 ^ 6.
Proof. change 63 with (Z.ones 6). rewrite Z.land_ones by lia. apply Z.mod_pos_bound. lia. Qed.

Lemma byte_below (b n : Z) : 8 <= n -> is_byte b -> 0 <= b < 2 ^ n.
Proof.
  intros Hn Hb. unfold is_byte in Hb. split; [lia|].
  apply Z.lt_le_trans with (2 ^ 8); [lia|]. apply Z.pow_le_mono_r; lia.
Qed.

#[export] Hint Resolve byte_at_range : packet.

(** Every byte string decodes to an integer of at most 62 bits. *)
Lemma decode_unchecked_range (buf : bytes) : is_bytes buf ->
  0 <= ossl_quic_vlint_decode_unchecked buf <= OSSL_QUIC_VLINT_MAX.
Proof.
  intros H. unfold OSSL_QUIC_VLINT_MAX.
  enough (0 <= ossl_quic_vlint_decode_unchecked buf < 2 ^ 62) by (cbn in *; lia).
  pose proof (land_63_below (byte_at buf 0)) as H0.
  assert (Hb : forall i, is_byte (byte_at buf i)) by eauto with packet.
  unfold ossl_quic_vlint_decode_unchecked.
  repeat case_match; repeat (apply lor_below; [lia| |]);
    first [ apply byte_below; [lia|apply Hb]
          | apply shiftl_below with 8; [lia..|apply Hb]
          | apply shiftl_below with 6; [lia..|exact H0]
          | lia ].
Qed.

Lemma decode_len_pos (b : Z) : 1 <= ossl_quic_vlint_decode_len b.
Proof.
  unfold ossl_quic_vlint_decode_len. rewrite Z.shiftl_mul_pow2, Z.mul_1_l.
  - enough (0 < 2 ^ Z.shiftr (Z.land b 192) 6) by lia. apply Z.pow_pos_nonneg; [lia|].
    apply Z.shiftr_nonneg, Z.land_nonneg. lia.
  - apply Z.shiftr_nonneg, Z.land_nonneg. lia.
Qed.

Lemma is_bytes_drop (n : nat) (bs : bytes) : is_bytes bs -> is_bytes (drop n bs).
Proof. apply Forall_drop. Qed.

Lemma zlen_app {A} (a b : list A) : zlen (a ++ b) = zlen a + zlen b.
Proof. unfold zlen. rewrite length_app. lia. Qed.

Lemma zlen_nonneg {A} (a : list A) : 0 <= zlen a.
Proof. unfold zlen. lia. Qed.

Lemma zlen_take {A} (n : Z) (l : list A) : 0 <= n <= zlen l -> zlen (take (Z.to_nat n) l) = n.
Proof. unfold zlen. rewrite length_take. lia. Qed.

Lemma zlen_drop {A} (n : Z) (l : list A) : 0 <= n <= zlen l -> zlen (drop (Z.to_nat n) l) = zlen l - n.
Proof. unfold zlen. rewrite length_drop. lia. Qed.

(** A successful read of an integer: it has at most 62 bits and the packet
    gets shorter. *)
Lemma get_vlint_sound (pkt : PACKET) (v : Z) (rest : PACKET) :
  PACKET_get_quic_vlint pkt = Some (v, rest) -> 
  (is_bytes pkt -> 0 <= v <= OSSL_QUIC_VLINT_MAX /\ is_bytes rest) /\ (length rest < length pkt)%nat.
Proof.
  unfold PACKET_get_quic_vlint. destruct (Z.ltb_spec (zlen pkt) 1) as [|H1]; [done|].
  pose proof (decode_len_pos (byte_at pkt 0)).
  case_match eqn:Hl; [done|]. intros [= <- <-]. split.
  - intros Hb. split; [by apply decode_unchecked_range|by apply is_bytes_drop].
  - unfold packet_forward. rewrite length_drop. unfold zlen in H1. lia.
Qed.

(** ** The integer round trip *)

Definition vlint (v : Z) : Prop := 0 <= v <= OSSL_QUIC_VLINT_MAX.

Lemma encode_len_cases (v : Z) : vlint v ->
  vlint_len_ok (ossl_quic_vlint_encode_len v) /\ vlint_range (ossl_quic_vlint_encode_len v) v.
Proof.
  unfold vlint, ossl_quic_vlint_encode_len, vlint_len_ok, vlint_range, OSSL_QUIC_VLINT_2B_MIN,
    OSSL_QUIC_VLINT_4B_MIN, OSSL_QUIC_VLINT_8B_MIN, OSSL_QUIC_VLINT_MAX. intros Hv.
  repeat case_match; bdestruct_all; (split; [lia|cbn; lia]).
Qed.

Lemma encode_len_zero (v : Z) : OSSL_QUIC_VLINT_MAX < v -> ossl_quic_vlint_encode_len v = 0.
Proof.
  unfold ossl_quic_vlint_encode_len, OSSL_QUIC_VLINT_2B_MIN,
    OSSL_QUIC_VLINT_4B_MIN, OSSL_QUIC_VLINT_8B_MIN, OSSL_QUIC_VLINT_MAX. intros.
  bdestruct_all; lia.
Qed.

Lemma encode_len_least (v n : Z) : vlint_len_ok n -> vlint_range n v -> ossl_quic_vlint_encode_len v <= n.
Proof.
  unfold ossl_quic_vlint_encode_len, vlint_len_ok, vlint_range, OSSL_QUIC_VLINT_2B_MIN,
    OSSL_QUIC_VLINT_4B_MIN, OSSL_QUIC_VLINT_8B_MIN, OSSL_QUIC_VLINT_MAX.
  intros [ -> | [ -> | [ -> | -> ] ] ] Hv; cbn in Hv; bdestruct_all; lia.
Qed.

Lemma encode_len_pos (v : Z) : vlint v -> 1 <= ossl_quic_vlint_encode_len v <= 8.
Proof. intros [H _]%encode_len_cases. unfold vlint_len_ok in H. lia. Qed.

Lemma encode_length (v : Z) : vlint v -> zlen (ossl_quic_vlint_encode v) = ossl_quic_vlint_encode_len v.
Proof.
  intros [Hl Hr]%encode_len_cases. unfold ossl_quic_vlint_encode.
  by destruct (vlint_decode_encode_n v _ [] Hl Hr) as (_ & ? & _).
Qed.

Lemma packet_forward_app (a tl : bytes) : packet_forward (a ++ tl) (zlen a) = tl.
Proof. unfold packet_forward, zlen. rewrite Nat2Z.id. apply drop_app_length. Qed.

Lemma peek_encode_n (v n : Z) (tl : bytes) : vlint_len_ok n -> vlint_range n v ->
  PACKET_peek_quic_vlint_ex (ossl_quic_vlint_encode_n v n ++ tl)
    = Some (v, n =? ossl_quic_vlint_encode_len v) /\
  PACKET_get_quic_vlint (ossl_quic_vlint_encode_n v n ++ tl) = Some (v, tl) /\
  PACKET_skip_quic_vlint (ossl_quic_vlint_encode_n v n ++ tl) = Some (tt, tl).
Proof.
  intros Hl Hr. destruct (vlint_decode_encode_n v n tl Hl Hr) as (H1 & H2 & H3).
  unfold PACKET_peek_quic_vlint_ex, PACKET_get_quic_vlint, PACKET_skip_quic_vlint.
  rewrite H1, H3, zlen_app, H2. pose proof (zlen_nonneg tl).
  assert (1 <= n) by (unfold vlint_len_ok in Hl; lia).
  rewrite (proj2 (Z.ltb_ge (n + zlen tl) 1)), (proj2 (Z.ltb_ge (n + zlen tl) n)) by lia.
  pose proof (packet_forward_app (ossl_quic_vlint_encode_n v n) tl) as Hf. rewrite H2 in Hf. by rewrite Hf.
Qed.

Lemma get_vlint_encode (v : Z) (tl : bytes) : vlint v ->
  PACKET_get_quic_vlint (ossl_quic_vlint_encode v ++ tl) = Some (v, tl).
Proof. intros [Hl Hr]%encode_len_cases. by apply peek_encode_n. Qed.

Lemma skip_vlint_encode (v : Z) (tl : bytes) : vlint v ->
  PACKET_skip_quic_vlint (ossl_quic_vlint_encode v ++ tl) = Some (tt, tl).
Proof. intros [Hl Hr]%encode_len_cases. by apply peek_encode_n. Qed.

(** C28.  Variable-length integers: a value of up to 62 bits written in any of
    the lengths that can hold it is read back exactly, whatever follows it, and
    exactly its bytes are consumed; the length the encoder picks is the least
    of those lengths, and the peek used on frame headers reports that case,
    and no other, as the minimal encoding. *)
Theorem vlint_roundtrip (v n : Z) (tl : bytes) :
  vlint_len_ok n -> vlint_range n v ->
  let bs := ossl_quic_vlint_encode_n v n in
  zlen bs = n /\
  PACKET_get_quic_vlint (bs ++ tl) = Some (v, tl) /\
  ossl_quic_vlint_decode (bs ++ tl) = Some (v, n) /\
  ossl_quic_vlint_encode_len v <= n /\
  PACKET_peek_quic_vlint_ex (bs ++ tl) = Some (v, bool_decide (bs = ossl_quic_vlint_encode v)).
Proof.
  intros Hl Hr bs. destruct (peek_encode_n v n tl Hl Hr) as (Hp & Hg & _).
  destruct (vlint_decode_encode_n v n tl Hl Hr) as (H1 & H2 & H3).
  pose proof (zlen_nonneg tl). assert (1 <= n) by (unfold vlint_len_ok in Hl; lia).
  split_and!; auto using encode_len_least.
  - unfold ossl_quic_vlint_decode. subst bs. rewrite H1, H3, zlen_app, H2.
    by rewrite (proj2 (Z.ltb_ge (n + zlen tl) 1)), (proj2 (Z.ltb_ge (n + zlen tl) n)) by lia.
  - subst bs. rewrite Hp. do 2 f_equal. apply eq_true_iff_eq. rewrite Z.eqb_eq, bool_decide_eq_true.
    unfold ossl_quic_vlint_encode. split; [by intros <-|]. intros He.
    rewrite <- H2, He. apply encode_length. revert Hr Hl. unfold vlint_range, vlint, vlint_len_ok, OSSL_QUIC_VLINT_MAX.
    intros Hr [ -> | [ -> | [ -> | -> ] ] ]; cbn in Hr; lia.
Qed.

Lemma vlint_roundtrip_witness :
  PACKET_peek_quic_vlint_ex (ossl_quic_vlint_encode_n 37 2 ++ [1; 2]) = Some (37, false) /\
  ossl_quic_vlint_encode 494878333 = [157; 127; 62; 125].
Proof.
  split; [|reflexivity].
  destruct (vlint_roundtrip 37 2 [1; 2]) as (_ & _ & _ & _ & H); [by right; left|by (unfold vlint_range; cbn; lia)|exact H].
Defined.

(** ** What writers emit

    [emits a bs]: on a writer with room for [bs], [a] succeeds and appends
    exactly [bs]; with less room it fails. *)
Definition emits (a : writer) (bs : bytes) : Prop := forall w,
  if zlen bs <=? zlen (wp_rest w)
  then a w = (mkWpkt (wp_done w ++ bs) (drop (length bs) (wp_rest w)), true)
  else (a w).2 = false.

Lemma emits_ok : emits wok [].
Proof.
  intros [d r]. unfold zlen. cbn [wp_rest wp_done length drop]. rewrite drop_0, app_nil_r.
  by rewrite (proj2 (Z.leb_le _ _)) by lia.
Qed.

Lemma emits_seq (a b : writer) (x y : bytes) : emits a x -> emits b y -> emits (a ;;; b) (x ++ y).
Proof.
  intros Ha Hb w. specialize (Ha w). unfold wseq. rewrite zlen_app.
  pose proof (zlen_nonneg x). pose proof (zlen_nonneg y).
  destruct (Z.leb_spec (zlen x) (zlen (wp_rest w))) as [Hx|Hx].
  - rewrite Ha. specialize (Hb (mkWpkt (wp_done w ++ x) (drop (length x) (wp_rest w)))). cbn in Hb.
    assert (zlen (drop (length x) (wp_rest w)) = zlen (wp_rest w) - zlen x) as Hd
      by (unfold zlen in *; rewrite length_drop; lia).
    rewrite Hd in Hb. destruct (Z.leb_spec (zlen x + zlen y) (zlen (wp_rest w))).
    + rewrite (proj2 (Z.leb_le (zlen y) _)) in Hb by lia. rewrite Hb, app_assoc, length_app, drop_drop. done.
    + by rewrite (proj2 (Z.leb_gt (zlen y) _)) in Hb by lia.
  - rewrite (proj2 (Z.leb_gt _ (zlen (wp_rest w)))) by lia. destruct (a w) as [w' []]; done.
Qed.

Lemma emits_put (bs : bytes) : bs <> [] -> emits (wput bs) bs.
Proof.
  intros Hne w. unfold wput, WPACKET_allocate_bytes, WPACKET_reserve_bytes.
  assert (0 < zlen bs) by (destruct bs; [done|unfold zlen; cbn; lia]).
  rewrite (proj2 (Z.eqb_neq (zlen bs) 0)) by lia.
  destruct (Z.leb_spec (zlen bs) (zlen (wp_rest w))).
  - rewrite (proj2 (Z.ltb_ge (zlen (wp_rest w)) (zlen bs))) by lia. cbn. unfold zlen. by rewrite Nat2Z.id.
  - by rewrite (proj2 (Z.ltb_lt (zlen (wp_rest w)) (zlen bs))) by lia.
Qed.

Lemma emits_vlint (v : Z) : vlint v -> emits (WPACKET_quic_write_vlint v) (ossl_quic_vlint_encode v).
Proof.
  intros Hv. pose proof (encode_len_pos v Hv). unfold WPACKET_quic_write_vlint.
  rewrite (proj2 (Z.eqb_neq (ossl_quic_vlint_encode_len v) 0)) by lia.
  apply emits_put. intros He. pose proof (encode_length v Hv) as Hl. rewrite He in Hl. unfold zlen in Hl; cbn [length] in Hl. lia.
Qed.

Lemma emits_memcpy (bs : bytes) : emits (WPACKET_memcpy bs) bs.
Proof.
  unfold WPACKET_memcpy. destruct (Z.eqb_spec (zlen bs) 0).
  - destruct bs; [apply emits_ok|unfold zlen in *; cbn in *; lia].
  - apply emits_put. by intros ->.
Qed.

Lemma emits_memset (ch len : Z) : 0 <= len ->
  emits (WPACKET_memset ch len) (replicate (Z.to_nat len) ch).
Proof.
  intros Hlen. unfold WPACKET_memset. destruct (Z.eqb_spec len 0) as [->|]; [apply emits_ok|].
  apply emits_put. destruct (Z.to_nat len) eqn:E; [lia|done].
Qed.

Lemma be_bytes_length (n : nat) (v : Z) : length (be_bytes n v) = n.
Proof. revert v; induction n; intros; cbn; [done|]. rewrite length_app, IHn. cbn. lia. Qed.

Lemma emits_put_bytes (val size : Z) : 0 < size -> 0 <= val < 2 ^ (8 * size) ->
  emits (WPACKET_put_bytes val size) (be_bytes (Z.to_nat size) val).
Proof.
  intros Hs Hv w. assert (be_bytes (Z.to_nat size) val <> []) as Hne.
  { intros He. pose proof (be_bytes_length (Z.to_nat size) val) as Hl. rewrite He in Hl. cbn in Hl. lia. }
  pose proof (emits_put _ Hne w) as Hp. unfold WPACKET_put_bytes.
  case_match; [rewrite Hp|by destruct (wput _ w) as [? []]].
  rewrite Z.shiftr_div_pow2, Z.div_small by lia. done.
Qed.

Lemma emits_when (b : bool) (a : writer) (x : bytes) : (b = true -> emits a x) ->
  emits (wwhen b a) (if b then x else []).
Proof. destruct b; cbn; [auto|intros; apply emits_ok]. Qed.

#[export] Hint Resolve emits_ok emits_seq emits_vlint emits_memcpy emits_when : packet.

Lemma get_net_8_be (v : Z) (tl : bytes) : u64 v -> PACKET_get_net_8 (be_bytes 8 v ++ tl) = Some (v, tl).
Proof.
  intros Hv. unfold PACKET_get_net_8.
  rewrite zlen_app. unfold zlen at 1. rewrite be_bytes_length.
  pose proof (zlen_nonneg tl). rewrite (proj2 (Z.ltb_ge _ 8)) by lia.
  cbn [be_bytes app]. rewrite !Z.shiftr_shiftr by lia. unfold packet_forward, byte_at. cbn [nth].
  change (8 + 8) with 16. change (8 + 16) with 24. change (8 + 24) with 32. change (8 + 32) with 40.
  change (8 + 40) with 48. change (8 + 48) with 56. change 255 with (Z.ones 8). rewrite <- !Z.lor_assoc.
  rewrite (split_bits_eq v 8 8 16), (split_bits_eq v 16 8 24), (split_bits_eq v 24 8 32),
    (split_bits_eq v 32 8 40), (split_bits_eq v 40 8 48), (split_bits_eq v 48 8 56),
    (split_bits_eq v 56 8 64) by lia.
  rewrite land_ones_small by (unfold u64, U64_MOD in Hv; cbn; lia). done.
Qed.

Lemma emits_data_prefix (d : bytes) (len : Z) : 0 < len <= zlen d ->
  emits (wput_data (Some d) len) (take (Z.to_nat len) d).
Proof.
  intros Hp. assert (Hl : zlen (take (Z.to_nat len) d) = len) by (unfold zlen in *; rewrite length_take; lia).
  intros w. pose proof (emits_put (take (Z.to_nat len) d) ltac:(intros He; rewrite He in Hl; unfold zlen in *; cbn [length] in Hl; lia) w) as H.
  unfold wput in H. unfold wput_data. rewrite Hl in *. destruct (WPACKET_allocate_bytes len w) as [w' []]; exact H.
Qed.

Lemma emits_data (d : bytes) (len : Z) : len = zlen d -> 0 < len -> emits (wput_data (Some d) len) d.
Proof.
  intros -> Hp. pose proof (emits_data_prefix d (zlen d) ltac:(lia)) as H.
  unfold zlen in H at 2. by rewrite Nat2Z.id, firstn_all in H.
Qed.
#[export] Hint Resolve emits_data : packet.
