(* ===== verification/Wire.v ===== *)
(** * QUIC frames on the wire (ssl/quic/quic_wire.c, include/internal/quic_wire.h)

    One record per frame structure, one writer per [ossl_quic_wire_encode_*]
    and one reader per [ossl_quic_wire_decode_*].  A pointer into the packet
    that a decoder returns is the list of bytes it designates; [NULL] data is
    [None].  A failing decoder gives [None]: what it had already stored in the
    caller's structure is not used by any caller. *)

From stdpp Require Import strings.
From S2P Require Import Prelude OsslTime Packet.

(** ** Frame types *)

Definition OSSL_QUIC_FRAME_TYPE_PADDING : Z := 0x00.
Definition OSSL_QUIC_FRAME_TYPE_PING : Z := 0x01.
Definition OSSL_QUIC_FRAME_TYPE_ACK_WITHOUT_ECN : Z := 0x02.
Definition OSSL_QUIC_FRAME_TYPE_ACK_WITH_ECN : Z := 0x03.
Definition OSSL_QUIC_FRAME_TYPE_RESET_STREAM : Z := 0x04.
Definition OSSL_QUIC_FRAME_TYPE_STOP_SENDING : Z := 0x05.
Definition OSSL_QUIC_FRAME_TYPE_CRYPTO : Z := 0x06.
Definition OSSL_QUIC_FRAME_TYPE_NEW_TOKEN : Z := 0x07.
Definition OSSL_QUIC_FRAME_TYPE_STREAM : Z := 0x08.
Definition OSSL_QUIC_FRAME_TYPE_MAX_DATA : Z := 0x10.
Definition OSSL_QUIC_FRAME_TYPE_MAX_STREAM_DATA : Z := 0x11.
Definition OSSL_QUIC_FRAME_TYPE_MAX_STREAMS_BIDI : Z := 0x12.
Definition OSSL_QUIC_FRAME_TYPE_MAX_STREAMS_UNI : Z := 0x13.
Definition OSSL_QUIC_FRAME_TYPE_DATA_BLOCKED : Z := 0x14.
Definition OSSL_QUIC_FRAME_TYPE_STREAM_DATA_BLOCKED : Z := 0x15.
Definition OSSL_QUIC_FRAME_TYPE_STREAMS_BLOCKED_BIDI : Z := 0x16.
Definition OSSL_QUIC_FRAME_TYPE_STREAMS_BLOCKED_UNI : Z := 0x17.
Definition OSSL_QUIC_FRAME_TYPE_NEW_CONN_ID : Z := 0x18.
Definition OSSL_QUIC_FRAME_TYPE_RETIRE_CONN_ID : Z := 0x19.
Definition OSSL_QUIC_FRAME_TYPE_PATH_CHALLENGE : Z := 0x1A.
Definition OSSL_QUIC_FRAME_TYPE_PATH_RESPONSE : Z := 0x1B.
Definition OSSL_QUIC_FRAME_TYPE_CONN_CLOSE_TRANSPORT : Z := 0x1C.
Definition OSSL_QUIC_FRAME_TYPE_CONN_CLOSE_APP : Z := 0x1D.
Definition OSSL_QUIC_FRAME_TYPE_HANDSHAKE_DONE : Z := 0x1E.

Definition OSSL_QUIC_FRAME_FLAG_STREAM_FIN : Z := 0x01.
Definition OSSL_QUIC_FRAME_FLAG_STREAM_LEN : Z := 0x02.
Definition OSSL_QUIC_FRAME_FLAG_STREAM_OFF : Z := 0x04.
Definition OSSL_QUIC_FRAME_FLAG_STREAM_MASK : Z := 0x07.

Definition QUIC_MAX_CONN_ID_LEN : Z := 20.
Definition QUIC_STATELESS_RESET_TOKEN_LEN : Z := 16.
Definition QUIC_TPARAM_PREFERRED_ADDR : Z := 0x0D.
Definition QUIC_MIN_ENCODED_PREFERRED_ADDR_LEN : Z := 41.
Definition QUIC_MAX_ENCODED_PREFERRED_ADDR_LEN : Z := 61.

Definition ossl_quic_frame_type_is_ack_eliciting (frame_type : Z) : bool :=
  negb ((frame_type =? OSSL_QUIC_FRAME_TYPE_PADDING)
        || (frame_type =? OSSL_QUIC_FRAME_TYPE_ACK_WITHOUT_ECN)
        || (frame_type =? OSSL_QUIC_FRAME_TYPE_ACK_WITH_ECN)
        || (frame_type =? OSSL_QUIC_FRAME_TYPE_CONN_CLOSE_TRANSPORT)
        || (frame_type =? OSSL_QUIC_FRAME_TYPE_CONN_CLOSE_APP)).

(** ** Frame structures *)

Definition QUIC_PN := Z.

Record OSSL_QUIC_ACK_RANGE := mkAckRange { ar_start : QUIC_PN; ar_end : QUIC_PN }.

Record OSSL_QUIC_FRAME_ACK := mkFrameAck {
  ack_ranges : list OSSL_QUIC_ACK_RANGE;
  num_ack_ranges : Z;
  ack_delay_time : OSSL_TIME;
  ack_ect0 : Z; ack_ect1 : Z; ack_ecnce : Z;
  ack_ecn_present : bool }.
#[export] Instance frame_ack_eta : Eta OSSL_QUIC_FRAME_ACK := fun a =>
  mkFrameAck (ack_ranges a) (num_ack_ranges a) (ack_delay_time a) (ack_ect0 a) (ack_ect1 a)
    (ack_ecnce a) (ack_ecn_present a).

Record OSSL_QUIC_FRAME_STREAM := mkFrameStream {
  fs_stream_id : Z; fs_offset : Z; fs_len : Z; fs_data : option bytes;
  fs_has_explicit_len : bool; fs_is_fin : bool }.

Record OSSL_QUIC_FRAME_CRYPTO := mkFrameCrypto {
  fc_offset : Z; fc_len : Z; fc_data : option bytes }.

Record OSSL_QUIC_FRAME_RESET_STREAM := mkFrameResetStream {
  rs_stream_id : Z; rs_app_error_code : Z; rs_final_size : Z }.

Record OSSL_QUIC_FRAME_STOP_SENDING := mkFrameStopSending {
  ss_stream_id : Z; ss_app_error_code : Z }.

(** [cid_id] is the whole array of [QUIC_MAX_CONN_ID_LEN] bytes. *)
Record QUIC_CONN_ID := mkConnId { cid_id_len : Z; cid_id : bytes }.

Record OSSL_QUIC_FRAME_NEW_CONN_ID := mkFrameNewConnId {
  nc_seq_num : Z; nc_retire_prior_to : Z; nc_conn_id : QUIC_CONN_ID;
  nc_stateless_reset : bytes }.

Record OSSL_QUIC_FRAME_CONN_CLOSE := mkFrameConnClose {
  cc_is_app : bool; cc_error_code : Z; cc_frame_type : Z; cc_reason : bytes; cc_reason_len : Z }.

Record QUIC_PREFERRED_ADDR := mkPreferredAddr {
  pa_ipv4_port : Z; pa_ipv6_port : Z; pa_ipv4 : bytes; pa_ipv6 : bytes;
  pa_stateless_reset : bytes; pa_cid : QUIC_CONN_ID }.

Definition ossl_quic_frame_ack_contains_pn (ack : OSSL_QUIC_FRAME_ACK) (pn : QUIC_PN) : bool :=
  existsb (fun r => (ar_start r <=? pn) && (pn <=? ar_end r))
    (take (Z.to_nat (num_ack_ranges ack)) (ack_ranges ack)).

(** [memcmp] of the significant bytes. *)
Definition ossl_quic_conn_id_eq (a b : QUIC_CONN_ID) : bool :=
  if negb (cid_id_len a =? cid_id_len b) || (QUIC_MAX_CONN_ID_LEN <? cid_id_len a) then false
  else bool_decide (take (Z.to_nat (cid_id_len a)) (cid_id a) = take (Z.to_nat (cid_id_len a)) (cid_id b)).

(** ** Encoders *)

Definition ossl_quic_wire_encode_padding (num_bytes : Z) : writer := WPACKET_memset 0 num_bytes.

Definition encode_frame_hdr (frame_type : Z) : writer := WPACKET_quic_write_vlint frame_type.

Definition ossl_quic_wire_encode_frame_ping : writer := encode_frame_hdr OSSL_QUIC_FRAME_TYPE_PING.

(** The loop over [ack_ranges[1 ..]]. *)
Fixpoint encode_ack_ranges (prev : OSSL_QUIC_ACK_RANGE) (rs : list OSSL_QUIC_ACK_RANGE) : writer :=
  match rs with
  | [] => wok
  | r :: rs' =>
      let gap := ar_start prev -u ar_end r -u 2 in
      let range_len := ar_end r -u ar_start r in
      WPACKET_quic_write_vlint gap ;;; WPACKET_quic_write_vlint range_len ;;; encode_ack_ranges r rs'
  end.

Definition ossl_quic_wire_encode_frame_ack (ack_delay_exponent : Z) (ack : OSSL_QUIC_FRAME_ACK) : writer :=
  let frame_type := if ack_ecn_present ack then OSSL_QUIC_FRAME_TYPE_ACK_WITH_ECN
                    else OSSL_QUIC_FRAME_TYPE_ACK_WITHOUT_ECN in
  match take (Z.to_nat (num_ack_ranges ack)) (ack_ranges ack) with
  | [] => wfail
  | r0 :: rs =>
      let delay := ossl_time_divide (ossl_time_divide (ack_delay_time ack) OSSL_TIME_US)
                     (Z.shiftl 1 ack_delay_exponent) in
      let ack_delay_enc := ossl_time2ticks delay in
      let largest_ackd := ar_end r0 in
      let first_ack_range := ar_end r0 -u ar_start r0 in
      encode_frame_hdr frame_type ;;;
      WPACKET_quic_write_vlint largest_ackd ;;;
      WPACKET_quic_write_vlint ack_delay_enc ;;;
      WPACKET_quic_write_vlint (num_ack_ranges ack -u 1) ;;;
      WPACKET_quic_write_vlint first_ack_range ;;;
      encode_ack_ranges r0 rs ;;;
      wwhen (ack_ecn_present ack)
        (WPACKET_quic_write_vlint (ack_ect0 ack) ;;;
         WPACKET_quic_write_vlint (ack_ect1 ack) ;;;
         WPACKET_quic_write_vlint (ack_ecnce ack))
  end.

Definition ossl_quic_wire_encode_frame_reset_stream (f : OSSL_QUIC_FRAME_RESET_STREAM) : writer :=
  encode_frame_hdr OSSL_QUIC_FRAME_TYPE_RESET_STREAM ;;;
  WPACKET_quic_write_vlint (rs_stream_id f) ;;;
  WPACKET_quic_write_vlint (rs_app_error_code f) ;;;
  WPACKET_quic_write_vlint (rs_final_size f).

Definition ossl_quic_wire_encode_frame_stop_sending (f : OSSL_QUIC_FRAME_STOP_SENDING) : writer :=
  encode_frame_hdr OSSL_QUIC_FRAME_TYPE_STOP_SENDING ;;;
  WPACKET_quic_write_vlint (ss_stream_id f) ;;;
  WPACKET_quic_write_vlint (ss_app_error_code f).

Definition ossl_quic_wire_encode_frame_crypto_hdr (f : OSSL_QUIC_FRAME_CRYPTO) : writer :=
  encode_frame_hdr OSSL_QUIC_FRAME_TYPE_CRYPTO ;;;
  WPACKET_quic_write_vlint (fc_offset f) ;;;
  WPACKET_quic_write_vlint (fc_len f).

Definition ossl_quic_wire_get_encoded_frame_len_crypto_hdr (f : OSSL_QUIC_FRAME_CRYPTO) : Z :=
  let a := ossl_quic_vlint_encode_len OSSL_QUIC_FRAME_TYPE_CRYPTO in
  let b := ossl_quic_vlint_encode_len (fc_offset f) in
  let c := ossl_quic_vlint_encode_len (fc_len f) in
  if (a =? 0) || (b =? 0) || (c =? 0) then 0 else a + b + c.

Definition ossl_quic_wire_encode_frame_crypto (f : OSSL_QUIC_FRAME_CRYPTO) : writer :=
  ossl_quic_wire_encode_frame_crypto_hdr f ;;;
  if SIZE_MAX <? fc_len f then wfail else wput_data (fc_data f) (fc_len f).

Definition ossl_quic_wire_encode_frame_new_token (token : bytes) (token_len : Z) : writer :=
  encode_frame_hdr OSSL_QUIC_FRAME_TYPE_NEW_TOKEN ;;;
  WPACKET_quic_write_vlint token_len ;;;
  WPACKET_memcpy (take (Z.to_nat token_len) token).

Definition ossl_quic_wire_encode_frame_stream_hdr (f : OSSL_QUIC_FRAME_STREAM) : writer :=
  let frame_type := OSSL_QUIC_FRAME_TYPE_STREAM in
  let frame_type := if negb (fs_offset f =? 0) then Z.lor frame_type OSSL_QUIC_FRAME_FLAG_STREAM_OFF else frame_type in
  let frame_type := if fs_has_explicit_len f then Z.lor frame_type OSSL_QUIC_FRAME_FLAG_STREAM_LEN else frame_type in
  let frame_type := if fs_is_fin f then Z.lor frame_type OSSL_QUIC_FRAME_FLAG_STREAM_FIN else frame_type in
  encode_frame_hdr frame_type ;;;
  WPACKET_quic_write_vlint (fs_stream_id f) ;;;
  wwhen (negb (fs_offset f =? 0)) (WPACKET_quic_write_vlint (fs_offset f)) ;;;
  wwhen (fs_has_explicit_len f) (WPACKET_quic_write_vlint (fs_len f)).

Definition ossl_quic_wire_get_encoded_frame_len_stream_hdr (f : OSSL_QUIC_FRAME_STREAM) : Z :=
  let a := ossl_quic_vlint_encode_len OSSL_QUIC_FRAME_TYPE_STREAM in
  let b := ossl_quic_vlint_encode_len (fs_stream_id f) in
  if (a =? 0) || (b =? 0) then 0
  else
    let c := if 0 <? fs_offset f then ossl_quic_vlint_encode_len (fs_offset f) else 0 in
    if (0 <? fs_offset f) && (c =? 0) then 0
    else
      let d := if fs_has_explicit_len f then ossl_quic_vlint_encode_len (fs_len f) else 0 in
      if fs_has_explicit_len f && (d =? 0) then 0
      else a + b + c + d.

Definition ossl_quic_wire_encode_frame_stream (f : OSSL_QUIC_FRAME_STREAM) : writer :=
  ossl_quic_wire_encode_frame_stream_hdr f ;;;
  if SIZE_MAX <? fs_len f then wfail else wput_data (fs_data f) (fs_len f).

Definition ossl_quic_wire_encode_frame_max_data (max_data : Z) : writer :=
  encode_frame_hdr OSSL_QUIC_FRAME_TYPE_MAX_DATA ;;; WPACKET_quic_write_vlint max_data.

Definition ossl_quic_wire_encode_frame_max_stream_data (stream_id max_data : Z) : writer :=
  encode_frame_hdr OSSL_QUIC_FRAME_TYPE_MAX_STREAM_DATA ;;;
  WPACKET_quic_write_vlint stream_id ;;; WPACKET_quic_write_vlint max_data.

Definition ossl_quic_wire_encode_frame_max_streams (is_uni : bool) (max_streams : Z) : writer :=
  encode_frame_hdr (if is_uni then OSSL_QUIC_FRAME_TYPE_MAX_STREAMS_UNI
                    else OSSL_QUIC_FRAME_TYPE_MAX_STREAMS_BIDI) ;;;
  WPACKET_quic_write_vlint max_streams.

Definition ossl_quic_wire_encode_frame_data_blocked (max_data : Z) : writer :=
  encode_frame_hdr OSSL_QUIC_FRAME_TYPE_DATA_BLOCKED ;;; WPACKET_quic_write_vlint max_data.

Definition ossl_quic_wire_encode_frame_stream_data_blocked (stream_id max_stream_data : Z) : writer :=
  encode_frame_hdr OSSL_QUIC_FRAME_TYPE_STREAM_DATA_BLOCKED ;;;
  WPACKET_quic_write_vlint stream_id ;;; WPACKET_quic_write_vlint max_stream_data.

Definition ossl_quic_wire_encode_frame_streams_blocked (is_uni : bool) (max_streams : Z) : writer :=
  encode_frame_hdr (if is_uni then OSSL_QUIC_FRAME_TYPE_STREAMS_BLOCKED_UNI
                    else OSSL_QUIC_FRAME_TYPE_STREAMS_BLOCKED_BIDI) ;;;
  WPACKET_quic_write_vlint max_streams.

Definition ossl_quic_wire_encode_frame_new_conn_id (f : OSSL_QUIC_FRAME_NEW_CONN_ID) : writer :=
  if (cid_id_len (nc_conn_id f) <? 1) || (QUIC_MAX_CONN_ID_LEN <? cid_id_len (nc_conn_id f)) then wfail
  else
    encode_frame_hdr OSSL_QUIC_FRAME_TYPE_NEW_CONN_ID ;;;
    WPACKET_quic_write_vlint (nc_seq_num f) ;;;
    WPACKET_quic_write_vlint (nc_retire_prior_to f) ;;;
    WPACKET_put_bytes (cid_id_len (nc_conn_id f)) 1 ;;;
    WPACKET_memcpy (take (Z.to_nat (cid_id_len (nc_conn_id f))) (cid_id (nc_conn_id f))) ;;;
    WPACKET_memcpy (nc_stateless_reset f).

Definition ossl_quic_wire_encode_frame_retire_conn_id (seq_num : Z) : writer :=
  encode_frame_hdr OSSL_QUIC_FRAME_TYPE_RETIRE_CONN_ID ;;; WPACKET_quic_write_vlint seq_num.

Definition ossl_quic_wire_encode_frame_path_challenge (data : Z) : writer :=
  encode_frame_hdr OSSL_QUIC_FRAME_TYPE_PATH_CHALLENGE ;;; WPACKET_put_bytes data 8.

Definition ossl_quic_wire_encode_frame_path_response (data : Z) : writer :=
  encode_frame_hdr OSSL_QUIC_FRAME_TYPE_PATH_RESPONSE ;;; WPACKET_put_bytes data 8.

Definition ossl_quic_wire_encode_frame_conn_close (f : OSSL_QUIC_FRAME_CONN_CLOSE) : writer :=
  encode_frame_hdr (if cc_is_app f then OSSL_QUIC_FRAME_TYPE_CONN_CLOSE_APP
                    else OSSL_QUIC_FRAME_TYPE_CONN_CLOSE_TRANSPORT) ;;;
  WPACKET_quic_write_vlint (cc_error_code f) ;;;
  wwhen (negb (cc_is_app f)) (WPACKET_quic_write_vlint (cc_frame_type f)) ;;;
  WPACKET_quic_write_vlint (cc_reason_len f) ;;;
  WPACKET_memcpy (take (Z.to_nat (cc_reason_len f)) (cc_reason f)).

Definition ossl_quic_wire_encode_frame_handshake_done : writer :=
  encode_frame_hdr OSSL_QUIC_FRAME_TYPE_HANDSHAKE_DONE.

Definition ossl_quic_wire_encode_transport_param_bytes (id : Z) (value : option bytes) (value_len : Z) : writer :=
  WPACKET_quic_write_vlint id ;;;
  WPACKET_quic_write_vlint value_len ;;;
  if value_len =? 0 then wok else wput_data value value_len.

Definition ossl_quic_wire_encode_transport_param_int (id value : Z) : writer :=
  WPACKET_quic_write_vlint id ;;;
  WPACKET_quic_write_vlint (ossl_quic_vlint_encode_len value) ;;;
  WPACKET_quic_write_vlint value.

Definition ossl_quic_wire_encode_transport_param_cid (id : Z) (cid : QUIC_CONN_ID) : writer :=
  if QUIC_MAX_CONN_ID_LEN <? cid_id_len cid then wfail
  else ossl_quic_wire_encode_transport_param_bytes id (Some (cid_id cid)) (cid_id_len cid).

(** ** Decoders *)

Definition ossl_quic_wire_peek_frame_header (pkt : PACKET) : option (Z * bool) :=
  PACKET_peek_quic_vlint_ex pkt.

Definition ossl_quic_wire_skip_frame_header : reader Z := PACKET_get_quic_vlint.

Definition expect_frame_header_mask (expected_frame_type mask_bits : Z) : reader Z :=
  actual_frame_type ← ossl_quic_wire_skip_frame_header;
  _ ← check (Z.ldiff actual_frame_type mask_bits =? expected_frame_type);
  mret actual_frame_type.

Definition expect_frame_header (expected_frame_type : Z) : reader unit :=
  actual_frame_type ← ossl_quic_wire_skip_frame_header;
  check (actual_frame_type =? expected_frame_type).

(** The loop [for (i = 0; i < ack_range_count; ++i)] skipping two integers;
    every round consumes at least two bytes, so the fuel is the packet's length. *)
Fixpoint skip_ack_ranges (fuel : nat) (i ack_range_count : Z) : reader unit :=
  if i <? ack_range_count then
    match fuel with
    | O => rfail
    | S fuel =>
        _ ← PACKET_skip_quic_vlint; _ ← PACKET_skip_quic_vlint;
        skip_ack_ranges fuel (i + 1) ack_range_count
    end
  else mret tt.

(** Works on a copy of the packet: the position of the caller's stays. *)
Definition ossl_quic_wire_peek_frame_ack_num_ranges (orig_pkt : PACKET) : option Z :=
  let go : reader Z :=
    _ ← expect_frame_header_mask OSSL_QUIC_FRAME_TYPE_ACK_WITHOUT_ECN 1;
    _ ← PACKET_skip_quic_vlint;
    _ ← PACKET_skip_quic_vlint;
    ack_range_count ← PACKET_get_quic_vlint;
    _ ← with_fuel (fun fuel => skip_ack_ranges fuel 0 ack_range_count);
    mret (ack_range_count +u 1) in
  fst <$> go orig_pkt.

(** [ack->ack_ranges[i].start = start; ack->ack_ranges[i].end = end_]. *)
Definition set_ack_range (ack : OSSL_QUIC_FRAME_ACK) (i : Z) (start end_ : QUIC_PN) : OSSL_QUIC_FRAME_ACK :=
  ack <| ack_ranges := <[Z.to_nat i := mkAckRange start end_]> (ack_ranges ack) |>.

(** The loop over the ranges after the first.  [start] is only moved when the
    range is stored, as in the code. *)
Fixpoint decode_ack_ranges (fuel : nat) (i ack_range_count start : Z) (ack : option OSSL_QUIC_FRAME_ACK)
  : reader (option OSSL_QUIC_FRAME_ACK) :=
  if i <? ack_range_count then
    match fuel with
    | O => rfail
    | S fuel =>
        gap ← PACKET_get_quic_vlint;
        len ← PACKET_get_quic_vlint;
        let end_ := start -u gap -u 2 in
        _ ← check (negb ((start <? gap +u 2) || (end_ <? len)));
        match ack with
        | Some a =>
            if i + 1 <? num_ack_ranges a
            then decode_ack_ranges fuel (i + 1) ack_range_count (end_ -u len)
                   (Some (set_ack_range a (i + 1) (end_ -u len) end_))
            else decode_ack_ranges fuel (i + 1) ack_range_count start ack
        | None => decode_ack_ranges fuel (i + 1) ack_range_count start ack
        end
    end
  else mret ack.

(** The delay and the first range, stored when [ack != NULL]. *)
Definition ack_store_first (ack_delay_exponent ack_delay_raw start largest_ackd : Z) (a : OSSL_QUIC_FRAME_ACK)
  : OSSL_QUIC_FRAME_ACK :=
  let '(d, err) := safe_mul ack_delay_raw (Z.shiftl 1 ack_delay_exponent) false in
  let delay := if err then ossl_time_infinite else ossl_time_multiply (ossl_ticks2time OSSL_TIME_US) d in
  let a := a <| ack_delay_time := delay |> in
  if 0 <? num_ack_ranges a then set_ack_range a 0 start largest_ackd else a.

(** What follows the ranges: the counts and the ECN fields. *)
Definition decode_ack_tail (frame_type ack_range_count : Z) (ack : option OSSL_QUIC_FRAME_ACK)
  : reader (option OSSL_QUIC_FRAME_ACK * Z) :=
  let ack := (fun a => if ack_range_count + 1 <? num_ack_ranges a
                       then a <| num_ack_ranges := ack_range_count + 1 |> else a) <$> ack in
  let total_ranges := ack_range_count +u 1 in
  if frame_type =? OSSL_QUIC_FRAME_TYPE_ACK_WITH_ECN then
    ect0 ← PACKET_get_quic_vlint;
    ect1 ← PACKET_get_quic_vlint;
    ecnce ← PACKET_get_quic_vlint;
    mret ((fun a => a <| ack_ect0 := ect0 |> <| ack_ect1 := ect1 |> <| ack_ecnce := ecnce |>
                      <| ack_ecn_present := true |>) <$> ack, total_ranges)
  else mret ((fun a => a <| ack_ecn_present := false |>) <$> ack, total_ranges).

(** [ack = None] is a [NULL] argument; gives the frame and [*total_ranges]. *)
Definition ossl_quic_wire_decode_frame_ack (ack_delay_exponent : Z) (ack : option OSSL_QUIC_FRAME_ACK)
  : reader (option OSSL_QUIC_FRAME_ACK * Z) :=
  frame_type ← expect_frame_header_mask OSSL_QUIC_FRAME_TYPE_ACK_WITHOUT_ECN 1;
  largest_ackd ← PACKET_get_quic_vlint;
  ack_delay_raw ← PACKET_get_quic_vlint;
  ack_range_count ← PACKET_get_quic_vlint;
  first_ack_range ← PACKET_get_quic_vlint;
  _ ← check (negb (largest_ackd <? first_ack_range));
  _ ← check (negb (SIZE_MAX <? ack_range_count));
  let start := largest_ackd -u first_ack_range in
  let ack := ack_store_first ack_delay_exponent ack_delay_raw start largest_ackd <$> ack in
  ack ← with_fuel (fun fuel => decode_ack_ranges fuel 0 ack_range_count start ack);
  decode_ack_tail frame_type ack_range_count ack.

Definition ossl_quic_wire_decode_frame_reset_stream : reader OSSL_QUIC_FRAME_RESET_STREAM :=
  _ ← expect_frame_header OSSL_QUIC_FRAME_TYPE_RESET_STREAM;
  stream_id ← PACKET_get_quic_vlint;
  app_error_code ← PACKET_get_quic_vlint;
  final_size ← PACKET_get_quic_vlint;
  mret (mkFrameResetStream stream_id app_error_code final_size).

Definition ossl_quic_wire_decode_frame_stop_sending : reader OSSL_QUIC_FRAME_STOP_SENDING :=
  _ ← expect_frame_header OSSL_QUIC_FRAME_TYPE_STOP_SENDING;
  stream_id ← PACKET_get_quic_vlint;
  app_error_code ← PACKET_get_quic_vlint;
  mret (mkFrameStopSending stream_id app_error_code).

Definition QUIC_MAX_STREAM_OFFSET : Z := Z.shiftl 1 62 - 1.

Definition ossl_quic_wire_decode_frame_crypto (nodata : bool) : reader OSSL_QUIC_FRAME_CRYPTO :=
  _ ← expect_frame_header OSSL_QUIC_FRAME_TYPE_CRYPTO;
  offset ← PACKET_get_quic_vlint;
  len ← PACKET_get_quic_vlint;
  _ ← check (negb (SIZE_MAX <? len));
  _ ← check (negb (QUIC_MAX_STREAM_OFFSET <? offset +u len));
  if nodata then mret (mkFrameCrypto offset len None)
  else
    remaining ← PACKET_remaining;
    _ ← check (negb (remaining <? len));
    data ← PACKET_get_bytes len;
    mret (mkFrameCrypto offset len (Some data)).

Definition ossl_quic_wire_decode_frame_new_token : reader (bytes * Z) :=
  _ ← expect_frame_header OSSL_QUIC_FRAME_TYPE_NEW_TOKEN;
  token_len ← PACKET_get_quic_vlint;
  _ ← check (negb (SIZE_MAX <? token_len));
  token ← PACKET_get_bytes token_len;
  mret (token, token_len).

Definition ossl_quic_wire_decode_frame_stream (nodata : bool) : reader OSSL_QUIC_FRAME_STREAM :=
  frame_type ← expect_frame_header_mask OSSL_QUIC_FRAME_TYPE_STREAM OSSL_QUIC_FRAME_FLAG_STREAM_MASK;
  stream_id ← PACKET_get_quic_vlint;
  offset ← (if negb (Z.land frame_type OSSL_QUIC_FRAME_FLAG_STREAM_OFF =? 0)
            then PACKET_get_quic_vlint else mret 0);
  let has_explicit_len := negb (Z.land frame_type OSSL_QUIC_FRAME_FLAG_STREAM_LEN =? 0) in
  let is_fin := negb (Z.land frame_type OSSL_QUIC_FRAME_FLAG_STREAM_FIN =? 0) in
  len ← (if has_explicit_len then PACKET_get_quic_vlint
         else if nodata then mret 0
         else PACKET_remaining);
  _ ← check (negb (QUIC_MAX_STREAM_OFFSET <? offset +u len));
  if nodata then mret (mkFrameStream stream_id offset len None has_explicit_len is_fin)
  else
    _ ← check (negb (SIZE_MAX <? len));
    data ← PACKET_get_bytes len;
    mret (mkFrameStream stream_id offset len (Some data) has_explicit_len is_fin).

Definition ossl_quic_wire_decode_frame_max_data : reader Z :=
  _ ← expect_frame_header OSSL_QUIC_FRAME_TYPE_MAX_DATA;
  PACKET_get_quic_vlint.

Definition ossl_quic_wire_decode_frame_max_stream_data : reader (Z * Z) :=
  _ ← expect_frame_header OSSL_QUIC_FRAME_TYPE_MAX_STREAM_DATA;
  stream_id ← PACKET_get_quic_vlint;
  max_stream_data ← PACKET_get_quic_vlint;
  mret (stream_id, max_stream_data).

Definition ossl_quic_wire_decode_frame_max_streams : reader Z :=
  _ ← expect_frame_header_mask OSSL_QUIC_FRAME_TYPE_MAX_STREAMS_BIDI 1;
  PACKET_get_quic_vlint.

Definition ossl_quic_wire_decode_frame_data_blocked : reader Z :=
  _ ← expect_frame_header OSSL_QUIC_FRAME_TYPE_DATA_BLOCKED;
  PACKET_get_quic_vlint.

Definition ossl_quic_wire_decode_frame_stream_data_blocked : reader (Z * Z) :=
  _ ← expect_frame_header OSSL_QUIC_FRAME_TYPE_STREAM_DATA_BLOCKED;
  stream_id ← PACKET_get_quic_vlint;
  max_stream_data ← PACKET_get_quic_vlint;
  mret (stream_id, max_stream_data).

Definition ossl_quic_wire_decode_frame_streams_blocked : reader Z :=
  _ ← expect_frame_header_mask OSSL_QUIC_FRAME_TYPE_STREAMS_BLOCKED_BIDI 1;
  PACKET_get_quic_vlint.

Definition ossl_quic_wire_decode_frame_new_conn_id : reader OSSL_QUIC_FRAME_NEW_CONN_ID :=
  _ ← expect_frame_header OSSL_QUIC_FRAME_TYPE_NEW_CONN_ID;
  seq_num ← PACKET_get_quic_vlint;
  retire_prior_to ← PACKET_get_quic_vlint;
  _ ← check (negb (seq_num <? retire_prior_to));
  len ← PACKET_get_1;
  _ ← check (negb ((len <? 1) || (QUIC_MAX_CONN_ID_LEN <? len)));
  id ← PACKET_get_bytes len;
  let id := if len <? QUIC_MAX_CONN_ID_LEN
            then id ++ replicate (Z.to_nat (QUIC_MAX_CONN_ID_LEN - len)) 0 else id in
  token ← PACKET_get_bytes QUIC_STATELESS_RESET_TOKEN_LEN;
  mret (mkFrameNewConnId seq_num retire_prior_to (mkConnId len id) token).

Definition ossl_quic_wire_decode_frame_retire_conn_id : reader Z :=
  _ ← expect_frame_header OSSL_QUIC_FRAME_TYPE_RETIRE_CONN_ID;
  PACKET_get_quic_vlint.

Definition ossl_quic_wire_decode_frame_path_challenge : reader Z :=
  _ ← expect_frame_header OSSL_QUIC_FRAME_TYPE_PATH_CHALLENGE;
  PACKET_get_net_8.

Definition ossl_quic_wire_decode_frame_path_response : reader Z :=
  _ ← expect_frame_header OSSL_QUIC_FRAME_TYPE_PATH_RESPONSE;
  PACKET_get_net_8.

Definition ossl_quic_wire_decode_frame_conn_close : reader OSSL_QUIC_FRAME_CONN_CLOSE :=
  frame_type ← expect_frame_header_mask OSSL_QUIC_FRAME_TYPE_CONN_CLOSE_TRANSPORT 1;
  error_code ← PACKET_get_quic_vlint;
  let is_app := negb (Z.land frame_type 1 =? 0) in
  ft ← (if negb is_app then PACKET_get_quic_vlint else mret 0);
  reason_len ← PACKET_get_quic_vlint;
  _ ← check (negb (SIZE_MAX <? reason_len));
  reason ← PACKET_get_bytes reason_len;
  mret (mkFrameConnClose is_app error_code ft reason reason_len).

(** [while (p < end && *p == 0) ++p]. *)
Fixpoint count_zeros (pkt : bytes) : Z :=
  match pkt with
  | b :: rest => if b =? 0 then 1 + count_zeros rest else 0
  | [] => 0
  end.

Definition ossl_quic_wire_decode_padding : reader Z := fun pkt =>
  let n := count_zeros pkt in
  match PACKET_forward n pkt with
  | None => Some (0, pkt)
  | Some (_, rest) => Some (n, rest)
  end.

Definition ossl_quic_wire_decode_frame_ping : reader unit := expect_frame_header OSSL_QUIC_FRAME_TYPE_PING.

Definition ossl_quic_wire_decode_frame_handshake_done : reader unit :=
  expect_frame_header OSSL_QUIC_FRAME_TYPE_HANDSHAKE_DONE.

Definition ossl_quic_wire_peek_transport_param (pkt : PACKET) : option Z :=
  fst <$> PACKET_get_quic_vlint pkt.

(** The identifier and the body. *)
Definition ossl_quic_wire_decode_transport_param_bytes : reader (Z * bytes) :=
  id ← PACKET_get_quic_vlint;
  len ← PACKET_get_quic_vlint;
  _ ← check (negb (SIZE_MAX <? len));
  b ← PACKET_get_bytes len;
  mret (id, b).

Definition ossl_quic_wire_decode_transport_param_int : reader (Z * Z) :=
  '(id, sub) ← ossl_quic_wire_decode_transport_param_bytes;
  match PACKET_get_quic_vlint sub with
  | None => rfail
  | Some (value, sub') =>
      _ ← check (negb (0 <? zlen sub'));
      mret (id, value)
  end.

(** Overwrites the first [len] bytes of the identifier [cid] held before. *)
Definition ossl_quic_wire_decode_transport_param_cid (cid : QUIC_CONN_ID) : reader (Z * QUIC_CONN_ID) :=
  '(id, body) ← ossl_quic_wire_decode_transport_param_bytes;
  _ ← check (negb (QUIC_MAX_CONN_ID_LEN <? zlen body));
  mret (id, mkConnId (zlen body) (body ++ drop (length body) (cid_id cid))).

Definition ossl_quic_wire_decode_transport_param_preferred_addr (p : QUIC_PREFERRED_ADDR)
  : reader QUIC_PREFERRED_ADDR :=
  '(id, body) ← ossl_quic_wire_decode_transport_param_bytes;
  _ ← check (negb ((zlen body <? QUIC_MIN_ENCODED_PREFERRED_ADDR_LEN)
                   || (QUIC_MAX_ENCODED_PREFERRED_ADDR_LEN <? zlen body)
                   || negb (id =? QUIC_TPARAM_PREFERRED_ADDR)));
  let fields : reader QUIC_PREFERRED_ADDR :=
    ipv4 ← PACKET_get_bytes 4;
    ipv4_port ← PACKET_get_net_2;
    ipv6 ← PACKET_get_bytes 16;
    ipv6_port ← PACKET_get_net_2;
    cidl ← PACKET_get_1;
    _ ← check (negb (QUIC_MAX_CONN_ID_LEN <? cidl));
    cid ← PACKET_get_bytes cidl;
    token ← PACKET_get_bytes QUIC_STATELESS_RESET_TOKEN_LEN;
    mret (mkPreferredAddr ipv4_port ipv6_port ipv4 ipv6 token
            (mkConnId cidl (cid ++ drop (length cid) (cid_id (pa_cid p))))) in
  match fields body with
  | None => rfail
  | Some (a, _) => mret (M:=reader) a
  end.

Local Open Scope string_scope.

Definition ossl_quic_frame_type_to_string (frame_type : Z) : option string :=
  (fun p => snd (snd p)) <$> list_find (fun e => fst e = frame_type)
    [(0x00, "PADDING"); (0x01, "PING"); (0x02, "ACK_WITHOUT_ECN"); (0x03, "ACK_WITH_ECN");
     (0x04, "RESET_STREAM"); (0x05, "STOP_SENDING"); (0x06, "CRYPTO"); (0x07, "NEW_TOKEN");
     (0x10, "MAX_DATA"); (0x11, "MAX_STREAM_DATA"); (0x12, "MAX_STREAMS_BIDI");
     (0x13, "MAX_STREAMS_UNI"); (0x14, "DATA_BLOCKED"); (0x15, "STREAM_DATA_BLOCKED");
     (0x16, "STREAMS_BLOCKED_BIDI"); (0x17, "STREAMS_BLOCKED_UNI"); (0x18, "NEW_CONN_ID");
     (0x19, "RETIRE_CONN_ID"); (0x1A, "PATH_CHALLENGE"); (0x1B, "PATH_RESPONSE");
     (0x1C, "CONN_CLOSE_TRANSPORT"); (0x1D, "CONN_CLOSE_APP"); (0x1E, "HANDSHAKE_DONE");
     (0x08, "STREAM"); (0x09, "STREAM_FIN"); (0x0A, "STREAM_LEN"); (0x0B, "STREAM_LEN_FIN");
     (0x0C, "STREAM_OFF"); (0x0D, "STREAM_OFF_FIN"); (0x0E, "STREAM_OFF_LEN");
     (0x0F, "STREAM_OFF_LEN_FIN")].

Definition ossl_quic_err_to_string (error_code : Z) : option string :=
  (fun p => snd (snd p)) <$> list_find (fun e => fst e = error_code)
    [(0x00, "NO_ERROR"); (0x01, "INTERNAL_ERROR"); (0x02, "CONNECTION_REFUSED");
     (0x03, "FLOW_CONTROL_ERROR"); (0x04, "STREAM_LIMIT_ERROR"); (0x05, "STREAM_STATE_ERROR");
     (0x06, "FINAL_SIZE_ERROR"); (0x07, "FRAME_ENCODING_ERROR");
     (0x08, "TRANSPORT_PARAMETER_ERROR"); (0x09, "CONNECTION_ID_LIMIT_ERROR");
     (0x0A, "PROTOCOL_VIOLATION"); (0x0B, "INVALID_TOKEN"); (0x0C, "APPLICATION_ERROR");
     (0x0D, "CRYPTO_BUFFER_EXCEEDED"); (0x0E, "KEY_UPDATE_ERROR"); (0x0F, "AEAD_LIMIT_REACHED");
     (0x10, "NO_VIABLE_PATH")].

Local Close Scope string_scope.

(** ** Reading back what was written *)

Abbreviation venc := ossl_quic_vlint_encode.

#[global] Arguments ossl_quic_vlint_encode : simpl never.
#[global] Opaque ossl_quic_vlint_encode.

Section ReadBack.
Context {A : Type}.

Lemma bind_vlint (k : Z -> reader A) (v : Z) (tl : bytes) : vlint v ->
  (x ← PACKET_get_quic_vlint; k x) (venc v ++ tl) = k v tl.
Proof. intros H. unfold mbind, reader_bind. by rewrite get_vlint_encode. Qed.

Lemma bind_skip (k : unit -> reader A) (v : Z) (tl : bytes) : vlint v ->
  (x ← PACKET_skip_quic_vlint; k x) (venc v ++ tl) = k tt tl.
Proof. intros H. unfold mbind, reader_bind. by rewrite skip_vlint_encode. Qed.

Lemma bind_check (k : unit -> reader A) (b : bool) (tl : bytes) : b = true ->
  (x ← check b; k x) tl = k tt tl.
Proof. by intros ->. Qed.

Lemma bind_ret {B} (k : B -> reader A) (b : B) (tl : bytes) : (x ← mret b; k x) tl = k b tl.
Proof. done. Qed.

Lemma bind_remaining (k : Z -> reader A) (tl : bytes) : (x ← PACKET_remaining; k x) tl = k (zlen tl) tl.
Proof. done. Qed.

Lemma get_bytes_app (b tl : bytes) (n : Z) : n = zlen b -> PACKET_get_bytes n (b ++ tl) = Some (b, tl).
Proof.
  intros ->. unfold PACKET_get_bytes. rewrite zlen_app. pose proof (zlen_nonneg tl).
  rewrite (proj2 (Z.ltb_ge _ _)) by lia. rewrite packet_forward_app. unfold zlen.
  by rewrite Nat2Z.id, take_app_length.
Qed.

Lemma bind_bytes (k : bytes -> reader A) (b tl : bytes) (n : Z) : n = zlen b ->
  (x ← PACKET_get_bytes n; k x) (b ++ tl) = k b tl.
Proof. intros H. unfold mbind, reader_bind. by rewrite get_bytes_app. Qed.

Lemma bind_get_1 (k : Z -> reader A) (b : Z) (tl : bytes) : (x ← PACKET_get_1; k x) (b :: tl) = k b tl.
Proof. done. Qed.

Lemma bind_hdr (k : unit -> reader A) (ty : Z) (tl : bytes) : vlint ty ->
  (x ← expect_frame_header ty; k x) (venc ty ++ tl) = k tt tl.
Proof.
  intros H. unfold expect_frame_header, ossl_quic_wire_skip_frame_header, mbind, reader_bind.
  rewrite get_vlint_encode by done. unfold check. by rewrite Z.eqb_refl.
Qed.

Lemma bind_hdr_mask (k : Z -> reader A) (ty want mask : Z) (tl : bytes) :
  vlint ty -> Z.ldiff ty mask = want ->
  (x ← expect_frame_header_mask want mask; k x) (venc ty ++ tl) = k ty tl.
Proof.
  intros H <-. unfold expect_frame_header_mask, ossl_quic_wire_skip_frame_header, mbind, reader_bind.
  rewrite get_vlint_encode by done. unfold check. by rewrite Z.eqb_refl.
Qed.
End ReadBack.

Lemma expect_hdr_encode (ty : Z) (tl : bytes) : vlint ty ->
  expect_frame_header ty (venc ty ++ tl) = Some (tt, tl).
Proof.
  intros H. unfold expect_frame_header, ossl_quic_wire_skip_frame_header, mbind, reader_bind.
  rewrite get_vlint_encode by done. unfold check. by rewrite Z.eqb_refl.
Qed.

(** Small constants, such as frame types, are encodable. *)
Ltac vlint_const := unfold vlint, OSSL_QUIC_VLINT_MAX; lia.

(** *** Frames without a list of ranges *)

Inductive qframe :=
| F_PING
| F_RESET_STREAM (f : OSSL_QUIC_FRAME_RESET_STREAM)
| F_STOP_SENDING (f : OSSL_QUIC_FRAME_STOP_SENDING)
| F_CRYPTO (f : OSSL_QUIC_FRAME_CRYPTO)
| F_NEW_TOKEN (token : bytes) (token_len : Z)
| F_STREAM (f : OSSL_QUIC_FRAME_STREAM)
| F_MAX_DATA (max_data : Z)
| F_MAX_STREAM_DATA (stream_id max_data : Z)
| F_MAX_STREAMS (is_uni : bool) (max_streams : Z)
| F_DATA_BLOCKED (max_data : Z)
| F_STREAM_DATA_BLOCKED (stream_id max_stream_data : Z)
| F_STREAMS_BLOCKED (is_uni : bool) (max_streams : Z)
| F_NEW_CONN_ID (f : OSSL_QUIC_FRAME_NEW_CONN_ID)
| F_RETIRE_CONN_ID (seq_num : Z)
| F_PATH_CHALLENGE (data : Z)
| F_PATH_RESPONSE (data : Z)
| F_CONN_CLOSE (f : OSSL_QUIC_FRAME_CONN_CLOSE)
| F_HANDSHAKE_DONE
| F_PADDING (num_bytes : Z).

Definition encode_qframe (f : qframe) : writer :=
  match f with
  | F_PING => ossl_quic_wire_encode_frame_ping
  | F_RESET_STREAM f => ossl_quic_wire_encode_frame_reset_stream f
  | F_STOP_SENDING f => ossl_quic_wire_encode_frame_stop_sending f
  | F_CRYPTO f => ossl_quic_wire_encode_frame_crypto f
  | F_NEW_TOKEN t n => ossl_quic_wire_encode_frame_new_token t n
  | F_STREAM f => ossl_quic_wire_encode_frame_stream f
  | F_MAX_DATA v => ossl_quic_wire_encode_frame_max_data v
  | F_MAX_STREAM_DATA i v => ossl_quic_wire_encode_frame_max_stream_data i v
  | F_MAX_STREAMS u v => ossl_quic_wire_encode_frame_max_streams u v
  | F_DATA_BLOCKED v => ossl_quic_wire_encode_frame_data_blocked v
  | F_STREAM_DATA_BLOCKED i v => ossl_quic_wire_encode_frame_stream_data_blocked i v
  | F_STREAMS_BLOCKED u v => ossl_quic_wire_encode_frame_streams_blocked u v
  | F_NEW_CONN_ID f => ossl_quic_wire_encode_frame_new_conn_id f
  | F_RETIRE_CONN_ID v => ossl_quic_wire_encode_frame_retire_conn_id v
  | F_PATH_CHALLENGE v => ossl_quic_wire_encode_frame_path_challenge v
  | F_PATH_RESPONSE v => ossl_quic_wire_encode_frame_path_response v
  | F_CONN_CLOSE f => ossl_quic_wire_encode_frame_conn_close f
  | F_HANDSHAKE_DONE => ossl_quic_wire_encode_frame_handshake_done
  | F_PADDING n => ossl_quic_wire_encode_padding n
  end.

(** The decoder the receiver calls on a frame of type [ty]. *)
Definition decode_by_type (ty : Z) : reader qframe :=
  if ty =? OSSL_QUIC_FRAME_TYPE_PING then _ ← ossl_quic_wire_decode_frame_ping; mret F_PING
  else if ty =? OSSL_QUIC_FRAME_TYPE_RESET_STREAM then
    f ← ossl_quic_wire_decode_frame_reset_stream; mret (F_RESET_STREAM f)
  else if ty =? OSSL_QUIC_FRAME_TYPE_STOP_SENDING then
    f ← ossl_quic_wire_decode_frame_stop_sending; mret (F_STOP_SENDING f)
  else if ty =? OSSL_QUIC_FRAME_TYPE_CRYPTO then
    f ← ossl_quic_wire_decode_frame_crypto false; mret (F_CRYPTO f)
  else if ty =? OSSL_QUIC_FRAME_TYPE_NEW_TOKEN then
    '(t, n) ← ossl_quic_wire_decode_frame_new_token; mret (F_NEW_TOKEN t n)
  else if Z.ldiff ty OSSL_QUIC_FRAME_FLAG_STREAM_MASK =? OSSL_QUIC_FRAME_TYPE_STREAM then
    f ← ossl_quic_wire_decode_frame_stream false; mret (F_STREAM f)
  else if ty =? OSSL_QUIC_FRAME_TYPE_MAX_DATA then
    v ← ossl_quic_wire_decode_frame_max_data; mret (F_MAX_DATA v)
  else if ty =? OSSL_QUIC_FRAME_TYPE_MAX_STREAM_DATA then
    '(i, v) ← ossl_quic_wire_decode_frame_max_stream_data; mret (F_MAX_STREAM_DATA i v)
  else if Z.ldiff ty 1 =? OSSL_QUIC_FRAME_TYPE_MAX_STREAMS_BIDI then
    v ← ossl_quic_wire_decode_frame_max_streams;
    mret (F_MAX_STREAMS (ty =? OSSL_QUIC_FRAME_TYPE_MAX_STREAMS_UNI) v)
  else if ty =? OSSL_QUIC_FRAME_TYPE_DATA_BLOCKED then
    v ← ossl_quic_wire_decode_frame_data_blocked; mret (F_DATA_BLOCKED v)
  else if ty =? OSSL_QUIC_FRAME_TYPE_STREAM_DATA_BLOCKED then
    '(i, v) ← ossl_quic_wire_decode_frame_stream_data_blocked; mret (F_STREAM_DATA_BLOCKED i v)
  else if Z.ldiff ty 1 =? OSSL_QUIC_FRAME_TYPE_STREAMS_BLOCKED_BIDI then
    v ← ossl_quic_wire_decode_frame_streams_blocked;
    mret (F_STREAMS_BLOCKED (ty =? OSSL_QUIC_FRAME_TYPE_STREAMS_BLOCKED_UNI) v)
  else if ty =? OSSL_QUIC_FRAME_TYPE_NEW_CONN_ID then
    f ← ossl_quic_wire_decode_frame_new_conn_id; mret (F_NEW_CONN_ID f)
  else if ty =? OSSL_QUIC_FRAME_TYPE_RETIRE_CONN_ID then
    v ← ossl_quic_wire_decode_frame_retire_conn_id; mret (F_RETIRE_CONN_ID v)
  else if ty =? OSSL_QUIC_FRAME_TYPE_PATH_CHALLENGE then
    v ← ossl_quic_wire_decode_frame_path_challenge; mret (F_PATH_CHALLENGE v)
  else if ty =? OSSL_QUIC_FRAME_TYPE_PATH_RESPONSE then
    v ← ossl_quic_wire_decode_frame_path_response; mret (F_PATH_RESPONSE v)
  else if Z.ldiff ty 1 =? OSSL_QUIC_FRAME_TYPE_CONN_CLOSE_TRANSPORT then
    f ← ossl_quic_wire_decode_frame_conn_close; mret (F_CONN_CLOSE f)
  else if ty =? OSSL_QUIC_FRAME_TYPE_HANDSHAKE_DONE then
    _ ← ossl_quic_wire_decode_frame_handshake_done; mret F_HANDSHAKE_DONE
  else if ty =? OSSL_QUIC_FRAME_TYPE_PADDING then
    n ← ossl_quic_wire_decode_padding; mret (F_PADDING n)
  else rfail.

Definition decode_qframe : reader qframe := fun pkt =>
  match ossl_quic_wire_peek_frame_header pkt with
  | Some (ty, true) => decode_by_type ty pkt
  | _ => None
  end.

Definition frame_type_of (f : qframe) : Z :=
  match f with
  | F_PING => 0x01 | F_RESET_STREAM _ => 0x04 | F_STOP_SENDING _ => 0x05 | F_CRYPTO _ => 0x06
  | F_NEW_TOKEN _ _ => 0x07
  | F_STREAM f => 8 + (if fs_offset f =? 0 then 0 else 4) + (if fs_has_explicit_len f then 2 else 0)
                  + (if fs_is_fin f then 1 else 0)
  | F_MAX_DATA _ => 0x10 | F_MAX_STREAM_DATA _ _ => 0x11
  | F_MAX_STREAMS u _ => if u then 0x13 else 0x12
  | F_DATA_BLOCKED _ => 0x14 | F_STREAM_DATA_BLOCKED _ _ => 0x15
  | F_STREAMS_BLOCKED u _ => if u then 0x17 else 0x16
  | F_NEW_CONN_ID _ => 0x18 | F_RETIRE_CONN_ID _ => 0x19
  | F_PATH_CHALLENGE _ => 0x1A | F_PATH_RESPONSE _ => 0x1B
  | F_CONN_CLOSE f => if cc_is_app f then 0x1D else 0x1C
  | F_HANDSHAKE_DONE => 0x1E
  | F_PADDING _ => 0x00
  end.

Definition opt_bytes (d : option bytes) : bytes := match d with Some d => d | None => [] end.

(** The frame formats of RFC 9000, section 19: the fields after the type. *)
Definition frame_body (f : qframe) : bytes :=
  match f with
  | F_PING | F_HANDSHAKE_DONE => []
  | F_RESET_STREAM f => venc (rs_stream_id f) ++ venc (rs_app_error_code f) ++ venc (rs_final_size f)
  | F_STOP_SENDING f => venc (ss_stream_id f) ++ venc (ss_app_error_code f)
  | F_CRYPTO f => venc (fc_offset f) ++ venc (fc_len f) ++ opt_bytes (fc_data f)
  | F_NEW_TOKEN t n => venc n ++ t
  | F_STREAM f => venc (fs_stream_id f) ++ (if fs_offset f =? 0 then [] else venc (fs_offset f)) ++
                  (if fs_has_explicit_len f then venc (fs_len f) else []) ++ opt_bytes (fs_data f)
  | F_MAX_DATA v | F_MAX_STREAMS _ v | F_DATA_BLOCKED v | F_STREAMS_BLOCKED _ v | F_RETIRE_CONN_ID v => venc v
  | F_MAX_STREAM_DATA i v | F_STREAM_DATA_BLOCKED i v => venc i ++ venc v
  | F_NEW_CONN_ID f => venc (nc_seq_num f) ++ venc (nc_retire_prior_to f) ++
                       [cid_id_len (nc_conn_id f)] ++
                       take (Z.to_nat (cid_id_len (nc_conn_id f))) (cid_id (nc_conn_id f)) ++
                       nc_stateless_reset f
  | F_PATH_CHALLENGE v | F_PATH_RESPONSE v => be_bytes 8 v
  | F_CONN_CLOSE f => venc (cc_error_code f) ++ (if cc_is_app f then [] else venc (cc_frame_type f)) ++
                      venc (cc_reason_len f) ++ cc_reason f
  | F_PADDING n => replicate (Z.to_nat (n - 1)) 0
  end.

Definition frame_bytes (f : qframe) : bytes := venc (frame_type_of f) ++ frame_body f.

(** Runs a decoder over a concatenation of encoded fields. *)
Ltac read_side := first [ assumption | reflexivity | vlint_const | (repeat case_match; vlint_const)
  | (unfold zlen; lia) ].
Ltac read_step :=
  first
    [ rewrite bind_hdr by read_side | rewrite bind_vlint by read_side | rewrite bind_hdr_mask by read_side
    | rewrite bind_ret | rewrite bind_get_1 | rewrite bind_remaining
    | rewrite bind_check by (unfold vlint, SIZE_MAX, UINT64_MAX, OSSL_QUIC_VLINT_MAX in *; bdestruct_all; auto; lia)
    | rewrite bind_bytes by read_side ].
Ltac read_all := cbn [frame_type_of opt_bytes]; rewrite <- ?app_assoc; repeat (read_step; cbv beta iota zeta);
  try first [ apply expect_hdr_encode; vlint_const | apply get_vlint_encode; assumption ].

(** A stored connection identifier: its unused bytes are zero. *)
Definition wf_conn_id (c : QUIC_CONN_ID) : Prop :=
  0 <= cid_id_len c <= QUIC_MAX_CONN_ID_LEN /\ zlen (cid_id c) = QUIC_MAX_CONN_ID_LEN /\
  cid_id c = take (Z.to_nat (cid_id_len c)) (cid_id c) ++
             replicate (Z.to_nat (QUIC_MAX_CONN_ID_LEN - cid_id_len c)) 0.

(** The frames the format can carry.  [tl] is what follows in the packet: a
    STREAM frame without a length field must come last, and padding takes all the
    zero bytes there are.  The data of a STREAM or CRYPTO frame may be empty. *)
Definition wf_frame (f : qframe) (tl : bytes) : Prop :=
  match f with
  | F_PING | F_HANDSHAKE_DONE => True
  | F_RESET_STREAM f => vlint (rs_stream_id f) /\ vlint (rs_app_error_code f) /\ vlint (rs_final_size f)
  | F_STOP_SENDING f => vlint (ss_stream_id f) /\ vlint (ss_app_error_code f)
  | F_CRYPTO f => 0 <= fc_offset f /\ 0 <= fc_len f /\ fc_offset f + fc_len f <= OSSL_QUIC_VLINT_MAX /\
                  exists d, fc_data f = Some d /\ fc_len f = zlen d
  | F_NEW_TOKEN t n => vlint n /\ n = zlen t
  | F_STREAM f => vlint (fs_stream_id f) /\ 0 <= fs_offset f /\ 0 <= fs_len f /\
                  fs_offset f + fs_len f <= OSSL_QUIC_VLINT_MAX /\
                  (exists d, fs_data f = Some d /\ fs_len f = zlen d) /\
                  (fs_has_explicit_len f = false -> tl = [])
  | F_MAX_DATA v | F_MAX_STREAMS _ v | F_DATA_BLOCKED v | F_STREAMS_BLOCKED _ v | F_RETIRE_CONN_ID v => vlint v
  | F_MAX_STREAM_DATA i v | F_STREAM_DATA_BLOCKED i v => vlint i /\ vlint v
  | F_NEW_CONN_ID f => vlint (nc_seq_num f) /\ 0 <= nc_retire_prior_to f <= nc_seq_num f /\
                       1 <= cid_id_len (nc_conn_id f) /\ wf_conn_id (nc_conn_id f) /\
                       zlen (nc_stateless_reset f) = QUIC_STATELESS_RESET_TOKEN_LEN
  | F_PATH_CHALLENGE v | F_PATH_RESPONSE v => u64 v
  | F_CONN_CLOSE f => vlint (cc_error_code f) /\ vlint (cc_frame_type f) /\ vlint (cc_reason_len f) /\
                      cc_reason_len f = zlen (cc_reason f) /\ (cc_is_app f = true -> cc_frame_type f = 0)
  | F_PADDING n => 0 < n /\ head tl <> Some 0
  end.

(** A STREAM or CRYPTO frame without data. *)
Definition empty_data (f : qframe) : bool :=
  match f with F_CRYPTO f => fc_len f =? 0 | F_STREAM f => fs_len f =? 0 | _ => false end.

(** The encoders of the fields before the data, which is how the packetiser writes these two frames. *)
Definition encode_qframe_hdr (f : qframe) : writer :=
  match f with
  | F_CRYPTO f => ossl_quic_wire_encode_frame_crypto_hdr f
  | F_STREAM f => ossl_quic_wire_encode_frame_stream_hdr f
  | f => encode_qframe f
  end.

Lemma frame_type_vlint (f : qframe) : vlint (frame_type_of f).
Proof. destruct f; cbn; repeat case_match; vlint_const. Qed.

Lemma take_all {A} (l : list A) (n : Z) : n = zlen l -> take (Z.to_nat n) l = l.
Proof. intros ->. unfold zlen. by rewrite Nat2Z.id, firstn_all. Qed.

Lemma emits_hdr (ty : Z) : vlint ty -> emits (encode_frame_hdr ty) (venc ty).
Proof. apply emits_vlint. Qed.

Lemma stream_hdr_emits (f : OSSL_QUIC_FRAME_STREAM) : vlint (fs_stream_id f) -> vlint (fs_offset f) ->
  (fs_has_explicit_len f = true -> vlint (fs_len f)) ->
  emits (ossl_quic_wire_encode_frame_stream_hdr f)
    (venc (frame_type_of (F_STREAM f)) ++ venc (fs_stream_id f) ++
     (if fs_offset f =? 0 then [] else venc (fs_offset f)) ++
     (if fs_has_explicit_len f then venc (fs_len f) else [])).
Proof.
  intros Hi Ho Hl. unfold ossl_quic_wire_encode_frame_stream_hdr. apply emits_seq.
  - pose proof (frame_type_vlint (F_STREAM f)) as Hty. cbn in *.
    destruct (fs_offset f =? 0), (fs_has_explicit_len f), (fs_is_fin f); by apply emits_hdr.
  - apply emits_seq; [by apply emits_vlint|]. apply emits_seq; [|eauto with packet].
    destruct (fs_offset f =? 0); cbn; auto with packet.
Qed.

Lemma max_vlint_u64 : 2 * OSSL_QUIC_VLINT_MAX + 2 < U64_MOD.
Proof. done. Qed.

Lemma path_frame_emits (ty v : Z) : vlint ty -> u64 v ->
  emits (encode_frame_hdr ty ;;; WPACKET_put_bytes v 8) (venc ty ++ be_bytes 8 v).
Proof.
  intros Hty Hv. apply emits_seq; [by apply emits_hdr|]. apply (emits_put_bytes v 8); [lia|].
  unfold u64, U64_MOD in Hv. cbn. lia.
Qed.

Lemma new_conn_id_emits (f : OSSL_QUIC_FRAME_NEW_CONN_ID) (tl : bytes) : wf_frame (F_NEW_CONN_ID f) tl ->
  emits (ossl_quic_wire_encode_frame_new_conn_id f) (frame_bytes (F_NEW_CONN_ID f)).
Proof.
  intros (Hs & Hr & H1 & (Hc & _) & Ht). unfold ossl_quic_wire_encode_frame_new_conn_id, frame_bytes, frame_body.
  rewrite (proj2 (Z.ltb_ge _ 1)), (proj2 (Z.ltb_ge QUIC_MAX_CONN_ID_LEN _)) by lia. cbn [orb].
  apply emits_seq; [apply emits_hdr, (frame_type_vlint (F_NEW_CONN_ID f))|].
  apply emits_seq; [by apply emits_vlint|]. apply emits_seq; [apply emits_vlint; unfold vlint in *; lia|].
  apply emits_seq; [|apply emits_seq; apply emits_memcpy].
  replace [cid_id_len (nc_conn_id f)] with (be_bytes (Z.to_nat 1) (cid_id_len (nc_conn_id f))).
  - apply emits_put_bytes; [lia|]. unfold QUIC_MAX_CONN_ID_LEN in *. cbn. lia.
  - change (be_bytes (Z.to_nat 1) (cid_id_len (nc_conn_id f))) with [Z.land (cid_id_len (nc_conn_id f)) (Z.ones 8)].
    rewrite land_ones_small; [done|lia|]. unfold QUIC_MAX_CONN_ID_LEN in *. cbn. lia.
Qed.

Lemma crypto_hdr_emits (f : OSSL_QUIC_FRAME_CRYPTO) : vlint (fc_offset f) -> vlint (fc_len f) ->
  emits (ossl_quic_wire_encode_frame_crypto_hdr f) (venc 6 ++ venc (fc_offset f) ++ venc (fc_len f)).
Proof. intros Ho Hl. repeat apply emits_seq; [by apply emits_hdr|by apply emits_vlint..]. Qed.

(** Padding is a run of zero bytes, the first of which is its type. *)
Lemma padding_bytes (n : Z) : 0 < n -> frame_bytes (F_PADDING n) = replicate (Z.to_nat n) 0.
Proof.
  intros Hn. unfold frame_bytes. cbn [frame_type_of frame_body]. change (venc 0) with [0].
  replace (Z.to_nat n) with (S (Z.to_nat (n - 1))) by lia. done.
Qed.

(** Each encoder writes the frame format, when there is room for it. *)
Lemma encode_qframe_emits (f : qframe) (tl : bytes) : wf_frame f tl -> empty_data f = false ->
  emits (encode_qframe f) (frame_bytes f).
Proof.
  intros Hwf Hne. destruct (match f with F_PADDING _ => true | _ => false end) eqn:Hp.
  { destruct f; try done. destruct Hwf as [Hn _]. rewrite padding_bytes by done. cbn [encode_qframe].
    unfold ossl_quic_wire_encode_padding. apply emits_memset. lia. }
  unfold frame_bytes. destruct f; cbn [encode_qframe];
    try (by apply path_frame_emits; [apply frame_type_vlint|exact Hwf]);
    try (cbn [wf_frame frame_body] in *; destruct_and?;
         try match goal with u : bool |- _ => destruct u end;
         first [ rewrite app_nil_r; by apply emits_hdr | idtac ];
         repeat first [ apply emits_seq | apply emits_hdr; by (repeat case_match) | by apply emits_vlint ]; done).
  - destruct Hwf as (Ho & Hl & Hm & d & Hd & Hlen). cbn [frame_body].
    unfold ossl_quic_wire_encode_frame_crypto, ossl_quic_wire_encode_frame_crypto_hdr.
    replace (venc (frame_type_of (F_CRYPTO f)) ++ venc (fc_offset f) ++ venc (fc_len f) ++ opt_bytes (fc_data f))
      with ((venc 6 ++ venc (fc_offset f) ++ venc (fc_len f)) ++ opt_bytes (fc_data f)) by (by rewrite <- !app_assoc).
    apply Z.eqb_neq in Hne. apply emits_seq.
    + apply crypto_hdr_emits; unfold vlint; lia.
    + pose proof max_vlint_u64. rewrite (proj2 (Z.ltb_ge SIZE_MAX (fc_len f))) by u64_side.
      rewrite Hd. apply emits_data; [done|lia].
  - destruct Hwf as [Hn ->]. unfold ossl_quic_wire_encode_frame_new_token. rewrite take_all by done.
    apply emits_seq; [by apply emits_hdr|]. apply emits_seq; [by apply emits_vlint|apply emits_memcpy].
  - destruct Hwf as (Hi & Ho & Hl & Hm & (d & Hd & Hlen) & _). cbn [frame_body].
    apply Z.eqb_neq in Hne. rewrite !app_assoc. apply emits_seq.
    + rewrite <- !app_assoc. apply stream_hdr_emits; unfold vlint in *; try done; lia.
    + pose proof max_vlint_u64. rewrite (proj2 (Z.ltb_ge SIZE_MAX (fs_len f))) by u64_side.
      rewrite Hd. apply emits_data; [done|lia].
  - by apply new_conn_id_emits with tl.
  - destruct Hwf as (He & Hf & Hl & Hr & _). unfold ossl_quic_wire_encode_frame_conn_close.
    rewrite take_all by done. cbn [frame_body].
    repeat first [ apply emits_seq | by apply emits_vlint | apply emits_memcpy ].
    + apply (emits_hdr (frame_type_of (F_CONN_CLOSE f))), frame_type_vlint.
    + destruct (cc_is_app f); cbn; [apply emits_ok|by apply emits_vlint].
Qed.

(** A writer followed by the reservation of no bytes fails. *)
Lemma wput_data_0 (a : writer) (d : option bytes) (n : Z) (w : WPACKET) : n = 0 ->
  ((a ;;; if SIZE_MAX <? n then wfail else wput_data d n) w).2 = false.
Proof. intros ->. unfold wseq. by destruct (a w) as [w' []]. Qed.

(** Without data the whole encoders refuse; the header encoders write the frame. *)
Lemma encode_empty (f : qframe) (tl : bytes) (w : WPACKET) : wf_frame f tl -> empty_data f = true ->
  (encode_qframe f w).2 = false /\ emits (encode_qframe_hdr f) (frame_bytes f).
Proof.
  intros Hwf He. destruct f; try done; cbn in He; apply Z.eqb_eq in He; (split; [by apply wput_data_0|]);
    unfold frame_bytes; cbn [encode_qframe_hdr frame_body].
  - destruct Hwf as (Ho & Hl & Hm & d & -> & Hd). assert (d = []) as -> by (apply length_zero_iff_nil; unfold zlen in Hd; lia).
    rewrite app_nil_r. apply crypto_hdr_emits; unfold vlint; lia.
  - destruct Hwf as (Hi & Ho & Hl & Hm & (d & -> & Hd) & _). assert (d = []) as -> by (apply length_zero_iff_nil; unfold zlen in Hd; lia).
    rewrite app_nil_r. apply stream_hdr_emits; unfold vlint in *; lia.
Qed.

Lemma peek_frame_type (f : qframe) (tl : bytes) :
  ossl_quic_wire_peek_frame_header (frame_bytes f ++ tl) = Some (frame_type_of f, true).
Proof.
  pose proof (frame_type_vlint f) as Hty. destruct (encode_len_cases _ Hty) as [Hl Hr].
  unfold frame_bytes. rewrite <- app_assoc.
  destruct (peek_encode_n _ _ (frame_body f ++ tl) Hl Hr) as [Hp _].
  rewrite Z.eqb_refl in Hp. exact Hp.
Qed.

Lemma crypto_decode (f : OSSL_QUIC_FRAME_CRYPTO) (tl : bytes) : wf_frame (F_CRYPTO f) tl ->
  ossl_quic_wire_decode_frame_crypto false (frame_bytes (F_CRYPTO f) ++ tl) = Some (f, tl).
Proof.
  destruct f as [off len data]. intros (Ho & Hl & Hm & d & Hd & Hlen). cbn in Ho, Hl, Hm, Hd, Hlen. subst data.
  assert (vlint off) by (unfold vlint; lia). assert (vlint len) by (unfold vlint; lia).
  pose proof max_vlint_u64. unfold ossl_quic_wire_decode_frame_crypto, frame_bytes, frame_body, opt_bytes. cbn [fc_offset fc_len fc_data].
  read_all. rewrite add64_small by u64_side.
  change QUIC_MAX_STREAM_OFFSET with OSSL_QUIC_VLINT_MAX. read_step. cbv beta iota.
  read_step. rewrite zlen_app. pose proof (zlen_nonneg tl). read_all. done.
Qed.

Lemma stream_decode (f : OSSL_QUIC_FRAME_STREAM) (tl : bytes) : wf_frame (F_STREAM f) tl ->
  ossl_quic_wire_decode_frame_stream false (frame_bytes (F_STREAM f) ++ tl) = Some (f, tl).
Proof.
  destruct f as [sid off len data ex fin]. intros (Hi & Ho & Hl & Hm & (d & Hd & Hlen) & Htl).
  cbn in Hi, Ho, Hl, Hm, Hd, Hlen, Htl. subst data.
  assert (vlint off) by (unfold vlint; lia). assert (vlint len) by (unfold vlint; lia).
  pose proof max_vlint_u64.
  unfold ossl_quic_wire_decode_frame_stream, frame_bytes, frame_body, opt_bytes, frame_type_of.
  cbn [opt_bytes fs_stream_id fs_offset fs_len fs_data fs_has_explicit_len fs_is_fin].
  rewrite <- !app_assoc.
  set (ty := 8 + (if off =? 0 then 0 else 4) + (if ex then 2 else 0) + (if fin then 1 else 0)).
  assert (vlint ty /\ Z.ldiff ty OSSL_QUIC_FRAME_FLAG_STREAM_MASK = OSSL_QUIC_FRAME_TYPE_STREAM /\
          (Z.land ty OSSL_QUIC_FRAME_FLAG_STREAM_OFF =? 0) = (off =? 0) /\
          negb (Z.land ty OSSL_QUIC_FRAME_FLAG_STREAM_LEN =? 0) = ex /\
          negb (Z.land ty OSSL_QUIC_FRAME_FLAG_STREAM_FIN =? 0) = fin) as (Hty & Hmask & Hoff & Hex & Hfin).
  { subst ty. destruct (off =? 0), ex, fin; split_and!; first [ vlint_const | reflexivity ]. }
  rewrite bind_hdr_mask by done. rewrite bind_vlint by done. rewrite Hoff, Hex, Hfin.
  assert (Hrd : forall (k : Z -> reader OSSL_QUIC_FRAME_STREAM) tl',
            (x ← (if negb (off =? 0) then PACKET_get_quic_vlint else mret 0); k x)
              ((if off =? 0 then [] else venc off) ++ tl') = k off tl').
  { intros k tl'. destruct (Z.eqb_spec off 0) as [->|]; [done|]. by apply bind_vlint. }
  rewrite Hrd. clearbody ty. destruct ex; [|rewrite (Htl eq_refl)]; cbn [app].
  - rewrite bind_vlint by done. rewrite add64_small by u64_side.
    change QUIC_MAX_STREAM_OFFSET with OSSL_QUIC_VLINT_MAX. read_all. done.
  - read_step. rewrite app_nil_r, <- Hlen, add64_small by u64_side.
    change QUIC_MAX_STREAM_OFFSET with OSSL_QUIC_VLINT_MAX. rewrite <- (app_nil_r d) at 1. read_all. done.
Qed.

Lemma new_conn_id_decode (f : OSSL_QUIC_FRAME_NEW_CONN_ID) (tl : bytes) : wf_frame (F_NEW_CONN_ID f) tl ->
  ossl_quic_wire_decode_frame_new_conn_id (frame_bytes (F_NEW_CONN_ID f) ++ tl) = Some (f, tl).
Proof.
  destruct f as [seq ret [n id] tok]. intros (Hs & Hr & H1 & (Hc & Hid & Hz) & Ht).
  cbn in Hs, Hr, H1, Hc, Hid, Hz, Ht.
  assert (vlint ret) by (unfold vlint in *; lia).
  assert (Hn : n = zlen (take (Z.to_nat n) id)).
  { unfold zlen, QUIC_MAX_CONN_ID_LEN in *. rewrite length_take. lia. }
  unfold ossl_quic_wire_decode_frame_new_conn_id, frame_bytes, frame_body.
  cbn [nc_seq_num nc_retire_prior_to nc_conn_id nc_stateless_reset cid_id_len cid_id].
  read_all. cbn [app].
  read_step. cbv beta. read_step. cbv beta. rewrite bind_bytes by done. rewrite bind_bytes by done.
  unfold mret, reader_ret. do 4 f_equal.
  rewrite Hz at 3. destruct (Z.ltb_spec n QUIC_MAX_CONN_ID_LEN); [done|].
  replace (QUIC_MAX_CONN_ID_LEN - n) with 0 by lia. cbn. by rewrite app_nil_r.
Qed.

Lemma conn_close_decode (f : OSSL_QUIC_FRAME_CONN_CLOSE) (tl : bytes) : wf_frame (F_CONN_CLOSE f) tl ->
  ossl_quic_wire_decode_frame_conn_close (frame_bytes (F_CONN_CLOSE f) ++ tl) = Some (f, tl).
Proof.
  destruct f as [app_ err ft rsn n]. intros (He & Hf & Hl & Hr & Ha). cbn in He, Hf, Hl, Hr, Ha.
  unfold ossl_quic_wire_decode_frame_conn_close, frame_bytes, frame_body.
  cbn [cc_is_app cc_error_code cc_frame_type cc_reason cc_reason_len frame_type_of].
  destruct app_; [rewrite (Ha eq_refl)|]; rewrite <- ?app_assoc; do 2 (read_step; cbv beta iota zeta).
  - change (Z.land 29 1 =? 0) with false. cbn [negb app]. read_all. done.
  - change (Z.land 28 1 =? 0) with true. cbn [negb]. read_all. done.
Qed.

Lemma count_zeros_replicate (n : nat) (tl : bytes) : head tl <> Some 0 -> count_zeros (replicate n 0 ++ tl) = Z.of_nat n.
Proof.
  intros Htl. induction n as [|n IH]; cbn; [|rewrite IH; lia].
  destruct tl as [|b tl]; [done|]. cbn in *. by destruct (Z.eqb_spec b 0) as [->|].
Qed.

Lemma padding_decode (n : Z) (tl : bytes) : wf_frame (F_PADDING n) tl ->
  ossl_quic_wire_decode_padding (frame_bytes (F_PADDING n) ++ tl) = Some (n, tl).
Proof.
  intros [Hn Htl]. rewrite padding_bytes by done. unfold ossl_quic_wire_decode_padding. rewrite count_zeros_replicate by done.
  rewrite Z2Nat.id by lia. unfold PACKET_forward. rewrite zlen_app. pose proof (zlen_nonneg tl).
  unfold zlen at 1. rewrite length_replicate. rewrite (proj2 (Z.ltb_ge _ n)) by lia. cbn.
  unfold packet_forward. by rewrite drop_app_length' by (rewrite length_replicate; lia).
Qed.

Lemma path_decode {A} (k : Z -> reader A) (v : Z) (tl : bytes) : u64 v ->
  (x ← PACKET_get_net_8; k x) (be_bytes 8 v ++ tl) = k v tl.
Proof. intros H. unfold mbind, reader_bind. by rewrite get_net_8_be. Qed.

(** A decoder followed by the constructor. *)
Lemma decode_then {A B} (m : reader A) (c : A -> B) (pkt : PACKET) (a : A) (tl : PACKET) :
  m pkt = Some (a, tl) -> (x ← m; mret (c x)) pkt = Some (c a, tl).
Proof. intros H. unfold mbind, reader_bind. by rewrite H. Qed.

Lemma decode_then2 {A B C} (m : reader (A * B)) (c : A -> B -> C) (pkt : PACKET) (a : A) (b : B) (tl : PACKET) :
  m pkt = Some (a, b, tl) -> ('(x, y) ← m; mret (c x y)) pkt = Some (c a b, tl).
Proof. intros H. unfold mbind, reader_bind. by rewrite H. Qed.

Ltac decode_case m c :=
  cbn [wf_frame rs_stream_id rs_app_error_code rs_final_size ss_stream_id ss_app_error_code] in *; destruct_and?;
  first [ apply (decode_then m c) | apply (decode_then2 m c) | apply (decode_then m (fun _ => c) _ tt) ];
  unfold m, frame_bytes, frame_body; read_all; try done.

Lemma frame_decode (f : qframe) (tl : bytes) : wf_frame f tl ->
  decode_qframe (frame_bytes f ++ tl) = Some (f, tl).
Proof.
  intros Hwf. unfold decode_qframe. rewrite peek_frame_type.
  destruct f as [| [] | [] | f | | f | | | [] | | | [] | f | | | | f | | n ].
  - decode_case ossl_quic_wire_decode_frame_ping F_PING.
  - decode_case ossl_quic_wire_decode_frame_reset_stream F_RESET_STREAM.
  - decode_case ossl_quic_wire_decode_frame_stop_sending F_STOP_SENDING.
  - by apply (decode_then (ossl_quic_wire_decode_frame_crypto false) F_CRYPTO), crypto_decode.
  - decode_case ossl_quic_wire_decode_frame_new_token F_NEW_TOKEN.
  - replace (decode_by_type (frame_type_of (F_STREAM f)))
      with (x ← ossl_quic_wire_decode_frame_stream false; mret (F_STREAM x) : reader qframe).
    + by apply decode_then, stream_decode.
    + cbn. by destruct (fs_offset f =? 0), (fs_has_explicit_len f), (fs_is_fin f).
  - decode_case ossl_quic_wire_decode_frame_max_data F_MAX_DATA.
  - decode_case ossl_quic_wire_decode_frame_max_stream_data F_MAX_STREAM_DATA.
  - decode_case ossl_quic_wire_decode_frame_max_streams (F_MAX_STREAMS true).
  - decode_case ossl_quic_wire_decode_frame_max_streams (F_MAX_STREAMS false).
  - decode_case ossl_quic_wire_decode_frame_data_blocked F_DATA_BLOCKED.
  - decode_case ossl_quic_wire_decode_frame_stream_data_blocked F_STREAM_DATA_BLOCKED.
  - decode_case ossl_quic_wire_decode_frame_streams_blocked (F_STREAMS_BLOCKED true).
  - decode_case ossl_quic_wire_decode_frame_streams_blocked (F_STREAMS_BLOCKED false).
  - by apply (decode_then ossl_quic_wire_decode_frame_new_conn_id F_NEW_CONN_ID), new_conn_id_decode.
  - decode_case ossl_quic_wire_decode_frame_retire_conn_id F_RETIRE_CONN_ID.
  - decode_case ossl_quic_wire_decode_frame_path_challenge F_PATH_CHALLENGE. by apply get_net_8_be.
  - decode_case ossl_quic_wire_decode_frame_path_response F_PATH_RESPONSE. by apply get_net_8_be.
  - replace (decode_by_type (frame_type_of (F_CONN_CLOSE f)))
      with (x ← ossl_quic_wire_decode_frame_conn_close; mret (F_CONN_CLOSE x) : reader qframe).
    + by apply decode_then, conn_close_decode.
    + cbn. by destruct (cc_is_app f).
  - decode_case ossl_quic_wire_decode_frame_handshake_done F_HANDSHAKE_DONE.
  - by apply (decode_then ossl_quic_wire_decode_padding F_PADDING), padding_decode.
Qed.

(** C29.  Frame round trip: for every kind of frame but ACK, PADDING included, and
    every value the format can carry, the receiver's decoder reads back the frame
    from its RFC 9000 layout, consuming exactly those bytes, whatever follows in
    the packet.  The encoder called with a large enough buffer appends exactly that
    layout and fails when the buffer is too small, except that a STREAM or CRYPTO
    frame without data is always refused by the whole-frame encoder: for these the
    header encoder, with which the packetiser writes them, appends the layout. *)
Theorem frame_roundtrip (f : qframe) (tl : bytes) (w : WPACKET) :
  wf_frame f tl ->
  decode_qframe (frame_bytes f ++ tl) = Some (f, tl) /\
  let written (enc : writer) :=
    if zlen (frame_bytes f) <=? zlen (wp_rest w)
    then enc w = (mkWpkt (wp_done w ++ frame_bytes f) (drop (length (frame_bytes f)) (wp_rest w)), true)
    else (enc w).2 = false in
  if empty_data f then (encode_qframe f w).2 = false /\ written (encode_qframe_hdr f)
  else written (encode_qframe f).
Proof.
  intros Hwf. split; [by apply frame_decode|]. intros written. destruct (empty_data f) eqn:He.
  - destruct (encode_empty f tl w Hwf He) as [Hf Hh]. split; [done|apply Hh].
  - by apply (encode_qframe_emits f tl Hwf He).
Qed.

Lemma frame_roundtrip_witness :
  let f := F_STREAM (mkFrameStream 4 1000 3 (Some [7; 8; 9]) true true) in
  decode_qframe (frame_bytes f ++ [1]) = Some (f, [1]).
Proof.
  refine (proj1 (frame_roundtrip _ [1] (mkWpkt [] (replicate 20 0)) _)). cbn. unfold vlint, OSSL_QUIC_VLINT_MAX.
  split_and!; try lia; try done. by exists [7; 8; 9].
Defined.

(** *** ACK frames *)

(** Ranges in descending order, each below [prev] with at least one packet
    number missing in between. *)
Fixpoint ranges_below (bound : Z) (rs : list OSSL_QUIC_ACK_RANGE) : Prop :=
  match rs with
  | [] => True
  | r :: rs' => 0 <= ar_start r <= ar_end r /\ ar_end r + 2 <= bound /\ ranges_below (ar_start r) rs'
  end.

Definition wf_ack_ranges (rs : list OSSL_QUIC_ACK_RANGE) : Prop :=
  match rs with
  | [] => False
  | r :: rs' => 0 <= ar_start r <= ar_end r /\ ar_end r <= OSSL_QUIC_VLINT_MAX /\ ranges_below (ar_start r) rs'
  end.

Fixpoint ack_range_bytes (prev : Z) (rs : list OSSL_QUIC_ACK_RANGE) : bytes :=
  match rs with
  | [] => []
  | r :: rs' => venc (prev - ar_end r - 2) ++ venc (ar_end r - ar_start r) ++ ack_range_bytes (ar_start r) rs'
  end.

(** The delay in units of [2^e] microseconds, rounded down. *)
Definition ack_delay_units (e delay : Z) : Z := delay / 1000 / 2 ^ e.

Definition ack_bytes (e : Z) (ack : OSSL_QUIC_FRAME_ACK) : bytes :=
  match ack_ranges ack with
  | [] => []
  | r0 :: rs =>
      venc (if ack_ecn_present ack then 3 else 2) ++ venc (ar_end r0) ++
      venc (ack_delay_units e (ack_delay_time ack)) ++ venc (zlen rs) ++ venc (ar_end r0 - ar_start r0) ++
      ack_range_bytes (ar_start r0) rs ++
      (if ack_ecn_present ack then venc (ack_ect0 ack) ++ venc (ack_ect1 ack) ++ venc (ack_ecnce ack) else [])
  end.

Definition wf_ack (ack : OSSL_QUIC_FRAME_ACK) : Prop :=
  wf_ack_ranges (ack_ranges ack) /\ num_ack_ranges ack = zlen (ack_ranges ack) /\
  u64 (ack_delay_time ack) /\
  (ack_ecn_present ack = true -> vlint (ack_ect0 ack) /\ vlint (ack_ect1 ack) /\ vlint (ack_ecnce ack)).

Lemma delay_units_vlint (e d : Z) : 0 <= e -> u64 d -> vlint (ack_delay_units e d).
Proof.
  intros He Hd. unfold vlint, ack_delay_units, OSSL_QUIC_VLINT_MAX.
  assert (0 < 2 ^ e) by (apply Z.pow_pos_nonneg; lia).
  assert (0 <= d / 1000 <= 18446744073709551) by (u64_unfold; Z.to_euclidean_division_equations; lia).
  split; [apply Z.div_pos; lia|]. apply Z.div_le_upper_bound; nia.
Qed.

Lemma encode_delay_units (e d : Z) : 0 <= e < 64 ->
  ossl_time2ticks (ossl_time_divide (ossl_time_divide d OSSL_TIME_US) (Z.shiftl 1 e)) = ack_delay_units e d.
Proof.
  intros He. assert (0 < 2 ^ e) by (apply Z.pow_pos_nonneg; lia).
  unfold ossl_time2ticks, ack_delay_units, ossl_time_divide, safe_div.
  rewrite Z.shiftl_mul_pow2, Z.mul_1_l by lia. change OSSL_TIME_US with 1000. cbn [Z.eqb negb].
  rewrite (proj2 (Z.eqb_neq (2 ^ e) 0)) by lia. done.
Qed.

Lemma ranges_bound (b : Z) (rs : list OSSL_QUIC_ACK_RANGE) : ranges_below b rs -> 0 <= b -> 2 * zlen rs <= b.
Proof.
  revert b. induction rs as [|r rs IH]; intros b; cbn; [unfold zlen; cbn; lia|].
  intros (Hr & He & Hrs) Hb. specialize (IH _ Hrs ltac:(lia)). unfold zlen in *. cbn [length]. lia.
Qed.

Lemma ranges_emit (r0 : OSSL_QUIC_ACK_RANGE) (rs : list OSSL_QUIC_ACK_RANGE) :
  0 <= ar_start r0 <= OSSL_QUIC_VLINT_MAX -> ranges_below (ar_start r0) rs ->
  emits (encode_ack_ranges r0 rs) (ack_range_bytes (ar_start r0) rs).
Proof.
  pose proof max_vlint_u64.
  revert r0. induction rs as [|r rs IH]; intros r0 H0; cbn [encode_ack_ranges ack_range_bytes ranges_below];
    [intros; apply emits_ok|].
  intros (Hr & He & Hrs). rewrite (sub64_small (ar_start r0)), !sub64_small by u64_side.
  apply emits_seq; [apply emits_vlint; unfold vlint; lia|].
  apply emits_seq; [apply emits_vlint; unfold vlint; lia|]. apply IH; [lia|done].
Qed.

Lemma ack_emits (e : Z) (ack : OSSL_QUIC_FRAME_ACK) : 0 <= e < 64 -> wf_ack ack ->
  emits (ossl_quic_wire_encode_frame_ack e ack) (ack_bytes e ack).
Proof.
  intros He (Hr & Hn & Hd & Hecn). pose proof max_vlint_u64.
  unfold ossl_quic_wire_encode_frame_ack, ack_bytes. rewrite take_all by done.
  destruct (ack_ranges ack) as [|r0 rs]; [done|]. destruct Hr as (H0 & Hmax & Hrs).
  pose proof (ranges_bound _ _ Hrs ltac:(lia)) as Hb.
  rewrite encode_delay_units by lia. assert (num_ack_ranges ack -u 1 = zlen rs) as ->.
  { rewrite Hn. unfold zlen in *. cbn [length]. rewrite sub64_small; [lia|]. u64_side. }
  rewrite sub64_small by u64_side. pose proof (zlen_nonneg rs).
  repeat (apply emits_seq; [first [ apply emits_hdr; by case_match
                                  | apply ranges_emit; [lia|done]
                                  | apply emits_vlint; first [ by apply delay_units_vlint; [lia|] | unfold vlint; lia ] ]|]).
  apply emits_when. intros (? & ? & ?)%Hecn. repeat apply emits_seq; by apply emits_vlint.
Qed.

(** Reading the ranges into an array that has room for them. *)
Lemma ranges_decode (rs : list OSSL_QUIC_ACK_RANGE) : forall fuel i start pre suf a tl,
  0 <= start <= OSSL_QUIC_VLINT_MAX -> ranges_below start rs -> (length rs <= fuel)%nat ->
  0 <= i -> i + 1 = zlen pre -> (length rs <= length suf)%nat ->
  ack_ranges a = pre ++ suf -> num_ack_ranges a = zlen (ack_ranges a) ->
  decode_ack_ranges fuel i (i + zlen rs) start (Some a) (ack_range_bytes start rs ++ tl)
    = Some (Some (a <| ack_ranges := pre ++ rs ++ drop (length rs) suf |>), tl).
Proof.
  pose proof max_vlint_u64.
  induction rs as [|r rs IH]; intros fuel i start pre suf a tl Hs Hrs Hf Hi Hpre Hsuf Ha Hn.
  { replace (i + zlen []) with i by (unfold zlen; cbn; lia). destruct fuel; cbn [decode_ack_ranges];
      rewrite Z.ltb_irrefl; unfold mret, reader_ret; destruct a; cbn in *; by subst. }
  destruct fuel as [|fuel]; cbn in Hf; [lia|]. destruct Hrs as (Hr & He & Hrs). destruct suf as [|x suf]; cbn in Hsuf; [lia|].
  cbn [decode_ack_ranges ack_range_bytes].
  assert (zlen (r :: rs) = zlen rs + 1) as -> by (unfold zlen; cbn [length]; lia). pose proof (zlen_nonneg rs).
  rewrite (proj2 (Z.ltb_lt i (i + (zlen rs + 1)))) by lia.
  rewrite <- !app_assoc. do 2 rewrite bind_vlint by (unfold vlint; lia).
  rewrite (sub64_small start), (add64_small (start - ar_end r - 2)) by u64_side.
  replace (start - (start - ar_end r - 2)) with (ar_end r + 2) by lia.
  rewrite (sub64_small (ar_end r + 2)) by u64_side. replace (ar_end r + 2 - 2) with (ar_end r) by lia.
  rewrite sub64_small by u64_side.
  rewrite bind_check by (bdestruct_all; auto; lia).
  assert (num_ack_ranges a = i + 2 + Z.of_nat (length suf)) as Hnum.
  { rewrite Hn, Ha, zlen_app, <- Hpre. unfold zlen. cbn [length]. lia. }
  rewrite (proj2 (Z.ltb_lt (i + 1) (num_ack_ranges a))) by lia.
  replace (ar_end r - (ar_end r - ar_start r)) with (ar_start r) by lia.
  replace (i + (zlen rs + 1)) with (i + 1 + zlen rs) by lia.
  assert (Hset : <[Z.to_nat (i + 1) := mkAckRange (ar_start r) (ar_end r)]> (ack_ranges a) = (pre ++ [r]) ++ suf).
  { rewrite Ha, Hpre. unfold zlen. rewrite Nat2Z.id. rewrite <- app_assoc. cbn. destruct r; cbn.
    replace (length pre) with (length pre + 0)%nat by lia. by rewrite insert_app_r. }
  rewrite (IH fuel (i + 1) (ar_start r) (pre ++ [r]) suf); [| lia | done | lia | lia | | lia | | ].
  - do 3 f_equal. unfold set_ack_range. cbn. by rewrite <- app_assoc.
  - rewrite zlen_app, <- Hpre. done.
  - unfold set_ack_range. cbn. exact Hset.
  - unfold set_ack_range. cbn. rewrite Hset, Hnum. unfold zlen. rewrite !length_app. cbn.
    unfold zlen in Hpre. lia.
Qed.

Lemma venc_nonempty (v : Z) : vlint v -> (1 <= length (venc v))%nat.
Proof.
  intros H. pose proof (encode_length v H) as Hl. pose proof (encode_len_pos v H). unfold zlen in Hl. lia.
Qed.

Lemma range_bytes_length (start : Z) (rs : list OSSL_QUIC_ACK_RANGE) :
  start <= OSSL_QUIC_VLINT_MAX -> ranges_below start rs ->
  (length rs <= length (ack_range_bytes start rs))%nat.
Proof.
  revert start. induction rs as [|r rs IH]; intros start Hs; cbn; [lia|]. intros (Hr & He & Hrs).
  rewrite !length_app. specialize (IH (ar_start r) ltac:(lia) Hrs).
  pose proof (venc_nonempty (ar_end r - ar_start r) ltac:(unfold vlint; lia)). lia.
Qed.

(** Skipping the ranges while counting them. *)
Lemma ranges_skip (rs : list OSSL_QUIC_ACK_RANGE) : forall fuel i start x tl,
  start <= OSSL_QUIC_VLINT_MAX -> ranges_below start rs -> (length rs <= fuel)%nat -> vlint x ->
  exists rest, skip_ack_ranges fuel i (i + zlen rs) (venc x ++ ack_range_bytes start rs ++ tl) = Some (tt, rest).
Proof.
  induction rs as [|r rs IH]; intros fuel i start x tl Hs Hrs Hf Hx.
  { replace (i + zlen []) with i by (unfold zlen; cbn; lia). destruct fuel; cbn [skip_ack_ranges];
      rewrite Z.ltb_irrefl; by eexists. }
  destruct fuel as [|fuel]; cbn in Hf; [lia|]. destruct Hrs as (Hr & He & Hrs).
  cbn [skip_ack_ranges ack_range_bytes]. pose proof (zlen_nonneg rs).
  assert (zlen (r :: rs) = zlen rs + 1) as -> by (unfold zlen; cbn [length]; lia).
  rewrite (proj2 (Z.ltb_lt i (i + (zlen rs + 1)))) by lia. rewrite <- !app_assoc.
  do 2 rewrite bind_skip by (unfold vlint in *; lia).
  replace (i + (zlen rs + 1)) with (i + 1 + zlen rs) by lia.
  apply IH; [lia|done|lia|unfold vlint in *; lia].
Qed.

Lemma store_first_eq (e d start largest : Z) (x : OSSL_QUIC_ACK_RANGE) arr n d0 e0 e1 ce b :
  0 <= e -> u64 d -> 0 < n ->
  ack_store_first e (ack_delay_units e d) start largest (mkFrameAck (x :: arr) n d0 e0 e1 ce b)
    = mkFrameAck (mkAckRange start largest :: arr) n (ack_delay_units e d * 2 ^ e * 1000) e0 e1 ce b.
Proof.
  intros He Hd Hn. unfold ack_store_first, set_ack_range. cbn [num_ack_ranges field_upd ack_ranges]. assert (0 < 2 ^ e) by (apply Z.pow_pos_nonneg; lia).
  unfold safe_mul, ossl_time_multiply. rewrite Z.shiftl_mul_pow2, Z.mul_1_l by lia. cbn [orb].
  destruct (delay_units_vlint e d He Hd) as [H0 _].
  assert (ack_delay_units e d * 2 ^ e <= d / 1000) as Hle.
  { unfold ack_delay_units. rewrite Z.mul_comm. apply Z.mul_div_le. lia. }
  assert (d / 1000 * 1000 <= d) by (rewrite Z.mul_comm; apply Z.mul_div_le; lia).
  assert (0 <= ack_delay_units e d * 2 ^ e) by nia.
  rewrite (proj2 (Z.leb_gt U64_MOD _)) by u64_side. rewrite mul64_small by u64_side.
  change (ossl_ticks2time OSSL_TIME_US) with 1000. unfold safe_mul. cbn [orb].
  rewrite (proj2 (Z.leb_gt U64_MOD _)) by u64_side. rewrite mul64_small by u64_side.
  rewrite (proj2 (Z.ltb_lt 0 n)) by lia. cbn. f_equal. lia.
Qed.

Lemma ack_delay_rounding (e d : Z) : 0 <= e -> u64 d ->
  let r := ack_delay_units e d * 2 ^ e * 1000 in r <= d < r + 1000 * 2 ^ e.
Proof.
  intros He Hd. assert (0 < 2 ^ e) by (apply Z.pow_pos_nonneg; lia). cbn. unfold ack_delay_units.
  pose proof (Z.div_mod d 1000 ltac:(lia)). pose proof (Z.mod_pos_bound d 1000 ltac:(lia)).
  pose proof (Z.div_mod (d / 1000) (2 ^ e) ltac:(lia)). pose proof (Z.mod_pos_bound (d / 1000) (2 ^ e) ltac:(lia)).
  nia.
Qed.

(** The frame as the decoder leaves it in the caller's structure [a0]. *)
Definition ack_decoded (e : Z) (ack a0 : OSSL_QUIC_FRAME_ACK) : OSSL_QUIC_FRAME_ACK :=
  let n := zlen (ack_ranges ack) in
  let ecn := ack_ecn_present ack in
  mkFrameAck (ack_ranges ack ++ drop (Z.to_nat n) (ack_ranges a0)) n
    (ack_delay_units e (ack_delay_time ack) * 2 ^ e * 1000)
    (if ecn then ack_ect0 ack else ack_ect0 a0) (if ecn then ack_ect1 ack else ack_ect1 a0)
    (if ecn then ack_ecnce ack else ack_ecnce a0) ecn.

Lemma ack_decode (e : Z) (ack a0 : OSSL_QUIC_FRAME_ACK) (tl : bytes) : 0 <= e -> wf_ack ack ->
  num_ack_ranges a0 = zlen (ack_ranges a0) -> zlen (ack_ranges ack) <= num_ack_ranges a0 ->
  ossl_quic_wire_decode_frame_ack e (Some a0) (ack_bytes e ack ++ tl)
    = Some (Some (ack_decoded e ack a0), num_ack_ranges ack, tl).
Proof.
  intros He (Hr & Hn & Hd & Hecn) Hn0 Hroom. pose proof max_vlint_u64. rewrite Hn.
  destruct a0 as [arr n0 d0 e0 e1 ce b]; cbn [ack_ranges num_ack_ranges] in Hn0, Hroom. subst n0.
  unfold ossl_quic_wire_decode_frame_ack, decode_ack_tail, ack_bytes, ack_decoded.
  destruct (ack_ranges ack) as [|r0 rs]; [done|]. destruct Hr as (H0 & Hmax & Hrs).
  pose proof (ranges_bound _ _ Hrs ltac:(lia)) as Hb. pose proof (zlen_nonneg rs).
  pose proof (delay_units_vlint e _ He Hd) as Hdu. rewrite <- !app_assoc.
  assert (zlen (r0 :: rs) = zlen rs + 1) as Hz by (unfold zlen; cbn [length]; lia). rewrite Hz in *.
  destruct arr as [|x arr]; [unfold zlen in Hroom; cbn in Hroom; lia|].
  assert (zlen (x :: arr) = zlen arr + 1) as Hza by (unfold zlen; cbn [length]; lia). rewrite Hza in *.
  rewrite bind_hdr_mask by (case_match; first [ vlint_const | reflexivity ]).
  do 4 rewrite bind_vlint by (unfold vlint in *; lia).
  do 2 rewrite bind_check by (unfold SIZE_MAX, UINT64_MAX, U64_MOD in *; bdestruct_all; auto; lia).
  rewrite sub64_small by u64_side. replace (ar_end r0 - (ar_end r0 - ar_start r0)) with (ar_start r0) by lia.
  cbv zeta. cbn [fmap option_fmap option_map]. pose proof (zlen_nonneg arr). rewrite store_first_eq by (auto; lia).
  set (body := ack_range_bytes _ _ ++ _).
  set (a1 := mkFrameAck _ _ _ _ _ _ _).
  assert (Hdec : decode_ack_ranges (length body) 0 (0 + zlen rs) (ar_start r0) (Some a1) body
           = Some (Some (a1 <| ack_ranges := [r0] ++ rs ++ drop (length rs) arr |>),
                   (if ack_ecn_present ack then venc (ack_ect0 ack) ++ venc (ack_ect1 ack) ++ venc (ack_ecnce ack) else []) ++ tl)).
  { subst body. apply ranges_decode; subst a1; unfold zlen in *; cbn [ack_ranges num_ack_ranges length] in *; try done; try lia.
    - rewrite length_app. pose proof (range_bytes_length (ar_start r0) rs ltac:(lia) Hrs). lia.
    - by destruct r0. }
  rewrite Z.add_0_l in Hdec. unfold with_fuel, mbind at 1, reader_bind at 1. rewrite Hdec. subst a1. clear Hdec body.
  rewrite add64_small by u64_side. replace (Z.to_nat (zlen rs + 1)) with (S (length rs)) by (unfold zlen; lia).
  cbn [fmap option_fmap option_map num_ack_ranges ack_ranges field_upd drop].
  destruct (Z.ltb_spec (zlen rs + 1) (zlen arr + 1)); [|replace (zlen arr) with (zlen rs) by lia];
    (destruct (ack_ecn_present ack) eqn:Hp; [destruct (Hecn eq_refl) as (? & ? & ?); cbn [Z.eqb Pos.eqb OSSL_QUIC_FRAME_TYPE_ACK_WITH_ECN];
       rewrite <- !app_assoc; do 3 rewrite bind_vlint by done|]); reflexivity.
Qed.

Lemma ack_peek (e : Z) (ack : OSSL_QUIC_FRAME_ACK) (tl : bytes) : 0 <= e -> wf_ack ack ->
  ossl_quic_wire_peek_frame_ack_num_ranges (ack_bytes e ack ++ tl) = Some (num_ack_ranges ack).
Proof.
  intros He (Hr & Hn & Hd & Hecn). pose proof max_vlint_u64. rewrite Hn.
  unfold ossl_quic_wire_peek_frame_ack_num_ranges, ack_bytes.
  destruct (ack_ranges ack) as [|r0 rs]; [done|]. destruct Hr as (H0 & Hmax & Hrs).
  pose proof (ranges_bound _ _ Hrs ltac:(lia)) as Hb. pose proof (zlen_nonneg rs).
  pose proof (delay_units_vlint e _ He Hd) as Hdu. rewrite <- !app_assoc.
  rewrite bind_hdr_mask by (case_match; first [ vlint_const | reflexivity ]).
  do 2 rewrite bind_skip by (unfold vlint in *; lia). rewrite bind_vlint by (unfold vlint; lia).
  set (rest := (if ack_ecn_present ack then _ else _) ++ tl). set (body := _ ++ ack_range_bytes _ _ ++ _).
  destruct (ranges_skip rs (length body) 0 (ar_start r0) (ar_end r0 - ar_start r0) rest) as [? Hs];
    [lia|done| |unfold vlint; lia|].
  { subst body. rewrite !length_app. pose proof (range_bytes_length (ar_start r0) rs ltac:(lia) Hrs). lia. }
  rewrite Z.add_0_l in Hs. unfold with_fuel, mbind, reader_bind. fold body in Hs. rewrite Hs. cbn.
  rewrite add64_small by u64_side. f_equal. unfold zlen. cbn [length]. lia.
Qed.

(** C30.  ACK round trip: for descending, separated ranges the encoder appends
    the RFC 9000 layout; the receiver's count of the ranges is exact; decoding
    into an array with room for them gives back the same ranges (and leaves the
    rest of the array alone), the same ECN counts, exactly the same set of
    acknowledged packet numbers, and the delay rounded down to a multiple of
    [2^ack_delay_exponent] microseconds. *)
Theorem ack_roundtrip (e : Z) (ack a0 : OSSL_QUIC_FRAME_ACK) (tl : bytes) :
  0 <= e < 64 -> wf_ack ack ->
  num_ack_ranges a0 = zlen (ack_ranges a0) -> zlen (ack_ranges ack) <= num_ack_ranges a0 ->
  emits (ossl_quic_wire_encode_frame_ack e ack) (ack_bytes e ack) /\
  ossl_quic_wire_peek_frame_ack_num_ranges (ack_bytes e ack ++ tl) = Some (num_ack_ranges ack) /\
  exists a, ossl_quic_wire_decode_frame_ack e (Some a0) (ack_bytes e ack ++ tl)
              = Some (Some a, num_ack_ranges ack, tl) /\
    num_ack_ranges a = num_ack_ranges ack /\
    ack_ranges a = ack_ranges ack ++ drop (length (ack_ranges ack)) (ack_ranges a0) /\
    (forall pn, ossl_quic_frame_ack_contains_pn a pn = ossl_quic_frame_ack_contains_pn ack pn) /\
    ack_ecn_present a = ack_ecn_present ack /\
    (ack_ecn_present ack = true ->
       ack_ect0 a = ack_ect0 ack /\ ack_ect1 a = ack_ect1 ack /\ ack_ecnce a = ack_ecnce ack) /\
    ack_delay_time a <= ack_delay_time ack < ack_delay_time a + 1000 * 2 ^ e.
Proof.
  intros He Hwf Hn0 Hroom. split; [by apply ack_emits|]. split; [apply ack_peek; [lia|done]|].
  exists (ack_decoded e ack a0). split; [apply ack_decode; [lia|done..]|].
  destruct Hwf as (_ & Hn & Hd & _). unfold ack_decoded. cbn [num_ack_ranges ack_ranges ack_ecn_present ack_ect0 ack_ect1 ack_ecnce ack_delay_time].
  split_and!; try done.
  - unfold zlen. by rewrite Nat2Z.id.
  - intros pn. unfold ossl_quic_frame_ack_contains_pn. cbn [num_ack_ranges ack_ranges]. rewrite Hn. unfold zlen.
    rewrite Nat2Z.id, take_app_length. by rewrite firstn_all.
  - by intros ->.
  - apply ack_delay_rounding; [lia|done].
  - apply ack_delay_rounding; [lia|done].
Qed.

Lemma ack_roundtrip_witness :
  let ack := mkFrameAck [mkAckRange 95 100; mkAckRange 90 92] 2 25000000 1 2 3 true in
  exists a, ossl_quic_wire_decode_frame_ack 3 (Some (mkFrameAck (replicate 2 (mkAckRange 0 0)) 2 0 0 0 0 false))
              (ack_bytes 3 ack ++ [9]) = Some (Some a, num_ack_ranges ack, [9]) /\
    ossl_quic_frame_ack_contains_pn a 91 = true /\ ossl_quic_frame_ack_contains_pn a 93 = false.
Proof.
  intros ack. destruct (ack_roundtrip 3 ack (mkFrameAck (replicate 2 (mkAckRange 0 0)) 2 0 0 0 0 false) [9])
    as (_ & _ & a & Hd & _ & _ & Hc & _); [lia| |done|by vm_compute|].
  { unfold wf_ack, wf_ack_ranges, vlint, u64, U64_MOD, OSSL_QUIC_VLINT_MAX. cbn. split_and!; auto; lia. }
  exists a. split; [exact Hd|]. rewrite (Hc 91), (Hc 93). split; vm_compute; reflexivity.
Defined.

(** *** What a successful decode guarantees about untrusted bytes *)

Lemma bind_inv {A B} (m : reader A) (k : A -> reader B) (pkt : PACKET) (r : B * PACKET) :
  (x ← m; k x) pkt = Some r -> exists a pkt', m pkt = Some (a, pkt') /\ k a pkt' = Some r.
Proof. unfold mbind, reader_bind. destruct (m pkt) as [[a pkt']|]; [eauto|done]. Qed.

Lemma check_inv (b : bool) (pkt rest : PACKET) (u : unit) :
  check b pkt = Some (u, rest) -> b = true /\ rest = pkt.
Proof. unfold check. destruct b; [|done]. by intros [= _ <-]. Qed.

Lemma skip_hdr_inv (want mask ty : Z) (pkt rest : PACKET) :
  expect_frame_header_mask want mask pkt = Some (ty, rest) ->
  PACKET_get_quic_vlint pkt = Some (ty, rest) /\ Z.ldiff ty mask = want.
Proof.
  unfold expect_frame_header_mask. intros (a & p1 & H1 & (u & p2 & H2 & H3)%bind_inv)%bind_inv.
  apply check_inv in H2 as [H2 ->]. injection H3 as -> ->. by rewrite Z.eqb_eq in H2.
Qed.

(** Opens one step of a decoder that succeeded. *)
Ltac step_inv H :=
  let x := fresh "x" in let p := fresh "p" in let E := fresh "E" in
  apply bind_inv in H as (x & p & E & H); cbv beta zeta in H;
  try (apply check_inv in E as [E ->]);
  try match type of E with
      | PACKET_get_quic_vlint _ = Some _ =>
          let V := fresh "V" in let L := fresh "L" in
          pose proof (get_vlint_sound _ _ _ E) as [V L]; 
          match goal with Hb : is_bytes _ |- _ => specialize (V Hb) as [V ?] end
      end.

Lemma decode_ranges_sound (fuel : nat) : forall i count start a pkt o rest,
  is_bytes pkt -> 0 <= start <= OSSL_QUIC_VLINT_MAX -> 0 <= i <= count ->
  count + 1 <= num_ack_ranges a -> num_ack_ranges a = zlen (ack_ranges a) ->
  decode_ack_ranges fuel i count start (Some a) pkt = Some (o, rest) ->
  is_bytes rest /\ (length rest <= length pkt)%nat /\
  exists rs, zlen rs = count - i /\ ranges_below start rs /\
    o = Some (a <| ack_ranges := take (Z.to_nat (i + 1)) (ack_ranges a) ++ rs ++
                                 drop (Z.to_nat (count + 1)) (ack_ranges a) |>).
Proof.
  pose proof max_vlint_u64.
  induction fuel as [|fuel IH]; intros i count start a pkt o rest Hb Hs Hi Hc Hn Hdec;
    cbn [decode_ack_ranges] in Hdec; destruct (Z.ltb_spec i count).
  1: done.
  2: step_inv Hdec; step_inv Hdec; step_inv Hdec.
  1, 3: injection Hdec as <- <-; split_and!; [done|lia|exists []; split_and!; [unfold zlen; cbn; lia|done|]];
        replace i with count by lia; cbn [app]; rewrite take_drop; by destruct a.
  apply negb_true_iff, orb_false_iff in E1 as [E1 E2]. apply Z.ltb_ge in E1, E2.
  unfold vlint in *. rewrite (add64_small x) in E1 by u64_side.
  rewrite (sub64_small start), (sub64_small (start - x)) in * by u64_side.
  rewrite sub64_small in * by u64_side.
  rewrite (proj2 (Z.ltb_lt (i + 1) (num_ack_ranges a))) in Hdec by lia.
  unfold set_ack_range in Hdec. set (r := mkAckRange (start - x - 2 - x0) (start - x - 2)) in Hdec.
  assert (Hlen : length (<[Z.to_nat (i + 1):=r]> (ack_ranges a)) = length (ack_ranges a)) by apply length_insert.
  apply IH in Hdec as (Hb' & Hl & rs & Hrs & Hbelow & ->); try lia; try done.
  2: cbn [ack_ranges num_ack_ranges field_upd]; unfold zlen; rewrite Hlen; exact Hn.
  cbn [ack_ranges field_upd] in *.
  split_and!; [done|lia|]. exists (r :: rs). split_and!.
  - unfold zlen in *. cbn [length]. lia.
  - subst r. cbn. split_and!; [lia|lia|lia|exact Hbelow].
  - do 2 f_equal. unfold zlen in *.
    rewrite (drop_insert_lt _ (Z.to_nat (count + 1))) by lia.
    replace (Z.to_nat (i + 1 + 1)) with (S (Z.to_nat (i + 1))) by lia.
    rewrite (take_S_r _ _ r) by (apply list_lookup_insert_eq; lia).
    rewrite take_insert_ge by lia. by rewrite <- app_assoc.
Qed.

Lemma is_bytes_hdr (want mask ty : Z) (pkt rest : PACKET) : is_bytes pkt ->
  expect_frame_header_mask want mask pkt = Some (ty, rest) ->
  vlint ty /\ is_bytes rest /\ (length rest < length pkt)%nat.
Proof.
  intros Hb [E _]%skip_hdr_inv. destruct (get_vlint_sound _ _ _ E) as [V L]. by destruct (V Hb).
Qed.

Lemma ack_tail_total (ty n : Z) (o oa : option OSSL_QUIC_FRAME_ACK) (total : Z) (pkt rest : PACKET) :
  decode_ack_tail ty n o pkt = Some (oa, total, rest) -> total = n +u 1.
Proof.
  unfold decode_ack_tail. cbv zeta. case_match; [|by intros [= _ <- _]].
  intros (? & ? & _ & (? & ? & _ & (? & ? & _ & Hr)%bind_inv)%bind_inv)%bind_inv. by injection Hr as _ <- _.
Qed.

Lemma ack_tail_inv (ty n : Z) (o : option OSSL_QUIC_FRAME_ACK) (a : OSSL_QUIC_FRAME_ACK) (total : Z) (pkt rest : PACKET) :
  is_bytes pkt -> decode_ack_tail ty n o pkt = Some (Some a, total, rest) ->
  total = n +u 1 /\ is_bytes rest /\ (length rest <= length pkt)%nat /\
  exists a2, o = Some a2 /\ ack_ranges a = ack_ranges a2 /\
    num_ack_ranges a = (if n + 1 <? num_ack_ranges a2 then n + 1 else num_ack_ranges a2).
Proof.
  intros Hb Hdec. unfold decode_ack_tail in Hdec. cbv zeta in Hdec.
  destruct (ty =? OSSL_QUIC_FRAME_TYPE_ACK_WITH_ECN); [do 3 step_inv Hdec|];
    destruct o as [a2|]; try done; injection Hdec as <- <- <-;
    (split_and!; [done|done|lia|]); exists a2; (split; [done|]); by case_match.
Qed.

Lemma store_first_shape (e raw start largest : Z) (a : OSSL_QUIC_FRAME_ACK) :
  0 < num_ack_ranges a -> num_ack_ranges a = zlen (ack_ranges a) ->
  num_ack_ranges (ack_store_first e raw start largest a) = num_ack_ranges a /\
  exists tl, ack_ranges (ack_store_first e raw start largest a) = mkAckRange start largest :: tl /\
    zlen tl = num_ack_ranges a - 1.
Proof.
  intros Hp Hn. unfold ack_store_first, safe_mul. cbn [num_ack_ranges field_upd ack_ranges].
  rewrite (proj2 (Z.ltb_lt 0 _)) by lia. unfold set_ack_range. cbn [num_ack_ranges field_upd ack_ranges]. split; [done|].
  unfold zlen in *. destruct (ack_ranges a) as [|y l]; cbn in *; [lia|]. exists l. split; [done|lia].
Qed.

(** C24.  Soundness of ACK decoding: whatever bytes arrive, a decode that
    succeeds into an array with room for all the ranges yields ranges in
    strictly descending order, each [start <= end], separated by missing packet
    numbers, none below 0 or above 2^62-1 — so no subtraction wrapped around —
    and reports their number exactly. *)
Theorem ack_decode_sound (e : Z) (a0 a : OSSL_QUIC_FRAME_ACK) (pkt rest : PACKET) (total : Z) :
  is_bytes pkt -> num_ack_ranges a0 = zlen (ack_ranges a0) ->
  ossl_quic_wire_decode_frame_ack e (Some a0) pkt = Some (Some a, total, rest) ->
  total <= num_ack_ranges a0 ->
  wf_ack_ranges (take (Z.to_nat total) (ack_ranges a)) /\ num_ack_ranges a = total /\
  is_bytes rest /\ (length rest < length pkt)%nat.
Proof.
  pose proof max_vlint_u64. intros Hb Hn Hdec Htot. unfold ossl_quic_wire_decode_frame_ack in Hdec.
  apply bind_inv in Hdec as (ty & p & Eh & Hdec). destruct (is_bytes_hdr _ _ _ _ _ Hb Eh) as (_ & Hb0 & Hl0). clear Eh.
  do 6 step_inv Hdec. unfold vlint in *.
  apply negb_true_iff, Z.ltb_ge in E3. rewrite sub64_small in Hdec by u64_side.
  apply bind_inv in Hdec as (o & p4 & Eloop & Hdec). unfold with_fuel in Eloop.
  cbn [fmap option_fmap option_map] in Eloop.
  pose proof (ack_tail_total _ _ _ _ _ _ _ Hdec) as Ht. rewrite add64_small in Ht by u64_side. subst total.
  destruct (store_first_shape e x0 (x - x2) x a0) as (Hn1 & tl & Ha1 & Htl); [lia|done|].
  set (a1 := ack_store_first _ _ _ _ _) in *.
  apply decode_ranges_sound in Eloop as (Hb4 & Hl4 & rs & Hrs & Hbelow & ->); try done; try lia.
  2: rewrite Hn1, Ha1; unfold zlen in *; cbn [length]; lia.
  apply ack_tail_inv in Hdec as (_ & Hbr & Hlr & a2 & [= <-] & Ha & Hnum); [|done].
  cbn [num_ack_ranges ack_ranges field_upd] in *. rewrite Hn1 in Hnum. split_and!; [|by destruct (Z.ltb_spec (x1 + 1) (num_ack_ranges a0)); lia|done|lia].
  rewrite Ha, Ha1.
  assert (Z.to_nat (x1 + 1) = S (length rs)) as -> by (unfold zlen in *; lia).
  change (Z.to_nat (0 + 1)) with 1%nat. rewrite (firstn_cons 0), firstn_O. cbn [app].
  rewrite firstn_cons, take_app_length.
  cbn [wf_ack_ranges ar_start ar_end]. split_and!; [lia..|done].
Qed.

Lemma ack_decode_sound_witness :
  let pkt := [2; 10; 5; 1; 0; 3; 1] in
  let a0 := mkFrameAck (replicate 2 (mkAckRange 0 0)) 2 0 0 0 0 false in
  exists a rest, ossl_quic_wire_decode_frame_ack 0 (Some a0) pkt = Some (Some a, 2, rest) /\
    wf_ack_ranges (take 2 (ack_ranges a)).
Proof.
  intros pkt a0. destruct (ossl_quic_wire_decode_frame_ack 0 (Some a0) pkt) as [[[[a|] t] rest]|] eqn:E;
    vm_compute in E; try discriminate. injection E as <- <- <-.
  eexists _, _. split; [reflexivity|]. 
  eapply (ack_decode_sound 0 a0 _ pkt [] 2); [|vm_compute; reflexivity|vm_compute; reflexivity|vm_compute; discriminate].
  repeat constructor; unfold is_byte; lia.
Defined.

(** Without an array that holds all the ranges the checks are weaker:
    the running lower bound moves only when a range is stored, so a frame whose
    ranges would go below packet number 0 — and which is refused when decoded
    into a large enough array — is accepted with [ack == NULL] and with a short
    array. *)
Theorem ack_truncated_decode_accepts_invalid :
  let pkt := [2; 4; 0; 3; 0; 0; 0; 0; 0; 0; 0] in
  let arr n := mkFrameAck (replicate n (mkAckRange 0 0)) (Z.of_nat n) 0 0 0 0 false in
  ossl_quic_wire_decode_frame_ack 0 (Some (arr 4%nat)) pkt = None /\
  ossl_quic_wire_decode_frame_ack 0 None pkt = Some (None, 4, []) /\
  exists a, ossl_quic_wire_decode_frame_ack 0 (Some (arr 1%nat)) pkt = Some (Some a, 4, []).
Proof. cbv zeta. split_and!; [by vm_compute..|]. eexists. by vm_compute. Qed.

(** *** STREAM and CRYPTO frames from untrusted bytes *)

Lemma get_vlint_suffix (pkt rest : PACKET) (v : Z) :
  PACKET_get_quic_vlint pkt = Some (v, rest) -> rest `suffix_of` pkt.
Proof.
  unfold PACKET_get_quic_vlint. repeat case_match; try done. intros [= _ <-].
  exists (take (Z.to_nat (ossl_quic_vlint_decode_len (byte_at pkt 0))) pkt).
  unfold packet_forward. by rewrite take_drop.
Qed.

Lemma get_bytes_inv (len : Z) (pkt d rest : PACKET) : 0 <= len ->
  PACKET_get_bytes len pkt = Some (d, rest) -> pkt = d ++ rest /\ zlen d = len.
Proof.
  intros H0. unfold PACKET_get_bytes. destruct (Z.ltb_spec (zlen pkt) len); [done|]. intros [= <- <-].
  unfold packet_forward. split; [by rewrite take_drop|]. unfold zlen in *. rewrite length_take. lia.
Qed.

Lemma expect_hdr_suffix (ty : Z) (pkt rest : PACKET) (u : unit) :
  expect_frame_header ty pkt = Some (u, rest) -> exists v, PACKET_get_quic_vlint pkt = Some (v, rest).
Proof.
  unfold expect_frame_header. intros (v & p & E & H)%bind_inv. apply check_inv in H as [_ ->]. by exists v.
Qed.

(** The offset or length field that may be absent. *)
Lemma optional_vlint_inv (b : bool) (n : Z) (m : reader Z) (pkt rest : PACKET) (v : Z) :
  is_bytes pkt -> m pkt = Some (n, pkt) ->
  (if b then PACKET_get_quic_vlint else m) pkt = Some (v, rest) ->
  is_bytes rest /\ rest `suffix_of` pkt /\ (b = true /\ vlint v \/ b = false /\ v = n /\ rest = pkt).
Proof.
  intros Hb Hm. destruct b.
  - intros E. pose proof (get_vlint_suffix _ _ _ E). destruct (get_vlint_sound _ _ _ E) as [V _].
    destruct (V Hb). split_and!; auto.
  - rewrite Hm. intros [= <- <-]. split_and!; auto.
Qed.

Lemma suffix_zlen (a b : bytes) : a `suffix_of` b -> zlen a <= zlen b.
Proof. intros [k ->]. rewrite zlen_app. pose proof (zlen_nonneg k). lia. Qed.

(** Bounds of received stream data: whatever bytes arrive (in a packet
    of less than 2^62 bytes), a STREAM or CRYPTO frame that is accepted with
    its data designates exactly [len] bytes inside the packet, directly before
    the unread rest, and its final offset [offset + len] is at most 2^62-1
    computed without wrap-around. *)
Theorem stream_decode_bounds (pkt rest : PACKET) :
  is_bytes pkt -> zlen pkt <= OSSL_QUIC_VLINT_MAX ->
  (forall f, ossl_quic_wire_decode_frame_stream false pkt = Some (f, rest) ->
     vlint (fs_stream_id f) /\ 0 <= fs_offset f /\ 0 <= fs_len f /\
     fs_offset f + fs_len f <= OSSL_QUIC_VLINT_MAX /\
     exists d, fs_data f = Some d /\ zlen d = fs_len f /\ (d ++ rest) `suffix_of` pkt /\
       (fs_has_explicit_len f = false -> rest = [])) /\
  (forall f, ossl_quic_wire_decode_frame_crypto false pkt = Some (f, rest) ->
     0 <= fc_offset f /\ 0 <= fc_len f /\ fc_offset f + fc_len f <= OSSL_QUIC_VLINT_MAX /\
     exists d, fc_data f = Some d /\ zlen d = fc_len f /\ (d ++ rest) `suffix_of` pkt).
Proof.
  intros Hb Hlen. pose proof max_vlint_u64. split; intros f Hdec.
  - unfold ossl_quic_wire_decode_frame_stream in Hdec.
    apply bind_inv in Hdec as (ty & p & Eh & Hdec). destruct (is_bytes_hdr _ _ _ _ _ Hb Eh) as (_ & Hb0 & _).
    apply skip_hdr_inv in Eh as [Eh%get_vlint_suffix _]. step_inv Hdec. apply get_vlint_suffix in E.
    apply bind_inv in Hdec as (off & p1 & Eo & Hdec).
    apply (optional_vlint_inv _ 0) in Eo as (Hb1 & Hs1 & Ho); [|done..].
    assert (vlint off) as Hov by (destruct Ho as [[_ ?]|[_ [-> _]]]; [done|vlint_const]). clear Ho.
    cbv zeta in Hdec. set (ex := negb (Z.land ty OSSL_QUIC_FRAME_FLAG_STREAM_LEN =? 0)) in *.
    apply bind_inv in Hdec as (len & p2 & El & Hdec).
    apply (optional_vlint_inv _ (zlen p1)) in El as (Hb2 & Hs2 & Hl); [|done..].
    assert (Hsuf : p2 `suffix_of` pkt) by (do 3 (etrans; [eassumption|]); done).
    assert (zlen p1 <= zlen pkt) by (apply suffix_zlen; do 2 (etrans; [eassumption|]); done).
    assert (vlint len) as Hlv.
    { destruct Hl as [[_ ?]|[_ [-> _]]]; [done|]. unfold vlint. pose proof (zlen_nonneg p1). lia. }
    do 2 step_inv Hdec. apply bind_inv in Hdec as (d & p3 & Ed & Hdec).
    apply get_bytes_inv in Ed as [-> Hd]; [|unfold vlint in *; lia]. injection Hdec as <- <-.
    apply negb_true_iff, Z.ltb_ge in E0. unfold vlint in *. rewrite add64_small in E0 by u64_side.
    change QUIC_MAX_STREAM_OFFSET with OSSL_QUIC_VLINT_MAX in E0. cbn.
    split_and!; try lia. exists d. split_and!; [done|done|done|]. intros Hex.
    destruct Hl as [[? _]|(_ & Hl & Hp)]; [congruence|]. rewrite <- Hp, zlen_app in Hl. destruct p3; [done|].
    unfold zlen in *. cbn in Hl. lia.
  - unfold ossl_quic_wire_decode_frame_crypto in Hdec.
    apply bind_inv in Hdec as (u & p & (ty & Eh)%expect_hdr_suffix & Hdec).
    pose proof (get_vlint_suffix _ _ _ Eh) as Hs0. destruct (get_vlint_sound _ _ _ Eh) as [[_ Hb0]%(fun V => V Hb) _].
    do 2 (step_inv Hdec). apply get_vlint_suffix in E, E0. do 4 step_inv Hdec.
    injection E3 as <- <-. 
    apply bind_inv in Hdec as (d & p3 & Ed & Hdec).
    apply get_bytes_inv in Ed as [-> Hd]; [|unfold vlint in *; lia]. injection Hdec as <- <-.
    apply negb_true_iff, Z.ltb_ge in E2. unfold vlint in *. rewrite add64_small in E2 by u64_side.
    change QUIC_MAX_STREAM_OFFSET with OSSL_QUIC_VLINT_MAX in E2. cbn.
    split_and!; try lia. exists d. split_and!; [done|done|]. do 2 (etrans; [eassumption|]); done.
Qed.

Lemma stream_decode_bounds_witness :
  exists f, ossl_quic_wire_decode_frame_stream false [15; 4; 64; 200; 2; 65; 66; 1] = Some (f, [1]) /\
    fs_offset f + fs_len f <= OSSL_QUIC_VLINT_MAX.
Proof.
  destruct (stream_decode_bounds [15; 4; 64; 200; 2; 65; 66; 1] [1]) as [H _].
  - repeat constructor; unfold is_byte; lia.
  - by vm_compute.
  - eexists. split; [vm_compute; reflexivity|]. edestruct H as (_ & _ & _ & Hm & _); [vm_compute; reflexivity|exact Hm].
Defined.

(** *** Header lengths used for packing *)

(** [n] is the size of what [a] writes; 0 when [a] always fails. *)
Definition sized (a : writer) (n : Z) : Prop :=
  (n = 0 /\ forall w, (a w).2 = false) \/ (0 < n /\ exists bs, zlen bs = n /\ emits a bs).

Lemma sized_vlint (v : Z) : u64 v -> sized (WPACKET_quic_write_vlint v) (ossl_quic_vlint_encode_len v).
Proof.
  intros Hv. destruct (Z.le_gt_cases v OSSL_QUIC_VLINT_MAX).
  - assert (vlint v) as Hvl by (unfold u64 in Hv; unfold vlint; lia). pose proof (encode_len_pos v Hvl).
    right. split; [lia|]. exists (venc v). split; [by apply encode_length|by apply emits_vlint].
  - left. rewrite encode_len_zero by lia. split; [done|]. intros w. unfold WPACKET_quic_write_vlint.
    by rewrite encode_len_zero by lia.
Qed.

Lemma sized_seq (a b : writer) (n m : Z) : sized a n -> sized b m ->
  sized (a ;;; b) (if (n =? 0) || (m =? 0) then 0 else n + m).
Proof.
  intros [[-> Ha]|(Hn & x & <- & Ha)].
  - intros _. left. split; [done|]. intros w. unfold wseq. specialize (Ha w). by destruct (a w) as [? []].
  - rewrite (proj2 (Z.eqb_neq (zlen x) 0)) by lia. intros [[-> Hb]|(Hm & y & <- & Hb)]; cbn [orb].
    + left. split; [done|]. intros w. unfold wseq. destruct (a w) as [? []]; [apply Hb|done].
    + rewrite (proj2 (Z.eqb_neq (zlen y) 0)) by lia. right. split; [lia|].
      exists (x ++ y). split; [apply zlen_app|by apply emits_seq].
Qed.

Lemma sized_ok_r (a : writer) (n : Z) : sized a n -> sized (a ;;; wok) n.
Proof.
  assert (He : forall w, (a ;;; wok) w = a w) by (intros w; unfold wseq, wok; by destruct (a w) as [? []]).
  intros [[-> Ha]|(Hn & x & <- & Ha)]; [left|right]; (split; [done|]).
  - intros w. by rewrite He.
  - exists x. split; [done|]. intros w. rewrite He. apply Ha.
Qed.

Lemma sized_eq (a : writer) (n m : Z) : sized a n -> n = m -> sized a m.
Proof. by intros ? <-. Qed.

Lemma encode_len_nonneg (v : Z) : 0 <= ossl_quic_vlint_encode_len v.
Proof. unfold ossl_quic_vlint_encode_len. repeat case_match; lia. Qed.

Lemma sized_small (t : Z) : 0 <= t < 64 -> sized (WPACKET_quic_write_vlint t) 1.
Proof.
  intros Ht. pose proof (sized_vlint t ltac:(u64_side)) as S. unfold ossl_quic_vlint_encode_len in S.
  by rewrite (proj2 (Z.ltb_lt t OSSL_QUIC_VLINT_2B_MIN)) in S by (unfold OSSL_QUIC_VLINT_2B_MIN; lia).
Qed.

(** The length functions the packetiser plans with are exact: for every
    STREAM or CRYPTO header (fields are 64-bit unsigned), a positive result is
    the number of bytes the encoder appends when there is room for them, and a
    result of 0 means that the encoder fails on every buffer. *)
Theorem frame_hdr_len_exact (fs : OSSL_QUIC_FRAME_STREAM) (fc : OSSL_QUIC_FRAME_CRYPTO) :
  u64 (fs_stream_id fs) -> u64 (fs_offset fs) -> u64 (fs_len fs) -> u64 (fc_offset fc) -> u64 (fc_len fc) ->
  sized (ossl_quic_wire_encode_frame_stream_hdr fs) (ossl_quic_wire_get_encoded_frame_len_stream_hdr fs) /\
  sized (ossl_quic_wire_encode_frame_crypto_hdr fc) (ossl_quic_wire_get_encoded_frame_len_crypto_hdr fc).
Proof.
  intros Hi Ho Hl Hco Hcl. split.
  - unfold ossl_quic_wire_encode_frame_stream_hdr, ossl_quic_wire_get_encoded_frame_len_stream_hdr, encode_frame_hdr.
    change (ossl_quic_vlint_encode_len OSSL_QUIC_FRAME_TYPE_STREAM) with 1. cbn [Z.eqb orb].
    pose proof (sized_vlint _ Hi) as Si. pose proof (sized_vlint _ Ho) as So. pose proof (sized_vlint _ Hl) as Sl.
    set (ty := if fs_is_fin fs then _ else _).
    assert (sized (WPACKET_quic_write_vlint ty) 1) as Sty.
    { apply sized_small. subst ty. destruct (negb _), (fs_has_explicit_len fs), (fs_is_fin fs); by vm_compute. }
    clearbody ty. unfold wwhen. unfold u64 in Ho.
    pose proof (encode_len_nonneg (fs_stream_id fs)). pose proof (encode_len_nonneg (fs_offset fs)).
    pose proof (encode_len_nonneg (fs_len fs)).
    destruct (Z.eqb_spec (fs_offset fs) 0) as [E|E]; cbn [negb];
      [rewrite (proj2 (Z.ltb_ge 0 (fs_offset fs))) by lia|rewrite (proj2 (Z.ltb_lt 0 (fs_offset fs))) by lia];
      destruct (fs_has_explicit_len fs); cbn [andb].
    + eapply sized_eq; [apply sized_seq; [exact Sty|apply sized_seq; [exact Si|exact Sl]]|bdestruct_all; lia].
    + eapply sized_eq; [apply sized_seq; [exact Sty|exact (sized_ok_r _ _ Si)]|bdestruct_all; lia].
    + eapply sized_eq; [repeat apply sized_seq; [exact Sty|exact Si|exact So|exact Sl]|bdestruct_all; lia].
    + eapply sized_eq; [apply sized_seq; [exact Sty|apply sized_seq; [exact Si|apply (sized_ok_r _ _ So)]]|bdestruct_all; lia].
  - unfold ossl_quic_wire_encode_frame_crypto_hdr, ossl_quic_wire_get_encoded_frame_len_crypto_hdr, encode_frame_hdr.
    change (ossl_quic_vlint_encode_len OSSL_QUIC_FRAME_TYPE_CRYPTO) with 1. cbn [Z.eqb orb].
    pose proof (encode_len_nonneg (fc_offset fc)). pose proof (encode_len_nonneg (fc_len fc)).
    eapply sized_eq; [repeat apply sized_seq; [by apply sized_small|by apply sized_vlint..]|bdestruct_all; lia].
Qed.

Lemma frame_hdr_len_exact_witness :
  sized (ossl_quic_wire_encode_frame_stream_hdr (mkFrameStream 4 1000 3 None true false)) 5.
Proof.
  refine (proj1 (frame_hdr_len_exact (mkFrameStream 4 1000 3 None true false) (mkFrameCrypto 0 0 None) _ _ _ _ _));
    by vm_compute.
Defined.

(** *** Transport parameters *)

Definition tparam_bytes (id : Z) (body : bytes) : bytes := venc id ++ venc (zlen body) ++ body.

Lemma tparam_emits (id len : Z) (body : bytes) : vlint id -> vlint len -> len <= zlen body ->
  emits (ossl_quic_wire_encode_transport_param_bytes id (Some body) len)
    (tparam_bytes id (take (Z.to_nat len) body)).
Proof.
  intros Hid Hl Hlen. unfold ossl_quic_wire_encode_transport_param_bytes, tparam_bytes.
  assert (zlen (take (Z.to_nat len) body) = len) as -> by (unfold zlen, vlint in *; rewrite length_take; lia).
  apply emits_seq; [by apply emits_vlint|]. apply emits_seq; [by apply emits_vlint|].
  destruct (Z.eqb_spec len 0) as [->|]; [apply emits_ok|]. apply emits_data_prefix. unfold vlint in Hl. lia.
Qed.

Lemma tparam_decode (id : Z) (body tl : bytes) : vlint id -> vlint (zlen body) ->
  ossl_quic_wire_decode_transport_param_bytes (tparam_bytes id body ++ tl) = Some (id, body, tl).
Proof.
  intros Hid Hl. unfold ossl_quic_wire_decode_transport_param_bytes, tparam_bytes. read_all. done.
Qed.

Lemma tparam_cid_roundtrip (id : Z) (tl : bytes) (cid old : QUIC_CONN_ID) :
  vlint id -> wf_conn_id cid -> zlen (cid_id old) = QUIC_MAX_CONN_ID_LEN ->
  let cbody := take (Z.to_nat (cid_id_len cid)) (cid_id cid) in
  emits (ossl_quic_wire_encode_transport_param_cid id cid) (tparam_bytes id cbody) /\
  exists c, ossl_quic_wire_decode_transport_param_cid old (tparam_bytes id cbody ++ tl) = Some (id, c, tl) /\
    ossl_quic_conn_id_eq c cid = true /\ zlen (cid_id c) = QUIC_MAX_CONN_ID_LEN.
Proof.
  intros Hid (Hc & Hcid & _) Hold cbody.
  assert (Hcb : cid_id_len cid = zlen cbody) by (subst cbody; unfold zlen in *; rewrite length_take; lia).
  assert (Hcv : vlint (zlen cbody)) by (rewrite <- Hcb; unfold vlint, OSSL_QUIC_VLINT_MAX, QUIC_MAX_CONN_ID_LEN in *; lia).
  split.
  - unfold ossl_quic_wire_encode_transport_param_cid. rewrite (proj2 (Z.ltb_ge QUIC_MAX_CONN_ID_LEN _)) by lia.
    apply tparam_emits; [done|by rewrite Hcb|lia].
  - unfold ossl_quic_wire_decode_transport_param_cid, mbind, reader_bind. rewrite tparam_decode by done.
    unfold check. rewrite (proj2 (Z.ltb_ge QUIC_MAX_CONN_ID_LEN (zlen cbody))) by lia. cbn [negb].
    eexists. split_and!; [reflexivity| |].
    + unfold ossl_quic_conn_id_eq. cbn [cid_id_len cid_id]. rewrite <- Hcb, Z.eqb_refl.
      rewrite (proj2 (Z.ltb_ge QUIC_MAX_CONN_ID_LEN _)) by lia. cbn [negb orb]. apply bool_decide_eq_true.
      rewrite Hcb at 1. unfold zlen at 1. rewrite Nat2Z.id. by rewrite take_app_length.
    + cbn [cid_id]. rewrite zlen_app, <- Hcb. unfold zlen in *. rewrite length_drop. lia.
Qed.

(** Transport parameter round trip: a byte-string, integer or connection
    ID parameter written by its encoder is read back by its decoder, with the
    same identifier, whatever follows; a connection ID parameter comes back
    equal in the sense of [ossl_quic_conn_id_eq] whatever the caller's
    structure held before. *)
Theorem tparam_roundtrip (id value : Z) (body tl : bytes) (cid old : QUIC_CONN_ID) :
  vlint id -> vlint value -> vlint (zlen body) -> wf_conn_id cid -> zlen (cid_id old) = QUIC_MAX_CONN_ID_LEN ->
  (emits (ossl_quic_wire_encode_transport_param_bytes id (Some body) (zlen body)) (tparam_bytes id body) /\
   ossl_quic_wire_decode_transport_param_bytes (tparam_bytes id body ++ tl) = Some (id, body, tl)) /\
  (emits (ossl_quic_wire_encode_transport_param_int id value) (tparam_bytes id (venc value)) /\
   ossl_quic_wire_decode_transport_param_int (tparam_bytes id (venc value) ++ tl) = Some (id, value, tl)) /\
  (let cbody := take (Z.to_nat (cid_id_len cid)) (cid_id cid) in
   emits (ossl_quic_wire_encode_transport_param_cid id cid) (tparam_bytes id cbody) /\
   exists c, ossl_quic_wire_decode_transport_param_cid old (tparam_bytes id cbody ++ tl) = Some (id, c, tl) /\
     ossl_quic_conn_id_eq c cid = true /\ zlen (cid_id c) = QUIC_MAX_CONN_ID_LEN).
Proof.
  intros Hid Hv Hl Hc Hold. pose proof (encode_len_pos value Hv). split_and!.
  - pose proof (tparam_emits id (zlen body) body Hid Hl ltac:(lia)) as He. by rewrite take_all in He.
  - by apply tparam_decode.
  - unfold ossl_quic_wire_encode_transport_param_int, tparam_bytes. rewrite encode_length by done.
    repeat apply emits_seq; apply emits_vlint; first [ done | unfold vlint, OSSL_QUIC_VLINT_MAX; lia ].
  - unfold ossl_quic_wire_decode_transport_param_int, mbind, reader_bind. rewrite tparam_decode; [|done|].
    + rewrite <- (app_nil_r (venc value)), get_vlint_encode by done. done.
    + rewrite encode_length by done. unfold vlint, OSSL_QUIC_VLINT_MAX. lia.
  - by apply tparam_cid_roundtrip.
Qed.

Lemma tparam_roundtrip_witness :
  ossl_quic_wire_decode_transport_param_int (tparam_bytes 1 (venc 30000) ++ [5]) = Some (1, 30000, [5]).
Proof.
  destruct (tparam_roundtrip 1 30000 [1; 2] [5] (mkConnId 1 (7 :: replicate 19 0)) (mkConnId 0 (replicate 20 3)))
    as (_ & [_ H] & _); [by vm_compute..|exact H].
Defined.

(** *** The loops over the ranges end within their fuel *)

Lemma decode_ranges_fuel (n : nat) : forall fuel i count start ack pkt,
  (length pkt <= n)%nat -> (n <= fuel)%nat ->
  decode_ack_ranges fuel i count start ack pkt = decode_ack_ranges n i count start ack pkt.
Proof.
  induction n as [|n IH]; intros fuel i count start ack pkt Hp Hf.
  - destruct pkt; cbn in Hp; [|lia]. destruct fuel; [done|]. cbn [decode_ack_ranges]. by case_match.
  - destruct fuel as [|fuel]; [lia|]. cbn [decode_ack_ranges]. case_match; [|done].
    unfold mbind, reader_bind. destruct (PACKET_get_quic_vlint pkt) as [[gap p1]|] eqn:E1; [|done].
    apply get_vlint_sound in E1 as [_ L1].
    destruct (PACKET_get_quic_vlint p1) as [[len p2]|] eqn:E2; [|done]. apply get_vlint_sound in E2 as [_ L2].
    unfold check. repeat case_match; simplify_eq; try done; apply IH; lia.
Qed.

Lemma skip_vlint_shorter (pkt rest : PACKET) (u : unit) :
  PACKET_skip_quic_vlint pkt = Some (u, rest) -> (length rest < length pkt)%nat.
Proof.
  unfold PACKET_skip_quic_vlint. destruct (Z.ltb_spec (zlen pkt) 1) as [|H1]; [done|].
  pose proof (decode_len_pos (byte_at pkt 0)). case_match; [done|]. intros [= _ <-].
  unfold packet_forward. rewrite length_drop. unfold zlen in H1. lia.
Qed.

Lemma skip_ranges_fuel (n : nat) : forall fuel i count pkt,
  (length pkt <= n)%nat -> (n <= fuel)%nat ->
  skip_ack_ranges fuel i count pkt = skip_ack_ranges n i count pkt.
Proof.
  induction n as [|n IH]; intros fuel i count pkt Hp Hf.
  - destruct pkt; cbn in Hp; [|lia]. destruct fuel; [done|]. cbn [skip_ack_ranges]. by case_match.
  - destruct fuel as [|fuel]; [lia|]. cbn [skip_ack_ranges]. case_match; [|done].
    unfold mbind, reader_bind. destruct (PACKET_skip_quic_vlint pkt) as [[gap p1]|] eqn:E1; [|done].
    apply skip_vlint_shorter in E1. destruct (PACKET_skip_quic_vlint p1) as [[len p2]|] eqn:E2; [|done].
    apply skip_vlint_shorter in E2. apply IH; lia.
Qed.

(** Termination of the loops over ACK ranges: although the announced
    count may be as large as 2^62-1, every round consumes input or fails, so a
    number of rounds equal to the bytes left decides the outcome; more rounds
    never change it. *)
Theorem ack_loops_terminate (fuel : nat) (i count start : Z) (ack : option OSSL_QUIC_FRAME_ACK) (pkt : PACKET) :
  (length pkt <= fuel)%nat ->
  decode_ack_ranges fuel i count start ack pkt = decode_ack_ranges (length pkt) i count start ack pkt /\
  skip_ack_ranges fuel i count pkt = skip_ack_ranges (length pkt) i count pkt.
Proof. intros H. split; [by apply decode_ranges_fuel|by apply skip_ranges_fuel]. Qed.

Lemma ack_loops_terminate_witness :
  skip_ack_ranges 100 0 1000000 [1; 2; 3] = skip_ack_ranges 3 0 1000000 [1; 2; 3].
Proof. refine (proj2 (ack_loops_terminate 100 0 1000000 0 None [1; 2; 3] _)). cbn. lia. Defined.
