(* ===== verification/CcMethod.v ===== *)
(** * The congestion controller interface (include/internal/quic_cc.h)

    [OSSL_CC_METHOD] is the table of functions through which the ACK manager
    reports to a congestion controller; a controller is a state type with an
    instance.  [CC_ACCOUNTING] states what the ACK manager relies on: a count
    of the bytes in flight that each report moves by the size reported.  The
    NewReno controller discharges it.  The first argument of the operations
    that read the clock is the value the controller's clock callback returns. *)

From S2P Require Import Prelude OsslTime Congestion.

Class OSSL_CC_METHOD (D : Type) := {
  cc_on_data_sent : D -> Z -> D;
  cc_on_data_acked : D -> OSSL_CC_ACK_INFO -> D;
  cc_on_data_lost : D -> OSSL_CC_ACK_INFO -> D;
  cc_on_data_lost_finished : OSSL_TIME -> D -> Z -> D;
  cc_on_data_invalidated : D -> Z -> D;
  cc_on_ecn : OSSL_TIME -> D -> OSSL_TIME -> D }.

Class CC_ACCOUNTING (D : Type) `{OSSL_CC_METHOD D} := {
  cc_in_flight : D -> Z;
  cc_sent_law : forall d n, cc_in_flight (cc_on_data_sent d n) = cc_in_flight d +u n;
  cc_acked_law : forall d i, cc_in_flight (cc_on_data_acked d i) = cc_in_flight d -u ai_tx_size i;
  cc_lost_law : forall d i, ai_tx_size i <= cc_in_flight d ->
    cc_in_flight (cc_on_data_lost d i) = cc_in_flight d -u ai_tx_size i;
  cc_lost_finished_law : forall t d f, cc_in_flight (cc_on_data_lost_finished t d f) = cc_in_flight d;
  cc_invalidated_law : forall d n, cc_in_flight (cc_on_data_invalidated d n) = cc_in_flight d -u n;
  cc_ecn_law : forall t d e, cc_in_flight (cc_on_ecn t d e) = cc_in_flight d }.

(** ** NewReno as a controller *)

#[export] Instance newreno_method : OSSL_CC_METHOD OSSL_CC_NEWRENO := {|
  cc_on_data_sent := newreno_on_data_sent;
  cc_on_data_acked := newreno_on_data_acked;
  cc_on_data_lost nr i := fst (newreno_on_data_lost nr i);
  cc_on_data_lost_finished := newreno_on_data_lost_finished;
  cc_on_data_invalidated := newreno_on_data_invalidated;
  cc_on_ecn := newreno_on_ecn |}.

Lemma newreno_cong_flight (t u : Z) (nr : OSSL_CC_NEWRENO) :
  bytes_in_flight (newreno_cong t nr u) = bytes_in_flight nr.
Proof. unfold newreno_cong. repeat case_match; done. Qed.

Lemma newreno_flush_flight (t f : Z) (nr : OSSL_CC_NEWRENO) :
  bytes_in_flight (newreno_flush t nr f) = bytes_in_flight nr.
Proof. unfold newreno_flush. repeat case_match; cbn; rewrite ?newreno_cong_flight; done. Qed.

#[export] Instance newreno_accounts : CC_ACCOUNTING OSSL_CC_NEWRENO.
Proof.
  refine {| cc_in_flight := bytes_in_flight |}.
  - done.
  - intros d i. cbn. unfold newreno_on_data_acked. repeat case_match; done.
  - intros d i Hi. cbn. unfold newreno_on_data_lost. rewrite (proj2 (Z.ltb_ge _ _)) by lia.
    repeat case_match; simplify_eq; done.
  - intros t d f. apply newreno_flush_flight.
  - done.
  - intros t d e. exact (newreno_flush_flight t 0 _).
Defined.
