(* ===== verification/Ackm.v ===== *)
(** * The ACK manager (ssl/quic/quic_ackm.c)

    One [OSSL_ACKM] per connection.  The arrays indexed by packet number space
    are one record [ackm_space] per space.  A transmitted packet is reported to
    its owner through one of its three callbacks; the calls are recorded in
    [a_events], together with the deadline callbacks, in call order.  The
    congestion controller is any instance of [OSSL_CC_METHOD].  [now k] is what
    the clock callback returns at its [k]-th reading and [a_clk] counts the
    readings.  [alloc] says whether the allocation a call makes succeeds. *)

From S2P Require Import Prelude UintSet OsslTime Congestion CcMethod Packet Wire.

(** ** Packet number spaces *)

Inductive pn_space := QUIC_PN_SPACE_INITIAL | QUIC_PN_SPACE_HANDSHAKE | QUIC_PN_SPACE_APP.
#[export] Instance pn_space_eq_dec : EqDecision pn_space.
Proof. solve_decision. Defined.

Definition QUIC_PN_SPACE_NUM : Z := 3.
Definition QUIC_PN_INVALID : Z := UINT64_MAX.

Definition is_space (a b : pn_space) : bool :=
  match a, b with
  | QUIC_PN_SPACE_INITIAL, QUIC_PN_SPACE_INITIAL
  | QUIC_PN_SPACE_HANDSHAKE, QUIC_PN_SPACE_HANDSHAKE
  | QUIC_PN_SPACE_APP, QUIC_PN_SPACE_APP => true
  | _, _ => false
  end.

(** An array with one element per space. *)
Record spaces (A : Type) := mkSpaces { sp_initial : A; sp_handshake : A; sp_app : A }.
Arguments mkSpaces {A}.
Arguments sp_initial {A}.
Arguments sp_handshake {A}.
Arguments sp_app {A}.

Definition sget {A} (x : spaces A) (s : pn_space) : A :=
  match s with
  | QUIC_PN_SPACE_INITIAL => sp_initial x
  | QUIC_PN_SPACE_HANDSHAKE => sp_handshake x
  | QUIC_PN_SPACE_APP => sp_app x
  end.

Definition sset {A} (x : spaces A) (s : pn_space) (v : A) : spaces A :=
  match s with
  | QUIC_PN_SPACE_INITIAL => mkSpaces v (sp_handshake x) (sp_app x)
  | QUIC_PN_SPACE_HANDSHAKE => mkSpaces (sp_initial x) v (sp_app x)
  | QUIC_PN_SPACE_APP => mkSpaces (sp_initial x) (sp_handshake x) v
  end.

Definition ossl_quic_pn_max (a b : QUIC_PN) : QUIC_PN := if b <? a then a else b.

(** ** Transmitted packets *)

Record OSSL_ACKM_TX_PKT := mkTxPkt {
  pkt_num : QUIC_PN; num_bytes : Z; pkt_time : OSSL_TIME; largest_acked : QUIC_PN;
  pkt_space : pn_space; is_inflight : bool; is_ack_eliciting : bool;
  is_pto_probe : bool; is_mtu_probe : bool }.

(** The list of packets in the order they were added, and the hash table. *)
Record tx_pkt_history_st := mkTxHist {
  h_packets : list OSSL_ACKM_TX_PKT; h_map : gmap Z OSSL_ACKM_TX_PKT;
  h_watermark : Z; h_highest_sent : Z }.
#[export] Instance eta_txhist : Eta tx_pkt_history_st := fun h =>
  mkTxHist (h_packets h) (h_map h) (h_watermark h) (h_highest_sent h).

Definition tx_pkt_history_init : tx_pkt_history_st := mkTxHist [] ∅ 0 0.

Definition tx_pkt_history_destroy (h : tx_pkt_history_st) : tx_pkt_history_st :=
  h <| h_map := ∅ |> <| h_packets := [] |>.

(** The insertion into the hash table is taken to succeed: its result is not looked at, and a packet it failed to insert would
    be in the list only. *)
Definition tx_pkt_history_add_actual (h : tx_pkt_history_st) (pkt : OSSL_ACKM_TX_PKT)
  : tx_pkt_history_st * bool :=
  match h_map h !! pkt_num pkt with
  | Some _ => (h, false)
  | None => (h <| h_map := <[pkt_num pkt := pkt]> (h_map h) |> <| h_packets := h_packets h ++ [pkt] |>, true)
  end.

Definition tx_pkt_history_add (h : tx_pkt_history_st) (pkt : OSSL_ACKM_TX_PKT) : tx_pkt_history_st * bool :=
  if negb (h_watermark h <=? pkt_num pkt) then (h, false)
  else
    match tx_pkt_history_add_actual h pkt with
    | (h, false) => (h, false)
    | (h, true) => (h <| h_watermark := pkt_num pkt +u 1 |> <| h_highest_sent := pkt_num pkt |>, true)
    end.

Definition tx_pkt_history_by_pkt_num (h : tx_pkt_history_st) (pn : QUIC_PN) : option OSSL_ACKM_TX_PKT :=
  h_map h !! pn.

(** [ossl_list_tx_history_remove]: unlinks the one packet with this number. *)
Definition list_remove_pkt (l : list OSSL_ACKM_TX_PKT) (pn : QUIC_PN) : list OSSL_ACKM_TX_PKT :=
  List.filter (fun p => negb (pkt_num p =? pn)) l.

Definition tx_pkt_history_remove (h : tx_pkt_history_st) (pn : QUIC_PN) : tx_pkt_history_st * bool :=
  match tx_pkt_history_by_pkt_num h pn with
  | None => (h, false)
  | Some pkt => (h <| h_packets := list_remove_pkt (h_packets h) pn |> <| h_map := delete pn (h_map h) |>, true)
  end.

(** ** Received packet numbers *)

Record rx_pkt_history_st := mkRxHist { rh_set : UINT_SET; rh_watermark : QUIC_PN }.
#[export] Instance eta_rxhist : Eta rx_pkt_history_st := fun h => mkRxHist (rh_set h) (rh_watermark h).

Definition rx_pkt_history_init : rx_pkt_history_st := mkRxHist ossl_uint_set_init 0.

Definition rx_pkt_history_destroy (h : rx_pkt_history_st) : rx_pkt_history_st := h <| rh_set := [] |>.

Definition MAX_RX_ACK_RANGES : Z := 32.

(** The range starts at 0, so the removal never splits an item and never
    allocates ([remove_low_walk] in AckmRx.v). *)
Definition rx_pkt_history_bump_watermark (h : rx_pkt_history_st) (watermark : QUIC_PN) : rx_pkt_history_st * bool :=
  if watermark <=? rh_watermark h then (h, true)
  else
    match ossl_uint_set_remove true (rh_set h) (mkRange 0 (watermark -u 1)) with
    | Some (s, true) => (mkRxHist s watermark, true)
    | Some (s, false) => (h <| rh_set := s |>, false)
    | None => (h, false)
    end.

(** The loop that drops the lowest range until [MAX_RX_ACK_RANGES] are left,
    with the highest number dropped; each round removes one range, so the
    number of ranges is enough fuel. *)
Fixpoint trim_loop (fuel : nat) (s : UINT_SET) (highest : QUIC_PN) : UINT_SET * QUIC_PN :=
  match fuel, s with
  | S fuel, r :: _ =>
      if MAX_RX_ACK_RANGES <? zlen s then
        let highest := if highest =? QUIC_PN_INVALID then r_end r else ossl_quic_pn_max highest (r_end r) in
        match ossl_uint_set_remove true s r with
        | Some (s', _) => trim_loop fuel s' highest
        | None => (s, highest)
        end
      else (s, highest)
  | _, _ => (s, highest)
  end.

Definition rx_pkt_history_trim_range_count (h : rx_pkt_history_st) : rx_pkt_history_st :=
  let '(s, highest) := trim_loop (length (rh_set h)) (rh_set h) QUIC_PN_INVALID in
  let h := h <| rh_set := s |> in
  if negb (highest =? QUIC_PN_INVALID) then fst (rx_pkt_history_bump_watermark h (highest +u 1)) else h.

Definition rx_pkt_history_add_pn (alloc : bool) (h : rx_pkt_history_st) (pn : QUIC_PN) : rx_pkt_history_st * bool :=
  if pn <? rh_watermark h then (h, true)
  else
    match ossl_uint_set_insert alloc (rh_set h) (mkRange pn pn) with
    | (s, false) => (h <| rh_set := s |>, false)
    | (s, true) => (rx_pkt_history_trim_range_count (h <| rh_set := s |>), true)
    end.

(** ** The manager *)

Definition K_GRANULARITY : Z := 1 * OSSL_TIME_MS.
Definition K_PKT_THRESHOLD : Z := 3.
Definition K_TIME_THRESHOLD_NUM : Z := 9.
Definition K_TIME_THRESHOLD_DEN : Z := 8.
Definition MAX_PTO_COUNT : Z := 16.
Definition QUIC_DEFAULT_MAX_ACK_DELAY : Z := 25.
Definition PKTS_BEFORE_ACK : Z := 2.

(** The elements of the per-space arrays of [ossl_ackm_st]. *)
Record ackm_space := mkSpace {
  s_tx_history : tx_pkt_history_st; s_rx_history : rx_pkt_history_st;
  s_largest_acked_pkt : QUIC_PN; s_time_of_last_ack_eliciting_pkt : OSSL_TIME; s_loss_time : OSSL_TIME;
  s_ack_eliciting_bytes_in_flight : Z; s_peer_ecnce : Z;
  s_discarded : bool; s_rx_ack_desired : bool; s_rx_ack_generated : bool;
  s_ack : OSSL_QUIC_FRAME_ACK; s_ack_ranges : list OSSL_QUIC_ACK_RANGE;
  s_rx_largest_pn : QUIC_PN; s_rx_largest_time : OSSL_TIME;
  s_rx_ect0 : Z; s_rx_ect1 : Z; s_rx_ecnce : Z;
  s_rx_ack_eliciting_pkts_since_last_ack : Z; s_rx_ack_flush_deadline : OSSL_TIME }.
#[export] Instance eta_space : Eta ackm_space := fun s =>
  mkSpace (s_tx_history s) (s_rx_history s) (s_largest_acked_pkt s) (s_time_of_last_ack_eliciting_pkt s)
    (s_loss_time s) (s_ack_eliciting_bytes_in_flight s) (s_peer_ecnce s) (s_discarded s) (s_rx_ack_desired s)
    (s_rx_ack_generated s) (s_ack s) (s_ack_ranges s) (s_rx_largest_pn s) (s_rx_largest_time s) (s_rx_ect0 s)
    (s_rx_ect1 s) (s_rx_ecnce s) (s_rx_ack_eliciting_pkts_since_last_ack s) (s_rx_ack_flush_deadline s).

Record OSSL_ACKM_PROBE_INFO := mkProbe {
  anti_deadlock_initial : Z; anti_deadlock_handshake : Z; pto : spaces Z }.
#[export] Instance eta_probe : Eta OSSL_ACKM_PROBE_INFO := fun p =>
  mkProbe (anti_deadlock_initial p) (anti_deadlock_handshake p) (pto p).

(** Calls out of the manager. *)
Inductive ackm_event :=
| EvAcked (p : OSSL_ACKM_TX_PKT)
| EvLost (p : OSSL_ACKM_TX_PKT)
| EvDiscarded (p : OSSL_ACKM_TX_PKT)
| EvLossDeadline (deadline : OSSL_TIME)
| EvAckDeadline (deadline : OSSL_TIME) (pkt_space : pn_space).

Record OSSL_ACKM (D : Type) := mkAckm {
  a_space : spaces ackm_space;
  a_clk : nat; a_statm : OSSL_STATM; a_cc_data : D;
  a_pto_count : Z; a_loss_detection_deadline : OSSL_TIME; a_first_rtt_sample : OSSL_TIME;
  a_bytes_in_flight : Z;
  a_handshake_confirmed : bool; a_is_server : bool; a_peer_completed_addr_validation : bool;
  a_pending_probe : OSSL_ACKM_PROBE_INFO;
  a_rx_max_ack_delay : OSSL_TIME; a_tx_max_ack_delay : OSSL_TIME;
  a_has_loss_cb : bool; a_has_ack_cb : bool;
  a_events : list ackm_event }.
Arguments mkAckm {D}.
Arguments a_space {D}.
Arguments a_clk {D}.
Arguments a_statm {D}.
Arguments a_cc_data {D}.
Arguments a_pto_count {D}.
Arguments a_loss_detection_deadline {D}.
Arguments a_first_rtt_sample {D}.
Arguments a_bytes_in_flight {D}.
Arguments a_handshake_confirmed {D}.
Arguments a_is_server {D}.
Arguments a_peer_completed_addr_validation {D}.
Arguments a_pending_probe {D}.
Arguments a_rx_max_ack_delay {D}.
Arguments a_tx_max_ack_delay {D}.
Arguments a_has_loss_cb {D}.
Arguments a_has_ack_cb {D}.
Arguments a_events {D}.
#[export] Instance eta_ackm {D} : Eta (OSSL_ACKM D) := fun a =>
  mkAckm (a_space a) (a_clk a) (a_statm a) (a_cc_data a) (a_pto_count a) (a_loss_detection_deadline a)
    (a_first_rtt_sample a) (a_bytes_in_flight a) (a_handshake_confirmed a) (a_is_server a)
    (a_peer_completed_addr_validation a) (a_pending_probe a) (a_rx_max_ack_delay a) (a_tx_max_ack_delay a)
    (a_has_loss_cb a) (a_has_ack_cb a) (a_events a).

Definition min_u32 (x y : Z) : Z := if x <? y then x else y.

Definition U32_MOD : Z := 4294967296.
Definition inc32 (x : Z) : Z := (x + 1) mod U32_MOD.

Definition range_contains (range : OSSL_QUIC_ACK_RANGE) (pn : QUIC_PN) : bool :=
  (ar_start range <=? pn) && (pn <=? ar_end range).

(** [ackm->x[pkt_space] = ...] *)
Definition upd_space {D} (a : OSSL_ACKM D) (s : pn_space) (f : ackm_space -> ackm_space) : OSSL_ACKM D :=
  a <| a_space := sset (a_space a) s (f (sget (a_space a) s)) |>.

Definition emit {D} (a : OSSL_ACKM D) (e : ackm_event) : OSSL_ACKM D := a <| a_events := a_events a ++ [e] |>.

Section Ackm.
Context {D : Type} `{OSSL_CC_METHOD D}.
Context (now : nat -> OSSL_TIME).

Abbreviation ACKM := (OSSL_ACKM D).

(** A reading of the clock. *)
Definition read_now (a : ACKM) : OSSL_TIME * ACKM := (now (a_clk a), a <| a_clk := S (a_clk a) |>).

Definition upd_cc (a : ACKM) (f : D -> D) : ACKM := a <| a_cc_data := f (a_cc_data a) |>.

Definition ack_includes_ack_eliciting (pkts : list OSSL_ACKM_TX_PKT) : bool := existsb is_ack_eliciting pkts.

Definition ackm_ack_eliciting_bytes_in_flight (a : ACKM) : Z :=
  0 +u s_ack_eliciting_bytes_in_flight (sget (a_space a) QUIC_PN_SPACE_INITIAL)
    +u s_ack_eliciting_bytes_in_flight (sget (a_space a) QUIC_PN_SPACE_HANDSHAKE)
    +u s_ack_eliciting_bytes_in_flight (sget (a_space a) QUIC_PN_SPACE_APP).

(** *** Newly acknowledged packets *)

(** The inner loop: advance over the ranges above [pn].  [None]: all ranges are
    exhausted; otherwise whether [pn] is in the current range, and the ranges
    from it on. *)
Fixpoint match_ranges (ranges : list OSSL_QUIC_ACK_RANGE) (pn : QUIC_PN)
  : option (bool * list OSSL_QUIC_ACK_RANGE) :=
  match ranges with
  | [] => None
  | r :: rs =>
      if range_contains r pn then Some (true, ranges)
      else if ar_end r <? pn then Some (false, ranges)
      else match_ranges rs pn
  end.

(** The outer loop, over the packets from the highest down. *)
Fixpoint walk_acked (h : tx_pkt_history_st) (pkts : list OSSL_ACKM_TX_PKT) (ranges : list OSSL_QUIC_ACK_RANGE)
  : tx_pkt_history_st * list OSSL_ACKM_TX_PKT :=
  match pkts with
  | [] => (h, [])
  | pkt :: prev =>
      match match_ranges ranges (pkt_num pkt) with
      | None => (h, [])
      | Some (true, ranges') =>
          let '(h, acked) := walk_acked (fst (tx_pkt_history_remove h (pkt_num pkt))) prev ranges' in
          (h, pkt :: acked)
      | Some (false, ranges') => walk_acked h prev ranges'
      end
  end.

(** The packets from the one numbered [pn] backwards. *)
Fixpoint back_from (rpkts : list OSSL_ACKM_TX_PKT) (pn : QUIC_PN) : list OSSL_ACKM_TX_PKT :=
  match rpkts with
  | [] => []
  | p :: rest => if pkt_num p =? pn then rpkts else back_from rest pn
  end.

Definition frame_ranges (ack : OSSL_QUIC_FRAME_ACK) : list OSSL_QUIC_ACK_RANGE :=
  take (Z.to_nat (num_ack_ranges ack)) (ack_ranges ack).

(** [ack->ack_ranges[0].end]; the callers pass at least one range. *)
Definition first_end (ack : OSSL_QUIC_FRAME_ACK) : QUIC_PN :=
  match ack_ranges ack with r :: _ => ar_end r | [] => 0 end.

Definition ackm_detect_and_remove_newly_acked_pkts (a : ACKM) (ack : OSSL_QUIC_FRAME_ACK) (s : pn_space)
  : ACKM * list OSSL_ACKM_TX_PKT :=
  let h := s_tx_history (sget (a_space a) s) in
  let start :=
    match tx_pkt_history_by_pkt_num h (first_end ack) with
    | Some pkt => back_from (rev (h_packets h)) (pkt_num pkt)
    | None => rev (h_packets h)
    end in
  let '(h, acked) := walk_acked h start (frame_ranges ack) in
  (upd_space a s (fun sp => sp <| s_tx_history := h |>), acked).

(** *** Loss detection *)

Fixpoint walk_lost (largest_acked_pkt : QUIC_PN) (lost_send_time loss_delay : OSSL_TIME)
  (h : tx_pkt_history_st) (loss_time : OSSL_TIME) (pkts : list OSSL_ACKM_TX_PKT)
  : tx_pkt_history_st * OSSL_TIME * list OSSL_ACKM_TX_PKT :=
  match pkts with
  | [] => (h, loss_time, [])
  | pkt :: next =>
      if largest_acked_pkt <? pkt_num pkt then
        walk_lost largest_acked_pkt lost_send_time loss_delay h loss_time next
      else if (ossl_time_compare (pkt_time pkt) lost_send_time <=? 0)
              || (pkt_num pkt +u K_PKT_THRESHOLD <=? largest_acked_pkt) then
        let '(h, loss_time, lost) :=
          walk_lost largest_acked_pkt lost_send_time loss_delay
            (fst (tx_pkt_history_remove h (pkt_num pkt))) loss_time next in
        (h, loss_time, pkt :: lost)
      else
        let t := ossl_time_add (pkt_time pkt) loss_delay in
        walk_lost largest_acked_pkt lost_send_time loss_delay h
          (if ossl_time_is_zero loss_time then t else ossl_time_min loss_time t) next
  end.

Definition loss_delay_of (rtt : OSSL_RTT_INFO) : OSSL_TIME :=
  let loss_delay := ossl_time_multiply (ossl_time_max (ri_latest_rtt rtt) (ri_smoothed_rtt rtt)) K_TIME_THRESHOLD_NUM in
  let loss_delay := ossl_time_divide loss_delay K_TIME_THRESHOLD_DEN in
  ossl_time_max loss_delay (ossl_ticks2time K_GRANULARITY).

Definition ackm_detect_and_remove_lost_pkts (a : ACKM) (s : pn_space) : ACKM * list OSSL_ACKM_TX_PKT :=
  let rtt := ossl_statm_get_rtt_info (a_statm a) in
  let loss_delay := loss_delay_of rtt in
  let '(t, a) := read_now a in
  let lost_send_time := ossl_time_subtract t loss_delay in
  let sp := sget (a_space a) s in
  let h := s_tx_history sp in
  let '(h, loss_time, lost) :=
    walk_lost (s_largest_acked_pkt sp) lost_send_time loss_delay h ossl_time_zero (h_packets h) in
  (upd_space a s (fun sp => sp <| s_tx_history := h |> <| s_loss_time := loss_time |>), lost).

(** *** The loss detection timer *)

Definition loss_time_step (a : ACKM) (acc : OSSL_TIME * pn_space) (s : pn_space) : OSSL_TIME * pn_space :=
  let '(time, space) := acc in
  let t := s_loss_time (sget (a_space a) s) in
  if ossl_time_is_zero time || (ossl_time_compare t time =? -1) then (t, s) else (time, space).

Definition ackm_get_loss_time_and_space (a : ACKM) : OSSL_TIME * pn_space :=
  loss_time_step a
    (loss_time_step a (s_loss_time (sget (a_space a) QUIC_PN_SPACE_INITIAL), QUIC_PN_SPACE_INITIAL)
       QUIC_PN_SPACE_HANDSHAKE) QUIC_PN_SPACE_APP.

Definition pto_base (rtt : OSSL_RTT_INFO) : OSSL_TIME :=
  ossl_time_add (ri_smoothed_rtt rtt)
    (ossl_time_max (ossl_time_multiply (ri_rtt_variance rtt) 4) (ossl_ticks2time K_GRANULARITY)).

Definition pto_factor (a : ACKM) : Z := Z.shiftl 1 (min_u32 (a_pto_count a) MAX_PTO_COUNT).

(** One round of the loop over the spaces; [None] is its [break]. *)
Definition pto_round (a : ACKM) (duration : OSSL_TIME) (acc : OSSL_TIME * pn_space) (s : pn_space)
  : option (OSSL_TIME * pn_space) :=
  let '(pto_timeout, pto_space) := acc in
  let sp := sget (a_space a) s in
  if (s_ack_eliciting_bytes_in_flight sp =? 0) && (a_handshake_confirmed a || a_is_server a) then Some acc
  else if is_space s QUIC_PN_SPACE_APP && negb (a_handshake_confirmed a) then None
  else
    let duration :=
      if is_space s QUIC_PN_SPACE_APP && negb (ossl_time_is_infinite (a_rx_max_ack_delay a))
      then ossl_time_add duration (ossl_time_multiply (a_rx_max_ack_delay a) (pto_factor a))
      else duration in
    if negb (ossl_time_is_zero (s_time_of_last_ack_eliciting_pkt sp)) then
      let t := ossl_time_add (s_time_of_last_ack_eliciting_pkt sp) duration in
      Some (if ossl_time_compare t pto_timeout <? 0 then (t, s) else acc)
    else Some acc.

Fixpoint pto_loop (a : ACKM) (duration : OSSL_TIME) (acc : OSSL_TIME * pn_space) (ss : list pn_space)
  : OSSL_TIME * pn_space :=
  match ss with
  | [] => acc
  | s :: rest =>
      match pto_round a duration acc s with
      | None => acc
      | Some acc => pto_loop a duration acc rest
      end
  end.

Definition ackm_get_pto_time_and_space (a : ACKM) : OSSL_TIME * pn_space * ACKM :=
  let rtt := ossl_statm_get_rtt_info (a_statm a) in
  let duration := ossl_time_multiply (pto_base rtt) (pto_factor a) in
  if ackm_ack_eliciting_bytes_in_flight a =? 0 then
    let space := if s_discarded (sget (a_space a) QUIC_PN_SPACE_INITIAL)
                 then QUIC_PN_SPACE_HANDSHAKE else QUIC_PN_SPACE_INITIAL in
    let '(t, a) := read_now a in
    (ossl_time_add t duration, space, a)
  else
    (pto_loop a duration (ossl_time_infinite, QUIC_PN_SPACE_INITIAL)
       [QUIC_PN_SPACE_INITIAL; QUIC_PN_SPACE_HANDSHAKE; QUIC_PN_SPACE_APP], a).

Definition ackm_set_loss_detection_timer_actual (a : ACKM) (deadline : OSSL_TIME) : ACKM :=
  let a := a <| a_loss_detection_deadline := deadline |> in
  if a_has_loss_cb a then emit a (EvLossDeadline deadline) else a.

Definition ackm_set_loss_detection_timer (a : ACKM) : ACKM :=
  let '(earliest_loss_time, _) := ackm_get_loss_time_and_space a in
  if negb (ossl_time_is_zero earliest_loss_time) then
    ackm_set_loss_detection_timer_actual a earliest_loss_time
  else if (ackm_ack_eliciting_bytes_in_flight a =? 0) && a_peer_completed_addr_validation a then
    ackm_set_loss_detection_timer_actual a ossl_time_zero
  else
    let '(timeout, _, a) := ackm_get_pto_time_and_space a in
    ackm_set_loss_detection_timer_actual a timeout.

(** *** Reports to the owner and to the congestion controller *)

Definition ackm_in_persistent_congestion (a : ACKM) (lpkt : list OSSL_ACKM_TX_PKT) : bool := false.

(** [ackm->bytes_in_flight -= n], and the count of the packet's space. *)
Definition flight_sub (a : ACKM) (p : OSSL_ACKM_TX_PKT) : ACKM :=
  let a := a <| a_bytes_in_flight := a_bytes_in_flight a -u num_bytes p |> in
  if is_ack_eliciting p then
    upd_space a (pkt_space p) (fun sp =>
      sp <| s_ack_eliciting_bytes_in_flight := s_ack_eliciting_bytes_in_flight sp -u num_bytes p |>)
  else a.

Definition lost_one (pseudo : bool) (a : ACKM) (p : OSSL_ACKM_TX_PKT) : ACKM :=
  let a :=
    if is_inflight p then
      let a := flight_sub a p in
      if negb pseudo then upd_cc a (fun d => cc_on_data_lost d (mkAckInfo (pkt_time p) (num_bytes p))) else a
    else a in
  emit a (EvLost p).

Definition ackm_on_pkts_lost (a : ACKM) (s : pn_space) (lpkt : list OSSL_ACKM_TX_PKT) (pseudo : bool) : ACKM :=
  let a := foldl (lost_one pseudo) a lpkt in
  let flags := if negb (ossl_time_is_zero (a_first_rtt_sample a)) && ackm_in_persistent_congestion a lpkt
               then OSSL_CC_LOST_FLAG_PERSISTENT_CONGESTION else 0 in
  let '(t, a) := read_now a in
  upd_cc a (fun d => cc_on_data_lost_finished t d flags).

Definition acked_one (a : ACKM) (p : OSSL_ACKM_TX_PKT) : ACKM :=
  let a :=
    if is_inflight p then
      let a := flight_sub a p in
      if negb (largest_acked p =? QUIC_PN_INVALID) then
        upd_space a (pkt_space p) (fun sp =>
          sp <| s_rx_history := fst (rx_pkt_history_bump_watermark (s_rx_history sp) (largest_acked p +u 1)) |>)
      else a
    else a in
  let a := emit a (EvAcked p) in
  if is_inflight p then upd_cc a (fun d => cc_on_data_acked d (mkAckInfo (pkt_time p) (num_bytes p))) else a.

Definition ackm_on_pkts_acked (a : ACKM) (apkt : list OSSL_ACKM_TX_PKT) : ACKM := foldl acked_one a apkt.

(** *** Operations *)

Definition ack_frame_zero : OSSL_QUIC_FRAME_ACK := mkFrameAck [] 0 ossl_time_zero 0 0 0 false.

Definition space_new : ackm_space :=
  mkSpace tx_pkt_history_init rx_pkt_history_init QUIC_PN_INVALID ossl_time_zero ossl_time_zero 0 0
    false false false ack_frame_zero (replicate (Z.to_nat MAX_RX_ACK_RANGES) (mkAckRange 0 0))
    0 ossl_time_zero 0 0 0 0 ossl_time_infinite.

Definition ossl_ackm_new (statm : OSSL_STATM) (cc_data : D) (is_server : bool) : ACKM :=
  mkAckm (mkSpaces space_new space_new space_new) 0 statm cc_data 0 ossl_time_zero ossl_time_zero 0
    false is_server false (mkProbe 0 0 (mkSpaces 0 0 0))
    (ossl_ms2time QUIC_DEFAULT_MAX_ACK_DELAY) (ossl_ms2time QUIC_DEFAULT_MAX_ACK_DELAY) false false [].

Definition ossl_ackm_on_tx_packet (a : ACKM) (pkt : OSSL_ACKM_TX_PKT) : ACKM * bool :=
  let s := pkt_space pkt in
  let sp := sget (a_space a) s in
  if ossl_time_is_zero (pkt_time pkt)
     || (0 <? ossl_time_compare (s_time_of_last_ack_eliciting_pkt sp) (pkt_time pkt)) then (a, false)
  else if num_bytes pkt =? 0 then (a, false)
  else if negb (is_inflight pkt) && is_ack_eliciting pkt then (a, false)
  else
    match tx_pkt_history_add (s_tx_history sp) pkt with
    | (h, false) => (upd_space a s (fun sp => sp <| s_tx_history := h |>), false)
    | (h, true) =>
        let a := upd_space a s (fun sp => sp <| s_tx_history := h |>) in
        if is_inflight pkt then
          let a :=
            if is_ack_eliciting pkt then
              upd_space a s (fun sp =>
                sp <| s_time_of_last_ack_eliciting_pkt := pkt_time pkt |>
                   <| s_ack_eliciting_bytes_in_flight := s_ack_eliciting_bytes_in_flight sp +u num_bytes pkt |>)
            else a in
          let a := a <| a_bytes_in_flight := a_bytes_in_flight a +u num_bytes pkt |> in
          let a := ackm_set_loss_detection_timer a in
          (upd_cc a (fun d => cc_on_data_sent d (num_bytes pkt)), true)
        else (a, true)
    end.

Definition ossl_ackm_on_rx_datagram (a : ACKM) (num_bytes : Z) : ACKM * bool := (a, true).

Definition ackm_process_ecn (a : ACKM) (ack : OSSL_QUIC_FRAME_ACK) (s : pn_space) : ACKM :=
  if s_peer_ecnce (sget (a_space a) s) <? ack_ecnce ack then
    let a := upd_space a s (fun sp => sp <| s_peer_ecnce := ack_ecnce ack |>) in
    match tx_pkt_history_by_pkt_num (s_tx_history (sget (a_space a) s)) (first_end ack) with
    | None => a
    | Some pkt =>
        let '(t, a) := read_now a in
        upd_cc a (fun d => cc_on_ecn t d (pkt_time pkt))
    end
  else a.

(** The RTT sample taken when the largest acknowledged packet is new. *)
Definition ackm_sample_rtt (a : ACKM) (ack : OSSL_QUIC_FRAME_ACK) (na_pkts : list OSSL_ACKM_TX_PKT) : ACKM :=
  match na_pkts with
  | [] => a
  | p :: _ =>
      if (pkt_num p =? first_end ack) && ack_includes_ack_eliciting na_pkts then
        let '(t, a) := read_now a in
        let a := if ossl_time_is_zero (a_first_rtt_sample a) then a <| a_first_rtt_sample := t |> else a in
        let ack_delay := ack_delay_time ack in
        let ack_delay := if a_handshake_confirmed a then ossl_time_min ack_delay (a_rx_max_ack_delay a) else ack_delay in
        a <| a_statm := ossl_statm_update_rtt (a_statm a) ack_delay (ossl_time_subtract t (pkt_time p)) |>
      else a
  end.

Definition ossl_ackm_on_rx_ack_frame (a : ACKM) (ack : OSSL_QUIC_FRAME_ACK) (s : pn_space) (rx_time : OSSL_TIME)
  : ACKM * bool :=
  let a := upd_space a s (fun sp =>
    sp <| s_largest_acked_pkt := if s_largest_acked_pkt sp =? QUIC_PN_INVALID then first_end ack
                                 else ossl_quic_pn_max (s_largest_acked_pkt sp) (first_end ack) |>) in
  let must_set_timer := negb (a_peer_completed_addr_validation a) && is_space s QUIC_PN_SPACE_HANDSHAKE in
  let a := if must_set_timer then a <| a_peer_completed_addr_validation := true |> else a in
  let '(a, na_pkts) := ackm_detect_and_remove_newly_acked_pkts a ack s in
  match na_pkts with
  | [] => (if must_set_timer then ackm_set_loss_detection_timer a else a, true)
  | _ :: _ =>
      let a := ackm_sample_rtt a ack na_pkts in
      let a := if ack_ecn_present ack then ackm_process_ecn a ack s else a in
      let '(a, lost_pkts) := ackm_detect_and_remove_lost_pkts a s in
      let a := match lost_pkts with [] => a | _ :: _ => ackm_on_pkts_lost a s lost_pkts false end in
      let a := ackm_on_pkts_acked a na_pkts in
      let a := if a_peer_completed_addr_validation a then a <| a_pto_count := 0 |> else a in
      (ackm_set_loss_detection_timer a, true)
  end.

(** The loop over the packets of a discarded space: the bytes taken out. *)
Definition discard_one (acc : ACKM * Z) (p : OSSL_ACKM_TX_PKT) : ACKM * Z :=
  let '(a, inv) := acc in
  let '(a, inv) :=
    if is_inflight p then (a <| a_bytes_in_flight := a_bytes_in_flight a -u num_bytes p |>, inv +u num_bytes p)
    else (a, inv) in
  (emit a (EvDiscarded p), inv).

Definition ossl_ackm_on_pkt_space_discarded (a : ACKM) (s : pn_space) : ACKM * bool :=
  if s_discarded (sget (a_space a) s) then (a, false)
  else
    let a := if is_space s QUIC_PN_SPACE_HANDSHAKE then a <| a_peer_completed_addr_validation := true |> else a in
    let '(a, num_bytes_invalidated) := foldl discard_one (a, 0) (h_packets (s_tx_history (sget (a_space a) s))) in
    let a := upd_space a s (fun sp =>
      sp <| s_tx_history := tx_pkt_history_destroy (s_tx_history sp) |>
         <| s_rx_history := rx_pkt_history_destroy (s_rx_history sp) |>) in
    let a := if 0 <? num_bytes_invalidated
             then upd_cc a (fun d => cc_on_data_invalidated d num_bytes_invalidated) else a in
    let a := upd_space a s (fun sp =>
      sp <| s_time_of_last_ack_eliciting_pkt := ossl_time_zero |> <| s_loss_time := ossl_time_zero |>) in
    let a := a <| a_pto_count := 0 |> in
    let a := upd_space a s (fun sp =>
      sp <| s_discarded := true |> <| s_ack_eliciting_bytes_in_flight := 0 |>) in
    (ackm_set_loss_detection_timer a, true).

Definition ossl_ackm_on_handshake_confirmed (a : ACKM) : ACKM * bool :=
  let a := a <| a_handshake_confirmed := true |> <| a_peer_completed_addr_validation := true |> in
  (ackm_set_loss_detection_timer a, true).

Definition ackm_queue_probe_anti_deadlock_handshake (a : ACKM) : ACKM :=
  a <| a_pending_probe := (a_pending_probe a) <| anti_deadlock_handshake := inc32 (anti_deadlock_handshake (a_pending_probe a)) |> |>.

Definition ackm_queue_probe_anti_deadlock_initial (a : ACKM) : ACKM :=
  a <| a_pending_probe := (a_pending_probe a) <| anti_deadlock_initial := inc32 (anti_deadlock_initial (a_pending_probe a)) |> |>.

Definition ackm_queue_probe (a : ACKM) (s : pn_space) : ACKM :=
  let pr := a_pending_probe a in
  a <| a_pending_probe := pr <| pto := sset (pto pr) s (inc32 (sget (pto pr) s)) |> |>.

Definition ossl_ackm_on_timeout (a : ACKM) : ACKM * bool :=
  let '(earliest_loss_time, s) := ackm_get_loss_time_and_space a in
  if negb (ossl_time_is_zero earliest_loss_time) then
    let '(a, lost_pkts) := ackm_detect_and_remove_lost_pkts a s in
    let a := match lost_pkts with [] => a | _ :: _ => ackm_on_pkts_lost a s lost_pkts false end in
    (ackm_set_loss_detection_timer a, true)
  else
    let a :=
      if ackm_ack_eliciting_bytes_in_flight a =? 0 then
        if s_discarded (sget (a_space a) QUIC_PN_SPACE_INITIAL)
        then ackm_queue_probe_anti_deadlock_handshake a
        else ackm_queue_probe_anti_deadlock_initial a
      else
        let '(_, s, a) := ackm_get_pto_time_and_space a in
        ackm_queue_probe a s in
    let a := a <| a_pto_count := inc32 (a_pto_count a) |> in
    (ackm_set_loss_detection_timer a, true).

Definition ossl_ackm_get_loss_detection_deadline (a : ACKM) : OSSL_TIME := a_loss_detection_deadline a.

Definition ossl_ackm_get0_probe_request (a : ACKM) : OSSL_ACKM_PROBE_INFO := a_pending_probe a.

Definition ossl_ackm_get_largest_unacked (a : ACKM) (s : pn_space) : option QUIC_PN :=
  pkt_num <$> last (h_packets (s_tx_history (sget (a_space a) s))).

(** *** Generating ACK frames *)

Definition ossl_ackm_is_ack_desired (a : ACKM) (s : pn_space) : bool * ACKM :=
  let sp := sget (a_space a) s in
  if s_rx_ack_desired sp then (true, a)
  else if negb (ossl_time_is_infinite (s_rx_ack_flush_deadline sp)) then
    let '(t, a) := read_now a in
    (0 <=? ossl_time_compare t (s_rx_ack_flush_deadline sp), a)
  else (false, a).

Definition ack_contains (ack : OSSL_QUIC_FRAME_ACK) (pn : QUIC_PN) : bool :=
  existsb (fun r => range_contains r pn) (frame_ranges ack).

Definition ackm_is_missing (a : ACKM) (s : pn_space) (pn : QUIC_PN) : bool :=
  let ack := s_ack (sget (a_space a) s) in
  (0 <? num_ack_ranges ack) && (pn <=? first_end ack) && negb (ack_contains ack pn).

Definition ackm_has_newly_missing (a : ACKM) (s : pn_space) : bool :=
  let sp := sget (a_space a) s in
  match last (rh_set (s_rx_history sp)) with
  | None => false
  | Some r =>
      (0 <? num_ack_ranges (s_ack sp)) && (r_start r =? r_end r) && (first_end (s_ack sp) +u 1 <? r_start r)
  end.

Definition ossl_ackm_get_ack_deadline (a : ACKM) (s : pn_space) : OSSL_TIME :=
  let sp := sget (a_space a) s in
  if s_rx_ack_desired sp then ossl_time_zero else s_rx_ack_flush_deadline sp.

Definition ackm_set_flush_deadline (a : ACKM) (s : pn_space) (deadline : OSSL_TIME) : ACKM :=
  let a := upd_space a s (fun sp => sp <| s_rx_ack_flush_deadline := deadline |>) in
  if a_has_ack_cb a then emit a (EvAckDeadline (ossl_ackm_get_ack_deadline a s) s) else a.

Definition ackm_queue_ack (a : ACKM) (s : pn_space) : ACKM :=
  let a := upd_space a s (fun sp => sp <| s_rx_ack_desired := true |>) in
  ackm_set_flush_deadline a s ossl_time_infinite.

Definition ackm_on_rx_ack_eliciting (a : ACKM) (rx_time : OSSL_TIME) (s : pn_space) (was_missing : bool) : ACKM :=
  if s_rx_ack_desired (sget (a_space a) s) then a
  else
    let a := upd_space a s (fun sp =>
      sp <| s_rx_ack_eliciting_pkts_since_last_ack := inc32 (s_rx_ack_eliciting_pkts_since_last_ack sp) |>) in
    let sp := sget (a_space a) s in
    if negb (s_rx_ack_generated sp) || was_missing
       || (PKTS_BEFORE_ACK <=? s_rx_ack_eliciting_pkts_since_last_ack sp)
       || ackm_has_newly_missing a s
    then ackm_queue_ack a s
    else
      let tx_max_ack_delay :=
        if is_space s QUIC_PN_SPACE_INITIAL || is_space s QUIC_PN_SPACE_HANDSHAKE
        then ossl_time_zero else a_tx_max_ack_delay a in
      if ossl_time_is_infinite (s_rx_ack_flush_deadline sp)
      then ackm_set_flush_deadline a s (ossl_time_add rx_time tx_max_ack_delay)
      else ackm_set_flush_deadline a s
             (ossl_time_min (s_rx_ack_flush_deadline sp) (ossl_time_add rx_time tx_max_ack_delay)).

Definition ossl_ackm_is_rx_pn_processable (a : ACKM) (pn : QUIC_PN) (s : pn_space) : bool :=
  let h := s_rx_history (sget (a_space a) s) in
  (rh_watermark h <=? pn) && negb (ossl_uint_set_query (rh_set h) pn).

Definition OSSL_ACKM_ECN_NONE : Z := 0.
Definition OSSL_ACKM_ECN_ECT1 : Z := 1.
Definition OSSL_ACKM_ECN_ECT0 : Z := 2.
Definition OSSL_ACKM_ECN_ECNCE : Z := 3.

Record OSSL_ACKM_RX_PKT := mkRxPkt {
  rp_pkt_num : QUIC_PN; rp_time : OSSL_TIME; rp_pkt_space : pn_space;
  rp_is_ack_eliciting : bool; rp_ecn : Z }.

Definition ossl_ackm_on_rx_packet (alloc : bool) (a : ACKM) (pkt : OSSL_ACKM_RX_PKT) : ACKM * bool :=
  let s := rp_pkt_space pkt in
  if negb (ossl_ackm_is_rx_pn_processable a (rp_pkt_num pkt) s) then (a, true)
  else
    let a := if s_rx_largest_pn (sget (a_space a) s) <? rp_pkt_num pkt
             then upd_space a s (fun sp =>
                    sp <| s_rx_largest_pn := rp_pkt_num pkt |> <| s_rx_largest_time := rp_time pkt |>)
             else a in
    let was_missing := ackm_is_missing a s (rp_pkt_num pkt) in
    let '(h, ok) := rx_pkt_history_add_pn alloc (s_rx_history (sget (a_space a) s)) (rp_pkt_num pkt) in
    let a := upd_space a s (fun sp => sp <| s_rx_history := h |>) in
    if negb ok then (a, false)
    else
      let a := if rp_is_ack_eliciting pkt then ackm_on_rx_ack_eliciting a (rp_time pkt) s was_missing else a in
      let a :=
        if rp_ecn pkt =? OSSL_ACKM_ECN_ECT0 then upd_space a s (fun sp => sp <| s_rx_ect0 := s_rx_ect0 sp +u 1 |>)
        else if rp_ecn pkt =? OSSL_ACKM_ECN_ECT1 then upd_space a s (fun sp => sp <| s_rx_ect1 := s_rx_ect1 sp +u 1 |>)
        else if rp_ecn pkt =? OSSL_ACKM_ECN_ECNCE then upd_space a s (fun sp => sp <| s_rx_ecnce := s_rx_ecnce sp +u 1 |>)
        else a in
      (a, true).

(** [OSSL_NELEM(ackm->ack_ranges)]: the array has one row of
    [MAX_RX_ACK_RANGES] ranges per packet number space, so this is the number
    of rows. *)
Definition NELEM_ack_ranges : Z := QUIC_PN_SPACE_NUM.

(** Copies the ranges from the highest down; gives the array and the count. *)
Definition ackm_fill_rx_ack_ranges (a : ACKM) (s : pn_space) : ACKM :=
  let sp := sget (a_space a) s in
  let copied := (fun r => mkAckRange (r_start r) (r_end r)) <$>
                  take (Z.to_nat NELEM_ack_ranges) (rev (rh_set (s_rx_history sp))) in
  let arr := copied ++ drop (length copied) (s_ack_ranges sp) in
  upd_space a s (fun sp =>
    sp <| s_ack_ranges := arr |>
       <| s_ack := (s_ack sp) <| ack_ranges := arr |> <| num_ack_ranges := zlen copied |> |>).

Definition ossl_ackm_get_ack_frame (a : ACKM) (s : pn_space) : ACKM * OSSL_QUIC_FRAME_ACK :=
  let '(t, a) := read_now a in
  let a := ackm_fill_rx_ack_ranges a s in
  let sp := sget (a_space a) s in
  let delay :=
    if negb (ossl_time_is_zero (s_rx_largest_time sp))
       && (0 <? ossl_time_compare t (s_rx_largest_time sp)) && is_space s QUIC_PN_SPACE_APP
    then ossl_time_subtract t (s_rx_largest_time sp) else ossl_time_zero in
  let a := upd_space a s (fun sp =>
    sp <| s_ack := (s_ack sp) <| ack_delay_time := delay |> <| ack_ect0 := s_rx_ect0 sp |>
                     <| ack_ect1 := s_rx_ect1 sp |> <| ack_ecnce := s_rx_ecnce sp |> <| ack_ecn_present := true |> |>
       <| s_rx_ack_eliciting_pkts_since_last_ack := 0 |>
       <| s_rx_ack_generated := true |> <| s_rx_ack_desired := false |>) in
  let a := ackm_set_flush_deadline a s ossl_time_infinite in
  (a, s_ack (sget (a_space a) s)).

(** *** Configuration and the rest *)

Definition ossl_ackm_set_loss_detection_deadline_callback (a : ACKM) (fn : bool) : ACKM := a <| a_has_loss_cb := fn |>.

Definition ossl_ackm_set_ack_deadline_callback (a : ACKM) (fn : bool) : ACKM := a <| a_has_ack_cb := fn |>.

Definition ossl_ackm_mark_packet_pseudo_lost (a : ACKM) (s : pn_space) (pn : QUIC_PN) : ACKM * bool :=
  let h := s_tx_history (sget (a_space a) s) in
  match tx_pkt_history_by_pkt_num h pn with
  | None => (a, false)
  | Some pkt =>
      let h := fst (tx_pkt_history_remove h (pkt_num pkt)) in
      let a := upd_space a s (fun sp => sp <| s_tx_history := h |>) in
      (ackm_on_pkts_lost a s [pkt] true, true)
  end.

Definition ossl_ackm_get_pto_duration (a : ACKM) : OSSL_TIME :=
  let duration := pto_base (ossl_statm_get_rtt_info (a_statm a)) in
  if negb (ossl_time_is_infinite (a_rx_max_ack_delay a))
  then ossl_time_add duration (a_rx_max_ack_delay a) else duration.

Definition ossl_ackm_get_largest_acked (a : ACKM) (s : pn_space) : QUIC_PN := s_largest_acked_pkt (sget (a_space a) s).

Definition ossl_ackm_set_rx_max_ack_delay (a : ACKM) (d : OSSL_TIME) : ACKM := a <| a_rx_max_ack_delay := d |>.

Definition ossl_ackm_set_tx_max_ack_delay (a : ACKM) (d : OSSL_TIME) : ACKM := a <| a_tx_max_ack_delay := d |>.
End Ackm.
