(* ===== verification/AckmTx.v ===== *)
(** * ACK manager, transmit side: history, acknowledgement, loss, accounting *)

From S2P Require Import Prelude OsslTime Congestion CcMethod Packet Wire Ackm.

(** ** The history of transmitted packets *)

Definition pn_lt (p q : OSSL_ACKM_TX_PKT) : Prop := pkt_num p < pkt_num q.

Definition pkt_ok (s : pn_space) (p : OSSL_ACKM_TX_PKT) : Prop :=
  pkt_space p = s /\ 0 <= pkt_num p <= OSSL_QUIC_VLINT_MAX /\ 0 < num_bytes p /\
  (is_ack_eliciting p = true -> is_inflight p = true) /\ u64 (pkt_time p) /\
  u64 (largest_acked p).

(** The list is sorted, and a packet is in the hash table if and only if it is
    in the list. *)
Record hist_ok (s : pn_space) (h : tx_pkt_history_st) : Prop := {
  hist_sorted : StronglySorted pn_lt (h_packets h);
  hist_map : forall pn p, h_map h !! pn = Some p <-> p ∈ h_packets h /\ pkt_num p = pn;
  hist_pkts : Forall (pkt_ok s) (h_packets h);
  hist_below : Forall (fun p => pkt_num p < h_watermark h) (h_packets h) }.

Lemma sorted_unique (l : list OSSL_ACKM_TX_PKT) (p q : OSSL_ACKM_TX_PKT) :
  StronglySorted pn_lt l -> p ∈ l -> q ∈ l -> pkt_num p = pkt_num q -> p = q.
Proof.
  induction 1 as [|x l Hl IH Hx]; [by intros []%elem_of_nil|]. rewrite Forall_forall in Hx.
  intros [->|Hp]%elem_of_cons [->|Hq]%elem_of_cons He; auto.
  - specialize (Hx _ Hq). unfold pn_lt in Hx. lia.
  - specialize (Hx _ Hp). unfold pn_lt in Hx. lia.
Qed.

Lemma elem_of_filter_b {A} (f : A -> bool) (l : list A) (x : A) : x ∈ List.filter f l <-> f x = true /\ x ∈ l.
Proof. rewrite !list_elem_of_In, filter_In. tauto. Qed.

Lemma sorted_filter_b {A} (R : A -> A -> Prop) (f : A -> bool) (l : list A) :
  StronglySorted R l -> StronglySorted R (List.filter f l).
Proof.
  induction 1 as [|x l Hl IH Hx]; cbn; [constructor|]. case_match; [|done]. constructor; [done|].
  rewrite Forall_forall in *. intros y [_ Hy]%elem_of_filter_b. auto.
Qed.

Lemma Forall_filter_b {A} (P : A -> Prop) (f : A -> bool) (l : list A) : Forall P l -> Forall P (List.filter f l).
Proof. rewrite !Forall_forall. intros Hl x [_ Hx]%elem_of_filter_b. auto. Qed.

Lemma filter_split {A} (f : A -> bool) (l : list A) :
  l ≡ₚ List.filter f l ++ List.filter (fun x => negb (f x)) l.
Proof.
  induction l as [|x l IH]; [done|]. cbn. destruct (f x); cbn; [by constructor|].
  rewrite <- Permutation_middle. by constructor.
Qed.

Lemma filter_all {A} (f : A -> bool) (l : list A) : (forall x, x ∈ l -> f x = true) -> List.filter f l = l.
Proof.
  induction l as [|x l IH]; [done|]. intros Hl. cbn. rewrite Hl by set_solver. rewrite IH; set_solver.
Qed.

Lemma filter_none {A} (f : A -> bool) (l : list A) : (forall x, x ∈ l -> f x = false) -> List.filter f l = [].
Proof.
  induction l as [|x l IH]; [done|]. intros Hl. cbn. rewrite Hl by set_solver. apply IH. set_solver.
Qed.

Lemma filter_ext_in_b {A} (f g : A -> bool) (l : list A) :
  (forall x, x ∈ l -> f x = g x) -> List.filter f l = List.filter g l.
Proof. intros Hl. apply filter_ext_in. intros x Hx%list_elem_of_In. auto. Qed.

(** Keeping the packets that satisfy [f]. *)
Definition hist_keep (f : OSSL_ACKM_TX_PKT -> bool) (h : tx_pkt_history_st) : list OSSL_ACKM_TX_PKT :=
  List.filter f (h_packets h).

(** Removing the packet with a given number. *)
Lemma remove_ok (s : pn_space) (h : tx_pkt_history_st) (p : OSSL_ACKM_TX_PKT) :
  hist_ok s h -> p ∈ h_packets h ->
  exists h', tx_pkt_history_remove h (pkt_num p) = (h', true) /\ hist_ok s h' /\
    h_packets h' = hist_keep (fun q => negb (pkt_num q =? pkt_num p)) h /\ h_watermark h' = h_watermark h.
Proof.
  intros [Hs Hm Hp Hb] Hin. unfold tx_pkt_history_remove, tx_pkt_history_by_pkt_num.
  rewrite (proj2 (Hm (pkt_num p) p)) by done. eexists. split; [reflexivity|]. split_and!; [|done|done].
  constructor; cbn.
  - by apply sorted_filter_b.
  - intros pn q. rewrite lookup_delete_Some, Hm. unfold list_remove_pkt. rewrite elem_of_filter_b, negb_true_iff, Z.eqb_neq.
    intuition congruence.
  - by apply Forall_filter_b.
  - by apply Forall_filter_b.
Qed.

Lemma add_ok (s : pn_space) (h : tx_pkt_history_st) (p : OSSL_ACKM_TX_PKT) :
  hist_ok s h -> pkt_ok s p ->
  (h_watermark h <= pkt_num p ->
     exists h', tx_pkt_history_add h p = (h', true) /\ hist_ok s h' /\ h_packets h' = h_packets h ++ [p] /\
       h_watermark h' = pkt_num p + 1) /\
  (pkt_num p < h_watermark h -> tx_pkt_history_add h p = (h, false)).
Proof.
  intros [Hs Hm Hp Hb] Hpk. pose proof max_vlint_u64. unfold tx_pkt_history_add.
  destruct Hpk as (Hsp & Hn & Hnb & Hae). split; intros Hw.
  2:{ by rewrite (proj2 (Z.leb_gt _ _)) by lia. }
  rewrite (proj2 (Z.leb_le _ _)) by lia. cbn [negb]. unfold tx_pkt_history_add_actual.
  destruct (h_map h !! pkt_num p) as [q|] eqn:Hq.
  { apply Hm in Hq as [Hq He]. rewrite Forall_forall in Hb. specialize (Hb _ Hq). lia. }
  eexists. split; [reflexivity|]. rewrite add64_small by u64_side. split_and!; [|done|done].
  constructor; cbn; rewrite Forall_forall in *.
  - apply StronglySorted_app; split_and!; [|done|by repeat constructor].
    intros x1 x2 Hx1 ->%list_elem_of_singleton. specialize (Hb _ Hx1). unfold pn_lt. lia.
  - intros pn q. rewrite lookup_insert_Some, Hm, elem_of_app, list_elem_of_singleton.
    split.
    + intros [[<- ->]|[Hne [Hin He]]]; auto.
    + intros [[Hin| ->] He]; [|by left]. right. split; [|done]. specialize (Hb _ Hin). lia.
  - intros q [Hin|Hin]%elem_of_app; [by apply Hp|]. apply list_elem_of_singleton in Hin as ->. done.
  - intros q [Hin|Hin]%elem_of_app; [specialize (Hb _ Hin); lia|]. apply list_elem_of_singleton in Hin as ->. lia.
Qed.

(** *** Removing packets one by one, as the two walks do *)

Definition removed (ns : list OSSL_ACKM_TX_PKT) (q : OSSL_ACKM_TX_PKT) : bool :=
  existsb (fun p => pkt_num p =? pkt_num q) ns.

Lemma filter_filter_b {A} (f g : A -> bool) (l : list A) :
  List.filter f (List.filter g l) = List.filter (fun x => g x && f x) l.
Proof. induction l as [|x l IH]; [done|]. cbn. destruct (g x); cbn; [destruct (f x); by rewrite IH|done]. Qed.

(** What both walks leave: the history without the packets they took out. *)
Definition walk_post (s : pn_space) (h h' : tx_pkt_history_st) (out : list OSSL_ACKM_TX_PKT) : Prop :=
  hist_ok s h' /\ h_watermark h' = h_watermark h /\
  h_packets h' = hist_keep (fun q => negb (removed out q)) h.

Lemma walk_post_nil (s : pn_space) (h : tx_pkt_history_st) : hist_ok s h -> walk_post s h h [].
Proof. intros Hok. split_and!; auto. unfold hist_keep. rewrite filter_all; auto. Qed.

Lemma walk_post_cons (s : pn_space) (h h' : tx_pkt_history_st) (p : OSSL_ACKM_TX_PKT) (out : list OSSL_ACKM_TX_PKT) :
  hist_ok s h -> p ∈ h_packets h ->
  (hist_ok s (fst (tx_pkt_history_remove h (pkt_num p))) ->
     walk_post s (fst (tx_pkt_history_remove h (pkt_num p))) h' out) ->
  walk_post s h h' (p :: out).
Proof.
  intros Hok Hin Hw. destruct (remove_ok s h p Hok Hin) as (h1 & Hr & Hok1 & Hpk & Hwm).
  rewrite Hr in Hw. cbn in Hw. destruct (Hw Hok1) as (Hok' & Hwm' & Hpk'). split_and!; [done|congruence|].
  rewrite Hpk'. unfold hist_keep. rewrite Hpk. unfold hist_keep. rewrite filter_filter_b.
  apply filter_ext_in_b. intros q _. cbn. rewrite negb_orb, (Z.eqb_sym (pkt_num p)). done.
Qed.

(** Packets still to be visited stay in the history. *)
Lemma removed_other (s : pn_space) (h : tx_pkt_history_st) (p q : OSSL_ACKM_TX_PKT) :
  hist_ok s h -> p ∈ h_packets h -> q ∈ h_packets h -> pkt_num q <> pkt_num p ->
  q ∈ h_packets (fst (tx_pkt_history_remove h (pkt_num p))).
Proof.
  intros Hok Hp Hq Hne. destruct (remove_ok s h p Hok Hp) as (h1 & -> & _ & Hpk & _). cbn. rewrite Hpk.
  unfold hist_keep. by rewrite elem_of_filter_b, negb_true_iff, Z.eqb_neq.
Qed.

(** *** Which packets an ACK frame acknowledges *)

Definition in_ranges (rs : list OSSL_QUIC_ACK_RANGE) (p : OSSL_ACKM_TX_PKT) : bool :=
  existsb (fun r => range_contains r (pkt_num p)) rs.

(** Ranges in strictly descending order. *)
Definition range_gt (r r' : OSSL_QUIC_ACK_RANGE) : Prop := ar_end r' < ar_start r.
Definition ranges_desc (rs : list OSSL_QUIC_ACK_RANGE) : Prop :=
  StronglySorted range_gt rs /\ Forall (fun r => ar_start r <= ar_end r) rs.

Lemma range_contains_spec (r : OSSL_QUIC_ACK_RANGE) (pn : Z) :
  range_contains r pn = true <-> ar_start r <= pn <= ar_end r.
Proof. unfold range_contains. rewrite andb_true_iff, !Z.leb_le. done. Qed.

Lemma ranges_desc_cons (r : OSSL_QUIC_ACK_RANGE) (rs : list OSSL_QUIC_ACK_RANGE) : ranges_desc (r :: rs) ->
  ar_start r <= ar_end r /\ ranges_desc rs /\ forall r', r' ∈ rs -> ar_end r' < ar_start r.
Proof.
  intros [Hs Hf]. apply StronglySorted_cons in Hs as [Hr Hs]. apply Forall_cons in Hf as [H1 Hf].
  split_and!; [done|by split|]. by apply Forall_forall.
Qed.

Lemma match_ranges_spec (rs : list OSSL_QUIC_ACK_RANGE) (pn : Z) : ranges_desc rs ->
  match match_ranges rs pn with
  | None => forall r, r ∈ rs -> pn < ar_start r
  | Some (b, rs') =>
      ranges_desc rs' /\ existsb (fun r => range_contains r pn) rs = b /\
      forall pn', pn' < pn -> existsb (fun r => range_contains r pn') rs = existsb (fun r => range_contains r pn') rs'
  end.
Proof.
  induction rs as [|r rs IH]; intros Hd; [by intros ? []%elem_of_nil|]. cbn [match_ranges existsb].
  destruct (ranges_desc_cons _ _ Hd) as (Hr & Hd' & Hlt).
  destruct (range_contains r pn) eqn:Hc; [done|].
  destruct (Z.ltb_spec (ar_end r) pn) as [He|He].
  - split_and!; [done| |done]. cbn [orb]. apply not_true_is_false. rewrite existsb_exists.
    intros (r' & Hin%list_elem_of_In & Hc'%range_contains_spec). specialize (Hlt _ Hin). lia.
  - assert (pn < ar_start r) as Hlow.
    { destruct (Z.lt_ge_cases pn (ar_start r)); [done|].
      assert (range_contains r pn = true) by (apply range_contains_spec; lia). congruence. }
    specialize (IH Hd'). destruct (match_ranges rs pn) as [[b rs']|].
    + destruct IH as (H1 & H2 & H3). split_and!; [done|done|]. intros pn' Hp. rewrite <- H3 by done.
      assert (range_contains r pn' = false) as ->; [|done]. apply not_true_is_false.
      rewrite range_contains_spec. lia.
    + intros r' [->|Hin]%elem_of_cons; [done|by apply IH].
Qed.

Definition pn_gt (p q : OSSL_ACKM_TX_PKT) : Prop := pkt_num q < pkt_num p.

Lemma walk_acked_spec (s : pn_space) (pkts : list OSSL_ACKM_TX_PKT) : forall h rs h' acked,
  hist_ok s h -> ranges_desc rs -> StronglySorted pn_gt pkts -> (forall p, p ∈ pkts -> p ∈ h_packets h) ->
  walk_acked h pkts rs = (h', acked) ->
  acked = List.filter (in_ranges rs) pkts /\ walk_post s h h' acked.
Proof.
  induction pkts as [|p pkts IH]; intros h rs h' acked Hok Hd Hs Hin Hw; cbn [walk_acked] in Hw.
  { injection Hw as <- <-. split; [done|by apply walk_post_nil]. }
  apply StronglySorted_cons in Hs as [Hp Hs]. rewrite Forall_forall in Hp.
  pose proof (match_ranges_spec rs (pkt_num p) Hd) as Hm. cbn [List.filter].
  assert (Hin' : forall q, q ∈ pkts -> q ∈ h_packets h) by (intros; apply Hin; set_solver).
  assert (Hpin : p ∈ h_packets h) by (apply Hin; set_solver).
  destruct (match_ranges rs (pkt_num p)) as [[[] rs']|].
  - destruct Hm as (Hd' & Hm1 & Hm2). unfold in_ranges at 1. rewrite Hm1.
    destruct (walk_acked _ _ _) as [h1 acked'] eqn:Hw'. injection Hw as <- <-.
    assert (Hok1 : hist_ok s (fst (tx_pkt_history_remove h (pkt_num p)))).
    { destruct (remove_ok s h p Hok Hpin) as (h2 & -> & ? & _). done. }
    apply IH in Hw' as [-> Hpost]; auto.
    2:{ intros q Hq. apply removed_other with s; auto. specialize (Hp _ Hq). unfold pn_gt in Hp. lia. }
    assert (Heq : List.filter (in_ranges rs') pkts = List.filter (in_ranges rs) pkts).
    { apply filter_ext_in_b. intros q Hq. unfold in_ranges. symmetry. apply Hm2. by apply Hp. }
    split; [by rewrite Heq|]. apply walk_post_cons; auto.
  - destruct Hm as (Hd' & Hm1 & Hm2). unfold in_ranges at 1. rewrite Hm1.
    destruct (IH _ _ _ _ Hok Hd' Hs Hin' Hw) as [-> Hpost].
    assert (Heq : List.filter (in_ranges rs') pkts = List.filter (in_ranges rs) pkts).
    { apply filter_ext_in_b. intros q Hq. unfold in_ranges. symmetry. apply Hm2. by apply Hp. }
    by rewrite <- Heq.
  - injection Hw as <- <-.
    assert (Hnone : forall q, pkt_num q <= pkt_num p -> in_ranges rs q = false).
    { intros q Hq. apply not_true_is_false. unfold in_ranges. rewrite existsb_exists.
      intros (r & Hr%list_elem_of_In & Hc%range_contains_spec). specialize (Hm _ Hr). lia. }
    rewrite (Hnone p) by lia. rewrite filter_none; [split; [done|by apply walk_post_nil]|].
    intros q Hq. apply Hnone. specialize (Hp _ Hq). unfold pn_gt in Hp. lia.
Qed.

(** *** The optimised walk over an ACK frame *)

Lemma sorted_rev (l : list OSSL_ACKM_TX_PKT) : StronglySorted pn_lt l -> StronglySorted pn_gt (rev l).
Proof.
  induction 1 as [|p l Hl IH Hp]; cbn; [constructor|]. apply StronglySorted_app. split_and!; [|done|by repeat constructor].
  rewrite Forall_forall in Hp. intros x y Hx ->%list_elem_of_singleton. apply Hp.
  rewrite list_elem_of_In, <- in_rev, <- list_elem_of_In in Hx. done.
Qed.

Lemma elem_of_rev_pkts (l : list OSSL_ACKM_TX_PKT) (p : OSSL_ACKM_TX_PKT) : p ∈ rev l <-> p ∈ l.
Proof. by rewrite !list_elem_of_In, <- in_rev. Qed.

(** Skipping to packet [pn] only skips packets above it. *)
Lemma back_from_spec (l : list OSSL_ACKM_TX_PKT) (p : OSSL_ACKM_TX_PKT) (f : OSSL_ACKM_TX_PKT -> bool) :
  StronglySorted pn_gt l -> p ∈ l -> (forall q, pkt_num p < pkt_num q -> f q = false) ->
  StronglySorted pn_gt (back_from l (pkt_num p)) /\
  (forall q, q ∈ back_from l (pkt_num p) -> q ∈ l) /\
  List.filter f (back_from l (pkt_num p)) = List.filter f l.
Proof.
  intros Hs Hin Hf. induction Hs as [|x l Hs IH Hx]; [by apply elem_of_nil in Hin|]. cbn [back_from].
  destruct (Z.eqb_spec (pkt_num x) (pkt_num p)) as [He|He]; [by split_and!; [constructor| |]|].
  apply elem_of_cons in Hin as [->|Hin]; [done|]. destruct (IH Hin) as (H1 & H2 & H3). split_and!; [done| |].
  - intros q Hq. set_solver.
  - cbn. rewrite Forall_forall in Hx. specialize (Hx _ Hin). unfold pn_gt in Hx. rewrite (Hf x) by lia. done.
Qed.

Lemma rev_filter {A} (f : A -> bool) (l : list A) : List.filter f (rev l) = rev (List.filter f l).
Proof. induction l as [|x l IH]; [done|]. cbn. rewrite List.filter_app, IH. cbn. by destruct (f x); cbn; rewrite ?app_nil_r. Qed.

Lemma above_first_not_in (r0 : OSSL_QUIC_ACK_RANGE) (rs : list OSSL_QUIC_ACK_RANGE) (q : OSSL_ACKM_TX_PKT) :
  ranges_desc (r0 :: rs) -> ar_end r0 < pkt_num q -> in_ranges (r0 :: rs) q = false.
Proof.
  intros (Hr & _ & Hlt)%ranges_desc_cons Hq. apply not_true_is_false. unfold in_ranges. rewrite existsb_exists.
  intros (r & Hin%list_elem_of_In & Hc%range_contains_spec). apply elem_of_cons in Hin as [->|Hin]; [lia|].
  specialize (Hlt _ Hin). lia.
Qed.

(** A frame that can be processed: at least one range, descending. *)
Definition ack_frame_ok (ack : OSSL_QUIC_FRAME_ACK) : Prop :=
  0 < num_ack_ranges ack /\ frame_ranges ack <> [] /\ ranges_desc (frame_ranges ack).

Lemma first_end_frame (ack : OSSL_QUIC_FRAME_ACK) : ack_frame_ok ack ->
  exists r0 rs, frame_ranges ack = r0 :: rs /\ first_end ack = ar_end r0.
Proof.
  intros (Hn & Hne & _). unfold frame_ranges, first_end in *. destruct (ack_ranges ack) as [|r l].
  { by destruct (Z.to_nat _). }
  destruct (Z.to_nat (num_ack_ranges ack)) eqn:E; [lia|]. cbn. by eexists _, _.
Qed.

(** *** Which packets are declared lost *)

(** The two thresholds of RFC 9002, section 6.1. *)
Definition is_lost (largest : QUIC_PN) (lost_send_time : OSSL_TIME) (p : OSSL_ACKM_TX_PKT) : bool :=
  (pkt_num p <=? largest)
  && ((pkt_time p <=? lost_send_time) || (pkt_num p + K_PKT_THRESHOLD <=? largest)).

(** Packets below the largest acknowledged that are not lost yet. *)
Definition is_pending (largest : QUIC_PN) (lost_send_time : OSSL_TIME) (p : OSSL_ACKM_TX_PKT) : bool :=
  (pkt_num p <=? largest) && negb (is_lost largest lost_send_time p).

Definition time_fold (delay : OSSL_TIME) (t : OSSL_TIME) (p : OSSL_ACKM_TX_PKT) : OSSL_TIME :=
  let u := ossl_time_add (pkt_time p) delay in
  if ossl_time_is_zero t then u else ossl_time_min t u.

Lemma walk_lost_spec (s : pn_space) (largest lst delay : Z) (pkts : list OSSL_ACKM_TX_PKT) : forall h t h' t' lost,
  hist_ok s h -> StronglySorted pn_lt pkts -> (forall p, p ∈ pkts -> p ∈ h_packets h) ->
  walk_lost largest lst delay h t pkts = (h', t', lost) ->
  lost = List.filter (is_lost largest lst) pkts /\ walk_post s h h' lost /\
  t' = foldl (time_fold delay) t (List.filter (is_pending largest lst) pkts).
Proof.
  pose proof max_vlint_u64.
  induction pkts as [|p pkts IH]; intros h t h' t' lost Hok Hs Hin Hw; cbn [walk_lost] in Hw.
  { injection Hw as <- <- <-. split_and!; [done|by apply walk_post_nil|done]. }
  apply StronglySorted_cons in Hs as [Hp Hs]. rewrite Forall_forall in Hp.
  assert (Hin' : forall q, q ∈ pkts -> q ∈ h_packets h) by (intros; apply Hin; set_solver).
  assert (Hpin : p ∈ h_packets h) by (apply Hin; set_solver).
  pose proof (proj1 (Forall_forall _ _) (hist_pkts _ _ Hok) _ Hpin) as (_ & Hn & _).
  rewrite time_compare_le, add64_small in Hw by (unfold K_PKT_THRESHOLD; u64_side).
  cbn [List.filter]. change (is_pending largest lst p) with ((pkt_num p <=? largest) && negb (is_lost largest lst p)).
  change (is_lost largest lst p) with
    ((pkt_num p <=? largest) && ((pkt_time p <=? lst) || (pkt_num p + K_PKT_THRESHOLD <=? largest))).
  destruct (Z.ltb_spec largest (pkt_num p)).
  { rewrite (proj2 (Z.leb_gt _ _)) by lia. cbn [andb]. by apply (IH h). }
  rewrite (proj2 (Z.leb_le (pkt_num p) largest)) by lia. cbn [andb].
  destruct ((pkt_time p <=? lst) || (pkt_num p + K_PKT_THRESHOLD <=? largest)); cbn [negb].
  - destruct (walk_lost _ _ _ _ _ pkts) as [[h1 t1] l1] eqn:Hw'. injection Hw as <- <- <-.
    assert (Hok1 : hist_ok s (fst (tx_pkt_history_remove h (pkt_num p)))).
    { destruct (remove_ok s h p Hok Hpin) as (h2 & -> & ? & _). done. }
    apply IH in Hw' as (-> & Hpost & ->); auto.
    2:{ intros q Hq. apply removed_other with s; auto. specialize (Hp _ Hq). unfold pn_lt in Hp. lia. }
    split_and!; auto. apply walk_post_cons; auto.
  - by apply IH in Hw.
Qed.

Section Tx.
Context {D : Type} `{OSSL_CC_METHOD D}.
Context (now : nat -> OSSL_TIME).

Definition hist (a : OSSL_ACKM D) (s : pn_space) : tx_pkt_history_st := s_tx_history (sget (a_space a) s).
Definition pkts (a : OSSL_ACKM D) (s : pn_space) : list OSSL_ACKM_TX_PKT := h_packets (hist a s).

Lemma detect_acked_spec (a : OSSL_ACKM D) (ack : OSSL_QUIC_FRAME_ACK) (s : pn_space) :
  hist_ok s (hist a s) -> ack_frame_ok ack ->
  exists h', ackm_detect_and_remove_newly_acked_pkts a ack s
      = (upd_space a s (fun sp => sp <| s_tx_history := h' |>), rev (List.filter (in_ranges (frame_ranges ack)) (pkts a s))) /\
    walk_post s (hist a s) h' (rev (List.filter (in_ranges (frame_ranges ack)) (pkts a s))).
Proof.
  intros Hok Hack. destruct (first_end_frame ack Hack) as (r0 & rs & Hr & Hf). destruct Hack as (_ & _ & Hd).
  unfold ackm_detect_and_remove_newly_acked_pkts, pkts. fold (hist a s). rewrite Hf.
  set (start := match tx_pkt_history_by_pkt_num (hist a s) (ar_end r0) with Some pkt => _ | None => _ end).
  assert (StronglySorted pn_gt start /\ (forall q, q ∈ start -> q ∈ h_packets (hist a s)) /\
          List.filter (in_ranges (frame_ranges ack)) start = rev (List.filter (in_ranges (frame_ranges ack)) (h_packets (hist a s))))
    as (Hs & Hin & Hfil).
  { pose proof (sorted_rev _ (hist_sorted _ _ Hok)) as Hs. rewrite <- rev_filter. subst start.
    unfold tx_pkt_history_by_pkt_num. destruct (h_map (hist a s) !! ar_end r0) as [p|] eqn:Hp.
    - apply (hist_map _ _ Hok) in Hp as [Hp He].
      destruct (back_from_spec (rev (h_packets (hist a s))) p (in_ranges (frame_ranges ack))) as (H1 & H2 & H3); auto.
      + by apply elem_of_rev_pkts.
      + intros q Hq. rewrite Hr in *. apply above_first_not_in; [done|lia].
      + split_and!; auto. intros q Hq. by apply elem_of_rev_pkts, H2.
    - split_and!; auto. intros q Hq. by apply elem_of_rev_pkts. }
  destruct (walk_acked (hist a s) start (frame_ranges ack)) as [h' acked] eqn:Hw.
  destruct (walk_acked_spec s _ _ _ _ _ Hok Hd Hs Hin Hw) as [-> Hpost]. rewrite Hfil in *. by exists h'.
Qed.

Lemma detect_lost_spec (a : OSSL_ACKM D) (s : pn_space) : hist_ok s (hist a s) ->
  let delay := loss_delay_of (ossl_statm_get_rtt_info (a_statm a)) in
  let lst := ossl_time_subtract (now (a_clk a)) delay in
  let largest := s_largest_acked_pkt (sget (a_space a) s) in
  let lost := List.filter (is_lost largest lst) (pkts a s) in
  exists h', ackm_detect_and_remove_lost_pkts now a s
      = (upd_space (a <| a_clk := S (a_clk a) |>) s (fun sp => sp <| s_tx_history := h' |>
           <| s_loss_time := foldl (time_fold delay) ossl_time_zero (List.filter (is_pending largest lst) (pkts a s)) |>),
         lost) /\
    walk_post s (hist a s) h' lost.
Proof.
  intros Hok delay lst largest lost. unfold ackm_detect_and_remove_lost_pkts, read_now. fold delay.
  cbn [a_space field_upd]. fold (hist a s). fold lst. fold largest. fold (pkts a s).
  destruct (walk_lost largest lst delay (hist a s) ossl_time_zero (pkts a s)) as [[h' t'] l] eqn:Hw.
  apply (walk_lost_spec s) in Hw as (-> & Hpost & ->); [|done|apply Hok|done]. by exists h'.
Qed.
End Tx.
