(* ===== verification/AckmInv.v ===== *)
(** * ACK manager: byte accounting and exactly-once reporting

    The invariant that ties the history lists, the byte counters, the
    congestion controller and the packet callbacks together, over every
    sequence of operations. *)

From S2P Require Import Prelude OsslTime Congestion CcMethod Packet Wire Ackm AckmTx.

(** ** Sums over packet lists *)

Definition flight1 (p : OSSL_ACKM_TX_PKT) : Z := if is_inflight p then num_bytes p else 0.
Definition eliciting1 (p : OSSL_ACKM_TX_PKT) : Z := if is_inflight p && is_ack_eliciting p then num_bytes p else 0.

Definition psum (f : OSSL_ACKM_TX_PKT -> Z) (l : list OSSL_ACKM_TX_PKT) : Z := foldr (fun p n => f p + n) 0 l.

Abbreviation flight := (psum flight1).
Abbreviation eliciting := (psum eliciting1).

Lemma psum_cons (f : OSSL_ACKM_TX_PKT -> Z) (p : OSSL_ACKM_TX_PKT) (l : list OSSL_ACKM_TX_PKT) :
  psum f (p :: l) = f p + psum f l.
Proof. done. Qed.

Lemma psum_app (f : OSSL_ACKM_TX_PKT -> Z) (l l' : list OSSL_ACKM_TX_PKT) : psum f (l ++ l') = psum f l + psum f l'.
Proof. induction l; cbn; [done|]. unfold psum in *. cbn. lia. Qed.

Lemma psum_perm (f : OSSL_ACKM_TX_PKT -> Z) (l l' : list OSSL_ACKM_TX_PKT) : l ≡ₚ l' -> psum f l = psum f l'.
Proof. unfold psum. induction 1; cbn in *; lia. Qed.

#[export] Instance psum_proper (f : OSSL_ACKM_TX_PKT -> Z) : Proper (Permutation ==> eq) (psum f).
Proof. intros l l' Hl. by apply psum_perm. Qed.

Definition sizes_ok (l : list OSSL_ACKM_TX_PKT) : Prop := Forall (fun p => 0 < num_bytes p) l.

Lemma flight1_nonneg (p : OSSL_ACKM_TX_PKT) : 0 < num_bytes p -> 0 <= eliciting1 p <= flight1 p.
Proof. unfold flight1, eliciting1. destruct (is_inflight p), (is_ack_eliciting p); cbn; lia. Qed.

Lemma flight_nonneg (l : list OSSL_ACKM_TX_PKT) : sizes_ok l -> 0 <= eliciting l <= flight l.
Proof.
  induction 1 as [|p l Hp Hl IH]; [done|]. rewrite !psum_cons. pose proof (flight1_nonneg p Hp). lia.
Qed.

#[global] Arguments psum : simpl never.

Definition of_space (s : pn_space) (l : list OSSL_ACKM_TX_PKT) : list OSSL_ACKM_TX_PKT :=
  List.filter (fun p => is_space (pkt_space p) s) l.

Lemma is_space_spec (s s' : pn_space) : is_space s s' = true <-> s = s'.
Proof. by destruct s, s'. Qed.

Lemma of_space_cons (s : pn_space) (p : OSSL_ACKM_TX_PKT) (l : list OSSL_ACKM_TX_PKT) :
  of_space s (p :: l) = if is_space (pkt_space p) s then p :: of_space s l else of_space s l.
Proof. done. Qed.

Lemma of_space_app (s : pn_space) (l l' : list OSSL_ACKM_TX_PKT) : of_space s (l ++ l') = of_space s l ++ of_space s l'.
Proof. apply List.filter_app. Qed.

Lemma of_space_own (s s' : pn_space) (l : list OSSL_ACKM_TX_PKT) : Forall (fun p => pkt_space p = s) l ->
  of_space s' l = if is_space s s' then l else [].
Proof.
  intros Hl. rewrite Forall_forall in Hl. unfold of_space. destruct (is_space s s') eqn:E.
  - apply filter_all. intros p Hp. by rewrite (Hl _ Hp).
  - apply filter_none. intros p Hp. by rewrite (Hl _ Hp).
Qed.

(** ** Packets reported through their callbacks *)

Definition ev_pkt (e : ackm_event) : option OSSL_ACKM_TX_PKT :=
  match e with EvAcked p | EvLost p | EvDiscarded p => Some p | _ => None end.

Definition reported (evs : list ackm_event) : list OSSL_ACKM_TX_PKT := omap ev_pkt evs.

Lemma reported_app (evs evs' : list ackm_event) : reported (evs ++ evs') = reported evs ++ reported evs'.
Proof. apply omap_app. Qed.

Lemma sget_sset {A} (x : spaces A) (s s' : pn_space) (v : A) :
  sget (sset x s v) s' = if is_space s s' then v else sget x s'.
Proof. by destruct s, s'. Qed.

Lemma sget_sset_same {A} (x : spaces A) (s : pn_space) (v : A) : sget (sset x s v) s = v.
Proof. by destruct s. Qed.

Section Inv.
Context {D : Type} `{CC_ACCOUNTING D}.
Context (now : nat -> OSSL_TIME).

Implicit Types (a : OSSL_ACKM D) (s : pn_space).

Definition ae (a : OSSL_ACKM D) (s : pn_space) : Z := s_ack_eliciting_bytes_in_flight (sget (a_space a) s).
Definition disc (a : OSSL_ACKM D) (s : pn_space) : bool := s_discarded (sget (a_space a) s).

(** All packets whose fate is open. *)
Definition outstanding (a : OSSL_ACKM D) : list OSSL_ACKM_TX_PKT :=
  pkts a QUIC_PN_SPACE_INITIAL ++ pkts a QUIC_PN_SPACE_HANDSHAKE ++ pkts a QUIC_PN_SPACE_APP.

(** [pend]: packets taken out of the history and not yet reported.  [leaked]:
    bytes the congestion controller was never told about. *)
Record tx_inv (a : OSSL_ACKM D) (leaked : Z) (sent pend : list OSSL_ACKM_TX_PKT) : Prop := {
  inv_hist : forall s, hist_ok s (hist a s);
  inv_ae : forall s, ae a s = eliciting (pkts a s) + eliciting (of_space s pend);
  inv_bytes : a_bytes_in_flight a = flight (outstanding a) + flight pend;
  inv_cc : cc_in_flight (a_cc_data a) = a_bytes_in_flight a + leaked;
  inv_leaked : 0 <= leaked /\ a_bytes_in_flight a + leaked < U64_MOD;
  inv_disc : forall s, disc a s = true -> pkts a s = [];
  inv_sent : sent ≡ₚ outstanding a ++ reported (a_events a) ++ pend;
  inv_pend : Forall (fun p => pkt_ok (pkt_space p) p) pend }.

(** Changes that the invariant does not see. *)
Record same_core (a a' : OSSL_ACKM D) : Prop := {
  core_hist : forall s, hist a' s = hist a s;
  core_ae : forall s, ae a' s = ae a s;
  core_disc : forall s, disc a' s = disc a s;
  core_bytes : a_bytes_in_flight a' = a_bytes_in_flight a;
  core_cc : cc_in_flight (a_cc_data a') = cc_in_flight (a_cc_data a);
  core_rep : reported (a_events a') = reported (a_events a) }.

#[local] Instance same_core_preorder : PreOrder same_core.
Proof.
  split; [by intros a; split|]. intros a b c [] []. split; intros; congruence.
Qed.

Lemma outstanding_hist (a a' : OSSL_ACKM D) : (forall s, hist a' s = hist a s) -> outstanding a' = outstanding a.
Proof. intros Hh. unfold outstanding, pkts. by rewrite !Hh. Qed.

Lemma inv_same_core (a a' : OSSL_ACKM D) (leaked : Z) (sent pend : list OSSL_ACKM_TX_PKT) :
  same_core a a' -> tx_inv a leaked sent pend -> tx_inv a' leaked sent pend.
Proof.
  intros [Hh Ha Hd Hb Hc Hr] [I1 I2 I3 I4 I5 I6 I7 I8]. pose proof (outstanding_hist a a' Hh) as Ho.
  split; unfold pkts in *; intros; rewrite ?Hh, ?Ha, ?Hb, ?Hc, ?Hr, ?Ho in *; auto.
  apply I6. by rewrite <- Hd.
Qed.

(** A space update that keeps the history, the counter and the flag. *)
Lemma core_upd_space (a : OSSL_ACKM D) (s : pn_space) (f : ackm_space -> ackm_space) :
  (forall sp, s_tx_history (f sp) = s_tx_history sp) ->
  (forall sp, s_ack_eliciting_bytes_in_flight (f sp) = s_ack_eliciting_bytes_in_flight sp) ->
  (forall sp, s_discarded (f sp) = s_discarded sp) -> same_core a (upd_space a s f).
Proof.
  intros H1 H2 H3. split; try done; intros s'; unfold hist, ae, disc, upd_space; cbn [a_space field_upd];
    rewrite sget_sset; destruct (is_space s s') eqn:E; auto; apply is_space_spec in E as ->; auto.
Qed.

Lemma core_emit (a : OSSL_ACKM D) (e : ackm_event) : ev_pkt e = None -> same_core a (emit a e).
Proof. intros He. split; try done. unfold emit. cbn. rewrite reported_app. unfold reported. cbn. rewrite He. apply app_nil_r. Qed.

Lemma core_read_now (a : OSSL_ACKM D) : same_core a (snd (read_now now a)).
Proof. by split. Qed.

Lemma core_timer_actual (a : OSSL_ACKM D) (t : OSSL_TIME) : same_core a (ackm_set_loss_detection_timer_actual a t).
Proof.
  unfold ackm_set_loss_detection_timer_actual. cbn [a_has_loss_cb field_upd]. case_match; [|by split].
  etrans; [|by apply core_emit]. by split.
Qed.

Lemma core_pto (a a' : OSSL_ACKM D) (t : OSSL_TIME) (s : pn_space) :
  ackm_get_pto_time_and_space now a = (t, s, a') -> same_core a a'.
Proof. unfold ackm_get_pto_time_and_space. case_match; [|by intros [= _ <-]]. intros [= _ _ <-]. by split. Qed.

Lemma core_timer (a : OSSL_ACKM D) : same_core a (ackm_set_loss_detection_timer now a).
Proof.
  unfold ackm_set_loss_detection_timer. destruct (ackm_get_loss_time_and_space a) as [t0 s0].
  case_match; [apply core_timer_actual|]. case_match; [apply core_timer_actual|].
  destruct (ackm_get_pto_time_and_space now a) as [[t s] a'] eqn:E. etrans; [by eapply core_pto|apply core_timer_actual].
Qed.

Lemma hist_upd a s s' (f : ackm_space -> ackm_space) :
  hist (upd_space a s f) s' = if is_space s s' then s_tx_history (f (sget (a_space a) s)) else hist a s'.
Proof. unfold hist, upd_space. cbn [a_space field_upd]. rewrite sget_sset. by case_match. Qed.

Lemma ae_upd a s s' (f : ackm_space -> ackm_space) :
  ae (upd_space a s f) s' = if is_space s s' then s_ack_eliciting_bytes_in_flight (f (sget (a_space a) s)) else ae a s'.
Proof. unfold ae, upd_space. cbn [a_space field_upd]. rewrite sget_sset. by case_match. Qed.

Lemma disc_upd a s s' (f : ackm_space -> ackm_space) :
  disc (upd_space a s f) s' = if is_space s s' then s_discarded (f (sget (a_space a) s)) else disc a s'.
Proof. unfold disc, upd_space. cbn [a_space field_upd]. rewrite sget_sset. by case_match. Qed.

(** *** One packet leaves the pending list *)

(** What reporting [p] must do to the counters. *)
Record report_step (a a' : OSSL_ACKM D) (p : OSSL_ACKM_TX_PKT) : Prop := {
  rep_hist : forall s, hist a' s = hist a s;
  rep_disc : forall s, disc a' s = disc a s;
  rep_ae : forall s, ae a' s = if is_space (pkt_space p) s then ae a s -u eliciting1 p else ae a s;
  rep_bytes : a_bytes_in_flight a' = a_bytes_in_flight a -u flight1 p;
  rep_rep : reported (a_events a') = reported (a_events a) ++ [p] }.

Lemma pend_sizes (pend : list OSSL_ACKM_TX_PKT) : Forall (fun p => pkt_ok (pkt_space p) p) pend -> sizes_ok pend.
Proof. intros Hp. eapply Forall_impl; [exact Hp|]. by intros p (_ & _ & ? & _). Qed.

Lemma hist_sizes s (h : tx_pkt_history_st) : hist_ok s h -> sizes_ok (h_packets h).
Proof. intros Hok. eapply Forall_impl; [apply (hist_pkts _ _ Hok)|]. by intros p (_ & _ & ? & _). Qed.

Lemma outstanding_sizes a : (forall s, hist_ok s (hist a s)) -> sizes_ok (outstanding a).
Proof. intros Hh. unfold outstanding, pkts, sizes_ok. rewrite !Forall_app. split_and!; eapply hist_sizes, Hh. Qed.

Lemma flight_space a s : (forall s, hist_ok s (hist a s)) -> 0 <= flight (pkts a s) <= flight (outstanding a).
Proof.
  intros I1. unfold outstanding. rewrite !psum_app. pose proof (flight_nonneg _ (hist_sizes _ _ (I1 QUIC_PN_SPACE_INITIAL))).
  pose proof (flight_nonneg _ (hist_sizes _ _ (I1 QUIC_PN_SPACE_HANDSHAKE))).
  pose proof (flight_nonneg _ (hist_sizes _ _ (I1 QUIC_PN_SPACE_APP))). unfold pkts in *. destruct s; lia.
Qed.

(** Bounds on one pending packet. *)
Lemma pending_bounds a leaked sent p pend : tx_inv a leaked sent (p :: pend) ->
  0 <= eliciting1 p <= flight1 p /\ flight1 p <= a_bytes_in_flight a /\
  eliciting1 p <= ae a (pkt_space p) /\ a_bytes_in_flight a < U64_MOD /\ ae a (pkt_space p) < U64_MOD.
Proof.
  intros [I1 I2 I3 I4 I5 I6 I7 I8]. pose proof (pend_sizes _ I8) as Hs. apply Forall_cons in Hs as [Hp Hs].
  pose proof (flight1_nonneg p Hp). pose proof (flight_nonneg _ Hs).
  pose proof (flight_nonneg _ (outstanding_sizes a I1)). rewrite psum_cons in I3.
  specialize (I2 (pkt_space p)). rewrite of_space_cons, (proj2 (is_space_spec _ _)), psum_cons in I2 by done.
  assert (sizes_ok (of_space (pkt_space p) pend)) as Hos by (by apply Forall_filter_b).
  pose proof (flight_nonneg _ Hos). pose proof (flight_nonneg _ (hist_sizes _ _ (I1 (pkt_space p)))). fold (pkts a (pkt_space p)) in *.
  assert (eliciting (of_space (pkt_space p) pend) <= flight pend).
  { pose proof (psum_perm flight1 _ _ (filter_split (fun q => is_space (pkt_space q) (pkt_space p)) pend)) as Hf.
    rewrite psum_app in Hf.
    assert (sizes_ok (List.filter (fun q => negb (is_space (pkt_space q) (pkt_space p))) pend)) as Hn by (by apply Forall_filter_b).
    pose proof (flight_nonneg _ Hn). unfold of_space in *. lia. }
  pose proof (flight_space a (pkt_space p) I1).
  split_and!; lia.
Qed.

Lemma report_inv a a' leaked leaked' sent p pend :
  tx_inv a leaked sent (p :: pend) -> report_step a a' p ->
  0 <= leaked' -> leaked' <= leaked + flight1 p ->
  cc_in_flight (a_cc_data a') = a_bytes_in_flight a' + leaked' -> tx_inv a' leaked' sent pend.
Proof.
  intros Hi [Rh Rd Ra Rb Rr] Hl1 Hl2 Hcc. pose proof (pending_bounds _ _ _ _ _ Hi) as (B1 & B2 & B3 & B4 & B5).
  pose proof (outstanding_hist a a' Rh) as Ho.
  destruct Hi as [I1 I2 I3 I4 I5 I6 I7 I8]. apply Forall_cons in I8 as [Hp I8].
  rewrite sub64_small in Rb by u64_side.
  split; auto.
  - intros s. by rewrite Rh.
  - intros s. unfold pkts in *. rewrite Rh, Ra. specialize (I2 s). rewrite of_space_cons in I2.
    destruct (is_space (pkt_space p) s) eqn:E; [|done]. apply is_space_spec in E as <-.
    rewrite psum_cons in I2. rewrite sub64_small by u64_side. lia.
  - rewrite Ho, Rb, I3, psum_cons. lia.
  - split; [done|]. lia.
  - intros s. unfold pkts in *. rewrite Rd, Rh. apply I6.
  - rewrite Ho, Rr, I7, <- !app_assoc. done.
Qed.

(** *** Reporting losses and acknowledgements *)

Lemma sub64_0 (x : Z) : u64 x -> x -u 0 = x.
Proof. intros. rewrite sub64_small; u64_side. Qed.

(** The counters after [flight_sub]. *)
Lemma flight_sub_step a p : is_inflight p = true ->
  let a' := flight_sub a p in
  (forall s, hist a' s = hist a s) /\ (forall s, disc a' s = disc a s) /\
  (u64 (ae a (pkt_space p)) -> forall s, ae a' s = if is_space (pkt_space p) s then ae a s -u eliciting1 p else ae a s) /\
  a_bytes_in_flight a' = a_bytes_in_flight a -u flight1 p /\
  a_events a' = a_events a /\ a_cc_data a' = a_cc_data a.
Proof.
  intros Hin a'. subst a'. unfold flight_sub, flight1, eliciting1. rewrite Hin. cbn [andb].
  destruct (is_ack_eliciting p).
  - split_and!; try done; intros.
    + rewrite hist_upd. case_match eqn:E; [|done]. by apply is_space_spec in E as <-.
    + rewrite disc_upd. case_match eqn:E; [|done]. by apply is_space_spec in E as <-.
    + rewrite ae_upd. case_match eqn:E; [|done]. by apply is_space_spec in E as <-.
  - split_and!; try done. intros Hu s. case_match eqn:E; [|done]. apply is_space_spec in E as <-.
    rewrite sub64_0; done.
Qed.

Lemma not_inflight_step a p e : is_inflight p = false -> ev_pkt e = Some p -> u64 (a_bytes_in_flight a) ->
  u64 (ae a (pkt_space p)) -> report_step a (emit a e) p.
Proof.
  intros Hin He Hb Hu. split; try done.
  - intros s. case_match eqn:E; [|done]. apply is_space_spec in E as <-. unfold eliciting1. rewrite Hin. cbn. by rewrite sub64_0.
  - unfold flight1. rewrite Hin. by rewrite sub64_0.
  - unfold emit. cbn [a_events field_upd]. rewrite reported_app. unfold reported. cbn. by rewrite He.
Qed.

Lemma report_step_cc a a1 p (f : D -> D) : report_step a a1 p -> report_step a (upd_cc a1 f) p.
Proof. intros [R1 R2 R3 R4 R5]. by split. Qed.

Lemma report_step_emit a a1 p e : (forall s, hist a1 s = hist a s) -> (forall s, disc a1 s = disc a s) ->
  (forall s, ae a1 s = if is_space (pkt_space p) s then ae a s -u eliciting1 p else ae a s) ->
  a_bytes_in_flight a1 = a_bytes_in_flight a -u flight1 p -> reported (a_events a1) = reported (a_events a) ->
  ev_pkt e = Some p -> report_step a (emit a1 e) p.
Proof.
  intros H1 H2 H3 H4 H5 He. split; try done. unfold emit. cbn [a_events field_upd].
  rewrite reported_app, H5. unfold reported. cbn. by rewrite He.
Qed.

Lemma inv_u64 a leaked sent p pend : tx_inv a leaked sent (p :: pend) ->
  u64 (a_bytes_in_flight a) /\ u64 (ae a (pkt_space p)).
Proof. intros Hi. destruct (pending_bounds _ _ _ _ _ Hi) as (B1 & B2 & B3 & B4 & B5). unfold u64. lia. Qed.

Lemma lost_one_inv (pseudo : bool) a leaked sent p pend : tx_inv a leaked sent (p :: pend) ->
  tx_inv (lost_one pseudo a p) (if pseudo then leaked + flight1 p else leaked) sent pend.
Proof.
  intros Hi. destruct (inv_u64 _ _ _ _ _ Hi) as [Hb Hu].
  pose proof (pending_bounds _ _ _ _ _ Hi) as (B1 & B2 & B3 & B4 & B5).
  pose proof (inv_cc _ _ _ _ Hi) as Hcc. pose proof (inv_leaked _ _ _ _ Hi) as [L1 L2].
  unfold lost_one. destruct (is_inflight p) eqn:Hin.
  - destruct (flight_sub_step a p Hin) as (S1 & S2 & S3 & S4 & S5 & S6). specialize (S3 Hu).
    assert (flight1 p = num_bytes p) as Hf by (unfold flight1; by rewrite Hin).
    destruct pseudo; cbn [negb].
    + eapply report_inv with (leaked := leaked); [exact Hi|apply report_step_emit; try done; by rewrite S5|lia|lia|].
      cbn [emit a_cc_data a_bytes_in_flight field_upd]. rewrite S6, S4, Hcc, sub64_small by u64_side. lia.
    + eapply report_inv with (leaked := leaked); [exact Hi|apply report_step_emit; try done; cbn; by rewrite S5|lia|lia|].
      cbn [emit upd_cc a_cc_data a_bytes_in_flight field_upd]. rewrite cc_lost_law; cbn [ai_tx_size]; rewrite S6, Hcc; [|lia].
      rewrite S4, Hf, !sub64_small by u64_side. lia.
  - assert (flight1 p = 0) as Hf by (unfold flight1; by rewrite Hin).
    replace (if pseudo then leaked + flight1 p else leaked) with leaked by (destruct pseudo; lia).
    eapply report_inv; [exact Hi|by apply not_inflight_step|lia|lia|]. exact Hcc.
Qed.

Lemma acked_one_inv a leaked sent p pend : tx_inv a leaked sent (p :: pend) -> tx_inv (acked_one a p) leaked sent pend.
Proof.
  intros Hi. destruct (inv_u64 _ _ _ _ _ Hi) as [Hb Hu].
  pose proof (pending_bounds _ _ _ _ _ Hi) as (B1 & B2 & B3 & B4 & B5).
  pose proof (inv_cc _ _ _ _ Hi) as Hcc. pose proof (inv_leaked _ _ _ _ Hi) as [L1 L2].
  unfold acked_one. destruct (is_inflight p) eqn:Hin.
  - destruct (flight_sub_step a p Hin) as (S1 & S2 & S3 & S4 & S5 & S6). specialize (S3 Hu).
    assert (flight1 p = num_bytes p) as Hf by (unfold flight1; by rewrite Hin).
    set (a1 := if negb (largest_acked p =? QUIC_PN_INVALID) then _ else _).
    assert (same_core (flight_sub a p) a1 /\ a_cc_data a1 = a_cc_data (flight_sub a p)) as [C1 C2].
    { subst a1. case_match; [|done]. split; [|done]. by apply core_upd_space. }
    destruct C1 as [C1 C3 C4 C5 C6 C7].
    eapply report_inv with (leaked := leaked); [exact Hi| |lia|lia|].
    + apply report_step_cc, report_step_emit; intros; rewrite ?C1, ?C3, ?C4, ?C5, ?C7, ?S1, ?S2, ?S4, ?S5; auto.
    + cbn [emit upd_cc a_cc_data a_bytes_in_flight field_upd]. rewrite cc_acked_law. cbn [ai_tx_size].
      rewrite C2, S6, Hcc, C5, S4, Hf, !sub64_small by u64_side. lia.
  - eapply report_inv; [exact Hi|by apply not_inflight_step|lia| |exact Hcc]. lia.
Qed.

Lemma on_pkts_acked_inv (l : list OSSL_ACKM_TX_PKT) : forall a leaked sent pend,
  tx_inv a leaked sent (l ++ pend) -> tx_inv (ackm_on_pkts_acked a l) leaked sent pend.
Proof.
  induction l as [|p l IH]; intros a leaked sent pend Hi; [done|]. apply (IH (acked_one a p)). by apply acked_one_inv.
Qed.

Lemma lost_all_inv (pseudo : bool) (l : list OSSL_ACKM_TX_PKT) : forall a leaked sent pend,
  tx_inv a leaked sent (l ++ pend) ->
  tx_inv (foldl (lost_one pseudo) a l) (if pseudo then leaked + flight l else leaked) sent pend.
Proof.
  induction l as [|p l IH]; intros a leaked sent pend Hi.
  - cbn. replace (if pseudo then leaked + flight [] else leaked) with leaked; [done|]. unfold psum. destruct pseudo; cbn; lia.
  - apply lost_one_inv with (pseudo := pseudo) in Hi. apply IH in Hi. cbn [foldl]. rewrite psum_cons.
    destruct pseudo; [|done]. by rewrite Z.add_assoc.
Qed.

Lemma on_pkts_lost_inv (pseudo : bool) a s leaked sent (l pend : list OSSL_ACKM_TX_PKT) :
  tx_inv a leaked sent (l ++ pend) ->
  tx_inv (ackm_on_pkts_lost now a s l pseudo) (if pseudo then leaked + flight l else leaked) sent pend.
Proof.
  intros Hi%(lost_all_inv pseudo). unfold ackm_on_pkts_lost. rewrite andb_false_r. cbn [read_now].
  eapply inv_same_core; [|exact Hi]. split; try done. cbn. by rewrite cc_lost_finished_law.
Qed.

(** *** Taking packets out of the history *)

Lemma removed_rev (l : list OSSL_ACKM_TX_PKT) (q : OSSL_ACKM_TX_PKT) : removed (rev l) q = removed l q.
Proof.
  unfold removed. apply eq_true_iff_eq. rewrite !existsb_exists. by setoid_rewrite <- in_rev.
Qed.

Lemma removed_filter (l : list OSSL_ACKM_TX_PKT) (f : OSSL_ACKM_TX_PKT -> bool) (q : OSSL_ACKM_TX_PKT) :
  StronglySorted pn_lt l -> q ∈ l -> removed (List.filter f l) q = f q.
Proof.
  intros Hs Hq. apply eq_true_iff_eq. unfold removed. rewrite existsb_exists. split.
  - intros (p & [Hp1 Hp2]%filter_In & He%Z.eqb_eq). apply list_elem_of_In in Hp1.
    by rewrite <- (sorted_unique l p q Hs Hp1 Hq He).
  - intros Hf. exists q. rewrite filter_In, <- list_elem_of_In. split; [done|]. apply Z.eqb_refl.
Qed.

(** The packets taken out and those left are the packets there were. *)
Lemma walk_post_perm s (h h' : tx_pkt_history_st) (f : OSSL_ACKM_TX_PKT -> bool) (out : list OSSL_ACKM_TX_PKT) :
  hist_ok s h -> walk_post s h h' out -> (forall q, removed out q = removed (List.filter f (h_packets h)) q) ->
  h_packets h' = List.filter (fun p => negb (f p)) (h_packets h).
Proof.
  intros Hok (_ & _ & ->) He. unfold hist_keep. apply filter_ext_in_b. intros q Hq.
  rewrite He, removed_filter; [done|apply Hok|done].
Qed.

Lemma take_out_inv a s leaked sent pend h' (out : list OSSL_ACKM_TX_PKT) g :
  tx_inv a leaked sent pend -> hist_ok s h' -> pkts a s ≡ₚ out ++ h_packets h' ->
  (forall sp, s_tx_history (g sp) = h') ->
  (forall sp, s_ack_eliciting_bytes_in_flight (g sp) = s_ack_eliciting_bytes_in_flight sp) ->
  (forall sp, s_discarded (g sp) = s_discarded sp) ->
  tx_inv (upd_space a s g) leaked sent (out ++ pend).
Proof.
  intros [I1 I2 I3 I4 I5 I6 I7 I8] Hok Hperm G1 G2 G3.
  assert (Hout : Forall (pkt_ok s) out).
  { pose proof (hist_pkts _ _ (I1 s)) as Hf. fold (pkts a s) in Hf. rewrite Hperm in Hf. by apply Forall_app in Hf as [? _]. }
  assert (Ho : outstanding a ≡ₚ out ++ outstanding (upd_space a s g)).
  { unfold outstanding, pkts in *. rewrite !hist_upd, !G1. destruct s; cbn [is_space]; rewrite Hperm; by solve_Permutation. }
  assert (Hsp : forall s', eliciting (of_space s' out) = if is_space s s' then eliciting out else 0).
  { intros s'. rewrite (of_space_own s); [by case_match|]. eapply Forall_impl; [exact Hout|]. by intros p [? _]. }
  split; auto.
  - intros s'. rewrite hist_upd, G1. destruct (is_space s s') eqn:E; [|done]. by apply is_space_spec in E as <-.
  - intros s'. rewrite ae_upd, of_space_app, psum_app, Hsp. unfold pkts. rewrite hist_upd, G1, G2. specialize (I2 s').
    destruct (is_space s s') eqn:E; [|unfold pkts in I2; lia]. apply is_space_spec in E as <-.
    rewrite Hperm, psum_app in I2. unfold ae in I2. lia.
  - cbn [upd_space a_bytes_in_flight field_upd]. rewrite I3, Ho, !psum_app. fold (upd_space a s g). lia.
  - intros s'. unfold pkts. rewrite disc_upd, hist_upd, G1, G3. specialize (I6 s').
    destruct (is_space s s') eqn:E; [|done]. apply is_space_spec in E as <-. intros Hd. specialize (I6 Hd).
    rewrite I6 in Hperm. apply Permutation_nil_l in Hperm. symmetry in Hperm. by apply app_nil in Hperm as [_ ?].
  - cbn [upd_space a_events field_upd]. fold (upd_space a s g). rewrite I7, Ho. by solve_Permutation.
  - rewrite Forall_app. split; [|done]. eapply Forall_impl; [exact Hout|]. intros p (He & Hp). split; [done|exact Hp].
Qed.

Lemma detect_acked_inv a a' ack s leaked sent acked : tx_inv a leaked sent [] -> ack_frame_ok ack ->
  ackm_detect_and_remove_newly_acked_pkts a ack s = (a', acked) -> tx_inv a' leaked sent acked.
Proof.
  intros Hi Hack Hd. pose proof (inv_hist _ _ _ _ Hi s) as Hok.
  destruct (detect_acked_spec a ack s Hok Hack) as (h' & He & Hpost). rewrite He in Hd. injection Hd as <- <-.
  rewrite <- (app_nil_r (rev _)). apply (take_out_inv a s leaked sent [] h'); try done; [by destruct Hpost|].
  rewrite (walk_post_perm _ _ _ (in_ranges (frame_ranges ack)) _ Hok Hpost) by (intros; apply removed_rev).
  rewrite <- Permutation_rev. apply filter_split.
Qed.

Lemma detect_lost_inv a a' s leaked sent pend lost : tx_inv a leaked sent pend ->
  ackm_detect_and_remove_lost_pkts now a s = (a', lost) -> tx_inv a' leaked sent (lost ++ pend).
Proof.
  intros Hi Hd. pose proof (inv_hist _ _ _ _ Hi s) as Hok.
  destruct (detect_lost_spec now a s Hok) as (h' & He & Hpost). rewrite He in Hd.
  pose proof (f_equal fst Hd) as E1. pose proof (f_equal snd Hd) as E2. cbn [fst snd] in E1, E2. subst a' lost.
  apply (take_out_inv (a <| a_clk := S (a_clk a) |>) s leaked sent pend h'); try done; [|by destruct Hpost|].
  - eapply inv_same_core; [|exact Hi]. by split.
  - change (pkts (a <| a_clk := S (a_clk a) |>) s) with (pkts a s).
    rewrite (walk_post_perm _ _ _ _ _ Hok Hpost) by done. apply filter_split.
Qed.

Lemma handle_lost_inv a a' s leaked sent pend lost : tx_inv a leaked sent pend ->
  ackm_detect_and_remove_lost_pkts now a s = (a', lost) ->
  tx_inv (match lost with [] => a' | _ :: _ => ackm_on_pkts_lost now a' s lost false end) leaked sent pend.
Proof.
  intros Hi Hd. apply detect_lost_inv with (1 := Hi) in Hd.
  destruct lost as [|p lost]; [done|]. apply (on_pkts_lost_inv false _ _ _ _ _ _ Hd).
Qed.

(** *** The operations *)

Lemma inv_bounds a leaked sent s : tx_inv a leaked sent [] ->
  0 <= a_bytes_in_flight a /\ 0 <= ae a s <= a_bytes_in_flight a /\
  a_bytes_in_flight a = flight (outstanding a) /\ ae a s = eliciting (pkts a s) /\ a_bytes_in_flight a < U64_MOD.
Proof.
  intros [I1 I2 I3 I4 I5 I6 I7 I8]. pose proof (flight_space a s I1). specialize (I2 s).
  pose proof (flight_nonneg _ (hist_sizes _ _ (I1 s))). fold (pkts a s) in *.
  unfold of_space in I2. unfold psum in I2 at 2. unfold psum in I3 at 2. cbn in I2, I3. lia.
Qed.

(** Adding a packet: the counters before the timer is set. *)
Lemma add_pkt_inv a s leaked sent h' p g n :
  tx_inv a leaked sent [] -> pkt_space p = s -> disc a s = false -> hist_ok s h' -> h_packets h' = pkts a s ++ [p] ->
  pkt_ok s p -> a_bytes_in_flight a + leaked + flight1 p < U64_MOD ->
  (forall sp, s_tx_history (g sp) = h') ->
  s_ack_eliciting_bytes_in_flight (g (sget (a_space a) s)) = ae a s + eliciting1 p ->
  (forall sp, s_discarded (g sp) = s_discarded sp) ->
  n = a_bytes_in_flight a + flight1 p ->
  tx_inv (upd_cc ((upd_space a s g) <| a_bytes_in_flight := n |>)
            (fun d => if is_inflight p then cc_on_data_sent d (num_bytes p) else d)) leaked (p :: sent) [].
Proof.
  intros [I1 I2 I3 I4 I5 I6 I7 I8] Hs Hd Hok Hpk Hp Hov G1 G2 G3 ->.
  assert (Hf0 : 0 <= flight1 p) by (pose proof (flight1_nonneg p); destruct Hp as (_ & _ & ? & _); lia).
  assert (Hb0 : 0 <= a_bytes_in_flight a) by (pose proof (flight_space a s I1); unfold psum in I3 at 2; cbn in I3; lia).
  assert (Hh : forall s', hist (upd_cc ((upd_space a s g) <| a_bytes_in_flight := a_bytes_in_flight a + flight1 p |>)
            (fun d => if is_inflight p then cc_on_data_sent d (num_bytes p) else d)) s' = if is_space s s' then h' else hist a s').
  { intros s'. etrans; [apply (hist_upd a s s' g)|]. by rewrite G1. }
  assert (Ho : outstanding (upd_cc ((upd_space a s g) <| a_bytes_in_flight := a_bytes_in_flight a + flight1 p |>)
            (fun d => if is_inflight p then cc_on_data_sent d (num_bytes p) else d)) ≡ₚ p :: outstanding a).
  { unfold outstanding, pkts. rewrite !Hh. unfold pkts in Hpk. clear - Hpk.
    destruct s; cbn [is_space]; rewrite Hpk; by solve_Permutation. }
  split.
  - intros s'. rewrite Hh. destruct (is_space s s') eqn:E; [|done]. by apply is_space_spec in E as <-.
  - intros s'. unfold pkts. rewrite Hh. etrans; [apply (ae_upd a s s' g)|]. specialize (I2 s').
    destruct (is_space s s') eqn:E; [|done]. apply is_space_spec in E as <-.
    rewrite G2, Hpk, psum_app, I2, psum_cons. unfold of_space, psum. cbn. unfold pkts. lia.
  - rewrite Ho, psum_cons. cbn [upd_cc a_bytes_in_flight field_upd]. rewrite I3. lia.
  - cbn [upd_cc a_cc_data a_bytes_in_flight field_upd upd_space]. unfold flight1 in *. destruct (is_inflight p).
    + rewrite cc_sent_law, I4, add64_small; [lia|]. u64_side.
    + rewrite I4. lia.
  - cbn [upd_cc a_bytes_in_flight field_upd]. lia.
  - intros s'. unfold pkts. rewrite Hh. intros Hd'.
    assert (disc a s' = true) as Hd2.
    { rewrite <- Hd'. symmetry. etrans; [apply (disc_upd a s s' g)|]. rewrite G3.
      destruct (is_space s s') eqn:E; [|done]. by apply is_space_spec in E as <-. }
    destruct (is_space s s') eqn:E; [apply is_space_spec in E as <-; congruence|by apply I6].
  - rewrite Ho. cbn [upd_cc a_events field_upd upd_space]. rewrite I7. done.
  - constructor.
Qed.

Lemma core_upd_cc_both a a' (f : D -> D) : same_core a a' ->
  (forall d d', cc_in_flight d' = cc_in_flight d -> cc_in_flight (f d') = cc_in_flight (f d)) ->
  same_core (upd_cc a f) (upd_cc a' f).
Proof. intros [C1 C2 C3 C4 C5 C6] Hf. split; try done. cbn. by apply Hf. Qed.

Lemma on_tx_packet_inv a a' leaked sent p ok : tx_inv a leaked sent [] -> disc a (pkt_space p) = false ->
  0 <= pkt_num p <= OSSL_QUIC_VLINT_MAX -> 0 <= num_bytes p -> a_bytes_in_flight a + leaked + num_bytes p < U64_MOD ->
  u64 (pkt_time p) -> u64 (largest_acked p) -> ossl_ackm_on_tx_packet now a p = (a', ok) -> tx_inv a' leaked (if ok then p :: sent else sent) [].
Proof.
  intros Hi Hd Hn Hnb Hov Htm Hla Hop. unfold ossl_ackm_on_tx_packet in Hop. set (s := pkt_space p) in *.
  case_match; [by injection Hop as <- <-|].
  destruct (Z.eqb_spec (num_bytes p) 0); [by injection Hop as <- <-|].
  destruct (negb (is_inflight p) && is_ack_eliciting p) eqn:Hie; [by injection Hop as <- <-|].
  assert (Hp : pkt_ok s p).
  { split_and!; try done; try lia. intros He. rewrite He in Hie. by destruct (is_inflight p). }
  pose proof (inv_hist _ _ _ _ Hi s) as Hok. fold (hist a s) in Hop.
  destruct (add_ok s (hist a s) p Hok Hp) as [Hadd Hno].
  assert (flight1 p <= num_bytes p) by (unfold flight1; destruct (is_inflight p); lia).
  destruct (inv_bounds a leaked sent s Hi) as (Hb0 & Hae1 & Hae2 & Hb & Hu).
  pose proof (flight1_nonneg p ltac:(lia)). pose proof (inv_leaked _ _ _ _ Hi) as [L1 L2].
  destruct (Z.le_gt_cases (h_watermark (hist a s)) (pkt_num p)) as [Hw|Hw].
  - destruct (Hadd Hw) as (h' & He & Hok' & Hpk & _). rewrite He in Hop.
    destruct (is_inflight p) eqn:Hin; injection Hop as <- <-.
    + assert (flight1 p = num_bytes p) as Hf by (unfold flight1; by rewrite Hin).
      eapply inv_same_core; [|apply (add_pkt_inv a s leaked sent h' p (fun sp =>
         if is_ack_eliciting p then (sp <| s_tx_history := h' |>) <| s_time_of_last_ack_eliciting_pkt := pkt_time p |>
             <| s_ack_eliciting_bytes_in_flight := s_ack_eliciting_bytes_in_flight sp +u num_bytes p |>
         else sp <| s_tx_history := h' |>) (a_bytes_in_flight a +u num_bytes p)); auto; try (intros; by case_match); try lia].
      * rewrite Hin. apply core_upd_cc_both; [|intros d d' Hdd; by rewrite !cc_sent_law, Hdd].
        etrans; [|apply core_timer]. destruct (is_ack_eliciting p); [|by split].
        split; try done; intros s'; unfold hist, ae, disc, upd_space; cbn [a_space field_upd];
          rewrite ?sget_sset_same, !sget_sset; destruct (is_space s s') eqn:E; done.
      * unfold eliciting1. rewrite Hin. destruct (is_ack_eliciting p); cbn; [rewrite add64_small; unfold ae; [done|]|unfold ae; lia].
        unfold ae in Hae1. u64_side.
      * rewrite Hf, add64_small; [done|u64_side].
    + assert (flight1 p = 0 /\ eliciting1 p = 0) as [Hf He1] by (unfold flight1, eliciting1; by rewrite Hin).
      eapply inv_same_core; [|apply (add_pkt_inv a s leaked sent h' p (fun sp => sp <| s_tx_history := h' |>)
        (a_bytes_in_flight a)); auto; try lia; unfold ae; cbn; lia]. rewrite Hin. by split.
  - rewrite (Hno Hw) in Hop. injection Hop as <- <-. eapply inv_same_core; [|exact Hi].
    split; try done; intros s'; rewrite ?hist_upd, ?ae_upd, ?disc_upd; cbn; destruct (is_space s s') eqn:E; try done;
      by apply is_space_spec in E as <-.
Qed.

Lemma core_sample_rtt a ack na : same_core a (ackm_sample_rtt now a ack na).
Proof.
  unfold ackm_sample_rtt, read_now. destruct na as [|p na]; [done|].
  destruct ((pkt_num p =? first_end ack) && _); [|done].
  destruct (ossl_time_is_zero _); by split.
Qed.

Lemma core_process_ecn a ack s : same_core a (ackm_process_ecn now a ack s).
Proof.
  unfold ackm_process_ecn. destruct (_ <? ack_ecnce ack); [|done].
  assert (same_core a (upd_space a s (fun sp => sp <| s_peer_ecnce := ack_ecnce ack |>))) as Hc by (by apply core_upd_space).
  destruct (tx_pkt_history_by_pkt_num _ _); [|exact Hc]. etrans; [exact Hc|]. unfold read_now. split; try done. cbn. by rewrite cc_ecn_law.
Qed.

Lemma on_rx_ack_frame_inv a a' ack s t leaked sent ok : tx_inv a leaked sent [] -> ack_frame_ok ack ->
  ossl_ackm_on_rx_ack_frame now a ack s t = (a', ok) -> tx_inv a' leaked sent [].
Proof.
  intros Hi Hack Hop. unfold ossl_ackm_on_rx_ack_frame in Hop.
  set (a0 := upd_space a s _) in Hop.
  assert (tx_inv a0 leaked sent []) as Hi0 by (eapply inv_same_core; [|exact Hi]; by apply core_upd_space). clearbody a0. clear Hi.
  set (ms := negb _ && _) in Hop. set (a1 := if ms then _ else a0) in Hop.
  assert (tx_inv a1 leaked sent []) as Hi1 by (subst a1; destruct ms; [eapply inv_same_core; [|exact Hi0]; by split|done]).
  clearbody a1. clear Hi0.
  destruct (ackm_detect_and_remove_newly_acked_pkts a1 ack s) as [a2 na] eqn:Hd.
  apply detect_acked_inv with (1 := Hi1) (2 := Hack) in Hd. destruct na as [|p na].
  { injection Hop as <- <-. destruct ms; [|done]. eapply inv_same_core; [apply core_timer|done]. }
  set (a3 := ackm_sample_rtt now a2 ack (p :: na)) in Hop.
  assert (tx_inv a3 leaked sent (p :: na)) as Hi3 by (eapply inv_same_core; [apply core_sample_rtt|done]). clearbody a3.
  set (a4 := if ack_ecn_present ack then _ else a3) in Hop.
  assert (tx_inv a4 leaked sent (p :: na)) as Hi4.
  { subst a4. destruct (ack_ecn_present ack); [|done]. eapply inv_same_core; [apply core_process_ecn|done]. }
  clearbody a4. destruct (ackm_detect_and_remove_lost_pkts now a4 s) as [a5 lost] eqn:Hl.
  apply handle_lost_inv with (1 := Hi4) in Hl.
  set (a6 := match lost with [] => a5 | _ :: _ => _ end) in *. clearbody a6.
  assert (tx_inv (ackm_on_pkts_acked a6 (p :: na)) leaked sent []) as Hi7 by (apply on_pkts_acked_inv; by rewrite app_nil_r).
  set (a7 := ackm_on_pkts_acked a6 (p :: na)) in *. clearbody a7.
  apply (f_equal fst) in Hop. cbn [fst] in Hop. subst a'. eapply inv_same_core; [apply core_timer|].
  destruct (a_peer_completed_addr_validation a7); [|exact Hi7]. eapply inv_same_core; [|exact Hi7]. by split.
Qed.

Lemma on_timeout_inv a a' leaked sent ok : tx_inv a leaked sent [] ->
  ossl_ackm_on_timeout now a = (a', ok) -> tx_inv a' leaked sent [].
Proof.
  intros Hi Hop. unfold ossl_ackm_on_timeout in Hop. destruct (ackm_get_loss_time_and_space a) as [t0 s0].
  case_match.
  - destruct (ackm_detect_and_remove_lost_pkts now a s0) as [a1 lost] eqn:Hl.
    apply handle_lost_inv with (1 := Hi) in Hl. injection Hop as <- <-.
    by eapply inv_same_core; [apply core_timer|].
  - injection Hop as <- <-. eapply inv_same_core; [apply core_timer|].
    set (a1 := if ackm_ack_eliciting_bytes_in_flight a =? 0 then _ else _).
    eapply (inv_same_core a1); [by split|]. subst a1. case_match.
    + case_match; (eapply inv_same_core; [|exact Hi]); by split.
    + destruct (ackm_get_pto_time_and_space now a) as [[t s] a2] eqn:E. apply core_pto in E.
      eapply inv_same_core; [|exact Hi]. etrans; [exact E|]. by split.
Qed.

(** *** Discarding a space *)

Lemma discard_loop (l : list OSSL_ACKM_TX_PKT) : forall a inv a' inv',
  sizes_ok l -> flight l <= a_bytes_in_flight a < U64_MOD -> 0 <= inv -> inv + flight l < U64_MOD ->
  foldl discard_one (a, inv) l = (a', inv') ->
  (forall s, hist a' s = hist a s) /\ (forall s, ae a' s = ae a s) /\ (forall s, disc a' s = disc a s) /\
  a_cc_data a' = a_cc_data a /\ a_bytes_in_flight a' = a_bytes_in_flight a - flight l /\
  inv' = inv + flight l /\ reported (a_events a') = reported (a_events a) ++ l.
Proof.
  induction l as [|p l IH]; intros a inv a' inv' Hs Hb Hi Hov Hf; cbn [foldl] in Hf.
  { injection Hf as <- <-. unfold psum. cbn. rewrite app_nil_r, Z.sub_0_r, Z.add_0_r. done. }
  apply Forall_cons in Hs as [Hp Hs]. rewrite psum_cons in *. pose proof (flight_nonneg _ Hs). pose proof (flight1_nonneg p Hp).
  unfold discard_one in Hf at 2. unfold flight1 in *. destruct (is_inflight p).
  - rewrite sub64_small, add64_small in Hf by u64_side.
    apply IH in Hf as (H1' & H2' & H3' & H4' & H5' & H6' & H7'); [|done|cbn in *; lia..].
    cbn in H5'. split_and!; try done; try lia. rewrite H7'. unfold emit. cbn [a_events field_upd].
    rewrite reported_app, <- app_assoc. done.
  - apply IH in Hf as (H1' & H2' & H3' & H4' & H5' & H6' & H7'); [|done|cbn in *; lia..].
    cbn in H5'. split_and!; try done; try lia. rewrite H7'. unfold emit. cbn [a_events field_upd].
    rewrite reported_app, <- app_assoc. done.
Qed.

Lemma discard_inv_fields a a' s leaked sent : tx_inv a leaked sent [] ->
  (forall s', hist a' s' = if is_space s s' then tx_pkt_history_destroy (hist a s) else hist a s') ->
  (forall s', ae a' s' = if is_space s s' then 0 else ae a s') ->
  (forall s', disc a' s' = if is_space s s' then true else disc a s') ->
  a_bytes_in_flight a' = a_bytes_in_flight a - flight (pkts a s) ->
  cc_in_flight (a_cc_data a') = cc_in_flight (a_cc_data a) - flight (pkts a s) ->
  reported (a_events a') = reported (a_events a) ++ pkts a s -> tx_inv a' leaked sent [].
Proof.
  intros [I1 I2 I3 I4 I5 I6 I7 I8] D1 D2 D3 D4 D5 D6.
  pose proof (flight_space a s I1) as Hfs.
  assert (Ho : outstanding a ≡ₚ pkts a s ++ outstanding a').
  { unfold outstanding, pkts. rewrite !D1. destruct s; cbn; by solve_Permutation. }
  split; auto.
  - intros s'. rewrite D1. destruct (is_space s s') eqn:E; [|done]. split; [constructor| |constructor..].
    intros pn p. cbn. rewrite lookup_empty, elem_of_nil. naive_solver.
  - intros s'. unfold pkts. rewrite D1, D2. by destruct (is_space s s').
  - rewrite D4, I3, Ho, psum_app. lia.
  - lia.
  - lia.
  - intros s'. unfold pkts. rewrite D1, D3. destruct (is_space s s'); [done|apply I6].
  - rewrite D6, I7, Ho. by solve_Permutation.
Qed.

Lemma discarded_inv a a' s leaked sent ok : tx_inv a leaked sent [] ->
  ossl_ackm_on_pkt_space_discarded now a s = (a', ok) -> tx_inv a' leaked sent [].
Proof.
  intros Hi Hop. unfold ossl_ackm_on_pkt_space_discarded in Hop. fold (disc a s) in Hop.
  destruct (disc a s); [by injection Hop as <- <-|].
  set (a0 := if is_space s QUIC_PN_SPACE_HANDSHAKE then _ else a) in Hop.
  assert (tx_inv a0 leaked sent []) as Hi0.
  { subst a0. destruct (is_space s QUIC_PN_SPACE_HANDSHAKE); [|done]. eapply inv_same_core; [|exact Hi]. by split. }
  clearbody a0. clear Hi. fold (hist a0 s) in Hop. fold (pkts a0 s) in Hop.
  destruct (foldl discard_one (a0, 0) (pkts a0 s)) as [a1 n] eqn:Hl.
  destruct (inv_bounds a0 leaked sent s Hi0) as (B1 & B2 & B3 & B4 & B5).
  pose proof (flight_space a0 s (inv_hist _ _ _ _ Hi0)) as Hfs.
  apply discard_loop in Hl as (L1 & L2 & L3 & L4 & L5 & L6 & L7); [|eapply hist_sizes, (inv_hist _ _ _ _ Hi0)|lia..].
  apply (f_equal fst) in Hop. cbn [fst] in Hop. subst a'. eapply inv_same_core; [apply core_timer|].
  match goal with |- tx_inv ?x _ _ _ => set (a2 := x) end.
  assert (D1 : forall s', hist a2 s' = if is_space s s' then tx_pkt_history_destroy (hist a0 s) else hist a0 s').
  { intros s'. rewrite <- (L1 s), <- (L1 s'). subst a2. by destruct (0 <? n), s, s'. }
  assert (D2 : forall s', ae a2 s' = if is_space s s' then 0 else ae a0 s').
  { intros s'. rewrite <- (L2 s'). subst a2. by destruct (0 <? n), s, s'. }
  assert (D3 : forall s', disc a2 s' = if is_space s s' then true else disc a0 s').
  { intros s'. rewrite <- (L3 s'). subst a2. by destruct (0 <? n), s, s'. }
  assert (D4 : a_bytes_in_flight a2 = a_bytes_in_flight a0 - flight (pkts a0 s)).
  { rewrite <- L5. subst a2. by destruct (0 <? n). }
  assert (D5 : cc_in_flight (a_cc_data a2) = cc_in_flight (a_cc_data a0) - flight (pkts a0 s)).
  { rewrite <- L4. subst a2. pose proof (inv_cc _ _ _ _ Hi0). pose proof (inv_leaked _ _ _ _ Hi0).
    destruct (Z.ltb_spec 0 n); cbn [upd_space upd_cc a_cc_data field_upd]; [|lia].
    rewrite cc_invalidated_law, sub64_small, L4; [lia|]. rewrite L4. u64_side. }
  assert (D6 : reported (a_events a2) = reported (a_events a0) ++ pkts a0 s).
  { rewrite <- L7. subst a2. by destruct (0 <? n). }
  clearbody a2. by apply (discard_inv_fields a0 a2 s).
Qed.

(** *** Pseudo-loss: the congestion controller is not told *)

Lemma filter_single (l : list OSSL_ACKM_TX_PKT) (p : OSSL_ACKM_TX_PKT) : StronglySorted pn_lt l -> p ∈ l ->
  l ≡ₚ [p] ++ List.filter (fun q => negb (pkt_num q =? pkt_num p)) l.
Proof.
  induction 1 as [|x l Hl IH Hx]; [by intros []%elem_of_nil|]. rewrite Forall_forall in Hx. unfold pn_lt in Hx.
  intros [->|Hp]%elem_of_cons; cbn.
  - rewrite Z.eqb_refl. cbn. rewrite filter_all; [done|]. intros q Hq. apply negb_true_iff, Z.eqb_neq. specialize (Hx _ Hq). lia.
  - pose proof (Hx _ Hp). rewrite (proj2 (Z.eqb_neq _ _)) by lia. cbn. rewrite (IH Hp) at 1. cbn. constructor.
Qed.

Definition pseudo_bytes (a : OSSL_ACKM D) (s : pn_space) (pn : QUIC_PN) : Z :=
  match tx_pkt_history_by_pkt_num (hist a s) pn with Some p => flight1 p | None => 0 end.

Lemma pseudo_lost_inv a a' s pn leaked sent ok : tx_inv a leaked sent [] ->
  ossl_ackm_mark_packet_pseudo_lost now a s pn = (a', ok) -> tx_inv a' (leaked + pseudo_bytes a s pn) sent [].
Proof.
  intros Hi Hop. unfold ossl_ackm_mark_packet_pseudo_lost in Hop. unfold pseudo_bytes. fold (hist a s) in Hop.
  destruct (tx_pkt_history_by_pkt_num (hist a s) pn) as [p|] eqn:Hl; [|injection Hop as <- <-; by rewrite Z.add_0_r].
  pose proof (inv_hist _ _ _ _ Hi s) as Hok. apply (hist_map _ _ Hok) in Hl as [Hp <-].
  destruct (remove_ok s (hist a s) p Hok Hp) as (h' & He & Hok' & Hpk & _). rewrite He in Hop. cbn [fst] in Hop.
  apply (f_equal fst) in Hop. cbn [fst] in Hop. subst a'.
  assert (tx_inv (upd_space a s (fun sp => sp <| s_tx_history := h' |>)) leaked sent ([p] ++ [])) as Hi1.
  { eapply take_out_inv; try done. rewrite Hpk. apply filter_single; [apply Hok|done]. }
  apply (on_pkts_lost_inv true _ s) in Hi1. rewrite psum_cons in Hi1. unfold psum in Hi1. cbn [foldr] in Hi1.
  by rewrite Z.add_0_r in Hi1.
Qed.

(** *** The receiving side does not touch the transmit side *)

Lemma core_flush_deadline a s t : same_core a (ackm_set_flush_deadline a s t).
Proof.
  unfold ackm_set_flush_deadline. cbn [a_has_ack_cb field_upd upd_space].
  destruct (a_has_ack_cb a); [|by apply core_upd_space]. etrans; [|by apply core_emit]. by apply core_upd_space.
Qed.

Lemma core_rx_eliciting a t s b : same_core a (ackm_on_rx_ack_eliciting a t s b).
Proof.
  unfold ackm_on_rx_ack_eliciting. destruct (s_rx_ack_desired _); [done|].
  set (a1 := upd_space a s (fun sp => sp <| s_rx_ack_eliciting_pkts_since_last_ack := _ |>)).
  assert (same_core a a1) as Hc by (by apply core_upd_space). clearbody a1.
  destruct (_ || _); [unfold ackm_queue_ack; etrans; [exact Hc|]; etrans; [|apply core_flush_deadline]; by apply core_upd_space|].
  destruct (ossl_time_is_infinite _); (etrans; [exact Hc|apply core_flush_deadline]).
Qed.

Lemma core_rx_packet alloc a a' pkt ok : ossl_ackm_on_rx_packet alloc a pkt = (a', ok) -> same_core a a'.
Proof.
  unfold ossl_ackm_on_rx_packet. destruct (ossl_ackm_is_rx_pn_processable _ _ _); [|by intros [= <- <-]]. cbn [negb].
  set (s := rp_pkt_space pkt). set (a1 := if s_rx_largest_pn _ <? _ then _ else a).
  assert (same_core a a1) as Hc1 by (subst a1; destruct (_ <? _); [by apply core_upd_space|done]). clearbody a1.
  destruct (rx_pkt_history_add_pn _ _ _) as [h ok']. set (a2 := upd_space a1 s _).
  assert (same_core a a2) as Hc2 by (etrans; [exact Hc1|]; by apply core_upd_space). clearbody a2.
  destruct ok'; cbn [negb]; [|by intros [= <- <-]].
  set (a3 := if rp_is_ack_eliciting pkt then _ else a2).
  assert (same_core a a3) as Hc3 by (subst a3; destruct (rp_is_ack_eliciting pkt); [etrans; [exact Hc2|apply core_rx_eliciting]|done]).
  clearbody a3. intros Hop. apply (f_equal fst) in Hop. cbn [fst] in Hop. subst a'.
  repeat (destruct (_ =? _); [etrans; [exact Hc3|by apply core_upd_space]|]). exact Hc3.
Qed.

Lemma core_get_ack_frame a a' s f : ossl_ackm_get_ack_frame now a s = (a', f) -> same_core a a'.
Proof.
  unfold ossl_ackm_get_ack_frame, read_now. intros Hop. apply (f_equal fst) in Hop. cbn [fst] in Hop. subst a'.
  etrans; [|apply core_flush_deadline]. etrans; [|by apply core_upd_space]. etrans; [|by apply core_upd_space]. by split.
Qed.

(** ** Runs *)

Inductive ackm_op :=
| OpTx (p : OSSL_ACKM_TX_PKT)
| OpRxAck (ack : OSSL_QUIC_FRAME_ACK) (s : pn_space) (rx_time : OSSL_TIME)
| OpTimeout
| OpDiscard (s : pn_space)
| OpConfirmed
| OpPseudoLost (s : pn_space) (pn : QUIC_PN)
| OpRx (alloc : bool) (pkt : OSSL_ACKM_RX_PKT)
| OpAckDesired (s : pn_space)
| OpGetAck (s : pn_space)
| OpSetLossCb (fn : bool)
| OpSetAckCb (fn : bool)
| OpSetRxDelay (d : OSSL_TIME)
| OpSetTxDelay (d : OSSL_TIME).

(** The manager, the bytes of pseudo-lost packets, and the packets accepted so
    far. *)
Definition ackm_state : Type := OSSL_ACKM D * Z * list OSSL_ACKM_TX_PKT.

Definition ackm_do (st : ackm_state) (op : ackm_op) : ackm_state :=
  let '(a, leaked, sent) := st in
  match op with
  | OpTx p => let '(a', ok) := ossl_ackm_on_tx_packet now a p in (a', leaked, if ok then p :: sent else sent)
  | OpRxAck ack s t => (fst (ossl_ackm_on_rx_ack_frame now a ack s t), leaked, sent)
  | OpTimeout => (fst (ossl_ackm_on_timeout now a), leaked, sent)
  | OpDiscard s => (fst (ossl_ackm_on_pkt_space_discarded now a s), leaked, sent)
  | OpConfirmed => (fst (ossl_ackm_on_handshake_confirmed now a), leaked, sent)
  | OpPseudoLost s pn =>
      (fst (ossl_ackm_mark_packet_pseudo_lost now a s pn), leaked + pseudo_bytes a s pn, sent)
  | OpRx alloc pkt => (fst (ossl_ackm_on_rx_packet alloc a pkt), leaked, sent)
  | OpAckDesired s => (snd (ossl_ackm_is_ack_desired now a s), leaked, sent)
  | OpGetAck s => (fst (ossl_ackm_get_ack_frame now a s), leaked, sent)
  | OpSetLossCb fn => (ossl_ackm_set_loss_detection_deadline_callback a fn, leaked, sent)
  | OpSetAckCb fn => (ossl_ackm_set_ack_deadline_callback a fn, leaked, sent)
  | OpSetRxDelay d => (ossl_ackm_set_rx_max_ack_delay a d, leaked, sent)
  | OpSetTxDelay d => (ossl_ackm_set_tx_max_ack_delay a d, leaked, sent)
  end.

(** What the callers guarantee: packet numbers in range, no use of a discarded
    space (the assertions of [get_tx_history] and [get_rx_history]), fewer than
    2^64 bytes in flight, decoded ACK frames. *)
Definition op_ok (st : ackm_state) (op : ackm_op) : Prop :=
  let '(a, leaked, sent) := st in
  match op with
  | OpTx p => disc a (pkt_space p) = false /\ 0 <= pkt_num p <= OSSL_QUIC_VLINT_MAX /\ 0 <= num_bytes p /\
      a_bytes_in_flight a + leaked + num_bytes p < U64_MOD /\
      u64 (pkt_time p) /\ u64 (largest_acked p)
  | OpRxAck ack s _ => disc a s = false /\ ack_frame_ok ack
  | OpRx _ pkt => disc a (rp_pkt_space pkt) = false /\ 0 <= rp_pkt_num pkt <= OSSL_QUIC_VLINT_MAX
  | OpPseudoLost s _ | OpGetAck s => disc a s = false
  | _ => True
  end.

Inductive ackm_step : ackm_state -> ackm_state -> Prop :=
| ackm_step_op (st : ackm_state) (op : ackm_op) : op_ok st op -> ackm_step st (ackm_do st op).

Definition ackm_reachable (statm : OSSL_STATM) (cc : D) (is_server : bool) (st : ackm_state) : Prop :=
  rtc ackm_step (ossl_ackm_new statm cc is_server, 0, []) st.

Lemma new_inv (statm : OSSL_STATM) (cc : D) (is_server : bool) : cc_in_flight cc = 0 ->
  tx_inv (ossl_ackm_new statm cc is_server) 0 [] [].
Proof.
  intros Hc. assert (Hp : forall s, pkts (ossl_ackm_new statm cc is_server) s = []) by (by intros []).
  split; try done.
  - intros s. assert (hist (ossl_ackm_new statm cc is_server) s = tx_pkt_history_init) as -> by (by destruct s).
    split; [constructor| |constructor..]. intros pn p. cbn. rewrite lookup_empty, elem_of_nil. naive_solver.
  - intros s. rewrite Hp. by destruct s.
Qed.

Lemma ackm_step_inv (st st' : ackm_state) : ackm_step st st' ->
  tx_inv (fst (fst st)) (snd (fst st)) (snd st) [] -> tx_inv (fst (fst st')) (snd (fst st')) (snd st') [].
Proof.
  intros [[[a leaked] sent] op Hok] Hi. cbn [fst snd] in Hi. unfold ackm_do.
  destruct op as [p|ack s t| |s| |s pn|alloc pkt|s|s|fn|fn|d|d]; cbn [fst snd].
  - destruct Hok as (? & ? & ? & ? & ? & ?). destruct (ossl_ackm_on_tx_packet now a p) as [a' ok] eqn:E. cbn [fst snd].
    by eapply on_tx_packet_inv.
  - destruct (ossl_ackm_on_rx_ack_frame now a ack s t) eqn:E. destruct Hok. by eapply on_rx_ack_frame_inv.
  - destruct (ossl_ackm_on_timeout now a) eqn:E. by eapply on_timeout_inv.
  - destruct (ossl_ackm_on_pkt_space_discarded now a s) eqn:E. by eapply discarded_inv.
  - unfold ossl_ackm_on_handshake_confirmed. cbn [fst].
    eapply inv_same_core; [|exact Hi]. etrans; [|apply core_timer]. by split.
  - destruct (ossl_ackm_mark_packet_pseudo_lost now a s pn) eqn:E. by eapply pseudo_lost_inv.
  - destruct (ossl_ackm_on_rx_packet alloc a pkt) eqn:E. eapply inv_same_core; [by eapply core_rx_packet|done].
  - eapply inv_same_core; [|exact Hi]. unfold ossl_ackm_is_ack_desired.
    destruct (s_rx_ack_desired _); [done|]. by destruct (negb _).
  - destruct (ossl_ackm_get_ack_frame now a s) eqn:E. eapply inv_same_core; [by eapply core_get_ack_frame|done].
  - eapply inv_same_core; [|exact Hi]; by split.
  - eapply inv_same_core; [|exact Hi]; by split.
  - eapply inv_same_core; [|exact Hi]; by split.
  - eapply inv_same_core; [|exact Hi]; by split.
Qed.

Lemma reachable_inv (statm : OSSL_STATM) (cc : D) (is_server : bool) a leaked sent : cc_in_flight cc = 0 ->
  ackm_reachable statm cc is_server (a, leaked, sent) -> tx_inv a leaked sent [].
Proof.
  intros Hc Hr. apply new_inv with (statm := statm) (is_server := is_server) in Hc.
  pose (P (st : ackm_state) := tx_inv (fst (fst st)) (snd (fst st)) (snd st) []).
  change (P (a, leaked, sent)). change (P (ossl_ackm_new statm cc is_server, 0, [])) in Hc. revert Hc Hr.
  unfold ackm_reachable. generalize (ossl_ackm_new statm cc is_server, 0, @nil OSSL_ACKM_TX_PKT). intros st0 Hc Hr.
  induction Hr as [|x y z Hxy _ IH]; [done|]. apply IH, (ackm_step_inv x y Hxy), Hc.
Qed.

Fixpoint ops_ok (st : ackm_state) (ops : list ackm_op) : Prop :=
  match ops with
  | [] => True
  | op :: rest => op_ok st op /\ ops_ok (ackm_do st op) rest
  end.

Lemma run_reaches (ops : list ackm_op) : forall st, ops_ok st ops -> rtc ackm_step st (foldl ackm_do st ops).
Proof.
  induction ops as [|op ops IH]; intros st Hok; [done|]. destruct Hok as [Hop Hok].
  eapply rtc_l; [by constructor|]. by apply IH.
Qed.

(** C6.  Byte accounting.  In every state the manager reaches from its creation
    by any sequence of sent packets, ACK frames, timeouts, discarded spaces,
    pseudo-losses, received packets and settings: [bytes_in_flight] is the sum
    of the in-flight packets still in the history, the per-space ack-eliciting
    count is the sum over that space, and the congestion controller's own count
    is [bytes_in_flight] plus exactly the bytes of the pseudo-lost packets, of
    which it is never told.  No counter ever wraps. *)
Theorem ackm_accounting (statm : OSSL_STATM) (cc : D) (is_server : bool) (a : OSSL_ACKM D) (leaked : Z)
  (sent : list OSSL_ACKM_TX_PKT) :
  cc_in_flight cc = 0 -> ackm_reachable statm cc is_server (a, leaked, sent) ->
  a_bytes_in_flight a = flight (outstanding a) /\
  (forall s, ae a s = eliciting (pkts a s) /\ 0 <= ae a s <= a_bytes_in_flight a) /\
  cc_in_flight (a_cc_data a) = a_bytes_in_flight a + leaked /\
  0 <= leaked /\ a_bytes_in_flight a + leaked < U64_MOD.
Proof.
  intros Hc Hr. pose proof (reachable_inv _ _ _ _ _ _ Hc Hr) as Hi.
  destruct (inv_bounds a leaked sent QUIC_PN_SPACE_APP Hi) as (_ & _ & Hb & _ & _).
  destruct (inv_leaked _ _ _ _ Hi) as [Hl1 Hl2]. pose proof (inv_cc _ _ _ _ Hi).
  split_and!; try done. intros s. destruct (inv_bounds a leaked sent s Hi) as (_ & ? & _ & ? & _). done.
Qed.

(** C21.  Exactly-once reporting.  Every packet the manager accepted is, as a
    multiset, either still in the history or has had exactly one of its three
    callbacks called; a discarded space holds no packet, so that once all
    spaces are discarded every packet has been reported and nothing is in
    flight. *)
Theorem ackm_reports_once (statm : OSSL_STATM) (cc : D) (is_server : bool) (a : OSSL_ACKM D) (leaked : Z)
  (sent : list OSSL_ACKM_TX_PKT) :
  cc_in_flight cc = 0 -> ackm_reachable statm cc is_server (a, leaked, sent) ->
  sent ≡ₚ outstanding a ++ reported (a_events a) /\
  (forall s, disc a s = true -> pkts a s = [] /\ ae a s = 0) /\
  ((forall s, disc a s = true) -> sent ≡ₚ reported (a_events a) /\ a_bytes_in_flight a = 0).
Proof.
  intros Hc Hr. pose proof (reachable_inv _ _ _ _ _ _ Hc Hr) as Hi.
  pose proof (inv_sent _ _ _ _ Hi) as Hs. rewrite app_nil_r in Hs. pose proof (inv_disc _ _ _ _ Hi) as Hd.
  split_and!; [done| |].
  - intros s Hds. rewrite (Hd s Hds). destruct (inv_bounds a leaked sent s Hi) as (_ & _ & _ & -> & _).
    by rewrite (Hd s Hds).
  - intros Hall. assert (outstanding a = []) as Ho by (unfold outstanding; by rewrite !Hd).
    rewrite Ho in Hs. split; [done|]. destruct (inv_bounds a leaked sent QUIC_PN_SPACE_APP Hi) as (_ & _ & -> & _).
    by rewrite Ho.
Qed.
End Inv.

(** ** A run with NewReno *)

Definition demo_now (k : nat) : OSSL_TIME := Z.of_nat (S k) * 1000000000.
Definition demo_pkt (pn : Z) (s : pn_space) : OSSL_ACKM_TX_PKT :=
  mkTxPkt pn 1200 1000000000 QUIC_PN_INVALID s true true false false.
Definition demo_ack (lo hi : Z) : OSSL_QUIC_FRAME_ACK :=
  mkFrameAck [mkAckRange lo hi] 1 ossl_time_zero 0 0 1 true.

(** Six packets; packet 0 is pseudo-lost (Retry), packets 4 and 5 are
    acknowledged and 1, 2, 3 are thereby lost; one packet in the application
    space, a timeout, the handshake is confirmed and the first space
    discarded. *)
Definition demo_ops : list ackm_op :=
  (OpTx ∘ (fun pn => demo_pkt pn QUIC_PN_SPACE_INITIAL) <$> [0; 1; 2; 3; 4; 5]) ++
  [OpPseudoLost QUIC_PN_SPACE_INITIAL 0; OpRxAck (demo_ack 4 5) QUIC_PN_SPACE_INITIAL 0;
   OpTx (demo_pkt 0 QUIC_PN_SPACE_APP); OpTimeout; OpConfirmed; OpDiscard QUIC_PN_SPACE_INITIAL].

Definition demo_start : ackm_state := (ossl_ackm_new ossl_statm_init (newreno_new ∅) false, 0, []).
Definition demo_end : ackm_state := foldl (ackm_do demo_now) demo_start demo_ops.

Lemma demo_reachable : ackm_reachable demo_now ossl_statm_init (newreno_new ∅) false demo_end.
Proof.
  unfold ackm_reachable, demo_end. fold demo_start. apply run_reaches. vm_compute.
  repeat match goal with |- _ /\ _ => split end; try reflexivity; try discriminate. all: repeat constructor; try discriminate.
Qed.

Lemma ackm_accounting_witness :
  let a := fst (fst demo_end) in
  a_bytes_in_flight a = flight (outstanding a) /\
  (forall s, ae a s = eliciting (pkts a s) /\ 0 <= ae a s <= a_bytes_in_flight a) /\
  cc_in_flight (a_cc_data a) = a_bytes_in_flight a + snd (fst demo_end) /\
  0 <= snd (fst demo_end) /\ a_bytes_in_flight a + snd (fst demo_end) < U64_MOD.
Proof.
  apply (ackm_accounting demo_now ossl_statm_init (newreno_new ∅) false _ _ (snd demo_end)); [done|].
  rewrite <- !surjective_pairing. apply demo_reachable.
Defined.

Lemma ackm_reports_once_witness :
  let a := fst (fst demo_end) in
  snd demo_end ≡ₚ outstanding a ++ reported (a_events a) /\
  (forall s, disc a s = true -> pkts a s = [] /\ ae a s = 0) /\
  ((forall s, disc a s = true) -> snd demo_end ≡ₚ reported (a_events a) /\ a_bytes_in_flight a = 0).
Proof.
  apply (ackm_reports_once demo_now ossl_statm_init (newreno_new ∅) false _ (snd (fst demo_end))); [done|].
  rewrite <- !surjective_pairing. apply demo_reachable.
Defined.
