(* ===== verification/AckmAck.v ===== *)
(** * ACK manager: what an ACK frame does

    The exact sets of packets an ACK frame acknowledges and loss detection
    declares lost, in every reachable state, and what becomes of the ECN counts
    in the frame. *)

From S2P Require Import Prelude OsslTime Congestion CcMethod Packet Wire Ackm AckmTx AckmInv.

Definition ev_acked (e : ackm_event) : option OSSL_ACKM_TX_PKT :=
  match e with EvAcked p => Some p | _ => None end.

(** The packets reported acknowledged, in order. *)
Definition acked_events (evs : list ackm_event) : list OSSL_ACKM_TX_PKT := omap ev_acked evs.

Lemma acked_events_app (l l' : list ackm_event) : acked_events (l ++ l') = acked_events l ++ acked_events l'.
Proof. apply omap_app. Qed.

Lemma upd_space_same {D} (a : OSSL_ACKM D) (s : pn_space) (f : ackm_space -> ackm_space) :
  sget (a_space (upd_space a s f)) s = f (sget (a_space a) s).
Proof. unfold upd_space. cbn [a_space field_upd]. apply sget_sset_same. Qed.

Section Ack.
Context {D : Type} `{CC_ACCOUNTING D}.
Context (now : nat -> OSSL_TIME).
Implicit Types (a : OSSL_ACKM D) (s : pn_space).

(** [a'] has the history of [a] in space [s] and the same acknowledgements. *)
Record ack_view (a a' : OSSL_ACKM D) : Prop := {
  av_hist : forall s, hist a' s = hist a s;
  av_acked : acked_events (a_events a') = acked_events (a_events a) }.

#[local] Instance ack_view_preorder : PreOrder ack_view.
Proof. split; [by intros a; split|]. intros a b c [] []. split; intros; congruence. Qed.

Lemma view_upd_space a s (f : ackm_space -> ackm_space) :
  (forall sp, s_tx_history (f sp) = s_tx_history sp) -> ack_view a (upd_space a s f).
Proof.
  intros Hf. split; [|done]. intros s'. rewrite hist_upd. destruct (is_space s s') eqn:E; [|done].
  apply is_space_spec in E as <-. apply Hf.
Qed.

Lemma view_emit a (e : ackm_event) : ev_acked e = None -> ack_view a (emit a e).
Proof. intros He. split; [done|]. unfold emit. cbn. rewrite acked_events_app. unfold acked_events. cbn. rewrite He. apply app_nil_r. Qed.

Lemma view_timer_actual a t : ack_view a (ackm_set_loss_detection_timer_actual a t).
Proof.
  unfold ackm_set_loss_detection_timer_actual. cbn [a_has_loss_cb field_upd]. destruct (a_has_loss_cb a); [|by split].
  etrans; [|by apply view_emit]. by split.
Qed.

Lemma view_timer a : ack_view a (ackm_set_loss_detection_timer now a).
Proof.
  unfold ackm_set_loss_detection_timer. destruct (ackm_get_loss_time_and_space a) as [t0 s0].
  destruct (negb _); [apply view_timer_actual|]. destruct (_ && _); [apply view_timer_actual|].
  unfold ackm_get_pto_time_and_space. destruct (_ =? 0); cbn [read_now]; [|destruct (pto_loop _ _ _ _); apply view_timer_actual].
  etrans; [|apply view_timer_actual]. by split.
Qed.

Lemma view_flight_sub a p : ack_view a (flight_sub a p).
Proof. unfold flight_sub. destruct (is_ack_eliciting p); [|by split]. etrans; [|by apply view_upd_space]. by split. Qed.

Lemma view_lost_one pseudo a p : ack_view a (lost_one pseudo a p).
Proof.
  unfold lost_one. etrans; [|by apply view_emit]. destruct (is_inflight p); [|done].
  etrans; [apply view_flight_sub|]. by destruct pseudo.
Qed.

Lemma view_pkts_lost a s l pseudo : ack_view a (ackm_on_pkts_lost now a s l pseudo).
Proof.
  assert (forall a, ack_view a (foldl (lost_one pseudo) a l)) as Hl.
  { induction l as [|p l IH]; intros b; [done|]. etrans; [apply view_lost_one|apply IH]. }
  etrans; [apply Hl|]. unfold ackm_on_pkts_lost, read_now. by split.
Qed.

Lemma acked_one_events a p : (forall s, hist (acked_one a p) s = hist a s) /\
  acked_events (a_events (acked_one a p)) = acked_events (a_events a) ++ [p].
Proof.
  unfold acked_one. match goal with |- context [emit ?x (EvAcked p)] => set (a1 := x) end.
  assert (ack_view a a1) as [Hh Ha].
  { subst a1. destruct (is_inflight p); [|done]. etrans; [apply view_flight_sub|].
    destruct (negb _); [by apply view_upd_space|done]. }
  clearbody a1. destruct (is_inflight p); (split; [exact Hh|]); cbn; rewrite acked_events_app, Ha; done.
Qed.

Lemma pkts_acked_events (l : list OSSL_ACKM_TX_PKT) : forall a,
  (forall s, hist (ackm_on_pkts_acked a l) s = hist a s) /\
  acked_events (a_events (ackm_on_pkts_acked a l)) = acked_events (a_events a) ++ l.
Proof.
  induction l as [|p l IH]; intros a; [by rewrite app_nil_r|].
  destruct (IH (acked_one a p)) as [H1 H2]. destruct (acked_one_events a p) as [H3 H4].
  change (ackm_on_pkts_acked a (p :: l)) with (ackm_on_pkts_acked (acked_one a p) l).
  split; [intros s; by rewrite H1, H3|]. rewrite H2, H4, <- app_assoc. done.
Qed.

Lemma view_sample_rtt a ack na : ack_view a (ackm_sample_rtt now a ack na).
Proof.
  unfold ackm_sample_rtt, read_now. destruct na as [|p na]; [done|].
  destruct ((pkt_num p =? first_end ack) && _); [|done]. destruct (ossl_time_is_zero _); by split.
Qed.

Lemma view_process_ecn a ack s : ack_view a (ackm_process_ecn now a ack s).
Proof.
  unfold ackm_process_ecn. destruct (_ <? ack_ecnce ack); [|done].
  assert (ack_view a (upd_space a s (fun sp => sp <| s_peer_ecnce := ack_ecnce ack |>))) as Hc by (by apply view_upd_space).
  destruct (tx_pkt_history_by_pkt_num _ _); [|exact Hc]. etrans; [exact Hc|]. by split.
Qed.

(** The part of the handler after the newly acknowledged packets are out. *)
Definition rx_ack_rest (a : OSSL_ACKM D) (ack : OSSL_QUIC_FRAME_ACK) (s : pn_space) (na : list OSSL_ACKM_TX_PKT) : OSSL_ACKM D :=
  let a := ackm_sample_rtt now a ack na in
  let a := if ack_ecn_present ack then ackm_process_ecn now a ack s else a in
  let '(a, lost) := ackm_detect_and_remove_lost_pkts now a s in
  let a := match lost with [] => a | _ :: _ => ackm_on_pkts_lost now a s lost false end in
  let a := ackm_on_pkts_acked a na in
  let a := if a_peer_completed_addr_validation a then a <| a_pto_count := 0 |> else a in
  ackm_set_loss_detection_timer now a.

Lemma rx_ack_rest_view a ack s na : hist_ok s (hist a s) ->
  acked_events (a_events (rx_ack_rest a ack s na)) = acked_events (a_events a) ++ na /\
  (forall p, p ∈ pkts (rx_ack_rest a ack s na) s -> p ∈ pkts a s) /\
  (forall s', is_space s s' = false -> pkts (rx_ack_rest a ack s na) s' = pkts a s').
Proof.
  intros Hok. unfold rx_ack_rest. set (a1 := ackm_sample_rtt now a ack na).
  set (a2 := if ack_ecn_present ack then _ else a1).
  assert (ack_view a a2) as [V1 V2].
  { transitivity a1; [apply view_sample_rtt|]. subst a2. destruct (ack_ecn_present ack); [apply view_process_ecn|done]. }
  clearbody a2. clear a1. assert (hist_ok s (hist a2 s)) as Hok2 by (by rewrite V1).
  destruct (detect_lost_spec now a2 s Hok2) as (h' & -> & (_ & _ & Hk)).
  match goal with |- context [upd_space ?x s ?f] => set (a3 := upd_space x s f) end.
  match goal with |- context [match ?l with [] => a3 | _ :: _ => _ end] => set (lost := l) in * end.
  set (a4 := match lost with [] => a3 | _ :: _ => _ end).
  assert (ack_view a3 a4) as [V3 V4] by (subst a4; destruct lost; [done|apply view_pkts_lost]). clearbody a4.
  destruct (pkts_acked_events na a4) as [V5 V6]. set (a5 := ackm_on_pkts_acked a4 na) in *. clearbody a5.
  set (a6 := if a_peer_completed_addr_validation a5 then _ else a5).
  assert (ack_view a5 a6) as [V7 V8] by (subst a6; by destruct (a_peer_completed_addr_validation a5)). clearbody a6.
  destruct (view_timer a6) as [V9 V10].
  assert (forall s', hist (ackm_set_loss_detection_timer now a6) s' = hist a3 s') as Hh by (intros; congruence).
  split_and!.
  - rewrite V10, V8, V6, V4. subst a3. cbn [a_events upd_space field_upd]. by rewrite V2.
  - intros p. unfold pkts. rewrite Hh. subst a3. rewrite hist_upd, (proj2 (is_space_spec s s)) by done.
    cbn [s_tx_history field_upd]. rewrite Hk. unfold hist_keep. rewrite V1, elem_of_filter_b. tauto.
  - intros s' Hs. unfold pkts. rewrite Hh. subst a3. rewrite hist_upd, Hs. change (hist (a2 <| a_clk := S (a_clk a2) |>) s') with (hist a2 s'). by rewrite V1.
Qed.

Lemma rx_ack_split a ack s t : ossl_ackm_on_rx_ack_frame now a ack s t =
  let a0 := upd_space a s (fun sp =>
    sp <| s_largest_acked_pkt := if s_largest_acked_pkt sp =? QUIC_PN_INVALID then first_end ack
                                 else ossl_quic_pn_max (s_largest_acked_pkt sp) (first_end ack) |>) in
  let must := negb (a_peer_completed_addr_validation a0) && is_space s QUIC_PN_SPACE_HANDSHAKE in
  let a1 := if must then a0 <| a_peer_completed_addr_validation := true |> else a0 in
  let '(a2, na) := ackm_detect_and_remove_newly_acked_pkts a1 ack s in
  (match na with
   | [] => if must then ackm_set_loss_detection_timer now a2 else a2
   | _ :: _ => rx_ack_rest a2 ack s na
   end, true).
Proof.
  unfold ossl_ackm_on_rx_ack_frame. set (a0 := upd_space a s _). cbv zeta.
  destruct (ackm_detect_and_remove_newly_acked_pkts _ ack s) as [a2 [|p na]]; [done|]. unfold rx_ack_rest.
  by destruct (ackm_detect_and_remove_lost_pkts now _ s).
Qed.

(** C7.  In every reachable state an ACK frame acknowledges exactly the
    packets of its space that are in the history and whose number lies in one
    of the frame's ranges: each gets its [on_acked] callback, once, from the
    highest down, and no other packet does; none of them stays in the history,
    and the other spaces keep theirs.  The handler never fails. *)
Theorem ack_frame_acks_exactly (statm : OSSL_STATM) (cc : D) (is_server : bool) (a a' : OSSL_ACKM D) (leaked : Z)
  (sent : list OSSL_ACKM_TX_PKT) (ack : OSSL_QUIC_FRAME_ACK) (s : pn_space) (t : OSSL_TIME) (ok : bool) :
  cc_in_flight cc = 0 -> ackm_reachable now statm cc is_server (a, leaked, sent) -> ack_frame_ok ack ->
  ossl_ackm_on_rx_ack_frame now a ack s t = (a', ok) ->
  let acked := rev (List.filter (in_ranges (frame_ranges ack)) (pkts a s)) in
  ok = true /\ acked_events (a_events a') = acked_events (a_events a) ++ acked /\
  (forall p, p ∈ pkts a' s -> p ∈ pkts a s /\ in_ranges (frame_ranges ack) p = false) /\
  (forall s', s' <> s -> pkts a' s' = pkts a s').
Proof.
  intros Hc Hr Hack Hop acked. pose proof (inv_hist _ _ _ _ (reachable_inv _ _ _ _ _ _ _ Hc Hr) s) as Hok.
  rewrite rx_ack_split in Hop. cbv zeta in Hop. set (a0 := upd_space a s _) in Hop.
  set (must := negb _ && _) in Hop. set (a1 := if must then _ else a0) in Hop.
  assert (ack_view a a1) as [V1 V2].
  { transitivity a0; [by apply view_upd_space|]. subst a1. by destruct must. }
  clearbody a1 must. clear a0. assert (hist_ok s (hist a1 s)) as Hok1 by (by rewrite V1).
  assert (Hns : forall s', s' <> s -> is_space s s' = false) by (intros [] Hne; by destruct s).
  destruct (detect_acked_spec a1 ack s Hok1 Hack) as (h' & He & Hpost). rewrite He in Hop.
  assert (pkts a1 s = pkts a s) as Hp1 by (unfold pkts; by rewrite V1). rewrite Hp1 in *. fold acked in Hop, Hpost.
  pose proof (walk_post_perm _ _ _ (in_ranges (frame_ranges ack)) _ Hok1 Hpost) as Hk.
  set (a2 := upd_space a1 s _) in Hop.
  assert (H2 : pkts a2 s = List.filter (fun p => negb (in_ranges (frame_ranges ack) p)) (pkts a s)).
  { subst a2. unfold pkts. rewrite hist_upd, (proj2 (is_space_spec s s)) by done. cbn [s_tx_history field_upd].
    rewrite Hk; [by rewrite V1|]. intros q. subst acked. rewrite removed_rev. unfold pkts. by rewrite V1. }
  assert (H3 : forall s', s' <> s -> pkts a2 s' = pkts a s').
  { intros s' Hs'. subst a2. unfold pkts. by rewrite hist_upd, Hns, V1. }
  assert (H4 : acked_events (a_events a2) = acked_events (a_events a)) by (subst a2; exact V2).
  assert (Hok2 : hist_ok s (hist a2 s)).
  { subst a2. rewrite hist_upd, (proj2 (is_space_spec s s)) by done. apply Hpost. }
  assert (Hmem : forall p, p ∈ pkts a2 s -> p ∈ pkts a s /\ in_ranges (frame_ranges ack) p = false).
  { intros p. rewrite H2, elem_of_filter_b, negb_true_iff. tauto. }
  clearbody a2. destruct acked as [|p na]; injection Hop as <- <-.
  - rewrite app_nil_r. assert (ack_view a2 (if must then ackm_set_loss_detection_timer now a2 else a2)) as [W1 W2].
    { destruct must; [apply view_timer|done]. }
    split_and!; [done|congruence| |]; unfold pkts at 1; intros; rewrite W1 in *; [by apply Hmem|by apply H3].
  - destruct (rx_ack_rest_view a2 ack s (p :: na) Hok2) as (W1 & W2 & W3).
    split_and!; [done|by rewrite W1, H4| |].
    + intros q Hq. by apply Hmem, W2.
    + intros s' Hs'. rewrite W3 by auto. auto.
Qed.

(** *** Loss detection *)

Lemma time_multiply_u64 (x y : Z) : u64 (ossl_time_multiply x y).
Proof. unfold ossl_time_multiply, safe_mul. destruct (_ <=? _); cbn; auto with u64. Qed.

Lemma loss_delay_bounds (rtt : OSSL_RTT_INFO) : u64 (loss_delay_of rtt) /\ K_GRANULARITY <= loss_delay_of rtt.
Proof.
  unfold loss_delay_of. rewrite time_max_spec, time_divide_spec by done. unfold ossl_ticks2time.
  pose proof (u64_div _ K_TIME_THRESHOLD_DEN (time_multiply_u64 (ossl_time_max (ri_latest_rtt rtt) (ri_smoothed_rtt rtt)) K_TIME_THRESHOLD_NUM) eq_refl) as Hd.
  assert (u64 K_GRANULARITY) by (by vm_compute). unfold u64 in *. lia.
Qed.

Lemma deadline_pos (p : OSSL_ACKM_TX_PKT) (delay : Z) : u64 (pkt_time p) -> u64 delay -> 0 < delay ->
  0 < ossl_time_add (pkt_time p) delay.
Proof. intros Ht Hd Hp. rewrite time_add_spec by done. u64_side. Qed.

(** [time_fold] from a positive value: the minimum. *)
Lemma time_fold_min (delay : Z) (l : list OSSL_ACKM_TX_PKT) : u64 delay -> 0 < delay ->
  Forall (fun p => u64 (pkt_time p)) l -> forall t, 0 < t ->
  let r := foldl (time_fold delay) t l in
  0 < r /\ r <= t /\ (forall p, p ∈ l -> r <= ossl_time_add (pkt_time p) delay) /\
  (r = t \/ exists p, p ∈ l /\ r = ossl_time_add (pkt_time p) delay).
Proof.
  intros Hd Hpos. induction 1 as [|p l Hp Hl IH]; intros t Ht r; subst r; cbn [foldl].
  { split_and!; auto; [lia|by intros p []%elem_of_nil]. }
  pose proof (deadline_pos p delay Hp Hd Hpos) as Hu.
  assert (He : time_fold delay t p = Z.min t (ossl_time_add (pkt_time p) delay)).
  { unfold time_fold. rewrite time_is_zero_spec, (proj2 (Z.eqb_neq t 0)), time_min_spec by lia. done. }
  rewrite He. destruct (IH (Z.min t (ossl_time_add (pkt_time p) delay)) ltac:(lia)) as (R1 & R2 & R3 & R4).
  split_and!; [done|lia| |].
  - intros q [->|Hq]%elem_of_cons; [lia|by apply R3].
  - destruct R4 as [->|(q & Hq & ->)]; [|right; exists q; set_solver].
    destruct (Z.min_spec t (ossl_time_add (pkt_time p) delay)) as [[_ ->]|[_ ->]]; [by left|right; exists p; set_solver].
Qed.

Lemma time_fold_zero (delay : Z) (l : list OSSL_ACKM_TX_PKT) : u64 delay -> 0 < delay ->
  Forall (fun p => u64 (pkt_time p)) l -> l <> [] ->
  let r := foldl (time_fold delay) ossl_time_zero l in
  0 < r /\ (forall p, p ∈ l -> r <= ossl_time_add (pkt_time p) delay) /\
  exists p, p ∈ l /\ r = ossl_time_add (pkt_time p) delay.
Proof.
  intros Hd Hpos Hl Hne. destruct l as [|p l]; [done|]. apply Forall_cons in Hl as [Hp Hl]. cbn [foldl].
  change (time_fold delay ossl_time_zero p) with (ossl_time_add (pkt_time p) delay).
  pose proof (deadline_pos p delay Hp Hd Hpos) as Hu.
  destruct (time_fold_min delay l Hd Hpos Hl _ Hu) as (R1 & R2 & R3 & R4).
  split_and!; [done| |].
  - intros q [->|Hq]%elem_of_cons; [lia|by apply R3].
  - destruct R4 as [->|(q & Hq & ->)]; [exists p|exists q]; set_solver.
Qed.

(** C31.  Loss detection is exact in every reachable state: with the delay
    [max(9/8 max(latest_rtt, smoothed_rtt), 1 ms)], the packets taken out as
    lost are exactly those at or below the largest acknowledged number that
    were sent at or before [now - delay] or are at least three behind it; the
    rest of the history stays; and the loss time becomes the earliest
    [time + delay] among the packets that are at or below the largest
    acknowledged and not lost, or zero if there is none. *)
Theorem loss_detection_exact (statm : OSSL_STATM) (cc : D) (is_server : bool) (a : OSSL_ACKM D) (leaked : Z)
  (sent : list OSSL_ACKM_TX_PKT) (s : pn_space) :
  cc_in_flight cc = 0 -> ackm_reachable now statm cc is_server (a, leaked, sent) ->
  let delay := loss_delay_of (ossl_statm_get_rtt_info (a_statm a)) in
  let lost := is_lost (s_largest_acked_pkt (sget (a_space a) s)) (ossl_time_subtract (now (a_clk a)) delay) in
  let pending := List.filter (is_pending (s_largest_acked_pkt (sget (a_space a) s))
                    (ossl_time_subtract (now (a_clk a)) delay)) (pkts a s) in
  exists a', ackm_detect_and_remove_lost_pkts now a s = (a', List.filter lost (pkts a s)) /\
    pkts a' s = List.filter (fun p => negb (lost p)) (pkts a s) /\
    let loss_time := s_loss_time (sget (a_space a') s) in
    (pending = [] -> loss_time = ossl_time_zero) /\
    (pending <> [] -> 0 < loss_time /\
       (forall p, p ∈ pending -> loss_time <= ossl_time_add (pkt_time p) delay) /\
       exists p, p ∈ pending /\ loss_time = ossl_time_add (pkt_time p) delay).
Proof.
  intros Hc Hr delay lost pending. pose proof (inv_hist _ _ _ _ (reachable_inv _ _ _ _ _ _ _ Hc Hr) s) as Hok.
  destruct (detect_lost_spec now a s Hok) as (h' & He & Hpost). fold delay in He, Hpost. fold lost in He, Hpost.
  fold pending in He. eexists. split; [exact He|].
  rewrite upd_space_same. cbn [s_loss_time field_upd]. split_and!.
  - unfold pkts. rewrite hist_upd, (proj2 (is_space_spec s s)) by done. cbn [s_tx_history field_upd].
    by apply (walk_post_perm s _ _ lost _ Hok Hpost).
  - by intros ->.
  - intros Hne. destruct (loss_delay_bounds (ossl_statm_get_rtt_info (a_statm a))) as [Hd Hg].
    apply time_fold_zero; try done.
    + fold delay in Hg. unfold K_GRANULARITY in Hg. change OSSL_TIME_MS with 1000000 in Hg. lia.
    + apply Forall_filter_b. eapply Forall_impl; [apply (hist_pkts _ _ Hok)|]. by intros p (_ & _ & _ & _ & ? & _).
Qed.

End Ack.

(** ** ECN *)

Section Ecn.
Context {D : Type} {M0 : OSSL_CC_METHOD D} {HA : CC_ACCOUNTING D}.
Context (now : nat -> OSSL_TIME).
Implicit Types (a : OSSL_ACKM D) (s : pn_space).

(** The controller [M] with another reaction to ECN reports. *)
Definition with_ecn (M : OSSL_CC_METHOD D) (f : OSSL_TIME -> D -> OSSL_TIME -> D) : OSSL_CC_METHOD D := {|
  cc_on_data_sent := @cc_on_data_sent D M; cc_on_data_acked := @cc_on_data_acked D M;
  cc_on_data_lost := @cc_on_data_lost D M; cc_on_data_lost_finished := @cc_on_data_lost_finished D M;
  cc_on_data_invalidated := @cc_on_data_invalidated D M; cc_on_ecn := f |}.

(** What is left of [ackm_process_ecn] when the packet is not found. *)
Definition ecn_count (a : OSSL_ACKM D) (ack : OSSL_QUIC_FRAME_ACK) (s : pn_space) : OSSL_ACKM D :=
  if s_peer_ecnce (sget (a_space a) s) <? ack_ecnce ack
  then upd_space a s (fun sp => sp <| s_peer_ecnce := ack_ecnce ack |>) else a.

Lemma process_ecn_not_found (M : OSSL_CC_METHOD D) a ack s :
  tx_pkt_history_by_pkt_num (hist a s) (first_end ack) = None ->
  @ackm_process_ecn D M now a ack s = ecn_count a ack s.
Proof.
  intros Hn. unfold ackm_process_ecn, ecn_count. destruct (_ <? ack_ecnce ack); [|done].
  rewrite upd_space_same. cbn [s_tx_history field_upd]. unfold hist in Hn. by rewrite Hn.
Qed.

Lemma rest_with_ecn (M : OSSL_CC_METHOD D) f a ack s na :
  tx_pkt_history_by_pkt_num (hist a s) (first_end ack) = None ->
  @rx_ack_rest D M now a ack s na = @rx_ack_rest D (with_ecn M f) now a ack s na.
Proof.
  intros Hn. unfold rx_ack_rest. set (a1 := ackm_sample_rtt now a ack na).
  assert (tx_pkt_history_by_pkt_num (hist a1 s) (first_end ack) = None) as Hn1.
  { destruct (view_sample_rtt now a ack na) as [Hh _]. fold a1 in Hh. by rewrite Hh. }
  clearbody a1. rewrite !process_ecn_not_found by done. done.
Qed.

(** In every reachable state the handling of an ACK frame does not depend
    on the controller's [on_ecn]: whatever function stands in its place the
    resulting state is the same.  The packet whose send time
    [ackm_process_ecn] needs is the largest one the frame acknowledges, and it
    has always been taken out of the history before the lookup, so an increase
    of the peer's ECN-CE count never reaches the congestion controller. *)
Theorem ecn_never_signalled (statm : OSSL_STATM) (cc : D) (is_server : bool) (a : OSSL_ACKM D) (leaked : Z)
  (sent : list OSSL_ACKM_TX_PKT) (ack : OSSL_QUIC_FRAME_ACK) (s : pn_space) (t : OSSL_TIME)
  (f : OSSL_TIME -> D -> OSSL_TIME -> D) :
  cc_in_flight cc = 0 -> ackm_reachable now statm cc is_server (a, leaked, sent) -> ack_frame_ok ack ->
  ossl_ackm_on_rx_ack_frame now a ack s t = @ossl_ackm_on_rx_ack_frame D (with_ecn _ f) now a ack s t.
Proof.
  intros Hc Hr Hack. pose proof (inv_hist _ _ _ _ (reachable_inv _ _ _ _ _ _ _ Hc Hr) s) as Hok.
  rewrite !rx_ack_split. cbv zeta. set (a0 := upd_space a s _). set (must := negb _ && _).
  set (a1 := if must then _ else a0). assert (forall s, hist a1 s = hist a s) as Hh.
  { intros s'. transitivity (hist a0 s'); [subst a1; by destruct must|]. by apply view_upd_space. }
  clearbody a1 must. clear a0. assert (hist_ok s (hist a1 s)) as Hok1 by (by rewrite Hh).
  destruct (detect_acked_spec a1 ack s Hok1 Hack) as (h' & -> & Hpost).
  set (acked := rev _) in *. destruct acked as [|p na] eqn:Ea; [done|]. rewrite <- Ea in *. f_equal. apply rest_with_ecn.
  rewrite hist_upd, (proj2 (is_space_spec s s)) by done. cbn [s_tx_history field_upd].
  destruct (first_end_frame ack Hack) as (r0 & rs & Hrs & ->). destruct Hack as (_ & _ & [_ Hle]).
  rewrite Hrs in Hle. apply Forall_cons in Hle as [Hle _].
  unfold tx_pkt_history_by_pkt_num. destruct (h_map h' !! ar_end r0) as [q|] eqn:Hq; [|done]. exfalso.
  apply (hist_map _ _ (proj1 Hpost)) in Hq as [Hq Hn].
  rewrite (walk_post_perm _ _ _ (in_ranges (frame_ranges ack)) _ Hok1 Hpost) in Hq by (intros; subst acked; apply removed_rev).
  apply elem_of_filter_b in Hq as [Hq _]. rewrite Hrs in Hq. unfold in_ranges in Hq. cbn [existsb] in Hq.
  rewrite (proj2 (range_contains_spec r0 (pkt_num q))) in Hq by lia. done.
Qed.
End Ecn.

(** ** Instances *)

(** The state of [demo_ops] before the ACK frame arrives. *)
Definition demo_mid : ackm_state := foldl (ackm_do demo_now) demo_start (take 7 demo_ops).

Lemma demo_mid_reachable : ackm_reachable demo_now ossl_statm_init (newreno_new ∅) false demo_mid.
Proof.
  unfold ackm_reachable, demo_mid. fold demo_start. apply run_reaches. vm_compute.
  repeat match goal with |- _ /\ _ => split end; try reflexivity; try discriminate. all: repeat constructor; discriminate.
Qed.

Lemma demo_ack_ok (lo hi : Z) : lo <= hi -> ack_frame_ok (demo_ack lo hi).
Proof. intros Hle. split_and!; [done|done|]. split; repeat constructor. exact Hle. Qed.

Lemma ack_frame_acks_exactly_witness :
  let a := fst (fst demo_mid) in
  let a' := fst (ossl_ackm_on_rx_ack_frame demo_now a (demo_ack 4 5) QUIC_PN_SPACE_INITIAL 0) in
  acked_events (a_events a') = acked_events (a_events a) ++
    [demo_pkt 5 QUIC_PN_SPACE_INITIAL; demo_pkt 4 QUIC_PN_SPACE_INITIAL].
Proof.
  refine (proj1 (proj2 (ack_frame_acks_exactly demo_now ossl_statm_init (newreno_new ∅) false _ _
    (snd (fst demo_mid)) (snd demo_mid) (demo_ack 4 5) QUIC_PN_SPACE_INITIAL 0
    (snd (ossl_ackm_on_rx_ack_frame demo_now (fst (fst demo_mid)) (demo_ack 4 5) QUIC_PN_SPACE_INITIAL 0)) _ _ _ _))).
  - done.
  - rewrite <- !surjective_pairing. apply demo_mid_reachable.
  - by apply demo_ack_ok.
  - apply surjective_pairing.
Defined.

(** Six packets sent at 2.5 s; the ACK of packet 5 leaves 3 and 4 pending, and
    they are lost by the time of the next check. *)
Definition late_pkt (pn : Z) : OSSL_ACKM_TX_PKT :=
  mkTxPkt pn 1200 2500000000 QUIC_PN_INVALID QUIC_PN_SPACE_APP true true false false.
Definition late_ops : list ackm_op :=
  (OpTx ∘ late_pkt <$> [0; 1; 2; 3; 4; 5]) ++ [OpRxAck (demo_ack 5 5) QUIC_PN_SPACE_APP 0].
Definition late_end : ackm_state := foldl (ackm_do demo_now) demo_start late_ops.

Lemma late_reachable : ackm_reachable demo_now ossl_statm_init (newreno_new ∅) false late_end.
Proof.
  unfold ackm_reachable, late_end. fold demo_start. apply run_reaches. vm_compute.
  repeat match goal with |- _ /\ _ => split end; try reflexivity; try discriminate. all: repeat constructor; discriminate.
Qed.

Lemma loss_detection_exact_witness :
  pkts (fst (fst late_end)) QUIC_PN_SPACE_APP = [late_pkt 3; late_pkt 4] /\
  exists a', ackm_detect_and_remove_lost_pkts demo_now (fst (fst late_end)) QUIC_PN_SPACE_APP
    = (a', [late_pkt 3; late_pkt 4]).
Proof.
  split; [by vm_compute|].
  destruct (loss_detection_exact demo_now ossl_statm_init (newreno_new ∅) false (fst (fst late_end))
    (snd (fst late_end)) (snd late_end) QUIC_PN_SPACE_APP) as (a' & He & _).
  - done.
  - rewrite <- !surjective_pairing. apply late_reachable.
  - exists a'. etrans; [exact He|]. f_equal.
Defined.

Lemma ecn_never_signalled_witness :
  ossl_ackm_on_rx_ack_frame demo_now (fst (fst demo_mid)) (demo_ack 4 5) QUIC_PN_SPACE_INITIAL 0
  = @ossl_ackm_on_rx_ack_frame OSSL_CC_NEWRENO (with_ecn newreno_method (fun _ _ _ => newreno_new ∅)) demo_now
      (fst (fst demo_mid)) (demo_ack 4 5) QUIC_PN_SPACE_INITIAL 0.
Proof.
  apply (ecn_never_signalled demo_now ossl_statm_init (newreno_new ∅) false _ (snd (fst demo_mid)) (snd demo_mid)).
  - done.
  - rewrite <- !surjective_pairing. apply demo_mid_reachable.
  - by apply demo_ack_ok.
Defined.
