(* ===== verification/AckmRx.v ===== *)
(** * ACK manager: received packets and the ACK frames generated for them

    The received packet numbers of a space as an abstract set with a
    watermark: no number is accepted twice, the set stays bounded, and a
    generated frame acknowledges only numbers that were received. *)

From S2P Require Import Prelude UintSet OsslTime Congestion CcMethod Packet Wire Ackm AckmTx AckmInv AckmAck.

(** ** The history of one space *)

(** Numbers that a further packet may not carry. *)
Definition blocked (h : rx_pkt_history_st) (pn : QUIC_PN) : Prop := pn < rh_watermark h \/ us_has (rh_set h) pn.

Record rx_pre (h : rx_pkt_history_st) : Prop := {
  rx_gaps : us_gaps (rh_set h);
  rx_wm : u64 (rh_watermark h);
  rx_members : forall v, us_has (rh_set h) v -> rh_watermark h <= v <= OSSL_QUIC_VLINT_MAX }.

Definition rx_ok (h : rx_pkt_history_st) : Prop := rx_pre h /\ zlen (rh_set h) <= MAX_RX_ACK_RANGES.

(** [h'] remembers at least what [h] refuses, and contains nothing new but
    numbers in [new]. *)
Record rx_grows (new : Z -> Prop) (h h' : rx_pkt_history_st) : Prop := {
  rg_wm : rh_watermark h <= rh_watermark h';
  rg_blocked : forall pn, blocked h pn -> blocked h' pn;
  rg_members : forall v, us_has (rh_set h') v -> us_has (rh_set h) v \/ new v }.

Abbreviation rx_shrinks := (rx_grows (fun _ => False)).

Lemma rx_grows_refl (new : Z -> Prop) (h : rx_pkt_history_st) : rx_grows new h h.
Proof. split; auto; lia. Qed.

Lemma rx_grows_trans (new : Z -> Prop) (h1 h2 h3 : rx_pkt_history_st) :
  rx_grows new h1 h2 -> rx_shrinks h2 h3 -> rx_grows new h1 h3.
Proof.
  intros [A1 A2 A3] [B1 B2 B3]. split; [lia|auto|]. intros v Hv. destruct (B3 v Hv) as [Hv'|[]]. auto.
Qed.

(** Removing a prefix of the integers neither splits an item nor allocates. *)
Lemma remove_low_walk (alloc : bool) (e : Z) (rz : UINT_SET) : Forall range_ok rz -> forall after,
  exists s', remove_walk alloc (mkRange 0 e) rz after = Some s' /\ (length s' <= length rz + length after)%nat.
Proof.
  induction 1 as [|z rz Hz Hrz IH]; intros after; cbn [remove_walk r_start r_end]; [by eexists|].
  unfold range_ok in Hz. rewrite (proj2 (Z.ltb_ge (r_end z) 0)), (proj2 (Z.leb_le 0 (r_start z))) by lia. cbn [andb].
  destruct (Z.leb_spec (r_end z) e).
  { destruct (IH after) as (s' & -> & ?). exists s'. cbn. split; [done|lia]. }
  destruct (Z.leb_spec (r_start z) e).
  { destruct (IH (z <| r_start := e +u 1 |> :: after)) as (s' & -> & Hl). exists s'. cbn in *. split; [done|lia]. }
  rewrite (proj2 (Z.ltb_ge (r_start z) 0)) by lia. cbn [andb].
  destruct (IH (z :: after)) as (s' & -> & Hl). exists s'. cbn in *. split; [done|lia].
Qed.

Lemma remove_low_length (s s' : UINT_SET) (e : Z) (ok : bool) : Forall range_ok s ->
  ossl_uint_set_remove true s (mkRange 0 e) = Some (s', ok) -> zlen s' <= zlen s.
Proof.
  intros Hs. unfold ossl_uint_set_remove. destruct (negb _); [by intros [= <- <-]|].
  destruct (remove_low_walk true e (rev s) ltac:(by apply Forall_rev) []) as (t & -> & Hl). intros [= <- <-].
  rewrite length_rev in Hl. cbn in Hl. unfold zlen. lia.
Qed.

Lemma bump_spec (h h' : rx_pkt_history_st) (w : Z) (ok : bool) : rx_pre h -> u64 w ->
  rx_pkt_history_bump_watermark h w = (h', ok) ->
  ok = true /\ rx_pre h' /\ zlen (rh_set h') <= zlen (rh_set h) /\ rx_shrinks h h' /\
  rh_watermark h' = Z.max (rh_watermark h) w /\
  forall v, us_has (rh_set h) v -> rh_watermark h' <= v -> us_has (rh_set h') v.
Proof.
  intros [Hg Hw Hm] Hu. unfold rx_pkt_history_bump_watermark. destruct (Z.leb_spec w (rh_watermark h)) as [Hle|Hle].
  { intros [= <- <-]. split_and!; auto using rx_grows_refl; try done; lia. }
  rewrite sub64_small by u64_side.
  assert (Hr : range_ok (mkRange 0 (w - 1))) by (unfold range_ok; cbn; u64_side).
  destruct (remove_spec gap_before (rh_set h) (mkRange 0 (w - 1))) as (s' & He & Hg' & Hv); auto.
  rewrite He. intros [= <- <-]. cbn [rh_set rh_watermark].
  assert (Hin : forall v, us_has s' v <-> us_has (rh_set h) v /\ w <= v).
  { intros v. rewrite Hv. unfold in_range. cbn. split; intros [H1 H2]; (split; [done|]); specialize (Hm v H1); u64_side. }
  split_and!; try done; [split; cbn; auto|eapply remove_low_length; [apply Hg|exact He]|split; cbn| |]; try lia.
  - intros v Hv'. apply Hin in Hv' as [H1 H2]. specialize (Hm v H1). lia.
  - intros pn [Hb|Hb]; unfold blocked; cbn; [lia|]. destruct (Z.lt_ge_cases pn w); [by left|right; by apply Hin].
  - intros v Hv'. left. by apply Hin.
  - intros v H1 H2. by apply Hin.
Qed.

(** Removing the first item. *)
Lemma remove_first_walk (alloc : bool) (r : UINT_RANGE) (rz : UINT_SET) : range_ok r -> forall after,
  (forall b, b ∈ rz -> r_end r < r_start b /\ range_ok b) ->
  remove_walk alloc r (rz ++ [r]) after = Some (rev rz ++ after).
Proof.
  intros Hr. unfold range_ok in *. induction rz as [|z rz IH]; intros after Hz; cbn [app remove_walk].
  - rewrite (proj2 (Z.ltb_ge (r_end r) (r_start r))) by lia. by rewrite !(proj2 (Z.leb_le _ _)) by lia.
  - destruct (Hz z ltac:(set_solver)) as [H1 H2].
    rewrite (proj2 (Z.ltb_ge (r_end z) (r_start r))), (proj2 (Z.leb_gt (r_end z) (r_end r))),
      (proj2 (Z.leb_gt (r_start z) (r_end r))), (proj2 (Z.ltb_ge (r_start z) (r_start r))) by lia.
    rewrite !andb_false_r. cbn [andb]. rewrite IH by set_solver. cbn [rev]. by rewrite <- app_assoc.
Qed.

Lemma remove_first (r : UINT_RANGE) (s : UINT_SET) : us_gaps (r :: s) -> ossl_uint_set_remove true (r :: s) r = Some (s, true).
Proof.
  intros (Hr & Hs & Hb)%chain_cons. unfold ossl_uint_set_remove.
  rewrite (proj2 (Z.leb_le _ _)) by apply Hr. cbn [negb rev].
  rewrite remove_first_walk; [by rewrite rev_involutive, app_nil_r|done|].
  intros b Hin. rewrite elem_of_rev in Hin. pose proof (chain_ok _ _ _ Hs Hin). specialize (Hb b Hin). unfold gap_before in Hb. split; [lia|done].
Qed.

(** The loop drops a prefix [d]; [highest] is the end of its last range. *)
Lemma trim_loop_spec (fuel : nat) : forall s hi s' hi',
  us_gaps s -> (forall v, us_has s v -> v <= OSSL_QUIC_VLINT_MAX) ->
  hi = QUIC_PN_INVALID \/ (forall r, r ∈ s -> hi < r_end r) -> (length s <= fuel)%nat ->
  trim_loop fuel s hi = (s', hi') ->
  exists d, s = d ++ s' /\ zlen s' <= MAX_RX_ACK_RANGES /\
    hi' = match last d with Some r => r_end r | None => hi end.
Proof.
  induction fuel as [|fuel IH]; intros s hi s' hi' Hg Hm Hhi Hl Ht.
  { destruct s; [|cbn in Hl; lia]. injection Ht as <- <-. by exists []. }
  destruct s as [|r s]; [injection Ht as <- <-; by exists []|]. cbn [trim_loop] in Ht.
  destruct (Z.ltb_spec MAX_RX_ACK_RANGES (zlen (r :: s))) as [_|Hle]; [|injection Ht as <- <-; by exists []].
  rewrite remove_first in Ht by done. pose proof Hg as (Hr & Hs & Hb)%chain_cons. unfold range_ok in Hr.
  assert (Hrm : r_end r <= OSSL_QUIC_VLINT_MAX) by (apply Hm, us_has_cons; left; unfold in_range; lia).
  assert (Hnew : (if hi =? QUIC_PN_INVALID then r_end r else ossl_quic_pn_max hi (r_end r)) = r_end r).
  { destruct (Z.eqb_spec hi QUIC_PN_INVALID); [done|]. destruct Hhi as [?|Hhi]; [done|].
    specialize (Hhi r ltac:(set_solver)). unfold ossl_quic_pn_max. by rewrite (proj2 (Z.ltb_ge _ _)) by lia. }
  rewrite Hnew in Ht. apply IH in Ht as (d & -> & Hlen & Hd); [|done| | |cbn in Hl; lia].
  - exists (r :: d). split_and!; [done..|]. rewrite Hd. destruct d as [|x d]; [done|]. rewrite last_cons_cons.
    by destruct (last (x :: d)) eqn:E; [|apply last_None in E].
  - intros v Hv. apply Hm, us_has_cons. by right.
  - right. intros x Hx. pose proof (chain_ok _ _ _ Hs Hx). specialize (Hb x Hx). unfold gap_before, range_ok in *. lia.
Qed.

Lemma gaps_prefix (d s : UINT_SET) (r : UINT_RANGE) : us_gaps (d ++ s) -> last d = Some r ->
  (forall v, us_has d v -> v <= r_end r) /\ (forall v, us_has s v -> r_end r < v).
Proof.
  intros Hg (d' & ->)%last_Some. apply chain_app in Hg as (Hd & Hs & Hds). apply chain_snoc in Hd as (Hd & Hr & Hlt).
  unfold range_ok in Hr. split.
  - intros v. rewrite us_has_app, us_has_cons. intros [Hv|[Hv|[]%us_has_nil]]; [|unfold in_range in Hv; lia].
    apply us_has_elem in Hv as (x & Hx & Hv). specialize (Hlt x Hx). unfold gap_before, in_range in *. lia.
  - intros v (x & Hx & Hv)%us_has_elem. specialize (Hds r x ltac:(set_solver) Hx). unfold gap_before, in_range in *. lia.
Qed.

Lemma trim_spec (h : rx_pkt_history_st) : rx_pre h ->
  rx_ok (rx_pkt_history_trim_range_count h) /\ rx_shrinks h (rx_pkt_history_trim_range_count h).
Proof.
  intros Hp. pose proof Hp as [Hg Hw Hm]. unfold rx_pkt_history_trim_range_count. pose proof max_vlint_u64.
  destruct (trim_loop (length (rh_set h)) (rh_set h) QUIC_PN_INVALID) as [s hi] eqn:Ht.
  apply trim_loop_spec in Ht as (d & Hs & Hlen & ->); [|done|by intros v Hv; apply Hm|by left|done].
  rewrite Hs in Hg. pose proof Hg as (_ & Hgs & _)%chain_app.
  assert (Hp' : rx_pre (h <| rh_set := s |>)).
  { split; cbn; auto. intros v Hv. apply Hm. rewrite Hs, us_has_app. by right. }
  destruct (last d) as [r|] eqn:Hl.
  - destruct (gaps_prefix d s r Hg Hl) as [Hd Hs'].
    assert (Hr : r_end r <= OSSL_QUIC_VLINT_MAX /\ 0 <= r_end r).
    { apply last_Some in Hl as (d' & ->). rewrite <- app_assoc in Hg. apply chain_app in Hg as (_ & (Hr & _)%chain_cons & _).
      unfold range_ok in Hr. split; [|lia]. apply Hm. rewrite Hs, !us_has_app, us_has_cons. left; right; left. unfold in_range; lia. }
    rewrite (proj2 (Z.eqb_neq (r_end r) QUIC_PN_INVALID)) by (unfold QUIC_PN_INVALID; u64_side). cbn [negb].
    rewrite add64_small by u64_side.
    destruct (rx_pkt_history_bump_watermark (h <| rh_set := s |>) (r_end r + 1)) as [h' ok] eqn:Hb.
    apply bump_spec in Hb as (_ & Hp2 & Hlen2 & [_ B2 B3] & Hwm & Hkeep); [|done|u64_side]. cbn [fst rh_set rh_watermark field_upd] in *.
    split; [split; [done|lia]|]. split; [lia| |].
    + intros pn [Hpn|Hpn]; [left; lia|]. rewrite Hs, us_has_app in Hpn. destruct Hpn as [Hpn|Hpn].
      * left. specialize (Hd pn Hpn). lia.
      * apply B2. by right.
    + intros v Hv. destruct (B3 v Hv) as [Hv'|[]]. left. rewrite Hs, us_has_app. by right.
  - apply last_None in Hl as ->. cbn [app] in Hs. rewrite Z.eqb_refl. cbn [negb]. subst s.
    split; [by split|]. by split; auto; cbn; lia.
Qed.

Lemma add_pn_spec (alloc : bool) (h h' : rx_pkt_history_st) (pn : Z) (ok : bool) : rx_ok h -> 0 <= pn <= OSSL_QUIC_VLINT_MAX ->
  rx_pkt_history_add_pn alloc h pn = (h', ok) ->
  rx_ok h' /\ rx_grows (eq pn) h h' /\ (ok = true -> blocked h' pn) /\ (alloc = true -> ok = true).
Proof.
  intros [Hp Hlen] Hpn. pose proof Hp as [Hg Hw Hm]. unfold rx_pkt_history_add_pn. pose proof max_vlint_u64.
  destruct (Z.ltb_spec pn (rh_watermark h)) as [Hlt|Hge].
  { intros [= <- <-]. split_and!; auto using rx_grows_refl; [by split|]. by left. }
  assert (Hr : range_ok (mkRange pn pn)) by (unfold range_ok; cbn; lia).
  destruct (ossl_uint_set_insert alloc (rh_set h) (mkRange pn pn)) as [s' b] eqn:Hi.
  pose proof (insert_spec _ _ _ _ _ (us_gaps_wf _ Hg) Hr Hi) as (_ & Hv & Hf).
  pose proof (insert_point_gaps_aux _ _ _ _ _ Hg Hr eq_refl Hi) as Hg'.
  destruct b; intros Heq.
  - specialize (Hv eq_refl). unfold in_range in Hv. cbn in Hv.
    assert (Hp' : rx_pre (h <| rh_set := s' |>)).
    { split; cbn; auto. intros v [Hv'|Hv']%Hv; [by apply Hm|lia]. }
    assert (Hgr : rx_grows (eq pn) h (h <| rh_set := s' |>)).
    { split; cbn; [lia| |].
      - intros q [Hq|Hq]; [by left|right]. cbn. apply Hv. by left.
      - intros v [Hv'|Hv']%Hv; [by left|right; lia]. }
    apply trim_spec in Hp' as [Hok Hsh]. injection Heq as <- <-. split_and!; auto.
    + by eapply rx_grows_trans.
    + intros _. apply Hsh. right. cbn. apply Hv. right. lia.
  - destruct (Hf eq_refl) as [-> Ha]. pose proof (f_equal snd Heq) as Hok. apply (f_equal fst) in Heq. cbn in Heq, Hok. subst ok.
    assert (h' = h) as -> by (rewrite <- Heq; by destruct h). split_and!; auto using rx_grows_refl; [by split|done|congruence].
Qed.

Lemma processable_spec (h : rx_pkt_history_st) (pn : QUIC_PN) : rx_pre h ->
  ((rh_watermark h <=? pn) && negb (ossl_uint_set_query (rh_set h) pn) = false <-> blocked h pn).
Proof.
  intros [Hg _ _]. pose proof (query_spec (rh_set h) pn (us_gaps_wf _ Hg)) as Hq.
  rewrite andb_false_iff, negb_false_iff, Hq, Z.leb_gt. done.
Qed.

(** ** The manager *)

Section Rx.
Context {D : Type} `{CC_ACCOUNTING D}.
Context (now : nat -> OSSL_TIME).
Implicit Types (a : OSSL_ACKM D) (s : pn_space).

Definition rxh (a : OSSL_ACKM D) (s : pn_space) : rx_pkt_history_st := s_rx_history (sget (a_space a) s).

Definition same_rx (a a' : OSSL_ACKM D) : Prop := forall s, rxh a' s = rxh a s.
Definition rx_mono (a a' : OSSL_ACKM D) : Prop :=
  forall s, rx_ok (rxh a s) -> rx_ok (rxh a' s) /\ rx_shrinks (rxh a s) (rxh a' s).

#[local] Existing Instance same_core_preorder.

#[local] Instance same_rx_preorder : PreOrder same_rx.
Proof. split; [done|]. intros a b c Hab Hbc s. by rewrite Hbc, Hab. Qed.

#[local] Instance rx_mono_preorder : PreOrder rx_mono.
Proof.
  split; [intros a s Hok; split; [done|apply rx_grows_refl]|]. intros a b c Hab Hbc s Hok.
  destruct (Hab s Hok) as [H1 H2]. destruct (Hbc s H1) as [H3 H4]. split; [done|by eapply rx_grows_trans].
Qed.

#[local] Hint Extern 0 (same_rx _ _) => (intros ?; reflexivity) : core.

Lemma same_rx_mono a a' : same_rx a a' -> rx_mono a a'.
Proof. intros Hs s Hok. rewrite Hs. split; [done|apply rx_grows_refl]. Qed.

Lemma rxh_upd a s s' (f : ackm_space -> ackm_space) :
  rxh (upd_space a s f) s' = if is_space s s' then s_rx_history (f (sget (a_space a) s)) else rxh a s'.
Proof. unfold rxh, upd_space. cbn [a_space field_upd]. rewrite sget_sset. by destruct (is_space s s'). Qed.

Lemma rx_upd_space a s (f : ackm_space -> ackm_space) :
  (forall sp, s_rx_history (f sp) = s_rx_history sp) -> same_rx a (upd_space a s f).
Proof.
  intros Hf s'. rewrite rxh_upd. destruct (is_space s s') eqn:E; [|done]. apply is_space_spec in E as <-. apply Hf.
Qed.

Lemma rx_emit a e : same_rx a (emit a e).
Proof. done. Qed.

Lemma rx_timer a : same_rx a (ackm_set_loss_detection_timer now a).
Proof.
  assert (Ha : forall a t, same_rx a (ackm_set_loss_detection_timer_actual a t)).
  { intros b t. unfold ackm_set_loss_detection_timer_actual. by destruct (a_has_loss_cb _). }
  unfold ackm_set_loss_detection_timer. destruct (ackm_get_loss_time_and_space a) as [t0 s0].
  destruct (negb _); [apply Ha|]. destruct (_ && _); [apply Ha|].
  unfold ackm_get_pto_time_and_space. destruct (_ =? 0); cbn [read_now]; [|destruct (pto_loop _ _ _ _); apply Ha].
  etrans; [|apply Ha]. done.
Qed.

Lemma rx_flight_sub a p : same_rx a (flight_sub a p).
Proof. unfold flight_sub. destruct (is_ack_eliciting p); [|done]. etrans; [|by apply rx_upd_space]. done. Qed.

Lemma rx_pkts_lost a s l pseudo : same_rx a (ackm_on_pkts_lost now a s l pseudo).
Proof.
  assert (forall a, same_rx a (foldl (lost_one pseudo) a l)) as Hl.
  { induction l as [|p l IH]; intros b; [done|]. cbn [foldl]. etrans; [|apply IH]. unfold lost_one.
    etrans; [|apply rx_emit]. destruct (is_inflight p); [|done]. etrans; [apply rx_flight_sub|]. by destruct pseudo. }
  etrans; [apply Hl|]. done.
Qed.

Lemma rx_acked_one a p : u64 (largest_acked p) -> rx_mono a (acked_one a p).
Proof.
  intros Hu. unfold acked_one. match goal with |- context [emit ?x (EvAcked p)] => set (a1 := x) end.
  assert (rx_mono a a1) as Hm.
  { subst a1. destruct (is_inflight p); [|done]. etrans; [apply same_rx_mono, (rx_flight_sub a p)|]. set (b := flight_sub a p). clearbody b.
    destruct (Z.eqb_spec (largest_acked p) QUIC_PN_INVALID) as [|Hne]; cbn [negb]; [done|].
    intros s [Hp Hlen]. rewrite rxh_upd. destruct (is_space (pkt_space p) s) eqn:E; [|split; [by split|apply rx_grows_refl]].
    apply is_space_spec in E as <-. cbn [s_rx_history field_upd]. fold (rxh b (pkt_space p)).
    destruct (rx_pkt_history_bump_watermark _ _) as [h' ok] eqn:Hb. cbn [fst].
    apply bump_spec in Hb as (_ & ? & ? & ? & _); [|done|auto with u64]. split; [split; [done|lia]|done]. }
  clearbody a1. by destruct (is_inflight p).
Qed.

Lemma rx_pkts_acked (l : list OSSL_ACKM_TX_PKT) : Forall (fun p => u64 (largest_acked p)) l ->
  forall a, rx_mono a (ackm_on_pkts_acked a l).
Proof.
  induction 1 as [|p l Hp Hl IH]; intros a; [done|]. etrans; [by apply rx_acked_one|]. apply (IH (acked_one a p)).
Qed.

Lemma rx_rest a ack s na : Forall (fun p => u64 (largest_acked p)) na -> hist_ok s (hist a s) ->
  rx_mono a (rx_ack_rest now a ack s na).
Proof.
  intros Hna Hok. unfold rx_ack_rest. set (a1 := ackm_sample_rtt now a ack na).
  set (a2 := if ack_ecn_present ack then _ else a1).
  assert (same_rx a a2) as V.
  { transitivity a1.
    - subst a1. unfold ackm_sample_rtt, read_now. destruct na as [|p na']; [done|]. destruct (_ && _); [|done].
      by destruct (ossl_time_is_zero _).
    - subst a2. destruct (ack_ecn_present ack); [|done]. unfold ackm_process_ecn. destruct (_ <? ack_ecnce ack); [|done].
      assert (same_rx a1 (upd_space a1 s (fun sp => sp <| s_peer_ecnce := ack_ecnce ack |>))) as Hc by (by apply rx_upd_space).
      destruct (tx_pkt_history_by_pkt_num _ _); exact Hc. }
  unfold ackm_detect_and_remove_lost_pkts. cbn [read_now]. clearbody a2.
  destruct (walk_lost _ _ _ _ _ _) as [[h' t'] lost]. match goal with |- context [upd_space ?x s ?f] => set (a3 := upd_space x s f) end.
  assert (same_rx a2 a3) as V3 by (etrans; [|by apply rx_upd_space]; done). clearbody a3.
  set (a4 := match lost with [] => a3 | _ :: _ => _ end).
  assert (same_rx a a4) as V4 by (etrans; [exact V|]; etrans; [exact V3|]; subst a4; destruct lost; [done|apply rx_pkts_lost]). clearbody a4.
  etrans; [apply same_rx_mono, V4|]. etrans; [by apply (rx_pkts_acked na)|]. set (a5 := ackm_on_pkts_acked a4 na). clearbody a5.
  apply same_rx_mono. etrans; [|apply rx_timer]. by destruct (a_peer_completed_addr_validation a5).
Qed.

Lemma rx_ack_frame a ack s t leaked sent : tx_inv a leaked sent [] -> ack_frame_ok ack ->
  rx_mono a (fst (ossl_ackm_on_rx_ack_frame now a ack s t)).
Proof.
  intros Hi Hack. rewrite rx_ack_split. cbv zeta. set (a0 := upd_space a s _). set (must := negb _ && _).
  set (a1 := if must then _ else a0).
  assert (tx_inv a1 leaked sent []) as Hi1.
  { eapply inv_same_core; [|exact Hi]. transitivity a0; [by apply core_upd_space|subst a1; destruct must; by split]. }
  assert (same_rx a a1) as V1 by (transitivity a0; [by apply rx_upd_space|subst a1; by destruct must]).
  clearbody a1 must. clear a0.
  destruct (ackm_detect_and_remove_newly_acked_pkts a1 ack s) as [a2 na] eqn:Hd.
  assert (same_rx a a2) as V2.
  { etrans; [exact V1|]. unfold ackm_detect_and_remove_newly_acked_pkts in Hd. destruct (walk_acked _ _ _).
    apply (f_equal fst) in Hd. cbn [fst] in Hd. subst a2. by apply rx_upd_space. }
  apply detect_acked_inv with (1 := Hi1) (2 := Hack) in Hd as Hi2. cbn [fst].
  etrans; [apply same_rx_mono, V2|]. destruct na as [|p na].
  - apply same_rx_mono. destruct must; [apply rx_timer|done].
  - apply rx_rest; [|apply (inv_hist _ _ _ _ Hi2)]. eapply Forall_impl; [apply (inv_pend _ _ _ _ Hi2)|].
    by intros q (_ & _ & _ & _ & _ & ?).
Qed.

Lemma rx_on_tx a p : same_rx a (fst (ossl_ackm_on_tx_packet now a p)).
Proof.
  unfold ossl_ackm_on_tx_packet. set (s := pkt_space p). destruct (_ || _); [done|]. destruct (_ =? 0); [done|].
  destruct (_ && _); [done|]. destruct (tx_pkt_history_add _ p) as [h []]; cbn [fst]; [|by apply rx_upd_space].
  set (a1 := upd_space a s _). assert (same_rx a a1) as V1 by (by apply rx_upd_space). clearbody a1.
  destruct (is_inflight p); cbn [fst]; [|done].
  etrans; [exact V1|]. set (a2 := if is_ack_eliciting p then _ else a1).
  assert (same_rx a1 a2) as V2 by (subst a2; destruct (is_ack_eliciting p); [by apply rx_upd_space|done]). clearbody a2.
  etrans; [exact V2|]. exact (rx_timer (a2 <| a_bytes_in_flight := a_bytes_in_flight a2 +u num_bytes p |>)).
Qed.

Lemma rx_on_timeout a : same_rx a (fst (ossl_ackm_on_timeout now a)).
Proof.
  unfold ossl_ackm_on_timeout. destruct (ackm_get_loss_time_and_space a) as [t0 s0]. destruct (negb _).
  - unfold ackm_detect_and_remove_lost_pkts. cbn [read_now]. destruct (walk_lost _ _ _ _ _ _) as [[h' t'] lost].
    set (a3 := upd_space _ s0 _). assert (same_rx a a3) as V3 by (etrans; [|by apply rx_upd_space]; done). clearbody a3.
    cbn [fst]. etrans; [|apply rx_timer]. etrans; [exact V3|]. destruct lost; [done|apply rx_pkts_lost].
  - cbn [fst]. etrans; [|apply rx_timer]. destruct (_ =? 0); [by destruct (s_discarded _)|].
    unfold ackm_get_pto_time_and_space. destruct (_ =? 0); cbn [read_now]; [done|by destruct (pto_loop _ _ _ _)].
Qed.

Lemma rx_pseudo_lost a s pn : same_rx a (fst (ossl_ackm_mark_packet_pseudo_lost now a s pn)).
Proof.
  unfold ossl_ackm_mark_packet_pseudo_lost. destruct (tx_pkt_history_by_pkt_num _ _) as [p|]; [|done]. cbn [fst].
  etrans; [|apply rx_pkts_lost]. by apply rx_upd_space.
Qed.

Lemma rx_flush_deadline a s t : same_rx a (ackm_set_flush_deadline a s t).
Proof.
  unfold ackm_set_flush_deadline. cbn [a_has_ack_cb field_upd upd_space].
  destruct (a_has_ack_cb a); [|by apply rx_upd_space]. etrans; [|by apply rx_emit]. by apply rx_upd_space.
Qed.

Lemma rx_eliciting a t s b : same_rx a (ackm_on_rx_ack_eliciting a t s b).
Proof.
  unfold ackm_on_rx_ack_eliciting. destruct (s_rx_ack_desired _); [done|].
  set (a1 := upd_space a s (fun sp => sp <| s_rx_ack_eliciting_pkts_since_last_ack := _ |>)).
  assert (same_rx a a1) as Hc by (by apply rx_upd_space). clearbody a1.
  destruct (_ || _); [unfold ackm_queue_ack; etrans; [exact Hc|]; etrans; [|apply rx_flush_deadline]; by apply rx_upd_space|].
  destruct (ossl_time_is_infinite _); (etrans; [exact Hc|apply rx_flush_deadline]).
Qed.

(** A received packet: either its number was blocked and nothing changes, or
    the history becomes what [rx_pkt_history_add_pn] makes of it. *)
Lemma rx_on_packet alloc a pkt :
  (ossl_ackm_is_rx_pn_processable a (rp_pkt_num pkt) (rp_pkt_space pkt) = false /\
   ossl_ackm_on_rx_packet alloc a pkt = (a, true)) \/
  (ossl_ackm_is_rx_pn_processable a (rp_pkt_num pkt) (rp_pkt_space pkt) = true /\
   exists h' ok a', rx_pkt_history_add_pn alloc (rxh a (rp_pkt_space pkt)) (rp_pkt_num pkt) = (h', ok) /\
   ossl_ackm_on_rx_packet alloc a pkt = (a', ok) /\
   forall s, rxh a' s = if is_space (rp_pkt_space pkt) s then h' else rxh a s).
Proof.
  unfold ossl_ackm_on_rx_packet. destruct (ossl_ackm_is_rx_pn_processable _ _ _); cbn [negb]; [|by left]. right. split; [done|].
  set (s := rp_pkt_space pkt). set (a1 := if s_rx_largest_pn _ <? _ then _ else a).
  assert (same_rx a a1) as Hc1 by (subst a1; destruct (_ <? _); [by apply rx_upd_space|done]). clearbody a1.
  fold (rxh a1 s). rewrite (Hc1 s).
  destruct (rx_pkt_history_add_pn _ _ _) as [h' ok'] eqn:He. set (a2 := upd_space a1 s _).
  assert (Hc2 : forall s', rxh a2 s' = if is_space s s' then h' else rxh a s').
  { intros s'. subst a2. rewrite rxh_upd, Hc1. done. }
  clearbody a2. destruct ok'; cbn [negb]; [|by do 3 eexists].
  set (a3 := if rp_is_ack_eliciting pkt then _ else a2).
  assert (same_rx a2 a3) as Hc3 by (subst a3; destruct (rp_is_ack_eliciting pkt); [apply rx_eliciting|done]).
  clearbody a3. do 3 eexists. split_and!; [done|done|]. intros s'. rewrite <- Hc2, <- Hc3.
  repeat (destruct (_ =? _); [by apply rx_upd_space|]). done.
Qed.

Lemma rx_get_ack_frame a s : same_rx a (fst (ossl_ackm_get_ack_frame now a s)).
Proof.
  unfold ossl_ackm_get_ack_frame, read_now. cbn [fst].
  etrans; [|apply rx_flush_deadline]. etrans; [|by apply rx_upd_space]. etrans; [|by apply rx_upd_space]. done.
Qed.

Lemma rx_discard_loop (l : list OSSL_ACKM_TX_PKT) : forall a n, same_rx a (fst (foldl discard_one (a, n) l)).
Proof.
  induction l as [|p l IH]; intros a n; [done|]. cbn [foldl]. unfold discard_one at 2. destruct (is_inflight p); (etrans; [|apply IH]); done.
Qed.

Lemma rx_discarded a s s' :
  rxh (fst (ossl_ackm_on_pkt_space_discarded now a s)) s' =
  if is_space s s' && negb (disc a s) then rx_pkt_history_destroy (rxh a s') else rxh a s'.
Proof.
  unfold ossl_ackm_on_pkt_space_discarded. fold (disc a s). destruct (disc a s); [by rewrite andb_false_r|]. rewrite andb_true_r.
  set (a0 := if is_space s QUIC_PN_SPACE_HANDSHAKE then _ else a).
  assert (same_rx a a0) as V0 by (subst a0; by destruct (is_space s QUIC_PN_SPACE_HANDSHAKE)). clearbody a0.
  set (l := h_packets _). pose proof (rx_discard_loop l a0 0) as V1. destruct (foldl discard_one (a0, 0) l) as [a1 n]. cbn [fst] in *.
  rewrite rx_timer. rewrite <- (V0 s'), <- (V1 s'). destruct (0 <? n), s, s'; done.
Qed.

Definition rx_inv (a : OSSL_ACKM D) : Prop := forall s, rx_ok (rxh a s).

Lemma rx_new (statm : OSSL_STATM) (cc : D) (is_server : bool) : rx_inv (ossl_ackm_new statm cc is_server).
Proof.
  intros s. assert (rxh (ossl_ackm_new statm cc is_server) s = rx_pkt_history_init) as -> by (by destruct s).
  split; [|done]. split; cbn; [apply chain_nil|u64_side|by intros v []%us_has_nil].
Qed.

(** Numbers a received packet brings into space [s]. *)
Definition op_brings (s : pn_space) (op : ackm_op) (pn : Z) : Prop :=
  match op with OpRx _ pkt => rp_pkt_space pkt = s /\ rp_pkt_num pkt = pn | _ => False end.

Lemma rx_step (st : ackm_state) (op : ackm_op) : tx_inv (fst (fst st)) (snd (fst st)) (snd st) [] -> rx_inv (fst (fst st)) ->
  op_ok st op ->
  rx_inv (fst (fst (ackm_do now st op))) /\
  (forall s v, us_has (rh_set (rxh (fst (fst (ackm_do now st op))) s)) v ->
     us_has (rh_set (rxh (fst (fst st)) s)) v \/ op_brings s op v) /\
  (forall s, op <> OpDiscard s -> forall pn, blocked (rxh (fst (fst st)) s) pn -> blocked (rxh (fst (fst (ackm_do now st op))) s) pn) /\
  (forall s, rh_watermark (rxh (fst (fst st)) s) <= rh_watermark (rxh (fst (fst (ackm_do now st op))) s)).
Proof.
  destruct st as [[a leaked] sent]. cbn [fst snd]. intros Hi Hr Hok.
  assert (Hmono : forall a', rx_mono a a' -> rx_inv a' /\
    (forall s v, us_has (rh_set (rxh a' s)) v -> us_has (rh_set (rxh a s)) v \/ op_brings s op v) /\
    (forall s, op <> OpDiscard s -> forall pn, blocked (rxh a s) pn -> blocked (rxh a' s) pn) /\
    (forall s, rh_watermark (rxh a s) <= rh_watermark (rxh a' s))).
  { intros a' Hm. split_and!; intros s; destruct (Hm s (Hr s)) as [H1 [H2 H3 H4]]; auto.
    intros v Hv. destruct (H4 v Hv) as [?|[]]. by left. }
  unfold ackm_do. destruct op as [p|ack s t| |s| |s pn|alloc pkt|s|s|fn|fn|d|d]; cbn [fst snd].
  - pose proof (rx_on_tx a p) as V. destruct (ossl_ackm_on_tx_packet now a p). cbn [fst] in *. by apply Hmono, same_rx_mono.
  - apply Hmono. destruct Hok. by eapply rx_ack_frame.
  - apply Hmono, same_rx_mono, rx_on_timeout.
  - split_and!; intros s'; rewrite rx_discarded; destruct (is_space s s') eqn:E; cbn [andb]; auto; try lia;
      apply is_space_spec in E as <-; try done; destruct (negb _); auto; try lia.
    + destruct (Hr s) as [[G1 G2 G3] _]. split; [split; cbn; [apply chain_nil|done|by intros v []%us_has_nil]|done].
    + by intros v []%us_has_nil.
    + cbn. lia.
  - apply Hmono, same_rx_mono. unfold ossl_ackm_on_handshake_confirmed. cbn [fst]. etrans; [|apply rx_timer]. done.
  - apply Hmono, same_rx_mono, rx_pseudo_lost.
  - destruct (rx_on_packet alloc a pkt) as [[_ ->]|(_ & h' & ok & a' & He & -> & Hh)]; cbn [fst].
    { apply Hmono. reflexivity. }
    apply add_pn_spec in He as (A1 & [A2 A3 A4] & _); [|apply Hr|apply Hok].
    split_and!; intros s; rewrite Hh; destruct (is_space (rp_pkt_space pkt) s) eqn:E; auto; try lia;
      apply is_space_spec in E as <-; auto.
    intros v Hv. destruct (A4 v Hv) as [?|<-]; [by left|by right].
  - apply Hmono, same_rx_mono. unfold ossl_ackm_is_ack_desired. destruct (s_rx_ack_desired _); [done|]. by destruct (negb _).
  - apply Hmono, same_rx_mono, rx_get_ack_frame.
  - by apply Hmono, same_rx_mono.
  - by apply Hmono, same_rx_mono.
  - by apply Hmono, same_rx_mono.
  - by apply Hmono, same_rx_mono.
Qed.

Lemma ops_ok_app (ops1 ops2 : list ackm_op) : forall st : ackm_state (D := D),
  ops_ok now st (ops1 ++ ops2) -> ops_ok now st ops1 /\ ops_ok now (foldl (ackm_do now) st ops1) ops2.
Proof.
  induction ops1 as [|op ops1 IH]; intros st Hok; [done|]. destruct Hok as [Hop Hok]. destruct (IH _ Hok) as [H1 H2].
  by split; [split|].
Qed.

(** ** Runs from creation *)

Lemma run_rx (ops : list ackm_op) : forall st : ackm_state (D := D),
  tx_inv (fst (fst st)) (snd (fst st)) (snd st) [] -> rx_inv (fst (fst st)) -> ops_ok now st ops ->
  let st' := foldl (ackm_do now) st ops in
  tx_inv (fst (fst st')) (snd (fst st')) (snd st') [] /\ rx_inv (fst (fst st')) /\
  (forall s v, us_has (rh_set (rxh (fst (fst st')) s)) v ->
     us_has (rh_set (rxh (fst (fst st)) s)) v \/ exists op, op ∈ ops /\ op_brings s op v) /\
  (forall s, OpDiscard s ∉ ops -> forall pn, blocked (rxh (fst (fst st)) s) pn -> blocked (rxh (fst (fst st')) s) pn).
Proof.
  induction ops as [|op ops IH]; intros st Hi Hr Hok; [split_and!; auto|]. destruct Hok as [Hop Hok].
  destruct (rx_step st op Hi Hr Hop) as (R1 & R2 & R3 & _).
  pose proof (ackm_step_inv now _ _ (ackm_step_op now st op Hop) Hi) as Hi'. cbn [foldl].
  destruct (IH (ackm_do now st op) Hi' R1 Hok) as (I1 & I2 & I3 & I4). split_and!; auto.
  - intros s v Hv. destruct (I3 s v Hv) as [Hv'|(o & Ho & Hb)]; [|right; exists o; set_solver].
    destruct (R2 s v Hv') as [?|?]; [by left|right; exists op; set_solver].
  - intros s Hn pn Hb. apply I4; [set_solver|]. apply R3; [set_solver|done].
Qed.

Lemma new_run (statm : OSSL_STATM) (cc : D) (is_server : bool) (ops : list ackm_op) : cc_in_flight cc = 0 ->
  ops_ok now (ossl_ackm_new statm cc is_server, 0, []) ops ->
  let st := foldl (ackm_do now) (ossl_ackm_new statm cc is_server, 0, []) ops in
  tx_inv (fst (fst st)) (snd (fst st)) (snd st) [] /\ rx_inv (fst (fst st)) /\
  (forall s v, us_has (rh_set (rxh (fst (fst st)) s)) v -> exists op, op ∈ ops /\ op_brings s op v).
Proof.
  intros Hc Hok. destruct (run_rx ops (ossl_ackm_new statm cc is_server, 0, [])) as (H1 & H2 & H3 & _); auto.
  { by apply new_inv. } { apply rx_new. }
  split_and!; auto. intros s v Hv. destruct (H3 s v Hv) as [Hv'|?]; [|done]. by destruct s; apply us_has_nil in Hv'.
Qed.

(** C20.  No packet number is processed twice.  Once a received packet has been
    accepted, then however the manager is used afterwards (ACKs that move the
    watermark, ranges dropped to keep at most 32, further packets, ...), until
    its space is discarded, the packet's number is never processable again and
    a further packet with it changes nothing.  Storing the number fails only
    when memory runs out. *)
Theorem rx_pn_processed_once (statm : OSSL_STATM) (cc : D) (is_server : bool) (ops1 ops2 : list ackm_op)
  (alloc : bool) (pkt : OSSL_ACKM_RX_PKT) :
  cc_in_flight cc = 0 ->
  let st0 := (ossl_ackm_new statm cc is_server, 0, []) in
  ops_ok now st0 (ops1 ++ OpRx alloc pkt :: ops2) -> OpDiscard (rp_pkt_space pkt) ∉ ops2 ->
  let accepted := snd (ossl_ackm_on_rx_packet alloc (fst (fst (foldl (ackm_do now) st0 ops1))) pkt) in
  let a := fst (fst (foldl (ackm_do now) st0 (ops1 ++ OpRx alloc pkt :: ops2))) in
  (alloc = true -> accepted = true) /\
  (accepted = true ->
     ossl_ackm_is_rx_pn_processable a (rp_pkt_num pkt) (rp_pkt_space pkt) = false /\
     forall alloc' pkt', rp_pkt_num pkt' = rp_pkt_num pkt -> rp_pkt_space pkt' = rp_pkt_space pkt ->
       ossl_ackm_on_rx_packet alloc' a pkt' = (a, true)).
Proof.
  intros Hc st0 Hok Hnd accepted a. apply ops_ok_app in Hok as [Hok1 [Hop Hok2]].
  destruct (new_run statm cc is_server ops1 Hc Hok1) as (T1 & R1 & _). fold st0 in T1, R1.
  set (st1 := foldl (ackm_do now) st0 ops1) in *.
  destruct (rx_step st1 (OpRx alloc pkt) T1 R1 Hop) as (R2 & _).
  pose proof (ackm_step_inv now _ _ (ackm_step_op now st1 _ Hop) T1) as T2.
  destruct (run_rx ops2 (ackm_do now st1 (OpRx alloc pkt)) T2 R2 Hok2) as (_ & R3 & _ & Hbl).
  assert (Ha : a = fst (fst (foldl (ackm_do now) (ackm_do now st1 (OpRx alloc pkt)) ops2))).
  { subst a st1. by rewrite foldl_app. }
  rewrite <- Ha in *. clearbody a. clear Ha.
  assert (Hb : (alloc = true -> accepted = true) /\
    (accepted = true -> blocked (rxh (fst (fst (ackm_do now st1 (OpRx alloc pkt)))) (rp_pkt_space pkt)) (rp_pkt_num pkt))).
  { subst accepted. destruct st1 as [[a1 l1] sent1]. cbn [fst snd] in *. unfold ackm_do. cbn [fst snd].
    destruct (rx_on_packet alloc a1 pkt) as [[Hp ->]|(Hp & h' & ok & a' & He & -> & Hh)]; cbn [fst snd].
    - split; [done|]. intros _. apply processable_spec; [apply R1|]. exact Hp.
    - apply add_pn_spec in He as (_ & _ & A1 & A2); [|apply R1|apply Hop]. split; [done|].
      rewrite Hh, (proj2 (is_space_spec _ _)) by done. done. }
  destruct Hb as [Hb1 Hb2]. split; [done|]. intros Hacc. specialize (Hbl _ Hnd _ (Hb2 Hacc)).
  assert (Hnp : ossl_ackm_is_rx_pn_processable a (rp_pkt_num pkt) (rp_pkt_space pkt) = false).
  { apply processable_spec in Hbl; [exact Hbl|apply R3]. }
  split; [done|]. intros alloc' pkt' E1 E2. unfold ossl_ackm_on_rx_packet. by rewrite E1, E2, Hnp.
Qed.

(** ** Generated frames *)

Definition as_ack_range (r : UINT_RANGE) : OSSL_QUIC_ACK_RANGE := mkAckRange (r_start r) (r_end r).

Lemma flush_keeps_ack a s t : s_ack (sget (a_space (ackm_set_flush_deadline a s t)) s) = s_ack (sget (a_space a) s).
Proof.
  unfold ackm_set_flush_deadline. cbn [a_has_ack_cb field_upd upd_space].
  transitivity (s_ack (sget (a_space (upd_space a s (fun sp => sp <| s_rx_ack_flush_deadline := t |>))) s)).
  - by destruct (a_has_ack_cb a).
  - by rewrite upd_space_same.
Qed.

Lemma fill_ranges a s : frame_ranges (s_ack (sget (a_space (ackm_fill_rx_ack_ranges a s)) s))
  = as_ack_range <$> take 3 (rev (rh_set (rxh a s))).
Proof.
  unfold ackm_fill_rx_ack_ranges. rewrite upd_space_same. unfold frame_ranges. cbn [s_ack ack_ranges num_ack_ranges field_upd].
  unfold zlen. by rewrite Nat2Z.id, take_app_length.
Qed.

(** The ranges a generated frame carries. *)
Lemma ack_frame_ranges a a' s f : ossl_ackm_get_ack_frame now a s = (a', f) ->
  frame_ranges f = as_ack_range <$> take 3 (rev (rh_set (rxh a s))).
Proof.
  intros Hop. apply (f_equal snd) in Hop. unfold ossl_ackm_get_ack_frame, read_now in Hop. cbn [snd] in Hop. subst f.
  rewrite flush_keeps_ack, upd_space_same.
  change (rxh a s) with (rxh (a <| a_clk := S (a_clk a) |>) s). rewrite <- fill_ranges. done.
Qed.

Lemma has_frame (l : list UINT_RANGE) (pn : Z) :
  existsb (fun r => range_contains r pn) (as_ack_range <$> l) = true <-> us_has l pn.
Proof.
  rewrite us_has_elem, existsb_exists. split.
  - intros (x & Hx & Hc%range_contains_spec). apply list_elem_of_In, list_elem_of_fmap in Hx as (r & -> & Hr). by exists r.
  - intros (r & Hr & Hc). exists (as_ack_range r). rewrite <- list_elem_of_In, range_contains_spec. split; [|exact Hc].
    by apply list_elem_of_fmap_2.
Qed.

Lemma frame_below (rl : list UINT_RANGE) : forall k b, us_gaps (rev rl) -> (forall x, x ∈ rl -> r_end x + 2 <= b) ->
  ranges_below b (as_ack_range <$> take k rl).
Proof.
  induction rl as [|x rl IH]; intros k b Hg Hb; [by rewrite take_nil|]. destruct k as [|k]; [done|].
  cbn [rev] in Hg. apply chain_snoc in Hg as (Hg & Hx & Hl). cbn. unfold range_ok in Hx. split_and!; [lia|lia|apply Hb; set_solver|].
  apply IH; [done|]. intros y Hy. specialize (Hl y ltac:(by apply elem_of_rev)). unfold gap_before in Hl. lia.
Qed.

Lemma frame_wf (set : UINT_SET) (k : nat) : us_gaps set -> (forall v, us_has set v -> v <= OSSL_QUIC_VLINT_MAX) ->
  as_ack_range <$> take k (rev set) <> [] -> wf_ack_ranges (as_ack_range <$> take k (rev set)).
Proof.
  intros Hg Hm. destruct (rev set) as [|x rl] eqn:E; [by rewrite take_nil|]. destruct k as [|k]; [done|]. intros _.
  apply rev_cons_inv in E as ->. pose proof Hg as (Hg' & Hx & Hl)%chain_snoc. unfold range_ok in Hx. cbn.
  split_and!; [lia|lia| |].
  - apply Hm. rewrite us_has_app, us_has_cons. right; left. unfold in_range. lia.
  - apply frame_below; [done|]. intros y Hy. specialize (Hl y ltac:(by apply elem_of_rev)). unfold gap_before in Hl. lia.
Qed.

(** C32.  Generated ACK frames are sound, in every state reached from creation:
    a frame acknowledges only packet numbers that were received in its space;
    its first range ends at the highest number tracked, so nothing tracked is
    above the "largest acknowledged"; and whenever it has a range at all, its
    ranges are valid, descending and separated by missing numbers, which is
    what the ACK encoder requires for the peer to read back the same set. *)
Theorem ack_frame_sound (statm : OSSL_STATM) (cc : D) (is_server : bool) (ops : list ackm_op) (s : pn_space)
  (a' : OSSL_ACKM D) (f : OSSL_QUIC_FRAME_ACK) :
  cc_in_flight cc = 0 ->
  let st0 := (ossl_ackm_new statm cc is_server, 0, []) in
  let a := fst (fst (foldl (ackm_do now) st0 ops)) in
  ops_ok now st0 ops -> ossl_ackm_get_ack_frame now a s = (a', f) ->
  (forall pn, ack_contains f pn = true ->
     exists alloc pkt, OpRx alloc pkt ∈ ops /\ rp_pkt_space pkt = s /\ rp_pkt_num pkt = pn) /\
  (forall pn, us_has (rh_set (rxh a s)) pn -> exists r rs, frame_ranges f = r :: rs /\ pn <= ar_end r) /\
  (frame_ranges f <> [] -> wf_ack_ranges (frame_ranges f)).
Proof.
  intros Hc st0 a Hok Hf. destruct (new_run statm cc is_server ops Hc Hok) as (_ & Hr & Hm). fold st0 in Hr, Hm. fold a in Hr, Hm.
  apply ack_frame_ranges in Hf as Hfr. destruct (Hr s) as [[Hg _ Hmem] _]. split_and!.
  - intros pn. unfold ack_contains. rewrite Hfr, has_frame. intros Hh.
    assert (us_has (rh_set (rxh a s)) pn) as Hin.
    { apply us_has_rev. rewrite <- (take_drop 3 (rev _)), us_has_app. by left. }
    apply Hm in Hin as (op & Hop & Hb). destruct op; try done. destruct Hb as [? ?]. by do 2 eexists.
  - intros pn Hin. rewrite Hfr. apply us_has_rev in Hin. destruct (rev (rh_set (rxh a s))) as [|x rl] eqn:E; [by apply us_has_nil in Hin|].
    do 2 eexists. split; [reflexivity|]. cbn. apply rev_cons_inv in E. rewrite E in Hg. apply chain_snoc in Hg as (_ & Hx & Hl).
    apply us_has_cons in Hin as [Hin|(y & Hy & Hin)%us_has_elem]; [apply Hin|].
    specialize (Hl y ltac:(by apply elem_of_rev)). unfold gap_before, in_range, range_ok in *. lia.
  - rewrite Hfr. apply frame_wf; [done|]. intros v Hv. by apply Hmem.
Qed.

(** A generated frame never has more than three ranges, although
    [MAX_RX_ACK_RANGES] (32) are tracked and reserved for it: as soon as more
    than three ranges are tracked there are received packet numbers, still
    tracked, that no frame acknowledges. *)
Theorem ack_frame_three_ranges (statm : OSSL_STATM) (cc : D) (is_server : bool) (ops : list ackm_op) (s : pn_space)
  (a' : OSSL_ACKM D) (f : OSSL_QUIC_FRAME_ACK) :
  cc_in_flight cc = 0 ->
  let st0 := (ossl_ackm_new statm cc is_server, 0, []) in
  let a := fst (fst (foldl (ackm_do now) st0 ops)) in
  ops_ok now st0 ops -> ossl_ackm_get_ack_frame now a s = (a', f) ->
  zlen (rh_set (rxh a s)) <= MAX_RX_ACK_RANGES /\
  zlen (frame_ranges f) = Z.min 3 (zlen (rh_set (rxh a s))) /\
  (3 < zlen (rh_set (rxh a s)) -> exists pn, us_has (rh_set (rxh a s)) pn /\ ack_contains f pn = false).
Proof.
  intros Hc st0 a Hok Hf. destruct (new_run statm cc is_server ops Hc Hok) as (_ & Hr & _). fold st0 in Hr. fold a in Hr.
  apply ack_frame_ranges in Hf as Hfr. destruct (Hr s) as [[Hg _ Hmem] Hlen]. split_and!; [done| |].
  - rewrite Hfr. unfold zlen. rewrite length_fmap, length_take, length_rev. lia.
  - intros Hlt. destruct (rh_set (rxh a s)) as [|x rest] eqn:E; [done|]. exists (r_start x).
    pose proof Hg as (Hx & _ & Hl)%chain_cons. unfold range_ok in Hx. split; [apply us_has_cons; left; unfold in_range; lia|].
    unfold ack_contains. rewrite Hfr. apply not_true_iff_false. rewrite has_frame. cbn [rev]. rewrite take_app_le.
    + intros (y & Hy & Hin)%us_has_elem. assert (y ∈ rest) as Hyr.
      { apply elem_of_rev. rewrite <- (take_drop 3 (rev rest)). set_solver. }
      specialize (Hl y Hyr). unfold gap_before, in_range in *. lia.
    + rewrite length_rev. unfold zlen in Hlt. cbn in Hlt. lia.
Qed.
End Rx.

(** ** Instances *)

Definition demo_rx_pkt (pn : Z) : OSSL_ACKM_RX_PKT := mkRxPkt pn 1000000000 QUIC_PN_SPACE_APP true OSSL_ACKM_ECN_NONE.
Definition demo_rx_ops : list ackm_op := [] ++ OpRx true (demo_rx_pkt 8) :: (OpRx true ∘ demo_rx_pkt <$> [0; 2; 4; 6]).
Abbreviation demo_rx_end := (fst (fst (foldl (ackm_do demo_now)
  (ossl_ackm_new ossl_statm_init (newreno_new ∅) false, 0, []) demo_rx_ops))).

Lemma demo_rx_ops_ok : ops_ok demo_now demo_start demo_rx_ops.
Proof. vm_compute. repeat match goal with |- _ /\ _ => split end; try reflexivity; try discriminate. Qed.

Lemma newreno_starts_empty : cc_in_flight (newreno_new ∅) = 0.
Proof. done. Qed.

Lemma demo_rx_keeps : OpDiscard QUIC_PN_SPACE_APP ∉ (OpRx true ∘ demo_rx_pkt <$> [0; 2; 4; 6]).
Proof. intros (x & Hx & _)%list_elem_of_fmap. discriminate. Qed.

Lemma rx_pn_processed_once_witness :
  ossl_ackm_is_rx_pn_processable demo_rx_end 8 QUIC_PN_SPACE_APP = false /\
  ossl_ackm_is_rx_pn_processable demo_rx_end 1 QUIC_PN_SPACE_APP = true.
Proof.
  split; [|by vm_compute].
  destruct (rx_pn_processed_once demo_now ossl_statm_init (newreno_new ∅) false [] (OpRx true ∘ demo_rx_pkt <$> [0; 2; 4; 6])
    true (demo_rx_pkt 8) newreno_starts_empty demo_rx_ops_ok demo_rx_keeps) as [Ha Hp].
  exact (proj1 (Hp (Ha eq_refl))).
Defined.

Definition demo_frame : OSSL_ACKM OSSL_CC_NEWRENO * OSSL_QUIC_FRAME_ACK :=
  ossl_ackm_get_ack_frame demo_now demo_rx_end QUIC_PN_SPACE_APP.

Lemma demo_frame_eq :
  ossl_ackm_get_ack_frame demo_now demo_rx_end QUIC_PN_SPACE_APP = (fst demo_frame, snd demo_frame).
Proof. unfold demo_frame. apply surjective_pairing. Qed.

Lemma ack_frame_sound_witness :
  frame_ranges (snd demo_frame) = [mkAckRange 8 8; mkAckRange 6 6; mkAckRange 4 4] /\
  wf_ack_ranges (frame_ranges (snd demo_frame)).
Proof.
  assert (Hf : frame_ranges (snd demo_frame) = [mkAckRange 8 8; mkAckRange 6 6; mkAckRange 4 4]) by (by vm_compute).
  split; [exact Hf|].
  destruct (ack_frame_sound demo_now ossl_statm_init (newreno_new ∅) false demo_rx_ops QUIC_PN_SPACE_APP
    (fst demo_frame) (snd demo_frame) newreno_starts_empty demo_rx_ops_ok demo_frame_eq) as (_ & _ & Hw).
  apply Hw. by rewrite Hf.
Defined.

Lemma ack_frame_three_ranges_witness :
  zlen (rh_set (rxh demo_rx_end QUIC_PN_SPACE_APP)) = 5 /\
  exists pn, us_has (rh_set (rxh demo_rx_end QUIC_PN_SPACE_APP)) pn /\ ack_contains (snd demo_frame) pn = false.
Proof.
  assert (Hn : zlen (rh_set (rxh demo_rx_end QUIC_PN_SPACE_APP)) = 5) by (by vm_compute).
  split; [exact Hn|].
  destruct (ack_frame_three_ranges demo_now ossl_statm_init (newreno_new ∅) false demo_rx_ops QUIC_PN_SPACE_APP
    (fst demo_frame) (snd demo_frame) newreno_starts_empty demo_rx_ops_ok demo_frame_eq) as (_ & _ & Hw).
  assert (Hlt : 3 < zlen (rh_set (rxh demo_rx_end QUIC_PN_SPACE_APP))) by (by rewrite Hn).
  exact (Hw Hlt).
Defined.
