(* ===== verification/RingBuf.v ===== *)
(** * Ring buffers of stream bytes (include/internal/ring_buf.h)

    The allocation is the list of bytes it holds, so that [alloc] is its
    length and a pointer into it is the list of the bytes from there on.
    [OPENSSL_malloc] is an argument: [None] when it fails, otherwise the
    (arbitrary) bytes of the new allocation. *)

From S2P Require Import Prelude Packet.

Record ring_buf := mkRing { rb_mem : bytes; rb_head : Z; rb_ctail : Z }.
#[export] Instance eta_ring : Eta ring_buf := fun r => mkRing (rb_mem r) (rb_head r) (rb_ctail r).

Definition rb_alloc (r : ring_buf) : Z := zlen (rb_mem r).

Definition MAX_OFFSET : Z := 4611686018427387904.

(** [memcpy(start + idx, data, len)] and [OPENSSL_cleanse(start + idx, len)]. *)
Definition mem_write (mem : bytes) (idx : Z) (data : bytes) : bytes :=
  take (Z.to_nat idx) mem ++ data ++ drop (Z.to_nat idx + length data) mem.
Definition OPENSSL_cleanse (mem : bytes) (idx len : Z) : bytes := mem_write mem idx (replicate (Z.to_nat len) 0).

Definition ring_buf_init : ring_buf := mkRing [] 0 0.

Definition ring_buf_destroy (r : ring_buf) : ring_buf := r <| rb_mem := [] |>.

Definition ring_buf_used (r : ring_buf) : Z := rb_head r -u rb_ctail r.

Definition ring_buf_avail (r : ring_buf) : Z := rb_alloc r -u ring_buf_used r.

(** The bytes of [buf] up to the end of the allocation. *)
Definition chunk_len (alloc off len : Z) : Z :=
  let l := alloc - off mod alloc in if len <? l then len else l.

Fixpoint write_at_loop (n : nat) (r : ring_buf) (off : Z) (buf : bytes) : ring_buf :=
  match n with
  | O => r
  | S n =>
      if 0 <? zlen buf then
        let l := chunk_len (rb_alloc r) off (zlen buf) in
        let r' := r <| rb_mem := mem_write (rb_mem r) (off mod rb_alloc r) (take (Z.to_nat l) buf) |> in
        let r' := if rb_head r' <? off +u l then r' <| rb_head := off +u l |> else r' in
        write_at_loop n r' (off +u l) (drop (Z.to_nat l) buf)
      else r
  end.

Definition ring_buf_write_at (r : ring_buf) (off : Z) (buf : bytes) : ring_buf * bool :=
  let avail := ring_buf_avail r in
  let '(end_, err) := safe_add off (zlen buf) false in
  let '(limit, err) := safe_add (rb_head r) avail err in
  let '(size, err) := safe_add (rb_head r) (zlen buf) err in
  if (off <? rb_ctail r) || (limit <? end_) || (MAX_OFFSET <? size) || err then (r, false)
  else (write_at_loop 2 r off buf, true).

(** Each round but the last copies at least one byte, so one more round than
    there are bytes is enough. *)
Fixpoint push_loop (fuel : nat) (r : ring_buf) (buf : bytes) (pushed : Z) : ring_buf * Z :=
  match fuel with
  | O => (r, pushed)
  | S fuel =>
      let buf := if ring_buf_avail r <? zlen buf then take (Z.to_nat (ring_buf_avail r)) buf else buf in
      let buf := if MAX_OFFSET -u rb_head r <? zlen buf then take (Z.to_nat (MAX_OFFSET -u rb_head r)) buf else buf in
      if zlen buf =? 0 then (r, pushed)
      else
        let l := chunk_len (rb_alloc r) (rb_head r) (zlen buf) in
        let r' := r <| rb_mem := mem_write (rb_mem r) (rb_head r mod rb_alloc r) (take (Z.to_nat l) buf) |>
                    <| rb_head := rb_head r +u l |> in
        push_loop fuel r' (drop (Z.to_nat l) buf) (pushed +u l)
  end.

Definition ring_buf_push (r : ring_buf) (buf : bytes) : ring_buf * Z := push_loop (S (length buf)) r buf 0.

(** The bytes from the pointer to the end of the allocation. *)
Definition ring_buf_get_ptr (r : ring_buf) (off : Z) : option bytes :=
  if (rb_head r <=? off) || (off <? rb_ctail r) then None
  else Some (drop (Z.to_nat (off mod rb_alloc r)) (rb_mem r)).

Definition ring_buf_get_buf_at (r : ring_buf) (off : Z) : option bytes :=
  if (rb_head r <? off) || (off <? rb_ctail r) then None
  else if rb_alloc r =? 0 then Some []
  else
    let idx := off mod rb_alloc r in
    let l := rb_head r -u off in
    let l := if rb_alloc r - idx <? l then rb_alloc r - idx else l in
    Some (take (Z.to_nat l) (drop (Z.to_nat idx) (rb_mem r))).

(** Overwrites the bytes up to [end_] that are still retained. *)
Definition cleanse_popped (r : ring_buf) (end_ : Z) : bytes :=
  let idx := rb_ctail r mod rb_alloc r in
  let cleanse_end := end_ +u 1 in
  let cleanse_end := if rb_head r <? cleanse_end then rb_head r else cleanse_end in
  let l := cleanse_end -u rb_ctail r in
  let '(mem, l, idx) :=
    if rb_alloc r - idx <? l
    then (OPENSSL_cleanse (rb_mem r) idx (rb_alloc r - idx), l -u (rb_alloc r - idx), 0)
    else (rb_mem r, l, idx) in
  if 0 <? l then OPENSSL_cleanse mem idx l else mem.

Definition ring_buf_cpop_range (r : ring_buf) (start end_ : Z) (cleanse : bool) : ring_buf :=
  if (rb_ctail r <? start) || (MAX_OFFSET <=? end_) then r
  else
    let mem :=
      if cleanse && (0 <? rb_alloc r) && (rb_ctail r <? end_) then cleanse_popped r end_ else rb_mem r in
    let r := mkRing mem (rb_head r) (end_ +u 1) in
    if rb_head r <? rb_ctail r then r <| rb_head := rb_ctail r |> else r.

(** The copy loop of [ring_buf_resize]; [None] is its failing return. *)
Fixpoint resize_loop (fuel : nat) (r rnew : ring_buf) (copied : Z) : option ring_buf :=
  match fuel with
  | O => None
  | S fuel =>
      match ring_buf_get_buf_at r (rb_ctail r +u copied) with
      | None => None
      | Some src =>
          if zlen src =? 0 then Some rnew
          else
            let '(rnew, pushed) := ring_buf_push rnew src in
            if negb (pushed =? zlen src) then None
            else resize_loop fuel r rnew (copied +u zlen src)
      end
  end.

Definition ring_buf_resize (malloc : option bytes) (r : ring_buf) (num_bytes : Z) : ring_buf * bool :=
  if num_bytes =? rb_alloc r then (r, true)
  else if num_bytes <? ring_buf_used r then (r, false)
  else
    match malloc with
    | None => (r, false)
    | Some mem =>
        let off := rb_head r -u ring_buf_used r in
        match resize_loop (S (length (rb_mem r))) r (mkRing mem off off) 0 with
        | None => (r, false)
        | Some rnew => (rnew <| rb_ctail := rb_ctail r |>, true)
        end
    end.

(** ** The buffer as a window of a stream *)

(** The byte stored for logical offset [o]. *)
Definition rb_at (r : ring_buf) (o : Z) : option Z := rb_mem r !! Z.to_nat (o mod rb_alloc r).

Record ring_ok (r : ring_buf) : Prop := {
  ring_ctail : 0 <= rb_ctail r <= rb_head r;
  ring_head : rb_head r <= MAX_OFFSET;
  ring_fits : rb_head r - rb_ctail r <= rb_alloc r;
  ring_alloc : rb_alloc r <= MAX_OFFSET }.

(** The offsets retained that satisfy [P] hold the bytes of the stream [str]. *)
Definition holds (r : ring_buf) (P : Z -> Prop) (str : Z -> Z) : Prop :=
  forall o, rb_ctail r <= o < rb_head r -> P o -> rb_at r o = Some (str o).

(** [data] are the bytes of [str] from offset [off]. *)
Definition slice_of (str : Z -> Z) (off : Z) (data : bytes) : Prop :=
  forall j, 0 <= j < zlen data -> data !! Z.to_nat j = Some (str (off + j)).

Lemma slice_take (str : Z -> Z) (off n : Z) (data : bytes) : 0 <= n <= zlen data -> slice_of str off data ->
  slice_of str off (take (Z.to_nat n) data).
Proof. intros Hn Hs j. rewrite zlen_take by done. intros Hj. rewrite lookup_take_lt by lia. apply Hs. lia. Qed.

Lemma slice_drop (str : Z -> Z) (off n : Z) (data : bytes) : 0 <= n <= zlen data -> slice_of str off data ->
  slice_of str (off + n) (drop (Z.to_nat n) data).
Proof.
  intros Hn Hs j. rewrite zlen_drop by done. intros Hj. rewrite lookup_drop, <- Z2Nat.inj_add by lia.
  rewrite Hs by lia. do 2 f_equal. lia.
Qed.

Lemma slice_app (str : Z -> Z) (off : Z) (d1 d2 : bytes) :
  slice_of str off d1 -> slice_of str (off + zlen d1) d2 -> slice_of str off (d1 ++ d2).
Proof.
  intros H1 H2 j Hj. rewrite zlen_app in Hj. destruct (Z.lt_ge_cases j (zlen d1)) as [Hl|Hl].
  - rewrite lookup_app_l by (unfold zlen in Hl; lia). apply H1. lia.
  - rewrite lookup_app_r by (unfold zlen in Hl; lia). pose proof (H2 (j - zlen d1) ltac:(lia)) as H2'.
    rewrite Z2Nat.inj_sub in H2' by apply zlen_nonneg. unfold zlen in H2' at 1. rewrite Nat2Z.id in H2'. rewrite H2'.
    do 2 f_equal. lia.
Qed.

Lemma slice_nil (str : Z -> Z) (off : Z) : slice_of str off [].
Proof. intros j Hj. unfold zlen in Hj. cbn in Hj. lia. Qed.

Lemma slice_unique (str : Z -> Z) (off : Z) (d1 d2 : bytes) :
  slice_of str off d1 -> slice_of str off d2 -> zlen d1 = zlen d2 -> d1 = d2.
Proof.
  intros H1 H2 Hl. apply list_eq. intros i. unfold zlen in *. destruct (decide (i < length d1)%nat).
  - specialize (H1 (Z.of_nat i) ltac:(unfold zlen; lia)). specialize (H2 (Z.of_nat i) ltac:(unfold zlen; lia)).
    rewrite Nat2Z.id in *. congruence.
  - rewrite !lookup_ge_None_2 by lia. done.
Qed.

(** *** Writing one chunk *)

Lemma mem_write_len (mem : bytes) (idx : Z) (data : bytes) : 0 <= idx -> idx + zlen data <= zlen mem ->
  zlen (mem_write mem idx data) = zlen mem.
Proof. intros. unfold mem_write, zlen in *. rewrite !length_app, length_take, length_drop. lia. Qed.

Lemma mem_write_lookup (mem : bytes) (idx i : Z) (data : bytes) : 0 <= idx -> 0 <= i -> idx + zlen data <= zlen mem ->
  mem_write mem idx data !! Z.to_nat i =
  if (idx <=? i) && (i <? idx + zlen data) then data !! Z.to_nat (i - idx) else mem !! Z.to_nat i.
Proof.
  intros Hi0 Hi Hl. unfold mem_write, zlen in *.
  destruct (Z.leb_spec idx i); cbn [andb].
  - rewrite lookup_app_r by (rewrite length_take; lia). rewrite length_take.
    replace (Z.to_nat i - Z.to_nat idx `min` length mem)%nat with (Z.to_nat (i - idx)) by lia.
    destruct (Z.ltb_spec i (idx + Z.of_nat (length data))).
    + rewrite lookup_app_l by lia. done.
    + rewrite lookup_app_r by lia. rewrite lookup_drop. f_equal. lia.
  - rewrite lookup_app_l by (rewrite length_take; lia). apply lookup_take_lt. lia.
Qed.

(** Within a window of [alloc] offsets the indices are distinct. *)
Lemma mod_window (alloc off j o : Z) : 0 < alloc -> 0 <= j -> off mod alloc + j < alloc ->
  Z.abs (o - (off + j)) < alloc -> o mod alloc = off mod alloc + j -> o = off + j.
Proof.
  intros Ha Hj Hlt Habs He. pose proof (Z.div_mod off alloc ltac:(lia)). pose proof (Z.div_mod o alloc ltac:(lia)).
  assert (Hd : o - (off + j) = alloc * (o / alloc - off / alloc)) by lia.
  assert (o / alloc - off / alloc = 0) by nia. nia.
Qed.

Lemma mod_step (alloc off o : Z) : 0 < alloc -> off <= o -> off mod alloc + (o - off) < alloc ->
  o mod alloc = off mod alloc + (o - off).
Proof.
  intros Ha Hle Hlt. pose proof (Z.div_mod off alloc ltac:(lia)). pose proof (Z.mod_pos_bound off alloc Ha).
  symmetry. apply Z.mod_unique with (off / alloc); lia.
Qed.

Lemma chunk_lookup (mem : bytes) (off o : Z) (data : bytes) :
  let alloc := zlen mem in
  0 < alloc -> off mod alloc + zlen data <= alloc -> off + zlen data - alloc <= o < off + alloc ->
  mem_write mem (off mod alloc) data !! Z.to_nat (o mod alloc) =
  if (off <=? o) && (o <? off + zlen data) then data !! Z.to_nat (o - off) else mem !! Z.to_nat (o mod alloc).
Proof.
  intros alloc Ha Hfit Hw. pose proof (Z.mod_pos_bound off alloc Ha). pose proof (Z.mod_pos_bound o alloc Ha).
  pose proof (zlen_nonneg data). rewrite mem_write_lookup by lia.
  destruct ((off <=? o) && (o <? off + zlen data)) eqn:E.
  - rewrite andb_true_iff, Z.leb_le, Z.ltb_lt in E.
    rewrite (mod_step alloc off o) by lia.
    rewrite (proj2 (Z.leb_le _ _)), (proj2 (Z.ltb_lt _ _)) by lia. cbn [andb]. do 2 f_equal. lia.
  - destruct ((off mod alloc <=? o mod alloc) && (o mod alloc <? off mod alloc + zlen data)) eqn:E2; [|done].
    rewrite andb_true_iff, Z.leb_le, Z.ltb_lt in E2. rewrite andb_false_iff, Z.leb_gt, Z.ltb_ge in E. exfalso.
    pose proof (mod_window alloc off (o mod alloc - off mod alloc) o Ha ltac:(lia) ltac:(lia)) as Hm.
    assert (o = off + (o mod alloc - off mod alloc)); [|lia]. apply Hm; lia.
Qed.

Lemma chunk_len_spec (alloc off len : Z) : 0 < alloc ->
  chunk_len alloc off len = Z.min len (alloc - off mod alloc) /\ 0 <= off mod alloc < alloc.
Proof. intros Ha. pose proof (Z.mod_pos_bound off alloc Ha). unfold chunk_len. bdestruct_all; lia. Qed.

(** The state after the bytes [data] were stored from offset [off] on, seen
    through the window of offsets that starts at [c]. *)
Record stored (c : Z) (r r' : ring_buf) (off : Z) (data : bytes) : Prop := {
  st_alloc : rb_alloc r' = rb_alloc r;
  st_ctail : rb_ctail r' = rb_ctail r;
  st_at : forall o, c <= o < c + rb_alloc r ->
    rb_at r' o = if (off <=? o) && (o <? off + zlen data) then data !! Z.to_nat (o - off) else rb_at r o }.

Lemma stored_nil (c : Z) (r : ring_buf) (off : Z) : stored c r r off [].
Proof.
  split; [done|done|]. intros o _. change (zlen (@nil Z)) with 0. by destruct (Z.leb_spec off o), (Z.ltb_spec o (off + 0)); try lia.
Qed.

Lemma stored_chunk (c : Z) (r : ring_buf) (off : Z) (data : bytes) (f : Z) :
  0 < rb_alloc r -> off mod rb_alloc r + zlen data <= rb_alloc r -> c <= off -> off + zlen data <= c + rb_alloc r ->
  stored c r (mkRing (mem_write (rb_mem r) (off mod rb_alloc r) data) f (rb_ctail r)) off data.
Proof.
  intros Ha Hfit Hc Hw. pose proof (Z.mod_pos_bound off _ Ha).
  assert (Hl : rb_alloc (mkRing (mem_write (rb_mem r) (off mod rb_alloc r) data) f (rb_ctail r)) = rb_alloc r).
  { unfold rb_alloc in *. cbn [rb_mem]. apply mem_write_len; lia. }
  split; [exact Hl|done|]. intros o Ho. unfold rb_at. rewrite Hl. cbn [rb_mem]. unfold rb_alloc in *.
  apply chunk_lookup; lia.
Qed.

Lemma stored_trans (c : Z) (r r1 r2 : ring_buf) (off l : Z) (data : bytes) : 0 <= l <= zlen data ->
  stored c r r1 off (take (Z.to_nat l) data) -> stored c r1 r2 (off + l) (drop (Z.to_nat l) data) ->
  stored c r r2 off data.
Proof.
  intros Hl [A1 A2 A3] [B1 B2 B3]. rewrite zlen_take in A3 by done. rewrite zlen_drop in B3 by done.
  split; [congruence|congruence|]. intros o Ho. rewrite B3, A3 by (rewrite ?A1; lia).
  destruct (Z.leb_spec off o), (Z.ltb_spec o (off + l)), (Z.leb_spec (off + l) o), (Z.ltb_spec o (off + l + (zlen data - l))),
    (Z.ltb_spec o (off + zlen data)); cbn [andb]; try lia; try done.
  - apply lookup_take_lt. lia.
  - rewrite lookup_drop. f_equal. lia.
Qed.

(** *** Pushing *)

Definition push_count (r : ring_buf) (len : Z) : Z :=
  Z.min len (Z.min (rb_alloc r - (rb_head r - rb_ctail r)) (MAX_OFFSET - rb_head r)).

Lemma ring_used (r : ring_buf) : ring_ok r -> ring_buf_used r = rb_head r - rb_ctail r.
Proof. intros [H1 H2 H3 H4]. unfold ring_buf_used. unfold MAX_OFFSET in *. apply sub64_small. u64_side. Qed.

Lemma ring_avail (r : ring_buf) : ring_ok r -> ring_buf_avail r = rb_alloc r - (rb_head r - rb_ctail r).
Proof.
  intros Hok. unfold ring_buf_avail. rewrite ring_used by done. destruct Hok as [H1 H2 H3 H4].
  unfold MAX_OFFSET in *. apply sub64_small. u64_side.
Qed.

Lemma push_clip (r : ring_buf) (buf : bytes) : ring_ok r ->
  (let buf := if ring_buf_avail r <? zlen buf then take (Z.to_nat (ring_buf_avail r)) buf else buf in
   if MAX_OFFSET -u rb_head r <? zlen buf then take (Z.to_nat (MAX_OFFSET -u rb_head r)) buf else buf)
  = take (Z.to_nat (push_count r (zlen buf))) buf.
Proof.
  intros Hok. cbv zeta. rewrite ring_avail by done. destruct Hok as [H1 H2 H3 H4].
  rewrite sub64_small by (unfold MAX_OFFSET in *; u64_side). unfold push_count. pose proof (zlen_nonneg buf).
  destruct (Z.ltb_spec (rb_alloc r - (rb_head r - rb_ctail r)) (zlen buf)).
  - rewrite zlen_take by lia. destruct (Z.ltb_spec (MAX_OFFSET - rb_head r) (rb_alloc r - (rb_head r - rb_ctail r))).
    + rewrite take_take. f_equal. lia.
    + f_equal. lia.
  - destruct (Z.ltb_spec (MAX_OFFSET - rb_head r) (zlen buf)); [f_equal; lia|].
    symmetry. apply take_ge. unfold zlen in *. lia.
Qed.

Lemma push_loop_spec (fuel : nat) : forall r buf pushed r' p',
  ring_ok r -> (length buf < fuel)%nat -> 0 <= pushed -> pushed + zlen buf < U64_MOD ->
  push_loop fuel r buf pushed = (r', p') ->
  let n := push_count r (zlen buf) in
  p' = pushed + n /\ ring_ok r' /\ rb_head r' = rb_head r + n /\
  stored (rb_ctail r) r r' (rb_head r) (take (Z.to_nat n) buf).
Proof.
  induction fuel as [|fuel IH]; intros r buf pushed r' p' Hok Hf Hp Hov Hpush n; [lia|].
  cbn [push_loop] in Hpush. pose proof (push_clip r buf Hok) as Hclip. cbv zeta in Hclip, Hpush. rewrite Hclip in Hpush. fold n in Hpush.
  pose proof Hok as [H1 H2 H3 H4]. pose proof (zlen_nonneg buf).
  assert (Hn : 0 <= n <= zlen buf) by (subst n; unfold push_count; lia).
  rewrite zlen_take in Hpush by done. destruct (Z.eqb_spec n 0) as [He|Hne].
  { injection Hpush as <- <-. rewrite He. split_and!; [lia|done|lia|]. cbn. apply stored_nil. }
  assert (Ha : 0 < rb_alloc r) by (subst n; unfold push_count in *; lia).
  destruct (chunk_len_spec (rb_alloc r) (rb_head r) n Ha) as [Hl Hidx].
  set (l := chunk_len (rb_alloc r) (rb_head r) n) in *.
  assert (Hfit : n <= rb_alloc r - (rb_head r - rb_ctail r) /\ n <= MAX_OFFSET - rb_head r) by (subst n; unfold push_count; lia).
  rewrite !add64_small in Hpush by (unfold MAX_OFFSET in *; u64_side).
  rewrite take_take in Hpush. replace (Z.to_nat l `min` Z.to_nat n)%nat with (Z.to_nat l) in Hpush by lia.
  change ((r <| rb_mem := mem_write (rb_mem r) (rb_head r mod rb_alloc r) (take (Z.to_nat l) buf) |>) <| rb_head := rb_head r + l |>)
    with (mkRing (mem_write (rb_mem r) (rb_head r mod rb_alloc r) (take (Z.to_nat l) buf)) (rb_head r + l) (rb_ctail r)) in Hpush.
  pose proof (stored_chunk (rb_ctail r) r (rb_head r) (take (Z.to_nat l) buf) (rb_head r + l)) as Hs.
  rewrite zlen_take in Hs by lia. specialize (Hs Ha ltac:(lia) ltac:(lia) ltac:(lia)).
  set (r1 := mkRing _ _ _) in *. pose proof (st_alloc _ _ _ _ _ Hs) as Ha1.
  assert (Hok1 : ring_ok r1) by (split; rewrite ?Ha1; subst r1; cbn [rb_head rb_ctail]; lia).
  assert (Hd : zlen (drop (Z.to_nat l) (take (Z.to_nat n) buf)) = n - l) by (rewrite zlen_drop, zlen_take by (rewrite ?zlen_take by lia; lia); done).
  apply IH in Hpush as (-> & Hok' & Hh & Hst); [|done|clear Hclip; unfold zlen in *; lia|lia|lia]. rewrite Hd in *.
  assert (Hc : push_count r1 (n - l) = n - l) by (unfold push_count; rewrite Ha1; subst r1; cbn [rb_head rb_ctail]; lia).
  rewrite Hc in *. split_and!; [lia|done|rewrite Hh; subst r1; cbn [rb_head]; lia|].
  eapply stored_trans with (l := l) (r1 := r1); [rewrite zlen_take; lia| |].
  - rewrite take_take. replace (Z.to_nat l `min` Z.to_nat n)%nat with (Z.to_nat l) by lia. done.
  - rewrite take_ge in Hst by (unfold zlen in Hd; lia). exact Hst.
Qed.

Lemma push_spec (r r' : ring_buf) (buf : bytes) (n : Z) : ring_ok r -> zlen buf < U64_MOD -> ring_buf_push r buf = (r', n) ->
  n = push_count r (zlen buf) /\ ring_ok r' /\ rb_head r' = rb_head r + n /\
  stored (rb_ctail r) r r' (rb_head r) (take (Z.to_nat n) buf).
Proof.
  intros Hok Hl Hp. apply push_loop_spec in Hp as (-> & ? & ? & ?); auto; lia.
Qed.

(** A pushed byte is the next byte of the stream. *)
Lemma push_holds (r r' : ring_buf) (buf : bytes) (n : Z) (P : Z -> Prop) (str : Z -> Z) :
  ring_ok r -> zlen buf < U64_MOD -> ring_buf_push r buf = (r', n) -> slice_of str (rb_head r) (take (Z.to_nat n) buf) ->
  holds r P str -> holds r' P str.
Proof.
  intros Hok Hl Hp Hs Hh. apply push_spec in Hp as (Hn & Hok' & Hhd & [S1 S2 S3]); auto.
  pose proof Hok as [H1 H2 H3 H4]. pose proof Hok' as [G1 G2 G3 G4]. pose proof (zlen_nonneg buf).
  assert (0 <= n <= zlen buf) by (subst n; unfold push_count; lia).
  intros o Ho HP. rewrite S2 in Ho. rewrite S3 by lia. rewrite zlen_take by done.
  destruct (Z.leb_spec (rb_head r) o), (Z.ltb_spec o (rb_head r + n)); cbn [andb]; try lia; [|apply Hh; [lia|done]..].
  rewrite Hs by (rewrite zlen_take by done; lia). do 2 f_equal. lia.
Qed.

(** *** Writing at an offset *)

Lemma write_loop_step (n : nat) (r : ring_buf) (off c : Z) (buf : bytes) :
  0 < rb_alloc r -> 0 <= c <= off -> off + zlen buf <= c + rb_alloc r -> off + zlen buf < U64_MOD -> 0 < zlen buf ->
  let l := Z.min (zlen buf) (rb_alloc r - off mod rb_alloc r) in
  exists r1, write_at_loop (S n) r off buf = write_at_loop n r1 (off + l) (drop (Z.to_nat l) buf) /\
    stored c r r1 off (take (Z.to_nat l) buf) /\ rb_head r1 = Z.max (rb_head r) (off + l) /\
    0 < l <= zlen buf /\ (l < zlen buf -> (off + l) mod rb_alloc r = 0).
Proof.
  intros Ha Hc Hw Hov Hlen l. destruct (chunk_len_spec (rb_alloc r) off (zlen buf) Ha) as [Hl Hidx]. fold l in Hl.
  cbn [write_at_loop]. rewrite (proj2 (Z.ltb_lt 0 (zlen buf))) by done. rewrite Hl.
  assert (Hl2 : 0 < l <= zlen buf) by lia. rewrite add64_small by u64_side.
  pose proof (stored_chunk c r off (take (Z.to_nat l) buf) (Z.max (rb_head r) (off + l))) as Hs.
  rewrite zlen_take in Hs by lia. specialize (Hs Ha ltac:(lia) ltac:(lia) ltac:(lia)).
  eexists. split; [reflexivity|]. split_and!; try lia.
  - assert (forall x y : ring_buf, x = y -> stored c r y off (take (Z.to_nat l) buf) -> stored c r x off (take (Z.to_nat l) buf)) as Hx by (by intros ? ? ->).
    eapply Hx; [|exact Hs]. cbn [rb_head field_upd]. destruct (Z.ltb_spec (rb_head r) (off + l)); cbn; f_equal; lia.
  - cbn [rb_head field_upd]. destruct (Z.ltb_spec (rb_head r) (off + l)); cbn; lia.
  - intros Hlt. assert (l = rb_alloc r - off mod rb_alloc r) as -> by lia.
    rewrite Z.add_sub_assoc. replace (off + rb_alloc r - off mod rb_alloc r) with ((off / rb_alloc r + 1) * rb_alloc r).
    + apply Z.mod_mul. lia.
    + pose proof (Z.div_mod off (rb_alloc r) ltac:(lia)). nia.
Qed.

(** Two rounds are enough for any data that fits the buffer. *)
Lemma write_loop_spec (r : ring_buf) (off c : Z) (buf : bytes) :
  0 < rb_alloc r -> 0 <= c <= off -> off + zlen buf <= c + rb_alloc r -> off + zlen buf < U64_MOD -> 0 < zlen buf ->
  let r' := write_at_loop 2 r off buf in
  stored c r r' off buf /\ rb_head r' = Z.max (rb_head r) (off + zlen buf).
Proof.
  intros Ha Hc Hw Hov Hlen. cbv zeta.
  destruct (write_loop_step 1 r off c buf Ha Hc Hw Hov Hlen) as (r1 & -> & Hs1 & Hh1 & Hl & Hmod).
  set (l := Z.min (zlen buf) (rb_alloc r - off mod rb_alloc r)) in *. pose proof (st_alloc _ _ _ _ _ Hs1) as Ha1.
  assert (Hd : zlen (drop (Z.to_nat l) buf) = zlen buf - l) by (apply zlen_drop; lia).
  destruct (Z.eq_dec l (zlen buf)) as [He|Hne].
  - assert (drop (Z.to_nat l) buf = []) as -> by (apply nil_length_inv; unfold zlen in *; lia).
    change (write_at_loop 1 r1 (off + l) []) with r1. rewrite take_ge in Hs1 by (unfold zlen in *; lia).
    split; [done|]. by rewrite Hh1, He.
  - destruct (write_loop_step 0 r1 (off + l) c (drop (Z.to_nat l) buf)) as (r2 & -> & Hs2 & Hh2 & Hl2 & _);
      rewrite ?Ha1, ?Hd; try lia.
    rewrite Ha1, Hd in *. rewrite Hmod in * by lia. rewrite (Z.min_l (zlen buf - l)) in * by lia.
    cbn [write_at_loop]. split; [|lia]. eapply stored_trans with (l := l); [lia|done|].
    by rewrite (take_ge (drop _ _)) in Hs2 by (unfold zlen in *; lia).
Qed.

Lemma write_at_spec (r r' : ring_buf) (off : Z) (buf : bytes) (ok : bool) :
  ring_ok r -> 0 <= off -> off + zlen buf <= MAX_OFFSET -> ring_buf_write_at r off buf = (r', ok) ->
  (ok = true <-> rb_ctail r <= off /\ off + zlen buf <= rb_ctail r + rb_alloc r /\ rb_head r + zlen buf <= MAX_OFFSET) /\
  (ok = false -> r' = r) /\
  (ok = true -> ring_ok r' /\ stored (rb_ctail r) r r' off buf /\
     rb_head r' = if zlen buf =? 0 then rb_head r else Z.max (rb_head r) (off + zlen buf)).
Proof.
  intros Hok Ho Hov Hop. pose proof Hok as [H1 H2 H3 H4]. pose proof (zlen_nonneg buf).
  unfold ring_buf_write_at, safe_add in Hop. rewrite ring_avail in Hop by done.
  rewrite !add64_small in Hop by (unfold MAX_OFFSET in *; u64_side).
  rewrite !(proj2 (Z.leb_gt U64_MOD _)) in Hop by (unfold MAX_OFFSET in *; u64_side). cbn [orb] in Hop. rewrite orb_false_r in Hop.
  destruct ((off <? rb_ctail r) || (rb_head r + (rb_alloc r - (rb_head r - rb_ctail r)) <? off + zlen buf)
            || (MAX_OFFSET <? rb_head r + zlen buf)) eqn:E.
  - injection Hop as <- <-. rewrite !orb_true_iff, !Z.ltb_lt in E. split_and!; [|done|done]. split; [done|lia].
  - pose proof (f_equal fst Hop) as E1. pose proof (f_equal snd Hop) as E2. cbn [fst snd] in E1, E2. subst r' ok.
    rewrite !orb_false_iff, !Z.ltb_ge in E. split_and!; [split; [lia|done]|done|]. intros _.
    destruct (Z.eqb_spec (zlen buf) 0) as [He|Hne].
    + assert (buf = []) as -> by (apply nil_length_inv; unfold zlen in *; lia).
      change (write_at_loop 2 r off []) with r. split_and!; auto using stored_nil.
    + destruct (write_loop_spec r off (rb_ctail r) buf) as [Hs Hh]; try lia; [unfold MAX_OFFSET in *; u64_side|].
      split_and!; auto. pose proof (st_alloc _ _ _ _ _ Hs) as Ha. pose proof (st_ctail _ _ _ _ _ Hs) as Hc.
      split; rewrite ?Ha, ?Hc, ?Hh; lia.
Qed.

(** *** Reading *)

Lemma rb_at_run (r : ring_buf) (off j : Z) : 0 < rb_alloc r -> 0 <= j -> off mod rb_alloc r + j < rb_alloc r ->
  rb_at r (off + j) = drop (Z.to_nat (off mod rb_alloc r)) (rb_mem r) !! Z.to_nat j.
Proof.
  intros Ha Hj Hlt. pose proof (Z.mod_pos_bound off _ Ha). unfold rb_at.
  rewrite (mod_step _ off (off + j)) by lia. rewrite lookup_drop. f_equal. lia.
Qed.

Lemma get_buf_at_spec (r : ring_buf) (off : Z) : ring_ok r -> rb_ctail r <= off <= rb_head r ->
  exists b, ring_buf_get_buf_at r off = Some b /\
    zlen b = (if rb_alloc r =? 0 then 0 else Z.min (rb_head r - off) (rb_alloc r - off mod rb_alloc r)) /\
    (off < rb_head r -> 0 < zlen b) /\
    forall j, 0 <= j < zlen b -> b !! Z.to_nat j = rb_at r (off + j).
Proof.
  intros Hok Ho. pose proof Hok as [H1 H2 H3 H4]. unfold ring_buf_get_buf_at.
  rewrite (proj2 (Z.ltb_ge (rb_head r) off)), (proj2 (Z.ltb_ge off (rb_ctail r))) by lia. cbn [orb].
  destruct (Z.eqb_spec (rb_alloc r) 0) as [He|Hne].
  { eexists. split; [done|]. change (zlen (@nil Z)) with 0. split_and!; [done|lia|lia]. }
  assert (Ha : 0 < rb_alloc r) by (pose proof (zlen_nonneg (rb_mem r)); unfold rb_alloc in *; lia).
  pose proof (Z.mod_pos_bound off _ Ha). rewrite sub64_small by (unfold MAX_OFFSET in *; u64_side).
  eexists. split; [done|]. set (l := if _ <? _ then _ else _).
  assert (Hl : l = Z.min (rb_head r - off) (rb_alloc r - off mod rb_alloc r)) by (subst l; bdestruct_all; lia).
  assert (Hz : zlen (take (Z.to_nat l) (drop (Z.to_nat (off mod rb_alloc r)) (rb_mem r))) = l).
  { apply zlen_take. rewrite zlen_drop by (unfold rb_alloc in *; lia). unfold rb_alloc in *. lia. }
  rewrite Hz. split_and!; [done|lia|]. intros j Hj. rewrite rb_at_run by lia. apply lookup_take_lt. lia.
Qed.

Lemma get_ptr_spec (r : ring_buf) (off : Z) : ring_ok r -> rb_ctail r <= off < rb_head r ->
  exists b, ring_buf_get_ptr r off = Some b /\ zlen b = rb_alloc r - off mod rb_alloc r /\ 0 < zlen b /\
    forall j, 0 <= j < zlen b -> b !! Z.to_nat j = rb_at r (off + j).
Proof.
  intros Hok Ho. pose proof Hok as [H1 H2 H3 H4]. unfold ring_buf_get_ptr.
  rewrite (proj2 (Z.leb_gt (rb_head r) off)), (proj2 (Z.ltb_ge off (rb_ctail r))) by lia. cbn [orb].
  assert (Ha : 0 < rb_alloc r) by lia. pose proof (Z.mod_pos_bound off _ Ha).
  assert (Hz : zlen (drop (Z.to_nat (off mod rb_alloc r)) (rb_mem r)) = rb_alloc r - off mod rb_alloc r).
  { rewrite zlen_drop; unfold rb_alloc in *; lia. }
  eexists. split; [done|]. rewrite Hz. split_and!; [done|lia|]. intros j Hj. by rewrite rb_at_run by lia.
Qed.

(** *** Culling *)

Lemma cleanse_at (r : ring_buf) (off l o : Z) : let mem := OPENSSL_cleanse (rb_mem r) (off mod rb_alloc r) l in
  0 < rb_alloc r -> 0 <= l -> off mod rb_alloc r + l <= rb_alloc r -> off + l - rb_alloc r <= o < off + rb_alloc r ->
  zlen mem = rb_alloc r /\
  mem !! Z.to_nat (o mod rb_alloc r) = if (off <=? o) && (o <? off + l) then Some 0 else rb_at r o.
Proof.
  intros mem Ha Hl Hfit Ho. pose proof (Z.mod_pos_bound off _ Ha). subst mem. unfold OPENSSL_cleanse, rb_at, rb_alloc in *.
  assert (Hz : zlen (replicate (Z.to_nat l) 0) = l) by (unfold zlen; rewrite length_replicate; lia).
  split; [apply mem_write_len; lia|]. rewrite chunk_lookup by lia. rewrite Hz.
  destruct (Z.leb_spec off o), (Z.ltb_spec o (off + l)); cbn [andb]; try done. apply lookup_replicate_2. lia.
Qed.

(** [mem] holds what [r] holds from [e] on, and zeros before that. *)
Definition cleansed (r : ring_buf) (mem : bytes) (e : Z) : Prop :=
  zlen mem = rb_alloc r /\
  forall o, rb_ctail r <= o < rb_head r -> mem !! Z.to_nat (o mod rb_alloc r) = if o <? e then Some 0 else rb_at r o.

(** The first chunk reaches the end of the allocation and a second is left. *)
Lemma cleansed_wrap (r : ring_buf) (e : Z) : let l1 := rb_alloc r - rb_ctail r mod rb_alloc r in
  0 < rb_alloc r -> rb_ctail r + l1 < e -> e <= rb_head r -> rb_head r - rb_ctail r <= rb_alloc r ->
  cleansed r (OPENSSL_cleanse (OPENSSL_cleanse (rb_mem r) (rb_ctail r mod rb_alloc r) l1) 0 (e - rb_ctail r - l1)) e.
Proof.
  intros l1 Ha Hw He Hfit. pose proof (Z.mod_pos_bound (rb_ctail r) _ Ha) as Hidx.
  pose (r1 := mkRing (OPENSSL_cleanse (rb_mem r) (rb_ctail r mod rb_alloc r) l1) (rb_head r) (rb_ctail r)).
  assert (Ha1 : rb_alloc r1 = rb_alloc r) by (apply (cleanse_at r (rb_ctail r) l1 (rb_ctail r)); lia).
  assert (Hz0 : (rb_ctail r + l1) mod rb_alloc r = 0).
  { subst l1. rewrite Z.add_sub_assoc.
    replace (rb_ctail r + rb_alloc r - rb_ctail r mod rb_alloc r) with ((rb_ctail r / rb_alloc r + 1) * rb_alloc r)
      by (pose proof (Z.div_mod (rb_ctail r) (rb_alloc r) ltac:(lia)); nia). apply Z.mod_mul. lia. }
  change (OPENSSL_cleanse (rb_mem r) (rb_ctail r mod rb_alloc r) l1) with (rb_mem r1). split.
  - destruct (cleanse_at r1 (rb_ctail r + l1) (e - rb_ctail r - l1) (rb_ctail r)) as [C1 _]; rewrite ?Ha1; try lia.
    by rewrite Ha1, Hz0 in C1.
  - intros o Ho. destruct (cleanse_at r1 (rb_ctail r + l1) (e - rb_ctail r - l1) o) as [_ C2]; rewrite ?Ha1; try lia.
    rewrite Ha1, Hz0 in C2. rewrite C2. unfold rb_at at 1. rewrite Ha1. cbn [r1 rb_mem].
    destruct (cleanse_at r (rb_ctail r) l1 o) as [_ ->]; try lia.
    destruct (Z.leb_spec (rb_ctail r + l1) o), (Z.ltb_spec o (rb_ctail r + l1 + (e - rb_ctail r - l1))),
      (Z.leb_spec (rb_ctail r) o), (Z.ltb_spec o (rb_ctail r + l1)), (Z.ltb_spec o e); cbn [andb]; try lia; done.
Qed.

Lemma cleanse_popped_spec (r : ring_buf) (end_ : Z) : ring_ok r -> 0 < rb_alloc r -> rb_ctail r < end_ -> end_ < MAX_OFFSET ->
  cleansed r (cleanse_popped r end_) (end_ + 1).
Proof.
  intros [H1 H2 H3 H4] Ha Hlt Hm. unfold cleanse_popped. rewrite add64_small by (unfold MAX_OFFSET in *; u64_side).
  set (ce := if rb_head r <? end_ + 1 then rb_head r else end_ + 1).
  assert (Hce : ce = Z.min (rb_head r) (end_ + 1)) by (subst ce; bdestruct_all; lia). clearbody ce.
  assert (Hmono : forall mem, cleansed r mem ce -> cleansed r mem (end_ + 1)).
  { intros mem [M1 M2]. split; [done|]. intros o Ho. rewrite M2 by done.
    by destruct (Z.ltb_spec o ce), (Z.ltb_spec o (end_ + 1)); try lia. }
  apply Hmono. rewrite sub64_small by (unfold MAX_OFFSET in *; u64_side). pose proof (Z.mod_pos_bound (rb_ctail r) _ Ha) as Hidx.
  destruct (Z.ltb_spec (rb_alloc r - rb_ctail r mod rb_alloc r) (ce - rb_ctail r)) as [Hw|Hw].
  - rewrite sub64_small by (unfold MAX_OFFSET in *; u64_side). rewrite (proj2 (Z.ltb_lt 0 _)) by lia. apply cleansed_wrap; lia.
  - destruct (Z.ltb_spec 0 (ce - rb_ctail r)).
    + split; [apply (cleanse_at r (rb_ctail r) (ce - rb_ctail r) (rb_ctail r)); lia|].
      intros o Ho. destruct (cleanse_at r (rb_ctail r) (ce - rb_ctail r) o) as [_ ->]; try lia.
      rewrite (proj2 (Z.leb_le (rb_ctail r) o)) by lia. cbn [andb]. by replace (rb_ctail r + (ce - rb_ctail r)) with ce by lia.
    + split; [done|]. intros o Ho. rewrite (proj2 (Z.ltb_ge o ce)) by lia. done.
Qed.

(** What is retained after the bytes up to [end_] are culled. *)
Lemma cpop_spec (r : ring_buf) (start end_ : Z) (cleanse : bool) :
  ring_ok r -> 0 <= start <= rb_ctail r -> rb_ctail r <= end_ + 1 -> end_ < MAX_OFFSET ->
  let r' := ring_buf_cpop_range r start end_ cleanse in
  ring_ok r' /\ rb_alloc r' = rb_alloc r /\ rb_ctail r' = end_ + 1 /\ rb_head r' = Z.max (rb_head r) (end_ + 1) /\
  (forall o, end_ + 1 <= o < rb_head r -> rb_at r' o = rb_at r o) /\
  (cleanse = true -> rb_ctail r < end_ -> forall o, rb_ctail r <= o <= end_ -> o < rb_head r -> rb_at r' o = Some 0).
Proof.
  intros Hok Hs He Hm. pose proof Hok as [H1 H2 H3 H4]. cbv zeta. unfold ring_buf_cpop_range.
  rewrite (proj2 (Z.ltb_ge (rb_ctail r) start)), (proj2 (Z.leb_gt MAX_OFFSET end_)) by lia. cbn [orb].
  rewrite add64_small by (unfold MAX_OFFSET in *; u64_side). set (mem := if _ && _ then _ else _).
  assert (Hmem : zlen mem = rb_alloc r /\ (forall o, end_ + 1 <= o < rb_head r -> mem !! Z.to_nat (o mod rb_alloc r) = rb_at r o) /\
    (cleanse = true -> rb_ctail r < end_ -> forall o, rb_ctail r <= o <= end_ -> o < rb_head r -> mem !! Z.to_nat (o mod rb_alloc r) = Some 0)).
  { subst mem. destruct (cleanse && (0 <? rb_alloc r) && (rb_ctail r <? end_)) eqn:E.
    - rewrite !andb_true_iff, !Z.ltb_lt in E. destruct E as [[_ Ha] Hlt].
      destruct (cleanse_popped_spec r end_ Hok Ha Hlt Hm) as [M1 M2]. split_and!; [done|..].
      + intros o Ho. rewrite M2 by lia. by rewrite (proj2 (Z.ltb_ge o _)) by lia.
      + intros _ _ o Ho Hh. rewrite M2 by lia. by rewrite (proj2 (Z.ltb_lt o _)) by lia.
    - split_and!; [done|done|]. intros -> Hlt o Ho Hh. cbn [andb] in E. rewrite andb_false_iff, !Z.ltb_ge in E. lia. }
  destruct Hmem as (M1 & M2 & M3). clearbody mem. cbn [rb_head rb_ctail].
  set (r' := if rb_head r <? end_ + 1 then _ else _).
  assert (Hr : rb_mem r' = mem /\ rb_ctail r' = end_ + 1 /\ rb_head r' = Z.max (rb_head r) (end_ + 1)).
  { subst r'. destruct (Z.ltb_spec (rb_head r) (end_ + 1)); cbn; (split_and!; [done..|lia]). }
  destruct Hr as (R1 & R2 & R3). clearbody r'. assert (Ra : rb_alloc r' = rb_alloc r) by (unfold rb_alloc at 1; by rewrite R1).
  split_and!; try done; [split; rewrite ?R2, ?R3, ?Ra; lia|..]; intros; unfold rb_at at 1; rewrite R1, Ra; auto.
Qed.

(** *** Resizing *)

Lemma resize_loop_spec (fuel : nat) : forall r rnew copied,
  ring_ok r -> ring_ok rnew -> rb_head r - rb_ctail r <= rb_alloc rnew ->
  0 <= copied <= rb_head r - rb_ctail r -> rb_ctail rnew = rb_ctail r -> rb_head rnew = rb_ctail r + copied ->
  (forall o, rb_ctail r <= o < rb_ctail r + copied -> rb_at rnew o = rb_at r o) ->
  rb_head r - rb_ctail r - copied < Z.of_nat fuel ->
  exists r', resize_loop fuel r rnew copied = Some r' /\ rb_alloc r' = rb_alloc rnew /\ ring_ok r' /\
    rb_ctail r' = rb_ctail r /\ rb_head r' = rb_head r /\
    forall o, rb_ctail r <= o < rb_head r -> rb_at r' o = rb_at r o.
Proof.
  induction fuel as [|fuel IH]; intros r rnew copied Hok Hokn Hfit Hc Hct Hhd Hat Hf; [lia|]. cbn [resize_loop].
  pose proof Hok as [H1 H2 H3 H4]. pose proof Hokn as [G1 G2 G3 G4].
  rewrite (add64_small (rb_ctail r)) by (unfold MAX_OFFSET in *; u64_side).
  destruct (get_buf_at_spec r (rb_ctail r + copied) Hok ltac:(lia)) as (b & -> & Hlen & Hpos & Hb). pose proof (zlen_nonneg b).
  assert (Hble : zlen b <= rb_head r - rb_ctail r - copied) by (rewrite Hlen; destruct (rb_alloc r =? 0); lia).
  destruct (Z.eqb_spec (zlen b) 0) as [He|Hne].
  { exists rnew. split_and!; auto; [lia|]. intros o Ho. apply Hat. lia. }
  destruct (ring_buf_push rnew b) as [rn n] eqn:Hp.
  apply push_spec in Hp as (Hn & Hok' & Hh' & [S1 S2 S3]); [|done|unfold MAX_OFFSET in *; u64_side].
  assert (n = zlen b) as -> by (rewrite Hn; unfold push_count; lia). rewrite Z.eqb_refl. cbn [negb].
  rewrite (add64_small copied) by (unfold MAX_OFFSET in *; u64_side).
  destruct (IH r rn (copied + zlen b)) as (r' & He & Q1 & Q2 & Q3 & Q4 & Q5); auto; try lia; [|exists r'; split_and!; auto; lia].
  intros o Ho. rewrite S3 by lia. rewrite zlen_take by lia. rewrite take_ge by (unfold zlen; lia).
  destruct (Z.leb_spec (rb_head rnew) o), (Z.ltb_spec o (rb_head rnew + zlen b)); cbn [andb]; try lia; [|apply Hat; lia..].
  rewrite Hb by lia. f_equal. lia.
Qed.

Lemma resize_spec (malloc : option bytes) (r r' : ring_buf) (n : Z) (ok : bool) : ring_ok r -> 0 <= n <= MAX_OFFSET ->
  (forall mem, malloc = Some mem -> zlen mem = n) -> ring_buf_resize malloc r n = (r', ok) ->
  (ok = false -> r' = r) /\
  (ok = true -> ring_ok r' /\ rb_alloc r' = n /\ rb_ctail r' = rb_ctail r /\ rb_head r' = rb_head r /\
     forall o, rb_ctail r <= o < rb_head r -> rb_at r' o = rb_at r o) /\
  (malloc <> None -> rb_head r - rb_ctail r <= n -> ok = true).
Proof.
  intros Hok Hn Hm. pose proof Hok as [H1 H2 H3 H4]. unfold ring_buf_resize. destruct (Z.eqb_spec n (rb_alloc r)) as [->|Hne].
  { intros [= <- <-]. split_and!; try done. }
  rewrite ring_used by done. destruct (Z.ltb_spec n (rb_head r - rb_ctail r)).
  { intros [= <- <-]. split_and!; try done. lia. }
  destruct malloc as [mem|]; [|by intros [= <- <-]]. specialize (Hm mem eq_refl).
  rewrite sub64_small by (unfold MAX_OFFSET in *; u64_side). replace (rb_head r - (rb_head r - rb_ctail r)) with (rb_ctail r) by lia.
  destruct (resize_loop_spec (S (length (rb_mem r))) r (mkRing mem (rb_ctail r) (rb_ctail r)) 0) as (rn & -> & Q1 & Q2 & Q3 & Q4 & Q5);
    unfold rb_alloc in *; cbn [rb_mem rb_head rb_ctail] in *; auto; try lia.
  - split; unfold rb_alloc; cbn [rb_mem rb_head rb_ctail]; lia.
  - unfold zlen in *. lia.
  - intros Hop. pose proof (f_equal fst Hop) as E1. pose proof (f_equal snd Hop) as E2. cbn [fst snd] in E1, E2. subst r' ok.
    split_and!; try done. intros _. destruct Q2 as [A1 A2 A3 A4]. unfold rb_alloc, rb_at in *.
    cbn [rb_mem rb_head rb_ctail field_upd] in *. split_and!; auto; try lia.
    split; unfold rb_alloc; cbn [rb_mem rb_head rb_ctail field_upd]; lia.
Qed.
