(* ===== verification/Sstream.v ===== *)
(** * The send stream buffer (ssl/quic/quic_sstream.c)

    The bytes of the stream live in a ring buffer; two integer sets say which
    of them are still to be sent and which are acknowledged.  [alloc] says
    whether the allocation a call makes succeeds. *)

From S2P Require Import Prelude UintSet Packet RingBuf.

Record QUIC_SSTREAM := mkSstream {
  ss_ring : ring_buf; ss_new : UINT_SET; ss_acked : UINT_SET;
  ss_have_final_size : bool; ss_sent_final_size : bool; ss_acked_final_size : bool; ss_cleanse : bool }.
#[export] Instance eta_sstream : Eta QUIC_SSTREAM := fun q =>
  mkSstream (ss_ring q) (ss_new q) (ss_acked q) (ss_have_final_size q) (ss_sent_final_size q)
    (ss_acked_final_size q) (ss_cleanse q).

Definition ossl_quic_sstream_new (malloc : option bytes) (init_buf_size : Z) : option QUIC_SSTREAM :=
  match ring_buf_resize malloc ring_buf_init init_buf_size with
  | (_, false) => None
  | (r, true) => Some (mkSstream r ossl_uint_set_init ossl_uint_set_init false false false false)
  end.

(** The loop that collects the vectors of one frame.  [None] is a failing
    return.  Each round takes at least one byte of the buffer, so its size is
    enough fuel ([frame_loop_spec]). *)
Fixpoint frame_loop (fuel : nat) (r : ring_buf) (start max_len total_len : Z) (iov : list bytes)
  : option (list bytes * Z) :=
  match fuel with
  | O => None
  | S fuel =>
      if max_len <=? total_len then Some (iov, total_len)
      else
        match ring_buf_get_buf_at r (start +u total_len) with
        | None => None
        | Some src =>
            if zlen src =? 0 then Some (iov, total_len)
            else
              let src := if max_len <? total_len +u zlen src then take (Z.to_nat (max_len -u total_len)) src else src in
              frame_loop fuel r start max_len (total_len +u zlen src) (iov ++ [src])
        end
  end.

Record stream_hdr := mkHdr { h_offset : Z; h_len : Z; h_is_fin : bool }.

(** The header fields set and the vectors; [num_iov] is the room of the
    caller's array. *)
Definition ossl_quic_sstream_get_stream_frame (qss : QUIC_SSTREAM) (skip num_iov : Z)
  : option (stream_hdr * list bytes) :=
  if num_iov <? 2 then None
  else
    match drop (Z.to_nat skip) (ss_new qss) with
    | [] =>
        if zlen (ss_new qss) <? skip then None
        else if negb (ss_have_final_size qss) || ss_sent_final_size qss then None
        else Some (mkHdr (rb_head (ss_ring qss)) 0 true, [])
    | range :: _ =>
        let max_len := r_end range -u r_start range +u 1 in
        match frame_loop (S (length (rb_mem (ss_ring qss)))) (ss_ring qss) (r_start range) max_len 0 [] with
        | None => None
        | Some (iov, total_len) =>
            Some (mkHdr (r_start range) total_len
                    (ss_have_final_size qss && (r_start range +u total_len =? rb_head (ss_ring qss))), iov)
        end
    end.

Definition ossl_quic_sstream_has_pending (qss : QUIC_SSTREAM) : bool :=
  match ossl_quic_sstream_get_stream_frame qss 0 2 with Some _ => true | None => false end.

Definition ossl_quic_sstream_get_cur_size (qss : QUIC_SSTREAM) : Z := rb_head (ss_ring qss).

(** [None]: the removal dereferences NULL when a range must be cut and the item
    cannot be allocated. *)
Definition ossl_quic_sstream_mark_transmitted (alloc : bool) (qss : QUIC_SSTREAM) (start end_ : Z)
  : option (QUIC_SSTREAM * bool) :=
  match ossl_uint_set_remove alloc (ss_new qss) (mkRange start end_) with
  | None => None
  | Some (s, ok) => Some (qss <| ss_new := s |>, ok)
  end.

Definition ossl_quic_sstream_mark_transmitted_fin (qss : QUIC_SSTREAM) (final_size : Z) : QUIC_SSTREAM * bool :=
  if negb (ss_have_final_size qss) || negb (final_size =? rb_head (ss_ring qss)) then (qss, false)
  else (qss <| ss_sent_final_size := true |>, true).

Definition ossl_quic_sstream_mark_lost (alloc : bool) (qss : QUIC_SSTREAM) (start end_ : Z) : QUIC_SSTREAM * bool :=
  let '(s, ok) := ossl_uint_set_insert alloc (ss_new qss) (mkRange start end_) in (qss <| ss_new := s |>, ok).

Definition ossl_quic_sstream_mark_lost_fin (qss : QUIC_SSTREAM) : QUIC_SSTREAM * bool :=
  if ss_acked_final_size qss then (qss, false) else (qss <| ss_sent_final_size := false |>, true).

Definition qss_cull (qss : QUIC_SSTREAM) : QUIC_SSTREAM :=
  match ss_acked qss with
  | [] => qss
  | h :: _ => qss <| ss_ring := ring_buf_cpop_range (ss_ring qss) (r_start h) (r_end h) (ss_cleanse qss) |>
  end.

Definition ossl_quic_sstream_mark_acked (alloc : bool) (qss : QUIC_SSTREAM) (start end_ : Z) : QUIC_SSTREAM * bool :=
  match ossl_uint_set_insert alloc (ss_acked qss) (mkRange start end_) with
  | (s, false) => (qss <| ss_acked := s |>, false)
  | (s, true) => (qss_cull (qss <| ss_acked := s |>), true)
  end.

Definition ossl_quic_sstream_mark_acked_fin (qss : QUIC_SSTREAM) : QUIC_SSTREAM * bool :=
  if negb (ss_have_final_size qss) then (qss, false) else (qss <| ss_acked_final_size := true |>, true).

Definition ossl_quic_sstream_fin (qss : QUIC_SSTREAM) : QUIC_SSTREAM :=
  if ss_have_final_size qss then qss else qss <| ss_have_final_size := true |>.

Definition ossl_quic_sstream_get_final_size (qss : QUIC_SSTREAM) : option Z :=
  if negb (ss_have_final_size qss) then None else Some (rb_head (ss_ring qss)).

(** One push at least is made per round, so the length of [buf] is enough
    fuel. *)
Fixpoint append_loop (fuel : nat) (r : ring_buf) (buf : bytes) (consumed : Z) : ring_buf * Z :=
  match fuel with
  | O => (r, consumed)
  | S fuel =>
      if 0 <? zlen buf then
        let '(r, l) := ring_buf_push r buf in
        if l =? 0 then (r, consumed) else append_loop fuel r (drop (Z.to_nat l) buf) (consumed +u l)
      else (r, consumed)
  end.

(** On a failed insertion the offsets are restored; the memory, which the copy
    of the struct shares, is not. *)
Definition ossl_quic_sstream_append (alloc : bool) (qss : QUIC_SSTREAM) (buf : bytes) : QUIC_SSTREAM * bool * Z :=
  if ss_have_final_size qss then (qss, false, 0)
  else
    let old := ss_ring qss in
    let '(r, consumed) := append_loop (length buf) old buf 0 in
    let qss := qss <| ss_ring := r |> in
    if 0 <? consumed then
      let range := mkRange (rb_head old) (rb_head old +u consumed -u 1) in
      match ossl_uint_set_insert alloc (ss_new qss) range with
      | (s, false) => (qss <| ss_new := s |> <| ss_ring := mkRing (rb_mem r) (rb_head old) (rb_ctail old) |>, false, 0)
      | (s, true) => (qss <| ss_new := s |>, true, consumed)
      end
    else (qss, true, consumed).

Definition ossl_quic_sstream_set_buffer_size (malloc : option bytes) (qss : QUIC_SSTREAM) (num_bytes : Z) : QUIC_SSTREAM * bool :=
  let '(r, ok) := ring_buf_resize malloc (ss_ring qss) num_bytes in (qss <| ss_ring := r |>, ok).

Definition ossl_quic_sstream_get_buffer_size (qss : QUIC_SSTREAM) : Z := rb_alloc (ss_ring qss).
Definition ossl_quic_sstream_get_buffer_used (qss : QUIC_SSTREAM) : Z := ring_buf_used (ss_ring qss).
Definition ossl_quic_sstream_get_buffer_avail (qss : QUIC_SSTREAM) : Z := ring_buf_avail (ss_ring qss).

Definition ossl_quic_sstream_is_totally_acked (qss : QUIC_SSTREAM) : bool :=
  if ss_have_final_size qss && negb (ss_acked_final_size qss) then false
  else if ossl_quic_sstream_get_cur_size qss =? 0 then true
  else
    match ss_acked qss with
    | [r] => (r_start r =? 0) && (r_end r +u 1 =? rb_head (ss_ring qss))
    | _ => false
    end.

(** The vectors cut to [len] bytes in all. *)
Fixpoint adjust_loop (len running : Z) (iov : list bytes) : list bytes :=
  match iov with
  | [] => []
  | v :: rest =>
      (if len <=? running then []
       else if len <? running +u zlen v then take (Z.to_nat (len -u running)) v else v)
      :: adjust_loop len (running +u zlen v) rest
  end.

Definition ossl_quic_sstream_adjust_iov (len : Z) (iov : list bytes) : list bytes := adjust_loop len 0 iov.

Definition ossl_quic_sstream_set_cleanse (qss : QUIC_SSTREAM) (cleanse : bool) : QUIC_SSTREAM :=
  qss <| ss_cleanse := cleanse |>.

(** ** The stream as its bytes and their states *)

Inductive byte_state := NEW | IN_FLIGHT | ACKED.

Record sspec := mkSpec {
  sp_str : bytes; sp_state : Z -> byte_state; sp_fin : bool; sp_fin_sent : bool; sp_fin_acked : bool }.
#[export] Instance eta_sspec : Eta sspec := fun p =>
  mkSpec (sp_str p) (sp_state p) (sp_fin p) (sp_fin_sent p) (sp_fin_acked p).

Definition set_states (f : Z -> byte_state) (start end_ : Z) (b : byte_state) : Z -> byte_state :=
  fun o => if (start <=? o) && (o <=? end_) then b else f o.

(** Every byte the ring retains is the byte of the stream at that offset. *)
Definition ring_keeps (r : ring_buf) (str : bytes) : Prop :=
  forall o, rb_ctail r <= o < rb_head r -> rb_at r o = str !! Z.to_nat o.

Record ss_rel (q : QUIC_SSTREAM) (p : sspec) : Prop := {
  rel_ring : ring_ok (ss_ring q);
  rel_size : rb_head (ss_ring q) = zlen (sp_str p);
  rel_data : ring_keeps (ss_ring q) (sp_str p);
  rel_new_gaps : us_gaps (ss_new q);
  rel_acked_gaps : us_gaps (ss_acked q);
  rel_new : forall o, us_has (ss_new q) o <-> 0 <= o < zlen (sp_str p) /\ sp_state p o = NEW;
  rel_acked : forall o, us_has (ss_acked q) o <-> 0 <= o < zlen (sp_str p) /\ sp_state p o = ACKED;
  rel_culled : forall o, 0 <= o < rb_ctail (ss_ring q) -> sp_state p o = ACKED;
  rel_fin : ss_have_final_size q = sp_fin p /\ ss_sent_final_size q = sp_fin_sent p /\ ss_acked_final_size q = sp_fin_acked p }.

(** *** Appending *)

Lemma push_has (r r' : ring_buf) (str buf : bytes) (n : Z) : ring_ok r -> rb_head r = zlen str -> ring_keeps r str ->
  zlen buf < U64_MOD -> ring_buf_push r buf = (r', n) ->
  n = push_count r (zlen buf) /\ 0 <= n <= zlen buf /\ ring_ok r' /\ rb_alloc r' = rb_alloc r /\ rb_ctail r' = rb_ctail r /\
  rb_head r' = zlen (str ++ take (Z.to_nat n) buf) /\ ring_keeps r' (str ++ take (Z.to_nat n) buf).
Proof.
  intros Hok Hh Hd Hl Hp. apply push_spec in Hp as (Hn & Hok' & Hhd & [S1 S2 S3]); auto.
  pose proof Hok as [H1 H2 H3 H4]. pose proof Hok' as [G1 G2 G3 G4]. pose proof (zlen_nonneg buf).
  assert (Hb : 0 <= n <= zlen buf) by (subst n; unfold push_count; lia).
  rewrite zlen_app, zlen_take by done. split_and!; try done; try lia.
  intros o Ho. rewrite S2 in Ho. rewrite S3 by lia. rewrite zlen_take by done.
  destruct (Z.leb_spec (rb_head r) o), (Z.ltb_spec o (rb_head r + n)); cbn [andb]; try lia.
  - rewrite lookup_app_r by (unfold zlen in *; lia). f_equal. unfold zlen in *. lia.
  - rewrite lookup_app_l by (unfold zlen in *; lia). apply Hd. lia.
Qed.

Lemma append_empty (fuel : nat) (r r' : ring_buf) (str : bytes) (c c' : Z) :
  ring_ok r -> rb_head r = zlen str -> ring_keeps r str -> append_loop fuel r [] c = (r', c') ->
  let n := push_count r (zlen (@nil Z)) in
  c' = c + n /\ 0 <= n <= zlen (@nil Z) /\ ring_ok r' /\ rb_ctail r' = rb_ctail r /\
  rb_head r' = zlen (str ++ take (Z.to_nat n) []) /\ ring_keeps r' (str ++ take (Z.to_nat n) []).
Proof.
  intros Hok Hh Hd Ha n. pose proof Hok as [H1 H2 H3 H4]. change (zlen (@nil Z)) with 0 in *.
  assert (n = 0) as -> by (subst n; unfold push_count; lia). assert ((r, c) = (r', c')) as [= <- <-] by (by destruct fuel).
  cbn. rewrite app_nil_r. split_and!; auto; lia.
Qed.

Lemma append_loop_spec (fuel : nat) : forall r str buf c r' c',
  ring_ok r -> rb_head r = zlen str -> ring_keeps r str -> zlen buf < U64_MOD -> (length buf <= fuel)%nat ->
  0 <= c -> c + zlen buf < U64_MOD -> append_loop fuel r buf c = (r', c') ->
  let n := push_count r (zlen buf) in
  c' = c + n /\ 0 <= n <= zlen buf /\ ring_ok r' /\ rb_ctail r' = rb_ctail r /\
  rb_head r' = zlen (str ++ take (Z.to_nat n) buf) /\ ring_keeps r' (str ++ take (Z.to_nat n) buf).
Proof.
  induction fuel as [|fuel IH]; intros r str buf c r' c' Hok Hh Hd Hl Hf Hc Hov Ha n;
    (destruct (decide (buf = [])) as [->|Hne0]; [by eapply append_empty|]).
  { destruct buf; [done|cbn in Hf; lia]. }
  assert (Hpos : 0 < zlen buf) by (destruct buf; [done|unfold zlen; cbn; lia]).
  cbn [append_loop] in Ha. rewrite (proj2 (Z.ltb_lt _ _) Hpos) in Ha.
  destruct (ring_buf_push r buf) as [r1 l] eqn:Hp.
  apply push_has with (1 := Hok) (2 := Hh) (3 := Hd) in Hp as (Hn & Hb & Hok1 & Ha1 & Hc1 & Hh1 & Hd1); [|done]. fold n in Hn. subst l.
  destruct (Z.eqb_spec n 0) as [He|Hne].
  { injection Ha as <- <-. split_and!; auto; lia. }
  rewrite add64_small in Ha by u64_side.
  assert (Hdl : zlen (drop (Z.to_nat n) buf) = zlen buf - n) by (apply zlen_drop; lia).
  apply IH with (str := str ++ take (Z.to_nat n) buf) in Ha as (-> & Hb2 & Hok2 & Hc2 & Hh2 & Hd2); auto;
    try lia; [|unfold zlen in *; lia].
  assert (push_count r1 (zlen (drop (Z.to_nat n) buf)) = 0) as E0.
  { rewrite Hdl. unfold push_count. rewrite Ha1, Hc1, Hh1, zlen_app, zlen_take, <- Hh by lia.
    destruct Hok as [H1 H2 H3 H4]. subst n. unfold push_count in *. lia. }
  rewrite E0 in *. cbn [Z.to_nat] in Hh2, Hd2. rewrite take_0, app_nil_r in Hh2, Hd2. split_and!; auto; try lia.
Qed.

(** *** The operations keep the relation *)

Lemma set_states_in (f : Z -> byte_state) (s e o : Z) (b : byte_state) : s <= o <= e -> set_states f s e b o = b.
Proof. intros. unfold set_states. by rewrite (proj2 (Z.leb_le s o)), (proj2 (Z.leb_le o e)) by lia. Qed.

Lemma set_states_out (f : Z -> byte_state) (s e o : Z) (b : byte_state) : ~ s <= o <= e -> set_states f s e b o = f o.
Proof. intros. unfold set_states. destruct (Z.leb_spec s o), (Z.leb_spec o e); cbn [andb]; lia || done. Qed.

Lemma states_range (s e o : Z) : s <= o <= e \/ ~ s <= o <= e.
Proof. lia. Qed.

Definition spec_append (p : sspec) (data : bytes) : sspec :=
  p <| sp_str := sp_str p ++ data |>
    <| sp_state := set_states (sp_state p) (zlen (sp_str p)) (zlen (sp_str p) + zlen data - 1) NEW |>.

Lemma rel_append (alloc : bool) (q q' : QUIC_SSTREAM) (p : sspec) (buf : bytes) (ok : bool) (n : Z) :
  ss_rel q p -> zlen buf < U64_MOD -> ossl_quic_sstream_append alloc q buf = (q', ok, n) ->
  ss_rel q' (spec_append p (take (Z.to_nat n) buf)) /\
  (sp_fin p = true -> ok = false) /\
  (alloc = true -> sp_fin p = false -> ok = true /\ n = push_count (ss_ring q) (zlen buf)).
Proof.
  intros Hr Hl Hop. pose proof Hr as [R1 R2 R3 R4 R5 R6 R7 R8 (R9 & R10 & R11)]. unfold ossl_quic_sstream_append in Hop.
  assert (Hsame : ss_rel q (spec_append p (take (Z.to_nat 0) buf))).
  { unfold spec_append. rewrite take_0, app_nil_r. change (zlen (@nil Z)) with 0. split; try done; cbn [sp_str sp_state field_upd];
      intros o; rewrite set_states_out by lia; auto. }
  destruct (ss_have_final_size q) eqn:Hfin.
  { injection Hop as <- <- <-. split_and!; [exact Hsame|done|]. intros; congruence. }
  destruct (append_loop (length buf) (ss_ring q) buf 0) as [r c] eqn:Ha. pose proof (zlen_nonneg buf).
  apply append_loop_spec with (str := sp_str p) in Ha as (-> & Hb & Hok & Hct & Hhd & Hdat); auto; try lia.
  set (k := push_count (ss_ring q) (zlen buf)) in *. rewrite Z.add_0_l in Hop.
  pose proof R1 as [G1 G2 G3 G4]. pose proof Hok as [K1 K2 K3 K4].
  rewrite zlen_app, zlen_take in Hhd by lia.
  destruct (Z.ltb_spec 0 k) as [Hk|Hk].
  2:{ injection Hop as <- <- <-. assert (k = 0) as -> by lia. split_and!; [|congruence|done].
      unfold spec_append in *. rewrite take_0, app_nil_r in *. change (zlen (@nil Z)) with 0 in *.
      destruct Hsame as [Q1 Q2 Q3 Q4 Q5 Q6 Q7 Q8 Q9]. cbn [sp_str sp_state field_upd] in *.
      split; cbn [ss_ring ss_new ss_acked field_upd sp_str sp_state]; auto; [lia|]. by rewrite Hct. }
  rewrite add64_small in Hop by (unfold MAX_OFFSET in *; u64_side).
  rewrite sub64_small in Hop by (unfold MAX_OFFSET in *; u64_side).
  cbn [ss_new field_upd] in Hop.
  destruct (ossl_uint_set_insert alloc (ss_new q) (mkRange (rb_head (ss_ring q)) (rb_head (ss_ring q) + k - 1))) as [s b] eqn:Hi.
  assert (Hro : range_ok (mkRange (rb_head (ss_ring q)) (rb_head (ss_ring q) + k - 1))) by (unfold range_ok, MAX_OFFSET in *; cbn; u64_side).
  pose proof (insert_spec _ _ _ _ _ (us_gaps_wf _ R4) Hro Hi) as (_ & Hv & Hf).
  assert (Hg : us_gaps s).
  { eapply insert_apart_gaps; [exact R4|exact Hro| |exact Hi]. intros v Hv'%R6 Hin. unfold in_range in Hin. cbn in Hin. lia. }
  destruct b.
  - specialize (Hv eq_refl). unfold in_range in Hv. cbn [r_start r_end] in Hv. injection Hop as <- <- <-.
    split_and!; [|congruence|done]. unfold spec_append.
    split; cbn [ss_ring ss_new ss_acked ss_have_final_size ss_sent_final_size ss_acked_final_size field_upd sp_str sp_state sp_fin sp_fin_sent sp_fin_acked]; auto;
      rewrite ?zlen_app, ?zlen_take by lia.
    + lia.
    + intros o. rewrite Hv, R6, R2. destruct (states_range (zlen (sp_str p)) (zlen (sp_str p) + k - 1) o) as [Ho|Ho].
      * rewrite set_states_in by lia. split; [intros _; split; [lia|done]|]. intros _. right. lia.
      * rewrite set_states_out by lia. split; [intros [[? ?]|?]; [split; [lia|done]|lia]|]. intros [? ?]. left. split; [lia|done].
    + intros o. rewrite R7. destruct (states_range (zlen (sp_str p)) (zlen (sp_str p) + k - 1) o) as [Ho|Ho].
      * rewrite set_states_in by lia. split; [intros [? _]; lia|by intros [_ [=]]].
      * rewrite set_states_out by lia. split; intros [? ?]; split; try lia; done.
    + rewrite Hct. intros o Ho. rewrite set_states_out by lia. by apply R8.
    + split_and!; congruence.
  - destruct (Hf eq_refl) as [-> Hal]. injection Hop as <- <- <-. split_and!; [|congruence|congruence].
    destruct Hsame as [Q1 Q2 Q3 Q4 Q5 Q6 Q7 Q8 Q9].
    split; cbn [ss_ring ss_new ss_acked field_upd rb_head rb_ctail] in *; auto.
    + split; unfold rb_alloc in *; cbn [rb_mem rb_head rb_ctail]; lia.
    + intros o Ho. cbn [rb_head rb_ctail] in Ho. unfold spec_append. rewrite take_0, app_nil_r. cbn [sp_str field_upd].
      transitivity (rb_at r o); [done|]. rewrite Hdat by lia. apply lookup_app_l. unfold zlen in *. lia.
Qed.

(** All bytes of a non-empty range are in state [b]. *)
Definition all_in (p : sspec) (start end_ : Z) (b : byte_state) : Prop :=
  0 <= start <= end_ /\ end_ < zlen (sp_str p) /\ forall o, start <= o <= end_ -> sp_state p o = b.

Lemma all_in_range (q : QUIC_SSTREAM) (p : sspec) (start end_ : Z) (b : byte_state) : ss_rel q p -> all_in p start end_ b ->
  range_ok (mkRange start end_).
Proof.
  intros Hr (H1 & H2 & _). pose proof (rel_ring _ _ Hr) as [G1 G2 G3 G4]. pose proof (rel_size _ _ Hr).
  unfold range_ok, MAX_OFFSET in *. cbn. u64_side.
Qed.

Lemma rel_transmitted (q : QUIC_SSTREAM) (p : sspec) (start end_ : Z) : ss_rel q p -> all_in p start end_ NEW ->
  exists q', ossl_quic_sstream_mark_transmitted true q start end_ = Some (q', true) /\
    ss_rel q' (p <| sp_state := set_states (sp_state p) start end_ IN_FLIGHT |>).
Proof.
  intros Hr Hall. pose proof (all_in_range _ _ _ _ _ Hr Hall) as Hro. destruct Hall as (H1 & H2 & H3).
  pose proof Hr as [R1 R2 R3 R4 R5 R6 R7 R8 R9]. unfold ossl_quic_sstream_mark_transmitted.
  destruct (remove_spec gap_before (ss_new q) (mkRange start end_)) as (s & -> & Hg & Hv); auto.
  eexists. split; [done|]. unfold in_range in Hv. cbn [r_start r_end] in Hv.
  split; cbn [ss_ring ss_new ss_acked field_upd sp_str sp_state]; auto.
  - intros o. rewrite Hv, R6. destruct (states_range start end_ o) as [Ho|Ho].
    + rewrite set_states_in by lia. split; [intros [_ ?]; lia|by intros [_ [=]]].
    + rewrite set_states_out by lia. tauto.
  - intros o. rewrite R7. destruct (states_range start end_ o) as [Ho|Ho]; [|by rewrite set_states_out by lia].
    rewrite set_states_in, H3 by lia. split; intros [_ ?]; done.
  - intros o Ho. specialize (R8 o Ho). destruct (states_range start end_ o) as [Hin|Hin]; [|by rewrite set_states_out by lia].
    rewrite H3 in R8 by lia. done.
Qed.

Lemma rel_lost (alloc : bool) (q q' : QUIC_SSTREAM) (p : sspec) (start end_ : Z) (ok : bool) : ss_rel q p -> all_in p start end_ IN_FLIGHT ->
  ossl_quic_sstream_mark_lost alloc q start end_ = (q', ok) ->
  ss_rel q' (if ok then p <| sp_state := set_states (sp_state p) start end_ NEW |> else p) /\ (alloc = true -> ok = true).
Proof.
  intros Hr Hall Hop. pose proof (all_in_range _ _ _ _ _ Hr Hall) as Hro. destruct Hall as (H1 & H2 & H3).
  pose proof Hr as [R1 R2 R3 R4 R5 R6 R7 R8 R9]. unfold ossl_quic_sstream_mark_lost in Hop.
  destruct (ossl_uint_set_insert alloc (ss_new q) (mkRange start end_)) as [s b] eqn:Hi.
  pose proof (insert_spec _ _ _ _ _ (us_gaps_wf _ R4) Hro Hi) as (_ & Hv & Hf). unfold in_range in Hv. cbn [r_start r_end] in Hv.
  assert (Hg : us_gaps s).
  { eapply insert_apart_gaps; [exact R4|exact Hro| |exact Hi]. intros v [_ Hv']%R6 Hin. unfold in_range in Hin. cbn in Hin.
    rewrite H3 in Hv' by lia. done. }
  injection Hop as <- <-. destruct b.
  - specialize (Hv eq_refl). split; [|done].
    split; cbn [ss_ring ss_new ss_acked field_upd sp_str sp_state]; auto.
    + intros o. rewrite Hv, R6. destruct (states_range start end_ o) as [Ho|Ho].
      * rewrite set_states_in by lia. split; [intros _; split; [lia|done]|]. intros _. by right.
      * rewrite set_states_out by lia. split; [intros [?|?]; [done|lia]|by left].
    + intros o. rewrite R7. destruct (states_range start end_ o) as [Ho|Ho]; [|by rewrite set_states_out by lia].
      rewrite set_states_in, H3 by lia. split; intros [_ ?]; done.
    + intros o Ho. specialize (R8 o Ho). destruct (states_range start end_ o) as [Hin|Hin]; [|by rewrite set_states_out by lia].
      rewrite H3 in R8 by lia. done.
  - destruct (Hf eq_refl) as [-> ->]. split; [|done]. by split.
Qed.

(** The first acknowledged range, if it is the one to cull. *)
Lemma rel_cull (q : QUIC_SSTREAM) (p : sspec) : ss_rel q p -> ss_rel (qss_cull q) p.
Proof.
  intros Hr. pose proof Hr as [R1 R2 R3 R4 R5 R6 R7 R8 R9]. unfold qss_cull. destruct (ss_acked q) as [|h rest] eqn:Ea; [done|].
  pose proof R1 as [G1 G2 G3 G4]. pose proof R5 as (Hh & _ & Hb)%chain_cons. unfold range_ok in Hh.
  destruct (Z.lt_ge_cases (rb_ctail (ss_ring q)) (r_start h)) as [Hlt|Hge].
  { assert (ring_buf_cpop_range (ss_ring q) (r_start h) (r_end h) (ss_cleanse q) = ss_ring q) as ->.
    { unfold ring_buf_cpop_range. by rewrite (proj2 (Z.ltb_lt _ _) Hlt). }
    split; cbn [ss_ring ss_new ss_acked field_upd]; rewrite ?Ea; auto. }
  assert (He : r_end h < zlen (sp_str p)).
  { assert (us_has (h :: rest) (r_end h)) as [? _]%R7 by (apply us_has_cons; left; unfold in_range; lia). lia. }
  assert (Hct : rb_ctail (ss_ring q) <= r_end h + 1).
  { destruct (Z.le_gt_cases (rb_ctail (ss_ring q)) (r_end h + 1)) as [|Hgt]; [done|]. exfalso.
    assert (us_has (h :: rest) (r_end h + 1)) as Hu.
    { apply R7. split; [lia|]. apply R8. lia. }
    apply us_has_cons in Hu as [Hu|(x & Hx & Hu)%us_has_elem]; [unfold in_range in Hu; lia|].
    specialize (Hb x Hx). unfold gap_before, in_range in *. lia. }
  destruct (cpop_spec (ss_ring q) (r_start h) (r_end h) (ss_cleanse q) R1) as (C1 & C2 & C3 & C4 & C5 & _);
    [lia|lia|lia|].
  split; cbn [ss_ring ss_new ss_acked field_upd]; rewrite ?Ea; auto.
  - lia.
  - intros o Ho. rewrite C3, C4 in Ho. rewrite C5 by lia. apply R3. lia.
  - rewrite C3. intros o Ho. destruct (Z.lt_ge_cases o (rb_ctail (ss_ring q))); [apply R8; lia|].
    apply R7, us_has_cons. left. unfold in_range. lia.
Qed.

Lemma rel_acked_op (alloc : bool) (q q' : QUIC_SSTREAM) (p : sspec) (start end_ : Z) (ok : bool) : ss_rel q p -> all_in p start end_ IN_FLIGHT ->
  ossl_quic_sstream_mark_acked alloc q start end_ = (q', ok) ->
  ss_rel q' (if ok then p <| sp_state := set_states (sp_state p) start end_ ACKED |> else p) /\ (alloc = true -> ok = true).
Proof.
  intros Hr Hall Hop. pose proof (all_in_range _ _ _ _ _ Hr Hall) as Hro. destruct Hall as (H1 & H2 & H3).
  pose proof Hr as [R1 R2 R3 R4 R5 R6 R7 R8 R9]. unfold ossl_quic_sstream_mark_acked in Hop.
  destruct (ossl_uint_set_insert alloc (ss_acked q) (mkRange start end_)) as [s b] eqn:Hi.
  pose proof (insert_spec _ _ _ _ _ (us_gaps_wf _ R5) Hro Hi) as (_ & Hv & Hf). unfold in_range in Hv. cbn [r_start r_end] in Hv.
  assert (Hg : us_gaps s).
  { eapply insert_apart_gaps; [exact R5|exact Hro| |exact Hi]. intros v [_ Hv']%R7 Hin. unfold in_range in Hin. cbn in Hin.
    rewrite H3 in Hv' by lia. done. }
  destruct b.
  - specialize (Hv eq_refl). apply (f_equal fst) in Hop as E1. apply (f_equal snd) in Hop as E2. cbn [fst snd] in E1, E2. subst q' ok.
    split; [|done]. apply rel_cull.
    split; cbn [ss_ring ss_new ss_acked field_upd sp_str sp_state]; auto.
    + intros o. rewrite R6. destruct (states_range start end_ o) as [Ho|Ho]; [|by rewrite set_states_out by lia].
      rewrite set_states_in, H3 by lia. split; intros [_ ?]; done.
    + intros o. rewrite Hv, R7. destruct (states_range start end_ o) as [Ho|Ho].
      * rewrite set_states_in by lia. split; [intros _; split; [lia|done]|]. intros _. by right.
      * rewrite set_states_out by lia. split; [intros [?|?]; [done|lia]|by left].
    + intros o Ho. specialize (R8 o Ho). destruct (states_range start end_ o) as [Hin|Hin]; [|by rewrite set_states_out by lia].
      rewrite H3 in R8 by lia. done.
  - injection Hop as <- <-. destruct (Hf eq_refl) as [-> ->]. split; [|done]. by split.
Qed.

Lemma rel_resize (malloc : option bytes) (q q' : QUIC_SSTREAM) (p : sspec) (n : Z) (ok : bool) : ss_rel q p -> 0 <= n <= MAX_OFFSET ->
  (forall mem, malloc = Some mem -> zlen mem = n) -> ossl_quic_sstream_set_buffer_size malloc q n = (q', ok) -> ss_rel q' p.
Proof.
  intros Hr Hn Hm Hop. pose proof Hr as [R1 R2 R3 R4 R5 R6 R7 R8 R9]. unfold ossl_quic_sstream_set_buffer_size in Hop.
  destruct (ring_buf_resize malloc (ss_ring q) n) as [r b] eqn:Hz. apply (f_equal fst) in Hop. cbn [fst] in Hop. subst q'.
  apply resize_spec in Hz as (Z1 & Z2 & _); auto. destruct b; [|rewrite (Z1 eq_refl); by split].
  destruct (Z2 eq_refl) as (Y1 & Y2 & Y3 & Y4 & Y5).
  split; cbn [ss_ring ss_new ss_acked field_upd]; auto; [lia| |by rewrite Y3].
  intros o Ho. rewrite Y3, Y4 in Ho. rewrite Y5 by done. by apply R3.
Qed.

(** *** Building a frame *)

(** The bytes of the stream from [start], [len] of them. *)
Definition sub (str : bytes) (start len : Z) : bytes := take (Z.to_nat len) (drop (Z.to_nat start) str).

Lemma sub_lookup (str : bytes) (start len i : Z) : 0 <= start -> 0 <= i < len ->
  sub str start len !! Z.to_nat i = str !! Z.to_nat (start + i).
Proof. intros Hs Hi. unfold sub. rewrite lookup_take_lt, lookup_drop by lia. f_equal. lia. Qed.

Lemma sub_split (str : bytes) (start l len : Z) : 0 <= start -> 0 <= l <= len ->
  sub str start len = sub str start l ++ sub str (start + l) (len - l).
Proof.
  intros Hs Hl. unfold sub. replace (Z.to_nat (start + l)) with (Z.to_nat start + Z.to_nat l)%nat by lia.
  rewrite <- drop_drop. rewrite <- (take_drop (Z.to_nat l) (take (Z.to_nat len) (drop (Z.to_nat start) str))) at 1.
  f_equal; [rewrite take_take; f_equal; lia|]. rewrite skipn_firstn_comm. f_equal. lia.
Qed.

Lemma sub_unique (str b : bytes) (start : Z) : 0 <= start -> start + zlen b <= zlen str ->
  (forall j, 0 <= j < zlen b -> b !! Z.to_nat j = str !! Z.to_nat (start + j)) -> b = sub str start (zlen b).
Proof.
  intros Hs Hl Hb. apply list_eq. intros i. destruct (decide (i < length b)%nat) as [Hi|Hi].
  - rewrite <- (Nat2Z.id i). rewrite Hb, sub_lookup by (unfold zlen; lia). done.
  - rewrite !lookup_ge_None_2; [done| |lia]. unfold sub. rewrite length_take, length_drop. unfold zlen in *. lia.
Qed.

Lemma frame_loop_spec (fuel : nat) : forall (r : ring_buf) (str : bytes) (start max_len total : Z) (iov : list bytes),
  ring_ok r -> ring_keeps r str -> rb_head r = zlen str ->
  rb_ctail r <= start -> 0 <= total <= max_len -> start + max_len <= rb_head r -> max_len - total < Z.of_nat fuel ->
  exists iov', frame_loop fuel r start max_len total iov = Some (iov ++ iov', max_len) /\
    concat iov' = sub str (start + total) (max_len - total) /\
    (length iov' <= (if decide (total = max_len) then 0 else if decide (((start + total) mod rb_alloc r = 0)%Z) then 1 else 2))%nat.
Proof.
  induction fuel as [|fuel IH]; intros r str start max_len total iov Hok Hd Hh Hc Ht Hm Hf; [lia|]. cbn [frame_loop].
  pose proof Hok as [H1 H2 H3 H4].
  destruct (Z.leb_spec max_len total) as [Hge|Hlt].
  { exists []. rewrite app_nil_r. assert (total = max_len) as -> by lia. rewrite decide_True by done. split_and!; [done| |done].
    unfold sub. by rewrite Z.sub_diag. }
  rewrite (add64_small start) by (unfold MAX_OFFSET in *; u64_side).
  destruct (get_buf_at_spec r (start + total) Hok ltac:(lia)) as (b & -> & Hlen & Hpos & Hb). specialize (Hpos ltac:(lia)).
  rewrite (proj2 (Z.eqb_neq (zlen b) 0)) by lia.
  assert (Ha : 0 < rb_alloc r) by lia. rewrite (proj2 (Z.eqb_neq (rb_alloc r) 0)) in Hlen by lia.
  pose proof (Z.mod_pos_bound (start + total) _ Ha) as Hidx.
  rewrite (add64_small total (zlen b)) by (unfold MAX_OFFSET in *; u64_side). rewrite (sub64_small max_len total) by (unfold MAX_OFFSET in *; u64_side).
  set (src := if max_len <? total + zlen b then _ else b).
  set (l := Z.min (zlen b) (max_len - total)).
  assert (Hsrc : zlen src = l /\ src = sub str (start + total) l).
  { assert (src = take (Z.to_nat l) b) as Hsb.
    { subst src l. destruct (Z.ltb_spec max_len (total + zlen b)); [f_equal; lia|]. rewrite take_ge; [done|]. unfold zlen in *. lia. }
    assert (Hz : zlen src = l) by (rewrite Hsb; apply zlen_take; lia). split; [done|].
    rewrite <- Hz. apply sub_unique; [lia|lia|]. intros j Hj. rewrite Hsb, lookup_take_lt, Hb by lia. apply Hd. lia. }
  destruct Hsrc as [Hz Hs]. rewrite Hz. clearbody src.
  rewrite add64_small by (unfold MAX_OFFSET in *; u64_side).
  destruct (IH r str start max_len (total + l) (iov ++ [src])) as (iov' & -> & Hcat & Hn); auto; try lia.
  exists (src :: iov'). rewrite <- app_assoc. split_and!; [done| |].
  - cbn [concat]. rewrite Hcat, Hs, (sub_split str (start + total) l (max_len - total)) by lia. f_equal. f_equal; lia.
  - rewrite decide_False by lia. cbn [length]. destruct (decide (total + l = max_len)); [destruct (decide _); lia|].
    assert (Hll : l = rb_alloc r - (start + total) mod rb_alloc r) by lia.
    assert ((start + (total + l)) mod rb_alloc r = 0) as Hz0.
    { rewrite Z.add_assoc, Hll. replace (start + total + (rb_alloc r - (start + total) mod rb_alloc r))
        with (((start + total) / rb_alloc r + 1) * rb_alloc r) by (pose proof (Z.div_mod (start + total) (rb_alloc r) ltac:(lia)); nia).
      apply Z.mod_mul. lia. }
    rewrite (decide_True (P := (start + (total + l)) mod rb_alloc r = 0)) in Hn by done.
    rewrite decide_False; [lia|]. lia.
Qed.

(** The frame built from the range [skip] places behind the first one to send. *)
Lemma frame_of_nth (q : QUIC_SSTREAM) (p : sspec) (skip : Z) (range : UINT_RANGE) (rest : UINT_SET) : ss_rel q p ->
  drop (Z.to_nat skip) (ss_new q) = range :: rest ->
  exists iov, ossl_quic_sstream_get_stream_frame q skip 2
      = Some (mkHdr (r_start range) (r_end range - r_start range + 1)
                (sp_fin p && (r_end range + 1 =? zlen (sp_str p))), iov) /\
    concat iov = sub (sp_str p) (r_start range) (r_end range - r_start range + 1) /\ (length iov <= 2)%nat /\
    0 <= r_start range <= r_end range /\ r_end range < zlen (sp_str p).
Proof.
  intros Hr Hn. pose proof Hr as [R1 R2 R3 R4 R5 R6 R7 R8 (R9 & _)]. unfold ossl_quic_sstream_get_stream_frame.
  rewrite (proj2 (Z.ltb_ge 2 2)), Hn by lia. pose proof (take_drop (Z.to_nat skip) (ss_new q)) as Hs. rewrite Hn in Hs. rewrite <- Hs in R4, R6.
  assert (range_ok range) as Hx by (apply (chain_ok _ _ _ R4), elem_of_app; right; left). unfold range_ok in Hx.
  pose proof R1 as [G1 G2 G3 G4]. assert (forall v, in_range v range -> us_has (take (Z.to_nat skip) (ss_new q) ++ range :: rest) v) as Hin.
  { intros v Hv. apply us_has_app. right. apply us_has_cons. by left. }
  assert (Hend : r_end range < zlen (sp_str p)).
  { destruct (proj1 (R6 (r_end range))) as [? _]; [apply Hin; unfold in_range; lia|lia]. }
  assert (Hst : rb_ctail (ss_ring q) <= r_start range).
  { destruct (proj1 (R6 (r_start range))) as [? Hnew]; [apply Hin; unfold in_range; lia|].
    destruct (Z.le_gt_cases (rb_ctail (ss_ring q)) (r_start range)) as [|Hgt]; [done|]. rewrite R8 in Hnew by lia. done. }
  rewrite (sub64_small (r_end range)) by u64_side. rewrite (add64_small (r_end range - r_start range)) by (unfold MAX_OFFSET in *; u64_side).
  destruct (frame_loop_spec (S (length (rb_mem (ss_ring q)))) (ss_ring q) (sp_str p) (r_start range)
    (r_end range - r_start range + 1) 0 []) as (iov & -> & Hcat & Hl); auto; try lia.
  { unfold rb_alloc, zlen in *. lia. }
  cbn [app]. exists iov. rewrite Z.add_0_r, Z.sub_0_r in Hcat. split_and!; [|done| |lia|lia|done].
  - rewrite add64_small by (unfold MAX_OFFSET in *; u64_side). rewrite R9, R2. do 4 f_equal. lia.
  - repeat destruct (decide _); lia.
Qed.

Lemma frame_of_first (q : QUIC_SSTREAM) (p : sspec) (range : UINT_RANGE) (rest : UINT_SET) : ss_rel q p ->
  ss_new q = range :: rest ->
  exists iov, ossl_quic_sstream_get_stream_frame q 0 2
      = Some (mkHdr (r_start range) (r_end range - r_start range + 1)
                (sp_fin p && (r_end range + 1 =? zlen (sp_str p))), iov) /\
    concat iov = sub (sp_str p) (r_start range) (r_end range - r_start range + 1) /\ (length iov <= 2)%nat.
Proof. intros Hr Hn. destruct (frame_of_nth q p 0 range rest Hr) as (iov & ? & ? & ? & _); [by rewrite drop_0|]. by exists iov. Qed.

(** ** Runs *)

Inductive ss_op :=
| SAppend (alloc : bool) (buf : bytes)
| STransmitted (start end_ : Z)
| SLost (alloc : bool) (start end_ : Z)
| SAcked (alloc : bool) (start end_ : Z)
| SFin
| STransmittedFin (final_size : Z)
| SLostFin
| SAckedFin
| SResize (malloc : option bytes) (num_bytes : Z)
| SCleanse (cleanse : bool).

Definition ss_do (st : QUIC_SSTREAM * sspec) (op : ss_op) : QUIC_SSTREAM * sspec :=
  let '(q, p) := st in
  match op with
  | SAppend alloc buf =>
      let '(q', _, n) := ossl_quic_sstream_append alloc q buf in (q', spec_append p (take (Z.to_nat n) buf))
  | STransmitted s e =>
      match ossl_quic_sstream_mark_transmitted true q s e with
      | Some (q', true) => (q', p <| sp_state := set_states (sp_state p) s e IN_FLIGHT |>)
      | _ => (q, p)
      end
  | SLost alloc s e =>
      let '(q', ok) := ossl_quic_sstream_mark_lost alloc q s e in
      (q', if ok then p <| sp_state := set_states (sp_state p) s e NEW |> else p)
  | SAcked alloc s e =>
      let '(q', ok) := ossl_quic_sstream_mark_acked alloc q s e in
      (q', if ok then p <| sp_state := set_states (sp_state p) s e ACKED |> else p)
  | SFin => (ossl_quic_sstream_fin q, p <| sp_fin := true |>)
  | STransmittedFin n =>
      (fst (ossl_quic_sstream_mark_transmitted_fin q n),
       if sp_fin p && (n =? zlen (sp_str p)) then p <| sp_fin_sent := true |> else p)
  | SLostFin =>
      (fst (ossl_quic_sstream_mark_lost_fin q), if sp_fin_acked p then p else p <| sp_fin_sent := false |>)
  | SAckedFin =>
      (fst (ossl_quic_sstream_mark_acked_fin q), if sp_fin p then p <| sp_fin_acked := true |> else p)
  | SResize malloc n => (fst (ossl_quic_sstream_set_buffer_size malloc q n), p)
  | SCleanse b => (ossl_quic_sstream_set_cleanse q b, p)
  end.

(** What the packetiser and the retransmission manager guarantee: what is
    marked transmitted was waiting to be sent, and what is marked lost or
    acknowledged was in flight. *)
Definition ss_op_ok (p : sspec) (op : ss_op) : Prop :=
  match op with
  | SAppend _ buf => zlen buf < U64_MOD
  | STransmitted s e => all_in p s e NEW
  | SLost _ s e | SAcked _ s e => all_in p s e IN_FLIGHT
  | SResize malloc n => 0 <= n <= MAX_OFFSET /\ forall mem, malloc = Some mem -> zlen mem = n
  | _ => True
  end.

Inductive ss_reach : QUIC_SSTREAM -> sspec -> Prop :=
| reach_new (malloc : option bytes) (size : Z) (q : QUIC_SSTREAM) :
    0 <= size <= MAX_OFFSET -> (forall mem, malloc = Some mem -> zlen mem = size) ->
    ossl_quic_sstream_new malloc size = Some q -> ss_reach q (mkSpec [] (fun _ => NEW) false false false)
| reach_op (q : QUIC_SSTREAM) (p : sspec) (op : ss_op) :
    ss_reach q p -> ss_op_ok p op -> ss_reach (fst (ss_do (q, p) op)) (snd (ss_do (q, p) op)).

Lemma rel_new_stream (malloc : option bytes) (size : Z) (q : QUIC_SSTREAM) : 0 <= size <= MAX_OFFSET ->
  (forall mem, malloc = Some mem -> zlen mem = size) -> ossl_quic_sstream_new malloc size = Some q ->
  ss_rel q (mkSpec [] (fun _ => NEW) false false false).
Proof.
  intros Hs Hm Hn. unfold ossl_quic_sstream_new in Hn. destruct (ring_buf_resize malloc ring_buf_init size) as [r b] eqn:Hz.
  assert (ring_ok ring_buf_init) as H0 by (split; unfold rb_alloc, MAX_OFFSET, zlen; cbn; lia).
  apply resize_spec in Hz as (_ & Z2 & _); auto. destruct b; [|done]. injection Hn as <-.
  destruct (Z2 eq_refl) as (Y1 & _ & Y3 & Y4 & Y5). cbn in Y3, Y4.
  split; cbn [ss_ring ss_new ss_acked sp_str sp_state]; auto; try apply chain_nil; change (zlen (@nil Z)) with 0; try lia.
  - intros o Ho. lia.
  - intros o. split; [by intros []%us_has_nil|intros [? _]; lia].
  - intros o. split; [by intros []%us_has_nil|intros [? _]; lia].
Qed.

Lemma ss_do_rel (q : QUIC_SSTREAM) (p : sspec) (op : ss_op) : ss_rel q p -> ss_op_ok p op ->
  ss_rel (fst (ss_do (q, p) op)) (snd (ss_do (q, p) op)).
Proof.
  intros Hr Hok. destruct op as [alloc buf|s e|alloc s e|alloc s e| |n| | |malloc n|b]; cbn [ss_do ss_op_ok] in *.
  - destruct (ossl_quic_sstream_append alloc q buf) as [[q' ok] n] eqn:E. cbn [fst snd]. by eapply rel_append.
  - destruct (rel_transmitted q p s e Hr Hok) as (q' & -> & ?). done.
  - destruct (ossl_quic_sstream_mark_lost alloc q s e) as [q' ok] eqn:E. cbn [fst snd]. by eapply rel_lost.
  - destruct (ossl_quic_sstream_mark_acked alloc q s e) as [q' ok] eqn:E. cbn [fst snd]. by eapply rel_acked_op.
  - destruct Hr as [R1 R2 R3 R4 R5 R6 R7 R8 (R9 & R10 & R11)]. unfold ossl_quic_sstream_fin. cbn [fst snd].
    destruct (ss_have_final_size q) eqn:E; split; cbn; auto.
  - destruct Hr as [R1 R2 R3 R4 R5 R6 R7 R8 (R9 & R10 & R11)]. unfold ossl_quic_sstream_mark_transmitted_fin. cbn [fst snd].
    rewrite R9, R2. destruct (sp_fin p) eqn:Ef, (n =? zlen (sp_str p)); cbn [negb orb andb fst]; split; cbn; auto; split_and!; congruence.
  - destruct Hr as [R1 R2 R3 R4 R5 R6 R7 R8 (R9 & R10 & R11)]. unfold ossl_quic_sstream_mark_lost_fin. cbn [fst snd].
    rewrite R11. destruct (sp_fin_acked p) eqn:Ef; split; cbn; auto; split_and!; congruence.
  - destruct Hr as [R1 R2 R3 R4 R5 R6 R7 R8 (R9 & R10 & R11)]. unfold ossl_quic_sstream_mark_acked_fin. cbn [fst snd].
    rewrite R9. destruct (sp_fin p) eqn:Ef; cbn [negb fst]; split; cbn; auto; split_and!; congruence.
  - destruct (ossl_quic_sstream_set_buffer_size malloc q n) as [q' ok] eqn:E. cbn [fst snd]. destruct Hok. by eapply rel_resize.
  - destruct Hr as [R1 R2 R3 R4 R5 R6 R7 R8 R9]. by split.
Qed.

Lemma reach_rel (q : QUIC_SSTREAM) (p : sspec) : ss_reach q p -> ss_rel q p.
Proof. induction 1 as [malloc size q Hs Hm Hn|q p op _ IH Hok]; [by eapply rel_new_stream|by apply ss_do_rel]. Qed.

(** C9.  The send stream refines the stream it stands for.  However bytes are
    appended (as far as the buffer allows), sent, lost, acknowledged and the
    buffer resized: the size is the number of bytes accepted; an offset is in
    [new_set] exactly when its byte waits to be sent and in [acked_set] exactly
    when it was acknowledged; no byte that is not acknowledged has been culled;
    and every retained offset holds the byte that was appended there. *)
Theorem sstream_refines (q : QUIC_SSTREAM) (p : sspec) : ss_reach q p ->
  ossl_quic_sstream_get_cur_size q = zlen (sp_str p) /\
  (forall o, ossl_uint_set_query (ss_new q) o = true <-> 0 <= o < zlen (sp_str p) /\ sp_state p o = NEW) /\
  (forall o, ossl_uint_set_query (ss_acked q) o = true <-> 0 <= o < zlen (sp_str p) /\ sp_state p o = ACKED) /\
  (forall o, 0 <= o < zlen (sp_str p) -> sp_state p o <> ACKED ->
     exists b, ring_buf_get_ptr (ss_ring q) o = Some b /\ b !! 0%nat = sp_str p !! Z.to_nat o).
Proof.
  intros Hr%reach_rel. pose proof Hr as [R1 R2 R3 R4 R5 R6 R7 R8 R9]. split_and!; [exact R2|..].
  - intros o. by rewrite query_spec by (by apply us_gaps_wf).
  - intros o. by rewrite query_spec by (by apply us_gaps_wf).
  - intros o Ho Hs. assert (rb_ctail (ss_ring q) <= o).
    { destruct (Z.le_gt_cases (rb_ctail (ss_ring q)) o); [done|]. destruct Hs. apply R8. lia. }
    destruct (get_ptr_spec (ss_ring q) o R1 ltac:(lia)) as (b & Hb & _ & Hpos & Hl). exists b. split; [done|].
    specialize (Hl 0 ltac:(lia)). change (Z.to_nat 0) with 0%nat in Hl. rewrite Hl, Z.add_0_r. apply R3. lia.
Qed.

(** What is sent.  In every reachable state the frame offered carries the
    longest run of waiting bytes that starts at the lowest one, with exactly
    the bytes of the stream at those offsets, in at most two vectors (the room
    of the caller's array), and is marked final exactly when it ends a finished
    stream.  With no byte waiting, an empty final frame is offered exactly when
    the end of the stream has not been sent; otherwise nothing is. *)
Theorem sstream_frame_exact (q : QUIC_SSTREAM) (p : sspec) : ss_reach q p ->
  match ossl_quic_sstream_get_stream_frame q 0 2 with
  | Some (h, iov) =>
      concat iov = sub (sp_str p) (h_offset h) (h_len h) /\ (length iov <= 2)%nat /\
      (forall o, 0 <= o < h_offset h -> sp_state p o <> NEW) /\
      (forall o, h_offset h <= o < h_offset h + h_len h -> sp_state p o = NEW) /\
      (h_offset h + h_len h < zlen (sp_str p) -> sp_state p (h_offset h + h_len h) <> NEW) /\
      h_offset h + h_len h <= zlen (sp_str p) /\
      h_is_fin h = sp_fin p && (h_offset h + h_len h =? zlen (sp_str p)) /\
      (h_len h = 0 -> sp_fin p = true /\ sp_fin_sent p = false /\ h_offset h = zlen (sp_str p))
  | None => (forall o, 0 <= o < zlen (sp_str p) -> sp_state p o <> NEW) /\ (sp_fin p = false \/ sp_fin_sent p = true)
  end.
Proof.
  intros Hr%reach_rel. pose proof Hr as [R1 R2 R3 R4 R5 R6 R7 R8 (R9 & R10 & R11)].
  destruct (ss_new q) as [|range rest] eqn:Hn.
  - unfold ossl_quic_sstream_get_stream_frame. rewrite Hn.
    change (2 <? 2) with false. change (drop (Z.to_nat 0) (@nil UINT_RANGE)) with (@nil UINT_RANGE).
    change (zlen (@nil UINT_RANGE) <? 0) with false. cbv iota.
    assert (Hno : forall o, 0 <= o < zlen (sp_str p) -> sp_state p o <> NEW).
    { intros o Ho Hs. apply (us_has_nil o). by apply R6. }
    rewrite R9, R10. destruct (sp_fin p) eqn:Ef, (sp_fin_sent p) eqn:Es; cbn [negb orb]; auto.
    cbn [h_offset h_len h_is_fin concat length]. rewrite R2, Z.add_0_r, Z.eqb_refl.
    split_and!; try done; try lia; try (intros; lia).
  - destruct (frame_of_first q p range rest Hr Hn) as (iov & -> & Hcat & Hlen). cbn [h_offset h_len h_is_fin].
    pose proof R4 as (Hx & _ & Hb)%chain_cons. unfold range_ok in Hx.
    replace (r_start range + (r_end range - r_start range + 1)) with (r_end range + 1) by lia.
    assert (Hin : forall o, r_start range <= o <= r_end range -> 0 <= o < zlen (sp_str p) /\ sp_state p o = NEW).
    { intros o Ho. apply R6, us_has_cons. left. exact Ho. }
    assert (Hout : forall o, 0 <= o < zlen (sp_str p) -> sp_state p o = NEW -> r_start range <= o /\ o <> r_end range + 1).
    { intros o Ho Hs. assert (us_has (range :: rest) o) as Hu by (by apply R6).
      apply us_has_cons in Hu as [Hu|(y & Hy & Hu)%us_has_elem]; unfold in_range in Hu; [lia|].
      specialize (Hb y Hy). unfold gap_before in Hb. lia. }
    pose proof (Hin (r_end range) ltac:(lia)) as [He _]. pose proof (Hin (r_start range) ltac:(lia)) as [Hs _].
    split_and!; auto; try lia.
    + intros o Ho Hst. specialize (Hout o ltac:(lia) Hst). lia.
    + intros o Ho. apply Hin. lia.
    + intros Ho Hst. specialize (Hout (r_end range + 1) ltac:(lia) Hst). lia.
Qed.

Lemma full_set (s : UINT_SET) (n : Z) : us_gaps s -> 0 < n -> (forall o, us_has s o <-> 0 <= o < n) -> s = [mkRange 0 (n - 1)].
Proof.
  intros Hg Hn Hs. destruct s as [|x rest]; [exfalso; apply (us_has_nil 0), Hs; lia|].
  pose proof Hg as (Hx & _ & Hb)%chain_cons. unfold range_ok in Hx.
  assert (Hin : forall o, us_has (x :: rest) o -> in_range o x \/ r_end x + 1 < o).
  { intros o [Ho|(y & Hy & Ho)%us_has_elem]%us_has_cons; [by left|right]. specialize (Hb y Hy). unfold gap_before, in_range in *. lia. }
  assert (r_start x = 0).
  { destruct (Hin 0 ltac:(apply Hs; lia)); unfold in_range in *; lia. }
  assert (Hxe : us_has (x :: rest) (r_end x)) by (apply us_has_cons; left; unfold in_range; lia). apply Hs in Hxe.
  assert (r_end x = n - 1).
  { destruct (Z.eq_dec (r_end x) (n - 1)) as [|Hne]; [done|]. exfalso.
    destruct (Hin (r_end x + 1) ltac:(apply Hs; lia)); unfold in_range in *; lia. }
  assert (rest = []) as ->.
  { destruct rest as [|y rest]; [done|]. exfalso. pose proof (Hb y ltac:(set_solver)) as Hy. unfold gap_before in Hy.
    pose proof (chain_ok _ _ y Hg ltac:(set_solver)) as Hyo. unfold range_ok in Hyo.
    assert (us_has (x :: y :: rest) (r_end y)) as Hu by (rewrite !us_has_cons; right; left; unfold in_range; lia). apply Hs in Hu. lia. }
  destruct x as [a b]. cbn in *. by subst.
Qed.

(** [ossl_quic_sstream_is_totally_acked] answers exactly: in every
    reachable state it holds if and only if every byte appended has been
    acknowledged and, for a finished stream, its end too. *)
Theorem sstream_totally_acked_exact (q : QUIC_SSTREAM) (p : sspec) : ss_reach q p ->
  ossl_quic_sstream_is_totally_acked q = true <->
  (sp_fin p = true -> sp_fin_acked p = true) /\ (forall o, 0 <= o < zlen (sp_str p) -> sp_state p o = ACKED).
Proof.
  intros Hr%reach_rel. pose proof Hr as [R1 R2 R3 R4 R5 R6 R7 R8 (R9 & R10 & R11)]. pose proof R1 as [G1 G2 G3 G4].
  unfold ossl_quic_sstream_is_totally_acked, ossl_quic_sstream_get_cur_size. rewrite R9, R11, R2.
  destruct (sp_fin p && negb (sp_fin_acked p)) eqn:Ef.
  { apply andb_true_iff in Ef as [Ef Ea%negb_true_iff]. split; [done|]. intros [Hf _]. rewrite Hf in Ea by done. done. }
  assert (Hfin : sp_fin p = true -> sp_fin_acked p = true) by (intros Hf; rewrite Hf in Ef; by destruct (sp_fin_acked p)).
  destruct (Z.eqb_spec (zlen (sp_str p)) 0) as [He|Hne]; [split; [intros _; split; [done|intros; lia]|done]|].
  pose proof (zlen_nonneg (sp_str p)). split.
  - destruct (ss_acked q) as [|x [|y rest]] eqn:Ea; try done. rewrite andb_true_iff, !Z.eqb_eq. intros [Hs He]. split; [done|].
    intros o Ho. apply R7, us_has_cons. left. pose proof R5 as (Hx & _)%chain_cons. unfold range_ok in Hx.
    assert (us_has [x] (r_end x)) as [Hxe _]%R7 by (apply us_has_cons; left; unfold in_range; lia).
    rewrite add64_small in He by (unfold MAX_OFFSET in *; u64_side). unfold in_range. lia.
  - intros [_ Hall]. rewrite (full_set (ss_acked q) (zlen (sp_str p)) R5); [|lia|].
    + cbn [r_start r_end]. rewrite add64_small by (unfold MAX_OFFSET in *; u64_side).
      rewrite Z.eqb_refl. cbn [andb]. apply Z.eqb_eq. lia.
    + intros o. rewrite R7. split; [tauto|]. intros Ho. split; [done|by apply Hall].
Qed.

(** The guarantee that acknowledged ranges do not overlap is needed: when
    a range is acknowledged that overlaps one acknowledged range and borders
    another, the two stay apart, the stream never counts as totally
    acknowledged although every byte is, and the buffer is not culled past the
    first range. *)
Theorem sstream_overlapping_acks_stick :
  let mem := replicate 16 0 in
  exists q0 q1 q2 q3 q4 q5,
    ossl_quic_sstream_new (Some mem) 16 = Some q0 /\
    ossl_quic_sstream_append true q0 [1; 2; 3; 4; 5; 6; 7] = (q1, true, 7) /\
    ossl_quic_sstream_mark_transmitted true q1 0 6 = Some (q2, true) /\
    ossl_quic_sstream_mark_acked true q2 0 2 = (q3, true) /\
    ossl_quic_sstream_mark_acked true q3 5 6 = (q4, true) /\
    ossl_quic_sstream_mark_acked true q4 3 5 = (q5, true) /\
    (forall o, 0 <= o < 7 -> ossl_uint_set_query (ss_acked q5) o = true) /\
    ossl_quic_sstream_is_totally_acked q5 = false /\ rb_ctail (ss_ring q5) = 3.
Proof.
  do 6 eexists. do 6 (split; [vm_compute; reflexivity|]). split; [|by vm_compute].
  intros o Ho. assert (o = 0 \/ o = 1 \/ o = 2 \/ o = 3 \/ o = 4 \/ o = 5 \/ o = 6) as Hc by lia.
  repeat destruct Hc as [->|Hc]; try (by vm_compute). subst. by vm_compute.
Qed.

(** ** Instances *)

(** Six bytes offered to a buffer of four; the first two are sent and
    acknowledged, and two more are appended over the freed space. *)
Definition demo_ss0 : QUIC_SSTREAM := mkSstream (mkRing [9; 9; 9; 9] 0 0) [] [] false false false false.
Definition demo_ss_ops : list ss_op :=
  [SAppend true [1; 2; 3; 4; 5; 6]; STransmitted 0 1; SAcked true 0 1; SAppend true [5; 6]; SFin].
Definition demo_ss (n : nat) : QUIC_SSTREAM * sspec :=
  foldl ss_do (demo_ss0, mkSpec [] (fun _ => NEW) false false false) (take n demo_ss_ops).

Lemma demo_ss_step (n : nat) (op : ss_op) : demo_ss_ops !! n = Some op -> ss_reach (fst (demo_ss n)) (snd (demo_ss n)) ->
  ss_op_ok (snd (demo_ss n)) op -> ss_reach (fst (demo_ss (S n))) (snd (demo_ss (S n))).
Proof.
  intros Hop Hr Hok. unfold demo_ss. rewrite (take_S_r _ _ _ Hop), foldl_snoc. fold (demo_ss n).
  rewrite (surjective_pairing (demo_ss n)). by apply reach_op.
Qed.

Lemma demo_all_in (p : sspec) (b : byte_state) : 1 < zlen (sp_str p) -> sp_state p 0 = b -> sp_state p 1 = b -> all_in p 0 1 b.
Proof. intros Hl H0 H1. split_and!; [lia|lia|lia|]. intros o Ho. assert (o = 0 \/ o = 1) as [-> | ->] by lia; done. Qed.

Lemma demo_ss_reach : ss_reach (fst (demo_ss 5)) (snd (demo_ss 5)).
Proof.
  assert (ss_reach (fst (demo_ss 0)) (snd (demo_ss 0))) as H0.
  { apply (reach_new (Some [9; 9; 9; 9]) 4); [by vm_compute| |by vm_compute]. by intros mem [= <-]. }
  apply (demo_ss_step 4 SFin eq_refl); [|done].
  apply (demo_ss_step 3 (SAppend true [5; 6]) eq_refl); [|by vm_compute].
  apply (demo_ss_step 2 (SAcked true 0 1) eq_refl); [|apply demo_all_in; by vm_compute].
  apply (demo_ss_step 1 (STransmitted 0 1) eq_refl); [|apply demo_all_in; by vm_compute].
  apply (demo_ss_step 0 (SAppend true [1; 2; 3; 4; 5; 6]) eq_refl); [done|by vm_compute].
Qed.

Lemma sstream_refines_witness :
  exists b, ring_buf_get_ptr (ss_ring (fst (demo_ss 5))) 4 = Some b /\ b !! 0%nat = sp_str (snd (demo_ss 5)) !! 4%nat.
Proof. apply (sstream_refines _ _ demo_ss_reach); by vm_compute. Defined.

Lemma sstream_frame_exact_witness :
  ossl_quic_sstream_get_stream_frame (fst (demo_ss 5)) 0 2 = Some (mkHdr 2 4 true, [[3; 4]; [5; 6]]) /\
  concat [[3; 4]; [5; 6]] = sub (sp_str (snd (demo_ss 5))) 2 4.
Proof.
  assert (Hf : ossl_quic_sstream_get_stream_frame (fst (demo_ss 5)) 0 2 = Some (mkHdr 2 4 true, [[3; 4]; [5; 6]])) by (by vm_compute).
  split; [exact Hf|]. pose proof (sstream_frame_exact _ _ demo_ss_reach) as Ht. rewrite Hf in Ht. apply Ht.
Defined.

Lemma sstream_totally_acked_exact_witness :
  ossl_quic_sstream_is_totally_acked (fst (demo_ss 5)) = true <->
  (sp_fin (snd (demo_ss 5)) = true -> sp_fin_acked (snd (demo_ss 5)) = true) /\
  (forall o, 0 <= o < zlen (sp_str (snd (demo_ss 5))) -> sp_state (snd (demo_ss 5)) o = ACKED).
Proof. apply (sstream_totally_acked_exact _ _ demo_ss_reach). Defined.
