(* ===== verification/SfList.v ===== *)
(** * The list of received stream frames (ssl/quic/quic_sf_list.c)

    The doubly linked list is the list of its frames.  A data pointer into a
    packet is the bytes it points to, [None] for NULL; a packet is a number,
    and the operations that release packets also give the list of those
    released ([ossl_qrx_pkt_release]; cleansing the memory of a released packet
    is not modelled).  An iterator is the position of a frame.  [alloc] says
    whether the allocation a call makes succeeds. *)

From S2P Require Import Prelude UintSet Packet RingBuf.

Record STREAM_FRAME := mkSf { sf_range : UINT_RANGE; sf_pkt : option Z; sf_data : option bytes }.
#[export] Instance eta_sf : Eta STREAM_FRAME := fun f => mkSf (sf_range f) (sf_pkt f) (sf_data f).

Record SFRAME_LIST := mkFl {
  fl_frames : list STREAM_FRAME; fl_fin : bool; fl_num_frames : Z; fl_offset : Z; fl_head_locked : bool; fl_cleanse : bool }.
#[export] Instance eta_fl : Eta SFRAME_LIST := fun fl =>
  mkFl (fl_frames fl) (fl_fin fl) (fl_num_frames fl) (fl_offset fl) (fl_head_locked fl) (fl_cleanse fl).

Definition f_start (f : STREAM_FRAME) : Z := r_start (sf_range f).
Definition f_end (f : STREAM_FRAME) : Z := r_end (sf_range f).

(** The packet a freed frame releases. *)
Definition stream_frame_free (f : STREAM_FRAME) : list Z := match sf_pkt f with Some k => [k] | None => [] end.

Definition stream_frame_new (alloc : bool) (range : UINT_RANGE) (pkt : option Z) (data : option bytes) : option STREAM_FRAME :=
  if alloc then Some (mkSf range pkt data) else None.

Definition ossl_sframe_list_init : SFRAME_LIST := mkFl [] false 0 0 false false.

Definition ossl_sframe_list_destroy (fl : SFRAME_LIST) : list Z := concat (stream_frame_free <$> fl_frames fl).

Definition append_frame (alloc : bool) (fl : SFRAME_LIST) (range : UINT_RANGE) (pkt : option Z) (data : option bytes)
  : SFRAME_LIST * bool :=
  match stream_frame_new alloc range pkt data with
  | None => (fl, false)
  | Some f => (fl <| fl_frames := fl_frames fl ++ [f] |> <| fl_num_frames := fl_num_frames fl +u 1 |>, true)
  end.

(** The frames that start before [start], and the rest. *)
Fixpoint split_before (start : Z) (fs : list STREAM_FRAME) : list STREAM_FRAME * list STREAM_FRAME :=
  match fs with
  | [] => ([], [])
  | f :: rest => if f_start f <? start then let '(a, b) := split_before start rest in (f :: a, b) else ([], fs)
  end.

(** The loop that drops the frames a new one covers: those dropped, and the
    rest. *)
Fixpoint drop_covered (end_ : Z) (fs : list STREAM_FRAME) : list STREAM_FRAME * list STREAM_FRAME :=
  match fs with
  | [] => ([], [])
  | f :: rest => if f_end f <=? end_ then let '(a, b) := drop_covered end_ rest in (f :: a, b) else ([], fs)
  end.

(** The [end:] label. *)
Definition insert_end (fl : SFRAME_LIST) (fin : bool) : SFRAME_LIST := fl <| fl_fin := fin || fl_fin fl |>.

(** The insertion that does not go to the end of the list. *)
Definition insert_middle (alloc : bool) (fl : SFRAME_LIST) (range : UINT_RANGE) (pkt : option Z) (data : option bytes) (fin : bool)
  : SFRAME_LIST * bool * list Z :=
  let '(prevs, rest) := split_before (r_start range) (fl_frames fl) in
  match rest with
  | [] => (fl, false, [])
  | _ :: _ =>
      let prev := last prevs in
      if match prev with Some p => r_end range <=? f_end p | None => false end then (insert_end fl fin, true, [])
      else
        match stream_frame_new alloc range pkt data with
        | None => (fl, false, [])
        | Some f =>
            let '(dropped, next) := drop_covered (r_end range) rest in
            let fl := fl <| fl_num_frames := fl_num_frames fl -u zlen dropped |> in
            let released := concat (stream_frame_free <$> dropped) in
            if match next, prev with n :: _, Some p => f_start n <=? f_end p | _, _ => false end
            then (insert_end (fl <| fl_frames := prevs ++ next |>) fin, true, released ++ stream_frame_free f)
            else (insert_end (fl <| fl_frames := prevs ++ f :: next |> <| fl_num_frames := fl_num_frames fl +u 1 |>) fin,
                  true, released)
        end
  end.

Definition ossl_sframe_list_insert (alloc : bool) (fl : SFRAME_LIST) (range : UINT_RANGE) (pkt : option Z) (data : option bytes) (fin : bool)
  : SFRAME_LIST * bool * list Z :=
  if r_end range <=? fl_offset fl then (insert_end fl fin, true, [])
  else
    match last (fl_frames fl) with
    | None =>
        match stream_frame_new alloc range pkt data with
        | None => (fl, false, [])
        | Some f => (insert_end (fl <| fl_frames := [f] |> <| fl_num_frames := fl_num_frames fl +u 1 |>) fin, true, [])
        end
    | Some tail =>
        if f_start tail <? r_start range then
          if r_end range <=? f_end tail then (insert_end fl fin, true, [])
          else
            match append_frame alloc fl range pkt data with
            | (fl, false) => (fl, false, [])
            | (fl, true) => (insert_end fl fin, true, [])
            end
        else insert_middle alloc fl range pkt data fin
    end.

Record peek_result := mkPeek { pk_iter : option nat; pk_range : UINT_RANGE; pk_data : option bytes; pk_fin : bool }.

(** Whether a frame is returned, and the output arguments. *)
Definition ossl_sframe_list_peek (fl : SFRAME_LIST) (iter : option nat) : bool * peek_result :=
  let start := match iter with
               | None => fl_offset fl
               | Some i => match fl_frames fl !! i with Some f => f_end f | None => 0 end
               end in
  let pos := match iter with None => 0%nat | Some i => S i end in
  match fl_frames fl !! pos with
  | None => (false, mkPeek None (mkRange start start) None (fl_fin fl))
  | Some f =>
      if (start <? f_start f) || negb (start <? f_end f) then (false, mkPeek None (mkRange start start) None false)
      else
        (true, mkPeek (Some pos) (mkRange start (f_end f)) (drop (Z.to_nat (start - f_start f)) <$> sf_data f)
                 (match fl_frames fl !! S pos with None => fl_fin fl | Some _ => false end))
  end.

(** The frames that end at or before [limit], and the rest. *)
Definition ossl_sframe_list_drop_frames (fl : SFRAME_LIST) (limit : Z) : SFRAME_LIST * bool * list Z :=
  if negb (fl_offset fl <=? limit)
     || negb (match last (fl_frames fl) with None => true | Some t => limit <=? f_end t end)
     || negb (match last (fl_frames fl) with None => limit =? fl_offset fl | Some _ => true end)
  then (fl, false, [])
  else
    let '(dropped, rest) := drop_covered limit (fl_frames fl) in
    (fl <| fl_offset := limit |> <| fl_frames := rest |> <| fl_num_frames := fl_num_frames fl -u zlen dropped |>
        <| fl_head_locked := false |>, true, concat (stream_frame_free <$> dropped)).

(** The result and the output arguments; [None] for the call on a locked list,
    which gives 0 and leaves the arguments as they were. *)
Definition ossl_sframe_list_lock_head (fl : SFRAME_LIST) : SFRAME_LIST * option (bool * peek_result) :=
  if fl_head_locked fl then (fl, None)
  else
    let '(ret, r) := ossl_sframe_list_peek fl None in
    (if ret then fl <| fl_head_locked := true |> else fl, Some (ret, r)).

Definition ossl_sframe_list_is_head_locked (fl : SFRAME_LIST) : bool := fl_head_locked fl.

Section Move.
Context {W : Type} (write_at_cb : W -> Z -> bytes -> W * bool).

(** The data of one frame from [limit] on goes to the side storage: the frame then,
    and the packet released; [None] when it did not fit. *)
Definition move_one (w : W) (limit : Z) (sf : STREAM_FRAME) : W * option (STREAM_FRAME * list Z) :=
  match sf_data sf with
  | Some data =>
      let data := if f_start sf <? limit then drop (Z.to_nat (limit - f_start sf)) data else data in
      match write_at_cb w limit (take (Z.to_nat (f_end sf -u limit)) data) with
      | (w, false) => (w, None)
      | (w, true) => (w, Some (sf <| sf_data := None |> <| sf_pkt := None |>, stream_frame_free sf))
      end
  | None => (w, Some (sf, []))
  end.

(** The loop of [ossl_sframe_list_move_data] from frame [sf = hd rest] on, with
    [prev_frame]: the side storage, whether all data was stored, the frames
    from [prev_frame] on, how many were merged, and the packets released. *)
Fixpoint move_loop (w : W) (limit : Z) (prev : option STREAM_FRAME) (rest : list STREAM_FRAME)
  : W * bool * list STREAM_FRAME * Z * list Z :=
  let before := match prev with Some p => [p] | None => [] end in
  match rest with
  | [] => (w, true, before, 0, [])
  | sf :: next =>
      let limit := if limit <? f_start sf then f_start sf else limit in
      match move_one w limit sf with
      | (w, None) => (w, false, before ++ rest, 0, [])
      | (w, Some (sf, rel)) =>
          let limit := f_end sf in
          match prev with
          | Some p =>
              if f_start sf <=? f_end p then
                let '(w, ok, fs, n, rel') :=
                  move_loop w limit (Some (p <| sf_range := mkRange (f_start p) (f_end sf) |>)) next in
                (w, ok, fs, n + 1, rel ++ stream_frame_free sf ++ rel')
              else
                let '(w, ok, fs, n, rel') := move_loop w limit (Some sf) next in
                (w, ok, p :: fs, n, rel ++ rel')
          | None =>
              let '(w, ok, fs, n, rel') := move_loop w limit (Some sf) next in
              (w, ok, fs, n, rel ++ rel')
          end
      end
  end.

Definition ossl_sframe_list_move_data (fl : SFRAME_LIST) (w : W) : W * SFRAME_LIST * bool * list Z :=
  match fl_frames fl with
  | [] => (w, fl, true, [])
  | head :: next =>
      let '(locked, rest) := if fl_head_locked fl then ([head], next) else ([], head :: next) in
      let '(w, ok, fs, n, rel) := move_loop w (fl_offset fl) None rest in
      (w, fl <| fl_frames := locked ++ fs |> <| fl_num_frames := fl_num_frames fl -u n |>, ok, rel)
  end.
End Move.

(** ** The invariant of the list

    The starts do not decrease, the ends increase, no frame ends before it
    starts, and every frame ends after the offset reached by the reader. *)
Fixpoint frames_from (s e : Z) (fs : list STREAM_FRAME) : Prop :=
  match fs with
  | [] => True
  | f :: rest => s <= f_start f /\ e < f_end f /\ f_start f <= f_end f /\ frames_from (f_start f) (f_end f) rest
  end.

Definition last_start (s : Z) (fs : list STREAM_FRAME) : Z := default s (f_start <$> last fs).
Definition last_end (e : Z) (fs : list STREAM_FRAME) : Z := default e (f_end <$> last fs).

(** The end of what was received. *)
Definition fl_top (fl : SFRAME_LIST) : Z := last_end (fl_offset fl) (fl_frames fl).

Record fl_ok (fl : SFRAME_LIST) : Prop := {
  flo_offset : 0 <= fl_offset fl;
  flo_frames : frames_from 0 (fl_offset fl) (fl_frames fl);
  flo_num : fl_num_frames fl = zlen (fl_frames fl) mod U64_MOD }.

(** The offset [x] lies in a frame. *)
Definition covers (fs : list STREAM_FRAME) (x : Z) : Prop := exists f, f ∈ fs /\ f_start f <= x < f_end f.

(** The references on packets the list owns. *)
Definition pkt_refs (fs : list STREAM_FRAME) : list Z := concat (stream_frame_free <$> fs).

Lemma last_snoc_or {A} (l : list A) : l = [] \/ exists l' x, l = l' ++ [x].
Proof. destruct l using rev_ind; [by left|right; eauto]. Qed.

Lemma last_end_app (e : Z) (a b : list STREAM_FRAME) : last_end e (a ++ b) = last_end (last_end e a) b.
Proof.
  destruct (last_snoc_or b) as [->|(b' & x & ->)]; [by rewrite app_nil_r|].
  unfold last_end. by rewrite app_assoc, !last_snoc.
Qed.

Lemma last_start_app (s : Z) (a b : list STREAM_FRAME) : last_start s (a ++ b) = last_start (last_start s a) b.
Proof.
  destruct (last_snoc_or b) as [->|(b' & x & ->)]; [by rewrite app_nil_r|].
  unfold last_start. by rewrite app_assoc, !last_snoc.
Qed.

Lemma frames_from_app (b a : list STREAM_FRAME) (s e : Z) :
  frames_from s e (a ++ b) <-> frames_from s e a /\ frames_from (last_start s a) (last_end e a) b.
Proof.
  revert s e. induction a as [|f a IH]; intros s e; [cbn; tauto|].
  cbn [app frames_from]. rewrite IH.
  change (f :: a) with ([f] ++ a). rewrite last_start_app, last_end_app. cbn. tauto.
Qed.

Lemma frames_from_weaken (fs : list STREAM_FRAME) (s e s' e' : Z) :
  s' <= s -> e' <= e -> frames_from s e fs -> frames_from s' e' fs.
Proof. destruct fs as [|f fs]; cbn; [done|]. intros ? ? (? & ? & ? & ?). split_and!; [lia|lia|done|done]. Qed.

Lemma frames_from_last (fs : list STREAM_FRAME) (s e : Z) : frames_from s e fs ->
  s <= last_start s fs /\ e <= last_end e fs.
Proof.
  revert s e. induction fs as [|g fs IH]; intros s e; [cbn; lia|]. intros (H1 & H2 & H3 & H4%IH).
  change (g :: fs) with ([g] ++ fs). rewrite last_start_app, last_end_app. cbn. lia.
Qed.

Lemma frames_from_bounds (fs : list STREAM_FRAME) (s e : Z) (f : STREAM_FRAME) : frames_from s e fs -> f ∈ fs ->
  s <= f_start f <= last_start s fs /\ e < f_end f <= last_end e fs /\ f_start f <= f_end f.
Proof.
  intros Hf (a & b & ->)%list_elem_of_split. apply frames_from_app in Hf as [Ha (H1 & H2 & H3 & H4)].
  apply frames_from_last in Ha as [? ?]. apply frames_from_last in H4 as [? ?].
  change (f :: b) with ([f] ++ b). rewrite !last_start_app, !last_end_app. cbn. lia.
Qed.

Lemma split_before_spec (start : Z) (fs : list STREAM_FRAME) : let '(a, b) := split_before start fs in
  fs = a ++ b /\ (forall f, f ∈ a -> f_start f < start) /\ (forall f, head b = Some f -> start <= f_start f).
Proof.
  induction fs as [|g fs IH]; cbn [split_before]; [split_and!; [done|by intros ? ?%not_elem_of_nil|done]|].
  destruct (Z.ltb_spec (f_start g) start).
  - destruct (split_before start fs) as [a b]. destruct IH as (-> & IH1 & IH2). split_and!; auto.
    intros f [->|?]%elem_of_cons; auto.
  - split_and!; [done|by intros ? ?%not_elem_of_nil|]. by intros f [= <-].
Qed.

Lemma drop_covered_spec (limit : Z) (fs : list STREAM_FRAME) : let '(a, b) := drop_covered limit fs in
  fs = a ++ b /\ (forall f, f ∈ a -> f_end f <= limit) /\ (forall f, head b = Some f -> limit < f_end f).
Proof.
  induction fs as [|g fs IH]; cbn [drop_covered]; [split_and!; [done|by intros ? ?%not_elem_of_nil|done]|].
  destruct (Z.leb_spec (f_end g) limit).
  - destruct (drop_covered limit fs) as [a b]. destruct IH as (-> & IH1 & IH2). split_and!; auto.
    intros f [->|?]%elem_of_cons; auto.
  - split_and!; [done|by intros ? ?%not_elem_of_nil|]. by intros f [= <-].
Qed.

Lemma covers_app (a b : list STREAM_FRAME) (x : Z) : covers (a ++ b) x <-> covers a x \/ covers b x.
Proof. unfold covers. setoid_rewrite elem_of_app. naive_solver. Qed.

Lemma covers_cons (f : STREAM_FRAME) (b : list STREAM_FRAME) (x : Z) :
  covers (f :: b) x <-> f_start f <= x < f_end f \/ covers b x.
Proof. unfold covers. setoid_rewrite elem_of_cons. naive_solver. Qed.

Lemma covers_nil (x : Z) : ~ covers [] x.
Proof. by intros (f & ?%not_elem_of_nil & _). Qed.

Lemma covers_bounds (fs : list STREAM_FRAME) (s e x : Z) : frames_from s e fs -> covers fs x -> s <= x < last_end e fs.
Proof. intros Hf (f & Hin & Hx). destruct (frames_from_bounds fs s e f Hf Hin). lia. Qed.

(** ** Inserting a frame *)

(** What an insertion that succeeds does: the offsets from the reader's offset on
    that lie in a frame are those that did before and those of the new range,
    every frame is an old one or the new one, and each reference on a packet
    is kept in the list or released. *)
Record inserted (fl fl' : SFRAME_LIST) (new : STREAM_FRAME) (fin : bool) (released : list Z) : Prop := {
  in_ok : fl_ok fl';
  in_offset : fl_offset fl' = fl_offset fl;
  in_fin : fl_fin fl' = fin || fl_fin fl;
  in_locked : fl_head_locked fl' = fl_head_locked fl;
  in_cleanse : fl_cleanse fl' = fl_cleanse fl;
  in_top : fl_top fl' = Z.max (fl_top fl) (f_end new);
  in_covers : forall x, fl_offset fl <= x -> (covers (fl_frames fl') x <-> covers (fl_frames fl) x \/ f_start new <= x < f_end new);
  in_frames : forall f, f ∈ fl_frames fl' -> f ∈ fl_frames fl \/ f = new;
  in_refs : exists got, (got = [] \/ got = stream_frame_free new) /\
    pkt_refs (fl_frames fl) ++ got ≡ₚ pkt_refs (fl_frames fl') ++ released }.

(** The new list and its frame count are what the branches differ in. *)
Lemma inserted_intro (fl fl' : SFRAME_LIST) (new : STREAM_FRAME) (fin : bool) (released : list Z) :
  fl_ok fl ->
  fl' = insert_end (mkFl (fl_frames fl') (fl_fin fl) (zlen (fl_frames fl') mod U64_MOD) (fl_offset fl) (fl_head_locked fl) (fl_cleanse fl)) fin ->
  frames_from 0 (fl_offset fl) (fl_frames fl') ->
  last_end (fl_offset fl) (fl_frames fl') = Z.max (fl_top fl) (f_end new) ->
  (forall x, fl_offset fl <= x -> (covers (fl_frames fl') x <-> covers (fl_frames fl) x \/ f_start new <= x < f_end new)) ->
  (forall f, f ∈ fl_frames fl' -> f ∈ fl_frames fl \/ f = new) ->
  (exists got, (got = [] \/ got = stream_frame_free new) /\ pkt_refs (fl_frames fl) ++ got ≡ₚ pkt_refs (fl_frames fl') ++ released) ->
  inserted fl fl' new fin released.
Proof.
  intros [H1 H2 H3] He Hf Ht Hc Hi Hr. assert (Hof : fl_offset fl' = fl_offset fl) by (by rewrite He).
  split; try (by rewrite He); auto.
Qed.

Lemma inserted_same (fl : SFRAME_LIST) (new : STREAM_FRAME) (fin : bool) : fl_ok fl -> f_end new <= fl_top fl ->
  (forall x, fl_offset fl <= x -> f_start new <= x < f_end new -> covers (fl_frames fl) x) ->
  inserted fl (insert_end fl fin) new fin [].
Proof.
  intros Hok Ht Hc. pose proof Hok as [H1 H2 H3]. apply inserted_intro; auto.
  - destruct fl. cbn in *. by rewrite <- H3.
  - change (fl_frames (insert_end fl fin)) with (fl_frames fl). fold (fl_top fl). lia.
  - intros x Hx. change (fl_frames (insert_end fl fin)) with (fl_frames fl). split; [auto|]. intros [?|?]; auto.
  - exists []. split; [by left|]. done.
Qed.

Lemma zlen_snoc {A} (l : list A) (x : A) : zlen (l ++ [x]) = zlen l + 1.
Proof. rewrite zlen_app. done. Qed.

Lemma num_add (a b : Z) : (a mod U64_MOD) +u b = (a + b) mod U64_MOD.
Proof. unfold add64. apply Zplus_mod_idemp_l. Qed.

Lemma num_sub (a b : Z) : (a mod U64_MOD) -u b = (a - b) mod U64_MOD.
Proof. unfold sub64. apply Zminus_mod_idemp_l. Qed.

Lemma pkt_refs_app (a b : list STREAM_FRAME) : pkt_refs (a ++ b) = pkt_refs a ++ pkt_refs b.
Proof. unfold pkt_refs. by rewrite fmap_app, concat_app. Qed.

Lemma pkt_refs_cons (f : STREAM_FRAME) (b : list STREAM_FRAME) : pkt_refs (f :: b) = stream_frame_free f ++ pkt_refs b.
Proof. done. Qed.

(** Adding the new frame at the end of the list. *)
Lemma append_inserted (fl : SFRAME_LIST) (new : STREAM_FRAME) (fin : bool) : fl_ok fl ->
  last_start 0 (fl_frames fl) <= f_start new <= f_end new -> fl_top fl < f_end new ->
  inserted fl (insert_end (fl <| fl_frames := fl_frames fl ++ [new] |> <| fl_num_frames := fl_num_frames fl +u 1 |>) fin) new fin [].
Proof.
  intros Hok Hs Ht. pose proof Hok as [H1 H2 H3]. apply inserted_intro; auto; cbn [insert_end fl_frames field_upd].
  - rewrite zlen_snoc, <- num_add, <- H3. done.
  - apply frames_from_app. split; [done|]. cbn. unfold fl_top in *. lia.
  - rewrite last_end_app. cbn. lia.
  - intros x Hx. rewrite covers_app, covers_cons. pose proof (covers_nil x). tauto.
  - intros f. rewrite elem_of_app, list_elem_of_singleton. done.
  - exists (stream_frame_free new). split; [by right|]. rewrite pkt_refs_app, pkt_refs_cons. by rewrite !app_nil_r.
Qed.

Lemma frames_from_head (fs : list STREAM_FRAME) (s e s' e' : Z) : frames_from s e fs ->
  (forall f, head fs = Some f -> s' <= f_start f /\ e' < f_end f) -> frames_from s' e' fs.
Proof. destruct fs as [|f fs]; cbn; [done|]. intros (_ & _ & ? & ?) Hh. by destruct (Hh f eq_refl). Qed.

Lemma head_elem {A} (l : list A) (x : A) : head l = Some x -> x ∈ l.
Proof. destruct l; [done|]. intros [= ->]. apply elem_of_cons. by left. Qed.

Lemma last_elem {A} (l : list A) (x : A) : last l = Some x -> x ∈ l.
Proof. intros (l' & ->)%last_Some. apply elem_of_app. right. by apply list_elem_of_singleton. Qed.

(** The state the insertion loops leave: the frames before the new one, those it covers,
    and those after. *)
Record placed (fs : list STREAM_FRAME) (off : Z) (new : STREAM_FRAME) (prevs dropped next : list STREAM_FRAME) : Prop := {
  pl_fs : fs = prevs ++ dropped ++ next;
  pl_prevs : frames_from 0 off prevs;
  pl_next : frames_from (last_start 0 prevs) (last_end off prevs) next;
  pl_before : forall f, f ∈ prevs -> f_start f < f_start new;
  pl_last : last_end off prevs < f_end new;
  pl_dropped : forall f, f ∈ dropped -> f_start new <= f_start f /\ f_end f <= f_end new;
  pl_after : forall f, head next = Some f -> f_start new <= f_start f /\ f_end new < f_end f }.

Lemma placed_loops (fs : list STREAM_FRAME) (off : Z) (new : STREAM_FRAME) :
  let '(prevs, rest) := split_before (f_start new) fs in
  let '(dropped, next) := drop_covered (f_end new) rest in
  frames_from 0 off fs -> last_end off prevs < f_end new -> placed fs off new prevs dropped next.
Proof.
  pose proof (split_before_spec (f_start new) fs) as Hs. destruct (split_before _ _) as [prevs rest].
  pose proof (drop_covered_spec (f_end new) rest) as Hd. destruct (drop_covered _ _) as [dropped next].
  destruct Hs as (-> & S1 & S2). destruct Hd as (-> & D1 & D2). intros [F1 F2]%frames_from_app Hl.
  assert (Hall : forall f, f ∈ dropped ++ next -> f_start new <= f_start f).
  { intros f Hf. destruct (dropped ++ next) as [|g rest] eqn:E; [by apply not_elem_of_nil in Hf|].
    specialize (S2 g eq_refl). apply elem_of_cons in Hf as [->|Hf]; [done|]. destruct F2 as (_ & _ & _ & F2).
    pose proof (frames_from_bounds _ _ _ f F2 Hf). lia. }
  split; auto.
  - apply frames_from_app in F2 as [F2 F3]. apply frames_from_last in F2. eapply frames_from_weaken; [| |exact F3]; lia.
  - intros f Hf. split; [apply Hall, elem_of_app; by left|auto].
  - intros f Hf. split; [apply Hall, elem_of_app; right; by apply head_elem|auto].
Qed.

Section Placed.
Context (fs : list STREAM_FRAME) (off : Z) (new : STREAM_FRAME) (prevs dropped next : list STREAM_FRAME).
Hypothesis Hoff : 0 <= off.
Hypothesis Hnew : 0 <= f_start new <= f_end new.
Hypothesis Hp : placed fs off new prevs dropped next.

Lemma placed_top : next <> [] -> last_end off (prevs ++ next) = last_end off fs /\ f_end new <= last_end off fs.
Proof.
  destruct Hp as [-> F1 F2 _ _ _ A1]. intros Hne. destruct next as [|n next'] eqn:E; [done|].
  destruct (A1 n eq_refl) as [_ A1']. destruct F2 as (_ & _ & _ & F2%frames_from_last).
  rewrite !last_end_app. change (n :: next') with ([n] ++ next'). rewrite !last_end_app. cbn. lia.
Qed.

Lemma placed_top_nil : next = [] -> last_end off fs <= f_end new.
Proof.
  destruct Hp as [-> F1 F2 _ L1 D1 _]. intros ->. rewrite app_nil_r, last_end_app.
  destruct (last_snoc_or dropped) as [E|(d & x & E)]; rewrite E; [cbn; lia|].
  unfold last_end. rewrite last_snoc. cbn. apply D1. rewrite E. apply elem_of_app. right. by apply list_elem_of_singleton.
Qed.

Lemma placed_frames : frames_from 0 off (prevs ++ new :: next).
Proof.
  destruct Hp as [-> F1 F2 B1 L1 D1 A1]. apply frames_from_app. split; [done|]. cbn. split_and!; try lia.
  - unfold last_start. destruct (last prevs) as [p|] eqn:E; cbn; [|lia]. apply last_elem, B1 in E. lia.
  - by eapply frames_from_head.
Qed.

Lemma placed_covers (x : Z) : covers (prevs ++ new :: next) x <-> covers fs x \/ f_start new <= x < f_end new.
Proof.
  destruct Hp as [-> _ _ _ _ D1 _]. rewrite !covers_app, covers_cons.
  assert (covers dropped x -> f_start new <= x < f_end new); [|tauto].
  intros (f & Hf & Hx). destruct (D1 f Hf). lia.
Qed.

(** The new frame is redundant when its neighbours leave no gap. *)
Lemma placed_covers_redundant (n p : STREAM_FRAME) (x : Z) : head next = Some n -> last prevs = Some p -> f_start n <= f_end p ->
  covers (prevs ++ next) x <-> covers fs x \/ f_start new <= x < f_end new.
Proof.
  intros Hn Hl Hnp. rewrite <- placed_covers, !covers_app, covers_cons. destruct Hp as [_ _ _ B1 _ _ A1].
  assert (f_start new <= x < f_end new -> covers prevs x \/ covers next x); [|tauto]. intros Hx.
  apply last_elem in Hl. destruct (A1 n Hn). apply head_elem in Hn. pose proof (B1 p Hl).
  destruct (Z.lt_ge_cases x (f_end p)); [left; exists p; split; [done|lia]|right; exists n; split; [done|lia]].
Qed.
End Placed.

(** The two ways the insertion ends after the covered frames are dropped. *)
Lemma placed_inserted (fl : SFRAME_LIST) (new : STREAM_FRAME) (prevs dropped next : list STREAM_FRAME) (fin : bool) :
  fl_ok fl -> 0 <= f_start new <= f_end new -> placed (fl_frames fl) (fl_offset fl) new prevs dropped next ->
  inserted fl (insert_end (fl <| fl_num_frames := fl_num_frames fl -u zlen dropped |> <| fl_frames := prevs ++ new :: next |>
                              <| fl_num_frames := (fl_num_frames fl -u zlen dropped) +u 1 |>) fin) new fin (pkt_refs dropped).
Proof.
  intros Hok Hn Hpl. pose proof Hok as [H1 H2 H3]. pose proof (pl_fs _ _ _ _ _ _ Hpl) as Hfs.
  apply inserted_intro; auto; cbn [insert_end fl_frames field_upd].
  - rewrite H3, num_sub, num_add, Hfs, !zlen_app. cbn. do 2 f_equal. f_equal. unfold zlen. cbn [length]. lia.
  - eapply placed_frames; eauto.
  - unfold fl_top. rewrite last_end_app. change (new :: next) with ([new] ++ next). rewrite last_end_app.
    change (last_end (last_end (fl_offset fl) prevs) [new]) with (f_end new). destruct (decide (next = [])) as [->|Hne].
    + pose proof (placed_top_nil _ _ _ _ _ _ Hpl eq_refl). cbn. lia.
    + destruct (placed_top _ _ _ _ _ _ Hpl Hne) as [E ?]. rewrite last_end_app in E.
      destruct (last_snoc_or next) as [->|(n' & x & ->)]; [done|]. unfold last_end in *. rewrite last_snoc in *. cbn in *. lia.
  - intros x _. by eapply placed_covers.
  - intros f. rewrite Hfs, !elem_of_app, elem_of_cons. tauto.
  - exists (stream_frame_free new). split; [by right|]. rewrite Hfs, !pkt_refs_app, pkt_refs_cons. solve_Permutation.
Qed.

Lemma placed_redundant (fl : SFRAME_LIST) (new n p : STREAM_FRAME) (prevs dropped next : list STREAM_FRAME) (fin : bool) :
  fl_ok fl -> 0 <= f_start new <= f_end new -> placed (fl_frames fl) (fl_offset fl) new prevs dropped next ->
  head next = Some n -> last prevs = Some p -> f_start n <= f_end p ->
  inserted fl (insert_end (fl <| fl_num_frames := fl_num_frames fl -u zlen dropped |> <| fl_frames := prevs ++ next |>) fin) new fin
    (pkt_refs dropped ++ stream_frame_free new).
Proof.
  intros Hok Hn Hpl Hhd Hl Hnp. pose proof Hok as [H1 H2 H3]. pose proof (pl_fs _ _ _ _ _ _ Hpl) as Hfs.
  apply inserted_intro; auto; cbn [insert_end fl_frames field_upd].
  - rewrite H3, num_sub, Hfs, !zlen_app. cbn. do 2 f_equal. f_equal. lia.
  - apply frames_from_app. split; [by eapply pl_prevs|by eapply pl_next].
  - destruct (placed_top _ _ _ _ _ _ Hpl) as [E ?]; [by destruct next|]. unfold fl_top. lia.
  - intros x _. by eapply placed_covers_redundant.
  - intros f. rewrite Hfs, !elem_of_app. tauto.
  - exists (stream_frame_free new). split; [by right|]. rewrite Hfs, !pkt_refs_app. solve_Permutation.
Qed.

Lemma middle_inserted (alloc : bool) (fl fl' : SFRAME_LIST) (range : UINT_RANGE) (pkt : option Z) (data : option bytes)
    (fin ok : bool) (rel : list Z) : fl_ok fl -> 0 <= r_start range <= r_end range -> fl_offset fl < r_end range ->
  (exists t, last (fl_frames fl) = Some t /\ r_start range <= f_start t) ->
  insert_middle alloc fl range pkt data fin = (fl', ok, rel) ->
  (alloc = true -> ok = true) /\ (ok = false -> fl' = fl /\ rel = []) /\
  (ok = true -> inserted fl fl' (mkSf range pkt data) fin rel).
Proof.
  intros Hok Hr Ho (t & Ht & Hts). pose proof Hok as [H1 H2 H3]. unfold insert_middle.
  set (new := mkSf range pkt data). pose proof (placed_loops (fl_frames fl) (fl_offset fl) new) as Hpl.
  pose proof (split_before_spec (r_start range) (fl_frames fl)) as Hsp.
  change (r_start range) with (f_start new). change (r_end range) with (f_end new).
  change (r_start range) with (f_start new) in Hsp.
  destruct (split_before (f_start new) (fl_frames fl)) as [prevs rest]. destruct Hsp as (Hfs & S1 & _).
  destruct (drop_covered (f_end new) rest) as [dropped next] eqn:Hd. destruct rest as [|r0 rest'] eqn:Er.
  { exfalso. rewrite app_nil_r in Hfs. rewrite Hfs in Ht. apply last_elem, S1 in Ht. change (f_start new) with (r_start range) in Ht. lia. }
  clear Er. destruct (match last prevs with Some p => f_end new <=? f_end p | None => false end) eqn:Ep.
  { intros Hop. pose proof (f_equal fst Hop) as E1. pose proof (f_equal snd Hop) as E2. cbn [fst snd] in E1, E2.
    injection E1 as <- <-. subst rel. split_and!; try done. intros _. destruct (last prevs) as [p|] eqn:El; [|done].
    apply Z.leb_le in Ep. apply last_elem in El. assert (Hin : p ∈ fl_frames fl) by (rewrite Hfs; apply elem_of_app; by left).
    apply inserted_same; auto.
    - pose proof (frames_from_bounds _ _ _ p H2 Hin). unfold fl_top. lia.
    - intros x Hx Hx2. exists p. split; [done|]. apply S1 in El. lia. }
  assert (Hlast : last_end (fl_offset fl) prevs < f_end new).
  { unfold last_end. destruct (last prevs) as [p|]; cbn; [by apply Z.leb_gt in Ep|done]. }
  specialize (Hpl H2 Hlast). unfold stream_frame_new. destruct alloc; [|by intros [= <- <- <-]].
  fold new. pose proof (placed_inserted fl new _ _ _ fin Hok Hr Hpl) as Hin.
  pose proof (fun n p => placed_redundant fl new n p _ _ _ fin Hok Hr Hpl) as Hred.
  destruct (match next with [] => false | n :: _ => match last prevs with Some p => f_start n <=? f_end p | None => false end end) eqn:En.
  - intros Hop. pose proof (f_equal fst Hop) as E1. pose proof (f_equal snd Hop) as E2. cbn [fst snd] in E1, E2.
    injection E1 as <- <-. subst rel. split_and!; try done. intros _. destruct next as [|n next]; [done|].
    destruct (last prevs) as [p|]; [|done]. apply (Hred n p); auto. by apply Z.leb_le.
  - intros Hop. pose proof (f_equal fst Hop) as E1. pose proof (f_equal snd Hop) as E2. cbn [fst snd] in E1, E2.
    injection E1 as <- <-. subst rel. split_and!; try done.
Qed.

Lemma sframe_insert_spec (alloc : bool) (fl fl' : SFRAME_LIST) (range : UINT_RANGE) (pkt : option Z) (data : option bytes)
    (fin ok : bool) (rel : list Z) : fl_ok fl -> 0 <= r_start range <= r_end range ->
  ossl_sframe_list_insert alloc fl range pkt data fin = (fl', ok, rel) ->
  (alloc = true -> ok = true) /\ (ok = false -> fl' = fl /\ rel = []) /\
  (ok = true -> inserted fl fl' (mkSf range pkt data) fin rel).
Proof.
  intros Hok Hr. pose proof Hok as [H1 H2 H3]. unfold ossl_sframe_list_insert. set (new := mkSf range pkt data).
  assert (Hsame : f_end new <= fl_top fl -> (forall x, fl_offset fl <= x -> f_start new <= x < f_end new -> covers (fl_frames fl) x) ->
    (insert_end fl fin, true, []) = (fl', ok, rel) ->
    (alloc = true -> ok = true) /\ (ok = false -> fl' = fl /\ rel = []) /\ (ok = true -> inserted fl fl' new fin rel)).
  { intros A1 A2 Hop. pose proof (f_equal fst Hop) as E1. pose proof (f_equal snd Hop) as E2. cbn [fst snd] in E1, E2.
    injection E1 as <- <-. subst rel. split_and!; try done. intros _. by apply inserted_same. }
  destruct (Z.leb_spec (r_end range) (fl_offset fl)) as [Hle|Hgt].
  { apply Hsame; [|intros x Hx Hx2; change (f_end new) with (r_end range) in Hx2; lia].
    change (f_end new) with (r_end range). unfold fl_top. apply frames_from_last in H2. lia. }
  destruct (last (fl_frames fl)) as [tail|] eqn:Hl.
  2:{ apply last_None in Hl. unfold stream_frame_new. destruct alloc; [|by intros [= <- <- <-]].
      intros Hop. pose proof (f_equal fst Hop) as E1. pose proof (f_equal snd Hop) as E2. cbn [fst snd] in E1, E2.
      injection E1 as <- <-. subst rel. split_and!; try done. intros _.
      pose proof (append_inserted fl new fin Hok) as Ha. unfold fl_top in Ha. rewrite Hl in Ha. apply Ha; [exact Hr|exact Hgt]. }
  destruct (Z.ltb_spec (f_start tail) (r_start range)) as [Hlt|Hge].
  2:{ apply middle_inserted; auto. exists tail. done. }
  assert (Htop : fl_top fl = f_end tail) by (unfold fl_top, last_end; by rewrite Hl).
  destruct (Z.leb_spec (r_end range) (f_end tail)).
  { apply Hsame; [by rewrite Htop|]. intros x _ Hx. exists tail. split; [by apply last_elem|].
    change (f_start new) with (r_start range) in Hx. change (f_end new) with (r_end range) in Hx. lia. }
  unfold append_frame, stream_frame_new. destruct alloc; [|by intros [= <- <- <-]].
  intros Hop. pose proof (f_equal fst Hop) as E1. pose proof (f_equal snd Hop) as E2. cbn [fst snd] in E1, E2.
  injection E1 as <- <-. subst rel. split_and!; try done. intros _. apply (append_inserted fl new fin); auto.
  - unfold last_start. rewrite Hl. cbn. change (f_start new) with (r_start range). change (f_end new) with (r_end range). lia.
  - rewrite Htop. exact H.
Qed.

(** ** Dropping what the reader has consumed *)

Record dropped_to (fl fl' : SFRAME_LIST) (limit : Z) (released : list Z) : Prop := {
  dr_ok : fl_ok fl';
  dr_offset : fl_offset fl' = limit;
  dr_fin : fl_fin fl' = fl_fin fl;
  dr_locked : fl_head_locked fl' = false;
  dr_cleanse : fl_cleanse fl' = fl_cleanse fl;
  dr_top : fl_top fl' = fl_top fl;
  dr_covers : forall x, limit <= x -> (covers (fl_frames fl') x <-> covers (fl_frames fl) x);
  dr_frames : forall f, f ∈ fl_frames fl' -> f ∈ fl_frames fl;
  dr_refs : pkt_refs (fl_frames fl) = released ++ pkt_refs (fl_frames fl') }.

Lemma sframe_drop_spec (fl fl' : SFRAME_LIST) (limit : Z) (ok : bool) (rel : list Z) : fl_ok fl ->
  ossl_sframe_list_drop_frames fl limit = (fl', ok, rel) ->
  (ok = true <-> fl_offset fl <= limit <= fl_top fl) /\ (ok = false -> fl' = fl /\ rel = []) /\
  (ok = true -> dropped_to fl fl' limit rel).
Proof.
  intros Hok. pose proof Hok as [H1 H2 H3]. unfold ossl_sframe_list_drop_frames. set (bad := _ || _).
  assert (Hbad : bad = false <-> fl_offset fl <= limit <= fl_top fl).
  { subst bad. unfold fl_top, last_end. rewrite !orb_false_iff, !negb_false_iff, Z.leb_le.
    destruct (last (fl_frames fl)); cbn; rewrite ?Z.leb_le, ?Z.eqb_eq; lia. }
  destruct bad; [intros [= <- <- <-]; split_and!; try done; split; [done|]; intros ?%Hbad; done|].
  destruct Hbad as [Hb _]. specialize (Hb eq_refl). pose proof (drop_covered_spec limit (fl_frames fl)) as Hd.
  destruct (drop_covered limit (fl_frames fl)) as [dropped rest]. destruct Hd as (Hfs & D1 & D2).
  intros Hop. pose proof (f_equal fst Hop) as E1. pose proof (f_equal snd Hop) as E2. cbn [fst snd] in E1, E2.
  injection E1 as <- <-. subst rel. split_and!; try done. intros _. rewrite Hfs in H2.
  apply frames_from_app in H2 as [F1 F2]. pose proof (frames_from_last _ _ _ F1) as [L1 L2].
  assert (Hrest : frames_from 0 limit rest).
  { eapply frames_from_head; [exact F2|]. intros f Hf. split; [|auto].
    apply head_elem in Hf. pose proof (frames_from_bounds _ _ _ f F2 Hf). lia. }
  split; cbn [fl_offset fl_fin fl_head_locked fl_cleanse fl_frames field_upd]; auto.
  - split; cbn [fl_offset fl_frames fl_num_frames field_upd]; auto; [lia|]. rewrite H3, num_sub, Hfs, zlen_app. f_equal. lia.
  - unfold fl_top in *. cbn [fl_offset fl_frames field_upd]. rewrite Hfs in *. rewrite last_end_app in *.
    destruct (last_snoc_or rest) as [->|(r & x & ->)]; [|unfold last_end; by rewrite !last_snoc].
    cbn in *. unfold last_end in *. destruct (last dropped) as [d|] eqn:El; cbn in *; [|lia]. apply last_elem, D1 in El. lia.
  - intros x Hx. rewrite Hfs, covers_app. split; [auto|]. intros [(f & Hf%D1 & ?)|?]; [lia|done].
  - intros f Hf. rewrite Hfs. apply elem_of_app. by right.
  - rewrite Hfs. apply pkt_refs_app.
Qed.

(** ** Moving the data to a side storage *)

(** What the callback promises: it stores all the bytes or says it did not, and never
    loses a byte stored before.  [side_has w x] says that [w] has the byte of
    the stream [str] at offset [x]. *)
Class SideStorage (str : Z -> Z) {W : Type} (write_at_cb : W -> Z -> bytes -> W * bool) := {
  side_ok : W -> Prop;
  side_has : W -> Z -> Prop;
  side_write : forall w w' off data ok, side_ok w -> 0 <= off -> off + zlen data <= MAX_OFFSET -> slice_of str off data ->
    write_at_cb w off data = (w', ok) ->
    side_ok w' /\ (forall x, side_has w x -> side_has w' x) /\
    (ok = true -> forall x, off <= x < off + zlen data -> side_has w' x) }.

(** A frame gives the bytes of the stream: its packet has them, or the side storage
    has those the reader has not consumed. *)
Definition frame_good (str : Z -> Z) (has : Z -> Prop) (off : Z) (f : STREAM_FRAME) : Prop :=
  match sf_data f with
  | Some d => zlen d = f_end f - f_start f /\ slice_of str (f_start f) d
  | None => forall x, Z.max off (f_start f) <= x < f_end f -> has x
  end.

Lemma frame_good_mono (str : Z -> Z) (has has' : Z -> Prop) (off off' : Z) (f : STREAM_FRAME) : off <= off' ->
  (forall x, off' <= x -> has x -> has' x) -> frame_good str has off f -> frame_good str has' off' f.
Proof. intros Ho Hh. unfold frame_good. destruct (sf_data f); [done|]. intros Hx x ?. apply Hh; [lia|]. apply Hx. lia. Qed.

Section MoveSpec.
Context {str : Z -> Z} {W : Type} {write_at_cb : W -> Z -> bytes -> W * bool} {S : SideStorage str write_at_cb}.
Context (off : Z) (Hoff : 0 <= off).

(** The frames [old], chained from [s] and [e], became the frames [new] and the
    storage [w] became [w']. *)
Record moved_to (s e : Z) (w w' : W) (old new : list STREAM_FRAME) (n : Z) (rel : list Z) : Prop := {
  mv_ok : side_ok w';
  mv_has : forall x, side_has w x -> side_has w' x;
  mv_frames : frames_from s e new;
  mv_last : last_end e new = last_end e old;
  mv_covers : forall x, covers new x <-> covers old x;
  mv_num : zlen new = zlen old - n;
  mv_good : forall f, f ∈ new -> frame_good str (side_has w') off f;
  mv_refs : pkt_refs old ≡ₚ pkt_refs new ++ rel }.

(** The limit a frame is moved from: below it the storage has what the reader needs. *)
Definition limit_ok (w : W) (limit : Z) (sf : STREAM_FRAME) : Prop :=
  off <= limit < f_end sf /\ forall x, Z.max off (f_start sf) <= x < limit -> side_has w x.

Lemma move_one_spec (w w' : W) (limit : Z) (sf : STREAM_FRAME) (res : option (STREAM_FRAME * list Z)) :
  side_ok w -> 0 <= f_start sf <= f_end sf -> f_end sf <= MAX_OFFSET -> frame_good str (side_has w) off sf -> limit_ok w limit sf ->
  move_one write_at_cb w (if limit <? f_start sf then f_start sf else limit) sf = (w', res) ->
  side_ok w' /\ (forall x, side_has w x -> side_has w' x) /\
  (forall sf' rel, res = Some (sf', rel) -> sf_range sf' = sf_range sf /\ sf_data sf' = None /\
     frame_good str (side_has w') off sf' /\ stream_frame_free sf = rel ++ stream_frame_free sf').
Proof.
  intros Hw Hse Hmax Hg [Hl1 Hl2] Hop. unfold move_one in Hop. unfold frame_good in Hg.
  destruct (sf_data sf) as [data|] eqn:Hd.
  2:{ injection Hop as <- <-. split_and!; auto. intros sf' rel [= <- <-]. split_and!; auto. unfold frame_good. by rewrite Hd. }
  destruct Hg as [Hz Hs]. set (lim := if limit <? f_start sf then _ else _) in *.
  assert (Hlim : lim = Z.max limit (f_start sf)) by (subst lim; bdestruct_all; lia).
  rewrite sub64_small in Hop by (unfold MAX_OFFSET in *; u64_side).
  assert (Hdata : (if f_start sf <? lim then drop (Z.to_nat (lim - f_start sf)) data else data) = drop (Z.to_nat (lim - f_start sf)) data).
  { destruct (Z.ltb_spec (f_start sf) lim); [done|]. by replace (lim - f_start sf) with 0 by lia. }
  rewrite Hdata in Hop. clear Hdata. pose proof (zlen_drop (lim - f_start sf) data ltac:(lia)) as Hdl.
  rewrite take_ge in Hop by (unfold zlen in *; lia).
  pose proof (slice_drop str (f_start sf) (lim - f_start sf) data ltac:(lia) Hs) as Hsd.
  replace (f_start sf + (lim - f_start sf)) with lim in Hsd by lia.
  destruct (write_at_cb w lim (drop (Z.to_nat (lim - f_start sf)) data)) as [w1 ok] eqn:Hwr.
  apply side_write in Hwr as (Hok1 & Hm & Hst); auto; [|lia..].
  destruct ok; injection Hop as <- <-; split_and!; auto; [|done].
  intros sf' rel [= <- <-]. cbn [sf_range sf_data field_upd]. split_and!; auto; [|by rewrite app_nil_r].
  intros x Hx. cbn in Hx. change (f_start _) with (f_start sf) in Hx. change (f_end _) with (f_end sf) in Hx.
  destruct (Z.lt_ge_cases x lim); [apply Hm, Hl2; lia|apply Hst; [done|lia]].
Qed.

Lemma moved_before (s e : Z) (w w1 w' : W) (old old1 new : list STREAM_FRAME) (n k : Z) (rel rel1 : list Z) :
  moved_to s e w1 w' old1 new n rel -> (forall x, side_has w x -> side_has w1 x) ->
  last_end e old1 = last_end e old -> (forall x, covers old1 x <-> covers old x) -> zlen old1 = zlen old - k ->
  pkt_refs old ≡ₚ pkt_refs old1 ++ rel1 -> moved_to s e w w' old new (n + k) (rel1 ++ rel).
Proof.
  intros [M1 M2 M3 M4 M5 M6 M7 M8] Hh Hl Hc Hz Hr. split; auto; [congruence| |lia|].
  - intros x. by rewrite M5.
  - rewrite Hr, M8. solve_Permutation.
Qed.

Lemma moved_cons (s e : Z) (w w' : W) (p : STREAM_FRAME) (old new : list STREAM_FRAME) (n : Z) (rel : list Z) :
  s <= f_start p -> e < f_end p -> f_start p <= f_end p -> (forall x, Z.max off (f_start p) <= x < f_end p -> side_has w x) ->
  sf_data p = None -> moved_to (f_start p) (f_end p) w w' old new n rel -> moved_to s e w w' (p :: old) (p :: new) n rel.
Proof.
  intros H1 H2 H3 Hg Hd [M1 M2 M3 M4 M5 M6 M7 M8]. split; auto.
  - cbn. done.
  - change (p :: new) with ([p] ++ new). change (p :: old) with ([p] ++ old). by rewrite !last_end_app.
  - intros x. by rewrite !covers_cons, M5.
  - change (p :: new) with ([p] ++ new). change (p :: old) with ([p] ++ old). rewrite !zlen_app. lia.
  - intros f [->|Hf]%elem_of_cons; [|auto]. unfold frame_good. rewrite Hd. auto.
  - rewrite !pkt_refs_cons, M8. by rewrite app_assoc.
Qed.

Definition opt_list {A} (o : option A) : list A := match o with Some a => [a] | None => [] end.

Lemma last_end_cons (e : Z) (f : STREAM_FRAME) (fs : list STREAM_FRAME) : last_end e (f :: fs) = last_end (f_end f) fs.
Proof. exact (last_end_app e [f] fs). Qed.

(** The frame [sf] whose data went to the storage is [sf'] now. *)
Definition emptied (sf sf' : STREAM_FRAME) (rel : list Z) : Prop :=
  f_start sf' = f_start sf /\ f_end sf' = f_end sf /\ sf_data sf' = None /\ stream_frame_free sf = rel ++ stream_frame_free sf'.

Lemma moved_swap (s e : Z) (w w1 w' : W) (sf sf' : STREAM_FRAME) (next new : list STREAM_FRAME) (n : Z) (rel rel0 : list Z) :
  emptied sf sf' rel0 -> (forall x, side_has w x -> side_has w1 x) -> moved_to s e w1 w' (sf' :: next) new n rel ->
  moved_to s e w w' (sf :: next) new n (rel0 ++ rel).
Proof.
  intros (Hs1 & Hs2 & _ & Href) Hm Hmv. replace n with (n + 0) by lia. eapply moved_before; [exact Hmv|done|..].
  - by rewrite !last_end_cons, Hs2.
  - intros x. by rewrite !covers_cons, Hs1, Hs2.
  - unfold zlen. cbn [length]. lia.
  - rewrite !pkt_refs_cons, Href. solve_Permutation.
Qed.

Lemma moved_merge (s e : Z) (w w1 w' : W) (p sf sf' : STREAM_FRAME) (next new : list STREAM_FRAME) (n : Z) (rel rel0 : list Z) :
  let p' := p <| sf_range := mkRange (f_start p) (f_end sf') |> in
  emptied sf sf' rel0 -> (forall x, side_has w x -> side_has w1 x) ->
  f_start p <= f_start sf <= f_end p -> f_end p <= f_end sf -> moved_to s e w1 w' (p' :: next) new n rel ->
  moved_to s e w w' (p :: sf :: next) new (n + 1) (rel0 ++ stream_frame_free sf' ++ rel).
Proof.
  intros p' (Hs1 & Hs2 & _ & Href) Hm Hp1 Hp2 Hmv. rewrite app_assoc. eapply moved_before; [exact Hmv|done|..].
  - rewrite !last_end_cons. change (f_end p') with (f_end sf'). by rewrite Hs2.
  - intros x. rewrite !covers_cons. change (f_start p') with (f_start p). change (f_end p') with (f_end sf').
    rewrite Hs2. assert (f_start p <= x < f_end sf <-> f_start p <= x < f_end p \/ f_start sf <= x < f_end sf) by lia. tauto.
  - unfold zlen. cbn [length]. lia.
  - rewrite !pkt_refs_cons, Href. change (stream_frame_free p') with (stream_frame_free p). solve_Permutation.
Qed.

Lemma move_loop_spec (rest : list STREAM_FRAME) : forall w w' s e limit prev ok fs n rel,
  side_ok w -> 0 <= s -> off <= e -> frames_from s e (opt_list prev ++ rest) -> last_end e (opt_list prev ++ rest) <= MAX_OFFSET ->
  (forall f, f ∈ opt_list prev ++ rest -> frame_good str (side_has w) off f) ->
  (match prev with None => limit = off | Some p => limit = f_end p /\ sf_data p = None end) ->
  move_loop write_at_cb w limit prev rest = (w', ok, fs, n, rel) ->
  moved_to s e w w' (opt_list prev ++ rest) fs n rel /\ (ok = true -> forall f, f ∈ fs -> sf_data f = None).
Proof.
  induction rest as [|sf next IH]; intros w w' s e limit prev ok fs n rel Hw Hs He Hf Hmax Hg Hlim Hop; cbn [move_loop] in Hop.
  { injection Hop as <- <- <- <- <-. change (match prev with Some p => [p] | None => [] end) with (opt_list prev).
    rewrite app_nil_r in *. split; [split; auto; [lia|by rewrite app_nil_r]|].
    intros _ f Hin. destruct prev; [|by apply not_elem_of_nil in Hin]. apply list_elem_of_singleton in Hin as ->. apply Hlim. }
  pose proof Hf as (Hfp & F1 & F2 & F3 & F4)%frames_from_app. rewrite last_end_app, last_end_cons in Hmax.
  assert (Hlast : last_start s (opt_list prev) >= s /\ last_end e (opt_list prev) >= e) by (apply frames_from_last in Hfp; lia).
  pose proof (frames_from_last _ _ _ F4) as [_ Hl4].
  assert (Hlo : limit_ok w limit sf).
  { destruct prev as [p|]; cbn in F1, F2; [|subst limit; split; lia]. destruct Hlim as [-> Hpd]. cbn in Hfp.
    split; [lia|]. intros x Hx. specialize (Hg p ltac:(apply elem_of_app; left; by apply list_elem_of_singleton)).
    unfold frame_good in Hg. rewrite Hpd in Hg. apply Hg. lia. }
  destruct (move_one write_at_cb w _ sf) as [w1 res] eqn:Hm1.
  assert (Hsfin : sf ∈ opt_list prev ++ sf :: next) by (apply elem_of_app; right; apply elem_of_cons; by left).
  apply move_one_spec in Hm1 as (Hw1 & Hmono & Hres); auto; [|lia..].
  assert (Hrest : forall f, f ∈ next -> frame_good str (side_has w1) off f).
  { intros f Hin. eapply frame_good_mono; [reflexivity|intros x _; apply Hmono|]. apply Hg, elem_of_app. right. apply elem_of_cons. by right. }
  destruct res as [[sf' rel0]|].
  2:{ injection Hop as <- <- <- <- <-. change (match prev with Some p => [p] | None => [] end) with (opt_list prev). split; [|done].
      split; auto; [lia| |by rewrite app_nil_r]. intros f Hin. eapply frame_good_mono; [reflexivity|intros x _; apply Hmono|auto]. }
  destruct (Hres sf' rel0 eq_refl) as (Hr & Hd' & Hg' & Href). clear Hres.
  assert (Hem : emptied sf sf' rel0) by (unfold emptied, f_start, f_end; by rewrite Hr). pose proof Hem as (Hs1 & Hs2 & _).
  destruct prev as [p|]; cbn [opt_list app] in *.
  - destruct Hfp as (P1 & P2 & P3 & _). destruct Hlim as [-> Hpd].
    change (last_start s [p]) with (f_start p) in *. change (last_end e [p]) with (f_end p) in *.
    pose proof (Hg p ltac:(apply elem_of_cons; by left)) as Hgp. unfold frame_good in Hgp. rewrite Hpd in Hgp.
    destruct (Z.leb_spec (f_start sf') (f_end p)) as [Hle|Hgt].
    + set (p' := p <| sf_range := mkRange (f_start p) (f_end sf') |>) in *.
      assert (Hp : f_start p' = f_start p /\ f_end p' = f_end sf /\ sf_data p' = None) by (by rewrite <- Hs2, <- Hpd).
      destruct Hp as (Hp1 & Hp2 & Hp3).
      destruct (move_loop write_at_cb w1 (f_end sf') (Some p') next) as [[[[w2 ok2] fs2] n2] rel2] eqn:Hl.
      injection Hop as <- <- <- <- <-. apply (IH w1 w2 s e) in Hl as [Hmv Hd2]; auto; cbn [opt_list app frames_from].
      * split; [|done]. eapply moved_merge; [exact Hem|done|lia|lia|exact Hmv].
      * rewrite Hp1, Hp2. split_and!; [lia|lia|lia|]. eapply frames_from_weaken; [| |exact F4]; lia.
      * by rewrite last_end_cons, Hp2.
      * intros f [->|Hin]%elem_of_cons; [|auto]. unfold frame_good. rewrite Hp1, Hp2, Hp3. intros x Hx.
        destruct (Z.lt_ge_cases x (f_end p)); [apply Hmono, Hgp; lia|]. unfold frame_good in Hg'. rewrite Hd' in Hg'. apply Hg'. lia.
    + destruct (move_loop write_at_cb w1 (f_end sf') (Some sf') next) as [[[[w2 ok2] fs2] n2] rel2] eqn:Hl.
      injection Hop as <- <- <- <- <-. apply (IH w1 w2 (f_start p) (f_end p)) in Hl as [Hmv Hd2];
        cbn [opt_list app frames_from]; rewrite ?last_end_cons, ?Hs1, ?Hs2; auto; try lia.
      * split; [|intros Ho f [->|Hin]%elem_of_cons; [done|auto]]. apply moved_cons; auto. by eapply moved_swap.
      * intros f [->|Hin]%elem_of_cons; auto.
  - destruct (move_loop write_at_cb w1 (f_end sf') (Some sf') next) as [[[[w2 ok2] fs2] n2] rel2] eqn:Hl.
    injection Hop as <- <- <- <- <-. apply (IH w1 w2 s e) in Hl as [Hmv Hd2];
      cbn [opt_list app frames_from]; rewrite ?last_end_cons, ?Hs1, ?Hs2; auto.
    + split; [|done]. by eapply moved_swap.
    + intros f [->|Hin]%elem_of_cons; auto.
Qed.
End MoveSpec.

Section MoveData.
Context {str : Z -> Z} {W : Type} {write_at_cb : W -> Z -> bytes -> W * bool} {S : SideStorage str write_at_cb}.

(** All the data moves, or what is moved is in the storage and the rest is still in its packets. *)
Record data_moved (fl fl' : SFRAME_LIST) (w w' : W) (released : list Z) : Prop := {
  md_side : side_ok w';
  md_has : forall x, side_has w x -> side_has w' x;
  md_ok : fl_ok fl';
  md_offset : fl_offset fl' = fl_offset fl;
  md_fin : fl_fin fl' = fl_fin fl;
  md_locked : fl_head_locked fl' = fl_head_locked fl;
  md_cleanse : fl_cleanse fl' = fl_cleanse fl;
  md_top : fl_top fl' = fl_top fl;
  md_covers : forall x, covers (fl_frames fl') x <-> covers (fl_frames fl) x;
  md_good : forall f, f ∈ fl_frames fl' -> frame_good str (side_has w') (fl_offset fl) f;
  md_refs : pkt_refs (fl_frames fl) ≡ₚ pkt_refs (fl_frames fl') ++ released }.

Lemma data_moved_intro (fl fl' : SFRAME_LIST) (w w' : W) (n : Z) (rel : list Z) : fl_ok fl ->
  fl' = fl <| fl_frames := fl_frames fl' |> <| fl_num_frames := fl_num_frames fl -u n |> ->
  moved_to (str := str) (write_at_cb := write_at_cb) (fl_offset fl) 0 (fl_offset fl) w w' (fl_frames fl) (fl_frames fl') n rel ->
  data_moved fl fl' w w' rel.
Proof.
  intros [H1 H2 H3] He [M1 M2 M3 M4 M5 M6 M7 M8]. assert (Ho : fl_offset fl' = fl_offset fl) by (by rewrite He).
  split; auto; try (by rewrite He).
  - split; rewrite ?Ho; auto. rewrite He. cbn [fl_num_frames fl_frames field_upd]. by rewrite M6, H3, num_sub.
Qed.

Lemma sframe_move_spec (fl fl' : SFRAME_LIST) (w w' : W) (ok : bool) (rel : list Z) :
  fl_ok fl -> fl_top fl <= MAX_OFFSET -> side_ok w -> (forall f, f ∈ fl_frames fl -> frame_good str (side_has w) (fl_offset fl) f) ->
  ossl_sframe_list_move_data write_at_cb fl w = (w', fl', ok, rel) ->
  data_moved fl fl' w w' rel /\
  (ok = true -> forall f, f ∈ (if fl_head_locked fl then tail (fl_frames fl') else fl_frames fl') -> sf_data f = None).
Proof.
  intros Hok Htop Hw Hg. pose proof Hok as [H1 H2 H3]. unfold ossl_sframe_list_move_data. unfold fl_top in Htop.
  destruct (fl_frames fl) as [|head next] eqn:Hfs.
  { intros [= <- <- <- <-]. rewrite Hfs. split; [|intros _ f Hf; destruct (fl_head_locked fl); by apply not_elem_of_nil in Hf].
    split; auto; rewrite ?Hfs; try done; by rewrite Hfs in Hg. }
  destruct (fl_head_locked fl) eqn:Hlk; cbn beta iota zeta.
  - destruct (move_loop write_at_cb w (fl_offset fl) None next) as [[[[w1 ok1] fs] n] rel1] eqn:Hl.
    intros Hop. pose proof (f_equal fst (f_equal fst (f_equal fst Hop))) as E1. pose proof (f_equal snd (f_equal fst (f_equal fst Hop))) as E2.
    pose proof (f_equal snd (f_equal fst Hop)) as E3. pose proof (f_equal snd Hop) as E4. cbn [fst snd] in E1, E2, E3, E4. subst w1 ok1 rel1.
    destruct H2 as (P1 & P2 & P3 & P4). rewrite last_end_cons in Htop.
    apply (move_loop_spec (str := str) (fl_offset fl) H1 _ _ _ (f_start head) (f_end head)) in Hl as [Hmv Hd]; auto; try lia;
      [|intros f Hf; apply Hg, elem_of_cons; by right].
    subst fl'. cbn [fl_frames field_upd]. split; [|exact Hd]. eapply data_moved_intro; [done|reflexivity|]. cbn [fl_frames field_upd app].
    rewrite Hfs. destruct Hmv as [M1 M2 M3 M4 M5 M6 M7 M8]. cbn [opt_list app] in *. split; auto.
    + cbn. done.
    + by rewrite !last_end_cons.
    + intros x. by rewrite !covers_cons, M5.
    + change (zlen (head :: fs)) with (zlen ([head] ++ fs)). change (zlen (head :: next)) with (zlen ([head] ++ next)). rewrite !zlen_app. lia.
    + intros f [->|Hf]%elem_of_cons; [|auto]. eapply frame_good_mono; [reflexivity|intros x _; apply M2|]. apply Hg, elem_of_cons. by left.
    + rewrite !pkt_refs_cons, M8. by rewrite app_assoc.
  - destruct (move_loop write_at_cb w (fl_offset fl) None (head :: next)) as [[[[w1 ok1] fs] n] rel1] eqn:Hl.
    intros Hop. pose proof (f_equal fst (f_equal fst (f_equal fst Hop))) as E1. pose proof (f_equal snd (f_equal fst (f_equal fst Hop))) as E2.
    pose proof (f_equal snd (f_equal fst Hop)) as E3. pose proof (f_equal snd Hop) as E4. cbn [fst snd] in E1, E2, E3, E4. subst w1 ok1 rel1.
    apply (move_loop_spec (str := str) (fl_offset fl) H1 _ _ _ 0 (fl_offset fl)) in Hl as [Hmv Hd]; auto; try lia.
    subst fl'. cbn [fl_frames field_upd app]. split; [|exact Hd]. eapply data_moved_intro; [done|reflexivity|]. cbn [fl_frames field_upd app].
    by rewrite Hfs.
Qed.
End MoveData.
