(* ===== verification/Rstream.v ===== *)
(** * Receive streams (ssl/quic/quic_rstream.c)

    The buffer a caller passes is the list of bytes written to it.  The flow
    controller and the statistics manager are shared objects: the controller
    (with its parent) is passed in and out of the operations that retire
    credit, and the statistics manager is an argument of them; [None] is NULL.
    Operations that free frames also give the packets released.  Fuel: the
    loops visit each frame at most once. *)

From S2P Require Import Prelude UintSet OsslTime FlowControl Congestion Packet RingBuf SfList.

Record QUIC_RSTREAM := mkRstream { rs_fl : SFRAME_LIST; rs_head_range : UINT_RANGE; rs_rbuf : ring_buf }.
#[export] Instance eta_rstream : Eta QUIC_RSTREAM := fun q => mkRstream (rs_fl q) (rs_head_range q) (rs_rbuf q).

Definition ossl_quic_rstream_new (malloc : option bytes) (rbuf_size : Z) : option QUIC_RSTREAM :=
  match ring_buf_resize malloc ring_buf_init rbuf_size with
  | (_, false) => None
  | (r, true) => Some (mkRstream ossl_sframe_list_init (mkRange 0 0) r)
  end.

Definition ossl_quic_rstream_free (q : QUIC_RSTREAM) : list Z := ossl_sframe_list_destroy (rs_fl q).

Definition ossl_quic_rstream_queue_data (alloc : bool) (q : QUIC_RSTREAM) (pkt : option Z) (offset : Z)
    (data : option bytes) (data_len : Z) (fin : bool) : QUIC_RSTREAM * bool * list Z :=
  if (bool_decide (data = None) && negb (data_len =? 0)) || ((data_len =? 0) && negb fin) then (q, false, [])
  else
    let '(fl, ok, rel) := ossl_sframe_list_insert alloc (rs_fl q) (mkRange offset (offset +u data_len)) pkt data fin in
    (q <| rs_fl := fl |>, ok, rel).

(** The [l] bytes one round copies from offset [start], [None] when an assertion fails. *)
Definition copy_frame (r : ring_buf) (start l : Z) (data : option bytes) : option bytes :=
  match data with
  | Some data => Some (take (Z.to_nat l) data)
  | None =>
      match ring_buf_get_ptr r start with
      | None => None
      | Some data =>
          let max_len := zlen data in
          if max_len <? l then
            match ring_buf_get_ptr r (start +u max_len) with
            | None => None
            | Some data2 =>
                if negb (l -u max_len <? zlen data2) then None else Some (data ++ take (Z.to_nat (l -u max_len)) data2)
            end
          else Some (take (Z.to_nat l) data)
      end
  end.

(** The loop of [read_internal]: the bytes copied, [offset] and [fin_]. *)
Fixpoint read_loop (fuel : nat) (q : QUIC_RSTREAM) (iter : option nat) (size : Z) (out : bytes) (offset : Z)
  : option (bytes * Z * bool) :=
  match fuel with
  | O => None
  | S fuel =>
      let '(found, pk) := ossl_sframe_list_peek (rs_fl q) iter in
      if negb found then Some (out, offset, pk_fin pk)
      else
        let start := r_start (pk_range pk) in
        let l := r_end (pk_range pk) -u start in
        let '(l, fin) := if size <? l then (size, false) else (l, pk_fin pk) in
        let offset := start +u l in
        if l =? 0 then Some (out, offset, fin)
        else
          match copy_frame (rs_rbuf q) start l (pk_data pk) with
          | None => None
          | Some c =>
              let size := size -u l in
              if size =? 0 then Some (out ++ c, offset, fin) else read_loop fuel q (pk_iter pk) size (out ++ c) offset
          end
  end.

(** The bytes read and whether the end of the stream is reached, [None] for a failure. *)
Definition read_internal (q : QUIC_RSTREAM) (size : Z) (drop : bool) : QUIC_RSTREAM * option (bytes * bool) * list Z :=
  match read_loop (S (length (fl_frames (rs_fl q)))) q None size [] 0 with
  | None => (q, None, [])
  | Some (out, offset, fin) =>
      if drop && negb (offset =? 0) then
        let '(fl, ret, rel) := ossl_sframe_list_drop_frames (rs_fl q) offset in
        let rbuf := ring_buf_cpop_range (rs_rbuf q) 0 (offset -u 1) (fl_cleanse fl) in
        (q <| rs_fl := fl |> <| rs_rbuf := rbuf |>, if ret then Some (out, fin) else None, rel)
      else (q, Some (out, fin), [])
  end.

Definition get_rtt (statm : option OSSL_STATM) : OSSL_TIME :=
  match statm with
  | Some s => ri_smoothed_rtt (ossl_statm_get_rtt_info s)
  | None => ossl_time_zero
  end.

Definition rxfc_ref : Type := option (QUIC_RXFC * option QUIC_RXFC).

Section Clock.
Context (now : nat -> OSSL_TIME).

Definition retire (rxfc : rxfc_ref) (num_bytes : Z) (rtt : OSSL_TIME) (n : nat) : rxfc_ref * bool * nat :=
  match rxfc with
  | None => (None, true, n)
  | Some (fc, parent) =>
      let '(fc, parent, ok, n) := ossl_quic_rxfc_on_retire now fc parent num_bytes rtt n in (Some (fc, parent), ok, n)
  end.

(** The result, and the bytes and flag [read_internal] gave when it succeeded. *)
Definition ossl_quic_rstream_read (q : QUIC_RSTREAM) (rxfc : rxfc_ref) (statm : option OSSL_STATM) (size : Z) (n : nat)
  : QUIC_RSTREAM * rxfc_ref * bool * option (bytes * bool) * list Z * nat :=
  let rtt := get_rtt statm in
  match read_internal q size true with
  | (q, None, rel) => (q, rxfc, false, None, rel, n)
  | (q, Some (out, fin), rel) =>
      let '(rxfc, ok, n) := retire rxfc (zlen out) rtt n in (q, rxfc, ok, Some (out, fin), rel, n)
  end.

Definition ossl_quic_rstream_release_record (q : QUIC_RSTREAM) (rxfc : rxfc_ref) (statm : option OSSL_STATM) (read_len : Z) (n : nat)
  : QUIC_RSTREAM * rxfc_ref * bool * list Z * nat :=
  if negb (ossl_sframe_list_is_head_locked (rs_fl q)) then (q, rxfc, false, [], n)
  else
    let hr := rs_head_range q in
    if (r_end hr -u r_start hr <? read_len) && negb (read_len =? SIZE_MAX) then (q, rxfc, false, [], n)
    else
      let offset := if r_end hr -u r_start hr <? read_len then r_end hr else r_start hr +u read_len in
      match ossl_sframe_list_drop_frames (rs_fl q) offset with
      | (fl, false, rel) => (q <| rs_fl := fl |>, rxfc, false, rel, n)
      | (fl, true, rel) =>
          let rbuf := if 0 <? offset then ring_buf_cpop_range (rs_rbuf q) 0 (offset -u 1) (fl_cleanse fl) else rs_rbuf q in
          let '(rxfc, ok, n) := retire rxfc offset (get_rtt statm) n in
          (q <| rs_fl := fl |> <| rs_rbuf := rbuf |>, rxfc, ok, rel, n)
      end.
End Clock.

Definition ossl_quic_rstream_peek (q : QUIC_RSTREAM) (size : Z) : option (bytes * bool) := snd (fst (read_internal q size false)).

Fixpoint available_loop (fuel : nat) (fl : SFRAME_LIST) (iter : option nat) (avail : Z) : option (Z * bool) :=
  match fuel with
  | O => None
  | S fuel =>
      let '(found, pk) := ossl_sframe_list_peek fl iter in
      if found then available_loop fuel fl (pk_iter pk) (avail +u (r_end (pk_range pk) -u r_start (pk_range pk)))
      else Some (avail, pk_fin pk)
  end.

(** The call always succeeds; [None] stands for a loop that does not end. *)
Definition ossl_quic_rstream_available (q : QUIC_RSTREAM) : option (Z * bool) :=
  available_loop (S (length (fl_frames (rs_fl q)))) (rs_fl q) None 0.

(** The result, the record ([None] for NULL), its length, and [fin] when it is set. *)
Definition ossl_quic_rstream_get_record (q : QUIC_RSTREAM) : QUIC_RSTREAM * bool * option bytes * Z * option bool * list Z :=
  match ossl_sframe_list_lock_head (rs_fl q) with
  | (fl, None) => (q <| rs_fl := fl |>, true, None, 0, None, [])
  | (fl, Some (false, pk)) => (q <| rs_fl := fl |> <| rs_head_range := pk_range pk |>, true, None, 0, Some (pk_fin pk), [])
  | (fl, Some (true, pk)) =>
      let q := q <| rs_fl := fl |> <| rs_head_range := pk_range pk |> in
      let hr := pk_range pk in
      let fin := Some (pk_fin pk) in
      let empty := r_end hr =? r_start hr in
      if empty && negb (pk_fin pk) then (q, false, None, 0, fin, [])
      else
        let '(fl, ok, rel) := if empty then ossl_sframe_list_drop_frames (rs_fl q) (r_end hr) else (rs_fl q, true, []) in
        let q := q <| rs_fl := fl |> in
        if negb ok then (q, false, None, 0, fin, rel)
        else
          let rec_len := r_end hr -u r_start hr in
          match pk_data pk with
          | Some d => (q, true, Some (take (Z.to_nat rec_len) d), rec_len, fin, rel)
          | None =>
              if rec_len =? 0 then (q, true, None, rec_len, fin, rel)
              else
                match ring_buf_get_ptr (rs_rbuf q) (r_start hr) with
                | None => (q, false, None, 0, fin, rel)
                | Some d =>
                    if zlen d <? rec_len
                    then (q <| rs_head_range := mkRange (r_start hr) (r_start hr +u zlen d) |>, true, Some d, zlen d, fin, rel)
                    else (q, true, Some (take (Z.to_nat rec_len) d), rec_len, fin, rel)
                end
          end
  end.

Definition write_at_ring_buf_cb (r : ring_buf) (logical_offset : Z) (buf : bytes) : ring_buf * bool :=
  ring_buf_write_at r logical_offset buf.

Definition ossl_quic_rstream_move_to_rbuf (q : QUIC_RSTREAM) : QUIC_RSTREAM * bool * list Z :=
  if ring_buf_avail (rs_rbuf q) =? 0 then (q, false, [])
  else
    let '(r, fl, ok, rel) := ossl_sframe_list_move_data write_at_ring_buf_cb (rs_fl q) (rs_rbuf q) in
    (q <| rs_fl := fl |> <| rs_rbuf := r |>, ok, rel).

Definition ossl_quic_rstream_resize_rbuf (malloc : option bytes) (q : QUIC_RSTREAM) (rbuf_size : Z) : QUIC_RSTREAM * bool :=
  if ossl_sframe_list_is_head_locked (rs_fl q) then (q, false)
  else
    match ring_buf_resize malloc (rs_rbuf q) rbuf_size with
    | (_, false) => (q, false)
    | (r, true) => (q <| rs_rbuf := r |>, true)
    end.

Definition ossl_quic_rstream_set_cleanse (q : QUIC_RSTREAM) (cleanse : bool) : QUIC_RSTREAM :=
  q <| rs_fl := (rs_fl q) <| fl_cleanse := cleanse |> |>.

(** ** The invariant *)

(** The ring buffer has the byte of the stream at offset [x]. *)
Definition ring_has (str : Z -> Z) (r : ring_buf) (x : Z) : Prop := rb_ctail r <= x < rb_head r /\ rb_at r x = Some (str x).

(** The ring buffer is a side storage of the frame list: what the list moves to it stays. *)
#[export] Instance ring_storage (str : Z -> Z) (c : Z) : SideStorage str write_at_ring_buf_cb.
Proof.
  refine {| side_ok := fun r => ring_ok r /\ rb_ctail r = c; side_has := ring_has str |}.
  intros r r' off data ok [Hr Hc] Ho Hm Hs Hw. apply write_at_spec in Hw as (W1 & W2 & W3); auto. destruct ok.
  2:{ rewrite W2 by done. done. }
  destruct (W3 eq_refl) as (Hr' & [S1 S2 S3] & Hh). destruct W1 as [W1 _]. specialize (W1 eq_refl). pose proof Hr as [R1 R2 R3 R4].
  pose proof (zlen_nonneg data). split_and!; [done|by rewrite S2|..].
  - intros x [Hx Hat]. split; [rewrite S2, Hh; destruct (zlen data =? 0); lia|]. rewrite S3 by lia.
    destruct (Z.leb_spec off x), (Z.ltb_spec x (off + zlen data)); cbn [andb]; try done. rewrite Hs by lia. do 2 f_equal. lia.
  - intros _ x Hx. split; [rewrite S2, Hh; destruct (Z.eqb_spec (zlen data) 0); lia|]. rewrite S3 by lia.
    rewrite (proj2 (Z.leb_le off x)), (proj2 (Z.ltb_lt x (off + zlen data))) by lia. cbn [andb]. rewrite Hs by lia. do 2 f_equal. lia.
Defined.

Record rs_inv (str : Z -> Z) (q : QUIC_RSTREAM) : Prop := {
  ri_fl : fl_ok (rs_fl q);
  ri_top : fl_top (rs_fl q) <= MAX_OFFSET;
  ri_ring : ring_ok (rs_rbuf q);
  ri_ctail : rb_ctail (rs_rbuf q) = fl_offset (rs_fl q);
  ri_good : forall f, f ∈ fl_frames (rs_fl q) -> frame_good str (ring_has str (rs_rbuf q)) (fl_offset (rs_fl q)) f;
  ri_locked : fl_head_locked (rs_fl q) = true ->
    r_start (rs_head_range q) = fl_offset (rs_fl q) /\
    r_start (rs_head_range q) < r_end (rs_head_range q) <= fl_top (rs_fl q) }.

(** ** The contiguous frames *)

(** The end of the frames that follow [cur] without a gap. *)
Fixpoint run_end (cur : Z) (fs : list STREAM_FRAME) : Z :=
  match fs with
  | [] => cur
  | f :: rest => if cur <? f_start f then cur else run_end (f_end f) rest
  end.

Lemma run_end_spec (fs : list STREAM_FRAME) : forall s cur, frames_from s cur fs ->
  cur <= run_end cur fs <= last_end cur fs /\ (forall x, cur <= x < run_end cur fs -> covers fs x) /\ ~ covers fs (run_end cur fs).
Proof.
  induction fs as [|f fs IH]; intros s cur; cbn [run_end].
  { intros _. split_and!; [cbn; lia|cbn; lia|lia|apply covers_nil]. }
  intros (H1 & H2 & H3 & H4). rewrite last_end_cons. pose proof (frames_from_last _ _ _ H4) as [_ Hl].
  destruct (Z.ltb_spec cur (f_start f)) as [Hgap|Hno].
  - split_and!; [lia|lia|lia|]. rewrite covers_cons. intros [?|Hc]; [lia|]. apply covers_bounds with (e := f_end f) (s := f_start f) in Hc; [lia|done].
  - destruct (IH _ _ H4) as (I1 & I2 & I3). split_and!; [lia|lia|..].
    + intros x Hx. rewrite covers_cons. destruct (Z.lt_ge_cases x (f_end f)); [left; lia|right; apply I2; lia].
    + rewrite covers_cons. intros [?|?]; [lia|done].
Qed.

Lemma frames_from_suffix (fs : list STREAM_FRAME) (s e : Z) (pos : nat) : frames_from s e fs ->
  frames_from (last_start s (take pos fs)) (last_end e (take pos fs)) (drop pos fs).
Proof. intros Hf. rewrite <- (take_drop pos fs) in Hf at 1. by apply frames_from_app in Hf as [_ ?]. Qed.

Definition iter_pos (iter : option nat) : nat := match iter with None => 0%nat | Some i => S i end.

Lemma drop_lookup {A} (l : list A) (n : nat) : l !! n = head (drop n l).
Proof. revert n. induction l as [|x l IH]; intros [|n]; cbn; auto. Qed.

(** What the iterator returns after the first [iter_pos iter] frames. *)
Lemma peek_at (fl : SFRAME_LIST) (iter : option nat) : let pos := iter_pos iter in
  let cur := last_end (fl_offset fl) (take pos (fl_frames fl)) in
  fl_ok fl -> (pos <= length (fl_frames fl))%nat ->
  ossl_sframe_list_peek fl iter =
  match drop pos (fl_frames fl) with
  | [] => (false, mkPeek None (mkRange cur cur) None (fl_fin fl))
  | f :: rest =>
      if cur <? f_start f then (false, mkPeek None (mkRange cur cur) None false)
      else (true, mkPeek (Some pos) (mkRange cur (f_end f)) (drop (Z.to_nat (cur - f_start f)) <$> sf_data f)
                    (match rest with [] => fl_fin fl | _ => false end))
  end.
Proof.
  intros pos cur [H1 H2 H3] Hlen. unfold ossl_sframe_list_peek. fold (iter_pos iter). fold pos.
  assert (Hcur : match iter with None => fl_offset fl | Some i => match fl_frames fl !! i with Some f => f_end f | None => 0 end end = cur).
  { subst cur pos. destruct iter as [i|]; cbn [iter_pos] in *; [|done].
    destruct (fl_frames fl !! i) as [f|] eqn:E; [|apply lookup_ge_None in E; lia].
    rewrite (take_S_r _ _ _ E). unfold last_end. by rewrite last_snoc. }
  rewrite Hcur. pose proof (frames_from_suffix _ _ _ pos H2) as Hs. fold cur in Hs.
  rewrite !drop_lookup. destruct (drop pos (fl_frames fl)) as [|f rest] eqn:Ed; cbn [head]; [done|].
  destruct Hs as (_ & Hs & _). rewrite (proj2 (Z.ltb_lt cur (f_end f))) by done. cbn [negb orb]. rewrite orb_false_r.
  destruct (Z.ltb_spec cur (f_start f)); [done|]. do 2 f_equal.
  replace (drop (S pos) (fl_frames fl)) with rest; [by destruct rest|].
  by rewrite <- (Nat.add_1_r pos), <- drop_drop, Ed.
Qed.

Lemma take_next {A} (l : list A) (pos : nat) (x : A) (rest : list A) : drop pos l = x :: rest ->
  take (S pos) l = take pos l ++ [x] /\ drop (S pos) l = rest /\ (S pos <= length l)%nat.
Proof.
  intros Hd. assert (Hl : l !! pos = Some x) by (by rewrite drop_lookup, Hd). split_and!.
  - by apply take_S_r.
  - by rewrite <- (Nat.add_1_r pos), <- drop_drop, Hd.
  - apply lookup_lt_Some in Hl. lia.
Qed.

(** ** Reading *)

(** [n] bytes the ring buffer has, as the one or two runs of its memory they lie in. *)
Lemma ring_run (str : Z -> Z) (r : ring_buf) (start n : Z) (b : bytes) : 0 <= n <= zlen b ->
  (forall x, start <= x < start + n -> ring_has str r x) -> (forall j, 0 <= j < zlen b -> b !! Z.to_nat j = rb_at r (start + j)) ->
  slice_of str start (take (Z.to_nat n) b).
Proof.
  intros Hn Hh Hb j. rewrite zlen_take by done. intros Hj. rewrite lookup_take_lt by lia. rewrite Hb by lia. apply Hh. lia.
Qed.

Lemma copy_frame_spec (str : Z -> Z) (r : ring_buf) (off cur l : Z) (f : STREAM_FRAME) : ring_ok r -> f_end f <= MAX_OFFSET ->
  frame_good str (ring_has str r) off f -> 0 <= off <= cur -> f_start f <= cur -> 0 < l -> cur + l <= f_end f ->
  exists c, copy_frame r cur l (drop (Z.to_nat (cur - f_start f)) <$> sf_data f) = Some c /\ zlen c = l /\ slice_of str cur c.
Proof.
  intros Hr Hmax Hg Ho Hs Hl He. unfold frame_good in Hg. unfold copy_frame. destruct (sf_data f) as [d|]; cbn.
  { destruct Hg as [Hz Hsl]. eexists. split; [done|]. pose proof (zlen_drop (cur - f_start f) d ltac:(lia)).
    split; [apply zlen_take; lia|]. apply slice_take; [lia|]. pose proof (slice_drop str (f_start f) (cur - f_start f) d ltac:(lia) Hsl) as Hd.
    by replace (f_start f + (cur - f_start f)) with cur in Hd by lia. }
  assert (Hh : forall x, cur <= x < cur + l -> ring_has str r x) by (intros x Hx; apply Hg; lia). clear Hg.
  pose proof (Hh cur ltac:(lia)) as [Hc1 _]. pose proof (Hh (cur + l - 1) ltac:(lia)) as [Hc2 _]. pose proof Hr as [R1 R2 R3 R4].
  destruct (get_ptr_spec r cur Hr Hc1) as (b & -> & Hz & Hp & Hb). destruct (Z.ltb_spec (zlen b) l) as [Hlt|Hge].
  2:{ eexists. split; [done|]. split; [apply zlen_take; lia|]. eapply ring_run; eauto. lia. }
  rewrite add64_small by (unfold MAX_OFFSET in *; u64_side). rewrite sub64_small by (unfold MAX_OFFSET in *; u64_side).
  destruct (get_ptr_spec r (cur + zlen b) Hr ltac:(lia)) as (b2 & -> & Hz2 & Hp2 & Hb2).
  assert (Hmod : (cur + zlen b) mod rb_alloc r = 0).
  { rewrite Hz, Z.add_sub_assoc. replace (cur + rb_alloc r - cur mod rb_alloc r) with ((cur / rb_alloc r + 1) * rb_alloc r).
    - apply Z.mod_mul. lia.
    - pose proof (Z.div_mod cur (rb_alloc r) ltac:(lia)). nia. }
  rewrite (proj2 (Z.ltb_lt (l - zlen b) (zlen b2))) by lia. cbn [negb]. eexists. split; [done|]. split.
  - rewrite zlen_app, zlen_take by lia. lia.
  - apply slice_app.
    + rewrite <- (take_ge b (Z.to_nat (zlen b))) by (unfold zlen; lia). eapply ring_run; eauto; [lia|]. intros x Hx. apply Hh. lia.
    + eapply ring_run; [lia| |exact Hb2]. intros x Hx. apply Hh. lia.
Qed.

(** What a loop over the frames from [cur] on gives: as many bytes as asked for and received
    without a gap, and [fin] when no frame is left after them. *)
Record read_gives (str : Z -> Z) (fl : SFRAME_LIST) (cur size : Z) (fs : list STREAM_FRAME) (data : bytes) (fin : bool) : Prop := {
  rg_len : zlen data = Z.min size (run_end cur fs - cur);
  rg_data : slice_of str cur data;
  rg_fin : fin = fl_fin fl && (cur + zlen data =? last_end cur fs) }.

Lemma read_gives_nil (str : Z -> Z) (fl : SFRAME_LIST) (cur size : Z) (fs : list STREAM_FRAME) (fin : bool) :
  run_end cur fs = cur \/ size = 0 -> cur <= run_end cur fs -> 0 <= size -> fin = fl_fin fl && (cur =? last_end cur fs) ->
  read_gives str fl cur size fs [] fin.
Proof.
  intros Hr Hle Hs ->. split; change (zlen (@nil Z)) with 0; [lia|apply slice_nil|by rewrite Z.add_0_r].
Qed.

Section ReadLoop.
Context (str : Z -> Z) (q : QUIC_RSTREAM) (Hinv : rs_inv str q).

(** The position of an iterator: the offset reached, and the frames after it. *)
Definition at_iter (iter : option nat) (cur : Z) (fs : list STREAM_FRAME) : Prop :=
  (iter_pos iter <= length (fl_frames (rs_fl q)))%nat /\
  cur = last_end (fl_offset (rs_fl q)) (take (iter_pos iter) (fl_frames (rs_fl q))) /\
  fs = drop (iter_pos iter) (fl_frames (rs_fl q)).

Lemma at_iter_facts (iter : option nat) (cur : Z) (fs : list STREAM_FRAME) : at_iter iter cur fs ->
  frames_from 0 cur fs /\ fl_offset (rs_fl q) <= cur /\ last_end cur fs <= MAX_OFFSET /\ last_end cur fs = fl_top (rs_fl q) /\
  (forall f, f ∈ fs -> f ∈ fl_frames (rs_fl q)).
Proof.
  intros (Hp & -> & ->). destruct Hinv as [[H1 H2 H3] Htop _ _ _ _]. rewrite <- last_end_app, take_drop. split_and!; auto.
  - pose proof (frames_from_suffix _ _ _ (iter_pos iter) H2) as Hs. eapply frames_from_weaken; [| |exact Hs]; [|lia].
    rewrite <- (take_drop (iter_pos iter) (fl_frames (rs_fl q))) in H2. apply frames_from_app in H2 as [H2 _]. apply frames_from_last in H2. lia.
  - rewrite <- (take_drop (iter_pos iter) (fl_frames (rs_fl q))) in H2. apply frames_from_app in H2 as [H2 _]. apply frames_from_last in H2. lia.
  - intros f Hf. rewrite <- (take_drop (iter_pos iter)). apply elem_of_app. by right.
Qed.

Lemma at_iter_next (iter : option nat) (cur : Z) (f : STREAM_FRAME) (rest : list STREAM_FRAME) : at_iter iter cur (f :: rest) ->
  at_iter (Some (iter_pos iter)) (f_end f) rest.
Proof.
  intros (Hp & -> & Hd). symmetry in Hd. apply take_next in Hd as (T1 & T2 & T3). unfold at_iter. cbn [iter_pos].
  rewrite T1, T2. split_and!; auto. unfold last_end. by rewrite last_snoc.
Qed.

Lemma at_iter_peek (iter : option nat) (cur : Z) (fs : list STREAM_FRAME) : at_iter iter cur fs ->
  ossl_sframe_list_peek (rs_fl q) iter =
  match fs with
  | [] => (false, mkPeek None (mkRange cur cur) None (fl_fin (rs_fl q)))
  | f :: rest =>
      if cur <? f_start f then (false, mkPeek None (mkRange cur cur) None false)
      else (true, mkPeek (Some (iter_pos iter)) (mkRange cur (f_end f)) (drop (Z.to_nat (cur - f_start f)) <$> sf_data f)
                    (match rest with [] => fl_fin (rs_fl q) | _ => false end))
  end.
Proof. intros (Hp & -> & ->). apply peek_at; [by destruct Hinv|done]. Qed.

Lemma read_loop_spec (fuel : nat) : forall iter size out offset cur fs,
  at_iter iter cur fs -> (length fs < fuel)%nat -> 0 <= size < U64_MOD ->
  exists data fin, read_loop fuel q iter size out offset =
      Some (out ++ data, if (run_end cur fs =? cur) then offset else cur + zlen data, fin) /\
    read_gives str (rs_fl q) cur size fs data fin.
Proof.
  induction fuel as [|fuel IH]; intros iter size out offset cur fs Hat Hf Hsz; [lia|]. cbn [read_loop].
  rewrite (at_iter_peek _ _ _ Hat). destruct (at_iter_facts _ _ _ Hat) as (Hs & Hc0 & Hmax & Htop & Hin).
  destruct (run_end_spec _ _ _ Hs) as (Hrun & _ & _). destruct Hinv as [[Hoff _ _] _ Hr _ Hg _].
  destruct fs as [|f rest]; cbn [negb run_end pk_fin] in *.
  { exists [], (fl_fin (rs_fl q)). rewrite Z.eqb_refl, app_nil_r. split; [done|]. apply read_gives_nil; [by left|cbn [run_end]; lia|lia|].
    cbn. by rewrite Z.eqb_refl, andb_true_r. }
  destruct Hs as (S1 & S2 & S3 & S4). rewrite last_end_cons in *. pose proof (frames_from_last _ _ _ S4) as [_ S5].
  destruct (Z.ltb_spec cur (f_start f)) as [Hgap|Hno]; cbn [negb pk_range pk_fin pk_data pk_iter r_start r_end].
  { exists [], false. rewrite Z.eqb_refl, app_nil_r. split; [done|].
    apply read_gives_nil; [left; cbn; by rewrite (proj2 (Z.ltb_lt _ _)) by done|cbn [run_end]; rewrite (proj2 (Z.ltb_lt _ _)) by done; lia|lia|].
    rewrite last_end_cons, (proj2 (Z.eqb_neq _ _)) by lia. by rewrite andb_false_r. }
  pose proof (run_end_spec _ _ _ S4) as (Hrun2 & _ & _).
  rewrite sub64_small by (unfold MAX_OFFSET in *; u64_side). rewrite (proj2 (Z.eqb_neq (run_end (f_end f) rest) cur)) by lia.
  set (l := if size <? f_end f - cur then size else f_end f - cur).
  assert (Hl : l = Z.min size (f_end f - cur)) by (subst l; bdestruct_all; lia).
  set (pr := if size <? f_end f - cur then (size, false) else _).
  assert (Hpr : pr = (l, (match rest with [] => fl_fin (rs_fl q) | _ => false end) && negb (size <? f_end f - cur))).
  { subst pr l. destruct (size <? f_end f - cur); cbn [negb]; by rewrite ?andb_false_r, ?andb_true_r. }
  rewrite Hpr. clear pr Hpr. clearbody l. rewrite (add64_small cur) by (unfold MAX_OFFSET in *; u64_side).
  destruct (Z.eqb_spec l 0) as [Hl0|Hlp].
  { exists [], false. rewrite app_nil_r. change (zlen (@nil Z)) with 0. rewrite Hl0, (proj2 (Z.ltb_lt size _)), andb_false_r by lia.
    split; [done|]. apply read_gives_nil; cbn [run_end]; rewrite ?(proj2 (Z.ltb_ge cur _)) by done; [right; lia|lia|lia|].
    rewrite last_end_cons, (proj2 (Z.eqb_neq _ _)) by lia. by rewrite andb_false_r. }
  destruct (copy_frame_spec str (rs_rbuf q) (fl_offset (rs_fl q)) cur l f) as (c & -> & Hcl & Hcs); auto; try lia.
  { apply Hg, Hin, elem_of_cons. by left. }
  rewrite (sub64_small size) by lia. destruct (Z.eqb_spec (size - l) 0) as [Hdone|Hmore].
  - exists c. eexists. rewrite Hcl. split; [done|]. split; [|done|]; cbn [run_end].
    + rewrite (proj2 (Z.ltb_ge cur _)) by done. lia.
    + rewrite last_end_cons, Hcl. destruct (Z.ltb_spec size (f_end f - cur)); cbn [negb].
      * rewrite (proj2 (Z.eqb_neq _ _)) by lia. by rewrite !andb_false_r.
      * rewrite andb_true_r. destruct rest as [|g rest']; [cbn; rewrite (proj2 (Z.eqb_eq _ _)) by lia; by rewrite andb_true_r|].
        rewrite last_end_cons in *. destruct S4 as (_ & S6 & _ & S7%frames_from_last).
        rewrite (proj2 (Z.eqb_neq _ _)) by lia. by rewrite andb_false_r.
  - destruct (IH (Some (iter_pos iter)) (size - l) (out ++ c) (cur + l) (f_end f) rest) as (data & fin & -> & [G1 G2 G3]);
      [by eapply at_iter_next|cbn in Hf; lia|lia|].
    assert (cur + l = f_end f) as He by lia. exists (c ++ data), fin. rewrite app_assoc, !zlen_app, Hcl. split.
    + do 3 f_equal. destruct (Z.eqb_spec (run_end (f_end f) rest) (f_end f)); lia.
    + split; [|apply slice_app; [done|by rewrite Hcl, He]|]; cbn [run_end].
      * rewrite (proj2 (Z.ltb_ge cur _)) by done. rewrite zlen_app. lia.
      * rewrite last_end_cons, zlen_app, Hcl, Z.add_assoc, He. exact G3.
Qed.

Lemma available_loop_spec (fuel : nat) : forall iter avail cur fs, at_iter iter cur fs -> (length fs < fuel)%nat ->
  0 <= avail -> avail + (last_end cur fs - cur) <= MAX_OFFSET ->
  available_loop fuel (rs_fl q) iter avail =
    Some (avail + (run_end cur fs - cur), fl_fin (rs_fl q) && (run_end cur fs =? last_end cur fs)).
Proof.
  induction fuel as [|fuel IH]; intros iter avail cur fs Hat Hf Ha Ham; [lia|]. cbn [available_loop].
  rewrite (at_iter_peek _ _ _ Hat). destruct (at_iter_facts _ _ _ Hat) as (Hs & Hc0 & Hmax & Htop & Hin).
  destruct Hinv as [[Hoff _ _] _ _ _ _ _]. destruct fs as [|f rest]; cbn [run_end pk_fin] in *.
  { cbn. by rewrite Z.eqb_refl, andb_true_r, Z.sub_diag, Z.add_0_r. }
  destruct Hs as (S1 & S2 & S3 & S4). rewrite last_end_cons in *. pose proof (frames_from_last _ _ _ S4) as [_ S5].
  destruct (Z.ltb_spec cur (f_start f)) as [Hgap|Hno]; cbn [pk_range pk_fin pk_iter r_start r_end].
  { rewrite (proj2 (Z.eqb_neq _ _)) by lia. by rewrite andb_false_r, Z.sub_diag, Z.add_0_r. }
  rewrite sub64_small by (unfold MAX_OFFSET in *; u64_side). rewrite add64_small by (unfold MAX_OFFSET in *; u64_side).
  rewrite (IH _ _ (f_end f) rest); [|by eapply at_iter_next|cbn in Hf; lia|lia|lia]. do 2 f_equal. lia.
Qed.
End ReadLoop.

(** ** What every operation does *)

(** The stream as the reader and the network see it: how far it was read, the bytes
    handed out, the offsets received, the highest end received, whether that is
    the end of the stream, and the record handed out last. *)
Record rspec := mkRspec {
  ra_off : Z; ra_out : bytes; ra_recv : Z -> Prop; ra_top : Z; ra_fin : bool; ra_rec : bytes }.
#[export] Instance eta_rspec : Eta rspec := fun p =>
  mkRspec (ra_off p) (ra_out p) (ra_recv p) (ra_top p) (ra_fin p) (ra_rec p).

Record rs_rel (str : Z -> Z) (q : QUIC_RSTREAM) (p : rspec) : Prop := {
  rr_inv : rs_inv str q;
  rr_off : ra_off p = fl_offset (rs_fl q);
  rr_len : zlen (ra_out p) = ra_off p;
  rr_out : slice_of str 0 (ra_out p);
  rr_recv : forall x, ra_off p <= x -> (covers (fl_frames (rs_fl q)) x <-> ra_recv p x);
  rr_top : ra_top p = fl_top (rs_fl q);
  rr_fin : ra_fin p = fl_fin (rs_fl q);
  rr_rec : fl_head_locked (rs_fl q) = true ->
    slice_of str (ra_off p) (ra_rec p) /\ zlen (ra_rec p) = r_end (rs_head_range q) - r_start (rs_head_range q) }.

(** The reader took the bytes [data]. *)
Definition spec_take (p : rspec) (data : bytes) : rspec :=
  p <| ra_off := ra_off p + zlen data |> <| ra_out := ra_out p ++ data |>.

(** A frame with the offsets from [start] to [end_] arrived. *)
Definition spec_recv (p : rspec) (start end_ : Z) (fin : bool) : rspec :=
  p <| ra_recv := fun x => ra_recv p x \/ start <= x < end_ |> <| ra_top := Z.max (ra_top p) end_ |> <| ra_fin := fin || ra_fin p |>.

(** Dropping the frames up to [limit] and popping the ring buffer. *)
Lemma consume_rel (str : Z -> Z) (q : QUIC_RSTREAM) (p : rspec) (fl : SFRAME_LIST) (r : ring_buf) (data : bytes) (rel : list Z) :
  let limit := ra_off p + zlen data in
  rs_rel str q p -> slice_of str (ra_off p) data -> limit <= ra_top p ->
  dropped_to (rs_fl q) fl limit rel ->
  r = (if 0 <? limit then ring_buf_cpop_range (rs_rbuf q) 0 (limit -u 1) (fl_cleanse fl) else rs_rbuf q) ->
  rs_rel str (q <| rs_fl := fl |> <| rs_rbuf := r |>) (spec_take p data).
Proof.
  intros limit Hrel Hs Hl [D1 D2 D3 D4 D5 D6 D7 D8 D9] Hr. pose proof Hrel as [Hinv R1 R2 R3 R4 R5 R6 R7].
  pose proof Hinv as [I1 I2 I3 I4 I5 I6]. pose proof (zlen_nonneg data) as Hz. pose proof I1 as [Ho0 _ _].
  assert (Hr' : ring_ok r /\ rb_ctail r = limit /\ forall x, limit <= x -> ring_has str (rs_rbuf q) x -> ring_has str r x).
  { subst r. destruct (Z.ltb_spec 0 limit) as [Hp|Hn].
    - rewrite sub64_small by (unfold MAX_OFFSET in *; u64_side).
      destruct (cpop_spec (rs_rbuf q) 0 (limit - 1) (fl_cleanse fl)) as (C1 & C2 & C3 & C4 & C5 & _); [done|lia..|].
      split_and!; [done|lia|]. intros x Hx [Hx1 Hx2]. split; [rewrite C3, C4; lia|]. rewrite C5 by lia. done.
    - split_and!; [done|lia|done]. }
  destruct Hr' as (Q1 & Q2 & Q3).
  split; cbn [rs_fl rs_rbuf rs_head_range ra_off ra_out ra_recv ra_top ra_fin ra_rec spec_take field_upd]; auto.
  - split; cbn [rs_fl rs_rbuf rs_head_range field_upd]; auto; try congruence.
    intros f Hf. rewrite D2. eapply frame_good_mono; [|exact Q3|apply I5; auto]. lia.
  - rewrite zlen_app. lia.
  - apply slice_app; [done|]. by rewrite R2, Z.add_0_l.
  - intros x Hx. rewrite D7 by lia. apply R4. lia.
  - congruence.
  - congruence.
  - rewrite D4. done.
Qed.

Lemma run_end_top (str : Z -> Z) (q : QUIC_RSTREAM) : rs_inv str q ->
  fl_offset (rs_fl q) <= run_end (fl_offset (rs_fl q)) (fl_frames (rs_fl q)) <= fl_top (rs_fl q).
Proof. intros [[_ H2 _] _ _ _ _ _]. by destruct (run_end_spec _ _ _ H2). Qed.

Definition contiguous (q : QUIC_RSTREAM) : Z := run_end (fl_offset (rs_fl q)) (fl_frames (rs_fl q)) - fl_offset (rs_fl q).

Lemma read_internal_spec (str : Z -> Z) (q : QUIC_RSTREAM) (size : Z) (drop : bool) : rs_inv str q -> 0 <= size < U64_MOD ->
  exists q' data fin rel, read_internal q size drop = (q', Some (data, fin), rel) /\
    zlen data = Z.min size (contiguous q) /\ slice_of str (fl_offset (rs_fl q)) data /\
    fin = fl_fin (rs_fl q) && (fl_offset (rs_fl q) + zlen data =? fl_top (rs_fl q)) /\
    (drop = false -> q' = q /\ rel = []) /\
    (drop = true -> forall p, rs_rel str q p -> rs_rel str q' (spec_take p data)).
Proof.
  intros Hinv Hs. pose proof (run_end_top str q Hinv) as Hrun. unfold read_internal.
  destruct (read_loop_spec str q Hinv (S (length (fl_frames (rs_fl q)))) None size [] 0 (fl_offset (rs_fl q)) (fl_frames (rs_fl q)))
    as (data & fin & -> & [G1 G2 G3]); [|lia|done|].
  { split_and!; cbn; [lia|done|by rewrite drop_0]. }
  rewrite app_nil_l. fold (fl_top (rs_fl q)) in G3. fold (contiguous q) in G1. pose proof (zlen_nonneg data) as Hz.
  set (off := if _ =? _ then _ else _).
  assert (Hnop : drop && negb (off =? 0) = false -> zlen data = 0 \/ drop = false).
  { intros [->|Hx]%andb_false_iff; [by right|left]. apply negb_false_iff, Z.eqb_eq in Hx. destruct Hinv as [[? _ _] _ _ _ _ _].
    subst off. unfold contiguous in *. destruct (Z.eqb_spec (run_end (fl_offset (rs_fl q)) (fl_frames (rs_fl q))) (fl_offset (rs_fl q))); lia. }
  destruct (drop && negb (off =? 0)) eqn:Ed.
  2:{ exists q, data, fin, []. split_and!; auto. intros -> p Hrel. destruct (Hnop eq_refl) as [H0|]; [|done].
      assert (data = []) as -> by (apply nil_length_inv; unfold zlen in *; lia). destruct p, Hrel. unfold spec_take. cbn in *.
      rewrite Z.add_0_r, app_nil_r. split; auto. }
  apply andb_true_iff in Ed as [-> Ed]. apply negb_true_iff, Z.eqb_neq in Ed.
  assert (Hoff : off = fl_offset (rs_fl q) + zlen data).
  { subst off. unfold contiguous in *. destruct (Z.eqb_spec (run_end (fl_offset (rs_fl q)) (fl_frames (rs_fl q))) (fl_offset (rs_fl q))); lia. }
  destruct (ossl_sframe_list_drop_frames (rs_fl q) off) as [[fl ok] rel] eqn:Hd. pose proof (ri_fl _ _ Hinv) as Hok.
  apply sframe_drop_spec in Hd as (Hd1 & _ & Hd2); [|done]. assert (ok = true) as -> by (apply Hd1; unfold contiguous in *; lia).
  do 4 eexists. split; [reflexivity|]. split_and!; auto; [done|]. intros _ p Hrel. pose proof (rr_off _ _ _ Hrel) as Hpo.
  eapply consume_rel; eauto; rewrite ?Hpo, <- ?Hoff; eauto.
  - rewrite (rr_top _ _ _ Hrel). unfold contiguous in *. lia.
  - rewrite (proj2 (Z.ltb_lt 0 off)); [done|]. destruct Hok. lia.
Qed.

Definition opt_len (data : option bytes) : Z := match data with Some d => zlen d | None => 0 end.
Definition opt_slice (str : Z -> Z) (off : Z) (data : option bytes) : Prop :=
  match data with Some d => slice_of str off d | None => True end.

Lemma rel_queue (str : Z -> Z) (alloc : bool) (q q' : QUIC_RSTREAM) (p : rspec) (pkt : option Z) (off : Z) (data : option bytes)
    (fin ok : bool) (rel : list Z) : rs_rel str q p -> 0 <= off -> off + opt_len data <= MAX_OFFSET -> opt_slice str off data ->
  ossl_quic_rstream_queue_data alloc q pkt off data (opt_len data) fin = (q', ok, rel) ->
  rs_rel str q' (if ok then spec_recv p off (off + opt_len data) fin else p) /\
  (alloc = true -> 0 < opt_len data \/ fin = true -> ok = true).
Proof.
  intros Hrel Ho Hm Hsl. pose proof Hrel as [Hinv R1 R2 R3 R4 R5 R6 R7]. pose proof Hinv as [I1 I2 I3 I4 I5 I6].
  unfold ossl_quic_rstream_queue_data. assert (0 <= opt_len data) by (destruct data; cbn; [apply zlen_nonneg|lia]).
  rewrite (add64_small off) by (unfold MAX_OFFSET in *; u64_side).
  destruct ((bool_decide (data = None) && negb (opt_len data =? 0)) || ((opt_len data =? 0) && negb fin)) eqn:E.
  { intros [= <- <- <-]. split; [done|]. intros _ Hpos. exfalso. apply orb_true_iff in E as [[E1 E2]%andb_true_iff|[E1 E2]%andb_true_iff].
    - apply bool_decide_eq_true in E1 as ->. done.
    - apply Z.eqb_eq in E1. destruct fin; [done|]. destruct Hpos; [lia|done]. }
  destruct (ossl_sframe_list_insert alloc (rs_fl q) (mkRange off (off + opt_len data)) pkt data fin) as [[fl ok'] rel'] eqn:Hi.
  apply sframe_insert_spec in Hi as (S1 & S2 & S3); [|done|cbn; lia]. intros [= <- <- <-].
  destruct ok'; [|split; [destruct (S2 eq_refl) as [-> _]; by destruct q|intros Ha; by specialize (S1 Ha)]].
  split; [|done]. destruct (S3 eq_refl) as [N1 N2 N3 N4 N5 N6 N7 N8 _].
  change (f_start (mkSf (mkRange off (off + opt_len data)) pkt data)) with off in *.
  change (f_end (mkSf (mkRange off (off + opt_len data)) pkt data)) with (off + opt_len data) in *.
  split; cbn [rs_fl rs_rbuf rs_head_range ra_off ra_out ra_recv ra_top ra_fin ra_rec spec_recv field_upd]; auto; try congruence.
  - split; cbn [rs_fl rs_rbuf rs_head_range field_upd]; auto; try congruence; [lia| |rewrite N2, N4, N6; intros Hl; specialize (I6 Hl); lia].
    intros f Hf. rewrite N2. destruct (N8 f Hf) as [Hin| ->]; [auto|]. unfold frame_good. cbn [sf_data].
    destruct data as [d|]; cbn in *; [split; [lia|done]|lia].
  - intros x Hx. rewrite N7 by lia. rewrite R4 by lia. done.
  - rewrite N4. done.
Qed.

Lemma rel_move (str : Z -> Z) (q q' : QUIC_RSTREAM) (p : rspec) (ok : bool) (rel : list Z) : rs_rel str q p ->
  ossl_quic_rstream_move_to_rbuf q = (q', ok, rel) -> rs_rel str q' p.
Proof.
  intros Hrel. pose proof Hrel as [Hinv R1 R2 R3 R4 R5 R6 R7]. pose proof Hinv as [I1 I2 I3 I4 I5 I6].
  unfold ossl_quic_rstream_move_to_rbuf. destruct (_ =? 0); [by intros [= <- _ _]|].
  destruct (ossl_sframe_list_move_data write_at_ring_buf_cb (rs_fl q) (rs_rbuf q)) as [[[r fl] ok'] rel'] eqn:Hm. intros [= <- _ _].
  apply (sframe_move_spec (S := ring_storage str (fl_offset (rs_fl q)))) in Hm as [[[M1 M1'] M2 M3 M4 M5 M6 M7 M8 M9 M10 M11] _]; auto; [|by split].
  split; cbn [rs_fl rs_rbuf rs_head_range field_upd]; auto; try congruence.
  - split; cbn [rs_fl rs_rbuf rs_head_range field_upd]; auto; try congruence; [by rewrite M4|rewrite M4, M6, M8; auto].
  - intros x Hx. rewrite M9. auto.
  - rewrite M6. done.
Qed.

Lemma rel_rs_resize (str : Z -> Z) (malloc : option bytes) (q q' : QUIC_RSTREAM) (p : rspec) (n : Z) (ok : bool) : rs_rel str q p ->
  0 <= n <= MAX_OFFSET -> (forall mem, malloc = Some mem -> zlen mem = n) ->
  ossl_quic_rstream_resize_rbuf malloc q n = (q', ok) -> rs_rel str q' p.
Proof.
  intros Hrel Hn Hm. pose proof Hrel as [Hinv R1 R2 R3 R4 R5 R6 R7]. pose proof Hinv as [I1 I2 I3 I4 I5 I6].
  unfold ossl_quic_rstream_resize_rbuf. destruct (ossl_sframe_list_is_head_locked (rs_fl q)); [by intros [= <- _]|].
  destruct (ring_buf_resize malloc (rs_rbuf q) n) as [r b] eqn:Hz. apply resize_spec in Hz as (_ & Z2 & _); auto.
  destruct b; [|by intros [= <- _]]. intros [= <- _]. destruct (Z2 eq_refl) as (Y1 & _ & Y3 & Y4 & Y5).
  split; cbn [rs_fl rs_rbuf rs_head_range field_upd]; auto. split; cbn [rs_fl rs_rbuf rs_head_range field_upd]; auto; [congruence|].
  intros f Hf. eapply frame_good_mono; [reflexivity| |apply I5; done]. intros x _ [Hx1 Hx2]. split; [lia|]. by rewrite Y5.
Qed.

Lemma rel_cleanse (str : Z -> Z) (q : QUIC_RSTREAM) (p : rspec) (b : bool) : rs_rel str q p ->
  rs_rel str (ossl_quic_rstream_set_cleanse q b) p.
Proof. intros [[I1 I2 I3 I4 I5 I6] R1 R2 R3 R4 R5 R6 R7]. destruct I1. split; auto. split; auto. by split. Qed.

Lemma rel_release (str : Z -> Z) (now : nat -> OSSL_TIME) (q q' : QUIC_RSTREAM) (p : rspec) (fc fc' : rxfc_ref) (statm : option OSSL_STATM)
    (read_len : Z) (ok : bool) (rel : list Z) (n n' : nat) : rs_rel str q p -> u64 read_len ->
  ossl_quic_rstream_release_record now q fc statm read_len n = (q', fc', ok, rel, n') ->
  let accepted := fl_head_locked (rs_fl q) && ((read_len <=? zlen (ra_rec p)) || (read_len =? SIZE_MAX)) in
  rs_rel str q' (if accepted then spec_take p (take (Z.to_nat read_len) (ra_rec p)) else p).
Proof.
  intros Hrel Hu. pose proof Hrel as [Hinv R1 R2 R3 R4 R5 R6 R7]. pose proof Hinv as [I1 I2 I3 I4 I5 I6]. pose proof I1 as [Ho0 _ _].
  unfold ossl_quic_rstream_release_record, ossl_sframe_list_is_head_locked.
  destruct (fl_head_locked (rs_fl q)) eqn:Hlk; cbn [negb andb]; [|by intros [= <- _ _ _ _]].
  specialize (R7 eq_refl) as [R7 R8]. specialize (I6 eq_refl) as [I6 I7]. pose proof (zlen_nonneg (ra_rec p)) as Hz.
  rewrite sub64_small by (unfold MAX_OFFSET in *; u64_side). rewrite <- R8.
  replace (zlen (ra_rec p) <? read_len) with (negb (read_len <=? zlen (ra_rec p))) by (symmetry; apply Z.ltb_antisym). rewrite <- negb_orb.
  destruct ((read_len <=? zlen (ra_rec p)) || (read_len =? SIZE_MAX)) eqn:Ea; cbn [negb]; [|by intros [= <- _ _ _ _]].
  set (d := take (Z.to_nat read_len) (ra_rec p)). set (off := if negb _ then _ else _).
  assert (Hoff : off = ra_off p + zlen d /\ zlen d <= zlen (ra_rec p) /\ slice_of str (ra_off p) d).
  { subst off d. destruct (Z.leb_spec read_len (zlen (ra_rec p))) as [Hle|Hgt]; cbn [negb orb] in *.
    - rewrite zlen_take by (unfold u64 in *; lia). rewrite add64_small by (unfold MAX_OFFSET, u64 in *; u64_side).
      split_and!; [lia|lia|apply slice_take; [unfold u64 in *; lia|done]].
    - rewrite take_ge by (unfold zlen in *; lia). split_and!; [lia|lia|done]. }
  clearbody off d. destruct Hoff as (-> & Hdl & Hds). pose proof (zlen_nonneg d) as Hdz.
  destruct (ossl_sframe_list_drop_frames (rs_fl q) (ra_off p + zlen d)) as [[fl b] rel'] eqn:Hd.
  apply sframe_drop_spec in Hd as (Hd1 & _ & Hd2); [|done]. assert (b = true) as -> by (apply Hd1; lia).
  destruct (retire now fc (ra_off p + zlen d) (get_rtt statm) n) as [[fc1 ok1] n1]. intros Hop.
  pose proof (f_equal (fun x => fst (fst (fst (fst x)))) Hop) as E. cbn [fst] in E. rewrite <- E. eapply consume_rel; eauto. lia.
Qed.

(** The bytes of the head frame from the reader's offset on, as one run of memory. *)
Lemma head_record (str : Z -> Z) (q : QUIC_RSTREAM) (f : STREAM_FRAME) : let off := fl_offset (rs_fl q) in let l := f_end f - off in
  rs_inv str q -> f ∈ fl_frames (rs_fl q) -> f_start f <= off -> 0 < l ->
  match drop (Z.to_nat (off - f_start f)) <$> sf_data f with
  | Some d => zlen (take (Z.to_nat l) d) = l /\ slice_of str off (take (Z.to_nat l) d)
  | None => exists d, ring_buf_get_ptr (rs_rbuf q) off = Some d /\ 0 < zlen d /\ slice_of str off (take (Z.to_nat (Z.min l (zlen d))) d)
  end.
Proof.
  intros off l Hinv Hin Hs Hl. pose proof Hinv as [I1 I2 I3 I4 I5 I6]. pose proof I1 as [O1 O2 _]. fold off in O1, I4.
  pose proof (frames_from_bounds _ _ _ f O2 Hin) as (_ & [_ Hmax] & _). fold (fl_top (rs_fl q)) in Hmax.
  specialize (I5 f Hin). fold off in I5. unfold frame_good in I5. destruct (sf_data f) as [d|] eqn:Hd; cbn.
  - destruct (copy_frame_spec str (rs_rbuf q) off off l f) as (c & Hc & C1 & C2); auto; try lia.
    { unfold frame_good. by rewrite Hd. }
    rewrite Hd in Hc. cbn in Hc. injection Hc as <-. done.
  - destruct (I5 off ltac:(lia)) as [Hh _].
    destruct (get_ptr_spec (rs_rbuf q) off I3 Hh) as (b & -> & _ & Hp & Hb). exists b. split_and!; auto.
    eapply ring_run; eauto; [lia|]. intros x Hx. apply I5. lia.
Qed.

Lemma rel_lock (str : Z -> Z) (q : QUIC_RSTREAM) (p : rspec) (range : UINT_RANGE) (rec : bytes) : rs_rel str q p ->
  r_start range = fl_offset (rs_fl q) -> r_start range < r_end range <= fl_top (rs_fl q) ->
  zlen rec = r_end range - r_start range -> slice_of str (ra_off p) rec ->
  rs_rel str (mkRstream ((rs_fl q) <| fl_head_locked := true |>) range (rs_rbuf q)) (p <| ra_rec := rec |>).
Proof.
  intros [[I1 I2 I3 I4 I5 I6] R1 R2 R3 R4 R5 R6 R7] Hs He Hz Hsl. destruct I1. split; auto. split; auto. by split.
Qed.

Lemma get_record_spec (str : Z -> Z) (q q' : QUIC_RSTREAM) (p : rspec) (ok : bool) (rec : option bytes) (len : Z) (fin : option bool) (rel : list Z) :
  rs_rel str q p -> ossl_quic_rstream_get_record q = (q', ok, rec, len, fin, rel) ->
  ok = true /\ rel = [] /\ len = opt_len rec /\
  rs_rel str q' (match rec with Some r => p <| ra_rec := r |> | None => p end) /\
  (rec = None <-> fl_head_locked (rs_fl q) = true \/ contiguous q = 0) /\
  (forall r, rec = Some r -> fl_head_locked (rs_fl q') = true /\ 0 < zlen r <= contiguous q /\ slice_of str (ra_off p) r).
Proof.
  intros Hrel. pose proof Hrel as [Hinv R1 R2 R3 R4 R5 R6 R7]. unfold ossl_quic_rstream_get_record, ossl_sframe_list_lock_head.
  destruct (fl_head_locked (rs_fl q)) eqn:Hlk.
  { intros [= <- <- <- <- <- <-]. split_and!; auto; [by destruct q|split; auto|done]. }
  pose proof (run_end_top str q Hinv) as Hrun. pose proof Hinv as [I1 I2 I3 I4 I5 I6]. pose proof I1 as [O1 O2 _].
  rewrite (at_iter_peek str q Hinv None (fl_offset (rs_fl q)) (fl_frames (rs_fl q))) by (split_and!; cbn; [lia|done|by rewrite drop_0]).
  assert (Hun : forall range, rs_rel str (q <| rs_fl := rs_fl q |> <| rs_head_range := range |>) p).
  { intros range. split; auto; cbn [rs_fl field_upd]; [|by rewrite Hlk]. split; auto. cbn [rs_fl field_upd]. by rewrite Hlk. }
  assert (Hno : forall range b, contiguous q = 0 ->
    (q <| rs_fl := rs_fl q |> <| rs_head_range := range |>, true, None, 0, b, []) = (q', ok, rec, len, fin, rel) -> 
    ok = true /\ rel = [] /\ len = opt_len rec /\ rs_rel str q' (match rec with Some r => p <| ra_rec := r |> | None => p end) /\
    (rec = None <-> false = true \/ contiguous q = 0) /\
    (forall r, rec = Some r -> fl_head_locked (rs_fl q') = true /\ 0 < zlen r <= contiguous q /\ slice_of str (ra_off p) r)).
  { intros range b H0 [= <- <- <- <- <- <-]. split_and!; auto; [apply Hun|split; auto|done]. }
  unfold contiguous in Hno at 1. destruct (fl_frames (rs_fl q)) as [|f rest] eqn:Hfs; cbn [run_end] in *; [apply Hno; lia|].
  destruct (Z.ltb_spec (fl_offset (rs_fl q)) (f_start f)) as [Hgap|Hc]; [apply Hno; lia|]. clear Hno.
  cbn [pk_range pk_fin pk_data r_start r_end]. pose proof O2 as (_ & Hoe & _ & O3). pose proof (run_end_spec _ _ _ O3) as [Hre _].
  assert (Hcont : f_end f - fl_offset (rs_fl q) <= contiguous q).
  { unfold contiguous. rewrite Hfs. cbn [run_end]. rewrite (proj2 (Z.ltb_ge _ _)) by done. lia. }
  rewrite (proj2 (Z.eqb_neq (f_end f) (fl_offset (rs_fl q)))) by lia. cbn [andb negb].
  rewrite sub64_small by (unfold MAX_OFFSET in *; u64_side).
  pose proof (head_record str q f Hinv ltac:(rewrite Hfs; apply elem_of_cons; by left) Hc ltac:(lia)) as Hh. cbn zeta in Hh.
  assert (Hend : forall r range, r_start range = fl_offset (rs_fl q) -> r_end range = fl_offset (rs_fl q) + zlen r ->
     0 < zlen r <= f_end f - fl_offset (rs_fl q) -> slice_of str (fl_offset (rs_fl q)) r ->
     (mkRstream ((rs_fl q) <| fl_head_locked := true |>) range (rs_rbuf q), true, Some r, zlen r, Some (match rest with [] => fl_fin (rs_fl q) | _ => false end), [])
       = (q', ok, rec, len, fin, rel) ->
    ok = true /\ rel = [] /\ len = opt_len rec /\ rs_rel str q' (match rec with Some r => p <| ra_rec := r |> | None => p end) /\
    (rec = None <-> false = true \/ contiguous q = 0) /\
    (forall r, rec = Some r -> fl_head_locked (rs_fl q') = true /\ 0 < zlen r <= contiguous q /\ slice_of str (ra_off p) r)).
  { intros r range E1 E2 Hz Hsl [= <- <- <- <- <- <-]. split_and!; auto.
    - apply rel_lock; auto; [lia|lia|by rewrite R1].
    - split; [done|lia].
    - intros r' [= <-]. split_and!; [done|lia|lia|by rewrite R1]. }
  destruct (drop _ <$> sf_data f) as [d|].
  - destruct Hh as [Hz Hsl]. rewrite <- Hz at 2. apply Hend; cbn [r_start r_end]; auto; cbn; lia.
  - destruct Hh as (d & Hp & Hz & Hsl). rewrite (proj2 (Z.eqb_neq _ 0)) by lia. cbn [rs_rbuf field_upd]. rewrite Hp.
    destruct (Z.ltb_spec (zlen d) (f_end f - fl_offset (rs_fl q))) as [Hlt|Hge].
    + rewrite Z.min_r, take_ge in Hsl by (unfold zlen in *; lia). rewrite add64_small by (unfold MAX_OFFSET in *; u64_side).
      apply Hend; cbn [r_start r_end]; auto; cbn; lia.
    + rewrite Z.min_l in Hsl by lia. pose proof (zlen_take (f_end f - fl_offset (rs_fl q)) d ltac:(lia)) as Hzt.
      rewrite <- Hzt at 2. apply Hend; cbn [r_start r_end]; rewrite ?Hzt; auto; cbn; lia.
Qed.

(** ** Histories of a stream *)

Section Histories.
Context (now : nat -> OSSL_TIME) (str : Z -> Z).

Inductive rs_op :=
| RQueue (alloc : bool) (pkt : option Z) (off : Z) (data : option bytes) (fin : bool)
| RRead (fc : rxfc_ref) (statm : option OSSL_STATM) (size : Z) (n : nat)
| RGetRecord
| RReleaseRecord (fc : rxfc_ref) (statm : option OSSL_STATM) (read_len : Z) (n : nat)
| RMove
| RResize (malloc : option bytes) (num_bytes : Z)
| RCleanse (cleanse : bool).

Definition rs_do (st : QUIC_RSTREAM * rspec) (op : rs_op) : QUIC_RSTREAM * rspec :=
  let '(q, p) := st in
  match op with
  | RQueue alloc pkt off data fin =>
      let '(q', ok, _) := ossl_quic_rstream_queue_data alloc q pkt off data (opt_len data) fin in
      (q', if ok then spec_recv p off (off + opt_len data) fin else p)
  | RRead fc statm size n =>
      let '(q', _, _, res, _, _) := ossl_quic_rstream_read now q fc statm size n in
      (q', match res with Some (data, _) => spec_take p data | None => p end)
  | RGetRecord =>
      let '(q', _, rec, _, _, _) := ossl_quic_rstream_get_record q in
      (q', match rec with Some r => p <| ra_rec := r |> | None => p end)
  | RReleaseRecord fc statm read_len n =>
      let '(q', _, _, _, _) := ossl_quic_rstream_release_record now q fc statm read_len n in
      (q', if fl_head_locked (rs_fl q) && ((read_len <=? zlen (ra_rec p)) || (read_len =? SIZE_MAX))
           then spec_take p (take (Z.to_nat read_len) (ra_rec p)) else p)
  | RMove => let '(q', _, _) := ossl_quic_rstream_move_to_rbuf q in (q', p)
  | RResize malloc n => let '(q', _) := ossl_quic_rstream_resize_rbuf malloc q n in (q', p)
  | RCleanse b => (ossl_quic_rstream_set_cleanse q b, p)
  end.

(** The frames carry the bytes of the stream [str]; offsets stay below the limit of the
    protocol, as the frame decoder ensures. *)
Definition rs_op_ok (op : rs_op) : Prop :=
  match op with
  | RQueue _ _ off data _ => 0 <= off /\ off + opt_len data <= MAX_OFFSET /\ opt_slice str off data
  | RRead _ _ size _ => 0 <= size < U64_MOD
  | RReleaseRecord _ _ read_len _ => u64 read_len
  | RResize malloc n => 0 <= n <= MAX_OFFSET /\ forall mem, malloc = Some mem -> zlen mem = n
  | _ => True
  end.

Definition rspec_new : rspec := mkRspec 0 [] (fun _ => False) 0 false [].

Inductive rs_reach : QUIC_RSTREAM -> rspec -> Prop :=
| rs_reach_new (malloc : option bytes) (size : Z) (q : QUIC_RSTREAM) :
    0 <= size <= MAX_OFFSET -> (forall mem, malloc = Some mem -> zlen mem = size) ->
    ossl_quic_rstream_new malloc size = Some q -> rs_reach q rspec_new
| rs_reach_op (q : QUIC_RSTREAM) (p : rspec) (op : rs_op) :
    rs_reach q p -> rs_op_ok op -> rs_reach (fst (rs_do (q, p) op)) (snd (rs_do (q, p) op)).

Lemma rel_rs_new (malloc : option bytes) (size : Z) (q : QUIC_RSTREAM) : 0 <= size <= MAX_OFFSET ->
  (forall mem, malloc = Some mem -> zlen mem = size) -> ossl_quic_rstream_new malloc size = Some q -> rs_rel str q rspec_new.
Proof.
  intros Hs Hm Hn. unfold ossl_quic_rstream_new in Hn. destruct (ring_buf_resize malloc ring_buf_init size) as [r b] eqn:Hz.
  assert (ring_ok ring_buf_init) as H0 by (split; unfold rb_alloc, MAX_OFFSET, zlen; cbn; lia).
  apply resize_spec in Hz as (_ & Z2 & _); auto. destruct b; [|done]. injection Hn as <-.
  destruct (Z2 eq_refl) as (Y1 & _ & Y3 & Y4 & Y5). cbn in Y3, Y4.
  split; cbn; auto using slice_nil; try done; [|intros x _; split; [by intros ?%covers_nil|done]].
  split; cbn; auto; try done. by intros f ?%not_elem_of_nil.
Qed.

Lemma read_spec (q : QUIC_RSTREAM) (p : rspec) (fc : rxfc_ref) (statm : option OSSL_STATM) (size : Z) (n : nat) :
  rs_rel str q p -> 0 <= size < U64_MOD ->
  exists q' fc' ok data fin rel n', ossl_quic_rstream_read now q fc statm size n = (q', fc', ok, Some (data, fin), rel, n') /\
    ossl_quic_rstream_peek q size = Some (data, fin) /\ (fc = None -> ok = true) /\
    rs_rel str q' (spec_take p data) /\ zlen data = Z.min size (contiguous q) /\ slice_of str (ra_off p) data /\
    fin = ra_fin p && (ra_off p + zlen data =? ra_top p).
Proof.
  intros Hrel Hs. pose proof Hrel as [Hinv R1 _ _ _ R5 R6 _]. unfold ossl_quic_rstream_read, ossl_quic_rstream_peek.
  destruct (read_internal_spec str q size true Hinv Hs) as (q' & data & fin & rel & -> & D1 & D2 & D3 & _ & D5).
  destruct (read_internal_spec str q size false Hinv Hs) as (q2 & data2 & fin2 & rel2 & -> & E1 & E2 & E3 & _ & _).
  assert (data2 = data) as -> by (eapply slice_unique; eauto; lia). rewrite <- D3 in E3. subst fin2.
  destruct (retire now fc (zlen data) (get_rtt statm) n) as [[fc' ok] n'] eqn:Hret.
  do 7 eexists. split; [reflexivity|]. rewrite R1, R5, R6.
  split_and!; auto. intros ->. unfold retire in Hret. congruence.
Qed.

Lemma rs_do_rel (q : QUIC_RSTREAM) (p : rspec) (op : rs_op) : rs_rel str q p -> rs_op_ok op ->
  rs_rel str (fst (rs_do (q, p) op)) (snd (rs_do (q, p) op)).
Proof.
  intros Hr Hok. destruct op as [alloc pkt off data fin|fc statm size n| |fc statm len n| |malloc n|b]; cbn [rs_do rs_op_ok] in *.
  - destruct (ossl_quic_rstream_queue_data _ _ _ _ _ _ _) as [[q' ok] rel] eqn:E. destruct Hok as (O1 & O2 & O3).
    by apply (rel_queue str) with (p := p) in E as [? _].
  - destruct (read_spec q p fc statm size n Hr Hok) as (q' & fc' & ok & data & fin & rel & n' & -> & _ & _ & ? & _). done.
  - destruct (ossl_quic_rstream_get_record q) as [[[[[q' ok] rec] len] fin] rel] eqn:E.
    by apply (get_record_spec str) with (p := p) in E as (_ & _ & _ & ? & _).
  - destruct (ossl_quic_rstream_release_record now q fc statm len n) as [[[[q' fc'] ok] rel] n'] eqn:E.
    exact (rel_release str now _ _ p _ _ _ _ _ _ _ _ Hr Hok E).
  - destruct (ossl_quic_rstream_move_to_rbuf q) as [[q' ok] rel] eqn:E. by eapply rel_move.
  - destruct (ossl_quic_rstream_resize_rbuf malloc q n) as [q' ok] eqn:E. destruct Hok. by eapply rel_rs_resize; [| | |exact E].
  - by apply rel_cleanse.
Qed.

Lemma rs_reach_rel (q : QUIC_RSTREAM) (p : rspec) : rs_reach q p -> rs_rel str q p.
Proof. induction 1 as [malloc size q Hs Hm Hn|q p op _ IH Hok]; [by eapply rel_rs_new|by apply rs_do_rel]. Qed.

Lemma available_spec (q : QUIC_RSTREAM) (p : rspec) : rs_rel str q p ->
  ossl_quic_rstream_available q = Some (contiguous q, ra_fin p && (ra_off p + contiguous q =? ra_top p)) /\
  0 <= contiguous q /\ (forall x, ra_off p <= x < ra_off p + contiguous q -> ra_recv p x) /\ ~ ra_recv p (ra_off p + contiguous q).
Proof.
  intros [Hinv R1 R2 R3 R4 R5 R6 _]. pose proof (run_end_top str q Hinv) as Hrun. pose proof Hinv as [[O1 O2 _] I2 _ _ _ _].
  destruct (run_end_spec _ _ _ O2) as (_ & C1 & C2). unfold ossl_quic_rstream_available.
  rewrite (available_loop_spec str q Hinv _ None 0 (fl_offset (rs_fl q)) (fl_frames (rs_fl q)));
    [|split_and!; cbn; [lia|done|by rewrite drop_0]|lia|lia|fold (fl_top (rs_fl q)); lia].
  assert (He : ra_off p + contiguous q = run_end (fl_offset (rs_fl q)) (fl_frames (rs_fl q))) by (unfold contiguous; lia).
  rewrite He, Z.add_0_l, R5, R6. split_and!; [done|unfold contiguous; lia|..].
  - intros x Hx. apply R4; [lia|]. apply C1. lia.
  - intros Hx. apply R4 in Hx; [done|lia].
Qed.
End Histories.

(** ** Properties *)

(** C8.  In-order delivery: for every history of frames (in any order, overlapping, repeated or
    lost for lack of memory), reads, records and moves to the ring buffer, the
    bytes handed to the reader are the stream from offset 0 up to the reader's
    offset, each once; and the bytes said to be available are those received
    after that offset up to the first one that is missing, with [fin] exactly
    when they reach the end of the stream. *)
Theorem rstream_refines (now : nat -> OSSL_TIME) (str : Z -> Z) (q : QUIC_RSTREAM) (p : rspec) : rs_reach now str q p ->
  fl_offset (rs_fl q) = ra_off p /\ zlen (ra_out p) = ra_off p /\ slice_of str 0 (ra_out p) /\
  exists n, ossl_quic_rstream_available q = Some (n, ra_fin p && (ra_off p + n =? ra_top p)) /\
    0 <= n /\ (forall x, ra_off p <= x < ra_off p + n -> ra_recv p x) /\ ~ ra_recv p (ra_off p + n).
Proof.
  intros Hr%rs_reach_rel. pose proof (available_spec str q p Hr) as Ha. destruct Hr. split_and!; auto. eauto.
Qed.

(** C33.  A read returns as many bytes as it is asked for, or all that are available when
    these are fewer: the next bytes of the stream, the same a peek returns; it
    never fails when the stream has no flow controller, and says [fin] exactly
    when it has read the last byte.  A record is a non-empty run of the same bytes,
    given whenever one is available and none is held. *)
Theorem rstream_read_exact (now : nat -> OSSL_TIME) (str : Z -> Z) (q : QUIC_RSTREAM) (p : rspec) (fc : rxfc_ref)
    (statm : option OSSL_STATM) (size avail : Z) (fin0 : bool) (n : nat) :
  rs_reach now str q p -> 0 <= size < U64_MOD -> ossl_quic_rstream_available q = Some (avail, fin0) ->
  (exists q' fc' ok data fin rel n', ossl_quic_rstream_read now q fc statm size n = (q', fc', ok, Some (data, fin), rel, n') /\
    ossl_quic_rstream_peek q size = Some (data, fin) /\ (fc = None -> ok = true) /\
    zlen data = Z.min size avail /\ slice_of str (ra_off p) data /\ fin = ra_fin p && (ra_off p + zlen data =? ra_top p) /\
    fl_offset (rs_fl q') = ra_off p + zlen data) /\
  (exists q' rec len fin, ossl_quic_rstream_get_record q = (q', true, rec, len, fin, []) /\
    (rec = None <-> fl_head_locked (rs_fl q) = true \/ avail = 0) /\
    (forall r, rec = Some r -> len = zlen r /\ 0 < len <= avail /\ slice_of str (ra_off p) r)).
Proof.
  intros Hr%rs_reach_rel Hs Ha. destruct (available_spec str q p Hr) as (Ha' & _). rewrite Ha' in Ha. injection Ha as <- _. split.
  - destruct (read_spec now str q p fc statm size n Hr Hs) as (q' & fc' & ok & data & fin & rel & n' & E & P1 & P2 & P3 & P4 & P5 & P6).
    exists q', fc', ok, data, fin, rel, n'. split_and!; auto. symmetry. apply P3.
  - destruct (ossl_quic_rstream_get_record q) as [[[[[q' ok] rec] len] fin] rel] eqn:E.
    apply (get_record_spec str) with (p := p) in E as (-> & -> & -> & _ & G1 & G2); [|done].
    exists q', rec, (opt_len rec), fin. split_and!; auto; [apply G1..|]. intros r ->. destruct (G2 r eq_refl) as (_ & ? & ?). done.
Qed.

(** *** Reassembly *)

(** Queues the frames [(offset, data, fin)] in their order of arrival. *)
Definition queue_all (q : QUIC_RSTREAM) (frames : list (Z * bytes * bool)) : QUIC_RSTREAM :=
  foldl (fun q '(off, d, fin) => fst (fst (ossl_quic_rstream_queue_data true q None off (Some d) (zlen d) fin))) q frames.

Definition frame_end (fr : Z * bytes * bool) : Z := fst (fst fr) + zlen (snd (fst fr)).

Lemma queue_all_rel (str : Z -> Z) (frames : list (Z * bytes * bool)) : forall q p, rs_rel str q p ->
  (forall fr, fr ∈ frames -> 0 <= fst (fst fr) /\ frame_end fr <= MAX_OFFSET /\ slice_of str (fst (fst fr)) (snd (fst fr))) ->
  exists p', rs_rel str (queue_all q frames) p' /\ ra_off p' = ra_off p /\
    (forall x, ra_recv p' x <-> ra_recv p x \/ exists fr, fr ∈ frames /\ fst (fst fr) <= x < frame_end fr) /\
    (forall N, ra_top p <= N -> (forall fr, fr ∈ frames -> frame_end fr <= N) -> ra_top p' <= N) /\
    (ra_fin p' = true <-> ra_fin p = true \/ exists fr, fr ∈ frames /\ snd fr = true).
Proof.
  induction frames as [|[[off d] fin] frames IH]; intros q p Hrel Hok; cbn [queue_all foldl].
  { exists p. split_and!; auto; [intros x|]; split; auto; intros [?|(fr & ?%not_elem_of_nil & _)]; done. }
  destruct (Hok (off, d, fin) ltac:(apply elem_of_cons; by left)) as (O1 & O2 & O3). unfold frame_end in O1, O2, O3. cbn [fst snd] in O1, O2, O3.
  pose proof (rel_queue str true q) as Hq. specialize (Hq) with (p := p) (pkt := None) (off := off) (data := Some d) (fin := fin).
  cbn [opt_len opt_slice] in Hq. destruct (ossl_quic_rstream_queue_data true q None off (Some d) (zlen d) fin) as [[q1 ok] rel].
  destruct (Hq q1 ok rel Hrel O1 O2 O3 eq_refl) as [Hq1 Hq2]. clear Hq. cbn [fst].
  destruct (IH q1 _ Hq1) as (p' & P1 & P2 & P3 & P4 & P5); [intros fr Hfr; apply Hok, elem_of_cons; by right|].
  pose proof (zlen_nonneg d) as Hz. exists p'. split; [done|].
  assert (Hno : ok = false -> zlen d = 0 /\ fin = false).
  { intros ->. destruct (Z.eq_dec (zlen d) 0); [|specialize (Hq2 eq_refl ltac:(left; lia)); done].
    split; [done|]. destruct fin; [|done]. specialize (Hq2 eq_refl ltac:(by right)). done. }
  destruct ok; cbn [spec_recv ra_off ra_recv ra_top ra_fin field_upd] in *.
  - split_and!; auto.
    + intros x. rewrite P3. setoid_rewrite elem_of_cons. split.
      * intros [[?|?]|(fr & ? & ?)]; [by left|right; exists (off, d, fin); auto|right; exists fr; auto].
      * intros [?|(fr & [->|?] & ?)]; [auto|left; by right|right; eauto].
    + intros N Hn Hfr. pose proof (Hfr (off, d, fin) ltac:(apply elem_of_cons; by left)) as Hf1. unfold frame_end in Hf1. cbn [fst snd] in Hf1.
      apply P4; [lia|]. intros fr Hin. apply Hfr, elem_of_cons. by right.
    + rewrite P5, orb_true_iff. setoid_rewrite elem_of_cons. split.
      * intros [[?|?]|(fr & ? & ?)]; [right; exists (off, d, fin); auto|by left|right; exists fr; auto].
      * intros [?|(fr & [->|?] & ?)]; [auto|left; by left|right; eauto].
  - destruct (Hno eq_refl) as [Hd Hfin]. split_and!; auto.
    + intros x. rewrite P3. setoid_rewrite elem_of_cons. split.
      * intros [?|(fr & ? & ?)]; [by left|right; exists fr; auto].
      * intros [?|(fr & [->|?] & ?)]; [by left|unfold frame_end in *; cbn [fst snd] in *; lia|right; eauto].
    + intros N Hn Hfr. apply P4; [done|]. intros fr Hin. apply Hfr, elem_of_cons. by right.
    + rewrite P5. setoid_rewrite elem_of_cons. split.
      * intros [?|(fr & ? & ?)]; [by left|right; exists fr; auto].
      * intros [?|(fr & [->|?] & ?)]; [by left|cbn in *; congruence|right; eauto].
Qed.

(** C22.  Reassembly: once the frames that arrived cover the whole stream, whatever
    their order, overlaps and repetitions, one read with a large enough
    buffer returns the whole stream and says that it is the end. *)
Theorem rstream_reassembles (now : nat -> OSSL_TIME) (str : Z -> Z) (malloc : option bytes) (rbuf_size N size : Z) (q0 : QUIC_RSTREAM)
    (frames : list (Z * bytes * bool)) (n : nat) :
  0 <= rbuf_size <= MAX_OFFSET -> (forall mem, malloc = Some mem -> zlen mem = rbuf_size) ->
  ossl_quic_rstream_new malloc rbuf_size = Some q0 -> 0 <= N <= MAX_OFFSET -> N <= size < U64_MOD ->
  (forall fr, fr ∈ frames -> 0 <= fst (fst fr) /\ frame_end fr <= N /\ slice_of str (fst (fst fr)) (snd (fst fr))) ->
  (forall x, 0 <= x < N -> exists fr, fr ∈ frames /\ fst (fst fr) <= x < frame_end fr) ->
  (exists fr, fr ∈ frames /\ snd fr = true) ->
  exists q' data rel n', ossl_quic_rstream_read now (queue_all q0 frames) None None size n = (q', None, true, Some (data, true), rel, n') /\
    zlen data = N /\ slice_of str 0 data.
Proof.
  intros Hb Hm Hn HN Hs Hfr Hcov Hfin. pose proof (rel_rs_new str malloc rbuf_size q0 Hb Hm Hn) as H0.
  destruct (queue_all_rel str frames q0 rspec_new H0) as (p & Hp & P1 & P2 & P3 & P4).
  { intros fr Hin. destruct (Hfr fr Hin) as (? & ? & ?). split_and!; auto. lia. }
  cbn [rspec_new ra_off ra_recv ra_top ra_fin] in *. set (q := queue_all q0 frames) in *.
  specialize (P3 N ltac:(lia) (fun fr H => proj1 (proj2 (Hfr fr H)))). destruct (available_spec str q p Hp) as (_ & C0 & C1 & C2).
  pose proof (run_end_top str q (rr_inv _ _ _ Hp)) as Hrun. pose proof (rr_top _ _ _ Hp) as Ht. pose proof (rr_off _ _ _ Hp) as Ho.
  assert (Hc : contiguous q = N).
  { destruct (Z.lt_trichotomy (contiguous q) N) as [Hlt|[?|Hgt]]; [|done|unfold contiguous in *; lia].
    destruct C2. apply P2. right. apply Hcov. lia. }
  destruct (read_spec now str q p None None size n Hp ltac:(lia)) as (q' & fc' & ok & data & fin & rel & n' & E & _ & P6 & _ & P7 & P8 & P9).
  rewrite P6 in E by done. exists q', data, rel, n'. rewrite Hc, Z.min_r in P7 by lia.
  assert (Hf : fin = true).
  { rewrite P9. rewrite (proj2 P4) by (right; done). apply Z.eqb_eq. unfold contiguous in *. lia. }
  assert (Hfc : fc' = None).
  { unfold ossl_quic_rstream_read in E. destruct (read_internal q size true) as [[? [[? ?]|]] ?]; cbn in E; congruence. }
  rewrite Hf, Hfc in E. split_and!; [done|done|by rewrite P1 in P8].
Qed.

(** ** A held record can lose its packet *)

(** While the reader holds the record of the head frame, the arrival of a frame that
    covers it frees the head frame: the packet the record points into is
    released, and the list still says that its head is locked. *)
Theorem rstream_locked_packet_released (q q' : QUIC_RSTREAM) (f : STREAM_FRAME) (rest : list STREAM_FRAME) (k off : Z) (pkt : option Z)
    (data : bytes) (fin ok : bool) (rel : list Z) :
  fl_ok (rs_fl q) -> fl_frames (rs_fl q) = f :: rest -> sf_pkt f = Some k -> fl_head_locked (rs_fl q) = true ->
  f_start f < f_end f -> 0 <= off <= f_start f -> f_end f <= off + zlen data < U64_MOD ->
  ossl_quic_rstream_queue_data true q pkt off (Some data) (zlen data) fin = (q', ok, rel) ->
  ok = true /\ k ∈ rel /\ fl_head_locked (rs_fl q') = true /\ (forall g, g ∈ fl_frames (rs_fl q') -> g ∈ rest \/ sf_pkt g = pkt).
Proof.
  intros Hok Hfs Hk Hlk Hne Ho He. pose proof Hok as [O1 O2 _]. rewrite Hfs in O2. destruct O2 as (F1 & F2 & F3 & F4).
  unfold ossl_quic_rstream_queue_data. rewrite bool_decide_eq_false_2 by done. rewrite (proj2 (Z.eqb_neq (zlen data) 0)) by lia. cbn [andb orb].
  rewrite add64_small by lia. destruct (ossl_sframe_list_insert true (rs_fl q) _ pkt (Some data) fin) as [[fl ok'] rel'] eqn:Hi.
  intros [= <- <- <-]. cbn [rs_fl field_upd]. pose proof Hi as Hi'. apply sframe_insert_spec in Hi' as (S1 & _ & S3); [|done|cbn; lia].
  specialize (S1 eq_refl) as ->. specialize (S3 eq_refl) as [_ _ _ N4 _ _ _ _ _].
  unfold ossl_sframe_list_insert in Hi. cbn [r_start r_end] in Hi. rewrite (proj2 (Z.leb_gt (off + zlen data) _)) in Hi by lia.
  rewrite Hfs in Hi. destruct (last (f :: rest)) as [t|] eqn:Hl; [|by apply last_None in Hl].
  assert (Hts : off <= f_start t).
  { apply last_elem, elem_of_cons in Hl as [->|Hin]; [lia|]. pose proof (frames_from_bounds _ _ _ t F4 Hin). lia. }
  rewrite (proj2 (Z.ltb_ge (f_start t) off)) in Hi by done. unfold insert_middle in Hi. rewrite Hfs in Hi. cbn [r_start r_end split_before] in Hi.
  rewrite (proj2 (Z.ltb_ge (f_start f) off)) in Hi by lia. cbn [last stream_frame_new drop_covered] in Hi.
  rewrite (proj2 (Z.leb_le (f_end f) (off + zlen data))) in Hi by lia.
  destruct (drop_covered (off + zlen data) rest) as [dropped next] eqn:Hd. pose proof (drop_covered_spec (off + zlen data) rest) as Hdr.
  rewrite Hd in Hdr. destruct Hdr as (Hrest & _).
  assert (Hnext : match next with [] => false | _ :: _ => false end = false) by (by destruct next). cbn [app] in Hi. rewrite Hnext in Hi.
  pose proof (f_equal fst (f_equal fst Hi)) as E1. pose proof (f_equal snd Hi) as E2. cbn [fst snd] in E1, E2.
  split_and!; [done| |congruence|].
  - rewrite <- E2. cbn. unfold stream_frame_free at 1. rewrite Hk. apply elem_of_cons. by left.
  - intros g. rewrite <- E1. cbn [insert_end fl_frames field_upd]. intros [->|Hin]%elem_of_cons; [by right|left].
    rewrite Hrest. apply elem_of_app. by right.
Qed.

(** ** Instances *)

(** A stream of the bytes 10, 11, 12, ...; its six bytes arrive out of order in overlapping frames. *)
Definition demo_str (x : Z) : Z := 10 + x.
Definition demo_frames : list (Z * bytes * bool) := [(3, [13; 14; 15], true); (0, [10; 11], false); (1, [11; 12; 13], false)].
Definition demo_rs0 : QUIC_RSTREAM := mkRstream ossl_sframe_list_init (mkRange 0 0) (mkRing [0; 0; 0; 0] 0 0).
Definition demo_rs_ops : list rs_op :=
  [RQueue true (Some 7) 1 (Some [11; 12; 13]) false; RMove; RQueue true (Some 8) 0 (Some [10; 11]) false;
   RRead None None 3 0%nat; RQueue true (Some 9) 3 (Some [13; 14; 15]) true; RGetRecord].
Definition demo_clock (_ : nat) : OSSL_TIME := 0.
Definition demo_rs (n : nat) : QUIC_RSTREAM * rspec := foldl (rs_do demo_clock) (demo_rs0, rspec_new) (take n demo_rs_ops).

Lemma slice_eval (str : Z -> Z) (off : Z) (data : bytes) :
  data = (fun i => str (off + Z.of_nat i)) <$> seq 0 (length data) -> slice_of str off data.
Proof.
  intros He j Hj. rewrite He. rewrite list_lookup_fmap, lookup_seq_lt by (unfold zlen in *; lia). cbn. do 2 f_equal. lia.
Qed.

Lemma demo_rs_step (n : nat) (op : rs_op) : demo_rs_ops !! n = Some op -> rs_reach demo_clock demo_str (fst (demo_rs n)) (snd (demo_rs n)) ->
  rs_op_ok demo_str op -> rs_reach demo_clock demo_str (fst (demo_rs (S n))) (snd (demo_rs (S n))).
Proof.
  intros Hop Hr Hok. unfold demo_rs. rewrite (take_S_r _ _ _ Hop), foldl_snoc. fold (demo_rs n).
  rewrite (surjective_pairing (demo_rs n)). by apply rs_reach_op.
Qed.

Lemma demo_queue_ok (pkt off : Z) (data : bytes) (fin : bool) : 0 <= off < 100 -> zlen data < 100 ->
  data = (fun i => demo_str (off + Z.of_nat i)) <$> seq 0 (length data) -> rs_op_ok demo_str (RQueue true (Some pkt) off (Some data) fin).
Proof. intros Ho Hz Hd. cbn. split_and!; [lia|unfold MAX_OFFSET; lia|by apply slice_eval]. Qed.

Lemma demo_rs_reach : rs_reach demo_clock demo_str (fst (demo_rs 5)) (snd (demo_rs 5)).
Proof.
  assert (rs_reach demo_clock demo_str (fst (demo_rs 0)) (snd (demo_rs 0))) as H0.
  { apply (rs_reach_new _ _ (Some [0; 0; 0; 0]) 4); [by vm_compute| |by vm_compute]. by intros mem [= <-]. }
  apply (demo_rs_step 4 (RQueue true (Some 9) 3 (Some [13; 14; 15]) true) eq_refl); [|by apply demo_queue_ok].
  apply (demo_rs_step 3 (RRead None None 3 0%nat) eq_refl); [|by vm_compute].
  apply (demo_rs_step 2 (RQueue true (Some 8) 0 (Some [10; 11]) false) eq_refl); [|by apply demo_queue_ok].
  apply (demo_rs_step 1 RMove eq_refl); [|done].
  apply (demo_rs_step 0 (RQueue true (Some 7) 1 (Some [11; 12; 13]) false) eq_refl); [done|by apply demo_queue_ok].
Qed.

Lemma rstream_refines_witness : ra_out (snd (demo_rs 5)) = [10; 11; 12] /\ slice_of demo_str 0 (ra_out (snd (demo_rs 5))).
Proof. split; [by vm_compute|]. apply (rstream_refines demo_clock demo_str _ _ demo_rs_reach). Defined.

Lemma rstream_read_exact_witness : ossl_quic_rstream_available (fst (demo_rs 5)) = Some (3, true) /\
  exists q' fc' ok data fin rel n', ossl_quic_rstream_read demo_clock (fst (demo_rs 5)) None None 2 0%nat = (q', fc', ok, Some (data, fin), rel, n') /\
    zlen data = 2 /\ slice_of demo_str 3 data.
Proof.
  assert (Ha : ossl_quic_rstream_available (fst (demo_rs 5)) = Some (3, true)) by (by vm_compute). split; [exact Ha|].
  destruct (rstream_read_exact demo_clock demo_str _ _ None None 2 3 true 0%nat demo_rs_reach ltac:(by vm_compute) Ha)
    as [(q' & fc' & ok & data & fin & rel & n' & E & _ & _ & Hz & Hs & _) _].
  exists q', fc', ok, data, fin, rel, n'. split; [exact E|]. split; [exact Hz|exact Hs].
Defined.

Lemma rstream_reassembles_witness : exists q' data rel n',
  ossl_quic_rstream_read demo_clock (queue_all demo_rs0 demo_frames) None None 10 0%nat = (q', None, true, Some (data, true), rel, n') /\
  zlen data = 6 /\ slice_of demo_str 0 data.
Proof.
  apply (rstream_reassembles demo_clock demo_str (Some [0; 0; 0; 0]) 4 6 10 demo_rs0 demo_frames 0%nat); try (by vm_compute).
  - by intros mem [= <-].
  - intros fr Hin. unfold demo_frames in Hin. rewrite !elem_of_cons in Hin.
    destruct Hin as [->|[->|[->|?%not_elem_of_nil]]]; [..|done]; (split; [by vm_compute|split; [by vm_compute|by apply slice_eval]]).
  - intros x Hx. destruct (Z.lt_ge_cases x 2); [exists (0, [10; 11], false)|destruct (Z.lt_ge_cases x 4); [exists (1, [11; 12; 13], false)|exists (3, [13; 14; 15], true)]];
      (split; [unfold demo_frames; rewrite !elem_of_cons; tauto|unfold frame_end, zlen; cbn; lia]).
  - exists (3, [13; 14; 15], true). split; [unfold demo_frames; rewrite !elem_of_cons; tauto|done].
Defined.

Definition demo_locked : QUIC_RSTREAM :=
  mkRstream (mkFl [mkSf (mkRange 0 2) (Some 7) (Some [10; 11])] false 1 0 true false) (mkRange 0 2) (mkRing [] 0 0).

Lemma rstream_locked_packet_released_witness :
  fst (rs_do demo_clock (fst (rs_do demo_clock (demo_rs0, rspec_new) (RQueue true (Some 7) 0 (Some [10; 11]) false)), rspec_new) RGetRecord)
    = demo_locked <| rs_rbuf := mkRing [0; 0; 0; 0] 0 0 |> /\
  exists q' ok rel, ossl_quic_rstream_queue_data true demo_locked (Some 8) 0 (Some [10; 11; 12]) 3 false = (q', ok, rel) /\ 7 ∈ rel.
Proof.
  split; [by vm_compute|].
  destruct (ossl_quic_rstream_queue_data true demo_locked (Some 8) 0 (Some [10; 11; 12]) 3 false) as [[q' ok] rel] eqn:E.
  exists q', ok, rel. split; [done|]. eapply (rstream_locked_packet_released demo_locked q' _ _ 7 0 (Some 8) [10; 11; 12] false ok rel);
    [|reflexivity|reflexivity|reflexivity|by vm_compute|by vm_compute|by vm_compute|exact E].
  split; [by vm_compute| |by vm_compute]. cbn. unfold f_start, f_end. cbn. lia.
Defined.
