(* ===== verification/WirePkt.v ===== *)
(** * Packet headers, packet numbers and header protection
    (ssl/quic/quic_wire_pkt.c, include/internal/quic_wire_pkt.h)

    A pointer into a packet buffer is its offset from the start of the packet;
    a data pointer a decoder returns is the bytes it designates, and NULL is
    [None].  Bit-field members of width one are [bool].  The cipher functions of
    the crypto library are parameters ([Section Protect], [Section Retry]). *)

From S2P Require Import Prelude UintSet OsslTime Packet Wire.

(** ** Packet types *)

Definition QUIC_VERSION_1 : Z := 1.
Definition QUIC_PKT_TYPE_INITIAL : Z := 1.
Definition QUIC_PKT_TYPE_0RTT : Z := 2.
Definition QUIC_PKT_TYPE_HANDSHAKE : Z := 3.
Definition QUIC_PKT_TYPE_RETRY : Z := 4.
Definition QUIC_PKT_TYPE_1RTT : Z := 5.
Definition QUIC_PKT_TYPE_VERSION_NEG : Z := 6.

Definition ossl_quic_pkt_type_is_encrypted (pkt_type : Z) : bool :=
  negb ((pkt_type =? QUIC_PKT_TYPE_RETRY) || (pkt_type =? QUIC_PKT_TYPE_VERSION_NEG)).
Definition ossl_quic_pkt_type_has_pn (pkt_type : Z) : bool := ossl_quic_pkt_type_is_encrypted pkt_type.
Definition ossl_quic_pkt_type_can_share_dgram (pkt_type : Z) : bool := ossl_quic_pkt_type_is_encrypted pkt_type.
Definition ossl_quic_pkt_type_must_be_last (pkt_type : Z) : bool :=
  negb (ossl_quic_pkt_type_can_share_dgram pkt_type) || (pkt_type =? QUIC_PKT_TYPE_1RTT).

Definition QUIC_MIN_VALID_PKT_LEN_CRYPTO : Z := 21.
Definition QUIC_MIN_VALID_PKT_LEN : Z := 7.
Definition QUIC_RETRY_INTEGRITY_TAG_LEN : Z := 16.

Record QUIC_PKT_HDR := mkPktHdr {
  ph_type : Z; ph_spin_bit : bool; ph_key_phase : bool; ph_pn_len : Z; ph_partial : bool; ph_fixed : bool;
  ph_unused : Z; ph_reserved : Z; ph_version : Z; ph_dst : QUIC_CONN_ID; ph_src : QUIC_CONN_ID;
  ph_pn : bytes; ph_token : option bytes; ph_token_len : Z; ph_len : Z; ph_data : option bytes }.
#[export] Instance eta_pkt_hdr : Eta QUIC_PKT_HDR := fun h =>
  mkPktHdr (ph_type h) (ph_spin_bit h) (ph_key_phase h) (ph_pn_len h) (ph_partial h) (ph_fixed h) (ph_unused h) (ph_reserved h)
    (ph_version h) (ph_dst h) (ph_src h) (ph_pn h) (ph_token h) (ph_token_len h) (ph_len h) (ph_data h).

(** [raw_start] is the origin of the offsets. *)
Record QUIC_PKT_HDR_PTRS := mkPtrs { raw_sample : option Z; raw_sample_len : Z; raw_pn : option Z }.

(** ** Header protection *)

Definition QUIC_HDR_PROT_CIPHER_AES_128 : Z := 1.
Definition QUIC_HDR_PROT_CIPHER_AES_256 : Z := 2.
Definition QUIC_HDR_PROT_CIPHER_CHACHA : Z := 3.

(** [mask[0] & (long header ? 0xf : 0x1f)]. *)
Definition first_byte_mask (first_byte m0 : Z) : Z :=
  Z.land m0 (if negb (Z.land first_byte 0x80 =? 0) then 0xf else 0x1f).

(** [pn_bytes[i] ^= mask[i + 1]] for the first [n] bytes. *)
Fixpoint xor_pn (n : nat) (pn_bytes mask : bytes) : bytes :=
  match n, pn_bytes, mask with
  | S n, b :: pn_bytes, m :: mask => Z.lxor b m :: xor_pn n pn_bytes mask
  | _, _, _ => pn_bytes
  end.

Section Protect.
(** The cipher with the header protection key: the block encryption of a block of
    the sample, and the ChaCha20 stream for a counter and nonce, applied to
    plain bytes; [None] when the library fails. *)
Context (cipher_id : Z) (EVP_aes_ecb : bytes -> option bytes) (EVP_chacha : bytes -> bytes -> option bytes).

Definition hdr_generate_mask (sample : bytes) : option bytes :=
  if (cipher_id =? QUIC_HDR_PROT_CIPHER_AES_128) || (cipher_id =? QUIC_HDR_PROT_CIPHER_AES_256) then
    if zlen sample <? 16 then None
    else match EVP_aes_ecb (take 16 sample) with Some dst => Some (take 5 dst) | None => None end
  else if cipher_id =? QUIC_HDR_PROT_CIPHER_CHACHA then
    if zlen sample <? 16 then None else EVP_chacha (take 16 sample) (replicate 5 0)
  else None.

(** The new first byte and packet number bytes; [None], with nothing changed, for a failure. *)
Definition ossl_quic_hdr_protector_decrypt_fields (sample : bytes) (first_byte : Z) (pn_bytes : bytes) : option (Z * bytes) :=
  match hdr_generate_mask sample with
  | None => None
  | Some mask =>
      let first_byte := Z.lxor first_byte (first_byte_mask first_byte (byte_at mask 0)) in
      let pn_len := Z.land first_byte 3 + 1 in
      Some (first_byte, xor_pn (Z.to_nat pn_len) pn_bytes (drop 1 mask))
  end.

Definition ossl_quic_hdr_protector_encrypt_fields (sample : bytes) (first_byte : Z) (pn_bytes : bytes) : option (Z * bytes) :=
  match hdr_generate_mask sample with
  | None => None
  | Some mask =>
      let pn_len := Z.land first_byte 3 + 1 in
      let pn_bytes := xor_pn (Z.to_nat pn_len) pn_bytes (drop 1 mask) in
      Some (Z.lxor first_byte (first_byte_mask first_byte (byte_at mask 0)), pn_bytes)
  end.

(** The two operations on a packet buffer, through the pointers of the header. *)
Definition protect_with (f : bytes -> Z -> bytes -> option (Z * bytes)) (pkt : bytes) (ptrs : QUIC_PKT_HDR_PTRS) : option bytes :=
  match raw_sample ptrs, raw_pn ptrs, pkt with
  | Some so, Some po, b0 :: _ =>
      let sample := take (Z.to_nat (raw_sample_len ptrs)) (drop (Z.to_nat so) pkt) in
      match f sample b0 (drop (Z.to_nat po) pkt) with
      | None => None
      | Some (b0', pn') => Some (b0' :: drop 1 (take (Z.to_nat po) pkt) ++ pn')
      end
  | _, _, _ => None
  end.

Definition ossl_quic_hdr_protector_decrypt : bytes -> QUIC_PKT_HDR_PTRS -> option bytes :=
  protect_with ossl_quic_hdr_protector_decrypt_fields.
Definition ossl_quic_hdr_protector_encrypt : bytes -> QUIC_PKT_HDR_PTRS -> option bytes :=
  protect_with ossl_quic_hdr_protector_encrypt_fields.
End Protect.

(** ** Decoding a header *)

Definition PACKET_get_net_4 : reader Z := fun pkt =>
  if zlen pkt <? 4 then None
  else
    let b := byte_at pkt in
    Some (Z.lor (Z.lor (Z.lor (Z.shiftl (b 0%nat) 24) (Z.shiftl (b 1%nat) 16)) (Z.shiftl (b 2%nat) 8)) (b 3%nat),
          packet_forward pkt 4).

Definition PACKET_data : reader bytes := fun pkt => Some (pkt, pkt).

(** [PACKET_copy_bytes(pkt, cid.id, len)] and [cid.id_len = len]. *)
Definition copy_cid (old : QUIC_CONN_ID) (len : Z) : reader QUIC_CONN_ID :=
  body ← PACKET_get_bytes len; mret (mkConnId len (body ++ drop (length body) (cid_id old))).

(** Skips or reads the packet number: the array [pn], which is cleared first. *)
Definition read_pn (partial : bool) (pn_len : Z) : reader bytes :=
  if partial then _ ← PACKET_forward 4; mret (replicate 4 0)
  else body ← PACKET_get_bytes pn_len; mret (body ++ replicate (4 - length body)%nat 0).

(** The header and the number of bytes left where the packet number starts, if any. *)
Definition decode_short_hdr (l b0 short_conn_id_len : Z) (partial : bool) (hdr : QUIC_PKT_HDR) : reader (QUIC_PKT_HDR * option Z) :=
  _ ← check (negb (QUIC_MAX_CONN_ID_LEN <? short_conn_id_len));
  _ ← check (negb ((Z.land b0 0x40 =? 0) || (l <? QUIC_MIN_VALID_PKT_LEN_CRYPTO)));
  let pn_len := if partial then 0 else Z.land b0 3 + 1 in
  dst ← copy_cid (ph_dst hdr) short_conn_id_len;
  at_pn ← PACKET_remaining;
  pn ← read_pn partial pn_len;
  len ← PACKET_remaining;
  data ← PACKET_data;
  _ ← PACKET_forward len;
  mret (mkPktHdr QUIC_PKT_TYPE_1RTT (negb (Z.land b0 0x20 =? 0))
          (if partial then false else negb (Z.land b0 0x04 =? 0)) pn_len partial true 0
          (if partial then 0 else Z.shiftr (Z.land b0 0x18) 3) 0 dst (mkConnId 0 (cid_id (ph_src hdr))) pn None 0 len
          (Some (take (Z.to_nat len) data)), Some at_pn).

Definition long_type (raw_type : Z) : Z :=
  if raw_type =? 0 then QUIC_PKT_TYPE_INITIAL else if raw_type =? 1 then QUIC_PKT_TYPE_0RTT
  else if raw_type =? 2 then QUIC_PKT_TYPE_HANDSHAKE else QUIC_PKT_TYPE_RETRY.

(** The token of an Initial packet, with its length. *)
Definition read_token (ty : Z) : reader (option bytes * Z) :=
  if ty =? QUIC_PKT_TYPE_INITIAL then
    token_len ← PACKET_get_quic_vlint;
    _ ← check (negb (SIZE_MAX <? token_len));
    token ← PACKET_get_bytes token_len;
    mret (if token_len =? 0 then None else Some token, token_len)
  else mret (None, 0).

(** What follows the connection IDs in a packet of version 1. *)
Definition decode_v1_hdr (b0 version : Z) (partial nodata : bool) (dst src : QUIC_CONN_ID) : reader (QUIC_PKT_HDR * option Z) :=
  let ty := long_type (Z.land (Z.shiftr b0 4) 3) in
  '(token, token_len) ← read_token ty;
  if ty =? QUIC_PKT_TYPE_RETRY then
    data ← PACKET_data;
    len ← PACKET_remaining;
    _ ← PACKET_forward len;
    mret (mkPktHdr ty false false 0 false true (Z.land b0 0x0f) 0 version dst src (replicate 4 0) token token_len len
            (Some (take (Z.to_nat len) data)), None)
  else
    let pn_len := if partial then 0 else Z.land b0 3 + 1 in
    let reserved := if partial then 0 else Z.shiftr (Z.land b0 0x0c) 2 in
    len ← PACKET_get_quic_vlint;
    _ ← check (negb (len <? 4));
    remaining ← PACKET_remaining;
    _ ← check (negb (negb nodata && (remaining <? len)));
    pn ← read_pn partial pn_len;
    let hdr_len := if partial then len -u 4 else len -u pn_len in
    let hdr data := mkPktHdr ty false false pn_len partial true 0 reserved version dst src pn token token_len hdr_len data in
    if nodata then mret (hdr None, Some remaining)
    else
      data ← PACKET_data;
      _ ← PACKET_forward hdr_len;
      mret (hdr (Some (take (Z.to_nat hdr_len) data)), Some remaining).

(** [None] in the result for a version that is not supported. *)
Definition decode_long_hdr (l b0 : Z) (partial nodata : bool) (hdr : QUIC_PKT_HDR) : reader (option (QUIC_PKT_HDR * option Z)) :=
  version ← PACKET_get_net_4;
  _ ← check (negb (negb (version =? 0) && (Z.land b0 0x40 =? 0)));
  dst_len ← PACKET_get_1;
  _ ← check (negb (QUIC_MAX_CONN_ID_LEN <? dst_len));
  dst ← copy_cid (ph_dst hdr) dst_len;
  src_len ← PACKET_get_1;
  _ ← check (negb (QUIC_MAX_CONN_ID_LEN <? src_len));
  src ← copy_cid (ph_src hdr) src_len;
  if version =? 0 then
    data ← PACKET_data;
    len ← PACKET_remaining;
    _ ← check (len mod 4 =? 0);
    _ ← PACKET_forward len;
    mret (Some (mkPktHdr QUIC_PKT_TYPE_VERSION_NEG false false 0 false (negb (Z.land b0 0x40 =? 0)) 0 0 version dst src
                  (replicate 4 0) None 0 len (Some (take (Z.to_nat len) data)), None))
  else if negb (version =? QUIC_VERSION_1) then mret None
  else
    _ ← check (negb (l <? QUIC_MIN_VALID_PKT_LEN_CRYPTO));
    r ← decode_v1_hdr b0 version partial nodata dst src;
    mret (Some r).

Definition QUIC_PKT_HDR_DECODE_DECODE_ERR : Z := 1.
Definition QUIC_PKT_HDR_DECODE_BAD_VERSION : Z := 2.

(** The header, the pointers and the rest of the datagram when the decode succeeds; and [fail_cause].
    [hdr] is the structure the caller passes. *)
Definition ossl_quic_wire_decode_pkt_hdr (pkt : PACKET) (short_conn_id_len : Z) (partial nodata : bool) (hdr : QUIC_PKT_HDR)
  : option (QUIC_PKT_HDR * QUIC_PKT_HDR_PTRS * PACKET) * Z :=
  let l := zlen pkt in
  let go : reader (option (QUIC_PKT_HDR * option Z)) :=
    _ ← check (negb (l <? QUIC_MIN_VALID_PKT_LEN));
    b0 ← PACKET_get_1;
    if Z.land b0 0x80 =? 0 then r ← decode_short_hdr l b0 short_conn_id_len partial hdr; mret (Some r)
    else decode_long_hdr l b0 partial nodata hdr in
  match go pkt with
  | None => (None, QUIC_PKT_HDR_DECODE_DECODE_ERR)
  | Some (None, _) => (None, Z.lor QUIC_PKT_HDR_DECODE_DECODE_ERR QUIC_PKT_HDR_DECODE_BAD_VERSION)
  | Some (Some (h, at_pn), rest) =>
      let ptrs := match at_pn with
                  | None => mkPtrs None 0 None
                  | Some remaining => let pn := l - remaining in mkPtrs (Some (pn + 4)) ((l - (pn + 4)) mod U64_MOD) (Some pn)
                  end in
      (Some (h, ptrs, rest), 0)
  end.

(** ** Encoding a header *)

Definition cid_bytes (cid : QUIC_CONN_ID) : bytes := take (Z.to_nat (cid_id_len cid)) (cid_id cid).
Definition token_bytes (hdr : QUIC_PKT_HDR) : bytes := take (Z.to_nat (ph_token_len hdr)) (default [] (ph_token hdr)).
Definition pn_field (hdr : QUIC_PKT_HDR) : bytes := take (Z.to_nat (ph_pn_len hdr)) (ph_pn hdr).

Definition bad_pn_len (hdr : QUIC_PKT_HDR) : bool := (ph_pn_len hdr <? 1) || (4 <? ph_pn_len hdr).

(** From the packet number on: [off_start] is what was written before the header. *)
Definition encode_pn (off_start : Z) (hdr : QUIC_PKT_HDR) (res : WPACKET * bool) : WPACKET * option QUIC_PKT_HDR_PTRS :=
  match res with
  | (w, false) => (w, None)
  | (w, true) =>
      let off_pn := zlen (wp_done w) in
      match WPACKET_memcpy (pn_field hdr) w with
      | (w, false) => (w, None)
      | (w, true) =>
          if (0 <? ph_len hdr) && negb (WPACKET_reserve_bytes w (ph_len hdr)) then (w, None)
          else
            let off_sample := off_pn + 4 in
            (w, Some (mkPtrs (Some (off_sample - off_start)) ((zlen (wp_done w) + ph_len hdr - off_sample) mod U64_MOD)
                        (Some (off_pn - off_start))))
      end
  end.

Definition short_first_byte (hdr : QUIC_PKT_HDR) : Z :=
  u8 (Z.lor (Z.lor (Z.lor (Z.lor (Z.shiftl (b2z (ph_spin_bit hdr)) 5) (Z.shiftl (b2z (ph_key_phase hdr)) 2)) (ph_pn_len hdr - 1))
        (Z.shiftl (ph_reserved hdr) 3)) 0x40).

Definition raw_long_type (ty : Z) : option Z :=
  if ty =? QUIC_PKT_TYPE_VERSION_NEG then Some 0
  else if ty =? QUIC_PKT_TYPE_INITIAL then Some 0
  else if ty =? QUIC_PKT_TYPE_0RTT then Some 1
  else if ty =? QUIC_PKT_TYPE_HANDSHAKE then Some 2
  else if ty =? QUIC_PKT_TYPE_RETRY then Some 3
  else None.

Definition long_first_byte (hdr : QUIC_PKT_HDR) (raw_type : Z) : Z :=
  let b0 := u8 (Z.lor (Z.shiftl raw_type 4) 0x80) in
  let b0 := if negb (ph_type hdr =? QUIC_PKT_TYPE_VERSION_NEG) || ph_fixed hdr then Z.lor b0 0x40 else b0 in
  let b0 := if ossl_quic_pkt_type_has_pn (ph_type hdr)
            then u8 (Z.lor (u8 (Z.lor b0 (ph_pn_len hdr - 1))) (Z.shiftl (ph_reserved hdr) 2)) else b0 in
  if ph_type hdr =? QUIC_PKT_TYPE_RETRY then u8 (Z.lor b0 (ph_unused hdr)) else b0.

Definition encode_long_prefix (hdr : QUIC_PKT_HDR) (raw_type : Z) : writer :=
  WPACKET_put_bytes (long_first_byte hdr raw_type) 1 ;;;
  WPACKET_put_bytes (ph_version hdr) 4 ;;;
  WPACKET_put_bytes (cid_id_len (ph_dst hdr)) 1 ;;;
  WPACKET_memcpy (cid_bytes (ph_dst hdr)) ;;;
  WPACKET_put_bytes (cid_id_len (ph_src hdr)) 1 ;;;
  WPACKET_memcpy (cid_bytes (ph_src hdr)).

(** The pointers when the call succeeds. *)
Definition ossl_quic_wire_encode_pkt_hdr (short_conn_id_len : Z) (hdr : QUIC_PKT_HDR) (w : WPACKET) : WPACKET * option QUIC_PKT_HDR_PTRS :=
  let off_start := zlen (wp_done w) in
  let no_ptrs := mkPtrs None 0 None in
  if ph_partial hdr || ((ph_type hdr =? QUIC_PKT_TYPE_1RTT) && negb (cid_id_len (ph_dst hdr) =? short_conn_id_len)) then (w, None)
  else if ph_type hdr =? QUIC_PKT_TYPE_1RTT then
    if negb (cid_id_len (ph_dst hdr) =? short_conn_id_len) || (QUIC_MAX_CONN_ID_LEN <? short_conn_id_len) || bad_pn_len hdr then (w, None)
    else
      encode_pn off_start hdr
        ((WPACKET_put_bytes (short_first_byte hdr) 1 ;;; WPACKET_memcpy (take (Z.to_nat short_conn_id_len) (cid_id (ph_dst hdr)))) w)
  else if (QUIC_MAX_CONN_ID_LEN <? cid_id_len (ph_dst hdr)) || (QUIC_MAX_CONN_ID_LEN <? cid_id_len (ph_src hdr)) then (w, None)
  else if ossl_quic_pkt_type_has_pn (ph_type hdr) && bad_pn_len hdr then (w, None)
  else if (ph_type hdr =? QUIC_PKT_TYPE_VERSION_NEG) && negb (ph_version hdr =? 0) then (w, None)
  else
    match raw_long_type (ph_type hdr) with
    | None => (w, None)
    | Some raw_type =>
        match encode_long_prefix hdr raw_type w with
        | (w, false) => (w, None)
        | (w, true) =>
            if ph_type hdr =? QUIC_PKT_TYPE_VERSION_NEG then
              if (0 <? ph_len hdr) && negb (WPACKET_reserve_bytes w (ph_len hdr)) then (w, None) else (w, Some no_ptrs)
            else
              match wwhen (ph_type hdr =? QUIC_PKT_TYPE_INITIAL)
                      (WPACKET_quic_write_vlint (ph_token_len hdr) ;;; WPACKET_memcpy (token_bytes hdr)) w with
              | (w, false) => (w, None)
              | (w, true) =>
                  if ph_type hdr =? QUIC_PKT_TYPE_RETRY then
                    match WPACKET_memcpy (token_bytes hdr) w with
                    | (w, false) => (w, None)
                    | (w, true) => (w, Some no_ptrs)
                    end
                  else encode_pn off_start hdr (WPACKET_quic_write_vlint (ph_len hdr +u ph_pn_len hdr) w)
              end
        end
    end.

Definition ossl_quic_wire_get_encoded_pkt_hdr_len (short_conn_id_len : Z) (hdr : QUIC_PKT_HDR) : Z :=
  if ph_partial hdr || ((ph_type hdr =? QUIC_PKT_TYPE_1RTT) && negb (cid_id_len (ph_dst hdr) =? short_conn_id_len)) then 0
  else if ph_type hdr =? QUIC_PKT_TYPE_1RTT then
    if negb (cid_id_len (ph_dst hdr) =? short_conn_id_len) || (QUIC_MAX_CONN_ID_LEN <? short_conn_id_len) || bad_pn_len hdr then 0
    else 1 +u short_conn_id_len +u ph_pn_len hdr
  else if (QUIC_MAX_CONN_ID_LEN <? cid_id_len (ph_dst hdr)) || (QUIC_MAX_CONN_ID_LEN <? cid_id_len (ph_src hdr)) then 0
  else
    let has_pn := ossl_quic_pkt_type_has_pn (ph_type hdr) in
    if has_pn && bad_pn_len hdr then 0
    else
      let len := 1 + 4 + 1 + cid_id_len (ph_dst hdr) + 1 + cid_id_len (ph_src hdr) in
      let len := if has_pn then len +u ph_pn_len hdr else len in
      let initial := ph_type hdr =? QUIC_PKT_TYPE_INITIAL in
      let enclen := ossl_quic_vlint_encode_len (ph_token_len hdr) in
      if initial && (enclen =? 0) then 0
      else
        let len := if initial then len +u (enclen +u ph_token_len hdr) else len in
        if negb (ossl_quic_pkt_type_must_be_last (ph_type hdr)) then
          let enclen := ossl_quic_vlint_encode_len (ph_len hdr +u ph_pn_len hdr) in
          if enclen =? 0 then 0 else len +u enclen
        else len.

(** The connection ID, over the array the caller passes. *)
Definition ossl_quic_wire_get_pkt_hdr_dst_conn_id (buf : bytes) (short_conn_id_len : Z) (old : QUIC_CONN_ID) : option QUIC_CONN_ID :=
  let buf_len := zlen buf in
  if (buf_len <? QUIC_MIN_VALID_PKT_LEN) || (QUIC_MAX_CONN_ID_LEN <? short_conn_id_len) then None
  else
    let b0 := byte_at buf 0 in
    let set len off := Some (mkConnId len (take (Z.to_nat len) (drop off buf) ++ drop (Z.to_nat len) (cid_id old))) in
    if negb (Z.land b0 0x80 =? 0) then
      if (negb (byte_at buf 1 =? 0) || negb (byte_at buf 2 =? 0) || negb (byte_at buf 3 =? 0) || negb (byte_at buf 4 =? 0))
         && (Z.land b0 0x40 =? 0) then None
      else
        let blen := byte_at buf 5 in
        if (QUIC_MAX_CONN_ID_LEN <? blen) || (buf_len <? QUIC_MIN_VALID_PKT_LEN + blen) then None else set blen 6%nat
    else if Z.land b0 0x40 =? 0 then None
    else if buf_len <? QUIC_MIN_VALID_PKT_LEN_CRYPTO + short_conn_id_len then None
    else set short_conn_id_len 1%nat.

(** ** Packet numbers *)

(** A [uint64_t] stored in an [int64_t]. *)
Definition to_s64 (x : Z) : Z := if x <? 9223372036854775808 then x else x - U64_MOD.

Definition truncated_pn (enc_pn : bytes) (enc_pn_len : Z) : option Z :=
  let e := byte_at enc_pn in
  if enc_pn_len =? 1 then Some (e 0%nat)
  else if enc_pn_len =? 2 then Some (Z.lor (Z.shiftl (e 0%nat) 8) (e 1%nat))
  else if enc_pn_len =? 3 then Some (Z.lor (Z.lor (Z.shiftl (e 0%nat) 16) (Z.shiftl (e 1%nat) 8)) (e 2%nat))
  else if enc_pn_len =? 4 then
    Some (Z.lor (Z.lor (Z.lor (Z.shiftl (e 0%nat) 24) (Z.shiftl (e 1%nat) 16)) (Z.shiftl (e 2%nat) 8)) (e 3%nat))
  else None.

Definition ossl_quic_wire_decode_pkt_hdr_pn (enc_pn : bytes) (enc_pn_len largest_pn : Z) : option Z :=
  match truncated_pn enc_pn enc_pn_len with
  | None => None
  | Some truncated_pn =>
      let expected_pn := to_s64 (largest_pn +u 1) in
      let pn_win := Z.shiftl 1 (enc_pn_len * 8) in
      let pn_hwin := pn_win / 2 in
      let pn_mask := pn_win - 1 in
      let candidate_pn := Z.lor (Z.land expected_pn (Z.lnot pn_mask)) truncated_pn in
      let res :=
        if (candidate_pn <=? expected_pn - pn_hwin) && (candidate_pn <? Z.shiftl 1 62 - pn_win) then candidate_pn + pn_win
        else if (expected_pn + pn_hwin <? candidate_pn) && (pn_win <=? candidate_pn) then candidate_pn - pn_win
        else candidate_pn in
      Some (res mod U64_MOD)
  end.

Definition ossl_quic_wire_determine_pn_len (pn largest_acked : Z) : Z :=
  let num_unacked := if largest_acked =? UINT64_MAX then pn +u 1 else pn -u largest_acked in
  if num_unacked <=? Z.shiftl 1 7 then 1
  else if num_unacked <=? Z.shiftl 1 15 then 2
  else if num_unacked <=? Z.shiftl 1 23 then 3
  else 4.

Definition ossl_quic_wire_encode_pkt_hdr_pn (pn enc_pn_len : Z) : option bytes :=
  if enc_pn_len =? 1 then Some [u8 pn]
  else if enc_pn_len =? 2 then Some [u8 (Z.shiftr pn 8); u8 pn]
  else if enc_pn_len =? 3 then Some [u8 (Z.shiftr pn 16); u8 (Z.shiftr pn 8); u8 pn]
  else if enc_pn_len =? 4 then Some [u8 (Z.shiftr pn 24); u8 (Z.shiftr pn 16); u8 (Z.shiftr pn 8); u8 pn]
  else None.

(** ** Retry integrity *)

Section Retry.
(** AES-128-GCM with the key and nonce of RFC 9001 over associated data only: the tag. *)
Context (EVP_gcm_tag : bytes -> option bytes).

Definition ossl_quic_calculate_retry_integrity_tag (hdr : QUIC_PKT_HDR) (client_initial_dcid : QUIC_CONN_ID) : option bytes :=
  if negb (ph_type hdr =? QUIC_PKT_TYPE_RETRY) || (ph_version hdr =? 0) || (ph_len hdr <? QUIC_RETRY_INTEGRITY_TAG_LEN)
     || bool_decide (ph_data hdr = None) || (QUIC_MAX_CONN_ID_LEN <? cid_id_len client_initial_dcid) then None
  else
    let hdr2 := hdr <| ph_len := 0 |> in
    match (WPACKET_put_bytes (cid_id_len client_initial_dcid) 1 ;;; WPACKET_memcpy (cid_bytes client_initial_dcid))
            (mkWpkt [] (replicate 128 0)) with
    | (_, false) => None
    | (w, true) =>
        match ossl_quic_wire_encode_pkt_hdr (cid_id_len (ph_dst hdr2)) hdr2 w with
        | (_, None) => None
        | (w, Some _) =>
            EVP_gcm_tag (wp_done w ++ take (Z.to_nat (ph_len hdr - QUIC_RETRY_INTEGRITY_TAG_LEN)) (default [] (ph_data hdr)))
        end
    end.

Definition ossl_quic_validate_retry_integrity_tag (hdr : QUIC_PKT_HDR) (client_initial_dcid : QUIC_CONN_ID) : bool :=
  if ph_len hdr <? QUIC_RETRY_INTEGRITY_TAG_LEN then false
  else
    match ossl_quic_calculate_retry_integrity_tag hdr client_initial_dcid with
    | None => false
    | Some expected_tag =>
        let actual_tag := take 16 (drop (Z.to_nat (ph_len hdr - QUIC_RETRY_INTEGRITY_TAG_LEN)) (default [] (ph_data hdr))) in
        bool_decide (expected_tag = actual_tag)
    end.
End Retry.

(** ** Packet numbers *)

Lemma lor_low (x t n : Z) : 0 <= n -> 0 <= t < 2 ^ n -> Z.lor (Z.shiftl x n) t = x * 2 ^ n + t.
Proof.
  intros Hn Ht. assert (Hl : Z.land (Z.shiftl x n) t = 0).
  { apply Z.bits_inj'. intros i Hi. rewrite Z.land_spec, Z.bits_0. destruct (Z.lt_ge_cases i n).
    - by rewrite Z.shiftl_spec_low by lia.
    - destruct (Z.eq_dec t 0) as [->|]; [by rewrite Z.bits_0, andb_false_r|]. rewrite (Z.bits_above_log2 t i); [by rewrite andb_false_r|lia|].
      apply Z.log2_lt_pow2; [lia|]. pose proof (Z.pow_le_mono_r 2 n i). lia. }
  rewrite <- Z.lxor_lor, <- Z.add_nocarry_lxor by done. by rewrite Z.shiftl_mul_pow2.
Qed.

(** A packet number space holds no packet, or packets up to this one. *)
Definition pn_val (pn : Z) : Z := if pn =? UINT64_MAX then -1 else pn.

(** The field of [len] bytes keeps the number modulo its window. *)
Lemma truncated_encode (pn len : Z) : 0 <= pn -> 1 <= len <= 4 ->
  exists e, ossl_quic_wire_encode_pkt_hdr_pn pn len = Some e /\ zlen e = len /\ truncated_pn e len = Some (pn mod 2 ^ (8 * len)).
Proof.
  intros Hpn Hl. assert (len = 1 \/ len = 2 \/ len = 3 \/ len = 4) as Hc by lia.
  destruct Hc as [->|[->|[->| ->]]]; (eexists; split; [reflexivity|split; [reflexivity|]]);
    unfold truncated_pn, byte_at, u8; cbn [Z.eqb Pos.eqb nth]; f_equal; change 255 with (Z.ones 8);
    rewrite <- Z.land_ones by lia; rewrite <- ?Z.lor_assoc;
    rewrite ?(split_bits_eq pn 8 8 16), ?(split_bits_eq pn 16 8 24), ?(split_bits_eq pn 24 8 32) by lia; done.
Qed.

(** The decoder gives the number congruent to the field that is nearest to the expected one. *)
Lemma decode_pn_window (e : bytes) (pn len largest_pn : Z) : 1 <= len <= 4 -> 0 <= pn < 2 ^ 62 ->
  u64 largest_pn -> pn_val largest_pn < 2 ^ 62 -> truncated_pn e len = Some (pn mod 2 ^ (8 * len)) ->
  pn_val largest_pn + 1 - 2 ^ (8 * len - 1) < pn <= pn_val largest_pn + 1 + 2 ^ (8 * len - 1) ->
  ossl_quic_wire_decode_pkt_hdr_pn e len largest_pn = Some pn.
Proof.
  intros Hl Hpn Hu Hlp Ht Hw. unfold ossl_quic_wire_decode_pkt_hdr_pn. rewrite Ht.
  assert (Hexp : to_s64 (largest_pn +u 1) = pn_val largest_pn + 1).
  { unfold pn_val in *. destruct (Z.eqb_spec largest_pn UINT64_MAX) as [->|]; [done|].
    unfold to_s64. rewrite add64_small by u64_side. by rewrite (proj2 (Z.ltb_lt _ _)) by lia. }
  rewrite Hexp. set (ex := pn_val largest_pn + 1) in *.
  assert (Hex : 0 <= ex <= 2 ^ 62) by (subst ex; unfold pn_val in *; destruct (largest_pn =? UINT64_MAX); unfold u64 in *; lia).
  rewrite (Z.mul_comm len 8), !Z.shiftl_mul_pow2, !Z.mul_1_l by lia.
  assert (Hwin : 2 ^ (8 * len) = 2 * 2 ^ (8 * len - 1)) by (rewrite <- Z.pow_succ_r by lia; f_equal; lia).
  assert (Hpos : 0 < 2 ^ (8 * len - 1)) by (apply Z.pow_pos_nonneg; lia).
  replace (2 ^ (8 * len) / 2) with (2 ^ (8 * len - 1)) by (rewrite Hwin; symmetry; rewrite (Z.mul_comm 2); apply Z.div_mul; lia).
  replace (2 ^ (8 * len) - 1) with (Z.ones (8 * len)) by (rewrite Z.ones_equiv; lia).
  pose proof (Z.mod_pos_bound pn (2 ^ (8 * len)) ltac:(lia)) as Hm.
  change (Z.land ex (Z.lnot (Z.ones (8 * len)))) with (Z.land ex (Z.lnot (Z.ones (8 * len)))).
  rewrite <- Z.ldiff_land, Z.ldiff_ones_r, lor_low by lia. rewrite Z.shiftr_div_pow2 by lia.
  set (win := 2 ^ (8 * len)) in *. set (hwin := 2 ^ (8 * len - 1)) in *.
  assert (Hc : exists k, pn = ex / win * win + pn mod win + k * win).
  { exists (pn / win - ex / win). pose proof (Z.div_mod pn win ltac:(lia)). lia. }
  pose proof (Z.div_mod ex win ltac:(lia)) as Hde. pose proof (Z.mod_pos_bound ex win ltac:(lia)) as Hme.
  destruct Hc as [k Hk]. set (c := ex / win * win + pn mod win) in *.
  assert (Hcb : ex - win < c < ex + win) by lia. clearbody c win hwin ex.
  f_equal. change (2 ^ 62) with 4611686018427387904 in *.
  assert (Hres : (if (c <=? ex - hwin) && (c <? 4611686018427387904 - win) then c + win
    else if (ex + hwin <? c) && (win <=? c) then c - win else c) = pn).
  { assert (-1 <= k <= 1) by nia. assert (k = -1 \/ k = 0 \/ k = 1) as Hkc by lia.
    destruct (Z.leb_spec c (ex - hwin)), (Z.ltb_spec c (4611686018427387904 - win)), (Z.ltb_spec (ex + hwin) c), (Z.leb_spec win c);
      cbn [andb]; destruct Hkc as [->|[->| ->]]; lia. }
  rewrite Hres. apply Z.mod_small. u64_side.
Qed.

Lemma determine_len_spec (pn largest_acked : Z) : u64 pn -> u64 largest_acked -> pn_val largest_acked <= pn ->
  let len := ossl_quic_wire_determine_pn_len pn largest_acked in
  1 <= len <= 4 /\ (pn - pn_val largest_acked <= 2 ^ 31 -> pn - pn_val largest_acked <= 2 ^ (8 * len - 1)).
Proof.
  intros Hp Ha Hle. unfold ossl_quic_wire_determine_pn_len, pn_val in *.
  set (nu := if largest_acked =? UINT64_MAX then pn +u 1 else pn -u largest_acked).
  assert (Hnu : pn <> UINT64_MAX -> nu = pn - (if largest_acked =? UINT64_MAX then -1 else largest_acked)).
  { intros Hne. subst nu. destruct (Z.eqb_spec largest_acked UINT64_MAX); [rewrite add64_small by u64_side; lia|apply sub64_small; u64_side]. }
  change (Z.shiftl 1 7) with 128. change (Z.shiftl 1 15) with 32768. change (Z.shiftl 1 23) with 8388608.
  destruct (Z.leb_spec nu 128), (Z.leb_spec nu 32768), (Z.leb_spec nu 8388608); (split; [lia|]); intros Hd;
    (destruct (Z.eq_dec pn UINT64_MAX) as [->|Hne]; [|rewrite Hnu in * by done; cbn; lia]);
    destruct (Z.eqb_spec largest_acked UINT64_MAX) as [->|Hna]; subst nu; try rewrite sub64_small in * by u64_side; cbn in *; try lia;
    unfold UINT64_MAX in *; lia.
Qed.

(** C34.  Packet number round trip: when the sender picks the length from the largest number
    acknowledged, the receiver, which has processed at least that one, recovers
    the full number, however far it is ahead within the 2^31 that four bytes allow, and
    however late it is within half of the window of its length. *)
Theorem pkt_pn_roundtrip (pn largest_acked largest_pn : Z) :
  let len := ossl_quic_wire_determine_pn_len pn largest_acked in
  0 <= pn < 2 ^ 62 -> u64 largest_acked -> u64 largest_pn -> pn_val largest_acked < pn -> pn - pn_val largest_acked <= 2 ^ 31 ->
  pn_val largest_acked <= pn_val largest_pn < 2 ^ 62 -> pn_val largest_pn + 1 - pn < 2 ^ (8 * len - 1) ->
  1 <= len <= 4 /\ exists e, ossl_quic_wire_encode_pkt_hdr_pn pn len = Some e /\ zlen e = len /\
    ossl_quic_wire_decode_pkt_hdr_pn e len largest_pn = Some pn.
Proof.
  intros len Hpn Hla Hlp Hlt Hd Hle Hr. destruct (determine_len_spec pn largest_acked ltac:(u64_side) Hla ltac:(lia)) as [Hlen Hw].
  fold len in Hlen, Hw. split; [done|]. destruct (truncated_encode pn len ltac:(lia) Hlen) as (e & He & Hz & Ht).
  exists e. split_and!; auto. apply decode_pn_window; auto; [lia..|]. specialize (Hw Hd). lia.
Qed.

Lemma pkt_pn_roundtrip_witness : ossl_quic_wire_determine_pn_len 0xac5c02 0xabe8b3 = 2 /\
  exists e, ossl_quic_wire_encode_pkt_hdr_pn 0xac5c02 2 = Some e /\ zlen e = 2 /\ ossl_quic_wire_decode_pkt_hdr_pn e 2 0xabe8b3 = Some 0xac5c02.
Proof.
  split; [by vm_compute|]. apply (pkt_pn_roundtrip 0xac5c02 0xabe8b3 0xabe8b3); unfold u64; vm_compute; repeat split; congruence.
Defined.

(** ** Headers *)

Lemma get_net_4_be (v : Z) (tl : bytes) : 0 <= v < 2 ^ 32 -> PACKET_get_net_4 (be_bytes 4 v ++ tl) = Some (v, tl).
Proof.
  intros Hv. unfold PACKET_get_net_4. rewrite zlen_app. unfold zlen at 1. rewrite be_bytes_length.
  pose proof (zlen_nonneg tl). rewrite (proj2 (Z.ltb_ge _ 4)) by lia.
  cbn [be_bytes app]. rewrite !Z.shiftr_shiftr by lia. unfold packet_forward, byte_at. cbn [nth].
  change (8 + 8) with 16. change (8 + 16) with 24. change 255 with (Z.ones 8). rewrite <- !Z.lor_assoc.
  rewrite (split_bits_eq v 8 8 16), (split_bits_eq v 16 8 24), (split_bits_eq v 24 8 32) by lia.
  rewrite land_ones_small by lia. done.
Qed.

Lemma put_byte_emits (b : Z) : 0 <= b < 256 -> emits (WPACKET_put_bytes b 1) [b].
Proof.
  intros Hb. pose proof (emits_put_bytes b 1 ltac:(lia) ltac:(lia)) as He.
  change (be_bytes (Z.to_nat 1) b) with [Z.land b (Z.ones 8)] in He. by rewrite land_ones_small in He by lia.
Qed.

Definition wf_cid (c : QUIC_CONN_ID) : Prop := 0 <= cid_id_len c <= QUIC_MAX_CONN_ID_LEN /\ zlen (cid_id c) = QUIC_MAX_CONN_ID_LEN.

Lemma cid_bytes_len (c : QUIC_CONN_ID) : wf_cid c -> zlen (cid_bytes c) = cid_id_len c.
Proof. intros [Hl Hz]. unfold cid_bytes, zlen in *. rewrite length_take. lia. Qed.

(** The caller's array with the connection ID copied into it. *)
Definition new_cid (old c : QUIC_CONN_ID) : QUIC_CONN_ID :=
  mkConnId (cid_id_len c) (cid_bytes c ++ drop (length (cid_bytes c)) (cid_id old)).

Lemma copy_cid_ok (old c : QUIC_CONN_ID) (tl : bytes) : wf_cid c ->
  copy_cid old (cid_id_len c) (cid_bytes c ++ tl) = Some (new_cid old c, tl).
Proof.
  intros Hc. unfold copy_cid. rewrite bind_bytes by (symmetry; by apply cid_bytes_len). done.
Qed.

Lemma new_cid_bytes (old c : QUIC_CONN_ID) : wf_cid c -> cid_bytes (new_cid old c) = cid_bytes c.
Proof.
  intros Hc. unfold cid_bytes at 1. cbn [new_cid cid_id_len cid_id]. rewrite take_app_le; [|pose proof (cid_bytes_len c Hc) as H; unfold zlen in H; lia].
  apply take_ge. pose proof (cid_bytes_len c Hc) as H. unfold zlen in H. lia.
Qed.

(** [body] is the payload; the packet number bytes [pnb] take [pn_len] bytes. *)
Lemma read_pn_full (pnb tl : bytes) : read_pn false (zlen pnb) (pnb ++ tl) = Some (pnb ++ replicate (4 - length pnb)%nat 0, tl).
Proof. unfold read_pn. by rewrite bind_bytes. Qed.

Lemma read_pn_partial (x tl : bytes) (n : Z) : zlen x = 4 -> read_pn true n (x ++ tl) = Some (replicate 4 0, tl).
Proof.
  intros Hx. unfold read_pn, mbind, reader_bind, PACKET_forward, packet_forward. rewrite zlen_app. pose proof (zlen_nonneg tl).
  rewrite (proj2 (Z.ltb_ge _ 4)) by lia. unfold mret, reader_ret. do 2 f_equal.
  rewrite drop_app_ge by (unfold zlen in Hx; lia). unfold zlen in Hx. replace (Z.to_nat 4 - length x)%nat with 0%nat by lia. done.
Qed.

(** Splits off the first four bytes, which a partial decode skips. *)
Lemma split4 (x : bytes) : 4 <= zlen x -> exists a b, x = a ++ b /\ zlen a = 4 /\ zlen b = zlen x - 4.
Proof.
  intros Hx. exists (take 4 x), (drop 4 x). split; [by rewrite take_drop|].
  unfold zlen in *. rewrite length_take, length_drop. lia.
Qed.

Lemma forward_all (k : unit -> reader (QUIC_PKT_HDR * option Z)) (x tl : bytes) (n : Z) : n = zlen x ->
  (_ ← PACKET_forward n; k tt) (x ++ tl) = k tt tl.
Proof.
  intros ->. unfold mbind, reader_bind, PACKET_forward, packet_forward. rewrite zlen_app. pose proof (zlen_nonneg tl).
  rewrite (proj2 (Z.ltb_ge _ (zlen x))) by lia. unfold zlen. by rewrite Nat2Z.id, drop_app_length.
Qed.

(** *** The first byte *)

(** The bits of the first byte that are not protected. *)
Record same_form (b0 b1 : Z) : Prop := {
  sf_long : Z.land b1 0x80 = Z.land b0 0x80;
  sf_fixed : Z.land b1 0x40 = Z.land b0 0x40;
  sf_spin : Z.land b1 0x20 = Z.land b0 0x20;
  sf_type : Z.land b0 0x80 <> 0 -> Z.land (Z.shiftr b1 4) 3 = Z.land (Z.shiftr b0 4) 3 }.

Lemma land_lxor_out (b m k c : Z) : Z.land k c = 0 -> Z.land (Z.lxor b (Z.land m k)) c = Z.land b c.
Proof.
  intros H. apply Z.bits_inj'. intros i Hi. rewrite !Z.land_spec, Z.lxor_spec, Z.land_spec.
  pose proof (f_equal (fun x => Z.testbit x i) H) as Hb. cbn beta in Hb. rewrite Z.land_spec, Z.bits_0 in Hb.
  destruct (Z.testbit b i), (Z.testbit m i), (Z.testbit k i), (Z.testbit c i); done.
Qed.

Lemma shiftr_lxor_out (b m k n : Z) : 0 <= n -> 0 <= k < 2 ^ n -> Z.shiftr (Z.lxor b (Z.land m k)) n = Z.shiftr b n.
Proof.
  intros Hn Hk. rewrite Z.shiftr_lxor. assert (Z.shiftr (Z.land m k) n = 0) as ->; [|apply Z.lxor_0_r].
  rewrite Z.shiftr_land. assert (Z.shiftr k n = 0) as ->; [|apply Z.land_0_r].
  rewrite Z.shiftr_div_pow2 by lia. apply Z.div_small. lia.
Qed.

Lemma protected_form (b0 m0 : Z) : same_form b0 (Z.lxor b0 (first_byte_mask b0 m0)).
Proof.
  unfold first_byte_mask. destruct (Z.eqb_spec (Z.land b0 0x80) 0) as [He|Hne]; cbn [negb];
    (split; [by apply land_lxor_out..|]); [by intros ?|]. intros _. f_equal. apply shiftr_lxor_out; lia.
Qed.

Lemma form_refl (b0 : Z) : same_form b0 b0.
Proof. by split. Qed.

(** The protected bits: what a full decode reads. *)
Lemma short_byte_fields (hdr : QUIC_PKT_HDR) : 1 <= ph_pn_len hdr <= 4 -> 0 <= ph_reserved hdr <= 3 ->
  let b0 := short_first_byte hdr in
  0 <= b0 < 256 /\ Z.land b0 0x80 = 0 /\ Z.land b0 0x40 <> 0 /\ negb (Z.land b0 0x20 =? 0) = ph_spin_bit hdr /\
  negb (Z.land b0 0x04 =? 0) = ph_key_phase hdr /\ Z.land b0 3 + 1 = ph_pn_len hdr /\ Z.shiftr (Z.land b0 0x18) 3 = ph_reserved hdr.
Proof.
  unfold short_first_byte. destruct hdr as [ty spin key n pa fx un re v d s pn t tl l da]. cbn [ph_pn_len ph_reserved ph_spin_bit ph_key_phase].
  intros Hn Hr. assert (n = 1 \/ n = 2 \/ n = 3 \/ n = 4) as Hn' by lia. assert (re = 0 \/ re = 1 \/ re = 2 \/ re = 3) as Hr' by lia.
  destruct spin, key, Hn' as [->|[->|[->| ->]]], Hr' as [->|[->|[->| ->]]]; vm_compute; repeat split; congruence.
Qed.

Lemma long_byte_fields (hdr : QUIC_PKT_HDR) (raw : Z) : raw_long_type (ph_type hdr) = Some raw -> ossl_quic_pkt_type_has_pn (ph_type hdr) = true ->
  1 <= ph_pn_len hdr <= 4 -> 0 <= ph_reserved hdr <= 3 ->
  let b0 := long_first_byte hdr raw in
  0 <= b0 < 256 /\ Z.land b0 0x80 <> 0 /\ Z.land b0 0x40 <> 0 /\ long_type (Z.land (Z.shiftr b0 4) 3) = ph_type hdr /\
  Z.land b0 3 + 1 = ph_pn_len hdr /\ Z.shiftr (Z.land b0 0x0c) 2 = ph_reserved hdr.
Proof.
  unfold long_first_byte. destruct hdr as [ty spin key n pa fx un re v d s pn t tl l da]. cbn [ph_type ph_pn_len ph_reserved ph_fixed ph_unused].
  intros Hraw Hpn Hn Hr. rewrite Hpn. assert (n = 1 \/ n = 2 \/ n = 3 \/ n = 4) as Hn' by lia. assert (re = 0 \/ re = 1 \/ re = 2 \/ re = 3) as Hr' by lia.
  assert ((ty = 1 /\ raw = 0) \/ (ty = 2 /\ raw = 1) \/ (ty = 3 /\ raw = 2)) as Ht.
  { unfold raw_long_type, ossl_quic_pkt_type_has_pn, ossl_quic_pkt_type_is_encrypted, QUIC_PKT_TYPE_VERSION_NEG, QUIC_PKT_TYPE_INITIAL,
      QUIC_PKT_TYPE_0RTT, QUIC_PKT_TYPE_HANDSHAKE, QUIC_PKT_TYPE_RETRY in *.
    destruct (Z.eqb_spec ty 6), (Z.eqb_spec ty 1), (Z.eqb_spec ty 2), (Z.eqb_spec ty 3), (Z.eqb_spec ty 4); cbn in Hpn; try done;
      injection Hraw as <-; auto. }
  destruct Ht as [[-> ->]|[[-> ->]|[-> ->]]], Hn' as [->|[->|[->| ->]]], Hr' as [->|[->|[->| ->]]]; vm_compute; repeat split; congruence.
Qed.

Lemma plain_byte_fields (hdr : QUIC_PKT_HDR) (raw : Z) : 0 <= ph_unused hdr <= 15 ->
  (ph_type hdr = QUIC_PKT_TYPE_VERSION_NEG /\ raw = 0) \/ (ph_type hdr = QUIC_PKT_TYPE_RETRY /\ raw = 3) ->
  let b0 := long_first_byte hdr raw in
  0 <= b0 < 256 /\ Z.land b0 0x80 <> 0 /\
  (ph_type hdr = QUIC_PKT_TYPE_VERSION_NEG -> negb (Z.land b0 0x40 =? 0) = ph_fixed hdr) /\
  (ph_type hdr = QUIC_PKT_TYPE_RETRY -> Z.land b0 0x40 <> 0 /\ Z.land (Z.shiftr b0 4) 3 = 3 /\ Z.land b0 0x0f = ph_unused hdr).
Proof.
  unfold long_first_byte. destruct hdr as [ty spin key n pa fx un re v d s pn t tl l da]. cbn [ph_type ph_fixed ph_unused ph_pn_len ph_reserved].
  intros Hu [[-> ->]|[-> ->]].
  - destruct fx; vm_compute; repeat split; congruence.
  - assert (un = 0 \/ un = 1 \/ un = 2 \/ un = 3 \/ un = 4 \/ un = 5 \/ un = 6 \/ un = 7 \/ un = 8 \/ un = 9 \/ un = 10 \/ un = 11 \/
      un = 12 \/ un = 13 \/ un = 14 \/ un = 15) as Hc by lia.
    destruct fx; repeat destruct Hc as [->|Hc]; try subst un; vm_compute; repeat split; congruence.
Qed.

(** *** The layout of a header *)

Definition opt_token (hdr : QUIC_PKT_HDR) : bytes :=
  if ph_type hdr =? QUIC_PKT_TYPE_INITIAL then venc (ph_token_len hdr) ++ token_bytes hdr else [].

(** What stands between the first byte and the packet number. *)
Definition cids_layout (hdr : QUIC_PKT_HDR) : bytes :=
  be_bytes 4 (ph_version hdr) ++ [cid_id_len (ph_dst hdr)] ++ cid_bytes (ph_dst hdr) ++ [cid_id_len (ph_src hdr)] ++ cid_bytes (ph_src hdr).

Definition hdr_mid (hdr : QUIC_PKT_HDR) : bytes :=
  if ph_type hdr =? QUIC_PKT_TYPE_1RTT then cid_bytes (ph_dst hdr)
  else cids_layout hdr ++ opt_token hdr ++
       (if ossl_quic_pkt_type_has_pn (ph_type hdr) then venc (ph_len hdr + ph_pn_len hdr) else []) ++
       (if ph_type hdr =? QUIC_PKT_TYPE_RETRY then token_bytes hdr else []).

Definition first_byte (hdr : QUIC_PKT_HDR) : Z :=
  if ph_type hdr =? QUIC_PKT_TYPE_1RTT then short_first_byte hdr
  else long_first_byte hdr (default 0 (raw_long_type (ph_type hdr))).

Definition hdr_pn (hdr : QUIC_PKT_HDR) : bytes := if ossl_quic_pkt_type_has_pn (ph_type hdr) then pn_field hdr else [].

Definition hdr_bytes (hdr : QUIC_PKT_HDR) : bytes := first_byte hdr :: hdr_mid hdr ++ hdr_pn hdr.

(** *** Decoding what has this layout *)

Definition opt_tok (hdr : QUIC_PKT_HDR) : option bytes * Z :=
  if ph_type hdr =? QUIC_PKT_TYPE_INITIAL
  then (if ph_token_len hdr =? 0 then None else Some (token_bytes hdr), ph_token_len hdr) else (None, 0).

Definition token_ok (hdr : QUIC_PKT_HDR) : Prop :=
  (ph_type hdr = QUIC_PKT_TYPE_INITIAL -> vlint (ph_token_len hdr)) /\
  0 <= ph_token_len hdr <= zlen (default [] (ph_token hdr)).

Lemma token_bytes_len (hdr : QUIC_PKT_HDR) : token_ok hdr -> zlen (token_bytes hdr) = ph_token_len hdr.
Proof. intros [_ H]. by apply zlen_take. Qed.

Lemma read_token_ok (hdr : QUIC_PKT_HDR) (tl : bytes) : token_ok hdr ->
  read_token (ph_type hdr) (opt_token hdr ++ tl) = Some (opt_tok hdr, tl).
Proof.
  intros Ht. unfold read_token, opt_token, opt_tok. destruct (Z.eqb_spec (ph_type hdr) QUIC_PKT_TYPE_INITIAL) as [He|]; [|done].
  destruct Ht as [Hv Hz]. specialize (Hv He). rewrite <- app_assoc, bind_vlint by done.
  rewrite bind_check by (apply negb_true_iff, Z.ltb_ge; unfold vlint, OSSL_QUIC_VLINT_MAX in *; u64_side).
  rewrite bind_bytes by (symmetry; by apply token_bytes_len). done.
Qed.

(** The header of a packet with a packet number and a length, from its payload
    and packet number bytes. *)
Definition v1_hdr (hdr : QUIC_PKT_HDR) (partial : bool) (dst src : QUIC_CONN_ID) (pnb body : bytes) : QUIC_PKT_HDR :=
  mkPktHdr (ph_type hdr) false false (if partial then 0 else ph_pn_len hdr) partial true 0 (if partial then 0 else ph_reserved hdr)
    (ph_version hdr) dst src (if partial then replicate 4 0 else pnb ++ replicate (4 - length pnb)%nat 0)
    (fst (opt_tok hdr)) (snd (opt_tok hdr))
    (zlen (if partial then drop 4 (pnb ++ body) else body)) (Some (if partial then drop 4 (pnb ++ body) else body)).

Lemma v1_pn_decode (hdr : QUIC_PKT_HDR) (partial : bool) (b0 : Z) (dst src : QUIC_CONN_ID) (pnb body tl : bytes) : token_ok hdr ->
  long_type (Z.land (Z.shiftr b0 4) 3) = ph_type hdr -> ph_type hdr <> QUIC_PKT_TYPE_RETRY ->
  (partial = false -> Z.land b0 3 + 1 = ph_pn_len hdr /\ Z.shiftr (Z.land b0 0x0c) 2 = ph_reserved hdr) ->
  zlen pnb = ph_pn_len hdr -> zlen body = ph_len hdr -> 1 <= ph_pn_len hdr <= 4 -> 4 <= ph_len hdr + ph_pn_len hdr <= OSSL_QUIC_VLINT_MAX ->
  decode_v1_hdr b0 (ph_version hdr) partial false dst src (opt_token hdr ++ venc (ph_len hdr + ph_pn_len hdr) ++ pnb ++ body ++ tl) =
    Some ((v1_hdr hdr partial dst src pnb body, Some (zlen (pnb ++ body ++ tl))), tl).
Proof.
  intros Ht Hty Hr Hf Hpz Hbz Hpn Hl. unfold decode_v1_hdr. rewrite Hty. unfold mbind at 1, reader_bind at 1. rewrite read_token_ok by done.
  unfold v1_hdr. destruct (opt_tok hdr) as [token token_len]. cbn [fst snd]. rewrite (proj2 (Z.eqb_neq _ _)) by done.
  rewrite bind_vlint by (unfold vlint; lia). rewrite bind_check by (apply negb_true_iff, Z.ltb_ge; lia). rewrite bind_remaining.
  pose proof (zlen_nonneg tl). pose proof (zlen_nonneg body).
  rewrite bind_check by (cbn [negb andb]; apply negb_true_iff, Z.ltb_ge; rewrite !zlen_app; lia).
  destruct partial.
  - destruct (split4 (pnb ++ body)) as (x & y & Hxy & Hx & Hy); [rewrite zlen_app; lia|]. rewrite zlen_app in Hy.
    rewrite (app_assoc pnb), Hxy, <- app_assoc. unfold mbind at 1, reader_bind at 1. rewrite (read_pn_partial x) by done.
    rewrite sub64_small by (unfold OSSL_QUIC_VLINT_MAX in *; u64_side). unfold mbind at 1, reader_bind at 1, PACKET_data.
    rewrite drop_app_length' by (unfold zlen in Hx; lia). rewrite (forward_all (fun _ => mret _)) by lia.
    unfold mret, reader_ret. do 3 f_equal. rewrite take_app_length' by (unfold zlen in *; lia). repeat (f_equal; try lia).
  - destruct (Hf eq_refl) as [Hf1 Hf2]. rewrite Hf1, Hf2, <- Hpz. unfold mbind at 1, reader_bind at 1. rewrite read_pn_full.
    rewrite sub64_small by (unfold OSSL_QUIC_VLINT_MAX in *; u64_side). unfold mbind at 1, reader_bind at 1, PACKET_data.
    rewrite (forward_all (fun _ => mret _)) by lia.
    unfold mret, reader_ret. do 3 f_equal. rewrite take_app_length' by (unfold zlen in *; lia). repeat (f_equal; try lia).
Qed.

Lemma cids_decode {A} (k : QUIC_CONN_ID -> QUIC_CONN_ID -> reader A) (old dst src : QUIC_CONN_ID) (old2 : QUIC_CONN_ID) (rest : bytes) :
  wf_cid dst -> wf_cid src ->
  (dst_len ← PACKET_get_1; _ ← check (negb (QUIC_MAX_CONN_ID_LEN <? dst_len)); d ← copy_cid old dst_len;
   src_len ← PACKET_get_1; _ ← check (negb (QUIC_MAX_CONN_ID_LEN <? src_len)); s ← copy_cid old2 src_len; k d s)
    ([cid_id_len dst] ++ cid_bytes dst ++ [cid_id_len src] ++ cid_bytes src ++ rest) =
  k (new_cid old dst) (new_cid old2 src) rest.
Proof.
  intros Hd Hs. destruct Hd as [Hd1 Hd2] eqn:E1, Hs as [Hs1 Hs2] eqn:E2. cbn [app]. rewrite bind_get_1, bind_check by (apply negb_true_iff, Z.ltb_ge; lia).
  unfold mbind at 1, reader_bind at 1. rewrite copy_cid_ok by done. rewrite bind_get_1, bind_check by (apply negb_true_iff, Z.ltb_ge; lia).
  unfold mbind at 1, reader_bind at 1. by rewrite copy_cid_ok.
Qed.

Lemma long_decode (hdr old : QUIC_PKT_HDR) (l b0 : Z) (partial nodata : bool) (rest : bytes) :
  wf_cid (ph_dst hdr) -> wf_cid (ph_src hdr) -> 0 <= ph_version hdr < 2 ^ 32 -> ph_version hdr = 0 \/ Z.land b0 0x40 <> 0 ->
  decode_long_hdr l b0 partial nodata old (cids_layout hdr ++ rest) =
  (let dst := new_cid (ph_dst old) (ph_dst hdr) in let src := new_cid (ph_src old) (ph_src hdr) in
   if ph_version hdr =? 0 then
     data ← PACKET_data; len ← PACKET_remaining; _ ← check (len mod 4 =? 0); _ ← PACKET_forward len;
     mret (Some (mkPktHdr QUIC_PKT_TYPE_VERSION_NEG false false 0 false (negb (Z.land b0 0x40 =? 0)) 0 0 (ph_version hdr) dst src
                   (replicate 4 0) None 0 len (Some (take (Z.to_nat len) data)), None))
   else if negb (ph_version hdr =? QUIC_VERSION_1) then mret None
   else _ ← check (negb (l <? QUIC_MIN_VALID_PKT_LEN_CRYPTO)); r ← decode_v1_hdr b0 (ph_version hdr) partial nodata dst src; mret (Some r)) rest.
Proof.
  intros Hd Hs Hv Hf. unfold decode_long_hdr, cids_layout. rewrite <- !app_assoc. unfold mbind at 1, reader_bind at 1. rewrite get_net_4_be by done.
  rewrite bind_check. 2:{ apply negb_true_iff, andb_false_iff. destruct Hf as [->|Hf]; [by left|right; by apply Z.eqb_neq]. }
  by rewrite cids_decode.
Qed.

(** The header a decode gives for a packet with a packet number. *)
Definition pn_hdr (hdr old : QUIC_PKT_HDR) (partial : bool) (pnb body : bytes) : QUIC_PKT_HDR :=
  let dst := new_cid (ph_dst old) (ph_dst hdr) in
  if ph_type hdr =? QUIC_PKT_TYPE_1RTT then
    mkPktHdr QUIC_PKT_TYPE_1RTT (ph_spin_bit hdr) (if partial then false else ph_key_phase hdr) (if partial then 0 else ph_pn_len hdr)
      partial true 0 (if partial then 0 else ph_reserved hdr) 0 dst (mkConnId 0 (cid_id (ph_src old)))
      (if partial then replicate 4 0 else pnb ++ replicate (4 - length pnb)%nat 0) None 0
      (zlen (if partial then drop 4 (pnb ++ body) else body)) (Some (if partial then drop 4 (pnb ++ body) else body))
  else v1_hdr hdr partial dst (new_cid (ph_src old) (ph_src hdr)) pnb body.

(** What the encoder needs of a header whose type has a packet number. *)
Record pn_encodable (scid_len : Z) (hdr : QUIC_PKT_HDR) : Prop := {
  pe_type : ph_type hdr = QUIC_PKT_TYPE_1RTT \/ ph_type hdr = QUIC_PKT_TYPE_INITIAL \/ ph_type hdr = QUIC_PKT_TYPE_0RTT \/
    ph_type hdr = QUIC_PKT_TYPE_HANDSHAKE;
  pe_partial : ph_partial hdr = false;
  pe_dst : wf_cid (ph_dst hdr);
  pe_src : wf_cid (ph_src hdr);
  pe_short : ph_type hdr = QUIC_PKT_TYPE_1RTT -> cid_id_len (ph_dst hdr) = scid_len;
  pe_pn_len : 1 <= ph_pn_len hdr <= 4;
  pe_pn : zlen (ph_pn hdr) = 4;
  pe_reserved : 0 <= ph_reserved hdr <= 3;
  pe_version : ph_type hdr <> QUIC_PKT_TYPE_1RTT -> ph_version hdr = QUIC_VERSION_1;
  pe_token : token_ok hdr;
  pe_len : 0 <= ph_len hdr /\ 4 <= ph_len hdr + ph_pn_len hdr <= OSSL_QUIC_VLINT_MAX }.

Lemma pe_has_pn (scid_len : Z) (hdr : QUIC_PKT_HDR) : pn_encodable scid_len hdr -> ossl_quic_pkt_type_has_pn (ph_type hdr) = true.
Proof. intros [[->|[->|[->| ->]]] _ _ _ _ _ _ _ _ _ _]; done. Qed.

Lemma pe_raw (scid_len : Z) (hdr : QUIC_PKT_HDR) : pn_encodable scid_len hdr -> ph_type hdr <> QUIC_PKT_TYPE_1RTT ->
  exists raw, raw_long_type (ph_type hdr) = Some raw /\ first_byte hdr = long_first_byte hdr raw.
Proof.
  intros [Ht _ _ _ _ _ _ _ _ _ _] Hne. unfold first_byte. rewrite (proj2 (Z.eqb_neq _ _)) by done.
  destruct Ht as [?|[->|[->| ->]]]; [done|eexists; split; reflexivity..].
Qed.

(** A first byte for which a partial decode reads what [first_byte hdr] says, and
    a full decode too when it is that byte. *)
Definition byte_for (hdr : QUIC_PKT_HDR) (partial : bool) (b0 : Z) : Prop :=
  same_form (first_byte hdr) b0 /\ (partial = false -> b0 = first_byte hdr).

Lemma check_all_ok (k : unit -> reader (QUIC_PKT_HDR * option Z)) (b1 : bool) (pkt : bytes) : b1 = true ->
  (x ← check b1; k x) pkt = k tt pkt.
Proof. by intros ->. Qed.

Lemma short_pn_decode (scid_len : Z) (hdr old : QUIC_PKT_HDR) (partial : bool) (b0 l : Z) (pnb body : bytes) : pn_encodable scid_len hdr ->
  ph_type hdr = QUIC_PKT_TYPE_1RTT -> byte_for hdr partial b0 -> zlen pnb = ph_pn_len hdr -> zlen body = ph_len hdr -> 21 <= l ->
  decode_short_hdr l b0 scid_len partial old (cid_bytes (ph_dst hdr) ++ pnb ++ body) =
    Some ((pn_hdr hdr old partial pnb body, Some (zlen (pnb ++ body))), []).
Proof.
  intros He Hty [Hform Hfull] Hpz Hbz Hl. destruct He as [_ _ Hd _ Hsc Hn Hpn Hr _ _ [Hln Hlen]]. specialize (Hsc Hty).
  assert (Hfb : first_byte hdr = short_first_byte hdr) by (unfold first_byte; by rewrite Hty). rewrite Hfb in *.
  destruct (short_byte_fields hdr Hn Hr) as (B1 & B2 & B3 & B4 & B5 & B6 & B7). destruct Hform as [_ F2 F3 _].
  unfold decode_short_hdr, pn_hdr. rewrite Hty. cbn [Z.eqb Pos.eqb]. destruct Hd as [Hd1 Hd2] eqn:Ed.
  rewrite bind_check by (apply negb_true_iff, Z.ltb_ge; lia).
  rewrite bind_check by (apply negb_true_iff, orb_false_iff; rewrite F2; split; [by apply Z.eqb_neq|apply Z.ltb_ge; unfold QUIC_MIN_VALID_PKT_LEN_CRYPTO; lia]).
  rewrite <- Hsc. unfold mbind at 1, reader_bind at 1. rewrite copy_cid_ok by done. rewrite bind_remaining. rewrite F3, B4.
  destruct partial.
  - destruct (split4 (pnb ++ body)) as (x & y & Hxy & Hx & Hy); [rewrite zlen_app; lia|]. rewrite Hxy.
    unfold mbind at 1, reader_bind at 1. rewrite (read_pn_partial x) by done. rewrite bind_remaining. unfold mbind at 1, reader_bind at 1, PACKET_data.
    pose proof (forward_all (fun _ => mret (mkPktHdr QUIC_PKT_TYPE_1RTT (ph_spin_bit hdr) false 0 true true 0 0 0 (new_cid (ph_dst old) (ph_dst hdr))
      (mkConnId 0 (cid_id (ph_src old))) (replicate 4 0) None 0 (zlen y) (Some (take (Z.to_nat (zlen y)) y)), Some (zlen (x ++ y)))) y [] (zlen y) eq_refl) as Hfw.
    rewrite app_nil_r in Hfw. rewrite Hfw. unfold mret, reader_ret. rewrite drop_app_length' by (unfold zlen in Hx; lia).
    do 4 f_equal. unfold zlen. rewrite Nat2Z.id, firstn_all. done.
  - rewrite (Hfull eq_refl), B5, B6, B7, <- Hpz. unfold mbind at 1, reader_bind at 1. rewrite read_pn_full. rewrite bind_remaining.
    unfold mbind at 1, reader_bind at 1, PACKET_data.
    pose proof (forward_all (fun _ => mret (mkPktHdr QUIC_PKT_TYPE_1RTT (ph_spin_bit hdr) (ph_key_phase hdr) (zlen pnb) false true 0 (ph_reserved hdr) 0 (new_cid (ph_dst old) (ph_dst hdr))
      (mkConnId 0 (cid_id (ph_src old))) (pnb ++ replicate (4 - length pnb)%nat 0) None 0 (zlen body) (Some (take (Z.to_nat (zlen body)) body)), Some (zlen (pnb ++ body)))) body [] (zlen body) eq_refl) as Hfw.
    rewrite app_nil_r in Hfw. rewrite Hfw. unfold mret, reader_ret. do 4 f_equal. unfold zlen. by rewrite Nat2Z.id, firstn_all.
Qed.

Lemma pn_decode (scid_len : Z) (hdr old : QUIC_PKT_HDR) (partial : bool) (b0 : Z) (pnb body tl : bytes) : pn_encodable scid_len hdr ->
  byte_for hdr partial b0 -> zlen pnb = ph_pn_len hdr -> zlen body = ph_len hdr -> (ph_type hdr = QUIC_PKT_TYPE_1RTT -> tl = []) ->
  let pkt := b0 :: hdr_mid hdr ++ pnb ++ body ++ tl in let off := 1 + zlen (hdr_mid hdr) in
  21 <= zlen pkt ->
  ossl_quic_wire_decode_pkt_hdr pkt scid_len partial false old =
    (Some (pn_hdr hdr old partial pnb body, mkPtrs (Some (off + 4)) ((zlen pkt - (off + 4)) mod U64_MOD) (Some off), tl), 0).
Proof.
  intros He Hb Hpz Hbz Htl pkt off Hl. pose proof He as [Ht _ Hd Hs _ Hn Hpn Hr Hv Htok [Hln Hlen]].
  unfold ossl_quic_wire_decode_pkt_hdr. set (l := zlen pkt) in *.
  assert (Hoff : l - zlen (pnb ++ body ++ tl) = off).
  { subst l off pkt. change (b0 :: hdr_mid hdr ++ pnb ++ body ++ tl) with ([b0] ++ hdr_mid hdr ++ pnb ++ body ++ tl). rewrite (zlen_app [b0]), (zlen_app (hdr_mid hdr)). change (zlen [b0]) with 1. lia. }
  assert (Hgo : forall go : reader (option (QUIC_PKT_HDR * option Z)),
    go pkt = Some (Some (pn_hdr hdr old partial pnb body, Some (zlen (pnb ++ body ++ tl))), tl) ->
    match go pkt with
    | None => (None, QUIC_PKT_HDR_DECODE_DECODE_ERR)
    | Some (None, _) => (None, Z.lor QUIC_PKT_HDR_DECODE_DECODE_ERR QUIC_PKT_HDR_DECODE_BAD_VERSION)
    | Some (Some (h, at_pn), rest) =>
        (Some (h, match at_pn with None => mkPtrs None 0 None
                  | Some remaining => mkPtrs (Some (l - remaining + 4)) ((l - (l - remaining + 4)) mod U64_MOD) (Some (l - remaining)) end, rest), 0)
    end = (Some (pn_hdr hdr old partial pnb body, mkPtrs (Some (off + 4)) ((l - (off + 4)) mod U64_MOD) (Some off), tl), 0)).
  { intros go ->. by rewrite Hoff. }
  apply Hgo. clear Hgo. unfold pkt. unfold mbind at 1, reader_bind at 1, check at 1.
  rewrite (proj2 (Z.ltb_ge l QUIC_MIN_VALID_PKT_LEN)) by (unfold QUIC_MIN_VALID_PKT_LEN; lia). cbn [negb].
  rewrite bind_get_1. pose proof Hb as [[F1 F2 F3 F4] Hfull]. destruct (Z.eq_dec (ph_type hdr) QUIC_PKT_TYPE_1RTT) as [Hty|Hty].
  - assert (Hfb : first_byte hdr = short_first_byte hdr) by (unfold first_byte; by rewrite Hty).
    destruct (short_byte_fields hdr Hn Hr) as (_ & B2 & _). rewrite Hfb in F1. rewrite F1, B2. cbn [Z.eqb].
    unfold hdr_mid. rewrite Hty, Z.eqb_refl, (Htl Hty), !app_nil_r. unfold mbind at 1, reader_bind at 1.
    by rewrite short_pn_decode.
  - destruct (pe_raw _ _ He Hty) as (raw & Hraw & Hfb). pose proof (pe_has_pn _ _ He) as Hhp. specialize (Hv Hty).
    destruct (long_byte_fields hdr raw Hraw Hhp Hn Hr) as (_ & B2 & B3 & B4 & B5 & B6). rewrite <- Hfb in *.
    rewrite F1, (proj2 (Z.eqb_neq _ _)) by done. unfold hdr_mid. rewrite (proj2 (Z.eqb_neq _ QUIC_PKT_TYPE_1RTT)), Hhp by done.
    assert (Hnr : ph_type hdr <> QUIC_PKT_TYPE_RETRY) by (destruct Ht as [->|[->|[->| ->]]]; done).
    rewrite (proj2 (Z.eqb_neq _ QUIC_PKT_TYPE_RETRY)), app_nil_r, <- !app_assoc by done.
    rewrite long_decode; auto; [|rewrite Hv; unfold QUIC_VERSION_1; lia|right; by rewrite F2].
    cbv zeta. rewrite Hv. change (QUIC_VERSION_1 =? 0) with false. change (QUIC_VERSION_1 =? QUIC_VERSION_1) with true. cbn [negb].
    rewrite bind_check by (apply negb_true_iff, Z.ltb_ge; unfold QUIC_MIN_VALID_PKT_LEN_CRYPTO; lia).
    unfold mbind at 1, reader_bind at 1. rewrite <- Hv, v1_pn_decode; auto.
    + unfold pn_hdr. by rewrite (proj2 (Z.eqb_neq _ QUIC_PKT_TYPE_1RTT)) by done.
    + rewrite (F4 B2). exact B4.
    + intros ->. by rewrite (Hfull eq_refl).
Qed.

(** *** Encoding *)

Lemma emits_run (a : writer) (bs d r : bytes) : emits a bs -> zlen bs <= zlen r ->
  a (mkWpkt d r) = (mkWpkt (d ++ bs) (drop (length bs) r), true).
Proof. intros Ha Hl. specialize (Ha (mkWpkt d r)). cbn in Ha. by rewrite (proj2 (Z.leb_le _ _)) in Ha. Qed.

Lemma prefix_emits (hdr : QUIC_PKT_HDR) (raw : Z) : wf_cid (ph_dst hdr) -> wf_cid (ph_src hdr) -> 0 <= ph_version hdr < 2 ^ 32 ->
  0 <= long_first_byte hdr raw < 256 -> emits (encode_long_prefix hdr raw) (long_first_byte hdr raw :: cids_layout hdr).
Proof.
  intros Hd Hs Hv Hb. unfold encode_long_prefix, cids_layout. change (long_first_byte hdr raw :: ?x) with ([long_first_byte hdr raw] ++ x).
  pose proof Hd as [Hd1 _]. pose proof Hs as [Hs1 _]. unfold QUIC_MAX_CONN_ID_LEN in *.
  apply (emits_seq _ _ [_]); [by apply put_byte_emits|]. apply emits_seq; [apply (emits_put_bytes (ph_version hdr) 4); lia|].
  apply (emits_seq _ _ [_]); [apply put_byte_emits; lia|]. apply emits_seq; [apply emits_memcpy|].
  apply (emits_seq _ _ [_]); [apply put_byte_emits; lia|apply emits_memcpy].
Qed.

Lemma encode_pn_ok (off_start : Z) (hdr : QUIC_PKT_HDR) (d pre r : bytes) : 1 <= ph_pn_len hdr <= 4 -> zlen (ph_pn hdr) = 4 ->
  zlen d = off_start -> 0 <= ph_len hdr -> zlen pre + ph_pn_len hdr + ph_len hdr <= zlen r ->
  encode_pn off_start hdr (mkWpkt (d ++ pre) (drop (length pre) r), true) =
    (mkWpkt (d ++ pre ++ pn_field hdr) (drop (length (pre ++ pn_field hdr)) r),
     Some (mkPtrs (Some (zlen pre + 4)) ((ph_pn_len hdr + ph_len hdr - 4) mod U64_MOD) (Some (zlen pre)))).
Proof.
  intros Hn Hp Ho Hl Hr. unfold encode_pn. cbn [wp_done]. pose proof (zlen_nonneg pre).
  assert (Hpf : zlen (pn_field hdr) = ph_pn_len hdr) by (apply zlen_take; lia).
  assert (Hdr : zlen (drop (length pre) r) = zlen r - zlen pre) by (unfold zlen in *; rewrite length_drop; lia).
  rewrite (emits_run _ (pn_field hdr)) by (try apply emits_memcpy; lia). cbn [wp_done].
  rewrite drop_drop, <- length_app, <- app_assoc. rewrite !zlen_app. unfold WPACKET_reserve_bytes. cbn [wp_rest].
  assert (Hdr2 : zlen (drop (length (pre ++ pn_field hdr)) r) = zlen r - zlen pre - ph_pn_len hdr).
  { unfold zlen in *. rewrite length_drop, length_app. lia. }
  rewrite Hdr2. destruct (Z.ltb_spec 0 (ph_len hdr)); cbn [andb].
  - rewrite (proj2 (Z.eqb_neq _ 0)) by lia. rewrite (proj2 (Z.ltb_ge _ _)) by lia. cbn [negb]. do 2 f_equal. f_equal; repeat (f_equal; try lia).
  - do 2 f_equal. f_equal; repeat (f_equal; try lia).
Qed.

Section PnEncode.
Context (scid_len : Z) (hdr : QUIC_PKT_HDR) (He : pn_encodable scid_len hdr).

Lemma pe_facts : zlen (pn_field hdr) = ph_pn_len hdr /\ bad_pn_len hdr = false /\
  hdr_bytes hdr = (first_byte hdr :: hdr_mid hdr) ++ pn_field hdr /\ zlen (first_byte hdr :: hdr_mid hdr) = 1 + zlen (hdr_mid hdr).
Proof.
  pose proof (pe_has_pn _ _ He) as Hhp. destruct He as [_ _ _ _ _ Hn Hpn _ _ _ _]. split_and!.
  - apply zlen_take; lia.
  - unfold bad_pn_len. apply orb_false_iff; split; apply Z.ltb_ge; lia.
  - unfold hdr_bytes, hdr_pn. by rewrite Hhp.
  - change (first_byte hdr :: hdr_mid hdr) with ([first_byte hdr] ++ hdr_mid hdr). by rewrite zlen_app.
Qed.

Lemma long_mid : ph_type hdr <> QUIC_PKT_TYPE_1RTT ->
  hdr_mid hdr = cids_layout hdr ++ opt_token hdr ++ venc (ph_len hdr + ph_pn_len hdr).
Proof.
  intros Hty. pose proof (pe_has_pn _ _ He) as Hhp. unfold hdr_mid. rewrite (proj2 (Z.eqb_neq _ QUIC_PKT_TYPE_1RTT)), Hhp by done.
  destruct (Z.eqb_spec (ph_type hdr) QUIC_PKT_TYPE_RETRY) as [Hr|]; [|by rewrite app_nil_r]. by rewrite Hr in Hhp.
Qed.

(** The length function gives the length of the header. *)
Lemma pn_hdr_len : ossl_quic_wire_get_encoded_pkt_hdr_len scid_len hdr = zlen (hdr_bytes hdr).
Proof.
  destruct pe_facts as (Hpf & Hbad & Hhb & Hpre). pose proof (pe_has_pn _ _ He) as Hhp.
  pose proof He as [Ht Hpa Hd Hs Hsc Hn Hpn Hrs Hv Htok [Hln Hlen]]. pose proof Hd as [Hd1 _]. pose proof Hs as [Hs1 _].
  pose proof (cid_bytes_len _ Hd) as Hdl. pose proof (cid_bytes_len _ Hs) as Hsl. unfold QUIC_MAX_CONN_ID_LEN in *.
  unfold ossl_quic_wire_get_encoded_pkt_hdr_len. rewrite Hpa, Hbad, Hhp, Hhb, zlen_app, Hpre, Hpf. unfold QUIC_MAX_CONN_ID_LEN.
  destruct (Z.eqb_spec (ph_type hdr) QUIC_PKT_TYPE_1RTT) as [Hty|Hty]; cbn [andb orb].
  - specialize (Hsc Hty). rewrite Hsc, Z.eqb_refl. cbn [negb]. rewrite (proj2 (Z.ltb_ge 20 scid_len)) by lia. cbn [orb].
    rewrite (add64_small 1), add64_small by u64_side. unfold hdr_mid. rewrite Hty, Z.eqb_refl. lia.
  - rewrite (proj2 (Z.ltb_ge 20 (cid_id_len (ph_dst hdr)))), (proj2 (Z.ltb_ge 20 (cid_id_len (ph_src hdr)))) by lia. cbn [orb].
    assert (Hml : ossl_quic_pkt_type_must_be_last (ph_type hdr) = false) by (destruct Ht as [?|[->|[->| ->]]]; [done|reflexivity..]).
    rewrite Hml. cbn [negb]. rewrite (add64_small (ph_len hdr)) by (unfold OSSL_QUIC_VLINT_MAX in *; u64_side).
    assert (Hvl2 : vlint (ph_len hdr + ph_pn_len hdr)) by (unfold vlint; lia). pose proof (encode_len_pos _ Hvl2) as Hep.
    pose proof (encode_length _ Hvl2) as Hel. rewrite (proj2 (Z.eqb_neq (ossl_quic_vlint_encode_len (ph_len hdr + ph_pn_len hdr)) 0)) by lia.
    rewrite long_mid, !zlen_app, Hel by done. unfold cids_layout. rewrite !zlen_app, Hdl, Hsl.
    change (zlen (be_bytes 4 (ph_version hdr))) with 4. change (zlen [cid_id_len (ph_dst hdr)]) with 1. change (zlen [cid_id_len (ph_src hdr)]) with 1.
    unfold opt_token in *. destruct (Z.eqb_spec (ph_type hdr) QUIC_PKT_TYPE_INITIAL) as [Hi|Hi]; cbn [andb].
    + destruct Htok as [Hv2 Htz]. specialize (Hv2 Hi). pose proof (encode_len_pos _ Hv2). rewrite (proj2 (Z.eqb_neq (ossl_quic_vlint_encode_len (ph_token_len hdr)) 0)) by lia.
      rewrite zlen_app, (encode_length _ Hv2), (token_bytes_len hdr) by (split; auto). unfold vlint, OSSL_QUIC_VLINT_MAX in *.
      rewrite (add64_small (1 + 4 + 1 + _ + 1 + _)), (add64_small (ossl_quic_vlint_encode_len _)), (add64_small (_ + _ + _)), add64_small by u64_side. lia.
    + change (zlen (@nil Z)) with 0. rewrite (add64_small (1 + 4 + 1 + _ + 1 + _)), add64_small by u64_side. lia.
Qed.

(** A header with a packet number is written as [hdr_bytes]. *)
Definition pn_encodes : Prop := forall d r, zlen (hdr_bytes hdr) + ph_len hdr <= zlen r -> let off := 1 + zlen (hdr_mid hdr) in
  ossl_quic_wire_encode_pkt_hdr scid_len hdr (mkWpkt d r) =
    (mkWpkt (d ++ hdr_bytes hdr) (drop (length (hdr_bytes hdr)) r),
     Some (mkPtrs (Some (off + 4)) ((ph_pn_len hdr + ph_len hdr - 4) mod U64_MOD) (Some off))).

Lemma short_encode : ph_type hdr = QUIC_PKT_TYPE_1RTT -> pn_encodes.
Proof.
  intros Hty d r Hr off. destruct pe_facts as (Hpf & Hbad & Hhb & Hpre). pose proof He as [_ Hpa Hd _ Hsc Hn Hpn Hrs _ _ [Hln Hlen]].
  specialize (Hsc Hty). pose proof Hd as [Hd1 _]. fold off in Hpre. rewrite Hhb, zlen_app, Hpf, Hpre in Hr.
  assert (Hfb : first_byte hdr = short_first_byte hdr) by (unfold first_byte; by rewrite Hty). destruct (short_byte_fields hdr Hn Hrs) as (B1 & _).
  assert (Hmid : hdr_mid hdr = cid_bytes (ph_dst hdr)) by (unfold hdr_mid; by rewrite Hty). rewrite Hmid, Hfb in *.
  unfold ossl_quic_wire_encode_pkt_hdr. rewrite Hpa, Hbad, Hty, Z.eqb_refl, Hsc, Z.eqb_refl. cbn [orb andb negb].
  rewrite (proj2 (Z.ltb_ge QUIC_MAX_CONN_ID_LEN scid_len)) by lia. cbn [orb]. rewrite <- Hsc. fold (cid_bytes (ph_dst hdr)).
  rewrite (emits_run _ (short_first_byte hdr :: cid_bytes (ph_dst hdr))); [|apply (emits_seq _ _ [_]); [by apply put_byte_emits|apply emits_memcpy]|lia].
  rewrite encode_pn_ok by (auto; lia). by rewrite Hhb, Hpre.
Qed.

Lemma long_encode : ph_type hdr <> QUIC_PKT_TYPE_1RTT -> pn_encodes.
Proof.
  intros Hty d r Hr off. destruct pe_facts as (Hpf & Hbad & Hhb & Hpre). pose proof (pe_has_pn _ _ He) as Hhp.
  pose proof He as [Ht Hpa Hd Hs _ Hn Hpn Hrs Hv Htok [Hln Hlen]]. pose proof Hd as [Hd1 _]. pose proof Hs as [Hs1 _]. specialize (Hv Hty).
  fold off in Hpre. rewrite Hhb, zlen_app, Hpf, Hpre in Hr.
  destruct (pe_raw _ _ He Hty) as (raw & Hraw & Hfb). destruct (long_byte_fields hdr raw Hraw Hhp Hn Hrs) as (B1 & _).
  assert (Hnv : ph_type hdr <> QUIC_PKT_TYPE_VERSION_NEG /\ ph_type hdr <> QUIC_PKT_TYPE_RETRY) by (destruct Ht as [->|[->|[->| ->]]]; done).
  destruct Hnv as [Hnv Hnr]. unfold ossl_quic_wire_encode_pkt_hdr. rewrite Hpa, Hbad, Hhp, (proj2 (Z.eqb_neq _ QUIC_PKT_TYPE_1RTT)) by done. cbn [orb andb].
  rewrite (proj2 (Z.ltb_ge QUIC_MAX_CONN_ID_LEN (cid_id_len (ph_dst hdr)))), (proj2 (Z.ltb_ge QUIC_MAX_CONN_ID_LEN (cid_id_len (ph_src hdr)))) by lia.
  rewrite (proj2 (Z.eqb_neq _ QUIC_PKT_TYPE_VERSION_NEG)), (proj2 (Z.eqb_neq _ QUIC_PKT_TYPE_RETRY)) by done. cbn [orb andb]. rewrite Hraw.
  assert (Htokb : emits (wwhen (ph_type hdr =? QUIC_PKT_TYPE_INITIAL) (WPACKET_quic_write_vlint (ph_token_len hdr) ;;; WPACKET_memcpy (token_bytes hdr)))
    (opt_token hdr)).
  { unfold opt_token. apply emits_when. intros Hi%Z.eqb_eq. apply emits_seq; [apply emits_vlint, Htok, Hi|apply emits_memcpy]. }
  assert (Hvl : emits (WPACKET_quic_write_vlint (ph_len hdr +u ph_pn_len hdr)) (venc (ph_len hdr + ph_pn_len hdr))).
  { rewrite add64_small by (unfold OSSL_QUIC_VLINT_MAX in *; u64_side). apply emits_vlint. unfold vlint. lia. }
  pose proof (prefix_emits hdr raw Hd Hs ltac:(rewrite Hv; unfold QUIC_VERSION_1; lia) B1) as Hpe. rewrite <- Hfb in Hpe.
  pose proof (zlen_nonneg (opt_token hdr)). pose proof (zlen_nonneg (venc (ph_len hdr + ph_pn_len hdr))).
  set (P := first_byte hdr :: cids_layout hdr) in *.
  assert (HP : P ++ opt_token hdr ++ venc (ph_len hdr + ph_pn_len hdr) = first_byte hdr :: hdr_mid hdr) by (rewrite long_mid by done; done).
  pose proof Hpre as Hlp. rewrite <- HP, !zlen_app in Hlp.
  rewrite (emits_run _ P) by (auto; lia). rewrite (emits_run _ (opt_token hdr)) by (auto; unfold zlen in *; rewrite length_drop; lia).
  rewrite drop_drop, <- length_app, <- (app_assoc d).
  rewrite (emits_run _ (venc (ph_len hdr + ph_pn_len hdr))) by (auto; unfold zlen in *; rewrite length_drop, length_app; lia).
  rewrite drop_drop, <- length_app, <- (app_assoc d), <- (app_assoc P), HP, encode_pn_ok by (auto; lia). by rewrite Hhb, Hpre.
Qed.

Lemma pn_encode : pn_encodes.
Proof. destruct (Z.eq_dec (ph_type hdr) QUIC_PKT_TYPE_1RTT); auto using short_encode, long_encode. Qed.
End PnEncode.

(** *** Version Negotiation and Retry packets *)

(** What the encoder needs of a header without a packet number. *)
Record plain_encodable (hdr : QUIC_PKT_HDR) : Prop := {
  pl_type : (ph_type hdr = QUIC_PKT_TYPE_VERSION_NEG /\ ph_version hdr = 0) \/ (ph_type hdr = QUIC_PKT_TYPE_RETRY /\ ph_version hdr = QUIC_VERSION_1);
  pl_partial : ph_partial hdr = false;
  pl_dst : wf_cid (ph_dst hdr);
  pl_src : wf_cid (ph_src hdr);
  pl_unused : 0 <= ph_unused hdr <= 15;
  pl_token : token_ok hdr;
  pl_len : 0 <= ph_len hdr }.

(** The header a decode gives: the token of a Retry packet is at the start of its data. *)
Definition plain_hdr (hdr old : QUIC_PKT_HDR) (body : bytes) : QUIC_PKT_HDR :=
  let retry := ph_type hdr =? QUIC_PKT_TYPE_RETRY in
  let data := if retry then token_bytes hdr ++ body else body in
  mkPktHdr (ph_type hdr) false false 0 false (if retry then true else ph_fixed hdr) (if retry then ph_unused hdr else 0) 0 (ph_version hdr)
    (new_cid (ph_dst old) (ph_dst hdr)) (new_cid (ph_src old) (ph_src hdr)) (replicate 4 0) None 0 (zlen data) (Some data).

Lemma take_zlen {A} (l : list A) : take (Z.to_nat (zlen l)) l = l.
Proof. apply take_ge. unfold zlen. lia. Qed.

(** Decides the tests of a known packet type. *)
Ltac pkt_types :=
  unfold ossl_quic_pkt_type_has_pn, ossl_quic_pkt_type_is_encrypted, raw_long_type, QUIC_PKT_TYPE_INITIAL, QUIC_PKT_TYPE_0RTT,
    QUIC_PKT_TYPE_HANDSHAKE, QUIC_PKT_TYPE_RETRY, QUIC_PKT_TYPE_1RTT, QUIC_PKT_TYPE_VERSION_NEG in *;
  cbn [Z.eqb Pos.eqb orb negb andb wwhen app] in *.

Lemma plain_encode (scid_len : Z) (hdr : QUIC_PKT_HDR) (d r : bytes) : plain_encodable hdr -> zlen (hdr_bytes hdr) + ph_len hdr <= zlen r ->
  ossl_quic_wire_encode_pkt_hdr scid_len hdr (mkWpkt d r) =
    (mkWpkt (d ++ hdr_bytes hdr) (drop (length (hdr_bytes hdr)) r), Some (mkPtrs None 0 None)).
Proof.
  intros [Ht Hpa Hd Hs Hu Htok Hln] Hr. pose proof Hd as [Hd1 _]. pose proof Hs as [Hs1 _].
  unfold ossl_quic_wire_encode_pkt_hdr. rewrite Hpa. cbn [orb andb].
  assert (Hraw : exists raw, raw_long_type (ph_type hdr) = Some raw /\
    ((ph_type hdr = QUIC_PKT_TYPE_VERSION_NEG /\ raw = 0) \/ (ph_type hdr = QUIC_PKT_TYPE_RETRY /\ raw = 3)))
    by (destruct Ht as [[-> _]|[-> _]]; eexists; (split; [reflexivity|auto])).
  destruct Hraw as (raw & Hraw & Hrt). destruct (plain_byte_fields hdr raw Hu Hrt) as (B1 & _).
  assert (Hfb : first_byte hdr = long_first_byte hdr raw) by (unfold first_byte; rewrite Hraw; by destruct Ht as [[-> _]|[-> _]]).
  pose proof (prefix_emits hdr raw Hd Hs ltac:(destruct Ht as [[_ ->]|[_ ->]]; unfold QUIC_VERSION_1; lia) B1) as Hpe. rewrite <- Hfb in Hpe.
  rewrite (proj2 (Z.ltb_ge QUIC_MAX_CONN_ID_LEN (cid_id_len (ph_dst hdr)))), (proj2 (Z.ltb_ge QUIC_MAX_CONN_ID_LEN (cid_id_len (ph_src hdr)))) by lia.
  unfold hdr_bytes, hdr_mid, hdr_pn, opt_token in *. destruct Ht as [[Hty Hv]|[Hty Hv]]; rewrite Hty in *; pkt_types.
  - rewrite Hv. cbn [Z.eqb negb]. injection Hraw as <-. rewrite !app_nil_r in *. rewrite (emits_run _ _ d r Hpe) by lia.
    unfold WPACKET_reserve_bytes. cbn [wp_rest]. destruct (Z.ltb_spec 0 (ph_len hdr)); cbn [andb]; [|done].
    rewrite (proj2 (Z.eqb_neq _ 0)) by lia. rewrite (proj2 (Z.ltb_ge _ _)) by (unfold zlen in *; rewrite length_drop; lia). done.
  - injection Hraw as <-. rewrite !app_nil_r in *. change (first_byte hdr :: cids_layout hdr ++ ?x) with ((first_byte hdr :: cids_layout hdr) ++ x) in *.
    rewrite zlen_app in Hr. pose proof (zlen_nonneg (token_bytes hdr)). rewrite (emits_run _ _ d r Hpe) by lia. unfold wok.
    rewrite (emits_run _ (token_bytes hdr)) by (try apply emits_memcpy; unfold zlen in *; rewrite length_drop; lia).
    by rewrite drop_drop, <- length_app, <- app_assoc.
Qed.

Lemma plain_decode (scid_len : Z) (hdr old : QUIC_PKT_HDR) (body : bytes) : plain_encodable hdr ->
  (ph_type hdr = QUIC_PKT_TYPE_VERSION_NEG -> zlen body mod 4 = 0) -> 21 <= zlen (hdr_bytes hdr ++ body) ->
  ossl_quic_wire_decode_pkt_hdr (hdr_bytes hdr ++ body) scid_len false false old =
    (Some (plain_hdr hdr old body, mkPtrs None 0 None, []), 0).
Proof.
  intros [Ht Hpa Hd Hs Hu Htok Hln] Hm Hl. unfold ossl_quic_wire_decode_pkt_hdr. set (l := zlen (hdr_bytes hdr ++ body)) in *. clearbody l.
  assert (Hraw : exists raw, first_byte hdr = long_first_byte hdr raw /\
    ((ph_type hdr = QUIC_PKT_TYPE_VERSION_NEG /\ raw = 0) \/ (ph_type hdr = QUIC_PKT_TYPE_RETRY /\ raw = 3))).
  { unfold first_byte. destruct Ht as [[-> _]|[-> _]]; eexists; (split; [reflexivity|auto]). }
  destruct Hraw as (raw & Hfb & Hrt). destruct (plain_byte_fields hdr raw Hu Hrt) as (B1 & B2 & B3 & B4). rewrite <- Hfb in *. clear Hrt Hfb.
  unfold hdr_bytes, hdr_mid, hdr_pn, opt_token, plain_hdr. unfold mbind at 1, reader_bind at 1, check at 1.
  rewrite (proj2 (Z.ltb_ge l QUIC_MIN_VALID_PKT_LEN)) by (unfold QUIC_MIN_VALID_PKT_LEN; lia). cbn [negb app].
  rewrite bind_get_1, (proj2 (Z.eqb_neq (Z.land (first_byte hdr) 128) 0)) by done. destruct Ht as [[Hty Hv]|[Hty Hv]].
  - specialize (Hm Hty). specialize (B3 Hty). clear B4. rewrite Hty in *. pkt_types. rewrite !app_nil_r.
    rewrite long_decode by (auto; rewrite Hv; lia). rewrite Hv. cbn [Z.eqb]. unfold mbind at 1, reader_bind at 1, PACKET_data.
    rewrite bind_remaining, bind_check by (by apply Z.eqb_eq). unfold mbind, reader_bind, PACKET_forward, packet_forward, mret, reader_ret.
    rewrite Z.ltb_irrefl, take_zlen, (drop_ge body), B3 by (unfold zlen; lia). done.
  - clear B3. destruct (B4 Hty) as (B5 & B6 & B7). rewrite Hty in *. pkt_types. rewrite !app_nil_r, <- app_assoc.
    rewrite long_decode by (auto; rewrite Hv; unfold QUIC_VERSION_1; lia). rewrite Hv. change (QUIC_VERSION_1 =? 0) with false.
    change (QUIC_VERSION_1 =? QUIC_VERSION_1) with true. cbn [negb]. cbv zeta.
    rewrite bind_check by (apply negb_true_iff, Z.ltb_ge; unfold QUIC_MIN_VALID_PKT_LEN_CRYPTO; lia).
    unfold decode_v1_hdr. rewrite B6. change (long_type 3) with 4. change (4 =? QUIC_PKT_TYPE_RETRY) with true. cbn iota beta zeta.
    unfold mbind, reader_bind, read_token, PACKET_data, PACKET_remaining, PACKET_forward, packet_forward, mret, reader_ret.
    change (4 =? QUIC_PKT_TYPE_INITIAL) with false. cbn iota beta.
    rewrite Z.ltb_irrefl, take_zlen, (drop_ge (token_bytes hdr ++ body)), B7 by (unfold zlen; lia). done.
Qed.

(** What a receiver gets back: the fields the packet type carries; the rest is cleared. *)
Record recovered (hdr h : QUIC_PKT_HDR) (body : bytes) : Prop := {
  rc_type : ph_type h = ph_type hdr;
  rc_full : ph_partial h = false;
  rc_dst : cid_id_len (ph_dst h) = cid_id_len (ph_dst hdr) /\ cid_bytes (ph_dst h) = cid_bytes (ph_dst hdr);
  rc_src : ph_type hdr <> QUIC_PKT_TYPE_1RTT -> ph_version h = ph_version hdr /\
    cid_id_len (ph_src h) = cid_id_len (ph_src hdr) /\ cid_bytes (ph_src h) = cid_bytes (ph_src hdr);
  rc_pn : ossl_quic_pkt_type_has_pn (ph_type hdr) = true ->
    ph_pn_len h = ph_pn_len hdr /\ pn_field h = pn_field hdr /\ ph_reserved h = ph_reserved hdr;
  rc_short : ph_type hdr = QUIC_PKT_TYPE_1RTT -> ph_spin_bit h = ph_spin_bit hdr /\ ph_key_phase h = ph_key_phase hdr;
  rc_token : ph_type hdr = QUIC_PKT_TYPE_INITIAL -> ph_token_len h = ph_token_len hdr /\ token_bytes h = token_bytes hdr;
  rc_unused : ph_type hdr = QUIC_PKT_TYPE_RETRY -> ph_unused h = ph_unused hdr;
  rc_fixed : ph_fixed h = if ph_type hdr =? QUIC_PKT_TYPE_VERSION_NEG then ph_fixed hdr else true;
  rc_data : ph_data h = Some (if ph_type hdr =? QUIC_PKT_TYPE_RETRY then token_bytes hdr ++ body else body) /\
    ph_len h = zlen (default [] (ph_data h)) }.

Lemma pn_recovered (scid_len : Z) (hdr old : QUIC_PKT_HDR) (body : bytes) : pn_encodable scid_len hdr ->
  recovered hdr (pn_hdr hdr old false (pn_field hdr) body) body.
Proof.
  intros He. pose proof He as [Ht _ Hd Hs _ Hn Hpn _ _ Htok _]. destruct (pe_facts _ _ He) as (Hpf & _).
  assert (Hpnf : take (Z.to_nat (ph_pn_len hdr)) (pn_field hdr ++ replicate (4 - length (pn_field hdr))%nat 0) = pn_field hdr).
  { rewrite take_app_le by (unfold zlen in Hpf; lia). apply take_ge. unfold zlen in Hpf. lia. }
  pose proof (new_cid_bytes (ph_dst old) _ Hd) as Hnd. pose proof (new_cid_bytes (ph_src old) _ Hs) as Hns.
  unfold pn_hdr. destruct (Z.eqb_spec (ph_type hdr) QUIC_PKT_TYPE_1RTT) as [Hty|Hty].
  - split; rewrite ?Hty; cbn [ph_type ph_partial ph_dst ph_src ph_version ph_pn_len ph_reserved ph_spin_bit ph_key_phase ph_fixed ph_data ph_len]; try done.
  - unfold v1_hdr. split; cbn [ph_type ph_partial ph_dst ph_src ph_version ph_pn_len ph_reserved ph_spin_bit ph_key_phase ph_fixed ph_data ph_len ph_token_len ph_unused];
      try done.
    + intros Hi. unfold token_bytes at 1, opt_tok. cbn [ph_token ph_token_len]. rewrite (proj2 (Z.eqb_eq _ _) Hi). cbn [fst snd]. split; [done|].
      destruct (Z.eqb_spec (ph_token_len hdr) 0) as [H0|H0]; cbn.
      * rewrite H0. cbn. symmetry. apply nil_length_inv. pose proof (token_bytes_len _ Htok). unfold zlen in *. lia.
      * apply take_ge. pose proof (token_bytes_len _ Htok). unfold zlen in *. lia.
    + by destruct Ht as [->|[->|[->| ->]]].
    + by destruct Ht as [->|[->|[->| ->]]].
    + by destruct Ht as [->|[->|[->| ->]]].
Qed.

Lemma plain_recovered (hdr old : QUIC_PKT_HDR) (body : bytes) : plain_encodable hdr -> recovered hdr (plain_hdr hdr old body) body.
Proof.
  intros [Ht _ Hd Hs _ _ _]. pose proof (new_cid_bytes (ph_dst old) _ Hd) as Hnd. pose proof (new_cid_bytes (ph_src old) _ Hs) as Hns.
  unfold plain_hdr. destruct Ht as [[Hty _]|[Hty _]]; split; rewrite ?Hty;
    cbn [ph_type ph_partial ph_dst ph_src ph_version ph_pn_len ph_reserved ph_spin_bit ph_key_phase ph_fixed ph_data ph_len ph_token_len ph_unused]; done.
Qed.

(** C35.  Packet header round trip: for every header the encoder accepts it appends exactly
    the layout of RFC 9000, of the length predicted, and a receiver that decodes these
    bytes with the payload and whatever follows in the datagram gets back all the
    fields the packet type carries, the same payload, and the rest of the datagram; both
    sides find the packet number and the sample at the same place. *)
Theorem pkt_hdr_roundtrip (scid_len : Z) (hdr old : QUIC_PKT_HDR) (d r body tl : bytes) :
  pn_encodable scid_len hdr \/ plain_encodable hdr ->
  zlen (hdr_bytes hdr) + ph_len hdr <= zlen r -> zlen body = ph_len hdr -> 21 <= zlen (hdr_bytes hdr ++ body ++ tl) ->
  (ossl_quic_pkt_type_must_be_last (ph_type hdr) = true -> tl = []) -> (ph_type hdr = QUIC_PKT_TYPE_VERSION_NEG -> zlen body mod 4 = 0) ->
  exists w ptrs h ptrs', ossl_quic_wire_encode_pkt_hdr scid_len hdr (mkWpkt d r) = (w, Some ptrs) /\ wp_done w = d ++ hdr_bytes hdr /\
    ossl_quic_wire_decode_pkt_hdr (hdr_bytes hdr ++ body ++ tl) scid_len false false old = (Some (h, ptrs', tl), 0) /\
    recovered hdr h body /\ raw_pn ptrs' = raw_pn ptrs /\ raw_sample ptrs' = raw_sample ptrs /\
    (ossl_quic_pkt_type_has_pn (ph_type hdr) = true -> ossl_quic_wire_get_encoded_pkt_hdr_len scid_len hdr = zlen (hdr_bytes hdr)).
Proof.
  intros [He|He] Hr Hb Hl Htl Hm.
  - destruct (pe_facts _ _ He) as (Hpf & _ & Hhb & _). rewrite (pn_encode _ _ He d r Hr).
    assert (Hpk : hdr_bytes hdr ++ body ++ tl = first_byte hdr :: hdr_mid hdr ++ pn_field hdr ++ body ++ tl).
    { rewrite Hhb. cbn [app]. by rewrite <- !app_assoc. }
    rewrite Hpk in *. do 4 eexists. split; [reflexivity|]. split; [done|].
    rewrite (pn_decode scid_len hdr old false); auto; [|by split; [apply form_refl|]|intros Hty; apply Htl; by rewrite Hty].
    split; [done|]. split; [by eapply pn_recovered|]. split_and!; [done|done|]. intros _. by apply pn_hdr_len.
  - rewrite (plain_encode scid_len hdr d r He Hr). assert (tl = []) as ->.
    { apply Htl. destruct He as [[[-> _]|[-> _]] _ _ _ _ _ _]; done. }
    rewrite app_nil_r in *. rewrite (plain_decode scid_len hdr old body He Hm Hl). do 4 eexists. split; [reflexivity|].
    split_and!; try done; [by apply plain_recovered|]. intros Hp. by destruct He as [[[Hx _]|[Hx _]] _ _ _ _ _ _]; rewrite Hx in Hp.
Qed.

(** *** Header protection *)

Lemma xor_pn_len (n : nat) : forall x mask, length (xor_pn n x mask) = length x.
Proof. induction n as [|n IH]; intros [|b x] [|m mask]; cbn; auto. Qed.

Lemma xor_pn_app (n : nat) : forall x y mask, length x = n -> xor_pn n (x ++ y) mask = xor_pn n x mask ++ y.
Proof.
  induction n as [|n IH]; intros [|b x] y mask Hx; try done. cbn in Hx. cbn [app xor_pn]. destruct mask; [done|].
  cbn [app]. by rewrite IH by lia.
Qed.

Lemma xor_pn_twice (n : nat) : forall x mask, xor_pn n (xor_pn n x mask) mask = x.
Proof.
  induction n as [|n IH]; intros [|b x] [|m mask]; try done. cbn [xor_pn]. rewrite IH. by rewrite Z.lxor_assoc, Z.lxor_nilpotent, Z.lxor_0_r.
Qed.

Lemma unmask_first (b0 m0 : Z) : let b1 := Z.lxor b0 (first_byte_mask b0 m0) in Z.lxor b1 (first_byte_mask b1 m0) = b0.
Proof.
  cbn zeta. assert (Hm : first_byte_mask (Z.lxor b0 (first_byte_mask b0 m0)) m0 = first_byte_mask b0 m0).
  { unfold first_byte_mask at 1. rewrite (sf_long _ _ (protected_form b0 m0)). done. }
  by rewrite Hm, Z.lxor_assoc, Z.lxor_nilpotent, Z.lxor_0_r.
Qed.

Section ProtectSpec.
Context (cipher_id : Z) (EVP_aes_ecb : bytes -> option bytes) (EVP_chacha : bytes -> bytes -> option bytes).
Hypothesis Hcipher : cipher_id = QUIC_HDR_PROT_CIPHER_AES_128 \/ cipher_id = QUIC_HDR_PROT_CIPHER_AES_256 \/ cipher_id = QUIC_HDR_PROT_CIPHER_CHACHA.
(** A working crypto library: block and stream lengths. *)
Hypothesis Haes : forall s, zlen s = 16 -> exists out, EVP_aes_ecb s = Some out /\ zlen out = 16.
Hypothesis Hchacha : forall s z, zlen s = 16 -> exists out, EVP_chacha s z = Some out /\ zlen out = zlen z.

Abbreviation gen_mask := (hdr_generate_mask cipher_id EVP_aes_ecb EVP_chacha).

Lemma gen_mask_ok (s : bytes) : 16 <= zlen s -> exists m, gen_mask s = Some m.
Proof.
  intros Hs. assert (H16 : zlen (take 16 s) = 16) by (apply (zlen_take 16); lia). unfold hdr_generate_mask.
  rewrite (proj2 (Z.ltb_ge (zlen s) 16)) by lia. destruct (Haes _ H16) as (a & -> & _), (Hchacha _ (replicate 5 0) H16) as (c & -> & _).
  destruct Hcipher as [->|[->| ->]]; cbn; eauto.
Qed.

(** Only the first sixteen bytes of the sample count. *)
Lemma gen_mask_prefix (s t : bytes) : 16 <= zlen s -> 16 <= zlen t -> take 16 s = take 16 t -> gen_mask s = gen_mask t.
Proof.
  intros Hs Ht He. unfold hdr_generate_mask. by rewrite He, (proj2 (Z.ltb_ge (zlen s) 16)), (proj2 (Z.ltb_ge (zlen t) 16)) by lia.
Qed.

(** A packet with its header split at the packet number, and the pointers to it. *)
Definition split_pkt (b0 : Z) (mid pnb rest : bytes) : bytes := b0 :: mid ++ pnb ++ rest.
Definition ptrs_for (mid : bytes) (n : Z) : QUIC_PKT_HDR_PTRS := mkPtrs (Some (1 + zlen mid + 4)) n (Some (1 + zlen mid)).

Lemma split_drop (b0 : Z) (mid pnb rest : bytes) : drop (Z.to_nat (1 + zlen mid)) (split_pkt b0 mid pnb rest) = pnb ++ rest.
Proof. unfold split_pkt, zlen. replace (Z.to_nat (1 + Z.of_nat (length mid))) with (S (length mid)) by lia. cbn [drop]. apply drop_app_length. Qed.

Lemma split_sample (b0 : Z) (mid pnb rest : bytes) : (length pnb <= 4)%nat ->
  drop (Z.to_nat (1 + zlen mid + 4)) (split_pkt b0 mid pnb rest) = drop (4 - length pnb) rest.
Proof.
  intros Hp. rewrite Z2Nat.inj_add by (pose proof (zlen_nonneg mid); lia). rewrite <- drop_drop, split_drop.
  change (Z.to_nat 4) with 4%nat. rewrite drop_app, drop_ge by lia. done.
Qed.

Lemma split_head (b0 : Z) (mid pnb rest : bytes) : drop 1 (take (Z.to_nat (1 + zlen mid)) (split_pkt b0 mid pnb rest)) = mid.
Proof.
  unfold split_pkt, zlen. replace (Z.to_nat (1 + Z.of_nat (length mid))) with (S (length mid)) by lia. cbn [take drop]. apply take_app_length.
Qed.

Lemma protect_split (f : bytes -> Z -> bytes -> option (Z * bytes)) (b0 : Z) (mid pnb rest : bytes) (n : Z) : (length pnb <= 4)%nat ->
  protect_with f (split_pkt b0 mid pnb rest) (ptrs_for mid n) =
  match f (take (Z.to_nat n) (drop (4 - length pnb) rest)) b0 (pnb ++ rest) with
  | None => None
  | Some (b0', pn') => Some (b0' :: mid ++ pn')
  end.
Proof.
  intros Hp. unfold protect_with, ptrs_for. cbn [raw_sample raw_pn raw_sample_len]. rewrite split_sample, split_drop, split_head by done. done.
Qed.

(** Protecting a packet and removing the protection of what arrives gives the packet back,
    whatever follows it in the datagram. *)
Lemma protect_unprotect (b0 n : Z) (mid pnb body : bytes) : Z.land b0 3 + 1 = zlen pnb -> 1 <= zlen pnb <= 4 ->
  20 <= zlen pnb + zlen body -> n = zlen pnb + zlen body - 4 ->
  exists b1 pnb', same_form b0 b1 /\ zlen pnb' = zlen pnb /\
    ossl_quic_hdr_protector_encrypt cipher_id EVP_aes_ecb EVP_chacha (split_pkt b0 mid pnb body) (ptrs_for mid n) = Some (split_pkt b1 mid pnb' body) /\
    forall tl, ossl_quic_hdr_protector_decrypt cipher_id EVP_aes_ecb EVP_chacha (split_pkt b1 mid pnb' (body ++ tl)) (ptrs_for mid (n + zlen tl)) =
      Some (split_pkt b0 mid pnb (body ++ tl)).
Proof.
  intros Hpl Hp Hbody ->. set (s := drop (4 - length pnb) body).
  assert (Hs : 16 <= zlen s) by (subst s; unfold zlen in *; rewrite length_drop; lia).
  assert (Hz : zlen s = zlen pnb + zlen body - 4) by (subst s; unfold zlen in *; rewrite length_drop; lia).
  destruct (gen_mask_ok s Hs) as (mask & Hmask).
  exists (Z.lxor b0 (first_byte_mask b0 (byte_at mask 0))), (xor_pn (length pnb) pnb (drop 1 mask)).
  assert (Hn : Z.to_nat (Z.land b0 3 + 1) = length pnb) by (rewrite Hpl; unfold zlen; lia).
  split_and!; [apply protected_form|unfold zlen; by rewrite xor_pn_len|..].
  - unfold ossl_quic_hdr_protector_encrypt. rewrite protect_split by (unfold zlen in *; lia). fold s. rewrite (take_ge s) by (unfold zlen in *; lia).
    unfold ossl_quic_hdr_protector_encrypt_fields. rewrite Hmask, Hn. rewrite xor_pn_app by done. done.
  - intros tl. pose proof (zlen_nonneg tl) as Htl.
    unfold ossl_quic_hdr_protector_decrypt. rewrite protect_split by (rewrite xor_pn_len; unfold zlen in *; lia). rewrite xor_pn_len.
    unfold ossl_quic_hdr_protector_decrypt_fields.
    assert (Hs2 : drop (4 - length pnb) (body ++ tl) = s ++ tl) by (subst s; apply drop_app_le; unfold zlen in *; lia). rewrite Hs2.
    rewrite take_ge by (unfold zlen in *; rewrite length_app; lia).
    rewrite (gen_mask_prefix (s ++ tl) s), Hmask; [|rewrite zlen_app; lia|done|apply take_app_le; unfold zlen in *; lia].
    rewrite unmask_first, Hn, xor_pn_app by (by rewrite xor_pn_len). by rewrite xor_pn_twice.
Qed.

Lemma hdr_split (scid_len : Z) (hdr : QUIC_PKT_HDR) (x : bytes) : pn_encodable scid_len hdr ->
  hdr_bytes hdr ++ x = split_pkt (first_byte hdr) (hdr_mid hdr) (pn_field hdr) x.
Proof. intros He. destruct (pe_facts _ _ He) as (_ & _ & Hhb & _). rewrite Hhb. unfold split_pkt. cbn [app]. by rewrite <- !app_assoc. Qed.

Lemma split_len (b0 : Z) (mid pnb rest : bytes) : zlen (split_pkt b0 mid pnb rest) = 1 + zlen mid + zlen pnb + zlen rest.
Proof. unfold split_pkt, zlen. cbn [length]. rewrite !length_app. lia. Qed.

Lemma first_byte_pn_len (scid_len : Z) (hdr : QUIC_PKT_HDR) : pn_encodable scid_len hdr -> Z.land (first_byte hdr) 3 + 1 = ph_pn_len hdr.
Proof.
  intros He. pose proof He as [Ht _ _ _ _ Hn _ Hrs _ _ _]. destruct (Z.eq_dec (ph_type hdr) QUIC_PKT_TYPE_1RTT) as [Hty|Hty].
  - unfold first_byte. rewrite Hty. by apply short_byte_fields.
  - destruct (pe_raw _ _ He Hty) as (raw & Hraw & ->). apply long_byte_fields; auto. by eapply pe_has_pn.
Qed.

(** A packet as it is sent, and what each of the receiver's three steps makes of it. *)
Lemma protected_packet (scid_len : Z) (hdr : QUIC_PKT_HDR) (body : bytes) : pn_encodable scid_len hdr ->
  zlen body = ph_len hdr -> 20 <= ph_pn_len hdr + ph_len hdr -> let off := 1 + zlen (hdr_mid hdr) in
  exists b1 pnb', zlen pnb' = ph_pn_len hdr /\
    ossl_quic_hdr_protector_encrypt cipher_id EVP_aes_ecb EVP_chacha (hdr_bytes hdr ++ body)
      (mkPtrs (Some (off + 4)) ((ph_pn_len hdr + ph_len hdr - 4) mod U64_MOD) (Some off)) = Some (split_pkt b1 (hdr_mid hdr) pnb' body) /\
    forall tl old1 old2, (ph_type hdr = QUIC_PKT_TYPE_1RTT -> tl = []) -> zlen (hdr_bytes hdr ++ body ++ tl) < U64_MOD ->
    exists ptrs1 ptrs2,
      ossl_quic_wire_decode_pkt_hdr (split_pkt b1 (hdr_mid hdr) pnb' (body ++ tl)) scid_len true false old1 =
        (Some (pn_hdr hdr old1 true pnb' body, ptrs1, tl), 0) /\
      ossl_quic_hdr_protector_decrypt cipher_id EVP_aes_ecb EVP_chacha (split_pkt b1 (hdr_mid hdr) pnb' (body ++ tl)) ptrs1 =
        Some (hdr_bytes hdr ++ body ++ tl) /\
      ossl_quic_wire_decode_pkt_hdr (hdr_bytes hdr ++ body ++ tl) scid_len false false old2 =
        (Some (pn_hdr hdr old2 false (pn_field hdr) body, ptrs2, tl), 0).
Proof.
  intros He Hb H20 off. pose proof He as [_ _ _ _ _ Hn _ _ _ _ [Hln Hlen]]. destruct (pe_facts _ _ He) as (Hpf & _).
  rewrite (hdr_split scid_len), Z.mod_small by (done || unfold OSSL_QUIC_VLINT_MAX in *; u64_side).
  destruct (protect_unprotect (first_byte hdr) (zlen (pn_field hdr) + zlen body - 4) (hdr_mid hdr) (pn_field hdr) body)
    as (b1 & pnb' & Hform & Hz' & Henc & Hdec); [rewrite Hpf; by eapply first_byte_pn_len|lia..|].
  exists b1, pnb'. split; [lia|]. split; [rewrite <- Henc; unfold ptrs_for; subst off; do 2 f_equal; lia|].
  intros tl old1 old2 Htl Hu. rewrite (hdr_split scid_len) in Hu |- * by done.
  assert (H21 : forall b p, zlen p = ph_pn_len hdr -> 21 <= zlen (split_pkt b (hdr_mid hdr) p (body ++ tl)) < U64_MOD).
  { intros b p Hp. revert Hu. rewrite !split_len, !zlen_app, Hpf, Hp. pose proof (zlen_nonneg tl). pose proof (zlen_nonneg (hdr_mid hdr)). lia. }
  do 2 eexists. split; [apply (pn_decode scid_len hdr old1 true b1 pnb' body tl); auto; [by split|lia|apply H21; lia]|].
  split; [|apply (pn_decode scid_len hdr old2 false (first_byte hdr) (pn_field hdr) body tl); auto; [by split; [apply form_refl|]|by apply H21]].
  rewrite <- (Hdec tl). f_equal. unfold ptrs_for. f_equal. fold (split_pkt b1 (hdr_mid hdr) pnb' (body ++ tl)).
  assert (Hh := H21 b1 pnb' ltac:(lia)). rewrite split_len, zlen_app in Hh |- *. pose proof (zlen_nonneg tl). pose proof (zlen_nonneg (hdr_mid hdr)).
  rewrite Z.mod_small; lia.
Qed.
End ProtectSpec.

(** A protected packet, end to end: the sender encodes a header, appends the encrypted
    payload and applies header protection; the receiver decodes the unprotected parts,
    removes the protection with the pointers this gives, and decodes again.  For
    every cipher that works, it gets the header and the payload that were sent, and the rest of the
    datagram, although nothing but the first sixteen sample bytes is common to the two
    computations of the mask. *)
Theorem pkt_protection_roundtrip (cipher_id : Z) (EVP_aes_ecb : bytes -> option bytes) (EVP_chacha : bytes -> bytes -> option bytes)
    (scid_len : Z) (hdr old1 old2 : QUIC_PKT_HDR) (r body tl : bytes) :
  cipher_id = QUIC_HDR_PROT_CIPHER_AES_128 \/ cipher_id = QUIC_HDR_PROT_CIPHER_AES_256 \/ cipher_id = QUIC_HDR_PROT_CIPHER_CHACHA ->
  (forall s, zlen s = 16 -> exists out, EVP_aes_ecb s = Some out /\ zlen out = 16) ->
  (forall s z, zlen s = 16 -> exists out, EVP_chacha s z = Some out /\ zlen out = zlen z) ->
  pn_encodable scid_len hdr -> zlen body = ph_len hdr -> 20 <= ph_pn_len hdr + ph_len hdr -> (ph_type hdr = QUIC_PKT_TYPE_1RTT -> tl = []) ->
  zlen (hdr_bytes hdr) + ph_len hdr <= zlen r -> zlen (hdr_bytes hdr ++ body ++ tl) < U64_MOD ->
  exists w ptrs sent h1 ptrs1 h2 ptrs2,
    ossl_quic_wire_encode_pkt_hdr scid_len hdr (mkWpkt [] r) = (w, Some ptrs) /\
    ossl_quic_hdr_protector_encrypt cipher_id EVP_aes_ecb EVP_chacha (wp_done w ++ body) ptrs = Some sent /\
    ossl_quic_wire_decode_pkt_hdr (sent ++ tl) scid_len true false old1 = (Some (h1, ptrs1, tl), 0) /\
    ph_partial h1 = true /\ ph_type h1 = ph_type hdr /\ cid_bytes (ph_dst h1) = cid_bytes (ph_dst hdr) /\
    ossl_quic_hdr_protector_decrypt cipher_id EVP_aes_ecb EVP_chacha (sent ++ tl) ptrs1 = Some (hdr_bytes hdr ++ body ++ tl) /\
    ossl_quic_wire_decode_pkt_hdr (hdr_bytes hdr ++ body ++ tl) scid_len false false old2 = (Some (h2, ptrs2, tl), 0) /\
    recovered hdr h2 body.
Proof.
  intros Hid Haes Hcha He Hb H20 Htl Hr Hu. rewrite (pn_encode _ _ He [] r Hr). cbn [wp_done app].
  destruct (protected_packet cipher_id EVP_aes_ecb EVP_chacha Hid Haes Hcha scid_len hdr body He Hb H20) as (b1 & pnb' & Hz & Henc & Hrecv).
  destruct (Hrecv tl old1 old2 Htl Hu) as (ptrs1 & ptrs2 & Hd1 & Hdec & Hd2). do 7 eexists. split; [reflexivity|]. split; [exact Henc|].
  assert (Hsent : split_pkt b1 (hdr_mid hdr) pnb' body ++ tl = split_pkt b1 (hdr_mid hdr) pnb' (body ++ tl)).
  { unfold split_pkt. cbn [app]. by rewrite <- !app_assoc. }
  rewrite Hsent. split; [exact Hd1|]. split; [unfold pn_hdr, v1_hdr; by destruct (_ =? _)|].
  split; [unfold pn_hdr, v1_hdr; destruct (Z.eqb_spec (ph_type hdr) QUIC_PKT_TYPE_1RTT); by cbn|].
  split; [unfold pn_hdr, v1_hdr; destruct (_ =? _); cbn [ph_dst]; apply new_cid_bytes, He|].
  split; [exact Hdec|]. split; [exact Hd2|]. by eapply pn_recovered.
Qed.

(** ** Two facts the header comments deny *)

(** A short packet whose payload ends within four bytes of the packet number: a full decode
    gives a packet number pointer with fewer than four bytes behind it, and a sample
    length that has wrapped below zero. *)
Lemma full_decode_sample_wraps (old : QUIC_PKT_HDR) : exists h,
  ossl_quic_wire_decode_pkt_hdr (0x40 :: replicate 20 0 ++ [5]) 20 false false old =
    (Some (h, mkPtrs (Some 25) (U64_MOD - 3) (Some 21), []), 0) /\ ph_len h = 0.
Proof. eexists. split; [vm_compute; reflexivity|reflexivity]. Qed.

(** A partial decode leaves the four bytes of the packet number field out of the
    length and the data. *)
Lemma partial_decode_skips_pn (old : QUIC_PKT_HDR) : exists h ptrs,
  ossl_quic_wire_decode_pkt_hdr (0x40 :: [1; 2; 3; 4] ++ replicate 20 9) 0 true false old = (Some (h, ptrs, []), 0) /\
  raw_pn ptrs = Some 1 /\ ph_data h = Some (replicate 20 9) /\ ph_len h = 20.
Proof. do 2 eexists. split; [vm_compute; reflexivity|]. by vm_compute. Qed.

(** The predicted length of a Retry header leaves out the token that is written. *)
Lemma retry_len_without_token (hdr : QUIC_PKT_HDR) : plain_encodable hdr -> ph_type hdr = QUIC_PKT_TYPE_RETRY ->
  ossl_quic_wire_get_encoded_pkt_hdr_len 0 hdr = zlen (hdr_bytes hdr) - ph_token_len hdr.
Proof.
  intros [_ Hpa Hd Hs _ Htok _] Hty. pose proof Hd as [Hd1 _]. pose proof Hs as [Hs1 _]. unfold QUIC_MAX_CONN_ID_LEN in *.
  unfold ossl_quic_wire_get_encoded_pkt_hdr_len, hdr_bytes, hdr_mid, hdr_pn, opt_token, QUIC_MAX_CONN_ID_LEN, ossl_quic_pkt_type_must_be_last,
    ossl_quic_pkt_type_can_share_dgram. rewrite Hpa, Hty. pkt_types.
  rewrite (proj2 (Z.ltb_ge 20 (cid_id_len (ph_dst hdr)))), (proj2 (Z.ltb_ge 20 (cid_id_len (ph_src hdr)))) by lia. cbn [orb].
  unfold cids_layout. rewrite !app_nil_r. change (first_byte hdr :: ?x) with ([first_byte hdr] ++ x).
  rewrite !zlen_app, (cid_bytes_len _ Hd), (cid_bytes_len _ Hs), (token_bytes_len _ Htok).
  change (zlen (be_bytes 4 (ph_version hdr))) with 4. change (zlen [cid_id_len (ph_dst hdr)]) with 1. change (zlen [cid_id_len (ph_src hdr)]) with 1.
  change (zlen [first_byte hdr]) with 1. lia.
Qed.

(** ** Instances *)

Definition demo_cid (l : bytes) : QUIC_CONN_ID := mkConnId (zlen l) (l ++ replicate (20 - length l) 0).
Definition demo_hdr : QUIC_PKT_HDR :=
  mkPktHdr QUIC_PKT_TYPE_INITIAL false false 2 false true 0 0 QUIC_VERSION_1 (demo_cid [1; 2; 3; 4]) (demo_cid []) [0; 9; 0; 0] (Some [7; 8]) 2 20 None.
Definition demo_old : QUIC_PKT_HDR :=
  mkPktHdr 0 false false 0 false false 0 0 0 (demo_cid []) (demo_cid []) [0; 0; 0; 0] None 0 0 None.

Lemma demo_encodable : pn_encodable 0 demo_hdr.
Proof. split; try (by vm_compute). by right; left. Qed.

Lemma pkt_hdr_roundtrip_witness : exists w ptrs h ptrs',
  ossl_quic_wire_encode_pkt_hdr 0 demo_hdr (mkWpkt [] (replicate 64 0)) = (w, Some ptrs) /\ wp_done w = [] ++ hdr_bytes demo_hdr /\
  ossl_quic_wire_decode_pkt_hdr (hdr_bytes demo_hdr ++ replicate 20 5 ++ [3]) 0 false false demo_old = (Some (h, ptrs', [3]), 0) /\
  recovered demo_hdr h (replicate 20 5) /\ raw_pn ptrs' = raw_pn ptrs /\ raw_sample ptrs' = raw_sample ptrs /\
  (ossl_quic_pkt_type_has_pn (ph_type demo_hdr) = true -> ossl_quic_wire_get_encoded_pkt_hdr_len 0 demo_hdr = zlen (hdr_bytes demo_hdr)).
Proof.
  apply (pkt_hdr_roundtrip 0 demo_hdr demo_old [] (replicate 64 0) (replicate 20 5) [3] (or_introl demo_encodable)); by vm_compute.
Defined.

(** A cipher that works, if not a secure one. *)
Definition demo_aes (s : bytes) : option bytes := Some (take 16 (map (fun b => Z.lxor b 0xa5) s)).
Definition demo_chacha (s z : bytes) : option bytes := Some (map (fun b => Z.lxor b 0x3c) z).

Lemma pkt_protection_roundtrip_witness : exists w ptrs sent h1 ptrs1 h2 ptrs2,
  ossl_quic_wire_encode_pkt_hdr 0 demo_hdr (mkWpkt [] (replicate 64 0)) = (w, Some ptrs) /\
  ossl_quic_hdr_protector_encrypt QUIC_HDR_PROT_CIPHER_AES_128 demo_aes demo_chacha (wp_done w ++ replicate 20 5) ptrs = Some sent /\
  ossl_quic_wire_decode_pkt_hdr (sent ++ [3]) 0 true false demo_old = (Some (h1, ptrs1, [3]), 0) /\
  ph_partial h1 = true /\ ph_type h1 = ph_type demo_hdr /\ cid_bytes (ph_dst h1) = cid_bytes (ph_dst demo_hdr) /\
  ossl_quic_hdr_protector_decrypt QUIC_HDR_PROT_CIPHER_AES_128 demo_aes demo_chacha (sent ++ [3]) ptrs1 = Some (hdr_bytes demo_hdr ++ replicate 20 5 ++ [3]) /\
  ossl_quic_wire_decode_pkt_hdr (hdr_bytes demo_hdr ++ replicate 20 5 ++ [3]) 0 false false demo_old = (Some (h2, ptrs2, [3]), 0) /\
  recovered demo_hdr h2 (replicate 20 5).
Proof.
  apply (pkt_protection_roundtrip QUIC_HDR_PROT_CIPHER_AES_128 demo_aes demo_chacha 0 demo_hdr demo_old demo_old (replicate 64 0) (replicate 20 5) [3]);
    [by left| | |exact demo_encodable|by vm_compute..].
  - intros s Hs. eexists. split; [reflexivity|]. unfold zlen in *. rewrite length_take, length_map. lia.
  - intros s z _. eexists. split; [reflexivity|]. unfold zlen. by rewrite length_map.
Defined.
