(* ===== verification/Qrl.v ===== *)
(** * Keys of the record layer, by encryption level
    (ssl/quic/quic_record_shared.c, the cipher suites of ssl/quic/quic_record_util.c)

    Both record layers keep an encryption level set: for each level a state, up to two
    key slots and the secret of the next key update.  The key derivation function and
    the header protection ciphers are those of the TLS and crypto libraries; the
    function is a parameter here, and [ok n] is whether the [n]-th library call of an
    operation (numbered in the order of the code) succeeds.  A key slot whose cipher
    context is freed has its IV cleansed with it, so a slot is one optional value. *)

From S2P Require Import Prelude Packet WirePkt.

Definition QUIC_ENC_LEVEL_INITIAL : Z := 0.
Definition QUIC_ENC_LEVEL_0RTT : Z := 1.
Definition QUIC_ENC_LEVEL_HANDSHAKE : Z := 2.
Definition QUIC_ENC_LEVEL_1RTT : Z := 3.
Definition QUIC_ENC_LEVEL_NUM : Z := 4.

(** ** Cipher suites *)

Definition QRL_SUITE_AES128GCM : Z := 1.
Definition QRL_SUITE_AES256GCM : Z := 2.
Definition QRL_SUITE_CHACHA20POLY1305 : Z := 3.

(** The names of ciphers and digests are only compared with NULL by the code: they are numbers here. *)
Record suite_info := mkSuite {
  cipher_name : Z; md_name : Z; secret_len : Z; cipher_key_len : Z; cipher_iv_len : Z; cipher_tag_len : Z;
  hdr_prot_key_len : Z; hdr_prot_cipher_id : Z; max_pkt : Z; max_forged_pkt : Z }.

Definition NAME_AES_128_GCM : Z := 1.
Definition NAME_AES_256_GCM : Z := 2.
Definition NAME_CHACHA20_POLY1305 : Z := 3.
Definition NAME_SHA256 : Z := 1.
Definition NAME_SHA384 : Z := 2.

Definition suite_aes128gcm : suite_info :=
  mkSuite NAME_AES_128_GCM NAME_SHA256 32 16 12 16 16 QUIC_HDR_PROT_CIPHER_AES_128 (Z.shiftl 1 23) (Z.shiftl 1 52).
Definition suite_aes256gcm : suite_info :=
  mkSuite NAME_AES_256_GCM NAME_SHA384 48 32 12 16 32 QUIC_HDR_PROT_CIPHER_AES_256 (Z.shiftl 1 23) (Z.shiftl 1 52).
Definition suite_chacha20poly1305 : suite_info :=
  mkSuite NAME_CHACHA20_POLY1305 NAME_SHA256 32 32 12 16 32 QUIC_HDR_PROT_CIPHER_CHACHA (UINT64_MAX - 1) (Z.shiftl 1 36).

Definition get_suite (suite_id : Z) : option suite_info :=
  if suite_id =? QRL_SUITE_AES128GCM then Some suite_aes128gcm
  else if suite_id =? QRL_SUITE_AES256GCM then Some suite_aes256gcm
  else if suite_id =? QRL_SUITE_CHACHA20POLY1305 then Some suite_chacha20poly1305
  else None.

Definition ossl_qrl_get_suite_cipher_name (suite_id : Z) : option Z := cipher_name <$> get_suite suite_id.
Definition ossl_qrl_get_suite_md_name (suite_id : Z) : option Z := md_name <$> get_suite suite_id.
Definition ossl_qrl_get_suite_secret_len (suite_id : Z) : Z := default 0 (secret_len <$> get_suite suite_id).
Definition ossl_qrl_get_suite_cipher_key_len (suite_id : Z) : Z := default 0 (cipher_key_len <$> get_suite suite_id).
Definition ossl_qrl_get_suite_cipher_iv_len (suite_id : Z) : Z := default 0 (cipher_iv_len <$> get_suite suite_id).
Definition ossl_qrl_get_suite_cipher_tag_len (suite_id : Z) : Z := default 0 (cipher_tag_len <$> get_suite suite_id).
Definition ossl_qrl_get_suite_hdr_prot_cipher_id (suite_id : Z) : Z := default 0 (hdr_prot_cipher_id <$> get_suite suite_id).
Definition ossl_qrl_get_suite_hdr_prot_key_len (suite_id : Z) : Z := default 0 (hdr_prot_key_len <$> get_suite suite_id).
Definition ossl_qrl_get_suite_max_pkt (suite_id : Z) : Z := default UINT64_MAX (max_pkt <$> get_suite suite_id).
Definition ossl_qrl_get_suite_max_forged_pkt (suite_id : Z) : Z := default UINT64_MAX (max_forged_pkt <$> get_suite suite_id).

(** ** Encryption levels *)

Definition QRL_EL_STATE_UNPROV : Z := 0.
Definition QRL_EL_STATE_PROV_NORMAL : Z := 1.
Definition QRL_EL_STATE_PROV_UPDATING : Z := 2.
Definition QRL_EL_STATE_PROV_COOLDOWN : Z := 3.
Definition QRL_EL_STATE_DISCARDED : Z := 4.

Definition EVP_MAX_KEY_LENGTH : Z := 64.

(** The cipher context of a slot and its IV. *)
Record keyslot := mkSlot { slot_cipher : Z; slot_key : bytes; slot_iv : bytes }.

(** [el_hpr]: the cipher and the key of header protection; [el_ku] is an array. *)
Record OSSL_QRL_ENC_LEVEL := mkEncLevel {
  el_hpr : option (Z * bytes); el_md : option Z; el_cctx0 : option keyslot; el_cctx1 : option keyslot; el_key_epoch : Z;
  el_op_count : Z; el_suite_id : Z; el_tag_len : Z; el_state : Z; el_is_tx : bool; el_ku : bytes }.
#[export] Instance eta_enc_level : Eta OSSL_QRL_ENC_LEVEL := fun e =>
  mkEncLevel (el_hpr e) (el_md e) (el_cctx0 e) (el_cctx1 e) (el_key_epoch e) (el_op_count e) (el_suite_id e) (el_tag_len e)
    (el_state e) (el_is_tx e) (el_ku e).

Definition OSSL_QRL_ENC_LEVEL_SET : Type := Z -> OSSL_QRL_ENC_LEVEL.

(** A set is zeroed memory at first. *)
Definition el_new : OSSL_QRL_ENC_LEVEL :=
  mkEncLevel None None None None 0 0 0 0 QRL_EL_STATE_UNPROV false (replicate (Z.to_nat EVP_MAX_KEY_LENGTH) 0).
Definition els_new : OSSL_QRL_ENC_LEVEL_SET := fun _ => el_new.

Definition els_upd (els : OSSL_QRL_ENC_LEVEL_SET) (enc_level : Z) (f : OSSL_QRL_ENC_LEVEL -> OSSL_QRL_ENC_LEVEL) : OSSL_QRL_ENC_LEVEL_SET :=
  fun l => if l =? enc_level then f (els l) else els l.

(** [el->cctx[keyslot]] *)
Definition el_cctx (el : OSSL_QRL_ENC_LEVEL) (k : Z) : option keyslot := if k =? 0 then el_cctx0 el else el_cctx1 el.
Definition set_cctx (el : OSSL_QRL_ENC_LEVEL) (k : Z) (s : option keyslot) : OSSL_QRL_ENC_LEVEL :=
  if k =? 0 then el <| el_cctx0 := s |> else el <| el_cctx1 := s |>.

(** The first bytes of the array [ku], and a secret written to it. *)
Definition ku_get (el : OSSL_QRL_ENC_LEVEL) (n : Z) : bytes := take (Z.to_nat n) (el_ku el).
Definition ku_put (el : OSSL_QRL_ENC_LEVEL) (s : bytes) : OSSL_QRL_ENC_LEVEL := el <| el_ku := s ++ drop (length s) (el_ku el) |>.

Definition state_prov (state : Z) : bool :=
  (state =? QRL_EL_STATE_PROV_NORMAL) || (state =? QRL_EL_STATE_PROV_UPDATING) || (state =? QRL_EL_STATE_PROV_COOLDOWN).

Definition ossl_qrl_enc_level_set_get (els : OSSL_QRL_ENC_LEVEL_SET) (enc_level : Z) (require_prov : bool) : option OSSL_QRL_ENC_LEVEL :=
  if QUIC_ENC_LEVEL_NUM <=? enc_level then None
  else if require_prov && negb (state_prov (el_state (els enc_level))) then None
  else Some (els enc_level).

(** [None]: NULL is dereferenced. *)
Definition ossl_qrl_enc_level_set_have_el (els : OSSL_QRL_ENC_LEVEL_SET) (enc_level : Z) : option Z :=
  el ← ossl_qrl_enc_level_set_get els enc_level false;
  Some (if el_state el =? QRL_EL_STATE_UNPROV then 0 else if state_prov (el_state el) then 1 else -1).

Definition ossl_qrl_enc_level_set_has_keyslot (els : OSSL_QRL_ENC_LEVEL_SET) (enc_level tgt_state k : Z) : bool :=
  match ossl_qrl_enc_level_set_get els enc_level false with
  | None => false
  | Some el =>
      if 2 <=? k then false
      else if (tgt_state =? QRL_EL_STATE_PROV_NORMAL) || (tgt_state =? QRL_EL_STATE_PROV_UPDATING)
      then (enc_level =? QUIC_ENC_LEVEL_1RTT) || (k =? 0)
      else if tgt_state =? QRL_EL_STATE_PROV_COOLDOWN then k =? Z.land (el_key_epoch el) 1
      else false
  end.

Definition el_teardown_keyslot (els : OSSL_QRL_ENC_LEVEL_SET) (enc_level k : Z) : OSSL_QRL_ENC_LEVEL_SET :=
  if ossl_qrl_enc_level_set_has_keyslot els enc_level (el_state (els enc_level)) k
  then els_upd els enc_level (fun el => set_cctx el k None) else els.

(** ["quic iv"], ["quic key"], ["quic hp"], ["quic ku"] *)
Definition quic_v1_iv_label : bytes := [113; 117; 105; 99; 32; 105; 118].
Definition quic_v1_key_label : bytes := [113; 117; 105; 99; 32; 107; 101; 121].
Definition quic_v1_hp_label : bytes := [113; 117; 105; 99; 32; 104; 112].
Definition quic_v1_ku_label : bytes := [113; 117; 105; 99; 32; 107; 117].

Section Qrl.
(** [tls13_hkdf_expand_ex]: digest, secret, label, length. *)
Context (hkdf_expand : Z -> bytes -> bytes -> Z -> bytes).
Context (ok : nat -> bool).

(** Four library calls: IV, key, cipher, context.  The keys of a secret: *)
Definition slot_keys (suite_id md : Z) (secret : bytes) : keyslot :=
  mkSlot suite_id (hkdf_expand md secret quic_v1_key_label (ossl_qrl_get_suite_cipher_key_len suite_id))
    (hkdf_expand md secret quic_v1_iv_label (ossl_qrl_get_suite_cipher_iv_len suite_id)).

(** [n]: the number of its first library call.  [None]: a context is in the slot already, which is asserted not to
    be: here a failed assertion stops the model, as it stops a build without [NDEBUG]. *)
Definition el_setup_keyslot (n : nat) (els : OSSL_QRL_ENC_LEVEL_SET) (enc_level tgt_state k : Z) (secret : bytes)
  : option (OSSL_QRL_ENC_LEVEL_SET * bool) :=
  if negb (ossl_qrl_enc_level_set_has_keyslot els enc_level tgt_state k) then Some (els, false)
  else
    let el := els enc_level in
    if bool_decide (ossl_qrl_get_suite_cipher_name (el_suite_id el) = None) then Some (els, false)
    else if negb (zlen secret =? ossl_qrl_get_suite_secret_len (el_suite_id el)) || (EVP_MAX_KEY_LENGTH <? zlen secret) then Some (els, false)
    else if bool_decide (is_Some (el_cctx el k)) then None
    else
      md ← el_md el;
      if ok n && ok (n + 1)%nat && ok (n + 2)%nat && ok (n + 3)%nat
      then Some (els_upd els enc_level (fun el => set_cctx el k (Some (slot_keys (el_suite_id el) md secret))), true)
      else Some (els, false).

Definition ossl_qrl_enc_level_set_discard (els : OSSL_QRL_ENC_LEVEL_SET) (enc_level : Z) : OSSL_QRL_ENC_LEVEL_SET :=
  match ossl_qrl_enc_level_set_get els enc_level false with
  | None => els
  | Some el =>
      if el_state el =? QRL_EL_STATE_DISCARDED then els
      else
        let els := if state_prov (el_state el)
                   then el_teardown_keyslot (el_teardown_keyslot (els_upd els enc_level (fun el => el <| el_hpr := None |>)) enc_level 0) enc_level 1
                   else els in
        els_upd els enc_level (fun el => el <| el_md := None |> <| el_state := QRL_EL_STATE_DISCARDED |>)
  end.

(** The error exit: the slots set up so far are torn down. *)
Definition provide_failed (els : OSSL_QRL_ENC_LEVEL_SET) (enc_level : Z) (slots : list Z) : OSSL_QRL_ENC_LEVEL_SET :=
  foldl (fun els k => el_teardown_keyslot els enc_level k)
    (els_upd els enc_level (fun el => el <| el_suite_id := 0 |> <| el_md := None |>
                                         <| el_ku := replicate (Z.to_nat EVP_MAX_KEY_LENGTH) 0 |>)) slots.

(** The keys and secrets of a level that is being provisioned; [hpr_key]: the header protection key.
    Calls 2 to 5 set up the first slot, 6 and 8 derive the update secrets, 9 to 12 the second slot, 7 the header
    protection. *)
Definition provide_keys (els : OSSL_QRL_ENC_LEVEL_SET) (enc_level init_keyslot md : Z) (secret : bytes) (is_tx : bool) (hpr_key : bytes)
  : option (OSSL_QRL_ENC_LEVEL_SET * bool) :=
  let secret_len := zlen secret in
  '(els, r) ← el_setup_keyslot 2 els enc_level QRL_EL_STATE_PROV_NORMAL init_keyslot secret;
  if negb r then Some (provide_failed els enc_level [], false)
  else
    let finish els slots :=
      let suite_id := el_suite_id (els enc_level) in
      if ok 7%nat
      then Some (els_upd els enc_level (fun el => el <| el_hpr := Some (ossl_qrl_get_suite_hdr_prot_cipher_id suite_id, hpr_key) |>
                                                    <| el_state := QRL_EL_STATE_PROV_NORMAL |>), true)
      else Some (provide_failed els enc_level slots, false) in
    if negb (enc_level =? QUIC_ENC_LEVEL_1RTT) then finish els [init_keyslot]
    else if negb (ok 6%nat) then Some (provide_failed els enc_level [init_keyslot], false)
    else
      let ku_key := hkdf_expand md secret quic_v1_ku_label secret_len in
      if is_tx then finish (els_upd els enc_level (fun el => ku_put el ku_key)) [init_keyslot]
      else
        '(els, r) ← el_setup_keyslot 9 els enc_level QRL_EL_STATE_PROV_NORMAL (1 - init_keyslot) ku_key;
        if negb r then Some (provide_failed els enc_level [init_keyslot], false)
        else if negb (ok 8%nat) then Some (provide_failed els enc_level [init_keyslot; 1 - init_keyslot], false)
        else finish (els_upd els enc_level (fun el => ku_put el (hkdf_expand md ku_key quic_v1_ku_label secret_len)))
               [init_keyslot; 1 - init_keyslot].

(** [md]: the digest the caller has, if any; fetching it is call 0, deriving the header protection key call 1. *)
Definition ossl_qrl_enc_level_set_provide_secret (els : OSSL_QRL_ENC_LEVEL_SET) (enc_level suite_id : Z) (md : option Z) (secret : bytes)
  (init_key_phase_bit : Z) (is_tx : bool) : option (OSSL_QRL_ENC_LEVEL_SET * bool) :=
  match ossl_qrl_enc_level_set_get els enc_level false, ossl_qrl_get_suite_md_name suite_id with
  | Some el, Some md_name =>
      if (1 <? init_key_phase_bit) || ((0 <? init_key_phase_bit) && negb (enc_level =? QUIC_ENC_LEVEL_1RTT)) then Some (els, false)
      else
        let els := if (enc_level =? QUIC_ENC_LEVEL_INITIAL) && (el_state el =? QRL_EL_STATE_PROV_NORMAL)
                   then els_upd (ossl_qrl_enc_level_set_discard els enc_level) enc_level (fun el => el <| el_state := QRL_EL_STATE_UNPROV |>)
                   else els in
        if negb (el_state (els enc_level) =? QRL_EL_STATE_UNPROV) then Some (els, false)
        else
          let init_keyslot := if is_tx then 0 else init_key_phase_bit in
          let hpr_key_len := ossl_qrl_get_suite_hdr_prot_key_len suite_id in
          if hpr_key_len =? 0 then Some (els, false)
          else if bool_decide (md = None) && negb (ok 0%nat) then Some (els, false)
          else
            let md := default md_name md in
            let els := els_upd els enc_level (fun el =>
              el <| el_md := Some md |> <| el_suite_id := suite_id |> <| el_tag_len := ossl_qrl_get_suite_cipher_tag_len suite_id |>
                 <| el_op_count := 0 |> <| el_key_epoch := init_key_phase_bit |> <| el_is_tx := is_tx |>) in
            if negb (ok 1%nat) then Some (provide_failed els enc_level [], false)
            else provide_keys els enc_level init_keyslot md secret is_tx (hkdf_expand md secret quic_v1_hp_label hpr_key_len)
  | _, _ => Some (els, false)
  end.

(** [~el->key_epoch & 1] *)
Definition other_slot (el : OSSL_QRL_ENC_LEVEL) : Z := Z.land (Z.lnot (el_key_epoch el)) 1.

(** The update of a transmitting level derives the next secret (call 0) and replaces the key at once (calls 1 to 4). *)
Definition ossl_qrl_enc_level_set_key_update (els : OSSL_QRL_ENC_LEVEL_SET) (enc_level : Z) : option (OSSL_QRL_ENC_LEVEL_SET * bool) :=
  match ossl_qrl_enc_level_set_get els enc_level false with
  | None => Some (els, false)
  | Some el =>
      if negb (enc_level =? QUIC_ENC_LEVEL_1RTT) then Some (els, false)
      else if negb (el_state el =? QRL_EL_STATE_PROV_NORMAL) then Some (els, false)
      else if negb (el_is_tx el)
      then Some (els_upd els enc_level (fun el => el <| el_key_epoch := el_key_epoch el +u 1 |> <| el_state := QRL_EL_STATE_PROV_UPDATING |>), true)
      else
        let n := ossl_qrl_get_suite_secret_len (el_suite_id el) in
        md ← el_md el;
        if negb (ok 0%nat) then Some (els, false)
        else
          let new_ku := hkdf_expand md (ku_get el n) quic_v1_ku_label n in
          '(els, r) ← el_setup_keyslot 1 (el_teardown_keyslot els enc_level 0) enc_level QRL_EL_STATE_PROV_NORMAL 0 (ku_get el n);
          if negb r then Some (els, false)
          else Some (els_upd els enc_level (fun el => ku_put (el <| el_key_epoch := el_key_epoch el +u 1 |> <| el_op_count := 0 |>) new_ku), true)
  end.

Definition ossl_qrl_enc_level_set_key_update_done (els : OSSL_QRL_ENC_LEVEL_SET) (enc_level : Z) : OSSL_QRL_ENC_LEVEL_SET * bool :=
  match ossl_qrl_enc_level_set_get els enc_level false with
  | None => (els, false)
  | Some el =>
      if negb (enc_level =? QUIC_ENC_LEVEL_1RTT) then (els, false)
      else (els_upd (el_teardown_keyslot els enc_level (other_slot el)) enc_level (fun el => el <| el_state := QRL_EL_STATE_PROV_COOLDOWN |>), true)
  end.

(** The next slot is set up by calls 0 to 3, call 4 derives the next secret. *)
Definition ossl_qrl_enc_level_set_key_cooldown_done (els : OSSL_QRL_ENC_LEVEL_SET) (enc_level : Z) : option (OSSL_QRL_ENC_LEVEL_SET * bool) :=
  match ossl_qrl_enc_level_set_get els enc_level false with
  | None => Some (els, false)
  | Some el =>
      if negb (enc_level =? QUIC_ENC_LEVEL_1RTT) then Some (els, false)
      else
        let '(els, r) := if el_state el =? QRL_EL_STATE_PROV_UPDATING then ossl_qrl_enc_level_set_key_update_done els enc_level else (els, true) in
        if negb r then Some (els, false)
        else if negb (el_state (els enc_level) =? QRL_EL_STATE_PROV_COOLDOWN) then Some (els, false)
        else
          let el := els enc_level in
          let n := ossl_qrl_get_suite_secret_len (el_suite_id el) in
          '(els, r) ← el_setup_keyslot 0 els enc_level QRL_EL_STATE_PROV_NORMAL (other_slot el) (ku_get el n);
          if negb r then Some (els, false)
          else
            md ← el_md el;
            if negb (ok 4%nat) then Some (el_teardown_keyslot els enc_level (other_slot el), false)
            else
              let new_ku := hkdf_expand md (ku_get el n) quic_v1_ku_label n in
              Some (els_upd els enc_level (fun el => (ku_put el new_ku) <| el_state := QRL_EL_STATE_PROV_NORMAL |>), true)
  end.
End Qrl.
