(* ===== verification/QrlKeys.v ===== *)
(** * The key schedule of the record layer: every slot holds the key of its epoch

    The 1-RTT level of a set (receiving or transmitting) over every history of its
    operations, whichever library calls fail: a key slot is empty or holds exactly the
    key that the schedule of RFC 9001 gives for its key epoch, so that the two ends use
    the same key for an epoch, and no key of an earlier epoch is kept once the key
    update has been completed. *)

From S2P Require Import Prelude Packet WirePkt Qrl.

(** What a level was provisioned with. *)
Record qrl_cfg := mkCfg { c_suite : Z; c_md : Z; c_secret : bytes; c_bit : Z }.

Inductive qrl_op :=
| OpProvide (suite_id : Z) (md : option Z) (secret : bytes) (init_key_phase_bit : Z)
| OpKeyUpdate
| OpKeyUpdateDone
| OpCooldownDone
| OpDiscardLevel.

Section Keys.
Context (hkdf_expand : Z -> bytes -> bytes -> Z -> bytes).
(** The function gives as many bytes as it is asked for. *)
Hypothesis hkdf_len : forall md secret label n, 0 <= n -> zlen (hkdf_expand md secret label n) = n.
Context (is_tx : bool).

Abbreviation L1 := QUIC_ENC_LEVEL_1RTT.

(** The secret of the [k]-th generation and the keys of an epoch. *)
Definition secret_at (c : qrl_cfg) (k : nat) : bytes :=
  Nat.iter k (fun s => hkdf_expand (c_md c) s quic_v1_ku_label (zlen (c_secret c))) (c_secret c).
Definition epoch_keys (c : qrl_cfg) (epoch : Z) : keyslot :=
  slot_keys hkdf_expand (c_suite c) (c_md c) (secret_at c (Z.to_nat (epoch - c_bit c))).

Definition qrl_do (ok : nat -> bool) (els : OSSL_QRL_ENC_LEVEL_SET) (op : qrl_op) : option (OSSL_QRL_ENC_LEVEL_SET * bool) :=
  match op with
  | OpProvide suite md secret bit => ossl_qrl_enc_level_set_provide_secret hkdf_expand ok els L1 suite md secret bit is_tx
  | OpKeyUpdate => ossl_qrl_enc_level_set_key_update hkdf_expand ok els L1
  | OpKeyUpdateDone => Some (ossl_qrl_enc_level_set_key_update_done els L1)
  | OpCooldownDone => ossl_qrl_enc_level_set_key_cooldown_done hkdf_expand ok els L1
  | OpDiscardLevel => Some (ossl_qrl_enc_level_set_discard els L1, true)
  end.

Definition cfg_after (c : option qrl_cfg) (op : qrl_op) (r : bool) : option qrl_cfg :=
  match op with
  | OpProvide suite md secret bit =>
      if r then Some (mkCfg suite (default (default 0 (ossl_qrl_get_suite_md_name suite)) md) secret bit) else c
  | _ => c
  end.

(** Users complete an update only after one happened, and fewer than 2^64 happen. *)
Definition qrl_op_ok (els : OSSL_QRL_ENC_LEVEL_SET) (op : qrl_op) : Prop :=
  match op with
  | OpProvide _ _ _ bit => 0 <= bit
  | OpKeyUpdate => el_key_epoch (els L1) < UINT64_MAX
  | OpKeyUpdateDone => el_state (els L1) = QRL_EL_STATE_PROV_UPDATING
  | _ => True
  end.

Inductive qrl_reach : OSSL_QRL_ENC_LEVEL_SET -> option qrl_cfg -> Prop :=
| qrl_start : qrl_reach els_new None
| qrl_next ok els c op els' r : qrl_reach els c -> qrl_op_ok els op -> qrl_do ok els op = Some (els', r) -> qrl_reach els' (cfg_after c op r).

(** ** The operations on the level *)

Lemma els_upd_1 (els : OSSL_QRL_ENC_LEVEL_SET) f : els_upd els L1 f L1 = f (els L1).
Proof. done. Qed.

Lemma set_cctx_proj (el : OSSL_QRL_ENC_LEVEL) (k : Z) (s : option keyslot) :
  el_md (set_cctx el k s) = el_md el /\ el_key_epoch (set_cctx el k s) = el_key_epoch el /\ el_suite_id (set_cctx el k s) = el_suite_id el /\
  el_state (set_cctx el k s) = el_state el /\ el_is_tx (set_cctx el k s) = el_is_tx el /\ el_ku (set_cctx el k s) = el_ku el /\
  el_hpr (set_cctx el k s) = el_hpr el.
Proof. unfold set_cctx. by case_match. Qed.

Lemma set_cctx_same (el : OSSL_QRL_ENC_LEVEL) (k : Z) (s : option keyslot) : el_cctx (set_cctx el k s) k = s.
Proof. unfold set_cctx, el_cctx. by destruct (k =? 0). Qed.

Lemma set_cctx_other (el : OSSL_QRL_ENC_LEVEL) (k : Z) (s : option keyslot) : 0 <= k <= 1 ->
  el_cctx (set_cctx el k s) (1 - k) = el_cctx el (1 - k).
Proof. intros Hk. unfold set_cctx, el_cctx. assert (k = 0 \/ k = 1) as [-> | ->] by lia; done. Qed.

Lemma has_slot (els : OSSL_QRL_ENC_LEVEL_SET) (st k : Z) : 0 <= k <= 1 ->
  ossl_qrl_enc_level_set_has_keyslot els L1 st k =
    (st =? QRL_EL_STATE_PROV_NORMAL) || (st =? QRL_EL_STATE_PROV_UPDATING)
    || ((st =? QRL_EL_STATE_PROV_COOLDOWN) && (k =? Z.land (el_key_epoch (els L1)) 1)).
Proof.
  intros Hk. unfold ossl_qrl_enc_level_set_has_keyslot, ossl_qrl_enc_level_set_get.
  rewrite (proj2 (Z.leb_gt 2 k)) by lia. cbn. repeat case_match; try done; by cbn in *.
Qed.

(** What setting up a slot gives: nothing changes, or the slot was free and has the keys of the secret. *)
Lemma setup_slot ok n (els els' : OSSL_QRL_ENC_LEVEL_SET) (k : Z) (secret : bytes) (r : bool) : 0 <= k <= 1 ->
  el_setup_keyslot hkdf_expand ok n els L1 QRL_EL_STATE_PROV_NORMAL k secret = Some (els', r) ->
  if r then exists md, el_md (els L1) = Some md /\ el_cctx (els L1) k = None /\
    zlen secret = ossl_qrl_get_suite_secret_len (el_suite_id (els L1)) /\ zlen secret <= EVP_MAX_KEY_LENGTH /\
    els' L1 = set_cctx (els L1) k (Some (slot_keys hkdf_expand (el_suite_id (els L1)) md secret))
  else els' = els.
Proof.
  intros Hk. unfold el_setup_keyslot. rewrite has_slot by done. change (_ =? QRL_EL_STATE_PROV_NORMAL) with true. cbn [orb negb].
  case_bool_decide; [by intros [= <- <-]|].
  destruct (Z.eqb_spec (zlen secret) (ossl_qrl_get_suite_secret_len (el_suite_id (els L1)))); cbn [negb orb]; [|by intros [= <- <-]].
  destruct (Z.ltb_spec EVP_MAX_KEY_LENGTH (zlen secret)); [by intros [= <- <-]|].
  case_bool_decide as Hc; [done|]. destruct (el_md (els L1)) as [md|] eqn:Hmd; [|done]. cbn.
  destruct (ok n && ok (n + 1)%nat && ok (n + 2)%nat && ok (n + 3)%nat); intros [= <- <-]; [|done].
  exists md. rewrite els_upd_1. split_and!; try done. destruct (el_cctx (els L1) k); [|done]. exfalso. by apply Hc.
Qed.

(** ** The invariant *)

Definition cur_slot (el : OSSL_QRL_ENC_LEVEL) : Z := Z.land (el_key_epoch el) 1.

(** How many generations ahead of the current key the stored secret is. *)
Definition ku_ahead (el : OSSL_QRL_ENC_LEVEL) : nat := if negb is_tx && (el_state el =? QRL_EL_STATE_PROV_NORMAL) then 2%nat else 1%nat.

Definition slot_has (c : qrl_cfg) (el : OSSL_QRL_ENC_LEVEL) (k epoch : Z) : Prop := el_cctx el k = Some (epoch_keys c epoch).

Record level_ok (c : qrl_cfg) (el : OSSL_QRL_ENC_LEVEL) : Prop := {
  lo_suite : el_suite_id el = c_suite c;
  lo_md : el_md el = Some (c_md c);
  lo_len : zlen (c_secret c) = ossl_qrl_get_suite_secret_len (c_suite c) /\ zlen (c_secret c) <= EVP_MAX_KEY_LENGTH;
  lo_epoch : 0 <= c_bit c <= 1 /\ c_bit c <= el_key_epoch el <= UINT64_MAX;
  lo_ku : ku_get el (zlen (c_secret c)) = secret_at c (Z.to_nat (el_key_epoch el - c_bit c) + ku_ahead el);
  lo_is_tx : el_is_tx el = is_tx;
  lo_tx : is_tx = true -> el_state el = QRL_EL_STATE_PROV_NORMAL /\ (el_cctx el 0 = None \/ slot_has c el 0 (el_key_epoch el));
  lo_rx : is_tx = false ->
    slot_has c el (cur_slot el) (el_key_epoch el) /\
    (el_state el = QRL_EL_STATE_PROV_NORMAL -> slot_has c el (1 - cur_slot el) (el_key_epoch el + 1)) /\
    (el_state el = QRL_EL_STATE_PROV_UPDATING -> slot_has c el (1 - cur_slot el) (el_key_epoch el - 1) /\ c_bit c < el_key_epoch el) /\
    (el_state el = QRL_EL_STATE_PROV_COOLDOWN -> el_cctx el (1 - cur_slot el) = None \/ slot_has c el (1 - cur_slot el) (el_key_epoch el + 1)) }.

Definition level_inv (els : OSSL_QRL_ENC_LEVEL_SET) (c : option qrl_cfg) : Prop :=
  zlen (el_ku (els L1)) = EVP_MAX_KEY_LENGTH /\
  (state_prov (el_state (els L1)) = true -> exists c', c = Some c' /\ level_ok c' (els L1)).

Lemma cur_range (el : OSSL_QRL_ENC_LEVEL) : 0 <= cur_slot el <= 1.
Proof. unfold cur_slot. change 1 with (Z.ones 1) at 1 2. rewrite Z.land_ones by lia. pose proof (Z.mod_pos_bound (el_key_epoch el) (2 ^ 1)). lia. Qed.

Lemma other_slot_eq (el : OSSL_QRL_ENC_LEVEL) : other_slot el = 1 - cur_slot el.
Proof.
  unfold other_slot, cur_slot. change 1 with (Z.ones 1) at 1. change (Z.land (el_key_epoch el) 1) with (Z.land (el_key_epoch el) (Z.ones 1)).
  rewrite !Z.land_ones by lia. unfold Z.lnot. change (2 ^ 1) with 2. Z.to_euclidean_division_equations. lia.
Qed.

Lemma next_slot (e : Z) : Z.land (e + 1) 1 = 1 - Z.land e 1.
Proof. change 1 with (Z.ones 1) at 2 4. rewrite !Z.land_ones by lia. change (2 ^ 1) with 2. Z.to_euclidean_division_equations. lia. Qed.

Lemma secret_len (c : qrl_cfg) (k : nat) : zlen (secret_at c k) = zlen (c_secret c).
Proof. destruct k; [done|]. apply hkdf_len, zlen_nonneg. Qed.

Lemma secret_next (c : qrl_cfg) (k : nat) : hkdf_expand (c_md c) (secret_at c k) quic_v1_ku_label (zlen (c_secret c)) = secret_at c (S k).
Proof. done. Qed.

Lemma ku_put_len (el : OSSL_QRL_ENC_LEVEL) (s : bytes) : zlen s <= zlen (el_ku el) -> zlen (el_ku (ku_put el s)) = zlen (el_ku el).
Proof. intros Hs. cbn. unfold zlen in *. rewrite length_app, length_drop. lia. Qed.

Lemma ku_put_get (el : OSSL_QRL_ENC_LEVEL) (s : bytes) (n : Z) : zlen s = n -> ku_get (ku_put el s) n = s.
Proof. intros <-. unfold ku_get. cbn. unfold zlen. rewrite Nat2Z.id. by rewrite take_app_length. Qed.

Lemma epoch_keys_at (c : qrl_cfg) (e : Z) (k : nat) : e - c_bit c = Z.of_nat k ->
  epoch_keys c e = slot_keys hkdf_expand (c_suite c) (c_md c) (secret_at c k).
Proof. intros He. unfold epoch_keys. by rewrite He, Nat2Z.id. Qed.

(** Tearing down keeps all but the slots. *)
Lemma teardown_proj (els : OSSL_QRL_ENC_LEVEL_SET) (k : Z) :
  el_md (el_teardown_keyslot els L1 k L1) = el_md (els L1) /\ el_key_epoch (el_teardown_keyslot els L1 k L1) = el_key_epoch (els L1) /\
  el_suite_id (el_teardown_keyslot els L1 k L1) = el_suite_id (els L1) /\ el_state (el_teardown_keyslot els L1 k L1) = el_state (els L1) /\
  el_is_tx (el_teardown_keyslot els L1 k L1) = el_is_tx (els L1) /\ el_ku (el_teardown_keyslot els L1 k L1) = el_ku (els L1).
Proof.
  unfold el_teardown_keyslot. case_match; [|done]. rewrite els_upd_1.
  destruct (set_cctx_proj (els L1) k None) as (?&?&?&?&?&?&?). done.
Qed.

Lemma provide_failed_proj (slots : list Z) (els : OSSL_QRL_ENC_LEVEL_SET) :
  el_state (provide_failed els L1 slots L1) = el_state (els L1) /\ zlen (el_ku (provide_failed els L1 slots L1)) = EVP_MAX_KEY_LENGTH.
Proof.
  unfold provide_failed.
  set (els0 := els_upd els L1 _). assert (zlen (el_ku (els0 L1)) = EVP_MAX_KEY_LENGTH) as H0 by done.
  assert (el_state (els0 L1) = el_state (els L1)) as <- by done. clearbody els0. revert els0 H0.
  induction slots as [|k slots IH]; intros els0 H0; [done|]. cbn [foldl].
  destruct (teardown_proj els0 k) as (_&_&_&Hs&_&Hk). rewrite <- Hs. apply IH. by rewrite Hk.
Qed.

(** ** Provisioning *)

Definition fresh_level (el : OSSL_QRL_ENC_LEVEL) (md bit : Z) : Prop :=
  el_state el = QRL_EL_STATE_UNPROV /\ el_md el = Some md /\ el_is_tx el = is_tx /\ el_key_epoch el = bit /\ zlen (el_ku el) = EVP_MAX_KEY_LENGTH.

(** The end of the provisioning of a transmitting level. *)
Lemma provided_tx (el el' : OSSL_QRL_ENC_LEVEL) (md bit : Z) (secret : bytes) hpr : is_tx = true -> 0 <= bit <= 1 ->
  fresh_level el md bit -> zlen secret = ossl_qrl_get_suite_secret_len (el_suite_id el) -> zlen secret <= EVP_MAX_KEY_LENGTH ->
  el' = (ku_put (set_cctx el 0 (Some (slot_keys hkdf_expand (el_suite_id el) md secret))) (hkdf_expand md secret quic_v1_ku_label (zlen secret)))
          <| el_hpr := hpr |> <| el_state := QRL_EL_STATE_PROV_NORMAL |> ->
  zlen (el_ku el') = EVP_MAX_KEY_LENGTH /\ level_ok (mkCfg (el_suite_id el) md secret bit) el'.
Proof.
  intros Htx Hb (Hst & Hmd & Hit & He & Hku) Hlen Hmax ->.
  assert (zlen (hkdf_expand md secret quic_v1_ku_label (zlen secret)) = zlen secret) as Hkl by apply hkdf_len, zlen_nonneg.
  split.
  - rewrite <- Hku. apply (ku_put_len el). rewrite Hkl. lia.
  - split; cbn [c_suite c_md c_secret c_bit]; try done.
    + cbn. u64_unfold. lia.
    + cbn -[secret_at]. rewrite He, Z.sub_diag. unfold ku_ahead. rewrite Htx. exact (ku_put_get el _ _ Hkl).
    + intros _. split; [done|]. right. unfold slot_has. cbn. by rewrite (epoch_keys_at _ _ 0) by (cbn; lia).
    + congruence.
Qed.

Lemma provided_rx (el el' : OSSL_QRL_ENC_LEVEL) (md bit : Z) (secret : bytes) hpr : is_tx = false -> 0 <= bit <= 1 ->
  fresh_level el md bit -> zlen secret = ossl_qrl_get_suite_secret_len (el_suite_id el) -> zlen secret <= EVP_MAX_KEY_LENGTH ->
  let k1 := hkdf_expand md secret quic_v1_ku_label (zlen secret) in
  el' = (ku_put (set_cctx (set_cctx el bit (Some (slot_keys hkdf_expand (el_suite_id el) md secret))) (1 - bit)
                   (Some (slot_keys hkdf_expand (el_suite_id el) md k1))) (hkdf_expand md k1 quic_v1_ku_label (zlen secret)))
          <| el_hpr := hpr |> <| el_state := QRL_EL_STATE_PROV_NORMAL |> ->
  zlen (el_ku el') = EVP_MAX_KEY_LENGTH /\ level_ok (mkCfg (el_suite_id el) md secret bit) el'.
Proof.
  intros Htx Hb (Hst & Hmd & Hit & He & Hku) Hlen Hmax k1 ->.
  assert (zlen (hkdf_expand md k1 quic_v1_ku_label (zlen secret)) = zlen secret) as Hkl by apply hkdf_len, zlen_nonneg.
  set (c := mkCfg (el_suite_id el) md secret bit). change k1 with (secret_at c 1) in Hkl |- *.
  assert (slot_keys hkdf_expand (el_suite_id el) md secret = epoch_keys c bit) as -> by (rewrite (epoch_keys_at c _ 0); cbn; [done|lia]).
  assert (slot_keys hkdf_expand (el_suite_id el) md (secret_at c 1) = epoch_keys c (bit + 1)) as -> by (rewrite (epoch_keys_at c _ 1); cbn; [done|lia]).
  set (el1 := set_cctx (set_cctx el bit _) (1 - bit) _).
  assert (el_cctx el1 bit = Some (epoch_keys c bit) /\ el_cctx el1 (1 - bit) = Some (epoch_keys c (bit + 1)) /\
          el_md el1 = Some md /\ el_key_epoch el1 = bit /\ el_suite_id el1 = el_suite_id el /\ el_is_tx el1 = is_tx /\ el_ku el1 = el_ku el) as H.
  { unfold el1, el_cctx, set_cctx. assert (bit = 0 \/ bit = 1) as [-> | ->] by lia; cbn; done. }
  destruct H as (H0 & H1 & Hmd1 & He1 & Hs1 & Hi1 & Hk1). clearbody el1.
  assert (Z.land bit 1 = bit) as Hcur by (assert (bit = 0 \/ bit = 1) as [-> | ->] by lia; done).
  split; [|split; cbn [c_suite c_md c_secret c_bit]].
  - rewrite <- Hku, <- Hk1. apply (ku_put_len el1). rewrite Hkl, Hk1, Hku. lia.
  - done.
  - done.
  - done.
  - cbn. u64_unfold. lia.
  - cbn -[secret_at]. rewrite He1, Z.sub_diag. unfold ku_ahead. rewrite Htx. exact (ku_put_get el1 _ _ Hkl).
  - done.
  - congruence.
  - intros _. unfold slot_has, cur_slot. cbn -[Z.land]. rewrite He1, Hcur. split_and!; [by destruct (bit =? 0)|by destruct (1 - bit =? 0)|done|done].
Qed.

Lemma finish_eq (els : OSSL_QRL_ENC_LEVEL_SET) f g : (els_upd (els_upd els L1 f) L1 g) L1 = g (f (els L1)).
Proof. done. Qed.

Lemma provide_keys_spec ok (els els' : OSSL_QRL_ENC_LEVEL_SET) (md bit : Z) (secret hpr_key : bytes) (r : bool) : 0 <= bit <= 1 ->
  fresh_level (els L1) md bit ->
  provide_keys hkdf_expand ok els L1 (if is_tx then 0 else bit) md secret is_tx hpr_key = Some (els', r) ->
  zlen (el_ku (els' L1)) = EVP_MAX_KEY_LENGTH /\
  (if r then level_ok (mkCfg (el_suite_id (els L1)) md secret bit) (els' L1) else el_state (els' L1) = QRL_EL_STATE_UNPROV).
Proof.
  intros Hb Hf. pose proof Hf as (Hst & Hmd & Hit & He & Hku). unfold provide_keys.
  set (k0 := if is_tx then 0 else bit). assert (0 <= k0 <= 1) as Hk0 by (subst k0; case_match; lia).
  assert (forall els1 slots, el_state (els1 L1) = QRL_EL_STATE_UNPROV ->
    zlen (el_ku (provide_failed els1 L1 slots L1)) = EVP_MAX_KEY_LENGTH /\ el_state (provide_failed els1 L1 slots L1) = QRL_EL_STATE_UNPROV) as Hfail.
  { intros els1 slots Hs. destruct (provide_failed_proj slots els1) as [H1 H2]. by rewrite H1. }
  destruct (el_setup_keyslot _ _ 2 _ _ _ _ _) as [[els1 r1]|] eqn:Hs1; [|done]. cbn [mbind option_bind].
  apply setup_slot in Hs1; [|done]. destruct r1; cbn [negb]; [|subst els1; intros [= <- <-]; by apply Hfail].
  destruct Hs1 as (md' & Hmd' & Hc1 & Hl1 & Hm1 & Hels1). assert (md' = md) as -> by congruence.
  destruct (set_cctx_proj (els L1) k0 (Some (slot_keys hkdf_expand (el_suite_id (els L1)) md secret))) as (P1 & P2 & P3 & P4 & P5 & P6 & _).
  assert (el_state (els1 L1) = QRL_EL_STATE_UNPROV) as Hst1 by (by rewrite Hels1, P4).
  destruct (ok 6%nat); cbn [negb]; [|intros [= <- <-]; by apply Hfail].
  destruct is_tx eqn:Htx.
  - destruct (ok 7%nat); intros [= <- <-]; [|by apply Hfail].
    apply (provided_tx (els L1) _ md bit secret (Some (ossl_qrl_get_suite_hdr_prot_cipher_id (el_suite_id (els L1)), hpr_key)) Htx Hb Hf Hl1 Hm1). rewrite finish_eq, Hels1. reflexivity.
  - destruct (el_setup_keyslot _ _ 9 _ _ _ _ _) as [[els2 r2]|] eqn:Hs2; [|done]. cbn [mbind option_bind].
    apply setup_slot in Hs2; [|subst k0; lia]. destruct r2; cbn [negb]; [|subst els2; intros [= <- <-]; by apply Hfail].
    destruct Hs2 as (md2 & Hmd2 & Hc2 & Hl2 & Hm2 & Hels2). rewrite Hels1, P1 in Hmd2. assert (md2 = md) as -> by congruence.
    assert (el_state (els2 L1) = QRL_EL_STATE_UNPROV) as Hst2.
    { rewrite Hels2. etransitivity; [apply (set_cctx_proj (els1 L1))|done]. }
    destruct (ok 8%nat); cbn [negb]; [|intros [= <- <-]; by apply Hfail].
    destruct (ok 7%nat); intros [= <- <-]; [|by apply Hfail].
    apply (provided_rx (els L1) _ md bit secret (Some (ossl_qrl_get_suite_hdr_prot_cipher_id (el_suite_id (els L1)), hpr_key)) Htx Hb Hf Hl1 Hm1). rewrite finish_eq, Hels2, Hels1, P3. clear -Hb. subst k0. assert (bit = 0 \/ bit = 1) as [-> | ->] by lia; reflexivity.
Qed.

Lemma provide_inv ok (els els' : OSSL_QRL_ENC_LEVEL_SET) (c : option qrl_cfg) suite md secret bit (r : bool) : 0 <= bit -> level_inv els c ->
  ossl_qrl_enc_level_set_provide_secret hkdf_expand ok els L1 suite md secret bit is_tx = Some (els', r) ->
  level_inv els' (cfg_after c (OpProvide suite md secret bit) r).
Proof.
  intros Hb [Hku Hc]. unfold ossl_qrl_enc_level_set_provide_secret. cbn [ossl_qrl_enc_level_set_get].
  change (ossl_qrl_enc_level_set_get els L1 false) with (Some (els L1)).
  destruct (ossl_qrl_get_suite_md_name suite) as [nm|] eqn:Hnm; [|intros [= <- <-]; done].
  destruct (Z.ltb_spec 1 bit); cbn [orb]; [intros [= <- <-]; done|].
  change (L1 =? QUIC_ENC_LEVEL_1RTT) with true. change (L1 =? QUIC_ENC_LEVEL_INITIAL) with false. rewrite andb_false_r. cbn [andb].
  destruct (Z.eqb_spec (el_state (els L1)) QRL_EL_STATE_UNPROV) as [Hun|]; cbn [negb]; [|intros [= <- <-]; done].
  case_match; [intros [= <- <-]; done|]. case_match; [intros [= <- <-]; done|].
  set (els1 := els_upd els L1 _).
  assert (level_inv els1 None) as Hi1 by (split; [done|]; change (el_state (els1 L1)) with (el_state (els L1)); by rewrite Hun).
  destruct (ok 1%nat); cbn [negb].
  - intros Hpk. assert (fresh_level (els1 L1) (default nm md) bit) as Hf by done.
    destruct (provide_keys_spec ok els1 els' _ bit secret _ r ltac:(lia) Hf Hpk) as [Hk Hr]. split; [done|].
    destruct r; [|by rewrite Hr]. intros _. cbn [cfg_after]. rewrite Hnm. by eexists.
  - intros [= <- <-]. destruct (provide_failed_proj [] els1) as [Hs Hk]. split; [done|]. rewrite Hs.
    change (el_state (els1 L1)) with (el_state (els L1)). by rewrite Hun.
Qed.

(** ** Key updates *)

Lemma update_rx (c : qrl_cfg) (el : OSSL_QRL_ENC_LEVEL) : is_tx = false -> el_state el = QRL_EL_STATE_PROV_NORMAL -> el_key_epoch el < UINT64_MAX ->
  level_ok c el -> level_ok c (el <| el_key_epoch := el_key_epoch el +u 1 |> <| el_state := QRL_EL_STATE_PROV_UPDATING |>).
Proof.
  intros Htx Hst He Ho. destruct Ho as [H1 H2 H3 (Hb & H4) H5 H6 H7 H8]. destruct (H8 Htx) as (Hc & Hn & _).
  assert (el_key_epoch el +u 1 = el_key_epoch el + 1) as Ha by u64_lia.
  split; cbn -[Z.land]; rewrite ?Ha; try done; try lia; [| |intros _].
  - change (ku_get _ _) with (ku_get el (zlen (c_secret c))). rewrite H5. f_equal. unfold ku_ahead. cbn. rewrite Htx, Hst. cbn. lia.
  - congruence.
  - unfold slot_has, cur_slot in *. cbn -[Z.land el_cctx]. rewrite next_slot. split_and!; try done.
    + exact (Hn Hst).
    + intros _. split; [|lia]. replace (1 - (1 - Z.land (el_key_epoch el) 1)) with (Z.land (el_key_epoch el) 1) by lia.
      replace (el_key_epoch el + 1 - 1) with (el_key_epoch el) by lia. exact Hc.
Qed.

Lemma update_tx (c : qrl_cfg) (el : OSSL_QRL_ENC_LEVEL) : is_tx = true -> el_key_epoch el < UINT64_MAX -> level_ok c el ->
  zlen (el_ku el) = EVP_MAX_KEY_LENGTH ->
  let n := zlen (c_secret c) in
  let el' := ku_put ((set_cctx (set_cctx el 0 None) 0 (Some (slot_keys hkdf_expand (el_suite_id el) (c_md c) (ku_get el n))))
               <| el_key_epoch := el_key_epoch el +u 1 |> <| el_op_count := 0 |>) (hkdf_expand (c_md c) (ku_get el n) quic_v1_ku_label n) in
  zlen (el_ku el') = EVP_MAX_KEY_LENGTH /\ level_ok c el'.
Proof.
  intros Htx He Ho Hk n. destruct Ho as [H1 H2 (H3 & H3') (Hb & H4) H5 H6 H7 H8]. destruct (H7 Htx) as (Hst & _).
  assert (el_key_epoch el +u 1 = el_key_epoch el + 1) as Ha by u64_lia.
  assert (zlen (hkdf_expand (c_md c) (ku_get el n) quic_v1_ku_label n) = n) as Hl by apply hkdf_len, zlen_nonneg.
  assert (ku_get el n = secret_at c (S (Z.to_nat (el_key_epoch el - c_bit c)))) as Hg.
  { unfold n. rewrite H5. f_equal. unfold ku_ahead. rewrite Htx. cbn. lia. }
  split; [rewrite <- Hk; apply (ku_put_len el); lia|]. split; cbn -[Z.land secret_at]; rewrite ?Ha; try done; try lia; [|intros _|congruence].
  - transitivity (ku_get (ku_put el (hkdf_expand (c_md c) (ku_get el n) quic_v1_ku_label n)) n); [reflexivity|].
    rewrite ku_put_get by done. rewrite Hg. unfold n. rewrite secret_next. f_equal. unfold ku_ahead. rewrite Htx. cbn. lia.
  - split; [done|]. right. unfold slot_has. cbn. rewrite H1, Hg. by rewrite (epoch_keys_at _ _ (S (Z.to_nat (el_key_epoch el - c_bit c)))) by lia.
Qed.

Lemma cctx_1 (el : OSSL_QRL_ENC_LEVEL) (k : Z) (s : option keyslot) : 0 <= k <= 1 -> el_cctx (set_cctx el (1 - k) s) k = el_cctx el k.
Proof. intros Hk. unfold el_cctx, set_cctx. assert (k = 0 \/ k = 1) as [-> | ->] by lia; done. Qed.

Lemma cur_slot_upd (el : OSSL_QRL_ENC_LEVEL) (k st : Z) (o : option keyslot) : cur_slot ((set_cctx el k o) <| el_state := st |>) = cur_slot el.
Proof. unfold cur_slot. cbn -[Z.land]. by destruct (set_cctx_proj el k o) as (_ & -> & _). Qed.

Lemma cctx_state (el : OSSL_QRL_ENC_LEVEL) (k st : Z) : el_cctx (el <| el_state := st |>) k = el_cctx el k.
Proof. done. Qed.

Lemma set_cctx_state (el : OSSL_QRL_ENC_LEVEL) (k st : Z) (o : option keyslot) : el_state el = st -> (set_cctx el k o) <| el_state := st |> = set_cctx el k o.
Proof. intros <-. unfold set_cctx. destruct el. by destruct (k =? 0). Qed.

(** A level whose other slot and state change. *)
Lemma rx_slot_change (c : qrl_cfg) (el el' : OSSL_QRL_ENC_LEVEL) (o : option keyslot) (st : Z) : is_tx = false -> level_ok c el ->
  el' = (set_cctx el (1 - cur_slot el) o) <| el_state := st |> -> st = QRL_EL_STATE_PROV_COOLDOWN -> el_state el <> QRL_EL_STATE_PROV_NORMAL ->
  (o = None \/ o = Some (epoch_keys c (el_key_epoch el + 1))) -> level_ok c el'.
Proof.
  intros Htx Ho -> -> Hst Hs. destruct Ho as [H1 H2 H3 H4 H5 H6 H7 H8]. destruct (H8 Htx) as (Hc & _ & _).
  pose proof (cur_range el) as Hr.
  destruct (set_cctx_proj el (1 - cur_slot el) o) as (P1 & P2 & P3 & P4 & P5 & P6 & _).
  assert (ku_ahead el = 1%nat) as Hah by (unfold ku_ahead; rewrite Htx; cbn; by rewrite (proj2 (Z.eqb_neq _ _))).
  split; try (cbn -[Z.land cur_slot]; rewrite ?P1, ?P2, ?P3, ?P5; try done; try lia; fail).
  - unfold ku_get. cbn -[Z.land cur_slot secret_at]. rewrite P2, P6. unfold ku_get in H5. rewrite H5, Hah. f_equal.
    unfold ku_ahead. cbn. by rewrite andb_false_r.
  - congruence.
  - intros _. unfold slot_has. rewrite !cur_slot_upd, !cctx_state, set_cctx_same, cctx_1 by done.
    cbn -[Z.land cur_slot el_cctx epoch_keys]. rewrite P2. done.
Qed.

(** Completing a key update erases the old key. *)
Lemma done_spec (els els' : OSSL_QRL_ENC_LEVEL_SET) (c : qrl_cfg) (r : bool) :
  el_state (els L1) = QRL_EL_STATE_PROV_UPDATING -> level_ok c (els L1) -> zlen (el_ku (els L1)) = EVP_MAX_KEY_LENGTH ->
  ossl_qrl_enc_level_set_key_update_done els L1 = (els', r) ->
  r = true /\ zlen (el_ku (els' L1)) = EVP_MAX_KEY_LENGTH /\ level_ok c (els' L1) /\ is_tx = false /\
  el_state (els' L1) = QRL_EL_STATE_PROV_COOLDOWN /\ el_cctx (els' L1) (1 - cur_slot (els' L1)) = None.
Proof.
  intros Hst Ho Hk. unfold ossl_qrl_enc_level_set_key_update_done. change (ossl_qrl_enc_level_set_get els L1 false) with (Some (els L1)).
  change (L1 =? QUIC_ENC_LEVEL_1RTT) with true. cbn [negb]. intros [= <- <-]. rewrite els_upd_1.
  assert (is_tx = false) as Htx by (destruct is_tx eqn:Ht; [|done]; destruct (lo_tx _ _ Ho Ht) as [Hn _]; by rewrite Hst in Hn).
  pose proof (cur_range (els L1)) as Hr. rewrite other_slot_eq. unfold el_teardown_keyslot. rewrite has_slot by lia. rewrite Hst.
  change (_ || _ || _) with true. cbv iota. rewrite els_upd_1.
  destruct (set_cctx_proj (els L1) (1 - cur_slot (els L1)) None) as (P1 & P2 & P3 & P4 & P5 & P6 & _).
  split; [done|]. split; [cbn -[cur_slot Z.land]; by rewrite P6|].
  split; [eapply (rx_slot_change c (els L1) _ None _ Htx Ho); [done|done|by rewrite Hst|by left]|]. split_and!; [done|done|].
  assert (forall x, x = (set_cctx (els L1) (1 - cur_slot (els L1)) None) <| el_state := QRL_EL_STATE_PROV_COOLDOWN |> ->
    el_cctx x (1 - cur_slot x) = None) as Hx; [intros x ->; by rewrite cur_slot_upd, cctx_state, set_cctx_same|by apply Hx].
Qed.

(** The end of the cooldown: the slot of the next epoch is set up. *)
Lemma cooldown_level (c : qrl_cfg) (el el' : OSSL_QRL_ENC_LEVEL) : is_tx = false -> level_ok c el ->
  el_state el = QRL_EL_STATE_PROV_COOLDOWN -> zlen (el_ku el) = EVP_MAX_KEY_LENGTH ->
  let n := zlen (c_secret c) in
  el' = (ku_put (set_cctx el (1 - cur_slot el) (Some (slot_keys hkdf_expand (el_suite_id el) (c_md c) (ku_get el n))))
           (hkdf_expand (c_md c) (ku_get el n) quic_v1_ku_label n)) <| el_state := QRL_EL_STATE_PROV_NORMAL |> ->
  zlen (el_ku el') = EVP_MAX_KEY_LENGTH /\ level_ok c el'.
Proof.
  intros Htx [H1 H2 (H3 & H3') (Hb & H4) H5 H6 H7 H8] Hst Hk n. destruct (H8 Htx) as (Hc & _). pose proof (cur_range el) as Hr.
  assert (ku_get el n = secret_at c (S (Z.to_nat (el_key_epoch el - c_bit c)))) as Hg.
  { unfold n. rewrite H5. f_equal. unfold ku_ahead. rewrite Hst, andb_false_r. lia. }
  rewrite Hg, H1. assert (slot_keys hkdf_expand (c_suite c) (c_md c) (secret_at c (S (Z.to_nat (el_key_epoch el - c_bit c))))
    = epoch_keys c (el_key_epoch el + 1)) as -> by (symmetry; apply epoch_keys_at; lia).
  unfold n. rewrite secret_next. clear n Hg. intros ->. set (s2 := secret_at c _).
  assert (zlen s2 = zlen (c_secret c)) as Hl by apply secret_len.
  destruct (set_cctx_proj el (1 - cur_slot el) (Some (epoch_keys c (el_key_epoch el + 1)))) as (P1 & P2 & P3 & P4 & P5 & P6 & _).
  split; [cbn -[cur_slot secret_at s2]; rewrite P6, <- Hk; apply (ku_put_len el); rewrite Hk; fold s2; rewrite Hl; exact H3'|].
  split; try (cbn -[Z.land cur_slot]; rewrite ?P1, ?P2, ?P3, ?P5; try done; try lia; fail).
  - cbn -[Z.land cur_slot secret_at s2]. rewrite P2. etransitivity; [exact (ku_put_get (set_cctx el (1 - cur_slot el) _) s2 _ Hl)|].
    unfold s2. f_equal. unfold ku_ahead. rewrite Htx. cbn. lia.
  - congruence.
  - intros _. unfold slot_has.
    change (el_cctx (_ <| el_state := _ |>) ?k) with (el_cctx (set_cctx el (1 - cur_slot el) (Some (epoch_keys c (el_key_epoch el + 1)))) k).
    assert (forall x, x = set_cctx el (1 - cur_slot el) (Some (epoch_keys c (el_key_epoch el + 1))) ->
      el_cctx x (cur_slot x) = Some (epoch_keys c (el_key_epoch x)) /\ el_cctx x (1 - cur_slot x) = Some (epoch_keys c (el_key_epoch x + 1))) as Hx.
    { intros x ->. rewrite P2. assert (cur_slot (set_cctx el (1 - cur_slot el) (Some (epoch_keys c (el_key_epoch el + 1)))) = cur_slot el) as ->
        by (unfold cur_slot at 1; by rewrite P2). by rewrite cctx_1, set_cctx_same. }
    destruct (Hx _ eq_refl) as [X1 X2]. split; [exact X1|]. split; [intros _; exact X2|]. done.
Qed.

Lemma cooldown_keys (c : qrl_cfg) (el : OSSL_QRL_ENC_LEVEL) : is_tx = false -> level_ok c el -> el_state el = QRL_EL_STATE_PROV_COOLDOWN ->
  slot_keys hkdf_expand (el_suite_id el) (c_md c) (ku_get el (zlen (c_secret c))) = epoch_keys c (el_key_epoch el + 1).
Proof.
  intros Htx [H1 H2 _ (Hb & H4) H5 H6 H7 H8] Hst. rewrite H5, H1. symmetry. apply epoch_keys_at.
  unfold ku_ahead. rewrite Hst, andb_false_r. lia.
Qed.

Lemma inv_some (els : OSSL_QRL_ENC_LEVEL_SET) (c : qrl_cfg) : zlen (el_ku (els L1)) = EVP_MAX_KEY_LENGTH -> level_ok c (els L1) -> level_inv els (Some c).
Proof. intros Hk Ho. split; [done|]. intros _. by exists c. Qed.

(** The cooldown from the state in which the old key is gone. *)
Lemma cooldown_spec ok (els els' : OSSL_QRL_ENC_LEVEL_SET) (c : qrl_cfg) (r : bool) : is_tx = false -> level_ok c (els L1) ->
  el_state (els L1) = QRL_EL_STATE_PROV_COOLDOWN -> zlen (el_ku (els L1)) = EVP_MAX_KEY_LENGTH ->
  ossl_qrl_enc_level_set_key_cooldown_done hkdf_expand ok els L1 = Some (els', r) -> level_inv els' (Some c).
Proof.
  intros Htx Ho Hst Hk. unfold ossl_qrl_enc_level_set_key_cooldown_done. change (ossl_qrl_enc_level_set_get els L1 false) with (Some (els L1)).
  change (L1 =? QUIC_ENC_LEVEL_1RTT) with true. cbn [negb]. cbv iota beta. rewrite Hst.
  change (QRL_EL_STATE_PROV_COOLDOWN =? QRL_EL_STATE_PROV_UPDATING) with false. cbv iota. cbn [negb]. rewrite ?Hst.
  change (QRL_EL_STATE_PROV_COOLDOWN =? QRL_EL_STATE_PROV_COOLDOWN) with true. cbn [negb].
  rewrite (lo_suite _ _ Ho). destruct (lo_len _ _ Ho) as [Hl Hl']. rewrite <- Hl.
  pose proof (cur_range (els L1)) as Hr. rewrite other_slot_eq.
  destruct (el_setup_keyslot _ _ 0 _ _ _ _ _) as [[els1 r1]|] eqn:Hs; [|done]. cbn [mbind option_bind].
  apply setup_slot in Hs; [|lia]. destruct r1; cbn [negb]; [|subst els1; intros [= <- <-]; by apply inv_some].
  destruct Hs as (md & Hmd & _ & _ & _ & He). assert (md = c_md c) as -> by (rewrite (lo_md _ _ Ho) in Hmd; congruence).
  destruct (set_cctx_proj (els L1) (1 - cur_slot (els L1)) (Some (slot_keys hkdf_expand (el_suite_id (els L1)) (c_md c) (ku_get (els L1) (zlen (c_secret c)))))) as (P1 & P2 & P3 & P4 & P5 & P6 & _).
  rewrite (lo_md _ _ Ho). cbn [mbind option_bind]. destruct (ok 4%nat); cbn [negb]; intros [= <- <-].
  - destruct (cooldown_level c (els L1) _ Htx Ho Hst Hk eq_refl) as [X1 X2]. apply inv_some; rewrite els_upd_1, He; [exact X1|exact X2].
  - set (k := 1 - cur_slot (els L1)) in *. assert (el_teardown_keyslot els1 L1 k L1 = els1 L1) as Ht.
    { unfold el_teardown_keyslot. rewrite has_slot by lia. rewrite He, P4, Hst. rewrite P2. subst k. fold (cur_slot (els L1)).
      assert ((1 - cur_slot (els L1) =? cur_slot (els L1)) = false) as -> by lia. done. }
    apply inv_some; rewrite Ht, He; [by rewrite P6|].
    apply (rx_slot_change c (els L1) _ (Some (epoch_keys c (el_key_epoch (els L1) + 1))) QRL_EL_STATE_PROV_COOLDOWN Htx Ho); [|done|by rewrite Hst|by right].
    rewrite (cooldown_keys c) by done. fold k. symmetry. apply set_cctx_state. by rewrite Hst.
Qed.

(** The end of the cooldown completes a pending update first. *)
Lemma cooldown_inv ok (els els' : OSSL_QRL_ENC_LEVEL_SET) (c : option qrl_cfg) (r : bool) : level_inv els c ->
  ossl_qrl_enc_level_set_key_cooldown_done hkdf_expand ok els L1 = Some (els', r) -> level_inv els' c.
Proof.
  intros [Hk Hc] Hd.
  destruct (Z.eq_dec (el_state (els L1)) QRL_EL_STATE_PROV_UPDATING) as [Hst|Hst].
  - destruct Hc as (c' & -> & Ho); [by rewrite Hst|].
    destruct (ossl_qrl_enc_level_set_key_update_done els L1) as [els1 r1] eqn:Hu.
    destruct (done_spec els els1 c' r1 Hst Ho Hk Hu) as (-> & Hk1 & Ho1 & Htx & Hst1 & _).
    apply (cooldown_spec ok els1 els' c' r Htx Ho1 Hst1 Hk1). rewrite <- Hd. symmetry.
    unfold ossl_qrl_enc_level_set_key_cooldown_done at 1. change (ossl_qrl_enc_level_set_get els L1 false) with (Some (els L1)).
    cbv iota beta. rewrite Hst, Hu. unfold ossl_qrl_enc_level_set_key_cooldown_done.
    change (ossl_qrl_enc_level_set_get els1 L1 false) with (Some (els1 L1)). cbv iota beta. by rewrite Hst1.
  - destruct (Z.eq_dec (el_state (els L1)) QRL_EL_STATE_PROV_COOLDOWN) as [Hco|Hco].
    + destruct Hc as (c' & -> & Ho); [by rewrite Hco|].
      assert (is_tx = false) as Htx by (destruct is_tx eqn:Ht; [|done]; destruct (lo_tx _ _ Ho Ht) as [Hn _]; by rewrite Hco in Hn).
      exact (cooldown_spec ok els els' c' r Htx Ho Hco Hk Hd).
    + revert Hd. unfold ossl_qrl_enc_level_set_key_cooldown_done. change (ossl_qrl_enc_level_set_get els L1 false) with (Some (els L1)).
      cbv iota beta. change (L1 =? QUIC_ENC_LEVEL_1RTT) with true. cbn [negb]. rewrite (proj2 (Z.eqb_neq _ _) Hst). cbn [negb].
      rewrite (proj2 (Z.eqb_neq _ _) Hco). cbn [negb]. by intros [= <- <-].
Qed.

(** A transmitting level whose key could not be replaced has none. *)
Lemma tx_slot_lost (c : qrl_cfg) (el : OSSL_QRL_ENC_LEVEL) : is_tx = true -> level_ok c el -> level_ok c (set_cctx el 0 None).
Proof. intros Htx [H1 H2 H3 H4 H5 H6 H7 H8]. split; try done; [|congruence]. intros _. split; [apply (H7 Htx)|by left]. Qed.

Lemma update_inv ok (els els' : OSSL_QRL_ENC_LEVEL_SET) (c : option qrl_cfg) (r : bool) : level_inv els c -> el_key_epoch (els L1) < UINT64_MAX ->
  ossl_qrl_enc_level_set_key_update hkdf_expand ok els L1 = Some (els', r) -> level_inv els' c.
Proof.
  intros [Hk Hc] He. unfold ossl_qrl_enc_level_set_key_update. change (ossl_qrl_enc_level_set_get els L1 false) with (Some (els L1)).
  cbv iota beta. change (L1 =? QUIC_ENC_LEVEL_1RTT) with true. cbn [negb].
  destruct (Z.eqb_spec (el_state (els L1)) QRL_EL_STATE_PROV_NORMAL) as [Hst|]; cbn [negb]; [|by intros [= <- <-]].
  destruct Hc as (c' & -> & Ho); [by rewrite Hst|]. rewrite (lo_is_tx _ _ Ho).
  destruct is_tx eqn:Htx; cbn [negb].
  - rewrite (lo_md _ _ Ho), (lo_suite _ _ Ho). destruct (lo_len _ _ Ho) as [Hl _]. rewrite <- Hl. cbn [mbind option_bind].
    destruct (ok 0%nat); cbn [negb]; [|intros [= <- <-]; by apply inv_some].
    assert (el_teardown_keyslot els L1 0 L1 = set_cctx (els L1) 0 None) as Ht.
    { unfold el_teardown_keyslot. rewrite has_slot by lia. rewrite Hst. done. }
    destruct (el_setup_keyslot _ _ 1 _ _ _ _ _) as [[els1 r1]|] eqn:Hs; [|done]. cbn [mbind option_bind].
    apply setup_slot in Hs; [|lia]. destruct r1; cbn [negb]; intros [= <- <-].
    + destruct Hs as (md & Hmd & _ & _ & _ & Hels). rewrite Ht in Hels, Hmd.
      assert (md = c_md c') as -> by (revert Hmd; unfold set_cctx; cbn; rewrite (lo_md _ _ Ho); congruence).
      destruct (update_tx c' (els L1) Htx He Ho Hk) as [X1 X2].
      apply inv_some; rewrite els_upd_1, Hels; [exact X1|exact X2].
    + subst els1. apply inv_some; rewrite Ht; [done|]. by apply tx_slot_lost.
  - intros [= <- <-]. apply inv_some; rewrite els_upd_1; [done|]. by apply update_rx.
Qed.

Lemma discard_inv (els : OSSL_QRL_ENC_LEVEL_SET) (c : option qrl_cfg) : level_inv els c -> level_inv (ossl_qrl_enc_level_set_discard els L1) c.
Proof.
  intros [Hk Hc]. unfold ossl_qrl_enc_level_set_discard. change (ossl_qrl_enc_level_set_get els L1 false) with (Some (els L1)). cbv iota beta.
  case_match; [done|]. set (els1 := if state_prov _ then _ else _).
  assert (zlen (el_ku (els1 L1)) = EVP_MAX_KEY_LENGTH) as Hk1; [|split; [exact Hk1|done]].
  unfold els1. case_match; [|done]. destruct (teardown_proj (el_teardown_keyslot (els_upd els L1 (fun el => el <| el_hpr := None |>)) L1 0) 1) as (_&_&_&_&_&->).
  destruct (teardown_proj (els_upd els L1 (fun el => el <| el_hpr := None |>)) 0) as (_&_&_&_&_&->). done.
Qed.

Lemma reach_inv (els : OSSL_QRL_ENC_LEVEL_SET) (c : option qrl_cfg) : qrl_reach els c -> level_inv els c.
Proof.
  induction 1 as [|ok els c op els' r _ IH Hop Hdo]; [by split|].
  destruct op as [suite md secret bit| | | |]; cbn [qrl_do cfg_after qrl_op_ok] in *.
  - by apply (provide_inv ok els els' c suite md secret bit r).
  - by apply (update_inv ok els els' c r).
  - destruct IH as [Hk Hc]. destruct Hc as (c' & -> & Ho); [by rewrite Hop|]. assert (ossl_qrl_enc_level_set_key_update_done els L1 = (els', r)) as Hu by congruence. clear Hdo.
    destruct (done_spec els els' c' r Hop Ho Hk Hu) as (_ & Hk' & Ho' & _). by apply inv_some.
  - by apply (cooldown_inv ok els els' c r).
  - injection Hdo as <- <-. by apply discard_inv.
Qed.

(** ** The second slot of a transmitting level *)

Abbreviation no_slot1 els := (el_cctx (els L1) 1 = None).

Lemma teardown_slot1 (els : OSSL_QRL_ENC_LEVEL_SET) (k : Z) : no_slot1 els -> no_slot1 (el_teardown_keyslot els L1 k).
Proof.
  intros H. unfold el_teardown_keyslot. case_match; [|done]. rewrite els_upd_1. unfold set_cctx. by destruct (k =? 0).
Qed.

Lemma failed_slot1 (slots : list Z) (els : OSSL_QRL_ENC_LEVEL_SET) : no_slot1 els -> no_slot1 (provide_failed els L1 slots).
Proof.
  intros H. unfold provide_failed. set (els0 := els_upd els L1 _). assert (H0 : no_slot1 els0) by exact H. clearbody els0. revert els0 H0.
  induction slots as [|k slots IH]; intros els0 H0; [done|]. apply IH. by apply teardown_slot1.
Qed.

Lemma setup_slot1 ok n (els els' : OSSL_QRL_ENC_LEVEL_SET) (secret : bytes) (r : bool) : no_slot1 els ->
  el_setup_keyslot hkdf_expand ok n els L1 QRL_EL_STATE_PROV_NORMAL 0 secret = Some (els', r) -> no_slot1 els'.
Proof.
  intros H Hs. apply setup_slot in Hs; [|lia]. destruct r; [|by subst els']. destruct Hs as (md & _ & _ & _ & _ & ->). exact H.
Qed.

Lemma provide_slot1 ok (els els' : OSSL_QRL_ENC_LEVEL_SET) suite md secret bit (r : bool) : is_tx = true -> no_slot1 els ->
  ossl_qrl_enc_level_set_provide_secret hkdf_expand ok els L1 suite md secret bit is_tx = Some (els', r) -> no_slot1 els'.
Proof.
  intros Htx H. unfold ossl_qrl_enc_level_set_provide_secret. change (ossl_qrl_enc_level_set_get els L1 false) with (Some (els L1)).
  change (L1 =? QUIC_ENC_LEVEL_1RTT) with true. change (L1 =? QUIC_ENC_LEVEL_INITIAL) with false. cbn [andb]. rewrite Htx.
  destruct (ossl_qrl_get_suite_md_name suite) as [nm|]; [|by intros [= <- <-]].
  do 4 (case_match; [by intros [= <- <-]|]). set (els1 := els_upd els L1 _). assert (Hn1 : no_slot1 els1) by exact H. clearbody els1.
  case_match; [intros [= <- <-]; by apply failed_slot1|]. unfold provide_keys.
  destruct (el_setup_keyslot _ _ 2 _ _ _ _ _) as [[els2 r2]|] eqn:Hs; [|done]. cbn [mbind option_bind]. apply setup_slot1 in Hs; [|done].
  destruct r2; cbn [negb]; [|intros [= <- <-]; by apply failed_slot1]. change (L1 =? QUIC_ENC_LEVEL_1RTT) with true. cbn [negb].
  case_match; [intros [= <- <-]; by apply failed_slot1|]. case_match; intros [= <- <-]; [exact Hs|]. by apply failed_slot1.
Qed.

Lemma update_slot1 ok (els els' : OSSL_QRL_ENC_LEVEL_SET) (r : bool) : no_slot1 els ->
  ossl_qrl_enc_level_set_key_update hkdf_expand ok els L1 = Some (els', r) -> no_slot1 els'.
Proof.
  intros H. unfold ossl_qrl_enc_level_set_key_update. change (ossl_qrl_enc_level_set_get els L1 false) with (Some (els L1)).
  cbv iota beta. do 2 (case_match; [by intros [= <- <-]|]). case_match; [by intros [= <- <-]|].
  destruct (el_md (els L1)) as [md|]; [|done]. cbn [mbind option_bind]. case_match; [by intros [= <- <-]|].
  destruct (el_setup_keyslot _ _ 1 _ _ _ _ _) as [[els1 r1]|] eqn:Hs; [|done]. cbn [mbind option_bind].
  apply setup_slot1 in Hs; [|by apply teardown_slot1]. destruct r1; cbn [negb]; intros [= <- <-]; exact Hs.
Qed.

(** It is never set up, so no superseded key can be left in it. *)
Lemma reach_slot1 (els : OSSL_QRL_ENC_LEVEL_SET) (c : option qrl_cfg) : is_tx = true -> qrl_reach els c -> no_slot1 els.
Proof.
  intros Htx. induction 1 as [|ok els c op els' r Hr IH Hop Hdo]; [done|]. destruct (reach_inv _ _ Hr) as [_ Hc].
  assert (Hst : el_state (els L1) <> QRL_EL_STATE_PROV_UPDATING /\ el_state (els L1) <> QRL_EL_STATE_PROV_COOLDOWN).
  { split; intros Hst; (destruct Hc as (c' & _ & Ho); [by rewrite Hst|]); destruct (lo_tx _ _ Ho Htx) as [Hn _]; by rewrite Hst in Hn. }
  destruct op as [suite md secret bit| | | |]; cbn [qrl_do qrl_op_ok] in *.
  - by eapply provide_slot1.
  - by eapply update_slot1.
  - by destruct Hst.
  - revert Hdo. unfold ossl_qrl_enc_level_set_key_cooldown_done. change (ossl_qrl_enc_level_set_get els L1 false) with (Some (els L1)).
    cbv iota beta. change (L1 =? QUIC_ENC_LEVEL_1RTT) with true. cbn [negb]. rewrite (proj2 (Z.eqb_neq _ _) (proj1 Hst)). cbn [negb].
    rewrite (proj2 (Z.eqb_neq _ _) (proj2 Hst)). cbn [negb]. by intros [= <- <-].
  - injection Hdo as <- <-. unfold ossl_qrl_enc_level_set_discard. change (ossl_qrl_enc_level_set_get els L1 false) with (Some (els L1)). cbv iota beta.
    case_match; [done|]. case_match; [|done]. rewrite els_upd_1. by do 2 apply teardown_slot1.
Qed.

(** C11. The keys follow the epochs.  Over every history of operations on the 1-RTT level of a set, and
    whichever library calls fail on the way, each of the two key slots of the provisioned level is empty or holds
    exactly the key that the update schedule gives for one epoch.  A receiving level always has the
    key of its current epoch, next to it the key of the next epoch (normal) or of the previous one
    (updating) and during the cooldown never an old key; a transmitting level has only the key of
    its current epoch, if any, in its first slot and nothing in its second one, and the secret kept for the
    next update is never ahead or behind. *)
Theorem qrl_keys_follow_epochs (els : OSSL_QRL_ENC_LEVEL_SET) (c : option qrl_cfg) :
  qrl_reach els c -> state_prov (el_state (els L1)) = true ->
  exists c', c = Some c' /\ let el := els L1 in let e := el_key_epoch el in
    c_bit c' <= e /\ ku_get el (zlen (c_secret c')) = secret_at c' (Z.to_nat (e - c_bit c') + ku_ahead el) /\
    if is_tx then el_state el = QRL_EL_STATE_PROV_NORMAL /\ (el_cctx el 0 = None \/ el_cctx el 0 = Some (epoch_keys c' e)) /\ el_cctx el 1 = None
    else el_cctx el (e mod 2) = Some (epoch_keys c' e) /\
      let old := el_cctx el ((e + 1) mod 2) in
      if el_state el =? QRL_EL_STATE_PROV_NORMAL then old = Some (epoch_keys c' (e + 1))
      else if el_state el =? QRL_EL_STATE_PROV_UPDATING then old = Some (epoch_keys c' (e - 1))
      else old = None \/ old = Some (epoch_keys c' (e + 1)).
Proof.
  intros Hr Hp. destruct (proj2 (reach_inv _ _ Hr) Hp) as (c' & -> & Ho). exists c'. split; [done|]. cbv zeta.
  destruct (lo_epoch _ _ Ho) as [_ He]. split; [lia|]. split; [exact (lo_ku _ _ Ho)|].
  assert (forall x, Z.land x 1 = x mod 2) as Hl by (intros x; change 1 with (Z.ones 1) at 1; by rewrite Z.land_ones).
  assert (H1 : is_tx = true -> el_cctx (els L1) 1 = None) by (intros Ht; by eapply reach_slot1).
  destruct is_tx eqn:Htx; [destruct (lo_tx _ _ Ho Htx); split_and!; [done..|by apply H1]|].
  destruct (lo_rx _ _ Ho Htx) as (Hc & Hn & Hu & Hco). unfold cur_slot in *. rewrite <- next_slot in *. rewrite !Hl in *.
  split; [exact Hc|]. case_match; [apply Hn; lia|]. case_match; [apply Hu; lia|]. apply Hco.
  unfold state_prov in Hp. apply orb_prop in Hp as [Hp|Hp]; [|lia]. apply orb_prop in Hp as [Hp|Hp]; congruence.
Qed.
End Keys.

(** ** Concrete sets *)

(** A function of the right lengths. *)
Definition hkdf_demo (md : Z) (secret label : bytes) (n : Z) : bytes :=
  (fun i => (nth i secret 0 + 3 * Z.of_nat i + foldr Z.add 0 label + md) mod 256) <$> seq 0 (Z.to_nat n).
Definition demo_secret : bytes := seqZ 7 32.
Definition all_ok (n : nat) : bool := true.
Definition fails_at (k n : nat) : bool := negb (n =? k)%nat.

Lemma hkdf_demo_len md secret label n : 0 <= n -> zlen (hkdf_demo md secret label n) = n.
Proof. intros Hn. unfold hkdf_demo, zlen. rewrite length_fmap, length_seq. lia. Qed.

(** One operation whose library calls succeed. *)
Definition demo_step (is_tx : bool) (els : OSSL_QRL_ENC_LEVEL_SET) (op : qrl_op) : OSSL_QRL_ENC_LEVEL_SET :=
  default els (fst <$> qrl_do hkdf_demo is_tx all_ok els op).

Lemma demo_step_reach is_tx els c op : qrl_reach hkdf_demo is_tx els c -> qrl_op_ok els op ->
  (snd <$> qrl_do hkdf_demo is_tx all_ok els op) = Some true -> qrl_reach hkdf_demo is_tx (demo_step is_tx els op) (cfg_after c op true).
Proof.
  intros Hr Hop Hdo. destruct (qrl_do _ _ _ els op) as [[els' r]|] eqn:E; [|done]. cbn in Hdo. assert (r = true) as -> by congruence.
  apply (qrl_next hkdf_demo is_tx all_ok els c op (demo_step is_tx els op) true Hr Hop). by rewrite E; unfold demo_step; rewrite E.
Qed.

(** A receiving level through a key update up to the cooldown. *)
Definition demo_level : OSSL_QRL_ENC_LEVEL_SET :=
  foldl (demo_step false) els_new [OpProvide QRL_SUITE_AES128GCM None demo_secret 0; OpKeyUpdate; OpKeyUpdateDone].
Definition demo_cfg : qrl_cfg := mkCfg QRL_SUITE_AES128GCM NAME_SHA256 demo_secret 0.

Lemma demo_reach : qrl_reach hkdf_demo false demo_level (Some demo_cfg).
Proof.
  unfold demo_level. cbn [foldl].
  apply (demo_step_reach false _ (Some demo_cfg) OpKeyUpdateDone); [|vm_compute; reflexivity|vm_compute; reflexivity].
  apply (demo_step_reach false _ (Some demo_cfg) OpKeyUpdate); [|vm_compute; reflexivity|vm_compute; reflexivity].
  apply (demo_step_reach false _ None (OpProvide QRL_SUITE_AES128GCM None demo_secret 0)); [apply qrl_start|done|vm_compute; reflexivity].
Qed.

(** In the cooldown there is the key of the new epoch and no other. *)
Lemma qrl_keys_follow_epochs_witness :
  el_key_epoch (demo_level QUIC_ENC_LEVEL_1RTT) = 1 /\ el_cctx0 (demo_level QUIC_ENC_LEVEL_1RTT) = None /\
  exists c', Some demo_cfg = Some c' /\ el_cctx (demo_level QUIC_ENC_LEVEL_1RTT) 1 = Some (epoch_keys hkdf_demo c' 1).
Proof.
  split; [vm_compute; reflexivity|]. split; [vm_compute; reflexivity|].
  destruct (qrl_keys_follow_epochs hkdf_demo hkdf_demo_len false demo_level (Some demo_cfg) demo_reach) as (c' & Hc & H); [vm_compute; reflexivity|].
  exists c'. split; [exact Hc|]. apply H.
Defined.

(** A provisioning that fails at its last call (the header protection key) leaves the packet protection
    key in the unprovisioned level, since tearing down a slot of such a level does nothing; trying again is an
    assertion failure. *)
Lemma provide_failure_keeps_key :
  let provide ok els := ossl_qrl_enc_level_set_provide_secret hkdf_demo ok els QUIC_ENC_LEVEL_1RTT QRL_SUITE_AES128GCM None demo_secret 0 true in
  let els := default els_new (fst <$> provide (fails_at 7) els_new) in
  (snd <$> provide (fails_at 7) els_new) = Some false /\ el_state (els QUIC_ENC_LEVEL_1RTT) = QRL_EL_STATE_UNPROV /\
  el_cctx0 (els QUIC_ENC_LEVEL_1RTT) = Some (epoch_keys hkdf_demo demo_cfg 0) /\ (snd <$> provide all_ok els) = None.
Proof. split_and!; vm_compute; reflexivity. Qed.

(** A failure at the end of a cooldown likewise leaves the next key behind. *)
Lemma cooldown_failure_keeps_key :
  let cooldown_done ok els := ossl_qrl_enc_level_set_key_cooldown_done hkdf_demo ok els QUIC_ENC_LEVEL_1RTT in
  let els := default els_new (fst <$> cooldown_done (fails_at 4) demo_level) in
  (snd <$> cooldown_done (fails_at 4) demo_level) = Some false /\ el_state (els QUIC_ENC_LEVEL_1RTT) = QRL_EL_STATE_PROV_COOLDOWN /\
  el_cctx0 (els QUIC_ENC_LEVEL_1RTT) = Some (epoch_keys hkdf_demo demo_cfg 2) /\ (snd <$> cooldown_done all_ok els) = None.
Proof. split_and!; vm_compute; reflexivity. Qed.
