(* ===== verification/Qtx.v ===== *)
(** * The transmit record layer: datagrams of protected packets
    (ssl/quic/quic_record_tx.c, include/internal/quic_record_tx.h)

    A datagram under construction or waiting is a TX entry with its bytes; the keys are
    those of the encryption level set (Qrl.v).  The AEAD and the block ciphers of header
    protection are the crypto library: parameters.  The BIO, the addresses (the caller
    uses the same for all packets of a datagram), the packet mutator of the tests and the
    logging hooks are left out. *)

From S2P Require Import Prelude OsslTime Packet Wire WirePkt Qrl.

Definition QUIC_MIN_INITIAL_DGRAM_LEN : Z := 1200.

(** ** Packet types of the encryption levels *)

Definition UINT32_MAX : Z := 4294967295.

Definition ossl_quic_enc_level_to_pkt_type (enc_level : Z) : Z :=
  if enc_level =? QUIC_ENC_LEVEL_INITIAL then QUIC_PKT_TYPE_INITIAL
  else if enc_level =? QUIC_ENC_LEVEL_HANDSHAKE then QUIC_PKT_TYPE_HANDSHAKE
  else if enc_level =? QUIC_ENC_LEVEL_0RTT then QUIC_PKT_TYPE_0RTT
  else if enc_level =? QUIC_ENC_LEVEL_1RTT then QUIC_PKT_TYPE_1RTT
  else UINT32_MAX.

Definition ossl_quic_pkt_type_to_enc_level (pkt_type : Z) : Z :=
  if pkt_type =? QUIC_PKT_TYPE_INITIAL then QUIC_ENC_LEVEL_INITIAL
  else if pkt_type =? QUIC_PKT_TYPE_HANDSHAKE then QUIC_ENC_LEVEL_HANDSHAKE
  else if pkt_type =? QUIC_PKT_TYPE_0RTT then QUIC_ENC_LEVEL_0RTT
  else if pkt_type =? QUIC_PKT_TYPE_1RTT then QUIC_ENC_LEVEL_1RTT
  else QUIC_ENC_LEVEL_NUM.

(** ** State *)

Record TXE := mkTxe { txe_alloc_len : Z; txe_data : bytes }.
#[export] Instance eta_txe : Eta TXE := fun e => mkTxe (txe_alloc_len e) (txe_data e).
Definition data_len (txe : TXE) : Z := zlen (txe_data txe).

(** [qtx_free] is the free list; [qtx_wire] collects what was given to the network. *)
Record OSSL_QTX := mkQtx {
  qtx_el_set : OSSL_QRL_ENC_LEVEL_SET; qtx_has_bio : bool; qtx_mdpl : Z; qtx_free : list TXE; qtx_pending : list TXE;
  qtx_pending_count : Z; qtx_pending_bytes : Z; qtx_cons : option TXE; qtx_cons_count : Z; qtx_datagram_count : Z;
  qtx_wire : list bytes }.
#[export] Instance eta_qtx : Eta OSSL_QTX := fun q =>
  mkQtx (qtx_el_set q) (qtx_has_bio q) (qtx_mdpl q) (qtx_free q) (qtx_pending q) (qtx_pending_count q) (qtx_pending_bytes q)
    (qtx_cons q) (qtx_cons_count q) (qtx_datagram_count q) (qtx_wire q).

(** [iov_base]: the scratch block of the packetiser the vector points into, if it
    does; [iov_buf]: the bytes there. *)
Record OSSL_QTX_IOVEC := mkIov { iov_base : option Z; iov_buf : bytes }.

Record OSSL_QTX_PKT := mkQpkt { qp_hdr : option QUIC_PKT_HDR; qp_iovec : list OSSL_QTX_IOVEC; qp_pn : QUIC_PN; qp_coalesce : bool }.

Definition ossl_qtx_new (alloc : bool) (mdpl : Z) (bio : bool) : option OSSL_QTX :=
  if mdpl <? QUIC_MIN_INITIAL_DGRAM_LEN then None
  else if negb alloc then None
  else Some (mkQtx els_new bio mdpl [] [] 0 0 None 0 0 []).

(** The level of the set, if it is provisioned. *)
Definition qtx_el (q : OSSL_QTX) (enc_level : Z) : option OSSL_QRL_ENC_LEVEL := ossl_qrl_enc_level_set_get (qtx_el_set q) enc_level true.

(** The arguments of Qrl.v are those of the crypto library. *)
Definition ossl_qtx_provide_secret (hkdf_expand : Z -> bytes -> bytes -> Z -> bytes) (ok : nat -> bool) (q : OSSL_QTX)
  (enc_level suite_id : Z) (md : option Z) (secret : bytes) : option (OSSL_QTX * bool) :=
  if QUIC_ENC_LEVEL_NUM <=? enc_level then Some (q, false)
  else
    '(els, r) ← ossl_qrl_enc_level_set_provide_secret hkdf_expand ok (qtx_el_set q) enc_level suite_id md secret 0 true;
    Some (q <| qtx_el_set := els |>, r).

Definition ossl_qtx_discard_enc_level (q : OSSL_QTX) (enc_level : Z) : OSSL_QTX * bool :=
  if QUIC_ENC_LEVEL_NUM <=? enc_level then (q, false)
  else (q <| qtx_el_set := ossl_qrl_enc_level_set_discard (qtx_el_set q) enc_level |>, true).

Definition ossl_qtx_trigger_key_update (hkdf_expand : Z -> bytes -> bytes -> Z -> bytes) (ok : nat -> bool) (q : OSSL_QTX)
  : option (OSSL_QTX * bool) :=
  '(els, r) ← ossl_qrl_enc_level_set_key_update hkdf_expand ok (qtx_el_set q) QUIC_ENC_LEVEL_1RTT;
  Some (q <| qtx_el_set := els |>, r).

Definition ossl_qtx_is_enc_level_provisioned (q : OSSL_QTX) (enc_level : Z) : bool := bool_decide (is_Some (qtx_el q enc_level)).

Definition ossl_qtx_set_bio (q : OSSL_QTX) (bio : bool) : OSSL_QTX := q <| qtx_has_bio := bio |>.

Definition ossl_qtx_set_mdpl (q : OSSL_QTX) (mdpl : Z) : OSSL_QTX * bool :=
  if mdpl <? QUIC_MIN_INITIAL_DGRAM_LEN then (q, false) else (q <| qtx_mdpl := mdpl |>, true).

Definition ossl_qtx_get_mdpl (q : OSSL_QTX) : Z := qtx_mdpl q.
Definition ossl_qtx_get_queue_len_datagrams (q : OSSL_QTX) : Z := qtx_pending_count q.
Definition ossl_qtx_get_queue_len_bytes (q : OSSL_QTX) : Z := qtx_pending_bytes q.
Definition ossl_qtx_get_cur_dgram_len_bytes (q : OSSL_QTX) : Z := match qtx_cons q with Some txe => data_len txe | None => 0 end.
Definition ossl_qtx_get_unflushed_pkt_count (q : OSSL_QTX) : Z := qtx_cons_count q.
Definition ossl_qtx_get_cur_epoch_pkt_count (q : OSSL_QTX) (enc_level : Z) : Z :=
  match qtx_el q enc_level with None => UINT64_MAX | Some el => el_op_count el end.
Definition ossl_qtx_get_max_epoch_pkt_count (q : OSSL_QTX) (enc_level : Z) : Z :=
  match qtx_el q enc_level with None => UINT64_MAX | Some el => ossl_qrl_get_suite_max_pkt (el_suite_id el) end.
Definition ossl_qtx_get_key_epoch (q : OSSL_QTX) : Z :=
  match qtx_el q QUIC_ENC_LEVEL_1RTT with None => 0 | Some el => el_key_epoch el end.

Definition ossl_qtx_calculate_ciphertext_payload_len (q : OSSL_QTX) (enc_level plaintext_len : Z) : option Z :=
  el ← qtx_el q enc_level; Some (plaintext_len +u ossl_qrl_get_suite_cipher_tag_len (el_suite_id el)).

Definition ossl_qtx_calculate_plaintext_payload_len (q : OSSL_QTX) (enc_level ciphertext_len : Z) : option Z :=
  el ← qtx_el q enc_level;
  let tag_len := ossl_qrl_get_suite_cipher_tag_len (el_suite_id el) in
  if ciphertext_len <=? tag_len then None else Some (ciphertext_len -u tag_len).

(** ** TX entries *)

Section TxEntries.
(** [sizeof(TXE)] *)
Context (sizeof_TXE : Z).

Definition qtx_alloc_txe (alloc : bool) (alloc_len : Z) : option TXE :=
  if SIZE_MAX -u sizeof_TXE <=? alloc_len then None else if negb alloc then None else Some (mkTxe alloc_len []).

(** The entry is at the head of the free list afterwards. *)
Definition qtx_ensure_free_txe (alloc : bool) (q : OSSL_QTX) (alloc_len : Z) : OSSL_QTX * option TXE :=
  match qtx_free q with
  | txe :: _ => (q, Some txe)
  | [] =>
      match qtx_alloc_txe alloc alloc_len with
      | None => (q, None)
      | Some txe => (q <| qtx_free := [txe] |>, Some txe)
      end
  end.

(** Called with a NULL list.  [Some None] is NULL, a failure; the outer [None]: the
    removal from the list dereferences NULL. *)
Definition qtx_resize_txe (txe : TXE) (n : Z) : option (option TXE) := if SIZE_MAX -u sizeof_TXE <=? n then Some None else None.

Definition qtx_reserve_txe (txe : TXE) (n : Z) : option (option TXE) :=
  if n <=? txe_alloc_len txe then Some (Some txe) else qtx_resize_txe txe n.

Definition qtx_pending_to_free (q : OSSL_QTX) : option OSSL_QTX :=
  match qtx_pending q with
  | [] => None
  | txe :: rest =>
      Some (q <| qtx_pending := rest |> <| qtx_pending_count := qtx_pending_count q -u 1 |>
              <| qtx_pending_bytes := qtx_pending_bytes q -u data_len txe |> <| qtx_free := qtx_free q ++ [txe] |>)
  end.

Definition qtx_add_to_pending (q : OSSL_QTX) (txe : TXE) : OSSL_QTX :=
  q <| qtx_pending := qtx_pending q ++ [txe] |> <| qtx_pending_count := qtx_pending_count q +u 1 |>
    <| qtx_pending_bytes := qtx_pending_bytes q +u data_len txe |>.

Definition ossl_qtx_finish_dgram (q : OSSL_QTX) : OSSL_QTX :=
  match qtx_cons q with
  | None => q
  | Some txe =>
      let q := if data_len txe =? 0 then q <| qtx_free := qtx_free q ++ [txe] |> else qtx_add_to_pending q txe in
      q <| qtx_cons := None |> <| qtx_cons_count := 0 |> <| qtx_datagram_count := qtx_datagram_count q +u 1 |>
  end.

Definition qtx_ensure_cons (alloc : bool) (q : OSSL_QTX) : OSSL_QTX * option TXE :=
  match qtx_cons q with
  | Some txe => (q, Some txe)
  | None =>
      match qtx_ensure_free_txe alloc q (qtx_mdpl q) with
      | (q, None) => (q, None)
      | (q, Some txe) =>
          let txe := txe <| txe_data := [] |> in
          (q <| qtx_free := tail (qtx_free q) |> <| qtx_cons := Some txe |> <| qtx_cons_count := 0 |>, Some txe)
      end
  end.

(** ** Writing a packet *)

Definition iovec_total_bytes (iovec : list OSSL_QTX_IOVEC) : Z := foldl (fun l v => l +u zlen (iov_buf v)) 0 iovec.

(** What the cursor over the vectors delivers, buffer by buffer. *)
Definition iovec_bytes (iovec : list OSSL_QTX_IOVEC) : bytes := concat (iov_buf <$> iovec).

(** The crypto library: the AEAD (keys of a slot, length of the tag, nonce, associated data,
    plaintext) giving ciphertext and tag, and the ciphers of header protection (key, sample). *)
Context (aead_seal : keyslot -> Z -> bytes -> bytes -> bytes -> option bytes).
Context (EVP_aes_ecb : bytes -> bytes -> option bytes) (EVP_chacha : bytes -> bytes -> bytes -> option bytes).

(** [sizeof(QUIC_PN)] *)
Definition sizeof_QUIC_PN : Z := 8.

(** The packet number is XORed into the last bytes of the IV: byte [i] from the end with bits [8 i] and up. *)
Definition aead_nonce (iv : bytes) (pn : QUIC_PN) : bytes :=
  imap (fun j b => let i := zlen iv - Z.of_nat j - 1 in
                   if i <? sizeof_QUIC_PN then Z.lxor b (Z.shiftr pn (i * 8) mod 256) else b) iv.

Inductive qtx_result := QTX_OK | QTX_FAIL_GENERIC | QTX_FAIL_INSUFFICIENT_LEN.

(** The header bytes appended to the entry and the pointers into them. *)
Definition qtx_write_hdr (hdr : QUIC_PKT_HDR) (txe : TXE) : option (bytes * QUIC_PKT_HDR_PTRS) :=
  let len := txe_alloc_len txe -u data_len txe in
  if len =? 0 then None
  else
    match ossl_quic_wire_encode_pkt_hdr (cid_id_len (ph_dst hdr)) hdr (mkWpkt [] (replicate (Z.to_nat len) 0)) with
    | (_, None) => None
    | (w, Some ptrs) => Some (wp_done w, ptrs)
    end.

(** The bytes of the whole packet. *)
Definition qtx_encrypt_into_txe (el : OSSL_QRL_ENC_LEVEL) (pn : QUIC_PN) (hdr payload : bytes) (ptrs : QUIC_PKT_HDR_PTRS) : option bytes :=
  if ossl_qrl_get_suite_max_pkt (el_suite_id el) <=? el_op_count el then None
  else
    cctx ← el_cctx el 0;
    if zlen (slot_iv cctx) <? sizeof_QUIC_PN then None
    else
      sealed ← aead_seal cctx (el_tag_len el) (aead_nonce (slot_iv cctx) pn) hdr payload;
      '(cipher_id, hpr_key) ← el_hpr el;
      ossl_quic_hdr_protector_encrypt cipher_id (EVP_aes_ecb hpr_key) (EVP_chacha hpr_key) (hdr ++ sealed) ptrs.

(** The header as the packet number and the lengths are filled in. *)
Definition qtx_fill_hdr (hdr : QUIC_PKT_HDR) (el : option OSSL_QRL_ENC_LEVEL) (payload_len : Z) : QUIC_PKT_HDR :=
  let hdr := match el with
             | Some el => if ph_type hdr =? QUIC_PKT_TYPE_1RTT then hdr <| ph_key_phase := negb (Z.land (el_key_epoch el) 1 =? 0) |> else hdr
             | None => hdr
             end in
  hdr <| ph_data := None |> <| ph_len := payload_len |>.

(** The entry with the packet appended, the level with the packet counted; on a failure
    the entry keeps its length. *)
Definition qtx_write (q : OSSL_QTX) (pn : QUIC_PN) (txe : TXE) (enc_level : Z) (hdr : QUIC_PKT_HDR) (iovec : list OSSL_QTX_IOVEC)
  : OSSL_QTX * TXE * qtx_result :=
  let needs_encrypt := ossl_quic_pkt_type_is_encrypted (ph_type hdr) in
  let el := if needs_encrypt then qtx_el q enc_level else None in
  let min_len := if needs_encrypt then QUIC_MIN_VALID_PKT_LEN_CRYPTO else QUIC_MIN_VALID_PKT_LEN in
  if needs_encrypt && bool_decide (el = None) then (q, txe, QTX_FAIL_GENERIC)
  else
    let space_left := txe_alloc_len txe -u data_len txe in
    let payload := iovec_bytes iovec in
    if space_left <? min_len then (q, txe, QTX_FAIL_INSUFFICIENT_LEN)
    else if iovec_total_bytes iovec =? 0 then (q, txe, QTX_FAIL_GENERIC)
    else
      let payload_len := if needs_encrypt then default 0 (ossl_qtx_calculate_ciphertext_payload_len q enc_level (iovec_total_bytes iovec))
                         else iovec_total_bytes iovec in
      let hdr := qtx_fill_hdr hdr el payload_len in
      let pred_hdr_len := ossl_quic_wire_get_encoded_pkt_hdr_len (cid_id_len (ph_dst hdr)) hdr in
      if pred_hdr_len =? 0 then (q, txe, QTX_FAIL_GENERIC)
      else if space_left <? pred_hdr_len +u payload_len then (q, txe, QTX_FAIL_INSUFFICIENT_LEN)
      else
        match (if ossl_quic_pkt_type_has_pn (ph_type hdr) then ossl_quic_wire_encode_pkt_hdr_pn pn (ph_pn_len hdr) else Some []) with
        | None => (q, txe, QTX_FAIL_GENERIC)
        | Some pnb =>
            let hdr := if ossl_quic_pkt_type_has_pn (ph_type hdr) then hdr <| ph_pn := pnb ++ drop (length pnb) (ph_pn hdr) |> else hdr in
            match qtx_write_hdr hdr txe with
            | None => (q, txe, QTX_FAIL_GENERIC)
            | Some (hb, ptrs) =>
                match el with
                | None => (q, txe <| txe_data := txe_data txe ++ hb ++ payload |>, QTX_OK)
                | Some el =>
                    match qtx_encrypt_into_txe el pn hb payload ptrs with
                    | None => (q, txe, QTX_FAIL_GENERIC)
                    | Some pkt =>
                        (q <| qtx_el_set := els_upd (qtx_el_set q) enc_level (fun el => el <| el_op_count := el_op_count el +u 1 |>) |>,
                         txe <| txe_data := txe_data txe ++ pkt |>, QTX_OK)
                    end
                end
            end
        end.

(** The rounds of the loop: [was_coalescing] is cleared by the first that finds no room,
    so there are at most two.  [None]: NULL is dereferenced. *)
Fixpoint write_rounds (fuel : nat) (alloc : bool) (q : OSSL_QTX) (pkt : OSSL_QTX_PKT) (hdr : QUIC_PKT_HDR) (enc_level : Z)
  (was_coalescing : bool) : option (OSSL_QTX * bool) :=
  match fuel with
  | O => None
  | S fuel =>
      match qtx_ensure_cons alloc q with
      | (q, None) => Some (q, false)
      | (q, Some txe) =>
          reserved ← qtx_reserve_txe txe (qtx_mdpl q);
          match reserved with
          | None => Some (q, false)
          | Some _ =>
              match qtx_write q (qp_pn pkt) txe enc_level hdr (qp_iovec pkt) with
              | (q, txe, QTX_OK) => Some (q <| qtx_cons := Some txe |>, true)
              | (q, txe, QTX_FAIL_INSUFFICIENT_LEN) =>
                  if was_coalescing then write_rounds fuel alloc (ossl_qtx_finish_dgram q) pkt hdr enc_level false else Some (q, false)
              | (q, txe, QTX_FAIL_GENERIC) => Some (q, false)
              end
          end
      end
  end.

Definition ossl_qtx_write_pkt (alloc : bool) (q : OSSL_QTX) (pkt : OSSL_QTX_PKT) : option (OSSL_QTX * bool) :=
  match qp_hdr pkt with
  | None => Some (q, false)
  | Some hdr =>
      let enc_level := ossl_quic_pkt_type_to_enc_level (ph_type hdr) in
      let share := ossl_quic_pkt_type_can_share_dgram (ph_type hdr) in
      if share && ((QUIC_ENC_LEVEL_NUM <=? enc_level) || negb (bool_decide (ossl_qrl_enc_level_set_have_el (qtx_el_set q) enc_level = Some 1))) then Some (q, false)
      else
        let q := if share then q else ossl_qtx_finish_dgram q in
        let was_coalescing := match qtx_cons q with Some txe => 0 <? data_len txe | None => false end in
        '(q, ok) ← write_rounds 2 alloc q pkt hdr enc_level was_coalescing;
        if negb ok then Some (q, false)
        else
          let q := q <| qtx_cons_count := qtx_cons_count q +u 1 |> in
          let coalescing := qp_coalesce pkt && negb (ossl_quic_pkt_type_must_be_last (ph_type hdr)) in
          Some (if coalescing then q else ossl_qtx_finish_dgram q, true)
  end.

(** ** To the network *)

(** What [BIO_sendmmsg] reports: messages sent, or an error. *)
Inductive send_result := Sent (wr : Z) | SendTransient | SendFatal.
Inductive flush_result := QTX_FLUSH_NET_RES_OK | QTX_FLUSH_NET_RES_TRANSIENT_FAIL | QTX_FLUSH_NET_RES_PERMANENT_FAIL.
Definition MAX_MSGS_PER_SEND : Z := 32.

(** [wr] entries leave the queue; more than there are is an assertion. *)
Fixpoint retire_sent (wr : nat) (q : OSSL_QTX) : option OSSL_QTX :=
  match wr with
  | O => Some q
  | S wr =>
      match qtx_pending q with
      | [] => None
      | txe :: _ => q ← qtx_pending_to_free (q <| qtx_wire := qtx_wire q ++ [txe_data txe] |>); retire_sent wr q
      end
  end.

(** [sendmmsg n] answers the [n]-th call, which offers that many messages. *)
Fixpoint flush_loop (fuel : nat) (sendmmsg : nat -> Z -> send_result) (n : nat) (q : OSSL_QTX) (total_written : Z)
  : option (OSSL_QTX * flush_result) :=
  let done q total := Some (q, if 0 <? total then QTX_FLUSH_NET_RES_OK else QTX_FLUSH_NET_RES_TRANSIENT_FAIL) in
  match fuel with
  | O => None
  | S fuel =>
      let i := Z.min (zlen (qtx_pending q)) MAX_MSGS_PER_SEND in
      if i =? 0 then done q total_written
      else
        match sendmmsg n i with
        | SendTransient => done q total_written
        | SendFatal => Some (q, QTX_FLUSH_NET_RES_PERMANENT_FAIL)
        | Sent wr =>
            if wr =? 0 then done q total_written
            else q ← retire_sent (Z.to_nat wr) q; flush_loop fuel sendmmsg (S n) q (total_written +u wr)
        end
  end.

Definition ossl_qtx_flush_net (sendmmsg : nat -> Z -> send_result) (q : OSSL_QTX) : option (OSSL_QTX * flush_result) :=
  match qtx_pending q with
  | [] => Some (q, QTX_FLUSH_NET_RES_OK)
  | _ =>
      if negb (qtx_has_bio q) then Some (q, QTX_FLUSH_NET_RES_PERMANENT_FAIL)
      else flush_loop (S (length (qtx_pending q))) sendmmsg 0 q 0
  end.

Definition ossl_qtx_pop_net (q : OSSL_QTX) : option (OSSL_QTX * option bytes) :=
  match qtx_pending q with
  | [] => Some (q, None)
  | txe :: _ => q ← qtx_pending_to_free q; Some (q, Some (txe_data txe))
  end.
End TxEntries.
