(* ===== verification/StreamMap.v ===== *)
(** * Streams and the stream map
    (ssl/quic/quic_stream_map.c, include/internal/quic_stream_map.h)

    A pointer to a stream of the map is the stream's ID, and the circular lists
    through the streams' nodes are the lists of their IDs.  An operation gives
    [None] where the C code would dereference a NULL or dangling pointer (a
    buffer that is gone, a stream not in the map, the links of a node that is not
    in the list) or corrupt a list by inserting a node twice.  What an operation
    reads of the channel is the [qsm_env] it is given.  The members of a stream
    that only the packetiser uses ([txp_*]) are left out. *)

From S2P Require Import Prelude UintSet OsslTime FlowControl Packet RingBuf Sstream SfList Rstream.

(** ** Streams *)

Inductive sstream_state :=
| QUIC_SSTREAM_STATE_NONE | QUIC_SSTREAM_STATE_READY | QUIC_SSTREAM_STATE_SEND | QUIC_SSTREAM_STATE_DATA_SENT
| QUIC_SSTREAM_STATE_DATA_RECVD | QUIC_SSTREAM_STATE_RESET_SENT | QUIC_SSTREAM_STATE_RESET_RECVD.
#[export] Instance sstream_state_eq_dec : EqDecision sstream_state.
Proof. solve_decision. Defined.

Inductive rstream_state :=
| QUIC_RSTREAM_STATE_NONE | QUIC_RSTREAM_STATE_RECV | QUIC_RSTREAM_STATE_SIZE_KNOWN | QUIC_RSTREAM_STATE_DATA_RECVD
| QUIC_RSTREAM_STATE_DATA_READ | QUIC_RSTREAM_STATE_RESET_RECVD | QUIC_RSTREAM_STATE_RESET_READ.
#[export] Instance rstream_state_eq_dec : EqDecision rstream_state.
Proof. solve_decision. Defined.

Record QUIC_STREAM := mkStream {
  qs_id : Z; qs_stop_sending_aec : Z; qs_reset_stream_aec : Z; qs_peer_stop_sending_aec : Z; qs_peer_reset_stream_aec : Z;
  qs_send_final_size : Z; qs_sstream : option QUIC_SSTREAM; qs_rstream : option QUIC_RSTREAM; qs_txfc : QUIC_TXFC; qs_rxfc : QUIC_RXFC;
  qs_type : Z; qs_send_state : sstream_state; qs_recv_state : rstream_state; qs_active : bool; qs_as_server : bool;
  qs_stop_sending : bool; qs_peer_stop_sending : bool;
  qs_want_max_stream_data : bool; qs_want_stop_sending : bool; qs_want_reset_stream : bool; qs_acked_stop_sending : bool;
  qs_deleted : bool; qs_ready_for_gc : bool; qs_shutdown_flush : bool }.
#[export] Instance eta_stream : Eta QUIC_STREAM := fun s =>
  mkStream (qs_id s) (qs_stop_sending_aec s) (qs_reset_stream_aec s) (qs_peer_stop_sending_aec s) (qs_peer_reset_stream_aec s)
    (qs_send_final_size s) (qs_sstream s) (qs_rstream s) (qs_txfc s) (qs_rxfc s)
    (qs_type s) (qs_send_state s) (qs_recv_state s) (qs_active s) (qs_as_server s)
    (qs_stop_sending s) (qs_peer_stop_sending s)
    (qs_want_max_stream_data s) (qs_want_stop_sending s) (qs_want_reset_stream s) (qs_acked_stop_sending s)
    (qs_deleted s) (qs_ready_for_gc s) (qs_shutdown_flush s).

Definition QUIC_STREAM_INITIATOR_CLIENT : Z := 0.
Definition QUIC_STREAM_INITIATOR_SERVER : Z := 1.
Definition QUIC_STREAM_INITIATOR_MASK : Z := 1.
Definition QUIC_STREAM_DIR_BIDI : Z := 0.
Definition QUIC_STREAM_DIR_UNI : Z := 2.
Definition QUIC_STREAM_DIR_MASK : Z := 2.

Definition ossl_quic_stream_is_server_init (s : QUIC_STREAM) : bool :=
  Z.land (qs_type s) QUIC_STREAM_INITIATOR_MASK =? QUIC_STREAM_INITIATOR_SERVER.
Definition ossl_quic_stream_is_bidi (s : QUIC_STREAM) : bool := Z.land (qs_type s) QUIC_STREAM_DIR_MASK =? QUIC_STREAM_DIR_BIDI.
Definition ossl_quic_stream_is_local_init (s : QUIC_STREAM) : bool := eqb (ossl_quic_stream_is_server_init s) (qs_as_server s).

Definition ossl_quic_stream_has_send (s : QUIC_STREAM) : bool := bool_decide (qs_send_state s <> QUIC_SSTREAM_STATE_NONE).
Definition ossl_quic_stream_has_recv (s : QUIC_STREAM) : bool := bool_decide (qs_recv_state s <> QUIC_RSTREAM_STATE_NONE).

Definition ossl_quic_stream_has_send_buffer (s : QUIC_STREAM) : bool :=
  match qs_send_state s with
  | QUIC_SSTREAM_STATE_READY | QUIC_SSTREAM_STATE_SEND | QUIC_SSTREAM_STATE_DATA_SENT => true
  | _ => false
  end.

Definition ossl_quic_stream_send_is_reset (s : QUIC_STREAM) : bool :=
  match qs_send_state s with
  | QUIC_SSTREAM_STATE_RESET_SENT | QUIC_SSTREAM_STATE_RESET_RECVD => true
  | _ => false
  end.

Definition ossl_quic_stream_has_recv_buffer (s : QUIC_STREAM) : bool :=
  match qs_recv_state s with
  | QUIC_RSTREAM_STATE_RECV | QUIC_RSTREAM_STATE_SIZE_KNOWN | QUIC_RSTREAM_STATE_DATA_RECVD => true
  | _ => false
  end.

Definition ossl_quic_stream_recv_is_reset (s : QUIC_STREAM) : bool :=
  match qs_recv_state s with
  | QUIC_RSTREAM_STATE_RESET_RECVD | QUIC_RSTREAM_STATE_RESET_READ => true
  | _ => false
  end.

(** The final size, [None] inside when there is none yet. *)
Definition ossl_quic_stream_send_get_final_size (s : QUIC_STREAM) : option (option Z) :=
  match qs_send_state s with
  | QUIC_SSTREAM_STATE_NONE | QUIC_SSTREAM_STATE_READY => Some None
  | QUIC_SSTREAM_STATE_SEND => ss ← qs_sstream s; Some (ossl_quic_sstream_get_final_size ss)
  | _ => Some (Some (qs_send_final_size s))
  end.

Definition ossl_quic_stream_recv_get_final_size (s : QUIC_STREAM) : option Z :=
  match qs_recv_state s with
  | QUIC_RSTREAM_STATE_NONE | QUIC_RSTREAM_STATE_RECV => None
  | _ => ossl_quic_rxfc_get_final_size (qs_rxfc s)
  end.

Definition ossl_quic_stream_recv_pending (s : QUIC_STREAM) (include_fin : bool) : option Z :=
  match qs_recv_state s with
  | QUIC_RSTREAM_STATE_NONE => Some 0
  | QUIC_RSTREAM_STATE_RECV | QUIC_RSTREAM_STATE_SIZE_KNOWN | QUIC_RSTREAM_STATE_DATA_RECVD =>
      rs ← qs_rstream s;
      let '(avail, fin) := default (0, false) (ossl_quic_rstream_available rs) in
      Some (if (avail =? 0) && include_fin && fin then 1 else avail)
  | QUIC_RSTREAM_STATE_RESET_RECVD => Some (b2z include_fin)
  | QUIC_RSTREAM_STATE_DATA_READ | QUIC_RSTREAM_STATE_RESET_READ => Some 0
  end.

(** ** Circular lists *)

Definition list_insert_tail (l : list Z) (n : Z) : option (list Z) := if decide (n ∈ l) then None else Some (l ++ [n]).
Definition list_remove (l : list Z) (n : Z) : option (list Z) := if decide (n ∈ l) then Some (filter (fun m => m <> n) l) else None.

(** The element after [n], from the end on to the head: [n] itself when it is alone. *)
Definition list_next (l : list Z) (n : Z) : option Z :=
  '(i, _) ← list_find (fun m => m = n) l;
  match l !! S i with Some m => Some m | None => head l end.

#[global] Arguments list_next : simpl never.

(** [list_next] from the list's own node. *)
Definition list_head (l : list Z) : option Z := head l.

(** ** The map *)

Record QUIC_STREAM_MAP := mkQsm {
  qsm_map : gmap Z QUIC_STREAM; qsm_is_server : bool;
  active_list : list Z; accept_list : list Z; ready_for_gc_list : list Z;
  rr_stepping : Z; rr_counter : Z;
  num_accept_bidi : Z; num_accept_uni : Z; num_shutdown_flush : Z; rr_cur : option Z;
  max_streams_bidi_rxfc : option QUIC_RXFC; max_streams_uni_rxfc : option QUIC_RXFC;
  qsm_flush_done : nat }.
#[export] Instance eta_qsm : Eta QUIC_STREAM_MAP := fun q =>
  mkQsm (qsm_map q) (qsm_is_server q) (active_list q) (accept_list q) (ready_for_gc_list q) (rr_stepping q) (rr_counter q)
    (num_accept_bidi q) (num_accept_uni q) (num_shutdown_flush q) (rr_cur q) (max_streams_bidi_rxfc q) (max_streams_uni_rxfc q)
    (qsm_flush_done q).

(** What the operations read of the channel: the limit callback ([None] for NULL) and the
    connection-level transmit controller, the parent of the streams' controllers. *)
Record qsm_env := mkEnv { get_stream_limit_cb : option (bool -> Z); env_conn_txfc : option QUIC_TXFC }.

Definition qsm_upd (q : QUIC_STREAM_MAP) (id : Z) (f : QUIC_STREAM -> QUIC_STREAM) : QUIC_STREAM_MAP :=
  q <| qsm_map := alter f id (qsm_map q) |>.

Definition ossl_quic_stream_map_init (is_server : bool) (bidi uni : option QUIC_RXFC) : QUIC_STREAM_MAP :=
  mkQsm ∅ is_server [] [] [] 1 0 0 0 0 None bidi uni 0.

(** A zeroed object with its ID, type, states and final size. *)
Definition stream_alloc (stream_id type : Z) (as_server : bool) : QUIC_STREAM :=
  let s := mkStream stream_id 0 0 0 0 UINT64_MAX None None (mkTxfc 0 0 false) (mkRxfc 0 0 0 0 0 0 0 0 0 false false false) type
             QUIC_SSTREAM_STATE_NONE QUIC_RSTREAM_STATE_NONE false as_server false false false false false false false false false in
  s <| qs_send_state := if ossl_quic_stream_is_local_init s || ossl_quic_stream_is_bidi s then QUIC_SSTREAM_STATE_READY else QUIC_SSTREAM_STATE_NONE |>
    <| qs_recv_state := if negb (ossl_quic_stream_is_local_init s) || ossl_quic_stream_is_bidi s then QUIC_RSTREAM_STATE_RECV else QUIC_RSTREAM_STATE_NONE |>.

(** The stream allocated is the one with [stream_id]; [None] when there is one already or
    the allocation of the stream fails.  The insertion into the hash table, whose result is not looked at, is taken
    to succeed. *)
Definition ossl_quic_stream_map_alloc (alloc : bool) (q : QUIC_STREAM_MAP) (stream_id type : Z) : option QUIC_STREAM_MAP :=
  match qsm_map q !! stream_id with
  | Some _ => None
  | None => if alloc then Some (q <| qsm_map := <[stream_id := stream_alloc stream_id type (qsm_is_server q)]> (qsm_map q) |>) else None
  end.

(** Removal from a list whose node may not be linked. *)
Definition unlink (l : list Z) (n : Z) : list Z := if decide (n ∈ l) then filter (fun m => m <> n) l else l.

Definition ossl_quic_stream_map_release (q : QUIC_STREAM_MAP) (id : Z) : option QUIC_STREAM_MAP :=
  s ← qsm_map q !! id;
  Some (q <| active_list := unlink (active_list q) id |> <| accept_list := unlink (accept_list q) id |>
          <| ready_for_gc_list := unlink (ready_for_gc_list q) id |> <| qsm_map := delete id (qsm_map q) |>).

Definition ossl_quic_stream_map_get_by_id (q : QUIC_STREAM_MAP) (stream_id : Z) : option QUIC_STREAM := qsm_map q !! stream_id.

(** The callback on every stream, in the order the hash table gives. *)
Definition ossl_quic_stream_map_visit (order : list Z) (visit_cb : QUIC_STREAM_MAP -> Z -> option QUIC_STREAM_MAP) (q : QUIC_STREAM_MAP)
  : option QUIC_STREAM_MAP := foldl (fun r id => q ← r; visit_cb q id) (Some q) order.

Definition ossl_quic_stream_map_cleanup (order : list Z) (q : QUIC_STREAM_MAP) : option QUIC_STREAM_MAP :=
  ossl_quic_stream_map_visit order ossl_quic_stream_map_release q.

Definition stream_map_mark_active (q : QUIC_STREAM_MAP) (id : Z) : option QUIC_STREAM_MAP :=
  s ← qsm_map q !! id;
  if qs_active s then Some q
  else
    l ← list_insert_tail (active_list q) id;
    Some (qsm_upd (q <| active_list := l |> <| rr_cur := match rr_cur q with None => Some id | c => c end |>) id
            (fun s => s <| qs_active := true |>)).

Definition stream_map_mark_inactive (q : QUIC_STREAM_MAP) (id : Z) : option QUIC_STREAM_MAP :=
  s ← qsm_map q !! id;
  if negb (qs_active s) then Some q
  else
    let cur := if bool_decide (rr_cur q = Some id) then list_next (active_list q) id else rr_cur q in
    let cur := if bool_decide (cur = Some id) then None else cur in
    l ← list_remove (active_list q) id;
    Some (qsm_upd (q <| active_list := l |> <| rr_cur := cur |>) id (fun s => s <| qs_active := false |>)).

Definition ossl_quic_stream_map_set_rr_stepping (q : QUIC_STREAM_MAP) (stepping : Z) : QUIC_STREAM_MAP :=
  q <| rr_stepping := stepping |> <| rr_counter := 0 |>.

Definition stream_has_data_to_send (env : qsm_env) (s : QUIC_STREAM) : option bool :=
  match qs_send_state s with
  | QUIC_SSTREAM_STATE_READY | QUIC_SSTREAM_STATE_SEND | QUIC_SSTREAM_STATE_DATA_SENT =>
      ss ← qs_sstream s;
      match ossl_quic_sstream_get_stream_frame ss 0 2 with
      | None => Some false
      | Some (shdr, _) =>
          let fc_credit := ossl_quic_txfc_get_credit (qs_txfc s) (env_conn_txfc env) 0 in
          let fc_swm := ossl_quic_txfc_get_swm (qs_txfc s) in
          let fc_limit := fc_swm +u fc_credit in
          Some ((h_is_fin shdr && (h_len shdr =? 0)) || (h_offset shdr <? fc_limit))
      end
  | _ => Some false
  end.

Definition qsm_send_part_permits_gc (qs : QUIC_STREAM) : bool :=
  match qs_send_state qs with
  | QUIC_SSTREAM_STATE_NONE | QUIC_SSTREAM_STATE_DATA_RECVD | QUIC_SSTREAM_STATE_RESET_RECVD => true
  | _ => false
  end.

Definition qsm_ready_for_gc (qs : QUIC_STREAM) : bool :=
  let recv_stream_fully_drained := false in
  qs_deleted qs
  && (negb (ossl_quic_stream_has_recv qs) || recv_stream_fully_drained || qs_acked_stop_sending qs)
  && (negb (ossl_quic_stream_has_send qs)
      || bool_decide (qs_send_state qs = QUIC_SSTREAM_STATE_DATA_RECVD)
      || bool_decide (qs_send_state qs = QUIC_SSTREAM_STATE_RESET_RECVD)).

Definition ossl_quic_stream_map_is_local_allowed_by_stream_limit (env : qsm_env) (stream_ordinal : Z) (is_uni : bool) : bool :=
  match get_stream_limit_cb env with
  | None => true
  | Some cb => let stream_limit := cb is_uni in stream_ordinal <? stream_limit
  end.

(** [qsm_flush_done] counts the calls of [ossl_quic_channel_notify_flush_done]. *)
Definition shutdown_flush_done (q : QUIC_STREAM_MAP) (id : Z) : option QUIC_STREAM_MAP :=
  s ← qsm_map q !! id;
  if negb (qs_shutdown_flush s) then Some q
  else
    let q := (qsm_upd q id (fun s => s <| qs_shutdown_flush := false |>)) <| num_shutdown_flush := num_shutdown_flush q -u 1 |> in
    Some (if num_shutdown_flush q =? 0 then q <| qsm_flush_done := S (qsm_flush_done q) |> else q).

Definition ossl_quic_stream_map_notify_totally_acked (q : QUIC_STREAM_MAP) (id : Z) : option (QUIC_STREAM_MAP * bool) :=
  s ← qsm_map q !! id;
  match qs_send_state s with
  | QUIC_SSTREAM_STATE_DATA_SENT =>
      let q := qsm_upd q id (fun s => s <| qs_send_state := QUIC_SSTREAM_STATE_DATA_RECVD |> <| qs_sstream := None |>) in
      q ← shutdown_flush_done q id; Some (q, true)
  | _ => Some (q, false)
  end.

(** The transitions [ossl_quic_stream_map_update_state] notices by itself. *)
Definition update_acked (q : QUIC_STREAM_MAP) (id : Z) : option QUIC_STREAM_MAP :=
  s ← qsm_map q !! id;
  match qs_send_state s with
  | QUIC_SSTREAM_STATE_DATA_SENT =>
      ss ← qs_sstream s;
      if ossl_quic_sstream_is_totally_acked ss then fst <$> ossl_quic_stream_map_notify_totally_acked q id else Some q
  | QUIC_SSTREAM_STATE_SEND =>
      if qs_shutdown_flush s then
        ss ← qs_sstream s;
        if ossl_quic_sstream_is_totally_acked ss then shutdown_flush_done q id else Some q
      else Some q
  | _ => Some q
  end.

Definition update_gc (q : QUIC_STREAM_MAP) (id : Z) : option QUIC_STREAM_MAP :=
  s ← qsm_map q !! id;
  if qs_ready_for_gc s then Some q
  else if qsm_ready_for_gc s then
    l ← list_insert_tail (ready_for_gc_list q) id;
    Some (qsm_upd (q <| ready_for_gc_list := l |>) id (fun s => s <| qs_ready_for_gc := true |>))
  else Some q.

Definition should_be_active (env : qsm_env) (s : QUIC_STREAM) (allowed_by_stream_limit : bool) : option bool :=
  if negb (allowed_by_stream_limit && negb (qs_ready_for_gc s)) then Some false
  else if (ossl_quic_stream_has_recv s && negb (ossl_quic_stream_recv_is_reset s)
           && (bool_decide (qs_recv_state s = QUIC_RSTREAM_STATE_RECV)
               && (qs_want_max_stream_data s || snd (ossl_quic_rxfc_has_cwm_changed (qs_rxfc s) false))))
          || qs_want_stop_sending s || qs_want_reset_stream s then Some true
  else if qs_peer_stop_sending s then Some false
  else stream_has_data_to_send env s.

Definition ossl_quic_stream_map_update_state (env : qsm_env) (q : QUIC_STREAM_MAP) (id : Z) : option QUIC_STREAM_MAP :=
  s ← qsm_map q !! id;
  let allowed_by_stream_limit :=
    if eqb (ossl_quic_stream_is_server_init s) (qsm_is_server q) then
      let is_uni := negb (ossl_quic_stream_is_bidi s) in
      let stream_ordinal := Z.shiftr (qs_id s) 2 in
      ossl_quic_stream_map_is_local_allowed_by_stream_limit env stream_ordinal is_uni
    else true in
  q ← update_acked q id;
  q ← update_gc q id;
  s ← qsm_map q !! id;
  should_be_active ← should_be_active env s allowed_by_stream_limit;
  if should_be_active : bool then stream_map_mark_active q id else stream_map_mark_inactive q id.

(** ** The send part *)

Definition ossl_quic_stream_map_ensure_send_part_id (q : QUIC_STREAM_MAP) (id : Z) : option (QUIC_STREAM_MAP * bool) :=
  s ← qsm_map q !! id;
  match qs_send_state s with
  | QUIC_SSTREAM_STATE_NONE => Some (q, false)
  | QUIC_SSTREAM_STATE_READY => Some (qsm_upd q id (fun s => s <| qs_send_state := QUIC_SSTREAM_STATE_SEND |>), true)
  | _ => Some (q, true)
  end.

Definition ossl_quic_stream_map_notify_all_data_sent (q : QUIC_STREAM_MAP) (id : Z) : option (QUIC_STREAM_MAP * bool) :=
  s ← qsm_map q !! id;
  match qs_send_state s with
  | QUIC_SSTREAM_STATE_SEND =>
      ss ← qs_sstream s;
      match ossl_quic_sstream_get_final_size ss with
      | None => Some (q, false)
      | Some final_size =>
          Some (qsm_upd q id (fun s => s <| qs_send_final_size := final_size |> <| qs_send_state := QUIC_SSTREAM_STATE_DATA_SENT |>), true)
      end
  | _ => Some (q, false)
  end.

(** From the DATA_SENT label on. *)
Definition reset_from_data_sent (env : qsm_env) (q : QUIC_STREAM_MAP) (id aec : Z) : option (QUIC_STREAM_MAP * bool) :=
  let q := qsm_upd q id (fun s => s <| qs_reset_stream_aec := aec |> <| qs_want_reset_stream := true |>
                                    <| qs_send_state := QUIC_SSTREAM_STATE_RESET_SENT |> <| qs_sstream := None |>) in
  q ← shutdown_flush_done q id;
  q ← ossl_quic_stream_map_update_state env q id;
  Some (q, true).

(** From the SEND label on. *)
Definition reset_from_send (env : qsm_env) (q : QUIC_STREAM_MAP) (id aec : Z) : option (QUIC_STREAM_MAP * bool) :=
  let q := qsm_upd q id (fun s => s <| qs_send_final_size := ossl_quic_txfc_get_swm (qs_txfc s) |>) in
  reset_from_data_sent env q id aec.

Definition ossl_quic_stream_map_reset_stream_send_part (env : qsm_env) (q : QUIC_STREAM_MAP) (id aec : Z) : option (QUIC_STREAM_MAP * bool) :=
  s ← qsm_map q !! id;
  match qs_send_state s with
  | QUIC_SSTREAM_STATE_NONE | QUIC_SSTREAM_STATE_DATA_RECVD => Some (q, false)
  | QUIC_SSTREAM_STATE_READY =>
      '(q, ok) ← ossl_quic_stream_map_ensure_send_part_id q id;
      if ok : bool then reset_from_send env q id aec else Some (q, false)
  | QUIC_SSTREAM_STATE_SEND => reset_from_send env q id aec
  | QUIC_SSTREAM_STATE_DATA_SENT => reset_from_data_sent env q id aec
  | QUIC_SSTREAM_STATE_RESET_SENT | QUIC_SSTREAM_STATE_RESET_RECVD => Some (q, true)
  end.

Definition ossl_quic_stream_map_notify_reset_stream_acked (q : QUIC_STREAM_MAP) (id : Z) : option (QUIC_STREAM_MAP * bool) :=
  s ← qsm_map q !! id;
  match qs_send_state s with
  | QUIC_SSTREAM_STATE_RESET_SENT => Some (qsm_upd q id (fun s => s <| qs_send_state := QUIC_SSTREAM_STATE_RESET_RECVD |>), true)
  | QUIC_SSTREAM_STATE_RESET_RECVD => Some (q, true)
  | _ => Some (q, false)
  end.

(** ** The receive part *)

Definition ossl_quic_stream_map_notify_size_known_recv_part (q : QUIC_STREAM_MAP) (id final_size : Z) : option (QUIC_STREAM_MAP * bool) :=
  s ← qsm_map q !! id;
  match qs_recv_state s with
  | QUIC_RSTREAM_STATE_RECV => Some (qsm_upd q id (fun s => s <| qs_recv_state := QUIC_RSTREAM_STATE_SIZE_KNOWN |>), true)
  | _ => Some (q, false)
  end.

Definition ossl_quic_stream_map_notify_totally_received (q : QUIC_STREAM_MAP) (id : Z) : option (QUIC_STREAM_MAP * bool) :=
  s ← qsm_map q !! id;
  match qs_recv_state s with
  | QUIC_RSTREAM_STATE_SIZE_KNOWN =>
      Some (qsm_upd q id (fun s => s <| qs_recv_state := QUIC_RSTREAM_STATE_DATA_RECVD |> <| qs_want_stop_sending := false |>), true)
  | _ => Some (q, false)
  end.

Definition ossl_quic_stream_map_notify_totally_read (q : QUIC_STREAM_MAP) (id : Z) : option (QUIC_STREAM_MAP * bool) :=
  s ← qsm_map q !! id;
  match qs_recv_state s with
  | QUIC_RSTREAM_STATE_DATA_RECVD =>
      Some (qsm_upd q id (fun s => s <| qs_recv_state := QUIC_RSTREAM_STATE_DATA_READ |> <| qs_rstream := None |>), true)
  | _ => Some (q, false)
  end.

Definition ossl_quic_stream_map_notify_reset_recv_part (env : qsm_env) (q : QUIC_STREAM_MAP) (id app_error_code final_size : Z)
  : option (QUIC_STREAM_MAP * bool) :=
  s ← qsm_map q !! id;
  match qs_recv_state s with
  | QUIC_RSTREAM_STATE_NONE => Some (q, false)
  | QUIC_RSTREAM_STATE_RECV | QUIC_RSTREAM_STATE_SIZE_KNOWN | QUIC_RSTREAM_STATE_DATA_RECVD =>
      if match ossl_quic_stream_recv_get_final_size s with Some prev => negb (prev =? final_size) | None => false end then Some (q, false)
      else
        let q := qsm_upd q id (fun s => s <| qs_recv_state := QUIC_RSTREAM_STATE_RESET_RECVD |> <| qs_peer_reset_stream_aec := app_error_code |>
                                          <| qs_want_stop_sending := false |> <| qs_rstream := None |>) in
        q ← ossl_quic_stream_map_update_state env q id;
        Some (q, true)
  | QUIC_RSTREAM_STATE_DATA_READ | QUIC_RSTREAM_STATE_RESET_RECVD | QUIC_RSTREAM_STATE_RESET_READ => Some (q, true)
  end.

Definition ossl_quic_stream_map_notify_app_read_reset_recv_part (q : QUIC_STREAM_MAP) (id : Z) : option (QUIC_STREAM_MAP * bool) :=
  s ← qsm_map q !! id;
  match qs_recv_state s with
  | QUIC_RSTREAM_STATE_RESET_RECVD => Some (qsm_upd q id (fun s => s <| qs_recv_state := QUIC_RSTREAM_STATE_RESET_READ |>), true)
  | _ => Some (q, false)
  end.

Definition ossl_quic_stream_map_schedule_stop_sending (env : qsm_env) (q : QUIC_STREAM_MAP) (id : Z) : option (QUIC_STREAM_MAP * bool) :=
  s ← qsm_map q !! id;
  if negb (qs_stop_sending s) then Some (q, false)
  else if qs_want_stop_sending s then Some (q, true)
  else
    match qs_recv_state s with
    | QUIC_RSTREAM_STATE_RECV | QUIC_RSTREAM_STATE_SIZE_KNOWN =>
        q ← ossl_quic_stream_map_update_state env (qsm_upd q id (fun s => s <| qs_want_stop_sending := true |>)) id;
        Some (q, true)
    | _ => Some (q, true)
    end.

Definition ossl_quic_stream_map_stop_sending_recv_part (env : qsm_env) (q : QUIC_STREAM_MAP) (id aec : Z) : option (QUIC_STREAM_MAP * bool) :=
  s ← qsm_map q !! id;
  if qs_stop_sending s then Some (q, false)
  else
    match qs_recv_state s with
    | QUIC_RSTREAM_STATE_RECV | QUIC_RSTREAM_STATE_SIZE_KNOWN =>
        ossl_quic_stream_map_schedule_stop_sending env
          (qsm_upd q id (fun s => s <| qs_stop_sending := true |> <| qs_stop_sending_aec := aec |>)) id
    | _ => Some (q, false)
    end.

(** ** The accept queue *)

Definition ossl_quic_stream_map_get_accept_queue_len (q : QUIC_STREAM_MAP) (is_uni : bool) : Z :=
  if is_uni then num_accept_uni q else num_accept_bidi q.
Definition ossl_quic_stream_map_get_total_accept_queue_len (q : QUIC_STREAM_MAP) : Z :=
  ossl_quic_stream_map_get_accept_queue_len q false +u ossl_quic_stream_map_get_accept_queue_len q true.

Definition ossl_quic_stream_map_peek_accept_queue (q : QUIC_STREAM_MAP) : option Z := list_head (accept_list q).

(** The loop ends only at a stream of the kind looked for: [None] when the fuel, one round
    per stream of the queue, is used up. *)
Fixpoint find_accept_loop (fuel : nat) (q : QUIC_STREAM_MAP) (qs : option Z) (is_uni : bool) : option (option Z) :=
  match fuel with
  | O => None
  | S fuel =>
      match qs with
      | None => Some None
      | Some id =>
          s ← qsm_map q !! id;
          if (is_uni && negb (ossl_quic_stream_is_bidi s)) || (negb is_uni && ossl_quic_stream_is_bidi s) then Some (Some id)
          else find_accept_loop fuel q (list_next (accept_list q) id) is_uni
      end
  end.

Definition ossl_quic_stream_map_find_in_accept_queue (q : QUIC_STREAM_MAP) (is_uni : bool) : option (option Z) :=
  if ossl_quic_stream_map_get_accept_queue_len q is_uni =? 0 then Some None
  else find_accept_loop (S (length (accept_list q))) q (ossl_quic_stream_map_peek_accept_queue q) is_uni.

Definition ossl_quic_stream_map_push_accept_queue (q : QUIC_STREAM_MAP) (id : Z) : option QUIC_STREAM_MAP :=
  s ← qsm_map q !! id;
  l ← list_insert_tail (accept_list q) id;
  let q := q <| accept_list := l |> in
  Some (if ossl_quic_stream_is_bidi s then q <| num_accept_bidi := num_accept_bidi q +u 1 |>
        else q <| num_accept_uni := num_accept_uni q +u 1 |>).

Definition qsm_get_max_streams_rxfc (q : QUIC_STREAM_MAP) (s : QUIC_STREAM) : option QUIC_RXFC :=
  if ossl_quic_stream_is_bidi s then max_streams_bidi_rxfc q else max_streams_uni_rxfc q.

(** [now] and [n]: the clock of the controller and the count of its readings. *)
Definition ossl_quic_stream_map_remove_from_accept_queue (now : nat -> OSSL_TIME) (q : QUIC_STREAM_MAP) (id : Z) (rtt : OSSL_TIME) (n : nat)
  : option (QUIC_STREAM_MAP * nat) :=
  s ← qsm_map q !! id;
  l ← list_remove (accept_list q) id;
  let q := q <| accept_list := l |> in
  let bidi := ossl_quic_stream_is_bidi s in
  let q := if bidi then q <| num_accept_bidi := num_accept_bidi q -u 1 |> else q <| num_accept_uni := num_accept_uni q -u 1 |> in
  match qsm_get_max_streams_rxfc q s with
  | None => Some (q, n)
  | Some fc =>
      let '(fc, _, _, n) := ossl_quic_rxfc_on_retire now fc None 1 rtt n in
      Some (if bidi then q <| max_streams_bidi_rxfc := Some fc |> else q <| max_streams_uni_rxfc := Some fc |>, n)
  end.

(** ** Garbage collection and shutdown *)

Fixpoint gc_loop (fuel : nat) (q : QUIC_STREAM_MAP) (qs qs_head : option Z) : option QUIC_STREAM_MAP :=
  match fuel with
  | O => None
  | S fuel =>
      match qs with
      | Some id =>
          if bool_decide (qs <> qs_head) then
            let qsn := list_next (ready_for_gc_list q) id in
            q ← ossl_quic_stream_map_release q id;
            gc_loop fuel q qsn qs_head
          else Some q
      | None => Some q
      end
  end.

Definition ossl_quic_stream_map_gc (q : QUIC_STREAM_MAP) : option QUIC_STREAM_MAP :=
  let qs_head := list_head (ready_for_gc_list q) in
  gc_loop (S (length (ready_for_gc_list q))) q qs_head qs_head.

Definition eligible_for_shutdown_flush (qs : QUIC_STREAM) : option bool :=
  match qs_send_state qs with
  | QUIC_SSTREAM_STATE_SEND | QUIC_SSTREAM_STATE_DATA_SENT => ss ← qs_sstream qs; Some (negb (ossl_quic_sstream_is_totally_acked ss))
  | _ => Some false
  end.

Definition begin_shutdown_flush_each (q : QUIC_STREAM_MAP) (id : Z) : option QUIC_STREAM_MAP :=
  s ← qsm_map q !! id;
  eligible ← eligible_for_shutdown_flush s;
  if negb eligible || qs_shutdown_flush s then Some q
  else Some ((qsm_upd q id (fun s => s <| qs_shutdown_flush := true |>)) <| num_shutdown_flush := num_shutdown_flush q +u 1 |>).

Definition ossl_quic_stream_map_begin_shutdown_flush (order : list Z) (q : QUIC_STREAM_MAP) : option QUIC_STREAM_MAP :=
  ossl_quic_stream_map_visit order begin_shutdown_flush_each (q <| num_shutdown_flush := 0 |>).

Definition ossl_quic_stream_map_is_shutdown_flush_finished (q : QUIC_STREAM_MAP) : bool := num_shutdown_flush q =? 0.

(** ** The iterator *)

Record QUIC_STREAM_ITER := mkIter { it_first_stream : option Z; it_stream : option Z }.

Definition ossl_quic_stream_iter_init (q : QUIC_STREAM_MAP) (advance_rr : bool) : QUIC_STREAM_ITER * QUIC_STREAM_MAP :=
  let it := mkIter (rr_cur q) (rr_cur q) in
  match rr_cur q with
  | Some cur =>
      if advance_rr then
        let q := q <| rr_counter := rr_counter q +u 1 |> in
        if rr_stepping q <=? rr_counter q then (it, q <| rr_counter := 0 |> <| rr_cur := list_next (active_list q) cur |>)
        else (it, q)
      else (it, q)
  | None => (it, q)
  end.

Definition ossl_quic_stream_iter_next (q : QUIC_STREAM_MAP) (it : QUIC_STREAM_ITER) : QUIC_STREAM_ITER :=
  match it_stream it with
  | None => it
  | Some id =>
      let stream := list_next (active_list q) id in
      mkIter (it_first_stream it) (if bool_decide (stream = it_first_stream it) then None else stream)
  end.

(** The packetiser's loop over the streams of an iterator. *)
Fixpoint iter_walk (fuel : nat) (q : QUIC_STREAM_MAP) (it : QUIC_STREAM_ITER) : option (list Z) :=
  match fuel, it_stream it with
  | _, None => Some []
  | S fuel, Some id => cons id <$> iter_walk fuel q (ossl_quic_stream_iter_next q it)
  | O, Some _ => None
  end.

(** ** Circular lists *)

Abbreviation without n l := (filter (fun m => m <> n) l).

Lemma without_not_in (l : list Z) (n : Z) : n ∉ l -> without n l = l.
Proof.
  induction l as [|m l IH]; [done|]. intros [Hm Hl]%not_elem_of_cons. rewrite filter_cons_True by congruence. by rewrite IH.
Qed.

Lemma elem_of_without (l : list Z) (n id : Z) : id ∈ without n l <-> id <> n /\ id ∈ l.
Proof. by rewrite list_elem_of_filter. Qed.

Lemma unlink_without (l : list Z) (n : Z) : unlink l n = without n l.
Proof. unfold unlink. case_decide; [done|]. by rewrite without_not_in. Qed.

Lemma list_insert_tail_new (l : list Z) (n : Z) : n ∉ l -> list_insert_tail l n = Some (l ++ [n]).
Proof. intros. unfold list_insert_tail. by rewrite decide_False. Qed.

Lemma list_remove_in (l : list Z) (n : Z) : n ∈ l -> list_remove l n = Some (without n l).
Proof. intros. unfold list_remove. by rewrite decide_True. Qed.

Lemma list_next_split (a b : list Z) (n : Z) : NoDup (a ++ n :: b) -> list_next (a ++ n :: b) n = head (b ++ a ++ [n]).
Proof.
  intros Hnd. assert (Hn : n ∉ a). { apply NoDup_app in Hnd as (_ & Hd & _). intros Hin. apply (Hd _ Hin). by left. }
  assert (list_find (fun m => m = n) (a ++ n :: b) = Some (length a, n)) as Hf.
  { rewrite list_find_app_r by (apply list_find_None, Forall_forall; by intros m Hm ->). cbn. by rewrite decide_True. }
  unfold list_next. rewrite Hf. cbn. rewrite lookup_app_r by lia. replace (S (length a) - length a)%nat with 1%nat by lia.
  destruct b as [|m b]; [by destruct a|done].
Qed.

Lemma list_next_in (l : list Z) (n : Z) : NoDup l -> n ∈ l -> exists m, list_next l n = Some m /\ m ∈ l.
Proof.
  intros Hnd (a & b & ->)%list_elem_of_split. rewrite list_next_split by done. destruct b as [|m b]; cbn.
  - destruct a as [|m a]; cbn; eexists; (split; [done|]); [apply list_elem_of_singleton; done|by left].
  - exists m. split; [done|]. apply elem_of_app. right. right. by left.
Qed.

(** Only the element of a list of one is its own successor. *)
Lemma list_next_self (l : list Z) (n : Z) : NoDup l -> n ∈ l -> list_next l n = Some n -> l = [n].
Proof.
  intros Hnd (a & b & ->)%list_elem_of_split. rewrite list_next_split by done.
  apply NoDup_app in Hnd as (_ & Hd & [Hb _]%NoDup_cons). destruct b as [|m b]; cbn.
  - destruct a as [|m a]; [done|]. cbn. intros [= ->]. exfalso. by apply (Hd n); left.
  - intros [= ->]. exfalso. apply Hb. by left.
Qed.

(** ** Lists that follow a flag of the streams *)

Definition tracks (l : list Z) (p : QUIC_STREAM -> bool) (m : gmap Z QUIC_STREAM) : Prop :=
  NoDup l /\ forall id, id ∈ l <-> exists s, m !! id = Some s /\ p s = true.

Section Tracks.
Context (l : list Z) (p : QUIC_STREAM -> bool) (m : gmap Z QUIC_STREAM) (id : Z) (s s' : QUIC_STREAM) (Ht : tracks l p m).

Lemma tracks_iff : m !! id = Some s -> (id ∈ l <-> p s = true).
Proof. intros Hs. rewrite (proj2 Ht). split; [intros (? & ? & ?); by simplify_eq|by eauto]. Qed.

Lemma tracks_not_in : m !! id = None -> id ∉ l.
Proof. intros Hs (? & ? & ?)%(proj2 Ht). by simplify_eq. Qed.

Lemma tracks_same : m !! id = Some s -> p s' = p s -> tracks l p (<[id := s']> m).
Proof using Ht.
  intros Hs Hp. split; [apply Ht|]. intros i. destruct (decide (i = id)) as [->|Hne].
  - rewrite (tracks_iff Hs), lookup_insert_eq. split; [intros; exists s'; by rewrite Hp|intros (? & ? & ?); by simplify_eq; congruence].
  - rewrite lookup_insert_ne by done. apply Ht.
Qed.

Lemma tracks_new : m !! id = None -> p s' = false -> tracks l p (<[id := s']> m).
Proof using Ht.
  intros Hs Hp. split; [apply Ht|]. intros i. destruct (decide (i = id)) as [->|Hne].
  - rewrite lookup_insert_eq. split; [by intros ?%tracks_not_in|intros (? & ? & ?); by simplify_eq; congruence].
  - rewrite lookup_insert_ne by done. apply Ht.
Qed.

Lemma tracks_on : m !! id = Some s -> p s = false -> p s' = true ->
  list_insert_tail l id = Some (l ++ [id]) /\ tracks (l ++ [id]) p (<[id := s']> m).
Proof using Ht.
  intros Hs Hp Hp'. assert (Hn : id ∉ l) by (rewrite (tracks_iff Hs); congruence). split; [by apply list_insert_tail_new|]. split.
  - apply NoDup_app. split; [apply Ht|]. split; [by intros i Hi ->%list_elem_of_singleton|apply NoDup_singleton].
  - intros i. rewrite elem_of_app, list_elem_of_singleton. destruct (decide (i = id)) as [->|Hne].
    + rewrite lookup_insert_eq. split; [by eauto|by right].
    + rewrite lookup_insert_ne, (proj2 Ht) by done. tauto.
Qed.

Lemma tracks_without : p s' = false -> tracks (without id l) p (<[id := s']> m) .
Proof using Ht.
  intros Hp'. split; [apply NoDup_filter, Ht|]. intros i. rewrite elem_of_without. destruct (decide (i = id)) as [->|Hne].
  - rewrite lookup_insert_eq. split; [by intros [? _]|intros (? & ? & ?); by simplify_eq; congruence].
  - rewrite lookup_insert_ne, (proj2 Ht) by done. tauto.
Qed.

Lemma tracks_off : m !! id = Some s -> p s = true -> p s' = false ->
  list_remove l id = Some (without id l) /\ tracks (without id l) p (<[id := s']> m).
Proof using Ht. intros Hs Hp Hp'. split; [by apply list_remove_in; rewrite (tracks_iff Hs)|by apply tracks_without]. Qed.

Lemma tracks_delete : tracks (without id l) p (delete id m).
Proof using Ht.
  split; [apply NoDup_filter, Ht|]. intros i. rewrite elem_of_without. destruct (decide (i = id)) as [->|Hne].
  - rewrite lookup_delete_eq. split; [by intros [? _]|intros (? & ? & ?); done].
  - rewrite lookup_delete_ne, (proj2 Ht) by done. tauto.
Qed.
End Tracks.

(** ** The structural invariant *)

(** Stream IDs have 62 bits; the two low ones are the type. *)
Definition STREAM_IDS : Z := 4611686018427387904.
Definition id_bidi (id : Z) : bool := Z.land (Z.land id 3) QUIC_STREAM_DIR_MASK =? QUIC_STREAM_DIR_BIDI.
Definition of_kind (b : bool) (id : Z) : Prop := id_bidi id = b.
#[export] Instance of_kind_dec (b : bool) (id : Z) : Decision (of_kind b id).
Proof. unfold of_kind. apply _. Defined.
Definition count_kind (b : bool) (l : list Z) : Z := zlen (filter (of_kind b) l).

Record slot_ok (id : Z) (s : QUIC_STREAM) : Prop := {
  so_id : qs_id s = id; so_type : qs_type s = Z.land id 3; so_range : 0 <= id < STREAM_IDS }.

Record qsm_wf (q : QUIC_STREAM_MAP) : Prop := {
  wf_active : tracks (active_list q) qs_active (qsm_map q);
  wf_gc : tracks (ready_for_gc_list q) qs_ready_for_gc (qsm_map q);
  wf_accept : NoDup (accept_list q);
  wf_accept_in : forall id, id ∈ accept_list q -> is_Some (qsm_map q !! id);
  wf_ids : map_Forall slot_ok (qsm_map q);
  wf_bidi : num_accept_bidi q = count_kind true (accept_list q);
  wf_uni : num_accept_uni q = count_kind false (accept_list q);
  wf_flush : num_shutdown_flush q = msum (fun s => b2z (qs_shutdown_flush s)) (qsm_map q);
  wf_cur : match rr_cur q with Some c => c ∈ active_list q | None => active_list q = [] end }.

(** From [q] to [q'] the stream [id] becomes [s'], and nothing else changes but the place of
    [id] in the lists, the round robin's next stream and the count of streams to flush. *)
Record moved (q : QUIC_STREAM_MAP) (id : Z) (s' : QUIC_STREAM) (q' : QUIC_STREAM_MAP) : Prop := {
  mv_wf : qsm_wf q';
  mv_map : qsm_map q' = <[id := s']> (qsm_map q);
  mv_accept : accept_list q' = accept_list q;
  mv_server : qsm_is_server q' = qsm_is_server q;
  mv_active : without id (active_list q') = without id (active_list q);
  mv_gc : without id (ready_for_gc_list q') = without id (ready_for_gc_list q);
  mv_rr : rr_stepping q' = rr_stepping q /\ rr_counter q' = rr_counter q }.

Lemma moved_trans (q q1 q2 : QUIC_STREAM_MAP) (id : Z) (s1 s2 : QUIC_STREAM) :
  moved q id s1 q1 -> moved q1 id s2 q2 -> moved q id s2 q2.
Proof.
  intros [_ A2 A3 A4 A5 A6 [A7 A8]] [B1 B2 B3 B4 B5 B6 [B7 B8]]. split; try congruence; [by rewrite B2, A2, insert_insert_eq|split; congruence].
Qed.

Lemma moved_lookup (q q' : QUIC_STREAM_MAP) (id : Z) (s' : QUIC_STREAM) : moved q id s' q' -> qsm_map q' !! id = Some s'.
Proof. intros Hm. rewrite (mv_map _ _ _ _ Hm). apply lookup_insert_eq. Qed.

Lemma qsm_upd_map (q : QUIC_STREAM_MAP) (id : Z) (f : QUIC_STREAM -> QUIC_STREAM) (s : QUIC_STREAM) : qsm_map q !! id = Some s ->
  alter f id (qsm_map q) = <[id := f s]> (qsm_map q).
Proof.
  intros Hs. apply map_eq. intros j. destruct (decide (j = id)) as [->|Hne].
  - by rewrite lookup_alter_eq, lookup_insert_eq, Hs.
  - by rewrite lookup_alter_ne, lookup_insert_ne.
Qed.

(** The same, with the active list left alone. *)
Definition quiet (q : QUIC_STREAM_MAP) (id : Z) (s' : QUIC_STREAM) (q' : QUIC_STREAM_MAP) : Prop :=
  moved q id s' q' /\ active_list q' = active_list q.

Lemma quiet_trans (q q1 q2 : QUIC_STREAM_MAP) (id : Z) (s1 s2 : QUIC_STREAM) : quiet q id s1 q1 -> quiet q1 id s2 q2 -> quiet q id s2 q2.
Proof. intros [A1 A2] [B1 B2]. split; [by eapply moved_trans|congruence]. Qed.

(** The members of a stream that the lists and counters of the map depend on. *)
Definition same_slot (s s' : QUIC_STREAM) : Prop :=
  qs_id s' = qs_id s /\ qs_type s' = qs_type s /\ qs_active s' = qs_active s /\ qs_ready_for_gc s' = qs_ready_for_gc s /\
  qs_shutdown_flush s' = qs_shutdown_flush s.

Lemma tracks_get (l : list Z) (p : QUIC_STREAM -> bool) (m : gmap Z QUIC_STREAM) (id : Z) : tracks l p m -> id ∈ l -> is_Some (m !! id).
Proof. intros Ht (s & Hs & _)%(proj2 Ht). by exists s. Qed.

Lemma flush_bound (m : gmap Z QUIC_STREAM) : map_Forall slot_ok m -> 0 <= msum (fun s => b2z (qs_shutdown_flush s)) m <= STREAM_IDS.
Proof. intros Hm. apply msum_flag_bound; [done|]. intros i s Hs. by destruct (Hm _ _ Hs). Qed.

Lemma flush_flagged (m : gmap Z QUIC_STREAM) (id : Z) (s : QUIC_STREAM) : m !! id = Some s -> qs_shutdown_flush s = true ->
  1 <= msum (fun s => b2z (qs_shutdown_flush s)) m.
Proof.
  intros Hs Hf. pose proof (msum_le (fun s => b2z (qs_shutdown_flush s)) m id s) as Hle. cbn beta in Hle. rewrite Hf in Hle. apply Hle; [|done].
  intros j b _. unfold b2z. by destruct (qs_shutdown_flush b).
Qed.

Section Moves.
Context (q : QUIC_STREAM_MAP) (id : Z) (s : QUIC_STREAM) (Hq : qsm_wf q) (Hs : qsm_map q !! id = Some s).

Lemma slot_of_stream : slot_ok id s.
Proof. exact (wf_ids _ Hq _ _ Hs). Qed.

(** What a state must satisfy for [moved], list by list. *)
Lemma build_moved (s' : QUIC_STREAM) (q' : QUIC_STREAM_MAP) :
  qsm_map q' = <[id := s']> (qsm_map q) -> slot_ok id s' ->
  tracks (active_list q') qs_active (<[id := s']> (qsm_map q)) -> without id (active_list q') = without id (active_list q) ->
  tracks (ready_for_gc_list q') qs_ready_for_gc (<[id := s']> (qsm_map q)) ->
  without id (ready_for_gc_list q') = without id (ready_for_gc_list q) ->
  accept_list q' = accept_list q /\ num_accept_bidi q' = num_accept_bidi q /\ num_accept_uni q' = num_accept_uni q /\
  qsm_is_server q' = qsm_is_server q /\ rr_stepping q' = rr_stepping q /\ rr_counter q' = rr_counter q ->
  num_shutdown_flush q' = num_shutdown_flush q - b2z (qs_shutdown_flush s) + b2z (qs_shutdown_flush s') ->
  match rr_cur q' with Some c => c ∈ active_list q' | None => active_list q' = [] end -> moved q id s' q'.
Proof using Hq Hs.
  intros Hm Hslot Ha Ha' Hg Hg' (Hc & Hb & Hu & Hsv & Hr & Hrc) Hf Hcur. pose proof Hq as [_ _ W3 W4 W5 W6 W7 W8 _].
  split; auto. split; rewrite ?Hm, ?Hc; auto; [..|congruence|congruence|].
  - intros i Hi%W4. by apply lookup_insert_is_Some'; right.
  - by apply map_Forall_insert_2.
  - rewrite Hf, W8. by rewrite (msum_insert _ _ _ _ _ Hs).
Qed.

(** A change of the stream's own members. *)
Lemma upd_moved (f : QUIC_STREAM -> QUIC_STREAM) : same_slot s (f s) -> moved q id (f s) (qsm_upd q id f).
Proof using Hq Hs.
  intros (E1 & E2 & E3 & E4 & E5). pose proof Hq as [W1 W2 _ _ _ _ _ _ W9]. pose proof slot_of_stream as [S1 S2 S3].
  apply build_moved; unfold qsm_upd; cbn; auto; [exact (qsm_upd_map q id _ s Hs)|split; congruence|by eapply tracks_same|by eapply tracks_same|split_and!; done|].
  rewrite E5. lia.
Qed.

Lemma mark_active_moved : exists q', stream_map_mark_active q id = Some q' /\ moved q id (s <| qs_active := true |>) q' /\
  active_list q' = if qs_active s then active_list q else active_list q ++ [id].
Proof using Hq Hs.
  pose proof Hq as [W1 W2 _ _ _ _ _ _ W9]. pose proof slot_of_stream as Hslot.
  unfold stream_map_mark_active. rewrite Hs. cbn [mbind option_bind]. destruct (qs_active s) eqn:Ea.
  - exists q. assert (s <| qs_active := true |> = s) as -> by (destruct s; cbn in *; by subst).
    split; [done|]. split; [|done]. apply build_moved; auto; rewrite ?insert_id by done; auto; [split_and!; done|lia].
  - assert (Ea' : qs_active (s <| qs_active := true |>) = true) by done. destruct (tracks_on _ _ _ id s _ W1 Hs Ea Ea') as [Hl Ht].
    rewrite Hl. cbn [mbind option_bind]. eexists. split; [done|]. split; [|done].
    apply build_moved; unfold qsm_upd; cbn; auto; [exact (qsm_upd_map q id _ s Hs)|by destruct Hslot| |by eapply tracks_same|split_and!; done|lia|].
    + by rewrite filter_app, filter_cons_False, app_nil_r by tauto.
    + destruct (rr_cur q); apply elem_of_app; [by left|right; by left].
Qed.

Lemma mark_inactive_moved : exists q', stream_map_mark_inactive q id = Some q' /\ moved q id (s <| qs_active := false |>) q' /\
  active_list q' = without id (active_list q).
Proof using Hq Hs.
  pose proof Hq as [W1 W2 _ _ _ _ _ _ W9]. pose proof slot_of_stream as Hslot.
  unfold stream_map_mark_inactive. rewrite Hs. cbn [mbind option_bind]. destruct (qs_active s) eqn:Ea; cbn [negb].
  - assert (Ea' : qs_active (s <| qs_active := false |>) = false) by done. destruct (tracks_off _ _ _ id s _ W1 Hs Ea Ea') as [Hl Ht].
    rewrite Hl. cbn [mbind option_bind]. eexists. split; [done|]. split; [|done].
    apply build_moved; unfold qsm_upd; cbn; auto; [exact (qsm_upd_map q id _ s Hs)|by destruct Hslot| |by eapply tracks_same|split_and!; done|lia|].
    + rewrite list_filter_filter. apply list_filter_iff. tauto.
    + assert (Hin : id ∈ active_list q) by (by rewrite (tracks_iff _ _ _ id s W1 Hs)).
      destruct (rr_cur q) as [c|]; [|rewrite W9 in Hin; by apply not_elem_of_nil in Hin].
      destruct (bool_decide_reflect (Some c = Some id)) as [[= ->]|Hc].
      * destruct (list_next_in _ _ (proj1 W1) Hin) as (m & Hm & Hmi). rewrite Hm.
        destruct (bool_decide_reflect (Some m = Some id)) as [[= ->]|Hne].
        -- rewrite (list_next_self _ _ (proj1 W1) Hin Hm). by rewrite filter_cons_False by tauto.
        -- apply elem_of_without. split; [congruence|done].
      * rewrite bool_decide_false by done. apply elem_of_without. split; [congruence|done].
  - exists q. assert (s <| qs_active := false |> = s) as -> by (destruct s; cbn in *; by subst).
    split; [done|]. split.
    + apply build_moved; auto; rewrite ?insert_id by done; auto; [split_and!; done|lia].
    + symmetry. apply without_not_in. rewrite (tracks_iff _ _ _ id s W1 Hs). congruence.
Qed.

Lemma flush_done_moved : exists q', shutdown_flush_done q id = Some q' /\ quiet q id (s <| qs_shutdown_flush := false |>) q'.
Proof using Hq Hs.
  pose proof Hq as [W1 W2 _ _ W5 _ _ W8 W9]. pose proof slot_of_stream as Hslot. pose proof (flush_bound _ W5) as Hb.
  unfold shutdown_flush_done. rewrite Hs. cbn [mbind option_bind]. destruct (qs_shutdown_flush s) eqn:Ef; cbn [negb].
  - pose proof (flush_flagged _ _ _ Hs Ef) as H1. rewrite <- W8 in *. eexists. split; [done|]. split; [|by destruct (_ =? _)].
    apply build_moved; repeat match goal with |- context [if ?b then _ else _] => destruct b end; unfold qsm_upd; cbn; auto;
      try (exact (qsm_upd_map q id _ s Hs)); try (by destruct Hslot); try (by eapply tracks_same); rewrite ?Ef, sub64_small; unfold STREAM_IDS, U64_MOD in *; cbn; lia.
  - exists q. assert (s <| qs_shutdown_flush := false |> = s) as -> by (destruct s; cbn in *; by subst).
    split; [done|]. split; [|done]. apply build_moved; auto; rewrite ?insert_id by done; auto; [split_and!; done|lia].
Qed.

(** What [update_gc] makes of a stream. *)
Definition gc_checked (s : QUIC_STREAM) : QUIC_STREAM := s <| qs_ready_for_gc := qs_ready_for_gc s || qsm_ready_for_gc s |>.

Lemma update_gc_moved : exists q', update_gc q id = Some q' /\ quiet q id (gc_checked s) q'.
Proof using Hq Hs.
  pose proof Hq as [W1 W2 _ _ _ _ _ _ W9]. pose proof slot_of_stream as Hslot.
  assert (Hsame : qs_ready_for_gc s || qsm_ready_for_gc s = qs_ready_for_gc s -> quiet q id (gc_checked s) q).
  { intros He. assert (gc_checked s = s) as -> by (unfold gc_checked; rewrite He; by destruct s).
    split; [|done]. apply build_moved; auto; rewrite ?insert_id by done; auto; [split_and!; done|lia]. }
  unfold update_gc. rewrite Hs. cbn [mbind option_bind]. destruct (qs_ready_for_gc s) eqn:Eg; [by eauto|].
  destruct (qsm_ready_for_gc s) eqn:Er; [|by eauto]. unfold gc_checked. rewrite Eg, Er. cbn [orb].
  assert (Eg' : qs_ready_for_gc (s <| qs_ready_for_gc := true |>) = true) by done.
  destruct (tracks_on _ _ _ id s _ W2 Hs Eg Eg') as [Hl Ht]. rewrite Hl. cbn [mbind option_bind]. eexists. split; [done|]. split; [|done].
  apply build_moved; unfold qsm_upd; cbn; auto; [exact (qsm_upd_map q id _ s Hs)|by destruct Hslot|by eapply tracks_same| |split_and!; done|lia].
  by rewrite filter_app, filter_cons_False, app_nil_r by tauto.
Qed.
End Moves.
