(* ===== verification/StreamStates.v ===== *)
(** * Streams over every history of the stream map (ssl/quic/quic_stream_map.c)

    What holds of each stream, what each operation makes of it, and the invariant of
    the map over all operations: [run_op_kept].  An operation's result on its
    stream is given as a function of the stream alone where other proofs need it
    ([updated], [reset_sent], [recv_reset]). *)

From S2P Require Import Prelude UintSet OsslTime FlowControl Packet RingBuf Sstream SfList Rstream StreamMap.

(** ** What holds of every stream *)

(** Which parts a stream has is a matter of its type and of who opened it. *)
Definition can_send (s : QUIC_STREAM) : bool := ossl_quic_stream_is_local_init s || ossl_quic_stream_is_bidi s.
Definition can_recv (s : QUIC_STREAM) : bool := negb (ossl_quic_stream_is_local_init s) || ossl_quic_stream_is_bidi s.

Definition send_final_known (s : QUIC_STREAM) : Prop := exists n, ossl_quic_stream_send_get_final_size s = Some (Some n).

(** Deletion is only asked for once the send part is finished or reset, the condition
    [qsm_ready_for_gc] asserts. *)
Definition deletable (s : QUIC_STREAM) : Prop :=
  ossl_quic_stream_has_send s = false \/ ossl_quic_stream_send_is_reset s = true \/ send_final_known s.

Definition wants_peer_data (r : rstream_state) : bool :=
  match r with QUIC_RSTREAM_STATE_RECV | QUIC_RSTREAM_STATE_SIZE_KNOWN => true | _ => false end.

Record stream_ok (server : bool) (s : QUIC_STREAM) : Prop := {
  sk_server : qs_as_server s = server;
  sk_sstream : is_Some (qs_sstream s) <-> ossl_quic_stream_has_send_buffer s = true;
  sk_rstream : is_Some (qs_rstream s) <-> ossl_quic_stream_has_recv_buffer s = true;
  sk_send : ossl_quic_stream_has_send s = can_send s;
  sk_recv : ossl_quic_stream_has_recv s = can_recv s;
  sk_flush : qs_shutdown_flush s = true -> qs_send_state s = QUIC_SSTREAM_STATE_SEND \/ qs_send_state s = QUIC_SSTREAM_STATE_DATA_SENT;
  sk_gc : qs_ready_for_gc s = true -> qsm_ready_for_gc s = true /\ qs_active s = false;
  sk_want_stop : qs_want_stop_sending s = true -> qs_stop_sending s = true /\ wants_peer_data (qs_recv_state s) = true;
  sk_want_reset : qs_want_reset_stream s = true -> ossl_quic_stream_send_is_reset s = true;
  sk_acked : qs_acked_stop_sending s = true -> qs_stop_sending s = true;
  sk_deleted : qs_deleted s = true -> deletable s;
  sk_final : qs_recv_state s <> QUIC_RSTREAM_STATE_NONE -> qs_recv_state s <> QUIC_RSTREAM_STATE_RECV ->
    is_Some (ossl_quic_rxfc_get_final_size (qs_rxfc s)) }.

(** *** The results of the operations, as functions of the stream alone *)

Definition data_recvd (s : QUIC_STREAM) : QUIC_STREAM :=
  s <| qs_send_state := QUIC_SSTREAM_STATE_DATA_RECVD |> <| qs_sstream := None |> <| qs_shutdown_flush := false |>.

Definition acked_checked (s : QUIC_STREAM) : QUIC_STREAM :=
  match qs_sstream s, qs_send_state s with
  | Some ss, QUIC_SSTREAM_STATE_DATA_SENT =>
      if ossl_quic_sstream_is_totally_acked ss then data_recvd s else s
  | Some ss, QUIC_SSTREAM_STATE_SEND =>
      if qs_shutdown_flush s && ossl_quic_sstream_is_totally_acked ss then s <| qs_shutdown_flush := false |> else s
  | _, _ => s
  end.

Definition limit_allows (env : qsm_env) (server : bool) (s : QUIC_STREAM) : bool :=
  if eqb (ossl_quic_stream_is_server_init s) server
  then ossl_quic_stream_map_is_local_allowed_by_stream_limit env (Z.shiftr (qs_id s) 2) (negb (ossl_quic_stream_is_bidi s)) else true.

Definition before_activation (s : QUIC_STREAM) : QUIC_STREAM := gc_checked (acked_checked s).

Definition updated (env : qsm_env) (server : bool) (s : QUIC_STREAM) : QUIC_STREAM :=
  let s1 := before_activation s in s1 <| qs_active := default false (should_be_active env s1 (limit_allows env server s)) |>.

Definition reset_sent (aec : Z) (s : QUIC_STREAM) : QUIC_STREAM :=
  let s := match qs_send_state s with
           | QUIC_SSTREAM_STATE_DATA_SENT => s
           | _ => s <| qs_send_final_size := ossl_quic_txfc_get_swm (qs_txfc s) |>
           end in
  s <| qs_reset_stream_aec := aec |> <| qs_want_reset_stream := true |> <| qs_send_state := QUIC_SSTREAM_STATE_RESET_SENT |>
    <| qs_sstream := None |> <| qs_shutdown_flush := false |>.

Definition recv_reset (aec : Z) (s : QUIC_STREAM) : QUIC_STREAM :=
  s <| qs_recv_state := QUIC_RSTREAM_STATE_RESET_RECVD |> <| qs_peer_reset_stream_aec := aec |>
    <| qs_want_stop_sending := false |> <| qs_rstream := None |>.

Lemma buffer_of (server : bool) (s : QUIC_STREAM) : stream_ok server s -> ossl_quic_stream_has_send_buffer s = true ->
  exists ss, qs_sstream s = Some ss.
Proof. intros Ho Hb. destruct (proj2 (sk_sstream _ _ Ho) Hb) as [ss ?]. eauto. Qed.

Lemma recv_buffer_of (server : bool) (s : QUIC_STREAM) : stream_ok server s -> ossl_quic_stream_has_recv_buffer s = true ->
  exists rs, qs_rstream s = Some rs.
Proof. intros Ho Hb. destruct (proj2 (sk_rstream _ _ Ho) Hb) as [rs ?]. eauto. Qed.

(** The clauses of [stream_ok] a change of other members leaves as they are. *)
Ltac keep_clauses H :=
  constructor;
  first [exact (sk_server _ _ H) | exact (sk_sstream _ _ H) | exact (sk_rstream _ _ H) | exact (sk_send _ _ H) | exact (sk_recv _ _ H)
        |exact (sk_flush _ _ H) | exact (sk_gc _ _ H) | exact (sk_want_stop _ _ H) | exact (sk_want_reset _ _ H) | exact (sk_acked _ _ H)
        |exact (sk_deleted _ _ H) | exact (sk_final _ _ H) | idtac].

(** A send part in a state that is not terminal keeps the stream from the GC list. *)
Lemma not_ready (server : bool) (s : QUIC_STREAM) : stream_ok server s -> ossl_quic_stream_has_send s = true ->
  qs_send_state s <> QUIC_SSTREAM_STATE_DATA_RECVD -> qs_send_state s <> QUIC_SSTREAM_STATE_RESET_RECVD -> qs_ready_for_gc s = false.
Proof.
  intros Ho Hh H1 H2. destruct (qs_ready_for_gc s) eqn:Hg; [|done]. destruct (sk_gc _ _ Ho Hg) as [Hr _].
  unfold qsm_ready_for_gc in Hr. rewrite Hh, !bool_decide_false in Hr by done. by rewrite !andb_false_r in Hr.
Qed.

Lemma has_send_intro (s : QUIC_STREAM) : qs_send_state s <> QUIC_SSTREAM_STATE_NONE -> ossl_quic_stream_has_send s = true.
Proof. intros. by apply bool_decide_eq_true. Qed.

Lemma data_recvd_ok (server : bool) (s : QUIC_STREAM) : stream_ok server s -> qs_send_state s = QUIC_SSTREAM_STATE_DATA_SENT ->
  stream_ok server (data_recvd s).
Proof.
  intros Ho Est. assert (Hh : ossl_quic_stream_has_send s = true) by (apply has_send_intro; by rewrite Est).
  assert (Hg : qs_ready_for_gc s = false) by (apply (not_ready _ _ Ho Hh); by rewrite Est).
  unfold data_recvd. keep_clauses Ho; cbn.
  - split; [by intros []|done].
  - change (true = can_send s). by rewrite <- (sk_send _ _ Ho).
  - done.
  - by rewrite Hg.
  - intros Hw%(sk_want_reset _ _ Ho). unfold ossl_quic_stream_send_is_reset in Hw. by rewrite Est in Hw.
  - intros _. right. right. by eexists.
Qed.

Lemma acked_checked_ok (server : bool) (s : QUIC_STREAM) : stream_ok server s -> stream_ok server (acked_checked s).
Proof.
  intros Ho. unfold acked_checked. destruct (qs_sstream s) as [ss|] eqn:Es, (qs_send_state s) eqn:Est; try exact Ho.
  - destruct (_ && _); [|exact Ho]. by keep_clauses Ho.
  - destruct (ossl_quic_sstream_is_totally_acked ss); [|exact Ho]. by apply data_recvd_ok.
Qed.

Lemma updated_ok (env : qsm_env) (server : bool) (s : QUIC_STREAM) : stream_ok server s -> stream_ok server (updated env server s).
Proof.
  intros Ho%acked_checked_ok. unfold updated, before_activation. set (s1 := acked_checked s) in *. keep_clauses Ho.
  assert (Hg : qs_ready_for_gc (gc_checked s1) = qsm_ready_for_gc s1).
  { unfold gc_checked. cbn. destruct (qs_ready_for_gc s1) eqn:E; [|done]. symmetry. by apply (sk_gc _ _ Ho). }
  change (qs_ready_for_gc (gc_checked s1) = true -> qsm_ready_for_gc s1 = true /\ default false (should_be_active env (gc_checked s1) (limit_allows env server s)) = false).
  rewrite Hg. intros Hr. split; [done|]. unfold should_be_active. rewrite Hg, Hr. by rewrite andb_false_r.
Qed.

Lemma reset_sent_ok (server : bool) (aec : Z) (s : QUIC_STREAM) : stream_ok server s -> ossl_quic_stream_has_send_buffer s = true ->
  stream_ok server (reset_sent aec s).
Proof.
  intros Ho Hb. assert (Hne : qs_send_state s <> QUIC_SSTREAM_STATE_NONE) by (intros He; unfold ossl_quic_stream_has_send_buffer in Hb; by rewrite He in Hb).
  assert (Hg : qs_ready_for_gc s = false).
  { apply (not_ready _ _ Ho); [by apply has_send_intro|intros He; unfold ossl_quic_stream_has_send_buffer in Hb; by rewrite He in Hb..]. }
  pose proof (sk_send _ _ Ho) as Hsend. rewrite (has_send_intro _ Hne) in Hsend.
  assert (Hok : forall n, stream_ok server (s <| qs_send_final_size := n |> <| qs_reset_stream_aec := aec |> <| qs_want_reset_stream := true |>
    <| qs_send_state := QUIC_SSTREAM_STATE_RESET_SENT |> <| qs_sstream := None |> <| qs_shutdown_flush := false |>)).
  { intros n. keep_clauses Ho; cbn; [split; [by intros []|done]|exact Hsend|done|by rewrite Hg|done|intros _; by right; left]. }
  unfold reset_sent. destruct (qs_send_state s); apply Hok.
Qed.

Lemma recv_reset_ok (server : bool) (aec : Z) (s : QUIC_STREAM) : stream_ok server s -> ossl_quic_stream_has_recv_buffer s = true ->
  is_Some (ossl_quic_rxfc_get_final_size (qs_rxfc s)) -> stream_ok server (recv_reset aec s).
Proof.
  intros Ho Hb Hf. assert (Hr : ossl_quic_stream_has_recv s = true).
  { apply bool_decide_eq_true. intros He. unfold ossl_quic_stream_has_recv_buffer in Hb. by rewrite He in Hb. }
  pose proof (sk_recv _ _ Ho) as Hrecv. rewrite Hr in Hrecv. unfold recv_reset. keep_clauses Ho; cbn; try done.
  intros Hg. destruct (sk_gc _ _ Ho Hg) as [Hq Ha]. split; [|exact Ha]. rewrite <- Hq. unfold qsm_ready_for_gc. rewrite Hr. done.
Qed.

(** A send part that moves on while it still has its buffer. *)
Lemma send_move_ok (server : bool) (s : QUIC_STREAM) (st : sstream_state) (n : Z) : stream_ok server s -> ossl_quic_stream_has_send_buffer s = true ->
  st = QUIC_SSTREAM_STATE_SEND /\ qs_send_state s = QUIC_SSTREAM_STATE_READY \/ st = QUIC_SSTREAM_STATE_DATA_SENT ->
  stream_ok server (s <| qs_send_final_size := n |> <| qs_send_state := st |>).
Proof.
  intros Ho Hb Hst. assert (Hne : qs_send_state s <> QUIC_SSTREAM_STATE_NONE) by (intros He; unfold ossl_quic_stream_has_send_buffer in Hb; by rewrite He in Hb).
  assert (Hg : qs_ready_for_gc s = false).
  { apply (not_ready _ _ Ho); [by apply has_send_intro|intros He; unfold ossl_quic_stream_has_send_buffer in Hb; by rewrite He in Hb..]. }
  pose proof (sk_send _ _ Ho) as Hsend. rewrite (has_send_intro _ Hne) in Hsend.
  assert (Hss : is_Some (qs_sstream s)) by (by apply (sk_sstream _ _ Ho)).
  assert (Hwr : qs_want_reset_stream s = true -> False).
  { intros Hw%(sk_want_reset _ _ Ho). unfold ossl_quic_stream_send_is_reset, ossl_quic_stream_has_send_buffer in *. by destruct (qs_send_state s). }
  keep_clauses Ho; cbn.
  - destruct Hst as [[-> _]| ->]; by split.
  - change (can_send _) with (can_send s). rewrite <- Hsend. unfold ossl_quic_stream_has_send. cbn. by destruct Hst as [[-> _]| ->].
  - intros _. destruct Hst as [[-> _]| ->]; [by left|by right].
  - by rewrite Hg.
  - intros []%Hwr.
  - intros Hd. destruct Hst as [[-> Hr]| ->]; [|right; right; by eexists].
    destruct (sk_deleted _ _ Ho Hd) as [H|[H|[x H]]]; unfold ossl_quic_stream_has_send, ossl_quic_stream_send_is_reset, ossl_quic_stream_send_get_final_size in H; rewrite Hr in H; done.
Qed.

(** A receive part that moves on. *)
Lemma recv_move_ok (server : bool) (s : QUIC_STREAM) (r : rstream_state) (want : bool) (rs : option QUIC_RSTREAM) :
  stream_ok server s -> qs_recv_state s <> QUIC_RSTREAM_STATE_NONE -> r <> QUIC_RSTREAM_STATE_NONE -> r <> QUIC_RSTREAM_STATE_RECV ->
  is_Some (ossl_quic_rxfc_get_final_size (qs_rxfc s)) ->
  let s' := s <| qs_recv_state := r |> <| qs_want_stop_sending := want |> <| qs_rstream := rs |> in
  (is_Some rs <-> ossl_quic_stream_has_recv_buffer s' = true) -> (want = true -> qs_want_stop_sending s = true /\ wants_peer_data r = true) -> stream_ok server s'.
Proof.
  intros Ho Hne Hr Hr' Hf s' Hrs Hw. assert (Hh : ossl_quic_stream_has_recv s = true) by (by apply bool_decide_eq_true).
  pose proof (sk_recv _ _ Ho) as Hrecv. rewrite Hh in Hrecv. assert (Hh' : ossl_quic_stream_has_recv s' = true) by (by apply bool_decide_eq_true).
  keep_clauses Ho.
  - exact Hrs.
  - by rewrite Hh'.
  - intros Hg. destruct (sk_gc _ _ Ho Hg) as [Hq Ha]. split; [|exact Ha]. rewrite <- Hq. unfold qsm_ready_for_gc. by rewrite Hh, Hh'.
  - intros [H1 H2]%Hw. split; [|exact H2]. by apply (sk_want_stop _ _ Ho).
  - intros _ _. exact Hf.
Qed.

(** ** The operations on one stream *)

Section Ops.
Context (env : qsm_env) (q : QUIC_STREAM_MAP) (id : Z) (s : QUIC_STREAM).
Context (Hq : qsm_wf q) (Hs : qsm_map q !! id = Some s) (Ho : stream_ok (qsm_is_server q) s).

Lemma no_move : quiet q id s q.
Proof using Hq Hs. split; [|done]. split; auto. by rewrite insert_id. Qed.

(** An update of the stream's members, then what a further operation does to it. *)
Lemma upd_then (P : QUIC_STREAM_MAP -> Prop) (f : QUIC_STREAM -> QUIC_STREAM) :
  same_slot s (f s) ->
  (forall q1, qsm_wf q1 -> qsm_map q1 !! id = Some (f s) -> qsm_is_server q1 = qsm_is_server q -> quiet q id (f s) q1 -> P q1) ->
  P (qsm_upd q id f).
Proof using Hq Hs.
  intros Hf Hop. pose proof (upd_moved q id s Hq Hs f Hf) as Hm.
  apply Hop; [exact (mv_wf _ _ _ _ Hm)|exact (moved_lookup _ _ _ _ Hm)|exact (mv_server _ _ _ _ Hm)|by split].
Qed.

Lemma notify_totally_acked_moved : qs_send_state s = QUIC_SSTREAM_STATE_DATA_SENT ->
  exists q', ossl_quic_stream_map_notify_totally_acked q id = Some (q', true) /\
    quiet q id (data_recvd s) q'.
Proof using Hq Hs.
  intros Hst. unfold ossl_quic_stream_map_notify_totally_acked. rewrite Hs. cbn [mbind option_bind]. rewrite Hst.
  apply (upd_then (fun q1 => exists q', (q2 ← shutdown_flush_done q1 id; Some (q2, true)) = Some (q', true) /\ quiet q id _ q')); [done|].
  intros q1 Hq1 Hs1 _ M1. destruct (flush_done_moved q1 id _ Hq1 Hs1) as (q' & -> & M2). exists q'. split; [done|].
  exact (quiet_trans _ _ _ _ _ _ M1 M2).
Qed.

Lemma update_acked_moved : exists q', update_acked q id = Some q' /\ quiet q id (acked_checked s) q'.
Proof using Hq Hs Ho.
  unfold update_acked, acked_checked. rewrite Hs. cbn [mbind option_bind].
  destruct (qs_send_state s) eqn:Est; try (exists q; split; [done|]; pose proof no_move; by destruct (qs_sstream s)).
  - destruct (buffer_of _ _ Ho) as [ss Hss]; [unfold ossl_quic_stream_has_send_buffer; by rewrite Est|]. rewrite Hss. cbn [mbind option_bind].
    destruct (qs_shutdown_flush s); cbn [andb]; [|exists q; split; [done|apply no_move]].
    destruct (ossl_quic_sstream_is_totally_acked ss); [|exists q; split; [done|apply no_move]]. exact (flush_done_moved q id s Hq Hs).
  - destruct (buffer_of _ _ Ho) as [ss Hss]; [unfold ossl_quic_stream_has_send_buffer; by rewrite Est|]. rewrite Hss. cbn [mbind option_bind].
    destruct (ossl_quic_sstream_is_totally_acked ss); [|exists q; split; [done|apply no_move]].
    destruct (notify_totally_acked_moved Est) as (q' & -> & Hm). by exists q'.
Qed.

Lemma should_be_active_some (s1 : QUIC_STREAM) (b : bool) : (ossl_quic_stream_has_send_buffer s1 = true -> is_Some (qs_sstream s1)) ->
  exists a, should_be_active env s1 b = Some a.
Proof.
  intros Hb. unfold should_be_active, stream_has_data_to_send. repeat (destruct (_ || _) || destruct (negb _)); try (by eexists); destruct (qs_peer_stop_sending s1); try (by eexists).
  all: unfold ossl_quic_stream_has_send_buffer in Hb; destruct (qs_send_state s1); try (by eexists).
  all: destruct (Hb eq_refl) as [ss ->]; cbn [mbind option_bind]; destruct (ossl_quic_sstream_get_stream_frame ss 0 2) as [[h iov]|]; by eexists.
Qed.

(** [update_state] leaves the stream as [updated] says, and its place in the active list
    follows: unchanged, new at the end, or gone. *)
Lemma update_state_moved : exists q', ossl_quic_stream_map_update_state env q id = Some q' /\ moved q id (updated env (qsm_is_server q) s) q' /\
  active_list q' = if qs_active (updated env (qsm_is_server q) s) then if qs_active s then active_list q else active_list q ++ [id]
                   else without id (active_list q).
Proof using Hq Hs Ho.
  unfold ossl_quic_stream_map_update_state. rewrite Hs. cbn [mbind option_bind].
  destruct update_acked_moved as (q1 & -> & M1). cbn [mbind option_bind].
  destruct (update_gc_moved q1 id _ (mv_wf _ _ _ _ (proj1 M1)) (moved_lookup _ _ _ _ (proj1 M1))) as (q2 & -> & M2). cbn [mbind option_bind].
  destruct (quiet_trans _ _ _ _ _ _ M1 M2) as [M Hl]. rewrite (moved_lookup _ _ _ _ M). cbn [mbind option_bind].
  fold (limit_allows env (qsm_is_server q) s). fold (before_activation s) in *. set (b := limit_allows env (qsm_is_server q) s).
  destruct (should_be_active_some (before_activation s) b) as (a & Ha); [exact (proj2 (sk_sstream _ _ (acked_checked_ok _ _ Ho)))|].
  unfold updated. fold b. rewrite Ha. cbn [mbind option_bind default]. pose proof (mv_wf _ _ _ _ M) as Hq2. pose proof (moved_lookup _ _ _ _ M) as Hs2.
  assert (Hact : qs_active (before_activation s) = qs_active s).
  { unfold before_activation, gc_checked, acked_checked. cbn. by repeat case_match. }
  destruct a.
  - destruct (mark_active_moved q2 id _ Hq2 Hs2) as (q3 & -> & M3 & L3). exists q3. split; [done|]. split; [by eapply moved_trans|]. by rewrite L3, Hact, Hl.
  - destruct (mark_inactive_moved q2 id _ Hq2 Hs2) as (q3 & -> & M3 & L3). exists q3. split; [done|]. split; [by eapply moved_trans|]. by rewrite L3, Hl.
Qed.
End Ops.

(** ** The state machines of RFC 9000, sections 3.1 and 3.2 *)

Inductive send_edge : sstream_state -> sstream_state -> Prop :=
| se_start : send_edge QUIC_SSTREAM_STATE_READY QUIC_SSTREAM_STATE_SEND
| se_sent : send_edge QUIC_SSTREAM_STATE_SEND QUIC_SSTREAM_STATE_DATA_SENT
| se_acked : send_edge QUIC_SSTREAM_STATE_DATA_SENT QUIC_SSTREAM_STATE_DATA_RECVD
| se_reset_ready : send_edge QUIC_SSTREAM_STATE_READY QUIC_SSTREAM_STATE_RESET_SENT
| se_reset_send : send_edge QUIC_SSTREAM_STATE_SEND QUIC_SSTREAM_STATE_RESET_SENT
| se_reset_sent : send_edge QUIC_SSTREAM_STATE_DATA_SENT QUIC_SSTREAM_STATE_RESET_SENT
| se_reset_acked : send_edge QUIC_SSTREAM_STATE_RESET_SENT QUIC_SSTREAM_STATE_RESET_RECVD.

Inductive recv_edge : rstream_state -> rstream_state -> Prop :=
| re_fin : recv_edge QUIC_RSTREAM_STATE_RECV QUIC_RSTREAM_STATE_SIZE_KNOWN
| re_all : recv_edge QUIC_RSTREAM_STATE_SIZE_KNOWN QUIC_RSTREAM_STATE_DATA_RECVD
| re_read : recv_edge QUIC_RSTREAM_STATE_DATA_RECVD QUIC_RSTREAM_STATE_DATA_READ
| re_reset_recv : recv_edge QUIC_RSTREAM_STATE_RECV QUIC_RSTREAM_STATE_RESET_RECVD
| re_reset_known : recv_edge QUIC_RSTREAM_STATE_SIZE_KNOWN QUIC_RSTREAM_STATE_RESET_RECVD
| re_reset_data : recv_edge QUIC_RSTREAM_STATE_DATA_RECVD QUIC_RSTREAM_STATE_RESET_RECVD
| re_reset_read : recv_edge QUIC_RSTREAM_STATE_RESET_RECVD QUIC_RSTREAM_STATE_RESET_READ.

Create HintDb stream_map.
#[export] Hint Constructors send_edge recv_edge : stream_map.
#[export] Hint Resolve rtc_once : stream_map.
#[export] Hint Extern 0 (rtc _ ?x ?x) => apply rtc_refl : stream_map.

(** The final size of the send part may be on the wire. *)
Definition send_size_fixed (st : sstream_state) : bool :=
  match st with
  | QUIC_SSTREAM_STATE_NONE | QUIC_SSTREAM_STATE_READY | QUIC_SSTREAM_STATE_SEND => false
  | _ => true
  end.

(** How a stream may change. *)
Record evolves (s s' : QUIC_STREAM) : Prop := {
  ev_id : qs_id s' = qs_id s /\ qs_type s' = qs_type s /\ qs_as_server s' = qs_as_server s;
  ev_send : rtc send_edge (qs_send_state s) (qs_send_state s');
  ev_recv : rtc recv_edge (qs_recv_state s) (qs_recv_state s');
  ev_size : send_size_fixed (qs_send_state s) = true -> qs_send_final_size s' = qs_send_final_size s;
  ev_stop : qs_stop_sending s = true -> qs_stop_sending s' = true /\ qs_stop_sending_aec s' = qs_stop_sending_aec s;
  ev_new_stop : qs_stop_sending s' = true -> qs_stop_sending s = true \/ wants_peer_data (qs_recv_state s) = true;
  ev_deleted : qs_deleted s = true -> qs_deleted s' = true;
  ev_gc : qs_ready_for_gc s = true -> qs_ready_for_gc s' = true }.

Lemma evolves_refl (s : QUIC_STREAM) : evolves s s.
Proof. split; auto with stream_map. Qed.

Lemma send_size_fixed_path (a b : sstream_state) : rtc send_edge a b -> send_size_fixed a = true -> send_size_fixed b = true.
Proof. induction 1 as [|a b c He _ IH]; [done|]. intros Ha. apply IH. by destruct He. Qed.

Lemma wants_peer_data_path (a b : rstream_state) : rtc recv_edge a b -> wants_peer_data b = true -> wants_peer_data a = true.
Proof. induction 1 as [|a b c He _ IH]; [done|]. intros Ha%IH. by destruct He. Qed.

Lemma evolves_trans (s1 s2 s3 : QUIC_STREAM) : evolves s1 s2 -> evolves s2 s3 -> evolves s1 s3.
Proof.
  intros [(A1 & A1' & A1'') A2 A3 A4 A5 A6 A7 A8] [(B1 & B1' & B1'') B2 B3 B4 B5 B6 B7 B8]. split; auto.
  - split_and!; congruence.
  - by etrans.
  - by etrans.
  - intros Hf. rewrite B4; [by apply A4|by eapply send_size_fixed_path].
  - intros Hst. destruct (A5 Hst) as [H1 H2]. destruct (B5 H1). split; congruence.
  - intros [H|H]%B6; [by apply A6|]. right. by eapply wants_peer_data_path.
Qed.

Lemma data_recvd_evolves (s : QUIC_STREAM) : qs_send_state s = QUIC_SSTREAM_STATE_DATA_SENT -> evolves s (data_recvd s).
Proof. intros Est. split; cbn; rewrite ?Est; auto with stream_map. Qed.

Lemma acked_checked_evolves (s : QUIC_STREAM) : evolves s (acked_checked s).
Proof.
  unfold acked_checked. destruct (qs_sstream s) as [ss|], (qs_send_state s) eqn:Est; try apply evolves_refl.
  - destruct (_ && _); [|apply evolves_refl]. split; cbn; auto with stream_map.
  - destruct (ossl_quic_sstream_is_totally_acked ss); [|apply evolves_refl]. by apply data_recvd_evolves.
Qed.

Lemma updated_evolves (env : qsm_env) (server : bool) (s : QUIC_STREAM) : evolves s (updated env server s).
Proof.
  eapply evolves_trans; [apply acked_checked_evolves|]. unfold updated, before_activation. set (s1 := acked_checked s).
  split; cbn; auto with stream_map. by intros ->.
Qed.

Lemma reset_sent_evolves (aec : Z) (s : QUIC_STREAM) : ossl_quic_stream_has_send_buffer s = true -> evolves s (reset_sent aec s).
Proof.
  intros Hb. unfold ossl_quic_stream_has_send_buffer in Hb. unfold reset_sent.
  split; destruct (qs_send_state s) eqn:Est; try done; cbn; rewrite ?Est; auto with stream_map.
Qed.

Lemma recv_reset_evolves (aec : Z) (s : QUIC_STREAM) : ossl_quic_stream_has_recv_buffer s = true -> evolves s (recv_reset aec s).
Proof.
  intros Hb. unfold ossl_quic_stream_has_recv_buffer in Hb. unfold recv_reset.
  split; destruct (qs_recv_state s) eqn:Est; try done; cbn; auto with stream_map.
Qed.

(** ** Each operation keeps the stream in order *)

(** A result of an operation on the stream [id]. *)
Definition good_move (q : QUIC_STREAM_MAP) (id : Z) (s : QUIC_STREAM) (q' : QUIC_STREAM_MAP) : Prop :=
  exists s', moved q id s' q' /\ stream_ok (qsm_is_server q) s' /\ evolves s s'.

Section Good.
Context (env : qsm_env) (q : QUIC_STREAM_MAP) (id : Z) (s : QUIC_STREAM).
Context (Hq : qsm_wf q) (Hs : qsm_map q !! id = Some s) (Ho : stream_ok (qsm_is_server q) s).

Lemma good_stay : good_move q id s q.
Proof using Hq Hs Ho. exists s. split; [by apply no_move|]. split; [done|apply evolves_refl]. Qed.

Lemma good_upd (f : QUIC_STREAM -> QUIC_STREAM) : same_slot s (f s) -> stream_ok (qsm_is_server q) (f s) -> evolves s (f s) ->
  good_move q id s (qsm_upd q id f).
Proof using Hq Hs. intros. exists (f s). split; [|done]. by apply upd_moved. Qed.

Lemma update_state_good : exists q', ossl_quic_stream_map_update_state env q id = Some q' /\ good_move q id s q'.
Proof using Hq Hs Ho.
  destruct (update_state_moved env q id s Hq Hs Ho) as (q' & -> & Hm & _). exists q'. split; [done|]. eexists. split; [exact Hm|].
  split; [by apply updated_ok|apply updated_evolves].
Qed.
End Good.

Lemma good_trans (q q1 q2 : QUIC_STREAM_MAP) (id : Z) (s s1 : QUIC_STREAM) : moved q id s1 q1 -> evolves s s1 -> good_move q1 id s1 q2 -> good_move q id s q2.
Proof.
  intros Hm He (s2 & Hm2 & Ho2 & He2). exists s2. rewrite (mv_server _ _ _ _ Hm) in Ho2. split; [by eapply moved_trans|]. split; [done|by eapply evolves_trans].
Qed.

Section GoodOps.
Context (env : qsm_env) (q : QUIC_STREAM_MAP) (id : Z) (s : QUIC_STREAM).
Context (Hq : qsm_wf q) (Hs : qsm_map q !! id = Some s) (Ho : stream_ok (qsm_is_server q) s).

(** An operation that changes the stream's members and updates its state. *)
Lemma upd_update_good (f : QUIC_STREAM -> QUIC_STREAM) : same_slot s (f s) -> stream_ok (qsm_is_server q) (f s) -> evolves s (f s) ->
  exists q', ossl_quic_stream_map_update_state env (qsm_upd q id f) id = Some q' /\ good_move q id s q'.
Proof using Hq Hs.
  intros Hf Hof He. apply (upd_then q id s Hq Hs (fun q1 => exists q', ossl_quic_stream_map_update_state env q1 id = Some q' /\ good_move q id s q') f Hf).
  intros q1 Hq1 Hs1 Hsv [Hm _]. rewrite <- Hsv in Hof. destruct (update_state_good env q1 id _ Hq1 Hs1 Hof) as (q' & -> & Hg). exists q'.
  split; [done|]. by eapply good_trans.
Qed.

Lemma totally_acked_good : exists q' b, ossl_quic_stream_map_notify_totally_acked q id = Some (q', b) /\ good_move q id s q'.
Proof using Hq Hs Ho.
  destruct (decide (qs_send_state s = QUIC_SSTREAM_STATE_DATA_SENT)) as [Est|Hne].
  - destruct (notify_totally_acked_moved q id s Hq Hs Est) as (q' & -> & Hm & _). exists q', true. split; [done|]. eexists. split; [exact Hm|].
    split; [by apply data_recvd_ok|by apply data_recvd_evolves].
  - exists q, false. split; [|by apply good_stay]. unfold ossl_quic_stream_map_notify_totally_acked. rewrite Hs. cbn [mbind option_bind]. by destruct (qs_send_state s).
Qed.

Lemma ensure_id_good : exists q' b, ossl_quic_stream_map_ensure_send_part_id q id = Some (q', b) /\ good_move q id s q'.
Proof using Hq Hs Ho.
  unfold ossl_quic_stream_map_ensure_send_part_id. rewrite Hs. cbn [mbind option_bind].
  destruct (qs_send_state s) eqn:Est; try (do 2 eexists; split; [done|by apply good_stay]).
  do 2 eexists. split; [done|]. apply good_upd; auto; [done| |split; cbn; rewrite ?Est; auto with stream_map].
  pose proof (send_move_ok _ s QUIC_SSTREAM_STATE_SEND (qs_send_final_size s) Ho) as H. unfold ossl_quic_stream_has_send_buffer in H. rewrite Est in H.
  specialize (H eq_refl (or_introl (conj eq_refl eq_refl))). by destruct s.
Qed.

Lemma all_data_sent_good : exists q' b, ossl_quic_stream_map_notify_all_data_sent q id = Some (q', b) /\ good_move q id s q'.
Proof using Hq Hs Ho.
  unfold ossl_quic_stream_map_notify_all_data_sent. rewrite Hs. cbn [mbind option_bind].
  destruct (qs_send_state s) eqn:Est; try (do 2 eexists; split; [done|by apply good_stay]).
  assert (Hb : ossl_quic_stream_has_send_buffer s = true) by (unfold ossl_quic_stream_has_send_buffer; by rewrite Est).
  destruct (buffer_of _ _ Ho Hb) as [ss ->]. cbn [mbind option_bind].
  destruct (ossl_quic_sstream_get_final_size ss) as [n|]; do 2 eexists; (split; [done|]); [|by apply good_stay].
  apply good_upd; auto; [done|apply send_move_ok; auto|split; cbn; rewrite ?Est; auto with stream_map]. done.
Qed.

Lemma reset_from_good (q1 : QUIC_STREAM_MAP) (s1 : QUIC_STREAM) (aec : Z) : qsm_wf q1 -> qsm_map q1 !! id = Some s1 ->
  let s' := s1 <| qs_reset_stream_aec := aec |> <| qs_want_reset_stream := true |> <| qs_send_state := QUIC_SSTREAM_STATE_RESET_SENT |>
               <| qs_sstream := None |> <| qs_shutdown_flush := false |> in
  stream_ok (qsm_is_server q1) s' -> exists q' , reset_from_data_sent env q1 id aec = Some (q', true) /\
    exists q2, moved q1 id s' q2 /\ good_move q2 id s' q'.
Proof.
  intros Hq1 Hs1 s' Ho1. unfold reset_from_data_sent.
  apply (upd_then q1 id s1 Hq1 Hs1 (fun q2 => exists q', (q3 ← shutdown_flush_done q2 id; q4 ← ossl_quic_stream_map_update_state env q3 id; Some (q4, true)) = Some (q', true) /\
    exists q2, moved q1 id s' q2 /\ good_move q2 id s' q')); [done|].
  intros q2 Hq2 Hs2 _ [M2 _]. destruct (flush_done_moved q2 id _ Hq2 Hs2) as (q3 & -> & M3 & _). cbn [mbind option_bind].
  pose proof (moved_trans _ _ _ _ _ _ M2 M3) as M. rewrite <- (mv_server _ _ _ _ M) in Ho1.
  destruct (update_state_good env q3 id s' (mv_wf _ _ _ _ M) (moved_lookup _ _ _ _ M) Ho1) as (q4 & -> & Hg). exists q4. split; [done|]. by exists q3.
Qed.

Lemma reset_send_good (aec : Z) : exists q' b, ossl_quic_stream_map_reset_stream_send_part env q id aec = Some (q', b) /\ good_move q id s q'.
Proof using Hq Hs Ho.
  unfold ossl_quic_stream_map_reset_stream_send_part. rewrite Hs. cbn [mbind option_bind].
  destruct (ossl_quic_stream_has_send_buffer s) eqn:Hb.
  2:{ unfold ossl_quic_stream_has_send_buffer in Hb. destruct (qs_send_state s); try done; do 2 eexists; (split; [done|by apply good_stay]). }
  pose proof (reset_sent_ok _ aec _ Ho Hb) as Hro. pose proof (reset_sent_evolves aec _ Hb) as Hre.
  unfold ossl_quic_stream_has_send_buffer in Hb. unfold reset_sent in Hro, Hre. destruct (qs_send_state s) eqn:Est; try done.
  - unfold ossl_quic_stream_map_ensure_send_part_id. rewrite Hs. cbn [mbind option_bind]. rewrite Est. cbn [mbind option_bind]. unfold reset_from_send.
    set (f := fun s => s <| qs_send_state := QUIC_SSTREAM_STATE_SEND |>).
    pose proof (upd_moved q id s Hq Hs f ltac:(done)) as M1.
    pose proof (upd_moved _ id _ (mv_wf _ _ _ _ M1) (moved_lookup _ _ _ _ M1) (fun s => s <| qs_send_final_size := ossl_quic_txfc_get_swm (qs_txfc s) |>) ltac:(done)) as M2.
    pose proof (moved_trans _ _ _ _ _ _ M1 M2) as M. rewrite <- (mv_server _ _ _ _ M) in Hro.
    destruct (reset_from_good _ _ aec (mv_wf _ _ _ _ M) (moved_lookup _ _ _ _ M) Hro) as (q' & -> & q2 & M3 & Hg). do 2 eexists. split; [done|].
    eapply good_trans; [by eapply moved_trans| |exact Hg]. exact Hre.
  - unfold reset_from_send.
    pose proof (upd_moved q id s Hq Hs (fun s => s <| qs_send_final_size := ossl_quic_txfc_get_swm (qs_txfc s) |>) ltac:(done)) as M.
    rewrite <- (mv_server _ _ _ _ M) in Hro.
    destruct (reset_from_good _ _ aec (mv_wf _ _ _ _ M) (moved_lookup _ _ _ _ M) Hro) as (q' & -> & q2 & M3 & Hg). do 2 eexists. split; [done|].
    eapply good_trans; [by eapply moved_trans| |exact Hg]. exact Hre.
  - destruct (reset_from_good _ _ aec Hq Hs Hro) as (q' & -> & q2 & M3 & Hg). do 2 eexists. split; [done|]. by eapply good_trans.
Qed.

Lemma reset_acked_good : exists q' b, ossl_quic_stream_map_notify_reset_stream_acked q id = Some (q', b) /\ good_move q id s q'.
Proof using Hq Hs Ho.
  unfold ossl_quic_stream_map_notify_reset_stream_acked. rewrite Hs. cbn [mbind option_bind].
  destruct (qs_send_state s) eqn:Est; try (do 2 eexists; split; [done|by apply good_stay]).
  do 2 eexists. split; [done|]. apply good_upd; auto; [done| |split; cbn; rewrite ?Est; auto with stream_map].
  assert (Hh : ossl_quic_stream_has_send s = true) by (apply has_send_intro; by rewrite Est).
  assert (Hg : qs_ready_for_gc s = false) by (apply (not_ready _ _ Ho Hh); by rewrite Est).
  pose proof (sk_send _ _ Ho) as Hsend. rewrite Hh in Hsend. keep_clauses Ho; cbn.
  - rewrite (sk_sstream _ _ Ho). unfold ossl_quic_stream_has_send_buffer. cbn. by rewrite Est.
  - exact Hsend.
  - intros Hf. destruct (sk_flush _ _ Ho Hf); congruence.
  - by rewrite Hg.
  - done.
  - intros _. by right; left.
Qed.
End GoodOps.

Section GoodRecvOps.
Context (env : qsm_env) (q : QUIC_STREAM_MAP) (id : Z) (s : QUIC_STREAM).
Context (Hq : qsm_wf q) (Hs : qsm_map q !! id = Some s) (Ho : stream_ok (qsm_is_server q) s).

(** An operation on the receive part that does nothing but move it on. *)
Lemma recv_move_good (r : rstream_state) (want : bool) (rs : option QUIC_RSTREAM) (f : QUIC_STREAM -> QUIC_STREAM) :
  f s = s <| qs_recv_state := r |> <| qs_want_stop_sending := want |> <| qs_rstream := rs |> ->
  recv_edge (qs_recv_state s) r -> is_Some (ossl_quic_rxfc_get_final_size (qs_rxfc s)) ->
  (is_Some rs <-> ossl_quic_stream_has_recv_buffer (s <| qs_recv_state := r |>) = true) ->
  (want = true -> qs_want_stop_sending s = true /\ wants_peer_data r = true) -> good_move q id s (qsm_upd q id f).
Proof using Hq Hs Ho.
  intros Hf He Hfin Hrs Hw. apply good_upd; auto; rewrite Hf; [done| |by split; cbn; auto with stream_map].
  apply recv_move_ok; auto; by destruct He.
Qed.

Lemma size_known_good (n : Z) : is_Some (ossl_quic_rxfc_get_final_size (qs_rxfc s)) ->
  exists q' b, ossl_quic_stream_map_notify_size_known_recv_part q id n = Some (q', b) /\ good_move q id s q'.
Proof using Hq Hs Ho.
  intros Hf. unfold ossl_quic_stream_map_notify_size_known_recv_part. rewrite Hs. cbn [mbind option_bind].
  destruct (qs_recv_state s) eqn:Est; try (do 2 eexists; split; [done|by apply good_stay]). do 2 eexists. split; [done|].
  apply (recv_move_good QUIC_RSTREAM_STATE_SIZE_KNOWN (qs_want_stop_sending s) (qs_rstream s)); rewrite ?Est; auto with stream_map.
  rewrite (sk_rstream _ _ Ho). unfold ossl_quic_stream_has_recv_buffer. cbn. by rewrite Est.
Qed.

Lemma recv_final_known : qs_recv_state s <> QUIC_RSTREAM_STATE_NONE -> qs_recv_state s <> QUIC_RSTREAM_STATE_RECV ->
  is_Some (ossl_quic_rxfc_get_final_size (qs_rxfc s)).
Proof using Ho. apply (sk_final _ _ Ho). Qed.

Lemma totally_received_good : exists q' b, ossl_quic_stream_map_notify_totally_received q id = Some (q', b) /\ good_move q id s q'.
Proof using Hq Hs Ho.
  unfold ossl_quic_stream_map_notify_totally_received. rewrite Hs. cbn [mbind option_bind].
  destruct (qs_recv_state s) eqn:Est; try (do 2 eexists; split; [done|by apply good_stay]). do 2 eexists. split; [done|].
  apply (recv_move_good QUIC_RSTREAM_STATE_DATA_RECVD false (qs_rstream s)); rewrite ?Est; auto with stream_map; [by apply recv_final_known; rewrite Est| |done].
  rewrite (sk_rstream _ _ Ho). unfold ossl_quic_stream_has_recv_buffer. cbn. by rewrite Est.
Qed.

(** STOP_SENDING is not wanted any more once the data has arrived. *)
Lemma no_want_stop : wants_peer_data (qs_recv_state s) = false -> qs_want_stop_sending s = false.
Proof using Ho. intros Hw. destruct (qs_want_stop_sending s) eqn:E; [|done]. destruct (sk_want_stop _ _ Ho E). congruence. Qed.

Lemma totally_read_good : exists q' b, ossl_quic_stream_map_notify_totally_read q id = Some (q', b) /\ good_move q id s q'.
Proof using Hq Hs Ho.
  unfold ossl_quic_stream_map_notify_totally_read. rewrite Hs. cbn [mbind option_bind].
  destruct (qs_recv_state s) eqn:Est; try (do 2 eexists; split; [done|by apply good_stay]). do 2 eexists. split; [done|].
  apply (recv_move_good QUIC_RSTREAM_STATE_DATA_READ (qs_want_stop_sending s) None); rewrite ?Est; auto with stream_map;
    [by apply recv_final_known; rewrite Est|split; [by intros []|done]|rewrite no_want_stop by (by rewrite Est); done].
Qed.

Lemma reset_recv_good (aec n : Z) : is_Some (ossl_quic_rxfc_get_final_size (qs_rxfc s)) ->
  exists q' b, ossl_quic_stream_map_notify_reset_recv_part env q id aec n = Some (q', b) /\ good_move q id s q'.
Proof using Hq Hs Ho.
  intros Hf. unfold ossl_quic_stream_map_notify_reset_recv_part. rewrite Hs. cbn [mbind option_bind].
  destruct (ossl_quic_stream_has_recv_buffer s) eqn:Hb.
  2:{ unfold ossl_quic_stream_has_recv_buffer in Hb. destruct (qs_recv_state s); try done; do 2 eexists; (split; [done|by apply good_stay]). }
  destruct (upd_update_good env q id s Hq Hs (recv_reset aec) ltac:(done) (recv_reset_ok _ aec _ Ho Hb Hf) (recv_reset_evolves aec _ Hb)) as (q' & Hq' & Hg).
  unfold ossl_quic_stream_has_recv_buffer in Hb.
  destruct (qs_recv_state s) eqn:Est; try done;
    (destruct (match ossl_quic_stream_recv_get_final_size s with Some prev => negb (prev =? n) | None => false end); [do 2 eexists; split; [done|by apply good_stay]|]);
    unfold recv_reset in Hq'; rewrite Hq'; cbn [mbind option_bind]; eauto.
Qed.

Lemma app_read_reset_good : exists q' b, ossl_quic_stream_map_notify_app_read_reset_recv_part q id = Some (q', b) /\ good_move q id s q'.
Proof using Hq Hs Ho.
  unfold ossl_quic_stream_map_notify_app_read_reset_recv_part. rewrite Hs. cbn [mbind option_bind].
  destruct (qs_recv_state s) eqn:Est; try (do 2 eexists; split; [done|by apply good_stay]). do 2 eexists. split; [done|].
  apply (recv_move_good QUIC_RSTREAM_STATE_RESET_READ (qs_want_stop_sending s) (qs_rstream s)); rewrite ?Est; auto with stream_map;
    [by apply recv_final_known; rewrite Est| |rewrite no_want_stop by (by rewrite Est); done].
  rewrite (sk_rstream _ _ Ho). unfold ossl_quic_stream_has_recv_buffer. cbn. by rewrite Est.
Qed.

Lemma schedule_stop_good : exists q' b, ossl_quic_stream_map_schedule_stop_sending env q id = Some (q', b) /\ good_move q id s q'.
Proof using Hq Hs Ho.
  unfold ossl_quic_stream_map_schedule_stop_sending. rewrite Hs. cbn [mbind option_bind].
  destruct (qs_stop_sending s) eqn:Ess; cbn [negb]; [|do 2 eexists; split; [done|by apply good_stay]].
  destruct (qs_want_stop_sending s); [do 2 eexists; split; [done|by apply good_stay]|].
  destruct (wants_peer_data (qs_recv_state s)) eqn:Hw.
  2:{ destruct (qs_recv_state s); try done; do 2 eexists; (split; [done|by apply good_stay]). }
  destruct (upd_update_good env q id s Hq Hs (fun s => s <| qs_want_stop_sending := true |>)) as (q' & Hq' & Hg); [done|by keep_clauses Ho|by split; cbn; auto with stream_map|].
  destruct (qs_recv_state s); try done; rewrite Hq'; cbn [mbind option_bind]; eauto.
Qed.
End GoodRecvOps.

Lemma stop_sending_good (env : qsm_env) (q : QUIC_STREAM_MAP) (id aec : Z) (s : QUIC_STREAM) :
  qsm_wf q -> qsm_map q !! id = Some s -> stream_ok (qsm_is_server q) s ->
  exists q' b, ossl_quic_stream_map_stop_sending_recv_part env q id aec = Some (q', b) /\ good_move q id s q'.
Proof.
  intros Hq Hs Ho. unfold ossl_quic_stream_map_stop_sending_recv_part. rewrite Hs. cbn [mbind option_bind].
  destruct (qs_stop_sending s) eqn:Ess; [do 2 eexists; split; [done|by apply good_stay]|].
  destruct (wants_peer_data (qs_recv_state s)) eqn:Hw.
  2:{ destruct (qs_recv_state s); try done; do 2 eexists; (split; [done|by apply good_stay]). }
  set (f := fun s => s <| qs_stop_sending := true |> <| qs_stop_sending_aec := aec |>).
  assert (Hof : stream_ok (qsm_is_server q) (f s)).
  { keep_clauses Ho; [|done]. intros H%(sk_want_stop _ _ Ho). by destruct H. }
  assert (Hef : evolves s (f s)) by (split; cbn; rewrite ?Ess; auto with stream_map; done).
  pose proof (upd_moved q id s Hq Hs f ltac:(done)) as M. rewrite <- (mv_server _ _ _ _ M) in Hof.
  destruct (schedule_stop_good env _ id _ (mv_wf _ _ _ _ M) (moved_lookup _ _ _ _ M) Hof) as (q' & b & Hq' & Hg).
  exists q', b. split; [destruct (qs_recv_state s); done|]. by eapply good_trans.
Qed.

(** ** The map as a whole *)

Record qsm_ok (q : QUIC_STREAM_MAP) : Prop := {
  ok_wf : qsm_wf q;
  ok_streams : map_Forall (fun _ => stream_ok (qsm_is_server q)) (qsm_map q) }.

(** Every stream is still there and has only changed as [evolves] allows. *)
Definition all_evolve (q q' : QUIC_STREAM_MAP) : Prop :=
  forall i s, qsm_map q !! i = Some s -> exists s', qsm_map q' !! i = Some s' /\ evolves s s'.

Lemma all_evolve_refl (q : QUIC_STREAM_MAP) : all_evolve q q.
Proof. intros i s Hs. exists s. split; [done|apply evolves_refl]. Qed.

Lemma all_evolve_trans (q1 q2 q3 : QUIC_STREAM_MAP) : all_evolve q1 q2 -> all_evolve q2 q3 -> all_evolve q1 q3.
Proof. intros A B i s Hs. destruct (A i s Hs) as (s2 & Hs2 & E1). destruct (B i s2 Hs2) as (s3 & Hs3 & E2). exists s3. split; [done|by eapply evolves_trans]. Qed.

(** What every operation guarantees. *)
Definition kept (q q' : QUIC_STREAM_MAP) : Prop := qsm_ok q' /\ qsm_is_server q' = qsm_is_server q /\ all_evolve q q'.

Lemma kept_refl (q : QUIC_STREAM_MAP) : qsm_ok q -> kept q q.
Proof. intros. split_and!; [done..|apply all_evolve_refl]. Qed.

Lemma kept_trans (q1 q2 q3 : QUIC_STREAM_MAP) : kept q1 q2 -> kept q2 q3 -> kept q1 q3.
Proof. intros (_ & A2 & A3) (B1 & B2 & B3). split_and!; [done|congruence|by eapply all_evolve_trans]. Qed.

Lemma good_move_kept (q q' : QUIC_STREAM_MAP) (id : Z) (s : QUIC_STREAM) : qsm_ok q -> qsm_map q !! id = Some s -> good_move q id s q' -> kept q q'.
Proof.
  intros [Hq Hok] Hs (s' & Hm & Ho & He). pose proof (mv_map _ _ _ _ Hm) as Hmap. pose proof (mv_server _ _ _ _ Hm) as Hsv. split_and!; [split|done|].
  - exact (mv_wf _ _ _ _ Hm).
  - rewrite Hmap, Hsv. by apply map_Forall_insert_2.
  - intros i t Ht. rewrite Hmap. destruct (decide (i = id)) as [->|Hne].
    + rewrite lookup_insert_eq. exists s'. split; [done|]. by simplify_eq.
    + rewrite lookup_insert_ne by done. exists t. split; [done|apply evolves_refl].
Qed.

(** *** Opening and releasing streams *)

Definition opened (q : QUIC_STREAM_MAP) (id : Z) (ss : option QUIC_SSTREAM) (rs : option QUIC_RSTREAM) (tx : QUIC_TXFC) (rx : QUIC_RXFC) : QUIC_STREAM :=
  (stream_alloc id (Z.land id 3) (qsm_is_server q)) <| qs_sstream := ss |> <| qs_rstream := rs |> <| qs_txfc := tx |> <| qs_rxfc := rx |>.

Lemma insert_new_kept (q : QUIC_STREAM_MAP) (id : Z) (s : QUIC_STREAM) : qsm_ok q -> qsm_map q !! id = None ->
  slot_ok id s -> stream_ok (qsm_is_server q) s -> qs_active s = false -> qs_ready_for_gc s = false -> qs_shutdown_flush s = false ->
  kept q (q <| qsm_map := <[id := s]> (qsm_map q) |>).
Proof.
  intros [[W1 W2 W3 W4 W5 W6 W7 W8 W9] Hok] Hn Hslot Ho Ha Hg Hf. split_and!; [split|done|].
  - split; cbn; auto.
    + by eapply tracks_new.
    + by eapply tracks_new.
    + intros i Hi%W4. by apply lookup_insert_is_Some'; right.
    + by apply map_Forall_insert_2.
    + rewrite W8, msum_insert_new by done. by rewrite Hf.
  - by apply map_Forall_insert_2.
  - intros i t Ht. exists t. cbn. rewrite lookup_insert_ne by congruence. split; [done|apply evolves_refl].
Qed.

Lemma stream_alloc_kinds (id : Z) (server : bool) (s : QUIC_STREAM) : s = stream_alloc id (Z.land id 3) server ->
  can_send s = (eqb (Z.land (Z.land id 3) 1 =? 1) server || id_bidi id) /\ can_recv s = (negb (eqb (Z.land (Z.land id 3) 1 =? 1) server) || id_bidi id) /\
  qs_send_state s = (if can_send s then QUIC_SSTREAM_STATE_READY else QUIC_SSTREAM_STATE_NONE) /\
  qs_recv_state s = (if can_recv s then QUIC_RSTREAM_STATE_RECV else QUIC_RSTREAM_STATE_NONE).
Proof. by intros ->. Qed.

Lemma opened_ok (q : QUIC_STREAM_MAP) (id : Z) (ss : option QUIC_SSTREAM) (rs : option QUIC_RSTREAM) (tx : QUIC_TXFC) (rx : QUIC_RXFC) :
  let s := opened q id ss rs tx rx in (is_Some ss <-> can_send s = true) -> (is_Some rs <-> can_recv s = true) -> stream_ok (qsm_is_server q) s.
Proof.
  intros s Hss Hrs. destruct (stream_alloc_kinds id (qsm_is_server q) _ eq_refl) as (_ & _ & Es & Er).
  change (qs_send_state s = if can_send s then QUIC_SSTREAM_STATE_READY else QUIC_SSTREAM_STATE_NONE) in Es.
  change (qs_recv_state s = if can_recv s then QUIC_RSTREAM_STATE_RECV else QUIC_RSTREAM_STATE_NONE) in Er.
  split; try done.
  - change (qs_sstream s) with ss. rewrite Hss. unfold ossl_quic_stream_has_send_buffer. rewrite Es. by destruct (can_send s).
  - change (qs_rstream s) with rs. rewrite Hrs. unfold ossl_quic_stream_has_recv_buffer. rewrite Er. by destruct (can_recv s).
  - unfold ossl_quic_stream_has_send. rewrite Es. by destruct (can_send s).
  - unfold ossl_quic_stream_has_recv. rewrite Er. by destruct (can_recv s).
  - rewrite Er. by destruct (can_recv s).
Qed.

Lemma release_kept (q : QUIC_STREAM_MAP) (id : Z) (s : QUIC_STREAM) : qsm_ok q -> qsm_map q !! id = Some s ->
  qs_active s = false -> qs_shutdown_flush s = false -> id ∉ accept_list q ->
  exists q', ossl_quic_stream_map_release q id = Some q' /\ qsm_ok q' /\ qsm_is_server q' = qsm_is_server q /\
    qsm_map q' = delete id (qsm_map q).
Proof.
  intros [[W1 W2 W3 W4 W5 W6 W7 W8 W9] Hok] Hs Ha Hf Hacc. unfold ossl_quic_stream_map_release. rewrite Hs. cbn [mbind option_bind].
  eexists. split; [done|]. rewrite !unlink_without, (without_not_in (accept_list q)) by done. split_and!; [|done..]. split; cbn.
  - split; cbn; auto.
    + by apply tracks_delete.
    + by apply tracks_delete.
    + intros i Hi. rewrite lookup_delete_ne by congruence. by apply W4.
    + by apply map_Forall_delete.
    + rewrite W8, (msum_delete _ _ _ _ Hs), Hf. cbn. lia.
    + assert (Hn : id ∉ active_list q) by (rewrite (tracks_iff _ _ _ id s W1 Hs); congruence). by rewrite without_not_in.
  - by apply map_Forall_delete.
Qed.

(** *** The accept queue *)

Lemma count_kind_bound (b : bool) (l : list Z) : NoDup l -> (forall i, i ∈ l -> 0 <= i < STREAM_IDS) -> 0 <= count_kind b l <= STREAM_IDS.
Proof.
  intros Hnd Hr. unfold count_kind. split; [apply zlen_nonneg|]. apply NoDup_range_length; [done|by apply NoDup_filter|].
  intros x [_ Hx]%list_elem_of_filter. by apply Hr.
Qed.

Lemma count_kind_app (b : bool) (l l' : list Z) : count_kind b (l ++ l') = count_kind b l + count_kind b l'.
Proof. unfold count_kind. by rewrite filter_app, zlen_app. Qed.

Lemma count_kind_one (b : bool) (id : Z) : count_kind b [id] = b2z (eqb (id_bidi id) b).
Proof.
  unfold count_kind. destruct (decide (of_kind b id)) as [E|E].
  - rewrite filter_cons_True by done. unfold of_kind in E. rewrite E. by destruct b.
  - rewrite filter_cons_False by done. unfold of_kind in E. by destruct (id_bidi id), b.
Qed.

Lemma count_kind_without (b : bool) (l : list Z) (id : Z) : NoDup l -> id ∈ l -> count_kind b (without id l) = count_kind b l - b2z (eqb (id_bidi id) b).
Proof.
  intros Hnd (l1 & l2 & ->)%list_elem_of_split. apply NoDup_app in Hnd as (_ & Hd & [H2 _]%NoDup_cons).
  assert (H1 : id ∉ l1) by (intros Hi; apply (Hd _ Hi); by left).
  rewrite filter_app, filter_cons_False by tauto. rewrite !without_not_in by done. change (id :: l2) with ([id] ++ l2). rewrite !count_kind_app, count_kind_one. lia.
Qed.

Lemma stream_kind (id : Z) (s : QUIC_STREAM) : slot_ok id s -> ossl_quic_stream_is_bidi s = id_bidi id.
Proof. intros [_ Ht _]. unfold ossl_quic_stream_is_bidi, id_bidi. by rewrite Ht. Qed.

Lemma accept_in_range (q : QUIC_STREAM_MAP) (i : Z) : qsm_wf q -> i ∈ accept_list q -> 0 <= i < STREAM_IDS.
Proof. intros Hq Hi. destruct (wf_accept_in _ Hq _ Hi) as [s Hs]. by destruct (wf_ids _ Hq _ _ Hs). Qed.

Lemma push_accept_kept (q : QUIC_STREAM_MAP) (id : Z) (s : QUIC_STREAM) : qsm_ok q -> qsm_map q !! id = Some s -> id ∉ accept_list q ->
  exists q', ossl_quic_stream_map_push_accept_queue q id = Some q' /\ kept q q' /\ accept_list q' = accept_list q ++ [id].
Proof.
  intros [Hq Hok] Hs Hn. pose proof Hq as [W1 W2 W3 W4 W5 W6 W7 W8 W9]. unfold ossl_quic_stream_map_push_accept_queue. rewrite Hs. cbn [mbind option_bind].
  rewrite list_insert_tail_new by done. cbn [mbind option_bind]. rewrite (stream_kind id s (W5 _ _ Hs)). eexists. split; [done|].
  assert (Hb : forall b, count_kind b (accept_list q ++ [id]) = count_kind b (accept_list q) + b2z (eqb (id_bidi id) b)) by (intros; by rewrite count_kind_app, count_kind_one).
  assert (Hu : forall b, 0 <= count_kind b (accept_list q) <= STREAM_IDS) by (intros; apply count_kind_bound; [done|]; intros i Hi; by eapply accept_in_range).
  assert (Hnd : NoDup (accept_list q ++ [id])) by (apply NoDup_app; split_and!; [done|by intros i Hi ->%list_elem_of_singleton|apply NoDup_singleton]).
  pose proof (Hu true). pose proof (Hu false). unfold STREAM_IDS in *.
  split; [|by destruct (id_bidi id)]. split_and!; [split|by destruct (id_bidi id)|].
  - destruct (id_bidi id) eqn:Eb; split; cbn; auto; try (intros i [?| ->%list_elem_of_singleton]%elem_of_app; [by apply W4|by exists s]);
      rewrite ?Hb, ?W6, ?W7, ?add64_small by (unfold U64_MOD; lia); cbn; lia.
  - by destruct (id_bidi id).
  - destruct (id_bidi id); intros i t Ht; exists t; (split; [done|apply evolves_refl]).
Qed.

Lemma remove_accept_kept (now : nat -> OSSL_TIME) (q : QUIC_STREAM_MAP) (id : Z) (s : QUIC_STREAM) (rtt : OSSL_TIME) (n : nat) :
  qsm_ok q -> qsm_map q !! id = Some s -> id ∈ accept_list q ->
  exists q' n', ossl_quic_stream_map_remove_from_accept_queue now q id rtt n = Some (q', n') /\ kept q q' /\ accept_list q' = without id (accept_list q).
Proof.
  intros [Hq Hok] Hs Hin. pose proof Hq as [W1 W2 W3 W4 W5 W6 W7 W8 W9]. unfold ossl_quic_stream_map_remove_from_accept_queue. rewrite Hs. cbn [mbind option_bind].
  rewrite list_remove_in by done. cbn [mbind option_bind]. rewrite (stream_kind id s (W5 _ _ Hs)).
  assert (Hb : forall b, count_kind b (without id (accept_list q)) = count_kind b (accept_list q) - b2z (eqb (id_bidi id) b)) by (intros; by apply count_kind_without).
  assert (Hu : forall b, 0 <= count_kind b (without id (accept_list q)) <= STREAM_IDS).
  { intros. apply count_kind_bound; [by apply NoDup_filter|]. intros i [_ Hi]%elem_of_without. by eapply accept_in_range. }
  pose proof (Hu true) as Ht. pose proof (Hu false) as Hf. rewrite Hb in Ht, Hf. unfold STREAM_IDS in *.
  set (q1 := q <| accept_list := without id (accept_list q) |>).
  set (q2 := if id_bidi id then q1 <| num_accept_bidi := num_accept_bidi q1 -u 1 |> else q1 <| num_accept_uni := num_accept_uni q1 -u 1 |>).
  change (exists q' n', match qsm_get_max_streams_rxfc q2 s with
    | None => Some (q2, n)
    | Some fc => let '(fc, _, _, n) := ossl_quic_rxfc_on_retire now fc None 1 rtt n in
                 Some (if id_bidi id then q2 <| max_streams_bidi_rxfc := Some fc |> else q2 <| max_streams_uni_rxfc := Some fc |>, n)
    end = Some (q', n') /\ kept q q' /\ accept_list q' = without id (accept_list q)).
  assert (Hk : forall b u, let q3 := q2 <| max_streams_bidi_rxfc := b |> <| max_streams_uni_rxfc := u |> in kept q q3 /\ accept_list q3 = without id (accept_list q)).
  { intros b u. cbn zeta. split; [|subst q2 q1; by destruct (id_bidi id)]. split_and!; [split|subst q2 q1; by destruct (id_bidi id)|].
    - subst q2 q1. destruct (id_bidi id) eqn:Eb; split; cbn; auto using NoDup_filter; try (intros i [_ ?]%elem_of_without; by apply W4);
        rewrite ?Hb, ?W6, ?W7, ?sub64_small by (unfold U64_MOD; cbn [b2z eqb] in *; lia); cbn; lia.
    - subst q2 q1. by destruct (id_bidi id).
    - subst q2 q1. destruct (id_bidi id); intros i t Ht'; exists t; (split; [done|apply evolves_refl]). }
  destruct (qsm_get_max_streams_rxfc q2 s) as [fc|] eqn:Efc.
  - destruct (ossl_quic_rxfc_on_retire now fc None 1 rtt n) as [[[fc' p] ok] n'] eqn:Er.
    exists (if id_bidi id then q2 <| max_streams_bidi_rxfc := Some fc' |> else q2 <| max_streams_uni_rxfc := Some fc' |>), n'. split.
    + done.
    + destruct (id_bidi id) eqn:Eb.
      * exact (Hk (Some fc') (max_streams_uni_rxfc q2)).
      * exact (Hk (max_streams_bidi_rxfc q2) (Some fc')).
  - exists q2, n. split; [done|].
    assert (E : forall p : QUIC_STREAM_MAP, p <| max_streams_bidi_rxfc := max_streams_bidi_rxfc p |> <| max_streams_uni_rxfc := max_streams_uni_rxfc p |> = p) by (by intros []).
    specialize (Hk (max_streams_bidi_rxfc q2) (max_streams_uni_rxfc q2)). cbn zeta in Hk. by rewrite E in Hk.
Qed.

(** *** Shutdown *)

Lemma begin_each_good (q : QUIC_STREAM_MAP) (id : Z) (s : QUIC_STREAM) : qsm_ok q -> qsm_map q !! id = Some s ->
  exists q', begin_shutdown_flush_each q id = Some q' /\ kept q q'.
Proof.
  intros Hk Hs. pose proof Hk as [Hq Hok]. pose proof Hq as [W1 W2 W3 W4 W5 W6 W7 W8 W9]. pose proof (Hok _ _ Hs) as Ho.
  unfold begin_shutdown_flush_each, eligible_for_shutdown_flush. rewrite Hs. cbn [mbind option_bind].
  assert (Hstay : exists q', Some q = Some q' /\ kept q q') by (exists q; split; [done|by apply kept_refl]).
  assert (Hflag : qs_send_state s = QUIC_SSTREAM_STATE_SEND \/ qs_send_state s = QUIC_SSTREAM_STATE_DATA_SENT -> qs_shutdown_flush s = false ->
    exists q', Some ((qsm_upd q id (fun s => s <| qs_shutdown_flush := true |>)) <| num_shutdown_flush := num_shutdown_flush q +u 1 |>) = Some q' /\ kept q q').
  { intros Hst Hf. eexists. split; [done|]. apply (good_move_kept _ _ id s); [done..|]. exists (s <| qs_shutdown_flush := true |>).
    split; [|split; [by keep_clauses Ho|by split; cbn; auto with stream_map]].
    assert (Hb : map_Forall slot_ok (<[id := s <| qs_shutdown_flush := true |>]> (qsm_map q))).
    { apply map_Forall_insert_2; [|done]. destruct (W5 _ _ Hs). by split. }
    pose proof (flush_bound _ Hb) as Hb'. rewrite (msum_insert _ _ _ _ _ Hs), <- W8, Hf in Hb'. cbn in Hb'. unfold STREAM_IDS in Hb'.
    pose proof (flush_bound _ W5) as Hb0. rewrite <- W8 in Hb0.
    apply (build_moved q id s Hq Hs); unfold qsm_upd; cbn; auto; [exact (qsm_upd_map q id _ s Hs)|by destruct (W5 _ _ Hs)|by eapply tracks_same|by eapply tracks_same|split_and!; done|].
    rewrite Hf. cbn. rewrite add64_small; [lia|unfold U64_MOD; lia]. }
  destruct (qs_send_state s) eqn:Est; cbn [mbind option_bind negb orb]; try exact Hstay.
  all: destruct (buffer_of _ _ Ho) as [ss ->]; [unfold ossl_quic_stream_has_send_buffer; by rewrite Est|]; cbn [mbind option_bind].
  all: destruct (ossl_quic_sstream_is_totally_acked ss); cbn [negb orb]; [exact Hstay|].
  all: destruct (qs_shutdown_flush s); [exact Hstay|by apply Hflag; auto].
Qed.

Lemma visit_flush_kept (order : list Z) : forall q, qsm_ok q -> (forall i, i ∈ order -> is_Some (qsm_map q !! i)) ->
  exists q', ossl_quic_stream_map_visit order begin_shutdown_flush_each q = Some q' /\ kept q q'.
Proof.
  unfold ossl_quic_stream_map_visit. induction order as [|i order IH]; intros q Hk Hin; [exists q; split; [done|by apply kept_refl]|].
  destruct (Hin i ltac:(by left)) as [s Hs]. cbn. destruct (begin_each_good q i s Hk Hs) as (q1 & -> & Hk1).
  destruct (IH q1 (proj1 Hk1)) as (q2 & -> & Hk2).
  - intros j Hj. destruct (Hin j ltac:(by right)) as [t Ht]. destruct (proj2 (proj2 Hk1) j t Ht) as (t' & Ht' & _). by exists t'.
  - exists q2. split; [done|by eapply kept_trans].
Qed.

(** *** Round robin *)

Lemma iter_init_kept (q : QUIC_STREAM_MAP) (advance : bool) : qsm_ok q -> kept q (snd (ossl_quic_stream_iter_init q advance)).
Proof.
  intros Hk. unfold ossl_quic_stream_iter_init. destruct (rr_cur q) as [c|] eqn:Ec; [|by apply kept_refl].
  destruct advance; [|by apply kept_refl]. destruct Hk as [Hq Hok]. pose proof Hq as [W1 W2 W3 W4 W5 W6 W7 W8 W9]. rewrite Ec in W9.
  destruct (list_next_in _ _ (proj1 W1) W9) as (m & Hm & Hmi). cbn.
  destruct (_ <=? _); cbn; (split_and!; [split; [split; cbn; auto|done]|done|intros i t Ht; exists t; split; [done|apply evolves_refl]]);
    rewrite ?Hm, ?Ec; done.
Qed.

(** A change the rest of the stack makes to a stream: to its buffers, its flow controllers, and
    to the flags that ask for frames or say that frames were acknowledged. *)
Record outside (s s' : QUIC_STREAM) : Prop := {
  os_slot : same_slot s s';
  os_server : qs_as_server s' = qs_as_server s;
  os_states : qs_send_state s' = qs_send_state s /\ qs_recv_state s' = qs_recv_state s /\ qs_send_final_size s' = qs_send_final_size s;
  os_buffers : (is_Some (qs_sstream s') <-> is_Some (qs_sstream s)) /\ (is_Some (qs_rstream s') <-> is_Some (qs_rstream s));
  os_stop : qs_stop_sending s' = qs_stop_sending s /\ qs_stop_sending_aec s' = qs_stop_sending_aec s;
  os_want_stop : qs_want_stop_sending s' = true -> qs_want_stop_sending s = true;
  os_want_reset : qs_want_reset_stream s' = true -> ossl_quic_stream_send_is_reset s = true;
  os_acked : (qs_acked_stop_sending s = true -> qs_acked_stop_sending s' = true) /\ (qs_acked_stop_sending s' = true -> qs_stop_sending s = true);
  os_deleted : (qs_deleted s = true -> qs_deleted s' = true) /\ (qs_deleted s' = true -> deletable s');
  os_final : is_Some (ossl_quic_rxfc_get_final_size (qs_rxfc s)) -> is_Some (ossl_quic_rxfc_get_final_size (qs_rxfc s')) }.

Lemma outside_ok (server : bool) (s s' : QUIC_STREAM) : stream_ok server s -> outside s s' -> stream_ok server s' /\ evolves s s'.
Proof.
  intros [K1 K2 K3 K4 K5 K6 K7 K8 K9 K10 K11 K12] [(S1 & S2 & S3 & S4 & S5) O1 (O2 & O3 & O4) [O5 O6] [O7 O8] O9 O10 [O11 O12] [O13 O14] O15].
  assert (Hl : ossl_quic_stream_is_local_init s' = ossl_quic_stream_is_local_init s) by (unfold ossl_quic_stream_is_local_init, ossl_quic_stream_is_server_init; congruence).
  assert (Hb : ossl_quic_stream_is_bidi s' = ossl_quic_stream_is_bidi s) by (unfold ossl_quic_stream_is_bidi; congruence).
  assert (Hhs : ossl_quic_stream_has_send s' = ossl_quic_stream_has_send s) by (unfold ossl_quic_stream_has_send; by rewrite O2).
  assert (Hhr : ossl_quic_stream_has_recv s' = ossl_quic_stream_has_recv s) by (unfold ossl_quic_stream_has_recv; by rewrite O3).
  split.
  - split.
    + congruence.
    + rewrite O5, K2. unfold ossl_quic_stream_has_send_buffer. by rewrite O2.
    + rewrite O6, K3. unfold ossl_quic_stream_has_recv_buffer. by rewrite O3.
    + unfold can_send. rewrite Hhs, K4, Hl, Hb. done.
    + unfold can_recv. rewrite Hhr, K5, Hl, Hb. done.
    + rewrite O2, S5. done.
    + rewrite S3, S4. intros [Hq Ha]%K7. split; [|done]. unfold qsm_ready_for_gc in *. rewrite Hhs, Hhr, O2.
      apply andb_true_iff in Hq as [[Hd Hr]%andb_true_iff Hq]. rewrite Hq, (O13 Hd), andb_true_r. cbn. rewrite orb_false_r in *.
      apply orb_true_iff in Hr as [Hr|Hr]; [by rewrite Hr|]. by rewrite (O11 Hr), orb_true_r.
    + intros [H1 H2]%O9%K8. split; congruence.
    + intros Hw%O10. unfold ossl_quic_stream_send_is_reset in *. by rewrite O2.
    + intros Ha%O12. congruence.
    + exact O14.
    + rewrite O3. auto.
  - split; rewrite ?O2, ?O3; auto with stream_map; try congruence; [intros; split; congruence|left; congruence].
Qed.

Lemma touch_kept (q : QUIC_STREAM_MAP) (id : Z) (s s' : QUIC_STREAM) : qsm_ok q -> qsm_map q !! id = Some s -> outside s s' ->
  kept q (qsm_upd q id (fun _ => s')).
Proof.
  intros Hk Hs Ho. pose proof Hk as [Hq Hok]. destruct (outside_ok _ _ _ (Hok _ _ Hs) Ho) as [H1 H2].
  apply (good_move_kept _ _ id s); [done..|]. apply good_upd; [done..|apply Ho|done|done].
Qed.

(** The collector compares its first stream with itself and stops: no stream is ever released
    by it. *)
Lemma gc_keeps_all (q : QUIC_STREAM_MAP) : ossl_quic_stream_map_gc q = Some q.
Proof. unfold ossl_quic_stream_map_gc. cbn. destruct (list_head _); [|done]. by rewrite bool_decide_false by tauto. Qed.

(** ** Histories *)

(** The operations that keep every stream; streams are released in [qsm_life] below. *)
Inductive qsm_op :=
| OpOpen (alloc : bool) (id : Z) (ss : option QUIC_SSTREAM) (rs : option QUIC_RSTREAM) (tx : QUIC_TXFC) (rx : QUIC_RXFC)
| OpOutside (id : Z) (s' : QUIC_STREAM)
| OpUpdate (id : Z)
| OpEnsureId (id : Z) | OpAllDataSent (id : Z) | OpTotallyAcked (id : Z) | OpReset (id aec : Z) | OpResetAcked (id : Z)
| OpSizeKnown (id n : Z) | OpTotallyReceived (id : Z) | OpTotallyRead (id : Z) | OpRecvReset (id aec n : Z) | OpAppReadReset (id : Z)
| OpStopSending (id aec : Z) | OpScheduleStop (id : Z)
| OpPushAccept (id : Z) | OpRemoveAccept (now : nat -> OSSL_TIME) (id : Z) (rtt : OSSL_TIME) (n : nat)
| OpGc | OpBeginFlush (order : list Z) | OpIterInit (advance_rr : bool) | OpStepping (n : Z).

Definition run_op (env : qsm_env) (q : QUIC_STREAM_MAP) (op : qsm_op) : option QUIC_STREAM_MAP :=
  match op with
  | OpOpen alloc id ss rs tx rx =>
      match ossl_quic_stream_map_alloc alloc q id (Z.land id 3) with
      | None => Some q
      | Some q => Some (qsm_upd q id (fun s => s <| qs_sstream := ss |> <| qs_rstream := rs |> <| qs_txfc := tx |> <| qs_rxfc := rx |>))
      end
  | OpOutside id s' => Some (qsm_upd q id (fun _ => s'))
  | OpUpdate id => ossl_quic_stream_map_update_state env q id
  | OpEnsureId id => fst <$> ossl_quic_stream_map_ensure_send_part_id q id
  | OpAllDataSent id => fst <$> ossl_quic_stream_map_notify_all_data_sent q id
  | OpTotallyAcked id => fst <$> ossl_quic_stream_map_notify_totally_acked q id
  | OpReset id aec => fst <$> ossl_quic_stream_map_reset_stream_send_part env q id aec
  | OpResetAcked id => fst <$> ossl_quic_stream_map_notify_reset_stream_acked q id
  | OpSizeKnown id n => fst <$> ossl_quic_stream_map_notify_size_known_recv_part q id n
  | OpTotallyReceived id => fst <$> ossl_quic_stream_map_notify_totally_received q id
  | OpTotallyRead id => fst <$> ossl_quic_stream_map_notify_totally_read q id
  | OpRecvReset id aec n => fst <$> ossl_quic_stream_map_notify_reset_recv_part env q id aec n
  | OpAppReadReset id => fst <$> ossl_quic_stream_map_notify_app_read_reset_recv_part q id
  | OpStopSending id aec => fst <$> ossl_quic_stream_map_stop_sending_recv_part env q id aec
  | OpScheduleStop id => fst <$> ossl_quic_stream_map_schedule_stop_sending env q id
  | OpPushAccept id => ossl_quic_stream_map_push_accept_queue q id
  | OpRemoveAccept now id rtt n => fst <$> ossl_quic_stream_map_remove_from_accept_queue now q id rtt n
  | OpGc => ossl_quic_stream_map_gc q
  | OpBeginFlush order => ossl_quic_stream_map_begin_shutdown_flush order q
  | OpIterInit advance_rr => Some (snd (ossl_quic_stream_iter_init q advance_rr))
  | OpStepping n => Some (ossl_quic_stream_map_set_rr_stepping q n)
  end.

(** What the callers of an operation ensure. *)
Definition op_pre (q : QUIC_STREAM_MAP) (op : qsm_op) : Prop :=
  match op with
  | OpOpen _ id ss rs tx rx => 0 <= id < STREAM_IDS /\ let s := stream_alloc id (Z.land id 3) (qsm_is_server q) in
      (is_Some ss <-> can_send s = true) /\ (is_Some rs <-> can_recv s = true)
  | OpOutside id s' => exists s, qsm_map q !! id = Some s /\ outside s s'
  | OpSizeKnown id _ | OpRecvReset id _ _ => exists s, qsm_map q !! id = Some s /\ is_Some (ossl_quic_rxfc_get_final_size (qs_rxfc s))
  | OpPushAccept id => is_Some (qsm_map q !! id) /\ id ∉ accept_list q
  | OpRemoveAccept _ id _ _ => id ∈ accept_list q
  | OpBeginFlush order => (forall i, i ∈ order <-> is_Some (qsm_map q !! i)) /\ NoDup order /\
      map_Forall (fun _ s => qs_shutdown_flush s = false) (qsm_map q)
  | OpUpdate id | OpEnsureId id | OpAllDataSent id | OpTotallyAcked id | OpReset id _ | OpResetAcked id
  | OpTotallyReceived id | OpTotallyRead id | OpAppReadReset id | OpStopSending id _ | OpScheduleStop id => is_Some (qsm_map q !! id)
  | OpGc | OpIterInit _ | OpStepping _ => True
  end.

Lemma stepping_kept (q : QUIC_STREAM_MAP) (n : Z) : qsm_ok q -> kept q (ossl_quic_stream_map_set_rr_stepping q n).
Proof.
  intros [[W1 W2 W3 W4 W5 W6 W7 W8 W9] Hok]. split_and!; [split; [split|]; done|done|]. intros i t Ht. exists t. split; [done|apply evolves_refl].
Qed.

Lemma open_kept (q : QUIC_STREAM_MAP) (env : qsm_env) (alloc : bool) (id : Z) (ss : option QUIC_SSTREAM) (rs : option QUIC_RSTREAM) (tx : QUIC_TXFC) (rx : QUIC_RXFC) :
  qsm_ok q -> op_pre q (OpOpen alloc id ss rs tx rx) -> exists q', run_op env q (OpOpen alloc id ss rs tx rx) = Some q' /\ kept q q'.
Proof.
  intros Hk (Hid & Hss & Hrs). cbn [run_op]. unfold ossl_quic_stream_map_alloc.
  destruct (qsm_map q !! id) as [s|] eqn:Hs; [exists q; split; [done|by apply kept_refl]|]. destruct alloc; [|exists q; split; [done|by apply kept_refl]].
  eexists. split; [done|]. unfold qsm_upd. cbn. rewrite alter_insert_eq.
  pose proof (opened_ok q id ss rs tx rx Hss Hrs) as Ho.
  exact (insert_new_kept q id (opened q id ss rs tx rx) Hk Hs ltac:(by split) Ho eq_refl eq_refl eq_refl).
Qed.

Lemma flush_reset (q : QUIC_STREAM_MAP) : qsm_ok q -> map_Forall (fun _ s => qs_shutdown_flush s = false) (qsm_map q) -> q <| num_shutdown_flush := 0 |> = q.
Proof.
  intros [Hq _] Hf. assert (num_shutdown_flush q = 0) as E; [|by destruct q; cbn in *; rewrite E].
  rewrite (wf_flush _ Hq). pose proof (msum_mono (fun s => b2z (qs_shutdown_flush s)) (fun _ => 0) (qsm_map q)) as Hm.
  assert (msum (fun _ : QUIC_STREAM => 0) (qsm_map q) = 0) as E0.
  { clear. induction (qsm_map q) as [|i a m Hi IH] using map_ind; [apply msum_empty|]. by rewrite msum_insert_new, IH. }
  rewrite E0 in Hm. pose proof (flush_bound _ (wf_ids _ Hq)). enough (msum (fun s => b2z (qs_shutdown_flush s)) (qsm_map q) <= 0) by lia.
  apply Hm. intros i a Ha. by rewrite (Hf _ _ Ha).
Qed.

(** No operation a caller may make goes wrong, and each keeps the whole map in order. *)
Lemma run_op_kept (env : qsm_env) (q : QUIC_STREAM_MAP) (op : qsm_op) : qsm_ok q -> op_pre q op -> exists q', run_op env q op = Some q' /\ kept q q'.
Proof.
  intros Hk Hp. pose proof Hk as [Hq Hok].
  assert (Hb : forall id s (r : option (QUIC_STREAM_MAP * bool)), qsm_map q !! id = Some s -> (exists q' b, r = Some (q', b) /\ good_move q id s q') ->
    exists q', fst <$> r = Some q' /\ kept q q').
  { intros id s r Hs (q' & b & -> & Hg). exists q'. split; [done|by eapply good_move_kept]. }
  destruct op; cbn [op_pre] in Hp.
  1: by apply open_kept.
  1: destruct Hp as (s & Hs & Ho); eexists; (split; [done|by eapply touch_kept]).
  1: destruct Hp as [s Hs]; cbn [run_op]; destruct (update_state_good env q id s Hq Hs (Hok _ _ Hs)) as (q' & -> & Hg); exists q'; (split; [done|by eapply good_move_kept]).
  all: cbn [run_op].
  - destruct Hp as [s Hs]. apply (Hb id s _ Hs), ensure_id_good; auto. exact (Hok _ _ Hs).
  - destruct Hp as [s Hs]. apply (Hb id s _ Hs), all_data_sent_good; auto. exact (Hok _ _ Hs).
  - destruct Hp as [s Hs]. apply (Hb id s _ Hs), totally_acked_good; auto. exact (Hok _ _ Hs).
  - destruct Hp as [s Hs]. apply (Hb id s _ Hs), reset_send_good; auto. exact (Hok _ _ Hs).
  - destruct Hp as [s Hs]. apply (Hb id s _ Hs), reset_acked_good; auto. exact (Hok _ _ Hs).
  - destruct Hp as (s & Hs & Hf). apply (Hb id s _ Hs), size_known_good; auto. exact (Hok _ _ Hs).
  - destruct Hp as [s Hs]. apply (Hb id s _ Hs), totally_received_good; auto. exact (Hok _ _ Hs).
  - destruct Hp as [s Hs]. apply (Hb id s _ Hs), totally_read_good; auto. exact (Hok _ _ Hs).
  - destruct Hp as (s & Hs & Hf). apply (Hb id s _ Hs), reset_recv_good; auto. exact (Hok _ _ Hs).
  - destruct Hp as [s Hs]. apply (Hb id s _ Hs), app_read_reset_good; auto. exact (Hok _ _ Hs).
  - destruct Hp as [s Hs]. apply (Hb id s _ Hs), stop_sending_good; auto. exact (Hok _ _ Hs).
  - destruct Hp as [s Hs]. apply (Hb id s _ Hs), schedule_stop_good; auto. exact (Hok _ _ Hs).
  - destruct Hp as [[s Hs] Hn]. destruct (push_accept_kept q id s Hk Hs Hn) as (q' & -> & Hkp & _). by exists q'.
  - destruct (wf_accept_in _ Hq _ Hp) as [s Hs]. destruct (remove_accept_kept now q id s rtt n Hk Hs Hp) as (q' & n' & -> & Hkp & _). by exists q'.
  - exists q. split; [apply gc_keeps_all|by apply kept_refl].
  - destruct Hp as (Hin & Hnd & Hf). unfold ossl_quic_stream_map_begin_shutdown_flush. rewrite (flush_reset q Hk Hf).
    apply visit_flush_kept; [done|]. intros i. apply Hin.
  - eexists. split; [done|by apply iter_init_kept].
  - eexists. split; [done|by apply stepping_kept].
Qed.

(** Every operation with what it reads of the channel. *)
Inductive qsm_runs : QUIC_STREAM_MAP -> QUIC_STREAM_MAP -> Prop :=
| qr_refl q : qsm_runs q q
| qr_step q1 q2 q3 env op : qsm_runs q1 q2 -> op_pre q2 op -> run_op env q2 op = Some q3 -> qsm_runs q1 q3.

Lemma runs_kept (q q' : QUIC_STREAM_MAP) : qsm_ok q -> qsm_runs q q' -> kept q q'.
Proof.
  intros Hk. induction 1 as [q|q1 q2 q3 env op _ IH Hp Hr]; [by apply kept_refl|]. specialize (IH Hk).
  destruct (run_op_kept env q2 op (proj1 IH) Hp) as (q3' & Hr' & Hk'). simplify_eq. by eapply kept_trans.
Qed.

Lemma init_ok (server : bool) (b u : option QUIC_RXFC) : qsm_ok (ossl_quic_stream_map_init server b u).
Proof.
  split; [split; cbn|apply map_Forall_empty]; try done; try apply NoDup_nil_2; try apply map_Forall_empty.
  - split; [apply NoDup_nil_2|]. intros i. split; [by intros ?%not_elem_of_nil|intros (? & ? & ?); done].
  - split; [apply NoDup_nil_2|]. intros i. split; [by intros ?%not_elem_of_nil|intros (? & ? & ?); done].
  - by intros i ?%not_elem_of_nil.
Qed.

(** *** Lives of a map, releases included *)

(** A stream that is released is in no list and is not being flushed: its callers release one they have
    just opened.  (The function itself takes any stream, and would leave the accept counters, the count of streams to flush or
    the round robin's next stream behind.) *)
Definition release_pre (q : QUIC_STREAM_MAP) (id : Z) : Prop :=
  exists s, qsm_map q !! id = Some s /\ qs_active s = false /\ qs_shutdown_flush s = false /\ id ∉ accept_list q.

(** Opening a stream whose initialisation fails, in whatever state [s'] that leaves it
    (the error exits of [ossl_quic_channel_new_stream_local] and [ossl_quic_channel_new_stream_remote]). *)
Definition open_failed (q : QUIC_STREAM_MAP) (id : Z) (s' : QUIC_STREAM) : option QUIC_STREAM_MAP :=
  match ossl_quic_stream_map_alloc true q id (Z.land id 3) with
  | None => Some q
  | Some q => ossl_quic_stream_map_release (qsm_upd q id (fun _ => s')) id
  end.

Inductive qsm_life (server : bool) (bfc ufc : option QUIC_RXFC) : QUIC_STREAM_MAP -> Prop :=
| life_init : qsm_life server bfc ufc (ossl_quic_stream_map_init server bfc ufc)
| life_op env q op q' : qsm_life server bfc ufc q -> op_pre q op -> run_op env q op = Some q' -> qsm_life server bfc ufc q'
| life_open_failed q id s' q' : qsm_life server bfc ufc q -> open_failed q id s' = Some q' -> qsm_life server bfc ufc q'
| life_release q id q' : qsm_life server bfc ufc q -> release_pre q id -> ossl_quic_stream_map_release q id = Some q' -> qsm_life server bfc ufc q'.

Lemma not_listed (q : QUIC_STREAM_MAP) (id : Z) : qsm_wf q -> qsm_map q !! id = None ->
  (id ∉ active_list q) /\ (id ∉ accept_list q) /\ id ∉ ready_for_gc_list q.
Proof.
  intros Hq Hn. split_and!; intros Hi.
  - apply (proj2 (wf_active _ Hq)) in Hi as (s & Hs & _). congruence.
  - destruct (wf_accept_in _ Hq _ Hi) as [s Hs]. congruence.
  - apply (proj2 (wf_gc _ Hq)) in Hi as (s & Hs & _). congruence.
Qed.

(** The map is as it was. *)
Lemma open_failed_same (q : QUIC_STREAM_MAP) (id : Z) (s' : QUIC_STREAM) : qsm_ok q -> open_failed q id s' = Some q.
Proof.
  intros [Hq _]. unfold open_failed, ossl_quic_stream_map_alloc. destruct (qsm_map q !! id) as [s|] eqn:Hs; [done|].
  destruct (not_listed q id Hq Hs) as (H1 & H2 & H3). unfold ossl_quic_stream_map_release, qsm_upd. cbn. rewrite alter_insert_eq, lookup_insert_eq. cbn.
  rewrite !unlink_without, !without_not_in, delete_insert_id by done. by destruct q.
Qed.

Lemma life_ok (server : bool) (bfc ufc : option QUIC_RXFC) (q : QUIC_STREAM_MAP) : qsm_life server bfc ufc q -> qsm_ok q /\ qsm_is_server q = server.
Proof.
  induction 1 as [|env q op q' _ [IH Hs] Hp Hr|q id s' q' _ [IH Hs] Hr|q id q' _ [IH Hs] (s & Hl & Ha & Hf & Hn) Hr].
  - split; [apply init_ok|done].
  - destruct (run_op_kept env q op IH Hp) as (q2 & Hr2 & Hk & Hsv & _). simplify_eq. split; [done|congruence].
  - rewrite (open_failed_same q id s' IH) in Hr. by simplify_eq.
  - destruct (release_kept q id s IH Hl Ha Hf Hn) as (q2 & Hr2 & Hk & Hsv & _). simplify_eq. split; [done|congruence].
Qed.

(** Every list holds streams of [order] only, which are the streams of the map. *)
Record covered (order : list Z) (q : QUIC_STREAM_MAP) : Prop := {
  cv_map : forall i, i ∈ order <-> is_Some (qsm_map q !! i);
  cv_lists : forall i, i ∈ active_list q \/ i ∈ accept_list q \/ i ∈ ready_for_gc_list q -> i ∈ order }.

Lemma ok_covered (order : list Z) (q : QUIC_STREAM_MAP) : qsm_ok q -> (forall i, i ∈ order <-> is_Some (qsm_map q !! i)) -> covered order q.
Proof.
  intros [Hq _] Ho. split; [done|]. intros i Hi. apply Ho. destruct (qsm_map q !! i) as [s|] eqn:Hs; [by eexists|].
  destruct (not_listed q i Hq Hs) as (H1 & H2 & H3). tauto.
Qed.

Lemma empty_list (l : list Z) : (forall i, i ∉ l) -> l = [].
Proof. destruct l as [|x l]; [done|]. intros H. destruct (H x). by left. Qed.

(** Cleaning up frees every stream, whichever lists they are in. *)
Lemma cleanup_empties (order : list Z) : forall q, NoDup order -> covered order q ->
  exists q', ossl_quic_stream_map_cleanup order q = Some q' /\ qsm_map q' = ∅ /\ active_list q' = [] /\ accept_list q' = [] /\ ready_for_gc_list q' = [].
Proof.
  unfold ossl_quic_stream_map_cleanup, ossl_quic_stream_map_visit. induction order as [|i order IH]; intros q Hnd [C1 C2].
  - exists q. split; [done|]. split.
    + apply map_empty. intros j. destruct (qsm_map q !! j) as [s|] eqn:Hs; [|done]. assert (j ∈ []) as Hj by (apply C1; by eexists). by apply elem_of_nil in Hj.
    + split_and!; apply empty_list; intros j Hj; (assert (j ∈ []) as Hn by (apply C2; tauto)); by apply elem_of_nil in Hn.
  - apply NoDup_cons in Hnd as [Hi Hnd]. destruct (proj1 (C1 i) ltac:(by left)) as [s Hs]. cbn [foldl mbind option_bind].
    unfold ossl_quic_stream_map_release at 2. rewrite Hs. cbn [mbind option_bind]. apply IH; [done|]. split.
    + intros j. cbn. destruct (decide (j = i)) as [->|Hne]; [rewrite lookup_delete_eq; split; [done|by intros [? ?]]|].
      rewrite lookup_delete_ne, <- C1, elem_of_cons by done. tauto.
    + intros j. cbn. rewrite !unlink_without, !elem_of_without. intros Hj. assert (j ∈ i :: order) as Hc by (apply C2; tauto).
      apply elem_of_cons in Hc as [->|Hc]; [tauto|done].
Qed.
