(* ===== verification/StreamProps.v ===== *)
(** * Properties of the stream map: state machines, scheduling, accept queue, collection *)

From S2P Require Import Prelude UintSet OsslTime FlowControl Packet RingBuf Sstream SfList Rstream StreamMap StreamStates.

(** ** Iteration *)

Lemma list_next_rotate (l1 l2 : list Z) (n : Z) : NoDup (l1 ++ l2) -> n ∈ l1 ++ l2 -> list_next (l1 ++ l2) n = list_next (l2 ++ l1) n.
Proof.
  intros Hnd Hin. assert (Hnd' : NoDup (l2 ++ l1)) by (by rewrite (Permutation_app_comm l2 l1)).
  apply elem_of_app in Hin as [(a & b & ->)%list_elem_of_split|(a & b & ->)%list_elem_of_split].
  - rewrite (app_assoc l2) in *. rewrite <- (app_assoc a) in *. cbn [app] in *. rewrite !list_next_split by done. by rewrite <- !app_assoc.
  - rewrite (app_assoc l1) in *. rewrite <- (app_assoc a) in *. cbn [app] in *. rewrite !list_next_split by done. by rewrite <- !app_assoc.
Qed.

(** The walk from an element [n] on, when [seen] are the elements since the first one. *)
Lemma walk_from (q : QUIC_STREAM_MAP) (l1 l2 : list Z) (c : Z) : NoDup (active_list q) -> active_list q = l1 ++ c :: l2 ->
  forall rest n seen fuel, (c :: l2) ++ l1 = seen ++ n :: rest -> (length rest < fuel)%nat ->
  iter_walk fuel q (mkIter (Some c) (Some n)) = Some (n :: rest).
Proof.
  intros Hnd Hl. induction rest as [|m rest IH]; intros n seen fuel Hsplit Hf; (destruct fuel as [|fuel]; [lia|]); cbn [iter_walk it_stream].
  all: assert (Hn : list_next (active_list q) n = list_next ((c :: l2) ++ l1) n)
    by (rewrite Hl in *; apply list_next_rotate; [done|]; rewrite (Permutation_app_comm l1), Hsplit; apply elem_of_app; right; by left).
  all: assert (Hnd' : NoDup ((c :: l2) ++ l1)) by (rewrite (Permutation_app_comm (c :: l2)); by rewrite <- Hl).
  all: rewrite Hsplit in Hn, Hnd'; rewrite list_next_split in Hn by done; unfold ossl_quic_stream_iter_next; cbn [it_stream it_first_stream]; rewrite Hn.
  - cbn [app]. assert (head (seen ++ [n]) = Some c) as -> by (by rewrite <- Hsplit).
    rewrite bool_decide_true by done. by destruct fuel.
  - cbn [head app]. rewrite bool_decide_false.
    + rewrite (IH m (seen ++ [n]) fuel); [done| |cbn in Hf; lia]. by rewrite <- app_assoc.
    + intros [= ->]. destruct seen as [|x seen]; cbn in Hsplit; injection Hsplit as -> Hr; [|].
      * apply NoDup_cons in Hnd' as [Hni _]. apply Hni. by left.
      * cbn in Hnd'. apply NoDup_cons in Hnd' as [Hni _]. apply Hni, elem_of_app. right. right. by left.
Qed.

Lemma iter_init_list (q : QUIC_STREAM_MAP) (advance : bool) : active_list (snd (ossl_quic_stream_iter_init q advance)) = active_list q.
Proof. unfold ossl_quic_stream_iter_init. destruct (rr_cur q); [|done]. destruct advance; [|done]. by destruct (_ <=? _). Qed.

(** The map after [n] iterators have been started. *)
Fixpoint after_inits (n : nat) (q : QUIC_STREAM_MAP) : QUIC_STREAM_MAP :=
  match n with O => q | S n => snd (ossl_quic_stream_iter_init (after_inits n q) true) end.

Lemma list_next_lookup (l : list Z) (i : nat) (n : Z) : NoDup l -> l !! i = Some n -> list_next l n = l !! ((i + 1) mod length l)%nat.
Proof.
  intros Hnd Hi. pose proof (lookup_lt_Some _ _ _ Hi) as Hlt.
  assert (Hn : list_next l n = head (drop (S i) l ++ take i l ++ [n])).
  { rewrite <- (take_drop_middle l i n Hi) at 1. apply list_next_split. by rewrite take_drop_middle. }
  rewrite Hn. destruct (decide (S i = length l)) as [E|E].
  - rewrite drop_ge by lia. cbn [app]. replace (i + 1)%nat with (length l) by lia. rewrite Nat.Div0.mod_same.
    destruct l as [|x l]; [done|]. destruct i; cbn; [|done]. by injection Hi.
  - rewrite Nat.mod_small by lia. pose proof (lookup_drop l (S i) 0) as Hd. replace (S i + 0)%nat with (i + 1)%nat in Hd by lia. rewrite <- Hd.
    destruct (drop (S i) l) eqn:Ed; [|done]. exfalso. apply (f_equal length) in Ed. rewrite length_drop in Ed. cbn in Ed. lia.
Qed.

Lemma after_inits_spec (q : QUIC_STREAM_MAP) (i n : nat) : NoDup (active_list q) -> active_list q !! i = rr_cur q -> (i < length (active_list q))%nat ->
  0 <= rr_counter q < rr_stepping q -> rr_stepping q < U64_MOD ->
  let q' := after_inits n q in let t := rr_counter q + Z.of_nat n in
  active_list q' = active_list q /\ rr_stepping q' = rr_stepping q /\ rr_counter q' = t mod rr_stepping q /\
  rr_cur q' = active_list q !! ((i + Z.to_nat (t / rr_stepping q)) mod length (active_list q))%nat.
Proof.
  intros Hnd Hi Hlt Hc Hs. induction n as [|n IH]; cbn [after_inits].
  - cbn zeta. rewrite Z.add_0_r, Z.div_small, Z.mod_small, Nat.add_0_r, Nat.mod_small by lia. done.
  - cbn zeta in *. destruct IH as (IL & IS & IC & IR). set (q' := after_inits n q) in *. set (t := rr_counter q + Z.of_nat n) in *.
    replace (rr_counter q + Z.of_nat (S n)) with (t + 1) by lia. set (k := rr_stepping q) in *. set (j := ((i + Z.to_nat (t / k)) mod length (active_list q))%nat) in *.
    assert (Hj : (j < length (active_list q))%nat) by (apply Nat.mod_upper_bound; lia).
    destruct (lookup_lt_is_Some_2 _ _ Hj) as [c Hcj]. assert (Hcur : rr_cur q' = Some c) by (by rewrite IR, Hcj).
    pose proof (Z.mod_pos_bound t k ltac:(lia)) as Hb. pose proof (Z.div_mod t k ltac:(lia)) as Hdm.
    unfold ossl_quic_stream_iter_init. rewrite Hcur. cbn. rewrite IC, IS, add64_small by lia.
    destruct (Z.leb_spec k (t mod k + 1)) as [Hle|Hle]; cbn.
    + assert (Hq : (t + 1) / k = t / k + 1) by (symmetry; apply Z.div_unique with 0; lia).
      assert (Hm : (t + 1) mod k = 0) by (symmetry; apply Z.mod_unique with (t / k + 1); lia).
      split_and!; [done|done|done|]. rewrite IL, Hq, (list_next_lookup _ _ _ Hnd Hcj). unfold j. f_equal.
      rewrite Nat.Div0.add_mod_idemp_l. f_equal. assert (0 <= t / k) by (apply Z.div_pos; lia). lia.
    + assert (Hq : (t + 1) / k = t / k) by (symmetry; apply Z.div_unique with (t mod k + 1); lia).
      assert (Hm : (t + 1) mod k = t mod k + 1) by (symmetry; apply Z.mod_unique with (t / k); lia).
      rewrite Hq. split_and!; [done|done|done|]. exact IR.
Qed.

(** ** The accept queue *)

Lemma find_accept_loop_spec (q : QUIC_STREAM_MAP) (is_uni : bool) : qsm_wf q -> forall rest id seen fuel,
  accept_list q = seen ++ id :: rest -> Exists (of_kind (negb is_uni)) (id :: rest) -> (length rest < fuel)%nat ->
  exists a j b, id :: rest = a ++ j :: b /\ Forall (of_kind is_uni) a /\ of_kind (negb is_uni) j /\
    find_accept_loop fuel q (Some id) is_uni = Some (Some j).
Proof.
  intros Hq. induction rest as [|m rest IH]; intros id seen fuel Hl Hex Hf; (destruct fuel as [|fuel]; [lia|]); cbn [find_accept_loop].
  all: assert (Hin : id ∈ accept_list q) by (rewrite Hl; apply elem_of_app; right; by left).
  all: destruct (wf_accept_in _ Hq _ Hin) as [s Hs]; rewrite Hs; cbn [mbind option_bind].
  all: assert (Hk : (is_uni && negb (ossl_quic_stream_is_bidi s)) || (negb is_uni && ossl_quic_stream_is_bidi s) = eqb (id_bidi id) (negb is_uni))
    by (rewrite (stream_kind id s (wf_ids _ Hq _ _ Hs)); by destruct is_uni, (id_bidi id)).
  all: rewrite Hk; unfold of_kind in *; destruct (eqb_spec (id_bidi id) (negb is_uni)) as [E|E].
  - by exists [], id, [].
  - apply Exists_cons in Hex as [?|Hex]; [done|by apply Exists_nil in Hex].
  - by exists [], id, (m :: rest).
  - assert (list_next (accept_list q) id = Some m) as -> by (rewrite Hl, list_next_split; [done|]; rewrite <- Hl; apply Hq).
    apply Exists_cons in Hex as [?|Hex]; [done|].
    destruct (IH m (seen ++ [id]) fuel) as (a & j & b & Heq & Ha & Hj & Hr); [by rewrite <- app_assoc|done|cbn in Hf; lia|].
    exists (id :: a), j, b. split_and!; [cbn; by rewrite Heq| |done|done]. constructor; [|done]. by destruct is_uni, (id_bidi id).
Qed.

Lemma count_kind_zero (b : bool) (l : list Z) : count_kind b l = 0 <-> Forall (of_kind (negb b)) l.
Proof.
  unfold count_kind. induction l as [|x l IH]; [by split|]. unfold of_kind in *. destruct (decide (of_kind b x)) as [E|E]; unfold of_kind in E.
  - rewrite filter_cons_True by done. unfold zlen. cbn. split; [lia|]. intros [Hx _]%Forall_cons. destruct b, (id_bidi x); done.
  - rewrite filter_cons_False by done. rewrite IH, Forall_cons. destruct b, (id_bidi x); tauto.
Qed.

(** The accept queue hands out the incoming streams of a kind in the order they came: the
    search for a stream of one kind returns the first of that kind in the queue, or NULL
    exactly when the queue has none.  The loop of the search, which has no other way
    to stop on a circular list than to find a stream, does so within one round, because
    the counter it tests first counts exactly the streams of the kind. *)
Theorem accept_queue_first_of_kind (server : bool) (bfc ufc : option QUIC_RXFC) (q : QUIC_STREAM_MAP) (is_uni : bool) :
  qsm_runs (ossl_quic_stream_map_init server bfc ufc) q ->
  exists r, ossl_quic_stream_map_find_in_accept_queue q is_uni = Some r /\
    ossl_quic_stream_map_get_accept_queue_len q is_uni = zlen (filter (of_kind (negb is_uni)) (accept_list q)) /\
    match r with
    | Some id => exists a b, accept_list q = a ++ id :: b /\ of_kind (negb is_uni) id /\ Forall (of_kind is_uni) a
    | None => Forall (of_kind is_uni) (accept_list q)
    end.
Proof.
  intros Hr. destruct (runs_kept _ _ (init_ok server bfc ufc) Hr) as [[Hq _] _]. unfold ossl_quic_stream_map_find_in_accept_queue.
  assert (Hlen : ossl_quic_stream_map_get_accept_queue_len q is_uni = count_kind (negb is_uni) (accept_list q))
    by (unfold ossl_quic_stream_map_get_accept_queue_len; destruct is_uni; [apply (wf_uni _ Hq)|apply (wf_bidi _ Hq)]).
  rewrite Hlen. destruct (Z.eqb_spec (count_kind (negb is_uni) (accept_list q)) 0) as [E|E].
  - exists None. split_and!; [done|done|]. apply count_kind_zero in E. by rewrite negb_involutive in E.
  - destruct (accept_list q) as [|id rest] eqn:Ea; [done|]. unfold ossl_quic_stream_map_peek_accept_queue, list_head. rewrite Ea. cbn [head].
    destruct (find_accept_loop_spec q is_uni Hq rest id [] (S (length (id :: rest))) Ea) as (a & j & b & Heq & Ha & Hj & Hf).
    + rewrite count_kind_zero, negb_involutive in E. apply not_Forall_Exists in E; [|intros x; apply _].
      eapply Exists_impl; [exact E|]. intros x Hx. unfold of_kind, compose in *. destruct is_uni, (id_bidi x); done || by destruct Hx.
    + cbn. lia.
    + exists (Some j). split_and!; [done|done|]. by exists a, b.
Qed.

(** An iterator over a map with active streams starts with the round robin's next stream and
    visits every active stream exactly once, in list order around the circle, whatever
    fuel of at least one round per stream it is given; with none active it visits none.  With
    stepping [k], the [n]th iterator from now starts [(counter + n) / k] streams further
    on, so every active stream comes first in turn. *)
Theorem iter_round_robin (server : bool) (bfc ufc : option QUIC_RXFC) (q : QUIC_STREAM_MAP) (advance : bool) (fuel : nat) :
  qsm_runs (ossl_quic_stream_map_init server bfc ufc) q -> (length (active_list q) <= fuel)%nat ->
  let '(it, q') := ossl_quic_stream_iter_init q advance in
  match rr_cur q with
  | None => active_list q = [] /\ iter_walk fuel q' it = Some []
  | Some c => exists a b i, active_list q = a ++ c :: b /\ iter_walk fuel q' it = Some ((c :: b) ++ a) /\ NoDup ((c :: b) ++ a) /\ i = length a /\
      forall n, 0 <= rr_counter q < rr_stepping q -> rr_stepping q < U64_MOD ->
        rr_cur (after_inits n q) = active_list q !! ((i + Z.to_nat ((rr_counter q + Z.of_nat n) / rr_stepping q)) mod length (active_list q))%nat
  end.
Proof.
  intros Hr Hf. destruct (runs_kept _ _ (init_ok server bfc ufc) Hr) as [[Hq _] _]. pose proof (wf_cur _ Hq) as Hc. pose proof (proj1 (wf_active _ Hq)) as Hnd.
  destruct (ossl_quic_stream_iter_init q advance) as [it q'] eqn:Ei. pose proof (iter_init_list q advance) as Hl. rewrite Ei in Hl. cbn [snd] in Hl.
  assert (Hit : it = mkIter (rr_cur q) (rr_cur q)).
  { unfold ossl_quic_stream_iter_init in Ei. destruct (rr_cur q); [|by injection Ei]. destruct advance; [|by injection Ei]. by destruct (_ <=? _); injection Ei. }
  subst it. destruct (rr_cur q) as [c|] eqn:Ec; [|split; [done|by destruct fuel]].
  apply list_elem_of_split in Hc as (a & b & Hab). exists a, b, (length a).
  assert (Hnd' : NoDup ((c :: b) ++ a)) by (rewrite (Permutation_app_comm (c :: b)); by rewrite <- Hab).
  split_and!; [done| |done|done|].
  - apply (walk_from q' a b c) with (seen := []); [by rewrite Hl|by rewrite Hl|done|].
    rewrite Hab in Hf. rewrite length_app in *. cbn in Hf. lia.
  - intros n H1 H2. apply (after_inits_spec q (length a) n); auto.
    + by rewrite Hab, Ec, list_lookup_middle.
    + rewrite Hab, length_app. cbn. lia.
Qed.

(** ** The properties of the map *)

(** C5.  Over every life of the map - operations on streams, streams that are opened and released again
    because their initialisation fails, and releases of streams in no list - the map is in order, and every operation a caller may
    make next succeeds: no buffer that is gone is touched, no node is linked twice or
    unlinked while it is not in the list.  In particular the active list and the GC list have exactly the
    streams with these flags, once each; the accept counters and the count of streams
    to flush are exact; the round robin's next stream is an active one; a stream has a send or
    receive buffer exactly in the states the header names, and a part exactly when its type and
    side give it one; STOP_SENDING and RESET_STREAM are wanted only in states in which they may be sent.
    A release removes just that stream, a failed opening leaves the map as it was, and the final
    cleanup frees every stream and empties every list.  What the callers must ensure is [op_pre] and [release_pre]: the stream exists, a stream is
    pushed on the accept queue once and removed when it is there, the final size is known when it is said to be, the shutdown flush is begun
    once, and a stream that is released is not active, not being flushed and not waiting to be accepted. *)
Theorem stream_map_in_order (server : bool) (bfc ufc : option QUIC_RXFC) (q : QUIC_STREAM_MAP) :
  qsm_life server bfc ufc q ->
  qsm_ok q /\ qsm_is_server q = server /\
  (forall env op, op_pre q op -> exists q', run_op env q op = Some q' /\ qsm_ok q') /\
  (forall id, release_pre q id -> exists q', ossl_quic_stream_map_release q id = Some q' /\ qsm_ok q' /\ qsm_map q' = delete id (qsm_map q)) /\
  (forall id s', open_failed q id s' = Some q) /\
  forall order, NoDup order -> (forall i, i ∈ order <-> is_Some (qsm_map q !! i)) ->
    exists q', ossl_quic_stream_map_cleanup order q = Some q' /\ qsm_map q' = ∅ /\ active_list q' = [] /\ accept_list q' = [] /\ ready_for_gc_list q' = [].
Proof.
  intros Hr. destruct (life_ok _ _ _ _ Hr) as [Hk Hsv]. split_and!; [done|exact Hsv|..].
  - intros env op Hp. destruct (run_op_kept env q op Hk Hp) as (q' & Hq' & Hk' & _). by exists q'.
  - intros id (s & Hl & Ha & Hf & Hn). destruct (release_kept q id s Hk Hl Ha Hf Hn) as (q' & H1 & H2 & _ & H3). by exists q'.
  - intros id s'. by apply open_failed_same.
  - intros order Hnd Ho. apply cleanup_empties; [done|by apply ok_covered].
Qed.

(** C12.  Whatever happens to a map, its streams move along the state machines of RFC 9000 only (Ready,
    Send, Data Sent, Data Recvd, Reset Sent, Reset Recvd; Recv, Size Known, Data Recvd, Data Read,
    Reset Recvd, Reset Read), the final size of a send part never changes once it may have been
    sent, and a request to stop sending is never withdrawn and only made while data is
    still expected. *)
Theorem stream_states_follow_rfc (server : bool) (bfc ufc : option QUIC_RXFC) (q1 q2 : QUIC_STREAM_MAP) (id : Z) (s : QUIC_STREAM) :
  qsm_runs (ossl_quic_stream_map_init server bfc ufc) q1 -> qsm_runs q1 q2 -> qsm_map q1 !! id = Some s ->
  exists s', qsm_map q2 !! id = Some s' /\ rtc send_edge (qs_send_state s) (qs_send_state s') /\ rtc recv_edge (qs_recv_state s) (qs_recv_state s') /\
    (send_size_fixed (qs_send_state s) = true -> qs_send_final_size s' = qs_send_final_size s) /\
    (qs_stop_sending s = true -> qs_stop_sending s' = true /\ qs_stop_sending_aec s' = qs_stop_sending_aec s) /\
    (qs_stop_sending s' = true -> qs_stop_sending s = true \/ wants_peer_data (qs_recv_state s) = true).
Proof.
  intros H1 H2 Hs. destruct (runs_kept _ _ (init_ok server bfc ufc) H1) as (Hk & _). destruct (runs_kept _ _ Hk H2) as (_ & _ & He).
  destruct (He _ _ Hs) as (s' & Hs' & [E1 E2 E3 E4 E5 E6 E7 E8]). by exists s'.
Qed.

(** A stream has something to send that flow control and the peer let it send. *)
Definition sendable (env : qsm_env) (s : QUIC_STREAM) : Prop :=
  ossl_quic_stream_has_send_buffer s = true /\ qs_peer_stop_sending s = false /\
  exists ss h iov, qs_sstream s = Some ss /\ ossl_quic_sstream_get_stream_frame ss 0 2 = Some (h, iov) /\
    (h_is_fin h = true /\ h_len h = 0 \/ h_offset h < tx_swm (qs_txfc s) +u ossl_quic_txfc_get_credit (qs_txfc s) (env_conn_txfc env) 0).

(** A stream is due to be visited by the packetiser. *)
Definition needs_service (env : qsm_env) (server : bool) (s : QUIC_STREAM) : Prop :=
  limit_allows env server s = true /\ qs_ready_for_gc s = false /\
  (qs_recv_state s = QUIC_RSTREAM_STATE_RECV /\ (qs_want_max_stream_data s = true \/ has_cwm_changed (qs_rxfc s) = true) \/
   qs_want_stop_sending s = true \/ qs_want_reset_stream s = true \/ sendable env s).

Lemma has_data_spec (env : qsm_env) (s : QUIC_STREAM) (a : bool) : qs_peer_stop_sending s = false -> stream_has_data_to_send env s = Some a -> (a = true <-> sendable env s).
Proof.
  intros Hp Ha. unfold stream_has_data_to_send in Ha. unfold sendable, ossl_quic_stream_has_send_buffer.
  revert Ha. destruct (qs_send_state s); intros Ha; try (injection Ha as <-; split; [done|by intros [? _]]).
  all: revert Ha; destruct (qs_sstream s) as [ss|]; intros Ha; cbn [mbind option_bind] in Ha; [|done].
  all: destruct (ossl_quic_sstream_get_stream_frame ss 0 2) as [[h iov]|] eqn:Ef; injection Ha as <-.
  all: split; [intros Ht|intros (_ & _ & ss' & h' & iov' & Hss & Hf & Ho); injection Hss as <-; rewrite Ef in Hf].
  all: try done; try (injection Hf as <- <-; apply orb_true_iff; destruct Ho as [[H1 H2]|H]; [left; by rewrite H1, H2|right; by apply Z.ltb_lt]).
  all: split; [done|]; split; [done|]; exists ss, h, iov; split; [done|]; split; [done|];
    apply orb_true_iff in Ht as [[H1 H2%Z.eqb_eq]%andb_true_iff|H%Z.ltb_lt]; [by left|by right].
Qed.

Lemma should_be_active_spec (env : qsm_env) (server : bool) (s : QUIC_STREAM) (a : bool) :
  should_be_active env s (limit_allows env server s) = Some a -> (a = true <-> needs_service env server s).
Proof.
  unfold should_be_active, needs_service. destruct (limit_allows env server s), (qs_ready_for_gc s); cbn [negb andb]; try (intros [= <-]; split; [done|by intros (? & ? & _)]).
  set (r := ossl_quic_stream_has_recv s && _ && _).
  assert (Hr : r = true <-> qs_recv_state s = QUIC_RSTREAM_STATE_RECV /\ (qs_want_max_stream_data s = true \/ has_cwm_changed (qs_rxfc s) = true)).
  { subst r. unfold ossl_quic_stream_has_recv, ossl_quic_stream_recv_is_reset. cbn [ossl_quic_rxfc_has_cwm_changed snd].
    destruct (qs_recv_state s) eqn:E; cbn; try (split; [done|by intros []]).
    destruct (qs_want_max_stream_data s), (has_cwm_changed (qs_rxfc s)); cbn; intuition congruence. }
  destruct r eqn:Er; cbn [orb].
  { intros [= <-]. split; [|done]. intros _. split_and!; [done..|]. left. by apply Hr. }
  assert (Hnr : ~ (qs_recv_state s = QUIC_RSTREAM_STATE_RECV /\ (qs_want_max_stream_data s = true \/ has_cwm_changed (qs_rxfc s) = true))) by (by rewrite <- Hr).
  destruct (qs_want_stop_sending s); cbn [orb]; [intros [= <-]; split; [|done]; intros _; split_and!; [done..|]; by right; left|].
  destruct (qs_want_reset_stream s); cbn [orb]; [intros [= <-]; split; [|done]; intros _; split_and!; [done..|]; by right; right; left|].
  destruct (qs_peer_stop_sending s) eqn:Ep.
  - intros [= <-]. split; [done|]. intros (_ & _ & [H|[H|[H|H]]]); try done. destruct H as (_ & H & _). congruence.
  - intros Ha%has_data_spec; [|done]. rewrite Ha. split; [intros H; split_and!; auto|]. by intros (_ & _ & [H|[H|[H|H]]]).
Qed.

(** After an update a stream is in the active list exactly when it is due. *)
Lemma update_active (env : qsm_env) (q q' : QUIC_STREAM_MAP) (id : Z) (s : QUIC_STREAM) : stream_ok (qsm_is_server q) s ->
  let s' := updated env (qsm_is_server q) s in moved q id s' q' -> (id ∈ active_list q' <-> needs_service env (qsm_is_server q) s').
Proof.
  intros Ho s' Hm. rewrite (tracks_iff _ _ _ id s' (wf_active _ (mv_wf _ _ _ _ Hm)) (moved_lookup _ _ _ _ Hm)).
  destruct (should_be_active_some env (before_activation s) (limit_allows env (qsm_is_server q) s)) as (a & Ha); [exact (proj2 (sk_sstream _ _ (acked_checked_ok _ _ Ho)))|].
  assert (Has : qs_active s' = a) by (subst s'; unfold updated; rewrite Ha; done).
  assert (Hlim : limit_allows env (qsm_is_server q) s = limit_allows env (qsm_is_server q) (before_activation s)).
  { destruct (ev_id _ _ (acked_checked_evolves s)) as (E1 & E2 & _).
    unfold limit_allows, ossl_quic_stream_is_server_init, ossl_quic_stream_is_bidi, before_activation, gc_checked. cbn. by rewrite E1, E2. }
  rewrite Hlim in Ha. pose proof (should_be_active_spec _ _ _ _ Ha) as Hspec. rewrite Has, Hspec. done.
Qed.

(** C36.  What [ossl_quic_stream_map_update_state] does to a stream of any reachable map: it ends up in
    the active list exactly when it is due (within the stream limit, not being
    collected, and with a MAX_STREAM_DATA, STOP_SENDING or RESET_STREAM frame to generate, or
    data or a FIN it may send), at the end if it was not there; it is on the GC list exactly when
    the application has deleted it, its peer acknowledged STOP_SENDING and its send part is over; a
    send part whose bytes and FIN are all acknowledged is finished.  The order of the
    other active streams does not change. *)
Theorem update_state_exact (server : bool) (bfc ufc : option QUIC_RXFC) (q : QUIC_STREAM_MAP) (env : qsm_env) (id : Z) (s : QUIC_STREAM) :
  qsm_runs (ossl_quic_stream_map_init server bfc ufc) q -> qsm_map q !! id = Some s ->
  exists q' s', ossl_quic_stream_map_update_state env q id = Some q' /\ qsm_map q' = <[id := s']> (qsm_map q) /\
    (id ∈ active_list q' <-> needs_service env server s') /\
    active_list q' = (if decide (id ∈ active_list q') then if decide (id ∈ active_list q) then active_list q else active_list q ++ [id] else without id (active_list q)) /\
    (id ∈ ready_for_gc_list q' <-> qsm_ready_for_gc s' = true) /\
    without id (ready_for_gc_list q') = without id (ready_for_gc_list q) /\
    (qs_send_state s = QUIC_SSTREAM_STATE_DATA_SENT -> forall ss, qs_sstream s = Some ss -> ossl_quic_sstream_is_totally_acked ss = true ->
     qs_send_state s' = QUIC_SSTREAM_STATE_DATA_RECVD /\ qs_shutdown_flush s' = false).
Proof.
  intros Hr Hs. destruct (runs_kept _ _ (init_ok server bfc ufc) Hr) as ([Hq Hok] & Hsv & _). change (qsm_is_server q = server) in Hsv.
  pose proof (Hok _ _ Hs) as Ho. destruct (update_state_moved env q id s Hq Hs Ho) as (q' & Hu & Hm & Hl). rewrite Hsv in *.
  set (s' := updated env server s) in *. exists q', s'. split; [done|]. split; [exact (mv_map _ _ _ _ Hm)|].
  pose proof (mv_wf _ _ _ _ Hm) as Hq'. pose proof (moved_lookup _ _ _ _ Hm) as Hs'.
  pose proof (tracks_iff _ _ _ id s' (wf_active _ Hq') Hs') as Hact. pose proof (tracks_iff _ _ _ id s (wf_active _ Hq) Hs) as Hact0.
  pose proof (update_active env q q' id s) as Hua. cbn zeta in Hua. rewrite Hsv in Hua. fold s' in Hua.
  split_and!.
  - by apply Hua.
  - destruct (decide (id ∈ active_list q')) as [Hi|Hi]; rewrite Hact in Hi; [rewrite Hi in Hl|apply not_true_iff_false in Hi; rewrite Hi in Hl; done].
    destruct (decide (id ∈ active_list q)) as [Hj|Hj]; rewrite Hact0 in Hj; [by rewrite Hj in Hl|apply not_true_iff_false in Hj; by rewrite Hj in Hl].
  - rewrite (tracks_iff _ _ _ id s' (wf_gc _ Hq') Hs'). pose proof (updated_ok env server s Ho) as Ho'. fold s' in Ho'. split; [intros H; by apply (sk_gc _ _ Ho')|].
    intros H. change (qs_ready_for_gc (acked_checked s) || qsm_ready_for_gc (acked_checked s) = true). change (qsm_ready_for_gc (acked_checked s) = true) in H. rewrite H. apply orb_true_r.
  - exact (mv_gc _ _ _ _ Hm).
  - intros Est ss Hss Hack. subst s'. unfold updated, before_activation, gc_checked, acked_checked. rewrite Est, Hss, Hack. done.
Qed.

(** A stream with a receive part from which all data, or a reset, arrived before the
    application gave it up is never freed: STOP_SENDING is not sent for it any more, so its
    acknowledgement, which the collector waits for, never comes.  A
    stream that does get on the collector's list stays in the map as well, because the
    collector releases nothing. *)
Theorem finished_stream_never_collected (server : bool) (bfc ufc : option QUIC_RXFC) (q1 q2 : QUIC_STREAM_MAP) (id : Z) (s : QUIC_STREAM) :
  qsm_runs (ossl_quic_stream_map_init server bfc ufc) q1 -> qsm_runs q1 q2 -> qsm_map q1 !! id = Some s ->
  ossl_quic_stream_has_recv s = true -> qs_stop_sending s = false -> wants_peer_data (qs_recv_state s) = false ->
  exists s', qsm_map q2 !! id = Some s' /\ qs_stop_sending s' = false /\ (id ∉ ready_for_gc_list q2) /\ ossl_quic_stream_map_gc q2 = Some q2.
Proof.
  intros H1 H2 Hs Hrecv Hstop Hw. destruct (runs_kept _ _ (init_ok server bfc ufc) H1) as (Hk & _). destruct (runs_kept _ _ Hk H2) as ([Hq2 Hok2] & _ & He).
  destruct (He _ _ Hs) as (s' & Hs' & E). exists s'. split; [done|].
  assert (Hst : qs_stop_sending s' = false).
  { destruct (qs_stop_sending s') eqn:Est; [|done]. destruct (ev_new_stop _ _ E Est); congruence. }
  split; [done|]. split; [|apply gc_keeps_all]. rewrite (tracks_iff _ _ _ id s' (wf_gc _ Hq2) Hs'). intros Hg.
  destruct (sk_gc _ _ (Hok2 _ _ Hs') Hg) as [Hr _]. unfold qsm_ready_for_gc in Hr. apply andb_true_iff in Hr as [[_ Hr]%andb_true_iff _].
  assert (Hrecv' : ossl_quic_stream_has_recv s' = true).
  { apply bool_decide_eq_true in Hrecv. apply bool_decide_eq_true. intros Hn. apply Hrecv.
    pose proof (ev_recv _ _ E) as Hp. rewrite Hn in Hp. apply rtc_inv_r in Hp as [->|(y & _ & Hy)]; [done|inversion Hy]. }
  rewrite Hrecv' in Hr. cbn in Hr. pose proof (sk_acked _ _ (Hok2 _ _ Hs') Hr). congruence.
Qed.

(** ** Instances *)

Definition demo_env : qsm_env := mkEnv (Some (fun _ => 8)) (Some (mkTxfc 0 100 false)).
Definition demo_ss : QUIC_SSTREAM :=
  fst (fst (ossl_quic_sstream_append true (mkSstream (mkRing (replicate 8 0) 0 0) [] [] false false false false) [1; 2; 3])).
Definition demo_rs : QUIC_RSTREAM := mkRstream ossl_sframe_list_init (mkRange 0 0) ring_buf_init.
Definition demo_open (id : Z) : qsm_op :=
  OpOpen true id (Some demo_ss) (Some demo_rs) (mkTxfc 0 50 false) (mkRxfc 9 9 0 0 9 9 9 0 0 false true false).
Definition demo_step (q : QUIC_STREAM_MAP) (op : qsm_op) : QUIC_STREAM_MAP := default q (run_op demo_env q op).

Definition demo_init : QUIC_STREAM_MAP := ossl_quic_stream_map_init false None None.
(** A client's stream 0 with three bytes to send and everything received, and the peer's
    streams 1 and 5 waiting to be accepted. *)
Definition demo_ops : list qsm_op :=
  [demo_open 0; demo_open 1; demo_open 5; OpPushAccept 5; OpPushAccept 1; OpSizeKnown 0 9; OpTotallyReceived 0; OpUpdate 0; OpUpdate 5].
Definition demo_map : QUIC_STREAM_MAP := foldl demo_step demo_init demo_ops.

Lemma demo_step_run (q1 q2 : QUIC_STREAM_MAP) (op : qsm_op) : qsm_runs q1 q2 -> op_pre q2 op -> is_Some (run_op demo_env q2 op) -> qsm_runs q1 (demo_step q2 op).
Proof. intros H1 H2 [q3 H3]. eapply qr_step; [done..|]. unfold demo_step. by rewrite H3. Qed.

Lemma demo_runs : qsm_runs demo_init demo_map.
Proof.
  unfold demo_map, demo_ops. cbn [foldl].
  repeat (apply demo_step_run; [| |vm_compute; by eexists]); [apply qr_refl|..].
  all: match goal with
       | |- op_pre _ (demo_open _) => split; [by vm_compute|split; split; by eauto]
       | |- op_pre _ (OpSizeKnown _ _) => eexists; split; [vm_compute; reflexivity|vm_compute; by eexists]
       | |- op_pre _ (OpPushAccept _) => split; [vm_compute; by eexists|apply (bool_decide_unpack _); by vm_compute]
       | |- _ => vm_compute; by eexists
       end.
Qed.

Definition demo_stream : QUIC_STREAM := default (stream_alloc 0 0 false) (qsm_map demo_map !! 0).
Definition demo_reset : QUIC_STREAM_MAP := demo_step demo_map (OpReset 0 7).

Lemma demo_lookup : qsm_map demo_map !! 0 = Some demo_stream.
Proof. by vm_compute. Qed.

Lemma demo_reset_runs : qsm_runs demo_map demo_reset.
Proof. apply demo_step_run; [apply qr_refl|vm_compute; by eexists|vm_compute; by eexists]. Qed.

(** The same map after a stream that could not be set up, and after the stream 9 that was opened and
    given up. *)
Lemma runs_life (server : bool) (bfc ufc : option QUIC_RXFC) (q1 q2 : QUIC_STREAM_MAP) : qsm_runs q1 q2 -> qsm_life server bfc ufc q1 -> qsm_life server bfc ufc q2.
Proof. induction 1 as [|q1 q2 q3 env op _ IH Hp Hr]; [done|]. intros Hl. by eapply life_op; [apply IH| |]. Qed.

Definition demo_opened : QUIC_STREAM_MAP := demo_step demo_map (demo_open 9).
Definition demo_released : QUIC_STREAM_MAP := default demo_map (ossl_quic_stream_map_release demo_opened 9).

Lemma demo_released_life : qsm_life false None None demo_released.
Proof.
  apply (life_release _ _ _ demo_opened 9); [|eexists; split_and!; [by vm_compute..|apply (bool_decide_unpack _); by vm_compute]|by vm_compute].
  apply (runs_life _ _ _ demo_init); [|apply life_init]. apply (demo_step_run _ demo_map); [exact demo_runs| |vm_compute; by eexists].
  split; [by vm_compute|split; split; by eauto].
Qed.

Lemma listed_streams (m : gmap Z QUIC_STREAM) (l : list Z) : bool_decide (dom m = list_to_set (C := gset Z) l) = true ->
  forall i, i ∈ l <-> is_Some (m !! i).
Proof. intros Hd%bool_decide_eq_true i. by rewrite <- elem_of_dom, Hd, elem_of_list_to_set. Qed.

Lemma demo_streams : forall i, i ∈ [0; 1; 5] <-> is_Some (qsm_map demo_released !! i).
Proof. apply listed_streams. by vm_compute. Qed.

Lemma demo_streams_once : NoDup [0; 1; 5].
Proof. apply (bool_decide_unpack _). by vm_compute. Qed.

Lemma stream_map_in_order_witness : qsm_ok demo_released /\ qsm_map demo_released !! 9 = None /\ is_Some (qsm_map demo_opened !! 9) /\
  exists q', ossl_quic_stream_map_cleanup [0; 1; 5] demo_released = Some q' /\ qsm_map q' = ∅.
Proof.
  destruct (stream_map_in_order false None None demo_released demo_released_life) as (H1 & _ & _ & _ & _ & H2).
  split; [exact H1|]. split; [by vm_compute|]. split; [vm_compute; by eexists|].
  destruct (H2 [0; 1; 5] demo_streams_once demo_streams) as (q' & H3 & H4 & _). exists q'. exact (conj H3 H4).
Defined.

Lemma stream_states_follow_rfc_witness : exists s', qsm_map demo_reset !! 0 = Some s' /\ rtc send_edge (qs_send_state demo_stream) (qs_send_state s').
Proof.
  destruct (stream_states_follow_rfc false None None demo_map demo_reset 0 demo_stream demo_runs demo_reset_runs demo_lookup) as (s' & H1 & H2 & _).
  exists s'. by split.
Defined.

Lemma update_state_exact_witness : exists q' s', ossl_quic_stream_map_update_state demo_env demo_map 0 = Some q' /\ qsm_map q' = <[0 := s']> (qsm_map demo_map) /\
  (0 ∈ active_list q' <-> needs_service demo_env false s').
Proof.
  destruct (update_state_exact false None None demo_map demo_env 0 demo_stream demo_runs demo_lookup) as (q' & s' & H1 & H2 & H3 & _).
  exists q', s'. by split_and!.
Defined.

Lemma finished_stream_never_collected_witness : (0 ∉ ready_for_gc_list demo_reset) /\ ossl_quic_stream_map_gc demo_reset = Some demo_reset.
Proof.
  destruct (finished_stream_never_collected false None None demo_map demo_reset 0 demo_stream demo_runs demo_reset_runs demo_lookup) as (s' & _ & _ & H3 & H4);
    [by vm_compute..|]. by split.
Defined.

Lemma accept_queue_first_of_kind_witness : exists r, ossl_quic_stream_map_find_in_accept_queue demo_map false = Some r /\ r = Some 5.
Proof.
  destruct (accept_queue_first_of_kind false None None demo_map false demo_runs) as (r & H1 & _). exists r. split; [exact H1|].
  vm_compute in H1. by injection H1 as <-.
Defined.

Lemma iter_round_robin_witness : length (active_list demo_map) = 2%nat /\
  let '(it, q') := ossl_quic_stream_iter_init demo_map true in
  exists a b, active_list demo_map = a ++ 0 :: b /\ iter_walk 2 q' it = Some ((0 :: b) ++ a).
Proof.
  split; [by vm_compute|]. pose proof (iter_round_robin false None None demo_map true 2 demo_runs ltac:(by vm_compute)) as H.
  destruct (ossl_quic_stream_iter_init demo_map true) as [it q']. assert (Hc : rr_cur demo_map = Some 0) by (by vm_compute). rewrite Hc in H.
  destruct H as (a & b & i & H1 & H2 & _). exists a, b. exact (conj H1 H2).
Defined.
