(* ===== verification/Cfq.v ===== *)
(** * The control frame queue (ssl/quic/quic_cfq.c, include/internal/quic_cfq.h)

    A [QUIC_CFQ_ITEM] is a prefix of its [QUIC_CFQ_ITEM_EX]; both are named by the
    address of the item, an integer, and the items allocated so far are the map
    [cfq_items].  The lists through [prev] and [next] are lists of addresses.  The
    links [pkt_prev] and [pkt_next] of the public part, which the queue does not
    use, stay pointers, because the packets that link items through them share
    them.  An operation gives [None] where the C code fails an assertion,
    dereferences a dangling pointer, or corrupts a list (unlinking an item from a
    list it is not in, linking it twice).  Calls of the free callbacks are
    recorded in [cfq_freed].  [alloc] is what the allocator returns. *)

From S2P Require Import Prelude.

(** ** Items *)

(** A buffer with the callback that frees it: the address of the encoded frame,
    its length, and the callback with its argument ([None] for NULL). *)
Record cfq_buf := mkBuf { buf_ptr : option Z; buf_len : Z; buf_free_cb : option (Z * Z) }.
#[export] Instance cfq_buf_eq_dec : EqDecision cfq_buf.
Proof. solve_decision. Defined.

Record QUIC_CFQ_ITEM_EX := mkItem {
  pkt_prev : option Z; pkt_next : option Z;
  ci_encoded : option Z; ci_free_cb : option (Z * Z);
  ci_frame_type : Z; ci_encoded_len : Z; ci_priority : Z; ci_pn_space : Z; ci_flags : Z; ci_state : Z }.
#[export] Instance eta_item : Eta QUIC_CFQ_ITEM_EX := fun i =>
  mkItem (pkt_prev i) (pkt_next i) (ci_encoded i) (ci_free_cb i) (ci_frame_type i) (ci_encoded_len i)
    (ci_priority i) (ci_pn_space i) (ci_flags i) (ci_state i).

Definition QUIC_CFQ_STATE_NEW : Z := 0.
Definition QUIC_CFQ_STATE_TX : Z := 1.
Definition QUIC_CFQ_ITEM_FLAG_UNRELIABLE : Z := 1.
Definition UINT32_MAX : Z := 4294967295.

Definition ossl_quic_cfq_item_get_frame_type (item : QUIC_CFQ_ITEM_EX) : Z := ci_frame_type item.
Definition ossl_quic_cfq_item_get_encoded (item : QUIC_CFQ_ITEM_EX) : option Z := ci_encoded item.
Definition ossl_quic_cfq_item_get_encoded_len (item : QUIC_CFQ_ITEM_EX) : Z := ci_encoded_len item.
Definition ossl_quic_cfq_item_get_state (item : QUIC_CFQ_ITEM_EX) : Z := ci_state item.
Definition ossl_quic_cfq_item_get_pn_space (item : QUIC_CFQ_ITEM_EX) : Z := ci_pn_space item.
Definition ossl_quic_cfq_item_is_unreliable (item : QUIC_CFQ_ITEM_EX) : bool :=
  negb (Z.land (ci_flags item) QUIC_CFQ_ITEM_FLAG_UNRELIABLE =? 0).

(** ** The queue *)

Record QUIC_CFQ := mkCfq {
  cfq_items : gmap Z QUIC_CFQ_ITEM_EX;
  new_list : list Z; tx_list : list Z; free_list : list Z;
  cfq_freed : list cfq_buf }.
#[export] Instance eta_cfq : Eta QUIC_CFQ := fun c =>
  mkCfq (cfq_items c) (new_list c) (tx_list c) (free_list c) (cfq_freed c).

Definition compare (a b : QUIC_CFQ_ITEM_EX) : Z :=
  if ci_pn_space a <? ci_pn_space b then -1
  else if ci_pn_space b <? ci_pn_space a then 1
  else if ci_priority b <? ci_priority a then -1
  else if ci_priority a <? ci_priority b then 1
  else 0.

Definition list_remove (l : list Z) (n : Z) : option (list Z) :=
  if decide (n ∈ l) then Some (filter (fun m => m <> n) l) else None.

Definition list_insert_head (l : list Z) (n : Z) : option (list Z) :=
  if decide (n ∈ l) then None else Some (n :: l).

Definition list_insert_tail (l : list Z) (n : Z) : option (list Z) :=
  if decide (n ∈ l) then None else Some (l ++ [n]).

Fixpoint insert_behind (l : list Z) (ref n : Z) : list Z :=
  match l with
  | [] => []
  | p :: next => if p =? ref then p :: n :: next else p :: insert_behind next ref n
  end.

Definition list_insert_after (l : list Z) (ref n : Z) : option (list Z) :=
  if decide (n ∈ l) then None else Some (insert_behind l ref n).

(** The loop that looks for the first item not before [n]: [pprev] and [p]. *)
Fixpoint seek_sorted (items : gmap Z QUIC_CFQ_ITEM_EX) (n : QUIC_CFQ_ITEM_EX) (pprev : option Z) (l : list Z)
  : option (option Z * option Z) :=
  match l with
  | [] => Some (pprev, None)
  | p :: next =>
      ip ← items !! p;
      if compare ip n <? 0 then seek_sorted items n (Some p) next else Some (pprev, Some p)
  end.

Definition list_insert_sorted (items : gmap Z QUIC_CFQ_ITEM_EX) (l : list Z) (n : Z) : option (list Z) :=
  i ← items !! n;
  match l with
  | [] => Some [n]
  | _ :: _ =>
      '(pprev, p) ← seek_sorted items i None l;
      match p, pprev with
      | None, _ => list_insert_tail l n
      | Some _, None => list_insert_head l n
      | Some _, Some ref => list_insert_after l ref n
      end
  end.

Definition ossl_quic_cfq_new : QUIC_CFQ := mkCfq ∅ [] [] [] [].

Definition cfq_upd (c : QUIC_CFQ) (item : Z) (f : QUIC_CFQ_ITEM_EX -> QUIC_CFQ_ITEM_EX) : QUIC_CFQ :=
  c <| cfq_items := alter f item (cfq_items c) |>.

(** [item->free_cb] is called and cleared when there is one. *)
Definition clear_item (c : QUIC_CFQ) (item : Z) : option QUIC_CFQ :=
  i ← cfq_items c !! item;
  let c :=
    match ci_free_cb i with
    | None => c
    | Some cb =>
        (cfq_upd c item (fun i => i <| ci_free_cb := None |> <| ci_encoded := None |> <| ci_encoded_len := 0 |>))
          <| cfq_freed := cfq_freed c ++ [mkBuf (ci_encoded i) (ci_encoded_len i) (Some cb)] |>
    end in
  Some (cfq_upd c item (fun i => i <| ci_state := -1 |>)).

Definition free_list_items (c : QUIC_CFQ) (l : list Z) : option QUIC_CFQ :=
  foldl (fun r p => c ← r; c ← clear_item c p; Some (c <| cfq_items := delete p (cfq_items c) |>)) (Some c) l.

Definition ossl_quic_cfq_free (c : QUIC_CFQ) : option QUIC_CFQ :=
  c ← free_list_items c (new_list c);
  c ← free_list_items c (tx_list c);
  free_list_items c (free_list c).

(** A zeroed item, in the free state. *)
Definition item_alloc : QUIC_CFQ_ITEM_EX := mkItem None None None None 0 0 0 0 0 (-1).

(** The inner [None] is NULL. *)
Definition cfq_get_free (alloc : option Z) (c : QUIC_CFQ) : option (QUIC_CFQ * option Z) :=
  match free_list c with
  | item :: _ => Some (c, Some item)
  | [] =>
      match alloc with
      | None => Some (c, None)
      | Some item =>
          l ← list_insert_tail (free_list c) item;
          Some (c <| cfq_items := <[item := item_alloc]> (cfq_items c) |> <| free_list := l |>, Some item)
      end
  end.

Definition ossl_quic_cfq_add_frame (alloc : option Z) (c : QUIC_CFQ) (priority pn_space frame_type flags : Z)
  (encoded : option Z) (encoded_len : Z) (free_cb : option (Z * Z)) : option (QUIC_CFQ * option Z) :=
  '(c, r) ← cfq_get_free alloc c;
  match r with
  | None => Some (c, None)
  | Some item =>
      let c := cfq_upd c item (fun i =>
        i <| ci_priority := priority |> <| ci_frame_type := frame_type |> <| ci_pn_space := pn_space |>
          <| ci_encoded := encoded |> <| ci_encoded_len := encoded_len |> <| ci_free_cb := free_cb |>
          <| ci_state := QUIC_CFQ_STATE_NEW |> <| ci_flags := flags |>) in
      l ← list_remove (free_list c) item;
      let c := c <| free_list := l |> in
      l ← list_insert_sorted (cfq_items c) (new_list c) item;
      Some (c <| new_list := l |>, Some item)
  end.

Definition ossl_quic_cfq_mark_tx (c : QUIC_CFQ) (item : Z) : option QUIC_CFQ :=
  i ← cfq_items c !! item;
  if ci_state i =? QUIC_CFQ_STATE_NEW then
    l ← list_remove (new_list c) item;
    l' ← list_insert_tail (tx_list c) item;
    Some (cfq_upd (c <| new_list := l |> <| tx_list := l' |>) item (fun i => i <| ci_state := QUIC_CFQ_STATE_TX |>))
  else if ci_state i =? QUIC_CFQ_STATE_TX then Some c
  else None.

Definition ossl_quic_cfq_release (c : QUIC_CFQ) (item : Z) : option QUIC_CFQ :=
  i ← cfq_items c !! item;
  if ci_state i =? QUIC_CFQ_STATE_NEW then
    l ← list_remove (new_list c) item;
    l' ← list_insert_tail (free_list c) item;
    clear_item (c <| new_list := l |> <| free_list := l' |>) item
  else if ci_state i =? QUIC_CFQ_STATE_TX then
    l ← list_remove (tx_list c) item;
    l' ← list_insert_tail (free_list c) item;
    clear_item (c <| tx_list := l |> <| free_list := l' |>) item
  else None.

Definition ossl_quic_cfq_mark_lost (c : QUIC_CFQ) (item priority : Z) : option QUIC_CFQ :=
  i ← cfq_items c !! item;
  if ossl_quic_cfq_item_is_unreliable i then ossl_quic_cfq_release c item
  else if ci_state i =? QUIC_CFQ_STATE_NEW then
    if negb (priority =? UINT32_MAX) && negb (priority =? ci_priority i) then
      l ← list_remove (new_list c) item;
      let c := cfq_upd (c <| new_list := l |>) item (fun i => i <| ci_priority := priority |>) in
      l ← list_insert_sorted (cfq_items c) (new_list c) item;
      Some (c <| new_list := l |>)
    else Some c
  else if ci_state i =? QUIC_CFQ_STATE_TX then
    let c := if negb (priority =? UINT32_MAX) then cfq_upd c item (fun i => i <| ci_priority := priority |>) else c in
    l ← list_remove (tx_list c) item;
    let c := c <| tx_list := l |> in
    l ← list_insert_sorted (cfq_items c) (new_list c) item;
    Some (cfq_upd (c <| new_list := l |>) item (fun i => i <| ci_state := QUIC_CFQ_STATE_NEW |>))
  else None.

(** The first item of the list in the space; the inner [None] is NULL. *)
Fixpoint find_in_space (items : gmap Z QUIC_CFQ_ITEM_EX) (l : list Z) (pn_space : Z) : option (option Z) :=
  match l with
  | [] => Some None
  | item :: next =>
      i ← items !! item;
      if negb (ci_pn_space i =? pn_space) then find_in_space items next pn_space else Some (Some item)
  end.

Definition ossl_quic_cfq_get_priority_head (c : QUIC_CFQ) (pn_space : Z) : option (option Z) :=
  find_in_space (cfq_items c) (new_list c) pn_space.

(** The items behind [n] in a list. *)
Fixpoint list_behind (l : list Z) (n : Z) : list Z :=
  match l with
  | [] => []
  | p :: next => if p =? n then next else list_behind next n
  end.

(** The list an item is in, through which its [next] leads. *)
Definition list_of_item (c : QUIC_CFQ) (i : QUIC_CFQ_ITEM_EX) : list Z :=
  if ci_state i =? QUIC_CFQ_STATE_NEW then new_list c else if ci_state i =? QUIC_CFQ_STATE_TX then tx_list c else free_list c.

Definition ossl_quic_cfq_item_get_priority_next (c : QUIC_CFQ) (item : option Z) (pn_space : Z) : option (option Z) :=
  match item with
  | None => Some None
  | Some n =>
      i ← cfq_items c !! n;
      find_in_space (cfq_items c) (list_behind (list_of_item c i) n) pn_space
  end.

(** ** Lists of items *)

Lemma elem_of_filter_ne (l : list Z) (n m : Z) : m ∈ filter (fun x => x <> n) l <-> m ∈ l /\ m <> n.
Proof. rewrite list_elem_of_filter. tauto. Qed.

Lemma filter_ne_perm (l : list Z) (n : Z) : NoDup l -> n ∈ l -> l ≡ₚ n :: filter (fun x => x <> n) l.
Proof.
  intros Hnd Hin. apply NoDup_Permutation; [done| |].
  - apply NoDup_cons. split; [rewrite elem_of_filter_ne; tauto|by apply NoDup_filter].
  - intros x. rewrite elem_of_cons, elem_of_filter_ne. destruct (decide (x = n)) as [->|]; tauto.
Qed.

Lemma list_remove_spec (l : list Z) (n : Z) : n ∈ l -> list_remove l n = Some (filter (fun x => x <> n) l).
Proof. intros. unfold list_remove. by rewrite decide_True. Qed.

Lemma list_insert_tail_spec (l : list Z) (n : Z) : (n ∉ l) -> list_insert_tail l n = Some (l ++ [n]).
Proof. intros. unfold list_insert_tail. by rewrite decide_False. Qed.

Lemma StronglySorted_filter_ne (R : Z -> Z -> Prop) (l : list Z) (n : Z) :
  StronglySorted R l -> StronglySorted R (filter (fun x => x <> n) l).
Proof.
  induction 1 as [|x l Hs IH Hf]; [constructor|]. rewrite filter_cons. case_decide; [|done].
  constructor; [done|]. rewrite Forall_forall in *. intros y [? _]%elem_of_filter_ne. auto.
Qed.

Lemma insert_behind_split (l1 l2 : list Z) (ref n : Z) : (ref ∉ l1) -> insert_behind (l1 ++ ref :: l2) ref n = l1 ++ ref :: n :: l2.
Proof.
  induction l1 as [|p l1 IH]; cbn; intros Hni; [by rewrite Z.eqb_refl|].
  apply not_elem_of_cons in Hni as [? ?]. destruct (Z.eqb_spec p ref); [congruence|]. by rewrite IH.
Qed.

(** ** The priority order *)

Definition item_key (i : QUIC_CFQ_ITEM_EX) : Z * Z := (ci_pn_space i, ci_priority i).

Lemma compare_le (a b : QUIC_CFQ_ITEM_EX) : compare a b <= 0 <->
  ci_pn_space a < ci_pn_space b \/ (ci_pn_space a = ci_pn_space b /\ ci_priority b <= ci_priority a).
Proof. unfold compare. bdestruct_all; lia. Qed.

Lemma compare_opp (a b : QUIC_CFQ_ITEM_EX) : compare b a = - compare a b.
Proof. unfold compare. bdestruct_all; lia. Qed.

(** [a] may stand in front of [b]. *)
Definition item_le (items : gmap Z QUIC_CFQ_ITEM_EX) (a b : Z) : Prop :=
  match items !! a, items !! b with Some i, Some j => compare i j <= 0 | _, _ => False end.

Definition in_order (items : gmap Z QUIC_CFQ_ITEM_EX) (l : list Z) : Prop := StronglySorted (item_le items) l.

Lemma in_order_ext (items items' : gmap Z QUIC_CFQ_ITEM_EX) (l : list Z) :
  (forall a, a ∈ l -> item_key <$> items' !! a = item_key <$> items !! a) -> in_order items l -> in_order items' l.
Proof.
  intros He Hs. induction Hs as [|x l Hs IH Hf]; [constructor|].
  constructor; [apply IH; intros; apply He; by right|]. rewrite Forall_forall in *. intros y Hy.
  pose proof (He x ltac:(left)) as Hx'. pose proof (He y ltac:(by right)) as Hy'. specialize (Hf y Hy).
  unfold item_le in *. destruct (items !! x), (items !! y), (items' !! x), (items' !! y); try done.
  unfold item_key in *. cbn in *. rewrite compare_le in *. injection Hx'. injection Hy'. intros. subst. lia.
Qed.

Lemma in_order_upd (c : QUIC_CFQ) (item : Z) (f : QUIC_CFQ_ITEM_EX -> QUIC_CFQ_ITEM_EX) (l : list Z) :
  (item ∉ l) \/ (forall i, item_key (f i) = item_key i) -> in_order (cfq_items c) l -> in_order (alter f item (cfq_items c)) l.
Proof.
  intros Hf. apply in_order_ext. intros a Ha. destruct (decide (item = a)) as [->|]; [|by rewrite lookup_alter_ne].
  destruct Hf as [|Hf]; [done|]. rewrite lookup_alter_eq. destruct (cfq_items c !! a); [|done]. cbn. by rewrite Hf.
Qed.

Lemma seek_sorted_spec (items : gmap Z QUIC_CFQ_ITEM_EX) (i : QUIC_CFQ_ITEM_EX) (l : list Z) : forall pprev,
  (forall a, a ∈ l -> is_Some (items !! a)) ->
  exists l1 l2, l = l1 ++ l2 /\ seek_sorted items i pprev l = Some (match last l1 with None => pprev | r => r end, head l2) /\
    (forall a ia, a ∈ l1 -> items !! a = Some ia -> compare ia i < 0) /\
    (forall a ia, head l2 = Some a -> items !! a = Some ia -> 0 <= compare ia i).
Proof.
  induction l as [|p l IH]; cbn; intros pprev Hl.
  - exists [], []. split_and!; try done. set_solver.
  - destruct (Hl p ltac:(left)) as [ip Hp]. rewrite Hp. cbn. destruct (Z.ltb_spec (compare ip i) 0).
    + destruct (IH (Some p) ltac:(intros; apply Hl; by right)) as (l1 & l2 & -> & Hs & H1 & H2). exists (p :: l1), l2.
      split_and!; [done| |intros a ia [->|]%elem_of_cons; [naive_solver|by apply H1]|done].
      rewrite Hs. f_equal. f_equal. destruct l1; [done|]. rewrite last_cons_cons. by destruct (last (z :: l1)) eqn:E; [|apply last_None in E].
    + exists [], (p :: l). split_and!; try done; [set_solver|]. intros a ia [= ->]. naive_solver.
Qed.

(** An item goes behind the items before it and in front of all others, the
    ones with the same key included. *)
Lemma list_insert_sorted_spec (items : gmap Z QUIC_CFQ_ITEM_EX) (l : list Z) (n : Z) (i : QUIC_CFQ_ITEM_EX) :
  items !! n = Some i -> (n ∉ l) -> NoDup l -> (forall a, a ∈ l -> is_Some (items !! a)) -> in_order items l ->
  exists l1 l2, l = l1 ++ l2 /\ list_insert_sorted items l n = Some (l1 ++ n :: l2) /\ in_order items (l1 ++ n :: l2) /\
    (forall a ia, a ∈ l1 -> items !! a = Some ia -> compare ia i < 0) /\
    (forall a ia, a ∈ l2 -> items !! a = Some ia -> 0 <= compare ia i).
Proof.
  intros Hi Hni Hnd Hl Hs. destruct (seek_sorted_spec items i l None Hl) as (l1 & l2 & -> & Hseek & H1 & H2).
  exists l1, l2. assert (forall a ia, a ∈ l2 -> items !! a = Some ia -> 0 <= compare ia i) as H2'.
  { intros a ia Ha Hia. destruct l2 as [|p l2]; [by apply elem_of_nil in Ha|].
    assert (StronglySorted (item_le items) (p :: l2)) as Hp by (by eapply StronglySorted_app_1_r).
    apply elem_of_cons in Ha as [->|Ha]; [by eapply (H2 p)|]. apply StronglySorted_inv in Hp as [_ Hp].
    rewrite Forall_forall in Hp. specialize (Hp a Ha). unfold item_le in Hp. rewrite Hia in Hp.
    destruct (items !! p) as [ip|] eqn:Hp'; [|done]. specialize (H2 p ip eq_refl Hp').
    pose proof (compare_opp i ip). pose proof (compare_opp i ia). pose proof (compare_le ip ia). pose proof (compare_le i ip).
    pose proof (compare_le i ia). lia. }
  split_and!; try done.
  - unfold list_insert_sorted. rewrite Hi. cbn [mbind option_bind]. destruct (l1 ++ l2) as [|p l'] eqn:E.
    { apply app_eq_nil in E as [-> ->]. done. }
    rewrite <- E in *. clear E. rewrite Hseek. cbn [mbind option_bind]. destruct l2 as [|q l2]; cbn [head].
    + rewrite app_nil_r in *. by rewrite list_insert_tail_spec.
    + destruct (last l1) as [ref|] eqn:El.
      * apply last_Some in El as [l1' ->]. rewrite <- !app_assoc in *. cbn [app] in *. unfold list_insert_after.
        rewrite decide_False by done. rewrite insert_behind_split; [done|]. apply NoDup_app in Hnd as (_ & Hd & _). intros Hr. by eapply Hd; [exact Hr|left].
      * apply last_None in El as ->. cbn [app]. unfold list_insert_head. by rewrite decide_False.
  - assert (in_order items l1) as S1 by (by eapply StronglySorted_app_1_l). assert (in_order items l2) as S2 by (by eapply StronglySorted_app_1_r).
    apply StronglySorted_app_2; [|done|].
    + intros x y Hx Hy. apply elem_of_cons in Hy as [->|Hy]; [|by eapply StronglySorted_app_1_elem_of].
      destruct (Hl x ltac:(set_solver)) as [ix Hix]. unfold item_le. rewrite Hix, Hi. specialize (H1 x ix Hx Hix). lia.
    + constructor; [done|]. apply Forall_forall. intros y Hy. destruct (Hl y ltac:(set_solver)) as [iy Hiy]. unfold item_le.
      rewrite Hi, Hiy. specialize (H2' y iy Hy Hiy). rewrite compare_opp. lia.
Qed.

(** ** The buffers the queue holds *)

Definition item_buf (i : QUIC_CFQ_ITEM_EX) : option cfq_buf :=
  match ci_free_cb i with None => None | Some cb => Some (mkBuf (ci_encoded i) (ci_encoded_len i) (Some cb)) end.

Definition owned (items : gmap Z QUIC_CFQ_ITEM_EX) : list cfq_buf := omap item_buf (map_to_list items).*2.

Lemma owned_insert_new (items : gmap Z QUIC_CFQ_ITEM_EX) (a : Z) (i : QUIC_CFQ_ITEM_EX) :
  items !! a = None -> owned (<[a := i]> items) ≡ₚ option_list (item_buf i) ++ owned items.
Proof. intros Ha. unfold owned. rewrite map_to_list_insert by done. cbn. by destruct (item_buf i). Qed.

Lemma owned_alter (items : gmap Z QUIC_CFQ_ITEM_EX) (a : Z) (i : QUIC_CFQ_ITEM_EX) (f : QUIC_CFQ_ITEM_EX -> QUIC_CFQ_ITEM_EX) :
  items !! a = Some i ->
  option_list (item_buf i) ++ owned (alter f a items) ≡ₚ option_list (item_buf (f i)) ++ owned items.
Proof.
  intros Ha. assert (alter f a items = <[a := f i]> (delete a items)) as ->.
  { apply map_eq. intros b. destruct (decide (a = b)) as [<-|].
    - by rewrite lookup_alter_eq, Ha, lookup_insert_eq.
    - by rewrite lookup_alter_ne, lookup_insert_ne, lookup_delete_ne. }
  rewrite owned_insert_new by apply lookup_delete_eq.
  rewrite <- (insert_delete_id items a i Ha) at 2. rewrite owned_insert_new by apply lookup_delete_eq. solve_Permutation.
Qed.

Lemma owned_alter_same (items : gmap Z QUIC_CFQ_ITEM_EX) (a : Z) (f : QUIC_CFQ_ITEM_EX -> QUIC_CFQ_ITEM_EX) :
  (forall i, item_buf (f i) = item_buf i) -> owned (alter f a items) ≡ₚ owned items.
Proof.
  intros Hf. destruct (items !! a) as [i|] eqn:Ha.
  - pose proof (owned_alter items a i f Ha) as Ho. rewrite Hf in Ho. by apply Permutation_app_inv_l in Ho.
  - by rewrite alter_id by (intros; congruence).
Qed.

(** ** Well-formed queues

    An item is in exactly the list its state names, a free item holds no buffer,
    and the items waiting for transmission are in priority order. *)

Definition state_of (c : QUIC_CFQ) (a : Z) : option Z := ci_state <$> cfq_items c !! a.

Record cfq_wf (c : QUIC_CFQ) : Prop := {
  wf_new : forall a, a ∈ new_list c <-> state_of c a = Some QUIC_CFQ_STATE_NEW;
  wf_tx : forall a, a ∈ tx_list c <-> state_of c a = Some QUIC_CFQ_STATE_TX;
  wf_free : forall a, a ∈ free_list c <-> state_of c a = Some (-1);
  wf_states : forall a s, state_of c a = Some s -> s = QUIC_CFQ_STATE_NEW \/ s = QUIC_CFQ_STATE_TX \/ s = -1;
  wf_nodup : NoDup (new_list c) /\ NoDup (tx_list c) /\ NoDup (free_list c);
  wf_clear : forall a i, cfq_items c !! a = Some i -> ci_state i = -1 -> ci_free_cb i = None;
  wf_order : in_order (cfq_items c) (new_list c) }.

Lemma state_of_some (c : QUIC_CFQ) (a : Z) (i : QUIC_CFQ_ITEM_EX) : cfq_items c !! a = Some i -> state_of c a = Some (ci_state i).
Proof. intros Ha. unfold state_of. by rewrite Ha. Qed.

Lemma state_of_inv (c : QUIC_CFQ) (a s : Z) : state_of c a = Some s -> exists i, cfq_items c !! a = Some i /\ ci_state i = s.
Proof. unfold state_of. destruct (cfq_items c !! a) as [i|]; [|done]. intros [= <-]. eauto. Qed.

Lemma state_of_alter (c c' : QUIC_CFQ) (item : Z) (f : QUIC_CFQ_ITEM_EX -> QUIC_CFQ_ITEM_EX) (a : Z) :
  cfq_items c' = alter f item (cfq_items c) ->
  state_of c' a = if decide (a = item) then ci_state ∘ f <$> cfq_items c !! item else state_of c a.
Proof.
  intros He. unfold state_of. rewrite He. case_decide as Hd.
  - subst. rewrite lookup_alter_eq. by destruct (cfq_items c !! item).
  - by rewrite lookup_alter_ne.
Qed.

(** Two well-formed lists of one queue share no item. *)
Lemma lists_disjoint (c : QUIC_CFQ) (a : Z) : cfq_wf c ->
  (a ∈ new_list c -> (a ∉ tx_list c) /\ (a ∉ free_list c)) /\ (a ∈ tx_list c -> (a ∉ new_list c) /\ (a ∉ free_list c)) /\
  (a ∈ free_list c -> (a ∉ new_list c) /\ (a ∉ tx_list c)).
Proof. intros W. rewrite (wf_new c W), (wf_tx c W), (wf_free c W). split_and!; intros ->; split; intros [=]. Qed.

Lemma cfq_new_wf : cfq_wf ossl_quic_cfq_new.
Proof. split; cbn; try (intros; unfold state_of; cbn; rewrite lookup_empty; set_solver); try done. split_and!; constructor. constructor. Qed.

(** An operation that changes one item and moves it to the list of its new state. *)
Lemma wf_move (c c' : QUIC_CFQ) (item s : Z) : cfq_wf c ->
  (forall a, a <> item -> cfq_items c' !! a = cfq_items c !! a) ->
  (exists i, cfq_items c' !! item = Some i /\ ci_state i = s /\ (s = -1 -> ci_free_cb i = None)) ->
  s = QUIC_CFQ_STATE_NEW \/ s = QUIC_CFQ_STATE_TX \/ s = -1 ->
  (forall a, a <> item -> (a ∈ new_list c' <-> a ∈ new_list c) /\ (a ∈ tx_list c' <-> a ∈ tx_list c) /\ (a ∈ free_list c' <-> a ∈ free_list c)) ->
  (item ∈ new_list c' <-> s = QUIC_CFQ_STATE_NEW) -> (item ∈ tx_list c' <-> s = QUIC_CFQ_STATE_TX) -> (item ∈ free_list c' <-> s = -1) ->
  NoDup (new_list c') -> NoDup (tx_list c') -> NoDup (free_list c') -> in_order (cfq_items c') (new_list c') -> cfq_wf c'.
Proof.
  intros W Hi (i & Hit & His & Hcb) Hs Hl Hn Ht Hf N1 N2 N3 Ho.
  assert (forall a, a <> item -> state_of c' a = state_of c a) as Hst by (intros; unfold state_of; by rewrite Hi).
  pose proof (state_of_some c' item i Hit) as Hsi. rewrite His in Hsi.
  assert (forall (l l' : list Z) (t : Z), (forall a, a ∈ l <-> state_of c a = Some t) -> (forall a, a <> item -> (a ∈ l' <-> a ∈ l)) ->
    (item ∈ l' <-> s = t) -> forall a, a ∈ l' <-> state_of c' a = Some t) as Hgen.
  { intros l l' t H1 H2 H3 a. destruct (decide (a = item)) as [->|Hne].
    - rewrite H3, Hsi. split; [by intros ->|by intros [= ->]].
    - by rewrite H2, Hst. }
  split; try done.
  - eapply Hgen; [apply (wf_new c W)|apply Hl|done].
  - eapply Hgen; [apply (wf_tx c W)|apply Hl|done].
  - eapply Hgen; [apply (wf_free c W)|apply Hl|done].
  - intros a t. destruct (decide (a = item)) as [->|]; [rewrite Hsi; by intros [= <-]|rewrite Hst by done; apply (wf_states c W)].
  - intros a ia Ha Hsa. destruct (decide (a = item)) as [->|]; [|rewrite Hi in Ha by done; by eapply (wf_clear c W)].
    rewrite Hit in Ha. injection Ha as <-. apply Hcb. congruence.
Qed.

(** ** The operations on well-formed queues *)

(** A handle the caller may use: the item is waiting or in flight. *)
Definition live (c : QUIC_CFQ) (item : Z) : Prop := item ∈ new_list c \/ item ∈ tx_list c.

Lemma filter_ne_nodup (l : list Z) (n : Z) : NoDup l -> NoDup (filter (fun x => x <> n) l).
Proof. apply NoDup_filter. Qed.

Lemma snoc_nodup (l : list Z) (n : Z) : NoDup l -> (n ∉ l) -> NoDup (l ++ [n]).
Proof. intros. apply NoDup_app. split_and!; [done|set_solver|apply NoDup_singleton]. Qed.

Lemma insert_mid (l1 l2 : list Z) (n : Z) : NoDup (l1 ++ l2) -> (n ∉ l1 ++ l2) ->
  NoDup (l1 ++ n :: l2) /\ (forall a, a ∈ l1 ++ n :: l2 <-> a = n \/ a ∈ l1 ++ l2).
Proof.
  intros Hnd Hni. split; [|set_solver]. assert (l1 ++ n :: l2 ≡ₚ n :: (l1 ++ l2)) as -> by solve_Permutation. by constructor.
Qed.

(** [item] ends in state [s], every other item is left alone, and every buffer
    the queue held is still held or was given to its callback. *)
Record moves (c c' : QUIC_CFQ) (item s : Z) : Prop := {
  mv_wf : cfq_wf c';
  mv_other : forall a, a <> item -> cfq_items c' !! a = cfq_items c !! a;
  mv_state : state_of c' item = Some s;
  mv_link : pkt_next <$> cfq_items c' !! item = pkt_next <$> cfq_items c !! item;
  mv_bufs : owned (cfq_items c') ++ cfq_freed c' ≡ₚ owned (cfq_items c) ++ cfq_freed c }.

Lemma live_state (c : QUIC_CFQ) (item : Z) : cfq_wf c -> live c item ->
  exists i, cfq_items c !! item = Some i /\ (ci_state i = QUIC_CFQ_STATE_NEW \/ ci_state i = QUIC_CFQ_STATE_TX).
Proof.
  intros W [Hl|Hl]; [apply (wf_new c W) in Hl|apply (wf_tx c W) in Hl]; apply state_of_inv in Hl as (i & ? & ?); eauto.
Qed.

Lemma in_order_filter (items : gmap Z QUIC_CFQ_ITEM_EX) (l : list Z) (n : Z) :
  in_order items l -> in_order items (filter (fun x => x <> n) l).
Proof. apply StronglySorted_filter_ne. Qed.

Create HintDb cfq discriminated.
#[export] Hint Resolve filter_ne_nodup snoc_nodup in_order_filter in_order_upd : cfq.

Lemma items_present (c : QUIC_CFQ) (a : Z) : cfq_wf c -> a ∈ new_list c -> is_Some (cfq_items c !! a).
Proof. intros W Ha. apply (wf_new c W), state_of_inv in Ha as (i & -> & _). eauto. Qed.

Lemma mark_tx_spec (c : QUIC_CFQ) (item : Z) : cfq_wf c -> live c item ->
  exists c', ossl_quic_cfq_mark_tx c item = Some c' /\ moves c c' item QUIC_CFQ_STATE_TX /\ cfq_freed c' = cfq_freed c.
Proof.
  intros W Hl. destruct (live_state c item W Hl) as (i & Hi & [Hs|Hs]); unfold ossl_quic_cfq_mark_tx; rewrite Hi; cbn [mbind option_bind]; rewrite Hs.
  - pose proof (state_of_some c item i Hi) as Hst. rewrite Hs in Hst. apply (wf_new c W) in Hst as Hin.
    pose proof (lists_disjoint c item W) as (Hd & _ & _). destruct (Hd Hin) as [Hnt Hnf]. destruct (wf_nodup c W) as (N1 & N2 & N3).
    cbn -[list_remove list_insert_tail filter]. rewrite list_remove_spec, list_insert_tail_spec by done. cbn -[filter].
    eexists. split; [done|]. split; [|done]. unfold cfq_upd. split; cbn -[filter].
    + eapply (wf_move c _ item QUIC_CFQ_STATE_TX W); cbn -[filter]; eauto with cfq.
      * intros. by rewrite lookup_alter_ne.
      * eexists. rewrite lookup_alter_eq, Hi. split; [done|]. done.
      * intros a Ha. rewrite elem_of_filter_ne. set_solver.
      * rewrite elem_of_filter_ne. split; [tauto|done].
      * set_solver.
      * split; [done|done].
      * apply in_order_upd; [left; rewrite elem_of_filter_ne; tauto|]. by apply in_order_filter, W.
    + intros. by rewrite lookup_alter_ne.
    + unfold state_of. cbn. by rewrite lookup_alter_eq, Hi.
    + by rewrite lookup_alter_eq, Hi.
    + by rewrite owned_alter_same.
  - exists c. split; [done|]. split; [|done]. split; try done. by rewrite (state_of_some c item i Hi), Hs.
Qed.

(** [clear_item] empties an item that is already in the free list. *)
Lemma clear_item_bufs (c : QUIC_CFQ) (item : Z) (i : QUIC_CFQ_ITEM_EX) : cfq_items c !! item = Some i ->
  exists c', clear_item c item = Some c' /\ new_list c' = new_list c /\ tx_list c' = tx_list c /\ free_list c' = free_list c /\
    (forall a, a <> item -> cfq_items c' !! a = cfq_items c !! a) /\
    (exists i', cfq_items c' !! item = Some i' /\ ci_state i' = -1 /\ ci_free_cb i' = None /\ pkt_next i' = pkt_next i) /\
    cfq_freed c' = cfq_freed c ++ option_list (item_buf i) /\
    owned (cfq_items c) ≡ₚ option_list (item_buf i) ++ owned (cfq_items c').
Proof.
  intros Hi. unfold clear_item. rewrite Hi. cbn [mbind option_bind]. eexists. split; [done|].
  destruct (ci_free_cb i) as [cb|] eqn:Hcb; cbn -[alter].
  - split_and!; try done.
    + intros. by rewrite !lookup_alter_ne.
    + eexists. rewrite !lookup_alter_eq, Hi. done.
    + by unfold item_buf; rewrite Hcb.
    + rewrite owned_alter_same by done. pose proof (owned_alter (cfq_items c) item i
        (fun i => i <| ci_free_cb := None |> <| ci_encoded := None |> <| ci_encoded_len := 0 |>) Hi) as Ho. by rewrite Ho.
  - unfold item_buf. rewrite Hcb, app_nil_r. split_and!; try done.
    + intros. by rewrite lookup_alter_ne.
    + eexists. rewrite lookup_alter_eq, Hi. done.
    + by rewrite owned_alter_same.
Qed.

Lemma release_spec (c : QUIC_CFQ) (item : Z) : cfq_wf c -> live c item ->
  exists c' i, ossl_quic_cfq_release c item = Some c' /\ moves c c' item (-1) /\
    cfq_items c !! item = Some i /\ cfq_freed c' = cfq_freed c ++ option_list (item_buf i).
Proof.
  intros W Hl. destruct (live_state c item W Hl) as (i & Hi & Hs). pose proof (state_of_some c item i Hi) as Hst.
  assert (item ∉ free_list c) as Hnf by (destruct (lists_disjoint c item W) as (H1 & H2 & _), Hl; naive_solver).
  assert (exists ln lt, (item ∉ ln) /\ (item ∉ lt) /\ (forall a, a <> item -> (a ∈ ln <-> a ∈ new_list c) /\ (a ∈ lt <-> a ∈ tx_list c)) /\
    NoDup ln /\ NoDup lt /\ in_order (cfq_items c) ln /\
    ossl_quic_cfq_release c item = clear_item (c <| new_list := ln |> <| tx_list := lt |> <| free_list := free_list c ++ [item] |>) item)
    as (ln & lt & Hn1 & Hn2 & Hoth & N1 & N2 & Ho & Hrel).
  { destruct (wf_nodup c W) as (N1 & N2 & N3). unfold ossl_quic_cfq_release. rewrite Hi. cbn [mbind option_bind].
    destruct Hs as [Hs|Hs]; rewrite Hs in *; [apply (wf_new c W) in Hst as Hin|apply (wf_tx c W) in Hst as Hin];
      pose proof (lists_disjoint c item W) as (Hd1 & Hd2 & _); cbn -[list_remove list_insert_tail filter];
      rewrite list_remove_spec, list_insert_tail_spec by done; cbn -[filter clear_item].
    - exists (filter (fun x => x <> item) (new_list c)), (tx_list c). destruct (Hd1 Hin).
      split_and!; eauto with cfq; try apply in_order_filter; try apply W; try (rewrite elem_of_filter_ne; tauto).
      intros a ?. rewrite elem_of_filter_ne. tauto.
    - exists (new_list c), (filter (fun x => x <> item) (tx_list c)). destruct (Hd2 Hin).
      split_and!; eauto with cfq; try apply W; try (rewrite elem_of_filter_ne; tauto).
      intros a ?. rewrite elem_of_filter_ne. tauto. }
  set (c1 := c <| new_list := ln |> <| tx_list := lt |> <| free_list := free_list c ++ [item] |>) in Hrel.
  destruct (clear_item_bufs c1 item i Hi)
    as (c' & Hclear & L1 & L2 & L3 & Hot & (i' & Hi' & Hs' & Hcb & Hnx) & Hfr & Hbufs).
  rewrite Hclear in Hrel. cbn in *. exists c', i. split_and!; try done. split; try done.
  - eapply (wf_move c c' item (-1) W); rewrite ?L1, ?L2, ?L3; try done; eauto with cfq.
    + intros a Ha. destruct (Hoth a Ha). set_solver.
    + set_solver.
    + apply snoc_nodup; [apply W|done].
    + eapply in_order_ext; [|exact Ho]. intros a Ha. rewrite Hot; [done|]. intros ->. done.
  - by rewrite (state_of_some c' item i' Hi'), Hs'.
  - rewrite Hi', Hi. cbn. by rewrite Hnx.
  - rewrite Hfr, Hbufs. solve_Permutation.
Qed.

(** Putting an item into the list of waiting items by its priority. *)
Lemma enqueue_spec (c : QUIC_CFQ) (item : Z) (i : QUIC_CFQ_ITEM_EX) : NoDup (new_list c) -> (item ∉ new_list c) ->
  (forall a, a ∈ new_list c -> is_Some (cfq_items c !! a)) -> in_order (cfq_items c) (new_list c) -> cfq_items c !! item = Some i ->
  exists l, list_insert_sorted (cfq_items c) (new_list c) item = Some l /\ NoDup l /\ in_order (cfq_items c) l /\
    (forall a, a ∈ l <-> a = item \/ a ∈ new_list c).
Proof.
  intros Hnd Hni Hp Ho Hi. destruct (list_insert_sorted_spec _ _ _ _ Hi Hni Hnd Hp Ho) as (l1 & l2 & E & Hl & Ho' & _ & _).
  rewrite E in Hnd, Hni. destruct (insert_mid l1 l2 item Hnd Hni) as [N1 N2]. exists (l1 ++ item :: l2). split_and!; try done. by rewrite E.
Qed.

(** The insertion sees [f i] in place of the item [i]; afterwards the item is [g i]. *)
Lemma requeue_spec (c : QUIC_CFQ) (item : Z) (i : QUIC_CFQ_ITEM_EX) (f g : QUIC_CFQ_ITEM_EX -> QUIC_CFQ_ITEM_EX) (tx : list Z) :
  cfq_wf c -> live c item -> cfq_items c !! item = Some i ->
  item_key (f i) = item_key (g i) -> ci_state (g i) = QUIC_CFQ_STATE_NEW -> item_buf (g i) = item_buf i -> pkt_next (g i) = pkt_next i ->
  NoDup tx -> (forall a, a ∈ tx <-> a ∈ tx_list c /\ a <> item) ->
  exists l, list_insert_sorted (alter f item (cfq_items c)) (filter (fun x => x <> item) (new_list c)) item = Some l /\
    forall c', cfq_items c' = alter g item (cfq_items c) -> new_list c' = l -> tx_list c' = tx -> free_list c' = free_list c ->
      cfq_freed c' = cfq_freed c -> moves c c' item QUIC_CFQ_STATE_NEW.
Proof.
  intros W Hl Hi Hk Hs Hb Hx Ntx Htx. destruct (wf_nodup c W) as (N1 & N2 & N3).
  assert (item ∉ free_list c) as Hnf by (destruct (lists_disjoint c item W) as (H1 & H2 & _), Hl; naive_solver).
  destruct (enqueue_spec (cfq_upd (c <| new_list := filter (fun x => x <> item) (new_list c) |>) item f) item (f i)) as (l & Hins & Hnd & Ho & Hin);
    cbn -[filter alter].
  { by apply filter_ne_nodup. }
  { rewrite elem_of_filter_ne. tauto. }
  { intros a [Ha Hne]%elem_of_filter_ne. rewrite lookup_alter_ne by done. by apply items_present. }
  { apply in_order_upd; [left; rewrite elem_of_filter_ne; tauto|]. by apply in_order_filter, W. }
  { by rewrite lookup_alter_eq, Hi. }
  cbn -[filter alter] in Hins, Ho, Hin. exists l. split; [done|]. intros c' E1 E2 E3 E4 E5.
  assert (forall a, a ∈ l <-> a = item \/ a ∈ new_list c) as Hl'.
  { intros a. rewrite Hin, elem_of_filter_ne. destruct (decide (a = item)) as [->|]; tauto. }
  assert (cfq_items c' !! item = Some (g i)) as Hg by (by rewrite E1, lookup_alter_eq, Hi).
  assert (forall a, a <> item -> cfq_items c' !! a = cfq_items c !! a) as Hother by (intros; by rewrite E1, lookup_alter_ne).
  split; try done.
  - eapply (wf_move c c' item QUIC_CFQ_STATE_NEW W); rewrite ?E2, ?E3, ?E4; try done.
    + exists (g i). done.
    + by left.
    + intros a Ha. rewrite Hl', Htx. tauto.
    + rewrite Hl'. tauto.
    + rewrite Htx. split; [tauto|done].
    + eapply in_order_ext; [|exact Ho]. intros a Ha. destruct (decide (a = item)) as [->|].
      * rewrite Hg, lookup_alter_eq, Hi. cbn. by rewrite Hk.
      * by rewrite Hother, lookup_alter_ne.
  - by rewrite (state_of_some c' item _ Hg), Hs.
  - rewrite Hg, Hi. cbn. by rewrite Hx.
  - rewrite E1, E5. pose proof (owned_alter (cfq_items c) item i g Hi) as Hp. rewrite Hb in Hp. apply Permutation_app_inv_l in Hp. by rewrite Hp.
Qed.

Lemma filter_ne_none (l : list Z) (n : Z) : (n ∉ l) -> filter (fun x => x <> n) l = l.
Proof.
  induction l as [|x l IH]; intros Hni; [done|]. apply not_elem_of_cons in Hni as [Hne Hni]. rewrite filter_cons, decide_True by congruence. by rewrite IH.
Qed.

Lemma mark_lost_spec (c : QUIC_CFQ) (item priority : Z) (i : QUIC_CFQ_ITEM_EX) : cfq_wf c -> live c item -> cfq_items c !! item = Some i ->
  exists c', ossl_quic_cfq_mark_lost c item priority = Some c' /\
    moves c c' item (if ossl_quic_cfq_item_is_unreliable i then -1 else QUIC_CFQ_STATE_NEW) /\
    cfq_freed c' = cfq_freed c ++ (if ossl_quic_cfq_item_is_unreliable i then option_list (item_buf i) else []).
Proof.
  intros W Hl Hi. unfold ossl_quic_cfq_mark_lost. rewrite Hi. cbn [mbind option_bind].
  destruct (ossl_quic_cfq_item_is_unreliable i).
  { destruct (release_spec c item W Hl) as (c' & i' & -> & Hm & Hi' & Hf). rewrite Hi in Hi'. injection Hi' as <-. eauto. }
  rewrite app_nil_r. destruct (live_state c item W Hl) as (i' & Hi' & Hs). rewrite Hi in Hi'. injection Hi' as <-.
  pose proof (state_of_some c item i Hi) as Hst. destruct (wf_nodup c W) as (N1 & N2 & N3). pose proof (lists_disjoint c item W) as (Hd1 & Hd2 & _).
  destruct Hs as [Hs|Hs]; rewrite Hs in *; cbn -[list_remove list_insert_sorted alter filter].
  - apply (wf_new c W) in Hst as Hin. destruct (Hd1 Hin). case_match.
    + rewrite list_remove_spec by done. cbn -[list_insert_sorted alter filter].
      set (f := fun i : QUIC_CFQ_ITEM_EX => i <| ci_priority := priority |>).
      destruct (requeue_spec c item i f f (tx_list c) W Hl Hi) as (l & Hins & Hm); try done.
      { intros a. split; [|tauto]. intros Ha. split; [done|]. by intros ->. }
      subst f. cbn -[list_insert_sorted alter filter] in Hins. rewrite Hins. cbn -[alter]. eexists. split; [done|]. split; [by apply Hm|done].
    + exists c. split_and!; [done|by split|done].
  - apply (wf_tx c W) in Hst as Hin. destruct (Hd2 Hin).
    set (f := fun i : QUIC_CFQ_ITEM_EX => if negb (priority =? UINT32_MAX) then i <| ci_priority := priority |> else i).
    set (c0 := if negb (priority =? UINT32_MAX) then _ else c).
    assert (c0 = cfq_upd c item f) as ->.
    { subst c0 f. destruct (negb _); [done|]. unfold cfq_upd. destruct c. cbn -[alter]. f_equal. symmetry. by apply alter_id. }
    cbn -[list_remove list_insert_sorted alter filter]. rewrite list_remove_spec by done. cbn -[list_insert_sorted alter filter].
    destruct (requeue_spec c item i f (fun i => (f i) <| ci_state := QUIC_CFQ_STATE_NEW |>) (filter (fun x => x <> item) (tx_list c)) W Hl Hi)
      as (l & Hins & Hm); try (by subst f; cbn -[filter]; destruct (negb (priority =? UINT32_MAX))).
    { by apply filter_ne_nodup. }
    { intros a. apply elem_of_filter_ne. }
    rewrite (filter_ne_none (new_list c)) in Hins by done. cbn -[list_insert_sorted alter filter] in Hins |- *. rewrite Hins. cbn -[alter filter]. eexists. split; [done|]. split; [|done].
    apply Hm; try done. cbn -[alter]. by rewrite alter_alter_eq.
Qed.

Lemma get_free_spec (alloc : option Z) (c : QUIC_CFQ) : cfq_wf c -> (forall a, alloc = Some a -> cfq_items c !! a = None) ->
  exists c1 r, cfq_get_free alloc c = Some (c1, r) /\ cfq_wf c1 /\ cfq_freed c1 = cfq_freed c /\ owned (cfq_items c1) ≡ₚ owned (cfq_items c) /\
    (forall a, r <> Some a -> cfq_items c1 !! a = cfq_items c !! a) /\ new_list c1 = new_list c /\ tx_list c1 = tx_list c /\
    match r with
    | None => c1 = c /\ free_list c = [] /\ alloc = None
    | Some item => state_of c1 item = Some (-1) /\ (item ∉ new_list c) /\ (item ∉ tx_list c)
    end.
Proof.
  intros W Ha. unfold cfq_get_free. destruct (free_list c) as [|item l] eqn:El.
  - destruct alloc as [a|]; [|exists c, None; split_and!; try done].
    specialize (Ha a eq_refl). cbn -[list_insert_tail]. rewrite list_insert_tail_spec by set_solver. cbn.
    assert (state_of c a = None) as Hno by (unfold state_of; by rewrite Ha).
    assert (a ∉ new_list c) as Hn by (rewrite (wf_new c W), Hno; done). assert (a ∉ tx_list c) as Ht by (rewrite (wf_tx c W), Hno; done).
    eexists _, (Some a). split; [done|]. split_and!; cbn; try done.
    + eapply (wf_move c _ a (-1) W); cbn; try done.
      * intros. by rewrite lookup_insert_ne.
      * exists item_alloc. by rewrite lookup_insert_eq.
      * by right; right.
      * intros b Hb. rewrite El. set_solver.
      * set_solver.
      * apply W.
      * apply W.
      * apply NoDup_singleton.
      * eapply in_order_ext; [|apply W]. intros b Hb. rewrite lookup_insert_ne; [done|]. by intros <-.
    + by rewrite owned_insert_new.
    + intros b Hb. rewrite lookup_insert_ne; congruence.
    + unfold state_of. cbn. by rewrite lookup_insert_eq.
  - assert (item ∈ free_list c) as Hin by (rewrite El; left). exists c, (Some item). pose proof (lists_disjoint c item W) as (_ & _ & Hd).
    split_and!; try done; [by apply (wf_free c W)| |]; apply Hd, Hin.
Qed.

(** What the caller handed over. *)
Definition added_buf (encoded : option Z) (encoded_len : Z) (free_cb : option (Z * Z)) : list cfq_buf :=
  match free_cb with None => [] | Some cb => [mkBuf encoded encoded_len (Some cb)] end.

Lemma add_frame_spec (alloc : option Z) (c : QUIC_CFQ) (priority pn_space frame_type flags : Z) (encoded : option Z) (encoded_len : Z)
  (free_cb : option (Z * Z)) : cfq_wf c -> (forall a, alloc = Some a -> cfq_items c !! a = None) ->
  exists c' r, ossl_quic_cfq_add_frame alloc c priority pn_space frame_type flags encoded encoded_len free_cb = Some (c', r) /\
    cfq_wf c' /\ cfq_freed c' = cfq_freed c /\ (forall a, r <> Some a -> cfq_items c' !! a = cfq_items c !! a) /\
    match r with
    | None => c' = c /\ free_list c = [] /\ alloc = None
    | Some item => ~ live c item /\ owned (cfq_items c') ≡ₚ added_buf encoded encoded_len free_cb ++ owned (cfq_items c) /\
        exists p n, cfq_items c' !! item =
          Some (mkItem p n encoded free_cb frame_type encoded_len priority pn_space flags QUIC_CFQ_STATE_NEW)
    end.
Proof.
  intros W Ha. unfold ossl_quic_cfq_add_frame. destruct (get_free_spec alloc c W Ha) as (c1 & r & -> & W1 & Hf & Hob & Hot & En & Et & Hr).
  cbn [mbind option_bind]. destruct r as [item|]; [|exists c1, None; split_and!; naive_solver].
  destruct Hr as (Hst & Hnn & Hnt). apply state_of_inv in Hst as Hi. destruct Hi as (i & Hi & Hsi). apply (wf_free c1 W1) in Hst as Hin.
  destruct (wf_nodup c1 W1) as (N1 & N2 & N3).
  set (f := fun i : QUIC_CFQ_ITEM_EX => mkItem (pkt_prev i) (pkt_next i) encoded free_cb frame_type encoded_len priority pn_space flags QUIC_CFQ_STATE_NEW).
  cbn -[list_remove list_insert_sorted alter filter]. rewrite list_remove_spec by done. cbn -[list_insert_sorted alter filter]. fold f.
  destruct (enqueue_spec (cfq_upd c1 item f) item (f i)) as (l & Hins & Hnd & Ho & Hin'); cbn -[alter].
  { done. } { by rewrite En. }
  { intros a Hl. rewrite lookup_alter_ne by (intros <-; rewrite En in Hl; done). by apply items_present. }
  { apply in_order_upd; [left; by rewrite En|apply W1]. }
  { by rewrite lookup_alter_eq, Hi. }
  cbn -[alter] in Hins, Ho, Hin'. rewrite Hins. cbn -[alter filter]. eexists _, (Some item). split; [done|]. split_and!; cbn -[alter filter].
  - eapply (wf_move c1 _ item QUIC_CFQ_STATE_NEW W1); cbn -[alter filter]; try done.
    + intros. by rewrite lookup_alter_ne.
    + exists (f i). by rewrite lookup_alter_eq, Hi.
    + by left.
    + intros a Hne. rewrite Hin', elem_of_filter_ne. tauto.
    + rewrite Hin'. tauto.
    + by rewrite Et.
    + rewrite elem_of_filter_ne. split; [tauto|done].
    + by apply filter_ne_nodup.
  - done.
  - intros a Hne. rewrite lookup_alter_ne by congruence. by apply Hot.
  - intros [|]; tauto.
  - pose proof (owned_alter (cfq_items c1) item i f Hi) as Hp. assert (item_buf i = None) as Hno.
    { unfold item_buf. by rewrite (wf_clear c1 W1 item i Hi Hsi). }
    rewrite Hno in Hp. cbn [option_list app] in Hp. rewrite Hp, Hob. unfold added_buf, item_buf, f. cbn. by destruct free_cb.
  - exists (pkt_prev i), (pkt_next i). by rewrite lookup_alter_eq, Hi.
Qed.

(** ** Histories *)

Inductive cfq_op :=
| CqAdd (alloc : option Z) (priority pn_space frame_type flags : Z) (encoded : option Z) (encoded_len : Z) (free_cb : option (Z * Z))
| CqMarkTx (item : Z)
| CqMarkLost (item priority : Z)
| CqRelease (item : Z).

(** The queue after one call, and the buffers handed over so far. *)
Definition cfq_do (c : QUIC_CFQ) (added : list cfq_buf) (op : cfq_op) : option (QUIC_CFQ * list cfq_buf) :=
  match op with
  | CqAdd alloc pr sp ft fl enc len cb =>
      '(c, r) ← ossl_quic_cfq_add_frame alloc c pr sp ft fl enc len cb;
      Some (c, match r with Some _ => added_buf enc len cb ++ added | None => added end)
  | CqMarkTx item => c ← ossl_quic_cfq_mark_tx c item; Some (c, added)
  | CqMarkLost item pr => c ← ossl_quic_cfq_mark_lost c item pr; Some (c, added)
  | CqRelease item => c ← ossl_quic_cfq_release c item; Some (c, added)
  end.

(** The allocator returns fresh memory, and a handle is used until its release. *)
Definition cfq_op_ok (c : QUIC_CFQ) (op : cfq_op) : Prop :=
  match op with
  | CqAdd alloc _ _ _ _ _ _ _ => forall a, alloc = Some a -> cfq_items c !! a = None
  | CqMarkTx item | CqMarkLost item _ | CqRelease item => live c item
  end.

Inductive cfq_reach : QUIC_CFQ -> list cfq_buf -> Prop :=
| cfq_reach_new : cfq_reach ossl_quic_cfq_new []
| cfq_reach_step c added op c' added' :
    cfq_reach c added -> cfq_op_ok c op -> cfq_do c added op = Some (c', added') -> cfq_reach c' added'.

Lemma cfq_do_spec (c : QUIC_CFQ) (added : list cfq_buf) (op : cfq_op) : cfq_wf c -> cfq_op_ok c op ->
  exists c' added', cfq_do c added op = Some (c', added') /\ cfq_wf c' /\
    (owned (cfq_items c) ++ cfq_freed c ≡ₚ added -> owned (cfq_items c') ++ cfq_freed c' ≡ₚ added').
Proof.
  intros W Hok. destruct op as [alloc pr sp ft fl enc len cb|item|item pr|item]; cbn in *.
  - destruct (add_frame_spec alloc c pr sp ft fl enc len cb W Hok) as (c' & r & -> & W' & Hf & _ & Hr). cbn. eexists _, _. split; [done|]. split; [done|].
    intros Hb. rewrite Hf. destruct r; [destruct Hr as (_ & -> & _); by rewrite <- Hb, app_assoc|destruct Hr as (-> & _); done].
  - destruct (mark_tx_spec c item W Hok) as (c' & -> & [Hw _ _ _ Hb] & _). cbn. eexists _, _. split; [done|]. split; [done|]. by rewrite Hb.
  - destruct (live_state c item W Hok) as (i & Hi & _).
    destruct (mark_lost_spec c item pr i W Hok Hi) as (c' & -> & [Hw _ _ _ Hb] & _). cbn. eexists _, _. split; [done|]. split; [done|]. by rewrite Hb.
  - destruct (release_spec c item W Hok) as (c' & i & -> & [Hw _ _ _ Hb] & _). cbn. eexists _, _. split; [done|]. split; [done|]. by rewrite Hb.
Qed.

Lemma cfq_reach_ok (c : QUIC_CFQ) (added : list cfq_buf) : cfq_reach c added -> cfq_wf c /\ owned (cfq_items c) ++ cfq_freed c ≡ₚ added.
Proof.
  induction 1 as [|c added op c' added' _ [W Hb] Hok Hdo]; [split; [apply cfq_new_wf|done]|].
  destruct (cfq_do_spec c added op W Hok) as (c2 & added2 & Hdo' & W' & Hb'). rewrite Hdo in Hdo'. injection Hdo' as <- <-. eauto.
Qed.

(** ** Reading the queue *)

Definition in_space (c : QUIC_CFQ) (pn_space : Z) (item : Z) : bool :=
  match cfq_items c !! item with Some i => ci_pn_space i =? pn_space | None => false end.

Definition priority_of (c : QUIC_CFQ) (item : Z) : Z := default 0 (ci_priority <$> cfq_items c !! item).

(** The walk of the packetiser: from the head of the space, through [next]. *)
Fixpoint walk_from (fuel : nat) (c : QUIC_CFQ) (pn_space : Z) (item : option Z) : option (list Z) :=
  match item with
  | None => Some []
  | Some n =>
      match fuel with
      | O => None
      | S fuel =>
          next ← ossl_quic_cfq_item_get_priority_next c item pn_space;
          rest ← walk_from fuel c pn_space next;
          Some (n :: rest)
      end
  end.

Definition walk (c : QUIC_CFQ) (pn_space : Z) : option (list Z) :=
  first ← ossl_quic_cfq_get_priority_head c pn_space; walk_from (length (new_list c)) c pn_space first.

Lemma find_in_space_spec (c : QUIC_CFQ) (pn_space : Z) (l : list Z) : (forall a, a ∈ l -> is_Some (cfq_items c !! a)) ->
  find_in_space (cfq_items c) l pn_space = Some (head (List.filter (in_space c pn_space) l)).
Proof.
  induction l as [|a l IH]; intros Hl; [done|]. destruct (Hl a ltac:(left)) as [i Hi]. cbn. unfold in_space at 1. rewrite Hi. cbn.
  destruct (Z.eqb_spec (ci_pn_space i) pn_space); cbn; [done|]. apply IH. intros. apply Hl. by right.
Qed.

Lemma list_behind_split (l1 l2 : list Z) (n : Z) : (n ∉ l1) -> list_behind (l1 ++ n :: l2) n = l2.
Proof.
  induction l1 as [|p l1 IH]; cbn; intros Hni; [by rewrite Z.eqb_refl|].
  apply not_elem_of_cons in Hni as [? ?]. destruct (Z.eqb_spec p n); [congruence|]. auto.
Qed.

(** From the first item of a suffix the walk visits the suffix's items of the space. *)
Lemma walk_from_spec (c : QUIC_CFQ) (pn_space : Z) (l : list Z) : cfq_wf c -> forall pre, new_list c = pre ++ l ->
  walk_from (length l) c pn_space (head (List.filter (in_space c pn_space) l)) = Some (List.filter (in_space c pn_space) l).
Proof.
  intros W. pose proof (proj1 (wf_nodup c W)) as Hnd. induction l as [|a l IH]; intros pre He; [done|].
  specialize (IH (pre ++ [a]) ltac:(by rewrite He, <- app_assoc)). cbn [List.filter]. assert (a ∈ new_list c) as Ha by (rewrite He; set_solver).
  assert (forall x, x ∈ l -> is_Some (cfq_items c !! x)) as Hp by (intros x Hx; apply items_present; [done|]; rewrite He; set_solver).
  destruct (in_space c pn_space a); cbn [length head].
  - cbn [walk_from]. unfold ossl_quic_cfq_item_get_priority_next. pose proof Ha as Hst. apply (wf_new c W), state_of_inv in Hst as (i & Hi & Hs).
    rewrite Hi. cbn [mbind option_bind]. unfold list_of_item. rewrite Hs. cbn [QUIC_CFQ_STATE_NEW Z.eqb]. rewrite He in Hnd |- *.
    apply NoDup_app in Hnd as (_ & Hd & _). rewrite list_behind_split by (intros Hx; apply (Hd a Hx); left).
    rewrite find_in_space_spec by done. cbn [mbind option_bind]. by rewrite IH.
  - destruct (List.filter (in_space c pn_space) l) as [|b l'] eqn:El; [done|]. cbn [head] in *.
    clear He. assert (forall fuel cur r, walk_from fuel c pn_space cur = Some r -> walk_from (S fuel) c pn_space cur = Some r) as Hmono.
    { clear. induction fuel as [|fuel IH]; intros [n|] r; try done. cbn -[ossl_quic_cfq_item_get_priority_next]. intros Hr.
      destruct (ossl_quic_cfq_item_get_priority_next c (Some n) pn_space) as [next|] eqn:E; [|done]. cbn [mbind option_bind] in *.
      change (match next with Some n0 => _ | None => Some [] end) with (walk_from (S fuel) c pn_space next).
      destruct (walk_from fuel c pn_space next) as [rest|] eqn:Ew; [|done]. by rewrite (IH _ _ Ew). }
    by apply Hmono.
Qed.

Lemma walk_spec (c : QUIC_CFQ) (pn_space : Z) : cfq_wf c -> walk c pn_space = Some (List.filter (in_space c pn_space) (new_list c)).
Proof.
  intros W. unfold walk, ossl_quic_cfq_get_priority_head. rewrite find_in_space_spec by (intros; by apply items_present).
  cbn [mbind option_bind]. by apply (walk_from_spec c pn_space _ W []).
Qed.

(** ** Freeing the queue *)

(** Freeing the items of [l] takes them out of the store and gives their buffers to the callbacks. *)
Lemma free_list_items_spec (l : list Z) : forall c, NoDup l -> (forall a, a ∈ l -> is_Some (cfq_items c !! a)) ->
  exists c', free_list_items c l = Some c' /\ new_list c' = new_list c /\ tx_list c' = tx_list c /\ free_list c' = free_list c /\
    (forall a, cfq_items c' !! a = if decide (a ∈ l) then None else cfq_items c !! a) /\
    owned (cfq_items c') ++ cfq_freed c' ≡ₚ owned (cfq_items c) ++ cfq_freed c.
Proof.
  unfold free_list_items. induction l as [|x l IH]; intros c Hnd Hl; [by exists c|].
  apply NoDup_cons in Hnd as [Hx Hnd]. destruct (Hl x ltac:(left)) as [i Hi]. cbn [foldl mbind option_bind].
  destruct (clear_item_bufs c x i Hi) as (c1 & -> & N1 & N2 & N3 & Hot & (i' & Hi' & _ & Hcb & _) & Hfr & Hb). cbn [mbind option_bind].
  set (c2 := c1 <| cfq_items := delete x (cfq_items c1) |>).
  assert (Hlk : forall a, cfq_items c2 !! a = if decide (a = x) then None else cfq_items c !! a).
  { intros a. cbn. case_decide as Ha; [subst; apply lookup_delete_eq|]. rewrite lookup_delete_ne by done. by apply Hot. }
  assert (Hb2 : owned (cfq_items c2) ++ cfq_freed c2 ≡ₚ owned (cfq_items c) ++ cfq_freed c).
  { rewrite Hb. rewrite <- (insert_delete_id (cfq_items c1) x i' Hi'), owned_insert_new by apply lookup_delete_eq.
    unfold item_buf at 2. rewrite Hcb. cbn [option_list app]. change (cfq_freed c2) with (cfq_freed c1). rewrite Hfr. cbn. solve_Permutation. }
  destruct (IH c2 Hnd) as (c' & Hr & M1 & M2 & M3 & Hlk' & Hb').
  { intros a Ha. rewrite Hlk. case_decide; [by subst|]. apply Hl. by right. }
  exists c'. split; [done|]. rewrite M1, M2, M3, Hb', Hb2. split_and!; [done..| |done]. intros a. rewrite Hlk', Hlk.
  destruct (decide (a = x)) as [->|Hne]; [rewrite (decide_True (P := x ∈ x :: l)) by left; by case_decide|].
  destruct (decide (a ∈ l)) as [Ha|Ha]; [by rewrite decide_True by by right|]. rewrite decide_False; [done|]. by intros [?|?]%elem_of_cons.
Qed.

(** Freeing a queue frees every item, whichever list it is in, and every buffer still held. *)
Lemma cfq_free_spec (c : QUIC_CFQ) : cfq_wf c ->
  exists c', ossl_quic_cfq_free c = Some c' /\ cfq_items c' = ∅ /\ cfq_freed c' ≡ₚ owned (cfq_items c) ++ cfq_freed c.
Proof.
  intros W. destruct (wf_nodup c W) as (D1 & D2 & D3). unfold ossl_quic_cfq_free.
  assert (Hst : forall a s, state_of c a = Some s -> is_Some (cfq_items c !! a)) by (intros a s (i & Hi & _)%state_of_inv; by exists i).
  destruct (free_list_items_spec (new_list c) c D1) as (c1 & -> & _ & N2 & N3 & L1 & B1); [intros a Ha%(wf_new c W); by eapply Hst|].
  cbn [mbind option_bind]. rewrite N2.
  destruct (free_list_items_spec (tx_list c) c1 D2) as (c2 & -> & _ & _ & N3' & L2 & B2).
  { intros a Ha%(wf_tx c W). rewrite L1, decide_False; [by eapply Hst|]. rewrite (wf_new c W), Ha. done. }
  cbn [mbind option_bind]. rewrite N3', N3.
  destruct (free_list_items_spec (free_list c) c2 D3) as (c3 & -> & _ & _ & _ & L3 & B3).
  { intros a Ha%(wf_free c W). rewrite L2, decide_False, L1, decide_False; [by eapply Hst|..]; rewrite ?(wf_new c W), ?(wf_tx c W), Ha; done. }
  exists c3. split; [done|]. assert (He : cfq_items c3 = ∅).
  { apply map_empty. intros a. rewrite L3. case_decide as H3; [done|]. rewrite L2. case_decide as H2; [done|]. rewrite L1. case_decide as H1; [done|].
    destruct (cfq_items c !! a) as [i|] eqn:Hi; [|done]. pose proof (state_of_some c a i Hi) as Hs.
    rewrite (wf_new c W) in H1. rewrite (wf_tx c W) in H2. rewrite (wf_free c W) in H3. rewrite Hs in H1, H2, H3.
    destruct (wf_states c W a _ Hs) as [E|[E|E]]; rewrite E in *; congruence. }
  split; [done|]. rewrite He in B3. unfold owned at 1 in B3. rewrite map_to_list_empty in B3. cbn in B3. by rewrite B3, B2, B1.
Qed.

(** ** Properties *)

(** C15.  No frame is lost or freed twice, and no call goes wrong.  For every
    history of the queue in which the allocator returns fresh memory and a handle
    is used until its release: each item is in exactly one list, the one its
    state names; the list of items that wait for transmission is in priority order (the other two are not sorted); the buffers handed over
    to the queue with a free callback are, each exactly once, either still held or given to their free
    callback; every further call of the kind succeeds (no assertion fails, no
    list is corrupted); and freeing the queue itself succeeds, frees every item of all three lists, and leaves every buffer that was ever
    handed over given to its free callback exactly once. *)
Theorem cfq_frames_conserved (c : QUIC_CFQ) (added : list cfq_buf) :
  cfq_reach c added ->
  cfq_wf c /\ owned (cfq_items c) ++ cfq_freed c ≡ₚ added /\
  (forall op, cfq_op_ok c op -> is_Some (cfq_do c added op)) /\
  exists c', ossl_quic_cfq_free c = Some c' /\ cfq_items c' = ∅ /\ cfq_freed c' ≡ₚ added.
Proof.
  intros Hr. destruct (cfq_reach_ok c added Hr) as [W Hb]. split_and!; [done|done|..].
  - intros op Hok. destruct (cfq_do_spec c added op W Hok) as (c' & added' & -> & _). eauto.
  - destruct (cfq_free_spec c W) as (c' & H1 & H2 & H3). exists c'. by rewrite H3.
Qed.

(** C37.  The walk of the packetiser over one packet number space, from
    [ossl_quic_cfq_get_priority_head] through
    [ossl_quic_cfq_item_get_priority_next], ends, and visits every item of the
    space that waits for transmission exactly once, the items with the larger
    priority value first. *)
Theorem cfq_walk_in_priority_order (c : QUIC_CFQ) (added : list cfq_buf) (pn_space : Z) :
  cfq_reach c added ->
  exists l, walk c pn_space = Some l /\ NoDup l /\
    (forall item, item ∈ l <->
       exists i, cfq_items c !! item = Some i /\ ci_state i = QUIC_CFQ_STATE_NEW /\ ci_pn_space i = pn_space) /\
    StronglySorted (fun a b => priority_of c b <= priority_of c a) l.
Proof.
  intros [W _]%cfq_reach_ok. exists (List.filter (in_space c pn_space) (new_list c)). split; [by apply walk_spec|].
  assert (forall item, item ∈ List.filter (in_space c pn_space) (new_list c) <-> item ∈ new_list c /\ in_space c pn_space item = true) as Hin.
  { intros item. by rewrite !list_elem_of_In, filter_In. }
  split_and!; [rewrite NoDup_ListNoDup; apply List.NoDup_filter; rewrite <- NoDup_ListNoDup; apply W| |].
  - intros item. rewrite Hin, (wf_new c W). unfold in_space. split.
    + intros [(i & Hi & Hs)%state_of_inv Hsp]. rewrite Hi in Hsp. apply Z.eqb_eq in Hsp. eauto.
    + intros (i & Hi & Hs & Hsp). rewrite Hi, (state_of_some c item i Hi), Hs, Hsp. split; [done|apply Z.eqb_refl].
  - pose proof (wf_order c W) as Ho. clear Hin. induction Ho as [|x l Hs IH Hf]; [constructor|]. cbn. destruct (in_space c pn_space x) eqn:Ex; [|done].
    constructor; [done|]. rewrite Forall_forall in *. intros y [Hy Ey]%list_elem_of_In%filter_In.
    specialize (Hf y (proj2 (list_elem_of_In _ _) Hy)). unfold item_le, in_space, priority_of in *.
    destruct (cfq_items c !! x) as [ix|], (cfq_items c !! y) as [iy|]; try done. cbn. apply Z.eqb_eq in Ex, Ey. apply compare_le in Hf. lia.
Qed.

(** *** Examples *)

(** Three frames are queued in the application space; the first is sent and lost. *)
Definition demo_cfq_ops : list cfq_op :=
  [CqAdd (Some 100) 1 2 24 0 (Some 7) 10 (Some (1, 0)); CqAdd (Some 200) 5 2 25 0 (Some 8) 20 (Some (1, 0));
   CqAdd (Some 300) 1 0 7 1 (Some 9) 30 (Some (1, 0)); CqMarkTx 100; CqMarkTx 300; CqMarkLost 300 UINT32_MAX;
   CqMarkLost 100 UINT32_MAX].

Definition demo_cfq (n : nat) : QUIC_CFQ * list cfq_buf :=
  foldl (fun st op => default st (cfq_do (fst st) (snd st) op)) (ossl_quic_cfq_new, []) (take n demo_cfq_ops).

Lemma demo_cfq_step (n : nat) (op : cfq_op) : demo_cfq_ops !! n = Some op -> cfq_op_ok (fst (demo_cfq n)) op ->
  is_Some (cfq_do (fst (demo_cfq n)) (snd (demo_cfq n)) op) ->
  cfq_reach (fst (demo_cfq n)) (snd (demo_cfq n)) -> cfq_reach (fst (demo_cfq (S n))) (snd (demo_cfq (S n))).
Proof.
  intros Hop Hok [[c' a'] Hdo] Hr. assert (demo_cfq (S n) = (c', a')) as ->.
  { unfold demo_cfq in *. rewrite (take_S_r _ _ _ Hop), foldl_app. cbn [foldl]. by rewrite Hdo. }
  by eapply cfq_reach_step.
Qed.

Ltac demo_cfq_ok :=
  cbn [cfq_op_ok];
  first [ intros a [= <-]; by vm_compute
        | left; by apply (bool_decide_unpack _); vm_compute
        | right; by apply (bool_decide_unpack _); vm_compute ].

Lemma demo_cfq_reach : cfq_reach (fst (demo_cfq 7)) (snd (demo_cfq 7)).
Proof.
  do 7 (eapply demo_cfq_step; [reflexivity|demo_cfq_ok|vm_compute; by eexists|]). constructor.
Qed.

Lemma cfq_frames_conserved_witness :
  cfq_freed (fst (demo_cfq 7)) = [mkBuf (Some 9) 30 (Some (1, 0))] /\
  cfq_wf (fst (demo_cfq 7)) /\
  exists c', ossl_quic_cfq_free (fst (demo_cfq 7)) = Some c' /\
    cfq_freed c' ≡ₚ [mkBuf (Some 9) 30 (Some (1, 0)); mkBuf (Some 8) 20 (Some (1, 0)); mkBuf (Some 7) 10 (Some (1, 0))].
Proof.
  split; [by vm_compute|]. destruct (cfq_frames_conserved _ _ demo_cfq_reach) as (W & _ & _ & c' & H1 & _ & H2).
  split; [exact W|]. exists c'. split; [exact H1|].
  assert (Ha : snd (demo_cfq 7) = [mkBuf (Some 9) 30 (Some (1, 0)); mkBuf (Some 8) 20 (Some (1, 0)); mkBuf (Some 7) 10 (Some (1, 0))]) by (by vm_compute).
  rewrite Ha in H2. exact H2.
Defined.

Lemma cfq_walk_in_priority_order_witness :
  walk (fst (demo_cfq 7)) 2 = Some [200; 100] /\
  exists l, walk (fst (demo_cfq 7)) 2 = Some l /\ NoDup l.
Proof.
  split; [by vm_compute|]. destruct (cfq_walk_in_priority_order _ _ 2 demo_cfq_reach) as (l & H1 & H2 & _). exact (ex_intro _ l (conj H1 H2)).
Defined.
