(* ===== verification/Txpim.v ===== *)
(** * Transmitted packet information (ssl/quic/quic_txpim.c, include/internal/quic_txpim.h)

    The pool of [QUIC_TXPIM_PKT] records.  A packet is named by its address and the
    packets allocated so far are the map [tpim_pkts]; the free list is a list of
    addresses, with the list functions of the control frame queue, which are the
    same code.  The array of chunks is the list of its first [num_chunks] elements
    and its capacity [tp_alloc_chunks].  [qsort] is any function with the contract
    of the C library's: a sorted permutation, ties in any order.  As in Cfq.v, an
    operation gives [None] where an assertion fails or a list is corrupted. *)

From S2P Require Import Prelude UintSet OsslTime Packet Ackm Cfq.

(** ** Packets *)

Record QUIC_TXPIM_CHUNK := mkChunk {
  ck_stream_id : Z; ck_start : Z; ck_end : Z; ck_has_fin : bool; ck_has_stop_sending : bool; ck_has_reset_stream : bool }.

Record QUIC_TXPIM_PKT := mkTxpimPkt {
  tp_ackm_pkt : OSSL_ACKM_TX_PKT; tp_retx_head : option Z; tp_pkt_type : Z;
  had_handshake_done_frame : bool; had_max_data_frame : bool; had_max_streams_bidi_frame : bool;
  had_max_streams_uni_frame : bool; had_ack_frame : bool; had_conn_close : bool;
  tp_chunks : list QUIC_TXPIM_CHUNK; tp_alloc_chunks : Z; tp_chunks_need_sort : bool }.
#[export] Instance eta_txpim_pkt : Eta QUIC_TXPIM_PKT := fun p =>
  mkTxpimPkt (tp_ackm_pkt p) (tp_retx_head p) (tp_pkt_type p) (had_handshake_done_frame p) (had_max_data_frame p)
    (had_max_streams_bidi_frame p) (had_max_streams_uni_frame p) (had_ack_frame p) (had_conn_close p)
    (tp_chunks p) (tp_alloc_chunks p) (tp_chunks_need_sort p).

Record QUIC_TXPIM := mkTxpim { tpim_pkts : gmap Z QUIC_TXPIM_PKT; tpim_free : list Z; tpim_in_use : Z }.
#[export] Instance eta_txpim : Eta QUIC_TXPIM := fun t => mkTxpim (tpim_pkts t) (tpim_free t) (tpim_in_use t).

Definition MAX_ALLOC_CHUNKS : Z := 512.

Definition ossl_quic_txpim_new : QUIC_TXPIM := mkTxpim ∅ [] 0.

(** All zero; the first packet number space is number 0. *)
Definition ackm_pkt_zero : OSSL_ACKM_TX_PKT := mkTxPkt 0 0 ossl_time_zero 0 QUIC_PN_SPACE_INITIAL false false false false.
Definition txpim_pkt_zero : QUIC_TXPIM_PKT := mkTxpimPkt ackm_pkt_zero None 0 false false false false false false [] 0 false.

(** The inner [None] is NULL. *)
Definition txpim_get_free (alloc : option Z) (t : QUIC_TXPIM) : option (QUIC_TXPIM * option Z) :=
  match tpim_free t with
  | ex :: _ => Some (t, Some ex)
  | [] =>
      match alloc with
      | None => Some (t, None)
      | Some ex =>
          l ← list_insert_tail (tpim_free t) ex;
          Some (t <| tpim_pkts := <[ex := txpim_pkt_zero]> (tpim_pkts t) |> <| tpim_free := l |>, Some ex)
      end
  end.

Definition ossl_quic_txpim_pkt_clear_chunks (p : QUIC_TXPIM_PKT) : QUIC_TXPIM_PKT := p <| tp_chunks := [] |>.

Definition txpim_clear (p : QUIC_TXPIM_PKT) : QUIC_TXPIM_PKT :=
  (ossl_quic_txpim_pkt_clear_chunks (p <| tp_ackm_pkt := ackm_pkt_zero |>))
    <| tp_retx_head := None |> <| had_handshake_done_frame := false |> <| had_max_data_frame := false |>
    <| had_max_streams_bidi_frame := false |> <| had_max_streams_uni_frame := false |> <| had_ack_frame := false |>
    <| had_conn_close := false |>.

Definition ossl_quic_txpim_pkt_alloc (alloc : option Z) (t : QUIC_TXPIM) : option (QUIC_TXPIM * option Z) :=
  '(t, r) ← txpim_get_free alloc t;
  match r with
  | None => Some (t, None)
  | Some ex =>
      l ← list_remove (tpim_free t) ex;
      Some (t <| tpim_pkts := alter txpim_clear ex (tpim_pkts t) |> <| tpim_free := l |> <| tpim_in_use := tpim_in_use t +u 1 |>, Some ex)
  end.

Definition ossl_quic_txpim_pkt_release (t : QUIC_TXPIM) (ex : Z) : option QUIC_TXPIM :=
  if tpim_in_use t <=? 0 then None
  else
    l ← list_insert_tail (tpim_free t) ex;
    Some (t <| tpim_in_use := tpim_in_use t -u 1 |> <| tpim_free := l |>).

(** The item is linked in front of the packet's list; the links are members of the item. *)
Definition ossl_quic_txpim_pkt_add_cfq_item (p : QUIC_TXPIM_PKT) (c : QUIC_CFQ) (item : Z) : QUIC_TXPIM_PKT * QUIC_CFQ :=
  (p <| tp_retx_head := Some item |>,
   cfq_upd c item (fun i => i <| pkt_next := tp_retx_head p |> <| pkt_prev := None |>)).

(** [realloc] says whether a reallocation succeeds. *)
Definition ossl_quic_txpim_pkt_append_chunk (realloc : bool) (p : QUIC_TXPIM_PKT) (chunk : QUIC_TXPIM_CHUNK) : QUIC_TXPIM_PKT * bool :=
  let put p := (p <| tp_chunks := tp_chunks p ++ [chunk] |> <| tp_chunks_need_sort := true |>, true) in
  if zlen (tp_chunks p) =? tp_alloc_chunks p then
    let new_alloc_chunks := if tp_alloc_chunks p =? 0 then 4 else tp_alloc_chunks p *u 8 / 5 in
    let new_alloc_chunks := if MAX_ALLOC_CHUNKS <? new_alloc_chunks then MAX_ALLOC_CHUNKS else new_alloc_chunks in
    if zlen (tp_chunks p) =? new_alloc_chunks then (p, false)
    else if negb realloc then (p, false)
    else put (p <| tp_alloc_chunks := new_alloc_chunks |>)
  else put p.

Definition compare (ac bc : QUIC_TXPIM_CHUNK) : Z :=
  if ck_stream_id ac <? ck_stream_id bc then -1
  else if ck_stream_id bc <? ck_stream_id ac then 1
  else if ck_start ac <? ck_start bc then -1
  else if ck_start bc <? ck_start ac then 1
  else 0.

Definition chunk_le (a b : QUIC_TXPIM_CHUNK) : Prop := compare a b <= 0.
#[export] Instance chunk_le_dec : RelDecision chunk_le.
Proof. intros a b. unfold chunk_le. apply _. Defined.

(** The contract of [qsort] with [compare]. *)
Class QSort := {
  qsort : list QUIC_TXPIM_CHUNK -> list QUIC_TXPIM_CHUNK;
  qsort_perm : forall l, qsort l ≡ₚ l;
  qsort_sorted : forall l, StronglySorted chunk_le (qsort l) }.

Section Chunks.
Context `{QSort}.

(** The packet, sorted if it has to be, and its chunks. *)
Definition ossl_quic_txpim_pkt_get_chunks (p : QUIC_TXPIM_PKT) : QUIC_TXPIM_PKT * list QUIC_TXPIM_CHUNK :=
  let p := if tp_chunks_need_sort p then p <| tp_chunks := qsort (tp_chunks p) |> <| tp_chunks_need_sort := false |> else p in
  (p, tp_chunks p).
End Chunks.

Definition ossl_quic_txpim_pkt_get_num_chunks (p : QUIC_TXPIM_PKT) : Z := zlen (tp_chunks p).
Definition ossl_quic_txpim_get_in_use (t : QUIC_TXPIM) : Z := tpim_in_use t.

(** Every packet handed out must be back. *)
Definition ossl_quic_txpim_free (t : QUIC_TXPIM) : option QUIC_TXPIM :=
  if tpim_in_use t =? 0 then Some (t <| tpim_pkts := foldl (fun m n => delete n m) (tpim_pkts t) (tpim_free t) |> <| tpim_free := [] |>) else None.

(** ** The order of chunks, and a sorting function that has the contract *)

Lemma chunk_le_spec (a b : QUIC_TXPIM_CHUNK) : chunk_le a b <->
  ck_stream_id a < ck_stream_id b \/ (ck_stream_id a = ck_stream_id b /\ ck_start a <= ck_start b).
Proof. unfold chunk_le, compare. bdestruct_all; lia. Qed.

#[export] Instance chunk_le_trans : Transitive chunk_le.
Proof. intros a b c. rewrite !chunk_le_spec. lia. Qed.

#[export] Instance chunk_le_total : Total chunk_le.
Proof. intros a b. rewrite !chunk_le_spec. lia. Qed.

Definition merge_qsort : QSort := {|
  qsort := merge_sort chunk_le;
  qsort_perm := merge_sort_Permutation chunk_le;
  qsort_sorted := StronglySorted_merge_sort chunk_le |}.

(** ** The chunks of one packet *)

Record chunks_ok (p : QUIC_TXPIM_PKT) : Prop := {
  ck_fits : zlen (tp_chunks p) <= tp_alloc_chunks p <= MAX_ALLOC_CHUNKS;
  ck_cap : tp_alloc_chunks p = 0 \/ 4 <= tp_alloc_chunks p;
  ck_sorted : tp_chunks_need_sort p = false -> StronglySorted chunk_le (tp_chunks p) }.

(** There is room for one more: the array is not full, or can grow. *)
Definition can_append (realloc : bool) (p : QUIC_TXPIM_PKT) : bool :=
  (zlen (tp_chunks p) <? MAX_ALLOC_CHUNKS) && ((zlen (tp_chunks p) <? tp_alloc_chunks p) || realloc).

Lemma append_chunk_spec (realloc : bool) (p : QUIC_TXPIM_PKT) (chunk : QUIC_TXPIM_CHUNK) : chunks_ok p ->
  let '(p', ok) := ossl_quic_txpim_pkt_append_chunk realloc p chunk in
  chunks_ok p' /\ ok = can_append realloc p /\ tp_chunks p' = tp_chunks p ++ (if ok : bool then [chunk] else []) /\
  p' = p <| tp_chunks := tp_chunks p' |> <| tp_alloc_chunks := tp_alloc_chunks p' |> <| tp_chunks_need_sort := tp_chunks_need_sort p' |>.
Proof.
  intros [H1 H2 H3]. unfold ossl_quic_txpim_pkt_append_chunk, can_append. pose proof (zlen_nonneg (tp_chunks p)) as Hp.
  assert (zlen (tp_chunks p ++ [chunk]) = zlen (tp_chunks p) + 1) as Hz by (by rewrite zlen_app).
  unfold MAX_ALLOC_CHUNKS in *. destruct (Z.eqb_spec (zlen (tp_chunks p)) (tp_alloc_chunks p)) as [E|E].
  - rewrite (proj2 (Z.ltb_ge _ (tp_alloc_chunks p))) by lia. cbn [orb]. rewrite mul64_small by u64_side.
    set (new := if 512 <? _ then 512 else _).
    assert (Hnew : (tp_alloc_chunks p = 512 /\ new = 512) \/ (tp_alloc_chunks p < 512 /\ tp_alloc_chunks p < new <= 512 /\ 4 <= new)).
    { subst new. destruct (Z.eqb_spec (tp_alloc_chunks p) 0); [cbn; lia|].
      pose proof (Z.div_le_lower_bound (tp_alloc_chunks p * 8) 5 (tp_alloc_chunks p + 1) ltac:(lia) ltac:(lia)). bdestruct_all; lia. }
    destruct (Z.eqb_spec (zlen (tp_chunks p)) new).
    + rewrite (proj2 (Z.ltb_ge _ 512)) by lia. cbn. split_and!; try done; [by rewrite app_nil_r|by destruct p].
    + rewrite (proj2 (Z.ltb_lt _ 512)) by lia. destruct realloc; cbn.
      * split_and!; try done. split; cbn; unfold MAX_ALLOC_CHUNKS; [lia|lia|done].
      * split_and!; try done; [by rewrite app_nil_r|by destruct p].
  - rewrite (proj2 (Z.ltb_lt _ (tp_alloc_chunks p))) by lia. rewrite (proj2 (Z.ltb_lt _ 512)) by lia. cbn.
    split_and!; try done. split; cbn; unfold MAX_ALLOC_CHUNKS; [lia|lia|done].
Qed.

Lemma clear_chunks_ok (p : QUIC_TXPIM_PKT) : chunks_ok p -> chunks_ok (ossl_quic_txpim_pkt_clear_chunks p).
Proof. intros [H1 H2 H3]. pose proof (zlen_nonneg (tp_chunks p)). split; cbn; [change (zlen []) with 0; lia|done|constructor]. Qed.

Lemma txpim_clear_ok (p : QUIC_TXPIM_PKT) : chunks_ok p -> chunks_ok (txpim_clear p).
Proof. intros [H1 H2 H3]. pose proof (zlen_nonneg (tp_chunks p)). split; cbn; [change (zlen []) with 0; lia|done|constructor]. Qed.

Lemma pkt_zero_ok : chunks_ok txpim_pkt_zero.
Proof. split; cbn; [by change (zlen []) with 0|by left|constructor]. Qed.

Section ChunksOk.
Context `{QSort}.

Lemma get_chunks_spec (p : QUIC_TXPIM_PKT) : chunks_ok p ->
  let '(p', l) := ossl_quic_txpim_pkt_get_chunks p in
  chunks_ok p' /\ tp_chunks p' = l /\ l ≡ₚ tp_chunks p /\ StronglySorted chunk_le l /\ tp_chunks_need_sort p' = false /\
  p' = p <| tp_chunks := l |> <| tp_chunks_need_sort := false |>.
Proof.
  intros [H1 H2 H3]. unfold ossl_quic_txpim_pkt_get_chunks. destruct (tp_chunks_need_sort p) eqn:E; cbn.
  - split_and!; try done; [|apply qsort_perm|apply qsort_sorted].
    split; cbn; [|done|intros; apply qsort_sorted]. unfold zlen in *. by rewrite qsort_perm.
  - split_and!; try done; [by split; auto|by apply H3|]. destruct p. cbn in *. by subst.
Qed.

(** *** Histories of the chunks of a packet *)

Inductive chunk_op := ChAppend (realloc : bool) (chunk : QUIC_TXPIM_CHUNK) | ChGet | ChClear.

(** The packet, and the chunks put in and not cleared. *)
Definition chunk_do (st : QUIC_TXPIM_PKT * list QUIC_TXPIM_CHUNK) (op : chunk_op) : QUIC_TXPIM_PKT * list QUIC_TXPIM_CHUNK :=
  let '(p, put) := st in
  match op with
  | ChAppend realloc chunk =>
      let '(p, ok) := ossl_quic_txpim_pkt_append_chunk realloc p chunk in (p, if ok : bool then put ++ [chunk] else put)
  | ChGet => (fst (ossl_quic_txpim_pkt_get_chunks p), put)
  | ChClear => (ossl_quic_txpim_pkt_clear_chunks p, [])
  end.

Definition chunk_run (p : QUIC_TXPIM_PKT) (ops : list chunk_op) : QUIC_TXPIM_PKT * list QUIC_TXPIM_CHUNK :=
  foldl chunk_do (txpim_clear p, []) ops.

Lemma chunk_run_ok (p : QUIC_TXPIM_PKT) (ops : list chunk_op) : chunks_ok p ->
  chunks_ok (fst (chunk_run p ops)) /\ tp_chunks (fst (chunk_run p ops)) ≡ₚ snd (chunk_run p ops).
Proof.
  intros Hok. unfold chunk_run. assert (chunks_ok (txpim_clear p) /\ tp_chunks (txpim_clear p) ≡ₚ []) as Hinit by (split; [by apply txpim_clear_ok|done]).
  revert Hinit. generalize (txpim_clear p), (@nil QUIC_TXPIM_CHUNK). induction ops as [|op ops IH]; intros q put [Hq Hput]; [done|]. cbn [foldl].
  destruct (chunk_do (q, put) op) as [q' put'] eqn:E. apply IH. destruct op as [realloc chunk| |]; cbn [chunk_do] in E.
  - pose proof (append_chunk_spec realloc q chunk Hq) as Hs. destruct (ossl_quic_txpim_pkt_append_chunk realloc q chunk) as [q1 ok].
    injection E as <- <-. destruct Hs as (Ho & _ & Hc & _). split; [done|]. rewrite Hc. destruct ok; [by rewrite Hput|by rewrite app_nil_r].
  - pose proof (get_chunks_spec q Hq) as Hs. destruct (ossl_quic_txpim_pkt_get_chunks q) as [q1 l]. injection E as <- <-.
    destruct Hs as (Ho & Hc & Hp & _). split; [done|]. cbn. by rewrite Hc, Hp, Hput.
  - injection E as <- <-. split; [by apply clear_chunks_ok|done].
Qed.
End ChunksOk.

(** ** The pool *)

Definition allocated (t : QUIC_TXPIM) (a : Z) : Prop := is_Some (tpim_pkts t !! a) /\ (a ∉ tpim_free t).

Record txpim_wf (t : QUIC_TXPIM) : Prop := {
  tw_free : forall a, a ∈ tpim_free t -> is_Some (tpim_pkts t !! a);
  tw_nodup : NoDup (tpim_free t);
  tw_count : tpim_in_use t + zlen (tpim_free t) = Z.of_nat (size (tpim_pkts t));
  tw_room : 0 <= tpim_in_use t /\ Z.of_nat (size (tpim_pkts t)) < U64_MOD;
  tw_chunks : forall a p, tpim_pkts t !! a = Some p -> chunks_ok p }.

Lemma txpim_new_wf : txpim_wf ossl_quic_txpim_new.
Proof. split; cbn; [set_solver|constructor|done|done|intros a p; by rewrite lookup_empty]. Qed.

Lemma keys_length (m : gmap Z QUIC_TXPIM_PKT) (l : list Z) : NoDup l -> (forall a, a ∈ l -> is_Some (m !! a)) -> (length l <= size m)%nat.
Proof.
  intros Hnd Hl. rewrite <- length_map_to_list, <- (length_fmap fst). apply submseteq_length, NoDup_submseteq; [done|].
  intros a [p Hp]%Hl. apply list_elem_of_fmap. exists (a, p). split; [done|]. by apply elem_of_map_to_list.
Qed.

Lemma allocated_used (t : QUIC_TXPIM) (ex : Z) : txpim_wf t -> allocated t ex -> 0 < tpim_in_use t.
Proof.
  intros [W1 W2 W3 W4 _] [He Hn]. pose proof (keys_length (tpim_pkts t) (ex :: tpim_free t)) as Hk. cbn [length] in Hk. unfold zlen in W3.
  enough (S (length (tpim_free t)) <= size (tpim_pkts t))%nat by lia. apply Hk; [by constructor|]. intros a [->|]%elem_of_cons; auto.
Qed.

(** One packet changes, its chunks staying well-formed. *)
Definition tpim_upd (t : QUIC_TXPIM) (ex : Z) (f : QUIC_TXPIM_PKT -> QUIC_TXPIM_PKT) : QUIC_TXPIM :=
  t <| tpim_pkts := alter f ex (tpim_pkts t) |>.

Lemma size_alter (m : gmap Z QUIC_TXPIM_PKT) (ex : Z) (f : QUIC_TXPIM_PKT -> QUIC_TXPIM_PKT) : size (alter f ex m) = size m.
Proof. by rewrite <- !size_dom, dom_alter_L. Qed.

Lemma is_Some_alter (m : gmap Z QUIC_TXPIM_PKT) (ex a : Z) (f : QUIC_TXPIM_PKT -> QUIC_TXPIM_PKT) :
  is_Some (alter f ex m !! a) <-> is_Some (m !! a).
Proof. rewrite <- !elem_of_dom, dom_alter_L. done. Qed.

Lemma tpim_upd_wf (t : QUIC_TXPIM) (ex : Z) (f : QUIC_TXPIM_PKT -> QUIC_TXPIM_PKT) :
  (forall p, tpim_pkts t !! ex = Some p -> chunks_ok p -> chunks_ok (f p)) -> txpim_wf t ->
  txpim_wf (tpim_upd t ex f) /\ (forall a, allocated (tpim_upd t ex f) a <-> allocated t a).
Proof.
  intros Hf [W1 W2 W3 W4 W5]. unfold tpim_upd. split; [|intros a; unfold allocated; cbn; by rewrite is_Some_alter].
  split; cbn; rewrite ?size_alter; try done.
  - intros a Ha. rewrite is_Some_alter. auto.
  - intros a p Hp. destruct (decide (ex = a)) as [->|]; [|rewrite lookup_alter_ne in Hp by done; eauto].
    rewrite lookup_alter_eq in Hp. destruct (tpim_pkts t !! a) as [q|] eqn:Eq; [|done]. injection Hp as <-. eauto.
Qed.

Lemma pkt_release_spec (t : QUIC_TXPIM) (ex : Z) : txpim_wf t -> allocated t ex ->
  exists t', ossl_quic_txpim_pkt_release t ex = Some t' /\ txpim_wf t' /\ tpim_in_use t' = tpim_in_use t - 1 /\
    tpim_pkts t' = tpim_pkts t /\ (forall a, allocated t' a <-> allocated t a /\ a <> ex).
Proof.
  intros W Hal. pose proof (allocated_used t ex W Hal) as Hu. destruct W as [W1 W2 W3 W4 W5], Hal as [He Hn].
  unfold ossl_quic_txpim_pkt_release. rewrite (proj2 (Z.leb_gt _ _)) by lia. rewrite list_insert_tail_spec by done. cbn.
  assert (tpim_in_use t -u 1 = tpim_in_use t - 1) as Hs by (pose proof (zlen_nonneg (tpim_free t)); apply sub64_small; lia). rewrite Hs. eexists. split; [done|].
  assert (zlen (tpim_free t ++ [ex]) = zlen (tpim_free t) + 1) as Hz by (by rewrite zlen_app). split_and!; try done.
  - split; cbn; [set_solver|by apply snoc_nodup|rewrite Hz; lia|lia|done].
  - intros a. unfold allocated. cbn. set_solver.
Qed.

Lemma pkt_alloc_spec (alloc : option Z) (t : QUIC_TXPIM) : txpim_wf t ->
  (forall a, alloc = Some a -> tpim_pkts t !! a = None /\ Z.of_nat (size (tpim_pkts t)) + 1 < U64_MOD) ->
  exists t' r, ossl_quic_txpim_pkt_alloc alloc t = Some (t', r) /\ txpim_wf t' /\
    match r with
    | None => t' = t /\ tpim_free t = [] /\ alloc = None
    | Some ex =>
        ~ allocated t ex /\ (forall a, allocated t' a <-> a = ex \/ allocated t a) /\ tpim_in_use t' = tpim_in_use t + 1 /\
        (forall a, a <> ex -> tpim_pkts t' !! a = tpim_pkts t !! a) /\ exists p, chunks_ok p /\ tpim_pkts t' !! ex = Some (txpim_clear p)
    end.
Proof.
  intros W Ha. unfold ossl_quic_txpim_pkt_alloc, txpim_get_free. destruct (tpim_free t) as [|ex l] eqn:El.
  - destruct alloc as [ex|]; cbn -[list_insert_tail list_remove alter]; [|exists t, None; by split_and!].
    destruct (Ha ex eq_refl) as [Hno Hroom]. destruct W as [W1 W2 W3 W4 W5]. rewrite El in *. change (zlen []) with 0 in W3.
    rewrite list_insert_tail_spec by set_solver. cbn -[list_remove alter]. rewrite list_remove_spec by set_solver. cbn -[alter filter].
    rewrite filter_cons, decide_False by tauto. cbn -[alter]. rewrite add64_small by (unfold U64_MOD in *; lia). eexists _, (Some ex). split; [done|].
    assert (size (alter txpim_clear ex (<[ex := txpim_pkt_zero]> (tpim_pkts t))) = S (size (tpim_pkts t))) as Hsz
      by (rewrite size_alter; by apply map_size_insert_None).
    split_and!; cbn -[alter].
    + split; cbn -[alter]; rewrite ?Hsz; [set_solver|constructor|change (zlen []) with 0; lia|lia|].
      intros a p. destruct (decide (ex = a)) as [->|]; [rewrite lookup_alter_eq, lookup_insert_eq; intros [= <-]; apply txpim_clear_ok, pkt_zero_ok|].
      rewrite lookup_alter_ne, lookup_insert_ne by done. apply W5.
    + unfold allocated. rewrite Hno. intros [[? [=]] _].
    + intros a. unfold allocated. cbn -[alter]. rewrite is_Some_alter, El. destruct (decide (a = ex)) as [->|].
      * rewrite lookup_insert_eq. split; [by left|intros _; split; [done|set_solver]].
      * rewrite lookup_insert_ne by done. tauto.
    + done.
    + intros. by rewrite lookup_alter_ne, lookup_insert_ne.
    + exists txpim_pkt_zero. rewrite lookup_alter_eq, lookup_insert_eq. split; [apply pkt_zero_ok|done].
  - clear Ha. assert (ex ∈ tpim_free t) as Hin by (rewrite El; left). cbn -[list_remove alter]. rewrite El, list_remove_spec by (left). cbn -[alter filter].
    destruct (tpim_upd_wf t ex txpim_clear) as [W' Hall]; [intros; by apply txpim_clear_ok|done|]. destruct W as [W1 W2 W3 W4 W5].
    rewrite El in W2, W3. apply NoDup_cons in W2 as [Hni W2]. rewrite filter_cons, decide_False, (filter_ne_none l ex) by tauto.
    assert (zlen (ex :: l) = zlen l + 1) as Hz by (unfold zlen; cbn; lia). pose proof (zlen_nonneg l). rewrite add64_small by (unfold U64_MOD in *; lia).
    destruct (W1 ex Hin) as [p Hp]. eexists _, (Some ex). split; [done|].
    split_and!; cbn -[alter].
    + destruct W' as [V1 V2 V3 V4 V5]. cbn -[alter] in *. split; cbn -[alter]; try done.
      * intros a Ha. apply V1. rewrite El. by right.
      * rewrite size_alter. lia.
      * rewrite size_alter. lia.
    + intros [_ Hn]. done.
    + intros a. unfold allocated. cbn -[alter]. rewrite is_Some_alter, El, not_elem_of_cons. destruct (decide (a = ex)) as [->|]; [|tauto]. rewrite Hp. naive_solver.
    + done.
    + intros. by rewrite lookup_alter_ne.
    + exists p. rewrite lookup_alter_eq, Hp. split; [by eapply W5|done].
Qed.

(** ** Properties *)

(** The chunk list of a packet, whatever the order of appends, reads and
    clears since the packet was handed out: it never grows beyond 512 entries, an
    append is refused exactly when 512 chunks are in or the array is full and
    cannot be reallocated, and a read gives exactly the chunks appended since the
    last clear, sorted by stream and offset. *)
Theorem txpim_chunks_exact `{QSort} (p : QUIC_TXPIM_PKT) (ops : list chunk_op) (realloc : bool) (chunk : QUIC_TXPIM_CHUNK) :
  chunks_ok p ->
  let q := fst (chunk_run p ops) in
  ossl_quic_txpim_pkt_get_num_chunks q <= MAX_ALLOC_CHUNKS /\
  snd (ossl_quic_txpim_pkt_append_chunk realloc q chunk) = can_append realloc q /\
  snd (ossl_quic_txpim_pkt_get_chunks q) ≡ₚ snd (chunk_run p ops) /\ StronglySorted chunk_le (snd (ossl_quic_txpim_pkt_get_chunks q)).
Proof.
  intros Hok q. destruct (chunk_run_ok p ops Hok) as [Hq Hput]. fold q in Hq, Hput.
  pose proof (append_chunk_spec realloc q chunk Hq) as Ha. pose proof (get_chunks_spec q Hq) as Hg.
  destruct (ossl_quic_txpim_pkt_append_chunk realloc q chunk) as [q1 ok], (ossl_quic_txpim_pkt_get_chunks q) as [q2 l].
  destruct Ha as (_ & -> & _), Hg as (_ & _ & Hp & Hs & _). cbn [snd]. split_and!; try done.
  - unfold ossl_quic_txpim_pkt_get_num_chunks. destruct Hq as [H1 _ _]. lia.
  - by rewrite Hp, Hput.
Qed.

Definition demo_chunk (stream start end_ : Z) : QUIC_TXPIM_CHUNK := mkChunk stream start end_ false false false.
Definition demo_chunk_ops : list chunk_op :=
  [ChAppend true (demo_chunk 8 0 9); ChAppend true (demo_chunk 4 100 109); ChGet; ChAppend true (demo_chunk 4 0 9)].

Lemma txpim_chunks_exact_witness :
  snd (@ossl_quic_txpim_pkt_get_chunks merge_qsort (fst (@chunk_run merge_qsort txpim_pkt_zero demo_chunk_ops))) =
    [demo_chunk 4 0 9; demo_chunk 4 100 109; demo_chunk 8 0 9] /\
  ossl_quic_txpim_pkt_get_num_chunks (fst (@chunk_run merge_qsort txpim_pkt_zero demo_chunk_ops)) <= MAX_ALLOC_CHUNKS.
Proof.
  split; [by vm_compute|].
  apply (@txpim_chunks_exact merge_qsort txpim_pkt_zero demo_chunk_ops true (demo_chunk 0 0 0) pkt_zero_ok).
Defined.
