(* ===== verification/Fifd.v ===== *)
(** * The frame-in-flight dispatcher (ssl/quic/quic_fifd.c, include/internal/quic_fifd.h)

    The dispatcher joins the control frame queue, the pool of transmitted packets,
    the ACK manager and, through its callbacks, the streams.  The four callbacks of
    [ossl_quic_fifd_init] are the class [FIFD_CALLBACKS] over the state [E] they
    act on; the object behind a [QUIC_SSTREAM] pointer is read and written with
    [get_sstream_by_id] and [put_sstream].  [cb_arg] of a packet the manager holds
    is found by its space and number ([ff_cb_arg]).  The manager's calls of the
    three packet callbacks are carried out after the operation that makes them, in
    call order; the callbacks neither read nor change the manager.  Allocation in
    the integer sets is the argument [alloc], by chunk.  The event log is left out.
    As elsewhere [None] is a failed assertion, a NULL or dangling pointer. *)

From S2P Require Import Prelude UintSet OsslTime Congestion CcMethod Packet Wire Ackm AckmTx AckmInv RingBuf Sstream Cfq Txpim.

Class FIFD_CALLBACKS (E : Type) := {
  get_sstream_by_id : E -> Z -> pn_space -> option QUIC_SSTREAM;
  put_sstream : E -> Z -> pn_space -> QUIC_SSTREAM -> E;
  regen_frame : Z -> Z -> QUIC_TXPIM_PKT -> E -> option E;
  confirm_frame : Z -> Z -> QUIC_TXPIM_PKT -> E -> option E;
  sstream_updated : Z -> E -> option E }.

Record QUIC_FIFD (D E : Type) := mkFifd {
  ff_cfq : QUIC_CFQ; ff_txpim : QUIC_TXPIM; ff_ackm : OSSL_ACKM D; ff_env : E; ff_cb_arg : spaces (gmap Z Z) }.
Arguments mkFifd {D E}.
Arguments ff_cfq {D E}.
Arguments ff_txpim {D E}.
Arguments ff_ackm {D E}.
Arguments ff_env {D E}.
Arguments ff_cb_arg {D E}.
#[export] Instance eta_fifd {D E} : Eta (QUIC_FIFD D E) := fun w =>
  mkFifd (ff_cfq w) (ff_txpim w) (ff_ackm w) (ff_env w) (ff_cb_arg w).

Definition when_some {A} (b : bool) (f : A -> option A) (x : A) : option A := if b then f x else Some x.

(** The walk over the items of a packet; the link is read before the call. *)
Fixpoint retx_loop (fuel : nat) (f : QUIC_CFQ -> Z -> option QUIC_CFQ) (c : QUIC_CFQ) (cfq_item : option Z) : option QUIC_CFQ :=
  match cfq_item with
  | None => Some c
  | Some item =>
      match fuel with
      | O => None
      | S fuel =>
          i ← cfq_items c !! item;
          let cfq_item_next := pkt_next i in
          c ← f c item;
          retx_loop fuel f c cfq_item_next
      end
  end.

(** The same with the link read after the call. *)
Fixpoint mark_tx_loop (fuel : nat) (c : QUIC_CFQ) (cfq_item : option Z) : option QUIC_CFQ :=
  match cfq_item with
  | None => Some c
  | Some item =>
      match fuel with
      | O => None
      | S fuel =>
          c ← ossl_quic_cfq_mark_tx c item;
          i ← cfq_items c !! item;
          mark_tx_loop fuel c (pkt_next i)
      end
  end.

Section Fifd.
Context {D E : Type} `{OSSL_CC_METHOD D} `{FIFD_CALLBACKS E} `{QSort}.
Context (now : nat -> OSSL_TIME).

Abbreviation FIFD := (QUIC_FIFD D E).

(** The loops over the chunks, from chunk number [i] on. *)
Fixpoint chunk_loop (f : bool -> QUIC_TXPIM_CHUNK -> E -> option E) (alloc : nat -> bool) (i : nat) (chunks : list QUIC_TXPIM_CHUNK) (e : E)
  : option E :=
  match chunks with
  | [] => Some e
  | ck :: rest => e ← f (alloc i) ck e; chunk_loop f alloc (S i) rest e
  end.

Definition is_app_chunk (ck : QUIC_TXPIM_CHUNK) : bool := negb (ck_stream_id ck =? UINT64_MAX).

(** The body of the loop of [on_acked]; the last read of [sstream] is after the
    callbacks, which may have freed it. *)
Definition acked_chunk (pkt : QUIC_TXPIM_PKT) (alloc : bool) (ck : QUIC_TXPIM_CHUNK) (e : E) : option E :=
  let id := ck_stream_id ck in
  let s := pkt_space (tp_ackm_pkt pkt) in
  match get_sstream_by_id e id s with
  | None => Some e
  | Some sstream =>
      let sstream := if ck_start ck <=? ck_end ck then fst (ossl_quic_sstream_mark_acked alloc sstream (ck_start ck) (ck_end ck)) else sstream in
      let sstream := if ck_has_fin ck && is_app_chunk ck then fst (ossl_quic_sstream_mark_acked_fin sstream) else sstream in
      let e := put_sstream e id s sstream in
      e ← when_some (ck_has_stop_sending ck && is_app_chunk ck) (confirm_frame OSSL_QUIC_FRAME_TYPE_STOP_SENDING id pkt) e;
      e ← when_some (ck_has_reset_stream ck && is_app_chunk ck) (confirm_frame OSSL_QUIC_FRAME_TYPE_RESET_STREAM id pkt) e;
      sstream ← get_sstream_by_id e id s;
      when_some (ossl_quic_sstream_is_totally_acked sstream) (sstream_updated id) e
  end.

(** The body of the loop of [on_lost]. *)
Definition lost_chunk (pkt : QUIC_TXPIM_PKT) (alloc : bool) (ck : QUIC_TXPIM_CHUNK) (e : E) : option E :=
  let id := ck_stream_id ck in
  let s := pkt_space (tp_ackm_pkt pkt) in
  match get_sstream_by_id e id s with
  | None => Some e
  | Some sstream =>
      let data := ck_start ck <=? ck_end ck in
      let fin := ck_has_fin ck && is_app_chunk ck in
      let sstream := if data then fst (ossl_quic_sstream_mark_lost alloc sstream (ck_start ck) (ck_end ck)) else sstream in
      let sstream := if fin then fst (ossl_quic_sstream_mark_lost_fin sstream) else sstream in
      let e := put_sstream e id s sstream in
      e ← when_some (ck_has_stop_sending ck && is_app_chunk ck) (regen_frame OSSL_QUIC_FRAME_TYPE_STOP_SENDING id pkt) e;
      e ← when_some (ck_has_reset_stream ck && is_app_chunk ck) (regen_frame OSSL_QUIC_FRAME_TYPE_RESET_STREAM id pkt) e;
      e ← regen_frame OSSL_QUIC_FRAME_TYPE_MAX_STREAM_DATA id pkt e;
      when_some ((data || fin) && is_app_chunk ck) (sstream_updated id) e
  end.

(** The frames regenerated by flag. *)
Definition regen_flags (pkt : QUIC_TXPIM_PKT) (e : E) : option E :=
  e ← when_some (had_handshake_done_frame pkt) (regen_frame OSSL_QUIC_FRAME_TYPE_HANDSHAKE_DONE UINT64_MAX pkt) e;
  e ← when_some (had_max_data_frame pkt) (regen_frame OSSL_QUIC_FRAME_TYPE_MAX_DATA UINT64_MAX pkt) e;
  e ← when_some (had_max_streams_bidi_frame pkt) (regen_frame OSSL_QUIC_FRAME_TYPE_MAX_STREAMS_BIDI UINT64_MAX pkt) e;
  e ← when_some (had_max_streams_uni_frame pkt) (regen_frame OSSL_QUIC_FRAME_TYPE_MAX_STREAMS_UNI UINT64_MAX pkt) e;
  when_some (had_ack_frame pkt) (regen_frame OSSL_QUIC_FRAME_TYPE_ACK_WITH_ECN UINT64_MAX pkt) e.

(** The control frames of the packet: as many steps as there are items. *)
Definition retx_items (f : QUIC_CFQ -> Z -> option QUIC_CFQ) (c : QUIC_CFQ) (pkt : QUIC_TXPIM_PKT) : option QUIC_CFQ :=
  retx_loop (size (cfq_items c)) f c (tp_retx_head pkt).

Definition on_acked (alloc : nat -> bool) (w : FIFD) (id : Z) : option FIFD :=
  pkt ← tpim_pkts (ff_txpim w) !! id;
  let '(pkt, chunks) := ossl_quic_txpim_pkt_get_chunks pkt in
  let t := tpim_upd (ff_txpim w) id (fun _ => pkt) in
  e ← chunk_loop (acked_chunk pkt) alloc 0 chunks (ff_env w);
  c ← retx_items ossl_quic_cfq_release (ff_cfq w) pkt;
  t ← ossl_quic_txpim_pkt_release t id;
  Some (w <| ff_env := e |> <| ff_cfq := c |> <| ff_txpim := t |>).

Definition on_lost (alloc : nat -> bool) (w : FIFD) (id : Z) : option FIFD :=
  pkt ← tpim_pkts (ff_txpim w) !! id;
  let '(pkt, chunks) := ossl_quic_txpim_pkt_get_chunks pkt in
  let t := tpim_upd (ff_txpim w) id (fun _ => pkt) in
  e ← chunk_loop (lost_chunk pkt) alloc 0 chunks (ff_env w);
  c ← retx_items (fun c item => ossl_quic_cfq_mark_lost c item UINT32_MAX) (ff_cfq w) pkt;
  e ← regen_flags pkt e;
  t ← ossl_quic_txpim_pkt_release t id;
  Some (w <| ff_env := e |> <| ff_cfq := c |> <| ff_txpim := t |>).

Definition on_discarded (w : FIFD) (id : Z) : option FIFD :=
  pkt ← tpim_pkts (ff_txpim w) !! id;
  c ← retx_items ossl_quic_cfq_release (ff_cfq w) pkt;
  t ← ossl_quic_txpim_pkt_release (ff_txpim w) id;
  Some (w <| ff_cfq := c |> <| ff_txpim := t |>).

(** The loop of [ossl_quic_fifd_pkt_commit]; [false]: the commit fails. *)
Fixpoint transmitted_loop (pkt : QUIC_TXPIM_PKT) (alloc : nat -> bool) (i : nat) (chunks : list QUIC_TXPIM_CHUNK) (e : E) : option (E * bool) :=
  match chunks with
  | [] => Some (e, true)
  | ck :: rest =>
      let id := ck_stream_id ck in
      let s := pkt_space (tp_ackm_pkt pkt) in
      match get_sstream_by_id e id s with
      | None => transmitted_loop pkt alloc (S i) rest e
      | Some sstream =>
          '(sstream, ok) ← (if ck_start ck <=? ck_end ck then ossl_quic_sstream_mark_transmitted (alloc i) sstream (ck_start ck) (ck_end ck)
                            else Some (sstream, true));
          if negb ok then Some (put_sstream e id s sstream, false)
          else
            let '(sstream, ok) := if ck_has_fin ck then ossl_quic_sstream_mark_transmitted_fin sstream (ck_end ck +u 1) else (sstream, true) in
            let e := put_sstream e id s sstream in
            if negb ok then Some (e, false) else transmitted_loop pkt alloc (S i) rest e
      end
  end.

Definition ossl_quic_fifd_pkt_commit (alloc : nat -> bool) (w : FIFD) (id : Z) : option (FIFD * bool) :=
  pkt ← tpim_pkts (ff_txpim w) !! id;
  c ← mark_tx_loop (size (cfq_items (ff_cfq w))) (ff_cfq w) (tp_retx_head pkt);
  let '(pkt, chunks) := ossl_quic_txpim_pkt_get_chunks pkt in
  let w := w <| ff_cfq := c |> <| ff_txpim := tpim_upd (ff_txpim w) id (fun _ => pkt) |> in
  '(e, ok) ← transmitted_loop pkt alloc 0 chunks (ff_env w);
  let w := w <| ff_env := e |> in
  if negb ok then Some (w, false)
  else
    let p := tp_ackm_pkt pkt in
    let '(a, ok) := ossl_ackm_on_tx_packet now (ff_ackm w) p in
    let cb := if ok : bool then sset (ff_cb_arg w) (pkt_space p) (<[pkt_num p := id]> (sget (ff_cb_arg w) (pkt_space p))) else ff_cb_arg w in
    Some (w <| ff_ackm := a |> <| ff_cb_arg := cb |>, ok).

(** *** The manager calls back *)

(** [pkt->cb_arg] of a packet of the manager. *)
Definition owner (cb : spaces (gmap Z Z)) (p : OSSL_ACKM_TX_PKT) : option Z := sget cb (pkt_space p) !! pkt_num p.

Definition call_back (alloc : nat -> bool) (w : FIFD) (ev : ackm_event) : option FIFD :=
  match ev with
  | EvAcked p => id ← owner (ff_cb_arg w) p; on_acked alloc w id
  | EvLost p => id ← owner (ff_cb_arg w) p; on_lost alloc w id
  | EvDiscarded p => id ← owner (ff_cb_arg w) p; on_discarded w id
  | EvLossDeadline _ | EvAckDeadline _ _ => Some w
  end.

Fixpoint dispatch (alloc : nat -> nat -> bool) (k : nat) (evs : list ackm_event) (w : FIFD) : option FIFD :=
  match evs with
  | [] => Some w
  | ev :: rest => w ← call_back (alloc k) w ev; dispatch alloc (S k) rest w
  end.

(** An operation of the manager that is not a transmission, and its callbacks. *)
Definition fifd_ackm (alloc : nat -> nat -> bool) (w : FIFD) (op : ackm_op) : option FIFD :=
  let '(a, _, _) := ackm_do now (ff_ackm w, 0, []) op in
  dispatch alloc 0 (a_events a) (w <| ff_ackm := a <| a_events := [] |> |>).
End Fifd.
