(* ===== verification/FifdInv.v ===== *)
(** * Frames in flight: what the dispatcher keeps in step

    The invariant between the packets the ACK manager holds, the pool of
    transmitted packets and the control frame queue, over every history. *)

From S2P Require Import Prelude UintSet OsslTime Congestion CcMethod Packet Wire Ackm AckmTx AckmInv RingBuf Sstream Cfq Txpim Fifd.

(** ** Chains of items *)

(** [l] is the list that starts at [h] and runs through the [pkt_next] links. *)
Fixpoint is_chain (items : gmap Z QUIC_CFQ_ITEM_EX) (h : option Z) (l : list Z) : Prop :=
  match l with
  | [] => h = None
  | x :: l => h = Some x /\ exists i, items !! x = Some i /\ is_chain items (pkt_next i) l
  end.

Definition same_links (items items' : gmap Z QUIC_CFQ_ITEM_EX) : Prop := forall a, pkt_next <$> items' !! a = pkt_next <$> items !! a.

#[export] Instance same_links_preorder : PreOrder same_links.
Proof. split; [by intros a|intros a b c H1 H2 x; by rewrite H2]. Qed.

Lemma is_chain_ext (items items' : gmap Z QUIC_CFQ_ITEM_EX) (h : option Z) (l : list Z) :
  (forall a, a ∈ l -> pkt_next <$> items' !! a = pkt_next <$> items !! a) -> is_chain items h l -> is_chain items' h l.
Proof.
  revert h. induction l as [|x l IH]; intros h Hl; [done|]. intros (-> & i & Hi & Hc). split; [done|].
  pose proof (Hl x ltac:(left)) as Hx. rewrite Hi in Hx. destruct (items' !! x) as [i'|]; [|done]. exists i'. split; [done|].
  cbn in Hx. injection Hx as ->. apply IH; [|done]. intros. apply Hl. by right.
Qed.

Lemma is_chain_links (items items' : gmap Z QUIC_CFQ_ITEM_EX) (h : option Z) (l : list Z) :
  same_links items items' -> is_chain items h l -> is_chain items' h l.
Proof. intros Hs. apply is_chain_ext. intros a _. apply Hs. Qed.

Lemma is_chain_inj (items : gmap Z QUIC_CFQ_ITEM_EX) (h : option Z) (l l' : list Z) : is_chain items h l -> is_chain items h l' -> l = l'.
Proof.
  revert h l'. induction l as [|x l IH]; intros h [|y l']; cbn; try done.
  - intros -> (? & _). done.
  - intros (-> & _) ?. done.
  - intros (-> & i & Hi & Hc) ([= <-] & i' & Hi' & Hc'). rewrite Hi in Hi'. injection Hi' as <-. by rewrite (IH _ _ Hc Hc').
Qed.

Lemma chain_present (items : gmap Z QUIC_CFQ_ITEM_EX) (l : list Z) : forall h x, is_chain items h l -> x ∈ l -> is_Some (items !! x).
Proof.
  induction l as [|y l IH]; intros h x; [by intros _ ?%elem_of_nil|]. intros (_ & i & Hi & Hc) [->|Hx]%elem_of_cons; [eauto|by eapply IH].
Qed.

Lemma chain_length (items : gmap Z QUIC_CFQ_ITEM_EX) (h : option Z) (l : list Z) : is_chain items h l -> NoDup l -> (length l <= size items)%nat.
Proof.
  intros Hc Hnd. rewrite <- size_dom, <- (size_list_to_set (C := gset Z) l Hnd). apply subseteq_size. intros x Hx%elem_of_list_to_set.
  apply elem_of_dom. by eapply chain_present.
Qed.

(** ** The loops over a packet's items *)

(** All items of [l] ended in the state [tgt] gives, all others were left alone. *)
Record all_moved (c c' : QUIC_CFQ) (l : list Z) (tgt : QUIC_CFQ_ITEM_EX -> Z) : Prop := {
  am_wf : cfq_wf c';
  am_other : forall a, (a ∉ l) -> cfq_items c' !! a = cfq_items c !! a;
  am_state : forall x i, x ∈ l -> cfq_items c !! x = Some i -> state_of c' x = Some (tgt i);
  am_links : same_links (cfq_items c) (cfq_items c');
  am_bufs : owned (cfq_items c') ++ cfq_freed c' ≡ₚ owned (cfq_items c) ++ cfq_freed c }.

Lemma moves_links (c c' : QUIC_CFQ) (item s : Z) : moves c c' item s -> same_links (cfq_items c) (cfq_items c').
Proof. intros M a. destruct (decide (a = item)) as [->|]; [apply M|by rewrite (mv_other _ _ _ _ M)]. Qed.

Lemma all_moved_cons (c c1 c' : QUIC_CFQ) (x : Z) (i : QUIC_CFQ_ITEM_EX) (l : list Z) (tgt : QUIC_CFQ_ITEM_EX -> Z) :
  (x ∉ l) -> cfq_items c !! x = Some i -> moves c c1 x (tgt i) -> all_moved c1 c' l tgt -> all_moved c c' (x :: l) tgt.
Proof.
  intros Hx Hi M [A1 A2 A3 A4 A5]. split; [done| | | |].
  - intros a [Hne Ha]%not_elem_of_cons. rewrite A2 by done. by apply M.
  - intros y iy [->|Hy]%elem_of_cons Hiy.
    + rewrite Hi in Hiy. injection Hiy as <-. pose proof (mv_state _ _ _ _ M) as Hst. unfold state_of in *. by rewrite A2.
    + eapply A3; [done|]. rewrite (mv_other _ _ _ _ M); [done|]. by intros ->.
  - etrans; [by eapply moves_links|done].
  - rewrite A5. apply M.
Qed.

Lemma live_other (c c1 : QUIC_CFQ) (x s a : Z) : cfq_wf c -> moves c c1 x s -> a <> x -> live c a -> live c1 a.
Proof.
  intros W M Hne. unfold live. rewrite (wf_new c W), (wf_tx c W), (wf_new c1 (mv_wf _ _ _ _ M)), (wf_tx c1 (mv_wf _ _ _ _ M)).
  unfold state_of. by rewrite (mv_other _ _ _ _ M).
Qed.

Lemma retx_loop_spec (f : QUIC_CFQ -> Z -> option QUIC_CFQ) (tgt : QUIC_CFQ_ITEM_EX -> Z) :
  (forall c x i, cfq_wf c -> live c x -> cfq_items c !! x = Some i -> exists c', f c x = Some c' /\ moves c c' x (tgt i)) ->
  forall l fuel c h, (length l <= fuel)%nat -> cfq_wf c -> is_chain (cfq_items c) h l -> NoDup l -> (forall x, x ∈ l -> live c x) ->
  exists c', retx_loop fuel f c h = Some c' /\ all_moved c c' l tgt.
Proof.
  intros Hf. induction l as [|x l IH]; intros fuel c h Hfuel W Hc Hnd Hl; cbn in Hc.
  - subst h. exists c. split; [by destruct fuel|]. split; try done. intros x i ?%elem_of_nil. done.
  - destruct Hc as (-> & i & Hi & Hc). destruct fuel as [|fuel]; [cbn in Hfuel; lia|]. apply NoDup_cons in Hnd as [Hx Hnd]. cbn [retx_loop].
    rewrite Hi. cbn [mbind option_bind]. destruct (Hf c x i W (Hl x ltac:(left)) Hi) as (c1 & -> & M). cbn [mbind option_bind].
    destruct (IH fuel c1 (pkt_next i)) as (c' & -> & A); [cbn in Hfuel; lia|apply M| |done| |].
    + eapply is_chain_links; [by eapply moves_links|done].
    + intros y Hy. eapply live_other; [done|done|by intros ->|apply Hl; by right].
    + exists c'. split; [done|]. by eapply all_moved_cons.
Qed.

Lemma mark_tx_loop_spec (l : list Z) : forall fuel c h, (length l <= fuel)%nat -> cfq_wf c -> is_chain (cfq_items c) h l -> NoDup l ->
  (forall x, x ∈ l -> live c x) ->
  exists c', mark_tx_loop fuel c h = Some c' /\ all_moved c c' l (fun _ => QUIC_CFQ_STATE_TX).
Proof.
  induction l as [|x l IH]; intros fuel c h Hfuel W Hc Hnd Hl; cbn in Hc.
  - subst h. exists c. split; [by destruct fuel|]. split; try done. intros x i ?%elem_of_nil. done.
  - destruct Hc as (-> & i & Hi & Hc). destruct fuel as [|fuel]; [cbn in Hfuel; lia|]. apply NoDup_cons in Hnd as [Hx Hnd]. cbn [mark_tx_loop].
    destruct (mark_tx_spec c x W (Hl x ltac:(left))) as (c1 & -> & M & _). cbn [mbind option_bind].
    pose proof (mv_link _ _ _ _ M) as Hlink. rewrite Hi in Hlink. destruct (cfq_items c1 !! x) as [i1|]; [|done]. cbn in Hlink. injection Hlink as Hlink.
    cbn [mbind option_bind]. rewrite Hlink. destruct (IH fuel c1 (pkt_next i)) as (c' & -> & A); [cbn in Hfuel; lia|apply M| |done| |].
    + eapply is_chain_links; [by eapply moves_links|done].
    + intros y Hy. eapply live_other; [done|done|by intros ->|apply Hl; by right].
    + exists c'. split; [done|]. by eapply all_moved_cons.
Qed.

(** Where [on_lost] leaves an item. *)
Definition lost_state (i : QUIC_CFQ_ITEM_EX) : Z := if ossl_quic_cfq_item_is_unreliable i then -1 else QUIC_CFQ_STATE_NEW.

Lemma release_items_spec (c : QUIC_CFQ) (pkt : QUIC_TXPIM_PKT) (l : list Z) : cfq_wf c -> is_chain (cfq_items c) (tp_retx_head pkt) l -> NoDup l ->
  (forall x, x ∈ l -> live c x) ->
  exists c', retx_items ossl_quic_cfq_release c pkt = Some c' /\ all_moved c c' l (fun _ => -1).
Proof.
  intros W Hc Hnd Hl. apply (retx_loop_spec _ (fun _ => -1)); try done; [|by eapply chain_length].
  intros c1 x i W1 Hl1 _. destruct (release_spec c1 x W1 Hl1) as (c' & ? & -> & M & _). eauto.
Qed.

Lemma lose_items_spec (c : QUIC_CFQ) (pkt : QUIC_TXPIM_PKT) (l : list Z) : cfq_wf c -> is_chain (cfq_items c) (tp_retx_head pkt) l -> NoDup l ->
  (forall x, x ∈ l -> live c x) ->
  exists c', retx_items (fun c item => ossl_quic_cfq_mark_lost c item UINT32_MAX) c pkt = Some c' /\ all_moved c c' l lost_state.
Proof.
  intros W Hc Hnd Hl. apply (retx_loop_spec _ lost_state); try done; [|by eapply chain_length].
  intros c1 x i W1 Hl1 Hi. destruct (mark_lost_spec c1 x UINT32_MAX i W1 Hl1 Hi) as (c' & -> & M & _). eauto.
Qed.

(** ** The invariant *)

(** Item [x] is linked to packet [id]. *)
Definition on_pkt (c : QUIC_CFQ) (t : QUIC_TXPIM) (id x : Z) : Prop :=
  exists tp l, tpim_pkts t !! id = Some tp /\ is_chain (cfq_items c) (tp_retx_head tp) l /\ x ∈ l.

Definition ids (cb : spaces (gmap Z Z)) (held : list OSSL_ACKM_TX_PKT) : list Z := omap (owner cb) held.

(** [held]: the packets whose fate the manager has not reported.  [building]: the
    packets handed out and not committed.  These are the allocated packets; their
    chains share no item; the items of a packet being built still wait in the
    queue, and the items in flight are those of the packets [held]. *)
Record fifd_inv (c : QUIC_CFQ) (t : QUIC_TXPIM) (cb : spaces (gmap Z Z)) (held : list OSSL_ACKM_TX_PKT) (building : list Z) : Prop := {
  fi_cfq : cfq_wf c;
  fi_txpim : txpim_wf t;
  fi_owner : forall p, p ∈ held -> exists id tp, owner cb p = Some id /\ tpim_pkts t !! id = Some tp /\ tp_ackm_pkt tp = p;
  fi_ids : NoDup (ids cb held ++ building);
  fi_alloc : forall id, allocated t id <-> id ∈ ids cb held ++ building;
  fi_chain : forall id tp, allocated t id -> tpim_pkts t !! id = Some tp ->
    exists l, is_chain (cfq_items c) (tp_retx_head tp) l /\ NoDup l /\
      forall x, x ∈ l -> state_of c x = Some (if decide (id ∈ building) then QUIC_CFQ_STATE_NEW else QUIC_CFQ_STATE_TX);
  fi_disj : forall id id' x, allocated t id -> allocated t id' -> on_pkt c t id x -> on_pkt c t id' x -> id = id';
  fi_tx : forall x, x ∈ tx_list c -> exists id, id ∈ ids cb held /\ on_pkt c t id x }.

#[export] Instance ids_proper (cb : spaces (gmap Z Z)) : Proper (Permutation ==> Permutation) (ids cb).
Proof. intros l l' Hl. unfold ids. by rewrite Hl. Qed.

Lemma fifd_inv_perm (c : QUIC_CFQ) (t : QUIC_TXPIM) (cb : spaces (gmap Z Z)) (held held' : list OSSL_ACKM_TX_PKT) (b : list Z) :
  held ≡ₚ held' -> fifd_inv c t cb held b -> fifd_inv c t cb held' b.
Proof.
  intros Hp [I1 I2 I3 I4 I5 I6 I7 I8]. split; try done.
  - intros p. rewrite <- Hp. apply I3.
  - by rewrite <- Hp.
  - intros id. rewrite <- Hp. apply I5.
  - intros x Hx. destruct (I8 x Hx) as (id & Hid & Ho). exists id. by rewrite <- Hp.
Qed.

Lemma on_pkt_links (c c' : QUIC_CFQ) (t t' : QUIC_TXPIM) (id x : Z) : same_links (cfq_items c) (cfq_items c') ->
  tpim_pkts t' !! id = tpim_pkts t !! id -> on_pkt c t id x -> on_pkt c' t' id x.
Proof. intros Hs Ht (tp & l & Htp & Hc & Hx). exists tp, l. rewrite Ht. split_and!; try done. by eapply is_chain_links. Qed.

Lemma same_links_sym (items items' : gmap Z QUIC_CFQ_ITEM_EX) : same_links items items' -> same_links items' items.
Proof. intros Hs a. by rewrite Hs. Qed.

Lemma owner_in_ids (cb : spaces (gmap Z Z)) (held : list OSSL_ACKM_TX_PKT) (p : OSSL_ACKM_TX_PKT) (id : Z) :
  p ∈ held -> owner cb p = Some id -> id ∈ ids cb held.
Proof. intros Hp Ho. apply list_elem_of_omap. eauto. Qed.

(** What the manager reports on leaves the pool, with its items. *)
Lemma fate_inv (c c' : QUIC_CFQ) (t t' : QUIC_TXPIM) (cb : spaces (gmap Z Z)) (p : OSSL_ACKM_TX_PKT) (held : list OSSL_ACKM_TX_PKT)
  (b : list Z) (id : Z) (tp : QUIC_TXPIM_PKT) (l : list Z) (tgt : QUIC_CFQ_ITEM_EX -> Z) :
  fifd_inv c t cb (p :: held) b -> owner cb p = Some id -> tpim_pkts t !! id = Some tp -> is_chain (cfq_items c) (tp_retx_head tp) l ->
  (forall i, tgt i <> QUIC_CFQ_STATE_TX) -> all_moved c c' l tgt ->
  txpim_wf t' -> (forall a, a <> id -> tpim_pkts t' !! a = tpim_pkts t !! a) -> (forall a, allocated t' a <-> allocated t a /\ a <> id) ->
  fifd_inv c' t' cb held b.
Proof.
  intros [I1 I2 I3 I4 I5 I6 I7 I8] Ho Htp Hl Htgt [A1 A2 A3 A4 A5] T1 T2 T3.
  assert (ids cb (p :: held) = id :: ids cb held) as Hids by (unfold ids; cbn; by rewrite Ho).
  rewrite Hids in I4, I5. cbn [app] in I4, I5. apply NoDup_cons in I4 as [Hni Hnd].
  assert (allocated t id) as Hal by (apply I5; left).
  assert (forall id1, id1 ∈ ids cb held -> id1 <> id) as Hne by (intros id1 Hin ->; apply Hni, elem_of_app; by left).
  assert (forall id1 x, id1 <> id -> on_pkt c' t' id1 x <-> on_pkt c t id1 x) as Hon.
  { intros id1 x Hi. split; apply on_pkt_links; try done; [by apply same_links_sym|symmetry; by apply T2|by apply T2]. }
  split; try done.
  - intros q Hq. destruct (I3 q ltac:(by right)) as (id1 & tp1 & Hq1 & Ht1 & He). exists id1, tp1. rewrite T2; [done|].
    apply Hne. by eapply owner_in_ids.
  - intros a. rewrite T3, I5, elem_of_cons. destruct (decide (a = id)) as [->|]; [|tauto]. tauto.
  - intros id1 tp1 [Ha1 Hid1]%T3 Ht1. rewrite T2 in Ht1 by done. destruct (I6 id1 tp1 Ha1 Ht1) as (l1 & C1 & C2 & C3).
    exists l1. split_and!; [by eapply is_chain_links|done|]. intros x Hx. unfold state_of. rewrite A2; [by apply C3|].
    intros Hx'. apply Hid1. eapply (I7 id1 id x); [done|done|exists tp1, l1; done|exists tp, l; done].
  - intros id1 id2 x [Ha1 Hi1]%T3 [Ha2 Hi2]%T3 Hx1%Hon Hx2%Hon; [|done|done]. by eapply I7.
  - intros x Hx. apply (wf_tx c' A1) in Hx. destruct (decide (x ∈ l)) as [Hin|Hnin].
    + destruct (chain_present _ _ _ _ Hl Hin) as [i Hi]. rewrite (A3 x i Hin Hi) in Hx. injection Hx as Hx. by destruct (Htgt i).
    + unfold state_of in Hx. rewrite A2 in Hx by done. apply (wf_tx c I1) in Hx. destruct (I8 x Hx) as (id1 & Hid1 & Hx1). rewrite Hids in Hid1.
      apply elem_of_cons in Hid1 as [->|Hid1].
      * destruct Hx1 as (tp1 & l1 & Ht1 & C1 & Hx1). rewrite Htp in Ht1. injection Ht1 as <-. by rewrite (is_chain_inj _ _ _ _ Hl C1) in Hnin.
      * exists id1. split; [done|]. apply Hon; [by apply Hne|done].
Qed.

(** The chain of a packet [held] is in flight. *)
Lemma held_chain (c : QUIC_CFQ) (t : QUIC_TXPIM) (cb : spaces (gmap Z Z)) (held : list OSSL_ACKM_TX_PKT) (b : list Z) (p : OSSL_ACKM_TX_PKT) :
  fifd_inv c t cb held b -> p ∈ held -> exists id tp l, owner cb p = Some id /\ allocated t id /\ (id ∉ b) /\ tpim_pkts t !! id = Some tp /\
    tp_ackm_pkt tp = p /\ is_chain (cfq_items c) (tp_retx_head tp) l /\ NoDup l /\ (forall x, x ∈ l -> state_of c x = Some QUIC_CFQ_STATE_TX).
Proof.
  intros I Hp. destruct (fi_owner _ _ _ _ _ I p Hp) as (id & tp & Ho & Ht & He). pose proof (owner_in_ids cb held p id Hp Ho) as Hid.
  assert (allocated t id) as Ha by (apply (fi_alloc _ _ _ _ _ I), elem_of_app; by left).
  assert (id ∉ b) as Hb. { pose proof (fi_ids _ _ _ _ _ I) as Hnd. apply NoDup_app in Hnd as (_ & Hd & _). by apply Hd. }
  destruct (fi_chain _ _ _ _ _ I id tp Ha Ht) as (l & C1 & C2 & C3). exists id, tp, l. split_and!; try done.
  intros x Hx. by rewrite (C3 x Hx), decide_False.
Qed.

Lemma tx_live (c : QUIC_CFQ) (x : Z) : cfq_wf c -> state_of c x = Some QUIC_CFQ_STATE_TX -> live c x.
Proof. intros W Hs. right. by apply (wf_tx c W). Qed.

(** Giving the packet back, after its chunks have been sorted. *)
Lemma give_back (t : QUIC_TXPIM) (id : Z) (tp tp' : QUIC_TXPIM_PKT) : txpim_wf t -> allocated t id -> tpim_pkts t !! id = Some tp ->
  (chunks_ok tp -> chunks_ok tp') ->
  exists t', ossl_quic_txpim_pkt_release (tpim_upd t id (fun _ => tp')) id = Some t' /\ txpim_wf t' /\
    (forall a, a <> id -> tpim_pkts t' !! a = tpim_pkts t !! a) /\ (forall a, allocated t' a <-> allocated t a /\ a <> id) /\
    id ∈ tpim_free t' /\ tpim_in_use t' = tpim_in_use t - 1.
Proof.
  intros W Ha Ht Hok. destruct (tpim_upd_wf t id (fun _ => tp')) as [W' Hall]; [|done|].
  { intros q Hq Hck. rewrite Ht in Hq. injection Hq as <-. auto. }
  destruct (pkt_release_spec _ id W' (proj2 (Hall id) Ha)) as (t' & -> & W2 & Hu & Hp & Hal). exists t'. split_and!; try done.
  - intros a Hne. rewrite Hp. cbn. by rewrite lookup_alter_ne.
  - intros a. rewrite Hal. by rewrite Hall.
  - destruct (decide (id ∈ tpim_free t')) as [|Hn]; [done|]. assert (allocated t' id) as [_ Hne]%Hal; [|done]. split; [|done].
    rewrite Hp. cbn. by rewrite lookup_alter_eq, Ht.
Qed.

(** ** The handlers *)

Section Handlers.
Context {D E : Type} `{CC_ACCOUNTING D} `{FIFD_CALLBACKS E} `{QSort}.
Context (now : nat -> OSSL_TIME).

Implicit Types (w : QUIC_FIFD D E) (p : OSSL_ACKM_TX_PKT).

Definition winv w (held : list OSSL_ACKM_TX_PKT) (b : list Z) : Prop := fifd_inv (ff_cfq w) (ff_txpim w) (ff_cb_arg w) held b.

(** The state after a handler: the new streams, queue and pool. *)
Definition handled w (e : E) (c : QUIC_CFQ) (t : QUIC_TXPIM) : QUIC_FIFD D E := w <| ff_env := e |> <| ff_cfq := c |> <| ff_txpim := t |>.

(** The record of packet [id] is back in the pool; the others are as they were. *)
Definition gives_back (t t' : QUIC_TXPIM) (id : Z) : Prop :=
  (forall a, a <> id -> tpim_pkts t' !! a = tpim_pkts t !! a) /\ (forall a, allocated t' a <-> allocated t a /\ a <> id) /\ id ∈ tpim_free t'.

(** The fate of [p] settles its items as [tgt] says and frees its packet; only the
    callbacks to the streams can stop it, [run]. *)
Definition settles w p (held : list OSSL_ACKM_TX_PKT) (b : list Z) (tgt : QUIC_CFQ_ITEM_EX -> Z) (run : QUIC_TXPIM_PKT -> E -> option E)
  (r : option (QUIC_FIFD D E)) : Prop :=
  exists id tp l c' t', owner (ff_cb_arg w) p = Some id /\ tpim_pkts (ff_txpim w) !! id = Some tp /\
    is_chain (cfq_items (ff_cfq w)) (tp_retx_head tp) l /\ all_moved (ff_cfq w) c' l tgt /\
    tpim_in_use t' = tpim_in_use (ff_txpim w) - 1 /\ gives_back (ff_txpim w) t' id /\
    fifd_inv c' t' (ff_cb_arg w) held b /\ r = (e ← run tp (ff_env w); Some (handled w e c' t')).

Lemma handler_facts w p held b : winv w (p :: held) b -> exists id tp l, owner (ff_cb_arg w) p = Some id /\
  tpim_pkts (ff_txpim w) !! id = Some tp /\ is_chain (cfq_items (ff_cfq w)) (tp_retx_head tp) l /\ NoDup l /\
  (forall x, x ∈ l -> live (ff_cfq w) x) /\
  forall (tp' : QUIC_TXPIM_PKT) (c' : QUIC_CFQ) (tgt : QUIC_CFQ_ITEM_EX -> Z),
    (chunks_ok tp -> chunks_ok tp') -> (forall i, tgt i <> QUIC_CFQ_STATE_TX) -> all_moved (ff_cfq w) c' l tgt ->
    exists t', ossl_quic_txpim_pkt_release (tpim_upd (ff_txpim w) id (fun _ => tp')) id = Some t' /\
      tpim_in_use t' = tpim_in_use (ff_txpim w) - 1 /\ gives_back (ff_txpim w) t' id /\
      fifd_inv c' t' (ff_cb_arg w) held b.
Proof.
  intros I. destruct (held_chain _ _ _ _ _ p I ltac:(left)) as (id & tp & l & Ho & Ha & _ & Ht & _ & Hc & Hnd & Hst).
  exists id, tp, l. split_and!; try done; [intros; apply tx_live; [apply I|auto]|]. intros tp' c' tgt Hok Htgt Hm.
  destruct (give_back (ff_txpim w) id tp tp' (fi_txpim _ _ _ _ _ I) Ha Ht Hok) as (t' & -> & W' & Hp & Hal & Hfr & Hu).
  exists t'. split_and!; try done. by eapply fate_inv.
Qed.

(** A packet whose chunks have been sorted has the same items. *)
Lemma sorted_pkt (tp : QUIC_TXPIM_PKT) : let '(pkt, chunks) := ossl_quic_txpim_pkt_get_chunks tp in
  (chunks_ok tp -> chunks_ok pkt) /\ tp_retx_head pkt = tp_retx_head tp /\ tp_ackm_pkt pkt = tp_ackm_pkt tp.
Proof.
  destruct (ossl_quic_txpim_pkt_get_chunks tp) as [pkt chunks] eqn:E1. split.
  - intros Hok. pose proof (get_chunks_spec tp Hok) as Hs. rewrite E1 in Hs. apply Hs.
  - unfold ossl_quic_txpim_pkt_get_chunks in E1. injection E1 as <- _. by destruct (tp_chunks_need_sort tp).
Qed.

Definition run_acked (alloc : nat -> bool) (tp : QUIC_TXPIM_PKT) (e : E) : option E :=
  let '(pkt, chunks) := ossl_quic_txpim_pkt_get_chunks tp in chunk_loop (acked_chunk pkt) alloc 0 chunks e.

Definition run_lost (alloc : nat -> bool) (tp : QUIC_TXPIM_PKT) (e : E) : option E :=
  let '(pkt, chunks) := ossl_quic_txpim_pkt_get_chunks tp in e ← chunk_loop (lost_chunk pkt) alloc 0 chunks e; regen_flags pkt e.

Definition settles_event (alloc : nat -> bool) w p held b (ev : ackm_event) (r : option (QUIC_FIFD D E)) : Prop :=
  match ev with
  | EvAcked _ => settles w p held b (fun _ => -1) (run_acked alloc) r
  | EvLost _ => settles w p held b lost_state (run_lost alloc) r
  | _ => settles w p held b (fun _ => -1) (fun _ e => Some e) r
  end.

Lemma call_back_settles (alloc : nat -> bool) w p held b (ev : ackm_event) : winv w (p :: held) b -> ev_pkt ev = Some p ->
  settles_event alloc w p held b ev (call_back alloc w ev).
Proof.
  intros I Hev. pose proof (fi_cfq _ _ _ _ _ I) as W. destruct (handler_facts w p held b I) as (id & tp & l & Ho & Ht & Hc & Hnd & Hl & Hgive).
  pose proof (sorted_pkt tp) as Hs. unfold settles_event, settles, run_acked, run_lost.
  destruct ev as [q|q|q| |]; try discriminate Hev; injection Hev as ->; cbn [call_back]; rewrite Ho; cbn [mbind option_bind]; unfold on_acked, on_lost, on_discarded;
    rewrite Ht; cbn [mbind option_bind].
  - destruct (ossl_quic_txpim_pkt_get_chunks tp) as [pkt chunks] eqn:Eg. destruct Hs as (Hok & Hh & _). rewrite <- Hh in Hc.
    destruct (release_items_spec (ff_cfq w) pkt l W Hc Hnd Hl) as (c' & -> & Hm).
    destruct (Hgive pkt c' (fun _ => -1) Hok ltac:(done) Hm) as (t' & -> & Hu & Ht' & Hi). rewrite Hh in Hc.
    exists id, tp, l, c', t'. split_and!; try done. by rewrite Eg.
  - destruct (ossl_quic_txpim_pkt_get_chunks tp) as [pkt chunks] eqn:Eg. destruct Hs as (Hok & Hh & _). rewrite <- Hh in Hc.
    destruct (lose_items_spec (ff_cfq w) pkt l W Hc Hnd Hl) as (c' & -> & Hm).
    assert (forall i, lost_state i <> QUIC_CFQ_STATE_TX) as Hls by (intros i; unfold lost_state; by destruct (ossl_quic_cfq_item_is_unreliable i)).
    destruct (Hgive pkt c' lost_state Hok Hls Hm) as (t' & -> & Hu & Ht' & Hi). rewrite Hh in Hc.
    exists id, tp, l, c', t'. split_and!; try done. rewrite Eg.
    destruct (chunk_loop _ alloc 0 chunks (ff_env w)) as [e|]; [|done]. cbn [mbind option_bind]. by destruct (regen_flags pkt e).
  - destruct (release_items_spec (ff_cfq w) tp l W Hc Hnd Hl) as (c' & -> & Hm).
    destruct (Hgive tp c' (fun _ => -1) ltac:(done) ltac:(done) Hm) as (t' & Hr & Hu & Ht' & Hi).
    assert (tpim_upd (ff_txpim w) id (fun _ => tp) = ff_txpim w) as Hid.
    { unfold tpim_upd. destruct (ff_txpim w) as [m fr iu]. cbn -[alter] in *. f_equal. apply alter_id. intros q Hq. congruence. }
    rewrite Hid in Hr. cbn [mbind option_bind]. rewrite Hr. exists id, tp, l, c', t'. split_and!; done.
Qed.

(** The callbacks of one operation, in order. *)
Lemma dispatch_inv (alloc : nat -> nat -> bool) (evs : list ackm_event) : forall k w w' held b,
  winv w (reported evs ++ held) b -> dispatch alloc k evs w = Some w' ->
  winv w' held b /\ ff_ackm w' = ff_ackm w /\ ff_cb_arg w' = ff_cb_arg w /\
  tpim_in_use (ff_txpim w') = tpim_in_use (ff_txpim w) - zlen (reported evs).
Proof.
  induction evs as [|ev evs IH]; intros k w w' held b I Hd; cbn in Hd; [injection Hd as <-; split_and!; try done; change (zlen _) with 0; lia|].
  destruct (ev_pkt ev) as [p|] eqn:Ep.
  - assert (reported (ev :: evs) = p :: reported evs) as Hr by (unfold reported; cbn; by rewrite Ep). rewrite Hr in I |- *.
    pose proof (call_back_settles (alloc k) w p (reported evs ++ held) b ev I Ep) as Hs.
    destruct (call_back (alloc k) w ev) as [w1|]; [|done]. cbn in Hd.
    assert (exists e c' t', w1 = handled w e c' t' /\ fifd_inv c' t' (ff_cb_arg w) (reported evs ++ held) b /\
      tpim_in_use t' = tpim_in_use (ff_txpim w) - 1) as (e & c' & t' & -> & Hi & Hu).
    { destruct ev; unfold settles_event, settles in Hs; destruct Hs as (id & tp & l & c' & t' & _ & _ & _ & _ & Hu & _ & Hi & Hq);
        match type of Hq with _ = (_ ← ?x; _) => destruct x as [e|]; [|done] end; injection Hq as ->; by exists e, c', t'. }
    destruct (IH (S k) (handled w e c' t') w' held b Hi Hd) as (I' & Ha & Hcb & Hu'). split_and!; [done|by rewrite Ha|by rewrite Hcb|].
    rewrite Hu'. cbn. rewrite Hu. unfold zlen. cbn. lia.
  - assert (reported (ev :: evs) = reported evs) as Hr by (unfold reported; cbn; by rewrite Ep). rewrite Hr in I |- *.
    assert (call_back (alloc k) w ev = Some w) as Hcb by (by destruct ev). rewrite Hcb in Hd. by eapply IH.
Qed.

(** The state the report of a packet leaves its items in. *)
Definition fate_state (ev : ackm_event) (i : QUIC_CFQ_ITEM_EX) : Z := match ev with EvLost _ => lost_state i | _ => -1 end.

Lemma reported_cons (ev : ackm_event) (evs : list ackm_event) : reported (ev :: evs) = option_list (ev_pkt ev) ++ reported evs.
Proof. unfold reported. cbn. by destruct (ev_pkt ev). Qed.

(** What one report does, in one form for the three kinds. *)
Lemma call_back_fate (alloc : nat -> bool) w w' p held b (ev : ackm_event) : winv w (p :: held) b -> ev_pkt ev = Some p ->
  call_back alloc w ev = Some w' ->
  exists id tp l, owner (ff_cb_arg w) p = Some id /\ tpim_pkts (ff_txpim w) !! id = Some tp /\
    is_chain (cfq_items (ff_cfq w)) (tp_retx_head tp) l /\ all_moved (ff_cfq w) (ff_cfq w') l (fate_state ev) /\
    gives_back (ff_txpim w) (ff_txpim w') id /\ winv w' held b /\ ff_cb_arg w' = ff_cb_arg w.
Proof.
  intros I Hev Hc. pose proof (call_back_settles alloc w p held b ev I Hev) as Hs. rewrite Hc in Hs.
  destruct ev as [q|q|q| |]; try discriminate Hev; unfold settles_event, settles in Hs;
    destruct Hs as (id & tp & l & c' & t' & Ho & Ht & Hch & Hm & _ & Hot & Hi & Hq); exists id, tp, l;
    match type of Hq with _ = (_ ← ?x; _) => destruct x as [e|]; [|done] end; injection Hq as ->; split_and!; done.
Qed.

(** The items of a reported packet end as the report says, and all other items are
    left alone, whatever else is reported. *)
Lemma dispatch_fate (alloc : nat -> nat -> bool) (evs : list ackm_event) : forall k w w' held b,
  winv w (reported evs ++ held) b -> dispatch alloc k evs w = Some w' ->
  (forall ev p id x, ev ∈ evs -> ev_pkt ev = Some p -> owner (ff_cb_arg w) p = Some id -> on_pkt (ff_cfq w) (ff_txpim w) id x ->
     exists i, cfq_items (ff_cfq w) !! x = Some i /\ state_of (ff_cfq w') x = Some (fate_state ev i)) /\
  (forall x, (forall p id, p ∈ reported evs -> owner (ff_cb_arg w) p = Some id -> ~ on_pkt (ff_cfq w) (ff_txpim w) id x) ->
     cfq_items (ff_cfq w') !! x = cfq_items (ff_cfq w) !! x) /\
  (forall p, p ∈ reported evs -> exists id, owner (ff_cb_arg w) p = Some id /\ id ∈ tpim_free (ff_txpim w')) /\
  (forall a, (forall p, p ∈ reported evs -> owner (ff_cb_arg w) p <> Some a) ->
     tpim_pkts (ff_txpim w') !! a = tpim_pkts (ff_txpim w) !! a /\ (allocated (ff_txpim w') a <-> allocated (ff_txpim w) a)).
Proof.
  clear now. induction evs as [|ev evs IH]; intros k w w' held b I Hd; cbn in Hd.
  { injection Hd as <-. split_and!; [intros ev p id x Hev; by apply elem_of_nil in Hev|done|intros p Hp; by apply elem_of_nil in Hp|done]. }
  rewrite reported_cons in I |- *. destruct (ev_pkt ev) as [p|] eqn:Ep; cbn [option_list app] in I |- *.
  2: { assert (call_back (alloc k) w ev = Some w) as Hcb by (by destruct ev). rewrite Hcb in Hd.
    destruct (IH (S k) w w' held b I Hd) as [IH1 IH2]. split; [|done]. clear IH2. intros ev1 p id x [->|Hev]%elem_of_cons Hp; [congruence|by apply IH1]. }
  destruct (call_back (alloc k) w ev) as [w1|] eqn:Ec; [|done]. cbn in Hd.
  destruct (call_back_fate _ _ _ _ _ _ _ I Ep Ec) as (id & tp & l & Ho & Ht & Hch & [A1 A2 A3 A4 A5] & (Hot & Hga & Hgf) & I1 & Hcb).
  destruct (IH (S k) w1 w' held b I1 Hd) as (IH1 & IH2 & IH3 & IH4). rewrite Hcb in IH1, IH2, IH3, IH4.
  assert (forall x, x ∈ l -> on_pkt (ff_cfq w) (ff_txpim w) id x) as Hl by (intros x Hx; by exists tp, l).
  assert (forall q id1, q ∈ reported evs -> owner (ff_cb_arg w) q = Some id1 -> id1 <> id /\
    forall x, on_pkt (ff_cfq w1) (ff_txpim w1) id1 x <-> on_pkt (ff_cfq w) (ff_txpim w) id1 x) as Hrest.
  { intros q id1 Hq Ho1. assert (id1 <> id) as Hne.
    { intros ->. pose proof (fi_ids _ _ _ _ _ I) as Hnd. unfold ids in Hnd. cbn in Hnd. rewrite Ho in Hnd. cbn in Hnd. apply NoDup_cons in Hnd as [Hni _].
      apply Hni, elem_of_app. left. eapply owner_in_ids; [|exact Ho1]. apply elem_of_app. by left. }
    split; [done|]. intros x. split; apply on_pkt_links; try done; [by apply same_links_sym|symmetry; by apply Hot|by apply Hot]. }
  assert (forall q id1, q ∈ p :: reported evs ++ held -> owner (ff_cb_arg w) q = Some id1 -> allocated (ff_txpim w) id1) as Hal.
  { intros q id1 Hq Ho1. apply (fi_alloc _ _ _ _ _ I), elem_of_app. left. by eapply owner_in_ids. }
  assert (forall q id1 x, q ∈ reported evs -> owner (ff_cb_arg w) q = Some id1 -> on_pkt (ff_cfq w) (ff_txpim w) id1 x -> x ∉ l) as Hni.
  { intros q id1 x Hq Ho1 Hx Hx2. destruct (Hrest q id1 Hq Ho1) as [Hne _]. apply Hne. eapply (fi_disj _ _ _ _ _ I id1 id x); [| |done|by apply Hl].
    - eapply (Hal q); [|done]. right. apply elem_of_app. by left.
    - eapply (Hal p); [left|done]. }
  split_and!.
  - intros ev1 q id1 x [->|Hev]%elem_of_cons Hq Ho1 Hx.
    + rewrite Ep in Hq. injection Hq as <-. rewrite Ho in Ho1. injection Ho1 as <-. destruct Hx as (tp1 & l1 & Ht1 & C1 & Hx).
      rewrite Ht in Ht1. injection Ht1 as <-. rewrite (is_chain_inj _ _ _ _ C1 Hch) in Hx. destruct (chain_present _ _ _ _ Hch Hx) as [i Hi].
      exists i. split; [done|]. rewrite <- (A3 x i Hx Hi). unfold state_of. rewrite IH2; [done|].
      intros q id1 Hq Ho1 Hx1%(Hrest q id1 Hq Ho1). by eapply Hni.
    + assert (q ∈ reported evs) as Hqr by (apply list_elem_of_omap; eauto). destruct (Hrest q id1 Hqr Ho1) as [_ Hon].
      destruct (IH1 ev1 q id1 x Hev Hq Ho1 (proj2 (Hon x) Hx)) as (i & Hi & Hs). exists i. split; [|done]. rewrite <- Hi. symmetry. by eapply A2, Hni.
  - intros x Hx. rewrite IH2, A2; [done| |].
    + intros Hin. by eapply (Hx p id); [left| |apply Hl].
    + intros q id1 Hq Ho1 Hx1%(Hrest q id1 Hq Ho1). by eapply (Hx q id1); [right| |].
  - intros q [->|Hq]%elem_of_cons; [|by apply IH3]. exists id. split; [done|].
    destruct (IH4 id) as [Hr Ha]. { intros q Hq Ho1. by destruct (Hrest q id Hq Ho1). }
    destruct (decide (id ∈ tpim_free (ff_txpim w'))) as [|Hn]; [done|]. assert (allocated (ff_txpim w1) id) as [_ Hne]%Hga; [|done].
    apply Ha. split; [|done]. rewrite Hr. apply (tw_free _ (fi_txpim _ _ _ _ _ I1)), Hgf.
  - intros a Ha. assert (a <> id) as Hne by (intros ->; by apply (Ha p ltac:(left))).
    destruct (IH4 a) as [Hr Hi]; [intros q Hq; apply Ha; by right|]. rewrite Hr, Hi, Hga. split; [by apply Hot|tauto].
Qed.

(** Nothing but a callback to the streams can stop a report. *)
Lemma dispatch_runs (alloc : nat -> nat -> bool) (evs : list ackm_event) :
  (forall al tp e, is_Some (run_acked al tp e) /\ is_Some (run_lost al tp e)) ->
  forall k w held b, winv w (reported evs ++ held) b -> is_Some (dispatch alloc k evs w).
Proof.
  intros Hrun. induction evs as [|ev evs IH]; intros k w held b I; [by eexists|]. cbn. rewrite reported_cons in I.
  destruct (ev_pkt ev) as [p|] eqn:Ep; cbn [option_list app] in I.
  - destruct (call_back (alloc k) w ev) as [w1|] eqn:Ec; cbn.
    + destruct (call_back_fate _ _ _ _ _ _ _ I Ep Ec) as (_ & _ & _ & _ & _ & _ & _ & _ & I1 & _). by eapply IH.
    + pose proof (call_back_settles (alloc k) w p _ b ev I Ep) as Hs. rewrite Ec in Hs.
      destruct ev as [q|q|q| |]; try discriminate Ep; unfold settles_event, settles in Hs; destruct Hs as (id & tp & l & c' & t' & _ & _ & _ & _ & _ & _ & _ & Hq);
        destruct (Hrun (alloc k) tp (ff_env w)) as [[e1 E1] [e2 E2]]; rewrite ?E1, ?E2 in Hq; done.
  - assert (call_back (alloc k) w ev = Some w) as -> by (by destruct ev). by eapply IH.
Qed.
End Handlers.
