(* ===== verification/FifdProps.v ===== *)
(** * Frames in flight: histories of the dispatcher and what holds in all of them *)

From S2P Require Import Prelude UintSet OsslTime Congestion CcMethod Packet Wire Ackm AckmTx AckmInv RingBuf Sstream Cfq Txpim Fifd FifdInv.

(** ** Histories *)

Inductive fifd_op (E : Type) :=
| FoAlloc (alloc : option Z)
| FoRelease (id : Z)
| FoFill (id : Z) (f : QUIC_TXPIM_PKT -> QUIC_TXPIM_PKT)
| FoAppend (id : Z) (realloc : bool) (chunk : QUIC_TXPIM_CHUNK)
| FoAddItem (id item : Z)
| FoCommit (alloc : nat -> bool) (id : Z)
| FoAckm (alloc : nat -> nat -> bool) (op : ackm_op)
| FoCfqAdd (alloc : option Z) (priority pn_space frame_type flags : Z) (encoded : option Z) (encoded_len : Z) (free_cb : option (Z * Z))
| FoCfqRelease (item : Z)
| FoEnv (e : E).
Arguments FoAlloc {E}.
Arguments FoRelease {E}.
Arguments FoFill {E}.
Arguments FoAppend {E}.
Arguments FoAddItem {E}.
Arguments FoCommit {E}.
Arguments FoAckm {E}.
Arguments FoCfqAdd {E}.
Arguments FoCfqRelease {E}.
Arguments FoEnv {E}.

(** A packet under construction is filled in without touching its lists. *)
Definition fills (f : QUIC_TXPIM_PKT -> QUIC_TXPIM_PKT) : Prop :=
  forall tp, tp_retx_head (f tp) = tp_retx_head tp /\ tp_chunks (f tp) = tp_chunks tp /\
    tp_alloc_chunks (f tp) = tp_alloc_chunks tp /\ tp_chunks_need_sort (f tp) = tp_chunks_need_sort tp.

Section History.
Context {D E : Type} `{CC_ACCOUNTING D} `{FIFD_CALLBACKS E} `{QSort}.
Context (now : nat -> OSSL_TIME).

(** The dispatcher, the packets handed out and not committed, and the bytes of
    pseudo-lost packets. *)
Record fifd_state := mkSt { st_w : QUIC_FIFD D E; st_building : list Z; st_leaked : Z }.

Definition is_tx_op (op : ackm_op) : bool := match op with OpTx _ => true | _ => false end.

(** [None]: the call goes wrong, or a commit is refused, which ends the connection. *)
Definition fifd_do (st : fifd_state) (op : fifd_op E) : option fifd_state :=
  let '(mkSt w b leaked) := st in
  match op with
  | FoAlloc alloc =>
      '(t, r) ← ossl_quic_txpim_pkt_alloc alloc (ff_txpim w);
      Some (mkSt (w <| ff_txpim := t |>) (match r with Some id => id :: b | None => b end) leaked)
  | FoRelease id =>
      t ← ossl_quic_txpim_pkt_release (ff_txpim w) id;
      Some (mkSt (w <| ff_txpim := t |>) (filter (fun x => x <> id) b) leaked)
  | FoFill id f => Some (mkSt (w <| ff_txpim := tpim_upd (ff_txpim w) id f |>) b leaked)
  | FoAppend id realloc chunk =>
      Some (mkSt (w <| ff_txpim := tpim_upd (ff_txpim w) id (fun tp => fst (ossl_quic_txpim_pkt_append_chunk realloc tp chunk)) |>) b leaked)
  | FoAddItem id item =>
      tp ← tpim_pkts (ff_txpim w) !! id;
      let '(tp, c) := ossl_quic_txpim_pkt_add_cfq_item tp (ff_cfq w) item in
      Some (mkSt (w <| ff_txpim := tpim_upd (ff_txpim w) id (fun _ => tp) |> <| ff_cfq := c |>) b leaked)
  | FoCommit alloc id =>
      '(w, ok) ← ossl_quic_fifd_pkt_commit now alloc w id;
      if ok : bool then Some (mkSt w (filter (fun x => x <> id) b) leaked) else None
  | FoAckm alloc op =>
      let '(_, leaked, _) := ackm_do now (ff_ackm w, leaked, []) op in
      w ← fifd_ackm now alloc w op;
      Some (mkSt w b leaked)
  | FoCfqAdd alloc pr sp ft fl enc len cb =>
      '(c, _) ← ossl_quic_cfq_add_frame alloc (ff_cfq w) pr sp ft fl enc len cb;
      Some (mkSt (w <| ff_cfq := c |>) b leaked)
  | FoCfqRelease item => c ← ossl_quic_cfq_release (ff_cfq w) item; Some (mkSt (w <| ff_cfq := c |>) b leaked)
  | FoEnv e => Some (mkSt (w <| ff_env := e |>) b leaked)
  end.

(** An item that no packet links. *)
Definition unlinked (w : QUIC_FIFD D E) (item : Z) : Prop := forall id, allocated (ff_txpim w) id -> ~ on_pkt (ff_cfq w) (ff_txpim w) id item.

(** What the callers guarantee: fresh memory from the allocator; only packets under
    construction are filled, given items, committed or given back, and an item is
    given to one packet; the preconditions of the ACK manager. *)
Definition fifd_op_ok (st : fifd_state) (op : fifd_op E) : Prop :=
  let '(mkSt w b leaked) := st in
  match op with
  | FoAlloc alloc => forall a, alloc = Some a -> tpim_pkts (ff_txpim w) !! a = None /\ Z.of_nat (size (tpim_pkts (ff_txpim w))) + 1 < U64_MOD
  | FoRelease id | FoAppend id _ _ => id ∈ b
  | FoFill id f => id ∈ b /\ fills f
  | FoAddItem id item => id ∈ b /\ item ∈ new_list (ff_cfq w) /\ unlinked w item
  | FoCommit _ id => id ∈ b /\ forall tp, tpim_pkts (ff_txpim w) !! id = Some tp -> op_ok (ff_ackm w, leaked, []) (OpTx (tp_ackm_pkt tp))
  | FoAckm _ op => is_tx_op op = false /\ op_ok (ff_ackm w, leaked, []) op
  | FoCfqAdd alloc _ _ _ _ _ _ _ => forall a, alloc = Some a -> cfq_items (ff_cfq w) !! a = None
  | FoCfqRelease item => live (ff_cfq w) item /\ unlinked w item
  | FoEnv _ => True
  end.

Definition fifd_new (statm : OSSL_STATM) (cc : D) (is_server : bool) (e : E) : fifd_state :=
  mkSt (mkFifd ossl_quic_cfq_new ossl_quic_txpim_new (ossl_ackm_new statm cc is_server) e (mkSpaces ∅ ∅ ∅)) [] 0.

Inductive fifd_reach (statm : OSSL_STATM) (cc : D) (is_server : bool) (e : E) : fifd_state -> Prop :=
| fifd_reach_new : fifd_reach statm cc is_server e (fifd_new statm cc is_server e)
| fifd_reach_step st op st' :
    fifd_reach statm cc is_server e st -> fifd_op_ok st op -> fifd_do st op = Some st' -> fifd_reach statm cc is_server e st'.

(** ** The invariant of all histories *)

Record st_inv (st : fifd_state) : Prop := {
  si_fifd : winv (st_w st) (outstanding (ff_ackm (st_w st))) (st_building st);
  si_ackm : tx_inv (ff_ackm (st_w st)) (st_leaked st) (outstanding (ff_ackm (st_w st))) [];
  si_quiet : reported (a_events (ff_ackm (st_w st))) = [];
  si_count : tpim_in_use (ff_txpim (st_w st)) = zlen (outstanding (ff_ackm (st_w st))) + zlen (st_building st) }.

(** *** The manager *)

Lemma on_tx_reported (a a' : OSSL_ACKM D) (p : OSSL_ACKM_TX_PKT) (ok : bool) :
  ossl_ackm_on_tx_packet now a p = (a', ok) -> reported (a_events a') = reported (a_events a).
Proof.
  unfold ossl_ackm_on_tx_packet. intros Hop. repeat (case_match; try by injection Hop as <- <-).
  all: injection Hop as <- <-; cbn [upd_cc a_events field_upd]; rewrite (core_rep _ _ (core_timer now _)); done.
Qed.

(** The manager forgets the calls it made. *)
Lemma drained_inv (a : OSSL_ACKM D) (leaked : Z) (sent : list OSSL_ACKM_TX_PKT) : tx_inv a leaked sent [] ->
  tx_inv (a <| a_events := [] |>) leaked (outstanding a) [].
Proof.
  intros [T1 T2 T3 T4 T5 T6 T7 T8]. split; try done. cbn [a_events field_upd reported omap list_omap app]. by rewrite !app_nil_r.
Qed.

Lemma drained_inv' (a : OSSL_ACKM D) (leaked : Z) (sent : list OSSL_ACKM_TX_PKT) : tx_inv a leaked sent [] -> reported (a_events a) = [] ->
  tx_inv a leaked (outstanding a) [].
Proof. intros [T1 T2 T3 T4 T5 T6 T7 T8] Hq. split; try done. by rewrite Hq, !app_nil_r. Qed.

Definition pkt_key (p : OSSL_ACKM_TX_PKT) : pn_space * Z := (pkt_space p, pkt_num p).

(** Packets in the history are told apart by space and number. *)
Lemma outstanding_keys (a : OSSL_ACKM D) (leaked : Z) (sent : list OSSL_ACKM_TX_PKT) : tx_inv a leaked sent [] ->
  NoDup (pkt_key <$> outstanding a).
Proof.
  intros Hi. pose proof (inv_hist _ _ _ _ Hi) as Hh.
  assert (forall s, NoDup (pkt_key <$> pkts a s)) as Hnd.
  { intros s. pose proof (hist_sorted _ _ (Hh s)) as Hs. fold (pkts a s) in Hs. induction Hs as [|x l Hs IH Hf]; [constructor|].
    cbn. constructor; [|done]. intros (y & [= _ Hxy] & Hy)%list_elem_of_fmap. rewrite Forall_forall in Hf. specialize (Hf y Hy). unfold pn_lt in Hf. lia. }
  assert (forall s k, k ∈ pkt_key <$> pkts a s -> k.1 = s) as Hsp.
  { intros s k (p & -> & Hp)%list_elem_of_fmap. pose proof (hist_pkts _ _ (Hh s)) as Hf. rewrite Forall_forall in Hf. by destruct (Hf p Hp). }
  unfold outstanding. rewrite !fmap_app, !NoDup_app. split_and!; try apply Hnd.
  - intros k Hk1 Hk2%elem_of_app. apply Hsp in Hk1. destruct Hk2 as [Hk2|Hk2]; apply Hsp in Hk2; congruence.
  - intros k Hk1 Hk2. apply Hsp in Hk1, Hk2. congruence.
Qed.

Lemma owner_other (cb : spaces (gmap Z Z)) (p q : OSSL_ACKM_TX_PKT) (id : Z) : pkt_key q <> pkt_key p ->
  owner (sset cb (pkt_space p) (<[pkt_num p := id]> (sget cb (pkt_space p)))) q = owner cb q.
Proof.
  intros Hk. unfold owner. rewrite sget_sset. destruct (is_space (pkt_space p) (pkt_space q)) eqn:Es; [|done].
  apply is_space_spec in Es. rewrite lookup_insert_ne, Es; [done|]. intros Hn. apply Hk. unfold pkt_key. by rewrite Hn, Es.
Qed.

Lemma owner_same (cb : spaces (gmap Z Z)) (p : OSSL_ACKM_TX_PKT) (id : Z) :
  owner (sset cb (pkt_space p) (<[pkt_num p := id]> (sget cb (pkt_space p)))) p = Some id.
Proof. unfold owner. by rewrite sget_sset_same, lookup_insert_eq. Qed.

(** *** Changes of the queue and of packets under construction *)

(** A change of the queue that leaves the linked items alone. *)
Lemma queue_inv (c c' : QUIC_CFQ) (t : QUIC_TXPIM) (cb : spaces (gmap Z Z)) (held : list OSSL_ACKM_TX_PKT) (b : list Z) :
  fifd_inv c t cb held b -> cfq_wf c' ->
  (forall id x, allocated t id -> on_pkt c t id x -> cfq_items c' !! x = cfq_items c !! x) ->
  (forall x, x ∈ tx_list c' -> x ∈ tx_list c) -> fifd_inv c' t cb held b.
Proof.
  intros I W' Heq Htx. pose proof I as [I1 I2 I3 I4 I5 I6 I7 I8].
  assert (forall id tp l, allocated t id -> tpim_pkts t !! id = Some tp -> is_chain (cfq_items c) (tp_retx_head tp) l ->
    is_chain (cfq_items c') (tp_retx_head tp) l) as Hch.
  { intros id tp l Ha Ht Hc. eapply is_chain_ext; [|exact Hc]. intros x Hx. rewrite (Heq id x Ha); [done|]. exists tp, l. done. }
  assert (forall id x, allocated t id -> on_pkt c' t id x -> on_pkt c t id x) as Hon.
  { intros id x Ha (tp & l & Ht & Hc & Hx). destruct (I6 id tp Ha Ht) as (l0 & Hc0 & _). exists tp, l0. split_and!; try done.
    by rewrite (is_chain_inj _ _ _ _ (Hch id tp l0 Ha Ht Hc0) Hc). }
  split; try done.
  - intros id tp Ha Ht. destruct (I6 id tp Ha Ht) as (l & C1 & C2 & C3). exists l. split_and!; [by eapply Hch|done|].
    intros x Hx. unfold state_of. rewrite (Heq id x Ha); [by apply C3|]. exists tp, l. done.
  - intros id id' x Ha Ha' Hx Hx'. eapply I7; [done|done|by apply Hon|by apply Hon].
  - intros x Hx%Htx. destruct (I8 x Hx) as (id & Hid & tp & l & Ht & Hc & Hl). exists id. split; [done|]. exists tp, l.
    split_and!; try done. eapply Hch; [apply I5, elem_of_app; by left|done|done].
Qed.

Lemma building_not_held (c : QUIC_CFQ) (t : QUIC_TXPIM) (cb : spaces (gmap Z Z)) (held : list OSSL_ACKM_TX_PKT) (b : list Z) (id : Z) :
  fifd_inv c t cb held b -> id ∈ b -> (id ∉ ids cb held) /\ allocated t id.
Proof.
  intros I Hb. pose proof (fi_ids _ _ _ _ _ I) as Hnd. apply NoDup_app in Hnd as (_ & Hd & _).
  split; [intros Hid; by eapply Hd|]. apply (fi_alloc _ _ _ _ _ I), elem_of_app. by right.
Qed.

(** A packet under construction changes, its items stay. *)
Lemma building_inv (c : QUIC_CFQ) (t : QUIC_TXPIM) (cb : spaces (gmap Z Z)) (held : list OSSL_ACKM_TX_PKT) (b : list Z) (id : Z)
  (f : QUIC_TXPIM_PKT -> QUIC_TXPIM_PKT) : fifd_inv c t cb held b -> id ∈ b ->
  (forall tp, tpim_pkts t !! id = Some tp -> (chunks_ok tp -> chunks_ok (f tp)) /\ tp_retx_head (f tp) = tp_retx_head tp) ->
  fifd_inv c (tpim_upd t id f) cb held b.
Proof.
  intros I Hb Hf. destruct (building_not_held _ _ _ _ _ _ I Hb) as [Hnh Hal]. pose proof I as [I1 I2 I3 I4 I5 I6 I7 I8].
  destruct (tpim_upd_wf t id f) as [W' Ha']; [intros tp Ht; by apply Hf|done|].
  assert (forall a tp', tpim_pkts (tpim_upd t id f) !! a = Some tp' -> exists tp, tpim_pkts t !! a = Some tp /\
    tp_retx_head tp' = tp_retx_head tp /\ (a <> id -> tp' = tp)) as Hpk.
  { intros a tp'. cbn. destruct (decide (id = a)) as [<-|Hne].
    - rewrite lookup_alter_eq. destruct (tpim_pkts t !! id) as [tp|] eqn:Ht; [|done]. intros [= <-]. exists tp. split_and!; [done|by apply Hf|done].
    - rewrite lookup_alter_ne by done. intros Ht. by exists tp'. }
  assert (forall a x, on_pkt c (tpim_upd t id f) a x <-> on_pkt c t a x) as Hon.
  { intros a x. split.
    - intros (tp' & l & (tp & Ht & Hh & _)%Hpk & Hc & Hx). rewrite Hh in Hc. by exists tp, l.
    - intros (tp & l & Ht & Hc & Hx). destruct (tpim_pkts (tpim_upd t id f) !! a) as [tp'|] eqn:Et.
      + destruct (Hpk a tp' Et) as (tp1 & Ht1 & Hh & _). rewrite Ht in Ht1. injection Ht1 as <-. exists tp', l. by rewrite Hh.
      + cbn in Et. apply eq_None_not_Some in Et. destruct Et. apply is_Some_alter. eauto. }
  split; try done.
  - intros p Hp. destruct (I3 p Hp) as (id1 & tp & Ho & Ht & He). exists id1, tp. split_and!; try done.
    cbn. rewrite lookup_alter_ne; [done|]. intros <-. by eapply Hnh, owner_in_ids.
  - intros a. by rewrite Ha', I5.
  - intros a tp' Ha%Ha' (tp & Ht & Hh & _)%Hpk. rewrite Hh. by apply I6.
  - intros a a' x ?%Ha' ?%Ha' ?%Hon ?%Hon. by eapply I7.
  - intros x Hx. destruct (I8 x Hx) as (a & Hid & Hp). exists a. by rewrite Hon.
Qed.

Lemma alloc_inv (c : QUIC_CFQ) (t t' : QUIC_TXPIM) (cb : spaces (gmap Z Z)) (held : list OSSL_ACKM_TX_PKT) (b : list Z) (id : Z) (tp : QUIC_TXPIM_PKT) :
  fifd_inv c t cb held b -> txpim_wf t' -> ~ allocated t id -> (forall a, allocated t' a <-> a = id \/ allocated t a) ->
  (forall a, a <> id -> tpim_pkts t' !! a = tpim_pkts t !! a) -> tpim_pkts t' !! id = Some (txpim_clear tp) ->
  fifd_inv c t' cb held (id :: b).
Proof.
  intros I W' Hna Hal Hot Hid. pose proof I as [I1 I2 I3 I4 I5 I6 I7 I8]. rewrite I5, not_elem_of_app in Hna. destruct Hna as [Hn1 Hn2].
  assert (forall a x, on_pkt c t' a x -> a <> id /\ on_pkt c t a x) as Hon.
  { intros a x (tp1 & l & Ht & Hc & Hx). destruct (decide (a = id)) as [->|Hne].
    - rewrite Hid in Ht. injection Ht as <-. destruct l; [by apply elem_of_nil in Hx|by destruct Hc].
    - rewrite Hot in Ht by done. split; [done|]. by exists tp1, l. }
  split; try done.
  - intros p Hp. destruct (I3 p Hp) as (id1 & tp1 & Ho & Ht & He). exists id1, tp1. rewrite Hot; [done|]. intros ->. by eapply Hn1, owner_in_ids.
  - apply NoDup_app in I4 as (N1 & N2 & N3). apply NoDup_app. split_and!; [done| |by constructor].
    intros a Ha [->|Hb]%elem_of_cons; [done|by eapply N2].
  - intros a. rewrite Hal, I5, !elem_of_app, elem_of_cons. tauto.
  - intros a tp1 Ha Ht. destruct (decide (a = id)) as [->|Hne].
    + rewrite Hid in Ht. injection Ht as <-. exists []. split_and!; [done|constructor|intros x Hx; by apply elem_of_nil in Hx].
    + apply Hal in Ha as [|Ha]; [done|]. rewrite Hot in Ht by done. destruct (I6 a tp1 Ha Ht) as (l & C1 & C2 & C3). exists l. split_and!; try done.
      intros x Hx. rewrite (C3 x Hx). destruct (decide (a ∈ b)), (decide (a ∈ id :: b)); try done; set_solver.
  - intros a a' x [->|Ha]%Hal [->|Ha']%Hal [Hx1 Hx2]%Hon [Hx1' Hx2']%Hon; try done. by eapply I7.
  - intros x Hx. destruct (I8 x Hx) as (a & Hia & tp1 & l & Ht & Hc & Hl). exists a. split; [done|]. exists tp1, l. rewrite Hot; [done|]. by intros ->.
Qed.

Lemma release_inv (c : QUIC_CFQ) (t t' : QUIC_TXPIM) (cb : spaces (gmap Z Z)) (held : list OSSL_ACKM_TX_PKT) (b : list Z) (id : Z) :
  fifd_inv c t cb held b -> id ∈ b -> txpim_wf t' -> tpim_pkts t' = tpim_pkts t -> (forall a, allocated t' a <-> allocated t a /\ a <> id) ->
  fifd_inv c t' cb held (filter (fun x => x <> id) b).
Proof.
  intros I Hb W' Hp Hal. destruct (building_not_held _ _ _ _ _ _ I Hb) as [Hnh _]. destruct I as [I1 I2 I3 I4 I5 I6 I7 I8].
  assert (forall a x, on_pkt c t' a x <-> on_pkt c t a x) as Hon by (intros; unfold on_pkt; by rewrite Hp).
  split; try done.
  - intros p Hh. rewrite Hp. by apply I3.
  - apply NoDup_app in I4 as (N1 & N2 & N3). apply NoDup_app. split_and!; [done| |by apply filter_ne_nodup].
    intros a Ha [Ha' _]%elem_of_filter_ne. by eapply N2.
  - intros a. rewrite Hal, I5, !elem_of_app, elem_of_filter_ne. destruct (decide (a = id)) as [->|]; tauto.
  - intros a tp [Ha Hne]%Hal Ht. rewrite Hp in Ht. destruct (I6 a tp Ha Ht) as (l & C1 & C2 & C3). exists l. split_and!; try done.
    intros x Hx. rewrite (C3 x Hx). destruct (decide (a ∈ b)) as [Hd|Hd], (decide (a ∈ filter _ b)) as [Hf|Hf]; try done.
    + destruct Hf. by apply elem_of_filter_ne.
    + by apply elem_of_filter_ne in Hf as [? _].
  - intros a a' x [Ha _]%Hal [Ha' _]%Hal ?%Hon ?%Hon. by eapply I7.
  - intros x Hx. destruct (I8 x Hx) as (a & ? & ?). exists a. by rewrite Hon.
Qed.

(** Setting the links of an item keeps the queue well-formed. *)
Lemma relink_wf (c : QUIC_CFQ) (item : Z) (nx : option Z) : cfq_wf c ->
  cfq_wf (cfq_upd c item (fun i => i <| pkt_next := nx |> <| pkt_prev := None |>)).
Proof.
  intros W. set (c' := cfq_upd c item _). assert (forall a, state_of c' a = state_of c a) as Hst.
  { intros a. unfold state_of, c'. cbn -[alter]. destruct (decide (item = a)) as [<-|]; [|by rewrite lookup_alter_ne]. rewrite lookup_alter_eq. by destruct (cfq_items c !! item). }
  split; try (intros a; rewrite ?Hst; apply W).
  - split_and!; apply W.
  - intros a i. cbn -[alter]. destruct (decide (item = a)) as [<-|]; [|rewrite lookup_alter_ne by done; apply W].
    rewrite lookup_alter_eq. destruct (cfq_items c !! item) as [j|] eqn:Ej; [|done]. intros [= <-]. cbn. by eapply W.
  - cbn -[alter]. apply in_order_upd; [by right|apply W].
Qed.

(** A waiting item that no packet has is given to a packet under construction. *)
Lemma add_item_inv (c : QUIC_CFQ) (t : QUIC_TXPIM) (cb : spaces (gmap Z Z)) (held : list OSSL_ACKM_TX_PKT) (b : list Z) (id item : Z)
  (tp : QUIC_TXPIM_PKT) : fifd_inv c t cb held b -> id ∈ b -> tpim_pkts t !! id = Some tp -> item ∈ new_list c ->
  (forall a, allocated t a -> ~ on_pkt c t a item) ->
  let '(tp', c') := ossl_quic_txpim_pkt_add_cfq_item tp c item in fifd_inv c' (tpim_upd t id (fun _ => tp')) cb held b.
Proof.
  intros I Hb Ht Hn Hun. destruct (building_not_held _ _ _ _ _ _ I Hb) as [Hnh Hal]. unfold ossl_quic_txpim_pkt_add_cfq_item.
  set (c' := cfq_upd c item _). set (tp' := tp <| tp_retx_head := Some item |>). pose proof I as [I1 I2 I3 I4 I5 I6 I7 I8].
  destruct (I6 id tp Hal Ht) as (l0 & C1 & C2 & C3).
  assert (forall a x, allocated t a -> on_pkt c t a x -> x <> item) as Hni by (intros a x Ha Hx ->; by eapply Hun).
  assert (forall a tp l, allocated t a -> tpim_pkts t !! a = Some tp -> is_chain (cfq_items c) (tp_retx_head tp) l -> is_chain (cfq_items c') (tp_retx_head tp) l) as Hch.
  { intros a tpa l Ha Hta Hc. eapply is_chain_ext; [|exact Hc]. intros x Hx. cbn -[alter]. rewrite lookup_alter_ne; [done|].
    intros <-. eapply Hun; [exact Ha|]. exists tpa, l. done. }
  assert (state_of c item = Some QUIC_CFQ_STATE_NEW) as Hnew by (by apply (wf_new c I1)).
  assert (forall a, state_of c' a = state_of c a) as Hst.
  { intros a. unfold state_of, c'. cbn -[alter]. destruct (decide (item = a)) as [<-|]; [|by rewrite lookup_alter_ne]. rewrite lookup_alter_eq. by destruct (cfq_items c !! item). }
  assert (is_chain (cfq_items c') (tp_retx_head tp') (item :: l0)) as Hnc.
  { split; [done|]. destruct (state_of_inv c item _ Hnew) as (i & Hi & _). cbn -[alter]. rewrite lookup_alter_eq, Hi. eexists. split; [done|]. cbn -[alter]. by eapply Hch. }
  destruct (tpim_upd_wf t id (fun _ => tp')) as [W' Ha']; [|done|].
  { intros q Hq [K1 K2 K3]. rewrite Ht in Hq. injection Hq as <-. by split. }
  assert (forall a x, allocated t a -> on_pkt c' (tpim_upd t id (fun _ => tp')) a x -> (a = id /\ (x = item \/ x ∈ l0)) \/ (a <> id /\ on_pkt c t a x)) as Hon.
  { intros a x Ha (tpa & l & Hta & Hc & Hx). cbn -[alter] in Hta. destruct (decide (id = a)) as [<-|Hne].
    - left. split; [done|]. rewrite lookup_alter_eq, Ht in Hta. injection Hta as <-. rewrite (is_chain_inj _ _ _ _ Hc Hnc) in Hx. by apply elem_of_cons.
    - right. split; [done|]. rewrite lookup_alter_ne in Hta by done. destruct (I6 a tpa Ha Hta) as (l1 & D1 & _). exists tpa, l1. split_and!; try done.
      by rewrite (is_chain_inj _ _ _ _ (Hch a tpa l1 Ha Hta D1) Hc). }
  split; try done.
  - by apply relink_wf.
  - intros p Hp. destruct (I3 p Hp) as (id1 & tp1 & Ho & Ht1 & He). exists id1, tp1. cbn. rewrite lookup_alter_ne; [done|]. intros <-. by eapply Hnh, owner_in_ids.
  - intros a. by rewrite Ha', I5.
  - intros a tpa Ha%Ha' Hta. cbn -[alter] in Hta. destruct (decide (id = a)) as [<-|Hne].
    + rewrite lookup_alter_eq, Ht in Hta. injection Hta as <-. exists (item :: l0). split_and!; [done| |].
      * constructor; [|done]. intros Hx. eapply Hun; [exact Hal|]. exists tp, l0. done.
      * intros x [->|Hx]%elem_of_cons; rewrite Hst; [by rewrite decide_True|by apply C3].
    + rewrite lookup_alter_ne in Hta by done. destruct (I6 a tpa Ha Hta) as (l1 & D1 & D2 & D3). exists l1. split_and!; [by eapply Hch|done|].
      intros x Hx. rewrite Hst. by apply D3.
  - assert (forall x, x ∈ l0 -> on_pkt c t id x) as Hl0 by (intros; by exists tp, l0).
    intros a a' x Ha%Ha' Ha2%Ha' [[-> Hx]|[Hne Hx]]%Hon [[-> Hx']|[Hne' Hx']]%Hon; try done.
    + destruct Hx as [->|Hx]; [by destruct (Hun a' Ha2)|]. eapply I7; [exact Ha|exact Ha2|by apply Hl0|done].
    + destruct Hx' as [->|Hx']; [by destruct (Hun a Ha)|]. eapply I7; [exact Ha|exact Ha2|done|by apply Hl0].
    + by eapply I7.
  - intros x Hx. destruct (I8 x Hx) as (a & Hia & tpa & l & Hta & Hc & Hl). exists a. split; [done|]. exists tpa, l.
    assert (a <> id) by (by intros ->). split_and!; [cbn; by rewrite lookup_alter_ne| |done]. eapply Hch; [apply I5, elem_of_app; by left|done|done].
Qed.

(** *** Commit *)

Lemma ids_ext (cb cb' : spaces (gmap Z Z)) (held : list OSSL_ACKM_TX_PKT) : (forall p, p ∈ held -> owner cb' p = owner cb p) -> ids cb' held = ids cb held.
Proof.
  unfold ids. induction held as [|p held IH]; intros Hext; [done|]. cbn. rewrite (Hext p) by (left). rewrite IH; [done|]. intros. apply Hext. by right.
Qed.

(** The items of a packet go in flight with it. *)
Lemma commit_inv (c c' : QUIC_CFQ) (t : QUIC_TXPIM) (cb : spaces (gmap Z Z)) (held : list OSSL_ACKM_TX_PKT) (b : list Z) (id : Z)
  (tp : QUIC_TXPIM_PKT) (l : list Z) : fifd_inv c t cb held b -> id ∈ b -> tpim_pkts t !! id = Some tp ->
  is_chain (cfq_items c) (tp_retx_head tp) l -> all_moved c c' l (fun _ => QUIC_CFQ_STATE_TX) ->
  let p := tp_ackm_pkt tp in (forall q, q ∈ held -> pkt_key q <> pkt_key p) ->
  fifd_inv c' t (sset cb (pkt_space p) (<[pkt_num p := id]> (sget cb (pkt_space p)))) (p :: held) (filter (fun x => x <> id) b).
Proof.
  intros I Hb Ht Hl [A1 A2 A3 A4 A5] p Hk. destruct (building_not_held _ _ _ _ _ _ I Hb) as [Hnh Hal]. destruct I as [I1 I2 I3 I4 I5 I6 I7 I8].
  set (cb' := sset cb (pkt_space p) _). assert (ids cb' (p :: held) = id :: ids cb held) as Hids.
  { unfold ids. cbn. unfold cb'. rewrite owner_same. f_equal. apply ids_ext. intros q Hq. by apply owner_other, Hk. }
  assert (forall a x, on_pkt c' t a x <-> on_pkt c t a x) as Hon.
  { intros a x. split; apply on_pkt_links; try done. by apply same_links_sym. }
  split; try done.
  - intros q [->|Hq]%elem_of_cons; [exists id, tp; split_and!; [apply owner_same|done|done]|].
    destruct (I3 q Hq) as (id1 & tp1 & Ho & Ht1 & He). exists id1, tp1. split_and!; [|done|done]. rewrite <- Ho. by apply owner_other, Hk.
  - rewrite Hids. apply NoDup_app in I4 as (N1 & N2 & N3). cbn [app]. constructor.
    + rewrite elem_of_app, elem_of_filter_ne. tauto.
    + apply NoDup_app. split_and!; [done| |by apply filter_ne_nodup]. intros a Ha [Ha' _]%elem_of_filter_ne. by eapply N2.
  - intros a. rewrite Hids, I5. cbn [app]. rewrite elem_of_cons, !elem_of_app, elem_of_filter_ne. destruct (decide (a = id)) as [->|]; tauto.
  - intros a tp1 Ha Ht1. destruct (I6 a tp1 Ha Ht1) as (l1 & C1 & C2 & C3). exists l1. split_and!; [by eapply is_chain_links|done|].
    intros x Hx. destruct (decide (a = id)) as [->|Hne].
    + rewrite Ht in Ht1. injection Ht1 as <-. rewrite (is_chain_inj _ _ _ _ C1 Hl) in Hx. rewrite decide_False by (rewrite elem_of_filter_ne; tauto).
      destruct (chain_present _ _ _ _ Hl Hx) as [i Hi]. by apply (A3 x i).
    + assert (state_of c' x = state_of c x) as ->.
      { unfold state_of. rewrite A2; [done|]. intros Hx'. apply Hne. eapply (I7 a id x); [done|done|exists tp1, l1; done|exists tp, l; done]. }
      rewrite (C3 x Hx). destruct (decide (a ∈ b)) as [Hd|Hd], (decide (a ∈ filter _ b)) as [Hf|Hf]; rewrite elem_of_filter_ne in Hf; try done; tauto.
  - intros a a' x ? ? ?%Hon ?%Hon. by eapply I7.
  - intros x Hx. apply (wf_tx c' A1) in Hx. rewrite Hids. destruct (decide (x ∈ l)) as [Hin|Hin].
    + exists id. split; [by left|]. apply Hon. exists tp, l. done.
    + unfold state_of in Hx. rewrite A2 in Hx by done. apply (wf_tx c I1) in Hx. destruct (I8 x Hx) as (a & Ha & Hp). exists a.
      split; [by right|]. by apply Hon.
Qed.

Lemma filter_ne_zlen (l : list Z) (n : Z) : NoDup l -> n ∈ l -> zlen (filter (fun x => x <> n) l) = zlen l - 1.
Proof. intros Hnd Hin. unfold zlen. pose proof (Permutation_length (filter_ne_perm l n Hnd Hin)) as Hp. cbn [length] in Hp. lia. Qed.

Lemma zlen_perm {A} (l l' : list A) : l ≡ₚ l' -> zlen l = zlen l'.
Proof. intros Hp. unfold zlen. by rewrite Hp. Qed.

Lemma commit_step (w w' : QUIC_FIFD D E) (b : list Z) (leaked : Z) (alloc : nat -> bool) (id : Z) : st_inv (mkSt w b leaked) -> id ∈ b ->
  (forall tp, tpim_pkts (ff_txpim w) !! id = Some tp -> op_ok (ff_ackm w, leaked, []) (OpTx (tp_ackm_pkt tp))) ->
  ossl_quic_fifd_pkt_commit now alloc w id = Some (w', true) -> st_inv (mkSt w' (filter (fun x => x <> id) b) leaked).
Proof.
  intros [I T Hq Hu] Hb Hok Hc. cbn [st_w st_building st_leaked] in *. unfold winv in I. unfold ossl_quic_fifd_pkt_commit in Hc.
  destruct (building_not_held _ _ _ _ _ _ I Hb) as [_ [[tp Ht] Hnf]]. assert (allocated (ff_txpim w) id) as Hal by (split; eauto). specialize (Hok tp Ht).
  destruct (fi_chain _ _ _ _ _ I id tp Hal Ht) as (l & C1 & C2 & C3).
  rewrite Ht in Hc. cbn [mbind option_bind] in Hc. pose proof (fi_cfq _ _ _ _ _ I) as W.
  destruct (mark_tx_loop_spec l (size (cfq_items (ff_cfq w))) (ff_cfq w) _ (chain_length _ _ _ C1 C2) W C1 C2) as (c' & Hmt & Hm).
  { intros x Hx. left. apply (wf_new _ W). by rewrite (C3 x Hx), decide_True. }
  rewrite Hmt in Hc. cbn [mbind option_bind] in Hc. pose proof (sorted_pkt tp) as Hs.
  destruct (ossl_quic_txpim_pkt_get_chunks tp) as [pkt chunks]. destruct Hs as (Hck & Hh & Hap).
  destruct (transmitted_loop pkt alloc 0 chunks _) as [[e ok]|]; [|done]. cbn [mbind option_bind] in Hc. destruct ok; [|done]. cbn [negb] in Hc.
  cbn [ff_ackm field_upd] in Hc. rewrite Hap in Hc. destruct (ossl_ackm_on_tx_packet now (ff_ackm w) (tp_ackm_pkt tp)) as [a ok] eqn:Etx.
  injection Hc as <- ->. set (p := tp_ackm_pkt tp) in *.
  assert (tx_inv a leaked (p :: outstanding (ff_ackm w)) []) as T'.
  { pose proof (ackm_step_inv now _ _ (ackm_step_op now (ff_ackm w, leaked, outstanding (ff_ackm w)) (OpTx p) Hok) T) as T'.
    cbn [ackm_do fst snd] in T'. rewrite Etx in T'. exact T'. }
  pose proof (on_tx_reported _ _ _ _ Etx) as Hrep. rewrite Hq in Hrep. pose proof (inv_sent _ _ _ _ T') as Hp. rewrite Hrep, !app_nil_r in Hp.
  assert (forall q, q ∈ outstanding (ff_ackm w) -> pkt_key q <> pkt_key p) as Hkey.
  { pose proof (outstanding_keys _ _ _ T') as Hnd. rewrite <- Hp in Hnd. cbn in Hnd. apply NoDup_cons in Hnd as [Hni _].
    intros q Hin He. apply Hni. rewrite <- He. by apply list_elem_of_fmap_2. }
  pose proof (building_inv _ _ _ _ _ id (fun _ => pkt) I Hb) as I1. specialize (I1 ltac:(intros q Hq1; rewrite Ht in Hq1; injection Hq1 as <-; done)).
  pose proof (commit_inv _ c' _ _ _ _ id pkt l I1 Hb) as I2. rewrite Hh, Hap in I2. fold p in I2. cbn zeta in I2.
  split; cbn [st_w st_building st_leaked ff_ackm ff_cfq ff_txpim ff_cb_arg field_upd]; [|by eapply drained_inv'|done|].
  - eapply fifd_inv_perm; [exact Hp|]. apply I2; [cbn; by rewrite lookup_alter_eq, Ht|done|done|done].
  - cbn [tpim_upd tpim_in_use field_upd]. rewrite Hu, <- (zlen_perm _ _ Hp), (filter_ne_zlen b id); [unfold zlen; cbn; lia| |done].
    pose proof (fi_ids _ _ _ _ _ I) as Hnd. by apply NoDup_app in Hnd as (_ & _ & ?).
Qed.

(** *** Calls of the manager *)

Lemma ackm_do_ghost (a : OSSL_ACKM D) (leaked leaked' : Z) (sent sent' : list OSSL_ACKM_TX_PKT) (op : ackm_op) : is_tx_op op = false ->
  fst (fst (ackm_do now (a, leaked, sent) op)) = fst (fst (ackm_do now (a, leaked', sent') op)) /\
  snd (fst (ackm_do now (a, leaked, sent) op)) = snd (fst (ackm_do now (a, leaked, sent') op)) /\
  snd (ackm_do now (a, leaked, sent) op) = sent.
Proof. by destruct op. Qed.

Lemma ackm_op_step (w : QUIC_FIFD D E) (b : list Z) (leaked leaked' : Z) (alloc : nat -> nat -> bool) (op : ackm_op) (w' : QUIC_FIFD D E) :
  st_inv (mkSt w b leaked) -> is_tx_op op = false -> op_ok (ff_ackm w, leaked, []) op ->
  snd (fst (ackm_do now (ff_ackm w, leaked, []) op)) = leaked' -> fifd_ackm now alloc w op = Some w' -> st_inv (mkSt w' b leaked').
Proof.
  intros [I T Hq Hu] Htx Hok Hlk Hd. cbn [st_w st_building st_leaked] in *.
  pose proof (ackm_step_inv now _ _ (ackm_step_op now (ff_ackm w, leaked, outstanding (ff_ackm w)) op Hok) T) as T'.
  destruct (ackm_do_ghost (ff_ackm w) leaked 0 (outstanding (ff_ackm w)) [] op Htx) as (Ga & Gl & Gs).
  destruct (ackm_do_ghost (ff_ackm w) leaked leaked (outstanding (ff_ackm w)) [] op Htx) as (_ & Gl' & _).
  rewrite Gs, Gl', Hlk in T'. unfold fifd_ackm in Hd. rewrite Ga in T'. clear Ga Gl Gl' Gs Hlk.
  destruct (ackm_do now (ff_ackm w, 0, []) op) as [[a x] y]. cbn [fst snd] in T'. pose proof (inv_sent _ _ _ _ T') as Hp. rewrite app_nil_r in Hp.
  set (w1 := w <| ff_ackm := a <| a_events := [] |> |>) in *.
  assert (winv w1 (reported (a_events a) ++ outstanding a) b) as I1.
  { unfold winv. subst w1. cbn [ff_cfq ff_txpim ff_cb_arg field_upd]. eapply fifd_inv_perm; [|exact I]. by rewrite Hp, (comm app). }
  destruct (dispatch_inv alloc _ _ _ _ _ _ I1 Hd) as (I2 & Ha & _ & Hu2). assert (ff_ackm w1 = a <| a_events := [] |>) as Ha1 by done.
  split; cbn [st_w st_building st_leaked]; rewrite ?Ha, ?Ha1.
  - exact I2.
  - exact (drained_inv _ _ _ T').
  - done.
  - rewrite Hu2. change (ff_txpim w1) with (ff_txpim w). rewrite Hu, (zlen_perm _ _ Hp), zlen_app.
    change (outstanding (a <| a_events := [] |>)) with (outstanding a). lia.
Qed.

(** *** Every operation keeps the invariant *)

Lemma on_pkt_live (c : QUIC_CFQ) (t : QUIC_TXPIM) (cb : spaces (gmap Z Z)) (held : list OSSL_ACKM_TX_PKT) (b : list Z) (id x : Z) :
  fifd_inv c t cb held b -> allocated t id -> on_pkt c t id x -> live c x.
Proof.
  intros I Ha (tp & l & Ht & Hc & Hx). destruct (fi_chain _ _ _ _ _ I id tp Ha Ht) as (l' & C1 & _ & C3).
  rewrite (is_chain_inj _ _ _ _ Hc C1) in Hx. specialize (C3 x Hx). pose proof (fi_cfq _ _ _ _ _ I) as W.
  destruct (decide (id ∈ b)); [left; by apply (wf_new c W)|right; by apply (wf_tx c W)].
Qed.

Lemma cfq_add_step (w : QUIC_FIFD D E) (held : list OSSL_ACKM_TX_PKT) (b : list Z) (alloc : option Z) (pr sp ft fl : Z) (enc : option Z)
  (len : Z) (cb : option (Z * Z)) (c' : QUIC_CFQ) (r : option Z) : winv w held b ->
  (forall a, alloc = Some a -> cfq_items (ff_cfq w) !! a = None) ->
  ossl_quic_cfq_add_frame alloc (ff_cfq w) pr sp ft fl enc len cb = Some (c', r) -> fifd_inv c' (ff_txpim w) (ff_cb_arg w) held b.
Proof.
  intros I Ha Hd. pose proof (fi_cfq _ _ _ _ _ I) as W.
  destruct (add_frame_spec alloc (ff_cfq w) pr sp ft fl enc len cb W Ha) as (c2 & r2 & Hd2 & W2 & _ & Hot & Hr).
  rewrite Hd in Hd2. injection Hd2 as <- <-. eapply queue_inv; [exact I|done| |].
  - intros id x Hal Hx. apply Hot. intros ->. destruct Hr as [Hnl _]. by eapply Hnl, on_pkt_live.
  - intros x Hx. destruct (decide (r = Some x)) as [->|Hne].
    + destruct Hr as (_ & _ & p & n & Hi). apply (wf_tx c' W2) in Hx. unfold state_of in Hx. by rewrite Hi in Hx.
    + apply (wf_tx _ W). apply (wf_tx c' W2) in Hx. unfold state_of in *. by rewrite <- Hot.
Qed.

Lemma cfq_release_step (w : QUIC_FIFD D E) (held : list OSSL_ACKM_TX_PKT) (b : list Z) (item : Z) (c' : QUIC_CFQ) : winv w held b ->
  live (ff_cfq w) item -> unlinked w item -> ossl_quic_cfq_release (ff_cfq w) item = Some c' ->
  fifd_inv c' (ff_txpim w) (ff_cb_arg w) held b.
Proof.
  intros I Hl Hun Hd. pose proof (fi_cfq _ _ _ _ _ I) as W.
  destruct (release_spec (ff_cfq w) item W Hl) as (c2 & i & Hd2 & [M1 M2 M3 M4 M5] & _ & _). rewrite Hd in Hd2. injection Hd2 as <-.
  eapply queue_inv; [exact I|done| |].
  - intros id x Hal Hx. apply M2. intros ->. by eapply Hun.
  - intros x Hx. apply (wf_tx _ W). apply (wf_tx c' M1) in Hx. destruct (decide (x = item)) as [->|Hne]; [by rewrite M3 in Hx|].
    unfold state_of in *. by rewrite <- M2.
Qed.

Lemma fifd_do_inv (st st' : fifd_state) (op : fifd_op E) : st_inv st -> fifd_op_ok st op -> fifd_do st op = Some st' -> st_inv st'.
Proof.
  destruct st as [w b leaked]. intros Hi Hok Hd. pose proof Hi as [I T Hq Hu]. cbn [st_w st_building st_leaked] in I, T, Hq, Hu. unfold winv in I.
  destruct op as [alloc|id|id f|id re chunk|id item|alloc id|alloc op|alloc pr sp ft fl enc len cb|item|e]; cbn [fifd_do] in Hd; cbn [fifd_op_ok] in Hok.
  - destruct (pkt_alloc_spec alloc _ (fi_txpim _ _ _ _ _ I) Hok) as (t' & r & Ha & W' & Hr). rewrite Ha in Hd. cbn in Hd. injection Hd as <-.
    destruct r as [id|]; [|destruct Hr as (-> & _ & _); by split].
    destruct Hr as (Hn & Hal & Hc & Hot & p & Hck & Hp). split; cbn; try done; [by eapply alloc_inv|rewrite Hc, Hu; unfold zlen; cbn; lia].
  - destruct (building_not_held _ _ _ _ _ _ I Hok) as [_ Hal].
    destruct (pkt_release_spec _ id (fi_txpim _ _ _ _ _ I) Hal) as (t' & Hr & W' & Hc & Hp & Hal'). rewrite Hr in Hd. injection Hd as <-.
    split; cbn; try done; [eapply release_inv; [exact I|done..]|]. rewrite Hc, Hu, (filter_ne_zlen b id); [lia| |done].
    pose proof (fi_ids _ _ _ _ _ I) as Hnd. by apply NoDup_app in Hnd as (_ & _ & ?).
  - injection Hd as <-. destruct Hok as [Hb Hf]. split; try done. apply building_inv; [done|done|]. intros tp Ht.
    destruct (Hf tp) as (F1 & F2 & F3 & F4). split; [|done]. intros [K1 K2 K3]. by split; rewrite ?F2, ?F3, ?F4.
  - injection Hd as <-. split; try done. apply building_inv; [done|done|]. intros tp Ht. split.
    + intros Hck. pose proof (append_chunk_spec re tp chunk Hck) as Hs. destruct (ossl_quic_txpim_pkt_append_chunk re tp chunk). apply Hs.
    + unfold ossl_quic_txpim_pkt_append_chunk. by repeat case_match.
  - destruct (tpim_pkts (ff_txpim w) !! id) as [tp|] eqn:Et; [|done]. cbn [mbind option_bind] in Hd. destruct Hok as (Hb & Hn & Hun).
    pose proof (add_item_inv _ _ _ _ _ id item tp I Hb Et Hn Hun) as Ha. destruct (ossl_quic_txpim_pkt_add_cfq_item tp (ff_cfq w) item) as [tp' c'].
    injection Hd as <-. by split.
  - destruct Hok as [Hb Hok]. destruct (ossl_quic_fifd_pkt_commit now alloc w id) as [[w' ok]|] eqn:Ec; [|done]. cbn in Hd. destruct ok; [|done].
    injection Hd as <-. by eapply commit_step.
  - destruct Hok as [Htx Hok]. destruct (ackm_do now (ff_ackm w, leaked, []) op) as [[a lk] y] eqn:Ea. destruct (fifd_ackm now alloc w op) as [w'|] eqn:Ef; [|done].
    cbn in Hd. injection Hd as <-. eapply ackm_op_step; [done|done|done|by rewrite Ea|done].
  - destruct (ossl_quic_cfq_add_frame alloc (ff_cfq w) pr sp ft fl enc len cb) as [[c' r]|] eqn:Ea; [|done]. injection Hd as <-.
    split; try done. exact (cfq_add_step w _ b alloc pr sp ft fl enc len cb c' r I Hok Ea).
  - destruct Hok as [Hl Hun]. destruct (ossl_quic_cfq_release (ff_cfq w) item) as [c'|] eqn:Er; [|done]. injection Hd as <-.
    split; try done. exact (cfq_release_step w _ b item c' I Hl Hun Er).
  - injection Hd as <-. by split.
Qed.

Lemma fifd_reach_inv (statm : OSSL_STATM) (cc : D) (is_server : bool) (e : E) (st : fifd_state) : cc_in_flight cc = 0 ->
  fifd_reach statm cc is_server e st -> st_inv st.
Proof.
  intros Hc. induction 1 as [|st op st' _ IH Hok Hd]; [|by eapply fifd_do_inv].
  pose proof (new_inv statm cc is_server Hc) as T. assert (outstanding (ossl_ackm_new statm cc is_server) = []) as Ho by done.
  unfold fifd_new. split; cbn [st_w st_building st_leaked ff_ackm ff_txpim]; rewrite ?Ho; try done.
  split; cbn.
  - apply cfq_new_wf.
  - apply txpim_new_wf.
  - intros p Hp. by apply elem_of_nil in Hp.
  - constructor.
  - intros id. unfold allocated. cbn. rewrite lookup_empty, elem_of_nil. split; [by intros [[? [=]] _]|done].
  - intros id tp _. by rewrite lookup_empty.
  - intros id id' x [[? [=]] _].
  - intros x Hx. by apply elem_of_nil in Hx.
Qed.
End History.

(** ** Properties *)

Section Props.
Context {D E : Type} `{CC_ACCOUNTING D} `{FIFD_CALLBACKS E} `{QSort}.
Context (now : nat -> OSSL_TIME).


(** C38.  The fate of the frames of a packet.  Whatever the ACK manager reports
    while it works on an ACK frame, a timeout or a discarded space: the control
    frames of a packet reported as acknowledged or discarded are released, those
    of a lost packet wait for transmission again, or are released when they are
    unreliable; every other frame is left exactly as it was.  The record of each packet
    reported goes back to the free list of the pool, which counts as many records less, and no
    other packet's record is touched.  The dispatcher
    itself never fails here: it stops only where a callback to the streams does. *)
Theorem fifd_fate_of_frames (statm : OSSL_STATM) (cc : D) (is_server : bool) (e : E) (st : fifd_state) (alloc : nat -> nat -> bool)
  (op : ackm_op) : cc_in_flight cc = 0 -> fifd_reach now statm cc is_server e st -> fifd_op_ok st (FoAckm alloc op) ->
  let w := st_w st in
  let evs := a_events (fst (fst (ackm_do now (ff_ackm w, st_leaked st, []) op))) in
  (forall w', fifd_ackm now alloc w op = Some w' ->
     (forall ev p id x, ev ∈ evs -> ev_pkt ev = Some p -> owner (ff_cb_arg w) p = Some id -> on_pkt (ff_cfq w) (ff_txpim w) id x ->
        exists i, cfq_items (ff_cfq w) !! x = Some i /\
          state_of (ff_cfq w') x = Some (match ev with EvLost _ => if ossl_quic_cfq_item_is_unreliable i then -1 else QUIC_CFQ_STATE_NEW | _ => -1 end)) /\
     (forall x, (forall ev p id, ev ∈ evs -> ev_pkt ev = Some p -> owner (ff_cb_arg w) p = Some id -> ~ on_pkt (ff_cfq w) (ff_txpim w) id x) ->
        cfq_items (ff_cfq w') !! x = cfq_items (ff_cfq w) !! x) /\
     (forall p, p ∈ omap ev_pkt evs -> exists id, owner (ff_cb_arg w) p = Some id /\ id ∈ tpim_free (ff_txpim w')) /\
     (forall a, (forall p, p ∈ omap ev_pkt evs -> owner (ff_cb_arg w) p <> Some a) ->
        tpim_pkts (ff_txpim w') !! a = tpim_pkts (ff_txpim w) !! a /\ (allocated (ff_txpim w') a <-> allocated (ff_txpim w) a)) /\
     tpim_in_use (ff_txpim w') = tpim_in_use (ff_txpim w) - zlen (omap ev_pkt evs)) /\
  ((forall al tp e, is_Some (run_acked al tp e) /\ is_Some (run_lost al tp e)) -> is_Some (fifd_ackm now alloc w op)).
Proof.
  intros Hc Hr Hok w evs. pose proof (fifd_reach_inv now _ _ _ _ _ Hc Hr) as Hi. destruct st as [w0 b leaked]. destruct Hok as [Htx Hok].
  cbn [st_w st_leaked] in *. subst w. destruct Hi as [I T Hq _]. cbn [st_w st_building st_leaked] in I, T, Hq.
  destruct (ackm_do_ghost now (ff_ackm w0) leaked leaked (outstanding (ff_ackm w0)) [] op Htx) as (Ga & Gl & Gs).
  pose proof (ackm_step_inv now _ _ (ackm_step_op now (ff_ackm w0, leaked, outstanding (ff_ackm w0)) op Hok) T) as T'.
  rewrite Gs in T'. apply inv_sent in T'. rewrite app_nil_r, Ga in T'. fold evs in T'.
  destruct (ackm_do_ghost now (ff_ackm w0) leaked 0 [] [] op Htx) as (Ga0 & _). unfold fifd_ackm. unfold evs in T' |- *. rewrite Ga0 in T' |- *.
  clear evs Ga Ga0 Gl Gs. destruct (ackm_do now (ff_ackm w0, 0, []) op) as [[a x] y]. cbn [fst snd] in T' |- *.
  set (w1 := w0 <| ff_ackm := a <| a_events := [] |> |>).
  assert (winv w1 (reported (a_events a) ++ outstanding a) b) as I1.
  { unfold winv. subst w1. cbn [ff_cfq ff_txpim ff_cb_arg field_upd]. eapply fifd_inv_perm; [|exact I]. by rewrite T', (comm app). }
  split; [|intros Hrun; by eapply dispatch_runs].
  intros w' Hd. destruct (dispatch_fate alloc _ _ _ _ _ _ I1 Hd) as (Hf & Hot & Hfree & Hrec). destruct (dispatch_inv alloc _ _ _ _ _ _ I1 Hd) as (_ & _ & _ & Hu).
  split_and!; [exact Hf| |exact Hfree|exact Hrec|exact Hu].
  intros z Hz. apply Hot. intros p id (ev & Hev & Hp)%list_elem_of_omap. by eapply Hz.
Qed.
End Props.
