(* ===== verification/Txp.v ===== *)
(** * The transmit packetiser: its state, its inputs and what it decides
    (ssl/quic/quic_txp.c, include/internal/quic_txp.h)

    The packetiser owns the frame-in-flight dispatcher, whose callbacks it is: the
    state [OSSL_QUIC_TX_PACKETISER] is the dispatcher [QUIC_FIFD D TXP] over the
    members [TXP] the callbacks act on.  The streams' and the connection's
    transmit controllers, the two MAX_STREAMS controllers (in the stream map), the
    crypto streams and the record layer are the objects the channel shares with
    it.  An array indexed by encryption level is a function of the level.  Logging,
    the message callback and the callback on transmitted ACK frames are left out. *)

From S2P Require Import Prelude UintSet OsslTime FlowControl Congestion CcMethod Packet Wire WirePkt Qrl Qtx Ackm.
From S2P Require Import AckmTx AckmInv RingBuf Sstream SfList Rstream StreamMap Cfq Txpim Fifd.

Definition MIN_CRYPTO_HDR_SIZE : Z := 3.
Definition MIN_FRAME_SIZE_HANDSHAKE_DONE : Z := 1.
Definition MIN_FRAME_SIZE_MAX_DATA : Z := 2.
Definition MIN_FRAME_SIZE_ACK : Z := 5.
Definition MIN_FRAME_SIZE_CRYPTO : Z := MIN_CRYPTO_HDR_SIZE + 1.
Definition MIN_FRAME_SIZE_STREAM : Z := 3.
Definition MIN_FRAME_SIZE_MAX_STREAMS_BIDI : Z := 2.
Definition MIN_FRAME_SIZE_MAX_STREAMS_UNI : Z := 2.

Definition OSSL_QUIC_ERR_APPLICATION_ERROR : Z := 12.
Definition ossl_quic_pn_valid (pn : QUIC_PN) : bool := pn <? Z.shiftl 1 62.

(** ** Encryption levels *)

Definition ossl_quic_enc_level_to_pn_space (enc_level : Z) : pn_space :=
  if enc_level =? QUIC_ENC_LEVEL_INITIAL then QUIC_PN_SPACE_INITIAL
  else if enc_level =? QUIC_ENC_LEVEL_HANDSHAKE then QUIC_PN_SPACE_HANDSHAKE
  else QUIC_PN_SPACE_APP.

(** The number of a packet number space. *)
Definition space_num (s : pn_space) : Z :=
  match s with QUIC_PN_SPACE_INITIAL => 0 | QUIC_PN_SPACE_HANDSHAKE => 1 | QUIC_PN_SPACE_APP => 2 end.

(** [1UL << pn_space] in the flag words *)
Definition space_bit (s : pn_space) : Z := Z.shiftl 1 (space_num s).
Definition has_bit (flags : Z) (s : pn_space) : bool := negb (Z.land flags (space_bit s) =? 0).

(** ** Archetypes *)

Definition TX_PACKETISER_ARCHETYPE_NORMAL : Z := 0.
Definition TX_PACKETISER_ARCHETYPE_PROBE : Z := 1.
Definition TX_PACKETISER_ARCHETYPE_ACK_ONLY : Z := 2.
Definition TX_PACKETISER_ARCHETYPE_NUM : Z := 3.

Record archetype_data := mkArch {
  allow_ack : bool; allow_ping : bool; allow_crypto : bool; allow_handshake_done : bool; allow_path_challenge : bool;
  allow_path_response : bool; allow_new_conn_id : bool; allow_retire_conn_id : bool; allow_stream_rel : bool;
  allow_conn_fc : bool; allow_conn_close : bool; allow_cfq_other : bool; allow_new_token : bool;
  allow_force_ack_eliciting : bool; allow_padding : bool; require_ack_eliciting : bool; bypass_cc : bool }.

(** The table, a row per archetype; [t] and [f] keep it readable. *)
Definition archetypes (enc_level archetype : Z) : archetype_data :=
  let t := true in let f := false in
  if (enc_level =? QUIC_ENC_LEVEL_INITIAL) || (enc_level =? QUIC_ENC_LEVEL_HANDSHAKE) then
    if archetype =? TX_PACKETISER_ARCHETYPE_NORMAL then mkArch t t t f f f f f f f t f f t t f f
    else if archetype =? TX_PACKETISER_ARCHETYPE_PROBE then mkArch t t t f f f f f f f t f f t t t t
    else mkArch t f f f f f f f f f f f f t f f t
  else if enc_level =? QUIC_ENC_LEVEL_0RTT then
    if archetype =? TX_PACKETISER_ARCHETYPE_NORMAL then mkArch f t f f f f t t t t t f f f t f f
    else if archetype =? TX_PACKETISER_ARCHETYPE_PROBE then mkArch f t f f f f t t t t t f f f t t t
    else mkArch f f f f f f f f f f f f f f f f t
  else
    if archetype =? TX_PACKETISER_ARCHETYPE_NORMAL then mkArch t t t t f t t t t t t t t t t f f
    else if archetype =? TX_PACKETISER_ARCHETYPE_PROBE then mkArch t t t t f t t t t t t t t t t t t
    else mkArch t f f f f f f f f f f f f t f f t.

Definition txp_get_archetype_data (enc_level archetype : Z) : option archetype_data :=
  if (QUIC_ENC_LEVEL_NUM <=? enc_level) || (TX_PACKETISER_ARCHETYPE_NUM <=? archetype) then None
  else Some (archetypes enc_level archetype).

(** ** The state *)

(** [txp_el]: the scratch buffer of an encryption level (its address) and its length, the length of the vector. *)
Record txp_el := mkEl { scratch : option Z; scratch_len : Z; alloc_iovec : Z }.
#[export] Instance eta_txp_el : Eta txp_el := fun e => mkEl (scratch e) (scratch_len e) (alloc_iovec e).

Record TXP := mkTxp {
  tx_qtx : OSSL_QTX; tx_cur_scid : QUIC_CONN_ID; tx_cur_dcid : QUIC_CONN_ID; tx_ack_delay_exponent : Z; tx_protocol_version : Z;
  tx_crypto : spaces (option QUIC_SSTREAM); tx_qsm : QUIC_STREAM_MAP; tx_stream_limit : option (bool -> Z);
  tx_conn_txfc : QUIC_TXFC; tx_conn_rxfc : QUIC_RXFC;
  initial_token : option bytes; initial_token_len : Z; initial_token_free_cb : option Z; tx_tokens_freed : list (option bytes * Z);
  next_pn : spaces Z; last_tx_time : OSSL_TIME; unvalidated_credit : Z;
  want_handshake_done : bool; want_max_data : bool; want_max_streams_bidi : bool; want_max_streams_uni : bool;
  want_ack : Z; force_ack_eliciting : Z; want_conn_close : bool; handshake_complete : bool;
  conn_close_frame : OSSL_QUIC_FRAME_CONN_CLOSE; closing_bytes_recv : Z; closing_bytes_xmit : Z; tx_el : Z -> txp_el }.
#[export] Instance eta_txp : Eta TXP := fun t =>
  mkTxp (tx_qtx t) (tx_cur_scid t) (tx_cur_dcid t) (tx_ack_delay_exponent t) (tx_protocol_version t)
    (tx_crypto t) (tx_qsm t) (tx_stream_limit t) (tx_conn_txfc t) (tx_conn_rxfc t)
    (initial_token t) (initial_token_len t) (initial_token_free_cb t) (tx_tokens_freed t)
    (next_pn t) (last_tx_time t) (unvalidated_credit t)
    (want_handshake_done t) (want_max_data t) (want_max_streams_bidi t) (want_max_streams_uni t)
    (want_ack t) (force_ack_eliciting t) (want_conn_close t) (handshake_complete t)
    (conn_close_frame t) (closing_bytes_recv t) (closing_bytes_xmit t) (tx_el t).

(** What the stream map reads of its surroundings. *)
Definition txp_env (t : TXP) : qsm_env := mkEnv (tx_stream_limit t) (Some (tx_conn_txfc t)).

Definition no_conn_close : OSSL_QUIC_FRAME_CONN_CLOSE := mkFrameConnClose false 0 0 [] 0.

(** [args]: the arguments the channel passes. *)
Definition ossl_quic_tx_packetiser_new (qtx : OSSL_QTX) (scid dcid : QUIC_CONN_ID) (exp version : Z) (crypto : spaces (option QUIC_SSTREAM))
  (qsm : QUIC_STREAM_MAP) (limit : option (bool -> Z)) (txfc : QUIC_TXFC) (rxfc : QUIC_RXFC) : option TXP :=
  if (version =? 0) || negb (bool_decide (is_Some (max_streams_bidi_rxfc qsm))) || negb (bool_decide (is_Some (max_streams_uni_rxfc qsm))) then None
  else Some (mkTxp qtx scid dcid exp version crypto qsm limit txfc rxfc None 0 None [] (mkSpaces 0 0 0) ossl_time_zero 0
               false false false false 0 0 false false no_conn_close 0 0 (fun _ => mkEl None 0 0)).

(** ** Anti-amplification credit *)

Definition ossl_quic_tx_packetiser_set_validated (t : TXP) : TXP :=
  if negb (unvalidated_credit t =? SIZE_MAX) then t <| unvalidated_credit := SIZE_MAX |> else t.

Definition ossl_quic_tx_packetiser_add_unvalidated_credit (t : TXP) (credit : Z) : TXP :=
  if negb (unvalidated_credit t =? SIZE_MAX) then
    let before := unvalidated_credit t in
    let delta := credit *u 3 in
    t <| unvalidated_credit := if delta <? SIZE_MAX -u before then before +u delta else SIZE_MAX -u 1 |>
  else t.

Definition ossl_quic_tx_packetiser_consume_unvalidated_credit (t : TXP) (credit : Z) : TXP :=
  if negb (unvalidated_credit t =? SIZE_MAX) then
    let before := unvalidated_credit t in
    t <| unvalidated_credit := if before <? credit then 0 else before -u credit |>
  else t.

Definition ossl_quic_tx_packetiser_check_unvalidated_credit (t : TXP) (req_credit : Z) : bool :=
  let available := unvalidated_credit t in (available =? SIZE_MAX) || (req_credit <=? available).

(** [None]: a NULL packetiser. *)
Definition ossl_quic_tx_packetiser_get_unvalidated_credit (t : option TXP) : Z :=
  match t with None => SIZE_MAX | Some t => unvalidated_credit t end.

(** ** Settings and requests *)

Definition TXP_REQUIRED_TOKEN_MARGIN : Z := 160.

Definition txp_get_mdpl (t : TXP) : Z := ossl_qtx_get_mdpl (tx_qtx t).

Definition txp_check_token_len (token_len mdpl : Z) : bool :=
  if token_len =? 0 then true
  else if mdpl <=? token_len then false
  else if mdpl <=? TXP_REQUIRED_TOKEN_MARGIN then false
  else if mdpl -u TXP_REQUIRED_TOKEN_MARGIN <? token_len then false
  else true.

Definition ossl_quic_tx_packetiser_set_initial_token (t : TXP) (token : option bytes) (token_len : Z) (free_cb : option Z) : TXP * bool :=
  if negb (txp_check_token_len token_len (txp_get_mdpl t)) then (t, false)
  else
    let freed := match initial_token t, initial_token_free_cb t with
                 | Some _, Some _ => tx_tokens_freed t ++ [(initial_token t, initial_token_len t)]
                 | _, _ => tx_tokens_freed t
                 end in
    (t <| tx_tokens_freed := freed |> <| initial_token := token |> <| initial_token_len := token_len |>
       <| initial_token_free_cb := free_cb |>, true).

Definition ossl_quic_tx_packetiser_set_protocol_version (t : TXP) (protocol_version : Z) : TXP * bool :=
  (t <| tx_protocol_version := protocol_version |>, true).

Definition ossl_quic_tx_packetiser_set_cur_dcid (t : TXP) (dcid : option QUIC_CONN_ID) : TXP * bool :=
  match dcid with None => (t, false) | Some d => (t <| tx_cur_dcid := d |>, true) end.

Definition ossl_quic_tx_packetiser_set_cur_scid (t : TXP) (scid : option QUIC_CONN_ID) : TXP * bool :=
  match scid with None => (t, false) | Some d => (t <| tx_cur_scid := d |>, true) end.

Definition ossl_quic_tx_packetiser_discard_enc_level (t : TXP) (enc_level : Z) : TXP * bool :=
  if QUIC_ENC_LEVEL_NUM <=? enc_level then (t, false)
  else
    (if negb (enc_level =? QUIC_ENC_LEVEL_0RTT)
     then t <| tx_crypto := sset (tx_crypto t) (ossl_quic_enc_level_to_pn_space enc_level) None |> else t, true).

Definition ossl_quic_tx_packetiser_notify_handshake_complete (t : TXP) : TXP := t <| handshake_complete := true |>.
Definition ossl_quic_tx_packetiser_schedule_handshake_done (t : TXP) : TXP := t <| want_handshake_done := true |>.
Definition ossl_quic_tx_packetiser_schedule_ack_eliciting (t : TXP) (s : pn_space) : TXP :=
  t <| force_ack_eliciting := Z.lor (force_ack_eliciting t) (space_bit s) |>.
Definition ossl_quic_tx_packetiser_schedule_ack (t : TXP) (s : pn_space) : TXP := t <| want_ack := Z.lor (want_ack t) (space_bit s) |>.

(** [alloc]: whether the reason can be copied. *)
Definition ossl_quic_tx_packetiser_schedule_conn_close (alloc : bool) (t : TXP) (f : OSSL_QUIC_FRAME_CONN_CLOSE) : TXP * bool :=
  let max_reason_len := txp_get_mdpl t / 2 in
  if want_conn_close t then (t, false)
  else
    let reason_len := if max_reason_len <? cc_reason_len f then max_reason_len else cc_reason_len f in
    if (0 <? reason_len) && negb alloc then (t, false)
    else
      let reason := if 0 <? reason_len then take (Z.to_nat reason_len) (cc_reason f) else [] in
      (t <| conn_close_frame := mkFrameConnClose (cc_is_app f) (cc_error_code f) (cc_frame_type f) reason reason_len |>
         <| want_conn_close := true |>, true).

Definition ossl_quic_tx_packetiser_record_received_closing_bytes (t : TXP) (n : Z) : TXP :=
  t <| closing_bytes_recv := closing_bytes_recv t +u n |>.

Definition try_commit_conn_close (t : TXP) (n : Z) : TXP * bool :=
  if closing_bytes_recv t =? 0 then (t, true)
  else
    let res := closing_bytes_xmit t +u n <=? closing_bytes_recv t *u 3 in
    (if res && negb (closing_bytes_recv t =? 0) then t <| closing_bytes_xmit := closing_bytes_xmit t +u n |> else t, res).

(** [None] is a space out of range. *)
Definition ossl_quic_tx_packetiser_get_next_pn (t : TXP) (s : option pn_space) : QUIC_PN :=
  match s with None => UINT64_MAX | Some s => sget (next_pn t) s end.

(** ** The callbacks of the dispatcher *)

Definition get_sstream_by_id (t : TXP) (stream_id : Z) (s : pn_space) : option QUIC_SSTREAM :=
  if stream_id =? UINT64_MAX then sget (tx_crypto t) s
  else s ← ossl_quic_stream_map_get_by_id (tx_qsm t) stream_id; qs_sstream s.

(** The object [get_sstream_by_id] points to is replaced. *)
Definition put_sstream (t : TXP) (stream_id : Z) (s : pn_space) (ss : QUIC_SSTREAM) : TXP :=
  if stream_id =? UINT64_MAX then t <| tx_crypto := sset (tx_crypto t) s (Some ss) |>
  else t <| tx_qsm := qsm_upd (tx_qsm t) stream_id (fun s => s <| qs_sstream := Some ss |>) |>.

(** An operation of the stream map on a stream that may not exist. *)
Definition on_stream (t : TXP) (stream_id : Z) (f : QUIC_STREAM_MAP -> option QUIC_STREAM_MAP) : option TXP :=
  match ossl_quic_stream_map_get_by_id (tx_qsm t) stream_id with
  | None => Some t
  | Some _ => q ← f (tx_qsm t); Some (t <| tx_qsm := q |>)
  end.

Definition on_regen_notify (frame_type stream_id : Z) (pkt : QUIC_TXPIM_PKT) (t : TXP) : option TXP :=
  if frame_type =? OSSL_QUIC_FRAME_TYPE_HANDSHAKE_DONE then Some (t <| want_handshake_done := true |>)
  else if frame_type =? OSSL_QUIC_FRAME_TYPE_MAX_DATA then Some (t <| want_max_data := true |>)
  else if frame_type =? OSSL_QUIC_FRAME_TYPE_MAX_STREAMS_BIDI then Some (t <| want_max_streams_bidi := true |>)
  else if frame_type =? OSSL_QUIC_FRAME_TYPE_MAX_STREAMS_UNI then Some (t <| want_max_streams_uni := true |>)
  else if frame_type =? OSSL_QUIC_FRAME_TYPE_ACK_WITH_ECN then
    Some (t <| want_ack := Z.lor (want_ack t) (space_bit (pkt_space (tp_ackm_pkt pkt))) |>)
  else if frame_type =? OSSL_QUIC_FRAME_TYPE_MAX_STREAM_DATA then
    on_stream t stream_id (fun q =>
      ossl_quic_stream_map_update_state (txp_env t) (qsm_upd q stream_id (fun s => s <| qs_want_max_stream_data := true |>)) stream_id)
  else if frame_type =? OSSL_QUIC_FRAME_TYPE_STOP_SENDING then
    on_stream t stream_id (fun q => fst <$> ossl_quic_stream_map_schedule_stop_sending (txp_env t) q stream_id)
  else if frame_type =? OSSL_QUIC_FRAME_TYPE_RESET_STREAM then
    on_stream t stream_id (fun q =>
      ossl_quic_stream_map_update_state (txp_env t) (qsm_upd q stream_id (fun s => s <| qs_want_reset_stream := true |>)) stream_id)
  else Some t.

Definition on_confirm_notify (frame_type stream_id : Z) (pkt : QUIC_TXPIM_PKT) (t : TXP) : option TXP :=
  if frame_type =? OSSL_QUIC_FRAME_TYPE_STOP_SENDING then
    on_stream t stream_id (fun q =>
      ossl_quic_stream_map_update_state (txp_env t) (qsm_upd q stream_id (fun s => s <| qs_acked_stop_sending := true |>)) stream_id)
  else if frame_type =? OSSL_QUIC_FRAME_TYPE_RESET_STREAM then
    on_stream t stream_id (fun q =>
      '(q, _) ← ossl_quic_stream_map_notify_reset_stream_acked q stream_id;
      ossl_quic_stream_map_update_state (txp_env t) q stream_id)
  else Some t.

Definition on_sstream_updated (stream_id : Z) (t : TXP) : option TXP :=
  on_stream t stream_id (fun q => ossl_quic_stream_map_update_state (txp_env t) q stream_id).

#[export] Instance txp_callbacks : FIFD_CALLBACKS TXP := {|
  Fifd.get_sstream_by_id := get_sstream_by_id;
  Fifd.put_sstream := put_sstream;
  Fifd.regen_frame := on_regen_notify;
  Fifd.confirm_frame := on_confirm_notify;
  Fifd.sstream_updated := on_sstream_updated |}.

(** ** What to send *)

Class OSSL_CC_TX (D : Type) := { cc_get_tx_allowance : D -> Z; cc_get_wakeup_deadline : D -> OSSL_TIME }.
#[export] Instance newreno_tx : OSSL_CC_TX OSSL_CC_NEWRENO := {|
  cc_get_tx_allowance := newreno_get_tx_allowance; cc_get_wakeup_deadline := newreno_get_wakeup_deadline |}.

Definition txp_determine_archetype (probe_info : OSSL_ACKM_PROBE_INFO) (cc_limit : Z) : Z :=
  if (0 <? anti_deadlock_initial probe_info) || (0 <? anti_deadlock_handshake probe_info) then TX_PACKETISER_ARCHETYPE_PROBE
  else if (0 <? sget (pto probe_info) QUIC_PN_SPACE_INITIAL) || (0 <? sget (pto probe_info) QUIC_PN_SPACE_HANDSHAKE)
          || (0 <? sget (pto probe_info) QUIC_PN_SPACE_APP) then TX_PACKETISER_ARCHETYPE_PROBE
  else if cc_limit =? 0 then TX_PACKETISER_ARCHETYPE_ACK_ONLY
  else TX_PACKETISER_ARCHETYPE_NORMAL.

Definition sstream_is_pending (ss : QUIC_SSTREAM) : bool :=
  match ossl_quic_sstream_get_stream_frame ss 0 2 with Some _ => true | None => false end.

Definition txp_determine_pn_len : Z := 4.

Definition txp_determine_ppl_from_pl (t : TXP) (pl enc_level hdr_len : Z) : option Z :=
  if pl <? hdr_len then None else ossl_qtx_calculate_plaintext_payload_len (tx_qtx t) enc_level (pl -u hdr_len).

Definition txp_need_ping (t : TXP) (s : pn_space) (adata : archetype_data) : bool :=
  allow_ping adata && (require_ack_eliciting adata || has_bit (force_ack_eliciting t) s).

Record txp_pkt_geom := mkGeom { cmpl : Z; cmppl : Z; hwm : Z; pkt_overhead : Z; g_archetype : Z; adata : archetype_data }.
#[export] Instance eta_geom : Eta txp_pkt_geom := fun g => mkGeom (cmpl g) (cmppl g) (hwm g) (pkt_overhead g) (g_archetype g) (adata g).

Definition OSSL_QUIC_VLINT_2B_MAX : Z := 16383.

Definition txp_pkt_hdr (t : TXP) (enc_level : Z) : QUIC_PKT_HDR :=
  let initial := enc_level =? QUIC_ENC_LEVEL_INITIAL in
  mkPktHdr (ossl_quic_enc_level_to_pkt_type enc_level) false false txp_determine_pn_len false true 0 0 (tx_protocol_version t)
    (tx_cur_dcid t) (tx_cur_scid t) (replicate 4 0) (if initial then initial_token t else None)
    (if initial then initial_token_len t else 0) (OSSL_QUIC_VLINT_2B_MAX -u txp_determine_pn_len) None.

(** [hwm] is set by the caller before. *)
Definition txp_determine_geometry (t : TXP) (archetype enc_level running_total hwm : Z) : option (QUIC_PKT_HDR * txp_pkt_geom) :=
  a ← txp_get_archetype_data enc_level archetype;
  let phdr := txp_pkt_hdr t enc_level in
  let hdr_len := ossl_quic_wire_get_encoded_pkt_hdr_len (cid_id_len (ph_dst phdr)) phdr in
  if hdr_len =? 0 then None
  else
    let mdpl := txp_get_mdpl t in
    let cmpl := if mdpl <? running_total then 0 else mdpl -u running_total in
    cmppl ← txp_determine_ppl_from_pl t cmpl enc_level hdr_len;
    Some (phdr, mkGeom cmpl cmppl hwm (cmpl -u cmppl) archetype a).

Section Decide.
Context {D : Type} `{OSSL_CC_METHOD D} `{OSSL_CC_TX D}.
Context (now : nat -> OSSL_TIME).

Abbreviation TXPW := (QUIC_FIFD D TXP).

(** Whether a frame of the queue makes a packet worth staging. *)
Definition cfq_frame_allowed (a : archetype_data) (frame_type : Z) : bool :=
  if frame_type =? OSSL_QUIC_FRAME_TYPE_NEW_CONN_ID then allow_new_conn_id a
  else if frame_type =? OSSL_QUIC_FRAME_TYPE_RETIRE_CONN_ID then allow_retire_conn_id a
  else if frame_type =? OSSL_QUIC_FRAME_TYPE_NEW_TOKEN then allow_new_token a
  else if frame_type =? OSSL_QUIC_FRAME_TYPE_PATH_RESPONSE then allow_path_response a
  else allow_cfq_other a.

(** The loop over the queue; it ends at the first frame that is allowed. *)
Fixpoint cfq_wants (fuel : nat) (c : QUIC_CFQ) (a : archetype_data) (s : Z) (cfq_item : option Z) : option bool :=
  match cfq_item with
  | None => Some false
  | Some item =>
      match fuel with
      | O => None
      | S fuel =>
          i ← cfq_items c !! item;
          if cfq_frame_allowed a (ossl_quic_cfq_item_get_frame_type i) then Some true
          else next ← ossl_quic_cfq_item_get_priority_next c (Some item) s; cfq_wants fuel c a s next
      end
  end.

(** A probe is due at this level. *)
Definition probe_due (pr : OSSL_ACKM_PROBE_INFO) (enc_level : Z) : bool :=
  ((enc_level =? QUIC_ENC_LEVEL_INITIAL) && (0 <? anti_deadlock_initial pr))
  || ((enc_level =? QUIC_ENC_LEVEL_HANDSHAKE) && (0 <? anti_deadlock_handshake pr))
  || (0 <? sget (pto pr) (ossl_quic_enc_level_to_pn_space enc_level)).

(** [b] or else [f]; the conditions that only read. *)
Definition or_else (b : bool) (w : TXPW) (f : TXPW -> option (bool * TXPW)) : option (bool * TXPW) := if b then Some (true, w) else f w.

Definition rxfc_wants (r : QUIC_RXFC) : bool := snd (ossl_quic_rxfc_has_cwm_changed r false).

(** The result and the state: the question whether an ACK is desired reads the
    clock.  The crypto stream of a level that produces CRYPTO frames is there. *)
Definition wants_packet (w : TXPW) (a : archetype_data) (enc_level conn_close_enc_level : Z) : option (bool * TXPW) :=
  let s := ossl_quic_enc_level_to_pn_space enc_level in
  let t := ff_env w in
  or_else (allow_force_ack_eliciting a && probe_due (ossl_ackm_get0_probe_request (ff_ackm w)) enc_level) w (fun w =>
  crypto ← (if allow_crypto a then ss ← sget (tx_crypto t) s; Some (sstream_is_pending ss) else Some false);
  or_else crypto w (fun w =>
  let '(ack, w) := if allow_ack a then
                     let '(d, m) := ossl_ackm_is_ack_desired now (ff_ackm w) s in (d || has_bit (want_ack t) s, w <| ff_ackm := m |>)
                   else (false, w) in
  or_else ack w (fun w =>
  or_else (allow_force_ack_eliciting a && has_bit (force_ack_eliciting t) s) w (fun w =>
  or_else (allow_conn_fc a && (want_max_data t || rxfc_wants (tx_conn_rxfc t))) w (fun w =>
  bidi ← max_streams_bidi_rxfc (tx_qsm t);
  uni ← max_streams_uni_rxfc (tx_qsm t);
  or_else (allow_conn_fc a && (want_max_streams_bidi t || rxfc_wants bidi || want_max_streams_uni t || rxfc_wants uni)) w (fun w =>
  or_else (allow_handshake_done a && want_handshake_done t) w (fun w =>
  or_else (allow_conn_close a && want_conn_close t && (conn_close_enc_level =? enc_level)) w (fun w =>
  cfq ← (if negb (enc_level =? QUIC_ENC_LEVEL_0RTT) then
           first ← ossl_quic_cfq_get_priority_head (ff_cfq w) (space_num s);
           cfq_wants (length (new_list (ff_cfq w))) (ff_cfq w) a (space_num s) first
         else Some false);
  or_else cfq w (fun w =>
  Some (allow_stream_rel a && handshake_complete t
        && bool_decide (is_Some (it_stream (fst (ossl_quic_stream_iter_init (tx_qsm t) false)))), w)))))))))).

(** [*conn_close_enc_level] is passed in and out. *)
Definition txp_should_try_staging (w : TXPW) (enc_level archetype cc_limit conn_close_enc_level : Z) : option (bool * TXPW * Z) :=
  if negb (ossl_qtx_is_enc_level_provisioned (tx_qtx (ff_env w)) enc_level) then Some (false, w, conn_close_enc_level)
  else
    match txp_get_archetype_data enc_level archetype with
    | None => Some (false, w, conn_close_enc_level)
    | Some a =>
        if negb (bypass_cc a) && (cc_limit =? 0) then Some (false, w, conn_close_enc_level)
        else
          let conn_close_enc_level :=
            if (enc_level <? conn_close_enc_level) && negb (conn_close_enc_level =? QUIC_ENC_LEVEL_1RTT)
            then enc_level else conn_close_enc_level in
          '(r, w) ← wants_packet w a enc_level conn_close_enc_level;
          Some (r, w, conn_close_enc_level)
    end.

Definition ossl_quic_tx_packetiser_get_deadline (w : TXPW) : OSSL_TIME :=
  let t := ff_env w in
  let ack_deadline (deadline enc_level : Z) :=
    if ossl_qtx_is_enc_level_provisioned (tx_qtx t) enc_level
    then ossl_time_min deadline (ossl_ackm_get_ack_deadline (ff_ackm w) (ossl_quic_enc_level_to_pn_space enc_level)) else deadline in
  let deadline := foldl ack_deadline ossl_time_infinite
                    [QUIC_ENC_LEVEL_INITIAL; QUIC_ENC_LEVEL_0RTT; QUIC_ENC_LEVEL_HANDSHAKE; QUIC_ENC_LEVEL_1RTT] in
  if cc_get_tx_allowance (a_cc_data (ff_ackm w)) =? 0
  then ossl_time_min deadline (cc_get_wakeup_deadline (a_cc_data (ff_ackm w))) else deadline.
End Decide.
