(* ===== verification/TxpNotify.v ===== *)
(** * The packetiser's feedback: what acknowledgements and losses do to the streams

    The callbacks of Txp.v with the handlers of Fifd.v on reachable stream maps,
    and an example of a whole history of frames in flight. *)

From S2P Require Import Prelude UintSet OsslTime FlowControl Congestion CcMethod Packet Wire WirePkt Qrl Qtx Ackm AckmTx AckmInv.
From S2P Require Import RingBuf Sstream SfList Rstream StreamMap StreamStates StreamProps Cfq Txpim Fifd FifdInv FifdProps Txp.

(** ** Lost data *)

(** The stream object after the range and the FIN of a chunk are marked lost. *)
Definition lost_sstream (ck : QUIC_TXPIM_CHUNK) (ss : QUIC_SSTREAM) : QUIC_SSTREAM :=
  let ss := fst (ossl_quic_sstream_mark_lost true ss (ck_start ck) (ck_end ck)) in
  if ck_has_fin ck then fst (ossl_quic_sstream_mark_lost_fin ss) else ss.

(** An update keeps the buffer of a stream unless it finishes the send part. *)
Lemma updated_keeps (env : qsm_env) (server : bool) (s : QUIC_STREAM) (ss : QUIC_SSTREAM) : qs_sstream s = Some ss ->
  let s' := updated env server s in
  qs_recv_state s' = qs_recv_state s /\ qs_want_max_stream_data s' = qs_want_max_stream_data s /\
  (qs_sstream s' = Some ss \/ (qs_send_state s' = QUIC_SSTREAM_STATE_DATA_RECVD /\ qs_sstream s' = None /\ ossl_quic_sstream_is_totally_acked ss = true)).
Proof.
  intros Hss s'. subst s'. unfold updated, before_activation, acked_checked. rewrite Hss. destruct (qs_send_state s) eqn:Es; try destruct (qs_shutdown_flush s && ossl_quic_sstream_is_totally_acked ss);
    try destruct (ossl_quic_sstream_is_totally_acked ss) eqn:Ea; (split; [done|]; split; [done|]); first [by left|by right].
Qed.

Lemma updated_finished (env : qsm_env) (server : bool) (s : QUIC_STREAM) : qs_sstream s = None ->
  let s' := updated env server s in qs_recv_state s' = qs_recv_state s /\ qs_want_max_stream_data s' = qs_want_max_stream_data s /\
  qs_send_state s' = qs_send_state s /\ qs_sstream s' = None.
Proof. intros Hss s'. subst s'. unfold updated, before_activation, acked_checked. rewrite Hss. destruct (qs_send_state s) eqn:Es; by split_and!. Qed.

(** The object of a stream and a flag that asks for a frame may change at any time. *)
Lemma outside_sstream (server : bool) (s : QUIC_STREAM) (ss ss' : QUIC_SSTREAM) : stream_ok server s -> qs_sstream s = Some ss ->
  ossl_quic_sstream_get_final_size ss' = ossl_quic_sstream_get_final_size ss -> outside s (s <| qs_sstream := Some ss' |>).
Proof.
  intros Ho Hss Hf. split; cbn; rewrite ?Hss; try done; try exact (sk_want_reset _ _ Ho).
  all: repeat match goal with |- _ /\ _ => split end; try done.
  - exact (sk_acked _ _ Ho).
  - intros Hd. destruct (sk_deleted _ _ Ho Hd) as [Hn|[Hr|(n & Hn)]]; [by left|by right; left|]. right. right. exists n. rewrite <- Hn.
    unfold ossl_quic_stream_send_get_final_size. cbn. rewrite Hss. cbn. by rewrite Hf.
Qed.

Lemma outside_want_fc (server : bool) (s : QUIC_STREAM) : stream_ok server s -> outside s (s <| qs_want_max_stream_data := true |>).
Proof.
  intros Ho. split; cbn; try done; try exact (sk_want_reset _ _ Ho); split; try done; first [exact (sk_acked _ _ Ho)|exact (sk_deleted _ _ Ho)].
Qed.

Lemma updated_twice (env : qsm_env) (server : bool) (s : QUIC_STREAM) (ss : QUIC_SSTREAM) : qs_sstream s = Some ss ->
  let s' := updated env server (updated env server s) in
  qs_want_max_stream_data s' = qs_want_max_stream_data s /\
  (qs_sstream s' = Some ss \/ (qs_send_state s' = QUIC_SSTREAM_STATE_DATA_RECVD /\ qs_sstream s' = None /\ ossl_quic_sstream_is_totally_acked ss = true)).
Proof.
  intros Hss s'. destruct (updated_keeps env server s ss Hss) as (_ & W1 & [H1|(H1 & H1' & H1'')]).
  - destruct (updated_keeps env server _ ss H1) as (_ & W2 & H2). split; [|exact H2]. subst s'. congruence.
  - destruct (updated_finished env server _ H1') as (_ & W2 & E & E'). split; [subst s'; congruence|]. right. subst s'. split_and!; congruence.
Qed.

(** *** Chains of changes of one stream *)

(** The stream [id] of the packetiser's map is [s], and the map is in order. *)
Definition stream_at (t : TXP) (id : Z) (s : QUIC_STREAM) : Prop :=
  qsm_ok (tx_qsm t) /\ qsm_map (tx_qsm t) !! id = Some s.

Lemma stream_at_ok (t : TXP) (id : Z) (s : QUIC_STREAM) : stream_at t id s -> stream_ok (qsm_is_server (tx_qsm t)) s.
Proof. intros [[_ Hok] Hs]. exact (Hok _ _ Hs). Qed.

Lemma stream_at_touch (t : TXP) (id : Z) (s s' : QUIC_STREAM) (f : QUIC_STREAM -> QUIC_STREAM) : stream_at t id s -> f s = s' -> outside s s' ->
  stream_at (t <| tx_qsm := qsm_upd (tx_qsm t) id f |>) id s'.
Proof.
  intros [Hk Hs] Hf Ho. assert (alter f id (qsm_map (tx_qsm t)) = alter (fun _ => s') id (qsm_map (tx_qsm t))) as He.
  { apply map_eq. intros i. destruct (decide (id = i)) as [<-|]; [|by rewrite !lookup_alter_ne]. rewrite !lookup_alter_eq, Hs. cbn. by rewrite Hf. }
  assert (qsm_upd (tx_qsm t) id f = qsm_upd (tx_qsm t) id (fun _ => s')) as -> by (unfold qsm_upd; by rewrite He).
  split; [exact (proj1 (touch_kept _ _ _ _ Hk Hs Ho))|]. cbn. by rewrite lookup_alter_eq, Hs.
Qed.

Lemma stream_at_update (t : TXP) (id : Z) (s : QUIC_STREAM) (env : qsm_env) : stream_at t id s ->
  exists q', ossl_quic_stream_map_update_state env (tx_qsm t) id = Some q' /\ qsm_is_server q' = qsm_is_server (tx_qsm t) /\
    let s' := updated env (qsm_is_server (tx_qsm t)) s in
    stream_at (t <| tx_qsm := q' |>) id s' /\ (id ∈ active_list q' <-> needs_service env (qsm_is_server (tx_qsm t)) s').
Proof.
  intros [Hk Hs]. pose proof Hk as [Hq Hok]. destruct (update_state_moved env _ id s Hq Hs (Hok _ _ Hs)) as (q' & Hu & Hm & _).
  exists q'. split; [done|]. split; [exact (mv_server _ _ _ _ Hm)|]. cbn zeta. split; [|by apply update_active; [exact (Hok _ _ Hs)|]].
  split; [|exact (moved_lookup _ _ _ _ Hm)]. cbn.
  destruct (run_op_kept env (tx_qsm t) (OpUpdate id) Hk ltac:(by eexists)) as (q2 & Hq2 & Hk2). cbn [run_op] in Hq2. rewrite Hu in Hq2. injection Hq2 as <-. apply Hk2.
Qed.

Lemma lost_sstream_spec (ck : QUIC_TXPIM_CHUNK) (ss : QUIC_SSTREAM) : us_wf (ss_new ss) -> range_ok (mkRange (ck_start ck) (ck_end ck)) ->
  (forall n, ck_start ck <= n <= ck_end ck -> ossl_uint_set_query (ss_new (lost_sstream ck ss)) n = true) /\
  ossl_quic_sstream_get_final_size (lost_sstream ck ss) = ossl_quic_sstream_get_final_size ss.
Proof.
  intros W Hr. unfold lost_sstream, ossl_quic_sstream_mark_lost. destruct (ossl_uint_set_insert true (ss_new ss) _) as [s' ok] eqn:Ei.
  destruct (insert_spec _ _ _ _ _ W Hr Ei) as (W' & Ht & Hf). destruct ok; [|by destruct (Hf eq_refl)]. cbn [fst].
  assert (forall n, ck_start ck <= n <= ck_end ck -> ossl_uint_set_query s' n = true) as Hq by (intros n Hn; apply query_spec, Ht; [done|done|by right]).
  destruct (ck_has_fin ck); [|by split]. unfold ossl_quic_sstream_mark_lost_fin. cbn. by destruct (ss_acked_final_size ss).
Qed.

(** A lost packet's stream data is sent again.  For every stream of a reachable
    map and every chunk of its data (with or without a FIN) reported lost: the
    handler succeeds; every byte of the chunk waits for transmission again, unless
    the send part has finished because everything was acknowledged all the same;
    a MAX_STREAM_DATA frame is asked for; and the stream is in the active list the
    packetiser visits exactly when it is due there. *)
Theorem lost_data_requeued (server : bool) (bfc ufc : option QUIC_RXFC) (t : TXP) (pkt : QUIC_TXPIM_PKT) (ck : QUIC_TXPIM_CHUNK)
  (s : QUIC_STREAM) (ss : QUIC_SSTREAM) (p : sspec) :
  qsm_runs (ossl_quic_stream_map_init server bfc ufc) (tx_qsm t) -> ck_stream_id ck <> UINT64_MAX ->
  qsm_map (tx_qsm t) !! ck_stream_id ck = Some s -> qs_sstream s = Some ss -> ss_reach ss p ->
  0 <= ck_start ck <= ck_end ck -> ck_end ck < U64_MOD -> ck_has_stop_sending ck = false -> ck_has_reset_stream ck = false ->
  exists t' s' ss', lost_chunk pkt true ck t = Some t' /\ qsm_map (tx_qsm t') !! ck_stream_id ck = Some s' /\
    (forall n, ck_start ck <= n <= ck_end ck -> ossl_uint_set_query (ss_new ss') n = true) /\
    (qs_sstream s' = Some ss' \/
     (qs_send_state s' = QUIC_SSTREAM_STATE_DATA_RECVD /\ qs_sstream s' = None /\ ossl_quic_sstream_is_totally_acked ss' = true)) /\
    qs_want_max_stream_data s' = true /\
    (ck_stream_id ck ∈ active_list (tx_qsm t') <-> needs_service (txp_env t) server s').
Proof.
  intros Hr Hid Hs Hss Hreach Hrg Hu Hstop Hreset. set (id := ck_stream_id ck) in *. apply reach_rel in Hreach. pose proof (rel_new_gaps _ _ Hreach) as W%us_gaps_wf.
  destruct (lost_sstream_spec ck ss W ltac:(split; [done|cbn; lia])) as [Hq Hfs]. set (ss' := lost_sstream ck ss) in *.
  destruct (runs_kept _ _ (init_ok server bfc ufc) Hr) as (Hk & Hsv & _). change (qsm_is_server (tx_qsm t) = server) in Hsv.
  assert (stream_at t id s) as A0 by done. pose proof (stream_at_ok _ _ _ A0) as O0.
  pose proof (stream_at_touch t id s _ (fun s => s <| qs_sstream := Some ss' |>) A0 eq_refl (outside_sstream _ _ _ _ O0 Hss Hfs)) as A1.
  set (t1 := t <| tx_qsm := _ |>) in A1. set (s1 := s <| qs_sstream := Some ss' |>) in A1. pose proof (stream_at_ok _ _ _ A1) as O1.
  pose proof (stream_at_touch t1 id s1 _ (fun s => s <| qs_want_max_stream_data := true |>) A1 eq_refl (outside_want_fc _ _ O1)) as A2.
  set (t2 := t1 <| tx_qsm := _ |>) in A2. set (s2 := s1 <| qs_want_max_stream_data := true |>) in A2.
  destruct (stream_at_update t2 id s2 (txp_env t) A2) as (q3 & E3 & V3 & A3 & _). change (qsm_is_server (tx_qsm t2)) with (qsm_is_server (tx_qsm t)) in *.
  set (s3 := updated (txp_env t) _ s2) in A3. set (t3 := t2 <| tx_qsm := q3 |>) in A3.
  destruct (stream_at_update t3 id s3 (txp_env t) A3) as (q4 & E4 & V4 & A4 & Act). change (qsm_is_server (tx_qsm t3)) with (qsm_is_server q3) in *.
  rewrite V3 in A4, Act. set (s4 := updated (txp_env t) _ s3) in A4, Act. exists (t3 <| tx_qsm := q4 |>), s4, ss'. split_and!.
  - unfold lost_chunk. fold id. cbn [Fifd.get_sstream_by_id txp_callbacks]. unfold get_sstream_by_id. rewrite (proj2 (Z.eqb_neq _ _) Hid).
    unfold ossl_quic_stream_map_get_by_id. rewrite Hs. cbn [mbind option_bind]. rewrite Hss.
    rewrite (proj2 (Z.leb_le _ _)) by lia. unfold is_app_chunk. fold id. rewrite (proj2 (Z.eqb_neq _ _) Hid), Hstop, Hreset. cbn [negb andb orb when_some mbind option_bind].
    rewrite andb_true_r. fold (lost_sstream ck ss). fold ss'.
    cbn [Fifd.put_sstream txp_callbacks Fifd.regen_frame Fifd.sstream_updated]. unfold put_sstream. rewrite (proj2 (Z.eqb_neq _ _) Hid). fold t1.
    assert (on_regen_notify OSSL_QUIC_FRAME_TYPE_MAX_STREAM_DATA id pkt t1 = Some t3) as ->.
    { change (on_regen_notify OSSL_QUIC_FRAME_TYPE_MAX_STREAM_DATA id pkt t1) with (on_stream t1 id (fun q =>
        ossl_quic_stream_map_update_state (txp_env t) (qsm_upd q id (fun s => s <| qs_want_max_stream_data := true |>)) id)).
      unfold on_stream, ossl_quic_stream_map_get_by_id. destruct A1 as [_ ->]. change (qsm_upd (tx_qsm t1) id _) with (tx_qsm t2). by rewrite E3. }
    cbn [mbind option_bind]. unfold on_sstream_updated, on_stream, ossl_quic_stream_map_get_by_id. destruct A3 as [_ ->].
    change (txp_env t3) with (txp_env t). by rewrite E4.
  - apply A4.
  - exact Hq.
  - exact (proj2 (updated_twice (txp_env t) (qsm_is_server (tx_qsm t)) s2 ss' eq_refl)).
  - exact (proj1 (updated_twice (txp_env t) (qsm_is_server (tx_qsm t)) s2 ss' eq_refl)).
  - change (tx_qsm (t3 <| tx_qsm := q4 |>)) with q4. rewrite Act, Hsv. done.
Qed.

(** ** Frames that stop or reset a stream *)

(** A lost RESET_STREAM is not sent again, nor is an acknowledged one noticed.
    The handlers look for the send buffer of the chunk's stream first and skip the
    chunk without it.  A stream that is being reset has given its send buffer up,
    and a stream the peer sends on only never had one: of a packet whose chunks all
    belong to such streams neither the loss nor the acknowledgement changes
    anything, so the RESET_STREAM or STOP_SENDING frames in it are never
    regenerated or confirmed. *)
Theorem reset_feedback_dropped (server : bool) (bfc ufc : option QUIC_RXFC) (t : TXP) (pkt : QUIC_TXPIM_PKT) (alloc : nat -> bool) (k : nat)
  (chunks : list QUIC_TXPIM_CHUNK) : qsm_runs (ossl_quic_stream_map_init server bfc ufc) (tx_qsm t) ->
  (forall ck, ck ∈ chunks -> ck_stream_id ck <> UINT64_MAX /\ exists s, qsm_map (tx_qsm t) !! ck_stream_id ck = Some s /\
     (qs_send_state s = QUIC_SSTREAM_STATE_RESET_SENT \/ can_send s = false)) ->
  chunk_loop (lost_chunk pkt) alloc k chunks t = Some t /\ chunk_loop (acked_chunk pkt) alloc k chunks t = Some t.
Proof.
  intros Hr. destruct (runs_kept _ _ (init_ok server bfc ufc) Hr) as ([_ Hok] & _). revert k. induction chunks as [|ck chunks IH]; intros k Hc; [done|].
  destruct (Hc ck ltac:(left)) as (Hid & s & Hs & Hsend). destruct (IH (S k)) as [IH1 IH2]; [intros c Hin; apply Hc; by right|].
  assert (qs_sstream s = None) as Hss.
  { pose proof (Hok _ _ Hs) as Ho. destruct (qs_sstream s) eqn:E; [|done]. assert (ossl_quic_stream_has_send_buffer s = true) as Hb by (apply Ho; by rewrite E).
    unfold ossl_quic_stream_has_send_buffer in Hb. destruct Hsend as [He|He]; [by rewrite He in Hb|].
    pose proof (sk_send _ _ Ho) as Hse. rewrite He in Hse. apply bool_decide_eq_false in Hse. destruct (qs_send_state s); try done; by destruct Hse. }
  assert (get_sstream_by_id t (ck_stream_id ck) (pkt_space (tp_ackm_pkt pkt)) = None) as Hg.
  { unfold get_sstream_by_id, ossl_quic_stream_map_get_by_id. by rewrite (proj2 (Z.eqb_neq _ _) Hid), Hs. }
  assert (forall al, lost_chunk pkt al ck t = Some t /\ acked_chunk pkt al ck t = Some t) as Hskip.
  { intros al. unfold lost_chunk, acked_chunk. change (@Fifd.get_sstream_by_id TXP _) with get_sstream_by_id. by rewrite Hg. }
  cbn [chunk_loop]. destruct (Hskip (alloc k)) as [-> ->]. by split.
Qed.

(** ** An example: two control frames in two packets, one lost and one acknowledged *)

#[local] Existing Instance merge_qsort.

Definition demo_cid : QUIC_CONN_ID := mkConnId 0 (replicate 20 0).
Definition demo_rxfc : QUIC_RXFC := mkRxfc 9 9 0 0 9 9 9 0 0 false true false.
Definition demo_qtx : OSSL_QTX :=
  mkQtx (fun _ => el_new <| el_suite_id := QRL_SUITE_AES128GCM |> <| el_tag_len := 16 |> <| el_state := QRL_EL_STATE_PROV_NORMAL |>) true 1200 [] [] 0 0 None 0 0 [].
Definition demo_txp (q : QUIC_STREAM_MAP) : TXP :=
  mkTxp demo_qtx demo_cid demo_cid 3 1 (mkSpaces None None None) q None (mkTxfc 0 100 false) demo_rxfc None 0 None [] (mkSpaces 0 0 0) 0 0
    false false false false 0 0 false true no_conn_close 0 0 (fun _ => mkEl None 0 0).

Definition demo_fill (pn : Z) (tp : QUIC_TXPIM_PKT) : QUIC_TXPIM_PKT := tp <| tp_ackm_pkt := demo_pkt pn QUIC_PN_SPACE_APP |>.

Definition demo_fifd_ops : list (fifd_op TXP) :=
  [FoCfqAdd (Some 100) 1 2 24 0 (Some 7) 10 (Some (1, 0)); FoCfqAdd (Some 200) 1 2 25 0 (Some 8) 20 (Some (1, 0));
   FoAlloc (Some 1); FoFill 1 (demo_fill 0); FoAddItem 1 100; FoCommit (fun _ => true) 1;
   FoAlloc (Some 2); FoFill 2 (demo_fill 5); FoAddItem 2 200; FoCommit (fun _ => true) 2].

Definition demo_fifd_st (n : nat) : @fifd_state OSSL_CC_NEWRENO TXP :=
  foldl (fun st op => default st (fifd_do demo_now st op))
    (fifd_new ossl_statm_init (newreno_new ∅) false (demo_txp demo_map)) (take n demo_fifd_ops).

(** No packet starts with the item and no item is followed by it. *)
Lemma unlinked_heads {D E} (w : QUIC_FIFD D E) (item : Z) :
  map_Forall (fun _ tp => tp_retx_head tp <> Some item) (tpim_pkts (ff_txpim w)) ->
  map_Forall (fun _ i => pkt_next i <> Some item) (cfq_items (ff_cfq w)) -> unlinked w item.
Proof.
  intros Hh Hn id _ (tp & l & Ht & Hc & Hx). apply Hh in Ht. revert Ht Hc. generalize (tp_retx_head tp). clear tp.
  induction l as [|x l IH]; intros h Hne Hc; [by apply elem_of_nil in Hx|]. destruct Hc as (-> & i & Hi & Hc).
  apply elem_of_cons in Hx as [->|Hx]; [done|]. eapply (IH Hx _ _ Hc). Unshelve. exact (Hn _ _ Hi).
Qed.

Definition demo_reach (n : nat) : Prop :=
  fifd_reach demo_now ossl_statm_init (newreno_new ∅) false (demo_txp demo_map) (demo_fifd_st n).

Lemma demo_fifd_step (n : nat) (op : fifd_op TXP) : demo_fifd_ops !! n = Some op -> demo_reach n -> fifd_op_ok (demo_fifd_st n) op ->
  is_Some (fifd_do demo_now (demo_fifd_st n) op) -> demo_reach (S n).
Proof.
  intros Hop Hr Hok [st' Hdo]. unfold demo_reach. assert (demo_fifd_st (S n) = st') as ->.
  { unfold demo_fifd_st in *. rewrite (take_S_r _ _ _ Hop), foldl_app. cbn [foldl]. by rewrite Hdo. }
  by eapply fifd_reach_step.
Qed.

Lemma op_ok_fields (st : @fifd_state OSSL_CC_NEWRENO TXP) (op : fifd_op TXP) :
  fifd_op_ok (mkSt (st_w st) (st_building st) (st_leaked st)) op -> fifd_op_ok st op.
Proof. by destruct st. Qed.

Ltac by_computation := apply (bool_decide_unpack _); vm_compute; reflexivity.

Ltac demo_fifd_ok :=
  apply op_ok_fields; cbn [fifd_op_ok];
  lazymatch goal with
  | |- forall a, _ -> _ /\ _ => intros a [= <-]; split; vm_compute; reflexivity
  | |- forall a, _ -> _ => intros a [= <-]; vm_compute; reflexivity
  | |- _ ∈ _ /\ fills _ => split; [by_computation|intros tp; by split_and!]
  | |- _ ∈ _ /\ _ ∈ _ /\ _ => split; [by_computation|split; [by_computation|apply unlinked_heads; by_computation]]
  | |- _ => split; [by_computation|intros tp Htp; vm_compute in Htp; injection Htp as <-; cbn [op_ok]; split_and!; first [vm_compute; (done || lia) | idtac]]
  end.

Lemma demo_fifd_reach : demo_reach 10.
Proof.
  do 10 (eapply demo_fifd_step; [reflexivity| |demo_fifd_ok|vm_compute; by eexists]). constructor.
Qed.

Lemma demo_cc_empty : cc_in_flight (newreno_new ∅) = 0.
Proof. done. Qed.

(** The second packet is acknowledged, which loses the first. *)
Definition demo_ack_op : ackm_op := OpRxAck (demo_ack 5 5) QUIC_PN_SPACE_APP 0.


Lemma fifd_fate_of_frames_witness :
  exists w', fifd_ackm demo_now (fun _ _ => true) (st_w (demo_fifd_st 10)) demo_ack_op = Some w' /\
    state_of (ff_cfq w') 100 = Some QUIC_CFQ_STATE_NEW /\ state_of (ff_cfq w') 200 = Some (-1) /\
    (forall x, (forall ev p id, ev ∈ a_events (fst (fst (ackm_do demo_now (ff_ackm (st_w (demo_fifd_st 10)), st_leaked (demo_fifd_st 10), []) demo_ack_op))) ->
        ev_pkt ev = Some p -> owner (ff_cb_arg (st_w (demo_fifd_st 10))) p = Some id ->
        ~ on_pkt (ff_cfq (st_w (demo_fifd_st 10))) (ff_txpim (st_w (demo_fifd_st 10))) id x) ->
      cfq_items (ff_cfq w') !! x = cfq_items (ff_cfq (st_w (demo_fifd_st 10))) !! x).
Proof.
  destruct (fifd_ackm demo_now (fun _ _ => true) (st_w (demo_fifd_st 10)) demo_ack_op) as [w'|] eqn:E; [|by vm_compute in E]. exists w'. split; [done|].
  assert (fifd_op_ok (demo_fifd_st 10) (FoAckm (fun _ _ => true) demo_ack_op)) as Hok.
  { apply op_ok_fields. cbn [fifd_op_ok]. split; [done|]. cbn [op_ok demo_ack_op]. split; [by vm_compute|]. vm_compute. repeat constructor; done. }
  pose proof (fifd_fate_of_frames demo_now ossl_statm_init (newreno_new ∅) false (demo_txp demo_map) (demo_fifd_st 10) (fun _ _ => true) demo_ack_op
    demo_cc_empty demo_fifd_reach Hok) as Hth. cbv zeta in Hth. apply proj1 in Hth. pose proof (proj1 (proj2 (Hth w' E))) as Hot. clear Hth Hok.
  assert (Some w' = fifd_ackm demo_now (fun _ _ => true) (st_w (demo_fifd_st 10)) demo_ack_op) as E' by (by rewrite E).
  split; [apply (f_equal (fmap (fun w => state_of (ff_cfq w) 100))) in E'; vm_compute in E' |- *; congruence|].
  split; [apply (f_equal (fmap (fun w => state_of (ff_cfq w) 200))) in E'; vm_compute in E' |- *; congruence|]. exact Hot.
Defined.

(** *** The streams of the example map *)

Definition demo_data_chunk : QUIC_TXPIM_CHUNK := mkChunk 0 0 1 false false false.
Definition demo_reset_chunk : QUIC_TXPIM_CHUNK := mkChunk 0 UINT64_MAX 0 false false true.

Lemma demo_ss_history : exists p, ss_reach demo_ss p.
Proof.
  eexists. change demo_ss with (fst (ss_do (mkSstream (mkRing (replicate 8 0) 0 0) [] [] false false false false, mkSpec [] (fun _ => NEW) false false false) (SAppend true [1; 2; 3]))).
  apply reach_op; [|by vm_compute]. eapply (reach_new (Some (replicate 8 0)) 8); [by vm_compute|intros mem [= <-]; by vm_compute|by vm_compute].
Qed.

Lemma demo_stream_buffer : qs_sstream demo_stream = Some demo_ss.
Proof. by vm_compute. Qed.

Lemma lost_data_requeued_witness : exists t' s' ss',
  lost_chunk txpim_pkt_zero true demo_data_chunk (demo_txp demo_map) = Some t' /\ qsm_map (tx_qsm t') !! 0 = Some s' /\
  (forall n, 0 <= n <= 1 -> ossl_uint_set_query (ss_new ss') n = true) /\ qs_want_max_stream_data s' = true.
Proof.
  destruct demo_ss_history as [p Hp].
  destruct (lost_data_requeued false None None (demo_txp demo_map) txpim_pkt_zero demo_data_chunk demo_stream demo_ss p demo_runs
    ltac:(discriminate) demo_lookup demo_stream_buffer Hp ltac:(cbn; lia) eq_refl eq_refl eq_refl) as (t' & s' & ss' & H1 & H2 & H3 & _ & H4 & _).
  exists t', s', ss'. exact (conj H1 (conj H2 (conj H3 H4))).
Defined.

Lemma demo_reset_runs' : qsm_runs demo_init demo_reset.
Proof. apply demo_step_run; [apply demo_runs|vm_compute; by eexists|vm_compute; by eexists]. Qed.

Lemma reset_feedback_dropped_witness :
  chunk_loop (lost_chunk txpim_pkt_zero) (fun _ => true) 0 [demo_reset_chunk] (demo_txp demo_reset) = Some (demo_txp demo_reset) /\
  chunk_loop (acked_chunk txpim_pkt_zero) (fun _ => true) 0 [demo_reset_chunk] (demo_txp demo_reset) = Some (demo_txp demo_reset).
Proof.
  apply (reset_feedback_dropped false None None (demo_txp demo_reset) txpim_pkt_zero (fun _ => true) 0 [demo_reset_chunk] demo_reset_runs').
  intros ck ->%list_elem_of_singleton. split; [done|]. eexists. split; [vm_compute; reflexivity|]. left. by vm_compute.
Defined.
