(* ===== verification/TxpHelper.v ===== *)
(** * Assembling the payload of one packet: the helper of the packetiser
    (ssl/quic/quic_txp.c: [tx_helper], [txp_el], the length planning)

    A packet is put together as a list of vectors.  A control frame is written to
    the scratch buffer of the encryption level between [tx_helper_begin] and
    [tx_helper_commit]; stream data and queued frames are referred to in place.
    The array of vectors belongs to the encryption level; its valid part is the list
    of the helper here.  The transaction is the writer that is passed along: the code
    never begins one while another is open, so the [active] flag has no counterpart.
    The packetiser's message callback is not modelled. *)

From S2P Require Import Prelude Packet Wire Qrl Qtx Ackm Txpim StreamMap Cfq Fifd Txp.

Record tx_helper := mkHelper {
  max_ppl : Z; h_iovec : list OSSL_QTX_IOVEC; bytes_appended : Z; scratch_bytes : Z; reserve : Z; h_enc_level : Z;
  reserve_allowed : bool; done_implicit : bool }.
#[export] Instance eta_helper : Eta tx_helper := fun h =>
  mkHelper (max_ppl h) (h_iovec h) (bytes_appended h) (scratch_bytes h) (reserve h) (h_enc_level h) (reserve_allowed h) (done_implicit h).

Definition num_iovec (h : tx_helper) : Z := zlen (h_iovec h).

(** What memory allocation answers, by encryption level: the address of a scratch buffer reallocated to a size, whether
    an array of vectors can grow to a size, whether the chunks of a packet can grow
    from a number, the record of a packet, a TX entry of the record layer, and the items
    of the sets of a packet's streams. *)
Record txp_alloc := mkAlloc {
  al_scratch : Z -> Z -> option Z; al_iovec : Z -> Z -> bool; al_chunk : Z -> Z -> bool; al_pkt : Z -> option Z; al_txe : Z -> bool;
  al_set : Z -> nat -> bool }.

Definition el_of (t : TXP) (enc_level : Z) : txp_el := tx_el t enc_level.
Definition set_el (t : TXP) (enc_level : Z) (e : txp_el) : TXP := t <| tx_el := fun l => if l =? enc_level then e else tx_el t l |>.

Section Helper.
Context (al : txp_alloc).

(** The scratch buffer grown to [n] bytes if it is smaller. *)
Definition grow_scratch (t : TXP) (enc_level n : Z) : TXP * bool :=
  let e := el_of t enc_level in
  if scratch_len e <? n then
    match al_scratch al enc_level n with
    | None => (t, false)
    | Some a => (set_el t enc_level (e <| scratch := Some a |> <| scratch_len := n |>), true)
    end
  else (t, true).

Definition tx_helper_init (t : TXP) (enc_level new_max_ppl new_reserve : Z) : TXP * option tx_helper :=
  if new_max_ppl <? new_reserve then (t, None)
  else
    match grow_scratch t enc_level new_max_ppl with
    | (t, false) => (t, None)
    | (t, true) => (t, Some (mkHelper new_max_ppl [] 0 0 new_reserve enc_level false false))
    end.

Definition tx_helper_expand_max_ppl (t : TXP) (h : tx_helper) (new_max_ppl : Z) : TXP * tx_helper * bool :=
  if new_max_ppl <=? max_ppl h then (t, h, true)
  else
    match grow_scratch t (h_enc_level h) new_max_ppl with
    | (t, false) => (t, h, false)
    | (t, true) => (t, h <| max_ppl := new_max_ppl |>, true)
    end.

Definition tx_helper_unrestrict (h : tx_helper) : tx_helper := h <| reserve_allowed := true |>.

(** The array at least doubles, starting with 8 vectors. *)
Definition txp_el_ensure_iovec (t : TXP) (enc_level num : Z) : TXP * bool :=
  let e := el_of t enc_level in
  if num <=? alloc_iovec e then (t, true)
  else
    let num := if alloc_iovec e =? 0 then 8 else alloc_iovec e *u 2 in
    if al_iovec al enc_level num then (set_el t enc_level (e <| alloc_iovec := num |>), true) else (t, false).

Definition tx_helper_append_iovec (t : TXP) (h : tx_helper) (base : option Z) (buf : bytes) : TXP * tx_helper * bool :=
  if zlen buf =? 0 then (t, h, true)
  else if done_implicit h then (t, h, false)
  else
    match txp_el_ensure_iovec t (h_enc_level h) (num_iovec h +u 1) with
    | (t, false) => (t, h, false)
    | (t, true) =>
        (t, h <| h_iovec := h_iovec h ++ [mkIov base buf] |> <| bytes_appended := bytes_appended h +u zlen buf |>, true)
    end.

Definition tx_helper_get_space_left (h : tx_helper) : Z :=
  max_ppl h -u (if reserve_allowed h then 0 else reserve h) -u bytes_appended h.

(** A writer over what may still be filled; NULL when there is no scratch memory left, even if nothing is to be
    written.  Every writer overwrites what it allocates, so the old contents of the buffer are shown as zeros. *)
Definition tx_helper_begin (t : TXP) (h : tx_helper) : option WPACKET :=
  if done_implicit h then None
  else
    let e := el_of t (h_enc_level h) in
    let len := scratch_len e -u scratch_bytes h in
    let space_left := tx_helper_get_space_left h in
    if len <? space_left then None
    else if len =? 0 then None
    else Some (mkWpkt [] (replicate (Z.to_nat space_left) 0)).

Definition tx_helper_commit (t : TXP) (h : tx_helper) (wpkt : WPACKET) : TXP * tx_helper * bool :=
  let l := zlen (wp_done wpkt) in
  match tx_helper_append_iovec t h (scratch (el_of t (h_enc_level h))) (wp_done wpkt) with
  | (t, h, false) => (t, h, false)
  | (t, h, true) => (t, h <| scratch_bytes := scratch_bytes h +u l |>, true)
  end.
End Helper.

(** ** How much fits *)

(** The header length, the payload length, and whether the choice is usable. *)
Definition try_len (space_left orig_len base_hdr_len lenbytes maxn : Z) : Z * Z * bool :=
  let hdr_len := base_hdr_len +u lenbytes in
  if (orig_len =? 0) && (hdr_len <=? space_left) then (hdr_len, 0, true)
  else
    let n := if maxn <? orig_len then maxn else orig_len in
    let n := if space_left <? n +u hdr_len then (if hdr_len <=? space_left then space_left -u hdr_len else 0) else n in
    (hdr_len, n, 0 <? n).

Definition OSSL_QUIC_VLINT_1B_MAX : Z := OSSL_QUIC_VLINT_2B_MIN - 1.
Definition OSSL_QUIC_VLINT_4B_MAX : Z := OSSL_QUIC_VLINT_8B_MIN - 1.
Definition OSSL_QUIC_VLINT_8B_MAX : Z := OSSL_QUIC_VLINT_MAX.

(** From the longest encoding to the shortest. *)
Definition len_choices (space_left orig_len base_hdr_len : Z) : list (Z * Z * bool) :=
  [try_len space_left orig_len base_hdr_len 8 OSSL_QUIC_VLINT_8B_MAX; try_len space_left orig_len base_hdr_len 4 OSSL_QUIC_VLINT_4B_MAX;
   try_len space_left orig_len base_hdr_len 2 OSSL_QUIC_VLINT_2B_MAX; try_len space_left orig_len base_hdr_len 1 OSSL_QUIC_VLINT_1B_MAX].

Definition better_len (best : Z * Z * bool) (choice : Z * Z * bool) : Z * Z * bool :=
  let '(_, chosen, _) := best in let '(_, n, valid) := choice in
  if valid && (chosen <=? n) then choice else best.

(** [Some (hlen, len)]. *)
Definition determine_len (space_left orig_len base_hdr_len : Z) : option (Z * Z) :=
  let '(hlen, len, ok) := foldl better_len (0, 0, false) (len_choices space_left orig_len base_hdr_len) in
  if ok : bool then Some (hlen, len) else None.

Definition determine_crypto_len (chdr : OSSL_QUIC_FRAME_CRYPTO) (space_left : Z) : option (Z * Z) :=
  let base_hdr_len := ossl_quic_wire_get_encoded_frame_len_crypto_hdr (mkFrameCrypto (fc_offset chdr) 0 (fc_data chdr)) in
  if base_hdr_len =? 0 then None else determine_len space_left (fc_len chdr) (base_hdr_len -u 1).

Definition determine_stream_len (shdr : OSSL_QUIC_FRAME_STREAM) (space_left : Z) : option (Z * Z) :=
  let base_hdr_len := ossl_quic_wire_get_encoded_frame_len_stream_hdr
    (mkFrameStream (fs_stream_id shdr) (fs_offset shdr) 0 (fs_data shdr) (fs_has_explicit_len shdr) (fs_is_fin shdr)) in
  if base_hdr_len =? 0 then None
  else determine_len space_left (fs_len shdr) (if fs_has_explicit_len shdr then base_hdr_len -u 1 else base_hdr_len).
