(* ===== verification/TxpGen.v ===== *)
(** * Generating the frames of one packet (ssl/quic/quic_txp.c, [txp_generate_for_el] and below)

    The generators run over the packetiser, the packet being staged and what is
    known of it so far.  A generator that returns 0 in the code, having changed what it
    changed, gives no value; [None] is a call that goes wrong (a missing object is
    dereferenced).  The members of the streams that only the packetiser uses ([txp_*])
    are kept in the packet's list of streams: 0-RTT and 1-RTT packets, the only ones
    with stream frames, are never in one datagram, as the channel provides no 0-RTT
    keys. *)

From S2P Require Import Prelude UintSet OsslTime FlowControl Congestion CcMethod Packet Wire WirePkt Qrl Qtx Ackm.
From S2P Require Import AckmTx AckmInv RingBuf Sstream SfList Rstream StreamMap Cfq Txpim Fifd Txp TxpHelper.

(** A stream of the packet and what was staged for it. *)
Record txp_stream := mkTs {
  ts_id : Z; txp_sent_fc : bool; txp_sent_stop_sending : bool; txp_sent_reset_stream : bool; txp_txfc_new_credit_consumed : Z }.
#[export] Instance eta_ts : Eta txp_stream := fun s =>
  mkTs (ts_id s) (txp_sent_fc s) (txp_sent_stop_sending s) (txp_sent_reset_stream s) (txp_txfc_new_credit_consumed s).

Record txp_pkt := mkPkt {
  p_h : tx_helper; h_valid : bool; p_tpkt : option Z; stream_head : list txp_stream; p_phdr : QUIC_PKT_HDR; p_geom : txp_pkt_geom;
  force_pad : bool }.
#[export] Instance eta_pkt : Eta txp_pkt := fun p =>
  mkPkt (p_h p) (h_valid p) (p_tpkt p) (stream_head p) (p_phdr p) (p_geom p) (force_pad p).

Section Generate.
Context {D : Type} `{OSSL_CC_METHOD D} `{OSSL_CC_TX D} `{QSort}.
Context (now : nat -> OSSL_TIME) (al : txp_alloc).
(** The bytes the encoded frames of the control frame queue hold. *)
Context (mem : Z -> bytes).

Abbreviation TXPW := (QUIC_FIFD D TXP).

Record gst := mkGst { g_w : TXPW; g_pkt : txp_pkt; have_ack_eliciting : bool; can_be_non_inflight : bool }.
#[export] Instance eta_gst : Eta gst := fun g => mkGst (g_w g) (g_pkt g) (have_ack_eliciting g) (can_be_non_inflight g).

Definition gen (A : Type) : Type := gst -> option (gst * option A).

Definition gret {A} (x : A) : gen A := fun g => Some (g, Some x).
Definition gfail {A} : gen A := fun g => Some (g, None).
Definition gbind {A B} (m : gen A) (k : A -> gen B) : gen B := fun g =>
  match m g with
  | None => None
  | Some (g, None) => Some (g, None)
  | Some (g, Some x) => k x g
  end.
(** [if (f()) ... else ...] *)
Definition gtry {A} (m : gen A) : gen (option A) := fun g => '(g, r) ← m g; Some (g, Some r).
Definition gread {A} (f : gst -> A) : gen A := fun g => Some (g, Some (f g)).
Definition gmodify (f : gst -> gst) : gen unit := fun g => Some (f g, Some tt).
(** An object the code takes for granted. *)
Definition gneed {A} (f : gst -> option A) : gen A := fun g => x ← f g; Some (g, Some x).
Definition gassert (b : bool) : gen unit := if b then gret tt else gfail.
Definition gwhen (b : bool) (m : gen unit) : gen unit := if b then m else gret tt.
#[local] Notation "x <- m ;; k" := (gbind m (fun x => k)) (at level 100, m at next level, right associativity).
#[local] Notation "m ;; k" := (gbind m (fun _ => k)) (at level 100, right associativity).

Definition g_t (g : gst) : TXP := ff_env (g_w g).
Definition g_h (g : gst) : tx_helper := p_h (g_pkt g).
Definition set_t (g : gst) (t : TXP) : gst := g <| g_w := (g_w g) <| ff_env := t |> |>.
Definition set_h (g : gst) (h : tx_helper) : gst := g <| g_pkt := (g_pkt g) <| p_h := h |> |>.
Definition g_level (g : gst) : Z := h_enc_level (g_h g).
Definition g_space (g : gst) : pn_space := ossl_quic_enc_level_to_pn_space (g_level g).
Definition g_adata (g : gst) : archetype_data := adata (p_geom (g_pkt g)).

(** ** The helper in the monad *)

Definition space_left : gen Z := gread (fun g => tx_helper_get_space_left (g_h g)).

(** An operation of the helper that returns whether it succeeds. *)
Definition helper_op (f : TXP -> tx_helper -> TXP * tx_helper * bool) : gen bool := fun g =>
  let '(t, h, ok) := f (g_t g) (g_h g) in Some (set_h (set_t g t) h, Some ok).

Definition begin_frame : gen WPACKET := fun g => Some (g, tx_helper_begin (g_t g) (g_h g)).
Definition commit_frame (wpkt : WPACKET) : gen unit := ok <- helper_op (fun t h => tx_helper_commit al t h wpkt);; gassert ok.
Definition append_iovec (base : option Z) (buf : bytes) : gen bool := helper_op (fun t h => tx_helper_append_iovec al t h base buf).
Definition ensure_iovec (more : Z) : gen unit :=
  ok <- helper_op (fun t h => let '(t, ok) := txp_el_ensure_iovec al t (h_enc_level h) (num_iovec h +u more) in (t, h, ok));; gassert ok.
Definition unrestrict : gen unit := gmodify (fun g => set_h g (tx_helper_unrestrict (g_h g))).
Definition ack_eliciting : gen unit := gmodify (fun g => g <| have_ack_eliciting := true |>) ;; unrestrict.

Definition upd_tpkt (f : QUIC_TXPIM_PKT -> QUIC_TXPIM_PKT) : gen unit := fun g =>
  id ← p_tpkt (g_pkt g);
  _ ← tpim_pkts (ff_txpim (g_w g)) !! id;
  Some (g <| g_w := (g_w g) <| ff_txpim := tpim_upd (ff_txpim (g_w g)) id f |> |>, Some tt).

(** A failed reallocation is an error of the packet. *)
Definition append_chunk (chunk : QUIC_TXPIM_CHUNK) : gen unit := fun g =>
  id ← p_tpkt (g_pkt g);
  tp ← tpim_pkts (ff_txpim (g_w g)) !! id;
  let '(tp, ok) := ossl_quic_txpim_pkt_append_chunk (al_chunk al (g_level g) (zlen (tp_chunks tp))) tp chunk in
  Some (g <| g_w := (g_w g) <| ff_txpim := tpim_upd (ff_txpim (g_w g)) id (fun _ => tp) |> |>, if ok : bool then Some tt else None).

(** A control frame in a transaction: whether it fits; if so [sent] is done and it is committed. *)
Definition write_frame (enc : writer) (sent : gen unit) : gen bool :=
  wpkt <- begin_frame;;
  (match enc wpkt with
   | (wpkt, true) => sent ;; commit_frame wpkt ;; gret true
   | (_, false) => gret false
   end).

(** ** ACK and CONNECTION_CLOSE frames *)

Definition is_ack_desired : gen bool := fun g =>
  let '(d, m) := ossl_ackm_is_ack_desired now (ff_ackm (g_w g)) (g_space g) in
  Some (g <| g_w := (g_w g) <| ff_ackm := m |> |>, Some d).
Definition get_ack_frame : gen OSSL_QUIC_FRAME_ACK := fun g =>
  let '(m, ack) := ossl_ackm_get_ack_frame now (ff_ackm (g_w g)) (g_space g) in
  Some (g <| g_w := (g_w g) <| ff_ackm := m |> |>, Some ack).

(** The frame that is sent at a level. *)
Definition conn_close_for (s : pn_space) (f : OSSL_QUIC_FRAME_CONN_CLOSE) : OSSL_QUIC_FRAME_CONN_CLOSE :=
  if negb (is_space s QUIC_PN_SPACE_APP) && cc_is_app f then mkFrameConnClose false OSSL_QUIC_ERR_APPLICATION_ERROR 0 [] 0 else f.

Definition generate_ack : gen unit :=
  a <- gread g_adata;;
  left <- space_left;;
  s <- gread g_space;;
  want <- gread (fun g => has_bit (want_ack (g_t g)) s);;
  desired <- (if allow_ack a && (MIN_FRAME_SIZE_ACK <=? left) then (if want then gret true else is_ack_desired) else gret false);;
  gwhen desired
    (ack <- get_ack_frame;;
     e <- gread (fun g => tx_ack_delay_exponent (g_t g));;
     wpkt <- begin_frame;;
     match ossl_quic_wire_encode_frame_ack e (ack <| ack_ecn_present := false |>) wpkt with
     | (_, false) => gret tt
     | (wpkt, true) =>
         commit_frame wpkt ;;
         upd_tpkt (fun tp => tp <| had_ack_frame := true |>) ;;
         gwhen (0 <? num_ack_ranges ack)
           (largest <- gneed (fun _ => ar_end <$> head (ack_ranges ack));;
            upd_tpkt (fun tp => tp <| tp_ackm_pkt := mkTxPkt (pkt_num (tp_ackm_pkt tp)) (num_bytes (tp_ackm_pkt tp)) (pkt_time (tp_ackm_pkt tp)) largest
                                         (pkt_space (tp_ackm_pkt tp)) (is_inflight (tp_ackm_pkt tp)) (is_ack_eliciting (tp_ackm_pkt tp))
                                         (is_pto_probe (tp_ackm_pkt tp)) (is_mtu_probe (tp_ackm_pkt tp)) |>))
     end).

Definition generate_conn_close (chosen_for_conn_close : bool) : gen unit :=
  a <- gread g_adata;;
  t <- gread g_t;;
  s <- gread g_space;;
  gwhen (allow_conn_close a && want_conn_close t && chosen_for_conn_close)
    (wpkt <- begin_frame;;
     match ossl_quic_wire_encode_frame_conn_close (conn_close_for s (conn_close_frame t)) wpkt with
     | (_, false) => gret tt
     | (wpkt, true) =>
         let '(t, ok) := try_commit_conn_close t (zlen (wp_done wpkt)) in
         gmodify (fun g => set_t g t) ;;
         gwhen ok
           (commit_frame wpkt ;;
            upd_tpkt (fun tp => tp <| had_conn_close := true |>) ;;
            gmodify (fun g => g <| can_be_non_inflight := false |>))
     end).

Definition clear_largest_acked (tp : QUIC_TXPIM_PKT) : QUIC_TXPIM_PKT :=
  let p := tp_ackm_pkt tp in
  tp <| tp_ackm_pkt := mkTxPkt (pkt_num p) (num_bytes p) (pkt_time p) UINT64_MAX (pkt_space p) (is_inflight p) (is_ack_eliciting p)
                         (is_pto_probe p) (is_mtu_probe p) |>.

Definition txp_generate_pre_token (chosen_for_conn_close : bool) : gen unit :=
  upd_tpkt clear_largest_acked ;; generate_ack ;; generate_conn_close chosen_for_conn_close.

(** ** CRYPTO frames *)

Fixpoint append_all (iov : list bytes) : gen unit :=
  match iov with
  | [] => gret tt
  | v :: iov => append_iovec None v ;; append_all iov
  end.

(** [i] is the index of the next chunk of the stream; the loop over the vectors of
    a frame uses the same variable, so it starts again from their number.  Every
    frame takes at least one byte. *)
Fixpoint crypto_loop (fuel : nat) (ss : QUIC_SSTREAM) (i : Z) : gen unit :=
  match fuel with
  | O => fun _ => None
  | S fuel =>
      left <- space_left;;
      if left <? MIN_FRAME_SIZE_CRYPTO then gret tt
      else
        match ossl_quic_sstream_get_stream_frame ss i 2 with
        | None => gret tt
        | Some (shdr, iov) =>
            if h_len shdr =? 0 then gret tt
            else
              match determine_crypto_len (mkFrameCrypto (h_offset shdr) (h_len shdr) None) left with
              | None => gret tt
              | Some (_, len) =>
                  let iov := ossl_quic_sstream_adjust_iov len iov in
                  ensure_iovec 3 ;;
                  fits <- write_frame (ossl_quic_wire_encode_frame_crypto_hdr (mkFrameCrypto (h_offset shdr) len None)) (gret tt);;
                  if negb fits then gret tt
                  else
                    append_all iov ;;
                    ack_eliciting ;;
                    append_chunk (mkChunk UINT64_MAX (h_offset shdr) (h_offset shdr +u len -u 1) false false false) ;;
                    crypto_loop fuel ss (zlen iov +u 1)
              end
        end
  end.

Definition txp_generate_crypto_frames : gen unit :=
  ss <- gneed (fun g => sget (tx_crypto (g_t g)) (g_space g));;
  left <- space_left;;
  crypto_loop (S (Z.to_nat left)) ss 0.

(** ** STREAM frames *)

Record chunk_info := mkInfo { ci_shdr : stream_hdr; ci_orig_len : Z; ci_iov : list bytes }.

(** The inner [None]: not [valid]; the outer: the return value 0, as the stream offers an empty chunk. *)
Definition txp_plan_stream_chunk (ss : QUIC_SSTREAM) (txfc conn : QUIC_TXFC) (skip consumed : Z) : option (option chunk_info) :=
  match ossl_quic_sstream_get_stream_frame ss skip 2 with
  | None => Some None
  | Some (shdr, iov) =>
      if negb ((0 <? h_len shdr) || h_is_fin shdr) then None
      else
        let fc_credit := ossl_quic_txfc_get_credit txfc (Some conn) consumed in
        let fc_swm := ossl_quic_txfc_get_swm txfc in
        let fc_limit := fc_swm +u fc_credit in
        let shdr' :=
          if (0 <? h_len shdr) && (fc_limit <? h_offset shdr +u h_len shdr)
          then mkHdr (h_offset shdr) (if fc_limit <=? h_offset shdr then 0 else fc_limit -u h_offset shdr) false else shdr in
        if (h_len shdr' =? 0) && negb (h_is_fin shdr') then Some None
        else Some (Some (mkInfo shdr' (h_len shdr) iov))
  end.

Definition frame_of (id : Z) (shdr : stream_hdr) (explicit : bool) (len : Z) (fin : bool) : OSSL_QUIC_FRAME_STREAM :=
  mkFrameStream id (h_offset shdr) len None explicit fin.

Section StreamFrames.
Context (id : Z) (ss : QUIC_SSTREAM) (txfc conn : QUIC_TXFC) (has_next_stream : bool) (consumed : Z).

(** The loop from chunk [i] on: [cur] is that chunk and [next] the next one, planned before when
    [i] is 0.  [full] is [*packet_full] and [hwm] the new high water mark; both
    are given back. *)
Fixpoint stream_loop (fuel : nat) (i : Z) (cur next : option chunk_info) (full : bool) (hwm : Z) : gst -> option (gst * (bool * Z * bool)) :=
  match fuel with
  | O => fun _ => None
  | S fuel => fun g =>
      let stop g := Some (g, (full, hwm, true)) in
      let filled g := Some (g, (true, hwm, true)) in
      let left := tx_helper_get_space_left (g_h g) in
      match cur with
      | None => stop g
      | Some c =>
          if left <? MIN_FRAME_SIZE_STREAM then filled g
          else if done_implicit (g_h g) then Some (g, (full, hwm, false))
          else
            match (if 0 <? i then txp_plan_stream_chunk ss txfc conn (i +u 1) consumed else Some next) with
            | None => Some (g, (full, hwm, false))
            | Some next =>
                let shdr := ci_shdr c in
                match determine_stream_len (frame_of id shdr false (h_len shdr) (h_is_fin shdr)) left with
                | None => filled g
                | Some (hdr_len_implicit, payload_len_implicit) =>
                    let can_fill_payload := left <=? hdr_len_implicit +u payload_len_implicit in
                    let could_have_following_chunk := has_next_stream || bool_decide (is_Some next) in
                    let use_explicit_len := negb ((can_fill_payload || negb could_have_following_chunk) && negb (force_pad (g_pkt g))) in
                    match (if use_explicit_len then snd <$> determine_stream_len (frame_of id shdr true (h_len shdr) (h_is_fin shdr)) left
                           else Some payload_len_implicit) with
                    | None => filled g
                    | Some len =>
                        let full := full || negb use_explicit_len in
                        let next := if h_is_fin shdr then None else next in
                        let fin := if len <? ci_orig_len c then false else h_is_fin shdr in
                        let iov := ossl_quic_sstream_adjust_iov len (ci_iov c) in
                        let write : gen bool :=
                          ensure_iovec 3 ;; write_frame (ossl_quic_wire_encode_frame_stream_hdr (frame_of id shdr use_explicit_len len fin)) (gret tt) in
                        let record : gen unit :=
                          append_all iov ;; ack_eliciting ;;
                          gwhen (negb use_explicit_len) (gmodify (fun g => set_h g ((g_h g) <| done_implicit := true |>))) in
                        let hwm' := if (0 <? len) && (hwm <? h_offset shdr +u len) then h_offset shdr +u len else hwm in
                        match write g with
                        | None => None
                        | Some (g, None) => Some (g, (full, hwm, false))
                        | Some (g, Some false) => Some (g, (true, hwm, true))
                        | Some (g, Some true) =>
                            match (record ;; append_chunk (mkChunk id (h_offset shdr) (h_offset shdr +u len -u 1) fin false false)) g with
                            | None => None
                            | Some (g, None) => Some (g, (full, hwm', false))
                            | Some (g, Some _) =>
                                if len <? ci_orig_len c then Some (g, (full, hwm', true))
                                else stream_loop fuel (i +u 1) next None full hwm' g
                            end
                        end
                    end
                end
            end
      end
  end.

(** [*packet_full], [*new_credit_consumed] and the return value. *)
Definition txp_generate_stream_frames : gst -> option (gst * (bool * Z * bool)) := fun g =>
  let fc_swm := ossl_quic_txfc_get_swm txfc in
  match txp_plan_stream_chunk ss txfc conn 0 consumed with
  | None => Some (g, (false, 0, false))
  | Some None => Some (g, (false, 0, true))
  | Some (Some c0) =>
      match txp_plan_stream_chunk ss txfc conn 1 consumed with
      | None => Some (g, (false, 0, false))
      | Some c1 =>
          '(g, (full, hwm, ok)) ← stream_loop (S (Z.to_nat (tx_helper_get_space_left (g_h g)))) 0 (Some c0) c1 false fc_swm g;
          Some (g, (full, hwm -u fc_swm, ok))
      end
  end.
End StreamFrames.

(** ** The frames of streams *)

Definition enlink (ts : txp_stream) : gen unit := gmodify (fun g => g <| g_pkt := (g_pkt g) <| stream_head := ts :: stream_head (g_pkt g) |> |>).

Definition get_stream (id : Z) : gen QUIC_STREAM := gneed (fun g => ossl_quic_stream_map_get_by_id (tx_qsm (g_t g)) id).

(** Whether the frame fits; if so it makes the packet ack-eliciting. *)
Definition send_frame (enc : writer) : gen bool :=
  fits <- write_frame enc (gret tt);;
  gwhen fits ack_eliciting ;; gret fits.

(** The frame and the credit it is said to consume. *)
Definition send_reset (s : QUIC_STREAM) : gen (option Z) :=
  gassert (bool_decide (qs_send_state s = QUIC_SSTREAM_STATE_RESET_SENT)) ;;
  wpkt <- begin_frame;;
  size <- gneed (fun _ => ossl_quic_stream_send_get_final_size s);;
  match size with
  | None => gfail
  | Some size =>
      match ossl_quic_wire_encode_frame_reset_stream (mkFrameResetStream (qs_id s) (qs_reset_stream_aec s) size) wpkt with
      | (_, false) => gret None
      | (wpkt, true) =>
          commit_frame wpkt ;; ack_eliciting ;;
          gassert (size <=? ossl_quic_txfc_get_swm (qs_txfc s)) ;;
          gret (Some (size -u ossl_quic_txfc_get_swm (qs_txfc s)))
      end
  end.

(** One stream: the credit consumed by the streams so far, or [None] to stop. *)
Definition visit_stream (id : Z) (has_next : bool) (consumed : Z) : gen (option Z) :=
  s <- get_stream id;;
  conn <- gread (fun g => tx_conn_txfc (g_t g));;
  let ts := mkTs id false false false 0 in
  fits <- (if qs_want_stop_sending s
           then send_frame (ossl_quic_wire_encode_frame_stop_sending (mkFrameStopSending (qs_id s) (qs_stop_sending_aec s))) else gret true);;
  if negb fits then enlink ts ;; gret None
  else
    let ts := ts <| txp_sent_stop_sending := qs_want_stop_sending s |> in
    reset <- (if qs_want_reset_stream s then send_reset s else gret (Some 0));;
    match reset with
    | None => enlink ts ;; gret None
    | Some credit =>
        let ts := ts <| txp_sent_reset_stream := qs_want_reset_stream s |> <| txp_txfc_new_credit_consumed := credit |> in
        let want_fc := bool_decide (qs_recv_state s = QUIC_RSTREAM_STATE_RECV) && (qs_want_max_stream_data s || rxfc_wants (qs_rxfc s)) in
        fits <- (if want_fc then send_frame (ossl_quic_wire_encode_frame_max_stream_data (qs_id s) (ossl_quic_rxfc_get_cwm (qs_rxfc s))) else gret true);;
        if negb fits then enlink ts ;; gret None
        else
          let ts := ts <| txp_sent_fc := want_fc |> in
          if ossl_quic_stream_has_send_buffer s && negb (ossl_quic_stream_send_is_reset s) then
            gassert (negb (qs_want_reset_stream s)) ;;
            ss <- gneed (fun _ => qs_sstream s);;
            r <- (fun g => '(g, r) ← txp_generate_stream_frames (qs_id s) ss (qs_txfc s) conn has_next consumed g; Some (g, Some r));;
            let '(packet_full, credit, ok) := r in
            let ts := ts <| txp_txfc_new_credit_consumed := credit |> in
            enlink ts ;;
            gassert ok ;;
            gret (if packet_full : bool then None else Some (consumed +u credit))
          else enlink ts ;; gret (Some consumed)
    end.

Fixpoint stream_visits (fuel : nat) (it : QUIC_STREAM_ITER) (consumed : Z) : gen unit :=
  match it_stream it with
  | None => gret tt
  | Some id =>
      match fuel with
      | O => fun _ => None
      | S fuel =>
          it' <- gread (fun g => ossl_quic_stream_iter_next (tx_qsm (g_t g)) it);;
          r <- visit_stream id (bool_decide (is_Some (it_stream it'))) consumed;;
          match r with
          | None => gret tt
          | Some consumed => stream_visits fuel it' consumed
          end
      end
  end.

Definition txp_generate_stream_related : gen unit := fun g =>
  let '(it, q) := ossl_quic_stream_iter_init (tx_qsm (g_t g)) true in
  stream_visits (length (active_list q)) it 0 (set_t g ((g_t g) <| tx_qsm := q |>)).

(** ** The packet *)

(** A frame regenerated from the state of the connection. *)
Definition regenerate (want : bool) (min_size : Z) (enc : writer) (flag : QUIC_TXPIM_PKT -> QUIC_TXPIM_PKT) : gen unit :=
  left <- space_left;;
  gwhen (want && (min_size <=? left))
    (fits <- write_frame enc (upd_tpkt flag ;; gmodify (fun g => g <| have_ack_eliciting := true |>));;
     gwhen fits unrestrict).

Definition generate_max_streams (is_uni : bool) : gen unit :=
  t <- gread g_t;;
  rxfc <- gneed (fun _ => if is_uni then max_streams_uni_rxfc (tx_qsm t) else max_streams_bidi_rxfc (tx_qsm t));;
  regenerate ((if is_uni then want_max_streams_uni t else want_max_streams_bidi t) || rxfc_wants rxfc)
    (if is_uni then MIN_FRAME_SIZE_MAX_STREAMS_UNI else MIN_FRAME_SIZE_MAX_STREAMS_BIDI)
    (ossl_quic_wire_encode_frame_max_streams is_uni (ossl_quic_rxfc_get_cwm rxfc))
    (fun tp => if is_uni then tp <| had_max_streams_uni_frame := true |> else tp <| had_max_streams_bidi_frame := true |>).

Definition generate_flow_control : gen unit :=
  a <- gread g_adata;;
  t <- gread g_t;;
  regenerate (allow_handshake_done a && want_handshake_done t) MIN_FRAME_SIZE_HANDSHAKE_DONE ossl_quic_wire_encode_frame_handshake_done
    (fun tp => tp <| had_handshake_done_frame := true |>) ;;
  regenerate (allow_conn_fc a && (want_max_data t || rxfc_wants (tx_conn_rxfc t))) MIN_FRAME_SIZE_MAX_DATA
    (ossl_quic_wire_encode_frame_max_data (ossl_quic_rxfc_get_cwm (tx_conn_rxfc t))) (fun tp => tp <| had_max_data_frame := true |>) ;;
  gwhen (allow_conn_fc a) (generate_max_streams false ;; generate_max_streams true).

(** A queued frame that is allowed; whether the walk goes on. *)
Definition take_cfq_item (item : Z) (i : QUIC_CFQ_ITEM_EX) : gen bool :=
  left <- space_left;;
  if left <? ossl_quic_cfq_item_get_encoded_len i then gret false
  else
    bs <- gneed (fun _ => let bs := match ossl_quic_cfq_item_get_encoded i with Some p => mem p | None => [] end in
                          if zlen bs =? ossl_quic_cfq_item_get_encoded_len i then Some bs else None);;
    ok <- append_iovec None bs;;
    gassert ok ;;
    (fun g =>
       id ← p_tpkt (g_pkt g);
       tp ← tpim_pkts (ff_txpim (g_w g)) !! id;
       let '(tp, c) := ossl_quic_txpim_pkt_add_cfq_item tp (ff_cfq (g_w g)) item in
       Some (g <| g_w := (g_w g) <| ff_txpim := tpim_upd (ff_txpim (g_w g)) id (fun _ => tp) |> <| ff_cfq := c |> |>, Some tt)) ;;
    gwhen (ossl_quic_frame_type_is_ack_eliciting (ossl_quic_cfq_item_get_frame_type i)) ack_eliciting ;;
    gret true.

(** The walk over the queue; gives [done_pre_token]. *)
Fixpoint cfq_frames (fuel : nat) (chosen : bool) (done_pre_token : bool) (cfq_item : option Z) : gen bool :=
  match cfq_item with
  | None => gret done_pre_token
  | Some item =>
      match fuel with
      | O => fun _ => None
      | S fuel =>
          a <- gread g_adata;;
          s <- gread g_space;;
          i <- gneed (fun g => cfq_items (ff_cfq (g_w g)) !! item);;
          let frame_type := ossl_quic_cfq_item_get_frame_type i in
          let next : gen (option Z) := gneed (fun g => ossl_quic_cfq_item_get_priority_next (ff_cfq (g_w g)) (Some item) (space_num s)) in
          if negb (cfq_frame_allowed a frame_type) then (n <- next;; cfq_frames fuel chosen done_pre_token n)
          else
            done_pre_token <- (if (frame_type =? OSSL_QUIC_FRAME_TYPE_NEW_TOKEN) && negb done_pre_token
                               then (r <- gtry (txp_generate_pre_token chosen);; gret (bool_decide (is_Some r))) else gret done_pre_token);;
            gwhen (frame_type =? OSSL_QUIC_FRAME_TYPE_PATH_RESPONSE) (gmodify (fun g => g <| g_pkt := (g_pkt g) <| force_pad := true |> |>)) ;;
            go <- take_cfq_item item i;;
            if go : bool then (n <- next;; cfq_frames fuel chosen done_pre_token n) else gret done_pre_token
      end
  end.

Definition generate_ping : gen unit :=
  unrestrict ;;
  a <- gread g_adata;;
  s <- gread g_space;;
  need <- gread (fun g => negb (have_ack_eliciting g) && txp_need_ping (g_t g) s a);;
  gwhen need
    (wpkt <- begin_frame;;
     match ossl_quic_wire_encode_frame_ping wpkt with
     | (_, false) => gfail
     | (wpkt, true) => commit_frame wpkt ;; gmodify (fun g => g <| have_ack_eliciting := true |>)
     end).

(** The clock is read and the record of the packet filled in. *)
Definition fill_ackm_pkt : gen unit :=
  t <- (fun g => let '(t, m) := read_now now (ff_ackm (g_w g)) in Some (g <| g_w := (g_w g) <| ff_ackm := m |> |>, Some t));;
  s <- gread g_space;;
  pn <- gread (fun g => sget (next_pn (g_t g)) s);;
  bytes <- gread (fun g => bytes_appended (g_h g) +u pkt_overhead (p_geom (g_pkt g)));;
  elicit <- gread have_ack_eliciting;;
  inflight <- gread (fun g => negb (can_be_non_inflight g && negb (have_ack_eliciting g)));;
  type <- gread (fun g => ph_type (p_phdr (g_pkt g)));;
  upd_tpkt (fun tp => tp <| tp_ackm_pkt := mkTxPkt pn bytes t (largest_acked (tp_ackm_pkt tp)) s inflight elicit false false |>
                         <| tp_pkt_type := type |>).

Definition generate_frames (chosen_for_conn_close : bool) : gen unit :=
  generate_flow_control ;;
  first <- gneed (fun g => ossl_quic_cfq_get_priority_head (ff_cfq (g_w g)) (space_num (g_space g)));;
  fuel <- gread (fun g => length (new_list (ff_cfq (g_w g))));;
  done <- cfq_frames fuel chosen_for_conn_close false first;;
  gwhen (negb done) (_ <- gtry (txp_generate_pre_token chosen_for_conn_close);; gret tt) ;;
  a <- gread g_adata;;
  gwhen (allow_crypto a) txp_generate_crypto_frames ;;
  complete <- gread (fun g => handshake_complete (g_t g));;
  gwhen (allow_stream_rel a && complete) txp_generate_stream_related ;;
  generate_ping ;;
  fill_ackm_pkt.

(** A new record for the packet. *)
Definition alloc_tpkt : gen unit := fun g =>
  '(t, r) ← ossl_quic_txpim_pkt_alloc (al_pkt al (g_level g)) (ff_txpim (g_w g));
  let g := g <| g_w := (g_w g) <| ff_txpim := t |> |> in
  match r with
  | None => Some (g, None)
  | Some id => Some (g <| g_pkt := (g_pkt g) <| p_tpkt := Some id |> |>, Some tt)
  end.

Definition release_tpkt (w : TXPW) (p : txp_pkt) : option (TXPW * txp_pkt) :=
  match p_tpkt p with
  | None => Some (w, p)
  | Some id => t ← ossl_quic_txpim_pkt_release (ff_txpim w) id; Some (w <| ff_txpim := t |>, p <| p_tpkt := None |>)
  end.

(** The packetiser and the packet after the generation, and whether it succeeds; a failed packet has
    given its record back. *)
Definition txp_generate_for_el (w : TXPW) (p : txp_pkt) (chosen_for_conn_close : bool) : option (TXPW * txp_pkt * bool) :=
  let s := ossl_quic_enc_level_to_pn_space (h_enc_level (p_h p)) in
  if negb (ossl_quic_pn_valid (sget (next_pn (ff_env w)) s)) || bool_decide (is_Some (p_tpkt p)) then Some (w, p, false)
  else
    '(g, r) ← (alloc_tpkt ;; generate_frames chosen_for_conn_close) (mkGst w p false true);
    match r with
    | Some _ => Some (g_w g, g_pkt g, true)
    | None => '(w, p) ← release_tpkt (g_w g) (g_pkt g); Some (w, p, false)
    end.
End Generate.
