(* ===== verification/TxpSend.v ===== *)
(** * Datagrams: padding, committing and sending the staged packets
    (ssl/quic/quic_txp.c, [txp_pkt_init], [txp_pkt_commit], [ossl_quic_tx_packetiser_generate])

    The packets of a datagram are a list with an entry per encryption level.  The
    vectors of a packet are read when it is handed to the record layer; a vector into
    a scratch block that has been freed in the meantime is a call that goes wrong. *)

From S2P Require Import Prelude UintSet OsslTime FlowControl Congestion CcMethod Packet Wire WirePkt Qrl Qtx Ackm.
From S2P Require Import AckmTx AckmInv RingBuf Sstream SfList Rstream StreamMap Cfq Txpim Fifd Txp TxpHelper TxpGen.

Definition TXP_ERR_INTERNAL : Z := 0.
Definition TXP_ERR_SUCCESS : Z := 1.
Definition TXP_ERR_SPACE : Z := 2.

Record QUIC_TXP_STATUS := mkStatus { sent_ack_eliciting : bool; sent_handshake : bool; sent_pkt : Z }.
#[export] Instance eta_status : Eta QUIC_TXP_STATUS := fun s => mkStatus (sent_ack_eliciting s) (sent_handshake s) (sent_pkt s).

Section Send.
Context {D : Type} `{OSSL_CC_METHOD D} `{OSSL_CC_TX D} `{QSort}.
Context (now : nat -> OSSL_TIME) (al : txp_alloc) (mem : Z -> bytes).
(** The record layer's library calls. *)
Context (sizeof_TXE : Z) (aead_seal : keyslot -> Z -> bytes -> bytes -> bytes -> option bytes).
Context (EVP_aes_ecb : bytes -> bytes -> option bytes) (EVP_chacha : bytes -> bytes -> bytes -> option bytes).

Abbreviation TXPW := (QUIC_FIFD D TXP).

Definition upd_env (w : TXPW) (f : TXP -> TXP) : TXPW := w <| ff_env := f (ff_env w) |>.
Definition upd_qtx (w : TXPW) (f : OSSL_QTX -> OSSL_QTX) : TXPW := upd_env w (fun t => t <| tx_qtx := f (tx_qtx t) |>).

(** ** Staging *)

(** A packet for which nothing was planned yet. *)
Definition no_pkt (t : TXP) (enc_level hwm : Z) : txp_pkt :=
  mkPkt (mkHelper 0 [] 0 0 0 enc_level false false) false None [] (txp_pkt_hdr t enc_level)
    (mkGeom 0 0 hwm 0 0 (archetypes enc_level 0)) false.

Definition txp_pkt_init (w : TXPW) (enc_level archetype running_total hwm : Z) : TXPW * option txp_pkt :=
  let t := ff_env w in
  match txp_determine_geometry t archetype enc_level running_total hwm with
  | None => (w, None)
  | Some (phdr, geom) =>
      let s := ossl_quic_enc_level_to_pn_space enc_level in
      match tx_helper_init al t enc_level (cmppl geom) (if txp_need_ping t s (adata geom) then 1 else 0) with
      | (t, None) => (w <| ff_env := t |>, None)
      | (t, Some h) => (w <| ff_env := t |>, Some (mkPkt h true None [] phdr geom false))
      end
  end.

(** The levels from the first of the list on, after packets whose sizes add up to [running_total].  The packets, whether padding is
    needed, and [false] if the generation of one failed. *)
Fixpoint stage_pkts (levels : list Z) (w : TXPW) (archetype cc_limit conn_close_enc_level running_total : Z)
  : option (TXPW * list txp_pkt * bool * bool) :=
  match levels with
  | [] => Some (w, [], false, true)
  | enc_level :: rest =>
      let skip (w : TXPW) total := no_pkt (ff_env w) enc_level total in
      let rest_of (w : TXPW) (ls : list Z) := (fun l => no_pkt (ff_env w) l 0) <$> ls in
      '(try_it, w, conn_close_enc_level) ← txp_should_try_staging now w enc_level archetype cc_limit conn_close_enc_level;
      if negb try_it then
        '(w, ps, pad, ok) ← stage_pkts rest w archetype cc_limit conn_close_enc_level running_total;
        Some (w, skip w running_total :: ps, pad, ok)
      else
        match txp_pkt_init w enc_level archetype running_total running_total with
        | (w, None) => Some (w, skip w running_total :: rest_of w rest, false, true)
        | (w, Some p) =>
            '(w, p, ok) ← txp_generate_for_el now al mem w p (conn_close_enc_level =? enc_level);
            if negb ok then Some (w, p :: rest_of w rest, false, false)
            else
              let total := running_total +u bytes_appended (p_h p) +u pkt_overhead (p_geom p) in
              let p := p <| p_geom := (p_geom p) <| hwm := total |> |> in
              '(w, ps, pad, ok) ← stage_pkts rest w archetype cc_limit conn_close_enc_level total;
              Some (w, p :: ps, force_pad p || pad, ok)
        end
  end.

(** ** Padding *)

Definition has_payload (p : txp_pkt) : bool := h_valid p && (0 <? bytes_appended (p_h p)).

(** The overhead with the length the payload really has; left alone for Initial packets and on a failure. *)
Definition txp_pkt_postgen_update_pkt_overhead (t : TXP) (p : txp_pkt) : txp_pkt * bool :=
  if h_enc_level (p_h p) =? QUIC_ENC_LEVEL_INITIAL then (p, true)
  else
    match ossl_qtx_calculate_ciphertext_payload_len (tx_qtx t) (h_enc_level (p_h p)) (bytes_appended (p_h p)) with
    | None => (p, false)
    | Some ciphertext_len =>
        let phdr := (p_phdr p) <| ph_len := ciphertext_len |> in
        let hdr_len := ossl_quic_wire_get_encoded_pkt_hdr_len (cid_id_len (ph_dst phdr)) phdr in
        (p <| p_phdr := phdr |> <| p_geom := (p_geom p) <| pkt_overhead := hdr_len +u ciphertext_len -u bytes_appended (p_h p) |> |>, true)
    end.

Definition txp_pkt_append_padding (w : TXPW) (p : txp_pkt) (num : Z) : option (TXPW * txp_pkt * bool) :=
  if num =? 0 then Some (w, p, true)
  else if negb (h_valid p) then Some (w, p, false)
  else
    match p_tpkt p with
    | None => Some (w, p, false)
    | Some id =>
        match tx_helper_begin (ff_env w) (p_h p) with
        | None => Some (w, p, false)
        | Some wpkt =>
            match ossl_quic_wire_encode_padding num wpkt with
            | (_, false) => Some (w, p, false)
            | (wpkt, true) =>
                match tx_helper_commit al (ff_env w) (p_h p) wpkt with
                | (t, h, false) => Some (w <| ff_env := t |>, p <| p_h := h |>, false)
                | (t, h, true) =>
                    _ ← tpim_pkts (ff_txpim w) !! id;
                    let pad tp :=
                      let q := tp_ackm_pkt tp in
                      tp <| tp_ackm_pkt := mkTxPkt (pkt_num q) (num_bytes q +u num) (pkt_time q) (largest_acked q) (pkt_space q) true
                                             (is_ack_eliciting q) (is_pto_probe q) (is_mtu_probe q) |> in
                    Some (w <| ff_env := t |> <| ff_txpim := tpim_upd (ff_txpim w) id pad |>, p <| p_h := h |>, true)
                end
            end
        end
    end.

(** The loop over the packets of the datagram: [pad_el] is the first packet that can be padded. *)
Fixpoint measure_pkts (w : TXPW) (ps : list txp_pkt) (pad_el : option Z) (total : Z) : TXPW * list txp_pkt * option Z * Z * bool :=
  match ps with
  | [] => (w, [], pad_el, total, true)
  | p :: rest =>
      if has_payload p then
        let pad_el := match pad_el with
                      | None => if allow_padding (adata (p_geom p)) && negb (done_implicit (p_h p)) then Some (h_enc_level (p_h p)) else None
                      | Some _ => pad_el
                      end in
        let '(p, _) := txp_pkt_postgen_update_pkt_overhead (ff_env w) p in
        let '(w, p, ok) :=
          if pkt_overhead (p_geom p) <=? cmpl (p_geom p) then
            let '(t, h, ok) := tx_helper_expand_max_ppl al (ff_env w) (p_h p) (cmpl (p_geom p) -u pkt_overhead (p_geom p)) in
            (w <| ff_env := t |>, if ok : bool then p <| p_h := h |> <| p_geom := (p_geom p) <| cmppl := max_ppl h |> |> else p, ok)
          else (w, p, true) in
        if negb ok then (w, p :: rest, pad_el, total, false)
        else
          let total := total +u (pkt_overhead (p_geom p) +u bytes_appended (p_h p)) in
          let '(w, rest, pad_el, total, ok) := measure_pkts w rest pad_el total in
          (w, p :: rest, pad_el, total, ok)
      else
        let '(w, rest, pad_el, total, ok) := measure_pkts w rest pad_el total in
        (w, p :: rest, pad_el, total, ok)
  end.

(** The packet of the level padded, marked as in flight. *)
Fixpoint pad_level (w : TXPW) (ps : list txp_pkt) (pad_el num : Z) : option (TXPW * list txp_pkt * bool) :=
  match ps with
  | [] => Some (w, [], false)
  | p :: rest =>
      if h_enc_level (p_h p) =? pad_el then
        '(w, p, ok) ← txp_pkt_append_padding w p num; Some (w, p :: rest, ok)
      else '(w, rest, ok) ← pad_level w rest pad_el num; Some (w, p :: rest, ok)
  end.

(** The third phase: [Some code] ends the call. *)
Definition adjust_pkts (w : TXPW) (ps : list txp_pkt) (need_padding : bool) : option (TXPW * list txp_pkt * option Z) :=
  if negb need_padding then Some (w, ps, None)
  else
    let '(w, ps, pad_el, total, ok) := measure_pkts w ps None 0 in
    if negb ok then Some (w, ps, Some 0)
    else
      '(w, ps, total, ok) ← (match pad_el with
                             | Some l =>
                                 if total <? QUIC_MIN_INITIAL_DGRAM_LEN then
                                   let deficit := QUIC_MIN_INITIAL_DGRAM_LEN -u total in
                                   '(w, ps, ok) ← pad_level w ps l deficit; Some (w, ps, total +u deficit, ok)
                                 else Some (w, ps, total, true)
                             | None => Some (w, ps, total, true)
                             end);
      if negb ok then Some (w, ps, Some 0)
      else if total <? QUIC_MIN_INITIAL_DGRAM_LEN then Some (w, ps, Some 1)
      else Some (w, ps, None).

(** ** Commit *)

(** The bytes of the vectors can be read: those in scratch memory are in the current block. *)
Definition vectors_valid (t : TXP) (h : tx_helper) : bool :=
  forallb (fun v => match iov_base v with None => true | Some a => bool_decide (scratch (el_of t (h_enc_level h)) = Some a) end) (h_iovec h).

(** Chunks for the streams of which STOP_SENDING or RESET_STREAM was sent. *)
Fixpoint append_abort_chunks (enc_level : Z) (tp : QUIC_TXPIM_PKT) (streams : list txp_stream) : QUIC_TXPIM_PKT * bool :=
  match streams with
  | [] => (tp, true)
  | ts :: rest =>
      if txp_sent_stop_sending ts || txp_sent_reset_stream ts then
        match ossl_quic_txpim_pkt_append_chunk (al_chunk al enc_level (zlen (tp_chunks tp))) tp
                (mkChunk (ts_id ts) UINT64_MAX 0 false (txp_sent_stop_sending ts) (txp_sent_reset_stream ts)) with
        | (tp, false) => (tp, false)
        | (tp, true) => append_abort_chunks enc_level tp rest
        end
      else append_abort_chunks enc_level tp rest
  end.

(** A stream after its frames were sent; the flag is the assertion on the credit. *)
Definition stream_sent (t : TXP) (ts : txp_stream) : option (TXP * bool) :=
  let id := ts_id ts in
  s ← ossl_quic_stream_map_get_by_id (tx_qsm t) id;
  let s := if txp_sent_fc ts then s <| qs_want_max_stream_data := false |> <| qs_rxfc := fst (ossl_quic_rxfc_has_cwm_changed (qs_rxfc s) true) |> else s in
  let s := if txp_sent_stop_sending ts then s <| qs_want_stop_sending := false |> else s in
  let s := if txp_sent_reset_stream ts then s <| qs_want_reset_stream := false |> else s in
  let '(s, conn, ok) :=
    if 0 <? txp_txfc_new_credit_consumed ts then
      let '(txfc, conn, ok) := ossl_quic_txfc_consume_credit (qs_txfc s) (Some (tx_conn_txfc t)) (txp_txfc_new_credit_consumed ts) in
      (s <| qs_txfc := txfc |>, default (tx_conn_txfc t) conn, ok)
    else (s, tx_conn_txfc t, true) in
  let t := t <| tx_qsm := qsm_upd (tx_qsm t) id (fun _ => s) |> <| tx_conn_txfc := conn |> in
  q ← ossl_quic_stream_map_update_state (txp_env t) (tx_qsm t) id;
  s ← ossl_quic_stream_map_get_by_id q id;
  q ← (if ossl_quic_stream_has_send_buffer s then
         ss ← qs_sstream s;
         if negb (ossl_quic_sstream_has_pending ss) && bool_decide (is_Some (ossl_quic_sstream_get_final_size ss))
         then fst <$> ossl_quic_stream_map_notify_all_data_sent q id else Some q
       else Some q);
  Some (t <| tx_qsm := q |>, ok).

Fixpoint streams_sent (t : TXP) (streams : list txp_stream) (rc : bool) : option (TXP * bool) :=
  match streams with
  | [] => Some (t, rc)
  | ts :: rest => '(t, ok) ← stream_sent t ts; streams_sent t rest (rc && ok)
  end.

Definition clear_bit (flags : Z) (s : pn_space) : Z := Z.land flags (Z.lnot (space_bit s)).
Definition clear_changed (r : QUIC_RXFC) : QUIC_RXFC := fst (ossl_quic_rxfc_has_cwm_changed r true).

(** The frames that were wanted are sent. *)
Definition flags_sent (t : TXP) (tp : QUIC_TXPIM_PKT) (s : pn_space) : TXP :=
  let t := if is_ack_eliciting (tp_ackm_pkt tp) then t <| force_ack_eliciting := clear_bit (force_ack_eliciting t) s |> else t in
  let t := if had_handshake_done_frame tp then t <| want_handshake_done := false |> else t in
  let t := if had_max_data_frame tp then t <| want_max_data := false |> <| tx_conn_rxfc := clear_changed (tx_conn_rxfc t) |> else t in
  let t := if had_max_streams_bidi_frame tp
           then t <| want_max_streams_bidi := false |>
                  <| tx_qsm := (tx_qsm t) <| max_streams_bidi_rxfc := clear_changed <$> max_streams_bidi_rxfc (tx_qsm t) |> |> else t in
  let t := if had_max_streams_uni_frame tp
           then t <| want_max_streams_uni := false |>
                  <| tx_qsm := (tx_qsm t) <| max_streams_uni_rxfc := clear_changed <$> max_streams_uni_rxfc (tx_qsm t) |> |> else t in
  let t := if had_ack_frame tp then t <| want_ack := clear_bit (want_ack t) s |> else t in
  if had_conn_close tp then t <| want_conn_close := false |> else t.

(** The probes that are still owed. *)
Definition probes_sent (pr : OSSL_ACKM_PROBE_INFO) (tp : QUIC_TXPIM_PKT) (a : archetype_data) (enc_level : Z) (s : pn_space) : OSSL_ACKM_PROBE_INFO :=
  if is_ack_eliciting (tp_ackm_pkt tp) then
    let pr := if (enc_level =? QUIC_ENC_LEVEL_INITIAL) && (0 <? anti_deadlock_initial pr)
              then pr <| anti_deadlock_initial := anti_deadlock_initial pr - 1 |> else pr in
    let pr := if (enc_level =? QUIC_ENC_LEVEL_HANDSHAKE) && (0 <? anti_deadlock_handshake pr)
              then pr <| anti_deadlock_handshake := anti_deadlock_handshake pr - 1 |> else pr in
    if allow_force_ack_eliciting a && (0 <? sget (pto pr) s) then pr <| pto := sset (pto pr) s (sget (pto pr) s - 1) |> else pr
  else pr.

(** The second result is [*txpim_pkt_reffed], the third the return value. *)
Definition txp_pkt_commit (w : TXPW) (p : txp_pkt) (archetype : Z) : option (TXPW * bool * bool) :=
  let enc_level := h_enc_level (p_h p) in
  let s := ossl_quic_enc_level_to_pn_space enc_level in
  if bytes_appended (p_h p) =? 0 then Some (w, false, false)
  else
    match txp_get_archetype_data enc_level archetype with
    | None => Some (w, false, false)
    | Some a =>
        id ← p_tpkt p;
        tp ← tpim_pkts (ff_txpim w) !! id;
        let pn := sget (next_pn (ff_env w)) s in
        let '(tp, ok) := append_abort_chunks enc_level tp (stream_head p) in
        let w := w <| ff_txpim := tpim_upd (ff_txpim w) id (fun _ => tp) |> in
        if negb ok then Some (w, false, false)
        else
          '(w, ok) ← ossl_quic_fifd_pkt_commit now (al_set al enc_level) w id;
          if negb ok then Some (w, false, false)
          else
            let w := upd_env w (fun t => t <| next_pn := sset (next_pn t) s (pn +u 1) |>) in
            '(q, ok) ← ossl_qtx_write_pkt sizeof_TXE aead_seal EVP_aes_ecb EVP_chacha (al_txe al enc_level) (tx_qtx (ff_env w))
                         (mkQpkt (Some (p_phdr p)) (h_iovec (p_h p)) pn true);
            if ok && negb (vectors_valid (ff_env w) (p_h p)) then None
            else
              let w := upd_qtx w (fun _ => q) in
              if negb ok then Some (w, true, false)
              else
                '(t, rc) ← streams_sent (ff_env w) (stream_head p) true;
                let m := ff_ackm w in
                let m := m <| a_pending_probe := probes_sent (ossl_ackm_get0_probe_request m) tp a enc_level s |> in
                Some (w <| ff_env := flags_sent t tp s |> <| ff_ackm := m |>, true, rc)
    end.

(** The fourth phase: the records that were not handed over stay with their packets; [None] as a code: all went well. *)
Fixpoint commit_pkts (w : TXPW) (ps : list txp_pkt) (archetype : Z) (status : QUIC_TXP_STATUS) (pkts_done : Z)
  : option (TXPW * list txp_pkt * QUIC_TXP_STATUS * Z * option Z) :=
  match ps with
  | [] => Some (w, [], status, pkts_done, None)
  | p :: rest =>
      if negb (has_payload p) then
        '(w, rest, status, n, r) ← commit_pkts w rest archetype status pkts_done; Some (w, p :: rest, status, n, r)
      else if negb (ossl_quic_tx_packetiser_check_unvalidated_credit (ff_env w) (bytes_appended (p_h p)))
      then Some (w, ps, status, pkts_done, Some TXP_ERR_SPACE)
      else
        let w := upd_env w (fun t => ossl_quic_tx_packetiser_consume_unvalidated_credit t (bytes_appended (p_h p))) in
        '(w, reffed, rc) ← txp_pkt_commit w p archetype;
        eliciting ← (if rc : bool then id ← p_tpkt p; tp ← tpim_pkts (ff_txpim w) !! id; Some (is_ack_eliciting (tp_ackm_pkt tp)) else Some false);
        let status :=
          if rc : bool then
            mkStatus (sent_ack_eliciting status || eliciting)
              (if h_enc_level (p_h p) =? QUIC_ENC_LEVEL_HANDSHAKE then has_payload p else sent_handshake status) (sent_pkt status)
          else status in
        let p := if reffed : bool then p <| p_tpkt := None |> else p in
        if negb rc then Some (w, p :: rest, status, pkts_done, Some 0)
        else '(w, rest, status, n, r) ← commit_pkts w rest archetype status (pkts_done +u 1); Some (w, p :: rest, status, n, r)
  end.

Definition txp_pkt_cleanup (w : TXPW) (p : txp_pkt) : option TXPW :=
  if negb (h_valid p) then Some w else fst <$> release_tpkt w p.

Fixpoint cleanup_pkts (w : TXPW) (ps : list txp_pkt) : option TXPW :=
  match ps with
  | [] => Some w
  | p :: rest => w ← txp_pkt_cleanup w p; cleanup_pkts w rest
  end.

Definition enc_levels : list Z := [QUIC_ENC_LEVEL_INITIAL; QUIC_ENC_LEVEL_0RTT; QUIC_ENC_LEVEL_HANDSHAKE; QUIC_ENC_LEVEL_1RTT].

(** Phases two to four: the packets as they are when cleaned up. *)
Definition generate_pkts (w : TXPW) (archetype cc_limit : Z) : option (TXPW * list txp_pkt * QUIC_TXP_STATUS * Z * Z) :=
  let status := mkStatus false false 0 in
  '(w, ps, need_padding, ok) ← stage_pkts enc_levels w archetype cc_limit QUIC_ENC_LEVEL_NUM 0;
  if negb ok then Some (w, ps, status, 0, 0)
  else
    let initial := match ps with p :: _ => has_payload p | [] => false end in
    '(w, ps, r) ← adjust_pkts w ps (need_padding || initial);
    match r with
    | Some res => Some (w, ps, status, 0, res)
    | None =>
        '(w, ps, status, n, r) ← commit_pkts w ps archetype status 0;
        Some (w, ps, status, n, default 1 r)
    end.

Definition ossl_quic_tx_packetiser_generate (w : TXPW) : option (TXPW * QUIC_TXP_STATUS * Z) :=
  let cc_limit := cc_get_tx_allowance (a_cc_data (ff_ackm w)) in
  let w := upd_qtx w ossl_qtx_finish_dgram in
  let archetype := txp_determine_archetype (ossl_ackm_get0_probe_request (ff_ackm w)) cc_limit in
  '(w, ps, status, n, res) ← generate_pkts w archetype cc_limit;
  let w := upd_qtx w ossl_qtx_finish_dgram in
  w ← cleanup_pkts w ps;
  Some (w, status <| sent_pkt := n |>, res).
End Send.
