(* ===== verification/TxpFrames.v ===== *)
(** * Frames of a packet: what a payload is made of

    A payload is a concatenation of frames.  Which frame types a packet may carry is
    the table of RFC 9000, section 12.4, by encryption level; what the writers of the
    frame encoders leave in a buffer when they succeed is [writes]. *)

From S2P Require Import Prelude OsslTime Packet Wire Qrl Qtx Ackm.

(** ** Frames *)

Inductive pframe :=
| PfFrame (f : qframe)
| PfAck (ack : OSSL_QUIC_FRAME_ACK).

Definition pf_type (f : pframe) : Z :=
  match f with PfFrame f => frame_type_of f | PfAck _ => OSSL_QUIC_FRAME_TYPE_ACK_WITHOUT_ECN end.
(** [e]: the exponent the sender of ACK frames announced. *)
Definition pf_bytes (e : Z) (f : pframe) : bytes :=
  match f with PfFrame f => frame_bytes f | PfAck ack => ack_bytes e ack end.
Definition pf_eliciting (f : pframe) : bool := ossl_quic_frame_type_is_ack_eliciting (pf_type f).
(** A STREAM frame that extends to the end of the packet. *)
Definition pf_implicit (f : pframe) : bool :=
  match f with PfFrame (F_STREAM s) => negb (fs_has_explicit_len s) | _ => false end.

(** The frames of a payload: a STREAM frame may be empty, a CRYPTO frame is not, and padding is not part of the
    payload: it is appended to the finished one. *)
Definition wf_read (f : qframe) (tl : bytes) : Prop :=
  match f with
  | F_CRYPTO c => wf_frame (F_CRYPTO c) tl /\ 0 < fc_len c
  | F_PADDING _ => False
  | _ => wf_frame f tl
  end.

Definition pf_wf (f : pframe) (tl : bytes) : Prop :=
  match f with PfFrame f => wf_read f tl | PfAck ack => wf_ack ack /\ ack_ecn_present ack = false end.

Definition pfs_bytes (e : Z) (fs : list pframe) : bytes := concat (pf_bytes e <$> fs).

(** Every frame is well formed where it stands. *)
Fixpoint pfs_wf (e : Z) (fs : list pframe) : Prop :=
  match fs with
  | [] => True
  | f :: rest => pf_wf f (pfs_bytes e rest) /\ pfs_wf e rest
  end.

Lemma pfs_bytes_app (e : Z) (fs gs : list pframe) : pfs_bytes e (fs ++ gs) = pfs_bytes e fs ++ pfs_bytes e gs.
Proof. unfold pfs_bytes. by rewrite fmap_app, concat_app. Qed.

Lemma pf_wf_tail (f : pframe) (tl tl' : bytes) : pf_wf f tl -> pf_implicit f = false -> pf_wf f tl'.
Proof.
  destruct f as [f|ack]; [|done]. destruct f; try done. cbn. intros (H1 & H2 & H3 & H4 & H5 & H6) Hi. split_and!; try done.
  intros He. rewrite He in Hi. done.
Qed.

(** A frame can follow frames of explicit length. *)
Lemma pfs_wf_snoc (e : Z) (fs : list pframe) (f : pframe) : pfs_wf e fs -> Forall (fun f => pf_implicit f = false) fs -> pf_wf f [] ->
  pfs_wf e (fs ++ [f]).
Proof.
  intros Hwf Hi Hf. induction fs as [|x fs IH]; [done|]. destruct Hwf as [Hx Hfs]. apply Forall_cons in Hi as [Hxi Hi].
  split; [by apply (pf_wf_tail x (pfs_bytes e fs))|by apply IH].
Qed.

(** RFC 9000, table 3: Initial and Handshake packets carry PADDING, PING, ACK, CRYPTO and the transport
    CONNECTION_CLOSE; 0-RTT packets no ACK, CRYPTO, NEW_TOKEN, PATH_RESPONSE and HANDSHAKE_DONE. *)
Definition permitted (enc_level frame_type : Z) : bool :=
  if (frame_type =? OSSL_QUIC_FRAME_TYPE_PADDING) || (frame_type =? OSSL_QUIC_FRAME_TYPE_PING)
     || (frame_type =? OSSL_QUIC_FRAME_TYPE_CONN_CLOSE_TRANSPORT) then true
  else if (frame_type =? OSSL_QUIC_FRAME_TYPE_ACK_WITHOUT_ECN) || (frame_type =? OSSL_QUIC_FRAME_TYPE_ACK_WITH_ECN)
          || (frame_type =? OSSL_QUIC_FRAME_TYPE_CRYPTO) then negb (enc_level =? QUIC_ENC_LEVEL_0RTT)
  else if (frame_type =? OSSL_QUIC_FRAME_TYPE_NEW_TOKEN) || (frame_type =? OSSL_QUIC_FRAME_TYPE_PATH_RESPONSE)
          || (frame_type =? OSSL_QUIC_FRAME_TYPE_HANDSHAKE_DONE) then enc_level =? QUIC_ENC_LEVEL_1RTT
  else (enc_level =? QUIC_ENC_LEVEL_0RTT) || (enc_level =? QUIC_ENC_LEVEL_1RTT).

(** ** What a successful writer wrote *)

Definition writes (a : writer) (bs : bytes) (P : Prop) : Prop := forall w w', a w = (w', true) ->
  wp_done w' = wp_done w ++ bs /\ zlen (wp_done w') + zlen (wp_rest w') = zlen (wp_done w) + zlen (wp_rest w) /\ P.

Lemma writes_ok : writes wok [] True.
Proof. intros w w' [= <-]. by rewrite app_nil_r. Qed.

Lemma writes_fail (bs : bytes) (P : Prop) : writes wfail bs P.
Proof. by intros w w' [=]. Qed.

Lemma writes_seq (a b : writer) (x y : bytes) (P Q : Prop) : writes a x P -> writes b y Q -> writes (a ;;; b) (x ++ y) (P /\ Q).
Proof.
  intros Ha Hb w w'. unfold wseq. destruct (a w) as [w1 []] eqn:Ea; [|done]. intros Eb.
  destruct (Ha _ _ Ea) as (A1 & A2 & A3), (Hb _ _ Eb) as (B1 & B2 & B3). idtac.
  split_and!; try done; [by rewrite B1, A1, app_assoc|lia].
Qed.

Lemma writes_put (bs : bytes) : writes (wput bs) bs True.
Proof.
  intros w w'. unfold wput, WPACKET_allocate_bytes, WPACKET_reserve_bytes.
  destruct (zlen bs =? 0); [done|]. destruct (Z.ltb_spec (zlen (wp_rest w)) (zlen bs)); [done|]. cbn. intros [= <-]. cbn.
  split_and!; [done| |done]. unfold zlen in *. rewrite length_app, length_drop. lia.
Qed.

Lemma encode_len_max (v : Z) : ossl_quic_vlint_encode_len v <> 0 -> v <= OSSL_QUIC_VLINT_MAX.
Proof.
  unfold ossl_quic_vlint_encode_len, OSSL_QUIC_VLINT_2B_MIN, OSSL_QUIC_VLINT_4B_MIN, OSSL_QUIC_VLINT_8B_MIN, OSSL_QUIC_VLINT_MAX.
  bdestruct_all; lia.
Qed.

Lemma writes_vlint (v : Z) : 0 <= v -> writes (WPACKET_quic_write_vlint v) (venc v) (vlint v).
Proof.
  intros Hv w w'. unfold WPACKET_quic_write_vlint. destruct (Z.eqb_spec (ossl_quic_vlint_encode_len v) 0) as [|Hn]; [done|].
  intros (? & ? & _)%writes_put. apply encode_len_max in Hn. split_and!; [done|done|]. unfold vlint. lia.
Qed.

Lemma writes_hdr (ty : Z) : writes (encode_frame_hdr ty) (venc ty) True.
Proof.
  intros w w'. unfold encode_frame_hdr, WPACKET_quic_write_vlint. case_match; [done|]. by intros ?%writes_put.
Qed.

Lemma writes_memcpy (bs : bytes) : writes (WPACKET_memcpy bs) bs True.
Proof.
  unfold WPACKET_memcpy. destruct (Z.eqb_spec (zlen bs) 0) as [E|]; [|apply writes_put].
  destruct bs; [apply writes_ok|unfold zlen in E; cbn in E; lia].
Qed.

Lemma writes_when (b : bool) (a : writer) (x : bytes) (P : Prop) : writes a x P -> writes (wwhen b a) (if b then x else []) (b = true -> P).
Proof.
  intros Ha. destruct b; cbn; [|intros w w' [= <-]; by rewrite app_nil_r].
  intros w w' H. destruct (Ha _ _ H) as (? & ? & ?). done.
Qed.

Lemma writes_emits (a : writer) (bs : bytes) : emits a bs -> writes a bs True.
Proof.
  intros He w w' Ha. specialize (He w). rewrite Ha in He. destruct (Z.leb_spec (zlen bs) (zlen (wp_rest w))); [|done].
  injection He as ->. cbn. split_and!; [done| |done]. unfold zlen in *. rewrite length_app, length_drop. lia.
Qed.

Lemma writes_mono (a : writer) (x y : bytes) (P Q : Prop) : writes a x P -> (P -> x = y /\ Q) -> writes a y Q.
Proof. intros Ha Hpq w w' H. destruct (Ha _ _ H) as (? & ? & HP). destruct (Hpq HP) as [-> ?]. done. Qed.

(** The writers of the packetiser: if one succeeds it wrote a well-formed frame. *)
Definition writes_frame (a : writer) (f : qframe) : Prop := writes a (frame_bytes f) (wf_read f []).

Ltac writes_step :=
  first [ apply writes_seq | apply writes_vlint; assumption | apply writes_hdr | apply writes_memcpy | apply writes_when ].

Lemma ping_writes : writes_frame ossl_quic_wire_encode_frame_ping F_PING.
Proof. eapply writes_mono; [apply writes_hdr|done]. Qed.

Lemma handshake_done_writes : writes_frame ossl_quic_wire_encode_frame_handshake_done F_HANDSHAKE_DONE.
Proof. eapply writes_mono; [apply writes_hdr|done]. Qed.

Lemma reset_writes (f : OSSL_QUIC_FRAME_RESET_STREAM) : 0 <= rs_stream_id f -> 0 <= rs_app_error_code f -> 0 <= rs_final_size f ->
  writes_frame (ossl_quic_wire_encode_frame_reset_stream f) (F_RESET_STREAM f).
Proof. intros H1 H2 H3. eapply writes_mono; [repeat writes_step|]. intros (_ & ? & ? & ?). done. Qed.

Lemma stop_sending_writes (f : OSSL_QUIC_FRAME_STOP_SENDING) : 0 <= ss_stream_id f -> 0 <= ss_app_error_code f ->
  writes_frame (ossl_quic_wire_encode_frame_stop_sending f) (F_STOP_SENDING f).
Proof. intros H1 H2. eapply writes_mono; [repeat writes_step|]. cbn. intros (_ & ? & ?). done. Qed.

Lemma max_data_writes (v : Z) : 0 <= v -> writes_frame (ossl_quic_wire_encode_frame_max_data v) (F_MAX_DATA v).
Proof. intros H1. eapply writes_mono; [repeat writes_step|]. cbn. intros (_ & ?). done. Qed.

Lemma max_stream_data_writes (id v : Z) : 0 <= id -> 0 <= v -> writes_frame (ossl_quic_wire_encode_frame_max_stream_data id v) (F_MAX_STREAM_DATA id v).
Proof. intros H1 H2. eapply writes_mono; [repeat writes_step|]. cbn. intros (_ & ? & ?). done. Qed.

Lemma max_streams_writes (u : bool) (v : Z) : 0 <= v -> writes_frame (ossl_quic_wire_encode_frame_max_streams u v) (F_MAX_STREAMS u v).
Proof. intros H1. eapply writes_mono; [repeat writes_step|]. cbn. intros (_ & ?). by destruct u. Qed.

(** The frame as it is read: the application form has no frame type. *)
Definition close_read (f : OSSL_QUIC_FRAME_CONN_CLOSE) : OSSL_QUIC_FRAME_CONN_CLOSE :=
  mkFrameConnClose (cc_is_app f) (cc_error_code f) (if cc_is_app f then 0 else cc_frame_type f) (cc_reason f) (cc_reason_len f).

Definition close_ok (f : OSSL_QUIC_FRAME_CONN_CLOSE) : Prop :=
  0 <= cc_error_code f /\ 0 <= cc_frame_type f /\ cc_reason_len f = zlen (cc_reason f).

Lemma conn_close_writes (f : OSSL_QUIC_FRAME_CONN_CLOSE) : close_ok f ->
  writes_frame (ossl_quic_wire_encode_frame_conn_close f) (F_CONN_CLOSE (close_read f)).
Proof.
  intros (H1 & H2 & H3). assert (0 <= cc_reason_len f) as H4 by (rewrite H3; apply zlen_nonneg).
  eapply writes_mono; [repeat writes_step|]. rewrite take_all by done. intros (_ & He & Ht & Hl & _).
  unfold frame_bytes, frame_body, close_read. cbn [frame_type_of cc_is_app cc_error_code cc_frame_type cc_reason_len cc_reason wf_read wf_frame].
  destruct (cc_is_app f); cbn [negb] in *; (split; [done|]); split_and!; first [done|vlint_const|by apply Ht].
Qed.

Lemma ack_writes (e : Z) (ack : OSSL_QUIC_FRAME_ACK) : 0 <= e < 64 -> (frame_ranges ack <> [] -> wf_ack_ranges (frame_ranges ack)) ->
  u64 (ack_delay_time ack) -> 0 <= num_ack_ranges ack <= zlen (ack_ranges ack) ->
  let ack' := mkFrameAck (frame_ranges ack) (num_ack_ranges ack) (ack_delay_time ack) 0 0 0 false in
  writes (ossl_quic_wire_encode_frame_ack e (ack <| ack_ecn_present := false |>)) (ack_bytes e ack') (wf_ack ack').
Proof.
  intros He Hr Hd Hn ack'. assert (zlen (frame_ranges ack) = num_ack_ranges ack) as Hz by (unfold frame_ranges; by apply zlen_take).
  assert (ossl_quic_wire_encode_frame_ack e (ack <| ack_ecn_present := false |>) = ossl_quic_wire_encode_frame_ack e ack') as ->.
  { unfold ossl_quic_wire_encode_frame_ack. cbn [ack_ecn_present ack_ranges num_ack_ranges ack_delay_time field_upd ack'].
    rewrite (take_all (frame_ranges ack)) by done. unfold ack'. cbn. done. }
  destruct (frame_ranges ack) as [|r0 rs] eqn:Ef.
  - unfold ossl_quic_wire_encode_frame_ack, ack'. cbn [ack_ranges num_ack_ranges]. rewrite take_nil. apply writes_fail.
  - assert (wf_ack ack') as Hwf by (split_and!; [by apply Hr|by symmetry|done|done]).
    eapply writes_mono; [by apply writes_emits, ack_emits|]. done.
Qed.

(** The header of a STREAM frame and that of a CRYPTO frame; the data follow. *)
Definition stream_hdr_bytes (f : OSSL_QUIC_FRAME_STREAM) : bytes :=
  venc (frame_type_of (F_STREAM f)) ++ venc (fs_stream_id f) ++ (if fs_offset f =? 0 then [] else venc (fs_offset f)) ++
  (if fs_has_explicit_len f then venc (fs_len f) else []).

Lemma stream_hdr_writes (f : OSSL_QUIC_FRAME_STREAM) : 0 <= fs_stream_id f -> 0 <= fs_offset f -> 0 <= fs_len f ->
  writes (ossl_quic_wire_encode_frame_stream_hdr f) (stream_hdr_bytes f) (vlint (fs_stream_id f)).
Proof.
  intros H1 H2 H3. unfold ossl_quic_wire_encode_frame_stream_hdr. eapply writes_mono; [repeat writes_step|]. cbn.
  intros (_ & Hi & _). split; [|done]. unfold stream_hdr_bytes. cbn [frame_type_of].
  destruct (fs_offset f =? 0), (fs_has_explicit_len f), (fs_is_fin f); cbn [negb]; rewrite ?app_nil_r; done.
Qed.

Lemma crypto_hdr_writes (f : OSSL_QUIC_FRAME_CRYPTO) : 0 <= fc_offset f -> 0 <= fc_len f ->
  writes (ossl_quic_wire_encode_frame_crypto_hdr f) (venc 6 ++ venc (fc_offset f) ++ venc (fc_len f)) True.
Proof. intros H1 H2. eapply writes_mono; [repeat writes_step|]. done. Qed.
