(* ===== verification/TxpLen.v ===== *)
(** * How much of a chunk fits into a packet: what the length planning of the packetiser guarantees

    The header and the data that are chosen fit into the space that is left, for each
    way to encode the length; and the vectors are cut to the length chosen. *)

From S2P Require Import Prelude Packet Wire WirePkt Qrl Qtx Ackm Sstream StreamMap Txpim Cfq Fifd Txp TxpHelper TxpFrames.

(** ** Lengths *)

Definition choice_ok (left n base : Z) (c : Z * Z * bool) : Prop :=
  let '(hl, len, ok) := c in ok = true ->
  base <= hl /\ 0 <= len <= n /\ (0 < n -> 0 < len) /\ hl + len <= left /\ ossl_quic_vlint_encode_len len <= hl - base.

Lemma try_len_ok left n base lb mx : 0 <= left < 2 ^ 32 -> 0 <= n <= OSSL_QUIC_VLINT_MAX -> 0 <= base < 2 ^ 32 ->
  (lb = 8 /\ mx = OSSL_QUIC_VLINT_8B_MAX) \/ (lb = 4 /\ mx = OSSL_QUIC_VLINT_4B_MAX) \/ (lb = 2 /\ mx = OSSL_QUIC_VLINT_2B_MAX) \/
  (lb = 1 /\ mx = OSSL_QUIC_VLINT_1B_MAX) ->
  choice_ok left n base (try_len left n base lb mx).
Proof.
  unfold OSSL_QUIC_VLINT_8B_MAX, OSSL_QUIC_VLINT_4B_MAX, OSSL_QUIC_VLINT_2B_MAX, OSSL_QUIC_VLINT_1B_MAX, OSSL_QUIC_VLINT_MAX.
  intros Hl Hn Hb Hc. unfold try_len. rewrite (add64_small base lb) by u64_side.
  assert (forall m, 0 <= m <= mx -> ossl_quic_vlint_encode_len m <= lb) as Henc.
  { intros m Hm. unfold ossl_quic_vlint_encode_len, OSSL_QUIC_VLINT_2B_MIN, OSSL_QUIC_VLINT_4B_MIN, OSSL_QUIC_VLINT_8B_MIN, OSSL_QUIC_VLINT_MAX in *.
    bdestruct_all; lia. }
  destruct ((n =? 0) && (base + lb <=? left)) eqn:E0.
  - apply andb_prop in E0 as [?%Z.eqb_eq ?%Z.leb_le]. intros _. specialize (Henc 0 ltac:(unfold OSSL_QUIC_VLINT_2B_MIN, OSSL_QUIC_VLINT_8B_MIN in *; lia)). split_and!; lia.
  - set (m := if mx <? n then mx else n). assert (0 <= m <= n /\ m <= mx) as [Hm1 Hm2].
    { unfold OSSL_QUIC_VLINT_2B_MIN, OSSL_QUIC_VLINT_8B_MIN in *. subst m. destruct (Z.ltb_spec mx n); lia. }
    rewrite (add64_small m) by u64_side. destruct (Z.leb_spec (base + lb) left).
    + rewrite (sub64_small left) by u64_side.
      destruct (Z.ltb_spec left (m + (base + lb))); intros ?%Z.ltb_lt;
        [pose proof (Henc (left - (base + lb)) ltac:(lia))|pose proof (Henc m ltac:(lia))]; split_and!; lia.
    + destruct (Z.ltb_spec left (m + (base + lb))); [done|lia].
Qed.

Lemma planned_len_spec left n base hl len : 0 <= left < 2 ^ 32 -> 0 <= n <= OSSL_QUIC_VLINT_MAX -> 0 <= base < 2 ^ 32 ->
  determine_len left n base = Some (hl, len) ->
  base <= hl /\ 0 <= len <= n /\ (0 < n -> 0 < len) /\ hl + len <= left /\ ossl_quic_vlint_encode_len len <= hl - base.
Proof.
  intros Hl Hn Hb. unfold determine_len. assert (forall cs best, choice_ok left n base best -> Forall (choice_ok left n base) cs ->
    choice_ok left n base (foldl better_len best cs)) as Hf.
  { induction cs as [|c cs IH]; intros best Hbest Hcs; [done|]. apply Forall_cons in Hcs as [Hc Hcs]. cbn. apply IH; [|done].
    destruct best as [[? chosen] ?], c as [[? m] valid]. unfold better_len. by destruct (valid && _). }
  specialize (Hf (len_choices left n base) (0, 0, false)). destruct (foldl better_len _ _) as [[h l] ok].
  destruct ok; [|done]. intros [= <- <-]. apply Hf; [done| |done]. unfold len_choices.
  repeat (apply Forall_cons; split; [apply try_len_ok; [done|done|done|tauto]|]). by apply Forall_nil.
Qed.

(** The header of a CRYPTO or STREAM frame as the planning counts it. *)
Lemma determine_crypto_spec off n left hl len : 0 <= off -> 0 <= n <= OSSL_QUIC_VLINT_MAX -> 0 <= left < 2 ^ 32 ->
  determine_crypto_len (mkFrameCrypto off n None) left = Some (hl, len) ->
  0 <= len <= n /\ (0 < n -> 0 < len) /\ zlen (venc 6 ++ venc off ++ venc len) + len <= left /\ off <= OSSL_QUIC_VLINT_MAX.
Proof.
  intros Ho Hn Hl. unfold determine_crypto_len, ossl_quic_wire_get_encoded_frame_len_crypto_hdr. cbn [fc_offset fc_data fc_len].
  change (ossl_quic_vlint_encode_len OSSL_QUIC_FRAME_TYPE_CRYPTO) with 1. change (ossl_quic_vlint_encode_len 0) with 1.
  pose proof (encode_len_nonneg off) as Hnn. assert (ossl_quic_vlint_encode_len off <= 8) as H8 by (unfold ossl_quic_vlint_encode_len; repeat case_match; lia).
  destruct (Z.eqb_spec (ossl_quic_vlint_encode_len off) 0) as [|Hne]; [done|]. cbn [Z.eqb orb]. case_match; [done|].
  assert (off <= OSSL_QUIC_VLINT_MAX) as Hoff.
  { destruct (Z.le_gt_cases off OSSL_QUIC_VLINT_MAX); [done|]. rewrite encode_len_zero in Hne by lia. done. }
  rewrite sub64_small by u64_side. intros (B1 & B2 & B3 & B4 & B5)%planned_len_spec; [|done|done|lia].
  split_and!; try lia; try done. rewrite !zlen_app, (encode_length 6), (encode_length off), (encode_length len);
    [|unfold vlint; lia|unfold vlint; lia|vlint_const]. change (ossl_quic_vlint_encode_len 6) with 1. lia.
Qed.

Lemma encode_len_8 (v : Z) : ossl_quic_vlint_encode_len v <= 8.
Proof. unfold ossl_quic_vlint_encode_len. repeat case_match; lia. Qed.

Lemma encode_len_vlint (v : Z) : 0 <= v -> ossl_quic_vlint_encode_len v <> 0 -> vlint v.
Proof. intros Hv Hn%encode_len_max. unfold vlint. lia. Qed.

Lemma stream_hdr_len f : vlint (fs_stream_id f) -> vlint (fs_offset f) -> vlint (fs_len f) ->
  zlen (stream_hdr_bytes f) = 1 + ossl_quic_vlint_encode_len (fs_stream_id f) +
    (if fs_offset f =? 0 then 0 else ossl_quic_vlint_encode_len (fs_offset f)) + (if fs_has_explicit_len f then ossl_quic_vlint_encode_len (fs_len f) else 0).
Proof.
  intros Hi Ho Hl. unfold stream_hdr_bytes. rewrite !zlen_app, (encode_length (fs_stream_id f)), encode_length by (done || apply frame_type_vlint).
  assert (ossl_quic_vlint_encode_len (frame_type_of (F_STREAM f)) = 1) as -> by (cbn [frame_type_of]; repeat case_match; done).
  destruct (fs_offset f =? 0), (fs_has_explicit_len f); rewrite ?encode_length by done; change (zlen (@nil Z)) with 0; lia.
Qed.

Lemma determine_stream_spec f left hl len : 0 <= fs_stream_id f -> 0 <= fs_offset f -> 0 <= fs_len f <= OSSL_QUIC_VLINT_MAX -> 0 <= left < 2 ^ 32 ->
  determine_stream_len f left = Some (hl, len) ->
  0 <= len <= fs_len f /\ forall fin, zlen (stream_hdr_bytes (mkFrameStream (fs_stream_id f) (fs_offset f) len None (fs_has_explicit_len f) fin)) + len <= left.
Proof.
  intros Hi Ho Hn Hl. unfold determine_stream_len, ossl_quic_wire_get_encoded_frame_len_stream_hdr. cbn [fs_stream_id fs_offset fs_len fs_has_explicit_len].
  change (ossl_quic_vlint_encode_len OSSL_QUIC_FRAME_TYPE_STREAM) with 1. change (ossl_quic_vlint_encode_len 0) with 1. cbn [Z.eqb orb].
  pose proof (encode_len_8 (fs_stream_id f)). pose proof (encode_len_8 (fs_offset f)).
  pose proof (encode_len_nonneg (fs_stream_id f)). pose proof (encode_len_nonneg (fs_offset f)).
  destruct (Z.eqb_spec (ossl_quic_vlint_encode_len (fs_stream_id f)) 0) as [|Hid]; [done|]. apply encode_len_vlint in Hid; [|done].
  set (c := if 0 <? fs_offset f then ossl_quic_vlint_encode_len (fs_offset f) else 0).
  destruct ((0 <? fs_offset f) && (c =? 0)) eqn:Ec; [done|]. assert (vlint (fs_offset f) /\ c = (if fs_offset f =? 0 then 0 else ossl_quic_vlint_encode_len (fs_offset f))) as [Hoff Hc].
  { subst c. destruct (Z.ltb_spec 0 (fs_offset f)); cbn [andb] in Ec.
    - rewrite (proj2 (Z.eqb_neq (fs_offset f) 0)) by lia. split; [|done]. apply encode_len_vlint; [done|]. by apply Z.eqb_neq.
    - assert (fs_offset f = 0) as -> by lia. split; [vlint_const|done]. }
  assert (0 <= c <= 8) by (rewrite Hc; case_match; lia). clearbody c.
  set (b := 1 + ossl_quic_vlint_encode_len (fs_stream_id f) + c). intros Hd.
  assert (exists base, determine_len left (fs_len f) base = Some (hl, len) /\ base = b) as (base & Hd' & ->).
  { destruct (fs_has_explicit_len f); cbn [andb Z.eqb] in Hd; destruct (_ =? 0) in Hd; try done; eexists; (split; [exact Hd|]); subst b; [rewrite sub64_small by u64_side|]; lia. }
  apply planned_len_spec in Hd' as (B1 & B2 & B3 & B4 & B5); [|done|done|lia]. split; [done|]. intros fin. pose proof (encode_len_nonneg len).
  rewrite stream_hdr_len by (done || (unfold vlint; cbn; lia)). cbn [fs_stream_id fs_offset fs_len fs_has_explicit_len].
  rewrite <- Hc. fold b. destruct (fs_has_explicit_len f); lia.
Qed.

(** ** Vectors cut to a length *)

Lemma adjust_loop_spec len iov : forall running, 0 <= running -> running + zlen (concat iov) < 2 ^ 63 -> 0 <= len < 2 ^ 63 ->
  concat (adjust_loop len running iov) = take (Z.to_nat (len - running)) (concat iov) /\ length (adjust_loop len running iov) = length iov.
Proof.
  induction iov as [|v iov IH]; intros r Hr Hs Hl; [cbn; by rewrite take_nil|]. cbn [adjust_loop concat length] in *. rewrite zlen_app in Hs.
  pose proof (zlen_nonneg v). pose proof (zlen_nonneg (concat iov)). rewrite (add64_small r) by u64_side.
  destruct (IH (r + zlen v)) as [-> ->]; [lia|lia|done|]. split; [|done]. rewrite take_app. f_equal; [|f_equal; unfold zlen; lia].
  destruct (Z.leb_spec len r) as [Hle|Hgt]; [by replace (Z.to_nat (len - r)) with 0%nat by lia|].
  rewrite sub64_small by u64_side. destruct (Z.ltb_spec len (r + zlen v)); [done|]. rewrite take_ge; [done|]. unfold zlen in *. lia.
Qed.

Lemma adjust_iov_spec len iov : zlen (concat iov) < 2 ^ 63 -> 0 <= len <= zlen (concat iov) ->
  concat (ossl_quic_sstream_adjust_iov len iov) = take (Z.to_nat len) (concat iov) /\
  zlen (concat (ossl_quic_sstream_adjust_iov len iov)) = len /\ length (ossl_quic_sstream_adjust_iov len iov) = length iov.
Proof.
  intros Hs Hl. destruct (adjust_loop_spec len iov 0) as [Hc Hn]; [lia|lia|lia|]. rewrite Z.sub_0_r in Hc. unfold ossl_quic_sstream_adjust_iov.
  split_and!; [done| |done]. rewrite Hc. apply zlen_take. lia.
Qed.
