(* ===== verification/TxpWp.v ===== *)
(** * Reasoning about the generators of the packetiser

    The generators are judged by weakest preconditions over their state.  What the
    operations of the packet's helper do to the payload is [grown]: some bytes are
    appended, within the room there is, and nothing changes that the other
    generators look at. *)

From S2P Require Import Prelude UintSet OsslTime FlowControl Congestion CcMethod Packet Wire WirePkt Qrl Qtx Ackm.
From S2P Require Import AckmTx AckmInv AckmAck AckmRx RingBuf Sstream SfList Rstream StreamMap Cfq Txpim Fifd.
From S2P Require Import Txp TxpHelper TxpGen TxpFrames.

#[local] Arguments iovec_bytes : simpl never.
#[local] Arguments tx_helper_get_space_left : simpl never.

Section Wp.
Context {D : Type} (al : txp_alloc).

Abbreviation TXPW := (QUIC_FIFD D TXP).
Abbreviation gst := (@TxpGen.gst D).
Abbreviation gen := (@TxpGen.gen D).
#[local] Notation "x <- m ;; k" := (gbind m (fun x => k)) (at level 100, m at next level, right associativity).
#[local] Notation "m ;; k" := (gbind m (fun _ => k)) (at level 100, right associativity).

(** ** Weakest preconditions *)

(** [m] does not go wrong; [Q] holds if it succeeds and [E] if it returns 0. *)
Definition wp {A} (m : gen A) (Q : A -> gst -> Prop) (E : gst -> Prop) (g : gst) : Prop :=
  match m g with
  | None => False
  | Some (g, None) => E g
  | Some (g, Some x) => Q x g
  end.

Lemma wp_mono {A} (m : gen A) (Q Q' : A -> gst -> Prop) (E E' : gst -> Prop) g :
  wp m Q E g -> (forall x g, Q x g -> Q' x g) -> (forall g, E g -> E' g) -> wp m Q' E' g.
Proof. unfold wp. destruct (m g) as [[g' [x|]]|]; auto. Qed.

Lemma wp_ret {A} (x : A) (Q : A -> gst -> Prop) E g : Q x g -> wp (gret x) Q E g.
Proof. done. Qed.

Lemma wp_bind {A B} (m : gen A) (k : A -> gen B) (Q : B -> gst -> Prop) E g : wp m (fun x => wp (k x) Q E) E g -> wp (gbind m k) Q E g.
Proof. unfold wp, gbind. destruct (m g) as [[g' [x|]]|]; auto. Qed.

Lemma wp_read {A} (f : gst -> A) (Q : A -> gst -> Prop) E g : Q (f g) g -> wp (gread f) Q E g.
Proof. done. Qed.

Lemma wp_modify (f : gst -> gst) (Q : unit -> gst -> Prop) E g : Q tt (f g) -> wp (gmodify f) Q E g.
Proof. done. Qed.

Lemma wp_need {A} (f : gst -> option A) (Q : A -> gst -> Prop) E g : (exists x, f g = Some x /\ Q x g) -> wp (gneed f) Q E g.
Proof. intros (x & Hx & HQ). unfold wp, gneed. by rewrite Hx. Qed.

Lemma wp_assert (b : bool) (Q : unit -> gst -> Prop) (E : gst -> Prop) g : E g -> (b = true -> Q tt g) -> wp (gassert b) Q E g.
Proof. destruct b; cbn; auto. Qed.

Lemma wp_when (b : bool) (m : gen unit) (Q : unit -> gst -> Prop) E g : (b = true -> wp m Q E g) -> (b = false -> Q tt g) -> wp (gwhen b m) Q E g.
Proof. destruct b; cbn; auto. Qed.

Lemma wp_try {A} (m : gen A) (Q : option A -> gst -> Prop) E g : wp m (fun x => Q (Some x)) (Q None) g -> wp (gtry m) Q E g.
Proof. unfold wp, gtry. destruct (m g) as [[g' [x|]]|]; auto. Qed.

(** ** Growing the payload *)

Definition payload (g : gst) : bytes := iovec_bytes (h_iovec (g_h g)).

(** The array of vectors: it never shrinks, and a vector is never empty. *)
Definition iov_alloc (g : gst) : Z := alloc_iovec (el_of (g_t g) (g_level g)).
Record iov_ok (g : gst) : Prop := {
  io_num : num_iovec (g_h g) <= iov_alloc g /\ num_iovec (g_h g) <= bytes_appended (g_h g);
  io_alloc : iov_alloc g = 0 \/ 8 <= iov_alloc g <= 2 ^ 34;
  io_max : max_ppl (g_h g) < 2 ^ 32 /\ bytes_appended (g_h g) <= max_ppl (g_h g) }.

(** How many vectors can be added for sure. *)
Definition spare (g : gst) : Z := iov_alloc g - num_iovec (g_h g).

(** [bs] is appended to the payload and nothing else that matters changes. *)
Record grown (bs : bytes) (g g' : gst) : Prop := {
  gr_w : exists el, g_w g' = (g_w g) <| ff_env := (g_t g) <| tx_el := el |> |>;
  gr_p : exists iov b s, g_pkt g' = (g_pkt g) <| p_h := (g_h g) <| h_iovec := iov |> <| bytes_appended := b |> <| scratch_bytes := s |> |> /\
           iovec_bytes iov = payload g ++ bs /\ b = bytes_appended (g_h g) + zlen bs;
  gr_e : have_ack_eliciting g' = have_ack_eliciting g;
  gr_n : can_be_non_inflight g' = can_be_non_inflight g;
  gr_iov : iov_ok g -> bytes_appended (g_h g') <= max_ppl (g_h g) -> iov_ok g' }.

Lemma grown_refl g : grown [] g g.
Proof.
  destruct g as [w p a b]. split; [exists (tx_el (ff_env w)); destruct w as [? ? ? [] ?]; done| |done|done|done].
  exists (h_iovec (p_h p)), (bytes_appended (p_h p)), (scratch_bytes (p_h p)). unfold payload, g_h. cbn.
  rewrite app_nil_r, Z.add_0_r. split_and!; [by destruct p as [[] ? ? ? ? ? ?]|done|done].
Qed.

Lemma grown_trans bs bs' g1 g2 g3 : grown bs g1 g2 -> grown bs' g2 g3 -> grown (bs ++ bs') g1 g3.
Proof.
  intros [(el & Hw) (iov & b & s & Hp & Hi & Hb) He Hn Hv] [(el' & Hw') (iov' & b' & s' & Hp' & Hi' & Hb') He' Hn' Hv'].
  split; [| |congruence|congruence|].
  - exists el'. rewrite Hw'. unfold g_t. rewrite Hw. done.
  - exists iov', b', s'. unfold payload, g_h in *. rewrite Hp in Hp', Hi', Hb'. cbn in Hp', Hi', Hb'. rewrite Hi in Hi'. rewrite zlen_app, app_assoc. split_and!; [done|done|lia].
  - assert (max_ppl (g_h g2) = max_ppl (g_h g1)) as Hm by (unfold g_h; by rewrite Hp). pose proof (zlen_nonneg bs').
    assert (bytes_appended (g_h g3) = bytes_appended (g_h g2) + zlen bs') by (unfold g_h in *; rewrite Hp'; cbn; lia).
    intros Hio Hle. apply Hv'; [apply Hv; [done|lia]|by rewrite Hm].
Qed.

(** The helper: the reserve counts until the packet is ack-eliciting. *)
Record helper_ok (g : gst) : Prop := {
  ho_len : bytes_appended (g_h g) = zlen (payload g);
  ho_reserve : 0 <= reserve (g_h g) <= 1;
  ho_room : bytes_appended (g_h g) + (if reserve_allowed (g_h g) then 0 else reserve (g_h g)) <= max_ppl (g_h g);
  ho_iov : iov_ok g }.

Lemma helper_same g g' : g_h g' = g_h g -> iov_alloc g' = iov_alloc g -> helper_ok g -> helper_ok g'.
Proof.
  intros Hh Ha [L1 L2 L3 [[I1 I2] I3 I4]]. split; unfold payload; rewrite ?Hh; try done. split; rewrite ?Hh, ?Ha; done.
Qed.

Definition room (g : gst) : Z := max_ppl (g_h g) - (if reserve_allowed (g_h g) then 0 else reserve (g_h g)) - bytes_appended (g_h g).

Lemma space_left_room g : helper_ok g -> tx_helper_get_space_left (g_h g) = room g /\ 0 <= room g.
Proof.
  intros [Hl Hr Hm Hx]. pose proof (zlen_nonneg (payload g)). pose proof (io_max _ Hx). unfold tx_helper_get_space_left, room.
  destruct (reserve_allowed (g_h g)); u64_lia.
Qed.

Lemma room_max g : helper_ok g -> 0 <= room g < 2 ^ 32.
Proof.
  intros Hok. split; [by apply space_left_room|]. destruct Hok as [Hl Hr Hm [_ _ [I1 I2]]]. pose proof (zlen_nonneg (payload g)).
  unfold room. destruct (reserve_allowed (g_h g)); lia.
Qed.

Lemma grown_helper bs g g' : helper_ok g -> grown bs g g' -> zlen bs <= room g -> helper_ok g' /\ room g' = room g - zlen bs /\
  g_level g' = g_level g /\ g_adata g' = g_adata g /\ payload g' = payload g ++ bs /\ max_ppl (g_h g') = max_ppl (g_h g) /\
  done_implicit (g_h g') = done_implicit (g_h g) /\ reserve_allowed (g_h g') = reserve_allowed (g_h g).
Proof.
  intros [Hl Hr Hm Hx] [_ (iov & b & s & Hp & Hi & Hb) _ _ Hv] Hbs.
  assert (bytes_appended (g_h g') = bytes_appended (g_h g) + zlen bs) as Hby by (unfold g_h in *; rewrite Hp; cbn; lia).
  assert (iov_ok g') as Hio by (apply Hv; [done|]; unfold room in Hbs; destruct (reserve_allowed (g_h g)); lia). clear Hv Hby. unfold room, payload, g_level, g_adata, g_h in *. rewrite Hp. cbn.
  split_and!; try done; [|rewrite Hb; lia]. split; [..|exact Hio]; unfold payload, g_h; rewrite Hp; cbn; rewrite ?Hi, ?zlen_app; lia.
Qed.

(** ** The operations of the helper *)

(** The array grows by doubling, which is enough for three more. *)
Lemma ensure_step (t t' : TXP) (l num : Z) (ok : bool) : let a := alloc_iovec (el_of t l) in
  a = 0 \/ 8 <= a <= 2 ^ 34 -> 0 <= num <= a + 3 -> num <= 2 ^ 32 + 3 -> txp_el_ensure_iovec al t l num = (t', ok) ->
  exists el, t' = t <| tx_el := el |> /\ let a' := alloc_iovec (el_of t' l) in a <= a' /\ (a' = 0 \/ 8 <= a' <= 2 ^ 34) /\ (ok = true -> num <= a') /\
    (num <= a -> ok = true).
Proof.
  intros a Ha Hn Hm. unfold txp_el_ensure_iovec. fold a. assert (t = t <| tx_el := tx_el t |>) as Ht by (by destruct t).
  destruct (Z.leb_spec num a) as [Hle|Hlt]; [intros [= <- <-]; exists (tx_el t); split; [done|]; fold a; split_and!; try done; lia|].
  set (n' := if a =? 0 then 8 else a *u 2). assert (a <= n' /\ 8 <= n' <= 2 ^ 34 /\ num <= n') as Hn'.
  { subst n'. destruct (Z.eqb_spec a 0); [lia|]. rewrite mul64_small by u64_side. lia. }
  case_match; intros [= <- <-].
  - eexists. split; [reflexivity|]. unfold el_of, set_el. cbn. rewrite Z.eqb_refl. cbn. split_and!; try lia; done.
  - exists (tx_el t). split; [done|]. fold a. split_and!; try done; lia.
Qed.

Lemma grown_el g el : iov_alloc g <= alloc_iovec (el (g_level g)) -> (alloc_iovec (el (g_level g)) = 0 \/ 8 <= alloc_iovec (el (g_level g)) <= 2 ^ 34) ->
  grown [] g (set_h (set_t g ((g_t g) <| tx_el := el |>)) (g_h g)).
Proof.
  intros Ha1 Ha2. split; [by exists el| |done|done|].
  - exists (h_iovec (g_h g)), (bytes_appended (g_h g)), (scratch_bytes (g_h g)).
    unfold payload. rewrite app_nil_r, Z.add_0_r. split_and!; [|done|done]. unfold g_h. cbn. by destruct (g_pkt g) as [[] ? ? ? ? ? ?].
  - intros [[I1 I2] I3 I4] _. split; [|exact Ha2|done]. split; [|done].
    change (num_iovec (g_h g) <= alloc_iovec (el (g_level g))). lia.
Qed.

(** What an appended buffer does to the state. *)
Lemma append_iovec_step g base bs : helper_ok g -> zlen bs <= room g ->
  let '(t, h, ok) := tx_helper_append_iovec al (g_t g) (g_h g) base bs in let g' := set_h (set_t g t) h in
  grown (if ok then bs else []) g g' /\ spare g - 1 <= spare g' /\ (ok = true -> bs <> [] -> done_implicit (g_h g) = false) /\
  (1 <= spare g -> done_implicit (g_h g) = false -> ok = true).
Proof.
  intros Hok Hr. pose proof (space_left_room g Hok) as [_ Hroom]. destruct Hok as [Hl Hre Hm Hx]. pose proof Hx as [[I1 I2] I3 [I4 I5]].
  assert (t_same : g_t g = (g_t g) <| tx_el := tx_el (g_t g) |>) by (by destruct (g_t g)).
  assert (grown [] g (set_h (set_t g (g_t g)) (g_h g)) /\ spare g - 1 <= spare (set_h (set_t g (g_t g)) (g_h g))) as [Hno Hsp].
  { split; [rewrite t_same at 1; apply grown_el; [done|exact I3]|]. change (spare (set_h (set_t g (g_t g)) (g_h g))) with (spare g). lia. }
  unfold tx_helper_append_iovec. destruct (Z.eqb_spec (zlen bs) 0) as [Hz|Hz].
  { assert (bs = []) as -> by (destruct bs; [done|unfold zlen in Hz; cbn in Hz; lia]). split_and!; done. }
  destruct (done_implicit (g_h g)); [split_and!; done|]. pose proof (zlen_nonneg (h_iovec (g_h g))) as Hzn. fold (num_iovec (g_h g)) in Hzn.
  assert (num_iovec (g_h g) +u 1 = num_iovec (g_h g) + 1) as -> by u64_lia.
  destruct (txp_el_ensure_iovec al (g_t g) (h_enc_level (g_h g)) (num_iovec (g_h g) + 1)) as [t ok] eqn:He.
  apply ensure_step in He as (el & -> & Ha1 & Ha2 & Ha3 & Ha4); [|exact I3|unfold iov_alloc, g_level in *; lia|lia].
  change (alloc_iovec (el_of (g_t g) (h_enc_level (g_h g)))) with (iov_alloc g) in *. change (el_of ((g_t g) <| tx_el := el |>) (h_enc_level (g_h g))) with (el (g_level g)) in *.
  destruct ok; [|split_and!; [by apply grown_el| |done|unfold spare; intros; apply Ha4; lia]].
  2: { change (spare g - 1 <= alloc_iovec (el (g_level g)) - num_iovec (g_h g)). unfold spare. lia. }
  specialize (Ha3 eq_refl). pose proof (zlen_nonneg bs). pose proof (zlen_nonneg (payload g)). unfold room in *.
  assert (bytes_appended (g_h g) +u zlen bs = bytes_appended (g_h g) + zlen bs) as Ha by (destruct (reserve_allowed (g_h g)); u64_lia).
  assert (num_iovec ((g_h g) <| h_iovec := h_iovec (g_h g) ++ [mkIov base bs] |>) = num_iovec (g_h g) + 1) as Hnum by (unfold num_iovec; cbn; by rewrite zlen_app).
  split; [|split_and!; try done].
  - split; [by exists el| |done|done|].
    + exists (h_iovec (g_h g) ++ [mkIov base bs]), (bytes_appended (g_h g) + zlen bs), (scratch_bytes (g_h g)). split_and!; [| |done].
      * unfold set_h, set_t, g_h in *. cbn. rewrite Ha. by destruct (g_pkt g) as [[] ? ? ? ? ? ?].
      * unfold payload, iovec_bytes. rewrite fmap_app, concat_app. cbn. by rewrite app_nil_r.
    + intros _ Hle. split; [|exact Ha2|done].
      change (num_iovec ((g_h g) <| h_iovec := h_iovec (g_h g) ++ [mkIov base bs] |>) <= alloc_iovec (el (g_level g)) /\
        num_iovec ((g_h g) <| h_iovec := h_iovec (g_h g) ++ [mkIov base bs] |>) <= bytes_appended (g_h g) +u zlen bs). rewrite Hnum, Ha. lia.
  - change (spare g - 1 <= alloc_iovec (el (g_level g)) - num_iovec ((g_h g) <| h_iovec := h_iovec (g_h g) ++ [mkIov base bs] |>)). rewrite Hnum. unfold spare. lia.
Qed.

(** With a vector to spare the buffer is appended. *)
Lemma wp_append base bs (Q : bool -> gst -> Prop) E g : helper_ok g -> zlen bs <= room g -> 1 <= spare g -> done_implicit (g_h g) = false ->
  (forall g', grown bs g g' -> spare g - 1 <= spare g' -> Q true g') -> wp (append_iovec al base bs) Q E g.
Proof.
  intros Hok Hr Hs Hd HQ. unfold wp, append_iovec, helper_op. pose proof (append_iovec_step g base bs Hok Hr) as Hst.
  destruct (tx_helper_append_iovec al (g_t g) (g_h g) base bs) as [[t h] ok]; destruct Hst as (Hg & Hsp & _ & Hsure).
  rewrite (Hsure Hs Hd) in *. by apply HQ.
Qed.

Lemma wp_try_append base bs (Q : bool -> gst -> Prop) E g : helper_ok g -> zlen bs <= room g ->
  (forall g', grown bs g g' -> (bs <> [] -> done_implicit (g_h g) = false) -> Q true g') -> (forall g', grown [] g g' -> Q false g') ->
  wp (append_iovec al base bs) Q E g.
Proof.
  intros Hok Hr Ht Hf. unfold wp, append_iovec, helper_op. pose proof (append_iovec_step g base bs Hok Hr) as Hs.
  destruct (tx_helper_append_iovec al (g_t g) (g_h g) base bs) as [[t h] []]; destruct Hs as (Hg & _ & Hd & _); [apply Ht; [done|by apply Hd]|by apply Hf].
Qed.

Lemma wp_ensure more (Q : unit -> gst -> Prop) (E : gst -> Prop) g : helper_ok g -> 0 <= more <= 3 ->
  (forall g', grown [] g g' -> more <= spare g' -> Q tt g') -> (forall g', grown [] g g' -> E g') -> wp (ensure_iovec al more) Q E g.
Proof.
  intros [_ _ _ [[I1 I2] I3 [I4 I5]]] Hmore HQ HE. unfold ensure_iovec. apply wp_bind. unfold wp at 1, helper_op.
  pose proof (zlen_nonneg (h_iovec (g_h g))) as Hzn. fold (num_iovec (g_h g)) in Hzn.
  assert (num_iovec (g_h g) +u more = num_iovec (g_h g) + more) as -> by u64_lia.
  destruct (txp_el_ensure_iovec al (g_t g) (h_enc_level (g_h g)) (num_iovec (g_h g) + more)) as [t ok] eqn:He.
  apply ensure_step in He as (el & -> & Ha1 & Ha2 & Ha3 & _); [|exact I3|unfold iov_alloc, g_level in *; lia|lia].
  pose proof (grown_el g el Ha1 Ha2) as Hg. destruct ok; [|by apply HE]. apply HQ; [done|]. specialize (Ha3 eq_refl).
  change (more <= alloc_iovec (el (g_level g)) - num_iovec (g_h g)).
  change (alloc_iovec (el_of ((g_t g) <| tx_el := el |>) (h_enc_level (g_h g)))) with (alloc_iovec (el (g_level g))) in Ha3. lia.
Qed.

(** The writer of a frame has the room that is left. *)
Lemma begin_room g wpkt : helper_ok g -> tx_helper_begin (g_t g) (g_h g) = Some wpkt ->
  wp_done wpkt = [] /\ zlen (wp_rest wpkt) = room g /\ done_implicit (g_h g) = false.
Proof.
  intros Hok. pose proof (space_left_room g Hok) as [He Hr]. unfold tx_helper_begin. destruct (done_implicit (g_h g)); [done|].
  case_match; [done|]. case_match; [done|]. intros [= <-]. cbn. rewrite He. split_and!; [done| |done]. unfold zlen. rewrite length_replicate. lia.
Qed.

Lemma wp_begin (Q : WPACKET -> gst -> Prop) (E : gst -> Prop) g : helper_ok g -> E g ->
  (forall wpkt, wp_done wpkt = [] -> zlen (wp_rest wpkt) = room g -> done_implicit (g_h g) = false -> Q wpkt g) -> wp begin_frame Q E g.
Proof.
  intros Hok HE HQ. unfold wp, begin_frame. destruct (tx_helper_begin (g_t g) (g_h g)) as [wpkt|] eqn:Hb; [|done].
  apply begin_room in Hb as (? & ? & ?); [|done]. by apply HQ.
Qed.

(** Scratch memory is accounted for separately. *)
Lemma grown_scratch bs g g' n : grown bs g g' -> grown bs g (set_h g' ((g_h g') <| scratch_bytes := n |>)).
Proof.
  intros [Hw (iov & b & s & Hp & Hi & Hb) He Hn Hv]. split; [done| |done|done|].
  - exists iov, b, n. split_and!; [|done|done]. unfold set_h, g_h in *. cbn. rewrite Hp. done.
  - intros Hio Hle. destruct (Hv Hio Hle) as [I1 I2 I3]. by split.
Qed.

Lemma wp_commit wpkt (Q : unit -> gst -> Prop) (E : gst -> Prop) g : helper_ok g -> zlen (wp_done wpkt) <= room g ->
  (forall g', grown (wp_done wpkt) g g' -> spare g - 1 <= spare g' -> Q tt g') -> (forall g', grown [] g g' -> E g') -> wp (commit_frame al wpkt) Q E g.
Proof.
  intros Hok Hr HQ HE. unfold commit_frame. apply wp_bind. unfold wp at 1, helper_op, tx_helper_commit.
  set (base := scratch _). pose proof (append_iovec_step g base (wp_done wpkt) Hok Hr) as Hs.
  destruct (tx_helper_append_iovec al (g_t g) (g_h g) base (wp_done wpkt)) as [[t h] []]; destruct Hs as (Hg & Hsp & _); [|by apply HE].
  apply HQ; [exact (grown_scratch _ _ _ (scratch_bytes h +u zlen (wp_done wpkt)) Hg)|exact Hsp].
Qed.

(** A frame in a transaction: it fits and is appended, or nothing happens. *)
Lemma wp_write enc bs (P : Prop) sent (Q : bool -> gst -> Prop) (E : gst -> Prop) g : writes enc bs P -> helper_ok g -> E g ->
  (forall g', grown [] g g' -> Q false g') ->
  (forall wpkt, wp_done wpkt = bs -> P -> zlen bs <= room g -> done_implicit (g_h g) = false -> wp (sent ;; commit_frame al wpkt ;; gret true) Q E g) ->
  wp (write_frame al enc sent) Q E g.
Proof.
  intros Hw Hok HE HF HT. unfold write_frame. apply wp_bind. apply wp_begin; [done|done|]. intros w1 Hd Hl Hi.
  destruct (enc w1) as [w2 []] eqn:He; [|apply HF, grown_refl]. destruct (Hw _ _ He) as (W1 & W2 & HP). rewrite Hd in W1, W2. cbn in W1.
  apply HT; [done|done| |done]. rewrite <- W1. pose proof (zlen_nonneg (wp_rest w2)). unfold zlen in *. cbn in W2. lia.
Qed.

(** The usual case. *)
Lemma wp_write_ret enc bs (P : Prop) (Q : bool -> gst -> Prop) (E : gst -> Prop) g : writes enc bs P -> helper_ok g -> (forall g', grown [] g g' -> E g') ->
  (forall g', grown [] g g' -> Q false g') ->
  (forall g', P -> zlen bs <= room g -> done_implicit (g_h g) = false -> grown bs g g' -> spare g - 1 <= spare g' -> Q true g') ->
  wp (write_frame al enc (gret tt)) Q E g.
Proof.
  intros Hw Hok HE HF HT. apply (wp_write enc bs P); [done|done|apply HE, grown_refl|done|]. intros wpkt Hd HP Hr Hi.
  apply wp_bind, wp_ret, wp_bind, wp_commit; [done|by rewrite Hd| |done]. intros g' Hg Hsp. rewrite Hd in Hg. apply wp_ret. by apply HT.
Qed.
End Wp.
