(* ===== verification/TxpPay.v ===== *)
(** * What the packetiser puts into a packet

    Every packet that is generated is a sequence of whole frames, each of a type its
    packet type may carry, within the length planned for it; the generation always
    comes to an end.  The generators are judged by weakest preconditions over their
    state; what the packetiser takes from other components is in the record
    [txp_ready]. *)

From S2P Require Import Prelude UintSet OsslTime FlowControl Congestion CcMethod Packet Wire WirePkt Qrl Qtx Ackm.
From S2P Require Import AckmTx AckmInv AckmAck AckmRx RingBuf Sstream SfList Rstream StreamMap StreamStates StreamProps Cfq Txpim Fifd FifdInv FifdProps.
From S2P Require Import Txp TxpNotify TxpHelper TxpGen TxpSend TxpFrames TxpLen TxpWp.

#[local] Arguments iovec_bytes : simpl never.
#[local] Arguments tx_helper_get_space_left : simpl never.

(** ** What the other components provide *)

(** Each frame the stream buffer offers is a run of bytes below 2^62. *)
Definition ss_offers (ss : QUIC_SSTREAM) : Prop := forall skip h iov, 0 <= skip -> ossl_quic_sstream_get_stream_frame ss skip 2 = Some (h, iov) ->
  0 <= h_offset h /\ h_len h = zlen (concat iov) /\ h_offset h + h_len h <= OSSL_QUIC_VLINT_MAX /\ (length iov <= 2)%nat.

(** A buffer with fewer than 2^62 bytes written to it does so, whatever was sent, lost and acknowledged. *)
Lemma rel_offers (q : QUIC_SSTREAM) (p : sspec) : ss_rel q p -> zlen (sp_str p) <= OSSL_QUIC_VLINT_MAX -> ss_offers q.
Proof.
  intros Hr Hm skip h iov Hs Hf. destruct (drop (Z.to_nat skip) (ss_new q)) as [|range rest] eqn:Ed.
  - unfold ossl_quic_sstream_get_stream_frame in Hf. rewrite Ed in Hf. cbn in Hf. case_match; [done|]. case_match; [done|]. injection Hf as <- <-.
    cbn. rewrite (rel_size _ _ Hr). pose proof (zlen_nonneg (sp_str p)). split_and!; (done || lia).
  - destruct (frame_of_nth q p skip range rest Hr Ed) as (iov' & Hf' & Hc & Hl & H1 & H2). rewrite Hf in Hf'. injection Hf' as -> ->. cbn.
    assert (zlen (concat iov') = r_end range - r_start range + 1) as -> by (rewrite Hc; unfold sub, zlen in *; rewrite length_take, length_drop; lia). split_and!; lia || done.
Qed.

(** The identifiers, codes and limits of a stream are unsigned. *)
Record stream_ready (s : QUIC_STREAM) : Prop := {
  sr_id : 0 <= qs_id s;
  sr_stop : 0 <= qs_stop_sending_aec s;
  sr_reset : 0 <= qs_reset_stream_aec s;
  sr_final : 0 <= qs_send_final_size s;
  sr_cwm : 0 <= cwm (qs_rxfc s);
  sr_ss : forall ss, qs_sstream s = Some ss -> ss_offers ss }.

Record txp_ready (t : TXP) (s : pn_space) (ad : archetype_data) (e : Z) : Prop := {
  rd_exp : tx_ack_delay_exponent t = e /\ 0 <= e < 64;
  rd_close : close_ok (conn_close_frame t);
  rd_rxfc : 0 <= cwm (tx_conn_rxfc t);
  rd_bidi : exists r, max_streams_bidi_rxfc (tx_qsm t) = Some r /\ 0 <= cwm r;
  rd_uni : exists r, max_streams_uni_rxfc (tx_qsm t) = Some r /\ 0 <= cwm r;
  rd_crypto : allow_crypto ad = true -> exists ss, sget (tx_crypto t) s = Some ss /\ ss_offers ss;
  rd_qsm : qsm_ok (tx_qsm t);
  rd_streams : map_Forall (fun _ => stream_ready) (qsm_map (tx_qsm t)) }.

(** A queued control frame is the encoding of a frame of its type, none of the frames the packetiser generates itself
    with data. *)
Definition item_ready (mem : Z -> bytes) (i : QUIC_CFQ_ITEM_EX) : Prop :=
  exists p f, ci_encoded i = Some p /\ mem p = frame_bytes f /\ ci_encoded_len i = zlen (frame_bytes f) /\ ci_frame_type i = frame_type_of f /\
    wf_read f [] /\ pf_implicit (PfFrame f) = false.

Record queue_ready (mem : Z -> bytes) (c : QUIC_CFQ) : Prop := {
  qr_wf : cfq_wf c;
  qr_items : forall a i, cfq_items c !! a = Some i -> ci_state i = QUIC_CFQ_STATE_NEW -> item_ready mem i }.

Section Pay.
Context {D : Type} `{OSSL_CC_METHOD D}.
Context (now : nat -> OSSL_TIME) (al : txp_alloc) (mem : Z -> bytes).
Hypothesis now_u64 : forall n, u64 (now n).

Abbreviation TXPW := (QUIC_FIFD D TXP).
Abbreviation gst := (@TxpGen.gst D).
Abbreviation gen := (@TxpGen.gen D).
Implicit Types g : gst.
#[local] Notation "x <- m ;; k" := (gbind m (fun x => k)) (at level 100, m at next level, right associativity).
#[local] Notation "m ;; k" := (gbind m (fun _ => k)) (at level 100, right associativity).

(** ** The invariant *)

(** The received packets of the space. *)
Definition ackm_ready (a : OSSL_ACKM D) (s : pn_space) : Prop := rx_pre (rxh a s) /\ u64 (s_rx_largest_time (sget (a_space a) s)).

Lemma flush_keeps_time (a : OSSL_ACKM D) s t : s_rx_largest_time (sget (a_space (ackm_set_flush_deadline a s t)) s) = s_rx_largest_time (sget (a_space a) s).
Proof.
  unfold ackm_set_flush_deadline. cbn [a_has_ack_cb field_upd upd_space].
  transitivity (s_rx_largest_time (sget (a_space (upd_space a s (fun sp => sp <| s_rx_ack_flush_deadline := t |>))) s)); [by destruct (a_has_ack_cb a)|].
  by rewrite upd_space_same.
Qed.

(** The frame of a ready space can be encoded, and the space stays ready. *)
Lemma ack_frame_ready (a a' : OSSL_ACKM D) s f : ackm_ready a s -> ossl_ackm_get_ack_frame now a s = (a', f) ->
  ackm_ready a' s /\ (frame_ranges f <> [] -> wf_ack_ranges (frame_ranges f)) /\ u64 (ack_delay_time f) /\ 0 <= num_ack_ranges f <= zlen (ack_ranges f).
Proof.
  intros [Hp Ht] Hop. pose proof (ack_frame_ranges now a a' s f Hop) as Hfr. pose proof (rx_get_ack_frame now a s s) as Hrx. rewrite Hop in Hrx. cbn [fst] in Hrx.
  split; [split; [by rewrite Hrx|]|split; [|split]].
  - apply (f_equal fst) in Hop. unfold ossl_ackm_get_ack_frame, read_now in Hop. cbn [fst] in Hop. rewrite <- Hop, flush_keeps_time, upd_space_same.
    cbn [s_rx_largest_time field_upd]. unfold ackm_fill_rx_ack_ranges. by rewrite upd_space_same.
  - rewrite Hfr. apply (frame_wf now); [apply Hp|]. intros v Hv. by apply (rx_members _ Hp).
  - apply (f_equal snd) in Hop. unfold ossl_ackm_get_ack_frame, read_now in Hop. cbn [snd] in Hop. rewrite <- Hop, flush_keeps_ack, upd_space_same.
    cbn [s_ack ack_delay_time field_upd]. unfold ackm_fill_rx_ack_ranges. rewrite !upd_space_same. cbn [s_rx_largest_time field_upd a_space].
    match goal with |- u64 (if ?b then _ else _) => destruct b end; [|by vm_compute].
    rewrite time_subtract_spec by (try apply now_u64; exact Ht). pose proof (now_u64 (a_clk a)). unfold u64 in *. lia.
  - apply (f_equal snd) in Hop. unfold ossl_ackm_get_ack_frame, read_now in Hop. cbn [snd] in Hop. rewrite <- Hop, flush_keeps_ack, upd_space_same.
    cbn [s_ack num_ack_ranges ack_ranges field_upd]. unfold ackm_fill_rx_ack_ranges. rewrite !upd_space_same. cbn [s_ack num_ack_ranges ack_ranges field_upd].
    rewrite zlen_app. split; [apply zlen_nonneg|]. match goal with |- _ <= _ + zlen ?l => pose proof (zlen_nonneg l) end. lia.
Qed.

(** The packet has a record of the pool, so that it can give it back. *)
Definition rec_ok (g : gst) : Prop := exists id, p_tpkt (g_pkt g) = Some id /\ txpim_wf (ff_txpim (g_w g)) /\ allocated (ff_txpim (g_w g)) id.

(** What the packetiser and its surroundings provide. *)
Record env_ok (lvl e : Z) (ad : archetype_data) (nl : list Z) (qm : QUIC_STREAM_MAP) (g : gst) : Prop := {
  ev_level : g_level g = lvl;
  ev_ad : g_adata g = ad;
  ev_ready : txp_ready (g_t g) (ossl_quic_enc_level_to_pn_space lvl) ad e;
  ev_queue : queue_ready mem (ff_cfq (g_w g)) /\ new_list (ff_cfq (g_w g)) = nl;
  ev_ackm : ackm_ready (ff_ackm (g_w g)) (ossl_quic_enc_level_to_pn_space lvl);
  ev_qsm : tx_qsm (g_t g) = qm;
  ev_rec : rec_ok g }.

Section Inv.
Context (lvl e mx : Z) (ad : archetype_data) (nl : list Z) (qm : QUIC_STREAM_MAP).
Hypothesis archetype_lvl : exists archetype, txp_get_archetype_data lvl archetype = Some ad.

(** The payload so far is the frames [fs]. *)
Record body (fs : list pframe) (g : gst) : Prop := {
  iv_env : env_ok lvl e ad nl qm g;
  iv_helper : helper_ok g /\ max_ppl (g_h g) = mx;
  iv_payload : payload g = pfs_bytes e fs;
  iv_wf : pfs_wf e fs;
  iv_implicit : done_implicit (g_h g) = false -> Forall (fun f => pf_implicit f = false) fs;
  iv_permitted : Forall (fun f => permitted lvl (pf_type f) = true) fs }.

Definition inv (fs : list pframe) (g : gst) : Prop := body fs g /\ have_ack_eliciting g = existsb pf_eliciting fs.
Definition I (g : gst) : Prop := exists fs, inv fs g.

(** A generator that keeps the invariant; a failing one leaves the record. *)
Definition keeps {A} (m : gen A) : Prop := forall g, I g -> wp m (fun _ => I) rec_ok g.

Lemma body_rec fs g : body fs g -> rec_ok g.
Proof. intros H0. apply (iv_env _ _ H0). Qed.

Lemma I_rec g : I g -> rec_ok g.
Proof. intros (fs & H0 & _). by eapply body_rec. Qed.

Lemma I_helper g : I g -> helper_ok g.
Proof. intros (fs & H0 & _). apply (iv_helper _ _ H0). Qed.

Lemma ready_el (t : TXP) s el : txp_ready t s ad e -> txp_ready (t <| tx_el := el |>) s ad e.
Proof. intros []. by split. Qed.

Lemma grown_env bs g g' : env_ok lvl e ad nl qm g -> grown bs g g' -> env_ok lvl e ad nl qm g'.
Proof.
  intros [H1 H2 H3 H4 H5 H7 (id & R1 & R2 & R3)] [(el & Hw) (iov & b & s & Hp & _) _ _ _].
  assert (g_t g' = (g_t g) <| tx_el := el |>) as Ht by (unfold g_t; rewrite Hw; done).
  split; rewrite ?Ht, ?Hw; try done.
  - unfold g_level, g_h in *. by rewrite Hp.
  - unfold g_adata in *. by rewrite Hp.
  - by apply ready_el.
  - exists id. rewrite Hp, Hw. done.
Qed.

Lemma grown_rec bs g g' : rec_ok g -> grown bs g g' -> rec_ok g'.
Proof. intros (id & R1 & R2 & R3) [(el & Hw) (iov & b & s & Hp & _) _ _ _]. exists id. rewrite Hp, Hw. done. Qed.

(** Nothing appended. *)
Lemma inv_nothing fs g g' : inv fs g -> grown [] g g' -> inv fs g'.
Proof.
  intros [[H1 [H2 H2'] H3 H4 H5 H6] H7] Hg. pose proof (grown_env _ _ _ H1 Hg) as He. pose proof (space_left_room g H2) as [_ Hr].
  destruct (grown_helper _ _ _ H2 Hg) as (G1 & _ & _ & _ & G5 & G6 & G7 & _); [done|]. rewrite app_nil_r in G5.
  split; [|by rewrite (gr_e _ _ _ Hg)]. split; try done; [by rewrite G6|by rewrite G5|by rewrite G7].
Qed.

Lemma I_nothing g g' : I g -> grown [] g g' -> I g'.
Proof. intros (fs & Hi) Hg. exists fs. by eapply inv_nothing. Qed.

(** Nothing can follow a frame of implicit length. *)
Definition marked (d : bool) (g : gst) : gst := if d then set_h g ((g_h g) <| done_implicit := true |>) else g.

Lemma env_marked d g : env_ok lvl e ad nl qm g -> env_ok lvl e ad nl qm (marked d g).
Proof. destruct d; [|done]. intros []. by split. Qed.

Lemma helper_marked d g : helper_ok g -> helper_ok (marked d g).
Proof. destruct d; [|done]. intros [L1 L2 L3 [[I1 I2] I3 I4]]. by split. Qed.

(** A frame appended. *)
Lemma body_frame_marked fs f g g' d : body fs g -> grown (pf_bytes e f) g g' -> zlen (pf_bytes e f) <= room g -> done_implicit (g_h g) = false ->
  pf_wf f [] -> pf_implicit f = d -> permitted lvl (pf_type f) = true -> body (fs ++ [f]) (marked d g').
Proof.
  intros [H1 [H2 H2'] H3 H4 H5 H6] Hg Hr Hd Hwf Hi Hp. pose proof (grown_env _ _ _ H1 Hg) as Henv.
  destruct (grown_helper _ _ _ H2 Hg Hr) as (G1 & _ & _ & _ & G5 & G6 & G7 & _).
  split; [by apply env_marked|split; [by apply helper_marked|by destruct d; rewrite <- H2', <- G6]|..].
  - transitivity (payload g'); [by destruct d|]. rewrite G5, H3, pfs_bytes_app. unfold pfs_bytes at 3. cbn. by rewrite app_nil_r.
  - apply pfs_wf_snoc; [done|by apply H5|done].
  - intros Hd'. destruct d; [done|]. apply Forall_app. split; [by apply H5|by apply Forall_singleton].
  - apply Forall_app. split; [done|by apply Forall_singleton].
Qed.

Lemma body_frame fs f g g' : body fs g -> grown (pf_bytes e f) g g' -> zlen (pf_bytes e f) <= room g -> done_implicit (g_h g) = false ->
  pf_wf f [] -> pf_implicit f = false -> permitted lvl (pf_type f) = true -> body (fs ++ [f]) g'.
Proof. intros. by apply (body_frame_marked fs f g g' false). Qed.

(** The payload and the memory of the helper stay. *)
Lemma body_same fs g g' : g_h g' = g_h g -> iov_alloc g' = iov_alloc g -> env_ok lvl e ad nl qm g' -> body fs g -> body fs g'.
Proof.
  intros Hh Ha He [_ [H2 H2'] H3 H4 H5 H6]. split; unfold payload; rewrite ?Hh; try done. split; [|done]. by apply (helper_same g).
Qed.

(** The members that only say what the packet is. *)
Lemma body_flag fs g b : body fs g -> body fs (g <| have_ack_eliciting := b |>).
Proof. intros Hb. apply (body_same fs g); [done|done| |done]. destruct Hb as [[] _ _ _ _ _]. by split. Qed.

Lemma body_non_inflight fs g b : body fs g -> body fs (g <| can_be_non_inflight := b |>).
Proof. intros Hb. apply (body_same fs g); [done|done| |done]. destruct Hb as [[] _ _ _ _ _]. by split. Qed.

Lemma helper_unrestrict g : helper_ok g -> helper_ok (set_h g (tx_helper_unrestrict (g_h g))).
Proof.
  intros [L1 L2 L3 [[I1 I2] I3 I4]]. split; try done. unfold g_h in *. cbn. destruct (reserve_allowed (p_h (g_pkt g))); lia.
Qed.

Lemma body_unrestrict fs g : body fs g -> body fs (set_h g (tx_helper_unrestrict (g_h g))).
Proof. intros [[E1 E2 E3 E4 E5 E6 E7] [H1 H2] H3 H4 H5 H6]. split; try done. split; [by apply helper_unrestrict|done]. Qed.

Lemma wp_ack_eliciting (Q : unit -> gst -> Prop) E g :
  Q tt (set_h (g <| have_ack_eliciting := true |>) (tx_helper_unrestrict (g_h g))) -> wp ack_eliciting Q E g.
Proof. done. Qed.

Lemma existsb_snoc (fs : list pframe) (f : pframe) : existsb pf_eliciting (fs ++ [f]) = existsb pf_eliciting fs || pf_eliciting f.
Proof. rewrite existsb_app. cbn. by rewrite orb_false_r. Qed.

(** A frame appended that makes the packet ack-eliciting. *)
Lemma eliciting_done fs f g : body (fs ++ [f]) g -> pf_eliciting f = true ->
  inv (fs ++ [f]) (set_h (g <| have_ack_eliciting := true |>) (tx_helper_unrestrict (g_h g))).
Proof.
  intros Hb Hf. split; [exact (body_unrestrict _ _ (body_flag _ _ true Hb))|]. rewrite existsb_snoc, Hf. by rewrite orb_true_r.
Qed.

(** The record of the packet changes. *)
Lemma wp_upd_tpkt f (Q : unit -> gst -> Prop) E g : rec_ok g ->
  (forall id, p_tpkt (g_pkt g) = Some id -> Q tt (g <| g_w := (g_w g) <| ff_txpim := tpim_upd (ff_txpim (g_w g)) id f |> |>)) ->
  wp (upd_tpkt f) Q E g.
Proof.
  intros (id & R1 & R2 & (tp & Htp) & R4) HQ. unfold wp, upd_tpkt. rewrite R1. cbn [mbind option_bind]. rewrite Htp. cbn [mbind option_bind]. by apply HQ.
Qed.

Lemma rec_upd g id f : rec_ok g -> (forall p, chunks_ok p -> chunks_ok (f p)) ->
  rec_ok (g <| g_w := (g_w g) <| ff_txpim := tpim_upd (ff_txpim (g_w g)) id f |> |>).
Proof.
  intros (id' & R1 & R2 & R3) Hf. exists id'. destruct (tpim_upd_wf (ff_txpim (g_w g)) id f) as [W A]; [intros p _; apply Hf|done|].
  cbn. split_and!; [done|done|by apply A].
Qed.

Lemma body_upd fs g id f : body fs g -> (forall p, chunks_ok p -> chunks_ok (f p)) ->
  body fs (g <| g_w := (g_w g) <| ff_txpim := tpim_upd (ff_txpim (g_w g)) id f |> |>).
Proof.
  intros Hb Hf. apply (body_same fs g); [done|done| |done]. destruct Hb as [[] _ _ _ _ _]. split; try done. by apply (rec_upd g id f).
Qed.

Lemma I_upd g id f : I g -> (forall p, chunks_ok p -> chunks_ok (f p)) -> I (g <| g_w := (g_w g) <| ff_txpim := tpim_upd (ff_txpim (g_w g)) id f |> |>).
Proof. intros (fs & Hb & He) Hf. exists fs. split; [by apply body_upd|done]. Qed.

Lemma keeps_upd f : (forall p, chunks_ok p -> chunks_ok (f p)) -> forall g, I g -> wp (upd_tpkt f) (fun _ => I) I g.
Proof.
  intros Hf g Hg. apply wp_upd_tpkt; [by apply I_rec|]. intros id _. by apply I_upd.
Qed.

(** A chunk is recorded, or the packet fails. *)
Lemma wp_append_chunk ck (Q : unit -> gst -> Prop) g : rec_ok g ->
  (forall id f, (forall p, chunks_ok p -> chunks_ok (f p)) -> Q tt (g <| g_w := (g_w g) <| ff_txpim := tpim_upd (ff_txpim (g_w g)) id f |> |>)) ->
  wp (append_chunk al ck) Q rec_ok g.
Proof.
  intros Hrec HQ. pose proof Hrec as (id & R1 & R2 & (tp & Htp) & R4). unfold wp, append_chunk. rewrite R1. cbn [mbind option_bind]. rewrite Htp. cbn [mbind option_bind].
  set (re := al_chunk al _ _). destruct (ossl_quic_txpim_pkt_append_chunk re tp ck) as [tp' ok] eqn:Ha.
  assert (chunks_ok tp') as Hc.
  { pose proof (append_chunk_spec re tp ck (tw_chunks _ R2 id tp Htp)) as Hs. rewrite Ha in Hs. apply Hs. }
  destruct ok; [by apply HQ|by apply (rec_upd g id)].
Qed.

(** What the archetypes allow is permitted at their level. *)
Hypothesis lvl_range : 0 <= lvl.

Lemma arch_permits :
  permitted lvl 0x01 = true /\ permitted lvl 0x1C = true /\
  (allow_ack ad = true -> permitted lvl 0x02 = true) /\ (allow_crypto ad = true -> permitted lvl 0x06 = true) /\
  (allow_handshake_done ad = true -> permitted lvl 0x1E = true) /\
  (allow_conn_fc ad = true -> permitted lvl 0x10 = true /\ permitted lvl 0x12 = true /\ permitted lvl 0x13 = true) /\
  (allow_stream_rel ad = true -> forall ty, ty = 0x04 \/ ty = 0x05 \/ ty = 0x11 \/ 0x08 <= ty <= 0x0F -> permitted lvl ty = true) /\
  (allow_conn_close ad = true -> is_space (ossl_quic_enc_level_to_pn_space lvl) QUIC_PN_SPACE_APP = true -> permitted lvl 0x1D = true) /\
  (forall ty, cfq_frame_allowed ad ty = true -> permitted lvl ty = true).
Proof.
  destruct archetype_lvl as [a Ha]. unfold txp_get_archetype_data in Ha.
  destruct (Z.leb_spec QUIC_ENC_LEVEL_NUM lvl); [done|]. destruct (TX_PACKETISER_ARCHETYPE_NUM <=? a); [done|]. cbn [orb] in Ha.
  unfold QUIC_ENC_LEVEL_NUM in *. assert (lvl = 0 \/ lvl = 1 \/ lvl = 2 \/ lvl = 3) as Hl by lia.
  assert (ad = archetypes lvl a) as -> by congruence. unfold cfq_frame_allowed, permitted,
    OSSL_QUIC_FRAME_TYPE_PADDING, OSSL_QUIC_FRAME_TYPE_PING, OSSL_QUIC_FRAME_TYPE_CONN_CLOSE_TRANSPORT, OSSL_QUIC_FRAME_TYPE_ACK_WITHOUT_ECN,
    OSSL_QUIC_FRAME_TYPE_ACK_WITH_ECN, OSSL_QUIC_FRAME_TYPE_CRYPTO, OSSL_QUIC_FRAME_TYPE_NEW_TOKEN, OSSL_QUIC_FRAME_TYPE_PATH_RESPONSE,
    OSSL_QUIC_FRAME_TYPE_HANDSHAKE_DONE, OSSL_QUIC_FRAME_TYPE_NEW_CONN_ID, OSSL_QUIC_FRAME_TYPE_RETIRE_CONN_ID.
  destruct Hl as [-> | [-> | [-> | ->]]]; unfold archetypes; cbn [Z.eqb Pos.eqb QUIC_ENC_LEVEL_INITIAL QUIC_ENC_LEVEL_HANDSHAKE QUIC_ENC_LEVEL_0RTT QUIC_ENC_LEVEL_1RTT orb negb];
    destruct (a =? TX_PACKETISER_ARCHETYPE_NORMAL), (a =? TX_PACKETISER_ARCHETYPE_PROBE); cbn;
    split_and!; try done; try (intros _ ty Hty; bdestruct_all; try done; lia); try (intros ty; bdestruct_all; try done; congruence).
Qed.

(** ** Control frames *)

(** The members of a record that are not its chunks. *)
Ltac chunks_flag := intros ? []; by split.

Lemma keeps_send enc f : writes_frame enc f -> pf_implicit (PfFrame f) = false -> permitted lvl (frame_type_of f) = true ->
  pf_eliciting (PfFrame f) = true -> keeps (send_frame al enc).
Proof.
  intros Hw Hi Hp He g Hg. pose proof Hg as (fs & Hb & Hel). unfold send_frame.
  apply wp_bind, (wp_write_ret al enc (frame_bytes f) (wf_read f [])); [done|by eapply I_helper|intros; eapply grown_rec; [by apply I_rec|done]| |].
  - intros g' Hgr. apply wp_bind, wp_ret, wp_ret. by apply (I_nothing g).
  - intros g' Hwf Hr Hd Hgr _. apply wp_bind, wp_ack_eliciting, wp_ret. exists (fs ++ [PfFrame f]). apply eliciting_done; [|done].
    by apply (body_frame fs (PfFrame f) g g').
Qed.

Lemma keeps_regenerate want min_size enc flag f : writes_frame enc f -> pf_implicit (PfFrame f) = false ->
  (want = true -> permitted lvl (frame_type_of f) = true) -> pf_eliciting (PfFrame f) = true -> (forall p, chunks_ok p -> chunks_ok (flag p)) ->
  keeps (regenerate al want min_size enc flag).
Proof.
  intros Hw Hi Hp He Hf g Hg. pose proof Hg as (fs & Hb & Hel). unfold regenerate, space_left. apply wp_bind, wp_read, wp_when; [|done].
  intros [Hwant _]%andb_prop. apply wp_bind, (wp_write al enc (frame_bytes f) (wf_read f [])); [done|by eapply I_helper|by apply I_rec| |].
  - intros g' Hgr. apply wp_ret. by apply (I_nothing g).
  - intros wpkt Hd Hwf Hr Hi'. apply wp_bind, wp_bind, wp_upd_tpkt; [by apply I_rec|]. intros id _. apply wp_modify.
    set (g1 := (g <| g_w := _ |>) <| have_ack_eliciting := true |>).
    assert (body fs g1) as Hb1 by (apply body_flag, body_upd; done).
    apply wp_bind, wp_commit; [apply (iv_helper _ _ Hb1)|by rewrite Hd|..].
    + intros g2 Hgr _. rewrite Hd in Hgr. apply wp_ret. cbn [gwhen]. unfold unrestrict. apply wp_modify. exists (fs ++ [PfFrame f]). split.
      * apply body_unrestrict. by apply (body_frame fs (PfFrame f) g1 g2); [| | | | | |apply Hp].
      * change (have_ack_eliciting (set_h g2 (tx_helper_unrestrict (g_h g2)))) with (have_ack_eliciting g2).
        rewrite (gr_e _ _ _ Hgr), existsb_snoc, He. by rewrite orb_true_r.
    + intros g2 Hgr. eapply grown_rec; [by eapply body_rec|done].
Qed.

Lemma keeps_bind {A B} (m : gen A) (k : A -> gen B) : keeps m -> (forall x, keeps (k x)) -> keeps (gbind m k).
Proof. intros Hm Hk g Hg. apply wp_bind. eapply wp_mono; [by apply Hm|intros x g' Hg'; by apply Hk|done]. Qed.

Lemma keeps_ret {A} (x : A) : keeps (gret x).
Proof. by intros g Hg. Qed.

Lemma keeps_read {A B} (f : gst -> A) (k : A -> gen B) : (forall g, I g -> wp (k (f g)) (fun _ => I) rec_ok g) -> keeps (gbind (gread f) k).
Proof. intros Hk g Hg. apply wp_bind, wp_read. by apply Hk. Qed.

Lemma keeps_when (b : bool) (m : gen unit) : (b = true -> keeps m) -> keeps (gwhen b m).
Proof. destruct b; cbn; [auto|intros _; apply keeps_ret]. Qed.

(** The invariant gives what the packetiser reads. *)
Lemma I_ready g : I g -> txp_ready (g_t g) (ossl_quic_enc_level_to_pn_space lvl) ad e /\ g_level g = lvl /\ g_adata g = ad /\
  g_space g = ossl_quic_enc_level_to_pn_space lvl.
Proof. intros (fs & [[H1 H2 H3 _ _ _ _] _ _ _ _ _] & _). unfold g_space. by rewrite H1. Qed.

Lemma keeps_max_streams (u : bool) : allow_conn_fc ad = true -> keeps (generate_max_streams al u).
Proof.
  intros Ha. unfold generate_max_streams. apply keeps_read. intros g Hg. destruct (I_ready g Hg) as (Hr & _).
  destruct arch_permits as (_ & _ & _ & _ & _ & Hfc & _). destruct (Hfc Ha) as (_ & P2 & P3).
  apply wp_bind, wp_need. destruct (rd_bidi _ _ _ _ Hr) as (rb & Eb & Cb), (rd_uni _ _ _ _ Hr) as (ru & Eu & Cu).
  exists (if u then ru else rb). split; [by destruct u|].
  apply (keeps_regenerate _ _ _ _ (F_MAX_STREAMS u (cwm (if u then ru else rb)))); [|done|by destruct u|by destruct u|destruct u; chunks_flag|done].
  apply max_streams_writes. by destruct u.
Qed.

Lemma keeps_flow_control : keeps (generate_flow_control al).
Proof.
  unfold generate_flow_control. apply keeps_read. intros g Hg. destruct (I_ready g Hg) as (Hr & _ & Had & _). rewrite Had.
  apply wp_bind, wp_read. destruct arch_permits as (_ & _ & _ & _ & Hdone & Hfc & _).
  revert g Hg Hr Had.
  intros g Hg Hr Had. apply keeps_bind; [|intros _; apply keeps_bind; [|intros _; apply keeps_when; intros Ha; apply keeps_bind; [|intros _]; by apply keeps_max_streams]|done].
  - eapply keeps_regenerate; [apply handshake_done_writes|done| |done|chunks_flag]. intros [? _]%andb_prop. by apply Hdone.
  - eapply keeps_regenerate; [apply max_data_writes, (rd_rxfc _ _ _ _ Hr)|done| |done|chunks_flag]. intros [? _]%andb_prop. by apply Hfc.
Qed.

(** ** ACK and CONNECTION_CLOSE frames; on a failure the packet is as it was *)

Lemma I_ackm g m : I g -> ackm_ready m (ossl_quic_enc_level_to_pn_space lvl) -> I (g <| g_w := (g_w g) <| ff_ackm := m |> |>).
Proof.
  intros (fs & Hb & He) Hm. exists fs. split; [|done]. apply (body_same fs g); [done|done| |done]. destruct Hb as [[] _ _ _ _ _]. by split.
Qed.

Lemma I_ack g : I g -> ackm_ready (ff_ackm (g_w g)) (ossl_quic_enc_level_to_pn_space lvl).
Proof. intros (fs & [[] _ _ _ _ _] & _). done. Qed.

Lemma wp_is_ack_desired (Q : bool -> gst -> Prop) E g : I g -> (forall d g', I g' -> Q d g') -> wp (is_ack_desired now) Q E g.
Proof.
  intros Hg HQ. unfold wp, is_ack_desired. destruct (ossl_ackm_is_ack_desired now (ff_ackm (g_w g)) (g_space g)) as [d m] eqn:Hd.
  apply HQ, I_ackm; [done|]. pose proof (I_ack g Hg) as Ha. revert Hd. unfold ossl_ackm_is_ack_desired, read_now.
  case_match; [by intros [= _ <-]|]. case_match; intros [= _ <-]; done.
Qed.

Lemma keeps_ack : forall g, I g -> wp (generate_ack now al) (fun _ => I) I g.
Proof.
  intros g Hg. destruct (I_ready g Hg) as (Hr & _ & Had & Hs). unfold generate_ack, space_left.
  do 4 apply wp_bind, wp_read. rewrite Had, Hs. set (left := tx_helper_get_space_left _). set (want := has_bit _ _).
  apply wp_bind. apply (wp_mono _ (fun d g' => I g' /\ (d = true -> allow_ack ad = true)) _ I I); [|clear g Hg Hr Had Hs left want|done].
  { destruct (allow_ack ad); cbn [andb]; [|by apply wp_ret]. case_match; [|by apply wp_ret]. destruct want; [by apply wp_ret|].
    by apply wp_is_ack_desired. }
  intros d g [Hg Hd]. destruct (I_ready g Hg) as (Hr & _ & _ & Hs). apply wp_when; [|done]. intros Hdt. pose proof (Hd Hdt) as Ha. clear Hd.
  apply wp_bind. unfold get_ack_frame at 1, wp at 1. rewrite Hs. destruct (ossl_ackm_get_ack_frame now (ff_ackm (g_w g)) _) as [m ack] eqn:Hf.
  destruct (ack_frame_ready _ _ _ _ (I_ack g Hg) Hf) as (Hm & Hwf & Hdl & Hn).
  pose proof (I_ackm g m Hg Hm) as Hg'. set (g1 := g <| g_w := _ |>) in *. clearbody g1. clear g Hg Hr Hs Hf Hm. rename g1 into g, Hg' into Hg.
  destruct (I_ready g Hg) as (Hr & _). destruct (rd_exp _ _ _ _ Hr) as [Hexp He].
  apply wp_bind, wp_read, wp_bind, wp_begin; [by apply I_helper|done|]. intros w1 Hw1 Hl1 Hi. rewrite Hexp.
  destruct (ossl_quic_wire_encode_frame_ack e _ w1) as [w2 []] eqn:Henc; [|by apply wp_ret].
  destruct (ack_writes e ack He Hwf Hdl Hn _ _ Henc) as (W1 & W2 & Hwa). rewrite Hw1 in W1, W2. cbn in W1, W2.
  set (ack' := mkFrameAck _ _ _ _ _ _ _) in *. pose proof Hg as (fs & Hb & Hel).
  assert (zlen (wp_done w2) <= room g) as Hroom by (pose proof (zlen_nonneg (wp_rest w2)); change (zlen (@nil Z)) with 0 in W2; lia).
  apply wp_bind, wp_commit; [by apply I_helper|done| |intros; by apply (I_nothing g)].
  intros g' Hgr _. rewrite W1 in Hgr, Hroom. destruct arch_permits as (_ & _ & Hp & _).
  assert (I g') as Hg'.
  { exists (fs ++ [PfAck ack']). split; [by apply (body_frame fs (PfAck ack') g g'); [| | | | | |apply Hp]|].
    rewrite (gr_e _ _ _ Hgr), existsb_snoc, Hel. by rewrite orb_false_r. }
  apply wp_bind. eapply wp_mono; [apply keeps_upd; [chunks_flag|done]| |done]. intros ? g2 Hg2. apply wp_when; [|done]. intros Hpos.
  apply wp_bind, wp_need. assert (exists r rs, ack_ranges ack = r :: rs) as (r & rs & Hrs).
  { destruct (ack_ranges ack) as [|r rs]; [|by do 2 eexists]. unfold zlen in Hn. cbn in Hn. lia. }
  exists (ar_end r). rewrite Hrs. split; [done|]. apply keeps_upd; [chunks_flag|done].
Qed.

Lemma closing_step t n : exists x, fst (try_commit_conn_close t n) = t <| closing_bytes_xmit := x |>.
Proof.
  assert (t = t <| closing_bytes_xmit := closing_bytes_xmit t |>) as Ht by (by destruct t).
  unfold try_commit_conn_close. case_match; [by exists (closing_bytes_xmit t)|]. cbn. case_match; [by eexists|by exists (closing_bytes_xmit t)].
Qed.

Lemma I_closing g x : I g -> I (set_t g ((g_t g) <| closing_bytes_xmit := x |>)).
Proof.
  intros (fs & Hb & He). exists fs. split; [|done]. apply (body_same fs g); [done|done| |done].
  destruct Hb as [[E1 E2 [] E4 E5 E6 E7] _ _ _ _ _]. by split.
Qed.

Lemma close_for_ok (s : pn_space) f : close_ok f -> close_ok (conn_close_for s f).
Proof. intros Hf. unfold conn_close_for. case_match; [|done]. split_and!; done. Qed.

Lemma keeps_conn_close chosen : forall g, I g -> wp (generate_conn_close al chosen) (fun _ => I) I g.
Proof.
  intros g Hg. destruct (I_ready g Hg) as (Hr & _ & Had & Hs). unfold generate_conn_close. do 3 apply wp_bind, wp_read. rewrite Had, Hs.
  set (s := ossl_quic_enc_level_to_pn_space lvl) in *. apply wp_when; [|done]. intros Hc. apply andb_prop in Hc as [[Ha _]%andb_prop _].
  set (f := conn_close_for s (conn_close_frame (g_t g))). assert (close_ok f) as Hf by apply close_for_ok, Hr.
  apply wp_bind, wp_begin; [by apply I_helper|done|]. intros w1 Hw1 Hl1 Hi.
  destruct (ossl_quic_wire_encode_frame_conn_close f w1) as [w2 []] eqn:Henc; [|by apply wp_ret].
  destruct (conn_close_writes f Hf _ _ Henc) as (W1 & W2 & Hwa). rewrite Hw1 in W1, W2. cbn in W1.
  assert (zlen (wp_done w2) <= room g) as Hroom by (pose proof (zlen_nonneg (wp_rest w2)); change (zlen (wp_done (mkWpkt [] []))) with 0; unfold zlen in *; cbn in W2; lia).
  destruct (try_commit_conn_close (g_t g) (zlen (wp_done w2))) as [t ok] eqn:Ht.
  destruct (closing_step (g_t g) (zlen (wp_done w2))) as [x Hx]. rewrite Ht in Hx. cbn [fst] in Hx. subst t.
  apply wp_bind, wp_modify. pose proof (I_closing g x Hg) as Hg1. change (room g) with (room (set_t g ((g_t g) <| closing_bytes_xmit := x |>))) in Hroom.
  change (done_implicit (g_h g)) with (done_implicit (g_h (set_t g ((g_t g) <| closing_bytes_xmit := x |>)))) in Hi.
  set (g1 := set_t g _) in *. clearbody g1. apply wp_when; [|done]. intros _. pose proof Hg1 as (fs & Hb & Hel).
  apply wp_bind, wp_commit; [by apply I_helper|done| |intros; by apply (I_nothing g1)].
  intros g' Hgr _. rewrite W1 in Hgr, Hroom. destruct arch_permits as (_ & P0 & _ & _ & _ & _ & _ & P1 & _).
  assert (I g') as Hg'.
  { exists (fs ++ [PfFrame (F_CONN_CLOSE (close_read f))]). split.
    - apply (body_frame fs (PfFrame (F_CONN_CLOSE (close_read f))) g1 g'); try done. cbn. destruct (cc_is_app f) eqn:Eapp; [|done].
      apply P1; [done|]. subst f. unfold conn_close_for in Eapp. fold s. destruct (is_space s QUIC_PN_SPACE_APP) eqn:Es; [done|]. cbn [negb andb] in Eapp.
      destruct (cc_is_app (conn_close_frame (g_t g))) eqn:Ec; [done|]. congruence.
    - rewrite (gr_e _ _ _ Hgr), existsb_snoc, Hel.
      assert (pf_eliciting (PfFrame (F_CONN_CLOSE (close_read f))) = false) as -> by (unfold pf_eliciting; cbn; by destruct (cc_is_app f)).
      by rewrite orb_false_r. }
  apply wp_bind. eapply wp_mono; [apply keeps_upd; [chunks_flag|done]| |done]. intros ? g2 (fs2 & Hb2 & Hel2). apply wp_modify.
  exists fs2. split; [by apply body_non_inflight|done].
Qed.

Lemma clear_acked_ok p : chunks_ok p -> chunks_ok (clear_largest_acked p).
Proof. intros []. by split. Qed.

Lemma keeps_pre_token chosen : forall g, I g -> wp (txp_generate_pre_token now al chosen) (fun _ => I) I g.
Proof.
  intros g Hg. unfold txp_generate_pre_token. apply wp_bind. eapply wp_mono; [apply keeps_upd; [apply clear_acked_ok|done]| |done].
  intros ? g1 Hg1. apply wp_bind. eapply wp_mono; [by apply keeps_ack| |done]. intros ? g2 Hg2. by apply keeps_conn_close.
Qed.

(** ** CRYPTO frames *)

Lemma wp_append_all iov : forall (Q : unit -> gst -> Prop) E g, helper_ok g -> zlen (concat iov) <= room g -> Z.of_nat (length iov) <= spare g ->
  done_implicit (g_h g) = false -> (forall g', grown (concat iov) g g' -> Q tt g') -> wp (append_all al iov) Q E g.
Proof.
  induction iov as [|v iov IH]; intros Q E g Hok Hr Hs Hd HQ; [by apply HQ, grown_refl|]. cbn [append_all concat length] in *. rewrite zlen_app in Hr.
  pose proof (zlen_nonneg (concat iov)). apply wp_bind, wp_append; [done|lia|lia|done|]. intros g1 Hg Hsp.
  destruct (grown_helper _ _ _ Hok Hg) as (G1 & G2 & _ & _ & _ & _ & G7 & _); [lia|]. apply IH; [done|lia|lia|by rewrite G7|].
  intros g2 Hg2. apply HQ. by apply (grown_trans v (concat iov) g g1 g2).
Qed.

Lemma wp_assoc {A B C} (m : gen A) (k : A -> gen B) (k' : B -> gen C) (Q : C -> gst -> Prop) E g :
  wp (gbind (gbind m k) k') Q E g -> wp (gbind m (fun x => gbind (k x) k')) Q E g.
Proof. unfold wp, gbind. destruct (m g) as [[g' [x|]]|]; auto. Qed.

(** A header with room for the data behind it, and vectors for them. *)
Lemma wp_header enc hdr (P : Prop) n (Q : bool -> gst -> Prop) (E : gst -> Prop) g : writes enc hdr P -> helper_ok g -> zlen hdr + n <= room g -> 0 <= n ->
  (forall g', grown [] g g' -> E g') -> (forall g', grown [] g g' -> Q false g') ->
  (forall g', P -> done_implicit (g_h g) = false -> grown hdr g g' -> 2 <= spare g' -> Q true g') ->
  wp (ensure_iovec al 3 ;; write_frame al enc (gret tt)) Q E g.
Proof.
  intros Hw Hok Hr Hn HE HF HT. pose proof (zlen_nonneg hdr). pose proof (space_left_room g Hok) as [_ Hroom].
  apply wp_bind, wp_ensure; [done|done| |done]. intros g1 Hg1 Hs1. destruct (grown_helper _ _ _ Hok Hg1) as (G1 & G2 & _ & _ & _ & _ & G7 & _); [done|].
  assert (forall bs g2, grown bs g1 g2 -> grown bs g g2) as Ht by (intros bs g2 Hg2; by apply (grown_trans [] bs g g1 g2)).
  apply (wp_write_ret al enc hdr P); [done|done|auto|auto|]. intros g2 HP Hr2 Hd Hg2 Hs2. apply HT; [done|by rewrite <- G7|auto|lia].
Qed.

(** The frame of a header and data. *)
Lemma data_done fs f g g' d : inv fs g -> grown (pf_bytes e f) g g' -> zlen (pf_bytes e f) <= room g -> done_implicit (g_h g) = false ->
  pf_wf f [] -> pf_implicit f = d -> permitted lvl (pf_type f) = true -> pf_eliciting f = true ->
  I (marked d (set_h (g' <| have_ack_eliciting := true |>) (tx_helper_unrestrict (g_h g')))).
Proof.
  intros [Hb _] Hg Hr Hd Hwf Hi Hp He. exists (fs ++ [f]).
  replace (marked d _) with (set_h ((marked d g') <| have_ack_eliciting := true |>) (tx_helper_unrestrict (g_h (marked d g')))) by (by destruct d).
  apply eliciting_done; [|done]. by apply (body_frame_marked fs f g).
Qed.

(** The reserve is given up when the packet becomes ack-eliciting. *)
Lemma data_room bs g g' d : helper_ok g -> grown bs g g' ->
  room (marked d (set_h (g' <| have_ack_eliciting := true |>) (tx_helper_unrestrict (g_h g')))) <= room g - zlen bs + 1.
Proof.
  intros [_ H1 _ _] [_ (iov & b & s & Hp & _ & Hb) _ _ _]. assert (g_h g' = (g_h g) <| h_iovec := iov |> <| bytes_appended := b |> <| scratch_bytes := s |>) as Hh by (unfold g_h at 1; by rewrite Hp).
  destruct d; unfold room; cbn; rewrite Hh; cbn; destruct (reserve_allowed (g_h g)); lia.
Qed.

Lemma crypto_loop_spec ss : ss_offers ss -> allow_crypto ad = true -> forall fuel i g, room g < Z.of_nat fuel -> 0 <= i -> I g ->
  wp (crypto_loop al fuel ss i) (fun _ => I) rec_ok g.
Proof.
  intros Hss Had. induction fuel as [|fuel IH]; intros i g Hf Hi Hg.
  { destruct (space_left_room g (I_helper g Hg)). lia. }
  pose proof Hg as (fs & Hb & Hel). destruct (space_left_room g (I_helper g Hg)) as [Hsl Hr0]. pose proof (room_max g (I_helper g Hg)) as Hrm.
  cbn [crypto_loop]. unfold space_left. apply wp_bind, wp_read. rewrite Hsl. case_match; [done|].
  destruct (ossl_quic_sstream_get_stream_frame ss i 2) as [[h iov]|] eqn:Hfr; [|done]. destruct (Hss i h iov Hi Hfr) as (F1 & F2 & F3 & F4).
  pose proof (zlen_nonneg (concat iov)). destruct (Z.eqb_spec (h_len h) 0); [done|].
  destruct (determine_crypto_len _ _) as [[hl len]|] eqn:Hd; [|done]. apply determine_crypto_spec in Hd as (D1 & D2 & D3 & D4); [|lia|lia|lia].
  destruct (adjust_iov_spec len iov) as (A1 & A2 & A3); [unfold OSSL_QUIC_VLINT_MAX in *; lia|lia|]. set (iov' := ossl_quic_sstream_adjust_iov len iov) in *.
  set (f := F_CRYPTO (mkFrameCrypto (h_offset h) len (Some (concat iov')))).
  apply wp_assoc, wp_bind, (wp_header _ _ _ len _ _ _ (crypto_hdr_writes (mkFrameCrypto (h_offset h) len None) ltac:(cbn; lia) ltac:(cbn; lia))).
  { by apply I_helper. } { done. } { lia. } { intros. eapply grown_rec; [by apply I_rec|done]. } { intros. by apply wp_ret, (I_nothing g). }
  intros g1 _ Hdn Hg1 Hs1. cbn [negb fc_offset fc_len] in *. destruct (grown_helper _ _ _ (I_helper g Hg) Hg1) as (G1 & G2 & _ & _ & _ & _ & G7 & _); [lia|].
  apply wp_bind, wp_append_all; [done|lia|lia|congruence|]. intros g2 Hg2. apply wp_bind, wp_ack_eliciting.
  pose proof (grown_trans _ _ _ _ _ Hg1 Hg2) as Hg12. assert (pf_bytes e (PfFrame f) = (venc 6 ++ venc (h_offset h) ++ venc len) ++ concat iov') as Hfb.
  { cbn. by rewrite <- !app_assoc. }
  rewrite <- Hfb in Hg12. assert (zlen (pf_bytes e (PfFrame f)) <= room g) as Hfr' by (rewrite Hfb, zlen_app; lia).
  destruct (arch_permits) as (_ & _ & _ & Hp & _).
  assert (I (set_h (g2 <| have_ack_eliciting := true |>) (tx_helper_unrestrict (g_h g2)))) as Hg3.
  { apply (data_done fs (PfFrame f) g g2 false); try done; [|by apply Hp]. cbn. split_and!; [done|lia|lia|by exists (concat iov')|lia]. }
  apply wp_bind, wp_append_chunk; [by apply I_rec|]. intros id ch Hch. apply IH; [|unfold zlen; rewrite A3; u64_lia|by apply I_upd].
  assert (1 <= zlen (venc 6)) by (by vm_compute). rewrite Hfb, !zlen_app in Hfr'. pose proof (zlen_nonneg (venc (h_offset h))). pose proof (zlen_nonneg (venc len)).
  pose proof (data_room (pf_bytes e (PfFrame f)) g g2 false (I_helper g Hg) Hg12) as Hdr. rewrite Hfb, !zlen_app in Hdr.
  change (room (set_h (g2 <| have_ack_eliciting := true |>) (tx_helper_unrestrict (g_h g2))) < Z.of_nat fuel). cbn [marked] in Hdr. lia.
Qed.

Lemma keeps_crypto : allow_crypto ad = true -> keeps (txp_generate_crypto_frames al).
Proof.
  intros Ha g Hg. destruct (I_ready g Hg) as (Hr & _ & _ & Hs). unfold txp_generate_crypto_frames. destruct (rd_crypto _ _ _ _ Hr Ha) as (ss & E1 & E2).
  apply wp_bind, wp_need. exists ss. rewrite Hs. split; [done|]. apply wp_bind, wp_read. destruct (space_left_room g (I_helper g Hg)) as [-> ?].
  apply crypto_loop_spec; [done|done|lia|done|done].
Qed.

(** ** STREAM frames *)

Definition info_ok (c : chunk_info) : Prop :=
  0 <= h_offset (ci_shdr c) /\ 0 <= h_len (ci_shdr c) <= ci_orig_len c /\ h_offset (ci_shdr c) + h_len (ci_shdr c) <= OSSL_QUIC_VLINT_MAX /\
  ci_orig_len c = zlen (concat (ci_iov c)) /\ ci_orig_len c <= OSSL_QUIC_VLINT_MAX /\ (length (ci_iov c) <= 2)%nat.

Lemma plan_ok ss txfc conn skip consumed c : ss_offers ss -> 0 <= skip -> txp_plan_stream_chunk ss txfc conn skip consumed = Some (Some c) -> info_ok c.
Proof.
  intros Hss Hs. unfold txp_plan_stream_chunk. destruct (ossl_quic_sstream_get_stream_frame ss skip 2) as [[h iov]|] eqn:Hf; [|done].
  destruct (Hss skip h iov Hs Hf) as (F1 & F2 & F3 & F4). pose proof (zlen_nonneg (concat iov)). case_match; [done|].
  set (lim := ossl_quic_txfc_get_swm txfc +u _). assert (u64 lim) as Hlim by apply add64_u64. clearbody lim. unfold u64 in Hlim.
  rewrite add64_small by (unfold OSSL_QUIC_VLINT_MAX in *; u64_side). set (h' := if (_ : bool) then mkHdr _ _ _ else h).
  assert (h_offset h' = h_offset h /\ 0 <= h_len h' <= h_len h) as [O1 O2].
  { subst h'. destruct ((0 <? h_len h) && (lim <? h_offset h + h_len h)) eqn:Ec; [|lia]. apply andb_prop in Ec as [_ Ec%Z.ltb_lt]. cbn. split; [done|].
    destruct (Z.leb_spec lim (h_offset h)); [lia|]. rewrite sub64_small by u64_side. lia. }
  clearbody h'. case_match; [done|]. intros [= <-]. unfold info_ok. cbn. rewrite O1. lia.
Qed.

Lemma stream_frame_bytes id off len explicit fin d :
  pf_bytes e (PfFrame (F_STREAM (mkFrameStream id off len (Some d) explicit fin))) = stream_hdr_bytes (mkFrameStream id off len None explicit fin) ++ d.
Proof. cbn. unfold stream_hdr_bytes. cbn. rewrite <- !app_assoc. done. Qed.

Section Loop.
Context (id : Z) (ss : QUIC_SSTREAM) (txfc conn : QUIC_TXFC) (has_next : bool) (consumed : Z).
Hypothesis Hid : 0 <= id.
Hypothesis Hss : ss_offers ss.
Hypothesis Hallow : allow_stream_rel ad = true.

(** A STREAM frame and its data. *)
Lemma stream_frame_step off explicit len orig fin iov (fuel : Z) g : I g -> room g < fuel + 1 ->
  0 <= off -> 0 <= len <= orig -> off + len <= OSSL_QUIC_VLINT_MAX -> orig = zlen (concat iov) -> orig <= OSSL_QUIC_VLINT_MAX -> (length iov <= 2)%nat ->
  zlen (stream_hdr_bytes (mkFrameStream id off len None explicit fin)) + len <= room g ->
  wp (ensure_iovec al 3 ;; write_frame al (ossl_quic_wire_encode_frame_stream_hdr (mkFrameStream id off len None explicit fin)) (gret tt))
    (fun fits g1 => if fits : bool then
       forall ck, wp ((append_all al (ossl_quic_sstream_adjust_iov len iov) ;; ack_eliciting ;;
           gwhen (negb explicit) (gmodify (fun g => set_h g ((g_h g) <| done_implicit := true |>)))) ;; append_chunk al ck)
         (fun _ g2 => I g2 /\ room g2 < fuel) rec_ok g1
     else I g1) rec_ok g.
Proof.
  intros Hg Hfu Ho Hl Hmax Horig Hom Hiov Hroom. pose proof (I_helper g Hg) as Hok. pose proof Hg as (fs & Hinv).
  destruct (adjust_iov_spec len iov) as (A1 & A2 & A3); [unfold OSSL_QUIC_VLINT_MAX in *; lia|lia|]. set (iov' := ossl_quic_sstream_adjust_iov len iov) in *.
  set (h := mkFrameStream id off len None explicit fin) in *. set (f := PfFrame (F_STREAM (mkFrameStream id off len (Some (concat iov')) explicit fin))).
  assert (pf_bytes e f = stream_hdr_bytes h ++ concat iov') as Hfb by apply stream_frame_bytes. pose proof (space_left_room g Hok) as [_ Hr0].
  apply (wp_header _ (stream_hdr_bytes h) (vlint id) len); [apply (stream_hdr_writes h); cbn; lia|done|done|lia| | |].
  { intros. eapply grown_rec; [by apply I_rec|done]. } { intros. by apply (I_nothing g). }
  intros g1 Hvid Hdn Hg1 Hs1 ck. pose proof (zlen_nonneg (stream_hdr_bytes h)). destruct (grown_helper _ _ _ Hok Hg1) as (G1 & G2 & _ & _ & _ & _ & G7 & _); [lia|].
  apply wp_bind, wp_bind, wp_append_all; [done|lia|lia|congruence|]. intros g2 Hg2. apply wp_bind, wp_ack_eliciting.
  pose proof (grown_trans _ _ _ _ _ Hg1 Hg2) as Hg12. rewrite <- Hfb in Hg12. assert (zlen (pf_bytes e f) <= room g) as Hfr by (rewrite Hfb, zlen_app; lia).
  destruct (arch_permits) as (_ & _ & _ & _ & _ & _ & Hp & _).
  assert (I (marked (negb explicit) (set_h (g2 <| have_ack_eliciting := true |>) (tx_helper_unrestrict (g_h g2))))) as Hg3.
  { apply (data_done fs f g g2); try done.
    - cbn. split_and!; [done|done|lia|done| |done]. exists (concat iov'). by rewrite A2.
    - cbn -[Z.add]. apply (Hp Hallow). do 3 right. repeat case_match; lia.
    - cbn -[Z.add]. unfold pf_eliciting. cbn -[Z.add]. by destruct (off =? 0), explicit, fin. }
  assert (2 <= zlen (stream_hdr_bytes h)) as Hh2.
  { unfold stream_hdr_bytes. rewrite !zlen_app. pose proof (venc_nonempty (frame_type_of (F_STREAM h)) (frame_type_vlint _)). pose proof (venc_nonempty id Hvid).
    repeat match goal with |- context [if ?b then ?x else ?y] => pose proof (zlen_nonneg (if b then x else y)); generalize dependent (if b then x else y); intros end.
    unfold zlen in *. cbn [fs_stream_id h]. lia. }
  pose proof (data_room (pf_bytes e f) g g2 (negb explicit) Hok Hg12) as Hdr. rewrite Hfb, zlen_app in Hdr.
  apply (wp_mono _ (fun _ g3 => g3 = marked (negb explicit) (set_h (g2 <| have_ack_eliciting := true |>) (tx_helper_unrestrict (g_h g2)))) _ rec_ok);
    [by destruct explicit| |done].
  intros ? g3 ->. set (g3 := marked _ _) in *. apply wp_append_chunk; [by apply I_rec|]. intros i ch Hch. split; [by apply I_upd|].
  change (room g3 < fuel). lia.
Qed.

(** The loop ends: every frame takes more than the reserve that it may release. *)
Definition loop_post (r : option (gst * (bool * Z * bool))) : Prop :=
  exists g full hwm ok, r = Some (g, (full, hwm, ok)) /\ (if ok : bool then I g else rec_ok g).

Lemma loop_stop g full hwm (ok : bool) : I g -> loop_post (Some (g, (full, hwm, ok))).
Proof. intros Hg. exists g, full, hwm, ok. split; [done|]. destruct ok; [done|by apply I_rec]. Qed.

Lemma stream_loop_spec fuel : forall i cur next full hwm g, room g < Z.of_nat fuel -> 0 <= i -> I g ->
  (forall c, cur = Some c -> info_ok c) -> (forall c, next = Some c -> info_ok c) ->
  loop_post (stream_loop al id ss txfc conn has_next consumed fuel i cur next full hwm g).
Proof.
  induction fuel as [|fuel IH]; intros i cur next full hwm g Hf Hi Hg Hcur Hnext.
  { destruct (space_left_room g (I_helper g Hg)). lia. }
  cbn [stream_loop]. pose proof (space_left_room g (I_helper g Hg)) as [Hsl Hr0]. pose proof (room_max g (I_helper g Hg)) as Hrm. rewrite Hsl.
  destruct cur as [c|]; [|by apply loop_stop]. destruct (Hcur c eq_refl) as (C1 & C2 & C3 & C4 & C5 & C6).
  case_match; [by apply loop_stop|]. case_match; [by apply loop_stop|].
  set (nx := if 0 <? i then _ else Some next). assert (forall c, nx = Some (Some c) -> info_ok c) as Hnx.
  { subst nx. intros c' Hc'. destruct (0 <? i); [|injection Hc' as Hc'; by apply Hnext].
    eapply plan_ok; [exact Hss| |exact Hc']. pose proof (add64_u64 i 1). unfold u64 in *. lia. }
  clearbody nx. clear Hnext Hcur next. destruct nx as [next|]; [|by apply loop_stop].
  destruct (determine_stream_len _ _) as [[hl len0]|] eqn:Hd0; [|by apply loop_stop].
  apply (determine_stream_spec (frame_of id (ci_shdr c) false (h_len (ci_shdr c)) (h_is_fin (ci_shdr c)))) in Hd0 as [D1 D2];
    [|cbn; lia..]. cbn [frame_of fs_stream_id fs_offset fs_len fs_has_explicit_len] in D1, D2.
  set (ex := negb _). clearbody ex.
  set (ln := if ex then _ else Some len0). assert (forall len, ln = Some len -> 0 <= len <= h_len (ci_shdr c) /\
    forall fin, zlen (stream_hdr_bytes (mkFrameStream id (h_offset (ci_shdr c)) len None ex fin)) + len <= room g) as Hln.
  { subst ln. intros len. destruct ex; [|intros [= <-]; by split].
    destruct (determine_stream_len _ _) as [[hl' len1]|] eqn:Hd1; [|done]. intros [= <-].
    by apply (determine_stream_spec (frame_of id (ci_shdr c) true (h_len (ci_shdr c)) (h_is_fin (ci_shdr c)))) in Hd1; [|cbn; lia..]. }
  clearbody ln. destruct ln as [len|]; [|by apply loop_stop]. destruct (Hln len eq_refl) as [L1 L2]. clear Hln D1 D2.
  set (fin := if len <? ci_orig_len c then false else _). clearbody fin. unfold frame_of.
  pose proof (stream_frame_step (h_offset (ci_shdr c)) ex len (ci_orig_len c) fin (ci_iov c) (Z.of_nat fuel) g Hg ltac:(lia) ltac:(lia) ltac:(lia) ltac:(lia)
    C4 C5 C6 (L2 fin)) as Hstep. unfold wp in Hstep at 1.
  destruct ((ensure_iovec al 3 ;; _) g) as [[g1 [[]|]]|]; [|by apply loop_stop|exists g1; by eexists _, _, _|done].
  set (ck := mkChunk _ _ _ _ _ _). specialize (Hstep ck). unfold wp in Hstep.
  destruct (gbind _ _ g1) as [[g2 [?|]]|]; [|exists g2; by eexists _, _, _|done]. destruct Hstep as [Hg2 Hr2].
  case_match; [by apply loop_stop|]. apply IH; [done|pose proof (add64_u64 i 1); unfold u64 in *; lia|done| |done].
  destruct (h_is_fin (ci_shdr c)); [done|]. intros c' ->. by apply Hnx.
Qed.

Lemma stream_frames_spec g : I g -> loop_post (txp_generate_stream_frames al id ss txfc conn has_next consumed g).
Proof.
  intros Hg. unfold txp_generate_stream_frames. destruct (txp_plan_stream_chunk ss txfc conn 0 consumed) as [[c0|]|] eqn:E0; [|by apply loop_stop..].
  destruct (txp_plan_stream_chunk ss txfc conn 1 consumed) as [c1|] eqn:E1; [|by apply loop_stop].
  destruct (space_left_room g (I_helper g Hg)) as [-> Hr0].
  destruct (stream_loop_spec (S (Z.to_nat (room g))) 0 (Some c0) c1 false (ossl_quic_txfc_get_swm txfc) g) as (g' & full & hwm & ok & -> & Hp);
    [lia|done|done| | |].
  - intros c [= <-]. by apply (plan_ok ss txfc conn 0 consumed).
  - intros c ->. by apply (plan_ok ss txfc conn 1 consumed).
  - cbn. by eexists _, _, _, _.
Qed.
End Loop.

(** ** The frames of a stream *)

(** A frame that its writer wrote is committed. *)
Lemma wp_commit_frame f w (Q : unit -> gst -> Prop) g : I g -> wp_done w = frame_bytes f -> zlen (wp_done w) <= room g -> done_implicit (g_h g) = false ->
  wf_read f [] -> pf_implicit (PfFrame f) = false -> permitted lvl (frame_type_of f) = true -> pf_eliciting (PfFrame f) = true ->
  (forall g', I (set_h (g' <| have_ack_eliciting := true |>) (tx_helper_unrestrict (g_h g'))) -> Q tt g') -> wp (commit_frame al w) Q rec_ok g.
Proof.
  intros Hg Hw Hr Hd Hwf Hi Hp He HQ. pose proof Hg as (fs & Hinv). apply wp_commit; [by apply I_helper|done| |intros; eapply grown_rec; [by apply I_rec|done]].
  intros g' Hgr _. rewrite Hw in Hgr, Hr. apply HQ. by apply (data_done fs (PfFrame f) g g' false).
Qed.

Lemma keeps_reset s : stream_ready s -> allow_stream_rel ad = true -> keeps (send_reset al s).
Proof.
  intros [S1 S2 S3 S4 S5 S6] Ha g Hg. unfold send_reset. apply wp_bind, wp_assert; [by apply I_rec|]. intros Hst%bool_decide_eq_true.
  apply wp_bind, wp_begin; [by apply I_helper|by apply I_rec|]. intros w1 Hw1 Hl1 Hd. apply wp_bind, wp_need. exists (Some (qs_send_final_size s)).
  unfold ossl_quic_stream_send_get_final_size. rewrite Hst. split; [done|].
  set (f := mkFrameResetStream _ _ _). destruct (ossl_quic_wire_encode_frame_reset_stream f w1) as [w2 []] eqn:Henc; [|by apply wp_ret].
  destruct (reset_writes f S1 S3 S4 _ _ Henc) as (W1 & W2 & Hwf). rewrite Hw1 in W1, W2. cbn in W1. pose proof (zlen_nonneg (wp_rest w2)).
  destruct arch_permits as (_ & _ & _ & _ & _ & _ & Hp & _).
  apply wp_bind, (wp_commit_frame (F_RESET_STREAM f)); try done; [change (zlen (@nil Z)) with 0 in W2; lia|apply (Hp Ha); by left|].
  intros g' Hg'. apply wp_bind, wp_ack_eliciting, wp_bind, wp_assert; [by apply I_rec|]. intros _. by apply wp_ret.
Qed.

Lemma I_enlink ts g : I g -> I (g <| g_pkt := (g_pkt g) <| stream_head := ts :: stream_head (g_pkt g) |> |>).
Proof.
  intros (fs & Hb & He). exists fs. split; [|done]. apply (body_same fs g); [done|done| |done]. destruct Hb as [[] _ _ _ _ _]. by split.
Qed.

Lemma keeps_enlink ts : keeps (enlink ts).
Proof. intros g Hg. apply wp_modify. by apply I_enlink. Qed.

Lemma keeps_assert b : keeps (gassert b).
Proof. intros g Hg. by apply wp_assert; [apply I_rec|]. Qed.

Lemma keeps_need {A} (f : gst -> option A) : (forall g, I g -> is_Some (f g)) -> keeps (gneed f).
Proof. intros Hf g Hg. apply wp_need. destruct (Hf g Hg) as [x Hx]. by exists x. Qed.

Lemma keeps_if {A} (b : bool) (m k : gen A) : (b = true -> keeps m) -> (b = false -> keeps k) -> keeps (if b then m else k).
Proof. destruct b; auto. Qed.

Lemma I_qsm g : I g -> tx_qsm (g_t g) = qm /\ qsm_ok qm /\ map_Forall (fun _ => stream_ready) (qsm_map qm).
Proof. intros (fs & [[] _ _ _ _ _] & _). destruct ev_ready0. by subst qm. Qed.

Lemma keeps_visit_stream id has_next consumed : is_Some (qsm_map qm !! id) -> allow_stream_rel ad = true ->
  keeps (visit_stream al id has_next consumed).
Proof.
  intros [s Hs] Ha g Hg. destruct (I_qsm g Hg) as (Eq & Hok & Hrd). pose proof (Hrd id s Hs) as Hsr. pose proof (ok_streams _ Hok id s Hs) as Hso.
  pose proof Hsr as [S1 S2 S3 S4 S5 S6]. destruct arch_permits as (_ & _ & _ & _ & _ & _ & Hp & _). specialize (Hp Ha).
  unfold visit_stream, get_stream. apply wp_bind, wp_need. exists s. rewrite Eq. split; [done|]. clear Eq. apply wp_bind, wp_read.
  generalize (tx_conn_txfc (g_t g)). intros conn. revert g Hg.
  apply keeps_bind; [apply keeps_if; intros _; [|apply keeps_ret]; eapply keeps_send; [by apply stop_sending_writes|done|apply Hp; cbn; lia|done]|].
  intros fits. apply keeps_if; intros _; [apply keeps_bind; [apply keeps_enlink|intros; apply keeps_ret]|].
  apply keeps_bind; [apply keeps_if; intros _; [by apply keeps_reset|apply keeps_ret]|]. intros [credit|]; [|apply keeps_bind; [apply keeps_enlink|intros; apply keeps_ret]].
  apply keeps_bind; [apply keeps_if; intros _; [|apply keeps_ret]; eapply keeps_send; [by apply max_stream_data_writes|done|apply Hp; cbn; lia|done]|].
  intros fits2. apply keeps_if; intros _; [apply keeps_bind; [apply keeps_enlink|intros; apply keeps_ret]|].
  apply keeps_if; intros Hsend; [|apply keeps_bind; [apply keeps_enlink|intros; apply keeps_ret]].
  apply keeps_bind; [apply keeps_assert|intros _]. apply andb_prop in Hsend as [Hbuf _]. apply (sk_sstream _ _ Hso) in Hbuf as [ss Hss].
  intros g Hg. apply wp_bind, wp_need. exists ss. split; [done|]. apply wp_bind.
  destruct (stream_frames_spec (qs_id s) ss (qs_txfc s) conn has_next consumed S1 (S6 ss Hss) Ha g Hg) as (g' & full & hwm & ok & Hr & Hpost).
  unfold wp at 1. rewrite Hr. cbn [mbind option_bind]. apply wp_bind. unfold enlink. apply wp_modify, wp_bind.
  destruct ok; [|exact Hpost]. apply wp_assert; [apply I_rec, I_enlink, Hpost|]. intros _. apply wp_ret, I_enlink, Hpost.
Qed.

Lemma keeps_visits l : forall fuel it consumed, iter_walk fuel qm it = Some l -> Forall (fun id => is_Some (qsm_map qm !! id)) l ->
  allow_stream_rel ad = true -> keeps (stream_visits al fuel it consumed).
Proof.
  induction l as [|id l IH]; intros fuel it consumed Hw Hl Ha g Hg.
  { destruct fuel, it as [? []]; try done. all: cbn in Hw. all: destruct (iter_walk _ _ _) in Hw; done. }
  destruct fuel as [|fuel]; [by destruct it as [? []]|]. destruct it as [f [x|]]; [|done]. cbn [iter_walk it_stream] in Hw.
  destruct (iter_walk fuel qm _) as [l'|] eqn:Ew in Hw; [|done]. injection Hw as -> ->. apply Forall_cons in Hl as [Hid Hl].
  cbn [stream_visits it_stream]. apply wp_bind, wp_read. destruct (I_qsm g Hg) as (-> & _). revert g Hg.
  apply keeps_bind; [by apply keeps_visit_stream|]. intros [c|]; [by apply IH|apply keeps_ret].
Qed.

(** ** Queued control frames *)

Lemma I_queue g : I g -> queue_ready mem (ff_cfq (g_w g)) /\ new_list (ff_cfq (g_w g)) = nl.
Proof. intros (fs & [[] _ _ _ _ _] & _). done. Qed.

Lemma frame_bytes_nonempty f : frame_bytes f <> [].
Proof.
  intros Hf. pose proof (venc_nonempty (frame_type_of f) (frame_type_vlint f)). unfold frame_bytes in Hf. apply (f_equal length) in Hf.
  rewrite length_app in Hf. cbn in Hf. lia.
Qed.

(** The item is linked into the packet's list. *)
Definition with_item (g : gst) (id : Z) (tp : QUIC_TXPIM_PKT) (item : Z) : gst :=
  let '(tp, c) := ossl_quic_txpim_pkt_add_cfq_item tp (ff_cfq (g_w g)) item in
  g <| g_w := (g_w g) <| ff_txpim := tpim_upd (ff_txpim (g_w g)) id (fun _ => tp) |> <| ff_cfq := c |> |>.

Lemma body_item fs g id tp item : body fs g -> tpim_pkts (ff_txpim (g_w g)) !! id = Some tp -> body fs (with_item g id tp item).
Proof.
  intros Hb Htp. apply (body_same fs g); [done|done| |done]. pose proof (body_rec _ _ Hb) as Hrec. destruct Hb as [[E1 E2 E3 [[Q1 Q2] E4] E5 E6 E7] _ _ _ _ _].
  split; try done.
  - split; [split; [by apply relink_wf|]|done]. intros a i. cbn -[alter]. destruct (decide (item = a)) as [<-|]; [|rewrite lookup_alter_ne by done; apply Q2].
    rewrite lookup_alter_eq. destruct (cfq_items (ff_cfq (g_w g)) !! item) as [j|] eqn:Ej; [|done]. intros [= <-]. exact (Q2 item j Ej).
  - destruct Hrec as (id' & R1 & R2 & R3). exists id'. split; [done|]. apply (tpim_upd_wf _ id (fun _ => tp <| tp_retx_head := Some item |>)) in R2 as [W A].
    + cbn. split; [done|by apply A].
    + intros p Hp []. rewrite Htp in Hp. injection Hp as <-. by split.
Qed.

Lemma keeps_take_item item i : item_ready mem i -> cfq_frame_allowed ad (ci_frame_type i) = true -> keeps (take_cfq_item al mem item i).
Proof.
  intros (p & f & Ep & Em & El & Et & Hwf & Hi) Hal g Hg. pose proof Hg as (fs & Hb & He). unfold take_cfq_item, space_left. apply wp_bind, wp_read.
  destruct (space_left_room g (I_helper g Hg)) as [-> Hr]. unfold ossl_quic_cfq_item_get_encoded_len, ossl_quic_cfq_item_get_encoded, ossl_quic_cfq_item_get_frame_type.
  rewrite El. destruct (Z.ltb_spec (room g) (zlen (frame_bytes f))) as [|Hfit]; [by apply wp_ret|]. apply wp_bind, wp_need. rewrite Ep, Em, Z.eqb_refl.
  exists (frame_bytes f). split; [done|]. apply wp_bind, wp_try_append; [by apply I_helper|done| |].
  2: { intros g' Hg'. apply wp_bind, wp_assert; [|done]. eapply grown_rec; [by apply I_rec|done]. }
  intros g' Hgr Hd. specialize (Hd (frame_bytes_nonempty f)). destruct arch_permits as (_ & _ & _ & _ & _ & _ & _ & _ & Hp).
  assert (body (fs ++ [PfFrame f]) g') as Hb'.
  { apply (body_frame fs (PfFrame f) g g'); try done. cbn. rewrite <- Et. by apply Hp. }
  pose proof (gr_e _ _ _ Hgr) as He'. clear Hgr Hd. apply wp_bind, wp_assert; [by eapply body_rec|]. intros _. apply wp_bind.
  pose proof (body_rec _ _ Hb') as (id & R1 & R2 & (tp & Htp) & R4). unfold wp at 1. rewrite R1. cbn [mbind option_bind]. rewrite Htp. cbn [mbind option_bind].
  pose proof (body_item _ g' id tp item Hb' Htp) as Hb2. unfold with_item in Hb2. destruct (ossl_quic_txpim_pkt_add_cfq_item tp (ff_cfq (g_w g')) item) as [tp' c'].
  rewrite Et. set (g2 := g' <| g_w := _ |>) in *. assert (have_ack_eliciting g2 = have_ack_eliciting g) as He2 by exact He'. clearbody g2.
  apply wp_bind, wp_when; intros Hel.
  - apply wp_ack_eliciting, wp_ret. exists (fs ++ [PfFrame f]). by apply eliciting_done.
  - apply wp_ret. exists (fs ++ [PfFrame f]). split; [done|]. rewrite He2, He, existsb_snoc. unfold pf_eliciting at 3. cbn [pf_type]. rewrite Hel. by rewrite orb_false_r.
Qed.

(** The next item of the walk stands behind the item. *)
Lemma cfq_next g pre n l sp : I g -> nl = pre ++ n :: l -> exists r, ossl_quic_cfq_item_get_priority_next (ff_cfq (g_w g)) (Some n) sp = Some r /\
  forall m, r = Some m -> m ∈ l.
Proof.
  intros Hg Hl. destruct (I_queue g Hg) as [[W _] Hn]. set (c := ff_cfq (g_w g)) in *. assert (n ∈ new_list c) as Ha by (rewrite Hn, Hl; set_solver).
  pose proof (proj1 (wf_nodup c W)) as Hnd. pose proof Ha as Hst. apply (wf_new c W), state_of_inv in Hst as (i & Hi & Hs).
  unfold ossl_quic_cfq_item_get_priority_next. rewrite Hi. cbn [mbind option_bind]. unfold list_of_item. rewrite Hs. cbn [QUIC_CFQ_STATE_NEW Z.eqb]. rewrite Hn, Hl in *.
  apply NoDup_app in Hnd as (_ & Hd & _). rewrite list_behind_split by (intros Hx; apply (Hd n Hx); left).
  rewrite find_in_space_spec by (intros x Hx; apply items_present; [done|]; rewrite Hn; set_solver).
  eexists. split; [done|]. intros m Hm. destruct (List.filter (in_space c sp) l) as [|y l'] eqn:Ef; [done|]. injection Hm as ->.
  assert (m ∈ List.filter (in_space c sp) l) as Hin by (rewrite Ef; left). by apply list_elem_of_In, filter_In in Hin as [?%list_elem_of_In _].
Qed.

Lemma keeps_force_pad : keeps (gmodify (fun g => g <| g_pkt := (g_pkt g) <| force_pad := true |> |>)).
Proof.
  intros g (fs & Hb & He). apply wp_modify. exists fs. split; [|done]. apply (body_same fs g); [done|done| |done]. destruct Hb as [[] _ _ _ _ _]. by split.
Qed.

Lemma keeps_try_pre_token chosen {A} (k : option unit -> A) : keeps (r <- gtry (txp_generate_pre_token now al chosen);; gret (k r)).
Proof. intros g Hg. apply wp_bind, wp_try. eapply wp_mono; [by apply keeps_pre_token| |]; intros; by apply wp_ret. Qed.

Lemma keeps_cfq_frames fuel : forall chosen d item,
  match item with None => True | Some n => exists pre l, nl = pre ++ n :: l /\ (length l < fuel)%nat end -> keeps (cfq_frames now al mem fuel chosen d item).
Proof.
  induction fuel as [|fuel IH]; intros chosen d [n|]; [intros (? & ? & _ & Hx); lia|intros _; apply keeps_ret| |intros _; apply keeps_ret].
  intros (pre & l & Hl & Hf) g Hg. cbn [cfq_frames]. destruct (I_ready g Hg) as (_ & _ & Had & Hsp). do 2 apply wp_bind, wp_read. rewrite Had, Hsp. clear Had Hsp.
  destruct (I_queue g Hg) as [[W Hq] Hn]. assert (n ∈ new_list (ff_cfq (g_w g))) as Ha by (rewrite Hn, Hl; set_solver).
  apply (wf_new _ W), state_of_inv in Ha as (i & Hi & Hs). pose proof (Hq n i Hi Hs) as Hit.
  apply wp_bind, wp_need. exists i. split; [done|]. clear W Hq Hn Hi.
  assert (forall d', keeps (n' <- gneed (fun g => ossl_quic_cfq_item_get_priority_next (ff_cfq (g_w g)) (Some n) (space_num (ossl_quic_enc_level_to_pn_space lvl)));;
    cfq_frames now al mem fuel chosen d' n')) as Hnext.
  { intros d' g' Hg'. apply wp_bind, wp_need. destruct (cfq_next g' pre n l (space_num (ossl_quic_enc_level_to_pn_space lvl)) Hg' Hl) as (r & Hr & Hm).
    exists r. split; [done|]. apply IH; [|done]. destruct r as [m|]; [|done]. destruct (list_elem_of_split l m (Hm m eq_refl)) as (l1 & l2 & ->).
    exists (pre ++ n :: l1), l2. rewrite Hl, length_app in *. cbn in Hf. split; [by rewrite <- app_assoc|lia]. }
  revert g Hg. apply keeps_if; intros Hal; [apply Hnext|]. apply negb_false_iff in Hal.
  apply keeps_bind; [apply keeps_if; intros _; [apply (keeps_try_pre_token chosen (fun r => bool_decide (is_Some r)))|apply keeps_ret]|]. intros d'.
  apply keeps_bind; [apply keeps_when; intros _; apply keeps_force_pad|]. intros _. apply keeps_bind; [by apply keeps_take_item|].
  intros go. apply keeps_if; intros _; [apply Hnext|apply keeps_ret].
Qed.

(** ** The PING frame and the record of the packet *)

Lemma keeps_ping : keeps (generate_ping al).
Proof.
  intros g0 (fs & Hb0 & He0). unfold generate_ping, unrestrict. apply wp_bind, wp_modify.
  assert (I (set_h g0 (tx_helper_unrestrict (g_h g0)))) as Hg by (exists fs; split; [by apply body_unrestrict|done]).
  generalize dependent (set_h g0 (tx_helper_unrestrict (g_h g0))). clear g0 fs Hb0 He0. intros g Hg.
  destruct (I_ready g Hg) as (_ & _ & Had & Hsp). do 3 apply wp_bind, wp_read. apply wp_when; [|done]. intros _.
  apply wp_bind, wp_begin; [by apply I_helper|by apply I_rec|]. intros w1 Hw1 Hl1 Hd.
  destruct (ossl_quic_wire_encode_frame_ping w1) as [w2 []] eqn:Henc; [|by apply I_rec].
  destruct (ping_writes _ _ Henc) as (W1 & W2 & Hwf). rewrite Hw1 in W1, W2. cbn -[frame_bytes] in W1. pose proof (zlen_nonneg (wp_rest w2)). pose proof Hg as (fs & Hb & He).
  apply wp_bind, wp_commit; [by apply I_helper|change (zlen (@nil Z)) with 0 in W2; lia| |intros; eapply grown_rec; [by apply I_rec|done]].
  intros g' Hgr _. apply wp_modify. rewrite W1 in Hgr. exists (fs ++ [PfFrame F_PING]). destruct arch_permits as (Hp & _). split.
  - apply body_flag, (body_frame fs (PfFrame F_PING) g g'); try done. change (zlen (frame_bytes F_PING) <= room g). rewrite <- W1. change (zlen (@nil Z)) with 0 in W2. lia.
  - rewrite existsb_snoc. by rewrite orb_true_r.
Qed.

(** What the record of the finished packet says. *)
Definition recorded (g : gst) : Prop := exists id tp, p_tpkt (g_pkt g) = Some id /\ tpim_pkts (ff_txpim (g_w g)) !! id = Some tp /\
  pkt_num (tp_ackm_pkt tp) = sget (next_pn (g_t g)) (g_space g) /\ num_bytes (tp_ackm_pkt tp) = bytes_appended (g_h g) +u pkt_overhead (p_geom (g_pkt g)) /\
  is_ack_eliciting (tp_ackm_pkt tp) = have_ack_eliciting g /\ (have_ack_eliciting g = true -> is_inflight (tp_ackm_pkt tp) = true).

Lemma fill_done g : I g -> wp (fill_ackm_pkt now) (fun _ g => I g /\ recorded g) rec_ok g.
Proof.
  intros Hg. unfold fill_ackm_pkt. apply wp_bind. unfold wp at 1. destruct (read_now now (ff_ackm (g_w g))) as [t m] eqn:Er.
  assert (I (g <| g_w := (g_w g) <| ff_ackm := m |> |>)) as Hg1.
  { apply I_ackm; [done|]. pose proof (I_ack g Hg) as Ha. by injection Er as _ <-. }
  set (g1 := g <| g_w := _ |>) in *. clearbody g1. clear g Hg Er m. do 6 apply wp_bind, wp_read.
  set (f := fun tp : QUIC_TXPIM_PKT => _). assert (forall p, chunks_ok p -> chunks_ok (f p)) as Hf by (intros ? []; by split).
  pose proof (I_rec _ Hg1) as (id & R1 & R2 & (tp & Htp) & R4). apply wp_upd_tpkt; [by apply I_rec|]. intros id' Hid. rewrite R1 in Hid. injection Hid as <-.
  split; [by apply I_upd|]. exists id, (f tp). split; [done|]. split; [cbn -[alter]; by rewrite lookup_alter_eq, Htp|]. split_and!; try done.
  intros Hel. cbn in *. by rewrite Hel, andb_false_r.
Qed.
End Inv.

(** ** The whole packet *)

Lemma qm_change lvl e mx ad nl qm qm' g : I lvl e mx ad nl qm g -> qsm_ok qm' -> qsm_map qm' = qsm_map qm ->
  max_streams_bidi_rxfc qm' = max_streams_bidi_rxfc qm -> max_streams_uni_rxfc qm' = max_streams_uni_rxfc qm ->
  I lvl e mx ad nl qm' (set_t g ((g_t g) <| tx_qsm := qm' |>)).
Proof.
  intros (fs & Hb & He) Hok Hm Hrb Hru. exists fs. split; [|done].
  destruct Hb as [[E1 E2 [R1 R2 R3 R4 R5 R6 R7 R8] E4 E5 E6 E7] [H1 H2] H3 H4 H5 H6]. subst qm. split; try done.
  - split; try done. split; try done; cbn; [by rewrite Hrb|by rewrite Hru|by rewrite Hm].
  - split; [|done]. by apply (helper_same g).
Qed.

Section Whole.
Context (lvl e mx : Z) (ad : archetype_data) (nl : list Z).
Hypothesis archetype_lvl : exists archetype, txp_get_archetype_data lvl archetype = Some ad.
Hypothesis lvl_range : 0 <= lvl.

(** The round robin of the streams is no part of the invariant. *)
Definition J (g : gst) : Prop := exists qm, I lvl e mx ad nl qm g.

Lemma stream_related_done qm g : allow_stream_rel ad = true -> I lvl e mx ad nl qm g ->
  wp (txp_generate_stream_related al) (fun _ => J) rec_ok g.
Proof.
  intros Ha Hg. destruct (I_qsm _ _ _ _ _ _ g Hg) as (Eq & Hok & _). unfold wp, txp_generate_stream_related. rewrite Eq.
  destruct (iter_init_kept qm true Hok) as [Hok' _]. pose proof (iter_init_list qm true) as Hl.
  assert (fst (ossl_quic_stream_iter_init qm true) = mkIter (rr_cur qm) (rr_cur qm) /\ qsm_map (snd (ossl_quic_stream_iter_init qm true)) = qsm_map qm /\
    max_streams_bidi_rxfc (snd (ossl_quic_stream_iter_init qm true)) = max_streams_bidi_rxfc qm /\
    max_streams_uni_rxfc (snd (ossl_quic_stream_iter_init qm true)) = max_streams_uni_rxfc qm) as (Hit & Hm & Hrb & Hru).
  { unfold ossl_quic_stream_iter_init. destruct (rr_cur qm); [|done]. by destruct (_ <=? _). }
  destruct (ossl_quic_stream_iter_init qm true) as [it q']. cbn [fst snd] in *. subst it.
  pose proof (qm_change _ _ _ _ _ _ q' g Hg Hok' Hm Hrb Hru) as Hg'. set (g' := set_t g _) in *. clearbody g'.
  pose proof (ok_wf _ Hok) as W. pose proof (wf_cur _ W) as Hc. destruct (wf_active _ W) as [Hnd Hact].
  assert (exists l, iter_walk (length (active_list q')) q' (mkIter (rr_cur qm) (rr_cur qm)) = Some l /\ Forall (fun id => is_Some (qsm_map q' !! id)) l) as (l & Hw & Hall).
  { destruct (rr_cur qm) as [c|]; [|exists []; split; [by destruct (length _)|done]]. apply list_elem_of_split in Hc as (a & b & Hab). exists ((c :: b) ++ a).
    split; [apply (StreamProps.walk_from q' a b c) with (seen := []); [by rewrite Hl|by rewrite Hl|done|rewrite Hl, Hab, !length_app; cbn; lia]|].
    rewrite Hm. apply Forall_forall. intros x Hx. assert (x ∈ active_list qm) as Hin by (rewrite Hab; set_solver). apply Hact in Hin as (s & Hs & _). by exists s. }
  pose proof (keeps_visits lvl e mx ad nl q' archetype_lvl lvl_range l (length (active_list q')) (mkIter (rr_cur qm) (rr_cur qm)) 0 Hw Hall Ha g' Hg') as Hv.
  eapply wp_mono in Hv; [exact Hv|intros ? g2 Hg2; by exists q'|done].
Qed.

Lemma frames_done qm chosen g : I lvl e mx ad nl qm g -> wp (generate_frames now al mem chosen) (fun _ g => J g /\ recorded g) rec_ok g.
Proof.
  intros Hg. unfold generate_frames. apply wp_bind. eapply wp_mono; [by apply keeps_flow_control| |done]. clear g Hg. intros ? g Hg.
  destruct (I_queue _ _ _ _ _ _ g Hg) as [[W _] Hn]. apply wp_bind, wp_need. unfold ossl_quic_cfq_get_priority_head.
  rewrite find_in_space_spec by (intros a Ha; by apply items_present). eexists. split; [done|]. apply wp_bind, wp_read. rewrite Hn.
  apply wp_bind. eapply wp_mono; [apply (keeps_cfq_frames lvl e mx ad nl qm archetype_lvl lvl_range); [|done]| |done].
  { destruct (List.filter _ nl) as [|y l'] eqn:Ef; [done|]. cbn [head]. assert (y ∈ List.filter (in_space (ff_cfq (g_w g)) (space_num (g_space g))) nl) as Hin by (rewrite Ef; left).
    apply list_elem_of_In, filter_In in Hin as [(l1 & l2 & ->)%list_elem_of_In%list_elem_of_split _]. exists l1, l2. split; [done|]. rewrite length_app. cbn. lia. }
  clear g Hg W Hn. intros d g Hg. apply wp_bind. eapply wp_mono; [apply (keeps_when lvl e mx ad nl qm); [|exact Hg]| |done].
  { intros _. by apply (keeps_try_pre_token lvl e mx ad nl qm archetype_lvl lvl_range chosen (fun _ => tt)). }
  clear g Hg. intros ? g Hg. apply wp_bind, wp_read. destruct (I_ready _ _ _ _ _ _ g Hg) as (_ & _ & -> & _).
  apply wp_bind. eapply wp_mono; [apply (keeps_when lvl e mx ad nl qm); [|exact Hg]| |done]; [intros Ha; apply (keeps_crypto lvl e mx ad nl qm archetype_lvl lvl_range Ha)|].
  clear g Hg. intros ? g Hg. apply wp_bind, wp_read, wp_bind. apply (wp_mono _ (fun _ => J) _ rec_ok rec_ok); [apply wp_when| |done].
  { intros [Ha _]%andb_prop. exact (stream_related_done qm g Ha Hg). } { intros _. by exists qm. }
  clear g Hg qm. intros ? g (qm & Hg). apply wp_bind. eapply wp_mono; [by apply (keeps_ping lvl e mx ad nl qm)| |done].
  clear g Hg. intros ? g Hg. eapply wp_mono; [by apply (fill_done lvl e mx ad nl qm)| |done]. intros ? g' [H1 H2]. split; [by exists qm|done].
Qed.
End Whole.

(** ** The theorem *)

(** What a level provides when a packet is staged. *)
Record stage_ready (w : TXPW) (lvl archetype e : Z) : Prop := {
  st_lvl : 0 <= lvl;
  st_txp : forall ad, txp_get_archetype_data lvl archetype = Some ad -> txp_ready (ff_env w) (ossl_quic_enc_level_to_pn_space lvl) ad e;
  st_queue : queue_ready mem (ff_cfq w);
  st_ackm : ackm_ready (ff_ackm w) (ossl_quic_enc_level_to_pn_space lvl);
  st_txpim : txpim_wf (ff_txpim w);
  st_alloc : forall a, al_pkt al lvl = Some a -> tpim_pkts (ff_txpim w) !! a = None /\ Z.of_nat (size (tpim_pkts (ff_txpim w))) + 1 < U64_MOD;
  st_cids : 0 <= cid_id_len (tx_cur_dcid (ff_env w)) /\ 0 <= cid_id_len (tx_cur_scid (ff_env w));
  st_mdpl : 0 <= txp_get_mdpl (ff_env w) < 2 ^ 32;
  st_iov : let a := alloc_iovec (el_of (ff_env w) lvl) in a = 0 \/ 8 <= a <= 2 ^ 34 }.

Lemma hdr_len_nonneg n hdr : 0 <= cid_id_len (ph_dst hdr) -> 0 <= cid_id_len (ph_src hdr) -> 0 <= ossl_quic_wire_get_encoded_pkt_hdr_len n hdr.
Proof.
  intros Hd Hs. unfold ossl_quic_wire_get_encoded_pkt_hdr_len. assert (forall a b, 0 <= a +u b) as Ha by (intros a b; apply add64_u64).
  repeat match goal with |- context [ossl_quic_vlint_encode_len ?v] => generalize dependent (ossl_quic_vlint_encode_len v); intros end.
  destruct (ph_partial hdr || _); [done|]. destruct (ph_type hdr =? QUIC_PKT_TYPE_1RTT); [destruct (_ || _); done|].
  destruct (_ || _); [done|]. destruct (_ && _); [done|]. destruct (_ && _); [done|].
  set (l := if ossl_quic_pkt_type_has_pn (ph_type hdr) then _ else _). assert (0 <= l) by (subst l; case_match; [done|lia]). clearbody l.
  set (l2 := if ph_type hdr =? QUIC_PKT_TYPE_INITIAL then _ else l). assert (0 <= l2) by (subst l2; by case_match). clearbody l2.
  repeat case_match; done || lia.
Qed.

Lemma tag_len_nonneg q lvl' n r : ossl_qtx_calculate_plaintext_payload_len q lvl' n = Some r -> n < 2 ^ 32 -> 0 <= r < 2 ^ 32.
Proof.
  unfold ossl_qtx_calculate_plaintext_payload_len. destruct (qtx_el q lvl') as [el|]; [|done]. cbn [mbind option_bind].
  assert (0 <= ossl_qrl_get_suite_cipher_tag_len (el_suite_id el)) as Ht.
  { unfold ossl_qrl_get_suite_cipher_tag_len, get_suite. by repeat case_match. }
  generalize dependent (ossl_qrl_get_suite_cipher_tag_len (el_suite_id el)). intros k Hk. case_match eqn:Hc; [done|]. apply Z.leb_gt in Hc.
  intros [= <-] Hn. rewrite sub64_small by u64_side. lia.
Qed.

(** A packet that was staged is empty. *)
Lemma init_fresh w lvl archetype total hwm w1 p e : stage_ready w lvl archetype e -> 0 <= total ->
  txp_pkt_init al w lvl archetype total hwm = (w1, Some p) ->
  exists el r, w1 = w <| ff_env := (ff_env w) <| tx_el := el |> |> /\ alloc_iovec (el lvl) = alloc_iovec (el_of (ff_env w) lvl) /\
    txp_get_archetype_data lvl archetype = Some (adata (p_geom p)) /\ p_tpkt p = None /\ p_h p = mkHelper (cmppl (p_geom p)) [] 0 0 r lvl false false /\
    0 <= r <= 1 /\ r <= cmppl (p_geom p) < 2 ^ 32.
Proof.
  intros Hst Ht. unfold txp_pkt_init. destruct (txp_determine_geometry _ _ _ _ _) as [[phdr geom]|] eqn:Hg; [|done].
  set (r := if txp_need_ping _ _ _ then 1 else 0). assert (0 <= r <= 1) as Hr by (subst r; case_match; lia). clearbody r.
  assert (txp_get_archetype_data lvl archetype = Some (adata geom) /\ 0 <= cmppl geom < 2 ^ 32) as [Ha Hc].
  { unfold txp_determine_geometry in Hg. destruct (txp_get_archetype_data lvl archetype) as [ad|]; [|done]. cbn [mbind option_bind] in Hg.
    set (hdr := txp_pkt_hdr (ff_env w) lvl) in *. pose proof (hdr_len_nonneg (cid_id_len (ph_dst hdr)) hdr (proj1 (st_cids _ _ _ _ Hst)) (proj2 (st_cids _ _ _ _ Hst))) as Hhl.
    destruct (_ =? 0) in Hg; [done|]. pose proof (st_mdpl _ _ _ _ Hst) as Hm. set (cm := if txp_get_mdpl (ff_env w) <? total then 0 else _) in Hg.
    assert (0 <= cm < 2 ^ 32) as Hcm. { subst cm. destruct (Z.ltb_spec (txp_get_mdpl (ff_env w)) total); [lia|]. rewrite sub64_small by u64_side. lia. }
    clearbody cm. unfold txp_determine_ppl_from_pl in Hg. destruct (Z.ltb_spec cm (ossl_quic_wire_get_encoded_pkt_hdr_len (cid_id_len (ph_dst hdr)) hdr)); [done|].
    destruct (ossl_qtx_calculate_plaintext_payload_len _ _ _) as [pp|] eqn:Hp; [|done]. cbn [mbind option_bind] in Hg. injection Hg as <- <-. split; [done|].
    apply tag_len_nonneg in Hp; [done|]. rewrite sub64_small by u64_side. lia. }
  unfold tx_helper_init. destruct (Z.ltb_spec (cmppl geom) r); [done|]. unfold grow_scratch. destruct (_ <? _).
  - destruct (al_scratch al lvl (cmppl geom)); [|done]. intros [= <- <-]. eexists _, r. split; [reflexivity|]. cbn. rewrite Z.eqb_refl. cbn. split_and!; done || lia.
  - intros [= <- <-]. exists (tx_el (ff_env w)), r. split; [by destruct w as [? ? ? [] ?]|]. cbn. split_and!; done || lia.
Qed.

Lemma fresh_I w lvl archetype total hwm w1 p e t id : stage_ready w lvl archetype e -> 0 <= total ->
  txp_pkt_init al w lvl archetype total hwm = (w1, Some p) -> txpim_wf t -> allocated t id ->
  I lvl e (cmppl (p_geom p)) (adata (p_geom p)) (new_list (ff_cfq w)) (tx_qsm (ff_env w)) (mkGst (w1 <| ff_txpim := t |>) (p <| p_tpkt := Some id |>) false true).
Proof.
  intros Hst Ht Hi W Hal. destruct (init_fresh _ _ _ _ _ _ _ _ Hst Ht Hi) as (el & r & -> & Hel & Ha & Htp & Hh & Hr & Hm).
  pose proof (st_iov _ _ _ _ Hst) as Hiov. cbn in Hiov. rewrite <- Hel in Hiov. exists []. split; [|done]. split; try done.
  - split; try done.
    + unfold g_level, g_h. cbn. by rewrite Hh.
    + apply ready_el. by apply (st_txp _ _ _ _ Hst).
    + split; [apply (st_queue _ _ _ _ Hst)|done].
    + apply (st_ackm _ _ _ _ Hst).
    + by exists id.
  - set (g := mkGst _ _ _ _). assert (g_h g = mkHelper (cmppl (p_geom p)) [] 0 0 r lvl false false) as Hg by exact Hh.
    split; [|by rewrite Hg]. split; unfold payload; rewrite ?Hg; [done|done|cbn; lia|].
    assert (iov_alloc g = alloc_iovec (el lvl)) as Hio by (unfold iov_alloc, g_level; by rewrite Hg).
    split; rewrite ?Hg, ?Hio; cbn; [change (num_iovec _) with 0|done|]; lia.
  - unfold payload, g_h. cbn. by rewrite Hh.
Qed.

Lemma finished lvl e mx ad nl g : J lvl e mx ad nl g /\ recorded g ->
  exists fs id tp, iovec_bytes (h_iovec (p_h (g_pkt g))) = pfs_bytes e fs /\ pfs_wf e fs /\ zlen (pfs_bytes e fs) <= mx /\
    Forall (fun f => permitted lvl (pf_type f) = true) fs /\ p_tpkt (g_pkt g) = Some id /\ tpim_pkts (ff_txpim (g_w g)) !! id = Some tp /\
    pkt_num (tp_ackm_pkt tp) = sget (next_pn (g_t g)) (ossl_quic_enc_level_to_pn_space lvl) /\
    num_bytes (tp_ackm_pkt tp) = zlen (pfs_bytes e fs) +u pkt_overhead (p_geom (g_pkt g)) /\
    is_ack_eliciting (tp_ackm_pkt tp) = existsb pf_eliciting fs /\ (existsb pf_eliciting fs = true -> is_inflight (tp_ackm_pkt tp) = true).
Proof.
  intros [(qm & HI) (id & tp & T1 & T2 & T3 & T4 & T5 & T6)]. destruct (I_ready _ _ _ _ _ _ _ HI) as (_ & _ & _ & Hs).
  destruct HI as (fs & [[] [[L1 L2 L3 L4] H2] H3 H4 H5 H6] & He). exists fs, id, tp. rewrite L1 in T4. unfold payload, g_h in *. rewrite H3, Hs, He in *.
  split_and!; try done. rewrite <- H2. destruct (reserve_allowed _); lia.
Qed.

(** C3.  A packet that the packetiser stages and then fills at an encryption level is generated or fails; no call goes
    wrong and every loop ends.  If it is generated, its payload is a sequence of well-formed frames that fits in
    the length planned, each of a type RFC 9000 allows in packets of the level, and only the
    last may extend to the end of the packet; its record has the packet number, the size with the overhead, and
    says it elicits an acknowledgement exactly if one of the frames does, in which case it counts as
    in flight.  If it fails it holds no record. *)
Theorem packet_payload_well_formed w lvl archetype total hwm w1 p e chosen : stage_ready w lvl archetype e -> 0 <= total ->
  txp_pkt_init al w lvl archetype total hwm = (w1, Some p) ->
  exists w2 p2 ok, txp_generate_for_el now al mem w1 p chosen = Some (w2, p2, ok) /\
    if ok : bool then
      exists fs id tp, iovec_bytes (h_iovec (p_h p2)) = pfs_bytes e fs /\ pfs_wf e fs /\ zlen (pfs_bytes e fs) <= cmppl (p_geom p) /\
        Forall (fun f => permitted lvl (pf_type f) = true) fs /\
        p_tpkt p2 = Some id /\ tpim_pkts (ff_txpim w2) !! id = Some tp /\
        pkt_num (tp_ackm_pkt tp) = sget (next_pn (ff_env w2)) (ossl_quic_enc_level_to_pn_space lvl) /\
        num_bytes (tp_ackm_pkt tp) = zlen (pfs_bytes e fs) +u pkt_overhead (p_geom p2) /\
        is_ack_eliciting (tp_ackm_pkt tp) = existsb pf_eliciting fs /\ (existsb pf_eliciting fs = true -> is_inflight (tp_ackm_pkt tp) = true)
    else p_tpkt p2 = None.
Proof.
  intros Hst Ht Hi. destruct (init_fresh _ _ _ _ _ _ _ _ Hst Ht Hi) as (el & r & Hw1 & _ & Ha & Htp & Hh & _).
  unfold txp_generate_for_el. rewrite Htp. rewrite bool_decide_false by (intros []; done). rewrite orb_false_r.
  case_match; [by exists w1, p, false|].
  destruct (pkt_alloc_spec (al_pkt al lvl) (ff_txpim w1)) as (t & rid & Hal & W & Hr); [rewrite Hw1; apply (st_txpim _ _ _ _ Hst)| |].
  { intros a Hal. rewrite Hw1. by apply (st_alloc _ _ _ _ Hst). }
  unfold gbind, alloc_tpkt, g_level, g_h. cbn [g_pkt g_w p_h]. rewrite Hh. cbn [h_enc_level]. rewrite Hal. cbn [mbind option_bind].
  destruct rid as [id|]; [|cbn; unfold release_tpkt; rewrite Htp; cbn; by eexists _, p, false].
  destruct Hr as (Hnew & Hal' & _ & _ & (p0 & _ & Hp0)). assert (allocated t id) as Hid by (by apply Hal'; left).
  pose proof (fresh_I w lvl archetype total hwm w1 p e t id Hst Ht Hi W Hid) as HI. set (g1 := mkGst _ _ _ _) in HI.
  match goal with |- context [generate_frames now al mem chosen ?x] => change x with g1 end.
  pose proof (frames_done lvl e _ _ _ (ex_intro _ archetype Ha) (st_lvl _ _ _ _ Hst) _ chosen g1 HI) as Hf. clearbody g1. clear HI.
  unfold wp in Hf. destruct (generate_frames now al mem chosen g1) as [[g2 [x|]]|]; [| |done]; cbn [mbind option_bind].
  - exists (g_w g2), (g_pkt g2), true. split; [done|]. eapply finished; exact Hf.
  - destruct Hf as (id2 & R1 & R2 & R3). unfold release_tpkt. rewrite R1. destruct (pkt_release_spec _ _ R2 R3) as (t2 & -> & _). cbn.
    by eexists _, _, false.
Qed.
End Pay.

(** ** An example: a 1-RTT packet with a queued control frame and the data of two streams *)

(** The clock stands still. *)
Definition pay_now (n : nat) : OSSL_TIME := 1000000000.
Lemma pay_now_u64 n : u64 (pay_now n).
Proof. by vm_compute. Qed.

Definition pay_crypto : QUIC_SSTREAM := mkSstream (mkRing (replicate 8 0) 0 0) [] [] false false false false.
Definition pay_qsm : QUIC_STREAM_MAP := demo_map <| max_streams_bidi_rxfc := Some demo_rxfc |> <| max_streams_uni_rxfc := Some demo_rxfc |>.
Definition pay_txp (q : QUIC_STREAM_MAP) : TXP := (demo_txp q) <| tx_crypto := mkSpaces (Some pay_crypto) (Some pay_crypto) (Some pay_crypto) |>.
(** RETIRE_CONNECTION_ID for sequence number 3. *)
Definition pay_mem (p : Z) : bytes := if p =? 7 then [25; 3] else [].
Definition pay_cfq : QUIC_CFQ := default ossl_quic_cfq_new (fst <$> ossl_quic_cfq_add_frame (Some 100) ossl_quic_cfq_new 1 2 25 0 (Some 7) 2 None).
Definition pay_w_of (c : QUIC_CFQ) (q : QUIC_STREAM_MAP) : QUIC_FIFD OSSL_CC_NEWRENO TXP :=
  mkFifd c ossl_quic_txpim_new (ossl_ackm_new ossl_statm_init (newreno_new ∅) false) (pay_txp q) (mkSpaces ∅ ∅ ∅).
Definition pay_w : QUIC_FIFD OSSL_CC_NEWRENO TXP := pay_w_of pay_cfq pay_qsm.
Definition pay_al : txp_alloc := mkAlloc (fun _ _ => Some 5) (fun _ _ => true) (fun _ _ => true) (fun _ => Some 1) (fun _ => true) (fun _ _ => true).
Definition pay_staged : QUIC_FIFD OSSL_CC_NEWRENO TXP * option txp_pkt := txp_pkt_init pay_al pay_w QUIC_ENC_LEVEL_1RTT 0 0 0.
Definition pay_bytes : bytes := [25; 3; 10; 0; 3; 1; 2; 3; 8; 5; 1; 2; 3].

Lemma pay_sends :
  (fun r => (iovec_bytes (h_iovec (p_h (snd (fst r)))), snd r)) <$> (p ← snd pay_staged; txp_generate_for_el pay_now pay_al pay_mem (fst pay_staged) p false)
  = Some (pay_bytes, true).
Proof. by vm_compute. Qed.

(** The buffers of the example. *)
Lemma pay_crypto_offers : ss_offers pay_crypto.
Proof.
  apply (rel_offers _ (mkSpec [] (fun _ => NEW) false false false)); [|done].
  apply (rel_new_stream (Some (replicate 8 0)) 8); [by vm_compute|by intros ? [= <-]|by vm_compute].
Qed.

Lemma demo_ss_offers : ss_offers StreamProps.demo_ss.
Proof.
  eapply (rel_offers _ (snd (ss_do (pay_crypto, mkSpec [] (fun _ => NEW) false false false) (SAppend true [1; 2; 3])))); [|by vm_compute].
  apply (ss_do_rel pay_crypto (mkSpec [] (fun _ => NEW) false false false) (SAppend true [1; 2; 3])); [|by vm_compute].
  apply (rel_new_stream (Some (replicate 8 0)) 8); [by vm_compute|by intros ? [= <-]|by vm_compute].
Qed.

Lemma pay_streams_ready : map_Forall (fun _ => stream_ready) (qsm_map pay_qsm).
Proof.
  assert (Forall (fun p : Z * QUIC_STREAM => stream_ready (snd p)) (map_to_list (qsm_map pay_qsm))) as Hl.
  { vm_compute. repeat (apply Forall_cons; split; [split; try done; intros ss [= <-]; exact demo_ss_offers|]). by apply Forall_nil. }
  intros i s Hs. rewrite Forall_forall in Hl. apply (Hl (i, s)). by apply elem_of_map_to_list.
Qed.

Lemma rxfc_ok q b u : qsm_ok q -> qsm_ok (q <| max_streams_bidi_rxfc := b |> <| max_streams_uni_rxfc := u |>).
Proof. destruct q. intros [[] Hs]. by split. Qed.

Lemma pay_qsm_ok : qsm_ok pay_qsm.
Proof. apply rxfc_ok. exact (proj1 (runs_kept _ _ (init_ok false None None) demo_runs)). Qed.

Lemma pay_queue_ready : queue_ready pay_mem pay_cfq.
Proof.
  destruct (add_frame_spec (Some 100) ossl_quic_cfq_new 1 2 25 0 (Some 7) 2 None cfq_new_wf) as (c & r & Hadd & W & _); [done|].
  assert (pay_cfq = c) as Hc by (unfold pay_cfq; by rewrite Hadd). split; [by rewrite Hc|]. intros a i Hi _.
  assert (Forall (fun p => item_ready pay_mem (snd p)) (map_to_list (cfq_items pay_cfq))) as Hl.
  { assert (map_to_list (cfq_items pay_cfq) = [(100, mkItem None None (Some 7) None 25 2 1 2 0 QUIC_CFQ_STATE_NEW)]) as -> by (by vm_compute). apply Forall_cons. split; [|by apply Forall_nil]. exists 7, (F_RETIRE_CONN_ID 3). by split_and!. }
  rewrite Forall_forall in Hl. apply (Hl (a, i)). by apply elem_of_map_to_list.
Qed.

Lemma pay_ready_of c q : queue_ready pay_mem c -> qsm_ok q -> map_Forall (fun _ => stream_ready) (qsm_map q) ->
  max_streams_bidi_rxfc q = Some demo_rxfc -> max_streams_uni_rxfc q = Some demo_rxfc ->
  stage_ready pay_al pay_mem (pay_w_of c q) QUIC_ENC_LEVEL_1RTT 0 3.
Proof.
  intros Hc Hq Hs Hb Hu. split; [done| |exact Hc| |apply txpim_new_wf|by intros a [= <-]|done|done|by left].
  - intros ad _. split; try done; [by exists demo_rxfc|by exists demo_rxfc|]. intros _. exists pay_crypto. split; [done|apply pay_crypto_offers].
  - split; [apply rx_new|done].
Qed.

Lemma packet_payload_well_formed_witness : exists w1 p w2 p2 fs,
  txp_pkt_init pay_al pay_w QUIC_ENC_LEVEL_1RTT 0 0 0 = (w1, Some p) /\
  txp_generate_for_el pay_now pay_al pay_mem w1 p false = Some (w2, p2, true) /\
  pfs_bytes 3 fs = pay_bytes /\ pfs_wf 3 fs /\ Forall (fun f => permitted QUIC_ENC_LEVEL_1RTT (pf_type f) = true) fs.
Proof.
  pose proof pay_sends as Hs. unfold pay_staged in Hs. destruct (txp_pkt_init pay_al pay_w QUIC_ENC_LEVEL_1RTT 0 0 0) as [w1 [p|]] eqn:E; [|done].
  cbn [fst snd mbind option_bind] in Hs.
  destruct (packet_payload_well_formed pay_now pay_al pay_mem pay_now_u64 pay_w QUIC_ENC_LEVEL_1RTT 0 0 0 w1 p 3 false
    (pay_ready_of pay_cfq pay_qsm pay_queue_ready pay_qsm_ok pay_streams_ready eq_refl eq_refl) ltac:(done) E)
    as (w2 & p2 & ok & Hg & Hok). rewrite Hg in Hs. injection Hs as Hb ->. destruct Hok as (fs & id & tp & H1 & H2 & _ & H3 & _).
  exists w1, p, w2, p2, fs. split_and!; try done. by rewrite <- H1.
Defined.
