(* ===== verification/Qrx.v ===== *)
(** * The receive record layer: from datagrams to decrypted packets
    (ssl/quic/quic_record_rx.c, include/internal/quic_record_rx.h)

    A received datagram is an entry [QUIC_URXE] with its bytes; header protection is
    removed in place.  A decrypted packet is an entry [RXE], named by a number where
    the code has its address; an entry that is handed out is kept in [qrx_out] until
    it is released.  A position in a datagram is an offset.  The AEAD and the header
    protection ciphers are the crypto library: parameters.  [ok n] is whether the
    [n]-th allocation of an operation succeeds.  The validation callback is an
    argument; the calls of the key update callback are collected in
    [qrx_ku_events] and the datagrams given back to the demultiplexer in
    [qrx_released].  The header that a failing decode leaves half written in a free
    entry is not modelled (the next decode overwrites it); nor is the message callback. *)

From S2P Require Import Prelude OsslTime Packet Wire WirePkt Qrl Qtx Ackm Txp.

Definition QUIC_VERSION_NONE : Z := 0.
Definition QUIC_MAX_PKT_PER_URXE : Z := 64.
Definition INT_MAX : Z := 2147483647.

(** ** Entries *)

(** Addresses are numbers; [None] is an address of no family. *)
Record QUIC_URXE := mkUrxe {
  ux_data : bytes; ux_processed : Z; ux_hpr_removed : Z; ux_deferred : bool; ux_peer : option Z; ux_local : option Z;
  ux_time : OSSL_TIME; ux_datagram_id : Z }.
#[export] Instance eta_urxe : Eta QUIC_URXE := fun e =>
  mkUrxe (ux_data e) (ux_processed e) (ux_hpr_removed e) (ux_deferred e) (ux_peer e) (ux_local e) (ux_time e) (ux_datagram_id e).

Definition pkt_mark (bitf pkt_idx : Z) : Z := Z.lor bitf (Z.shiftl 1 pkt_idx).
Definition pkt_is_marked (bitf pkt_idx : Z) : bool := negb (Z.land bitf (Z.shiftl 1 pkt_idx) =? 0).

Record RXE := mkRxe {
  rxe_id : Z; rxe_data_len : Z; rxe_alloc_len : Z; rxe_refcount : Z; rxe_hdr : QUIC_PKT_HDR; rxe_pn : QUIC_PN;
  rxe_peer : option Z; rxe_local : option Z; rxe_time : OSSL_TIME; rxe_datagram_len : Z; rxe_key_epoch : Z; rxe_datagram_id : Z }.
#[export] Instance eta_rxe : Eta RXE := fun e =>
  mkRxe (rxe_id e) (rxe_data_len e) (rxe_alloc_len e) (rxe_refcount e) (rxe_hdr e) (rxe_pn e) (rxe_peer e) (rxe_local e) (rxe_time e)
    (rxe_datagram_len e) (rxe_key_epoch e) (rxe_datagram_id e).

Record OSSL_QRX := mkQrx {
  short_conn_id_len : Z; max_deferred : Z; num_deferred : Z; urx_pending : list QUIC_URXE; urx_deferred : list QUIC_URXE;
  rx_free : list RXE; rx_pending : list RXE; qrx_out : gmap Z RXE; qrx_next_id : Z; largest_pn : spaces QUIC_PN;
  qrx_el_set : OSSL_QRL_ENC_LEVEL_SET; bytes_received : Z; forged_pkt_count : Z; cur_epoch_start_pn : QUIC_PN;
  init_key_phase_bit : Z; allow_1rtt : bool; qrx_released : list QUIC_URXE; qrx_ku_events : list QUIC_PN }.
#[export] Instance eta_qrx : Eta OSSL_QRX := fun q =>
  mkQrx (short_conn_id_len q) (max_deferred q) (num_deferred q) (urx_pending q) (urx_deferred q) (rx_free q) (rx_pending q)
    (qrx_out q) (qrx_next_id q) (largest_pn q) (qrx_el_set q) (bytes_received q) (forged_pkt_count q) (cur_epoch_start_pn q)
    (init_key_phase_bit q) (allow_1rtt q) (qrx_released q) (qrx_ku_events q).

Definition ossl_qrx_new (alloc : bool) (short_len max_def : Z) (init_largest_pn : spaces QUIC_PN) (bit : Z) : option OSSL_QRX :=
  if max_def =? 0 then None
  else if negb alloc then None
  else Some (mkQrx short_len max_def 0 [] [] [] [] ∅ 0 init_largest_pn els_new 0 0 0 bit false [] []).

Definition ossl_qrx_update_pn_space (src dst : OSSL_QRX) : OSSL_QRX := dst <| largest_pn := largest_pn src |>.

(** The entries waiting go back to the demultiplexer. *)
Definition ossl_qrx_free (q : OSSL_QRX) : OSSL_QRX :=
  let els := foldl (fun els l => ossl_qrl_enc_level_set_discard els l) (qrx_el_set q)
               [QUIC_ENC_LEVEL_INITIAL; QUIC_ENC_LEVEL_0RTT; QUIC_ENC_LEVEL_HANDSHAKE; QUIC_ENC_LEVEL_1RTT] in
  q <| rx_free := [] |> <| rx_pending := [] |> <| qrx_released := qrx_released q ++ urx_pending q ++ urx_deferred q |>
    <| urx_pending := [] |> <| urx_deferred := [] |> <| qrx_el_set := els |>.

Definition ossl_qrx_inject_urxe (q : OSSL_QRX) (urxe : QUIC_URXE) : OSSL_QRX :=
  q <| urx_pending := urx_pending q ++ [urxe <| ux_processed := 0 |> <| ux_hpr_removed := 0 |> <| ux_deferred := false |>] |>.

Definition qrx_requeue_deferred (q : OSSL_QRX) : OSSL_QRX :=
  q <| urx_pending := urx_pending q ++ urx_deferred q |> <| urx_deferred := [] |>.

Definition ossl_qrx_discard_enc_level (q : OSSL_QRX) (enc_level : Z) : OSSL_QRX * bool :=
  if QUIC_ENC_LEVEL_NUM <=? enc_level then (q, false)
  else (q <| qrx_el_set := ossl_qrl_enc_level_set_discard (qrx_el_set q) enc_level |>, true).

Definition ossl_qrx_processed_read_pending (q : OSSL_QRX) : bool := match rx_pending q with [] => false | _ => true end.
Definition ossl_qrx_unprocessed_read_pending (q : OSSL_QRX) : bool :=
  match urx_pending q, urx_deferred q with [], [] => false | _, _ => true end.

(** ** Packets handed out *)

(** [None]: a packet that is not handed out. *)
Definition ossl_qrx_pkt_up_ref (q : OSSL_QRX) (id : Z) : option OSSL_QRX :=
  rxe ← qrx_out q !! id;
  Some (q <| qrx_out := <[id := rxe <| rxe_refcount := rxe_refcount rxe +u 1 |>]> (qrx_out q) |>).

Definition ossl_qrx_pkt_release (q : OSSL_QRX) (id : Z) : option OSSL_QRX :=
  rxe ← qrx_out q !! id;
  let rxe := rxe <| rxe_refcount := rxe_refcount rxe -u 1 |> in
  if rxe_refcount rxe =? 0 then Some (q <| qrx_out := delete id (qrx_out q) |> <| rx_free := rx_free q ++ [rxe] |>)
  else Some (q <| qrx_out := <[id := rxe]> (qrx_out q) |>).

Definition ossl_qrx_pkt_orphan (rxe : RXE) : RXE := rxe <| rxe_refcount := rxe_refcount rxe -u 1 |>.

(** The packet [rxe] of another record layer is taken over: it is orphaned there. *)
Definition ossl_qrx_inject_pkt (q : OSSL_QRX) (rxe : RXE) : OSSL_QRX :=
  let rxe := ossl_qrx_pkt_orphan rxe in
  if rxe_refcount rxe =? 0 then q <| rx_pending := rx_pending q ++ [rxe] |> else q.

(** ** Free entries *)

Section RxEntries.
(** [sizeof(RXE)] *)
Context (sizeof_RXE : Z).

Definition zero_hdr : QUIC_PKT_HDR :=
  mkPktHdr 0 false false 0 false false 0 0 0 (mkConnId 0 (replicate 20 0)) (mkConnId 0 (replicate 20 0)) (replicate 4 0) None 0 0 None.

Definition qrx_alloc_rxe (alloc : bool) (id alloc_len : Z) : option RXE :=
  if SIZE_MAX -u sizeof_RXE <=? alloc_len then None
  else if negb alloc then None
  else Some (mkRxe id 0 alloc_len 0 zero_hdr 0 None None ossl_time_zero 0 0 0).

(** The entry is at the head of the free list afterwards. *)
Definition qrx_ensure_free_rxe (alloc : bool) (q : OSSL_QRX) (alloc_len : Z) : OSSL_QRX * option RXE :=
  match rx_free q with
  | rxe :: _ => (q, Some rxe)
  | [] =>
      match qrx_alloc_rxe alloc (qrx_next_id q) alloc_len with
      | None => (q, None)
      | Some rxe => (q <| rx_free := [rxe] |> <| qrx_next_id := qrx_next_id q + 1 |>, Some rxe)
      end
  end.

(** Changes the entry at the head of the free list, the one being filled. *)
Definition upd_head (q : OSSL_QRX) (f : RXE -> RXE) : OSSL_QRX :=
  q <| rx_free := match rx_free q with [] => [] | rxe :: l => f rxe :: l end |>.

(** The head of the free list resized; an entry that is handed out has been taken from the list by then. *)
Definition qrx_resize_rxe (alloc : bool) (q : OSSL_QRX) (n : Z) : OSSL_QRX * bool :=
  match rx_free q with
  | [] => (q, false)
  | rxe :: l =>
      if SIZE_MAX -u sizeof_RXE <=? n then (q, false)
      else if negb (rxe_refcount rxe =? 0) then (q <| rx_free := l |>, false)
      else if negb alloc then (q, false)
      else (upd_head q (fun rxe => rxe <| rxe_alloc_len := n |>), true)
  end.

Definition qrx_reserve_rxe (alloc : bool) (q : OSSL_QRX) (n : Z) : OSSL_QRX * bool :=
  match rx_free q with
  | [] => (q, false)
  | rxe :: _ => if n <=? rxe_alloc_len rxe then (q, true) else qrx_resize_rxe alloc q n
  end.

(** The space for the token in front of the payload; the position after it. *)
Definition qrx_relocate_buffer (alloc : bool) (q : OSSL_QRX) (i buf_len : Z) : OSSL_QRX * option Z :=
  if buf_len =? 0 then (q, Some i)
  else
    match qrx_reserve_rxe alloc q (i +u buf_len) with
    | (q, false) => (q, None)
    | (q, true) => (q, Some (i +u buf_len))
    end.

(** The head of the free list is moved to the end of the pending list, with what is known of the datagram. *)
Definition qrx_deliver (q : OSSL_QRX) (urxe : QUIC_URXE) (f : RXE -> RXE) : OSSL_QRX :=
  match rx_free q with
  | [] => q
  | rxe :: l =>
      let rxe := (f rxe) <| rxe_peer := ux_peer urxe |> <| rxe_local := ux_local urxe |> <| rxe_time := ux_time urxe |>
                         <| rxe_datagram_id := ux_datagram_id urxe |> in
      q <| rx_free := l |> <| rx_pending := rx_pending q ++ [rxe] |>
  end.

(** ** Headers *)

Definition qrx_determine_enc_level (hdr : QUIC_PKT_HDR) : Z :=
  if ph_type hdr =? QUIC_PKT_TYPE_INITIAL then QUIC_ENC_LEVEL_INITIAL
  else if ph_type hdr =? QUIC_PKT_TYPE_HANDSHAKE then QUIC_ENC_LEVEL_HANDSHAKE
  else if ph_type hdr =? QUIC_PKT_TYPE_0RTT then QUIC_ENC_LEVEL_0RTT
  else if ph_type hdr =? QUIC_PKT_TYPE_1RTT then QUIC_ENC_LEVEL_1RTT
  else QUIC_ENC_LEVEL_INITIAL.

Definition rxe_determine_pn_space (hdr : QUIC_PKT_HDR) : pn_space := ossl_quic_enc_level_to_pn_space (qrx_determine_enc_level hdr).

Definition qrx_validate_hdr_early (hdr : QUIC_PKT_HDR) (first_dcid : option QUIC_CONN_ID) : bool :=
  if negb (ph_version hdr =? QUIC_VERSION_1) && negb (ph_version hdr =? QUIC_VERSION_NONE) then false
  else if ph_type hdr =? QUIC_PKT_TYPE_0RTT then false
  else
    match first_dcid with
    | None => true
    | Some dcid =>
        if negb (ossl_quic_pkt_type_can_share_dgram (ph_type hdr)) then false
        else (cid_id_len dcid <? QUIC_MAX_CONN_ID_LEN) && ossl_quic_conn_id_eq dcid (ph_dst hdr)
    end.

(** The decoded packet number. *)
Definition qrx_validate_hdr (q : OSSL_QRX) (hdr : QUIC_PKT_HDR) : option QUIC_PN :=
  ossl_quic_wire_decode_pkt_hdr_pn (ph_pn hdr) (ph_pn_len hdr) (sget (largest_pn q) (rxe_determine_pn_space hdr)).

(** ** Keys *)

(** The slot, the key epoch it stands for, and whether that is the epoch before the current one. *)
Definition qrx_get_cipher_ctx_idx (el : OSSL_QRL_ENC_LEVEL) (enc_level : Z) (key_phase_bit : bool) : Z * Z * bool :=
  if negb (enc_level =? QUIC_ENC_LEVEL_1RTT) then (0, 0, false)
  else
    let kp := b2z key_phase_bit in
    let lsb := Z.land (el_key_epoch el) 1 in
    let idx := if el_state el =? QRL_EL_STATE_PROV_COOLDOWN then lsb else kp in
    if el_state el =? QRL_EL_STATE_PROV_NORMAL then (idx, el_key_epoch el +u Z.lxor lsb kp, false)
    else if el_state el =? QRL_EL_STATE_PROV_UPDATING then
      let is_old_key := Z.lxor lsb kp in (idx, el_key_epoch el -u is_old_key, negb (is_old_key =? 0))
    else (idx, if el_state el =? QRL_EL_STATE_PROV_COOLDOWN then el_key_epoch el else UINT64_MAX, false).

(** The crypto library's answer: an error of a call before the last, a tag that does not verify, or the plaintext. *)
Inductive aead_result := AeadError | AeadForged | AeadOk (plaintext : bytes).

(** Keys of a slot, length of the tag, nonce, associated data, ciphertext with the tag. *)
Context (aead_open : keyslot -> Z -> bytes -> bytes -> bytes -> aead_result).
Context (EVP_aes_ecb : bytes -> bytes -> option bytes) (EVP_chacha : bytes -> bytes -> bytes -> option bytes).
Context (hkdf_expand : Z -> bytes -> bytes -> Z -> bytes).
(** The late validation callback, if one is set, and whether a key update callback is. *)
Context (validation_cb : option (QUIC_PN -> pn_space -> bool)) (key_update_cb : bool).

(** The payload and the key epoch; outermost [None]: a NULL cipher context is used. *)
Definition qrx_decrypt_pkt_body (q : OSSL_QRX) (src aad : bytes) (pn : QUIC_PN) (enc_level : Z) (key_phase_bit : bool)
  : option (OSSL_QRX * option (bytes * Z)) :=
  if (INT_MAX <? zlen src) || (INT_MAX <? zlen aad) then Some (q, None)
  else
    match ossl_qrl_enc_level_set_get (qrx_el_set q) enc_level true with
    | None => Some (q, None)
    | Some el =>
        if zlen src <=? el_tag_len el then Some (q, None)
        else if ossl_qrl_get_suite_max_forged_pkt (el_suite_id el) <=? forged_pkt_count q then Some (q, None)
        else
          let '(cctx_idx, rx_key_epoch, is_old_key) := qrx_get_cipher_ctx_idx el enc_level key_phase_bit in
          if is_old_key && (cur_epoch_start_pn q <=? pn) then Some (q, None)
          else
            cctx ← el_cctx el cctx_idx;
            if zlen (slot_iv cctx) <? sizeof_QUIC_PN then Some (q, None)
            else
              Some (match aead_open cctx (el_tag_len el) (aead_nonce (slot_iv cctx) pn) aad src with
                    | AeadError => (q, None)
                    | AeadForged => (q <| forged_pkt_count := forged_pkt_count q +u 1 |>, None)
                    | AeadOk dst => (q, Some (dst, rx_key_epoch))
                    end)
    end.

(** Late packet header validation. *)
Definition qrx_validate_hdr_late (pn : QUIC_PN) (s : pn_space) : bool :=
  match validation_cb with None => true | Some cb => cb pn s end.

(** No library call is made for a receiving level. *)
Definition qrx_key_update_initiated (q : OSSL_QRX) (pn : QUIC_PN) : option OSSL_QRX :=
  '(els, r) ← ossl_qrl_enc_level_set_key_update hkdf_expand (fun _ => false) (qrx_el_set q) QUIC_ENC_LEVEL_1RTT;
  let q := q <| qrx_el_set := els |> in
  if negb r then Some q
  else Some (q <| cur_epoch_start_pn := pn |> <| qrx_ku_events := if key_update_cb then qrx_ku_events q ++ [pn] else qrx_ku_events q |>).

(** ** Packets of a datagram *)

Definition mark_processed (urxe : QUIC_URXE) (pkt_idx : Z) : QUIC_URXE := urxe <| ux_processed := pkt_mark (ux_processed urxe) pkt_idx |>.

(** What becomes of a packet whose header is understood: discarded for good (with the
    rest of the datagram when memory runs out), kept for later, or processed. *)
Inductive pkt_fate := Malformed | MalformedNoMemory | CannotDecrypt | Processed.
#[export] Instance pkt_fate_eq_dec : EqDecision pkt_fate.
Proof. solve_decision. Defined.

(** The part after header protection is removed: [h] is the full header, [pkt] the packet from its
    first byte, [hdr_end] the length of the header, [i] the length of the token. *)
Definition qrx_open_pkt (ok : nat -> bool) (q : OSSL_QRX) (urxe : QUIC_URXE) (pkt_idx : Z) (h : QUIC_PKT_HDR) (pkt : bytes) (hdr_end i : Z)
  (enc_level datagram_len : Z) : option (OSSL_QRX * QUIC_URXE * pkt_fate) :=
  match qrx_validate_hdr q h with
  | None => Some (q, urxe, Malformed)
  | Some pn =>
      match qrx_reserve_rxe (ok 2%nat) q (ph_len h +u i) with
      | (q, false) => Some (q, urxe, MalformedNoMemory)
      | (q, true) =>
          '(q, r) ← qrx_decrypt_pkt_body q (default [] (ph_data h)) (take (Z.to_nat hdr_end) pkt) pn enc_level (ph_key_phase h);
          match r with
          | None => Some (q, urxe, Malformed)
          | Some (dst, rx_key_epoch) =>
              let s := rxe_determine_pn_space h in
              if negb (qrx_validate_hdr_late pn s) then Some (q, urxe, Malformed)
              else
                q ← (if (ph_type h =? QUIC_PKT_TYPE_1RTT)
                        && negb (b2z (ph_key_phase h) =? Z.land (el_key_epoch (qrx_el_set q enc_level)) 1)
                     then qrx_key_update_initiated q pn else Some q);
                let q := if sget (largest_pn q) s <? pn then q <| largest_pn := sset (largest_pn q) s pn |> else q in
                Some (qrx_deliver q urxe (fun rxe =>
                        rxe <| rxe_hdr := h <| ph_data := Some dst |> <| ph_len := zlen dst |> |> <| rxe_pn := pn |>
                            <| rxe_data_len := zlen dst |> <| rxe_datagram_len := datagram_len |> <| rxe_key_epoch := rx_key_epoch |>),
                      mark_processed urxe pkt_idx, Processed)
          end
      end
  end.

(** An encrypted packet for which there are keys, at the offsets from [off] to [eop] of the datagram.  [ptrs] and the
    header [h] are those of the first decode, which is of the full header if the protection is gone already.  The last
    result is where the reader of the datagram stands.  The token of the header is a value here: in the code it is copied into the
    entry first, and the second decode then points it back into the datagram. *)
Definition qrx_unprotect_pkt (ok : nat -> bool) (q : OSSL_QRX) (urxe : QUIC_URXE) (short_len off eop pkt_idx : Z) (h : QUIC_PKT_HDR)
  (ptrs : QUIC_PKT_HDR_PTRS) (need_second_decode : bool) (enc_level datagram_len : Z) : option (OSSL_QRX * QUIC_URXE * pkt_fate * Z) :=
  match (if ph_type h =? QUIC_PKT_TYPE_INITIAL then qrx_relocate_buffer (ok 1%nat) q 0 (ph_token_len h) else (q, Some 0)) with
  | (q, None) => Some (q, urxe, Malformed, eop)
  | (q, Some i) =>
      let sop := drop (Z.to_nat off) (ux_data urxe) in
      if need_second_decode then
        el ← ossl_qrl_enc_level_set_get (qrx_el_set q) enc_level true;
        '(cipher_id, hpr_key) ← el_hpr el;
        match ossl_quic_hdr_protector_decrypt cipher_id (EVP_aes_ecb hpr_key) (EVP_chacha hpr_key) sop ptrs with
        | None => Some (q, urxe, Malformed, off)
        | Some pkt =>
            let urxe := urxe <| ux_data := take (Z.to_nat off) (ux_data urxe) ++ pkt |>
                             <| ux_hpr_removed := pkt_mark (ux_hpr_removed urxe) pkt_idx |> in
            match ossl_quic_wire_decode_pkt_hdr pkt short_len false false h with
            | (None, _) => Some (q, urxe, Malformed, off)
            | (Some (h2, _, rest), _) =>
                let n := zlen pkt - zlen rest in
                '(q, urxe, fate) ← qrx_open_pkt ok (upd_head q (fun rxe => rxe <| rxe_hdr := h2 |>)) urxe pkt_idx h2 pkt (n - ph_len h2) i
                                     enc_level datagram_len;
                Some (q, urxe, fate, off + n)
            end
        end
      else
        '(q, urxe, fate) ← qrx_open_pkt ok q urxe pkt_idx h sop (eop - off - ph_len h) i enc_level datagram_len;
        Some (q, urxe, fate, off)
  end.

(** A Version Negotiation or Retry packet, which is copied as it is. *)
Definition qrx_copy_pkt (ok : nat -> bool) (q : OSSL_QRX) (urxe : QUIC_URXE) (pkt_idx : Z) (h : QUIC_PKT_HDR) (datagram_len : Z)
  : OSSL_QRX * QUIC_URXE * pkt_fate :=
  match qrx_reserve_rxe (ok 1%nat) q (ph_len h) with
  | (q, false) => (q, urxe, Malformed)
  | (q, true) =>
      (qrx_deliver q urxe (fun rxe => rxe <| rxe_pn := UINT64_MAX |> <| rxe_data_len := ph_len h |> <| rxe_datagram_len := datagram_len |>
                                          <| rxe_key_epoch := 0 |>),
       mark_processed urxe pkt_idx, Processed)
  end.

(** What can be done with the packet now. *)
Definition qrx_fate_of_level (q : OSSL_QRX) (enc_level : Z) : option pkt_fate :=
  have ← ossl_qrl_enc_level_set_have_el (qrx_el_set q) enc_level;
  Some (if have =? 1 then if (enc_level =? QUIC_ENC_LEVEL_1RTT) && negb (allow_1rtt q) then CannotDecrypt else Processed
        else if have =? 0 then CannotDecrypt else Malformed).

(** The packet of the datagram at offset [off]: the reader's new offset, the datagram's first DCID, and whether the packet was deferred. *)
Definition qrx_process_pkt (ok : nat -> bool) (q : OSSL_QRX) (urxe : QUIC_URXE) (off pkt_idx : Z) (first_dcid : QUIC_CONN_ID) (datagram_len : Z)
  : option (OSSL_QRX * QUIC_URXE * Z * QUIC_CONN_ID * bool) :=
  let pkt := drop (Z.to_nat off) (ux_data urxe) in
  match qrx_ensure_free_rxe (ok 0%nat) q (zlen pkt) with
  | (q, None) => Some (q, urxe, off, first_dcid, false)
  | (q, Some rxe) =>
      let already_processed := pkt_is_marked (ux_processed urxe) pkt_idx in
      let need_second_decode := negb (pkt_is_marked (ux_hpr_removed urxe) pkt_idx) in
      match ossl_quic_wire_decode_pkt_hdr pkt (short_conn_id_len q) need_second_decode false (rxe_hdr rxe) with
      | (None, _) => Some (q, mark_processed urxe pkt_idx, zlen (ux_data urxe), first_dcid, false)
      | (Some (h, ptrs, rest), _) =>
          let eop := zlen (ux_data urxe) - zlen rest in
          let q := upd_head q (fun rxe => rxe <| rxe_hdr := h |>) in
          let first_dcid := if pkt_idx =? 0 then ph_dst h else first_dcid in
          let enc_level := qrx_determine_enc_level h in
          '(q, urxe, fate, off) ←
            (if already_processed || negb (qrx_validate_hdr_early h (if pkt_idx =? 0 then None else Some first_dcid)) then Some (q, urxe, Malformed, eop)
             else if negb (ossl_quic_pkt_type_is_encrypted (ph_type h)) then
               let '(q, urxe, fate) := qrx_copy_pkt ok q urxe pkt_idx h datagram_len in Some (q, urxe, fate, eop)
             else
               fate ← qrx_fate_of_level q enc_level;
               match fate with
               | Processed => qrx_unprotect_pkt ok q urxe (short_conn_id_len q) off eop pkt_idx h ptrs need_second_decode enc_level datagram_len
               | _ => Some (q, urxe, fate, eop)
               end);
          Some (match fate with
                | Processed => (q, urxe, off, first_dcid, false)
                | CannotDecrypt => (q, urxe, eop, first_dcid, true)
                | Malformed => (q, mark_processed urxe pkt_idx, eop, first_dcid, false)
                | MalformedNoMemory => (q, mark_processed urxe pkt_idx, zlen (ux_data urxe), first_dcid, false)
                end)
      end
  end.

(** The packets of a datagram from the offset [off] on; [fuel]: how many more are looked at. *)
Fixpoint process_loop (fuel : nat) (ok : nat -> nat -> bool) (q : OSSL_QRX) (urxe : QUIC_URXE) (off pkt_idx : Z) (first_dcid : QUIC_CONN_ID)
  (datagram_len : Z) (have_deferred : bool) : option (OSSL_QRX * QUIC_URXE * bool) :=
  match fuel with
  | O => Some (q, urxe, have_deferred)
  | S fuel =>
      let remaining := zlen (ux_data urxe) - off in
      if (remaining <=? 0) || (remaining <? QUIC_MIN_VALID_PKT_LEN) then Some (q, urxe, have_deferred)
      else
        '(q, urxe, off, first_dcid, d) ← qrx_process_pkt (ok (Z.to_nat pkt_idx)) q urxe off pkt_idx first_dcid datagram_len;
        process_loop fuel ok q urxe off (pkt_idx + 1) first_dcid datagram_len (have_deferred || d)
  end.

Definition qrx_process_datagram (ok : nat -> nat -> bool) (q : OSSL_QRX) (e : QUIC_URXE) : option (OSSL_QRX * QUIC_URXE * bool) :=
  let data_len := zlen (ux_data e) in
  let q := q <| bytes_received := bytes_received q +u data_len |> in
  if SIZE_MAX / 2 <? data_len then Some (q, e, false)
  else process_loop (Z.to_nat QUIC_MAX_PKT_PER_URXE) ok q e 0 0 (mkConnId 255 (replicate 20 0)) data_len false.

(** The datagram at the head of the pending list, taken off it once it is processed. *)
Definition qrx_process_one_urxe (ok : nat -> nat -> bool) (q : OSSL_QRX) (e : QUIC_URXE) : option OSSL_QRX :=
  '(q, e, was_deferred) ← qrx_process_datagram ok q e;
  let q := q <| urx_pending := tail (urx_pending q) |> in
  if (was_deferred : bool) && (ux_deferred e || (num_deferred q <? max_deferred q)) then
    let q := if ux_deferred e then q else q <| num_deferred := num_deferred q +u 1 |> in
    Some (q <| urx_deferred := urx_deferred q ++ [e <| ux_deferred := true |>] |>)
  else
    let q := if ux_deferred e then q <| num_deferred := num_deferred q -u 1 |> else q in
    Some (q <| qrx_released := qrx_released q ++ [e <| ux_deferred := false |>] |>).

(** As many rounds as there are datagrams pending. *)
Fixpoint pending_loop (ok : nat -> nat -> nat -> bool) (n : nat) (fuel : list QUIC_URXE) (q : OSSL_QRX) : option OSSL_QRX :=
  match fuel with
  | [] => Some q
  | e :: rest => q ← qrx_process_one_urxe (ok n) q e; pending_loop ok (S n) rest q
  end.

Definition qrx_process_pending_urxl (ok : nat -> nat -> nat -> bool) (q : OSSL_QRX) : option OSSL_QRX := pending_loop ok 0 (urx_pending q) q.

(** The next packet, which is handed out. *)
Definition ossl_qrx_read_pkt (ok : nat -> nat -> nat -> bool) (q : OSSL_QRX) : option (OSSL_QRX * option RXE) :=
  q ← (if ossl_qrx_processed_read_pending q then Some q else qrx_process_pending_urxl ok q);
  match rx_pending q with
  | [] => Some (q, None)
  | rxe :: l =>
      let rxe := rxe <| rxe_refcount := 1 |> in
      Some (q <| rx_pending := l |> <| qrx_out := <[rxe_id rxe := rxe]> (qrx_out q) |>, Some rxe)
  end.

(** ** The first packet of a connection, checked before there is a channel *)

Definition ossl_qrx_validate_initial_packet (ok : nat -> bool) (q : OSSL_QRX) (e : QUIC_URXE) : option (OSSL_QRX * QUIC_URXE * bool) :=
  let urxe := e <| ux_processed := 0 |> <| ux_hpr_removed := 0 |> <| ux_deferred := false |> in
  let failed q urxe := Some (q, urxe, false) in
  if SIZE_MAX / 2 <? zlen (ux_data urxe) then failed q urxe
  else
  match qrx_ensure_free_rxe (ok 0%nat) q (zlen (ux_data urxe)) with
  | (q, None) => failed q urxe
  | (q, Some rxe) =>
      match ossl_quic_wire_decode_pkt_hdr (ux_data urxe) 0 true false (rxe_hdr rxe) with
      | (None, _) => failed q urxe
      | (Some (h, ptrs, rest), _) =>
          let q := upd_head q (fun rxe => rxe <| rxe_hdr := h |>) in
          if negb (ph_type h =? QUIC_PKT_TYPE_INITIAL) || negb (qrx_validate_hdr_early h None) then failed q urxe
          else
            have ← ossl_qrl_enc_level_set_have_el (qrx_el_set q) QUIC_ENC_LEVEL_INITIAL;
            if negb (have =? 1) then failed q urxe
            else
              '(q, urxe, fate, _) ← qrx_unprotect_pkt ok q urxe 0 0 (zlen (ux_data urxe) - zlen rest) 0 h ptrs true
                                      QUIC_ENC_LEVEL_INITIAL (zlen (ux_data urxe));
              Some (q, urxe, bool_decide (fate = Processed))
      end
  end.

(** ** Keys *)

Definition ossl_qrx_provide_secret (ok : nat -> bool) (q : OSSL_QRX) (enc_level suite_id : Z) (md : option Z) (secret : bytes)
  : option (OSSL_QRX * bool) :=
  if QUIC_ENC_LEVEL_NUM <=? enc_level then Some (q, false)
  else
    '(els, r) ← ossl_qrl_enc_level_set_provide_secret hkdf_expand ok (qrx_el_set q) enc_level suite_id md secret (init_key_phase_bit q) false;
    let q := q <| qrx_el_set := els |> in
    Some (if r : bool then qrx_requeue_deferred q else q, r).

Definition ossl_qrx_get_key_epoch (q : OSSL_QRX) : Z :=
  match ossl_qrl_enc_level_set_get (qrx_el_set q) QUIC_ENC_LEVEL_1RTT true with None => UINT64_MAX | Some el => el_key_epoch el end.

(** The update is done, and with [normal] the time to cool down is over as well. *)
Definition ossl_qrx_key_update_timeout (ok : nat -> bool) (q : OSSL_QRX) (normal : bool) : option (OSSL_QRX * bool) :=
  match ossl_qrl_enc_level_set_get (qrx_el_set q) QUIC_ENC_LEVEL_1RTT true with
  | None => Some (q, false)
  | Some el =>
      let '(els, r) := if el_state el =? QRL_EL_STATE_PROV_UPDATING then ossl_qrl_enc_level_set_key_update_done (qrx_el_set q) QUIC_ENC_LEVEL_1RTT
                       else (qrx_el_set q, true) in
      let q := q <| qrx_el_set := els |> in
      if negb r then Some (q, false)
      else if normal && (el_state (els QUIC_ENC_LEVEL_1RTT) =? QRL_EL_STATE_PROV_COOLDOWN) then
        '(els, r) ← ossl_qrl_enc_level_set_key_cooldown_done hkdf_expand ok els QUIC_ENC_LEVEL_1RTT;
        Some (q <| qrx_el_set := els |>, r)
      else Some (q, true)
  end.

Definition ossl_qrx_get_cur_forged_pkt_count (q : OSSL_QRX) : Z := forged_pkt_count q.
Definition ossl_qrx_get_max_forged_pkt_count (q : OSSL_QRX) (enc_level : Z) : Z :=
  match ossl_qrl_enc_level_set_get (qrx_el_set q) enc_level true with None => UINT64_MAX | Some el => ossl_qrl_get_suite_max_forged_pkt (el_suite_id el) end.

Definition ossl_qrx_allow_1rtt_processing (q : OSSL_QRX) : OSSL_QRX :=
  if allow_1rtt q then q else qrx_requeue_deferred (q <| allow_1rtt := true |>).

Definition ossl_qrx_get_bytes_received (q : OSSL_QRX) (clear : bool) : OSSL_QRX * Z :=
  (if clear then q <| bytes_received := 0 |> else q, bytes_received q).
Definition ossl_qrx_get_short_hdr_conn_id_len (q : OSSL_QRX) : Z := short_conn_id_len q.
End RxEntries.
