(* ===== verification/QrxInv.v ===== *)
(** * Over every history of the receive record layer (ssl/quic/quic_record_rx.c)

    No datagram and no packet entry is lost or counted twice: a datagram is pending,
    deferred or given back, a packet entry is free, waiting to be read or handed out, and
    no more datagrams are deferred than allowed. *)

From S2P Require Import Prelude OsslTime Packet Wire WirePkt Qrl Qtx Ackm Txp Qrx.

(** ** Entries *)

Definition free_ids (q : OSSL_QRX) : list Z := rxe_id <$> (rx_free q ++ rx_pending q).

(** Every entry is in one place; a free or waiting one has no user.  The entries allocated so far are named by
    the numbers below [qrx_next_id]. *)
Record entries_ok (q : OSSL_QRX) : Prop := {
  en_nodup : NoDup (free_ids q);
  en_apart : forall id, id ∈ free_ids q -> qrx_out q !! id = None;
  en_all : 0 <= qrx_next_id q /\ forall id, id ∈ free_ids q \/ is_Some (qrx_out q !! id) <-> 0 <= id < qrx_next_id q;
  en_unused : Forall (fun rxe => rxe_refcount rxe = 0) (rx_free q ++ rx_pending q);
  en_used : map_Forall (fun id rxe => rxe_id rxe = id /\ 1 <= rxe_refcount rxe < U64_MOD) (qrx_out q) }.

(** What the processing of packets does to the rest of the state. *)
Record same_lists (q q' : OSSL_QRX) : Prop := {
  sl_pending : urx_pending q' = urx_pending q;
  sl_deferred : urx_deferred q' = urx_deferred q;
  sl_count : num_deferred q' = num_deferred q /\ max_deferred q' = max_deferred q;
  sl_released : qrx_released q' = qrx_released q;
  sl_out : qrx_out q' = qrx_out q;
  sl_entries : entries_ok q -> entries_ok q' }.

#[export] Instance same_lists_refl : Reflexive same_lists.
Proof. intros q. by split. Qed.
#[export] Instance same_lists_trans : Transitive same_lists.
Proof. intros a b c [A1 A2 [A3 A3'] A4 A5 A6] [B1 B2 [B3 B3'] B4 B5 B6]. split; try (split; congruence); try congruence. tauto. Qed.

(** The entry keeps its name and is not used. *)
Definition keeps_entry (f : RXE -> RXE) : Prop := forall rxe, rxe_id (f rxe) = rxe_id rxe /\ rxe_refcount (f rxe) = rxe_refcount rxe.

(** A state that differs in what no invariant of the lists reads. *)
Lemma entries_eq (q q' : OSSL_QRX) : rx_free q' = rx_free q -> rx_pending q' = rx_pending q -> qrx_out q' = qrx_out q ->
  qrx_next_id q' = qrx_next_id q -> entries_ok q -> entries_ok q'.
Proof. intros H1 H2 H3 H4 [E1 E2 E3 E4 E5]. split; unfold free_ids in *; rewrite ?H1, ?H2, ?H3, ?H4; done. Qed.

Lemma entries_perm (q q' : OSSL_QRX) (l l' : list RXE) : rx_free q ++ rx_pending q = l -> rx_free q' ++ rx_pending q' = l' ->
  Permutation (rxe_id <$> l') (rxe_id <$> l) -> Forall (fun rxe => rxe_refcount rxe = 0) l' -> qrx_out q' = qrx_out q -> qrx_next_id q' = qrx_next_id q ->
  entries_ok q -> entries_ok q'.
Proof.
  intros <- <- Hp Hf Ho Hn [E1 E2 E3 E4 E5]. fold (free_ids q) (free_ids q') in Hp. split; rewrite ?Ho, ?Hn; auto.
  - by rewrite Hp.
  - intros id. rewrite Hp. apply E2.
  - destruct E3 as [E0 E3]. split; [done|]. intros id. rewrite Hp. apply E3.
Qed.

Lemma upd_head_same (q : OSSL_QRX) (f : RXE -> RXE) : keeps_entry f -> same_lists q (upd_head q f).
Proof.
  intros Hf. split; try done. intros He. destruct (rx_free q) as [|r l] eqn:Efree.
  - eapply entries_eq; [..|exact He]; unfold upd_head; cbn; rewrite ?Efree; done.
  - destruct (Hf r) as [Hi Hr]. eapply entries_perm; [reflexivity|reflexivity|..|exact He]; unfold upd_head; cbn; rewrite ?Efree; cbn; rewrite ?Hi; [done| |done|done].
    pose proof (en_unused _ He) as Hu. rewrite Efree in Hu. cbn in Hu. apply Forall_cons in Hu as [Hu1 Hu2]. apply Forall_cons. split; [congruence|done].
Qed.

Section Inv.
Context (sizeof_RXE : Z).
Context (aead_open : keyslot -> Z -> bytes -> bytes -> bytes -> aead_result).
Context (EVP_aes_ecb : bytes -> bytes -> option bytes) (EVP_chacha : bytes -> bytes -> bytes -> option bytes).
Context (hkdf_expand : Z -> bytes -> bytes -> Z -> bytes).
Context (validation_cb : option (QUIC_PN -> pn_space -> bool)) (key_update_cb : bool).
(** How many datagrams may be deferred. *)
Context (max_def : Z).

Abbreviation open_pkt := (qrx_open_pkt sizeof_RXE aead_open hkdf_expand validation_cb key_update_cb).
Abbreviation unprotect_pkt := (qrx_unprotect_pkt sizeof_RXE aead_open EVP_aes_ecb EVP_chacha hkdf_expand validation_cb key_update_cb).
Abbreviation process_pkt := (qrx_process_pkt sizeof_RXE aead_open EVP_aes_ecb EVP_chacha hkdf_expand validation_cb key_update_cb).
Abbreviation process_datagram := (qrx_process_datagram sizeof_RXE aead_open EVP_aes_ecb EVP_chacha hkdf_expand validation_cb key_update_cb).
Abbreviation process_one_urxe := (qrx_process_one_urxe sizeof_RXE aead_open EVP_aes_ecb EVP_chacha hkdf_expand validation_cb key_update_cb).
Abbreviation read_pkt := (ossl_qrx_read_pkt sizeof_RXE aead_open EVP_aes_ecb EVP_chacha hkdf_expand validation_cb key_update_cb).

Lemma ensure_free_same (alloc : bool) (q q' : OSSL_QRX) (n : Z) (r : option RXE) :
  qrx_ensure_free_rxe sizeof_RXE alloc q n = (q', r) -> same_lists q q' /\ (is_Some r -> rx_free q' <> []).
Proof.
  unfold qrx_ensure_free_rxe, qrx_alloc_rxe. destruct (rx_free q) as [|rxe l] eqn:Hf.
  - destruct (_ <=? _); [intros [= <- <-]; split; [done|by intros [? ?]]|]. destruct alloc; cbn [negb]; [|intros [= <- <-]; split; [done|by intros [? ?]]].
    intros [= <- <-]. split; [|done]. split; try done.
    intros [E1 E2 [E0 E3] E4 E5]. unfold free_ids in *. rewrite Hf in *. cbn in *.
    assert (Hn : qrx_out q !! qrx_next_id q = None).
    { destruct (qrx_out q !! qrx_next_id q) eqn:Eo; [|done]. exfalso. assert (0 <= qrx_next_id q < qrx_next_id q); [|lia]. apply E3. right. by eexists. }
    split; unfold free_ids; cbn; rewrite ?app_nil_l.
    + apply NoDup_cons. split; [|done]. intros Hin. assert (0 <= qrx_next_id q < qrx_next_id q); [|lia]. apply E3. by left.
    + intros id [->|Hin]%elem_of_cons; [done|by apply E2].
    + split; [lia|]. intros id. rewrite elem_of_cons. destruct (decide (id = qrx_next_id q)) as [->|Hne]; [split; [lia|tauto]|].
      transitivity (0 <= id < qrx_next_id q); [rewrite <- E3; tauto|lia].
    + by constructor.
    + done.
  - intros [= <- <-]. split; [reflexivity|]. intros _. by rewrite Hf.
Qed.

Lemma resize_same (alloc : bool) (q q' : OSSL_QRX) (n : Z) (r : bool) : entries_ok q -> qrx_resize_rxe sizeof_RXE alloc q n = (q', r) -> same_lists q q'.
Proof.
  intros He. unfold qrx_resize_rxe. destruct (rx_free q) as [|rxe l] eqn:Hf; [by intros [= <- <-]|].
  case_match; [by intros [= <- <-]|]. pose proof (en_unused _ He) as Hu. rewrite Hf in Hu. cbn in Hu. apply Forall_cons in Hu as [-> _]. cbn.
  case_match; intros [= <- <-]; [done|]. by apply upd_head_same.
Qed.

Lemma reserve_same (alloc : bool) (q q' : OSSL_QRX) (n : Z) (r : bool) : entries_ok q -> qrx_reserve_rxe sizeof_RXE alloc q n = (q', r) -> same_lists q q'.
Proof.
  intros He. unfold qrx_reserve_rxe. destruct (rx_free q) as [|rxe l] eqn:Hf; [by intros [= <- <-]|].
  case_match; [by intros [= <- <-]|]. by apply resize_same.
Qed.

Lemma relocate_same (alloc : bool) (q q' : OSSL_QRX) (i n : Z) (r : option Z) : entries_ok q -> qrx_relocate_buffer sizeof_RXE alloc q i n = (q', r) ->
  same_lists q q'.
Proof.
  intros He. unfold qrx_relocate_buffer. case_match; [by intros [= <- <-]|]. destruct (qrx_reserve_rxe _ _ _ _) as [q1 []] eqn:Hr; intros [= <- <-]; by eapply reserve_same.
Qed.

Lemma deliver_same (q : OSSL_QRX) (urxe : QUIC_URXE) (f : RXE -> RXE) : keeps_entry f -> same_lists q (qrx_deliver q urxe f).
Proof.
  intros Hf. unfold qrx_deliver. destruct (rx_free q) as [|r l] eqn:Efree; [done|]. split; try done. intros He. destruct (Hf r) as [Hi Hr].
  eapply (entries_perm q _ (r :: l ++ rx_pending q)); [by rewrite Efree|reflexivity|..|exact He]; cbn; [| |done|done].
  - rewrite !fmap_app. cbn. rewrite Hi. solve_Permutation.
  - pose proof (en_unused _ He) as Hu. rewrite Efree in Hu. cbn in Hu. apply Forall_cons in Hu as [Hu1 Hu2]. apply Forall_app in Hu2 as [Hu2 Hu3].
    apply Forall_app. split; [done|]. apply Forall_app. split; [done|]. apply Forall_singleton. cbn. congruence.
Qed.

(** A state that keeps the lists altogether. *)
Lemma other_same (q q' : OSSL_QRX) : urx_pending q' = urx_pending q -> urx_deferred q' = urx_deferred q ->
  num_deferred q' = num_deferred q -> max_deferred q' = max_deferred q -> qrx_released q' = qrx_released q -> qrx_out q' = qrx_out q ->
  rx_free q' = rx_free q -> rx_pending q' = rx_pending q -> qrx_next_id q' = qrx_next_id q -> same_lists q q'.
Proof. intros. split; auto. by apply entries_eq. Qed.

Lemma decrypt_same (q q' : OSSL_QRX) (src aad : bytes) pn lvl kp r :
  qrx_decrypt_pkt_body aead_open q src aad pn lvl kp = Some (q', r) -> same_lists q q'.
Proof.
  unfold qrx_decrypt_pkt_body. destruct (ossl_qrl_enc_level_set_get _ _ _) as [el|]; [|case_match; by intros [= <- <-]].
  destruct (qrx_get_cipher_ctx_idx el lvl kp) as [[idx ep] old]. repeat (case_match; [by intros [= <- <-]|]).
  destruct (el_cctx el idx) as [cctx|]; [|done]. cbn. case_match; [by intros [= <- <-]|]. case_match; intros [= <- <-]; try done. by apply other_same.
Qed.

Lemma ku_same (q q' : OSSL_QRX) pn : qrx_key_update_initiated hkdf_expand key_update_cb q pn = Some q' -> same_lists q q'.
Proof.
  unfold qrx_key_update_initiated. destruct (ossl_qrl_enc_level_set_key_update _ _ _ _) as [[els r]|]; [|done]. cbn.
  destruct r; intros [= <-]; by apply other_same.
Qed.

(** The datagram stays the same datagram. *)
Record same_dgram (e e' : QUIC_URXE) : Prop := {
  sd_deferred : ux_deferred e' = ux_deferred e;
  sd_id : ux_datagram_id e' = ux_datagram_id e }.
#[local] Instance same_dgram_refl : Reflexive same_dgram.
Proof. by split. Qed.
#[local] Instance same_dgram_trans : Transitive same_dgram.
Proof. intros a b c [A1 A2] [B1 B2]. split; congruence. Qed.

Lemma open_same ok (q q' : OSSL_QRX) (e e' : QUIC_URXE) idx h pkt n i lvl len fate : entries_ok q ->
  open_pkt ok q e idx h pkt n i lvl len = Some (q', e', fate) -> same_lists q q' /\ same_dgram e e'.
Proof.
  intros He. unfold qrx_open_pkt. destruct (qrx_validate_hdr q h) as [pn|]; [|by intros [= <- <- <-]].
  destruct (qrx_reserve_rxe _ _ _ _) as [q1 r1] eqn:Hr. pose proof (reserve_same _ _ _ _ _ He Hr) as S1.
  destruct r1; [|by intros [= <- <- <-]]. destruct (qrx_decrypt_pkt_body _ _ _ _ _ _ _) as [[q2 r2]|] eqn:Hd; [|done]. cbn [mbind option_bind].
  pose proof (decrypt_same _ _ _ _ _ _ _ _ Hd) as S2. assert (S12 : same_lists q q2) by (by etrans). clear S1 S2 Hr Hd.
  destruct r2 as [[dst ep]|]; [|by intros [= <- <- <-]]. case_match; [by intros [= <- <- <-]|].
  destruct (if _ && _ then _ else _) as [q3|] eqn:Hk; [|done]. cbn [mbind option_bind].
  assert (S3 : same_lists q2 q3) by (case_match; [by eapply ku_same|by simplify_eq]).
  set (q4 := if _ <? pn then _ else _). assert (S4 : same_lists q3 q4) by (subst q4; destruct (_ <? pn); [by apply other_same|done]).
  intros [= <- <- <-]. split; [|done]. etrans; [exact S12|]. etrans; [exact S3|]. etrans; [exact S4|]. by apply deliver_same.
Qed.

Lemma unprotect_same ok (q q' : OSSL_QRX) (e e' : QUIC_URXE) sl off eop idx h ptrs nd lvl len fate off' : entries_ok q ->
  unprotect_pkt ok q e sl off eop idx h ptrs nd lvl len = Some (q', e', fate, off') -> same_lists q q' /\ same_dgram e e'.
Proof.
  intros He. unfold qrx_unprotect_pkt. destruct (if ph_type h =? _ then _ else _) as [q1 [i|]] eqn:Hr;
    (assert (S1 : same_lists q q1) by (case_match; [by eapply relocate_same|by simplify_eq])); [|by intros [= <- <- <- <-]].
  pose proof (sl_entries _ _ S1 He) as He1. destruct nd.
  - destruct (ossl_qrl_enc_level_set_get _ _ _) as [el|]; [|done]. cbn [mbind option_bind]. destruct (el_hpr el) as [[cid key]|]; [|done]. cbn [mbind option_bind].
    destruct (ossl_quic_hdr_protector_decrypt _ _ _ _ _) as [pkt|]; [|by intros [= <- <- <- <-]].
    destruct (ossl_quic_wire_decode_pkt_hdr _ _ _ _ _) as [[[[h2 p2] rest]|] c]; [|by intros [= <- <- <- <-]].
    set (q2 := upd_head q1 _). assert (S2 : same_lists q1 q2) by (by apply upd_head_same).
    destruct (qrx_open_pkt _ _ _ _ _ _ _ _ _ _ _ _ _ _ _) as [[[q3 e3] f3]|] eqn:Ho; [|done]. cbn [mbind option_bind]. intros [= <- <- <- <-].
    apply open_same in Ho as [S3 S4]; [|by apply (sl_entries _ _ S2)]. split; [by etrans; [|etrans]|]. etrans; [|exact S4]. done.
  - destruct (qrx_open_pkt _ _ _ _ _ _ _ _ _ _ _ _ _ _ _) as [[[q3 e3] f3]|] eqn:Ho; [|done]. cbn [mbind option_bind]. intros [= <- <- <- <-].
    apply open_same in Ho as [S3 S4]; [|done]. split; [by etrans|done].
Qed.

Lemma process_same ok (q q' : OSSL_QRX) (e e' : QUIC_URXE) off idx fd len off' fd' d : entries_ok q ->
  process_pkt ok q e off idx fd len = Some (q', e', off', fd', d) -> same_lists q q' /\ same_dgram e e'.
Proof.
  intros He. unfold qrx_process_pkt. destruct (qrx_ensure_free_rxe _ _ _ _) as [q1 r] eqn:Hr. destruct (ensure_free_same _ _ _ _ _ Hr) as [S1 _].
  destruct r as [rxe|]; [|by intros [= <- <- <- <- <-]].
  destruct (ossl_quic_wire_decode_pkt_hdr _ _ _ _ _) as [[[[h p] rest]|] c]; [|by intros [= <- <- <- <- <-]].
  set (q2 := upd_head q1 _). assert (S2 : same_lists q q2) by (etrans; [exact S1|by apply upd_head_same]). pose proof (sl_entries _ _ S2 He) as He2.
  match goal with |- mbind _ ?x = _ -> _ => destruct x as [[[[q3 e3] f3] o3]|] eqn:Hx end; [|done]. cbn [mbind option_bind]. intros Hres.
  assert (S3 : same_lists q2 q3 /\ same_dgram e e3).
  { revert Hx. destruct (_ || _); [by intros [= <- <- <- <-]|]. destruct (negb (ossl_quic_pkt_type_is_encrypted _)).
    - unfold qrx_copy_pkt. destruct (qrx_reserve_rxe _ _ _ _) as [q4 []] eqn:Hv; pose proof (reserve_same _ _ _ _ _ He2 Hv); intros [= <- <- <- <-]; [|done].
      split; [|done]. etrans; [done|]. by apply deliver_same.
    - destruct (qrx_fate_of_level _ _) as [fate|]; [|done]. cbn [mbind option_bind]. destruct fate; try (by intros [= <- <- <- <-]). by apply unprotect_same. }
  destruct S3 as [S3 S4]. destruct f3; simplify_eq; (split; [by etrans|]); (etrans; [exact S4|]); done.
Qed.

Lemma loop_same fuel : forall ok (q q' : OSSL_QRX) (e e' : QUIC_URXE) off idx fd len d d', entries_ok q ->
  process_loop sizeof_RXE aead_open EVP_aes_ecb EVP_chacha hkdf_expand validation_cb key_update_cb fuel ok q e off idx fd len d = Some (q', e', d') ->
  same_lists q q' /\ same_dgram e e'.
Proof.
  induction fuel as [|fuel IH]; intros ok q q' e e' off idx fd len d d' He; cbn [process_loop]; [by intros [= <- <- <-]|].
  case_match; [by intros [= <- <- <-]|].
  destruct (qrx_process_pkt _ _ _ _ _ _ _ _ _ _ _ _ _ _) as [[[[[q1 e1] o1] f1] d1]|] eqn:Hp; [|done]. cbn [mbind option_bind]. intros Hl.
  apply process_same in Hp as [S1 S2]; [|done]. apply IH in Hl as [S3 S4]; [|by apply (sl_entries _ _ S1)]. split; by etrans.
Qed.

Lemma datagram_same ok (q q' : OSSL_QRX) (e e' : QUIC_URXE) d : entries_ok q -> process_datagram ok q e = Some (q', e', d) ->
  same_lists q q' /\ same_dgram e e'.
Proof.
  intros He. unfold qrx_process_datagram. set (q1 := q <| bytes_received := _ |>). assert (S1 : same_lists q q1) by (by apply other_same).
  case_match; [by intros [= <- <- <-]|]. intros Hl. apply loop_same in Hl as [S2 S3]; [|by apply (sl_entries _ _ S1)]. split; [by etrans|done].
Qed.

(** ** Datagrams *)

Definition flagged (l : list QUIC_URXE) : list QUIC_URXE := filter (fun e => ux_deferred e = true) l.
#[local] Arguments flagged : simpl never.
Definition datagrams (q : OSSL_QRX) : list Z := ux_datagram_id <$> (urx_pending q ++ urx_deferred q ++ qrx_released q).

Record qrx_inv (injected : list Z) (q : OSSL_QRX) : Prop := {
  qi_entries : entries_ok q;
  qi_datagrams : Permutation (datagrams q) injected;
  qi_deferred : Forall (fun e => ux_deferred e = true) (urx_deferred q);
  qi_released : Forall (fun e => ux_deferred e = false) (qrx_released q);
  qi_count : num_deferred q = zlen (flagged (urx_pending q ++ urx_deferred q)) /\ num_deferred q <= max_deferred q < U64_MOD;
  qi_max : max_deferred q = max_def }.

(** A change of the lists of datagrams only. *)
Lemma inv_datagrams (inj inj' : list Z) (q q' : OSSL_QRX) : qrx_inv inj q ->
  rx_free q' = rx_free q -> rx_pending q' = rx_pending q -> qrx_out q' = qrx_out q -> qrx_next_id q' = qrx_next_id q -> max_deferred q' = max_deferred q ->
  (Permutation (datagrams q) inj -> Permutation (datagrams q') inj') ->
  Forall (fun e => ux_deferred e = true) (urx_deferred q') -> Forall (fun e => ux_deferred e = false) (qrx_released q') ->
  num_deferred q' = zlen (flagged (urx_pending q' ++ urx_deferred q')) -> num_deferred q' <= max_deferred q -> qrx_inv inj' q'.
Proof.
  intros [I1 I2 I3 I4 [I5 I6] I7] H1 H2 H3 H4 H5 Hp Hd Hr Hn Hm. split; auto; [|rewrite H5; split; [done|lia]|congruence]. by eapply entries_eq.
Qed.

Lemma inv_same (inj : list Z) (q q' : OSSL_QRX) : same_lists q q' -> qrx_inv inj q -> qrx_inv inj q'.
Proof.
  intros [S1 S2 [S3 S3'] S4 S5 S6] [I1 I2 I3 I4 I5 I6]. split; unfold datagrams in *; rewrite ?S1, ?S2, ?S3, ?S3', ?S4; auto.
Qed.

Lemma flagged_cons (e : QUIC_URXE) (l : list QUIC_URXE) : zlen (flagged (e :: l)) = b2z (ux_deferred e) + zlen (flagged l).
Proof. unfold flagged, zlen. rewrite filter_cons. case_decide as H; [rewrite H|destruct (ux_deferred e)]; cbn [length b2z]; [lia|done|lia]. Qed.

Lemma flagged_app (l l' : list QUIC_URXE) : zlen (flagged (l ++ l')) = zlen (flagged l) + zlen (flagged l').
Proof. unfold flagged, zlen. rewrite filter_app, length_app. lia. Qed.

Lemma flagged_all (l : list QUIC_URXE) : Forall (fun e => ux_deferred e = true) l -> flagged l = l.
Proof. induction 1 as [|e l He Hl IH]; [done|]. unfold flagged in *. rewrite filter_cons_True by done. by rewrite IH. Qed.

(** What becomes of the datagram at the head of the pending list, once its packets were looked at. *)
Definition settled (q1 : OSSL_QRX) (e : QUIC_URXE) (was_deferred : bool) : OSSL_QRX :=
  let q := q1 <| urx_pending := tail (urx_pending q1) |> in
  if was_deferred && (ux_deferred e || (num_deferred q <? max_deferred q))
  then (if ux_deferred e then q else q <| num_deferred := num_deferred q +u 1 |>) <| urx_deferred := urx_deferred q ++ [e <| ux_deferred := true |>] |>
  else (if ux_deferred e then q <| num_deferred := num_deferred q -u 1 |> else q) <| qrx_released := qrx_released q ++ [e <| ux_deferred := false |>] |>.

Lemma settled_inv (inj : list Z) (q : OSSL_QRX) (e0 e : QUIC_URXE) (rest : list QUIC_URXE) (d : bool) : qrx_inv inj q -> urx_pending q = e0 :: rest ->
  same_dgram e0 e -> qrx_inv inj (settled q e d) /\ urx_pending (settled q e d) = rest.
Proof.
  intros Hi Hp [Hd Hid]. pose proof Hi as [I1 I2 I3 I4 [I5 I6] I7]. rewrite Hp in I5. cbn [app] in I5. rewrite flagged_cons, <- Hd in I5.
  pose proof (zlen_nonneg (flagged (rest ++ urx_deferred q))) as Hnn.
  unfold settled. cbn zeta. rewrite Hp. cbn [tail]. destruct (d && _) eqn:Ec.
  - split; [|by destruct (ux_deferred e)]. apply (inv_datagrams inj inj q); try (by destruct (ux_deferred e)); [|..].
    + intros <-. unfold datagrams. rewrite Hp. destruct (ux_deferred e); cbn; rewrite !fmap_app; cbn; rewrite Hid; solve_Permutation.
    + destruct (ux_deferred e); cbn; apply Forall_app; (split; [done|]); by constructor.
    + set (e' := e <| ux_deferred := true |>). assert (Hf : zlen (flagged (rest ++ urx_deferred q ++ [e'])) = zlen (flagged (rest ++ urx_deferred q)) + 1).
      { rewrite app_assoc, flagged_app. by change (zlen (flagged [e'])) with 1. }
      destruct (ux_deferred e) eqn:Ee; cbn -[add64 e'] in *; rewrite Hf; [lia|]. apply andb_true_iff in Ec as [_ Ec]. rewrite add64_small; lia.
    + destruct (ux_deferred e) eqn:Ee; cbn in *; [lia|]. apply andb_true_iff in Ec as [_ Ec]. rewrite add64_small by lia. lia.
  - split; [|by destruct (ux_deferred e)]. apply (inv_datagrams inj inj q); try (by destruct (ux_deferred e)); [|..].
    + intros <-. unfold datagrams. rewrite Hp. destruct (ux_deferred e); cbn; rewrite !fmap_app; cbn; rewrite Hid; solve_Permutation.
    + destruct (ux_deferred e); cbn; apply Forall_app; (split; [done|]); by constructor.
    + destruct (ux_deferred e) eqn:Ee; cbn in *; [rewrite sub64_small by lia|]; lia.
    + destruct (ux_deferred e) eqn:Ee; cbn in *; [rewrite sub64_small by lia|]; lia.
Qed.

Lemma one_inv (inj : list Z) ok (q q' : OSSL_QRX) (e : QUIC_URXE) (rest : list QUIC_URXE) : qrx_inv inj q -> urx_pending q = e :: rest ->
  process_one_urxe ok q e = Some q' -> qrx_inv inj q' /\ urx_pending q' = rest.
Proof.
  intros Hi Hp. unfold qrx_process_one_urxe. destruct (qrx_process_datagram _ _ _ _ _ _ _ _ _ _) as [[[q1 e1] d]|] eqn:Hd; [|done]. cbn [mbind option_bind].
  apply datagram_same in Hd as [S1 S2]; [|by apply Hi]. intros Hs. assert (q' = settled q1 e1 d) as ->.
  { revert Hs. unfold settled. cbn zeta. destruct (d && _); intros [= <-]; by destruct (ux_deferred e1). }
  eapply settled_inv; [by eapply inv_same|by rewrite (sl_pending _ _ S1)|done].
Qed.

Lemma pending_inv (inj : list Z) ok : forall l n (q q' : OSSL_QRX), qrx_inv inj q -> urx_pending q = l ->
  pending_loop sizeof_RXE aead_open EVP_aes_ecb EVP_chacha hkdf_expand validation_cb key_update_cb ok n l q = Some q' ->
  qrx_inv inj q' /\ urx_pending q' = [].
Proof.
  induction l as [|e l IH]; intros n q q' Hi Hp; cbn [pending_loop]; [by intros [= <-]|].
  destruct (qrx_process_one_urxe _ _ _ _ _ _ _ _ _ _) as [q1|] eqn:H1; [|done]. cbn [mbind option_bind].
  destruct (one_inv _ _ _ _ _ _ Hi Hp H1) as [Hi1 Hp1]. by apply IH.
Qed.

(** ** Operations *)

Inductive qrx_op :=
| QInject (e : QUIC_URXE)
| QRead (ok : nat -> nat -> nat -> bool)
| QUpRef (id : Z)
| QRelease (id : Z)
| QProvide (ok : nat -> bool) (enc_level suite_id : Z) (md : option Z) (secret : bytes)
| QDiscard (enc_level : Z)
| QAllow1rtt
| QKeyUpdateTimeout (ok : nat -> bool) (normal : bool).

Definition qrx_do (q : OSSL_QRX) (op : qrx_op) : option OSSL_QRX :=
  match op with
  | QInject e => Some (ossl_qrx_inject_urxe q e)
  | QRead ok => fst <$> read_pkt ok q
  | QUpRef id => ossl_qrx_pkt_up_ref q id
  | QRelease id => ossl_qrx_pkt_release q id
  | QProvide ok lvl suite md secret => fst <$> ossl_qrx_provide_secret hkdf_expand ok q lvl suite md secret
  | QDiscard lvl => Some (fst (ossl_qrx_discard_enc_level q lvl))
  | QAllow1rtt => Some (ossl_qrx_allow_1rtt_processing q)
  | QKeyUpdateTimeout ok normal => fst <$> ossl_qrx_key_update_timeout hkdf_expand ok q normal
  end.

(** A reference is only taken on a packet that is handed out, fewer than 2^64 times; fewer than 2^64 key updates
    happen; a level is an unsigned integer. *)
Definition qrx_op_ok (q : OSSL_QRX) (op : qrx_op) : Prop :=
  match op with
  | QUpRef id => forall rxe, qrx_out q !! id = Some rxe -> rxe_refcount rxe < UINT64_MAX
  | QRead _ => el_key_epoch (qrx_el_set q QUIC_ENC_LEVEL_1RTT) < UINT64_MAX
  | QProvide _ enc_level _ _ _ | QDiscard enc_level => 0 <= enc_level
  | _ => True
  end.

(** The states of a record layer with the operations that led to them. *)
Inductive qrx_reach : list qrx_op -> OSSL_QRX -> Prop :=
| qrx_start short_len init bit q : 0 <= max_def < U64_MOD -> 0 <= bit -> ossl_qrx_new true short_len max_def init bit = Some q -> qrx_reach [] q
| qrx_next hist q op q' : qrx_reach hist q -> qrx_op_ok q op -> qrx_do q op = Some q' -> qrx_reach (hist ++ [op]) q'.

(** The datagrams that arrived. *)
Definition injected (hist : list qrx_op) : list Z := omap (fun op => match op with QInject e => Some (ux_datagram_id e) | _ => None end) hist.

Lemma requeue_inv (inj : list Z) (q : OSSL_QRX) : qrx_inv inj q -> qrx_inv inj (qrx_requeue_deferred q).
Proof.
  intros Hi. pose proof Hi as [I1 I2 I3 I4 [I5 I6] I7]. apply (inv_datagrams inj inj q); try done; [|cbn; by rewrite app_nil_r|cbn; lia].
  intros <-. unfold datagrams. cbn. by rewrite <- !app_assoc.
Qed.

Lemma inject_inv (inj : list Z) (q : OSSL_QRX) (e : QUIC_URXE) : qrx_inv inj q -> qrx_inv (inj ++ [ux_datagram_id e]) (ossl_qrx_inject_urxe q e).
Proof.
  intros Hi. pose proof Hi as [I1 I2 I3 I4 [I5 I6] I7]. apply (inv_datagrams inj _ q); try done; [| |cbn; lia].
  - intros <-. unfold datagrams. cbn. rewrite !fmap_app. cbn. solve_Permutation.
  - cbn. rewrite I5, !flagged_app, (flagged_cons _ []). cbn. change (zlen (flagged [])) with 0. lia.
Qed.

(** Entries that come and go. *)
Lemma inv_entries (inj : list Z) (q q' : OSSL_QRX) : qrx_inv inj q -> urx_pending q' = urx_pending q -> urx_deferred q' = urx_deferred q ->
  qrx_released q' = qrx_released q -> num_deferred q' = num_deferred q -> max_deferred q' = max_deferred q -> entries_ok q' -> qrx_inv inj q'.
Proof. intros [I1 I2 I3 I4 I5 I6] H1 H2 H3 H4 H5 He. split; unfold datagrams in *; rewrite ?H1, ?H2, ?H3, ?H4, ?H5; auto. Qed.

Lemma handed_out (q : OSSL_QRX) (rxe : RXE) (l : list RXE) : entries_ok q -> rx_pending q = rxe :: l ->
  entries_ok (q <| rx_pending := l |> <| qrx_out := <[rxe_id rxe := rxe <| rxe_refcount := 1 |>]> (qrx_out q) |>).
Proof.
  intros [E1 E2 [E0 E3] E4 E5] Hp. unfold free_ids in *. rewrite Hp in *. rewrite !fmap_app in E1. cbn in E1.
  assert (Hin : forall id, id ∈ rxe_id <$> (rx_free q ++ l) -> id <> rxe_id rxe /\ id ∈ rxe_id <$> (rx_free q ++ rxe :: l)).
  { intros id. rewrite !fmap_app. cbn. intros Hin. split; [|revert Hin; rewrite !elem_of_app, elem_of_cons; tauto]. intros ->.
    apply NoDup_app in E1 as (_ & H1 & [H2 _]%NoDup_cons). apply elem_of_app in Hin as [Hin|Hin]; [|done]. apply (H1 _ Hin). by left. }
  split; unfold free_ids; cbn.
  - rewrite fmap_app. apply NoDup_app in E1 as (H0 & H1 & [H2 H3]%NoDup_cons). apply NoDup_app. split_and!; [done| |done]. intros id Hid Hid'. apply (H1 _ Hid). by right.
  - intros id [Hne Hid]%Hin. rewrite lookup_insert_ne by done. by apply E2.
  - split; [done|]. intros id. rewrite <- E3, lookup_insert_is_Some', !fmap_app, fmap_cons, !elem_of_app, elem_of_cons.
    split; [intros [[?|?]|[<-|?]]; tauto|intros [[?|[->|?]]|?]; tauto].
  - apply Forall_app in E4 as [H4 [_ H5]%Forall_cons]. by apply Forall_app.
  - apply map_Forall_insert_2; [|done]. cbn. u64_unfold. lia.
Qed.

Lemma read_inv (inj : list Z) ok (q q' : OSSL_QRX) r : qrx_inv inj q -> read_pkt ok q = Some (q', r) -> qrx_inv inj q'.
Proof.
  intros Hi. unfold ossl_qrx_read_pkt. destruct (if ossl_qrx_processed_read_pending q then _ else _) as [q1|] eqn:H1; [|done]. cbn [mbind option_bind].
  assert (Hi1 : qrx_inv inj q1) by (destruct (ossl_qrx_processed_read_pending q); [by simplify_eq|]; by eapply pending_inv). clear H1 Hi.
  destruct (rx_pending q1) as [|rxe l] eqn:Hp; intros [= <- <-]; [done|]. eapply inv_entries; [exact Hi1|done..|]. apply handed_out; [apply Hi1|done].
Qed.

Lemma up_ref_inv (inj : list Z) (q q' : OSSL_QRX) (id : Z) : qrx_inv inj q -> qrx_op_ok q (QUpRef id) -> ossl_qrx_pkt_up_ref q id = Some q' -> qrx_inv inj q'.
Proof.
  intros Hi Hok. unfold ossl_qrx_pkt_up_ref. destruct (qrx_out q !! id) as [rxe|] eqn:Ho; [|done]. cbn. intros [= <-].
  pose proof (qi_entries _ _ Hi) as [E1 E2 [E0 E3] E4 E5]. destruct (E5 _ _ Ho) as [Hid Hr]. specialize (Hok _ Ho). eapply inv_entries; [exact Hi|done..|].
  split; cbn; auto.
  - intros j Hj. rewrite lookup_insert_ne; [by apply E2|]. intros <-. by rewrite (E2 _ Hj) in Ho.
  - split; [done|]. intros j. rewrite <- E3, lookup_insert_is_Some'. split; [intros [?|[<-|?]]; [tauto|right; by eexists|tauto]|tauto].
  - apply map_Forall_insert_2; [|done]. cbn. rewrite add64_small; u64_unfold; lia.
Qed.

Lemma pkt_release_inv (inj : list Z) (q q' : OSSL_QRX) (id : Z) : qrx_inv inj q -> ossl_qrx_pkt_release q id = Some q' -> qrx_inv inj q'.
Proof.
  intros Hi. unfold ossl_qrx_pkt_release. destruct (qrx_out q !! id) as [rxe|] eqn:Ho; [|done]. cbn -[sub64].
  pose proof (qi_entries _ _ Hi) as [E1 E2 [E0 E3] E4 E5]. destruct (E5 _ _ Ho) as [Hid Hr]. rewrite sub64_small by lia. cbn.
  assert (Hout : id ∉ free_ids q) by (intros Hin; by rewrite (E2 _ Hin) in Ho).
  destruct (Z.eqb_spec (rxe_refcount rxe - 1) 0) as [H0|H0]; intros [= <-]; (eapply inv_entries; [exact Hi|done..|]); split; cbn; auto.
  - unfold free_ids in *. cbn. rewrite !fmap_app in *. cbn. rewrite Hid. eapply (NoDup_Permutation_proper _ (id :: (rxe_id <$> rx_free q) ++ (rxe_id <$> rx_pending q))); [solve_Permutation|]. by constructor.
  - unfold free_ids in *. cbn. intros j Hj. destruct (decide (j = id)) as [->|Hne]; [apply lookup_delete_eq|]. rewrite lookup_delete_ne by done. apply E2.
    revert Hj. rewrite !fmap_app, !elem_of_app. cbn. rewrite list_elem_of_singleton, Hid. tauto.
  - split; [done|]. intros j. rewrite <- E3. unfold free_ids. cbn. rewrite !fmap_app, !elem_of_app. cbn. rewrite list_elem_of_singleton, Hid, lookup_delete_is_Some.
    destruct (decide (id = j)) as [<-|Hne]; [|naive_solver]. split; [intros _; right; by eexists|tauto].
  - apply Forall_app in E4 as [H1 H2]. apply Forall_app. split; [|done]. apply Forall_app. split; [done|]. by constructor.
  - by apply map_Forall_delete.
  - intros j Hj. rewrite lookup_insert_ne; [by apply E2|]. by intros <-.
  - split; [done|]. intros j. rewrite <- E3, lookup_insert_is_Some'. split; [intros [?|[<-|?]]; [tauto|right; by eexists|tauto]|tauto].
  - apply map_Forall_insert_2; [|done]. cbn. lia.
Qed.

Lemma els_inv (inj : list Z) (q : OSSL_QRX) els : qrx_inv inj q -> qrx_inv inj (q <| qrx_el_set := els |>).
Proof. apply inv_same. by apply other_same. Qed.


Lemma qrx_do_inv (inj : list Z) (q q' : OSSL_QRX) (op : qrx_op) : qrx_inv inj q -> qrx_op_ok q op -> qrx_do q op = Some q' ->
  qrx_inv (inj ++ injected [op]) q'.
Proof.
  intros Hi Hok. destruct op as [e|ok|id|id|ok lvl suite md secret|lvl| |ok normal]; cbn [qrx_do injected omap list_omap]; rewrite ?app_nil_r.
  - intros [= <-]. by apply inject_inv.
  - destruct (ossl_qrx_read_pkt _ _ _ _ _ _ _ _ _) as [[q1 r]|] eqn:Hr; [|done]. intros [= <-]. by eapply read_inv.
  - by apply up_ref_inv.
  - by apply pkt_release_inv.
  - unfold ossl_qrx_provide_secret. case_match; [by intros [= <-]|]. destruct (ossl_qrl_enc_level_set_provide_secret _ _ _ _ _ _ _ _ _) as [[els r]|]; [|done].
    cbn. intros [= <-]. pose proof (els_inv inj q els Hi). destruct r; [by apply requeue_inv|done].
  - intros [= <-]. unfold ossl_qrx_discard_enc_level. case_match; [done|]. by apply els_inv.
  - intros [= <-]. unfold ossl_qrx_allow_1rtt_processing. case_match; [done|]. apply requeue_inv. eapply inv_same; [|exact Hi]. by apply other_same.
  - unfold ossl_qrx_key_update_timeout. case_match; [|by intros [= <-]]. destruct (if _ =? _ then _ else _) as [els1 r1].
    case_match; [intros [= <-]; by apply els_inv|]. case_match; [|intros [= <-]; by apply els_inv].
    destruct (ossl_qrl_enc_level_set_key_cooldown_done _ _ _ _) as [[els2 r2]|]; [|done]. cbn. intros [= <-]. eapply inv_same; [|exact Hi]. by apply other_same.
Qed.

Lemma qrx_reach_inv (hist : list qrx_op) (q : OSSL_QRX) : qrx_reach hist q -> qrx_inv (injected hist) q.
Proof.
  induction 1 as [short_len init bit q Hm Hb Hn|hist q op q' Hr IH Hok Hd]; [|unfold injected; rewrite omap_app; by eapply qrx_do_inv].
  unfold ossl_qrx_new in Hn. case_match; [done|]. cbn in Hn. simplify_eq. split; try done. split; try done; cbn.
  - constructor.
  - split; [done|]. intros id. split; [intros [Hid|[? Hid]]; [by apply elem_of_nil in Hid|done]|lia].
Qed.

(** The entries in the three places are those allocated, each once. *)
Lemma entries_all (q : OSSL_QRX) : entries_ok q ->
  Permutation (free_ids q ++ (map_to_list (qrx_out q)).*1) (seqZ 0 (qrx_next_id q)).
Proof.
  intros [E1 E2 [E0 E3] E4 E5]. assert (Hk : forall id, id ∈ (map_to_list (qrx_out q)).*1 <-> is_Some (qrx_out q !! id)).
  { intros id. rewrite list_elem_of_fmap. split; [intros ([? rxe] & -> & Hin%elem_of_map_to_list); by eexists|].
    intros [rxe Hin]. exists (id, rxe). split; [done|]. by apply elem_of_map_to_list. }
  apply NoDup_Permutation; [|apply NoDup_seqZ|].
  - apply NoDup_app. split_and!; [done| |apply NoDup_fst_map_to_list]. intros id Hf [rxe Ho]%Hk. by rewrite (E2 _ Hf) in Ho.
  - intros id. rewrite elem_of_app, Hk, E3, elem_of_seqZ. lia.
Qed.


End Inv.

(** ** Running a list of operations *)

Section Runs.
Context (sizeof_RXE : Z).
Context (aead_open : keyslot -> Z -> bytes -> bytes -> bytes -> aead_result).
Context (EVP_aes_ecb : bytes -> bytes -> option bytes) (EVP_chacha : bytes -> bytes -> bytes -> option bytes).
Context (hkdf_expand : Z -> bytes -> bytes -> Z -> bytes).
Context (validation_cb : option (QUIC_PN -> pn_space -> bool)) (key_update_cb : bool).
Context (max_def : Z).

Abbreviation do_op := (qrx_do sizeof_RXE aead_open EVP_aes_ecb EVP_chacha hkdf_expand validation_cb key_update_cb).
Abbreviation reach := (qrx_reach sizeof_RXE aead_open EVP_aes_ecb EVP_chacha hkdf_expand validation_cb key_update_cb max_def).

Definition op_okb (q : OSSL_QRX) (op : qrx_op) : bool :=
  match op with
  | QUpRef id => match qrx_out q !! id with Some rxe => rxe_refcount rxe <? UINT64_MAX | None => true end
  | QRead _ => el_key_epoch (qrx_el_set q QUIC_ENC_LEVEL_1RTT) <? UINT64_MAX
  | QProvide _ enc_level _ _ _ | QDiscard enc_level => 0 <=? enc_level
  | _ => true
  end.

Definition qrx_step (q : OSSL_QRX) (op : qrx_op) : OSSL_QRX := default q (do_op q op).

Fixpoint qrx_runs (q : OSSL_QRX) (ops : list qrx_op) : bool :=
  match ops with
  | [] => true
  | op :: ops => bool_decide (is_Some (do_op q op)) && op_okb q op && qrx_runs (qrx_step q op) ops
  end.

Lemma runs_reach (hist : list qrx_op) (q : OSSL_QRX) (ops : list qrx_op) : reach hist q -> qrx_runs q ops = true -> reach (hist ++ ops) (foldl qrx_step q ops).
Proof.
  revert hist q. induction ops as [|op ops IH]; intros hist q Hr; cbn; [by rewrite app_nil_r|].
  intros [[Hd Hu]%andb_true_iff Hs]%andb_true_iff. apply bool_decide_eq_true in Hd. destruct Hd as [q' Hq'].
  assert (Hw : do_op q op = Some (qrx_step q op)) by (unfold qrx_step; by rewrite Hq').
  rewrite cons_middle, app_assoc. apply IH; [|done]. apply (qrx_next _ _ _ _ _ _ _ _ hist q op); [done| |done].
  destruct op; cbn in *; try done; try lia. intros rxe Ho. rewrite Ho in Hu. lia.
Qed.
End Runs.

(** ** A history: two datagrams without keys, one of which may be deferred *)

Definition w_aead (_ : keyslot) (_ : Z) (_ _ _ : bytes) : aead_result := AeadForged.
Definition w_dgram (id : Z) : QUIC_URXE := mkUrxe (replicate 30 64) 0 0 false None None 0 id.
Definition w_no_cipher (_ _ : bytes) : option bytes := None.
Definition w_no_chacha (_ _ _ : bytes) : option bytes := None.
Definition w_no_hkdf (_ : Z) (_ _ : bytes) (_ : Z) : bytes := [].
Definition w_init (short_len : Z) : OSSL_QRX :=
  default (mkQrx 0 0 0 [] [] [] [] ∅ 0 (mkSpaces 0 0 0) els_new 0 0 0 0 false [] []) (ossl_qrx_new true short_len 1 (mkSpaces 0 0 0) 0).
Abbreviation w_step := (qrx_step 0 w_aead w_no_cipher w_no_chacha w_no_hkdf None false).
Definition w_ops : list qrx_op := [QInject (w_dgram 7); QRead (fun _ _ _ => true); QInject (w_dgram 9); QRead (fun _ _ _ => true)].

