(* ===== verification/QrxKeys.v ===== *)
(** * What the receive record layer hands out was authenticated (ssl/quic/quic_record_rx.c)

    Over every history of the record layer (QrxInv.v): the keys of every provisioned
    level are those of a secret that was provided for it, so that no operation uses a missing
    key; and every packet that waits to be read or has been handed out is the plaintext of a
    packet that the AEAD accepted under the key of its level and key epoch. *)

From S2P Require Import Prelude OsslTime Packet Wire WirePkt Qrl QrlKeys Qtx Ackm Txp Qrx QrxInv.

Abbreviation L1 := QUIC_ENC_LEVEL_1RTT.

(** ** The first byte decides the packet type *)

Definition type_of_byte (b0 : Z) : Z := if Z.land b0 0x80 =? 0 then QUIC_PKT_TYPE_1RTT else long_type (Z.land (Z.shiftr b0 4) 3).

Lemma same_form_type (b0 b1 : Z) : same_form b0 b1 -> type_of_byte b1 = type_of_byte b0.
Proof. intros [H1 _ _ H2]. unfold type_of_byte. rewrite H1. case_match; [done|]. rewrite H2; [done|lia]. Qed.

(** What a reader gives, whatever it reads. *)
Definition gives {A} (m : reader A) (P : A -> Prop) : Prop := forall pkt a rest, m pkt = Some (a, rest) -> P a.

Lemma gives_bind {A B} (m : reader A) (k : A -> reader B) (P : B -> Prop) : (forall a, gives (k a) P) -> gives (a ← m; k a) P.
Proof. intros Hk pkt b rest. unfold mbind, reader_bind. destruct (m pkt) as [[a pkt']|]; [|done]. apply Hk. Qed.
Lemma gives_ret {A} (a : A) (P : A -> Prop) : P a -> gives (mret a) P.
Proof. intros Ha pkt b rest [= <- <-]. done. Qed.
Ltac gives := repeat first [apply gives_bind; intros ?|apply gives_ret|case_match].

Lemma decode_v1_type (b0 version : Z) (partial nodata : bool) (dst src : QUIC_CONN_ID) :
  gives (decode_v1_hdr b0 version partial nodata dst src) (fun r => ph_type (fst r) = long_type (Z.land (Z.shiftr b0 4) 3)).
Proof. unfold decode_v1_hdr. gives; done. Qed.

Lemma decode_short_type (l b0 short_len : Z) (partial : bool) (old : QUIC_PKT_HDR) :
  gives (decode_short_hdr l b0 short_len partial old) (fun r => ph_type (fst r) = QUIC_PKT_TYPE_1RTT).
Proof. unfold decode_short_hdr. gives; done. Qed.

Lemma decode_long_type (l b0 : Z) (partial nodata : bool) (old : QUIC_PKT_HDR) :
  gives (decode_long_hdr l b0 partial nodata old) (fun r => match r with
    | Some (h, _) => ossl_quic_pkt_type_is_encrypted (ph_type h) = true -> ph_type h = long_type (Z.land (Z.shiftr b0 4) 3)
    | None => True
    end).
Proof.
  unfold decode_long_hdr. do 8 (apply gives_bind; intros ?). case_match; [gives; done|]. case_match; [gives; done|].
  apply gives_bind; intros _. intros pkt r rest. unfold mbind, reader_bind. destruct (decode_v1_hdr _ _ _ _ _ _ pkt) as [[[h at_pn] pkt']|] eqn:Hd; [|done].
  intros [= <- <-] _. exact (decode_v1_type _ _ _ _ _ _ _ _ _ Hd).
Qed.

Lemma decode_type (pkt rest : PACKET) (short_len : Z) (partial nodata : bool) (old h : QUIC_PKT_HDR) ptrs c :
  ossl_quic_wire_decode_pkt_hdr pkt short_len partial nodata old = (Some (h, ptrs, rest), c) -> ossl_quic_pkt_type_is_encrypted (ph_type h) = true ->
  ph_type h = type_of_byte (byte_at pkt 0).
Proof.
  unfold ossl_quic_wire_decode_pkt_hdr. destruct pkt as [|b0 pkt]; [done|]. unfold mbind at 1, reader_bind at 1, check.
  destruct (negb _); [|done]. unfold mbind at 1, reader_bind at 1. cbn [PACKET_get_1]. change (byte_at (b0 :: pkt) 0) with b0. unfold type_of_byte.
  destruct (Z.land b0 0x80 =? 0); intros H He.
  - revert H. unfold mbind at 1, reader_bind at 1. destruct (decode_short_hdr _ _ _ _ _ pkt) as [[[h' at_pn] pkt']|] eqn:Hd; [|done].
    intros [= <- _ _ _]. exact (decode_short_type _ _ _ _ _ _ _ _ Hd).
  - destruct (decode_long_hdr _ _ _ _ _ pkt) as [[[[h' at_pn]|] pkt']|] eqn:Hd; [|done..]. injection H as <- _ _ _. exact (decode_long_type _ _ _ _ _ _ _ _ Hd He).
Qed.

(** Reading never gives back more than there was. *)
Definition shrinks {A} (m : reader A) : Prop := forall pkt a rest, m pkt = Some (a, rest) -> zlen rest <= zlen pkt.

Lemma shrinks_bind {A B} (m : reader A) (k : A -> reader B) : shrinks m -> (forall a, shrinks (k a)) -> shrinks (a ← m; k a).
Proof.
  intros Hm Hk pkt b rest. unfold mbind, reader_bind. destruct (m pkt) as [[a pkt']|] eqn:E; [|done]. intros H.
  specialize (Hm _ _ _ E). specialize (Hk _ _ _ _ H). lia.
Qed.
Lemma shrinks_ret {A} (a : A) : shrinks (mret a).
Proof. intros pkt b rest [= <- <-]. lia. Qed.
Lemma shrinks_check (b : bool) : shrinks (check b).
Proof. intros pkt a rest. unfold check. destruct b; [|done]. intros [= <- <-]. lia. Qed.
Lemma drop_shrinks (n : nat) (pkt : bytes) : zlen (drop n pkt) <= zlen pkt.
Proof. unfold zlen. rewrite length_drop. lia. Qed.
Lemma shrinks_same {A} (f : PACKET -> A) : shrinks (fun pkt => Some (f pkt, pkt)).
Proof. intros pkt a rest [= <- <-]. lia. Qed.
Lemma shrinks_prims : shrinks PACKET_get_1 /\ shrinks PACKET_get_net_4 /\ shrinks PACKET_get_quic_vlint /\
  (forall n, shrinks (PACKET_get_bytes n)) /\ (forall n, shrinks (PACKET_forward n)).
Proof.
  split_and!; [|unfold PACKET_get_net_4, PACKET_get_quic_vlint, PACKET_get_bytes, PACKET_forward; intros..].
  - intros [|b pkt] a rest; [done|]. intros [= <- <-]. unfold zlen. cbn. lia.
  - intros pkt a rest. case_match; [done|]. intros [= <- <-]. apply drop_shrinks.
  - intros pkt a rest. repeat (case_match; [done|]). intros [= <- <-]. apply drop_shrinks.
  - intros pkt a rest. case_match; [done|]. intros [= <- <-]. apply drop_shrinks.
  - intros pkt a rest. case_match; [done|]. intros [= <- <-]. apply drop_shrinks.
Qed.
Ltac shrinks := repeat first [apply shrinks_bind; [|intros ?]|apply shrinks_ret|apply shrinks_check|apply shrinks_same|apply shrinks_prims|case_match].

Lemma decode_shrinks (pkt rest : PACKET) (short_len : Z) (partial nodata : bool) (old h : QUIC_PKT_HDR) ptrs c :
  ossl_quic_wire_decode_pkt_hdr pkt short_len partial nodata old = (Some (h, ptrs, rest), c) -> zlen rest <= zlen pkt /\ c = 0.
Proof.
  unfold ossl_quic_wire_decode_pkt_hdr. set (go := mbind _ (check _)). assert (Hg : shrinks go).
  { subst go. unfold decode_short_hdr, decode_long_hdr, decode_v1_hdr, read_token, read_pn, copy_cid. shrinks. }
  destruct (go pkt) as [[[[h' at_pn]|] rest']|] eqn:E; [|done..]. intros [= _ _ <- <-]. split; [|done]. exact (Hg _ _ _ E).
Qed.

Lemma unprotected_type (cipher_id : Z) aes chacha (pkt pkt' : bytes) ptrs :
  ossl_quic_hdr_protector_decrypt cipher_id aes chacha pkt ptrs = Some pkt' -> type_of_byte (byte_at pkt' 0) = type_of_byte (byte_at pkt 0).
Proof.
  unfold ossl_quic_hdr_protector_decrypt, protect_with. destruct (raw_sample ptrs), (raw_pn ptrs), pkt as [|b0 pkt]; try done.
  unfold ossl_quic_hdr_protector_decrypt_fields. destruct (hdr_generate_mask _ _ _ _) as [m|]; [|done]. intros [= <-].
  apply same_form_type, protected_form.
Qed.

(** ** The levels of a set *)

(** The operation changes no other level. *)
Definition only_level (l : Z) (els els' : OSSL_QRL_ENC_LEVEL_SET) : Prop := forall l', l' <> l -> els' l' = els l'.
#[export] Instance only_level_refl l : Reflexive (only_level l).
Proof. by intros els l' _. Qed.
#[export] Instance only_level_trans l : Transitive (only_level l).
Proof. intros a b c H1 H2 l' Hl. rewrite H2, H1; done. Qed.

Lemma els_upd_only (els : OSSL_QRL_ENC_LEVEL_SET) (l : Z) f : only_level l els (els_upd els l f).
Proof. intros l' Hl. unfold els_upd. by rewrite (proj2 (Z.eqb_neq _ _) Hl). Qed.
Lemma els_upd_at (els : OSSL_QRL_ENC_LEVEL_SET) (l : Z) f : els_upd els l f l = f (els l).
Proof. unfold els_upd. by rewrite Z.eqb_refl. Qed.

(** The level keeps what its key slots do not hold. *)
Record same_level (el el' : OSSL_QRL_ENC_LEVEL) : Prop := {
  sv_hpr : el_hpr el' = el_hpr el;
  sv_md : el_md el' = el_md el;
  sv_suite : el_suite_id el' = el_suite_id el;
  sv_tag : el_tag_len el' = el_tag_len el;
  sv_state : el_state el' = el_state el }.
#[export] Instance same_level_refl : Reflexive same_level.
Proof. by split. Qed.
#[export] Instance same_level_trans : Transitive same_level.
Proof. intros a b c [] []. split; congruence. Qed.

Lemma set_cctx_level (el : OSSL_QRL_ENC_LEVEL) (k : Z) (s : option keyslot) : same_level el (set_cctx el k s).
Proof. unfold set_cctx. by case_match. Qed.

Lemma teardown_only (els : OSSL_QRL_ENC_LEVEL_SET) (l k : Z) :
  only_level l els (el_teardown_keyslot els l k) /\ same_level (els l) (el_teardown_keyslot els l k l).
Proof. unfold el_teardown_keyslot. case_match; [|done]. split; [apply els_upd_only|]. rewrite els_upd_at. apply set_cctx_level. Qed.

Lemma failed_only (l : Z) (slots : list Z) (els : OSSL_QRL_ENC_LEVEL_SET) :
  only_level l els (provide_failed els l slots) /\ el_state (provide_failed els l slots l) = el_state (els l).
Proof.
  unfold provide_failed. set (els0 := els_upd els l _). assert (H0 : only_level l els els0 /\ el_state (els0 l) = el_state (els l)).
  { split; [apply els_upd_only|]. subst els0. by rewrite els_upd_at. }
  clearbody els0. revert els0 H0. induction slots as [|k slots IH]; intros els0 [H1 H2]; [done|]. cbn [foldl]. apply IH.
  destruct (teardown_only els0 l k) as [T1 T2]. split; [by etrans|]. by rewrite (sv_state _ _ T2).
Qed.

Section Levels.
Context (hkdf_expand : Z -> bytes -> bytes -> Z -> bytes).

Lemma setup_only ok n (els els' : OSSL_QRL_ENC_LEVEL_SET) (l st k : Z) (secret : bytes) (r : bool) :
  el_setup_keyslot hkdf_expand ok n els l st k secret = Some (els', r) ->
  only_level l els els' /\ same_level (els l) (els' l) /\
  (r = true -> exists md, el_md (els l) = Some md /\ els' l = set_cctx (els l) k (Some (slot_keys hkdf_expand (el_suite_id (els l)) md secret))).
Proof.
  unfold el_setup_keyslot. repeat (case_match; [by intros [= <- <-]|]). destruct (el_md (els l)) as [md|] eqn:Hmd; [|done]. cbn.
  case_match; intros [= <- <-]; [|done]. rewrite els_upd_at. split; [apply els_upd_only|]. split; [apply set_cctx_level|]. intros _. by exists md.
Qed.

(** A level as it is once provisioning succeeded. *)
Record provisioned (c : qrl_cfg) (el : OSSL_QRL_ENC_LEVEL) : Prop := {
  pv_state : el_state el = QRL_EL_STATE_PROV_NORMAL;
  pv_hpr : is_Some (el_hpr el);
  pv_suite : el_suite_id el = c_suite c;
  pv_slot : el_cctx0 el = Some (slot_keys hkdf_expand (c_suite c) (c_md c) (c_secret c)) }.

Lemma provide_keys_only ok (els els' : OSSL_QRL_ENC_LEVEL_SET) (l md bit : Z) (secret hpr_key : bytes) (r : bool) :
  el_state (els l) = QRL_EL_STATE_UNPROV -> el_md (els l) = Some md -> (l <> L1 -> bit = 0) ->
  provide_keys hkdf_expand ok els l bit md secret false hpr_key = Some (els', r) ->
  only_level l els els' /\
  if r then is_Some (el_hpr (els' l)) /\ el_suite_id (els' l) = el_suite_id (els l) /\ el_tag_len (els' l) = el_tag_len (els l) /\
            (l <> L1 -> provisioned (mkCfg (el_suite_id (els l)) md secret 0) (els' l))
  else el_state (els' l) = QRL_EL_STATE_UNPROV.
Proof.
  intros Hst Hmd Hbit. unfold provide_keys.
  assert (Hfail : forall els1 slots, only_level l els els1 -> same_level (els l) (els1 l) ->
    only_level l els (provide_failed els1 l slots) /\ el_state (provide_failed els1 l slots l) = QRL_EL_STATE_UNPROV).
  { intros els1 slots Ho Hs. destruct (failed_only l slots els1) as [F1 F2]. split; [by etrans|]. by rewrite F2, (sv_state _ _ Hs). }
  destruct (el_setup_keyslot _ _ 2 _ _ _ _ _) as [[els1 r1]|] eqn:Hs1; [|done]. cbn [mbind option_bind].
  apply setup_only in Hs1 as (O1 & S1 & K1). destruct r1; cbn [negb]; [|intros [= <- <-]; by apply Hfail].
  destruct (K1 eq_refl) as (md' & Hmd' & He1). assert (md' = md) as -> by congruence. clear K1 Hmd'.
  destruct (Z.eqb_spec l QUIC_ENC_LEVEL_1RTT) as [->|Hl]; cbn [negb].
  - destruct (ok 6%nat); cbn [negb]; [|intros [= <- <-]; by apply Hfail].
    destruct (el_setup_keyslot _ _ 9 _ _ _ _ _) as [[els2 r2]|] eqn:Hs2; [|done]. cbn [mbind option_bind].
    apply setup_only in Hs2 as (O2 & S2 & _). assert (O3 : only_level L1 els els2) by (by etrans). assert (S3 : same_level (els L1) (els2 L1)) by (by etrans).
    destruct r2; cbn [negb]; [|intros [= <- <-]; by apply Hfail].
    destruct (ok 8%nat); cbn [negb]; [|intros [= <- <-]; by apply Hfail].
    destruct (ok 7%nat); intros [= <- <-]; [|apply Hfail; [etrans; [exact O3|apply els_upd_only]|etrans; [exact S3|by rewrite els_upd_at]]].
    split; [etrans; [exact O3|]; etrans; apply els_upd_only|]. rewrite !els_upd_at. cbn. rewrite (sv_suite _ _ S3), (sv_tag _ _ S3). done.
  - destruct (ok 7%nat); intros [= <- <-]; [|by apply Hfail]. split; [etrans; [exact O1|apply els_upd_only]|]. rewrite !els_upd_at. cbn.
    rewrite (sv_suite _ _ S1), (sv_tag _ _ S1). split_and!; try done. intros _. split; cbn; try done. rewrite He1, Hbit by done. done.
Qed.
Lemma discard_only (els : OSSL_QRL_ENC_LEVEL_SET) (l : Z) :
  only_level l els (ossl_qrl_enc_level_set_discard els l) /\
  (ossl_qrl_enc_level_set_discard els l l = els l \/ el_state (ossl_qrl_enc_level_set_discard els l l) = QRL_EL_STATE_DISCARDED).
Proof.
  unfold ossl_qrl_enc_level_set_discard. case_match; [|by split; [|left]]. case_match; [by split; [|left]|].
  split; [|right; by rewrite els_upd_at]. etrans; [|apply els_upd_only]. case_match; [|done].
  etrans; [apply els_upd_only|]. etrans; apply teardown_only.
Qed.

(** What providing a secret for a level gives, if it succeeds; otherwise the level is as before or has no keys. *)
Lemma provide_only ok (els els' : OSSL_QRL_ENC_LEVEL_SET) (l suite : Z) (md : option Z) (secret : bytes) (bit : Z) (r : bool) : 0 <= l -> 0 <= bit ->
  ossl_qrl_enc_level_set_provide_secret hkdf_expand ok els l suite md secret bit false = Some (els', r) ->
  only_level l els els' /\
  if r then is_Some (el_hpr (els' l)) /\ el_tag_len (els' l) = ossl_qrl_get_suite_cipher_tag_len (el_suite_id (els' l)) /\
            (l <> L1 -> provisioned (mkCfg suite (default (default 0 (ossl_qrl_get_suite_md_name suite)) md) secret 0) (els' l))
  else els' l = els l \/ el_state (els' l) = QRL_EL_STATE_UNPROV.
Proof.
  intros Hl Hb. unfold ossl_qrl_enc_level_set_provide_secret.
  destruct (ossl_qrl_enc_level_set_get els l false) as [el|]; [|intros [= <- <-]; by split; [|left]].
  destruct (ossl_qrl_get_suite_md_name suite) as [nm|]; [|intros [= <- <-]; by split; [|left]].
  destruct (_ || _) eqn:Hbit; [intros [= <- <-]; by split; [|left]|].
  assert (Hbit0 : l <> L1 -> bit = 0) by (intros Hne; apply (proj2 (Z.eqb_neq _ _)) in Hne; rewrite Hne in Hbit; lia).
  set (els0 := if _ && _ then _ else _).
  assert (H0 : only_level l els els0 /\ (els0 l = els l \/ el_state (els0 l) = QRL_EL_STATE_UNPROV)).
  { subst els0. case_match; [|by split; [|left]]. split; [etrans; [apply discard_only|apply els_upd_only]|]. right. by rewrite els_upd_at. }
  destruct H0 as [O0 S0]. clearbody els0.
  destruct (Z.eqb_spec (el_state (els0 l)) QRL_EL_STATE_UNPROV) as [Hun|]; cbn [negb]; [|by intros [= <- <-]].
  case_match; [by intros [= <- <-]|]. case_match; [by intros [= <- <-]|].
  set (els1 := els_upd els0 l _). assert (O1 : only_level l els els1) by (etrans; [exact O0|apply els_upd_only]).
  assert (S1 : el_state (els1 l) = QRL_EL_STATE_UNPROV) by (subst els1; by rewrite els_upd_at).
  destruct (ok 1%nat); cbn [negb].
  - intros Hp. apply provide_keys_only in Hp as [O2 H2]; [|done|subst els1; by rewrite els_upd_at|done]. split; [by etrans|].
    destruct r; [|by right]. destruct H2 as (P1 & P2 & P3 & P4). split; [done|]. rewrite P2, P3. subst els1. rewrite els_upd_at in *. cbn in *. done.
  - intros [= <- <-]. destruct (failed_only l [] els1) as [F1 F2]. split; [by etrans|]. right. by rewrite F2.
Qed.

Lemma update_done_only (els els' : OSSL_QRL_ENC_LEVEL_SET) (r : bool) : ossl_qrl_enc_level_set_key_update_done els L1 = (els', r) ->
  r = true /\ only_level L1 els els' /\ el_hpr (els' L1) = el_hpr (els L1) /\ el_suite_id (els' L1) = el_suite_id (els L1) /\ el_tag_len (els' L1) = el_tag_len (els L1).
Proof.
  unfold ossl_qrl_enc_level_set_key_update_done. change (ossl_qrl_enc_level_set_get els L1 false) with (Some (els L1)). cbn [negb]. intros [= <- <-].
  destruct (teardown_only els L1 (other_slot (els L1))) as [T1 T2]. split; [done|]. split; [etrans; [exact T1|apply els_upd_only]|]. rewrite els_upd_at. cbn.
  by destruct T2 as [-> _ -> -> _].
Qed.

Lemma cooldown_only ok (els els' : OSSL_QRL_ENC_LEVEL_SET) (r : bool) : el_state (els L1) = QRL_EL_STATE_PROV_COOLDOWN ->
  ossl_qrl_enc_level_set_key_cooldown_done hkdf_expand ok els L1 = Some (els', r) ->
  only_level L1 els els' /\ el_hpr (els' L1) = el_hpr (els L1) /\ el_suite_id (els' L1) = el_suite_id (els L1) /\ el_tag_len (els' L1) = el_tag_len (els L1).
Proof.
  intros Hst. unfold ossl_qrl_enc_level_set_key_cooldown_done. change (ossl_qrl_enc_level_set_get els L1 false) with (Some (els L1)). cbn [negb].
  rewrite Hst. cbn [Z.eqb]. change (QRL_EL_STATE_PROV_COOLDOWN =? QRL_EL_STATE_PROV_UPDATING) with false. cbv iota. cbn [negb]. rewrite Hst.
  change (QRL_EL_STATE_PROV_COOLDOWN =? QRL_EL_STATE_PROV_COOLDOWN) with true. cbn [negb].
  destruct (el_setup_keyslot _ _ 0 _ _ _ _ _) as [[els1 r1]|] eqn:Hs; [|done]. cbn [mbind option_bind]. apply setup_only in Hs as (O1 & S1 & _).
  destruct r1; cbn [negb]; [|intros [= <- <-]; by destruct S1].
  destruct (el_md (els L1)) as [md|]; [|done]. cbn [mbind option_bind]. destruct (ok 4%nat); cbn [negb]; intros [= <- <-]; [|].
  - split; [etrans; [exact O1|apply els_upd_only]|]. rewrite els_upd_at. cbn. by destruct S1.
  - destruct (teardown_only els1 L1 (other_slot (els L1))) as [T1 T2]. split; [by etrans|]. destruct S1 as [<- _ <- <- _]. by destruct T2.
Qed.
End Levels.

(** ** The keys of the record layer *)

(** The epoch of the keys of a level's secret itself: the key phase the record layer was created with ([bit]) for 1-RTT. *)
Definition first_epoch (bit l : Z) : Z := if l =? L1 then bit else 0.

(** The secret was given for the level, and its generations are counted from the level's first epoch. *)
Definition provided (bit : Z) (hist : list qrx_op) (l : Z) (c : qrl_cfg) : Prop :=
  c_bit c = first_epoch bit l /\ exists ok md, QProvide ok l (c_suite c) md (c_secret c) ∈ hist /\ c_md c = default (default 0 (ossl_qrl_get_suite_md_name (c_suite c))) md.

Lemma provided_mono (bit : Z) (hist hist' : list qrx_op) (l : Z) (c : qrl_cfg) : provided bit hist l c -> provided bit (hist ++ hist') l c.
Proof. intros (Hb & ok & md & H1 & H2). split; [done|]. exists ok, md. split; [|done]. apply elem_of_app. by left. Qed.

Section Keys.
Context (hkdf_expand : Z -> bytes -> bytes -> Z -> bytes).
Hypothesis hkdf_len : forall md secret label n, 0 <= n -> zlen (hkdf_expand md secret label n) = n.
Context (bit0 : Z).

Abbreviation prov els l := (state_prov (el_state (els l)) = true).

Record keys_inv (hist : list qrx_op) (els : OSSL_QRL_ENC_LEVEL_SET) : Prop := {
  ki_1rtt : exists c1, level_inv hkdf_expand false els c1 /\ forall c, c1 = Some c -> provided bit0 hist L1 c;
  ki_other : forall l, 0 <= l < L1 -> prov els l -> exists c, provided bit0 hist l c /\ c_bit c = 0 /\ provisioned hkdf_expand c (els l);
  ki_hpr : forall l, 0 <= l < QUIC_ENC_LEVEL_NUM -> prov els l ->
    is_Some (el_hpr (els l)) /\ el_tag_len (els l) = ossl_qrl_get_suite_cipher_tag_len (el_suite_id (els l)) }.

(** A key update is still possible. *)
Definition ku_room (els : OSSL_QRL_ENC_LEVEL_SET) : Prop := el_state (els L1) = QRL_EL_STATE_PROV_NORMAL -> el_key_epoch (els L1) < UINT64_MAX.

Lemma keys_mono (hist hist' : list qrx_op) els : keys_inv hist els -> keys_inv (hist ++ hist') els.
Proof.
  intros [(c1 & H1 & H1') H2 H3]. split; [|intros l Hl Hp|done].
  - exists c1. split; [done|]. intros c Hc. by apply provided_mono, H1'.
  - destruct (H2 l Hl Hp) as (c & Hc & Hc'). exists c. split; [by apply provided_mono|done].
Qed.

Lemma keys_new : keys_inv [] els_new.
Proof. split; [|done..]. exists None. by split. Qed.

Lemma level_inv_at (els els' : OSSL_QRL_ENC_LEVEL_SET) c : els' L1 = els L1 -> level_inv hkdf_expand false els c -> level_inv hkdf_expand false els' c.
Proof. unfold level_inv. by intros ->. Qed.

(** An operation on a level below 1-RTT. *)
Lemma keys_other (hist : list qrx_op) (els els' : OSSL_QRL_ENC_LEVEL_SET) (l : Z) : keys_inv hist els -> l <> L1 -> only_level l els els' ->
  (prov els' l -> is_Some (el_hpr (els' l)) /\ el_tag_len (els' l) = ossl_qrl_get_suite_cipher_tag_len (el_suite_id (els' l)) /\
     exists c, provided bit0 hist l c /\ c_bit c = 0 /\ provisioned hkdf_expand c (els' l)) -> keys_inv hist els'.
Proof.
  intros [(c1 & H1 & H1') H2 H3] Hl Ho Hp. split; [|intros l' Hl'..].
  - exists c1. split; [|done]. eapply level_inv_at; [|done]. by apply Ho.
  - destruct (decide (l' = l)) as [->|Hne]; [apply Hp|]. rewrite Ho by done. by apply H2.
  - destruct (decide (l' = l)) as [->|Hne]; [intros ?; split; by apply Hp|]. rewrite Ho by done. by apply H3.
Qed.

(** An operation on the 1-RTT level. *)
Lemma keys_l1 (hist : list qrx_op) (els els' : OSSL_QRL_ENC_LEVEL_SET) c1 : keys_inv hist els -> only_level L1 els els' ->
  level_inv hkdf_expand false els' c1 -> (forall c, c1 = Some c -> provided bit0 hist L1 c) ->
  (prov els' L1 -> is_Some (el_hpr (els' L1)) /\ el_tag_len (els' L1) = ossl_qrl_get_suite_cipher_tag_len (el_suite_id (els' L1))) -> keys_inv hist els'.
Proof.
  intros [_ H2 H3] Ho Hi Hc Hp. split; [by exists c1|intros l' Hl'..].
  - rewrite Ho by lia. by apply H2.
  - destruct (decide (l' = L1)) as [->|Hne]; [apply Hp|]. rewrite Ho by done. by apply H3.
Qed.

Lemma keys_provide hist ok (els els' : OSSL_QRL_ENC_LEVEL_SET) (l suite : Z) (md : option Z) (secret : bytes) (r : bool) :
  0 <= l < QUIC_ENC_LEVEL_NUM -> 0 <= bit0 -> keys_inv hist els ->
  ossl_qrl_enc_level_set_provide_secret hkdf_expand ok els l suite md secret bit0 false = Some (els', r) ->
  keys_inv (hist ++ [QProvide ok l suite md secret]) els'.
Proof.
  intros Hl Hb Hi Hp. assert (Hi' := keys_mono hist [QProvide ok l suite md secret] els Hi).
  assert (Hpr : forall b, b = first_epoch bit0 l ->
    provided bit0 (hist ++ [QProvide ok l suite md secret]) l (mkCfg suite (default (default 0 (ossl_qrl_get_suite_md_name suite)) md) secret b)).
  { intros b Hfb. split; [done|]. exists ok, md. split; [|done]. apply elem_of_app. right. cbn. by left. }
  destruct (provide_only hkdf_expand ok els els' l suite md secret bit0 r ltac:(lia) Hb Hp) as [Ho Hr].
  destruct (decide (l = L1)) as [->|Hne].
  - destruct (ki_1rtt _ _ Hi) as (c1 & H1 & H1'). assert (Hinv := provide_inv hkdf_expand hkdf_len false ok els els' c1 suite md secret bit0 r Hb H1 Hp).
    eapply keys_l1; [exact Hi'|done|exact Hinv|..].
    + intros c. cbn. destruct r; [|intros Hc; by apply provided_mono, H1']. intros [= <-]. by apply Hpr.
    + destruct r; [by destruct Hr as (P1 & P2 & _)|]. destruct Hr as [-> | ->]; [|done]. by apply (ki_hpr _ _ Hi).
  - eapply keys_other; [exact Hi'|done|done|]. destruct r; [intros _; destruct Hr as (H1 & H2 & H3)|].
    + split_and!; try done. eexists. split; [apply (Hpr 0); unfold first_epoch; by rewrite (proj2 (Z.eqb_neq _ _) Hne)|]. split; [done|]. by apply H3.
    + destruct Hr as [-> | ->]; [|done]. intros Hs. destruct (ki_hpr _ _ Hi' l Hl Hs). split_and!; try done. apply (ki_other _ _ Hi'); [|done].
      change QUIC_ENC_LEVEL_NUM with 4 in Hl. change L1 with 3 in Hne |- *. lia.
Qed.

Lemma keys_discard hist (els : OSSL_QRL_ENC_LEVEL_SET) (l : Z) : 0 <= l < QUIC_ENC_LEVEL_NUM -> keys_inv hist els ->
  keys_inv hist (ossl_qrl_enc_level_set_discard els l).
Proof.
  intros Hl Hi. destruct (discard_only els l) as [Ho Hd]. destruct (decide (l = L1)) as [->|Hne].
  - destruct (ki_1rtt _ _ Hi) as (c1 & H1 & H1'). eapply keys_l1; [done|done|by apply discard_inv|done|].
    destruct Hd as [-> | ->]; [|done]. by apply (ki_hpr _ _ Hi).
  - eapply keys_other; [done|done|done|]. destruct Hd as [-> | ->]; [|done]. intros Hs. destruct (ki_hpr _ _ Hi l Hl Hs). split_and!; try done.
    apply (ki_other _ _ Hi); [|done]. change QUIC_ENC_LEVEL_NUM with 4 in Hl. change L1 with 3 in Hne |- *. lia.
Qed.

Lemma keys_level (hist : list qrx_op) (els : OSSL_QRL_ENC_LEVEL_SET) : keys_inv hist els -> prov els L1 ->
  exists c, provided bit0 hist L1 c /\ level_ok hkdf_expand false c (els L1) /\ zlen (el_ku (els L1)) = EVP_MAX_KEY_LENGTH.
Proof. intros [(c1 & [Hk H1] & H1') _ _] Hp. destruct (H1 Hp) as (c & -> & Ho). exists c. split; [by apply H1'|done]. Qed.

(** A packet with the next key phase: the update never fails to be carried out. *)
Lemma keys_update (hist : list qrx_op) (els : OSSL_QRL_ENC_LEVEL_SET) : keys_inv hist els -> ku_room els ->
  exists els' r, ossl_qrl_enc_level_set_key_update hkdf_expand (fun _ => false) els L1 = Some (els', r) /\ keys_inv hist els' /\ ku_room els'.
Proof.
  intros Hi Hr. destruct (Z.eqb_spec (el_state (els L1)) QRL_EL_STATE_PROV_NORMAL) as [Hst|Hst].
  - destruct (keys_level _ _ Hi) as (c & Hc & Ho & Hk); [by rewrite Hst|]. specialize (Hr Hst).
    assert (Hu : ossl_qrl_enc_level_set_key_update hkdf_expand (fun _ => false) els L1 =
      Some (els_upd els L1 (fun el => el <| el_key_epoch := el_key_epoch el +u 1 |> <| el_state := QRL_EL_STATE_PROV_UPDATING |>), true)).
    { unfold ossl_qrl_enc_level_set_key_update. change (ossl_qrl_enc_level_set_get els L1 false) with (Some (els L1)). cbv iota beta. rewrite Hst.
      by rewrite (lo_is_tx _ _ _ _ Ho). }
    eexists _, true. split; [exact Hu|]. assert (Hl := update_inv hkdf_expand hkdf_len false _ _ _ (Some c) _ (inv_some _ _ _ _ Hk Ho) Hr Hu). split.
    + eapply keys_l1; [exact Hi|apply els_upd_only|exact Hl|by intros ? [= <-]|]. intros _. rewrite els_upd_at. cbn. apply (ki_hpr _ _ Hi); [done|by rewrite Hst].
    + by intros Hn.
  - exists els, false. split; [|done]. unfold ossl_qrl_enc_level_set_key_update. change (ossl_qrl_enc_level_set_get els L1 false) with (Some (els L1)). cbv iota beta.
    by rewrite (proj2 (Z.eqb_neq _ _) Hst).
Qed.

Lemma keys_done (hist : list qrx_op) (els els' : OSSL_QRL_ENC_LEVEL_SET) (r : bool) : keys_inv hist els ->
  el_state (els L1) = QRL_EL_STATE_PROV_UPDATING -> ossl_qrl_enc_level_set_key_update_done els L1 = (els', r) -> keys_inv hist els'.
Proof.
  intros Hi Hst Hd. destruct (keys_level _ _ Hi) as (c & Hc & Ho & Hk); [by rewrite Hst|].
  destruct (done_spec hkdf_expand false els els' c r Hst Ho Hk Hd) as (_ & Hk' & Ho' & _). destruct (update_done_only _ _ _ Hd) as (_ & O & E1 & E2 & E3).
  eapply keys_l1; [exact Hi|done|by apply inv_some|by intros ? [= <-]|]. intros _. rewrite E1, E2, E3. apply (ki_hpr _ _ Hi); [done|by rewrite Hst].
Qed.

Lemma keys_cooldown ok (hist : list qrx_op) (els els' : OSSL_QRL_ENC_LEVEL_SET) (r : bool) : keys_inv hist els ->
  el_state (els L1) = QRL_EL_STATE_PROV_COOLDOWN -> ossl_qrl_enc_level_set_key_cooldown_done hkdf_expand ok els L1 = Some (els', r) -> keys_inv hist els'.
Proof.
  intros Hi Hst Hd. destruct (ki_1rtt _ _ Hi) as (c1 & H1 & H1'). destruct (cooldown_only hkdf_expand _ _ _ _ Hst Hd) as (O & E1 & E2 & E3).
  eapply keys_l1; [exact Hi|done|by eapply cooldown_inv|done|]. intros _. rewrite E1, E2, E3. apply (ki_hpr _ _ Hi); [done|by rewrite Hst].
Qed.
End Keys.

(** ** Opening a packet *)

Section Open.
Context (sizeof_RXE : Z).
Context (aead_open : keyslot -> Z -> bytes -> bytes -> bytes -> aead_result).
Context (EVP_aes_ecb : bytes -> bytes -> option bytes) (EVP_chacha : bytes -> bytes -> bytes -> option bytes).
Context (hkdf_expand : Z -> bytes -> bytes -> Z -> bytes).
Hypothesis hkdf_len : forall md secret label n, 0 <= n -> zlen (hkdf_expand md secret label n) = n.
Context (validation_cb : option (QUIC_PN -> pn_space -> bool)) (key_update_cb : bool).

Section Bit.
Context (bit0 : Z).

Abbreviation open_pkt := (qrx_open_pkt sizeof_RXE aead_open hkdf_expand validation_cb key_update_cb).
Abbreviation unprotect_pkt := (qrx_unprotect_pkt sizeof_RXE aead_open EVP_aes_ecb EVP_chacha hkdf_expand validation_cb key_update_cb).
Abbreviation process_pkt := (qrx_process_pkt sizeof_RXE aead_open EVP_aes_ecb EVP_chacha hkdf_expand validation_cb key_update_cb).
Abbreviation process_datagram := (qrx_process_datagram sizeof_RXE aead_open EVP_aes_ecb EVP_chacha hkdf_expand validation_cb key_update_cb).
Abbreviation process_one_urxe := (qrx_process_one_urxe sizeof_RXE aead_open EVP_aes_ecb EVP_chacha hkdf_expand validation_cb key_update_cb).
Abbreviation read_pkt := (ossl_qrx_read_pkt sizeof_RXE aead_open EVP_aes_ecb EVP_chacha hkdf_expand validation_cb key_update_cb).

Lemma bit_cases (e : Z) (kp : bool) : let lsb := Z.land e 1 in
  (b2z kp = lsb /\ Z.lxor lsb (b2z kp) = 0) \/ (b2z kp = 1 - lsb /\ Z.lxor lsb (b2z kp) = 1).
Proof.
  cbv zeta. change 1 with (Z.ones 1) at 1 2 4 5. rewrite Z.land_ones by lia. change (2 ^ 1) with 2.
  pose proof (Z.mod_pos_bound e 2). assert (e mod 2 = 0 \/ e mod 2 = 1) as [-> | ->] by lia; destruct kp; cbn; tauto.
Qed.

(** The epochs a packet of the level can have. *)
Definition epoch_reported (l epoch : Z) : Prop := if l =? QUIC_ENC_LEVEL_1RTT then bit0 <= epoch else epoch = 0.

(** The slot that is chosen holds the keys of the epoch that is reported. *)
Lemma slot_of_epoch (hist : list qrx_op) (els : OSSL_QRL_ENC_LEVEL_SET) (l : Z) (kp : bool) : keys_inv hkdf_expand bit0 hist els -> ku_room els ->
  0 <= l < QUIC_ENC_LEVEL_NUM -> state_prov (el_state (els l)) = true ->
  let '(idx, epoch, old) := qrx_get_cipher_ctx_idx (els l) l kp in
  exists c, provided bit0 hist l c /\ epoch_reported l epoch /\ el_suite_id (els l) = c_suite c /\ el_cctx (els l) idx = Some (epoch_keys hkdf_expand c epoch).
Proof.
  intros Hi Hroom Hl Hp. unfold qrx_get_cipher_ctx_idx. destruct (Z.eqb_spec l QUIC_ENC_LEVEL_1RTT) as [->|Hne]; cbn [negb].
  2:{ destruct (ki_other _ _ _ _ Hi l) as (c & Hc & Hb & Hpv); [|done|].
      - change QUIC_ENC_LEVEL_NUM with 4 in Hl. change QUIC_ENC_LEVEL_1RTT with 3 in *. lia.
      - exists c. split; [done|]. split; [unfold epoch_reported; by rewrite (proj2 (Z.eqb_neq _ _) Hne)|].
        destruct Hpv as [_ _ H1 H2]. split; [done|]. unfold epoch_keys. rewrite Hb. exact H2. }
  destruct (keys_level _ _ _ _ Hi Hp) as (c & Hc & Ho & _). destruct (lo_rx _ _ _ _ Ho eq_refl) as (Hcur & Hn & Hu & _).
  destruct (lo_epoch _ _ _ _ Ho) as [Hbit He]. unfold slot_has, cur_slot in *. pose proof (bit_cases (el_key_epoch (els L1)) kp) as Hb. cbv zeta in Hb.
  assert (Hfb : c_bit c = bit0) by apply Hc. assert (Her : forall x, bit0 <= x -> epoch_reported L1 x) by done.
  assert (Hs := lo_suite _ _ _ _ Ho). set (e := el_key_epoch (els L1)) in *. set (lsb := Z.land e 1) in *.
  destruct (Z.eqb_spec (el_state (els L1)) QRL_EL_STATE_PROV_NORMAL) as [Hst|Hst].
  - rewrite Hst. change (QRL_EL_STATE_PROV_NORMAL =? QRL_EL_STATE_PROV_COOLDOWN) with false. cbv iota zeta. specialize (Hroom Hst). fold e in Hroom.
    exists c. split; [done|]. destruct Hb as [[-> ->]|[-> ->]]; rewrite add64_small by (u64_unfold; lia).
    + rewrite Z.add_0_r. split; [apply Her; lia|done].
    + split; [apply Her; lia|]. split; [done|]. by apply Hn.
  - destruct (Z.eqb_spec (el_state (els L1)) QRL_EL_STATE_PROV_UPDATING) as [Hst'|Hst'].
    + rewrite Hst'. change (QRL_EL_STATE_PROV_UPDATING =? QRL_EL_STATE_PROV_COOLDOWN) with false. cbv iota zeta. destruct (Hu Hst') as [Hold Hlt].
      exists c. split; [done|]. destruct Hb as [[-> ->]|[-> ->]]; rewrite sub64_small by (u64_unfold; lia);
        (split; [apply Her; lia|]); [by rewrite Z.sub_0_r|done].
    + destruct (Z.eqb_spec (el_state (els L1)) QRL_EL_STATE_PROV_COOLDOWN) as [Hc'|Hc'].
      * exists c. split; [done|]. split; [apply Her; lia|done].
      * exfalso. unfold state_prov in Hp. lia.
Qed.

(** A successful decryption, with the keys of the packet's epoch. *)
Definition opened_with (hist : list qrx_op) (l : Z) (pn epoch : Z) (aad src dst : bytes) : Prop :=
  exists c, provided bit0 hist l c /\ epoch_reported l epoch /\ let keys := epoch_keys hkdf_expand c epoch in
    aead_open keys (ossl_qrl_get_suite_cipher_tag_len (c_suite c)) (aead_nonce (slot_iv keys) pn) aad src = AeadOk dst.

Lemma opened_mono hist hist' l pn epoch aad src dst : opened_with hist l pn epoch aad src dst -> opened_with (hist ++ hist') l pn epoch aad src dst.
Proof. intros (c & H1 & H2). exists c. split; [by apply provided_mono|done]. Qed.

Lemma decrypt_total (hist : list qrx_op) (q : OSSL_QRX) (src aad : bytes) (pn l : Z) (kp : bool) : keys_inv hkdf_expand bit0 hist (qrx_el_set q) ->
  ku_room (qrx_el_set q) -> 0 <= l < QUIC_ENC_LEVEL_NUM ->
  exists n r, qrx_decrypt_pkt_body aead_open q src aad pn l kp = Some (q <| forged_pkt_count := n |>, r) /\
    forall dst epoch, r = Some (dst, epoch) -> opened_with hist l pn epoch aad src dst.
Proof.
  intros Hi Hroom Hl. unfold qrx_decrypt_pkt_body.
  assert (Hsame : forall r, (forall dst epoch, r = Some (dst, epoch) -> opened_with hist l pn epoch aad src dst) ->
    exists n r', Some (q, r) = Some (q <| forged_pkt_count := n |>, r') /\ forall dst epoch, r' = Some (dst, epoch) -> opened_with hist l pn epoch aad src dst).
  { intros r Hr. exists (forged_pkt_count q), r. split; [by destruct q|done]. }
  case_match; [by apply Hsame|]. unfold ossl_qrl_enc_level_set_get. rewrite (proj2 (Z.leb_gt _ _)) by lia. cbn [andb].
  destruct (state_prov (el_state (qrx_el_set q l))) eqn:Hp; cbn [negb]; [|by apply Hsame].
  case_match; [by apply Hsame|]. case_match; [by apply Hsame|].
  pose proof (slot_of_epoch hist (qrx_el_set q) l kp Hi Hroom Hl Hp) as Hslot. destruct (qrx_get_cipher_ctx_idx _ _ _) as [[idx epoch] old].
  destruct Hslot as (c & Hc & Hep & Hs & Hk). case_match; [by apply Hsame|]. rewrite Hk. cbn [mbind option_bind]. case_match; [by apply Hsame|].
  destruct (ki_hpr _ _ _ _ Hi l Hl Hp) as [_ Ht]. rewrite Ht, Hs.
  destruct (aead_open _ _ _ _ _) eqn:Ha.
  - by apply Hsame.
  - by exists (forged_pkt_count q +u 1), None.
  - apply Hsame. intros dst epoch' [= <- <-]. exists c. done.
Qed.
(** ** Packets handed out *)

(** The packet is the plaintext of one that the AEAD accepted: under the keys of a secret given for its level, for its key epoch and
    packet number, with the bytes of the header it carries as associated data; and the late validation let it pass. *)
Definition authentic (hist : list qrx_op) (rxe : RXE) : Prop :=
  ossl_quic_pkt_type_is_encrypted (ph_type (rxe_hdr rxe)) = true ->
  exists pkt short_len old h ptrs rest largest dst,
    ossl_quic_wire_decode_pkt_hdr pkt short_len false false old = (Some (h, ptrs, rest), 0) /\
    opened_with hist (qrx_determine_enc_level h) (rxe_pn rxe) (rxe_key_epoch rxe)
      (take (Z.to_nat (zlen pkt - zlen rest - ph_len h)) pkt) (default [] (ph_data h)) dst /\
    rxe_hdr rxe = h <| ph_data := Some dst |> <| ph_len := zlen dst |> /\
    ossl_quic_wire_decode_pkt_hdr_pn (ph_pn h) (ph_pn_len h) largest = Some (rxe_pn rxe) /\
    qrx_validate_hdr_late validation_cb (rxe_pn rxe) (rxe_determine_pn_space h) = true.

Lemma authentic_mono hist hist' rxe : authentic hist rxe -> authentic (hist ++ hist') rxe.
Proof.
  intros Ha He. destruct (Ha He) as (pkt & sl & old & h & ptrs & rest & largest & dst & H1 & H2 & H3). exists pkt, sl, old, h, ptrs, rest, largest, dst.
  split; [done|]. split; [by apply opened_mono|done].
Qed.

(** What the authentication reads of the state. *)
Record same_core (q q' : OSSL_QRX) : Prop := {
  sc_els : qrx_el_set q' = qrx_el_set q;
  sc_bit : init_key_phase_bit q' = init_key_phase_bit q;
  sc_pending : rx_pending q' = rx_pending q;
  sc_out : qrx_out q' = qrx_out q }.
#[local] Instance same_core_refl : Reflexive same_core.
Proof. by split. Qed.
#[local] Instance same_core_trans : Transitive same_core.
Proof. intros a b c [] []. split; congruence. Qed.

Record auth_inv (hist : list qrx_op) (q : OSSL_QRX) : Prop := {
  ai_keys : keys_inv hkdf_expand bit0 hist (qrx_el_set q);
  ai_bit : init_key_phase_bit q = bit0 /\ 0 <= bit0;
  ai_pending : Forall (authentic hist) (rx_pending q);
  ai_out : map_Forall (fun _ rxe => authentic hist rxe) (qrx_out q) }.

(** While packets are processed, with room for the key update one of them may cause. *)
Definition read_inv (hist : list qrx_op) (q : OSSL_QRX) : Prop := auth_inv hist q /\ ku_room (qrx_el_set q).

Lemma auth_core hist (q q' : OSSL_QRX) : same_core q q' -> auth_inv hist q -> auth_inv hist q'.
Proof. intros [S1 S2 S3 S4] [A1 A2 A3 A4]. by split; rewrite ?S1, ?S2, ?S3, ?S4. Qed.
Lemma read_core hist (q q' : OSSL_QRX) : same_core q q' -> read_inv hist q -> read_inv hist q'.
Proof. intros Hs [Ha Hr]. split; [by eapply auth_core|]. by rewrite (sc_els _ _ Hs). Qed.

Lemma auth_mono hist hist' q : auth_inv hist q -> auth_inv (hist ++ hist') q.
Proof.
  intros [A1 A2 A3 A4]. split; [by apply keys_mono|done|..].
  - eapply Forall_impl; [exact A3|]. intros rxe. apply authentic_mono.
  - intros id rxe Hid. apply authentic_mono, (A4 _ _ Hid).
Qed.

Definition head_hdr (q : OSSL_QRX) : option QUIC_PKT_HDR := rxe_hdr <$> head (rx_free q).

Lemma ensure_core alloc q n q' r : qrx_ensure_free_rxe sizeof_RXE alloc q n = (q', r) -> same_core q q' /\ (is_Some r -> is_Some (head (rx_free q'))).
Proof.
  unfold qrx_ensure_free_rxe, qrx_alloc_rxe. destruct (rx_free q) eqn:Hf; [|intros [= <- <-]; by rewrite Hf].
  repeat (case_match; simplify_eq); intros [= <- <-]; split; try done; by intros [].
Qed.

Lemma reserve_core alloc q n q' r : qrx_reserve_rxe sizeof_RXE alloc q n = (q', r) ->
  same_core q q' /\ (r = true -> head_hdr q' = head_hdr q).
Proof.
  unfold qrx_reserve_rxe, qrx_resize_rxe, head_hdr. destruct (rx_free q) as [|rxe l] eqn:Hf; [by intros [= <- <-]|].
  repeat case_match; intros [= <- <-]; rewrite ?Hf; try done. split; [done|]. intros _. unfold upd_head. cbn. by rewrite Hf.
Qed.

Lemma relocate_core alloc q i n q' r : qrx_relocate_buffer sizeof_RXE alloc q i n = (q', r) -> same_core q q'.
Proof.
  unfold qrx_relocate_buffer. case_match; [by intros [= <- <-]|]. destruct (qrx_reserve_rxe _ _ _ _) as [q1 []] eqn:Hr; intros [= <- <-];
    by destruct (reserve_core _ _ _ _ _ Hr).
Qed.

Lemma deliver_auth hist (q : OSSL_QRX) (urxe : QUIC_URXE) (f : RXE -> RXE) : auth_inv hist q ->
  (forall rxe, head_hdr q = Some (rxe_hdr rxe) -> authentic hist (f rxe)) -> auth_inv hist (qrx_deliver q urxe f).
Proof.
  intros [A1 A2 A3 A4] Hf. unfold qrx_deliver, head_hdr in *. destruct (rx_free q) as [|rxe l]; [done|]. split; cbn; try done.
  apply Forall_app. split; [done|]. apply Forall_singleton. exact (Hf rxe eq_refl).
Qed.

Lemma deliver_els (q : OSSL_QRX) (urxe : QUIC_URXE) (f : RXE -> RXE) : qrx_el_set (qrx_deliver q urxe f) = qrx_el_set q.
Proof. unfold qrx_deliver. by case_match. Qed.

Lemma enc_level_range (h : QUIC_PKT_HDR) : 0 <= qrx_determine_enc_level h < QUIC_ENC_LEVEL_NUM.
Proof. unfold qrx_determine_enc_level. repeat case_match; done. Qed.

Lemma open_total hist ok (q : OSSL_QRX) (urxe : QUIC_URXE) (idx : Z) (h : QUIC_PKT_HDR) (pkt rest : bytes) (sl i l n : Z) old ptrs : read_inv hist q ->
  ossl_quic_wire_decode_pkt_hdr pkt sl false false old = (Some (h, ptrs, rest), 0) -> 0 <= l < QUIC_ENC_LEVEL_NUM ->
  (ossl_quic_pkt_type_is_encrypted (ph_type h) = true -> l = qrx_determine_enc_level h) ->
  exists q' urxe' fate, open_pkt ok q urxe idx h pkt (zlen pkt - zlen rest - ph_len h) i l n = Some (q', urxe', fate) /\ read_inv hist q'.
Proof.
  intros Hi Hd Hl Henc. unfold qrx_open_pkt. destruct (qrx_validate_hdr q h) as [pn|] eqn:Hpn; [|by eexists _, _, _].
  destruct (qrx_reserve_rxe _ _ _ _) as [q1 []] eqn:Hr; apply reserve_core in Hr as [S1 _]; pose proof (read_core hist _ _ S1 Hi) as Hi1; [|by eexists _, _, _].
  destruct (decrypt_total hist q1 (default [] (ph_data h)) (take (Z.to_nat (zlen pkt - zlen rest - ph_len h)) pkt) pn l (ph_key_phase h)) as (n2 & r & Hdec & Hopen);
    [apply Hi1|apply Hi1|done|]. rewrite Hdec. cbn [mbind option_bind]. set (q2 := q1 <| forged_pkt_count := n2 |>).
  assert (Hi2 : read_inv hist q2) by (by eapply read_core; [|exact Hi1]). destruct r as [[dst epoch]|]; [|by eexists _, _, _].
  destruct (qrx_validate_hdr_late _ _ _) eqn:Hlate; cbn [negb]; [|by eexists _, _, _].
  assert (Hku : exists q3, (if (ph_type h =? QUIC_PKT_TYPE_1RTT) && negb (b2z (ph_key_phase h) =? Z.land (el_key_epoch (qrx_el_set q2 l)) 1)
     then qrx_key_update_initiated hkdf_expand key_update_cb q2 pn else Some q2) = Some q3 /\ read_inv hist q3).
  { case_match; [|by exists q2]. unfold qrx_key_update_initiated. destruct Hi2 as [Ha2 Hroom].
    destruct (keys_update _ hkdf_len bit0 hist (qrx_el_set q2) (ai_keys _ _ Ha2) Hroom) as (els & r & -> & Hk & Hroom'). cbn [mbind option_bind].
    destruct Ha2 as [_ B2 B3 B4]. destruct r; cbn [negb]; (eexists; split; [reflexivity|]); (split; [by split|done]). }
  destruct Hku as (q3 & -> & Hi3). cbn [mbind option_bind]. eexists _, _, _. split; [reflexivity|].
  set (q4 := if _ <? pn then _ else _). assert (Hi4 : read_inv hist q4) by (subst q4; case_match; [by eapply read_core; [|exact Hi3]|done]).
  split; [|rewrite deliver_els; apply Hi4]. apply deliver_auth; [apply Hi4|]. intros rxe _ He. cbn in He.
  exists pkt, sl, old, h, ptrs, rest, (sget (largest_pn q) (rxe_determine_pn_space h)), dst. split; [done|]. rewrite <- (Henc He). split; [by apply Hopen|]. done.
Qed.
Lemma level_of_type (h h' : QUIC_PKT_HDR) : ph_type h' = ph_type h -> qrx_determine_enc_level h' = qrx_determine_enc_level h.
Proof. unfold qrx_determine_enc_level. by intros ->. Qed.

Lemma unprotect_total hist ok (q : OSSL_QRX) (urxe : QUIC_URXE) (sl off eop idx : Z) (h old : QUIC_PKT_HDR) ptrs (rest : bytes) (nd : bool) (n : Z) :
  let l := qrx_determine_enc_level h in let sop := drop (Z.to_nat off) (ux_data urxe) in
  read_inv hist q -> state_prov (el_state (qrx_el_set q l)) = true -> 0 <= off <= eop -> eop - off = zlen sop - zlen rest ->
  ossl_quic_wire_decode_pkt_hdr sop sl nd false old = (Some (h, ptrs, rest), 0) -> ossl_quic_pkt_type_is_encrypted (ph_type h) = true ->
  exists q' urxe' fate off', unprotect_pkt ok q urxe sl off eop idx h ptrs nd l n = Some (q', urxe', fate, off') /\ read_inv hist q' /\ 0 <= off'.
Proof.
  intros l sop Hi Hp Hoff Heop Hd Henc. unfold qrx_unprotect_pkt. pose proof (enc_level_range h) as Hl. fold l in Hl.
  destruct (if ph_type h =? _ then _ else _) as [q1 ri] eqn:Hr.
  assert (S1 : same_core q q1) by (case_match; [by eapply relocate_core|by simplify_eq]). pose proof (read_core hist _ _ S1 Hi) as Hi1.
  destruct ri as [i|]; [|eexists _, _, _, _; split_and!; [done|done|lia]]. fold sop. destruct nd.
  - unfold ossl_qrl_enc_level_set_get. rewrite (proj2 (Z.leb_gt _ _)) by lia. rewrite (sc_els _ _ S1), Hp. cbn [andb negb mbind option_bind].
    destruct (ki_hpr _ _ _ _ (ai_keys _ _ (proj1 Hi)) l Hl Hp) as [[[cid key] ->] _]. cbn [mbind option_bind].
    destruct (ossl_quic_hdr_protector_decrypt _ _ _ _ _) as [pkt|] eqn:Hu; [|eexists _, _, _, _; split_and!; [done|done|lia]].
    destruct (ossl_quic_wire_decode_pkt_hdr pkt sl false false h) as [[[[h2 p2] rest2]|] c2] eqn:Hd2; [|eexists _, _, _, _; split_and!; [done|done|lia]].
    assert (c2 = 0) as -> by apply (decode_shrinks _ _ _ _ _ _ _ _ _ Hd2).
    set (q2 := upd_head q1 _). assert (Hi2 : read_inv hist q2) by (by eapply read_core; [|exact Hi1]).
    match goal with |- context [qrx_open_pkt _ _ _ _ _ ok q2 ?e idx h2 pkt _ ?j _ _] =>
      destruct (open_total hist ok q2 e idx h2 pkt rest2 sl j l n h p2 Hi2 Hd2 Hl) as (q3 & e3 & fate & Ho & Hi3) end.
    { intros He2. apply level_of_type. rewrite (decode_type _ _ _ _ _ _ _ _ _ Hd Henc), (decode_type _ _ _ _ _ _ _ _ _ Hd2 He2).
      symmetry. by eapply unprotected_type. }
    rewrite Ho. cbn [mbind option_bind]. eexists _, _, _, _. split_and!; [done|done|]. destruct (decode_shrinks _ _ _ _ _ _ _ _ _ Hd2). lia.
  - rewrite Heop. destruct (open_total hist ok q1 urxe idx h sop rest sl i l n old ptrs Hi1 Hd Hl) as (q3 & e3 & fate & Ho & Hi3); [done|].
    rewrite Ho. cbn [mbind option_bind]. eexists _, _, _, _. split_and!; [done|done|lia].
Qed.

Lemma process_total hist ok (q : OSSL_QRX) (urxe : QUIC_URXE) (off idx : Z) fd (n : Z) : read_inv hist q -> 0 <= off <= zlen (ux_data urxe) ->
  exists q' urxe' off' fd' d, process_pkt ok q urxe off idx fd n = Some (q', urxe', off', fd', d) /\ read_inv hist q' /\ 0 <= off'.
Proof.
  intros Hi Hoff. unfold qrx_process_pkt. destruct (qrx_ensure_free_rxe _ _ _ _) as [q1 r] eqn:Hr. destruct (ensure_core _ _ _ _ _ Hr) as [S1 Hh].
  pose proof (read_core hist _ _ S1 Hi) as Hi1. destruct r as [rxe|]; [|eexists _, _, _, _, _; split_and!; [done|done|lia]]. specialize (Hh (mk_is_Some _ _ eq_refl)).
  destruct (ossl_quic_wire_decode_pkt_hdr _ _ _ _ _) as [[[[h p] rest]|] c] eqn:Hd; [|eexists _, _, _, _, _; split_and!; [done|done|lia]].
  set (pkt := drop _ _) in *. assert (c = 0) as -> by apply (decode_shrinks _ _ _ _ _ _ _ _ _ Hd).
  assert (Hpkt : zlen pkt = zlen (ux_data urxe) - off) by (subst pkt; unfold zlen in *; rewrite length_drop; lia).
  assert (Heop : off <= zlen (ux_data urxe) - zlen rest) by (destruct (decode_shrinks _ _ _ _ _ _ _ _ _ Hd); lia).
  set (q2 := upd_head q1 _). assert (S2 : same_core q q2) by (by etrans). pose proof (read_core hist _ _ S2 Hi) as Hi2.
  match goal with |- context [mbind _ ?x] => assert (Hx : exists q3 e3 f3 o3, x = Some (q3, e3, f3, o3) /\ read_inv hist q3 /\ 0 <= o3) end.
  { destruct (_ || _); [eexists _, _, _, _; split_and!; [done|done|lia]|]. destruct (ossl_quic_pkt_type_is_encrypted (ph_type h)) eqn:Henc; cbn [negb].
    - unfold qrx_fate_of_level, ossl_qrl_enc_level_set_have_el, ossl_qrl_enc_level_set_get. pose proof (enc_level_range h) as Hl.
      rewrite (proj2 (Z.leb_gt _ _)) by lia. cbn [andb mbind option_bind].
      destruct (Z.eqb_spec (el_state (qrx_el_set q2 (qrx_determine_enc_level h))) QRL_EL_STATE_UNPROV); [eexists _, _, _, _; split_and!; [done|done|lia]|].
      destruct (state_prov _) eqn:Hp; [|eexists _, _, _, _; split_and!; [done|done|lia]]. change (1 =? 1) with true. cbv iota. destruct (_ && _); [eexists _, _, _, _; split_and!; [done|done|lia]|].
      eapply unprotect_total; [done|done|lia| |exact Hd|done]. fold pkt. rewrite Hpkt. lia.
    - unfold qrx_copy_pkt. destruct (qrx_reserve_rxe _ _ _ _) as [q3 []] eqn:Hv; apply reserve_core in Hv as [S3 Hd3]; [|eexists _, _, _, _; split_and!; [done|by eapply read_core|lia]].
      eexists _, _, _, _. split; [done|]. split; [|lia]. pose proof (read_core hist _ _ S3 Hi2) as [Hi3 Hroom]. split; [|by rewrite deliver_els].
      apply deliver_auth; [done|]. intros rxe' Hh' He. cbn in He. rewrite Hd3 in Hh' by done. revert Hh'. unfold head_hdr, q2, upd_head. cbn.
      destruct (rx_free q1) as [|r0 l0]; [by destruct Hh|]. cbn. intros [= Hh']. rewrite <- Hh', Henc in He. done. }
  destruct Hx as (q3 & e3 & f3 & o3 & -> & Hi3 & Ho3). cbn [mbind option_bind]. destruct f3; (eexists _, _, _, _, _; split_and!; [reflexivity|done|]); first [lia|apply zlen_nonneg].
Qed.

Lemma loop_total hist fuel : forall ok (q : OSSL_QRX) (urxe : QUIC_URXE) (off idx : Z) fd (n : Z) d, read_inv hist q -> 0 <= off ->
  exists q' urxe' d', process_loop sizeof_RXE aead_open EVP_aes_ecb EVP_chacha hkdf_expand validation_cb key_update_cb fuel ok q urxe off idx fd n d
    = Some (q', urxe', d') /\ read_inv hist q'.
Proof.
  induction fuel as [|fuel IH]; intros ok q urxe off idx fd n d Hi Hoff; cbn [process_loop]; [by eexists _, _, _|].
  destruct (Z.leb_spec (zlen (ux_data urxe) - off) 0); [by eexists _, _, _|]. cbn [orb]. case_match; [by eexists _, _, _|].
  destruct (process_total hist (ok (Z.to_nat idx)) q urxe off idx fd n Hi) as (q1 & e1 & o1 & f1 & d1 & -> & Hi1 & Ho1); [lia|]. cbn [mbind option_bind]. by apply IH.
Qed.

Lemma one_total hist ok (q : OSSL_QRX) (e : QUIC_URXE) : read_inv hist q -> exists q', process_one_urxe ok q e = Some q' /\ read_inv hist q'.
Proof.
  intros Hi. unfold qrx_process_one_urxe, qrx_process_datagram. set (q1 := q <| bytes_received := _ |>). assert (Hi1 : read_inv hist q1) by (by eapply read_core; [|exact Hi]).
  match goal with |- context [mbind _ ?x] => assert (Hx : exists q2 e2 d, x = Some (q2, e2, d) /\ read_inv hist q2) end.
  { case_match; [by eexists _, _, _|]. by apply loop_total. }
  destruct Hx as (q2 & e2 & d & -> & Hi2). cbn [mbind option_bind]. case_match; (eexists; split; [reflexivity|]); (eapply read_core; [|exact Hi2]); by destruct (ux_deferred e2).
Qed.

Lemma pending_total hist ok : forall l n (q : OSSL_QRX), read_inv hist q ->
  exists q', pending_loop sizeof_RXE aead_open EVP_aes_ecb EVP_chacha hkdf_expand validation_cb key_update_cb ok n l q = Some q' /\ read_inv hist q'.
Proof.
  induction l as [|e l IH]; intros n q Hi; cbn [pending_loop]; [by eexists|].
  destruct (one_total hist (ok n) q e Hi) as (q1 & -> & Hi1). cbn [mbind option_bind]. by apply IH.
Qed.

(** Reading never uses a key that is not there. *)
Lemma read_total hist ok (q : OSSL_QRX) : read_inv hist q -> exists q' r, read_pkt ok q = Some (q', r) /\ read_inv hist q'.
Proof.
  intros Hi. unfold ossl_qrx_read_pkt, qrx_process_pending_urxl.
  match goal with |- context [mbind _ ?x] => assert (Hx : exists q1, x = Some q1 /\ read_inv hist q1) end.
  { case_match; [by eexists|]. by apply pending_total. }
  destruct Hx as (q1 & -> & Hi1). cbn [mbind option_bind]. destruct (rx_pending q1) as [|rxe l] eqn:Hp; [by eexists _, _|].
  eexists _, _. split; [reflexivity|]. destruct Hi1 as [[A1 A2 A3 A4] Hroom]. split; [|done]. rewrite Hp in A3. apply Forall_cons in A3 as [A3 A3'].
  split; cbn; try done. by apply map_Forall_insert_2.
Qed.
Abbreviation do_op := (qrx_do sizeof_RXE aead_open EVP_aes_ecb EVP_chacha hkdf_expand validation_cb key_update_cb).

Lemma auth_els hist (q : OSSL_QRX) els : keys_inv hkdf_expand bit0 hist els -> auth_inv hist q -> auth_inv hist (q <| qrx_el_set := els |>).
Proof. intros Hk [A1 A2 A3 A4]. by split. Qed.

Lemma timeout_auth hist ok (q q' : OSSL_QRX) (normal : bool) r : auth_inv hist q ->
  ossl_qrx_key_update_timeout hkdf_expand ok q normal = Some (q', r) -> auth_inv hist q'.
Proof.
  intros Hi. unfold ossl_qrx_key_update_timeout. destruct (ossl_qrl_enc_level_set_get _ _ _) as [el|] eqn:Hg; [|by intros [= <- <-]].
  assert (el = qrx_el_set q L1) as -> by (revert Hg; unfold ossl_qrl_enc_level_set_get; repeat case_match; congruence). clear Hg.
  destruct (if _ =? _ then _ else _) as [els1 r1] eqn:H1. assert (Hk1 : keys_inv hkdf_expand bit0 hist els1).
  { destruct (Z.eqb_spec (el_state (qrx_el_set q L1)) QRL_EL_STATE_PROV_UPDATING) as [Hst|]; [|simplify_eq; apply Hi].
    by eapply keys_done; [apply Hi|..]. }
  destruct (negb r1); [intros [= <- <-]; by apply auth_els|]. destruct (normal && _) eqn:Hn; [|intros [= <- <-]; by apply auth_els].
  destruct (ossl_qrl_enc_level_set_key_cooldown_done _ _ _ _) as [[els2 r2]|] eqn:H2; [|done]. cbn. intros [= <- <-].
  apply auth_els; [|done]. apply andb_true_iff in Hn as [_ Hn]. apply Z.eqb_eq in Hn. by eapply keys_cooldown; [exact hkdf_len|..].
Qed.

Lemma release_auth hist (q q' : OSSL_QRX) (id : Z) : auth_inv hist q -> ossl_qrx_pkt_release q id = Some q' -> auth_inv hist q'.
Proof.
  intros [A1 A2 A3 A4]. unfold ossl_qrx_pkt_release. destruct (qrx_out q !! id) as [rxe|] eqn:Ho; [|done]. cbn -[sub64].
  case_match; intros [= <-]; split; cbn; try done; [by apply map_Forall_delete|]. apply map_Forall_insert_2; [|done]. exact (A4 _ _ Ho).
Qed.

Lemma do_auth hist (q q' : OSSL_QRX) (op : qrx_op) : auth_inv hist q -> qrx_op_ok q op -> do_op q op = Some q' -> auth_inv (hist ++ [op]) q'.
Proof.
  intros Hi Hok. pose proof (auth_mono hist [op] q Hi) as Hm. destruct op as [e|ok|id|id|ok lvl suite md secret|lvl| |ok normal]; cbn [qrx_do].
  - intros [= <-]. by eapply auth_core; [|exact Hm].
  - destruct (read_total (hist ++ [QRead ok]) ok q) as (q1 & r & -> & Hi1); [|intros [= <-]; apply Hi1]. split; [done|]. intros _. exact Hok.
  - unfold ossl_qrx_pkt_up_ref. destruct (qrx_out q !! id) as [rxe|] eqn:Ho; [|done]. cbn. intros [= <-]. destruct Hm as [A1 A2 A3 A4]. split; cbn; try done.
    apply map_Forall_insert_2; [|done]. exact (A4 _ _ Ho).
  - by apply release_auth.
  - unfold ossl_qrx_provide_secret. destruct (Z.leb_spec QUIC_ENC_LEVEL_NUM lvl); [by intros [= <-]|].
    destruct (ossl_qrl_enc_level_set_provide_secret _ _ _ _ _ _ _ _ _) as [[els r]|] eqn:Hp; [|done]. cbn. intros [= <-].
    destruct (ai_bit _ _ Hi) as [Hbit Hb0]. rewrite Hbit in Hp.
    assert (Hk := keys_provide _ hkdf_len bit0 hist ok _ _ _ _ _ _ _ (conj Hok H) Hb0 (ai_keys _ _ Hi) Hp).
    pose proof (auth_els _ _ _ Hk Hm). destruct r; [|done]. by eapply auth_core; [|done].
  - intros [= <-]. unfold ossl_qrx_discard_enc_level. destruct (Z.leb_spec QUIC_ENC_LEVEL_NUM lvl); [done|].
    apply auth_els; [|done]. apply keys_discard; [done|apply Hm].
  - intros [= <-]. eapply auth_core; [|exact Hm]. unfold ossl_qrx_allow_1rtt_processing. by case_match.
  - destruct (ossl_qrx_key_update_timeout _ _ _ _) as [[q1 r]|] eqn:Ht; [|done]. cbn. intros [= <-]. by eapply timeout_auth.
Qed.

End Bit.

Context (max_def : Z).
Abbreviation read_pkt := (ossl_qrx_read_pkt sizeof_RXE aead_open EVP_aes_ecb EVP_chacha hkdf_expand validation_cb key_update_cb).
Abbreviation reach := (qrx_reach sizeof_RXE aead_open EVP_aes_ecb EVP_chacha hkdf_expand validation_cb key_update_cb max_def).

Lemma reach_auth (hist : list qrx_op) (q : OSSL_QRX) : reach hist q -> auth_inv (init_key_phase_bit q) hist q.
Proof.
  intros Hr. assert (H : exists b, auth_inv b hist q).
  { induction Hr as [short_len init bit q Hm Hb Hn|hist q op q' Hr [b IH] Hok Hd]; [|exists b; by eapply do_auth]. exists bit.
    unfold ossl_qrx_new in Hn. case_match; [done|]. cbn in Hn. simplify_eq. split; cbn; try done. apply keys_new. }
  destruct H as [b Hb]. by rewrite (proj1 (ai_bit _ _ _ Hb)).
Qed.


(** C23. Reading is total: in every reachable state, whatever the pending datagrams contain and whichever allocations fail, a read
    ends and dereferences no missing cipher context or header protector, through any order of provisioning, discarding and
    key updates; and when it returns no packet, every pending datagram has been looked at. *)
Theorem qrx_read_never_stuck (hist : list qrx_op) (q : OSSL_QRX) (ok : nat -> nat -> nat -> bool) : reach hist q ->
  el_key_epoch (qrx_el_set q L1) < UINT64_MAX ->
  exists q' r, read_pkt ok q = Some (q', r) /\ (r = None -> urx_pending q' = [] /\ rx_pending q' = []).
Proof.
  intros Hr Hepoch. destruct (read_total (init_key_phase_bit q) hist ok q) as (q' & r & Hread & _); [split; [by apply reach_auth|by intros _]|].
  exists q', r. split; [done|]. intros ->. pose proof (qrx_reach_inv _ _ _ _ _ _ _ _ _ _ Hr) as Hi.
  revert Hread. unfold ossl_qrx_read_pkt, ossl_qrx_processed_read_pending. destruct (rx_pending q) as [|rxe l] eqn:Hp.
  - destruct (qrx_process_pending_urxl _ _ _ _ _ _ _ _ _) as [q1|] eqn:H1; [|done]. cbn [mbind option_bind].
    destruct (pending_inv _ _ _ _ _ _ _ _ _ _ _ _ _ _ Hi eq_refl H1) as [_ Hpend]. destruct (rx_pending q1) eqn:Hp1; [|done]. by intros [= <-].
  - cbn [mbind option_bind]. by rewrite Hp.
Qed.
End Open.

(** ** A history with a packet that is opened *)

(** An AEAD that works, if not a secure one: the plaintext masked with a byte of the key and a sum as the tag. *)
Definition toy_mac (keys : keyslot) (tag_len : Z) (nonce aad pt : bytes) : bytes :=
  replicate (Z.to_nat tag_len) (foldr Z.add 0 (slot_key keys ++ nonce ++ aad ++ pt) mod 256).
Definition toy_seal (keys : keyslot) (tag_len : Z) (nonce aad pt : bytes) : option bytes :=
  if tag_len <? 0 then None else Some (map (Z.lxor (byte_at (slot_key keys) 0)) pt ++ toy_mac keys tag_len nonce aad pt).
Definition toy_open (keys : keyslot) (tag_len : Z) (nonce aad src : bytes) : aead_result :=
  let n := (length src - Z.to_nat tag_len)%nat in
  let pt := map (Z.lxor (byte_at (slot_key keys) 0)) (take n src) in
  if bool_decide (drop n src = toy_mac keys tag_len nonce aad pt) then AeadOk pt else AeadForged.
Definition toy_aes (key s : bytes) : option bytes := Some (map (fun b => Z.lxor b (byte_at key 0)) (take 16 s)).
Definition toy_chacha (key s z : bytes) : option bytes := Some (map (fun b => Z.lxor b (byte_at key 0)) z).

Lemma toy_correct keys tag_len nonce aad pt ct : toy_seal keys tag_len nonce aad pt = Some ct ->
  toy_open keys tag_len nonce aad ct = AeadOk pt /\ zlen ct = zlen pt + tag_len.
Proof.
  unfold toy_seal. destruct (Z.ltb_spec tag_len 0); [done|]. intros [= <-].
  set (m := map _ pt). set (t := toy_mac _ _ _ _ _). assert (Ht : length t = Z.to_nat tag_len) by (unfold t, toy_mac; apply length_replicate).
  assert (Hm : length m = length pt) by apply length_map. split; [|unfold zlen; rewrite length_app; lia].
  unfold toy_open. rewrite length_app, Ht. replace (length m + Z.to_nat tag_len - Z.to_nat tag_len)%nat with (length m) by lia.
  rewrite take_app_length, drop_app_length. assert (map (Z.lxor (byte_at (slot_key keys) 0)) m = pt) as ->; [|by rewrite bool_decide_eq_true_2].
  unfold m. rewrite map_map. rewrite <- (map_id pt) at 2. apply map_ext. intros b. by rewrite <- Z.lxor_assoc, Z.lxor_nilpotent, Z.lxor_0_l.
Qed.

(** A 1-RTT packet with number 77 and the payload 10, 20, 30, as the transmit record layer writes it. *)
Definition toy_hdr : QUIC_PKT_HDR :=
  mkPktHdr QUIC_PKT_TYPE_1RTT false false 2 false true 0 0 0 (demo_cid [1; 2; 3; 4]) (demo_cid []) [0; 0; 0; 0] None 0 0 None.
Definition toy_qtx : OSSL_QTX :=
  default (mkQtx els_new false 0 [] [] 0 0 None 0 0 [])
    (q ← ossl_qtx_new true 1200 true; fst <$> ossl_qtx_provide_secret hkdf_demo all_ok q L1 QRL_SUITE_AES128GCM None demo_secret).
Definition toy_written : OSSL_QTX * TXE * qtx_result :=
  qtx_write toy_seal toy_aes toy_chacha toy_qtx 77 (mkTxe 1200 []) L1 toy_hdr [mkIov None [10; 20; 30]].
Definition toy_dgram : QUIC_URXE := mkUrxe (txe_data (snd (fst toy_written))) 0 0 false None None 5 9.

Abbreviation toy_step := (qrx_step 64 toy_open toy_aes toy_chacha hkdf_demo None false).
Definition toy_ops : list qrx_op := [QProvide all_ok L1 QRL_SUITE_AES128GCM None demo_secret; QAllow1rtt; QInject toy_dgram; QRead (fun _ _ _ => true)].
Definition toy_qrx (n : nat) : OSSL_QRX := foldl toy_step (w_init 4) (take n toy_ops).

Lemma toy_reach (n : nat) : qrx_runs 64 toy_open toy_aes toy_chacha hkdf_demo None false (w_init 4) (take n toy_ops) = true ->
  qrx_reach 64 toy_open toy_aes toy_chacha hkdf_demo None false 1 (take n toy_ops) (toy_qrx n).
Proof.
  intros Hr. apply (runs_reach _ _ _ _ _ _ _ _ [] (w_init 4)); [|done]. apply (qrx_start _ _ _ _ _ _ _ _ 4 (mkSpaces 0 0 0) 0); [u64_unfold; lia|done|done].
Qed.

Definition toy_rxe : RXE := default (mkRxe 0 0 0 0 zero_hdr 0 None None 0 0 0 0) (qrx_out (toy_qrx 4) !! 0).

Lemma toy_facts : rxe_pn toy_rxe = 77 /\ rxe_key_epoch toy_rxe = 0 /\ ph_data (rxe_hdr toy_rxe) = Some [10; 20; 30] /\
  qrx_out (toy_qrx 4) !! 0 = Some toy_rxe /\ ossl_quic_pkt_type_is_encrypted (ph_type (rxe_hdr toy_rxe)) = true.
Proof. split_and!; by vm_compute. Qed.

(** The secrets given in a history. *)
Definition given (hist : list qrx_op) : list (Z * Z * bytes) :=
  omap (fun op => match op with QProvide _ l suite _ secret => Some (l, suite, secret) | _ => None end) hist.
Lemma given_in (hist : list qrx_op) ok l suite md secret : QProvide ok l suite md secret ∈ hist -> (l, suite, secret) ∈ given hist.
Proof. intros Hin. apply list_elem_of_omap. by eexists. Qed.


(** Before the read: a datagram that is pending. *)
Lemma qrx_read_never_stuck_witness : ux_datagram_id <$> urx_pending (toy_qrx 3) = [9] /\
  exists q' r, ossl_qrx_read_pkt 64 toy_open toy_aes toy_chacha hkdf_demo None false (fun _ _ _ => true) (toy_qrx 3) = Some (q', r) /\
    (r = None -> urx_pending q' = [] /\ rx_pending q' = []).
Proof.
  split; [by vm_compute|].
  apply (qrx_read_never_stuck 64 toy_open toy_aes toy_chacha hkdf_demo hkdf_demo_len None false 1 (take 3 toy_ops)); [apply toy_reach; by vm_compute|by vm_compute].
Defined.
