(* ===== verification/QrxRound.v ===== *)
(** * From one record layer to the other (ssl/quic/quic_record_tx.c, ssl/quic/quic_record_rx.c)

    A packet written by the transmit record layer and processed by the receive record layer of
    the peer comes out with the header fields, the packet number, the key epoch and the payload it was
    written with, whatever stands around it in the datagram; for 1-RTT packets at any
    point of a key update. *)

From S2P Require Import Prelude OsslTime Packet Wire WirePkt Qrl QrlKeys Qtx Ackm Txp Qrx QrxInv QrxKeys.

(** ** What the sender writes *)

(** A header the packetiser gives to the record layer, which fills in key phase, packet number and length. *)
Record sendable (hdr : QUIC_PKT_HDR) : Prop := {
  sd_type : ph_type hdr = QUIC_PKT_TYPE_1RTT \/ ph_type hdr = QUIC_PKT_TYPE_INITIAL \/ ph_type hdr = QUIC_PKT_TYPE_HANDSHAKE;
  sd_partial : ph_partial hdr = false;
  sd_cids : wf_cid (ph_dst hdr) /\ wf_cid (ph_src hdr);
  sd_pn_len : 1 <= ph_pn_len hdr <= 4 /\ zlen (ph_pn hdr) = 4;
  sd_reserved : 0 <= ph_reserved hdr <= 3;
  sd_version : ph_type hdr <> QUIC_PKT_TYPE_1RTT -> ph_version hdr = QUIC_VERSION_1;
  sd_token : token_ok hdr /\ ph_token_len hdr <= INT_MAX }.

Definition sent_hdr (el : OSSL_QRL_ENC_LEVEL) (hdr : QUIC_PKT_HDR) (pn n : Z) : QUIC_PKT_HDR :=
  let h := qtx_fill_hdr hdr (Some el) n in
  let pnb := default [] (ossl_quic_wire_encode_pkt_hdr_pn pn (ph_pn_len hdr)) in
  h <| ph_pn := pnb ++ drop (length pnb) (ph_pn h) |>.

Lemma fill_pn hdr el n : ph_pn (qtx_fill_hdr hdr el n) = ph_pn hdr.
Proof. unfold qtx_fill_hdr. by repeat case_match. Qed.

Lemma sent_proj (el : OSSL_QRL_ENC_LEVEL) (hdr : QUIC_PKT_HDR) (pn n : Z) : let h := sent_hdr el hdr pn n in
  ph_type h = ph_type hdr /\ ph_partial h = ph_partial hdr /\ ph_dst h = ph_dst hdr /\ ph_src h = ph_src hdr /\ ph_pn_len h = ph_pn_len hdr /\
  ph_reserved h = ph_reserved hdr /\ ph_version h = ph_version hdr /\ ph_token h = ph_token hdr /\ ph_token_len h = ph_token_len hdr /\ ph_len h = n /\
  (ph_type hdr = QUIC_PKT_TYPE_1RTT -> ph_key_phase h = negb (Z.land (el_key_epoch el) 1 =? 0)).
Proof.
  unfold sent_hdr, qtx_fill_hdr. destruct (Z.eqb_spec (ph_type hdr) QUIC_PKT_TYPE_1RTT); cbn; split_and!; done.
Qed.

Lemma sent_pn (el : OSSL_QRL_ENC_LEVEL) (hdr : QUIC_PKT_HDR) (pn n : Z) : sendable hdr -> 0 <= pn ->
  exists pnb, ossl_quic_wire_encode_pkt_hdr_pn pn (ph_pn_len hdr) = Some pnb /\ zlen pnb = ph_pn_len hdr /\
    truncated_pn pnb (ph_pn_len hdr) = Some (pn mod 2 ^ (8 * ph_pn_len hdr)) /\ pn_field (sent_hdr el hdr pn n) = pnb.
Proof.
  intros Hs Hpn. destruct (sd_pn_len _ Hs) as [Hl _]. destruct (truncated_encode pn (ph_pn_len hdr) Hpn Hl) as (pnb & He & Hz & Ht).
  exists pnb. split_and!; try done. unfold pn_field. destruct (sent_proj el hdr pn n) as (_ & _ & _ & _ & -> & _).
  unfold sent_hdr. rewrite He. cbn. rewrite take_app_le by (unfold zlen in Hz; lia). apply take_ge. unfold zlen in Hz. lia.
Qed.

Lemma sent_encodable (scid_len : Z) (el : OSSL_QRL_ENC_LEVEL) (hdr : QUIC_PKT_HDR) (pn n : Z) : sendable hdr -> 0 <= pn -> 0 <= n ->
  4 <= n + ph_pn_len hdr <= OSSL_QUIC_VLINT_MAX -> (ph_type hdr = QUIC_PKT_TYPE_1RTT -> cid_id_len (ph_dst hdr) = scid_len) ->
  pn_encodable scid_len (sent_hdr el hdr pn n).
Proof.
  intros Hs Hpn Hn Hlen Hsc. destruct (sent_pn el hdr pn n Hs Hpn) as (pnb & He & Hz & _).
  destruct (sent_proj el hdr pn n) as (P1 & P2 & P3 & P4 & P5 & P6 & P7 & P8 & P9 & P10 & _).
  destruct Hs as [H1 H2 [H3 H4] [H5 H5'] H6 H7 [H8 _]]. split; rewrite ?P1, ?P2, ?P3, ?P4, ?P5, ?P6, ?P7, ?P10; try done; try tauto.
  - unfold sent_hdr. cbn zeta. rewrite fill_pn. replace (ph_pn_len (qtx_fill_hdr hdr (Some el) n)) with (ph_pn_len hdr). rewrite He. cbn. rewrite zlen_app. unfold zlen in *. rewrite length_drop. lia.
  - unfold token_ok. by rewrite P1, P8, P9.
Qed.

Lemma iovec_total_from (iovec : list OSSL_QTX_IOVEC) : forall z, 0 <= z -> z + zlen (iovec_bytes iovec) < U64_MOD ->
  foldl (fun l v => l +u zlen (iov_buf v)) z iovec = z + zlen (iovec_bytes iovec).
Proof.
  induction iovec as [|v iovec IH]; intros z Hz; cbn [foldl]; [unfold iovec_bytes, zlen; cbn; lia|].
  change (iovec_bytes (v :: iovec)) with (iov_buf v ++ iovec_bytes iovec). rewrite zlen_app. intros Hs.
  pose proof (zlen_nonneg (iov_buf v)). pose proof (zlen_nonneg (iovec_bytes iovec)). rewrite IH; rewrite add64_small; lia.
Qed.

Lemma iovec_total (iovec : list OSSL_QTX_IOVEC) : zlen (iovec_bytes iovec) < U64_MOD -> iovec_total_bytes iovec = zlen (iovec_bytes iovec).
Proof. intros Hs. unfold iovec_total_bytes. rewrite iovec_total_from; lia. Qed.

(** A header is short but for its token. *)
Lemma hdr_bytes_bound (scid_len : Z) (h : QUIC_PKT_HDR) : pn_encodable scid_len h -> zlen (hdr_bytes h) <= 75 + ph_token_len h.
Proof.
  intros He. destruct (pe_facts _ _ He) as (Hpf & _ & -> & Hpre). rewrite zlen_app, Hpre, Hpf. pose proof He as [_ _ Hd Hs _ Hn _ _ _ [Hv Htok] [_ Hlen]].
  pose proof (cid_bytes_len _ Hd) as Hdl. pose proof (cid_bytes_len _ Hs) as Hsl. destruct Hd as [Hd _], Hs as [Hs _]. unfold QUIC_MAX_CONN_ID_LEN in *.
  destruct (Z.eq_dec (ph_type h) QUIC_PKT_TYPE_1RTT) as [Ht|Ht]; [unfold hdr_mid; rewrite Ht; cbn [Z.eqb Pos.eqb]; change (QUIC_PKT_TYPE_1RTT =? QUIC_PKT_TYPE_1RTT) with true; cbv iota; lia|].
  assert (Hl : forall v, vlint v -> zlen (venc v) <= 8).
  { intros v Hvl. rewrite (encode_length _ Hvl). unfold ossl_quic_vlint_encode_len. repeat case_match; lia. }
  rewrite (long_mid _ _ He Ht), !zlen_app. unfold cids_layout. rewrite !zlen_app, Hdl, Hsl. change (zlen (be_bytes 4 (ph_version h))) with 4.
  change (zlen [cid_id_len (ph_dst h)]) with 1. change (zlen [cid_id_len (ph_src h)]) with 1.
  pose proof (Hl (ph_len h + ph_pn_len h) ltac:(unfold vlint; lia)). unfold opt_token. destruct (Z.eqb_spec (ph_type h) QUIC_PKT_TYPE_INITIAL) as [Hi|]; [|unfold zlen at 1; cbn; lia].
  rewrite zlen_app, (token_bytes_len h) by (by split). pose proof (Hl (ph_token_len h) (Hv Hi)). lia.
Qed.

Section Round.
Context (sizeof_RXE : Z) (Hsizeof : 0 <= sizeof_RXE < 2 ^ 32).
Context (aead_seal : keyslot -> Z -> bytes -> bytes -> bytes -> option bytes) (aead_open : keyslot -> Z -> bytes -> bytes -> bytes -> aead_result).
Context (EVP_aes_ecb : bytes -> bytes -> option bytes) (EVP_chacha : bytes -> bytes -> bytes -> option bytes).
Context (hkdf_expand : Z -> bytes -> bytes -> Z -> bytes).
Context (validation_cb : option (QUIC_PN -> pn_space -> bool)) (key_update_cb : bool).
(** The AEAD opens what it sealed, the tag is as long as asked for, and the ciphers work. *)
Hypothesis Haead : forall keys tag_len nonce aad pt ct, aead_seal keys tag_len nonce aad pt = Some ct ->
  aead_open keys tag_len nonce aad ct = AeadOk pt /\ zlen ct = zlen pt + tag_len.
Hypothesis Haes : forall key s, zlen s = 16 -> exists out, EVP_aes_ecb key s = Some out /\ zlen out = 16.
Hypothesis Hchacha : forall key s z, zlen s = 16 -> exists out, EVP_chacha key s z = Some out /\ zlen out = zlen z.

Abbreviation process_pkt := (qrx_process_pkt sizeof_RXE aead_open EVP_aes_ecb EVP_chacha hkdf_expand validation_cb key_update_cb).
Abbreviation read_pkt := (ossl_qrx_read_pkt sizeof_RXE aead_open EVP_aes_ecb EVP_chacha hkdf_expand validation_cb key_update_cb).
Abbreviation write := (qtx_write aead_seal EVP_aes_ecb EVP_chacha).

(** A level with a cipher suite and a header protection key. *)
Record level_ready (el : OSSL_QRL_ENC_LEVEL) (hpr_key : bytes) : Prop := {
  lr_suite : is_Some (get_suite (el_suite_id el));
  lr_tag : el_tag_len el = ossl_qrl_get_suite_cipher_tag_len (el_suite_id el);
  lr_hpr : el_hpr el = Some (ossl_qrl_get_suite_hdr_prot_cipher_id (el_suite_id el), hpr_key) }.

Lemma suite_facts (suite : Z) : is_Some (get_suite suite) -> ossl_qrl_get_suite_cipher_tag_len suite = 16 /\
  let id := ossl_qrl_get_suite_hdr_prot_cipher_id suite in
  id = QUIC_HDR_PROT_CIPHER_AES_128 \/ id = QUIC_HDR_PROT_CIPHER_AES_256 \/ id = QUIC_HDR_PROT_CIPHER_CHACHA.
Proof.
  unfold ossl_qrl_get_suite_cipher_tag_len, ossl_qrl_get_suite_hdr_prot_cipher_id. intros [i Hi]. rewrite Hi. revert Hi.
  unfold get_suite. repeat case_match; intros [= <-]; cbn; tauto.
Qed.

(** The packet that a successful write appends: the header, and the sealed payload. *)
Lemma write_spec (qt qt' : OSSL_QTX) (pn : QUIC_PN) (txe txe' : TXE) (l : Z) (hdr : QUIC_PKT_HDR) (iovec : list OSSL_QTX_IOVEC) el hpr_key :
  let payload := iovec_bytes iovec in let h := sent_hdr el hdr pn (zlen payload + 16) in
  write qt pn txe l hdr iovec = (qt', txe', QTX_OK) -> qtx_el qt l = Some el -> level_ready el hpr_key -> sendable hdr -> 0 <= pn ->
  zlen payload <= OSSL_QUIC_VLINT_MAX - 20 -> 4 <= zlen payload + ph_pn_len hdr ->
  exists keys sealed sent, el_cctx el 0 = Some keys /\ sizeof_QUIC_PN <= zlen (slot_iv keys) /\
    aead_seal keys 16 (aead_nonce (slot_iv keys) pn) (hdr_bytes h) payload = Some sealed /\
    ossl_quic_hdr_protector_encrypt (ossl_qrl_get_suite_hdr_prot_cipher_id (el_suite_id el)) (EVP_aes_ecb hpr_key) (EVP_chacha hpr_key)
      (hdr_bytes h ++ sealed) (mkPtrs (Some (1 + zlen (hdr_mid h) + 4)) ((ph_pn_len h + ph_len h - 4) mod U64_MOD) (Some (1 + zlen (hdr_mid h)))) = Some sent /\
    txe_data txe' = txe_data txe ++ sent.
Proof.
  intros payload h Hw Hel [Hsuite Htag Hhpr] Hs Hpn Hmax Hmin. destruct (suite_facts _ Hsuite) as [H16 Hcid]. destruct (sd_pn_len _ Hs) as [Hpl _].
  pose proof (zlen_nonneg payload) as Hnn. assert (Htot : iovec_total_bytes iovec = zlen payload) by (apply iovec_total; fold payload; unfold OSSL_QUIC_VLINT_MAX in *; u64_unfold; lia).
  assert (Hpk : pn_encodable (cid_id_len (ph_dst h)) h).
  { destruct (sent_proj el hdr pn (zlen payload + 16)) as (_ & _ & Hd & _). apply sent_encodable; try done; try lia. intros _. f_equal. symmetry. exact Hd. }
  assert (Henc : ossl_quic_pkt_type_is_encrypted (ph_type hdr) = true) by (by destruct (sd_type _ Hs) as [->|[-> | ->]]).
  revert Hw. unfold qtx_write. rewrite Henc, Hel, Htot. change (bool_decide (Some el = None)) with false. cbn [andb]. fold payload.
  case_match; [done|]. destruct (Z.eqb_spec (zlen payload) 0) as [|Hne]; [done|].
  unfold ossl_qtx_calculate_ciphertext_payload_len. rewrite Hel. cbn [mbind option_bind default]. rewrite H16.
  rewrite (add64_small (zlen payload)) by (unfold OSSL_QUIC_VLINT_MAX in *; u64_unfold; lia). 
  destruct (sent_pn el hdr pn (zlen payload + 16) Hs Hpn) as (pnb & Hpnb & Hz & _).
  change (id (zlen payload + 16)) with (zlen payload + 16). set (h0 := qtx_fill_hdr hdr (Some el) (zlen payload + 16)).
  assert (Hh : h = h0 <| ph_pn := pnb ++ drop (length pnb) (ph_pn h0) |>) by (unfold h, sent_hdr; by rewrite Hpnb).
  assert (Hlen : ossl_quic_wire_get_encoded_pkt_hdr_len (cid_id_len (ph_dst h0)) h0 = zlen (hdr_bytes h)) by (rewrite <- (pn_hdr_len _ _ Hpk), Hh; reflexivity).
  assert (Hty : ph_type h0 = ph_type hdr /\ ph_pn_len h0 = ph_pn_len hdr) by (split; apply (sent_proj el hdr pn (zlen payload + 16))). destruct Hty as [-> ->].
  assert (Hhl : ph_len h = zlen payload + 16) by apply (sent_proj el hdr pn (zlen payload + 16)).
  rewrite Hlen. destruct (zlen (hdr_bytes h) =? 0); [done|]. destruct (Z.ltb_spec (txe_alloc_len txe -u data_len txe) (zlen (hdr_bytes h) +u (zlen payload + 16))) as [|Hspace]; [done|].
  change (ossl_quic_pkt_type_has_pn (ph_type hdr)) with (ossl_quic_pkt_type_is_encrypted (ph_type hdr)). rewrite Henc, Hpnb. rewrite <- Hh.
  unfold qtx_write_hdr. destruct (Z.eqb_spec (txe_alloc_len txe -u data_len txe) 0) as [|H0]; [done|].
  assert (Hsp : zlen (hdr_bytes h) + ph_len h <= txe_alloc_len txe -u data_len txe).
  { rewrite Hhl. rewrite add64_small in Hspace; [done|]. pose proof (hdr_bytes_bound _ _ Hpk). pose proof (zlen_nonneg (hdr_bytes h)).
    destruct (sd_token _ Hs) as [_ Htok]. replace (ph_token_len h) with (ph_token_len hdr) in * by (symmetry; apply (sent_proj el hdr pn (zlen payload + 16))).
    unfold OSSL_QUIC_VLINT_MAX, INT_MAX in *. u64_unfold. lia. }
  assert (Hrep : zlen (replicate (Z.to_nat (txe_alloc_len txe -u data_len txe)) 0) = txe_alloc_len txe -u data_len txe).
  { unfold zlen. rewrite length_replicate. destruct (sub64_u64 (txe_alloc_len txe) (data_len txe)). lia. }
  rewrite (pn_encode _ _ Hpk []) by (rewrite Hrep; done). cbn [wp_done app].
  unfold qtx_encrypt_into_txe. destruct (_ <=? el_op_count el); [done|]. destruct (el_cctx el 0) as [keys|]; [|done]. cbn [mbind option_bind].
  destruct (Z.ltb_spec (zlen (slot_iv keys)) sizeof_QUIC_PN); [done|]. rewrite Htag, H16. destruct (aead_seal _ _ _ _ _) as [sealed|] eqn:Hseal; [|done].
  cbn [mbind option_bind]. rewrite Hhpr. cbn [mbind option_bind]. destruct (ossl_quic_hdr_protector_encrypt _ _ _ _ _) as [sent|] eqn:Hsent; [|done]. intros [= <- <-].
  by exists keys, sealed, sent.
Qed.
(** ** What the receiver reads *)

(** The state but for the free entries, one of which is at hand. *)
Record fit (q q' : OSSL_QRX) : Prop := {
  ft_sl : short_conn_id_len q' = short_conn_id_len q;
  ft_largest : largest_pn q' = largest_pn q;
  ft_els : qrx_el_set q' = qrx_el_set q;
  ft_forged : forged_pkt_count q' = forged_pkt_count q;
  ft_cur : cur_epoch_start_pn q' = cur_epoch_start_pn q;
  ft_allow : allow_1rtt q' = allow_1rtt q;
  ft_pending : rx_pending q' = rx_pending q;
  ft_head : exists r l, rx_free q' = r :: l /\ rxe_refcount r = 0 }.

Lemma fit_trans (a b c : OSSL_QRX) : fit a b -> fit b c -> fit a c.
Proof. intros [A1 A2 A3 A4 A5 A6 A7 _] [B1 B2 B3 B4 B5 B6 B7 B8]. split; try congruence. Qed.

(** An allocation size without overflow. *)
Definition fits (n : Z) : Prop := 0 <= n < 2 ^ 33.

Lemma fits_max (n : Z) : fits n -> (SIZE_MAX -u sizeof_RXE <=? n) = false.
Proof. intros [H1 H2]. apply Z.leb_gt. unfold SIZE_MAX. rewrite sub64_small by (u64_unfold; lia). u64_unfold. lia. Qed.

Lemma ensure_fit (q : OSSL_QRX) (n : Z) : Forall (fun r => rxe_refcount r = 0) (rx_free q) -> fits n ->
  exists q' r, qrx_ensure_free_rxe sizeof_RXE true q n = (q', Some r) /\ fit q q'.
Proof.
  intros Hf Hn. unfold qrx_ensure_free_rxe, qrx_alloc_rxe. destruct (rx_free q) as [|r l] eqn:Hq.
  - rewrite fits_max by done. cbn [negb]. do 2 eexists. split; [reflexivity|]. split; try done. cbn. by eexists _, _.
  - do 2 eexists. split; [reflexivity|]. apply Forall_cons in Hf as [Hf _]. split; try done. by exists r, l.
Qed.

Lemma upd_head_fit (q q' : OSSL_QRX) (f : RXE -> RXE) : keeps_entry f -> fit q q' -> fit q (upd_head q' f).
Proof.
  intros Hf [H1 H2 H3 H4 H5 H6 H7 (r & l & H8 & H9)]. split; try done. unfold upd_head. cbn. rewrite H8. exists (f r), l. split; [done|]. by destruct (Hf r) as [_ ->].
Qed.

Lemma reserve_fit (q q' : OSSL_QRX) (n : Z) : fit q q' -> fits n -> exists q'', qrx_reserve_rxe sizeof_RXE true q' n = (q'', true) /\ fit q q''.
Proof.
  intros Hq Hn. unfold qrx_reserve_rxe, qrx_resize_rxe. destruct (ft_head _ _ Hq) as (r & l & Hr & H0). rewrite Hr. case_match; [by exists q'|].
  rewrite fits_max, H0 by done. cbn [Z.eqb negb]. eexists. split; [reflexivity|]. by apply upd_head_fit.
Qed.

Lemma relocate_fit (q q' : OSSL_QRX) (n : Z) : fit q q' -> fits n ->
  exists q'' i, qrx_relocate_buffer sizeof_RXE true q' 0 n = (q'', Some i) /\ fit q q'' /\ i = n.
Proof.
  intros Hq Hn. unfold qrx_relocate_buffer. destruct (Z.eqb_spec n 0) as [->|]; [by exists q', 0|].
  assert (0 +u n = n) as -> by (apply add64_small; unfold fits in Hn; u64_unfold; lia).
  destruct (reserve_fit q q' n Hq Hn) as (q'' & -> & Hq''). by exists q'', n.
Qed.

(** The receiver's level and the rest of its state are such that the packet can be opened. *)
Record can_open (q : OSSL_QRX) (l : Z) (kp : bool) (pn epoch : Z) (keys : keyslot) (suite : Z) (hpr_key : bytes) : Prop := {
  co_level : 0 <= l < QUIC_ENC_LEVEL_NUM /\ state_prov (el_state (qrx_el_set q l)) = true;
  co_ready : level_ready (qrx_el_set q l) hpr_key /\ el_suite_id (qrx_el_set q l) = suite;
  co_forged : forged_pkt_count q < ossl_qrl_get_suite_max_forged_pkt suite;
  co_slot : exists idx old, qrx_get_cipher_ctx_idx (qrx_el_set q l) l kp = (idx, epoch, old) /\ el_cctx (qrx_el_set q l) idx = Some keys /\
    (old = true -> pn < cur_epoch_start_pn q);
  co_iv : sizeof_QUIC_PN <= zlen (slot_iv keys);
  co_update : is_Some (ossl_qrl_enc_level_set_key_update hkdf_expand (fun _ => false) (qrx_el_set q) QUIC_ENC_LEVEL_1RTT) }.

Lemma can_open_fit (q q' : OSSL_QRX) l kp pn epoch keys suite hpr_key : fit q q' -> can_open q l kp pn epoch keys suite hpr_key ->
  can_open q' l kp pn epoch keys suite hpr_key.
Proof. intros [H1 H2 H3 H4 H5 H6 H7 _] [C1 C2 C3 C4 C5 C6]. split; rewrite ?H3, ?H4, ?H5; done. Qed.

Lemma decrypt_opens (q : OSSL_QRX) (l : Z) (kp : bool) (pn epoch : Z) keys suite hpr_key (hdr payload sealed : bytes) :
  can_open q l kp pn epoch keys suite hpr_key -> aead_seal keys 16 (aead_nonce (slot_iv keys) pn) hdr payload = Some sealed ->
  0 < zlen payload -> zlen sealed <= INT_MAX -> zlen hdr <= INT_MAX ->
  qrx_decrypt_pkt_body aead_open q sealed hdr pn l kp = Some (q, Some (payload, epoch)).
Proof.
  intros [[Hl Hp] [[H1 H2 _] Hsuite] Hforged (idx & old & Hidx & Hslot & Hold) Hiv _] Hseal Hpay Hsl Hh. destruct (Haead _ _ _ _ _ _ Hseal) as [Hopen Hz].
  unfold qrx_decrypt_pkt_body. rewrite (proj2 (Z.ltb_ge _ _)), (proj2 (Z.ltb_ge _ _)) by done. cbn [orb].
  unfold ossl_qrl_enc_level_set_get. rewrite (proj2 (Z.leb_gt _ _)), Hp by lia. cbn [andb negb].
  destruct (suite_facts _ H1) as [H16 _]. rewrite H2, H16, (proj2 (Z.leb_gt _ _)) by lia. rewrite Hsuite, (proj2 (Z.leb_gt _ _)) by done.
  rewrite Hidx. assert (old && (cur_epoch_start_pn q <=? pn) = false) as -> by (destruct old; [apply Z.leb_gt; by apply Hold|done]).
  rewrite Hslot. cbn [mbind option_bind]. rewrite (proj2 (Z.ltb_ge _ _)) by done. by rewrite Hopen.
Qed.
Abbreviation open_pkt := (qrx_open_pkt sizeof_RXE aead_open hkdf_expand validation_cb key_update_cb).
Abbreviation unprotect_pkt := (qrx_unprotect_pkt sizeof_RXE aead_open EVP_aes_ecb EVP_chacha hkdf_expand validation_cb key_update_cb).

Definition all_alloc (n : nat) : bool := true.

(** The entry of the delivered packet. *)
Record delivered (h : QUIC_PKT_HDR) (payload : bytes) (pn epoch : Z) (rxe : RXE) : Prop := {
  dl_hdr : recovered h (rxe_hdr rxe) payload;
  dl_pn : rxe_pn rxe = pn;
  dl_epoch : rxe_key_epoch rxe = epoch }.

Lemma recovered_data (h h2 : QUIC_PKT_HDR) (body payload : bytes) : recovered h h2 body -> ph_type h <> QUIC_PKT_TYPE_RETRY ->
  recovered h (h2 <| ph_data := Some payload |> <| ph_len := zlen payload |>) payload.
Proof.
  intros [R1 R2 R3 R4 R5 R6 R7 R8 R9 _] Ht. split; try done. cbn. by rewrite (proj2 (Z.eqb_neq _ _)).
Qed.

Lemma update_fit (q : OSSL_QRX) (pn : Z) (b : bool) : is_Some (ossl_qrl_enc_level_set_key_update hkdf_expand (fun _ => false) (qrx_el_set q) QUIC_ENC_LEVEL_1RTT) ->
  exists q', (if b then qrx_key_update_initiated hkdf_expand key_update_cb q pn else Some q) = Some q' /\
    rx_pending q' = rx_pending q /\ rx_free q' = rx_free q.
Proof.
  intros [[els r] Hu]. destruct b; [|by exists q]. unfold qrx_key_update_initiated. rewrite Hu. cbn [mbind option_bind].
  destruct r; cbn [negb]; by eexists.
Qed.

Lemma open_delivers (q0 q : OSSL_QRX) (e : QUIC_URXE) (idx i l dl : Z) (h h2 : QUIC_PKT_HDR) (pn epoch : Z) keys suite hpr_key (payload sealed tl : bytes) :
  fit q0 q -> can_open q0 l (ph_key_phase h2) pn epoch keys suite hpr_key -> recovered h h2 sealed -> ph_type h <> QUIC_PKT_TYPE_RETRY ->
  aead_seal keys 16 (aead_nonce (slot_iv keys) pn) (hdr_bytes h) payload = Some sealed ->
  0 < zlen payload -> zlen sealed <= INT_MAX -> zlen (hdr_bytes h) <= INT_MAX -> 0 <= i <= INT_MAX ->
  qrx_validate_hdr q0 h2 = Some pn -> qrx_validate_hdr_late validation_cb pn (rxe_determine_pn_space h2) = true ->
  exists q' rxe, open_pkt all_alloc q e idx h2 (hdr_bytes h ++ sealed ++ tl) (zlen (hdr_bytes h)) i l dl = Some (q', mark_processed e idx, Processed) /\
    rx_pending q' = rx_pending q0 ++ [rxe] /\ delivered h payload pn epoch rxe.
Proof.
  intros Hq Hco Hrec Hret Hseal Hpay Hsl Hhl Hi Hpn Hlate. destruct (rc_data _ _ _ Hrec) as [Hdata Hlen]. rewrite (proj2 (Z.eqb_neq _ _)) in Hdata by done.
  rewrite Hdata in Hlen. cbn in Hlen. unfold qrx_open_pkt, all_alloc.
  assert (qrx_validate_hdr q h2 = Some pn) as -> by (unfold qrx_validate_hdr in *; by rewrite (ft_largest _ _ Hq)).
  pose proof (zlen_nonneg sealed). assert (Hn : fits (ph_len h2 +u i)) by (rewrite Hlen; unfold fits, INT_MAX in *; rewrite add64_small; u64_unfold; lia).
  destruct (reserve_fit q0 q _ Hq Hn) as (q1 & -> & Hq1). rewrite Hdata. change (default [] (Some sealed)) with sealed. assert (take (Z.to_nat (zlen (hdr_bytes h))) (hdr_bytes h ++ sealed ++ tl) = hdr_bytes h) as ->.
  { unfold zlen. rewrite Nat2Z.id. apply take_app_length. }
  pose proof (can_open_fit _ _ _ _ _ _ _ _ _ Hq1 Hco) as Hco1. rewrite (decrypt_opens q1 _ _ _ _ _ _ _ _ _ _ Hco1 Hseal) by done. cbn [mbind option_bind].
  rewrite Hlate. cbn [negb]. set (b := _ && negb (_ =? Z.land _ 1)).
  destruct (update_fit q1 pn b (co_update _ _ _ _ _ _ _ _ Hco1)) as (q2 & -> & Hp2 & Hf2). cbn [mbind option_bind].
  destruct (ft_head _ _ Hq1) as (r & lf & Hr & _). set (q3 := if _ <? pn then _ else _).
  assert (H3 : rx_pending q3 = rx_pending q0 /\ rx_free q3 = r :: lf).
  { rewrite <- (ft_pending _ _ Hq1), <- Hr, <- Hp2, <- Hf2. subst q3. by destruct (_ <? pn). }
  destruct H3 as [Hp3 Hf3]. do 2 eexists. split; [reflexivity|]. unfold qrx_deliver. rewrite Hf3. cbn. rewrite Hp3. split; [reflexivity|].
  split; cbn; try done. by eapply recovered_data.
Qed.
Lemma pn_hdr_proj (h old : QUIC_PKT_HDR) (partial : bool) (pnb body : bytes) : let h' := pn_hdr h old partial pnb body in
  ph_type h' = ph_type h /\ (ph_type h = QUIC_PKT_TYPE_1RTT -> ph_version h' = 0) /\ (ph_type h <> QUIC_PKT_TYPE_1RTT -> ph_version h' = ph_version h) /\
  ph_dst h' = new_cid (ph_dst old) (ph_dst h) /\ (ph_type h = QUIC_PKT_TYPE_INITIAL -> ph_token_len h' = ph_token_len h) /\
  (ph_type h = QUIC_PKT_TYPE_1RTT -> ph_key_phase h' = if partial then false else ph_key_phase h).
Proof.
  unfold pn_hdr, v1_hdr. destruct (Z.eqb_spec (ph_type h) QUIC_PKT_TYPE_1RTT) as [He|He]; cbn; split_and!; try done; try (by rewrite He).
  unfold opt_tok. intros ->. done.
Qed.

(** The packet is not rejected for its header: it is the first of its datagram or addressed like the first. *)
Definition same_dcid (idx : Z) (fd : QUIC_CONN_ID) (h : QUIC_PKT_HDR) : Prop :=
  idx <> 0 -> cid_id_len fd < QUIC_MAX_CONN_ID_LEN /\ cid_id_len fd = cid_id_len (ph_dst h) /\ cid_bytes fd = cid_bytes (ph_dst h).

Lemma early_ok (idx : Z) (fd : QUIC_CONN_ID) (h h1 : QUIC_PKT_HDR) (scid_len : Z) old pnb body : pn_encodable scid_len h -> ph_type h <> QUIC_PKT_TYPE_0RTT ->
  h1 = pn_hdr h old true pnb body -> same_dcid idx fd h ->
  qrx_validate_hdr_early h1 (if idx =? 0 then None else Some (if idx =? 0 then ph_dst h1 else fd)) = true.
Proof.
  intros He H0 -> Hd. destruct (pn_hdr_proj h old true pnb body) as (P1 & P2 & P3 & P4 & _). pose proof He as [Ht _ Hw _ _ _ _ _ Hv _ _].
  unfold qrx_validate_hdr_early. rewrite P1, (proj2 (Z.eqb_neq _ _) H0).
  assert (negb (ph_version (pn_hdr h old true pnb body) =? QUIC_VERSION_1) && negb (ph_version (pn_hdr h old true pnb body) =? QUIC_VERSION_NONE) = false) as ->.
  { destruct (Z.eq_dec (ph_type h) QUIC_PKT_TYPE_1RTT) as [H1|H1]; [by rewrite P2|by rewrite P3, Hv]. }
  destruct (Z.eqb_spec idx 0) as [|Hi]; [done|]. destruct (Hd Hi) as (D1 & D2 & D3).
  assert (ossl_quic_pkt_type_can_share_dgram (ph_type h) = true) as -> by (by destruct Ht as [->|[->|[->| ->]]]). cbn [negb].
  rewrite (proj2 (Z.ltb_lt _ _)) by done. cbn [andb]. unfold ossl_quic_conn_id_eq. rewrite P4. cbn [new_cid cid_id_len]. rewrite D2, Z.eqb_refl. cbn [negb orb].
  rewrite (proj2 (Z.ltb_ge _ _)) by lia. apply bool_decide_eq_true. rewrite <- D2 at 1. fold (cid_bytes fd). rewrite D3. symmetry. exact (new_cid_bytes (ph_dst old) _ Hw).
Qed.

(** With a destination connection ID of the largest length RFC 9000 allows, every packet after the first of a datagram is dropped. *)
Lemma max_cid_not_coalesced (h : QUIC_PKT_HDR) (fd : QUIC_CONN_ID) : cid_id_len fd = QUIC_MAX_CONN_ID_LEN -> qrx_validate_hdr_early h (Some fd) = false.
Proof. intros Hl. unfold qrx_validate_hdr_early. rewrite Hl. by repeat case_match. Qed.

(** One packet of a datagram, at the offset where the sender put it, whatever comes before and after it. *)
Record receives (q : OSSL_QRX) (idx : Z) (fd : QUIC_CONN_ID) (h : QUIC_PKT_HDR) (pn epoch : Z) keys suite hpr_key (payload sealed : bytes) : Prop := {
  rv_enc : pn_encodable (short_conn_id_len q) h /\ ph_type h <> QUIC_PKT_TYPE_0RTT /\ ph_len h = zlen sealed /\ ph_token_len h <= INT_MAX;
  rv_free : Forall (fun r => rxe_refcount r = 0) (rx_free q);
  rv_dcid : same_dcid idx fd h;
  rv_1rtt : ph_type h = QUIC_PKT_TYPE_1RTT -> allow_1rtt q = true;
  rv_open : forall kp, (ph_type h = QUIC_PKT_TYPE_1RTT -> kp = ph_key_phase h) -> can_open q (qrx_determine_enc_level h) kp pn epoch keys suite hpr_key;
  rv_seal : aead_seal keys 16 (aead_nonce (slot_iv keys) pn) (hdr_bytes h) payload = Some sealed;
  rv_payload : 0 < zlen payload;
  rv_pn : forall h2, ph_type h2 = ph_type h -> ph_pn_len h2 = ph_pn_len h -> take (Z.to_nat (ph_pn_len h)) (ph_pn h2) = pn_field h ->
    qrx_validate_hdr q h2 = Some pn /\ qrx_validate_hdr_late validation_cb pn (rxe_determine_pn_space h2) = true }.

Lemma hdr_sizes (h : QUIC_PKT_HDR) (b1 : Z) (pnb' sealed tl : bytes) scid_len : pn_encodable scid_len h -> zlen pnb' = ph_pn_len h ->
  zlen (split_pkt b1 (hdr_mid h) pnb' (sealed ++ tl)) = zlen (hdr_bytes h ++ sealed ++ tl).
Proof. intros He Hz. destruct (pe_facts _ _ He) as (Hpf & _). by rewrite (hdr_split scid_len), !split_len, Hpf, Hz. Qed.

Lemma unprotect_delivers (q0 q : OSSL_QRX) (e : QUIC_URXE) (tl sop : bytes) (off eop idx dl : Z) fd (h h1 : QUIC_PKT_HDR) ptrs1 ptrs2 (pn epoch : Z) keys suite hpr_key (payload sealed : bytes) :
  receives q0 idx fd h pn epoch keys suite hpr_key payload sealed -> fit q0 q ->
  let l := qrx_determine_enc_level h in
  drop (Z.to_nat off) (ux_data e) = sop -> 0 <= off <= zlen (ux_data e) -> zlen sop = zlen (hdr_bytes h ++ sealed ++ tl) -> zlen (hdr_bytes h ++ sealed ++ tl) <= INT_MAX ->
  ph_type h1 = ph_type h -> (ph_type h = QUIC_PKT_TYPE_INITIAL -> ph_token_len h1 = ph_token_len h) ->
  ossl_quic_hdr_protector_decrypt (ossl_qrl_get_suite_hdr_prot_cipher_id suite) (EVP_aes_ecb hpr_key) (EVP_chacha hpr_key) sop ptrs1 = Some (hdr_bytes h ++ sealed ++ tl) ->
  ossl_quic_wire_decode_pkt_hdr (hdr_bytes h ++ sealed ++ tl) (short_conn_id_len q0) false false h1 = (Some (pn_hdr h h1 false (pn_field h) sealed, ptrs2, tl), 0) ->
  exists q' e' rxe, unprotect_pkt all_alloc q e (short_conn_id_len q0) off eop idx h1 ptrs1 true l dl =
      Some (q', e', Processed, off + (zlen (hdr_bytes h) + zlen sealed)) /\
    zlen (ux_data e') = zlen (ux_data e) /\ rx_pending q' = rx_pending q0 ++ [rxe] /\ delivered h payload pn epoch rxe.
Proof.
  intros [(Hpk & H0rtt & Hlen & Htok) Hfree Hdcid H1rtt Hopen Hseal Hpay Hpn] Hq l Hsop Hoff Hsz Hmax Hty1 Htl1 Hdec Hd2.
  set (h2 := pn_hdr h h1 false (pn_field h) sealed) in *. pose proof (pn_recovered _ _ h1 sealed Hpk) as Hrec. fold h2 in Hrec.
  destruct (pn_hdr_proj h h1 false (pn_field h) sealed) as (P1 & _ & _ & _ & _ & P6). fold h2 in P1, P6.
  assert (Hco : can_open q0 l (ph_key_phase h2) pn epoch keys suite hpr_key) by (apply Hopen; intros Ht; by apply P6).
  assert (Hret : ph_type h <> QUIC_PKT_TYPE_RETRY) by (by destruct (pe_type _ _ Hpk) as [->|[->|[->| ->]]]).
  assert (Hval : qrx_validate_hdr q0 h2 = Some pn /\ qrx_validate_hdr_late validation_cb pn (rxe_determine_pn_space h2) = true).
  { destruct (rc_pn _ _ _ Hrec) as (R1 & R2 & _); [by eapply pe_has_pn|]. apply Hpn; [done|done|]. unfold pn_field at 1 in R2. by rewrite R1 in R2. }
  assert (Htok0 : 0 <= ph_token_len h) by (apply (pe_token _ _ Hpk)). rewrite !(zlen_app (hdr_bytes h)), (zlen_app sealed) in Hmax.
  pose proof (zlen_nonneg (hdr_bytes h)). pose proof (zlen_nonneg sealed). pose proof (zlen_nonneg tl).
  unfold qrx_unprotect_pkt. rewrite Hty1, Hsop.
  assert (Hrel : exists q1 i, (if ph_type h =? QUIC_PKT_TYPE_INITIAL then qrx_relocate_buffer sizeof_RXE (all_alloc 1) q 0 (ph_token_len h1) else (q, Some 0)) = (q1, Some i) /\
    fit q0 q1 /\ 0 <= i <= INT_MAX).
  { destruct (Z.eqb_spec (ph_type h) QUIC_PKT_TYPE_INITIAL) as [Hi|]; [|by exists q, 0]. rewrite (Htl1 Hi). change (all_alloc 1) with true.
    destruct (relocate_fit q0 q (ph_token_len h) Hq) as (q1 & i & -> & Hq1 & ->); [unfold fits, INT_MAX in *; lia|]. by exists q1, (ph_token_len h). }
  destruct Hrel as (q1 & i & -> & Hq1 & Hi). destruct (co_level _ _ _ _ _ _ _ _ Hco) as [Hl Hprov]. destruct (co_ready _ _ _ _ _ _ _ _ Hco) as [[_ _ Hhpr] Hsuite].
  unfold ossl_qrl_enc_level_set_get. rewrite (proj2 (Z.leb_gt _ _)) by lia. rewrite (ft_els _ _ Hq1), Hprov. cbn [andb negb mbind option_bind].
  rewrite Hhpr, Hsuite. cbn [mbind option_bind]. rewrite Hdec, Hd2.
  assert (Hn : zlen (hdr_bytes h ++ sealed ++ tl) - zlen tl = zlen (hdr_bytes h) + zlen sealed) by (rewrite !zlen_app; lia). rewrite Hn.
  assert (Hl2 : ph_len h2 = zlen sealed).
  { destruct (rc_data _ _ _ Hrec) as [Hd Hdl]. by rewrite Hdl, Hd, (proj2 (Z.eqb_neq _ _)). }
  replace (zlen (hdr_bytes h) + zlen sealed - ph_len h2) with (zlen (hdr_bytes h)) by lia.
  match goal with |- context [qrx_open_pkt _ _ _ _ _ _ ?q2 ?e2 _ _ _ _ ?i _ _] =>
    destruct (open_delivers q0 q2 e2 idx i l dl h h2 pn epoch keys suite hpr_key payload sealed tl) as (q3 & rxe & Ho & Hp & Hdl) end; try done; try (unfold INT_MAX in *; lia); try apply Hval.
  { by apply upd_head_fit. }
  rewrite Ho. cbn [mbind option_bind]. do 3 eexists. split; [reflexivity|]. split; [|done]. change (zlen (take (Z.to_nat off) (ux_data e) ++ hdr_bytes h ++ sealed ++ tl) = zlen (ux_data e)).
  rewrite zlen_app, zlen_take, <- Hsz, <- Hsop, zlen_drop; lia.
Qed.

Lemma fate_processed (q q' : OSSL_QRX) (h : QUIC_PKT_HDR) : fit q q' -> state_prov (el_state (qrx_el_set q (qrx_determine_enc_level h))) = true ->
  (ph_type h = QUIC_PKT_TYPE_1RTT -> allow_1rtt q = true) -> qrx_fate_of_level q' (qrx_determine_enc_level h) = Some Processed.
Proof.
  intros Hq Hp Ha. pose proof (enc_level_range h). unfold qrx_fate_of_level, ossl_qrl_enc_level_set_have_el, ossl_qrl_enc_level_set_get.
  rewrite (proj2 (Z.leb_gt _ _)) by lia. cbn [andb mbind option_bind]. rewrite (ft_els _ _ Hq), (ft_allow _ _ Hq), Hp.
  destruct (Z.eqb_spec (el_state (qrx_el_set q (qrx_determine_enc_level h))) QRL_EL_STATE_UNPROV) as [Hu|]; [by rewrite Hu in Hp|]. cbn [Z.eqb Pos.eqb].
  assert ((qrx_determine_enc_level h =? QUIC_ENC_LEVEL_1RTT) && negb (allow_1rtt q) = false) as ->; [|done].
  unfold qrx_determine_enc_level. repeat (case_match; [done|]). case_match; [rewrite Ha by lia|]; done.
Qed.

Lemma process_delivers (q : OSSL_QRX) (e : QUIC_URXE) (pre sent tl : bytes) (idx dl : Z) fd (h : QUIC_PKT_HDR) (pn epoch : Z) keys suite hpr_key (payload sealed : bytes) :
  receives q idx fd h pn epoch keys suite hpr_key payload sealed ->
  ossl_quic_hdr_protector_encrypt (ossl_qrl_get_suite_hdr_prot_cipher_id suite) (EVP_aes_ecb hpr_key) (EVP_chacha hpr_key)
    (hdr_bytes h ++ sealed) (mkPtrs (Some (1 + zlen (hdr_mid h) + 4)) ((ph_pn_len h + ph_len h - 4) mod U64_MOD) (Some (1 + zlen (hdr_mid h)))) = Some sent ->
  20 <= ph_pn_len h + ph_len h -> ux_data e = pre ++ sent ++ tl -> zlen (ux_data e) <= INT_MAX -> (ph_type h = QUIC_PKT_TYPE_1RTT -> tl = []) ->
  pkt_is_marked (ux_processed e) idx = false -> pkt_is_marked (ux_hpr_removed e) idx = false ->
  exists q' e' fd' rxe, process_pkt all_alloc q e (zlen pre) idx fd dl = Some (q', e', zlen pre + zlen sent, fd', false) /\
    21 <= zlen sent /\ zlen (ux_data e') = zlen (ux_data e) /\ rx_pending q' = rx_pending q ++ [rxe] /\ delivered h payload pn epoch rxe.
Proof.
  intros [(Hpk & H0rtt & Hlen & Htok) Hfree Hdcid H1rtt Hopen Hseal Hpay Hpn] Hsent H20 Hdata Hmax Htl Hmp Hmh.
  pose proof (Hopen (ph_key_phase h) ltac:(done)) as Hco. destruct (co_level _ _ _ _ _ _ _ _ Hco) as [Hl Hprov]. destruct (co_ready _ _ _ _ _ _ _ _ Hco) as [[Hs _ _] Hsuite].
  rewrite Hsuite in Hs. destruct (suite_facts _ Hs) as [_ Hcid].
  destruct (protected_packet _ _ _ Hcid (Haes hpr_key) (Hchacha hpr_key) _ h sealed Hpk ltac:(done) H20) as (b1 & pnb' & Hz & Hsent' & Hrecv).
  rewrite Hsent' in Hsent. injection Hsent as <-. clear Hsent'. set (sent := split_pkt b1 (hdr_mid h) pnb' sealed) in *.
  assert (Hcat : sent ++ tl = split_pkt b1 (hdr_mid h) pnb' (sealed ++ tl)) by (unfold sent, split_pkt; cbn [app]; by rewrite <- !app_assoc).
  assert (Hsz : zlen (sent ++ tl) = zlen (hdr_bytes h ++ sealed ++ tl)) by (rewrite Hcat; by eapply hdr_sizes).
  assert (Hsop : drop (Z.to_nat (zlen pre)) (ux_data e) = sent ++ tl) by (rewrite Hdata; unfold zlen; rewrite Nat2Z.id; apply drop_app_length).
  rewrite Hdata, (zlen_app pre), Hsz in Hmax. pose proof (zlen_nonneg pre). pose proof (zlen_nonneg (hdr_bytes h ++ sealed ++ tl)).
  unfold qrx_process_pkt. rewrite Hsop. destruct (ensure_fit q (zlen (sent ++ tl)) Hfree) as (q1 & r & Hr & Hq1); [rewrite Hsz; unfold fits, INT_MAX in *; lia|].
  unfold all_alloc at 1. rewrite Hr, Hmp, Hmh, (ft_sl _ _ Hq1). cbn [negb].
  destruct (Hrecv tl (rxe_hdr r) (pn_hdr h (rxe_hdr r) true pnb' sealed) Htl ltac:(unfold INT_MAX in *; u64_unfold; lia)) as (ptrs1 & ptrs2 & Hd1 & Hdec & Hd2).
  rewrite Hcat, Hd1. set (h1 := pn_hdr h (rxe_hdr r) true pnb' sealed) in *. destruct (pn_hdr_proj h (rxe_hdr r) true pnb' sealed) as (P1 & _ & _ & _ & P5 & _). fold h1 in P1, P5.
  rewrite (early_ok idx fd h h1 _ _ _ _ Hpk H0rtt eq_refl Hdcid). cbn [negb orb].
  rewrite P1. assert (ossl_quic_pkt_type_is_encrypted (ph_type h) = true) as -> by (by destruct (pe_type _ _ Hpk) as [->|[->|[->| ->]]]). cbn [negb].
  rewrite (level_of_type h h1 P1). assert (Hq2 : fit q (upd_head q1 (fun rxe => rxe <| rxe_hdr := h1 |>))) by (by apply upd_head_fit).
  rewrite (fate_processed q) by done. cbn [mbind option_bind]. rewrite (ft_sl _ _ Hq2).
  destruct (unprotect_delivers q (upd_head q1 (fun rxe => rxe <| rxe_hdr := h1 |>)) e tl (split_pkt b1 (hdr_mid h) pnb' (sealed ++ tl)) (zlen pre)
    (zlen (ux_data e) - zlen tl) idx dl fd h h1 ptrs1 ptrs2 pn epoch keys suite hpr_key payload sealed) as (q3 & e3 & rxe & Hu & Hel & Hp & Hdel); try done.
  { by rewrite Hsop. }
  { rewrite Hdata, zlen_app. pose proof (zlen_nonneg (sent ++ tl)). lia. }
  { by rewrite <- Hcat. }
  { lia. }
  change (fun n : nat => all_alloc n) with all_alloc. rewrite Hu. cbn [mbind option_bind]. eexists q3, e3, _, rxe.
  split; [|split; [unfold sent; rewrite split_len, Hz; pose proof (zlen_nonneg (hdr_mid h)); lia|done]]. do 4 f_equal.
  unfold sent. rewrite split_len. destruct (pe_facts _ _ Hpk) as (Hpf & _). revert Hsz. unfold sent. rewrite !zlen_app, split_len. lia.
Qed.
(** ** Keys of the two ends *)

Lemma truncated_take (e : bytes) (len : Z) : 1 <= len <= 4 -> truncated_pn e len = truncated_pn (take (Z.to_nat len) e) len.
Proof.
  intros Hl. assert (Hb : forall i, (i < Z.to_nat len)%nat -> byte_at (take (Z.to_nat len) e) i = byte_at e i).
  { intros i Hi. unfold byte_at. rewrite !nth_lookup. by rewrite lookup_take_lt. }
  assert (len = 1 \/ len = 2 \/ len = 3 \/ len = 4) as [->|[->|[->| ->]]] by lia; unfold truncated_pn; rewrite !Hb by lia; done.
Qed.

Lemma phase_bit (e : Z) : b2z (negb (Z.land e 1 =? 0)) = Z.land e 1.
Proof. change 1 with (Z.ones 1). rewrite Z.land_ones by lia. pose proof (Z.mod_pos_bound e (2 ^ 1)). destruct (Z.eqb_spec (e mod 2 ^ 1) 0); cbn [negb b2z]; lia. Qed.

(** The receiver is at the epoch of the sender, has not seen the sender's key update yet, or has and gets a packet from before it. *)
Definition epochs_meet (etx : Z) (erx : OSSL_QRL_ENC_LEVEL) (pn cur : Z) : Prop :=
  etx = el_key_epoch erx \/ (etx = el_key_epoch erx + 1 /\ el_state erx = QRL_EL_STATE_PROV_NORMAL) \/
  (etx = el_key_epoch erx - 1 /\ el_state erx = QRL_EL_STATE_PROV_UPDATING /\ pn < cur).

Lemma slot_meets (c : qrl_cfg) (erx : OSSL_QRL_ENC_LEVEL) (etx pn cur : Z) (kp : bool) : level_ok hkdf_expand false c erx ->
  state_prov (el_state erx) = true -> etx <= UINT64_MAX -> epochs_meet etx erx pn cur -> kp = negb (Z.land etx 1 =? 0) ->
  exists idx old, qrx_get_cipher_ctx_idx erx QUIC_ENC_LEVEL_1RTT kp = (idx, etx, old) /\ el_cctx erx idx = Some (epoch_keys hkdf_expand c etx) /\
    (old = true -> pn < cur).
Proof.
  intros Ho Hp Hmax Hm ->. destruct (lo_rx _ _ _ _ Ho eq_refl) as (Hcur & Hn & Hu & _). destruct (lo_epoch _ _ _ _ Ho) as [Hbit He].
  unfold slot_has, cur_slot, epochs_meet in *. unfold qrx_get_cipher_ctx_idx. change (QUIC_ENC_LEVEL_1RTT =? QUIC_ENC_LEVEL_1RTT) with true. cbn [negb]. rewrite phase_bit.
  set (e := el_key_epoch erx) in *. assert (Hprev : Z.land (e - 1) 1 = 1 - Z.land e 1) by (pose proof (next_slot (e - 1)) as Hns; rewrite Z.sub_add in Hns; lia).
  assert (Hx : Z.lxor (Z.land e 1) (1 - Z.land e 1) = 1).
  { pose proof (cur_range erx) as Hr. unfold cur_slot in Hr. fold e in Hr. assert (Z.land e 1 = 0 \/ Z.land e 1 = 1) as [-> | ->] by lia; done. }
  destruct Hm as [->|[[-> Hst]|(-> & Hst & Hpn)]].
  - rewrite Z.lxor_nilpotent. destruct (Z.eqb_spec (el_state erx) QRL_EL_STATE_PROV_NORMAL) as [Hst|].
    { rewrite Hst. do 2 eexists. split; [rewrite add64_small, Z.add_0_r by (u64_unfold; lia); reflexivity|done]. }
    destruct (Z.eqb_spec (el_state erx) QRL_EL_STATE_PROV_UPDATING) as [Hst|].
    { rewrite Hst. do 2 eexists. split; [rewrite sub64_small, Z.sub_0_r by (u64_unfold; lia); reflexivity|done]. }
    destruct (Z.eqb_spec (el_state erx) QRL_EL_STATE_PROV_COOLDOWN) as [Hst|]; [by do 2 eexists|]. exfalso. unfold state_prov in Hp. lia.
  - rewrite next_slot, Hx, Hst. do 2 eexists. split; [rewrite add64_small by (u64_unfold; lia); reflexivity|]. split; [by apply Hn|done].
  - destruct (Hu Hst) as [Hold Hlt]. rewrite Hprev, Hx, Hst. do 2 eexists. split; [rewrite sub64_small by (u64_unfold; lia); reflexivity|]. by split.
Qed.

Lemma update_some (els : OSSL_QRL_ENC_LEVEL_SET) :
  (el_state (els QUIC_ENC_LEVEL_1RTT) = QRL_EL_STATE_PROV_NORMAL -> el_is_tx (els QUIC_ENC_LEVEL_1RTT) = false) ->
  is_Some (ossl_qrl_enc_level_set_key_update hkdf_expand (fun _ => false) els QUIC_ENC_LEVEL_1RTT).
Proof.
  intros Ho. unfold ossl_qrl_enc_level_set_key_update. change (ossl_qrl_enc_level_set_get els QUIC_ENC_LEVEL_1RTT false) with (Some (els QUIC_ENC_LEVEL_1RTT)).
  cbv iota beta. change (QUIC_ENC_LEVEL_1RTT =? QUIC_ENC_LEVEL_1RTT) with true. cbn [negb].
  destruct (Z.eqb_spec (el_state (els QUIC_ENC_LEVEL_1RTT)) QRL_EL_STATE_PROV_NORMAL) as [Hst|]; [by rewrite (Ho Hst)|done].
Qed.

(** Both levels were provisioned with the secret of [c]: below 1-RTT they are as provisioning left them, at 1-RTT at epochs
    of one schedule that meet. *)
Definition keys_meet (l : Z) (c : qrl_cfg) (el erx : OSSL_QRL_ENC_LEVEL) (pn cur : Z) : Prop :=
  if l =? QUIC_ENC_LEVEL_1RTT
  then level_ok hkdf_expand true c el /\ level_ok hkdf_expand false c erx /\ state_prov (el_state erx) = true /\ epochs_meet (el_key_epoch el) erx pn cur
  else provisioned hkdf_expand c el /\ provisioned hkdf_expand c erx.

Definition epoch_of (l : Z) (el : OSSL_QRL_ENC_LEVEL) : Z := if l =? QUIC_ENC_LEVEL_1RTT then el_key_epoch el else 0.

Lemma meet_can_open (q : OSSL_QRX) (l : Z) (c : qrl_cfg) (el : OSSL_QRL_ENC_LEVEL) (kp : bool) (pn : Z) keys hpr_key : 0 <= l < QUIC_ENC_LEVEL_NUM ->
  keys_meet l c el (qrx_el_set q l) pn (cur_epoch_start_pn q) -> level_ready (qrx_el_set q l) hpr_key ->
  (l = QUIC_ENC_LEVEL_1RTT -> kp = negb (Z.land (el_key_epoch el) 1 =? 0)) -> el_cctx el 0 = Some keys -> sizeof_QUIC_PN <= zlen (slot_iv keys) ->
  forged_pkt_count q < ossl_qrl_get_suite_max_forged_pkt (el_suite_id el) ->
  (el_state (qrx_el_set q QUIC_ENC_LEVEL_1RTT) = QRL_EL_STATE_PROV_NORMAL -> el_is_tx (qrx_el_set q QUIC_ENC_LEVEL_1RTT) = false) ->
  can_open q l kp pn (epoch_of l el) keys (el_suite_id el) hpr_key.
Proof.
  unfold keys_meet, epoch_of. intros Hl Hm Hr Hkp Hk Hiv Hforged Hupd. destruct (Z.eqb_spec l QUIC_ENC_LEVEL_1RTT) as [->|Hne].
  - destruct Hm as (Htx & Hrx & Hp & He). destruct (lo_tx _ _ _ _ Htx eq_refl) as [_ [Hn|Hslot]]; [by rewrite Hn in Hk|].
    unfold slot_has in Hslot. rewrite Hslot in Hk. injection Hk as <-. destruct (lo_epoch _ _ _ _ Htx) as [_ Hmax].
    split; try done; [by rewrite (lo_suite _ _ _ _ Htx), (lo_suite _ _ _ _ Hrx)|apply slot_meets; [done|done|lia|done|by apply Hkp]|by apply update_some].
  - destruct Hm as [[P1 P2 P3 P4] [R1 R2 R3 R4]]. change (el_cctx0 el) with (el_cctx el 0) in P4. rewrite P4 in Hk. injection Hk as <-.
    split; try done; [by split; [|rewrite R1]|by rewrite P3, R3| |by apply update_some].
    exists 0, false. unfold qrx_get_cipher_ctx_idx. rewrite (proj2 (Z.eqb_neq _ _)) by done. split_and!; done.
Qed.
(** What the receiver must be like for the packet: entries in order, the packet expected at this place of the datagram,
    the packet number within the window, the packet not refused by the late validation. *)
Record expects (q : OSSL_QRX) (idx : Z) (fd : QUIC_CONN_ID) (hdr : QUIC_PKT_HDR) (pn : Z) : Prop := {
  ex_entries : entries_ok q;
  ex_dcid : same_dcid idx fd hdr;
  ex_1rtt : ph_type hdr = QUIC_PKT_TYPE_1RTT -> allow_1rtt q = true /\ cid_id_len (ph_dst hdr) = short_conn_id_len q;
  ex_window : let largest := sget (largest_pn q) (rxe_determine_pn_space hdr) in u64 largest /\ pn_val largest < 2 ^ 62 /\
    pn_val largest + 1 - 2 ^ (8 * ph_pn_len hdr - 1) < pn <= pn_val largest + 1 + 2 ^ (8 * ph_pn_len hdr - 1);
  ex_late : qrx_validate_hdr_late validation_cb pn (rxe_determine_pn_space hdr) = true;
  ex_update : el_state (qrx_el_set q QUIC_ENC_LEVEL_1RTT) = QRL_EL_STATE_PROV_NORMAL -> el_is_tx (qrx_el_set q QUIC_ENC_LEVEL_1RTT) = false }.

Lemma type_of_level (h : QUIC_PKT_HDR) : qrx_determine_enc_level h = QUIC_ENC_LEVEL_1RTT -> ph_type h = QUIC_PKT_TYPE_1RTT.
Proof. unfold qrx_determine_enc_level. repeat (case_match; [done|]). case_match; [intros _; lia|done]. Qed.

Lemma space_of_type (h h' : QUIC_PKT_HDR) : ph_type h' = ph_type h -> rxe_determine_pn_space h' = rxe_determine_pn_space h.
Proof. intros H. unfold rxe_determine_pn_space. by rewrite (level_of_type h h' H). Qed.

(** The two ends put together, for a packet at any place of a datagram. *)
Lemma written_received (qt qt' : OSSL_QTX) (pn : QUIC_PN) (txe txe' : TXE) (l : Z) (hdr : QUIC_PKT_HDR) (iovec : list OSSL_QTX_IOVEC) el c hpr_key
    (q : OSSL_QRX) (e : QUIC_URXE) (idx dl : Z) (fd : QUIC_CONN_ID) (tl : bytes) : let payload := iovec_bytes iovec in
  write qt pn txe l hdr iovec = (qt', txe', QTX_OK) -> qtx_el qt l = Some el -> l = qrx_determine_enc_level hdr -> sendable hdr -> 0 <= pn < 2 ^ 62 ->
  4 <= zlen payload + ph_pn_len hdr -> level_ready el hpr_key -> level_ready (qrx_el_set q l) hpr_key ->
  keys_meet l c el (qrx_el_set q l) pn (cur_epoch_start_pn q) -> forged_pkt_count q < ossl_qrl_get_suite_max_forged_pkt (el_suite_id el) ->
  expects q idx fd hdr pn ->
  ux_data e = txe_data txe' ++ tl -> zlen (ux_data e) <= INT_MAX -> (ph_type hdr = QUIC_PKT_TYPE_1RTT -> tl = []) -> zlen payload <= INT_MAX ->
  pkt_is_marked (ux_processed e) idx = false -> pkt_is_marked (ux_hpr_removed e) idx = false ->
  exists q' e' fd' rxe, process_pkt all_alloc q e (zlen (txe_data txe)) idx fd dl = Some (q', e', zlen (txe_data txe'), fd', false) /\
    zlen (txe_data txe) + 21 <= zlen (txe_data txe') /\ zlen (ux_data e') = zlen (ux_data e) /\ rx_pending q' = rx_pending q ++ [rxe] /\
    delivered (sent_hdr el hdr pn (zlen payload + 16)) payload pn (epoch_of l el) rxe.
Proof.
  intros payload Hw Hel Hl Hs Hpn Hmin Hr Hrq Hmeet Hforged [X1 X2 X3 X4 X5 X6] Hdata Hmax Htl Hpay Hmp Hmh. set (h := sent_hdr el hdr pn (zlen payload + 16)).
  destruct (write_spec qt qt' pn txe txe' l hdr iovec el hpr_key Hw Hel Hr Hs ltac:(lia) ltac:(fold payload; unfold INT_MAX, OSSL_QUIC_VLINT_MAX in *; lia) Hmin)
    as (keys & sealed & sent & Hk & Hiv & Hseal & Hsent & Htxe). fold payload h in Hseal, Hsent.
  destruct (sent_proj el hdr pn (zlen payload + 16)) as (P1 & _ & P3 & _ & P5 & _ & _ & _ & P9 & P10 & P11). fold h in P1, P3, P5, P9, P10, P11.
  destruct (sd_pn_len _ Hs) as [Hpl _]. pose proof (zlen_nonneg payload) as Hnn. destruct (Haead _ _ _ _ _ _ Hseal) as [_ Hz].
  assert (Hpos : 0 < zlen payload).
  { destruct (Z.eq_dec (zlen payload) 0) as [H0|]; [|lia]. exfalso. revert Hw. unfold qtx_write. rewrite iovec_total by (fold payload; u64_unfold; lia). fold payload. rewrite H0.
    repeat case_match; done. }
  rewrite Htxe, <- app_assoc in Hdata. rewrite Htxe, zlen_app.
  destruct (process_delivers q e (txe_data txe) sent tl idx dl fd h pn (epoch_of l el) keys (el_suite_id el) hpr_key payload sealed) as (q' & e' & fd' & rxe & H);
    try done; [|rewrite P5, P10; lia|by rewrite P1|].
  2:{ destruct H as (H1 & H2 & H). exists q', e', fd', rxe. split; [done|]. split; [lia|done]. }
  split; rewrite ?P1; try done.
  - split; [|split; [by destruct (sd_type _ Hs) as [->|[-> | ->]]|rewrite P9, P10; split; [done|apply Hs]]].
    apply sent_encodable; try done; [lia..|unfold INT_MAX, OSSL_QUIC_VLINT_MAX in *; lia|]. intros Ht. by apply X3.
  - pose proof (en_unused _ X1) as Hu. by apply Forall_app in Hu as [Hu _].
  - intros Hi. rewrite P3. by apply X2.
  - intros Ht. by apply X3.
  - intros kp Hkp. rewrite (level_of_type hdr h P1), <- Hl. eapply meet_can_open; try done; [rewrite Hl; apply enc_level_range|].
    intros Hl3. rewrite <- P11; [apply Hkp|]; apply type_of_level; congruence.
  - intros h2 Ht2 Hn2 Hp2. unfold qrx_validate_hdr. rewrite !(space_of_type hdr h2) by congruence. split; [|done].
    destruct (sent_pn el hdr pn (zlen payload + 16) Hs ltac:(lia)) as (pnb & _ & Hzp & Htr & Hpf). fold h in Hpf. rewrite Hn2, P5 in *. destruct X4 as (W1 & W2 & W3).
    apply decode_pn_window; try done. rewrite truncated_take, Hp2, Hpf by done. done.
Qed.
Lemma delivered_fields (el : OSSL_QRL_ENC_LEVEL) (hdr : QUIC_PKT_HDR) (pn l : Z) (payload : bytes) (h : QUIC_PKT_HDR) (rxe : RXE) : sendable hdr -> h = rxe_hdr rxe ->
  recovered (sent_hdr el hdr pn (zlen payload + 16)) h payload -> rxe_pn rxe = pn -> rxe_key_epoch rxe = epoch_of l el ->
  ph_data h = Some payload /\ ph_len h = zlen payload /\ ph_type h = ph_type hdr /\ cid_bytes (ph_dst h) = cid_bytes (ph_dst hdr) /\
    (ph_type hdr <> QUIC_PKT_TYPE_1RTT -> cid_bytes (ph_src h) = cid_bytes (ph_src hdr)) /\
    (ph_type hdr = QUIC_PKT_TYPE_INITIAL -> token_bytes h = token_bytes hdr) /\
    (ph_type hdr = QUIC_PKT_TYPE_1RTT -> ph_spin_bit h = ph_spin_bit hdr /\ ph_key_phase h = negb (Z.land (el_key_epoch el) 1 =? 0)) /\
    rxe_pn rxe = pn /\ rxe_key_epoch rxe = epoch_of l el.
Proof.
  intros Hs _ [R1 _ [_ R3] R4 _ R6 R7 _ _ [R9 R10]] Hp He. destruct (sent_proj el hdr pn (zlen payload + 16)) as (P1 & _ & P3 & P4 & _ & _ & _ & P8 & P9 & _ & P11).
  rewrite P1 in *. assert (ph_type hdr <> QUIC_PKT_TYPE_RETRY) as Hret by (by destruct (sd_type _ Hs) as [->|[-> | ->]]). rewrite (proj2 (Z.eqb_neq _ _)) in R9 by done.
  split_and!; try done; [by rewrite R10, R9|by rewrite R3, P3|..].
  - intros Ht. destruct (R4 Ht) as (_ & _ & ->). by rewrite P4.
  - intros Ht. destruct (R7 Ht) as [_ ->]. unfold token_bytes. by rewrite P8, P9.
  - intros Ht. destruct (R6 Ht) as [-> ->]. split; [|by apply P11]. unfold sent_hdr, qtx_fill_hdr. by destruct (ph_type hdr =? _).
Qed.

Lemma loop_step n ok (q : OSSL_QRX) (e : QUIC_URXE) off idx fd dl d :
  process_loop sizeof_RXE aead_open EVP_aes_ecb EVP_chacha hkdf_expand validation_cb key_update_cb (S n) ok q e off idx fd dl d =
    let remaining := zlen (ux_data e) - off in
    if (remaining <=? 0) || (remaining <? QUIC_MIN_VALID_PKT_LEN) then Some (q, e, d)
    else '(q, e, off, fd, d') ← process_pkt (ok (Z.to_nat idx)) q e off idx fd dl;
         process_loop sizeof_RXE aead_open EVP_aes_ecb EVP_chacha hkdf_expand validation_cb key_update_cb n ok q e off (idx + 1) fd dl (d || d').
Proof. done. Qed.

(** C1. A protected packet, from one record layer to the other, at its place in a datagram.  Whatever the sender's [qtx_write] appended
    to a datagram for an Initial, Handshake or 1-RTT packet, after any packets written before and followed
    by any bytes (none after a 1-RTT packet, which must be last), the receiver's [qrx_process_pkt] at that offset delivers exactly one packet: with the type, the connection
    IDs, the token, the spin and key phase bits sent, the full packet number, the payload byte for byte, and the key epoch
    of the sender; it goes on exactly behind the packet.  At 1-RTT this holds with the two ends anywhere in a key update
    that the schedule allows: at the same epoch, the receiver one behind (the packet then triggers its update) or one
    ahead (a packet from before the update).  The AEAD opens what it seals, the ciphers work, and the packet number is
    within the receiver's window. *)
Theorem qrx_reads_what_qtx_wrote (qt qt' : OSSL_QTX) (pn : QUIC_PN) (txe txe' : TXE) (l : Z) (hdr : QUIC_PKT_HDR) (iovec : list OSSL_QTX_IOVEC) el c hpr_key
    (q : OSSL_QRX) (e : QUIC_URXE) (idx dl : Z) (fd : QUIC_CONN_ID) (tl : bytes) : let payload := iovec_bytes iovec in
  write qt pn txe l hdr iovec = (qt', txe', QTX_OK) -> qtx_el qt l = Some el -> l = qrx_determine_enc_level hdr -> sendable hdr -> 0 <= pn < 2 ^ 62 ->
  4 <= zlen payload + ph_pn_len hdr -> level_ready el hpr_key -> level_ready (qrx_el_set q l) hpr_key ->
  keys_meet l c el (qrx_el_set q l) pn (cur_epoch_start_pn q) -> forged_pkt_count q < ossl_qrl_get_suite_max_forged_pkt (el_suite_id el) ->
  expects q idx fd hdr pn ->
  ux_data e = txe_data txe' ++ tl -> zlen (ux_data e) <= INT_MAX -> (ph_type hdr = QUIC_PKT_TYPE_1RTT -> tl = []) -> zlen payload <= INT_MAX ->
  pkt_is_marked (ux_processed e) idx = false -> pkt_is_marked (ux_hpr_removed e) idx = false ->
  exists q' e' fd' rxe, process_pkt all_alloc q e (zlen (txe_data txe)) idx fd dl = Some (q', e', zlen (txe_data txe'), fd', false) /\
    rx_pending q' = rx_pending q ++ [rxe] /\ let h := rxe_hdr rxe in
    ph_data h = Some payload /\ ph_len h = zlen payload /\ ph_type h = ph_type hdr /\ cid_bytes (ph_dst h) = cid_bytes (ph_dst hdr) /\
    (ph_type hdr <> QUIC_PKT_TYPE_1RTT -> cid_bytes (ph_src h) = cid_bytes (ph_src hdr)) /\
    (ph_type hdr = QUIC_PKT_TYPE_INITIAL -> token_bytes h = token_bytes hdr) /\
    (ph_type hdr = QUIC_PKT_TYPE_1RTT -> ph_spin_bit h = ph_spin_bit hdr /\ ph_key_phase h = negb (Z.land (el_key_epoch el) 1 =? 0)) /\
    rxe_pn rxe = pn /\ rxe_key_epoch rxe = epoch_of l el.
Proof.
  intros payload Hw Hel Hl Hs Hpn Hmin Hr Hrq Hmeet Hforged Hx Hdata Hmax Htl Hpay Hmp Hmh.
  destruct (written_received qt qt' pn txe txe' l hdr iovec el c hpr_key q e idx dl fd tl Hw Hel Hl Hs Hpn Hmin Hr Hrq Hmeet Hforged Hx Hdata Hmax Htl Hpay Hmp Hmh)
    as (q' & e' & fd' & rxe & Hp & _ & _ & Hq & [Hrec Hrpn Hrep]). exists q', e', fd', rxe. split; [done|]. split; [done|]. fold payload in Hrec.
  exact (delivered_fields el hdr pn l payload (rxe_hdr rxe) rxe Hs eq_refl Hrec Hrpn Hrep).
Qed.

(** C39. The same through the interfaces, for a datagram of one packet: what the sender put into a datagram, given to the peer's
    [ossl_qrx_inject_urxe], is returned by its next [ossl_qrx_read_pkt], and the datagram goes back to the demultiplexer. *)
Theorem qrx_read_returns_what_was_sent (qt qt' : OSSL_QTX) (pn : QUIC_PN) (txe txe' : TXE) (l : Z) (hdr : QUIC_PKT_HDR) (iovec : list OSSL_QTX_IOVEC) el c hpr_key
    (q : OSSL_QRX) (e : QUIC_URXE) : let payload := iovec_bytes iovec in
  write qt pn txe l hdr iovec = (qt', txe', QTX_OK) -> txe_data txe = [] -> ux_data e = txe_data txe' -> zlen (ux_data e) <= INT_MAX -> zlen payload <= INT_MAX ->
  qtx_el qt l = Some el -> l = qrx_determine_enc_level hdr -> sendable hdr -> 0 <= pn < 2 ^ 62 ->
  4 <= zlen payload + ph_pn_len hdr -> level_ready el hpr_key -> level_ready (qrx_el_set q l) hpr_key ->
  keys_meet l c el (qrx_el_set q l) pn (cur_epoch_start_pn q) -> forged_pkt_count q < ossl_qrl_get_suite_max_forged_pkt (el_suite_id el) ->
  expects q 0 (mkConnId 255 (replicate 20 0)) hdr pn -> urx_pending q = [] -> rx_pending q = [] ->
  exists q' rxe, read_pkt (fun _ _ => all_alloc) (ossl_qrx_inject_urxe q e) = Some (q', Some rxe) /\
    urx_pending q' = [] /\ ux_datagram_id <$> qrx_released q' = (ux_datagram_id <$> qrx_released q) ++ [ux_datagram_id e] /\
    ph_data (rxe_hdr rxe) = Some payload /\ ph_type (rxe_hdr rxe) = ph_type hdr /\ rxe_pn rxe = pn /\ rxe_key_epoch rxe = epoch_of l el.
Proof.
  intros payload Hw Htxe Hdata Hmax Hpay Hel Hl Hs Hpn Hmin Hr Hrq Hmeet Hforged Hx Hurx Hrx.
  set (e1 := e <| ux_processed := 0 |> <| ux_hpr_removed := 0 |> <| ux_deferred := false |>).
  set (q1 := (ossl_qrx_inject_urxe q e) <| bytes_received := bytes_received (ossl_qrx_inject_urxe q e) +u zlen (ux_data e) |>).
  assert (Hx1 : expects q1 0 (mkConnId 255 (replicate 20 0)) hdr pn) by (destruct Hx as [X1]; split; try done; by eapply entries_eq; [..|exact X1]).
  destruct (written_received qt qt' pn txe txe' l hdr iovec el c hpr_key q1 e1 0 (zlen (ux_data e)) (mkConnId 255 (replicate 20 0)) [])
    as (q2 & e2 & fd2 & rxe & Hp & H21 & Hz2 & Hq2 & [Hrec Hrpn Hrep]); try done; [by rewrite app_nil_r|]. rewrite Htxe in Hp. change (zlen []) with 0 in Hp.
  assert (Hlen : QUIC_MIN_VALID_PKT_LEN <= zlen (ux_data e)) by (rewrite Htxe in H21; change (zlen []) with 0 in H21; rewrite Hdata; unfold QUIC_MIN_VALID_PKT_LEN; lia).
  pose proof Hp as Hps. eapply process_same in Hps as [S1 S2]; [|by destruct Hx1].
  assert (Hloop : process_loop sizeof_RXE aead_open EVP_aes_ecb EVP_chacha hkdf_expand validation_cb key_update_cb (Z.to_nat QUIC_MAX_PKT_PER_URXE) (fun _ => all_alloc) q1 e1 0 0
    (mkConnId 255 (replicate 20 0)) (zlen (ux_data e)) false = Some (q2, e2, false)).
  { change (Z.to_nat QUIC_MAX_PKT_PER_URXE) with (S 63). rewrite loop_step. change (ux_data e1) with (ux_data e). unfold QUIC_MIN_VALID_PKT_LEN in *.
    rewrite (proj2 (Z.leb_gt _ _)), (proj2 (Z.ltb_ge _ _)) by lia. cbn [orb]. rewrite Hp. cbn [mbind option_bind orb].
    change 63%nat with (S 62). rewrite loop_step, Hz2, <- Hdata. change (ux_data e1) with (ux_data e). by rewrite Z.sub_diag. }
  unfold ossl_qrx_read_pkt, ossl_qrx_processed_read_pending, qrx_process_pending_urxl.
  change (rx_pending (ossl_qrx_inject_urxe q e)) with (rx_pending q). rewrite Hrx.
  assert (Hurx1 : urx_pending (ossl_qrx_inject_urxe q e) = [e1]) by (unfold ossl_qrx_inject_urxe; cbn; by rewrite Hurx). rewrite Hurx1. cbn [pending_loop].
  unfold qrx_process_one_urxe, qrx_process_datagram. change (ux_data e1) with (ux_data e).
  rewrite (proj2 (Z.ltb_ge _ _)) by (unfold INT_MAX in Hmax; change (SIZE_MAX / 2) with 9223372036854775807; lia). fold q1.
  rewrite Hloop. cbn [mbind option_bind andb]. set (q3 := (if ux_deferred e2 then _ else _) <| qrx_released := _ |>).
  assert (H3 : rx_pending q3 = [rxe] /\ urx_pending q3 = [] /\ qrx_released q3 = qrx_released q ++ [e2 <| ux_deferred := false |>]).
  { subst q3. destruct S1 as [U1 _ _ U4 _ _]. change (urx_pending q1) with (urx_pending (ossl_qrx_inject_urxe q e)) in U1. rewrite Hurx1 in U1.
    change (rx_pending q1) with (rx_pending q) in Hq2. rewrite Hrx in Hq2. change (qrx_released q1) with (qrx_released q) in U4.
    destruct (ux_deferred e2); cbn; by rewrite U1, U4, Hq2. }
  destruct H3 as (R1 & R2 & R3). rewrite R1. do 2 eexists. split; [reflexivity|]. split; [exact R2|]. match goal with |- context [_ <$> qrx_released ?x = _] => change (qrx_released x) with (qrx_released q3) end.
  rewrite R3, fmap_app. cbn.
  rewrite (sd_id _ _ S2). split; [done|].
  destruct (delivered_fields el hdr pn l payload (rxe_hdr rxe) rxe Hs eq_refl Hrec Hrpn Hrep) as (D1 & _ & D3 & _ & _ & _ & _ & D8 & D9). done.
Qed.
End Round.

(** ** A packet sent and received *)

Definition demo_hpr : bytes := hkdf_demo NAME_SHA256 demo_secret quic_v1_hp_label 16.
Definition toy_el : OSSL_QRL_ENC_LEVEL := qtx_el_set toy_qtx QUIC_ENC_LEVEL_1RTT.
(** The receiver when it has the secret and may process 1-RTT packets. *)
Definition toy_rx : OSSL_QRX := toy_qrx 2.

Definition demo_provide : qrl_op := OpProvide QRL_SUITE_AES128GCM None demo_secret 0.

Lemma demo_level_ok (is_tx : bool) : level_ok hkdf_demo is_tx demo_cfg (demo_step is_tx els_new demo_provide QUIC_ENC_LEVEL_1RTT).
Proof.
  assert (Hr : qrl_reach hkdf_demo is_tx (demo_step is_tx els_new demo_provide) (Some demo_cfg)).
  { apply (demo_step_reach is_tx els_new None demo_provide); [apply qrl_start|done|destruct is_tx; by vm_compute]. }
  destruct (proj2 (reach_inv hkdf_demo hkdf_demo_len is_tx _ _ Hr)) as (c & [= <-] & Ho); [destruct is_tx; by vm_compute|done].
Qed.

Lemma toy_tx_set : qtx_el_set toy_qtx = demo_step true els_new demo_provide.
Proof.
  unfold toy_qtx, demo_step. cbn -[ossl_qrl_enc_level_set_provide_secret]. unfold ossl_qtx_provide_secret. cbn -[ossl_qrl_enc_level_set_provide_secret].
  by destruct (ossl_qrl_enc_level_set_provide_secret _ _ _ _ _ _ _ _ _) as [[els r]|].
Qed.

Lemma toy_rx_set : qrx_el_set toy_rx = demo_step false els_new demo_provide.
Proof.
  unfold toy_rx, toy_qrx, toy_ops, qrx_step, demo_step. cbn -[ossl_qrl_enc_level_set_provide_secret]. unfold ossl_qrx_provide_secret. cbn -[ossl_qrl_enc_level_set_provide_secret].
  by destruct (ossl_qrl_enc_level_set_provide_secret _ _ _ _ _ _ _ _ _) as [[els []]|].
Qed.

Lemma toy_write_ok : toy_written = (fst (fst toy_written), snd (fst toy_written), QTX_OK).
Proof. assert (snd toy_written = QTX_OK) as H by (by vm_compute). destruct toy_written as [[a b] r]. cbn in *. congruence. Qed.

Lemma toy_ready (is_tx : bool) : level_ready (demo_step is_tx els_new demo_provide QUIC_ENC_LEVEL_1RTT) demo_hpr.
Proof. destruct is_tx; (split; [exists suite_aes128gcm; by vm_compute|by vm_compute|by vm_compute]). Qed.

Lemma toy_meet : keys_meet hkdf_demo QUIC_ENC_LEVEL_1RTT demo_cfg (qtx_el_set toy_qtx QUIC_ENC_LEVEL_1RTT) (qrx_el_set toy_rx QUIC_ENC_LEVEL_1RTT) 77 (cur_epoch_start_pn toy_rx).
Proof.
  rewrite toy_tx_set, toy_rx_set. unfold keys_meet. cbn [Z.eqb Pos.eqb]. change (QUIC_ENC_LEVEL_1RTT =? QUIC_ENC_LEVEL_1RTT) with true. cbv iota.
  split; [apply demo_level_ok|]. split; [apply demo_level_ok|]. split; [by vm_compute|]. left. by vm_compute.
Qed.

Lemma toy_sendable : sendable toy_hdr.
Proof. split; try (by vm_compute). by left. Qed.

Lemma toy_aes_ok key s : zlen s = 16 -> exists out, toy_aes key s = Some out /\ zlen out = 16.
Proof. intros Hs. eexists. split; [reflexivity|]. unfold zlen in *. rewrite length_map, length_take. lia. Qed.
Lemma toy_chacha_ok key s z : zlen s = 16 -> exists out, toy_chacha key s z = Some out /\ zlen out = zlen z.
Proof. intros _. eexists. split; [reflexivity|]. unfold zlen. by rewrite length_map. Qed.

Lemma toy_rx_state : short_conn_id_len toy_rx = 4 /\ largest_pn toy_rx = mkSpaces 0 0 0 /\ allow_1rtt toy_rx = true /\ forged_pkt_count toy_rx = 0 /\
  (urx_pending toy_rx, rx_pending toy_rx) = ([], []) /\ el_is_tx (qrx_el_set toy_rx QUIC_ENC_LEVEL_1RTT) = false.
Proof. split_and!; by vm_compute. Qed.

Lemma toy_expects (fd : QUIC_CONN_ID) : expects None toy_rx 0 fd toy_hdr 77.
Proof.
  destruct toy_rx_state as (H1 & H2 & H3 & _ & _ & Htx). split.
  - assert (Hr := toy_reach 2 ltac:(by vm_compute)). exact (qi_entries _ _ _ (qrx_reach_inv _ _ _ _ _ _ _ _ _ _ Hr)).
  - by intros Hne.
  - intros _. by rewrite H1, H3.
  - rewrite H2. split; [by vm_compute|]. split; by vm_compute.
  - done.
  - by intros _.
Qed.

Lemma toy_qtx_el : qtx_el toy_qtx QUIC_ENC_LEVEL_1RTT = Some (qtx_el_set toy_qtx QUIC_ENC_LEVEL_1RTT).
Proof.
  unfold qtx_el, ossl_qrl_enc_level_set_get. assert (state_prov (el_state (qtx_el_set toy_qtx QUIC_ENC_LEVEL_1RTT)) = true) as -> by (by vm_compute). done.
Qed.

Lemma qrx_reads_what_qtx_wrote_witness : exists q' e' fd' rxe,
  qrx_process_pkt 64 toy_open toy_aes toy_chacha hkdf_demo None false all_alloc toy_rx toy_dgram 0 0 (demo_cid []) 26 =
    Some (q', e', zlen (ux_data toy_dgram), fd', false) /\
  rx_pending q' = rx_pending toy_rx ++ [rxe] /\ ph_data (rxe_hdr rxe) = Some [10; 20; 30] /\ rxe_pn rxe = 77 /\ rxe_key_epoch rxe = 0.
Proof.
  destruct (qrx_reads_what_qtx_wrote 64 ltac:(lia) toy_seal toy_open toy_aes toy_chacha hkdf_demo None false toy_correct toy_aes_ok toy_chacha_ok
    toy_qtx (fst (fst toy_written)) 77 (mkTxe 1200 []) (snd (fst toy_written)) QUIC_ENC_LEVEL_1RTT toy_hdr [mkIov None [10; 20; 30]]
    (qtx_el_set toy_qtx QUIC_ENC_LEVEL_1RTT) demo_cfg demo_hpr toy_rx toy_dgram 0 26 (demo_cid []) []) as (q' & e' & fd' & rxe & Hp & Hq & Hd & _ & _ & _ & _ & _ & _ & Hpn & He).
  - exact toy_write_ok.
  - exact toy_qtx_el.
  - reflexivity.
  - exact toy_sendable.
  - lia.
  - by vm_compute.
  - rewrite toy_tx_set. apply toy_ready.
  - rewrite toy_rx_set. apply toy_ready.
  - exact toy_meet.
  - by vm_compute.
  - apply toy_expects.
  - rewrite app_nil_r. reflexivity.
  - by vm_compute.
  - reflexivity.
  - by vm_compute.
  - reflexivity.
  - reflexivity.
  - exists q', e', fd', rxe. split; [exact Hp|]. split; [exact Hq|]. split; [exact Hd|]. split; [exact Hpn|]. rewrite He. by vm_compute.
Defined.

(** The same packet through the interfaces. *)
Lemma qrx_read_returns_what_was_sent_witness : exists q' rxe,
  ossl_qrx_read_pkt 64 toy_open toy_aes toy_chacha hkdf_demo None false (fun _ _ => all_alloc) (ossl_qrx_inject_urxe toy_rx toy_dgram) = Some (q', Some rxe) /\
  ph_data (rxe_hdr rxe) = Some [10; 20; 30] /\ rxe_pn rxe = 77.
Proof.
  destruct (qrx_read_returns_what_was_sent 64 ltac:(lia) toy_seal toy_open toy_aes toy_chacha hkdf_demo None false toy_correct toy_aes_ok toy_chacha_ok
    toy_qtx (fst (fst toy_written)) 77 (mkTxe 1200 []) (snd (fst toy_written)) QUIC_ENC_LEVEL_1RTT toy_hdr [mkIov None [10; 20; 30]]
    (qtx_el_set toy_qtx QUIC_ENC_LEVEL_1RTT) demo_cfg demo_hpr toy_rx toy_dgram) as (q' & rxe & Hr & _ & _ & Hd & _ & Hpn & _).
  - exact toy_write_ok.
  - reflexivity.
  - reflexivity.
  - by vm_compute.
  - by vm_compute.
  - exact toy_qtx_el.
  - reflexivity.
  - exact toy_sendable.
  - lia.
  - by vm_compute.
  - rewrite toy_tx_set. apply toy_ready.
  - rewrite toy_rx_set. apply toy_ready.
  - exact toy_meet.
  - by vm_compute.
  - apply toy_expects.
  - by vm_compute.
  - by vm_compute.
  - exists q', rxe. split; [exact Hr|]. split; [exact Hd|exact Hpn].
Defined.
