(* ===== verification/PriorityQueue.v ===== *)
(** * Priority queues (ssl/priority_queue.c)

    A binary heap in an array, smallest element first.  Every element has a
    handle, an index into a second array that holds the element's position in
    the heap, so that any element can be removed by its handle; the unused
    handles are linked into a free list through the same array.  The theorem
    relates a queue, over every history of its operations, to a finite map from
    handles to data. *)

From S2P Require Import Prelude.

(** ** Definitions *)

(** A cell of the heap: the user's data and its handle, an index into [elements]. *)
Record pq_heap_st (A : Type) := mkCell { pq_data : A; pq_index : Z }.
Arguments mkCell {A}. Arguments pq_data {A}. Arguments pq_index {A}.

(** The arrays are maps from the indices written so far; [pq_elements] holds the field [posn] of the elements. *)
Record OSSL_PQUEUE (A : Type) := mkPq {
  pq_heap : gmap Z (pq_heap_st A); pq_elements : gmap Z Z; pq_htop : Z; pq_hmax : Z; pq_freelist : Z }.
Arguments mkPq {A}. Arguments pq_heap {A}. Arguments pq_elements {A}. Arguments pq_htop {A}. Arguments pq_hmax {A}. Arguments pq_freelist {A}.
#[export] Instance eta_pqueue A : Eta (OSSL_PQUEUE A) := fun q => mkPq (pq_heap q) (pq_elements q) (pq_htop q) (pq_hmax q) (pq_freelist q).

Definition min_nodes : Z := 8.
(** [sizeof(struct pq_heap_st)] is 16, no less than [sizeof(struct pq_elem_st)]. *)
Definition max_nodes : Z := SIZE_MAX / 16.

(** The loop of [compute_pqueue_growth]; [None] is running out of fuel. *)
Fixpoint growth_loop (fuel : nat) (target current : Z) : option Z :=
  match fuel with
  | O => None
  | S fuel =>
      if negb (current <? target) then Some current
      else if max_nodes <=? current then Some 0
      else
        let '(current, err) := safe_muldiv current 8 5 false in
        if err then Some 0
        else growth_loop fuel target (if max_nodes <=? current then max_nodes else current)
  end.

(** Every round multiplies by at least 3/2, so that [max_nodes] is reached within 110 rounds. *)
Definition compute_pqueue_growth (target current : Z) : option Z := growth_loop 110 target current.

(** An element of an array of [n] elements is written. *)
Definition arr_set {B} (a : gmap Z B) (n i : Z) (v : B) : option (gmap Z B) :=
  if (0 <=? i) && (i <? n) then Some (<[i := v]> a) else None.

Section Ops.
Context {A : Type} (compare : A -> A -> Z).
Implicit Types pq : OSSL_PQUEUE A.

Definition pqueue_swap_elem pq (i j : Z) : option (OSSL_PQUEUE A) :=
  hi ← pq_heap pq !! i;
  hj ← pq_heap pq !! j;
  e ← arr_set (pq_elements pq) (pq_hmax pq) (pq_index hj) i;
  e ← arr_set e (pq_hmax pq) (pq_index hi) j;
  Some (pq <| pq_heap := <[j := hi]> (<[i := hj]> (pq_heap pq)) |> <| pq_elements := e |>).

Definition pqueue_move_elem pq (from to : Z) : option (OSSL_PQUEUE A) :=
  h ← pq_heap pq !! from;
  heap ← arr_set (pq_heap pq) (pq_hmax pq) to h;
  e ← arr_set (pq_elements pq) (pq_hmax pq) (pq_index h) to;
  Some (pq <| pq_heap := heap |> <| pq_elements := e |>).

Definition parent (n : Z) : Z := (n - 1) / 2.

(** The loops follow a path of the heap; [None] is running out of fuel or an access outside an array. *)
Fixpoint pqueue_force_bottom (fuel : nat) pq (n : Z) : option (OSSL_PQUEUE A) :=
  if negb (0 <? n) then Some pq
  else
    match fuel with
    | O => None
    | S fuel => pq ← pqueue_swap_elem pq n (parent n); pqueue_force_bottom fuel pq (parent n)
    end.

Fixpoint pqueue_move_down (fuel : nat) pq (n : Z) : option (OSSL_PQUEUE A) :=
  if negb (0 <? n) then Some pq
  else
    match fuel with
    | O => None
    | S fuel =>
        hn ← pq_heap pq !! n;
        hp ← pq_heap pq !! parent n;
        if 0 <=? compare (pq_data hn) (pq_data hp) then Some pq
        else pq ← pqueue_swap_elem pq n (parent n); pqueue_move_down fuel pq (parent n)
    end.

(** The smaller of the children of [n], the first if there is no second. *)
Definition smaller_child pq (n : Z) : option Z :=
  let p := n * 2 + 1 in
  if p + 1 <? pq_htop pq then
    hp ← pq_heap pq !! p;
    hq ← pq_heap pq !! (p + 1);
    Some (if 0 <? compare (pq_data hp) (pq_data hq) then p + 1 else p)
  else Some p.

Fixpoint pqueue_move_up (fuel : nat) pq (n : Z) : option (OSSL_PQUEUE A) :=
  p ← smaller_child pq n;
  if p <? pq_htop pq then
    hp ← pq_heap pq !! p;
    hn ← pq_heap pq !! n;
    if compare (pq_data hp) (pq_data hn) <? 0 then
      match fuel with
      | O => None
      | S fuel => pq ← pqueue_swap_elem pq n p; pqueue_move_up fuel pq p
      end
    else Some pq
  else Some pq.

Definition pqueue_add_freelist pq (from : Z) : option (OSSL_PQUEUE A) :=
  e ← arr_set (pq_elements pq) (pq_hmax pq) from (pq_freelist pq);
  let e := fold_left (fun e i => <[i := i - 1]> e) (seqZ (from + 1) (pq_hmax pq - from - 1)) e in
  Some (pq <| pq_elements := e |> <| pq_freelist := pq_hmax pq - 1 |>).

(** The outcome of the two reallocations is an argument.  The heap array may be left larger than [pq_hmax] elements, which makes no difference. *)
Definition ossl_pqueue_reserve (alloc_h alloc_e : bool) pq (n : Z) : option (OSSL_PQUEUE A * bool) :=
  let cur_max := pq_hmax pq in
  if pq_htop pq +u n <? cur_max then Some (pq, true)
  else
    new_max ← compute_pqueue_growth (n +u cur_max) cur_max;
    if new_max =? 0 then Some (pq, false)
    else if negb alloc_h then Some (pq, false)
    else if negb alloc_e then Some (pq, false)
    else pq ← pqueue_add_freelist (pq <| pq_hmax := new_max |>) cur_max; Some (pq, true).

(** Returns the handle of the element. *)
Definition ossl_pqueue_push (alloc_h alloc_e : bool) pq (data : A) : option (OSSL_PQUEUE A * option Z) :=
  '(pq, ok) ← ossl_pqueue_reserve alloc_h alloc_e pq 1;
  if negb ok then Some (pq, None)
  else
    let n := pq_htop pq in
    let m := pq_freelist pq in
    next ← pq_elements pq !! m;
    heap ← arr_set (pq_heap pq) (pq_hmax pq) n (mkCell data m);
    e ← arr_set (pq_elements pq) (pq_hmax pq) m n;
    let pq := pq <| pq_htop := n +u 1 |> <| pq_freelist := next |> <| pq_heap := heap |> <| pq_elements := e |> in
    pq ← pqueue_move_down (Z.to_nat n) pq n;
    Some (pq, Some m).

Definition ossl_pqueue_peek pq : option (option A) :=
  if 0 <? pq_htop pq then h ← pq_heap pq !! 0; Some (Some (pq_data h)) else Some None.

(** The handle goes to the head of the free list. *)
Definition free_handle pq (elem : Z) : option (OSSL_PQUEUE A) :=
  e ← arr_set (pq_elements pq) (pq_hmax pq) elem (pq_freelist pq);
  Some (pq <| pq_elements := e |> <| pq_freelist := elem |>).

Definition ossl_pqueue_pop pq : option (OSSL_PQUEUE A * option A) :=
  if pq_htop pq =? 0 then Some (pq, None)
  else
    h ← pq_heap pq !! 0;
    let pq := pq <| pq_htop := pq_htop pq -u 1 |> in
    pq ← (if negb (pq_htop pq =? 0)
          then pq ← pqueue_move_elem pq (pq_htop pq) 0; pqueue_move_up (Z.to_nat (pq_htop pq)) pq 0
          else Some pq);
    pq ← free_handle pq (pq_index h);
    Some (pq, Some (pq_data h)).

Definition ossl_pqueue_remove pq (elem : Z) : option (OSSL_PQUEUE A * option A) :=
  if (pq_hmax pq <=? elem) || (pq_htop pq =? 0) then Some (pq, None)
  else
    n ← pq_elements pq !! elem;
    if n =? pq_htop pq -u 1 then
      pq ← free_handle pq elem;
      let pq := pq <| pq_htop := pq_htop pq -u 1 |> in
      h ← pq_heap pq !! pq_htop pq;
      Some (pq, Some (pq_data h))
    else
      pq ← (if 0 <? n then pqueue_force_bottom (Z.to_nat n) pq n else Some pq);
      ossl_pqueue_pop pq.

Definition ossl_pqueue_new (alloc : bool) : option (OSSL_PQUEUE A) :=
  if negb alloc then None else pqueue_add_freelist (mkPq ∅ ∅ 0 min_nodes 0) 0.

(** The data that [freefunc] is called with. *)
Definition ossl_pqueue_pop_free pq : list A := omap (fun i => pq_data <$> pq_heap pq !! i) (seqZ 0 (pq_htop pq)).

Definition ossl_pqueue_num pq : Z := pq_htop pq.
End Ops.

#[global] Arguments pqueue_swap_elem : simpl never.
#[global] Arguments pqueue_move_elem : simpl never.
#[global] Arguments pqueue_add_freelist : simpl never.
#[global] Arguments smaller_child : simpl never.
#[global] Arguments free_handle : simpl never.
#[global] Arguments parent : simpl never.
#[global] Arguments arr_set : simpl never.

(** ** The order of a heap *)

(** What the documentation asks of the comparison function. *)
Class CompareOrder {A} (compare : A -> A -> Z) : Prop := {
  compare_sym a b : 0 <= compare a b -> compare b a <= 0;
  compare_trans a b c : compare a b <= 0 -> compare b c <= 0 -> compare a c <= 0 }.

Lemma parent_iff (n p : Z) : parent n = p <-> n = 2 * p + 1 \/ n = 2 * p + 2.
Proof. unfold parent. split; intros; Z.to_euclidean_division_equations; lia. Qed.

Lemma parent_bound (n : Z) : 0 < n -> 0 <= parent n < n.
Proof. unfold parent. intros. Z.to_euclidean_division_equations. lia. Qed.

Section Order.
Context {A : Type} (compare : A -> A -> Z) `{!CompareOrder compare}.
Implicit Types D : Z -> option A.

Definition le_at D (i j : Z) : Prop := exists a b, D i = Some a /\ D j = Some b /\ compare a b <= 0.

Lemma le_trans D (i j k : Z) : le_at D i j -> le_at D j k -> le_at D i k.
Proof. intros (a & b & ? & ? & ?) (b' & c & ? & ? & ?). simplify_eq. exists a, c. eauto using compare_trans. Qed.

Lemma le_refl D (i : Z) a : D i = Some a -> le_at D i i.
Proof.
  intros H. exists a, a. split_and!; try done. destruct (Z.le_gt_cases 0 (compare a a)) as [Hle|]; [by apply compare_sym|by apply Z.lt_le_incl].
Qed.

Lemma le_mono D D' (i j i' j' : Z) : le_at D i j -> D' i' = D i -> D' j' = D j -> le_at D' i' j'.
Proof. intros (a & b & ? & ? & ?) Hi Hj. exists a, b. by rewrite Hi, Hj. Qed.

(** Every element below [n] is no smaller than its parent, with exceptions. *)
Definition ord D (n : Z) (except : Z -> Prop) : Prop := forall i, 0 < i < n -> ~ except i -> le_at D (parent i) i.
Definition grand D (n k : Z) : Prop := 0 < k -> forall c, c < n -> parent c = k -> le_at D (parent k) c.
Definition heap_ordered D (n : Z) : Prop := ord D n (fun _ => False).

(** The first element is a smallest one. *)
Lemma root_least D (n : Z) : (forall i, 0 <= i < n -> exists a, D i = Some a) -> heap_ordered D n -> forall i, 0 <= i < n -> le_at D 0 i.
Proof.
  intros Hd Ho i. induction (Z.lt_wf 0 i) as [i _ IH]. intros Hi. destruct (Z.eq_dec i 0) as [->|]; [destruct (Hd 0 Hi); by eapply le_refl|].
  pose proof (parent_bound i ltac:(lia)). apply (le_trans _ _ (parent i)); [apply IH; lia|apply Ho; [lia|tauto]].
Qed.

Definition swapped D D' (i j : Z) : Prop := D' i = D j /\ D' j = D i /\ forall k, k <> i -> k <> j -> D' k = D k.

(** Rewrites the statements about [D'] to statements about [D] at each position that occurs. *)
Ltac at_swap Hs :=
  let Hi := fresh in let Hj := fresh in let Hk := fresh in destruct Hs as (Hi & Hj & Hk);
  first [ by rewrite Hi | by rewrite Hj | by rewrite Hk by lia | rewrite Hk by lia; done ].
Ltac le_from H := eapply le_mono; [exact H | ..].

Lemma swap_down D D' (n k : Z) : swapped D D' k (parent k) -> 0 < k < n -> ord D n (fun i => i = k) -> grand D n k -> le_at D k (parent k) ->
  ord D' n (fun i => i = parent k) /\ grand D' n (parent k).
Proof.
  intros Hs Hk Ho Hg Hle. pose proof (parent_bound k ltac:(lia)) as Hp. pose proof (proj1 (parent_iff k _) eq_refl) as Hkp. set (p := parent k) in *.
  assert (Hsib : forall c, c < n -> parent c = p -> c <> k -> le_at D p c).
  { intros c Hc Hpc Hck. apply parent_iff in Hpc as Hc'. rewrite <- Hpc. apply Ho; [lia|done]. }
  assert (Hup : 0 < p -> le_at D (parent p) p) by (intros; apply Ho; lia).
  split.
  - intros i Hi Hip. pose proof (proj1 (parent_iff i _) eq_refl) as Hpi. destruct (Z.eq_dec i k) as [->|Hik]; [fold p; le_from Hle; at_swap Hs|].
    destruct (Z.eq_dec (parent i) k) as [He|Hne]; [rewrite He; le_from (Hg ltac:(lia) i ltac:(lia) He); at_swap Hs|].
    destruct (Z.eq_dec (parent i) p) as [He|Hne']; [|le_from (Ho i Hi Hik); at_swap Hs].
    rewrite He. le_from (le_trans _ _ _ _ Hle (Hsib i ltac:(lia) He Hik)); at_swap Hs.
  - intros H0 c Hc Hpc. apply parent_iff in Hpc as Hc'. pose proof (parent_bound p H0). destruct (Z.eq_dec c k) as [->|Hck].
    + le_from (Hup H0); at_swap Hs.
    + le_from (le_trans _ _ _ _ (Hup H0) (Hsib c Hc Hpc Hck)); at_swap Hs.
Qed.

Lemma swap_up D D' (n k p : Z) : swapped D D' k p -> 0 <= k < n -> p < n -> parent p = k -> ord D n (fun i => parent i = k) -> grand D n k ->
  le_at D p k -> (forall c, c < n -> parent c = k -> le_at D p c) -> ord D' n (fun i => parent i = p) /\ grand D' n p.
Proof.
  intros Hs Hk Hp Hpk Ho Hg Hle Hmin. apply parent_iff in Hpk as Hpk'. split.
  - intros i Hi Hip. pose proof (proj1 (parent_iff i _) eq_refl) as Hpi. destruct (Z.eq_dec (parent i) k) as [He|Hne].
    + rewrite He. destruct (Z.eq_dec i p) as [->|Hne]; [le_from Hle; at_swap Hs|]. le_from (Hmin i ltac:(lia) He); at_swap Hs.
    + destruct (Z.eq_dec i k) as [->|Hik]; [le_from (Hg ltac:(lia) p Hp Hpk); at_swap Hs|].
      destruct (Z.eq_dec i p) as [->|Hne']; [lia|]. le_from (Ho i Hi Hne); at_swap Hs.
  - intros H0 c Hc Hpc. apply parent_iff in Hpc as Hc'. rewrite Hpk. assert (le_at D p c) as Hc2 by (rewrite <- Hpc; apply Ho; lia).
    le_from Hc2; at_swap Hs.
Qed.

Lemma swap_force D D' (n k : Z) : swapped D D' k (parent k) -> 0 < k < n -> ord D n (fun i => i = k \/ parent i = k) -> grand D n k ->
  ord D' n (fun i => i = parent k \/ parent i = parent k) /\ grand D' n (parent k).
Proof.
  intros Hs Hk Ho Hg. pose proof (parent_bound k ltac:(lia)) as Hp. pose proof (proj1 (parent_iff k _) eq_refl) as Hkp. set (p := parent k) in *.
  assert (Hup : 0 < p -> le_at D (parent p) p). { intros H0. pose proof (parent_bound p H0). apply Ho; lia. }
  split.
  - intros i Hi Hip. pose proof (proj1 (parent_iff i _) eq_refl) as Hpi. destruct (Z.eq_dec i k) as [->|Hik]; [tauto|].
    destruct (Z.eq_dec (parent i) k) as [He|Hne]; [rewrite He; le_from (Hg ltac:(lia) i ltac:(lia) He); at_swap Hs|].
    le_from (Ho i Hi ltac:(tauto)); at_swap Hs.
  - intros H0 c Hc Hpc. apply parent_iff in Hpc as Hc'. pose proof (parent_bound p H0). destruct (Z.eq_dec c k) as [->|Hck]; [le_from (Hup H0); at_swap Hs|].
    assert (Hc2 : le_at D p c) by (rewrite <- Hpc; apply Ho; lia). le_from (le_trans _ _ _ _ (Hup H0) Hc2); at_swap Hs.
Qed.
End Order.

(** ** The arrays *)

Fixpoint chain (els : gmap Z Z) (start : Z) (l : list Z) : Prop :=
  match l with
  | [] => True
  | x :: l => start = x /\ exists next, els !! x = Some next /\ chain els next l
  end.

Lemma chain_set (els : gmap Z Z) (x v start : Z) (l : list Z) : x ∉ l -> chain els start l -> chain (<[x := v]> els) start l.
Proof.
  revert start. induction l as [|y l IH]; intros start Hx; [done|]. apply not_elem_of_cons in Hx as [? ?].
  intros (-> & next & Hn & Hc). split; [done|]. exists next. rewrite lookup_insert_ne by done. eauto.
Qed.

Section Wf.
Context {A : Type}.
Implicit Types pq : OSSL_PQUEUE A.

Definition in_heap pq (i : Z) (d : A) (e : Z) : Prop := 0 <= i < pq_htop pq /\ pq_heap pq !! i = Some (mkCell d e).
(** The handle [e] belongs to the data [d]. *)
Definition holds pq (e : Z) (d : A) : Prop := exists i, in_heap pq i d e.
Definition dat pq (i : Z) : option A := pq_data <$> pq_heap pq !! i.

Record pq_wf pq (fl : list Z) : Prop := {
  wf_sizes : 0 <= pq_htop pq < pq_hmax pq /\ 8 <= pq_hmax pq <= max_nodes;
  wf_cells : forall i, 0 <= i < pq_htop pq -> exists d e, in_heap pq i d e;
  wf_posn : forall i d e, in_heap pq i d e -> 0 <= e < pq_hmax pq /\ pq_elements pq !! e = Some i;
  wf_chain : chain (pq_elements pq) (pq_freelist pq) fl;
  wf_free : forall e, e ∈ fl -> 0 <= e < pq_hmax pq /\ forall i d, ~ in_heap pq i d e;
  wf_nodup : NoDup fl }.

(** The same elements under the same handles, in another order. *)
Record rearranged pq pq' : Prop := {
  re_htop : pq_htop pq' = pq_htop pq;
  re_hmax : pq_hmax pq' = pq_hmax pq;
  re_holds : forall e d, holds pq' e d <-> holds pq e d }.

#[global] Instance rearranged_preorder : PreOrder rearranged.
Proof.
  split; [done|]. intros p q r [] []. split; [congruence..|]. intros e d. etransitivity; eauto.
Qed.

Lemma arr_set_ok {B} (a : gmap Z B) (n i : Z) (v : B) : 0 <= i < n -> arr_set a n i v = Some (<[i := v]> a).
Proof. intros. unfold arr_set. by rewrite (proj2 (Z.leb_le _ _)), (proj2 (Z.ltb_lt _ _)) by lia. Qed.

Lemma in_heap_inj pq fl (i j : Z) (d d' : A) (e : Z) : pq_wf pq fl -> in_heap pq i d e -> in_heap pq j d' e -> i = j /\ d = d'.
Proof.
  intros [_ _ Hp _ _ _] H1 H2. destruct (Hp _ _ _ H1) as [_ E1], (Hp _ _ _ H2) as [_ E2]. simplify_eq.
  destruct H1 as [_ H1], H2 as [_ H2]. by simplify_eq.
Qed.

Lemma holds_inj pq fl (e : Z) (d d' : A) : pq_wf pq fl -> holds pq e d -> holds pq e d' -> d = d'.
Proof. intros Hw [i H1] [j H2]. by eapply in_heap_inj. Qed.

Lemma swap_spec pq fl (i j : Z) : pq_wf pq fl -> 0 <= i < pq_htop pq -> 0 <= j < pq_htop pq -> i <> j ->
  exists pq', pqueue_swap_elem pq i j = Some pq' /\ pq_wf pq' fl /\ rearranged pq pq' /\ swapped (dat pq) (dat pq') i j /\
    forall d e, in_heap pq' j d e <-> in_heap pq i d e.
Proof.
  intros Hw Hi Hj Hij. destruct (wf_cells _ _ Hw i Hi) as (di & ei & [_ Ci]), (wf_cells _ _ Hw j Hj) as (dj & ej & [_ Cj]).
  assert (Hei : in_heap pq i di ei) by done. assert (Hej : in_heap pq j dj ej) by done.
  assert (Hne : ei <> ej) by (intros ->; by destruct (in_heap_inj _ _ _ _ _ _ _ Hw Hei Hej)).
  destruct Hw as [W1 W2 W3 W4 W5 W6]. destruct (W3 _ _ _ Hei) as [Bi Ei], (W3 _ _ _ Hej) as [Bj Ej].
  unfold pqueue_swap_elem. rewrite Ci, Cj. cbn [mbind option_bind pq_index]. rewrite arr_set_ok by done. cbn [mbind option_bind]. rewrite arr_set_ok by done.
  cbn [mbind option_bind]. eexists. split; [done|].
  set (pq' := pq <| pq_heap := _ |> <| pq_elements := _ |>).
  assert (Hin : forall k d e, in_heap pq' k d e <-> in_heap pq (if decide (k = i) then j else if decide (k = j) then i else k) d e).
  { intros k d e. unfold in_heap, pq'. cbn. destruct (decide (k = i)) as [->|Hki]; [|destruct (decide (k = j)) as [->|Hkj]].
    - rewrite lookup_insert_ne, lookup_insert_eq, Cj by done. by split; intros [_ ?].
    - rewrite lookup_insert_eq, Ci. by split; intros [_ ?].
    - by rewrite !lookup_insert_ne by done. }
  assert (Hre : rearranged pq pq').
  { split; [done..|]. intros e d. split; intros [k Hk].
    { apply Hin in Hk. eexists; exact Hk. }
    exists (if decide (k = i) then j else if decide (k = j) then i else k). apply Hin. by repeat case_decide; subst. }
  split; [|split; [done|split]].
  3: { intros d e. rewrite Hin. case_decide; [done|]. by case_decide. }
  - split; try done; cbn.
    + intros k Hk. destruct (W2 (if decide (k = i) then j else if decide (k = j) then i else k)) as (d & e & He); [by repeat case_decide|].
      exists d, e. by apply Hin.
    + intros k d e Hk. apply Hin in Hk. destruct (W3 _ _ _ Hk) as [? He]. split; [done|]. repeat case_decide; subst.
      * assert (e = ej) as -> by (destruct Hk; simplify_eq; done). by rewrite lookup_insert_ne, lookup_insert_eq.
      * assert (e = ei) as -> by (destruct Hk; simplify_eq; done). by rewrite lookup_insert_eq.
      * by rewrite !lookup_insert_ne by congruence.
    + apply chain_set; [intros [_ Hn]%W5; by eapply Hn|]. apply chain_set; [|done]. intros [_ Hn]%W5. by eapply Hn.
    + intros e He. destruct (W5 e He) as [? Hn]. split; [done|]. intros k d Hk%Hin. by eapply Hn.
  - unfold swapped, dat, pq'. cbn. split_and!.
    + by rewrite lookup_insert_ne, lookup_insert_eq, Cj.
    + by rewrite lookup_insert_eq, Ci.
    + intros k Hki Hkj. by rewrite !lookup_insert_ne.
Qed.
End Wf.

(** ** The loops *)

Section Loops.
Context {A : Type} (compare : A -> A -> Z) `{!CompareOrder compare}.
Implicit Types pq : OSSL_PQUEUE A.

Abbreviation ord' pq := (ord compare (dat pq) (pq_htop pq)).
Abbreviation grand' pq := (grand compare (dat pq) (pq_htop pq)).

Lemma force_spec (fuel : nat) pq fl (n : Z) : pq_wf pq fl -> 0 <= n < pq_htop pq -> n <= Z.of_nat fuel ->
  ord' pq (fun i => i = n \/ parent i = n) -> grand' pq n -> exists pq' d e, pqueue_force_bottom fuel pq n = Some pq' /\ pq_wf pq' fl /\ rearranged pq pq' /\
    ord' pq' (fun i => parent i = 0) /\ in_heap pq n d e /\ in_heap pq' 0 d e.
Proof.
  revert pq n. induction fuel as [|fuel IH]; intros pq n Hw Hn Hf Ho Hg; cbn; destruct (Z.ltb_spec 0 n) as [H0|H0]; try lia; cbn.
  1, 3: assert (n = 0) as -> by lia; destruct (wf_cells _ _ Hw 0 Hn) as (d & e & Hc); exists pq, d, e; split_and!; try done;
    intros i Hi Hpi; (apply Ho; [done|]); (intros [?|?]; [lia|done]).
  pose proof (parent_bound n H0). destruct (wf_cells _ _ Hw n Hn) as (d & e & Hc).
  destruct (swap_spec pq fl n (parent n)) as (pq1 & -> & Hw1 & Hr1 & Hs1 & Hin1); [done|done|lia..|]. cbn [mbind option_bind].
  destruct (swap_force compare _ _ (pq_htop pq) n Hs1 ltac:(lia) Ho Hg) as [Ho1 Hg1]. pose proof (re_htop _ _ Hr1) as Hht.
  destruct (IH pq1 (parent n)) as (pq2 & d2 & e2 & H2 & Hw2 & Hr2 & Ho2 & Hc1 & Hc2); [done|lia|lia|by rewrite Hht..|].
  exists pq2, d2, e2. split_and!; try done; [by transitivity pq1|by apply Hin1].
Qed.

Lemma move_down_spec (fuel : nat) pq fl (n : Z) : pq_wf pq fl -> 0 <= n < pq_htop pq -> n <= Z.of_nat fuel ->
  ord' pq (fun i => i = n) -> grand' pq n -> exists pq', pqueue_move_down compare fuel pq n = Some pq' /\ pq_wf pq' fl /\ rearranged pq pq' /\
    heap_ordered compare (dat pq') (pq_htop pq').
Proof.
  revert pq n. induction fuel as [|fuel IH]; intros pq n Hw Hn Hf Ho Hg; cbn; destruct (Z.ltb_spec 0 n) as [H0|H0]; try lia; cbn.
  1, 3: exists pq; split_and!; try done; intros i Hi _; apply Ho; lia.
  pose proof (parent_bound n H0). destruct (wf_cells _ _ Hw n Hn) as (d & e & [_ Hc]), (wf_cells _ _ Hw (parent n) ltac:(lia)) as (dp & ep & [_ Hp]).
  rewrite Hc, Hp. cbn [mbind option_bind pq_data].
  assert (Hle : forall i j di ei dj ej, pq_heap pq !! i = Some (mkCell di ei) -> pq_heap pq !! j = Some (mkCell dj ej) -> compare di dj <= 0 -> le_at compare (dat pq) i j).
  { intros i j di ei dj ej Hi Hj ?. exists di, dj. unfold dat. by rewrite Hi, Hj. }
  destruct (Z.leb_spec 0 (compare d dp)) as [Hcmp|Hcmp].
  - exists pq. split_and!; try done. intros i Hi _. destruct (Z.eq_dec i n) as [->|]; [|by apply Ho]. eapply Hle; [done..|]. by apply compare_sym.
  - destruct (swap_spec pq fl n (parent n)) as (pq1 & -> & Hw1 & Hr1 & Hs1 & _); [done|done|lia..|]. cbn [mbind option_bind].
    destruct (swap_down compare _ _ (pq_htop pq) n Hs1 ltac:(lia) Ho Hg) as [Ho1 Hg1]; [eapply Hle; [done..|lia]|]. pose proof (re_htop _ _ Hr1) as Hht.
    destruct (IH pq1 (parent n)) as (pq2 & H2 & Hw2 & Hr2 & Ho2); [done|lia|lia|by rewrite Hht..|].
    exists pq2. split_and!; try done. by transitivity pq1.
Qed.

Lemma smaller_child_spec pq fl (n : Z) : pq_wf pq fl -> 0 <= n -> exists p, smaller_child compare pq n = Some p /\ parent p = n /\ n < p /\
  (p < pq_htop pq -> forall c, c < pq_htop pq -> parent c = n -> le_at compare (dat pq) p c) /\ (pq_htop pq <= p -> forall c, 0 < c -> parent c = n -> pq_htop pq <= c).
Proof.
  intros Hw Hn. unfold smaller_child. destruct (Z.ltb_spec (n * 2 + 1 + 1) (pq_htop pq)) as [H2|H2].
  - destruct (wf_cells _ _ Hw (n * 2 + 1) ltac:(lia)) as (d1 & e1 & [_ C1]), (wf_cells _ _ Hw (n * 2 + 1 + 1) ltac:(lia)) as (d2 & e2 & [_ C2]).
    rewrite C1, C2. cbn [mbind option_bind pq_data].
    assert (D1 : dat pq (n * 2 + 1) = Some d1) by (unfold dat; by rewrite C1). assert (D2 : dat pq (n * 2 + 1 + 1) = Some d2) by (unfold dat; by rewrite C2).
    destruct (Z.ltb_spec 0 (compare d1 d2)) as [Hcmp|Hcmp]; eexists; (split; [done|]); (split; [apply parent_iff; lia|]); (split; [lia|]); (split; [|lia]);
      intros _ c Hc Hpc; apply parent_iff in Hpc as [Hc1|Hc1].
    + exists d2, d1. replace c with (n * 2 + 1) by lia. split_and!; try done. apply compare_sym. lia.
    + replace c with (n * 2 + 1 + 1) by lia. by eapply le_refl.
    + replace c with (n * 2 + 1) by lia. by eapply le_refl.
    + exists d1, d2. by replace c with (n * 2 + 1 + 1) by lia.
  - exists (n * 2 + 1). split; [done|]. split; [apply parent_iff; lia|]. split; [lia|]. split.
    + intros Hp c Hc Hpc. apply parent_iff in Hpc. replace c with (n * 2 + 1) by lia. destruct (wf_cells _ _ Hw (n * 2 + 1) ltac:(lia)) as (d1 & e1 & [_ C1]).
      eapply (le_refl _ _ _ d1). unfold dat. by rewrite C1.
    + intros Hp c H0 Hpc. apply parent_iff in Hpc. lia.
Qed.

Lemma move_up_spec (fuel : nat) pq fl (n : Z) : pq_wf pq fl -> 0 <= n < pq_htop pq -> pq_htop pq - n <= Z.of_nat fuel ->
  ord' pq (fun i => parent i = n) -> grand' pq n -> exists pq', pqueue_move_up compare fuel pq n = Some pq' /\ pq_wf pq' fl /\ rearranged pq pq' /\
    heap_ordered compare (dat pq') (pq_htop pq').
Proof.
  revert pq n. induction fuel as [|fuel IH]; intros pq n Hw Hn Hf Ho Hg; [lia|]. cbn [pqueue_move_up].
  destruct (smaller_child_spec pq fl n Hw ltac:(lia)) as (p & -> & Hpp & Hnp & Hmin & Hmax). cbn [mbind option_bind].
  assert (Hdone : (forall c, 0 < c < pq_htop pq -> parent c = n -> le_at compare (dat pq) n c) -> heap_ordered compare (dat pq) (pq_htop pq)).
  { intros Hc i Hi _. destruct (Z.eq_dec (parent i) n) as [He|He]; [rewrite He; by apply Hc|by apply Ho]. }
  destruct (Z.ltb_spec p (pq_htop pq)) as [Hp|Hp].
  2: { exists pq. split_and!; try done. apply Hdone. intros c Hc Hpc. specialize (Hmax Hp c ltac:(lia) Hpc). lia. }
  destruct (wf_cells _ _ Hw n Hn) as (d & e & [_ Hc]), (wf_cells _ _ Hw p ltac:(lia)) as (dp & ep & [_ Hcp]). rewrite Hc, Hcp. cbn [mbind option_bind pq_data].
  assert (Dn : dat pq n = Some d) by (unfold dat; by rewrite Hc). assert (Dp : dat pq p = Some dp) by (unfold dat; by rewrite Hcp).
  destruct (Z.ltb_spec (compare dp d) 0) as [Hcmp|Hcmp].
  - destruct (swap_spec pq fl n p) as (pq1 & -> & Hw1 & Hr1 & Hs1 & _); [done|done|lia..|]. cbn [mbind option_bind].
    destruct (swap_up compare _ _ (pq_htop pq) n p Hs1 Hn Hp Hpp Ho Hg) as [Ho1 Hg1]; [exists dp, d; split_and!; try done; lia|by apply Hmin|]. pose proof (re_htop _ _ Hr1) as Hht.
    destruct (IH pq1 p) as (pq2 & H2 & Hw2 & Hr2 & Ho2); [done|lia|lia|by rewrite Hht..|]. exists pq2. split_and!; try done. by transitivity pq1.
  - exists pq. split_and!; try done. apply Hdone. intros c Hc' Hpc. apply (le_trans _ _ n p c); [|apply (Hmin Hp c); [lia|done]].
    exists d, dp. split_and!; try done. by apply compare_sym.
Qed.
End Loops.

(** ** Growth *)

Lemma growth_muldiv (c : Z) : 0 <= c <= max_nodes -> safe_muldiv c 8 5 false = (c * 8 / 5, false).
Proof.
  intros Hc. change max_nodes with 1152921504606846975 in Hc. unfold safe_muldiv, safe_mul. cbn [Z.eqb orb].
  rewrite (proj2 (Z.leb_gt _ _)) by u64_side. cbn [negb]. by rewrite mul64_small by u64_side.
Qed.

Lemma growth_spec (fuel : nat) (t c : Z) : 8 <= c <= max_nodes -> max_nodes * 2 ^ Z.of_nat fuel <= c * 3 ^ Z.of_nat fuel ->
  exists r, growth_loop (S fuel) t c = Some r /\ (r = 0 \/ t <= r /\ c <= r <= max_nodes) /\ (t <= max_nodes -> r <> 0).
Proof.
  revert c. induction fuel as [|fuel IH]; intros c Hc Hf.
  - change (Z.of_nat 0) with 0 in Hf. rewrite !Z.pow_0_r in Hf. cbn [growth_loop]. destruct (Z.ltb_spec c t); cbn [negb]; [|exists c; split_and!; [done|lia|lia]]. rewrite (proj2 (Z.leb_le _ _)) by lia. exists 0. split_and!; [done|lia|lia].
  - rewrite Nat2Z.inj_succ, !Z.pow_succ_r in Hf by lia. remember (S fuel) as f. cbn [growth_loop]. subst f.
    destruct (Z.ltb_spec c t); cbn [negb]; [|exists c; split_and!; [done|lia|lia]]. destruct (Z.leb_spec max_nodes c); [exists 0; split_and!; [done|lia|lia]|].
    rewrite growth_muldiv by lia. assert (3 * c <= 2 * (c * 8 / 5)) by (Z.to_euclidean_division_equations; lia).
    pose proof (Z.pow_pos_nonneg 3 (Z.of_nat fuel) ltac:(lia) ltac:(lia)). pose proof (Z.pow_pos_nonneg 2 (Z.of_nat fuel) ltac:(lia) ltac:(lia)).
    assert (2 ^ Z.of_nat fuel <= 3 ^ Z.of_nat fuel) by (apply Z.pow_le_mono_l; lia).
    destruct (Z.leb_spec max_nodes (c * 8 / 5)).
    + destruct (IH max_nodes) as (r & -> & Hr & Hr0); [lia|nia|]. exists r. split_and!; [done| |done]. lia.
    + destruct (IH (c * 8 / 5)) as (r & -> & Hr & Hr0); [lia|nia|]. exists r. split_and!; [done| |done]. lia.
Qed.

Lemma compute_growth_spec (t c : Z) : 8 <= c <= max_nodes ->
  exists r, compute_pqueue_growth t c = Some r /\ (r = 0 \/ t <= r /\ c <= r <= max_nodes) /\ (t <= max_nodes -> r <> 0).
Proof.
  intros Hc. apply (growth_spec 109); [done|]. etransitivity; [|apply Z.mul_le_mono_nonneg_r; [|apply Hc]]; [by vm_compute|by vm_compute].
Qed.

(** ** The free list *)

Lemma fold_links (els : gmap Z Z) (a : Z) (n : nat) (i : Z) :
  fold_left (fun e i => <[i := i - 1]> e) (seqZ a (Z.of_nat n)) els !! i = if decide (a <= i < a + Z.of_nat n) then Some (i - 1) else els !! i.
Proof.
  revert els a. induction n as [|n IH]; intros els a; [cbn; by rewrite decide_False by lia|].
  rewrite seqZ_cons by lia. cbn [fold_left]. replace (Z.pred (Z.of_nat (S n))) with (Z.of_nat n) by lia. rewrite IH.
  destruct (decide (i = a)) as [->|Hne]; [rewrite decide_False, decide_True, lookup_insert_eq by lia; done|]. rewrite lookup_insert_ne by done.
  destruct (decide (Z.succ a <= i < Z.succ a + Z.of_nat n)); [by rewrite decide_True by lia|by rewrite decide_False by lia].
Qed.

Lemma chain_ext (els els' : gmap Z Z) (start : Z) (l : list Z) : (forall x, x ∈ l -> els' !! x = els !! x) -> chain els start l -> chain els' start l.
Proof.
  revert start. induction l as [|y l IH]; intros start Hx; [done|]. intros (-> & next & Hn & Hc). split; [done|]. exists next.
  split; [rewrite Hx; [done|set_solver]|]. apply IH; [|done]. set_solver.
Qed.

Lemma seqZ_one (a : Z) : seqZ a 1 = [a].
Proof. by rewrite seqZ_cons by lia. Qed.

Lemma chain_block (els : gmap Z Z) (a old : Z) (n : nat) (l : list Z) : els !! a = Some old -> (forall i, a < i <= a + Z.of_nat n -> els !! i = Some (i - 1)) ->
  chain els old l -> chain els (a + Z.of_nat n) (rev (seqZ a (Z.of_nat (S n))) ++ l).
Proof.
  intros Ha Hi Hl. induction n as [|n IH].
  - change (Z.of_nat 1) with 1. rewrite (seqZ_one a). cbn. rewrite Z.add_0_r. eauto.
  - replace (Z.of_nat (S (S n))) with (Z.of_nat (S n) + 1) by lia. rewrite seqZ_app by lia. rewrite rev_app_distr. cbn [rev app]. rewrite <- app_assoc.
    rewrite seqZ_one. cbn [rev app chain].
    split; [done|]. exists (a + Z.of_nat n). split; [rewrite Hi by lia; f_equal; lia|]. apply IH. intros i Hb. apply Hi. lia.
Qed.

(** ** A queue as a finite map *)

Section Rep.
Context {A : Type} (compare : A -> A -> Z) `{!CompareOrder compare}.
Implicit Types pq : OSSL_PQUEUE A.
Implicit Types M : gmap Z A.

(** The queue in order holds exactly the elements of [M] under their handles. *)
Record pq_rep pq M : Prop := {
  rep_list : exists fl, pq_wf pq fl /\ Z.of_nat (length fl) = pq_hmax pq - pq_htop pq;
  rep_ord : heap_ordered compare (dat pq) (pq_htop pq);
  rep_map : forall e d, holds pq e d <-> M !! e = Some d;
  rep_size : Z.of_nat (size M) = pq_htop pq }.

Lemma add_freelist_spec pq fl (m : Z) : pq_wf pq fl -> Z.of_nat (length fl) = pq_hmax pq - pq_htop pq -> pq_hmax pq < m <= max_nodes ->
  exists pq' fl', pqueue_add_freelist (pq <| pq_hmax := m |>) (pq_hmax pq) = Some pq' /\ pq_wf pq' fl' /\ Z.of_nat (length fl') = m - pq_htop pq /\
    pq_hmax pq' = m /\ pq_htop pq' = pq_htop pq /\ pq_heap pq' = pq_heap pq.
Proof.
  intros [W1 W2 W3 W4 W5 W6] Hl Hm. unfold pqueue_add_freelist. cbn. rewrite arr_set_ok by lia. cbn.
  set (els1 := <[pq_hmax pq := pq_freelist pq]> (pq_elements pq)). set (n := Z.to_nat (m - pq_hmax pq - 1)).
  replace (m - pq_hmax pq - 1) with (Z.of_nat n) by lia. set (els := fold_left _ _ _).
  assert (Hels : forall i, els !! i = if decide (pq_hmax pq < i < m) then Some (i - 1) else if decide (i = pq_hmax pq) then Some (pq_freelist pq) else pq_elements pq !! i).
  { intros i. unfold els. rewrite fold_links. destruct (decide (pq_hmax pq < i < m)); [by rewrite decide_True by lia|]. rewrite decide_False by lia.
    unfold els1. case_decide; subst; [by rewrite lookup_insert_eq|by rewrite lookup_insert_ne]. }
  assert (Hold : forall i, 0 <= i < pq_hmax pq -> els !! i = pq_elements pq !! i) by (intros; rewrite Hels, !decide_False by lia; done).
  exists (pq <| pq_hmax := m |> <| pq_elements := els |> <| pq_freelist := m - 1 |>), (rev (seqZ (pq_hmax pq) (m - pq_hmax pq)) ++ fl).
  split; [done|]. split; [|split_and!; [|done..]].
  - split; cbn; [lia|done| | | |].
    + intros i d e Hi. destruct (W3 i d e Hi). split; [lia|]. by rewrite Hold.
    + replace (m - 1) with (pq_hmax pq + Z.of_nat n) by lia. replace (m - pq_hmax pq) with (Z.of_nat (S n)) by lia. apply (chain_block _ _ (pq_freelist pq)).
      * by rewrite Hels, decide_False, decide_True by lia.
      * intros i Hi. by rewrite Hels, decide_True by lia.
      * eapply chain_ext; [|exact W4]. intros x [Hx _]%W5. by apply Hold.
    + intros e [He%list_elem_of_In%in_rev%list_elem_of_In%elem_of_seqZ|He]%elem_of_app; [|destruct (W5 e He); split; [lia|done]].
      split; [lia|]. intros i d Hi. destruct (W3 i d e Hi). lia.
    + apply NoDup_app. split; [|split; [|done]].
      * rewrite <- Permutation_rev. apply NoDup_seqZ.
      * intros x Hx%list_elem_of_In%in_rev%list_elem_of_In%elem_of_seqZ [Hf _]%W5. lia.
  - rewrite length_app, length_rev, length_seqZ. lia.
Qed.

Lemma same_rep pq pq' fl' M : pq_rep pq M -> pq_wf pq' fl' -> Z.of_nat (length fl') = pq_hmax pq' - pq_htop pq' -> pq_htop pq' = pq_htop pq -> pq_heap pq' = pq_heap pq ->
  pq_rep pq' M.
Proof.
  intros [[fl [Hw Hl]] R2 R3 R4] Hw' Hl' Ht Hh. split; [by exists fl'| | |by rewrite Ht].
  - rewrite Ht. unfold dat. by rewrite Hh.
  - intros e d. rewrite <- R3. unfold holds, in_heap. by rewrite Ht, Hh.
Qed.

Lemma reserve_spec (ah ae : bool) pq M (n : Z) : pq_rep pq M -> 0 <= n < 2 ^ 62 -> exists pq' b, ossl_pqueue_reserve ah ae pq n = Some (pq', b) /\ pq_rep pq' M /\
  pq_htop pq' = pq_htop pq /\ (b = true -> pq_htop pq + n < pq_hmax pq') /\ (b = false -> ah = false \/ ae = false \/ pq_hmax pq <= pq_htop pq + n /\ max_nodes < pq_hmax pq + n).
Proof.
  intros Hr Hn. pose proof Hr as [[fl [Hw Hl]] R2 R3 R4]. pose proof (wf_sizes _ _ Hw) as [S1 S2]. unfold ossl_pqueue_reserve.
  change max_nodes with 1152921504606846975 in *. change (2 ^ 62) with 4611686018427387904 in Hn. rewrite !add64_small by u64_side.
  destruct (Z.ltb_spec (pq_htop pq + n) (pq_hmax pq)) as [H1|H1]; [by exists pq, true|].
  destruct (compute_growth_spec (n + pq_hmax pq) (pq_hmax pq)) as (r & -> & Hgr & Hg0); [done|]. cbn [mbind option_bind].
  change max_nodes with 1152921504606846975 in *. destruct (Z.eqb_spec r 0) as [->|Hnz].
  { exists pq, false. split_and!; try done. intros _. right. right. lia. }
  destruct ah; cbn [negb]; [|by exists pq, false; naive_solver]. destruct ae; cbn [negb]; [|by exists pq, false; naive_solver].
  destruct (add_freelist_spec pq fl r Hw Hl) as (pq' & fl' & -> & Hw' & Hl' & Hmax & Ht & Hh); [change max_nodes with 1152921504606846975; lia|].
  cbn [mbind option_bind]. exists pq', true. split_and!; try done; [|lia]. eapply same_rep; try done. by rewrite Hmax, Ht.
Qed.

Lemma push_cell pq fl (data : A) (m next : Z) : let n := pq_htop pq in pq_wf pq (m :: fl) -> pq_elements pq !! m = Some next -> n + 1 < pq_hmax pq ->
  let pq' := pq <| pq_htop := n + 1 |> <| pq_freelist := next |> <| pq_heap := <[n := mkCell data m]> (pq_heap pq) |> <| pq_elements := <[m := n]> (pq_elements pq) |> in
  pq_wf pq' fl /\ (forall i d e, in_heap pq' i d e <-> (i = n /\ d = data /\ e = m) \/ in_heap pq i d e) /\ forall i, i <> n -> dat pq' i = dat pq i.
Proof.
  intros n [W1 W2 W3 W4 W5 W6] Hnext Hn pq'. destruct W4 as (W4 & nx & Hnx & W7). apply NoDup_cons in W6 as [Hmf W6].
  destruct (W5 m ltac:(left)) as [Bm Fm].
  assert (Hin : forall i d e, in_heap pq' i d e <-> (i = n /\ d = data /\ e = m) \/ in_heap pq i d e).
  { intros i d e. unfold in_heap, pq'. cbn. fold n. destruct (Z.eq_dec i n) as [->|Hi].
    - rewrite lookup_insert_eq. split; [intros [_ [= <- <-]]; tauto|]. intros [(_ & -> & ->)|]; [|lia]. split; [lia|done].
    - rewrite lookup_insert_ne by done. split; [intros [? ?]; right; split; [lia|done]|]. intros [?|[? ?]]; [tauto|]. split; [lia|done]. }
  split_and!; [|done|].
  - split; cbn; fold n; [lia| | | | |done].
    + intros i Hi. destruct (Z.eq_dec i n) as [->|]; [by exists data, m; apply Hin; left|]. destruct (W2 i ltac:(lia)) as (d & e & ?). exists d, e. apply Hin. by right.
    + intros i d e [(-> & -> & ->)|Hi]%Hin; [by rewrite lookup_insert_eq|]. destruct (W3 _ _ _ Hi). split; [done|]. rewrite lookup_insert_ne; [done|].
      intros ->. by eapply Fm.
    + simplify_eq. by apply chain_set.
    + intros e He. destruct (W5 e ltac:(by right)) as [? Hf]. split; [done|]. intros i d [(_ & _ & ->)|Hi]%Hin; [done|]. by eapply Hf.
  - intros i Hi. unfold dat, pq'. cbn. by rewrite lookup_insert_ne.
Qed.

Lemma pqueue_push_spec (ah ae : bool) pq M (data : A) : pq_rep pq M -> exists pq' r, ossl_pqueue_push compare ah ae pq data = Some (pq', r) /\
  match r with
  | Some e => M !! e = None /\ pq_rep pq' (<[e := data]> M)
  | None => pq_rep pq' M /\ (ah = false \/ ae = false \/ max_nodes <= pq_htop pq + 1)
  end.
Proof.
  intros Hr. unfold ossl_pqueue_push. destruct (reserve_spec ah ae pq M 1 Hr ltac:(lia)) as (pq1 & b & -> & Hr1 & Ht1 & Hb1 & Hb2). cbn [mbind option_bind].
  destruct b; cbn [negb]; [|exists pq1, None; split; [done|]; split; [done|]; destruct (Hb2 eq_refl) as [|[|]]; auto; lia].
  specialize (Hb1 eq_refl). pose proof Hr1 as [[fl [Hw Hl]] R2 R3 R4]. pose proof (wf_sizes _ _ Hw) as [S1 S2].
  destruct fl as [|m fl]; [cbn in Hl; lia|]. pose proof (wf_chain _ _ Hw) as (Hm & next & Hnext & _). pose proof (wf_free _ _ Hw m ltac:(left)) as [Bm Fm].
  rewrite Hm, Hnext. cbn [mbind option_bind]. rewrite arr_set_ok by lia. cbn [mbind option_bind]. rewrite arr_set_ok by lia. cbn [mbind option_bind].
  change max_nodes with 1152921504606846975 in S2. rewrite add64_small by u64_side.
  destruct (push_cell pq1 fl data m next Hw Hnext ltac:(lia)) as (Hw2 & Hin & Hdat). set (pq2 := _ <| pq_elements := _ |>) in *. change (pq_htop pq2) with (pq_htop pq1 + 1) in *.
  destruct (move_down_spec compare (Z.to_nat (pq_htop pq1)) pq2 fl (pq_htop pq1) Hw2) as (pq3 & -> & Hw3 & Hr3 & Ho3).
  { change (pq_htop pq2) with (pq_htop pq1 + 1). lia. }
  { lia. }
  { intros i Hi Hne. change (pq_htop pq2) with (pq_htop pq1 + 1) in Hi. pose proof (parent_bound i ltac:(lia)).
    eapply le_mono; [apply (R2 i ltac:(lia)); tauto| |]; apply Hdat; lia. }
  { intros H0 c Hc Hpc. change (pq_htop pq2) with (pq_htop pq1 + 1) in Hc. apply parent_iff in Hpc. lia. }
  cbn [mbind option_bind]. exists pq3, (Some m). split; [done|]. destruct Hr3 as [T3 X3 H3].
  assert (Hnone : M !! m = None). { destruct (M !! m) as [d|] eqn:E; [|done]. apply R3 in E as [i Hi]. exfalso. by eapply Fm. }
  split; [done|]. split; [exists fl| |intros e d|].
  - split; [done|]. rewrite T3, X3. cbn in Hl. change (pq_hmax pq2) with (pq_hmax pq1). change (pq_htop pq2) with (pq_htop pq1 + 1). lia.
  - done.
  - rewrite H3. rewrite lookup_insert_Some, <- R3. unfold holds. setoid_rewrite Hin. split.
    + intros [i [(_ & -> & ->)|Hi]]; [by left|]. right. split; [intros ->; by eapply Fm|by exists i].
    + intros [[<- <-]|[? [i Hi]]]; [by exists (pq_htop pq1); left|exists i; by right].
  - rewrite map_size_insert_None, T3 by done. change (pq_htop pq2) with (pq_htop pq1 + 1). lia.
Qed.

Lemma free_handle_spec pq fl (e : Z) : pq_wf pq fl -> 0 <= e < pq_hmax pq -> e ∉ fl -> (forall i d, ~ in_heap pq i d e) ->
  exists pq', free_handle pq e = Some pq' /\ pq_wf pq' (e :: fl) /\ pq_heap pq' = pq_heap pq /\ pq_htop pq' = pq_htop pq /\ pq_hmax pq' = pq_hmax pq.
Proof.
  intros [W1 W2 W3 W4 W5 W6] He Hn Hf. unfold free_handle. rewrite arr_set_ok by done. cbn [mbind option_bind]. eexists. split; [done|]. split; [|done].
  split; cbn; [done|done| | | |by apply NoDup_cons].
  - intros i d x Hi. destruct (W3 i d x Hi) as [? Hx]. split; [done|]. rewrite lookup_insert_ne; [done|]. intros ->. by eapply Hf.
  - split; [done|]. exists (pq_freelist pq). rewrite lookup_insert_eq. split; [done|]. by apply chain_set.
  - intros x [->|Hx]%elem_of_cons; [done|by apply W5].
Qed.

(** The last cell dropped. *)
Lemma drop_last pq fl (t : Z) d e : pq_htop pq = t + 1 -> pq_wf pq fl -> in_heap pq t d e ->
  let pq' := pq <| pq_htop := t |> in pq_wf pq' fl /\ (forall i d' e', in_heap pq' i d' e' <-> in_heap pq i d' e' /\ e' <> e) /\ e ∉ fl.
Proof.
  intros Ht Hw Hl pq'. pose proof Hw as [W1 W2 W3 W4 W5 W6]. pose proof Hl as [Bt _].
  assert (Hin : forall i d' e', in_heap pq' i d' e' <-> in_heap pq i d' e' /\ e' <> e).
  { intros i d' e'. split.
    - intros [Hi Hc]. cbn in Hi, Hc. assert (Hi' : in_heap pq i d' e') by (split; [lia|done]). split; [done|]. intros ->.
      destruct (in_heap_inj _ _ _ _ _ _ _ Hw Hi' Hl). lia.
    - intros [Hi Hne]. destruct (Z.eq_dec i t) as [->|].
      + destruct (W3 _ _ _ Hl), (W3 _ _ _ Hi). destruct Hl as [_ Hl], Hi as [_ Hi]. simplify_eq.
      + destruct Hi. split; cbn; [lia|done]. }
  split_and!; [|done|intros [_ Hf]%W5; by eapply Hf].
  split; cbn; [lia| | |done| |done].
  - intros i Hi. destruct (W2 i ltac:(lia)) as (d' & e' & [? ?]). by exists d', e'.
  - intros i d' e' [Hi _]%Hin. by apply (W3 i d' e').
  - intros x Hx. destruct (W5 x Hx) as [? Hf]. split; [done|]. intros i d' [Hi _]%Hin. by eapply Hf.
Qed.

(** The last cell moved to the place of the first, of handle [e]. *)
Lemma move_last pq fl (t : Z) d e : pq_htop pq = t + 1 -> 0 < t -> pq_wf pq fl -> in_heap pq 0 d e -> exists pq', pqueue_move_elem (pq <| pq_htop := t |>) t 0 = Some pq' /\
  pq_wf pq' fl /\ pq_htop pq' = t /\ pq_hmax pq' = pq_hmax pq /\ (forall e' d', holds pq' e' d' <-> holds pq e' d' /\ e' <> e) /\ (forall i, 0 < i -> dat pq' i = dat pq i).
Proof.
  intros Ht H0 Hw Hr. pose proof Hw as [W1 W2 W3 W4 W5 W6]. destruct (W2 t ltac:(lia)) as (dt & et & Hl). destruct (W3 _ _ _ Hl) as [Bt Et].
  unfold pqueue_move_elem. cbn. rewrite (proj2 Hl). cbn. rewrite arr_set_ok by lia. cbn. rewrite arr_set_ok by lia. cbn. eexists. split; [done|].
  set (pq' := mkPq _ _ _ _ _).
  assert (Hin : forall i d' e', in_heap pq' i d' e' <-> (i = 0 /\ d' = dt /\ e' = et) \/ (0 < i < t /\ in_heap pq i d' e')).
  { intros i d' e'. unfold in_heap, pq'. cbn. destruct (Z.eq_dec i 0) as [->|Hi].
    - rewrite lookup_insert_eq. split; [intros [_ [= <- <-]]; tauto|]. intros [(_ & -> & ->)|]; [split; [lia|done]|lia].
    - rewrite lookup_insert_ne by done. split; [intros [? ?]; right; split; [lia|split; [lia|done]]|]. intros [?|[? [? ?]]]; [tauto|]. split; [lia|done]. }
  assert (Huse : forall i d' e', in_heap pq' i d' e' -> exists j, in_heap pq j d' e' /\ j <> 0).
  { intros i d' e' [(_ & -> & ->)|[? ?]]%Hin; [exists t; split; [done|lia]|exists i; split; [done|lia]]. }
  split; [|split_and!; [done..| |]].
  - split; cbn; [lia| | | | |done].
    + intros i Hi. destruct (Z.eq_dec i 0) as [->|]; [exists dt, et; apply Hin; by left|]. destruct (W2 i ltac:(lia)) as (d' & e' & ?). exists d', e'. apply Hin. right. split; [lia|done].
    + intros i d' e' [(-> & -> & ->)|[Hb Hi]]%Hin; [by rewrite lookup_insert_eq|]. destruct (W3 _ _ _ Hi). split; [done|]. rewrite lookup_insert_ne; [done|].
      intros ->. destruct (in_heap_inj _ _ _ _ _ _ _ Hw Hl Hi). lia.
    + apply chain_set; [|done]. intros [_ Hf]%W5. by eapply Hf.
    + intros x Hx. destruct (W5 x Hx) as [? Hf]. split; [done|]. intros i d' (j & Hj & _)%Huse. by eapply Hf.
  - intros e' d'. split.
    + intros [i (j & Hj & Hj0)%Huse]. split; [by exists j|]. intros ->. destruct (in_heap_inj _ _ _ _ _ _ _ Hw Hr Hj). done.
    + intros [[j Hj] Hne]. destruct (Z.eq_dec j t) as [->|].
      * exists 0. apply Hin. left. destruct Hl as [_ Hl], Hj as [_ Hj]. by simplify_eq.
      * exists j. apply Hin. right. split; [|done]. destruct Hj as [? Hc]. destruct (Z.eq_dec j 0) as [->|]; [destruct Hr as [_ Hr]; by simplify_eq|lia].
  - intros i Hi. unfold dat, pq'. cbn. by rewrite lookup_insert_ne by lia.
Qed.

(** Only what the loops of removal need of the order: the root may be anything. *)
Lemma pop_spec pq fl M d e : pq_wf pq fl -> Z.of_nat (length fl) = pq_hmax pq - pq_htop pq -> (forall e d, holds pq e d <-> M !! e = Some d) -> Z.of_nat (size M) = pq_htop pq ->
  ord compare (dat pq) (pq_htop pq) (fun i => parent i = 0) -> in_heap pq 0 d e -> exists pq', ossl_pqueue_pop compare pq = Some (pq', Some d) /\ pq_rep pq' (delete e M).
Proof.
  intros Hw Hl Hm Hs Ho Hr. unfold ossl_pqueue_pop. pose proof (wf_sizes _ _ Hw) as [S1 S2]. pose proof Hr as [B0 C0]. destruct (wf_posn _ _ Hw _ _ _ Hr) as [Be Ee].
  change max_nodes with 1152921504606846975 in S2. rewrite (proj2 (Z.eqb_neq _ _)) by lia. rewrite C0. cbn [mbind option_bind pq_index pq_data]. rewrite sub64_small by u64_side.
  set (t := pq_htop pq - 1). assert (Ht : pq_htop pq = t + 1) by lia.
  assert (Hef : e ∉ fl) by (intros Hx; destruct (wf_free _ _ Hw e Hx) as [_ Hf]; by eapply Hf).
  assert (exists pq2, (if negb (t =? 0) then pq2 ← pqueue_move_elem (pq <| pq_htop := t |>) t 0; pqueue_move_up compare (Z.to_nat (pq_htop pq2)) pq2 0 else Some (pq <| pq_htop := t |>)) = Some pq2 /\
    pq_wf pq2 fl /\ heap_ordered compare (dat pq2) (pq_htop pq2) /\ pq_htop pq2 = t /\ pq_hmax pq2 = pq_hmax pq /\ forall e' d', holds pq2 e' d' <-> holds pq e' d' /\ e' <> e) as (pq2 & H2 & Hw2 & Ho2 & Ht2 & Hx2 & Hh2).
  { destruct (Z.eqb_spec t 0) as [H0|H0]; cbn [negb].
    - eexists. split; [done|]. destruct (drop_last pq fl t d e Ht Hw) as (Hw2 & Hin2 & _); [by rewrite H0|]. split_and!; try done; [intros i Hi; cbn in Hi; lia|].
      intros e' d'. unfold holds. setoid_rewrite Hin2. naive_solver.
    - destruct (move_last pq fl t d e Ht ltac:(lia) Hw Hr) as (pq1 & -> & Hw1 & Ht1 & Hx1 & Hh1 & Hd1). cbn [mbind option_bind].
      destruct (move_up_spec compare (Z.to_nat (pq_htop pq1)) pq1 fl 0 Hw1) as (pq2 & -> & Hw2 & Hr2 & Ho2); [lia|lia| |intros ?; lia|].
      { intros i Hi Hpi. pose proof (parent_bound i ltac:(lia)). eapply le_mono; [apply (Ho i ltac:(lia) Hpi)| |]; apply Hd1; lia. }
      destruct Hr2 as [T2 X2 R2]. exists pq2. split_and!; try done; [congruence..|]. intros e' d'. by rewrite R2. }
  cbn in H2 |- *. rewrite H2. cbn [mbind option_bind].
  destruct (free_handle_spec pq2 fl e Hw2) as (pq3 & -> & Hw3 & Hp3 & Ht3 & Hx3); [by rewrite Hx2|done| |].
  { intros i d' Hi. assert (holds pq2 e d') as [_ []]%Hh2 by (by exists i). done. }
  cbn [mbind option_bind]. exists pq3. split; [done|]. split.
  - exists (e :: fl). split; [done|]. cbn. lia.
  - unfold dat. rewrite Ht3, Hp3. exact Ho2.
  - intros e' d'. rewrite lookup_delete_Some, <- Hm. transitivity (holds pq2 e' d'); [unfold holds, in_heap; by rewrite Ht3, Hp3|]. rewrite Hh2. naive_solver.
  - assert (is_Some (M !! e)) by (exists d; apply Hm; by exists 0). rewrite map_size_delete_Some by done.
    assert (size M <> 0%nat) by lia. lia.
Qed.

Lemma pop_rep pq M : pq_rep pq M -> match ossl_pqueue_pop compare pq with
  | Some (pq', Some d) => exists e, M !! e = Some d /\ pq_rep pq' (delete e M) /\ forall e' d', M !! e' = Some d' -> compare d d' <= 0
  | Some (pq', None) => M = ∅ /\ pq' = pq
  | None => False
  end.
Proof.
  intros [[fl [Hw Hl]] R2 R3 R4]. pose proof (wf_sizes _ _ Hw) as [S1 S2]. destruct (Z.eq_dec (pq_htop pq) 0) as [H0|H0].
  { unfold ossl_pqueue_pop. rewrite H0. cbn. split; [|done]. apply map_size_empty_inv. lia. }
  destruct (wf_cells _ _ Hw 0 ltac:(lia)) as (d & e & Hr). destruct (pop_spec pq fl M d e) as (pq' & -> & Hr'); try done.
  { intros i Hi _. apply R2; [done|tauto]. }
  exists e. split_and!; [apply R3; by exists 0|done|]. intros e' d' [i Hi]%R3. destruct (root_least compare (dat pq) (pq_htop pq)) with (i := i) as (a & b & Ha & Hb & Hle).
  - intros j Hj. destruct (wf_cells _ _ Hw j Hj) as (? & ? & [_ Hc]). unfold dat. rewrite Hc. eauto.
  - done.
  - by destruct Hi.
  - unfold dat in Ha, Hb. destruct Hr as [_ Hr], Hi as [_ Hi]. rewrite Hr in Ha. rewrite Hi in Hb. by simplify_eq/=.
Qed.

Lemma remove_rep pq M (e : Z) d : pq_rep pq M -> M !! e = Some d -> exists pq', ossl_pqueue_remove compare pq e = Some (pq', Some d) /\ pq_rep pq' (delete e M).
Proof.
  intros [[fl [Hw Hl]] R2 R3 R4] [n Hn]%R3. pose proof (wf_sizes _ _ Hw) as [S1 S2]. destruct (wf_posn _ _ Hw _ _ _ Hn) as [Be Ee]. pose proof Hn as [Bn Cn].
  change max_nodes with 1152921504606846975 in S2. unfold ossl_pqueue_remove. rewrite (proj2 (Z.leb_gt _ _)), (proj2 (Z.eqb_neq _ _)), Ee by lia. cbn [orb mbind option_bind].
  rewrite sub64_small by u64_side. destruct (Z.eqb_spec n (pq_htop pq - 1)) as [->|Hlast].
  - set (t := pq_htop pq - 1) in *. assert (Ht : pq_htop pq = t + 1) by lia. destruct (drop_last pq fl t d e Ht Hw Hn) as (Hw1 & Hin1 & Hef).
    destruct (free_handle_spec _ fl e Hw1) as (pq2 & H2 & Hw2 & Hp2 & Ht2 & Hx2); [done|done|by intros i d' [_ []]%Hin1|].
    revert H2. unfold free_handle. cbn. destruct (arr_set _ _ _ _) as [els|]; [|done]. cbn. intros [= <-]. cbn. rewrite sub64_small by u64_side. fold t. rewrite Cn. cbn. eexists. split; [done|].
    cbn in Hp2, Ht2, Hx2. split; [by exists (e :: fl); split; [done|cbn; lia]| | |].
    + intros i Hi _. cbn in Hi. apply R2; [lia|tauto].
    + intros e' d'. rewrite lookup_delete_Some, <- R3. transitivity (holds (pq <| pq_htop := t |>) e' d'); [done|]. unfold holds. setoid_rewrite Hin1. naive_solver.
    + assert (is_Some (M !! e)) by (exists d; apply R3; by exists t). rewrite map_size_delete_Some by done. cbn. lia.
  - assert (exists pq1, (if 0 <? n then pqueue_force_bottom (Z.to_nat n) pq n else Some pq) = Some pq1 /\ pq_wf pq1 fl /\ rearranged pq pq1 /\
      ord compare (dat pq1) (pq_htop pq1) (fun i => parent i = 0) /\ in_heap pq1 0 d e) as (pq1 & -> & Hw1 & [T1 X1 H1] & Ho1 & Hr1).
    { destruct (Z.ltb_spec 0 n) as [H0|H0].
      - destruct (force_spec compare (Z.to_nat n) pq fl n Hw Bn) as (pq1 & d1 & e1 & H1 & Hw1 & Hr1 & Ho1 & Hc & Hc1); [lia|intros i Hi _; apply R2; [done|tauto]| |].
        { intros _ c Hc Hpc. apply parent_iff in Hpc as Hc'. pose proof (parent_bound n H0). apply (le_trans _ _ (parent n) n c); [apply (R2 n); [lia|tauto]|]. rewrite <- Hpc at 1. apply R2; [lia|tauto]. }
        exists pq1. split_and!; try done. destruct Hc as [_ Hc]. rewrite Hc in Cn. by simplify_eq.
      - assert (n = 0) as -> by lia. exists pq. split_and!; try done. intros i Hi _. apply R2; [done|tauto]. }
    cbn [mbind option_bind]. apply (pop_spec pq1 fl M d e); try done; [lia| |lia]. intros e' d'. by rewrite H1.
Qed.

Lemma peek_rep pq M : pq_rep pq M -> match ossl_pqueue_peek pq with
  | Some (Some d) => exists e, M !! e = Some d /\ in_heap pq 0 d e /\ forall e' d', M !! e' = Some d' -> compare d d' <= 0
  | Some None => M = ∅
  | None => False
  end.
Proof.
  intros Hr. pose proof (pop_rep pq M Hr) as Hp. pose proof Hr as [[fl [Hw Hl]] R2 R3 R4]. pose proof (wf_sizes _ _ Hw) as [S1 S2]. unfold ossl_pqueue_peek.
  destruct (Z.ltb_spec 0 (pq_htop pq)) as [H0|H0]; [|apply map_size_empty_inv; lia]. destruct (wf_cells _ _ Hw 0 ltac:(lia)) as (d & e & Hc). rewrite (proj2 Hc). cbn [mbind option_bind pq_data].
  destruct (pop_spec pq fl M d e) as (pq' & Hpop & _); try done; [by intros i Hi _; apply R2; [done|tauto]|]. rewrite Hpop in Hp. destruct Hp as (e' & _ & _ & Hmin).
  exists e. split; [apply R3; by exists 0|done].
Qed.

Lemma pqueue_new_rep : exists pq, ossl_pqueue_new true = Some pq /\ pq_rep pq ∅.
Proof.
  eexists. split; [by vm_compute|]. split.
  - exists [7; 6; 5; 4; 3; 2; 1; 0]. split; [|done]. split; cbn.
    + change max_nodes with 1152921504606846975. unfold min_nodes. lia.
    + lia.
    + intros i d e [Hi _]. cbn in Hi. lia.
    + vm_compute. by repeat (split; [done|eexists; split; [done|]]).
    + intros e He. split; [unfold min_nodes; set_unfold; lia|]. intros i d [Hi _]. cbn in Hi. lia.
    + apply (bool_decide_unpack _). by vm_compute.
  - intros i Hi. cbn in Hi. lia.
  - intros e d. split; [intros [i [Hi _]]; cbn in Hi; lia|done].
  - done.
Qed.
End Rep.

(** ** Histories *)

Inductive pq_op (A : Type) := PqPush (alloc_h alloc_e : bool) (d : A) | PqPeek | PqPop | PqRemove (e : Z) | PqReserve (alloc_h alloc_e : bool) (n : Z) | PqNum.
Arguments PqPush {A}. Arguments PqPeek {A}. Arguments PqPop {A}. Arguments PqRemove {A}. Arguments PqReserve {A}. Arguments PqNum {A}.
Inductive pq_res (A : Type) := RHandle (e : option Z) | RData (d : option A) | RBool (b : bool) | RNum (n : Z).
Arguments RHandle {A}. Arguments RData {A}. Arguments RBool {A}. Arguments RNum {A}.

Section Histories.
Context {A : Type} (compare : A -> A -> Z).
Implicit Types pq : OSSL_PQUEUE A.
Implicit Types M : gmap Z A.

Definition pq_do pq (op : pq_op A) : option (OSSL_PQUEUE A * pq_res A) :=
  match op with
  | PqPush ah ae d => '(pq, e) ← ossl_pqueue_push compare ah ae pq d; Some (pq, RHandle e)
  | PqPeek => d ← ossl_pqueue_peek pq; Some (pq, RData d)
  | PqPop => '(pq, d) ← ossl_pqueue_pop compare pq; Some (pq, RData d)
  | PqRemove e => '(pq, d) ← ossl_pqueue_remove compare pq e; Some (pq, RData d)
  | PqReserve ah ae n => '(pq, b) ← ossl_pqueue_reserve ah ae pq n; Some (pq, RBool b)
  | PqNum => Some (pq, RNum (ossl_pqueue_num pq))
  end.

(** A handle may be used while its element is in the queue, as asserted in a debug build; the sizes reserved are not absurd. *)
Definition pq_op_ok pq (op : pq_op A) : Prop :=
  match op with PqRemove e => exists d, holds pq e d | PqReserve _ _ n => 0 <= n < 2 ^ 62 | _ => True end.

Inductive pq_runs : OSSL_PQUEUE A -> list (pq_op A) -> list (pq_res A) -> OSSL_PQUEUE A -> Prop :=
  | runs_nil pq : pq_runs pq [] [] pq
  | runs_cons pq op r pq1 ops rs pq2 : pq_op_ok pq op -> pq_do pq op = Some (pq1, r) -> pq_runs pq1 ops rs pq2 -> pq_runs pq (op :: ops) (r :: rs) pq2.

(** What the operations promise, in terms of the elements under their handles. *)
Definition least M (d : A) : Prop := forall e' d', M !! e' = Some d' -> compare d d' <= 0.

Inductive pq_spec M : pq_op A -> pq_res A -> gmap Z A -> Prop :=
  | spec_push ah ae d e : M !! e = None -> pq_spec M (PqPush ah ae d) (RHandle (Some e)) (<[e := d]> M)
  | spec_push_fails ah ae d : ah = false \/ ae = false \/ max_nodes <= Z.of_nat (size M) + 1 -> pq_spec M (PqPush ah ae d) (RHandle None) M
  | spec_peek e d : M !! e = Some d -> least M d -> pq_spec M PqPeek (RData (Some d)) M
  | spec_peek_none : M = ∅ -> pq_spec M PqPeek (RData None) M
  | spec_pop e d : M !! e = Some d -> least M d -> pq_spec M PqPop (RData (Some d)) (delete e M)
  | spec_pop_none : M = ∅ -> pq_spec M PqPop (RData None) M
  | spec_remove e d : M !! e = Some d -> pq_spec M (PqRemove e) (RData (Some d)) (delete e M)
  | spec_reserve ah ae n b : (b = true \/ ah = false \/ ae = false \/ max_nodes < Z.of_nat (size M) + 2 * n) -> pq_spec M (PqReserve ah ae n) (RBool b) M
  | spec_num : pq_spec M PqNum (RNum (Z.of_nat (size M))) M.

Inductive pq_spec_runs : gmap Z A -> list (pq_op A) -> list (pq_res A) -> gmap Z A -> Prop :=
  | spec_nil M : pq_spec_runs M [] [] M
  | spec_cons M op r M1 ops rs M2 : pq_spec M op r M1 -> pq_spec_runs M1 ops rs M2 -> pq_spec_runs M (op :: ops) (r :: rs) M2.

Context `{!CompareOrder compare}.

Lemma do_rep pq M op : pq_rep compare pq M -> pq_op_ok pq op -> exists pq' r M', pq_do pq op = Some (pq', r) /\ pq_spec M op r M' /\ pq_rep compare pq' M'.
Proof.
  intros Hr Hok. pose proof Hr as [_ _ Hm Hs]. destruct op as [ah ae d| | |e|ah ae n|]; cbn [pq_do].
  - destruct (pqueue_push_spec compare ah ae pq M d Hr) as (pq' & [e|] & -> & Hp); cbn.
    + destruct Hp. do 3 eexists. split_and!; [done|by constructor|done].
    + destruct Hp as [? Hf]. do 3 eexists. split_and!; [done|constructor|done]. by rewrite Hs.
  - pose proof (peek_rep compare pq M Hr) as Hp. destruct (ossl_pqueue_peek pq) as [[d|]|]; [|subst M|done]; cbn.
    + destruct Hp as (e & He & _ & Hl). do 3 eexists. split_and!; [done|by econstructor|done].
    + do 3 eexists. split_and!; [done|by constructor|done].
  - pose proof (pop_rep compare pq M Hr) as Hp. destruct (ossl_pqueue_pop compare pq) as [[pq' [d|]]|]; [| |done]; cbn.
    + destruct Hp as (e & He & Hr' & Hl). do 3 eexists. split_and!; [done|by eapply spec_pop|done].
    + destruct Hp as [-> ->]. do 3 eexists. split_and!; [done|by constructor|done].
  - destruct Hok as [d Hd]. apply Hm in Hd. destruct (remove_rep compare pq M e d Hr Hd) as (pq' & -> & Hr'). do 3 eexists. split_and!; [done|by constructor|done].
  - destruct (reserve_spec compare ah ae pq M n Hr Hok) as (pq' & b & -> & Hr' & _ & _ & Hb). do 3 eexists. split_and!; [done|constructor|done].
    destruct b; [by left|]. destruct (Hb eq_refl) as [|[|[? ?]]]; auto. right. right. right. lia.
  - do 3 eexists. split_and!; [done| |done]. unfold ossl_pqueue_num. rewrite <- Hs. constructor.
Qed.

Lemma runs_rep pq ops rs pq' M : pq_runs pq ops rs pq' -> pq_rep compare pq M -> exists M', pq_spec_runs M ops rs M' /\ pq_rep compare pq' M'.
Proof.
  intros H. revert M. induction H as [pq|pq op r pq1 ops rs pq2 Hok Hd _ IH]; intros M Hr; [by exists M; split; [constructor|]|].
  destruct (do_rep pq M op Hr Hok) as (pq1' & r' & M1 & Hd' & Hs & Hr1). simplify_eq. destruct (IH M1 Hr1) as (M2 & ? & ?). exists M2. split; [by econstructor|done].
Qed.

(** C19. A priority queue implements its specification over every history of its operations, whichever reallocations fail, with a
    comparison function that is a total preorder: its results are those of a finite map from handles to data.  A push gives a handle
    that is not in use, and fails only if memory or the maximal size is exhausted; peek and pop return a least element,
    and nothing only when the queue is empty; an element is removed by its handle from wherever the heap has moved it.
    No operation runs out of an array, through the heap's moves, the growth of the arrays and the reuse of handles, and
    every loop ends. *)
Theorem pqueue_refines pq0 ops rs pq : ossl_pqueue_new true = Some pq0 -> pq_runs pq0 ops rs pq ->
  exists M, pq_spec_runs ∅ ops rs M /\ (forall e d, holds pq e d <-> M !! e = Some d) /\ forall op, pq_op_ok pq op -> exists pq' r, pq_do pq op = Some (pq', r).
Proof.
  intros Hn Hr. destruct (pqueue_new_rep compare) as (pq1 & Hn1 & H1). rewrite Hn in Hn1. simplify_eq.
  destruct (runs_rep _ _ _ _ _ Hr H1) as (M & Hs & HM). exists M. split_and!; [done|apply HM|]. intros op Hok.
  destruct (do_rep pq M op HM Hok) as (pq' & r & _ & Hd & _). by exists pq', r.
Qed.

(** Runs a list of operations, each tested to be allowed. *)
Definition op_okb pq (op : pq_op A) : bool :=
  match op with
  | PqRemove e => match pq_elements pq !! e with
                  | Some n => (0 <=? n) && (n <? pq_htop pq) && match pq_heap pq !! n with Some c => pq_index c =? e | None => false end
                  | None => false end
  | PqReserve _ _ n => (0 <=? n) && (n <? 2 ^ 62)
  | _ => true end.

Fixpoint pq_run pq (ops : list (pq_op A)) : option (list (pq_res A) * OSSL_PQUEUE A) :=
  match ops with
  | [] => Some ([], pq)
  | op :: ops => if op_okb pq op then '(pq, r) ← pq_do pq op; '(rs, pq) ← pq_run pq ops; Some (r :: rs, pq) else None
  end.

Lemma run_runs ops pq rs pq' : pq_run pq ops = Some (rs, pq') -> pq_runs pq ops rs pq'.
Proof.
  revert pq rs. induction ops as [|op ops IH]; intros pq rs; cbn; [intros [= <- <-]; constructor|].
  destruct (op_okb pq op) eqn:Hok; [|done]. destruct (pq_do pq op) as [[pq1 r]|] eqn:Hd; [|done]. cbn.
  destruct (pq_run pq1 ops) as [[rs1 pq2]|] eqn:Hr; [|done]. cbn. intros [= <- <-]. econstructor; [|done|by apply IH].
  destruct op as [| | |e|ah ae n|]; cbn in *; try done; [|lia].
  destruct (pq_elements pq !! e) as [n|]; [|done]. destruct (pq_heap pq !! n) as [[d x]|] eqn:Hc; [|by rewrite andb_false_r in Hok].
  cbn in Hok. exists d, n. split; [lia|]. rewrite Hc. do 2 f_equal. lia.
Qed.
End Histories.

#[export] Instance Z_sub_order : CompareOrder Z.sub.
Proof. split; lia. Qed.

(** Ten elements (the arrays grow at the eighth), one removed from the middle by its handle, two popped. *)
Definition demo_ops : list (pq_op Z) :=
  (PqPush true true <$> [50; 30; 70; 10; 90; 60; 20; 80; 40; 30]) ++ [PqRemove 5; PqPop; PqPeek; PqPop; PqPush true true 5; PqPeek; PqNum].

Definition demo_pq : OSSL_PQUEUE Z := default (mkPq ∅ ∅ 0 0 0) (ossl_pqueue_new true).
Definition demo_end : list (pq_res Z) * OSSL_PQUEUE Z := default ([], demo_pq) (pq_run Z.sub demo_pq demo_ops).

Lemma pqueue_refines_witness :
  drop 10 demo_end.1 = [RData (Some 70); RData (Some 10); RData (Some 20); RData (Some 20); RHandle (Some 1); RData (Some 5); RNum 8] /\
  exists M, pq_spec_runs Z.sub ∅ demo_ops demo_end.1 M /\ (forall e d, holds demo_end.2 e d <-> M !! e = Some d) /\
    forall op, pq_op_ok demo_end.2 op -> exists pq' r, pq_do Z.sub demo_end.2 op = Some (pq', r).
Proof.
  split; [vm_compute; reflexivity|]. apply (pqueue_refines Z.sub demo_pq demo_ops demo_end.1 demo_end.2); [vm_compute; reflexivity|].
  apply run_runs. vm_compute. reflexivity.
Defined.
