(* ===== verification/Lcidm.v ===== *)
(** * The local connection ID manager (ssl/quic/quic_lcidm.c)

    The manager issues connection IDs to peers and routes received packets: a
    table maps every active connection ID to the connection it belongs to.  A
    connection is the caller's opaque pointer.  The theorems relate the two
    tables with their shared objects to one abstract table, over every history. *)

From stdpp Require Import functions.
From S2P Require Import Prelude Packet Wire WirePkt.

(** ** Data *)

Definition LCID_TYPE_ODCID : Z := 0.
Definition LCID_TYPE_INITIAL : Z := 1.
Definition LCID_TYPE_NCID : Z := 2.
Definition LCIDM_ODCID_SEQ_NUM : Z := UINT64_MAX.
Definition QUIC_MIN_ODCID_LEN : Z := 8.
Definition MAX_RETRIES : nat := 8.

(** [lc_conn] is the back-pointer; a connection object is named by its opaque pointer, since it lives exactly as long as it is in the table. *)
Record QUIC_LCID := mkLcid { lc_cid : QUIC_CONN_ID; lc_seq_num : Z; lc_conn : Z; lc_type : Z }.
#[export] Instance eta_lcid : Eta QUIC_LCID := fun l => mkLcid (lc_cid l) (lc_seq_num l) (lc_conn l) (lc_type l).

(** A hash table of LCIDs maps the bytes of the connection ID to the address of the object. *)
Record QUIC_LCIDM_CONN := mkConn { cn_num_active_lcid : Z; cn_lcids : gmap bytes Z; cn_odcid_lcid_obj : option Z; cn_next_seq_num : Z; cn_done_odcid : bool }.
#[export] Instance eta_lcidm_conn : Eta QUIC_LCIDM_CONN := fun c =>
  mkConn (cn_num_active_lcid c) (cn_lcids c) (cn_odcid_lcid_obj c) (cn_next_seq_num c) (cn_done_odcid c).

(** [lm_objs] is the memory in which the LCID objects live, [lm_fresh] an address not used before. *)
Record QUIC_LCIDM := mkLcidm { lm_lcids : gmap bytes Z; lm_conns : gmap Z QUIC_LCIDM_CONN; lm_lcid_len : Z; lm_objs : gmap Z QUIC_LCID; lm_fresh : Z }.
#[export] Instance eta_lcidm : Eta QUIC_LCIDM := fun m => mkLcidm (lm_lcids m) (lm_conns m) (lm_lcid_len m) (lm_objs m) (lm_fresh m).

(** ** Operations

    [None] is the use of an object that has been freed.  [ok] says which of the
    allocations of an operation succeed, by their place in it. *)

Definition ossl_quic_lcidm_new (ok : nat -> bool) (lcid_len : Z) : option QUIC_LCIDM :=
  if QUIC_MAX_CONN_ID_LEN <? lcid_len then None
  else if negb (ok 0 && ok 1 && ok 2 && ok 3)%nat then None
  else Some (mkLcidm ∅ ∅ lcid_len ∅ 0).

(** Retrieval hashes the first [id_len] bytes of the 20-byte array, then compares with [lcid_comp], which no connection ID of
    excessive length passes.  The callers have checked the length, so that the hash stays inside the array, but for
    [ossl_quic_lcidm_debug_remove], which is undefined on a longer one. *)
Definition lh_lcid_retrieve (t : gmap bytes Z) (cid : QUIC_CONN_ID) : option Z :=
  if QUIC_MAX_CONN_ID_LEN <? cid_id_len cid then None else t !! cid_bytes cid.

Definition lcidm_get0_lcid (m : QUIC_LCIDM) (lcid : QUIC_CONN_ID) : option Z :=
  if QUIC_MAX_CONN_ID_LEN <? cid_id_len lcid then None else lh_lcid_retrieve (lm_lcids m) lcid.

Definition lcidm_get0_conn (m : QUIC_LCIDM) (opaque : Z) : option QUIC_LCIDM_CONN := lm_conns m !! opaque.

Definition set_conn (m : QUIC_LCIDM) (opaque : Z) (c : QUIC_LCIDM_CONN) : QUIC_LCIDM := m <| lm_conns := <[opaque := c]> (lm_conns m) |>.

Definition lcidm_upsert_conn (ok : nat -> bool) (m : QUIC_LCIDM) (opaque : Z) : QUIC_LCIDM * option QUIC_LCIDM_CONN :=
  match lcidm_get0_conn m opaque with
  | Some conn => (m, Some conn)
  | None =>
      if negb (ok 0 && ok 1 && ok 2)%nat then (m, None)
      else let conn := mkConn 0 ∅ None 0 false in (set_conn m opaque conn, Some conn)
  end.

Definition lcidm_delete_conn_lcid (m : QUIC_LCIDM) (a : Z) : option QUIC_LCIDM :=
  obj ← lm_objs m !! a;
  conn ← lm_conns m !! lc_conn obj;
  let k := cid_bytes (lc_cid obj) in
  Some ((set_conn m (lc_conn obj) (conn <| cn_lcids := delete k (cn_lcids conn) |> <| cn_num_active_lcid := cn_num_active_lcid conn -u 1 |>))
          <| lm_lcids := delete k (lm_lcids m) |> <| lm_objs := delete a (lm_objs m) |>).

Fixpoint delete_lcids (m : QUIC_LCIDM) (l : list Z) : option QUIC_LCIDM :=
  match l with [] => Some m | a :: l => m ← lcidm_delete_conn_lcid m a; delete_lcids m l end.

(** The objects of a table in the order of the table, which is not specified. *)
Definition lh_items (t : gmap bytes Z) : list Z := (map_to_list t).*2.

Definition lcidm_delete_conn (m : QUIC_LCIDM) (opaque : Z) : option QUIC_LCIDM :=
  conn ← lm_conns m !! opaque;
  m ← delete_lcids m (lh_items (cn_lcids conn));
  Some (m <| lm_conns := delete opaque (lm_conns m) |>).

Fixpoint delete_conns (m : QUIC_LCIDM) (l : list Z) : option QUIC_LCIDM :=
  match l with [] => Some m | o :: l => m ← lcidm_delete_conn m o; delete_conns m l end.

(** The memory left when the manager has freed what it knows. *)
Definition ossl_quic_lcidm_free (m : QUIC_LCIDM) : option QUIC_LCIDM := delete_conns m ((map_to_list (lm_conns m)).*1).

(** A new object in both tables, with sequence number and type still zero; the insertions are allocations 4 and 5. *)
Definition lcidm_conn_new_lcid (ok : nat -> bool) (m : QUIC_LCIDM) (opaque : Z) (conn : QUIC_LCIDM_CONN) (lcid : QUIC_CONN_ID) : QUIC_LCIDM * option Z :=
  if QUIC_MAX_CONN_ID_LEN <? cid_id_len lcid then (m, None)
  else if negb (ok 3 && ok 4)%nat then (m, None)
  else
    let a := lm_fresh m in
    let k := cid_bytes lcid in
    let m := m <| lm_fresh := a + 1 |> in
    if negb (ok 5%nat) then (set_conn m opaque (conn <| cn_lcids := delete k (cn_lcids conn) |>), None)
    else
      ((set_conn m opaque (conn <| cn_lcids := <[k := a]> (cn_lcids conn) |> <| cn_num_active_lcid := cn_num_active_lcid conn +u 1 |>))
         <| lm_lcids := <[k := a]> (lm_lcids m) |> <| lm_objs := <[a := mkLcid lcid 0 opaque 0]> (lm_objs m) |>, Some a).

(** The fields that the callers of [lcidm_conn_new_lcid] fill in. *)
Definition set_lcid (m : QUIC_LCIDM) (a seq_num type : Z) : option QUIC_LCIDM :=
  obj ← lm_objs m !! a; Some (m <| lm_objs := <[a := obj <| lc_seq_num := seq_num |> <| lc_type := type |>]> (lm_objs m) |>).

Definition ossl_quic_lcidm_get_lcid_len (m : QUIC_LCIDM) : Z := lm_lcid_len m.
Definition ossl_quic_lcidm_get_num_active_lcid (m : QUIC_LCIDM) (opaque : Z) : Z :=
  match lcidm_get0_conn m opaque with None => 0 | Some conn => cn_num_active_lcid conn end.

(** [rand] is the outcome of [RAND_bytes_ex]: the bytes it wrote, as many as asked for, or a failure. *)
Definition ossl_quic_gen_rand_conn_id (rand : option bytes) (len : Z) (cid : QUIC_CONN_ID) : QUIC_CONN_ID * bool :=
  if QUIC_MAX_CONN_ID_LEN <? len then (cid, false)
  else match rand with
       | None => (mkConnId 0 (cid_id cid), false)
       | Some b => (mkConnId len (take (Z.to_nat len) b ++ drop (Z.to_nat len) (cid_id cid)), true)
       end.

Definition lcidm_generate_cid (rand : option bytes) (m : QUIC_LCIDM) (cid : QUIC_CONN_ID) : QUIC_CONN_ID * bool :=
  ossl_quic_gen_rand_conn_id rand (lm_lcid_len m) cid.

(** The loop of [lcidm_generate]: a connection ID that is not in use. *)
Fixpoint generate_loop (fuel i : nat) (rand : nat -> option bytes) (m : QUIC_LCIDM) (lcid_out : QUIC_CONN_ID) : QUIC_CONN_ID * bool :=
  match fuel with
  | O => (lcid_out, false)
  | S fuel =>
      match lcidm_generate_cid (rand i) m lcid_out with
      | (cid, false) => (cid, false)
      | (cid, true) => match lh_lcid_retrieve (lm_lcids m) cid with None => (cid, true) | Some _ => generate_loop fuel (S i) rand m cid end
      end
  end.

(** The new state, the connection ID written, and the sequence number on success. *)
Definition lcidm_generate (ok : nat -> bool) (rand : nat -> option bytes) (m : QUIC_LCIDM) (opaque type : Z) (lcid_out : QUIC_CONN_ID)
  : option (QUIC_LCIDM * QUIC_CONN_ID * option Z) :=
  match lcidm_upsert_conn ok m opaque with
  | (m, None) => Some (m, lcid_out, None)
  | (m, Some conn) =>
      if ((type =? LCID_TYPE_INITIAL) && (0 <? cn_next_seq_num conn)) || (OSSL_QUIC_VLINT_MAX <? cn_next_seq_num conn) then Some (m, lcid_out, None)
      else
        match generate_loop MAX_RETRIES 0 rand m lcid_out with
        | (cid, false) => Some (m, cid, None)
        | (cid, true) =>
            match lcidm_conn_new_lcid ok m opaque conn cid with
            | (m, None) => Some (m, cid, None)
            | (m, Some a) =>
                conn ← lm_conns m !! opaque;
                m ← set_lcid m a (cn_next_seq_num conn) type;
                Some (set_conn m opaque (conn <| cn_next_seq_num := cn_next_seq_num conn +u 1 |>), cid, Some (cn_next_seq_num conn))
            end
        end
  end.

Definition ossl_quic_lcidm_enrol_odcid (ok : nat -> bool) (m : QUIC_LCIDM) (opaque : Z) (initial_odcid : option QUIC_CONN_ID) : option (QUIC_LCIDM * bool) :=
  match initial_odcid with
  | None => Some (m, false)
  | Some cid =>
      if (cid_id_len cid <? QUIC_MIN_ODCID_LEN) || (QUIC_MAX_CONN_ID_LEN <? cid_id_len cid) then Some (m, false)
      else
        match lcidm_upsert_conn ok m opaque with
        | (m, None) => Some (m, false)
        | (m, Some conn) =>
            if cn_done_odcid conn then Some (m, false)
            else
              match lh_lcid_retrieve (lm_lcids m) cid with
              | Some _ => Some (m, false)
              | None =>
                  match lcidm_conn_new_lcid ok m opaque conn cid with
                  | (m, None) => Some (m, false)
                  | (m, Some a) =>
                      m ← set_lcid m a LCIDM_ODCID_SEQ_NUM LCID_TYPE_ODCID;
                      conn ← lm_conns m !! opaque;
                      Some (set_conn m opaque (conn <| cn_odcid_lcid_obj := Some a |> <| cn_done_odcid := true |>), true)
                  end
              end
        end
  end.

Definition ossl_quic_lcidm_generate_initial (ok : nat -> bool) (rand : nat -> option bytes) (m : QUIC_LCIDM) (opaque : Z) (initial_lcid : QUIC_CONN_ID)
  : option (QUIC_LCIDM * QUIC_CONN_ID * option Z) :=
  lcidm_generate ok rand m opaque LCID_TYPE_INITIAL initial_lcid.

(** The frame afterwards. *)
Definition ossl_quic_lcidm_generate (ok : nat -> bool) (rand : nat -> option bytes) (m : QUIC_LCIDM) (opaque : Z) (ncid_frame : OSSL_QUIC_FRAME_NEW_CONN_ID)
  : option (QUIC_LCIDM * OSSL_QUIC_FRAME_NEW_CONN_ID * bool) :=
  '(m, cid, r) ← lcidm_generate ok rand m opaque LCID_TYPE_NCID (nc_conn_id ncid_frame);
  Some (m, mkFrameNewConnId (default 0 r) 0 cid (nc_stateless_reset ncid_frame), bool_decide (is_Some r)).

(** Sequence number and connection of a connection ID. *)
Definition ossl_quic_lcidm_lookup (m : QUIC_LCIDM) (lcid : option QUIC_CONN_ID) : option (option (Z * Z)) :=
  match lcid ≫= lcidm_get0_lcid m with
  | None => Some None
  | Some a => obj ← lm_objs m !! a; _ ← lm_conns m !! lc_conn obj; Some (Some (lc_seq_num obj, lc_conn obj))
  end.

Definition ossl_quic_lcidm_bind_channel (ok : nat -> bool) (m : QUIC_LCIDM) (opaque : Z) (lcid : QUIC_CONN_ID) : option (QUIC_LCIDM * bool) :=
  r ← ossl_quic_lcidm_lookup m (Some lcid);
  match r with
  | Some _ => Some (m, false)
  | None =>
      match lcidm_upsert_conn ok m opaque with
      | (m, None) => Some (m, false)
      | (m, Some conn) =>
          match lcidm_conn_new_lcid ok m opaque conn lcid with
          | (m, None) => m ← lcidm_delete_conn m opaque; Some (m, false)
          | (m, Some a) =>
              conn ← lm_conns m !! opaque;
              m ← set_lcid m a (cn_next_seq_num conn) LCID_TYPE_INITIAL;
              Some (set_conn m opaque (conn <| cn_next_seq_num := cn_next_seq_num conn +u 1 |>), true)
          end
      end
  end.

Definition ossl_quic_lcidm_retire_odcid (ok : nat -> bool) (m : QUIC_LCIDM) (opaque : Z) : option (QUIC_LCIDM * bool) :=
  match lcidm_upsert_conn ok m opaque with
  | (m, None) => Some (m, false)
  | (m, Some conn) =>
      match cn_odcid_lcid_obj conn with
      | None => Some (m, false)
      | Some a =>
          m ← lcidm_delete_conn_lcid m a;
          conn ← lm_conns m !! opaque;
          Some (set_conn m opaque (conn <| cn_odcid_lcid_obj := None |>), true)
      end
  end.

(** [retire_for_conn] on every object: the address and sequence number of the earliest that may be retired. *)
Fixpoint retire_for_conn (objs : gmap Z QUIC_LCID) (retire_prior_to : Z) (l : list Z) (earliest : option Z * Z) : option (option Z * Z) :=
  match l with
  | [] => Some earliest
  | a :: l =>
      obj ← objs !! a;
      retire_for_conn objs retire_prior_to l
        (if (lc_type obj =? LCID_TYPE_ODCID) || (retire_prior_to <=? lc_seq_num obj) then earliest
         else if lc_seq_num obj <? snd earliest then (Some a, lc_seq_num obj) else earliest)
  end.

(** The return value, and the connection ID and sequence number that were retired if one was. *)
Definition ossl_quic_lcidm_retire (m : QUIC_LCIDM) (opaque retire_prior_to : Z) (containing_pkt_dcid : option QUIC_CONN_ID)
  : option (QUIC_LCIDM * bool * option (QUIC_CONN_ID * Z)) :=
  match lcidm_get0_conn m opaque with
  | None => Some (m, true, None)
  | Some conn =>
      '(earliest, _) ← retire_for_conn (lm_objs m) retire_prior_to (lh_items (cn_lcids conn)) (None, UINT64_MAX);
      match earliest with
      | None => Some (m, true, None)
      | Some a =>
          obj ← lm_objs m !! a;
          if match containing_pkt_dcid with Some dcid => ossl_quic_conn_id_eq (lc_cid obj) dcid | None => false end then Some (m, false, None)
          else m ← lcidm_delete_conn_lcid m a; Some (m, true, Some (lc_cid obj, lc_seq_num obj))
      end
  end.

Definition ossl_quic_lcidm_cull (m : QUIC_LCIDM) (opaque : Z) : option (QUIC_LCIDM * bool) :=
  match lcidm_get0_conn m opaque with None => Some (m, false) | Some _ => m ← lcidm_delete_conn m opaque; Some (m, true) end.

(** [None]: also when the connection ID is too long, which is not checked before its bytes are hashed. *)
Definition ossl_quic_lcidm_debug_remove (m : QUIC_LCIDM) (lcid : QUIC_CONN_ID) : option (QUIC_LCIDM * bool) :=
  if QUIC_MAX_CONN_ID_LEN <? cid_id_len lcid then None
  else
  match lh_lcid_retrieve (lm_lcids m) lcid with None => Some (m, false) | Some a => m ← lcidm_delete_conn_lcid m a; Some (m, true) end.

Definition ossl_quic_lcidm_debug_add (ok : nat -> bool) (m : QUIC_LCIDM) (opaque : Z) (lcid : option QUIC_CONN_ID) (seq_num : Z) : option (QUIC_LCIDM * bool) :=
  match lcid with
  | None => Some (m, false)
  | Some cid =>
      if QUIC_MAX_CONN_ID_LEN <? cid_id_len cid then Some (m, false)
      else
        match lcidm_upsert_conn ok m opaque with
        | (m, None) => Some (m, false)
        | (m, Some conn) =>
            match lh_lcid_retrieve (lm_lcids m) cid with
            | Some _ => Some (m, false)
            | None =>
                match lcidm_conn_new_lcid ok m opaque conn cid with
                | (m, None) => Some (m, false)
                | (m, Some a) => m ← set_lcid m a seq_num LCID_TYPE_NCID; Some (m, true)
                end
            end
        end
  end.

Fixpoint get_unused_loop (fuel i : nat) (rand : nat -> option bytes) (m : QUIC_LCIDM) (cid : QUIC_CONN_ID) : QUIC_CONN_ID * bool :=
  match fuel with
  | O => (cid, false)
  | S fuel =>
      let '(cid, r) := lcidm_generate_cid (rand i) m cid in
      if r && bool_decide (lcidm_get0_lcid m cid = None) then (cid, true) else get_unused_loop fuel (S i) rand m cid
  end.

Definition ossl_quic_lcidm_get_unused_cid (rand : nat -> option bytes) (m : QUIC_LCIDM) (cid : QUIC_CONN_ID) : QUIC_CONN_ID * bool :=
  get_unused_loop 10 0 rand m cid.

