(* ===== verification/LcidmInv.v ===== *)
(** * The local connection ID manager: what its tables keep in step

    The abstract table of the connection IDs a manager routes, the invariant
    between the shared objects, the table of connection IDs and the tables of
    the connections, and the lemmas that add and remove an entry. *)

From stdpp Require Import functions.
From S2P Require Import Prelude Packet Wire WirePkt Lcidm.

(** ** What a manager routes *)

(** The connection, sequence number and type of an active connection ID. *)
Record lcid_info := mkInfo { li_opaque : Z; li_seq : Z; li_type : Z }.
Definition info_of (l : QUIC_LCID) : lcid_info := mkInfo (lc_conn l) (lc_seq_num l) (lc_type l).
Definition routes (m : QUIC_LCIDM) : gmap bytes lcid_info := omap (fun a => info_of <$> lm_objs m !! a) (lm_lcids m).
Definition counters (m : QUIC_LCIDM) (o : Z) : Z * bool :=
  match lm_conns m !! o with Some c => (cn_next_seq_num c, cn_done_odcid c) | None => (0, false) end.

(** A C object: the array has its full length. *)
Definition cid_array (c : QUIC_CONN_ID) : Prop := zlen (cid_id c) = QUIC_MAX_CONN_ID_LEN /\ 0 <= cid_id_len c.

(** The objects, the two tables and the pointer to the ODCID agree; the pointer of the connection [x] is excepted. *)
Record lcidm_inv (x : option Z) (m : QUIC_LCIDM) : Prop := {
  inv_lcids k a : lm_lcids m !! k = Some a -> exists obj conn, lm_objs m !! a = Some obj /\ cid_bytes (lc_cid obj) = k /\ cid_array (lc_cid obj) /\
    cid_id_len (lc_cid obj) <= QUIC_MAX_CONN_ID_LEN /\ lm_conns m !! lc_conn obj = Some conn /\ cn_lcids conn !! k = Some a;
  inv_objs a obj : lm_objs m !! a = Some obj -> a < lm_fresh m /\ lm_lcids m !! cid_bytes (lc_cid obj) = Some a;
  inv_conns o conn : lm_conns m !! o = Some conn -> (forall k a, cn_lcids conn !! k = Some a -> lm_lcids m !! k = Some a /\ exists obj, lm_objs m !! a = Some obj /\ lc_conn obj = o) /\
    cn_num_active_lcid conn = Z.of_nat (size (cn_lcids conn)) mod U64_MOD;
  inv_odcid o conn a : lm_conns m !! o = Some conn -> x <> Some o ->
    cn_odcid_lcid_obj conn = Some a <-> exists obj, lm_objs m !! a = Some obj /\ lc_conn obj = o /\ lc_type obj = LCID_TYPE_ODCID;
  inv_done o conn : lm_conns m !! o = Some conn -> cn_done_odcid conn = false -> cn_odcid_lcid_obj conn = None }.

Lemma routes_lookup m k i : routes m !! k = Some i <-> exists a obj, lm_lcids m !! k = Some a /\ lm_objs m !! a = Some obj /\ i = info_of obj.
Proof.
  unfold routes. rewrite lookup_omap_Some. setoid_rewrite fmap_Some. naive_solver.
Qed.

Lemma routes_obj x m a obj : lcidm_inv x m -> lm_objs m !! a = Some obj -> routes m !! cid_bytes (lc_cid obj) = Some (info_of obj).
Proof. intros Hi Ha. apply routes_lookup. exists a, obj. split_and!; try done. by apply (inv_objs _ _ Hi). Qed.

Lemma routes_none x m k : lcidm_inv x m -> routes m !! k = None <-> lm_lcids m !! k = None.
Proof.
  intros Hi. split; intros H.
  - destruct (lm_lcids m !! k) as [a|] eqn:Ha; [|done]. destruct (inv_lcids _ _ Hi _ _ Ha) as (obj & conn & Ho & _).
    assert (routes m !! k = Some (info_of obj)) by (apply routes_lookup; eauto). congruence.
  - destruct (routes m !! k) as [i|] eqn:Hr; [|done]. apply routes_lookup in Hr as (a & obj & Ha & _). congruence.
Qed.

Lemma cid_key_len (c : QUIC_CONN_ID) : cid_array c -> cid_id_len c <= QUIC_MAX_CONN_ID_LEN -> zlen (cid_bytes c) = cid_id_len c.
Proof. intros [Hl H0] Hm. unfold cid_bytes, zlen in *. rewrite length_take. lia. Qed.

(** Two connection IDs of legal length are the same exactly if their bytes are. *)
Lemma conn_id_eq_bytes (a b : QUIC_CONN_ID) : cid_array a -> cid_array b -> cid_id_len a <= QUIC_MAX_CONN_ID_LEN ->
  ossl_quic_conn_id_eq a b = true <-> cid_id_len b <= QUIC_MAX_CONN_ID_LEN /\ cid_bytes a = cid_bytes b.
Proof.
  intros Ha Hb Hl. unfold ossl_quic_conn_id_eq. rewrite (proj2 (Z.ltb_ge _ _)) by done. rewrite orb_false_r.
  destruct (Z.eqb_spec (cid_id_len a) (cid_id_len b)) as [He|Hne]; cbn [negb].
  - rewrite bool_decide_eq_true. unfold cid_bytes. rewrite <- He. intuition lia.
  - split; [done|]. intros [Hlb He]. apply (f_equal zlen) in He. rewrite !cid_key_len in He by done. done.
Qed.

Lemma retrieve_spec m cid : lh_lcid_retrieve (lm_lcids m) cid = if QUIC_MAX_CONN_ID_LEN <? cid_id_len cid then None else lm_lcids m !! cid_bytes cid.
Proof. done. Qed.

Lemma get0_lcid_eq m cid : lcidm_get0_lcid m cid = lh_lcid_retrieve (lm_lcids m) cid.
Proof. unfold lcidm_get0_lcid, lh_lcid_retrieve. by case_match. Qed.

(** ** Adding and removing connection IDs *)

(** A connection ID added for [o], whose connection object becomes [conn'] apart from its table. *)
Definition added (m : QUIC_LCIDM) (o : Z) (conn' : QUIC_LCIDM_CONN) (cid : QUIC_CONN_ID) (seq type : Z) : QUIC_LCIDM :=
  let a := lm_fresh m in let k := cid_bytes cid in
  mkLcidm (<[k := a]> (lm_lcids m)) (<[o := conn' <| cn_lcids := <[k := a]> (cn_lcids conn') |> <| cn_num_active_lcid := cn_num_active_lcid conn' +u 1 |>]> (lm_conns m))
    (lm_lcid_len m) (<[a := mkLcid cid seq o type]> (lm_objs m)) (a + 1).

Definition same_ids (c c' : QUIC_LCIDM_CONN) : Prop := cn_lcids c' = cn_lcids c /\ cn_num_active_lcid c' = cn_num_active_lcid c.

Lemma fresh_none x m : lcidm_inv x m -> lm_objs m !! lm_fresh m = None.
Proof. intros Hi. destruct (lm_objs m !! lm_fresh m) eqn:E; [|done]. apply (inv_objs _ _ Hi) in E as [? _]. lia. Qed.

Lemma added_inv m o conn conn' cid seq type : lcidm_inv None m -> lm_conns m !! o = Some conn -> same_ids conn conn' -> lm_lcids m !! cid_bytes cid = None ->
  cid_array cid -> cid_id_len cid <= QUIC_MAX_CONN_ID_LEN ->
  (if type =? LCID_TYPE_ODCID then cn_odcid_lcid_obj conn = None /\ cn_odcid_lcid_obj conn' = Some (lm_fresh m) else cn_odcid_lcid_obj conn' = cn_odcid_lcid_obj conn) ->
  (cn_done_odcid conn' = false -> cn_odcid_lcid_obj conn' = None) ->
  lcidm_inv None (added m o conn' cid seq type).
Proof.
  intros Hi Hc [S1 S2] Hk Harr Hlen Hod Hdn. pose proof (fresh_none _ _ Hi) as Hf. pose proof Hi as [I1 I2 I3 I4 I5].
  assert (Hkc : cn_lcids conn !! cid_bytes cid = None).
  { destruct (cn_lcids conn !! cid_bytes cid) as [a|] eqn:E; [|done]. apply (I3 _ _ Hc) in E as [? _]. congruence. }
  split; unfold added; cbn.
  - intros k a [[<- <-]|[Hne Ha]]%lookup_insert_Some.
    { exists (mkLcid cid seq o type). eexists. cbn. rewrite !lookup_insert_eq. split_and!; try done. cbn. by rewrite lookup_insert_eq. }
    destruct (I1 _ _ Ha) as (obj & conn0 & Ho & B1 & B2 & B3 & B4 & B5). exists obj. destruct (decide (lc_conn obj = o)) as [<-|Hno].
    + assert (conn0 = conn) as -> by congruence. eexists. rewrite lookup_insert_ne by congruence. rewrite lookup_insert_eq. split_and!; try done.
      cbn. rewrite S1. by rewrite lookup_insert_ne.
    + exists conn0. rewrite !lookup_insert_ne by congruence. done.
  - intros a obj [[<- <-]|[Hne Ha]]%lookup_insert_Some; [cbn; rewrite lookup_insert_eq; split; [lia|done]|].
    destruct (I2 _ _ Ha) as [? Hl]. split; [lia|]. rewrite lookup_insert_ne; [done|]. congruence.
  - intros o' c [[<- <-]|[Hne Ho]]%lookup_insert_Some; cbn.
    + rewrite S1, S2. split.
      * intros k a [[<- <-]|[Hne Ha]]%lookup_insert_Some; [rewrite !lookup_insert_eq; eauto|]. apply (I3 _ _ Hc) in Ha as (? & obj & ? & ?).
        rewrite !lookup_insert_ne by congruence. eauto.
      * rewrite map_size_insert_None by done. rewrite (proj2 (I3 _ _ Hc)). unfold add64. by rewrite Nat2Z.inj_succ, Zplus_mod_idemp_l.
    + destruct (I3 _ _ Ho) as [H1 H2]. split; [|done]. intros k a Ha. apply H1 in Ha as (? & obj & ? & ?). rewrite !lookup_insert_ne by congruence. eauto.
  - intros o' c a Ho' _.
    assert (Hold : forall obj, lm_objs m !! a = Some obj <-> a <> lm_fresh m /\ <[lm_fresh m := mkLcid cid seq o type]> (lm_objs m) !! a = Some obj).
    { intros obj. rewrite lookup_insert_Some. split; [intros H|naive_solver]. assert (a <> lm_fresh m) by congruence. naive_solver. }
    destruct (decide (a = lm_fresh m)) as [->|Hna].
    + rewrite lookup_insert_eq. apply lookup_insert_Some in Ho' as [[<- <-]|[Hne Ho']]; cbn.
      * destruct (Z.eqb_spec type LCID_TYPE_ODCID) as [->|Ht]; [destruct Hod as [_ ->]; naive_solver|]. rewrite Hod, (I4 _ _ _ Hc) by done.
        split; [intros (? & ? & _); congruence|]. intros (? & [= <-] & _ & ?). done.
      * rewrite (I4 _ _ _ Ho') by done. split; [intros (? & ? & _); congruence|]. intros (? & [= <-] & ? & ?). done.
    + rewrite lookup_insert_ne by done. apply lookup_insert_Some in Ho' as [[<- <-]|[Hne Ho']]; cbn; [|by apply I4].
      rewrite <- (I4 _ _ _ Hc) by done. destruct (Z.eqb_spec type LCID_TYPE_ODCID) as [->|Ht]; [destruct Hod as [-> ->]; naive_solver|]. by rewrite Hod.
  - intros o' c [[<- <-]|[Hne Ho]]%lookup_insert_Some; [done|by apply (I5 o')].
Qed.

Lemma added_routes m o conn' cid seq type : lcidm_inv None m -> routes (added m o conn' cid seq type) = <[cid_bytes cid := mkInfo o seq type]> (routes m).
Proof.
  intros Hi. apply map_eq. intros k. unfold routes, added. cbn. rewrite lookup_omap. destruct (decide (k = cid_bytes cid)) as [->|Hk].
  - rewrite !lookup_insert_eq. cbn. by rewrite lookup_insert_eq.
  - rewrite !lookup_insert_ne, lookup_omap by done. destruct (lm_lcids m !! k) as [a|] eqn:Ha; [|done]. cbn.
    rewrite lookup_insert_ne; [done|]. intros <-. destruct (inv_lcids _ _ Hi _ _ Ha) as (obj & _ & Ho & _). rewrite (fresh_none _ _ Hi) in Ho. done.
Qed.

(** Deleting one connection ID; unless the pointer of its connection is excepted, it must not be the ODCID. *)
Lemma delete_lcid_spec x m a obj : lcidm_inv x m -> lm_objs m !! a = Some obj -> x = Some (lc_conn obj) \/ lc_type obj <> LCID_TYPE_ODCID ->
  exists m' conn, lcidm_delete_conn_lcid m a = Some m' /\ lcidm_inv x m' /\ routes m' = delete (cid_bytes (lc_cid obj)) (routes m) /\
    lm_objs m' = delete a (lm_objs m) /\ lm_lcid_len m' = lm_lcid_len m /\ lm_conns m !! lc_conn obj = Some conn /\
    lm_conns m' = <[lc_conn obj := conn <| cn_lcids := delete (cid_bytes (lc_cid obj)) (cn_lcids conn) |> <| cn_num_active_lcid := cn_num_active_lcid conn -u 1 |>]> (lm_conns m).
Proof.
  intros Hi Ho Hx. pose proof Hi as [I1 I2 I3 I4 I5]. set (k := cid_bytes (lc_cid obj)). assert (Hk : lm_lcids m !! k = Some a) by (by apply I2).
  destruct (I1 _ _ Hk) as (obj' & conn & Ho' & _ & _ & _ & Hc & Hck). assert (obj' = obj) as -> by congruence. set (o := lc_conn obj) in *.
  unfold lcidm_delete_conn_lcid. rewrite Ho. cbn [mbind option_bind]. fold o. rewrite Hc. cbn [mbind option_bind]. fold k. do 2 eexists. split; [done|]. cbn.
  assert (Hinj : forall k' , lm_lcids m !! k' = Some a -> k' = k). { intros k' Hk'. destruct (I1 _ _ Hk') as (obj' & _ & Hob & <- & _). assert (obj' = obj) as -> by congruence. done. }
  split_and!; try done.
  - split; cbn.
    + intros k' a' [Hne Ha]%lookup_delete_Some. destruct (I1 _ _ Ha) as (obj1 & conn1 & H1 & H2 & H3 & H4 & H5 & H6). exists obj1.
      assert (a' <> a) by (intros ->; by apply Hne; symmetry; apply Hinj). rewrite lookup_delete_ne by done. destruct (decide (lc_conn obj1 = o)) as [He|Hno].
      * rewrite He in *. assert (conn1 = conn) as -> by congruence. rewrite lookup_insert_eq. eexists. split_and!; try done. cbn. by rewrite lookup_delete_ne.
      * rewrite lookup_insert_ne by done. by exists conn1.
    + intros a' obj1 [Hne Ha]%lookup_delete_Some. destruct (I2 _ _ Ha). split; [done|]. rewrite lookup_delete_ne; [done|]. congruence.
    + intros o' c [[<- <-]|[Hne Hc']]%lookup_insert_Some; cbn.
      * destruct (I3 _ _ Hc) as [H1 H2]. split.
        -- intros k' a' [Hne Ha]%lookup_delete_Some. apply H1 in Ha as (Hl & obj1 & ? & ?). rewrite lookup_delete_ne by done. split; [done|]. exists obj1.
           rewrite lookup_delete_ne; [done|]. intros ->. by apply Hne; symmetry; apply Hinj.
        -- rewrite map_size_delete_Some by done. rewrite H2. assert (size (cn_lcids conn) <> 0%nat) by (intros He%map_size_empty_inv; by rewrite He in Hck).
           unfold sub64. rewrite Zminus_mod_idemp_l. f_equal. lia.
      * destruct (I3 _ _ Hc') as [H1 H2]. split; [|done]. intros k' a' Ha. apply H1 in Ha as (Hl & obj1 & Hobj & Hoo).
        assert (a' <> a) by (intros ->; apply Hne; rewrite Ho in Hobj; by injection Hobj as <-). rewrite !lookup_delete_ne; [eauto|done|]. intros ->. congruence.
    + intros o' c a' Hc' Hxo. setoid_rewrite lookup_delete_Some.
      assert (Hiff : lm_conns m !! o' = Some conn \/ o' <> o -> forall c', lm_conns m !! o' = Some c' -> cn_odcid_lcid_obj c' = Some a' <->
        exists obj0, (a <> a' /\ lm_objs m !! a' = Some obj0) /\ lc_conn obj0 = o' /\ lc_type obj0 = LCID_TYPE_ODCID).
      { intros _ c' Hc0. rewrite (I4 _ _ _ Hc0 Hxo). split; [|naive_solver]. intros (obj0 & H0 & H1 & H2). exists obj0. split_and!; try done.
        intros <-. assert (obj0 = obj) as -> by congruence. destruct Hx as [->|Hx]; [|done]. by rewrite <- H1 in Hxo. }
      apply lookup_insert_Some in Hc' as [[<- <-]|[Hne Hc']]; cbn; [by apply Hiff; auto|apply Hiff; auto].
    + intros o' c [[<- <-]|[Hne Hc']]%lookup_insert_Some; [by apply (I5 _ _ Hc)|by apply (I5 o')].
  - apply map_eq. intros k'. unfold routes. cbn. rewrite lookup_omap. destruct (decide (k' = k)) as [->|Hne]; [by rewrite !lookup_delete_eq|].
    rewrite !lookup_delete_ne, lookup_omap by done. destruct (lm_lcids m !! k') as [a'|] eqn:Ha; [|done]. cbn. rewrite lookup_delete_ne; [done|]. intros ->. auto.
Qed.

Lemma and_iff_compat_l_weak (P Q R : Prop) : (P -> Q <-> R) -> P /\ Q <-> P /\ R.
Proof. tauto. Qed.

Lemma delete_lcids_spec m o conn l : lcidm_inv (Some o) m -> NoDup l -> (forall a, a ∈ l -> exists obj, lm_objs m !! a = Some obj /\ lc_conn obj = o) -> lm_conns m !! o = Some conn ->
  exists m' conn', delete_lcids m l = Some m' /\ lcidm_inv (Some o) m' /\ lm_lcid_len m' = lm_lcid_len m /\ (forall o', o' <> o -> lm_conns m' !! o' = lm_conns m !! o') /\
    lm_conns m' !! o = Some conn' /\ (forall k a, cn_lcids conn' !! k = Some a <-> cn_lcids conn !! k = Some a /\ a ∉ l) /\
    (forall k i, routes m' !! k = Some i <-> routes m !! k = Some i /\ forall a, lm_lcids m !! k = Some a -> a ∉ l).
Proof.
  revert m conn. induction l as [|a l IH]; intros m conn Hi Hnd Hl Hc.
  { exists m, conn. split_and!; try done; [intros; set_solver|naive_solver set_solver]. }
  apply NoDup_cons in Hnd as [Hal Hnd]. destruct (Hl a ltac:(left)) as (obj & Ho & Hoo).
  destruct (delete_lcid_spec (Some o) m a obj Hi Ho) as (m1 & conn1 & Hd & Hi1 & Hr1 & Ho1 & Hlen1 & Hc1 & Hcs1); [by left; rewrite Hoo|].
  rewrite Hoo in *. assert (conn1 = conn) as -> by congruence. set (k := cid_bytes (lc_cid obj)) in *.
  destruct (inv_objs _ _ Hi _ _ Ho) as [_ Hk]. fold k in Hk.
  assert (Hinj : forall k', lm_lcids m !! k' = Some a -> k' = k). { intros k' Hk'. destruct (inv_lcids _ _ Hi _ _ Hk') as (obj' & _ & Hob & <- & _). assert (obj' = obj) as -> by congruence. done. }
  destruct (IH m1 (conn <| cn_lcids := delete k (cn_lcids conn) |> <| cn_num_active_lcid := cn_num_active_lcid conn -u 1 |>)) as (m2 & conn2 & H2 & Hi2 & Hlen2 & Hcs2 & Hc2 & Hk2 & Hr2); try done.
  { intros a' Ha'. destruct (Hl a' ltac:(by right)) as (obj' & ? & ?). exists obj'. rewrite Ho1, lookup_delete_ne; [done|]. by intros ->. }
  { by rewrite Hcs1, lookup_insert_eq. }
  exists m2, conn2. split_and!; try done; [cbn; by rewrite Hd|congruence| | |].
  - intros o' Hne. rewrite Hcs2, Hcs1 by done. by rewrite lookup_insert_ne.
  - intros k' a'. rewrite Hk2. cbn. rewrite lookup_delete_Some, not_elem_of_cons. split; [|intros (? & ? & ?); split_and!; try done].
    + intros ([Hne Hk'] & Hn). split_and!; try done. intros ->. apply (inv_conns _ _ Hi _ _ Hc) in Hk' as [Hk' _]. by apply Hne; symmetry; apply Hinj.
    + intros <-. apply (inv_conns _ _ Hi _ _ Hc) in H as [H _]. congruence.
  - intros k' i. rewrite Hr2, Hr1, lookup_delete_Some.
    assert (Hlk : forall a', k' <> k -> lm_lcids m1 !! k' = Some a' <-> lm_lcids m !! k' = Some a').
    { intros a' Hne. revert Hd. unfold lcidm_delete_conn_lcid. rewrite Ho. cbn. rewrite Hoo, Hc. cbn. intros [= <-]. cbn. by rewrite lookup_delete_ne. }
    split.
    + intros ([Hne Hr] & Ha). split; [done|]. intros a' Ha'. apply not_elem_of_cons. split; [intros ->; by apply Hne; symmetry; apply Hinj|]. apply Ha. by apply Hlk.
    + intros (Hr & Ha). assert (Hne : k <> k') by (intros <-; specialize (Ha _ Hk); set_solver). split_and!; try done. intros a' Ha'. apply Hlk in Ha'; [|done]. specialize (Ha _ Ha'). set_solver.
Qed.

Lemma inv_weaken o m : lcidm_inv None m -> lcidm_inv (Some o) m.
Proof. intros [I1 I2 I3 I4 I5]. split; eauto. Qed.

(** Deleting a connection removes its connection IDs and no others. *)
Lemma delete_conn_spec m o conn : lcidm_inv None m -> lm_conns m !! o = Some conn ->
  exists m', lcidm_delete_conn m o = Some m' /\ lcidm_inv None m' /\ lm_lcid_len m' = lm_lcid_len m /\ routes m' = filter (fun p => li_opaque p.2 <> o) (routes m) /\
    lm_conns m' !! o = None /\ (forall o', o' <> o -> lm_conns m' !! o' = lm_conns m !! o').
Proof.
  intros Hi Hc. unfold lcidm_delete_conn. rewrite Hc. cbn [mbind option_bind]. pose proof (inv_conns _ _ Hi _ _ Hc) as [Hcl _].
  assert (Hit : forall a, a ∈ lh_items (cn_lcids conn) <-> exists k, cn_lcids conn !! k = Some a).
  { intros a. unfold lh_items. rewrite list_elem_of_fmap. setoid_rewrite <- elem_of_map_to_list. split; [intros ([k ?] & -> & ?); eauto|intros [k ?]; by exists (k, a)]. }
  destruct (delete_lcids_spec m o conn (lh_items (cn_lcids conn))) as (m1 & conn1 & -> & Hi1 & Hlen1 & Hcs1 & Hc1 & Hk1 & Hr1); [by apply inv_weaken| | |done|].
  { unfold lh_items. apply NoDup_fmap_2_strong; [|apply NoDup_map_to_list]. intros [k a] [k' a'] Hx%elem_of_map_to_list Hx'%elem_of_map_to_list Heq. cbn in Heq. subst a'.
    apply Hcl in Hx as [Hx _]. apply Hcl in Hx' as [Hx' _]. destruct (inv_lcids _ _ Hi _ _ Hx) as (ob & _ & ? & <- & _), (inv_lcids _ _ Hi _ _ Hx') as (ob' & _ & ? & <- & _). by simplify_eq. }
  { intros a [k Hk]%Hit. by apply Hcl in Hk as [_ ?]. }
  cbn [mbind option_bind]. eexists. split; [done|]. cbn.
  assert (Hempty : cn_lcids conn1 = ∅). { apply map_empty. intros k. destruct (cn_lcids conn1 !! k) as [a|] eqn:E; [|done]. apply Hk1 in E as [E []]. apply Hit. eauto. }
  assert (Hown : forall a obj, lm_objs m1 !! a = Some obj -> lc_conn obj <> o).
  { intros a obj Ha Hoo. destruct (inv_objs _ _ Hi1 _ _ Ha) as [_ Hl]. destruct (inv_lcids _ _ Hi1 _ _ Hl) as (ob & c & ? & _ & _ & _ & Hcc & Hck). simplify_eq. by rewrite Hempty in Hck. }
  split_and!; try done.
  - destruct Hi1 as [I1 I2 I3 I4 I5]. split; cbn.
    + intros k a Ha. destruct (I1 _ _ Ha) as (obj & c & Ho & ? & ? & ? & ? & ?). exists obj, c. split_and!; try done. rewrite lookup_delete_ne; [done|]. intros He. by eapply Hown.
    + done.
    + intros o' c [Hne Ho]%lookup_delete_Some. by apply I3.
    + intros o' c a [Hne Ho]%lookup_delete_Some _. apply I4; [done|congruence].
    + intros o' c [Hne Ho]%lookup_delete_Some. by apply (I5 o').
  - apply map_eq. intros k. apply option_eq. intros i. transitivity (routes m1 !! k = Some i); [done|]. rewrite Hr1, map_lookup_filter_Some. cbn.
    apply and_iff_compat_l_weak. intros Hr. apply routes_lookup in Hr as (a & obj & Ha & Ho & ->). cbn.
    assert (Hiff : a ∈ lh_items (cn_lcids conn) <-> lc_conn obj = o).
    { rewrite Hit. split; [intros [k' Hk']; apply Hcl in Hk' as (? & ob & ? & ?); congruence|]. intros <-.
      destruct (inv_lcids _ _ Hi _ _ Ha) as (ob & c & ? & _ & _ & _ & ? & ?). simplify_eq. eauto. }
    rewrite <- Hiff. split; [by intros H; apply H|]. intros Hn a' Ha'. congruence.
  - by rewrite lookup_delete_eq.
  - intros o' Hne. rewrite lookup_delete_ne by done. by apply Hcs1.
Qed.

