(* ===== verification/LcidmProps.v ===== *)
(** * The local connection ID manager: histories and what they promise

    The histories of a manager, their specification by one table of connection
    IDs and two counters for every connection, the refinement between the two,
    and the uniqueness of the sequence numbers issued. *)

From stdpp Require Import functions.
From S2P Require Import Prelude Packet Wire WirePkt Lcidm LcidmInv.

(** ** Histories *)

Inductive lc_op :=
  | LEnrol (ok : nat -> bool) (o : Z) (cid : option QUIC_CONN_ID)
  | LInitial (ok : nat -> bool) (rand : nat -> option bytes) (o : Z) (cid : QUIC_CONN_ID)
  | LNcid (ok : nat -> bool) (rand : nat -> option bytes) (o : Z) (f : OSSL_QUIC_FRAME_NEW_CONN_ID)
  | LBind (ok : nat -> bool) (o : Z) (cid : QUIC_CONN_ID)
  | LRetireOdcid (ok : nat -> bool) (o : Z)
  | LRetire (o rpt : Z) (dcid : option QUIC_CONN_ID)
  | LCull (o : Z)
  | LDebugRemove (cid : QUIC_CONN_ID)
  | LDebugAdd (ok : nat -> bool) (o : Z) (cid : option QUIC_CONN_ID) (seq : Z)
  | LLookup (cid : option QUIC_CONN_ID)
  | LCount (o : Z)
  | LUnused (rand : nat -> option bytes) (cid : QUIC_CONN_ID).

Inductive lc_res :=
  | RBool (b : bool) | RCid (cid : QUIC_CONN_ID) (seq : option Z) | RFrame (f : OSSL_QUIC_FRAME_NEW_CONN_ID) (b : bool)
  | RRetired (b : bool) (r : option (QUIC_CONN_ID * Z)) | RFound (r : option (Z * Z)) | RCount (n : Z) | RUnused (cid : QUIC_CONN_ID) (b : bool).

Definition lc_do (m : QUIC_LCIDM) (op : lc_op) : option (QUIC_LCIDM * lc_res) :=
  match op with
  | LEnrol ok o cid => '(m, b) ← ossl_quic_lcidm_enrol_odcid ok m o cid; Some (m, RBool b)
  | LInitial ok rand o cid => '(m, cid, s) ← ossl_quic_lcidm_generate_initial ok rand m o cid; Some (m, RCid cid s)
  | LNcid ok rand o f => '(m, f, b) ← ossl_quic_lcidm_generate ok rand m o f; Some (m, RFrame f b)
  | LBind ok o cid => '(m, b) ← ossl_quic_lcidm_bind_channel ok m o cid; Some (m, RBool b)
  | LRetireOdcid ok o => '(m, b) ← ossl_quic_lcidm_retire_odcid ok m o; Some (m, RBool b)
  | LRetire o rpt dcid => '(m, b, r) ← ossl_quic_lcidm_retire m o rpt dcid; Some (m, RRetired b r)
  | LCull o => '(m, b) ← ossl_quic_lcidm_cull m o; Some (m, RBool b)
  | LDebugRemove cid => '(m, b) ← ossl_quic_lcidm_debug_remove m cid; Some (m, RBool b)
  | LDebugAdd ok o cid seq => '(m, b) ← ossl_quic_lcidm_debug_add ok m o cid seq; Some (m, RBool b)
  | LLookup cid => r ← ossl_quic_lcidm_lookup m cid; Some (m, RFound r)
  | LCount o => Some (m, RCount (ossl_quic_lcidm_get_num_active_lcid m o))
  | LUnused rand cid => let '(cid, b) := ossl_quic_lcidm_get_unused_cid rand m cid in Some (m, RUnused cid b)
  end.

(** What the caller and the random generator promise; the debug call is made on a connection ID of at most 20 bytes, and not
    on an ODCID, to which the connection keeps a pointer. *)
Definition rand_ok (len : Z) (rand : nat -> option bytes) : Prop := forall i b, rand i = Some b -> zlen b = len.
Definition opt_array (c : option QUIC_CONN_ID) : Prop := match c with Some c => cid_array c | None => True end.
Definition lc_op_ok (m : QUIC_LCIDM) (op : lc_op) : Prop :=
  match op with
  | LEnrol _ _ cid | LDebugAdd _ _ cid _ | LLookup cid => opt_array cid
  | LRetire _ rpt dcid => opt_array dcid /\ u64 rpt
  | LInitial _ rand _ cid | LUnused rand cid => rand_ok (lm_lcid_len m) rand /\ cid_array cid
  | LNcid _ rand _ f => rand_ok (lm_lcid_len m) rand /\ cid_array (nc_conn_id f)
  | LBind _ _ cid => cid_array cid
  | LDebugRemove cid => cid_array cid /\ cid_id_len cid <= QUIC_MAX_CONN_ID_LEN /\ forall i, routes m !! cid_bytes cid = Some i -> li_type i <> LCID_TYPE_ODCID
  | LRetireOdcid _ _ | LCull _ | LCount _ => True
  end.

Inductive lc_runs : QUIC_LCIDM -> list lc_op -> list lc_res -> QUIC_LCIDM -> Prop :=
  | lc_runs_nil m : lc_runs m [] [] m
  | lc_runs_cons m op r m1 ops rs m2 : lc_op_ok m op -> lc_do m op = Some (m1, r) -> lc_runs m1 ops rs m2 -> lc_runs m (op :: ops) (r :: rs) m2.

(** ** The specification: one table of connection IDs, and two counters per connection *)

Definition lspec : Type := gmap bytes lcid_info * (Z -> Z * bool).
Implicit Types S : lspec.

Definition nomem (ok : nat -> bool) : Prop := exists i, ok i = false.
Definition too_long (cid : QUIC_CONN_ID) : Prop := QUIC_MAX_CONN_ID_LEN < cid_id_len cid.
Definition taken S (cid : QUIC_CONN_ID) : Prop := cid_id_len cid <= QUIC_MAX_CONN_ID_LEN /\ S.1 !! cid_bytes cid <> None.
Definition add_id S (o : Z) (cid : QUIC_CONN_ID) (seq type : Z) : gmap bytes lcid_info := <[cid_bytes cid := mkInfo o seq type]> S.1.
Definition drop_conn S (o : Z) : lspec := (filter (fun p => li_opaque p.2 <> o) S.1, <[o := (0, false)]> S.2).
Definition count_up S (o : Z) : Z -> Z * bool := <[o := ((S.2 o).1 +u 1, (S.2 o).2)]> S.2.

(** A fresh connection ID of the configured length out of at most eight random ones, with the next sequence number. *)
Inductive gen_spec (len : Z) (ok : nat -> bool) (rand : nat -> option bytes) (o type : Z) S : QUIC_CONN_ID -> option Z -> lspec -> Prop :=
  | gen_ok cid i : (i < MAX_RETRIES)%nat -> rand i = Some (cid_bytes cid) -> cid_id_len cid = len -> S.1 !! cid_bytes cid = None ->
      (type = LCID_TYPE_INITIAL -> (S.2 o).1 <= 0) -> (S.2 o).1 <= OSSL_QUIC_VLINT_MAX ->
      gen_spec len ok rand o type S cid (Some (S.2 o).1) (add_id S o cid (S.2 o).1 type, count_up S o)
  | gen_fails cid : nomem ok \/ (type = LCID_TYPE_INITIAL /\ 0 < (S.2 o).1) \/ OSSL_QUIC_VLINT_MAX < (S.2 o).1 \/
      (exists i, rand i = None) \/ (forall i, (i < MAX_RETRIES)%nat -> exists b, rand i = Some b /\ is_Some (S.1 !! b)) -> gen_spec len ok rand o type S cid None S.

(** The connection ID of [o] with the lowest sequence number below [rpt]; the ODCID has none. *)
Definition retirable S (o rpt : Z) (k : bytes) (i : lcid_info) : Prop := S.1 !! k = Some i /\ li_opaque i = o /\ li_type i <> LCID_TYPE_ODCID /\ li_seq i < rpt.
Definition earliest S (o rpt : Z) (k : bytes) (i : lcid_info) : Prop := retirable S o rpt k i /\ forall k' i', retirable S o rpt k' i' -> li_seq i <= li_seq i'.
Definition names (dcid : option QUIC_CONN_ID) (k : bytes) : Prop := match dcid with Some c => cid_id_len c <= QUIC_MAX_CONN_ID_LEN /\ cid_bytes c = k | None => False end.

Inductive lc_spec (len : Z) S : lc_op -> lc_res -> lspec -> Prop :=
  | sp_enrol ok o cid : QUIC_MIN_ODCID_LEN <= cid_id_len cid <= QUIC_MAX_CONN_ID_LEN -> (S.2 o).2 = false -> S.1 !! cid_bytes cid = None ->
      lc_spec len S (LEnrol ok o (Some cid)) (RBool true) (add_id S o cid LCIDM_ODCID_SEQ_NUM LCID_TYPE_ODCID, <[o := ((S.2 o).1, true)]> S.2)
  | sp_enrol_fails ok o c : nomem ok \/ (S.2 o).2 = true \/ match c with None => True | Some cid => cid_id_len cid < QUIC_MIN_ODCID_LEN \/ too_long cid \/ taken S cid end ->
      lc_spec len S (LEnrol ok o c) (RBool false) S
  | sp_initial ok rand o cid cid' r S' : gen_spec len ok rand o LCID_TYPE_INITIAL S cid' r S' -> lc_spec len S (LInitial ok rand o cid) (RCid cid' r) S'
  | sp_ncid ok rand o f cid' r S' : gen_spec len ok rand o LCID_TYPE_NCID S cid' r S' ->
      lc_spec len S (LNcid ok rand o f) (RFrame (mkFrameNewConnId (default 0 r) 0 cid' (nc_stateless_reset f)) (bool_decide (is_Some r))) S'
  | sp_bind ok o cid : cid_id_len cid <= QUIC_MAX_CONN_ID_LEN -> S.1 !! cid_bytes cid = None ->
      lc_spec len S (LBind ok o cid) (RBool true) (add_id S o cid (S.2 o).1 LCID_TYPE_INITIAL, count_up S o)
  | sp_bind_refused ok o cid : nomem ok \/ taken S cid -> lc_spec len S (LBind ok o cid) (RBool false) S
  | sp_bind_fails ok o cid : nomem ok \/ too_long cid -> lc_spec len S (LBind ok o cid) (RBool false) (drop_conn S o)
  | sp_retire_odcid ok o k i : S.1 !! k = Some i -> li_opaque i = o -> li_type i = LCID_TYPE_ODCID -> lc_spec len S (LRetireOdcid ok o) (RBool true) (delete k S.1, S.2)
  | sp_retire_odcid_fails ok o : nomem ok \/ (forall k i, S.1 !! k = Some i -> li_opaque i = o -> li_type i <> LCID_TYPE_ODCID) -> lc_spec len S (LRetireOdcid ok o) (RBool false) S
  | sp_retire o rpt dcid cid i : earliest S o rpt (cid_bytes cid) i -> ~ names dcid (cid_bytes cid) ->
      lc_spec len S (LRetire o rpt dcid) (RRetired true (Some (cid, li_seq i))) (delete (cid_bytes cid) S.1, S.2)
  | sp_retire_own o rpt dcid k i : earliest S o rpt k i -> names dcid k -> lc_spec len S (LRetire o rpt dcid) (RRetired false None) S
  | sp_retire_none o rpt dcid : (forall k i, ~ retirable S o rpt k i) -> lc_spec len S (LRetire o rpt dcid) (RRetired true None) S
  | sp_cull o b : b = true \/ (forall k i, S.1 !! k = Some i -> li_opaque i <> o) -> lc_spec len S (LCull o) (RBool b) (drop_conn S o)
  | sp_remove cid : taken S cid -> lc_spec len S (LDebugRemove cid) (RBool true) (delete (cid_bytes cid) S.1, S.2)
  | sp_remove_none cid : ~ taken S cid -> lc_spec len S (LDebugRemove cid) (RBool false) S
  | sp_add ok o cid seq : cid_id_len cid <= QUIC_MAX_CONN_ID_LEN -> S.1 !! cid_bytes cid = None ->
      lc_spec len S (LDebugAdd ok o (Some cid) seq) (RBool true) (add_id S o cid seq LCID_TYPE_NCID, S.2)
  | sp_add_fails ok o c seq : nomem ok \/ match c with None => True | Some cid => too_long cid \/ taken S cid end -> lc_spec len S (LDebugAdd ok o c seq) (RBool false) S
  | sp_found cid i : cid_id_len cid <= QUIC_MAX_CONN_ID_LEN -> S.1 !! cid_bytes cid = Some i -> lc_spec len S (LLookup (Some cid)) (RFound (Some (li_seq i, li_opaque i))) S
  | sp_not_found c : match c with Some cid => ~ taken S cid | None => True end -> lc_spec len S (LLookup c) (RFound None) S
  | sp_count o : lc_spec len S (LCount o) (RCount (Z.of_nat (size (filter (fun p : bytes * lcid_info => li_opaque p.2 = o) S.1)) mod U64_MOD)) S
  | sp_unused rand cid cid' : cid_id_len cid' = len -> S.1 !! cid_bytes cid' = None -> lc_spec len S (LUnused rand cid) (RUnused cid' true) S
  | sp_unused_fails rand cid cid' : (forall i, (i < 10)%nat -> rand i = None \/ exists b, rand i = Some b /\ is_Some (S.1 !! b)) -> lc_spec len S (LUnused rand cid) (RUnused cid' false) S.

Inductive lc_spec_runs (len : Z) : lspec -> list lc_op -> list lc_res -> lspec -> Prop :=
  | lc_spec_nil S : lc_spec_runs len S [] [] S
  | lc_spec_cons S op r S1 ops rs S2 : lc_spec len S op r S1 -> lc_spec_runs len S1 ops rs S2 -> lc_spec_runs len S (op :: ops) (r :: rs) S2.

(** ** The operations implement the specification *)

Record lcidm_rep (len : Z) (m : QUIC_LCIDM) S : Prop := {
  lr_inv : lcidm_inv None m;
  lr_len : lm_lcid_len m = len /\ 0 <= len <= QUIC_MAX_CONN_ID_LEN;
  lr_routes : S.1 = routes m;
  lr_counters o : S.2 o = counters m o }.

Lemma routes_taken len m S cid : lcidm_rep len m S -> lh_lcid_retrieve (lm_lcids m) cid <> None <-> taken S cid.
Proof.
  intros [Hi _ Hr _]. unfold taken. rewrite Hr, retrieve_spec. destruct (Z.ltb_spec QUIC_MAX_CONN_ID_LEN (cid_id_len cid)); [intuition lia|].
  pose proof (routes_none _ _ (cid_bytes cid) Hi). intuition.
Qed.

Lemma routes_free len m S cid : lcidm_rep len m S -> cid_id_len cid <= QUIC_MAX_CONN_ID_LEN -> lh_lcid_retrieve (lm_lcids m) cid = None ->
  lm_lcids m !! cid_bytes cid = None /\ S.1 !! cid_bytes cid = None.
Proof.
  intros [Hi _ Hr _] Hl. rewrite retrieve_spec, (proj2 (Z.ltb_ge _ _)) by done. intros Hn. split; [done|]. rewrite Hr. by apply (routes_none _ _ _ Hi).
Qed.

Lemma routes_at len m S k a : lcidm_rep len m S -> lm_lcids m !! k = Some a -> exists obj conn, lm_objs m !! a = Some obj /\ cid_bytes (lc_cid obj) = k /\ cid_array (lc_cid obj) /\
  cid_id_len (lc_cid obj) <= QUIC_MAX_CONN_ID_LEN /\ lm_conns m !! lc_conn obj = Some conn /\ S.1 !! k = Some (info_of obj).
Proof.
  intros [Hi _ Hr _] Ha. destruct (inv_lcids _ _ Hi _ _ Ha) as (obj & conn & Ho & Hk & ? & ? & ? & _). exists obj, conn. split_and!; try done.
  rewrite Hr, <- Hk. by eapply routes_obj.
Qed.

Lemma upsert_spec len ok m o m' r S : lcidm_rep len m S -> lcidm_upsert_conn ok m o = (m', r) -> lcidm_rep len m' S /\ lm_lcids m' = lm_lcids m /\
  match r with Some conn => lm_conns m' !! o = Some conn | None => nomem ok end.
Proof.
  intros Hr. unfold lcidm_upsert_conn, lcidm_get0_conn. destruct (lm_conns m !! o) as [conn|] eqn:Hc; [by intros [= <- <-]|].
  destruct (ok 0%nat && ok 1%nat && ok 2%nat) eqn:Hok; cbn [negb]; intros [= <- <-].
  2: { split_and!; try done. destruct (ok 0%nat) eqn:?, (ok 1%nat) eqn:?, (ok 2%nat) eqn:?; try done; eexists; eassumption. }
  destruct Hr as [Hi Hl Hr Hcn]. pose proof Hi as [I1 I2 I3 I4 I5]. split_and!; [|done|by cbn; rewrite lookup_insert_eq]. split; [|done|done|].
  - split; cbn; [|done| | |].
    + intros k a Ha. destruct (I1 _ _ Ha) as (obj & conn & ? & ? & ? & ? & ? & ?). exists obj, conn. split_and!; try done. rewrite lookup_insert_ne; [done|]. congruence.
    + intros o' c [[<- <-]|[Hne Ho]]%lookup_insert_Some; [by cbn; split|by apply I3].
    + intros o' c a [[<- <-]|[Hne Ho]]%lookup_insert_Some Hx; [|by apply I4]. cbn. split; [done|]. intros (obj & Ho & <- & _).
      destruct (I2 _ _ Ho) as [_ Hl']. destruct (I1 _ _ Hl') as (ob & c & ? & _ & _ & _ & ? & _). congruence.
    + intros o' c [[<- <-]|[Hne Ho]]%lookup_insert_Some; [done|by apply (I5 o')].
  - intros o'. rewrite Hcn. unfold counters. cbn. destruct (decide (o' = o)) as [->|]; [by rewrite lookup_insert_eq, Hc|by rewrite lookup_insert_ne].
Qed.

Lemma new_lcid_spec len ok m o conn cid m' r S : lcidm_rep len m S -> lm_conns m !! o = Some conn -> lm_lcids m !! cid_bytes cid = None ->
  lcidm_conn_new_lcid ok m o conn cid = (m', r) -> match r with
  | Some a => cid_id_len cid <= QUIC_MAX_CONN_ID_LEN /\ a = lm_fresh m /\ m' = added m o conn cid 0 0
  | None => (nomem ok \/ too_long cid) /\ lcidm_rep len m' S /\ lm_conns m' !! o = Some conn end.
Proof.
  intros Hr Hc Hk. unfold lcidm_conn_new_lcid. destruct (Z.ltb_spec QUIC_MAX_CONN_ID_LEN (cid_id_len cid)) as [Hl|Hl]; [intros [= <- <-]; unfold too_long; auto|].
  destruct (ok 3%nat && ok 4%nat) eqn:Hok; cbn [negb].
  2: { intros [= <- <-]. split_and!; try done. left. destruct (ok 3%nat) eqn:?, (ok 4%nat) eqn:?; try done; eexists; eassumption. }
  destruct (ok 5%nat) eqn:Hok5; cbn [negb]; intros [= <- <-]; [done|]. split; [left; by exists 5%nat|]. pose proof Hr as [Hi Hlen Hrt Hcn]. pose proof Hi as [I1 I2 I3 I4 I5].
  assert (Hdel : delete (cid_bytes cid) (cn_lcids conn) = cn_lcids conn).
  { apply delete_id. destruct (cn_lcids conn !! cid_bytes cid) as [a|] eqn:E; [|done]. apply (I3 _ _ Hc) in E as [? _]. congruence. }
  rewrite Hdel. unfold set_conn. cbn. rewrite insert_id by (by destruct conn).
  split; [|done]. split; [|done|done|done]. split; cbn; [done| |done|done|done]. intros a obj Ha. destruct (I2 _ _ Ha). split; [lia|done].
Qed.

Lemma set_added m o conn cid s t : set_lcid (added m o conn cid 0 0) (lm_fresh m) s t = Some (added m o conn cid s t).
Proof. unfold set_lcid, added. cbn. rewrite lookup_insert_eq. cbn. by rewrite insert_insert_eq. Qed.

Lemma conns_added m o conn cid s t : lm_conns (added m o conn cid s t) !! o =
  Some (conn <| cn_lcids := <[cid_bytes cid := lm_fresh m]> (cn_lcids conn) |> <| cn_num_active_lcid := cn_num_active_lcid conn +u 1 |>).
Proof. unfold added. cbn. by rewrite lookup_insert_eq. Qed.

(** The new state in terms of the specification; [up] is what becomes of the counters. *)
Lemma added_rep len m o conn conn' cid seq type S : lcidm_rep len m S -> lm_conns m !! o = Some conn -> same_ids conn conn' -> lm_lcids m !! cid_bytes cid = None ->
  cid_array cid -> cid_id_len cid <= QUIC_MAX_CONN_ID_LEN ->
  (if type =? LCID_TYPE_ODCID then cn_odcid_lcid_obj conn = None /\ cn_odcid_lcid_obj conn' = Some (lm_fresh m) else cn_odcid_lcid_obj conn' = cn_odcid_lcid_obj conn) ->
  (cn_done_odcid conn' = false -> cn_odcid_lcid_obj conn' = None) ->
  lcidm_rep len (added m o conn' cid seq type) (add_id S o cid seq type, <[o := (cn_next_seq_num conn', cn_done_odcid conn')]> S.2).
Proof.
  intros [Hi Hl Hr Hcn] Hc Hs Hk Ha Hlen Hod Hdn. split; [by eapply added_inv|done| |].
  - cbn [fst]. unfold add_id. by rewrite added_routes, Hr.
  - intros o'. unfold counters. cbn [snd]. destruct (decide (o' = o)) as [->|Hne].
    + rewrite fn_lookup_insert, conns_added. done.
    + rewrite fn_lookup_insert_ne by done. rewrite Hcn. unfold added, counters. cbn. by rewrite lookup_insert_ne.
Qed.

Lemma gen_cid_spec m b cid cid' r : 0 <= lm_lcid_len m <= QUIC_MAX_CONN_ID_LEN -> (forall x, b = Some x -> zlen x = lm_lcid_len m) -> cid_array cid -> lcidm_generate_cid b m cid = (cid', r) ->
  if r then b = Some (cid_bytes cid') /\ cid_id_len cid' = lm_lcid_len m /\ cid_array cid' else b = None /\ cid_array cid'.
Proof.
  intros Hl Hb [Ha H0]. unfold lcidm_generate_cid, ossl_quic_gen_rand_conn_id. rewrite (proj2 (Z.ltb_ge _ _)) by lia. destruct b as [x|]; intros [= <- <-]; [|done].
  specialize (Hb x eq_refl). unfold cid_array, cid_bytes, zlen in *. cbn. rewrite (take_ge x) by lia. split_and!; try done.
  - rewrite take_app_le, take_ge by lia. done.
  - rewrite length_app, length_drop. unfold QUIC_MAX_CONN_ID_LEN in *. lia.
  - lia.
Qed.

Lemma generate_loop_spec len m S rand fuel i cid cid' r : lcidm_rep len m S -> rand_ok (lm_lcid_len m) rand -> cid_array cid -> generate_loop fuel i rand m cid = (cid', r) ->
  cid_array cid' /\ if r then (exists j, (i <= j < i + fuel)%nat /\ rand j = Some (cid_bytes cid')) /\ cid_id_len cid' = len /\ lm_lcids m !! cid_bytes cid' = None
  else (exists j, rand j = None) \/ forall j, (i <= j < i + fuel)%nat -> exists b, rand j = Some b /\ is_Some (S.1 !! b).
Proof.
  intros Hr Hrand. pose proof Hr as [_ [Hl Hb] _ _]. revert i cid. induction fuel as [|fuel IH]; intros i cid Ha; cbn [generate_loop].
  { intros [= <- <-]. split; [done|]. right. lia. }
  destruct (lcidm_generate_cid (rand i) m cid) as [c [|]] eqn:Hg; pose proof (gen_cid_spec m (rand i) cid _ _ ltac:(by rewrite Hl) (Hrand i) Ha Hg) as Hg'.
  2: { intros [= <- <-]. destruct Hg' as [Hn ?]. split; [done|]. left. by exists i. }
  destruct Hg' as (Hri & Hcl & Hca). destruct (lh_lcid_retrieve (lm_lcids m) c) as [a|] eqn:Hret.
  - intros Hloop. destruct (IH (Datatypes.S i) c Hca Hloop) as [Ha' Hres]. split; [done|]. destruct r.
    + destruct Hres as ((j & ? & ?) & ? & ?). split_and!; try done. exists j. split; [lia|done].
    + destruct Hres as [|Hall]; [by left|]. right. intros j Hj. destruct (decide (j = i)) as [->|]; [|apply Hall; lia]. exists (cid_bytes c). split; [done|].
      assert (taken S c) as [_ Ht] by (eapply routes_taken; [done|congruence]). by apply not_eq_None_Some.
  - intros [= <- <-]. split; [done|]. split; [exists i; split; [lia|done]|]. split; [congruence|]. apply (routes_free len m S c Hr); [lia|done].
Qed.

Lemma generate_refines len ok rand m o type cid S : lcidm_rep len m S -> rand_ok (lm_lcid_len m) rand -> cid_array cid -> type <> LCID_TYPE_ODCID ->
  exists m' cid' r S', lcidm_generate ok rand m o type cid = Some (m', cid', r) /\ gen_spec len ok rand o type S cid' r S' /\ lcidm_rep len m' S'.
Proof.
  intros Hr Hrand Ha Htype. unfold lcidm_generate. destruct (lcidm_upsert_conn ok m o) as [m1 [conn|]] eqn:Hu; destruct (upsert_spec _ _ _ _ _ _ _ Hr Hu) as (Hr1 & Hls & Hc).
  2: { exists m1, cid, None, S. split_and!; try done. constructor. by left. }
  pose proof (lr_counters _ _ _ Hr1 o) as Hcnt. unfold counters in Hcnt. rewrite Hc in Hcnt.
  destruct ((type =? LCID_TYPE_INITIAL) && (0 <? cn_next_seq_num conn) || (OSSL_QUIC_VLINT_MAX <? cn_next_seq_num conn)) eqn:Hlim.
  { exists m1, cid, None, S. split_and!; try done. constructor. rewrite Hcnt. cbn. lia. }
  assert (Hrand1 : rand_ok (lm_lcid_len m1) rand) by (rewrite (proj1 (lr_len _ _ _ Hr1)); by rewrite <- (proj1 (lr_len _ _ _ Hr))).
  destruct (generate_loop MAX_RETRIES 0 rand m1 cid) as [c [|]] eqn:Hg; destruct (generate_loop_spec _ _ _ _ _ _ _ _ _ Hr1 Hrand1 Ha Hg) as [Hca Hres].
  2: { exists m1, c, None, S. split_and!; try done. constructor. destruct Hres as [|Hall]; [by auto|]. do 4 right. intros i Hi. apply Hall. lia. }
  destruct Hres as ((j & Hj & Hrj) & Hlen & Hfree). destruct (lcidm_conn_new_lcid ok m1 o conn c) as [m2 [a|]] eqn:Hn; pose proof (new_lcid_spec _ _ _ _ _ _ _ _ _ Hr1 Hc Hfree Hn) as Hns.
  2: { destruct Hns as ([Hm|Hm] & Hr2 & _); [exists m2, c, None, S; split_and!; try done; constructor; by left|]. pose proof (lr_len _ _ _ Hr). unfold too_long in Hm. lia. }
  destruct Hns as (Hcl & -> & ->). rewrite conns_added. cbn [mbind option_bind]. rewrite set_added. cbn [mbind option_bind]. do 4 eexists. split; [done|].
  assert (Hfr : S.1 !! cid_bytes c = None) by (rewrite (lr_routes _ _ _ Hr1); by apply (routes_none _ _ _ (lr_inv _ _ _ Hr1))).
  assert (Hgo : gen_spec len ok rand o type S c (Some (cn_next_seq_num conn)) (add_id S o c (cn_next_seq_num conn) type, count_up S o)).
  { replace (cn_next_seq_num conn) with (S.2 o).1 by (by rewrite Hcnt). apply (gen_ok _ _ _ _ _ _ _ j); try done; [lia|rewrite Hcnt; cbn; lia..]. }
  split; [exact Hgo|].
  pose proof (added_rep len m1 o conn (conn <| cn_next_seq_num := cn_next_seq_num conn +u 1 |>) c (cn_next_seq_num conn) type S Hr1 Hc) as Hadd.
  rewrite (proj2 (Z.eqb_neq _ _)) in Hadd by done. specialize (Hadd ltac:(done) Hfree Hca Hcl eq_refl (inv_done _ _ (lr_inv _ _ _ Hr1) _ _ Hc)). unfold count_up. rewrite Hcnt. cbn [fst snd].
  replace (set_conn _ o _) with (added m1 o (conn <| cn_next_seq_num := cn_next_seq_num conn +u 1 |>) c (cn_next_seq_num conn) type); [done|].
  unfold set_conn, added. cbn. by rewrite insert_insert_eq.
Qed.

Lemma delete_refines len m S a obj : lcidm_rep len m S -> lm_objs m !! a = Some obj -> lc_type obj <> LCID_TYPE_ODCID ->
  exists m', lcidm_delete_conn_lcid m a = Some m' /\ lcidm_rep len m' (delete (cid_bytes (lc_cid obj)) S.1, S.2).
Proof.
  intros [Hi Hl Hr Hcn] Ho Ht. destruct (delete_lcid_spec None m a obj Hi Ho) as (m' & conn & Hd & Hi' & Hr' & _ & Hl' & Hc & Hcs); [by right|].
  exists m'. split; [done|]. split; [done|by rewrite Hl'|by rewrite Hr', Hr|]. intros o. cbn [snd]. rewrite Hcn. unfold counters. rewrite Hcs.
  destruct (decide (o = lc_conn obj)) as [->|]; [by rewrite lookup_insert_eq, Hc|by rewrite lookup_insert_ne].
Qed.

Lemma drop_refines len m S o conn : lcidm_rep len m S -> lm_conns m !! o = Some conn -> exists m', lcidm_delete_conn m o = Some m' /\ lcidm_rep len m' (drop_conn S o).
Proof.
  intros [Hi Hl Hr Hcn] Hc. destruct (delete_conn_spec m o conn Hi Hc) as (m' & Hd & Hi' & Hl' & Hr' & Hn & Hcs). exists m'. split; [done|]. unfold drop_conn.
  split; [done|by rewrite Hl'|cbn [fst]; by rewrite Hr', Hr|]. intros o'. cbn [snd]. unfold counters. destruct (decide (o' = o)) as [->|Hne].
  - by rewrite fn_lookup_insert, Hn.
  - rewrite fn_lookup_insert_ne by done. rewrite Hcs by done. apply Hcn.
Qed.

Lemma enrol_refines len ok m o c S : lcidm_rep len m S -> opt_array c ->
  exists m' b S', ossl_quic_lcidm_enrol_odcid ok m o c = Some (m', b) /\ lc_spec len S (LEnrol ok o c) (RBool b) S' /\ lcidm_rep len m' S'.
Proof.
  intros Hr Ha. unfold ossl_quic_lcidm_enrol_odcid. destruct c as [cid|]; [|exists m, false, S; split_and!; try done; constructor; auto]. cbn in Ha.
  destruct ((cid_id_len cid <? QUIC_MIN_ODCID_LEN) || (QUIC_MAX_CONN_ID_LEN <? cid_id_len cid)) eqn:Hlen.
  { exists m, false, S. split_and!; try done. constructor. right. right. unfold too_long. lia. }
  assert (Hl : QUIC_MIN_ODCID_LEN <= cid_id_len cid <= QUIC_MAX_CONN_ID_LEN) by lia. clear Hlen.
  destruct (lcidm_upsert_conn ok m o) as [m1 [conn|]] eqn:Hu; destruct (upsert_spec _ _ _ _ _ _ _ Hr Hu) as (Hr1 & Hls & Hc).
  2: { exists m1, false, S. split_and!; try done. constructor. by left. }
  pose proof (lr_counters _ _ _ Hr1 o) as Hcnt. unfold counters in Hcnt. rewrite Hc in Hcnt.
  destruct (cn_done_odcid conn) eqn:Hdn; [exists m1, false, S; split_and!; try done; constructor; right; left; by rewrite Hcnt|].
  destruct (lh_lcid_retrieve (lm_lcids m1) cid) as [a|] eqn:Hret.
  { exists m1, false, S. split_and!; try done. constructor. do 4 right. eapply routes_taken; [done|congruence]. }
  destruct (routes_free len m1 S cid Hr1 ltac:(lia) Hret) as [Hfree Hfr].
  destruct (lcidm_conn_new_lcid ok m1 o conn cid) as [m2 [a|]] eqn:Hn; pose proof (new_lcid_spec _ _ _ _ _ _ _ _ _ Hr1 Hc Hfree Hn) as Hns.
  2: { destruct Hns as ([Hm|Hm] & Hr2 & _); [exists m2, false, S; split_and!; try done; constructor; by left|unfold too_long in Hm; lia]. }
  destruct Hns as (Hcl & -> & ->). rewrite set_added. cbn [mbind option_bind]. rewrite conns_added. cbn [mbind option_bind]. do 3 eexists. split; [done|].
  split; [apply sp_enrol; [done|by rewrite Hcnt|done]|].
  set (conn' := conn <| cn_odcid_lcid_obj := Some (lm_fresh m1) |> <| cn_done_odcid := true |>).
  pose proof (added_rep len m1 o conn conn' cid LCIDM_ODCID_SEQ_NUM LCID_TYPE_ODCID S Hr1 Hc ltac:(done) Hfree Ha Hcl) as Hadd. cbn [Z.eqb LCID_TYPE_ODCID] in Hadd.
  specialize (Hadd ltac:(split; [by apply (inv_done _ _ (lr_inv _ _ _ Hr1) _ _ Hc)|done]) ltac:(done)). rewrite Hcnt. cbn [fst].
  replace (set_conn _ o _) with (added m1 o conn' cid LCIDM_ODCID_SEQ_NUM LCID_TYPE_ODCID); [done|]. unfold set_conn, added. cbn. by rewrite insert_insert_eq.
Qed.

Lemma bind_refines len ok m o cid S : lcidm_rep len m S -> cid_array cid ->
  exists m' b S', ossl_quic_lcidm_bind_channel ok m o cid = Some (m', b) /\ lc_spec len S (LBind ok o cid) (RBool b) S' /\ lcidm_rep len m' S'.
Proof.
  intros Hr Ha. unfold ossl_quic_lcidm_bind_channel, ossl_quic_lcidm_lookup. cbn [mbind option_bind]. rewrite get0_lcid_eq.
  destruct (lh_lcid_retrieve (lm_lcids m) cid) as [a|] eqn:Hret.
  { assert (Ht : taken S cid) by (eapply routes_taken; [done|congruence]). assert (Hla : lm_lcids m !! cid_bytes cid = Some a) by (by revert Hret; rewrite retrieve_spec; case_match).
    destruct (routes_at _ _ _ _ _ Hr Hla) as (obj & conn & Ho & _ & _ & _ & Hc & _). rewrite Ho. cbn. rewrite Hc. cbn. exists m, false, S. split_and!; try done. apply sp_bind_refused. by right. }
  cbn [mbind option_bind]. destruct (lcidm_upsert_conn ok m o) as [m1 [conn|]] eqn:Hu; destruct (upsert_spec _ _ _ _ _ _ _ Hr Hu) as (Hr1 & Hls & Hc).
  2: { exists m1, false, S. split_and!; try done. apply sp_bind_refused. by left. }
  destruct (Z_le_gt_dec (cid_id_len cid) QUIC_MAX_CONN_ID_LEN) as [Hcl|Hcl].
  2: { unfold lcidm_conn_new_lcid. rewrite (proj2 (Z.ltb_lt _ _)) by lia. destruct (drop_refines len m1 S o conn Hr1 Hc) as (m2 & -> & Hr2). cbn [mbind option_bind].
       exists m2, false, (drop_conn S o). split_and!; try done. apply sp_bind_fails. right. unfold too_long. lia. }
  rewrite <- Hls in Hret. destruct (routes_free len m1 S cid Hr1 Hcl Hret) as [Hfree Hfr].
  destruct (lcidm_conn_new_lcid ok m1 o conn cid) as [m2 [a|]] eqn:Hn; pose proof (new_lcid_spec _ _ _ _ _ _ _ _ _ Hr1 Hc Hfree Hn) as Hns.
  2: { destruct Hns as (Hm & Hr2 & Hc2). destruct (drop_refines len m2 S o conn Hr2 Hc2) as (m3 & -> & Hr3). cbn [mbind option_bind].
       exists m3, false, (drop_conn S o). split_and!; try done. by apply sp_bind_fails. }
  destruct Hns as (_ & -> & ->). rewrite conns_added. cbn [mbind option_bind]. rewrite set_added. cbn [mbind option_bind].
  pose proof (lr_counters _ _ _ Hr1 o) as Hcnt. unfold counters in Hcnt. rewrite Hc in Hcnt. do 3 eexists. split; [done|]. split; [by apply sp_bind|]. unfold count_up. rewrite Hcnt. cbn [fst snd].
  set (conn' := conn <| cn_next_seq_num := cn_next_seq_num conn +u 1 |>).
  pose proof (added_rep len m1 o conn conn' cid (cn_next_seq_num conn) LCID_TYPE_INITIAL S Hr1 Hc ltac:(done) Hfree Ha Hcl eq_refl (inv_done _ _ (lr_inv _ _ _ Hr1) _ _ Hc)) as Hadd.
  replace (set_conn _ o _) with (added m1 o conn' cid (cn_next_seq_num conn) LCID_TYPE_INITIAL); [done|]. unfold set_conn, added. cbn. by rewrite insert_insert_eq.
Qed.

Lemma debug_add_refines len ok m o c seq S : lcidm_rep len m S -> opt_array c ->
  exists m' b S', ossl_quic_lcidm_debug_add ok m o c seq = Some (m', b) /\ lc_spec len S (LDebugAdd ok o c seq) (RBool b) S' /\ lcidm_rep len m' S'.
Proof.
  intros Hr Ha. unfold ossl_quic_lcidm_debug_add. destruct c as [cid|]; [|exists m, false, S; split_and!; try done; constructor; auto]. cbn in Ha.
  destruct (Z.ltb_spec QUIC_MAX_CONN_ID_LEN (cid_id_len cid)) as [Hl|Hl]; [exists m, false, S; split_and!; try done; constructor; unfold too_long; auto|].
  destruct (lcidm_upsert_conn ok m o) as [m1 [conn|]] eqn:Hu; destruct (upsert_spec _ _ _ _ _ _ _ Hr Hu) as (Hr1 & Hls & Hc).
  2: { exists m1, false, S. split_and!; try done. constructor. by left. }
  destruct (lh_lcid_retrieve (lm_lcids m1) cid) as [a|] eqn:Hret.
  { exists m1, false, S. split_and!; try done. constructor. do 2 right. eapply routes_taken; [done|congruence]. }
  destruct (routes_free len m1 S cid Hr1 ltac:(lia) Hret) as [Hfree Hfr].
  destruct (lcidm_conn_new_lcid ok m1 o conn cid) as [m2 [a|]] eqn:Hn; pose proof (new_lcid_spec _ _ _ _ _ _ _ _ _ Hr1 Hc Hfree Hn) as Hns.
  2: { destruct Hns as ([Hm|Hm] & Hr2 & _); [exists m2, false, S; split_and!; try done; constructor; by left|unfold too_long in Hm; lia]. }
  destruct Hns as (_ & -> & ->). rewrite set_added. cbn [mbind option_bind]. do 3 eexists. split; [done|]. split; [by apply sp_add|].
  pose proof (added_rep len m1 o conn conn cid seq LCID_TYPE_NCID S Hr1 Hc ltac:(done) Hfree Ha Hl eq_refl (inv_done _ _ (lr_inv _ _ _ Hr1) _ _ Hc)) as [Hi1 Hl1 Hrt1 Hcn1].
  split; try done. intros o'. rewrite <- Hcn1. cbn [snd]. pose proof (lr_counters _ _ _ Hr1 o) as Hcnt. unfold counters in Hcnt. rewrite Hc in Hcnt.
  destruct (decide (o' = o)) as [->|]; [by rewrite fn_lookup_insert|by rewrite fn_lookup_insert_ne].
Qed.

Lemma retire_odcid_refines len ok m o S : lcidm_rep len m S ->
  exists m' b S', ossl_quic_lcidm_retire_odcid ok m o = Some (m', b) /\ lc_spec len S (LRetireOdcid ok o) (RBool b) S' /\ lcidm_rep len m' S'.
Proof.
  intros Hr. unfold ossl_quic_lcidm_retire_odcid. destruct (lcidm_upsert_conn ok m o) as [m1 [conn|]] eqn:Hu; destruct (upsert_spec _ _ _ _ _ _ _ Hr Hu) as (Hr1 & Hls & Hc).
  2: { exists m1, false, S. split_and!; try done. apply sp_retire_odcid_fails. by left. }
  pose proof Hr1 as [Hi Hl Hrt Hcn]. destruct (cn_odcid_lcid_obj conn) as [a|] eqn:Hod.
  2: { exists m1, false, S. split_and!; try done. apply sp_retire_odcid_fails. right. rewrite Hrt. intros k i Hk Hio Hit. apply routes_lookup in Hk as (a & obj & _ & Ho & ->).
       assert (cn_odcid_lcid_obj conn = Some a); [|congruence]. apply (inv_odcid _ _ Hi _ _ _ Hc ltac:(done)). eauto. }
  destruct (proj1 (inv_odcid _ _ Hi _ _ a Hc ltac:(done)) Hod) as (obj & Ho & Hoo & Hot).
  destruct (delete_lcid_spec (Some o) m1 a obj (inv_weaken o m1 Hi) Ho) as (m2 & conn2 & -> & Hi2 & Hr2 & Ho2 & Hl2 & Hc2 & Hcs2); [left; congruence|].
  rewrite Hoo in *. assert (conn2 = conn) as -> by congruence. cbn [mbind option_bind]. rewrite Hcs2, lookup_insert_eq. cbn [mbind option_bind].
  do 3 eexists. split; [done|]. split; [apply (sp_retire_odcid _ _ _ _ (cid_bytes (lc_cid obj)) (info_of obj)); [rewrite Hrt; by eapply routes_obj|done|done]|].
  unfold set_conn. rewrite Hcs2, insert_insert_eq. destruct Hi2 as [I1 I2 I3 I4 I5]. split; [split; cbn|by cbn; rewrite Hl2|cbn [fst]; by rewrite Hrt, <- Hr2|].
  - intros k a' Ha'. destruct (I1 _ _ Ha') as (ob & c & ? & ? & ? & ? & Hcc & Hck). exists ob. rewrite Hcs2 in Hcc. apply lookup_insert_Some in Hcc as [[<- <-]|[Hne Hcc]].
    + rewrite lookup_insert_eq. eexists. by split_and!.
    + rewrite lookup_insert_ne by done. by exists c.
  - done.
  - intros o' c [[<- <-]|[Hne Hcc]]%lookup_insert_Some; [|apply I3; by rewrite Hcs2, lookup_insert_ne].
    specialize (I3 o). rewrite Hcs2, lookup_insert_eq in I3. destruct (I3 _ eq_refl). by split.
  - intros o' c a' [[<- <-]|[Hne Hcc]]%lookup_insert_Some _.
    + cbn. split; [done|]. rewrite Ho2. intros (ob & [Hna Hob]%lookup_delete_Some & Hobo & Hobt). assert (cn_odcid_lcid_obj conn = Some a'); [|congruence].
      apply (inv_odcid _ _ Hi _ _ _ Hc ltac:(done)). eauto.
    + apply I4; [by rewrite Hcs2, lookup_insert_ne|congruence].
  - intros o' c [[<- <-]|[Hne Hcc]]%lookup_insert_Some; [done|]. apply (I5 o'). by rewrite Hcs2, lookup_insert_ne.
  - intros o'. cbn [snd]. rewrite Hcn. unfold counters. cbn. destruct (decide (o' = o)) as [->|]; [by rewrite lookup_insert_eq, Hc|by rewrite lookup_insert_ne].
Qed.

Definition may_retire (rpt : Z) (obj : QUIC_LCID) : Prop := lc_type obj <> LCID_TYPE_ODCID /\ lc_seq_num obj < rpt.

Lemma retire_for_conn_spec (objs : gmap Z QUIC_LCID) (rpt : Z) (l : list Z) (e : option Z * Z) : (forall a : Z, a ∈ l -> is_Some (objs !! a)) -> exists r, retire_for_conn objs rpt l e = Some r /\ snd r <= snd e /\
  (forall (a : Z) (obj : QUIC_LCID), a ∈ l -> objs !! a = Some obj -> may_retire rpt obj -> snd r <= lc_seq_num obj) /\
  (r = e \/ exists (a : Z) (obj : QUIC_LCID), a ∈ l /\ objs !! a = Some obj /\ may_retire rpt obj /\ r = (Some a, lc_seq_num obj)).
Proof.
  unfold may_retire. revert e. induction l as [|a l IH]; intros e Hl; [exists e; split_and!; try done; [intros; set_solver|by left]|].
  destruct (Hl a ltac:(left)) as [obj Ho]. cbn [retire_for_conn]. rewrite Ho. cbn [mbind option_bind]. set (e' := if (_ : bool) then e else _).
  destruct (IH e') as (r & -> & H1 & H2 & H3); [intros; apply Hl; by right|]. exists r. split; [done|].
  assert (He' : (e' = e /\ (may_retire rpt obj -> snd e <= lc_seq_num obj)) \/ (may_retire rpt obj /\ e' = (Some a, lc_seq_num obj) /\ lc_seq_num obj < snd e)).
  { subst e'. unfold may_retire. destruct (Z.eqb_spec (lc_type obj) LCID_TYPE_ODCID); [left; split; [done|tauto]|]. cbn [orb].
    destruct (Z.leb_spec rpt (lc_seq_num obj)); [left; split; [done|lia]|]. destruct (Z.ltb_spec (lc_seq_num obj) (snd e)); [right; split_and!; try done; lia|left; split; [done|lia]]. }
  unfold may_retire in He'. split_and!.
  - destruct He' as [[-> _]|(_ & -> & ?)]; cbn in *; lia.
  - intros a' obj' [->|Ha']%elem_of_cons Ho' Hm; [|by eapply H2]. assert (obj' = obj) as -> by congruence. destruct He' as [[-> Hle]|(_ & -> & _)]; cbn in *; [|done].
    specialize (Hle Hm). lia.
  - destruct H3 as [->|(a' & obj' & ? & ? & ? & ->)].
    + destruct He' as [[-> _]|(? & -> & _)]; [by left|]. right. exists a, obj. split_and!; try done; [by left|tauto|tauto].
    + right. exists a', obj'. split_and!; try done; [by right|tauto|tauto].
Qed.

Lemma retirable_iff len m S o rpt conn : lcidm_rep len m S -> lm_conns m !! o = Some conn -> forall k i, retirable S o rpt k i <->
  exists a obj, a ∈ lh_items (cn_lcids conn) /\ lm_objs m !! a = Some obj /\ may_retire rpt obj /\ k = cid_bytes (lc_cid obj) /\ i = info_of obj.
Proof.
  intros [Hi _ Hr _] Hc k i. unfold retirable, may_retire. rewrite Hr, routes_lookup. pose proof (inv_conns _ _ Hi _ _ Hc) as [Hcl _].
  assert (Hit : forall a, a ∈ lh_items (cn_lcids conn) <-> exists k, cn_lcids conn !! k = Some a).
  { intros a. unfold lh_items. rewrite list_elem_of_fmap. setoid_rewrite <- elem_of_map_to_list. split; [intros ([k' ?] & -> & ?); eauto|intros [k' ?]; by exists (k', a)]. }
  split.
  - intros ((a & obj & Ha & Ho & ->) & Hio & Hit' & Hs). exists a, obj. cbn in *. destruct (inv_lcids _ _ Hi _ _ Ha) as (ob & c & Ho' & Hk & _ & _ & Hcc & Hck).
    assert (ob = obj) as -> by congruence. rewrite Hio in Hcc. assert (c = conn) as -> by congruence. split_and!; try done. apply Hit. eauto.
  - intros (a & obj & [k' Hk']%Hit & Ho & [Ht Hs] & -> & ->). apply Hcl in Hk' as (Hl & ob & Ho' & Hoo). assert (ob = obj) as -> by congruence. split_and!; try done.
    exists a, obj. split_and!; try done. by apply (inv_objs _ _ Hi).
Qed.

Lemma retire_refines len m o rpt dcid S : lcidm_rep len m S -> opt_array dcid -> u64 rpt ->
  exists m' b r S', ossl_quic_lcidm_retire m o rpt dcid = Some (m', b, r) /\ lc_spec len S (LRetire o rpt dcid) (RRetired b r) S' /\ lcidm_rep len m' S'.
Proof.
  intros Hr Hd Hu. unfold ossl_quic_lcidm_retire, lcidm_get0_conn. pose proof Hr as [Hi _ Hrt _]. destruct (lm_conns m !! o) as [conn|] eqn:Hc.
  2: { exists m, true, None, S. split_and!; try done. apply sp_retire_none. intros k i (Hk & Hio & _). rewrite Hrt in Hk. apply routes_lookup in Hk as (a & obj & Ha & Ho & ->).
       destruct (inv_lcids _ _ Hi _ _ Ha) as (ob & c & ? & _ & _ & _ & ? & _). cbn in Hio. congruence. }
  pose proof (retirable_iff len m S o rpt conn Hr Hc) as Hiff.
  destruct (retire_for_conn_spec (lm_objs m) rpt (lh_items (cn_lcids conn)) (None, UINT64_MAX)) as ([ra rs] & -> & Hle & Hmin & Hres).
  { intros a Ha. unfold lh_items in Ha. apply list_elem_of_fmap in Ha as ([k a'] & -> & Hk%elem_of_map_to_list). apply (inv_conns _ _ Hi _ _ Hc) in Hk as (_ & ob & ? & _). by exists ob. }
  cbn [mbind option_bind fst snd] in *. destruct Hres as [[= -> ->]|(a & obj & Ha & Ho & Hm & [= -> ->])].
  { exists m, true, None, S. split_and!; try done. apply sp_retire_none. intros k i (a & obj & Ha & Ho & Hm & _)%Hiff. specialize (Hmin _ _ Ha Ho Hm). destruct Hm as [_ Hs]. u64_side. }
  rewrite Ho. cbn [mbind option_bind]. destruct (inv_objs _ _ Hi _ _ Ho) as [_ Hla]. destruct (routes_at _ _ _ _ _ Hr Hla) as (ob & c & Ho' & _ & Harr & Hlen & _).
  assert (ob = obj) as -> by congruence.
  assert (He : earliest S o rpt (cid_bytes (lc_cid obj)) (info_of obj)).
  { split; [apply Hiff; by exists a, obj|]. intros k' i' (a' & obj' & Ha' & Ho2 & Hm' & _ & ->)%Hiff. by eapply Hmin. }
  assert (Hn : match dcid with Some dcid => ossl_quic_conn_id_eq (lc_cid obj) dcid | None => false end = true <-> names dcid (cid_bytes (lc_cid obj))).
  { destruct dcid as [dc|]; [|done]. cbn. rewrite conn_id_eq_bytes by done. naive_solver. }
  destruct (match dcid with Some _ => _ | None => _ end).
  - exists m, false, None, S. split_and!; try done. eapply sp_retire_own; [done|by apply Hn].
  - destruct (delete_refines len m S a obj Hr Ho) as (m' & -> & Hr'); [apply Hm|]. cbn [mbind option_bind]. do 4 eexists. split; [done|]. split; [|done].
    apply (sp_retire _ _ _ _ _ _ (info_of obj)); [done|]. intros Hx%Hn. done.
Qed.

Lemma no_conn_no_ids len m o S k i : lcidm_rep len m S -> lm_conns m !! o = None -> S.1 !! k = Some i -> li_opaque i <> o.
Proof.
  intros [Hi _ Hr _] Hc Hk. rewrite Hr in Hk. apply routes_lookup in Hk as (a & obj & Ha & Ho & ->). cbn. intros <-.
  destruct (inv_lcids _ _ Hi _ _ Ha) as (ob & c & ? & _ & _ & _ & ? & _). congruence.
Qed.

Lemma lcidm_cull_refines len m o S : lcidm_rep len m S -> exists m' b S', ossl_quic_lcidm_cull m o = Some (m', b) /\ lc_spec len S (LCull o) (RBool b) S' /\ lcidm_rep len m' S'.
Proof.
  intros Hr. unfold ossl_quic_lcidm_cull, lcidm_get0_conn. destruct (lm_conns m !! o) as [conn|] eqn:Hc.
  - destruct (drop_refines len m S o conn Hr Hc) as (m' & -> & Hr'). cbn. do 3 eexists. split_and!; [done|apply sp_cull; by left|done].
  - exists m, false, (drop_conn S o). split_and!; [done|apply sp_cull; right; intros k i; by eapply no_conn_no_ids|].
    pose proof Hr as [Hi Hl Hrt Hcn]. unfold drop_conn. split; [done|done| |].
    + cbn [fst]. rewrite <- Hrt. apply map_filter_id. intros k i Hk. cbn. by eapply no_conn_no_ids.
    + intros o'. cbn [snd]. destruct (decide (o' = o)) as [->|]; [|by rewrite fn_lookup_insert_ne]. rewrite fn_lookup_insert. unfold counters. by rewrite Hc.
Qed.

Lemma debug_remove_refines len m cid S : lcidm_rep len m S -> cid_array cid -> cid_id_len cid <= QUIC_MAX_CONN_ID_LEN -> (forall i, routes m !! cid_bytes cid = Some i -> li_type i <> LCID_TYPE_ODCID) ->
  exists m' b S', ossl_quic_lcidm_debug_remove m cid = Some (m', b) /\ lc_spec len S (LDebugRemove cid) (RBool b) S' /\ lcidm_rep len m' S'.
Proof.
  intros Hr Ha Hl Ht. unfold ossl_quic_lcidm_debug_remove. rewrite (proj2 (Z.ltb_ge _ _)) by done. destruct (lh_lcid_retrieve (lm_lcids m) cid) as [a|] eqn:Hret.
  - assert (Hla : lm_lcids m !! cid_bytes cid = Some a) by (by revert Hret; rewrite retrieve_spec; case_match).
    destruct (routes_at _ _ _ _ _ Hr Hla) as (obj & _ & Ho & Hk & _ & _ & _ & Hs). pose proof Hs as Hs'. rewrite (lr_routes _ _ _ Hr) in Hs'. specialize (Ht _ Hs').
    destruct (delete_refines len m S a obj Hr Ho Ht) as (m' & -> & Hr'). cbn. rewrite Hk in Hr'. do 3 eexists. split_and!; [done|apply sp_remove|done].
    eapply routes_taken; [done|congruence].
  - exists m, false, S. split_and!; try done. apply sp_remove_none. by intros []%(routes_taken _ _ _ _ Hr).
Qed.

Lemma lookup_refines len m c S : lcidm_rep len m S -> exists r, ossl_quic_lcidm_lookup m c = Some r /\ lc_spec len S (LLookup c) (RFound r) S.
Proof.
  intros Hr. unfold ossl_quic_lcidm_lookup. destruct c as [cid|]; cbn [mbind option_bind]; [|exists None; by split; [|constructor]]. rewrite get0_lcid_eq.
  destruct (lh_lcid_retrieve (lm_lcids m) cid) as [a|] eqn:Hret.
  - assert (Hla : lm_lcids m !! cid_bytes cid = Some a) by (by revert Hret; rewrite retrieve_spec; case_match).
    destruct (routes_at _ _ _ _ _ Hr Hla) as (obj & conn & Ho & _ & _ & _ & Hc & Hs). rewrite Ho. cbn. rewrite Hc. cbn. eexists. split; [done|].
    apply (sp_found _ _ _ (info_of obj)); [|done]. assert (taken S cid) as [? _] by (eapply routes_taken; [done|congruence]). done.
  - exists None. split; [done|]. apply sp_not_found. by intros []%(routes_taken _ _ _ _ Hr).
Qed.

Lemma count_refines len m o S : lcidm_rep len m S -> ossl_quic_lcidm_get_num_active_lcid m o = Z.of_nat (size (filter (fun p : bytes * lcid_info => li_opaque p.2 = o) S.1)) mod U64_MOD.
Proof.
  intros Hr. pose proof Hr as [Hi _ Hrt _]. unfold ossl_quic_lcidm_get_num_active_lcid, lcidm_get0_conn. destruct (lm_conns m !! o) as [conn|] eqn:Hc.
  - destruct (inv_conns _ _ Hi _ _ Hc) as [Hcl ->]. do 2 f_equal. rewrite <- !size_dom. f_equal. apply set_eq. intros k. rewrite !elem_of_dom. split.
    + intros [a Hk]. apply Hcl in Hk as (Hl & ob & Ho & Hoo). destruct (routes_at _ _ _ _ _ Hr Hl) as (obj & _ & Ho' & _ & _ & _ & _ & Hs).
      exists (info_of obj). apply map_lookup_filter_Some. split; [done|]. cbn. congruence.
    + intros [i [Hs Hio]%map_lookup_filter_Some]. cbn in Hio. rewrite Hrt in Hs. apply routes_lookup in Hs as (a & obj & Ha & Ho & ->).
      destruct (inv_lcids _ _ Hi _ _ Ha) as (ob & c & ? & _ & _ & _ & Hcc & ?). cbn in Hio. assert (ob = obj) as -> by congruence. rewrite Hio in Hcc.
      assert (c = conn) as -> by congruence. eauto.
  - assert (filter (fun p : bytes * lcid_info => li_opaque p.2 = o) S.1 = ∅) as ->; [|done]. apply map_empty. intros k. apply eq_None_not_Some.
    intros [i [Hk Hio]%map_lookup_filter_Some]. by eapply no_conn_no_ids.
Qed.

Lemma unused_refines len m rand S fuel i cid cid' r : lcidm_rep len m S -> rand_ok (lm_lcid_len m) rand -> cid_array cid -> get_unused_loop fuel i rand m cid = (cid', r) ->
  if r then cid_id_len cid' = len /\ S.1 !! cid_bytes cid' = None else forall j, (i <= j < i + fuel)%nat -> rand j = None \/ exists b, rand j = Some b /\ is_Some (S.1 !! b).
Proof.
  intros Hr Hrand. pose proof Hr as [_ [Hl Hb] _ _]. revert i cid. induction fuel as [|fuel IH]; intros i cid Ha; cbn [get_unused_loop]; [intros [= <- <-]; lia|].
  destruct (lcidm_generate_cid (rand i) m cid) as [c b] eqn:Hg. pose proof (gen_cid_spec m (rand i) cid _ _ ltac:(by rewrite Hl) (Hrand i) Ha Hg) as Hg'. rewrite get0_lcid_eq.
  destruct (b && _) eqn:Hb'; [intros [= <- <-]|].
  - apply andb_prop in Hb' as [-> Hn%bool_decide_eq_true]. destruct Hg' as (_ & Hlen & _). split; [congruence|]. apply (routes_free len m S c Hr); [lia|done].
  - intros Hloop. assert (Hca : cid_array c) by (destruct b; apply Hg'). specialize (IH (Datatypes.S i) c Hca Hloop). destruct r; [done|].
    intros j Hj. destruct (decide (j = i)) as [->|]; [|apply IH; lia]. destruct b; [|left; apply Hg']. right. destruct Hg' as (Hri & _ & _). exists (cid_bytes c). split; [done|].
    cbn [andb] in Hb'. apply bool_decide_eq_false in Hb'. apply (routes_taken _ _ _ _ Hr) in Hb' as [_ ?]. by apply not_eq_None_Some.
Qed.

Local Ltac found := cbn; do 3 eexists; split_and!; [reflexivity|eassumption|eassumption].

Lemma do_refines len m op S : lcidm_rep len m S -> lc_op_ok m op -> exists m' r S', lc_do m op = Some (m', r) /\ lc_spec len S op r S' /\ lcidm_rep len m' S'.
Proof.
  intros Hr Hok. destruct op as [ok o c|ok rand o cid|ok rand o f|ok o cid|ok o|o rpt dcid|o|cid|ok o c seq|c|o|rand cid]; cbn [lc_do lc_op_ok] in *.
  - destruct (enrol_refines len ok m o c S Hr Hok) as (m' & b & S' & -> & ? & ?). found.
  - destruct Hok as [Hrand Ha]. destruct (generate_refines len ok rand m o LCID_TYPE_INITIAL cid S Hr Hrand Ha ltac:(done)) as (m' & c & r & S' & Hg & ? & ?).
    unfold ossl_quic_lcidm_generate_initial. rewrite Hg. cbn. do 3 eexists. split_and!; [done|by constructor|done].
  - destruct Hok as [Hrand Ha]. destruct (generate_refines len ok rand m o LCID_TYPE_NCID (nc_conn_id f) S Hr Hrand Ha ltac:(done)) as (m' & c & r & S' & Hg & ? & ?).
    unfold ossl_quic_lcidm_generate. rewrite Hg. cbn. do 3 eexists. split_and!; [done|by constructor|done].
  - destruct (bind_refines len ok m o cid S Hr Hok) as (m' & b & S' & -> & ? & ?). found.
  - destruct (retire_odcid_refines len ok m o S Hr) as (m' & b & S' & -> & ? & ?). found.
  - destruct Hok. destruct (retire_refines len m o rpt dcid S Hr) as (m' & b & r & S' & -> & ? & ?); [done..|]. found.
  - destruct (lcidm_cull_refines len m o S Hr) as (m' & b & S' & -> & ? & ?). found.
  - destruct Hok as (? & ? & ?). destruct (debug_remove_refines len m cid S Hr) as (m' & b & S' & -> & ? & ?); [done..|]. found.
  - destruct (debug_add_refines len ok m o c seq S Hr Hok) as (m' & b & S' & -> & ? & ?). found.
  - destruct (lookup_refines len m c S Hr) as (r & -> & ?). found.
  - do 3 eexists. split_and!; [done| |done]. rewrite (count_refines len m o S Hr). constructor.
  - destruct Hok as [Hrand Ha]. unfold ossl_quic_lcidm_get_unused_cid. destruct (get_unused_loop 10 0 rand m cid) as [cid' b] eqn:Hg.
    pose proof (unused_refines _ _ _ _ _ _ _ _ _ Hr Hrand Ha Hg) as Hres. do 3 eexists. split_and!; [done| |done]. destruct b.
    + by apply sp_unused; apply Hres.
    + apply sp_unused_fails. intros i Hi. apply Hres. lia.
Qed.

Inductive lc_new (len : Z) : QUIC_LCIDM -> Prop := lc_new_intro ok m : 0 <= len -> ossl_quic_lcidm_new ok len = Some m -> lc_new len m.

Lemma lcidm_new_rep len m : lc_new len m -> lcidm_rep len m (∅, fun _ => (0, false)).
Proof.
  intros [ok m' H0 Hn]. revert Hn. unfold ossl_quic_lcidm_new. destruct (Z.ltb_spec QUIC_MAX_CONN_ID_LEN len); [done|]. case_match; [done|]. intros [= <-].
  split; [split; cbn; try done|done|done|done]; intros *; by rewrite ?lookup_empty.
Qed.

Lemma runs_refines len m ops rs m' S : lc_runs m ops rs m' -> lcidm_rep len m S -> exists S', lc_spec_runs len S ops rs S' /\ lcidm_rep len m' S'.
Proof.
  intros H. revert S. induction H as [m|m op r m1 ops rs m2 Hok Hd _ IH]; intros S Hr; [by exists S; split; [constructor|]|].
  destruct (do_refines len m op S Hr Hok) as (m1' & r' & S1 & Hd' & Hs & Hr1). simplify_eq. destruct (IH S1 Hr1) as (S2 & ? & ?). exists S2. split; [by econstructor|done].
Qed.

(** C17. The connection ID manager implements one table of connection IDs, over every history of its operations, whichever
    allocations fail and whatever the random generator returns: a lookup finds exactly the connection IDs issued and not
    retired since, with the connection and sequence number they were issued for; a generated connection ID was not in use, has the
    configured length and gets the connection's next sequence number; retiring removes exactly the connection ID of lowest sequence number below
    the bound, never the ODCID and never the one the packet came with; culling a connection removes its connection IDs and no
    others; the count is theirs.  Each operation fails only for the reasons given and then changes nothing, except that
    binding, when memory runs out, drops the connection's other IDs; and none uses an object that has been freed.  The
    histories are those in which the debugging call that removes a connection ID is made on one of at most 20 bytes that is not an
    enrolled ODCID: removing the ODCID leaves the connection a pointer to freed memory ([remove_odcid_dangles]). *)
Theorem lcidm_refines len m0 ops rs m : lc_new len m0 -> lc_runs m0 ops rs m ->
  exists S, lc_spec_runs len (∅, fun _ => (0, false)) ops rs S /\ (forall k, routes m !! k = S.1 !! k) /\ forall op, lc_op_ok m op -> exists m' r, lc_do m op = Some (m', r).
Proof.
  intros Hn Hr. destruct (runs_refines len m0 ops rs m _ Hr (lcidm_new_rep len m0 Hn)) as (S & Hs & HS). exists S. split_and!; [done|by intros; rewrite (lr_routes _ _ _ HS)|].
  intros op Hok. destruct (do_refines len m op S HS Hok) as (m' & r & _ & Hd & _). by exists m', r.
Qed.

(** A server connection and another one; the second and third connection ID collide with earlier ones first. *)
Definition demo_rand (x : Z) (i : nat) : option bytes := Some (replicate 4 (x + Z.of_nat i)).
Definition demo_ncid : OSSL_QUIC_FRAME_NEW_CONN_ID := mkFrameNewConnId 0 0 (mkConnId 0 (replicate 20 0)) (replicate 16 7).
Definition demo_lcid (x : Z) : QUIC_CONN_ID := mkConnId 4 (replicate 4 x ++ replicate 16 0).
Definition demo_lc_ops : list lc_op :=
  let all := fun _ => true in let c0 := mkConnId 0 (replicate 20 0) in
  [LEnrol all 1 (Some (mkConnId 8 (replicate 20 9))); LInitial all (demo_rand 5) 1 c0; LNcid all (demo_rand 5) 1 demo_ncid; LInitial all (demo_rand 5) 2 c0;
   LRetire 1 1 (Some (demo_lcid 6)); LRetireOdcid all 1; LLookup (Some (demo_lcid 5)); LLookup (Some (demo_lcid 6)); LLookup (Some (demo_lcid 7)); LCount 1; LCull 2; LCount 2].
Definition demo_lc_res : list lc_res :=
  [RBool true; RCid (demo_lcid 5) (Some 0); RFrame (mkFrameNewConnId 1 0 (demo_lcid 6) (replicate 16 7)) true; RCid (demo_lcid 7) (Some 0);
   RRetired true (Some (demo_lcid 5, 0)); RBool true; RFound None; RFound (Some (1, 1)); RFound (Some (0, 2)); RCount 1; RBool true; RCount 0].
Definition demo_lm : QUIC_LCIDM := mkLcidm ∅ ∅ 4 ∅ 0.
Definition demo_lm_end : QUIC_LCIDM := foldl (fun m op => (default (m, RBool false) (lc_do m op)).1) demo_lm demo_lc_ops.
Lemma demo_rand_ok x : rand_ok 4 (demo_rand x).
Proof. intros i b [= <-]. done. Qed.

Lemma lcidm_refines_witness : lc_runs demo_lm demo_lc_ops demo_lc_res demo_lm_end /\
  exists S, lc_spec_runs 4 (∅, fun _ => (0, false)) demo_lc_ops demo_lc_res S /\ (forall k, routes demo_lm_end !! k = S.1 !! k) /\
    forall op, lc_op_ok demo_lm_end op -> exists m' r, lc_do demo_lm_end op = Some (m', r).
Proof.
  assert (Hr : lc_runs demo_lm demo_lc_ops demo_lc_res demo_lm_end).
  { unfold demo_lc_ops. repeat (eapply lc_runs_cons; [try exact (conj (demo_rand_ok _) (conj eq_refl (Z.le_refl 0))); try (by vm_compute)|vm_compute; reflexivity|]).
    vm_compute. constructor. }
  split; [exact Hr|]. apply (lcidm_refines 4 demo_lm demo_lc_ops demo_lc_res demo_lm_end); [|exact Hr]. apply (lc_new_intro 4 (fun _ => true)); [lia|reflexivity].
Defined.

(** Freeing the manager frees every object. *)
Lemma delete_conns_spec l m : lcidm_inv None m -> NoDup l -> (forall o, o ∈ l -> is_Some (lm_conns m !! o)) ->
  exists m', delete_conns m l = Some m' /\ lcidm_inv None m' /\ forall o, is_Some (lm_conns m' !! o) -> (o ∉ l) /\ is_Some (lm_conns m !! o).
Proof.
  revert m. induction l as [|o l IH]; intros m Hi Hnd Hl; [exists m; split_and!; try done; intros; split; [set_solver|done]|].
  apply NoDup_cons in Hnd as [Hol Hnd]. destruct (Hl o ltac:(left)) as [conn Hc]. destruct (delete_conn_spec m o conn Hi Hc) as (m1 & Hd & Hi1 & _ & _ & Hn1 & Hcs1).
  cbn [delete_conns]. rewrite Hd. cbn [mbind option_bind]. destruct (IH m1 Hi1 Hnd) as (m2 & -> & Hi2 & H2).
  { intros o' Ho'. rewrite Hcs1 by (by intros ->). apply Hl. by right. }
  exists m2. split_and!; try done. intros o' Ho'. destruct (H2 o' Ho') as [? Hs]. assert (o' <> o) by (intros ->; rewrite Hn1 in Hs; by destruct Hs).
  rewrite Hcs1 in Hs by done. split; [set_solver|done].
Qed.

Lemma lcidm_free_frees_all len m0 ops rs m : lc_new len m0 -> lc_runs m0 ops rs m -> exists m', ossl_quic_lcidm_free m = Some m' /\ lm_objs m' = ∅.
Proof.
  intros Hn Hr. destruct (runs_refines len m0 ops rs m _ Hr (lcidm_new_rep len m0 Hn)) as (S & _ & [Hi _ _ _]). unfold ossl_quic_lcidm_free.
  destruct (delete_conns_spec ((map_to_list (lm_conns m)).*1) m Hi) as (m' & -> & Hi' & H'); [apply NoDup_fst_map_to_list| |].
  { intros o ([o' c] & -> & Ho%elem_of_map_to_list)%list_elem_of_fmap. by exists c. }
  exists m'. split; [done|]. apply map_empty. intros a. apply eq_None_not_Some. intros [obj Ho]. destruct (inv_objs _ _ Hi' _ _ Ho) as [_ Hl].
  destruct (inv_lcids _ _ Hi' _ _ Hl) as (ob & c & _ & _ & _ & _ & Hc & _). destruct (H' (lc_conn ob)) as [Hnot [c' Hc']]; [by exists c|].
  apply Hnot. apply list_elem_of_fmap. exists (lc_conn ob, c'). split; [done|]. by apply elem_of_map_to_list.
Qed.

(** ** Sequence numbers *)

(** At most [n] sequence numbers of a connection are used up, each by at most one connection ID, and at most one ODCID is enrolled. *)
Record seqs_ok (n : Z) S : Prop := {
  so_next o : 0 <= (S.2 o).1 <= n;
  so_seq k i : S.1 !! k = Some i -> li_type i <> LCID_TYPE_ODCID -> 0 <= li_seq i < (S.2 (li_opaque i)).1;
  so_odcid k i : S.1 !! k = Some i -> li_type i = LCID_TYPE_ODCID -> (S.2 (li_opaque i)).2 = true;
  so_unique k i k' i' : S.1 !! k = Some i -> S.1 !! k' = Some i' -> li_opaque i = li_opaque i' ->
    (li_type i = LCID_TYPE_ODCID <-> li_type i' = LCID_TYPE_ODCID) -> (li_type i = LCID_TYPE_ODCID \/ li_seq i = li_seq i') -> k = k' }.

Lemma seqs_sub n S (T : lspec) : seqs_ok n S -> (forall k i, T.1 !! k = Some i -> S.1 !! k = Some i /\ T.2 (li_opaque i) = S.2 (li_opaque i)) -> (forall o, 0 <= (T.2 o).1 <= n) -> seqs_ok n T.
Proof.
  intros [S1 S2 S3 S4] Hs Hn. split; [done|..].
  - intros k i [Hk ->]%Hs. by apply S2 with k.
  - intros k i [Hk ->]%Hs. by apply S3 with k.
  - intros k i k' i' [Hk _]%Hs [Hk' _]%Hs. by apply S4.
Qed.

Lemma seqs_mono n S : seqs_ok n S -> seqs_ok (n + 1) S.
Proof. intros [S1 S2 S3 S4]. split; try done. intros o. specialize (S1 o). lia. Qed.

Lemma seqs_add n S o cid type : seqs_ok n S -> n + 1 < U64_MOD -> S.1 !! cid_bytes cid = None -> type <> LCID_TYPE_ODCID -> seqs_ok (n + 1) (add_id S o cid (S.2 o).1 type, count_up S o).
Proof.
  intros [S1 S2 S3 S4] Hn Hk Ht. unfold add_id, count_up. specialize (S1 o) as So. rewrite add64_small by u64_side.
  assert (Hup : forall o', (S.2 o').1 <= (<[o:=((S.2 o).1 + 1, (S.2 o).2)]> S.2 o').1 /\ (<[o:=((S.2 o).1 + 1, (S.2 o).2)]> S.2 o').2 = (S.2 o').2).
  { intros o'. destruct (decide (o' = o)) as [->|]; [rewrite fn_lookup_insert; cbn; split; [lia|done]|by rewrite fn_lookup_insert_ne]. }
  split; cbn [fst snd].
  - intros o'. specialize (S1 o'). destruct (decide (o' = o)) as [->|]; [rewrite fn_lookup_insert; cbn; lia|rewrite fn_lookup_insert_ne by done; lia].
  - intros k i [[<- <-]|[Hne Hi]]%lookup_insert_Some Hti; [cbn; rewrite fn_lookup_insert; cbn; lia|]. specialize (S2 k i Hi Hti). destruct (Hup (li_opaque i)). lia.
  - intros k i [[<- <-]|[Hne Hi]]%lookup_insert_Some Hti; [done|]. destruct (Hup (li_opaque i)) as [_ ->]. by apply S3 with k.
  - intros k i k' i' [[<- <-]|[Hne Hi]]%lookup_insert_Some [[<- <-]|[Hne' Hi']]%lookup_insert_Some Ho Hty Hs; try done; cbn in *.
    + destruct Hs as [|Hs]; [done|]. specialize (S2 k' i' Hi' ltac:(tauto)). rewrite <- Ho in S2. lia.
    + destruct Hs as [Hs|Hs]; [tauto|]. specialize (S2 k i Hi ltac:(tauto)). rewrite Ho in S2. lia.
    + by eapply S4.
Qed.

Lemma spec_seqs len n S op r T : lc_spec len S op r T -> (forall ok o c s, op <> LDebugAdd ok o c s) -> n + 1 < U64_MOD -> seqs_ok n S -> seqs_ok (n + 1) T.
Proof.
  intros Hs Hop Hn Ho. assert (Hdel : forall k, seqs_ok (n + 1) (delete k S.1, S.2)).
  { intros k. apply seqs_mono. apply (seqs_sub n S); [done| |apply Ho]. cbn. by intros k' i [? ?]%lookup_delete_Some. }
  assert (Hdrop : forall o, seqs_ok (n + 1) (drop_conn S o)).
  { intros o. apply seqs_mono. pose proof (so_next _ _ Ho) as S1. apply (seqs_sub n S); [done| |]; unfold drop_conn; cbn [fst snd].
    - intros k i [Hk Hio]%map_lookup_filter_Some. cbn in Hio. by rewrite fn_lookup_insert_ne.
    - intros o'. specialize (S1 o') as S1'. destruct (decide (o' = o)) as [->|]; [rewrite fn_lookup_insert; cbn; lia|by rewrite fn_lookup_insert_ne]. }
  destruct Hs as [ok o cid Hl Hd Hk| |ok rand o cid cid' r' S' Hg|ok rand o f cid' r' S' Hg|ok o cid Hl Hk| | | | | | | | | | |ok o cid seq| | | | | |]; try (by apply seqs_mono); try done.
  - apply seqs_mono. destruct Ho as [S1 S2 S3 S4]. unfold add_id. split; cbn [fst snd].
    + intros o'. destruct (decide (o' = o)) as [->|]; [rewrite fn_lookup_insert; apply S1|rewrite fn_lookup_insert_ne by done; apply S1].
    + intros k i [[<- <-]|[Hne Hi]]%lookup_insert_Some Hti; [done|]. destruct (decide (li_opaque i = o)) as [<-|]; [rewrite fn_lookup_insert|rewrite fn_lookup_insert_ne by done]; by eapply S2.
    + intros k i [[<- <-]|[Hne Hi]]%lookup_insert_Some Hti; cbn; [by rewrite fn_lookup_insert|].
      destruct (decide (li_opaque i = o)) as [<-|]; [by rewrite fn_lookup_insert|rewrite fn_lookup_insert_ne by done]; by eapply S3.
    + intros k i k' i' [[<- <-]|[Hne Hi]]%lookup_insert_Some [[<- <-]|[Hne' Hi']]%lookup_insert_Some He Hty Hsq; try done; cbn in *.
      * assert (li_type i' = LCID_TYPE_ODCID) as Ht by tauto. specialize (S3 _ _ Hi' Ht). rewrite <- He in S3. congruence.
      * assert (li_type i = LCID_TYPE_ODCID) as Ht by tauto. specialize (S3 _ _ Hi Ht). rewrite He in S3. congruence.
      * by eapply S4.
  - destruct Hg; [by apply seqs_add|by apply seqs_mono].
  - destruct Hg; [by apply seqs_add|by apply seqs_mono].
  - by apply seqs_add.
  - by destruct (Hop ok o (Some cid) seq).
Qed.

(** C40. Over every history without the debug call that adds an arbitrary connection ID, no two active connection IDs of a connection have the same
    sequence number (RFC 9000 section 5.1.1), all are below the next to be issued, and a connection has at most one ODCID. *)
Theorem lcidm_seq_nums_unique len m0 ops rs m : lc_new len m0 -> lc_runs m0 ops rs m -> zlen ops < U64_MOD - 1 -> Forall (fun op => forall ok o c s, op <> LDebugAdd ok o c s) ops ->
  forall k i k' i', routes m !! k = Some i -> routes m !! k' = Some i' -> li_opaque i = li_opaque i' ->
    (li_type i <> LCID_TYPE_ODCID -> 0 <= li_seq i < (counters m (li_opaque i)).1) /\
    ((li_type i = LCID_TYPE_ODCID <-> li_type i' = LCID_TYPE_ODCID) -> (li_type i = LCID_TYPE_ODCID \/ li_seq i = li_seq i') -> k = k').
Proof.
  intros Hn Hr Hlen Hops. destruct (runs_refines len m0 ops rs m _ Hr (lcidm_new_rep len m0 Hn)) as (S & Hs & [_ _ Hrt Hcn]).
  assert (Hgen : forall S0 ops rs S1 n, lc_spec_runs len S0 ops rs S1 -> Forall (fun op => forall ok o c s, op <> LDebugAdd ok o c s) ops -> 0 <= n -> n + zlen ops < U64_MOD - 1 -> seqs_ok n S0 -> exists n', seqs_ok n' S1).
  { clear. intros S0 ops rs S1 n Hs. revert n. induction Hs as [S|S op r T ops rs T2 Hsp _ IH]; intros n Hf H0 Hb Ho; [by exists n|]. apply Forall_cons in Hf as [Hf1 Hf2].
    unfold zlen in *. cbn [length] in Hb. apply (IH (n + 1)); [done|lia|lia|]. eapply spec_seqs; [done..|lia|done]. }
  destruct (Hgen _ _ _ _ 0 Hs Hops ltac:(lia) ltac:(lia)) as [n [S1 S2 S3 S4]]; [by split|].
  intros k i k' i' Hk Hk' He. rewrite <- Hrt in Hk, Hk'. split; [intros Ht; rewrite <- Hcn; by eapply S2|]. intros. by eapply S4.
Qed.

Definition demo_lm3 : QUIC_LCIDM := foldl (fun m op => (default (m, RBool false) (lc_do m op)).1) demo_lm (take 3 demo_lc_ops).

Lemma lcidm_seq_nums_unique_witness : let i := mkInfo 1 0 LCID_TYPE_INITIAL in let i' := mkInfo 1 1 LCID_TYPE_NCID in
  routes demo_lm3 !! [5; 5; 5; 5] = Some i /\ routes demo_lm3 !! [6; 6; 6; 6] = Some i' /\
  (li_type i <> LCID_TYPE_ODCID -> 0 <= li_seq i < (counters demo_lm3 (li_opaque i)).1) /\
  ((li_type i = LCID_TYPE_ODCID <-> li_type i' = LCID_TYPE_ODCID) -> (li_type i = LCID_TYPE_ODCID \/ li_seq i = li_seq i') -> [5; 5; 5; 5] = [6; 6; 6; 6]).
Proof.
  cbv zeta. split; [vm_compute; reflexivity|]. split; [vm_compute; reflexivity|].
  apply (lcidm_seq_nums_unique 4 demo_lm (take 3 demo_lc_ops) (take 3 demo_lc_res) demo_lm3).
  - apply (lc_new_intro 4 (fun _ => true)); [lia|reflexivity].
  - cbn. repeat (eapply lc_runs_cons; [try exact (conj (demo_rand_ok _) (conj eq_refl (Z.le_refl 0))); try (by vm_compute)|vm_compute; reflexivity|]). vm_compute. constructor.
  - reflexivity.
  - cbn. repeat constructor; intros; discriminate.
  - vm_compute. reflexivity.
  - vm_compute. reflexivity.
  - reflexivity.
Defined.

(** Outside those histories: when the debugging call removes an enrolled ODCID, retiring the ODCID uses the freed object; and a
    connection ID longer than its array is hashed before anything is checked. *)
Definition odcid_removed : option QUIC_LCIDM :=
  let odcid := mkConnId 8 (replicate 20 9) in
  '(m, _) ← ossl_quic_lcidm_enrol_odcid (fun _ => true) demo_lm 1 (Some odcid);
  '(m, _) ← ossl_quic_lcidm_debug_remove m odcid;
  Some m.

Example remove_odcid_dangles : is_Some odcid_removed /\
  (m ← odcid_removed; ossl_quic_lcidm_retire_odcid (fun _ => true) m 1) = None /\
  forall m, ossl_quic_lcidm_debug_remove m (mkConnId 21 (replicate 20 9)) = None.
Proof. split_and!; [vm_compute; by eexists|by vm_compute|done]. Qed.
