(* ===== verification/Srtm.v ===== *)
(** * The stateless reset token manager (ssl/quic/quic_srtm.c)

    The manager finds the connections whose peer has announced a stateless
    reset token.  Its items are linked into two kinds of lists: those of a
    connection, by descending sequence number, and those of a (blinded) token,
    by descending connection pointer; two hash tables hold the heads.  The
    theorem relates the lists to a finite map from pairs of connection and
    sequence number to tokens. *)

From stdpp Require Import sorting.
From S2P Require Import Prelude Packet Wire.

(** ** Data *)

(** A connection is the caller's opaque pointer. *)
Record SRTM_ITEM := mkItem { it_opaque : Z; it_seq_num : Z; it_srt : bytes; it_srt_blinded : bytes }.

(** A linked list is the list of the addresses of its items; a hash table maps a key to the list that starts at its entry.
    [sr_objs] is the memory in which the items live, [sr_fresh] an address not used before. *)
Record QUIC_SRTM := mkSrtm { sr_items_fwd : gmap Z (list Z); sr_items_rev : gmap bytes (list Z); sr_alloc_failed : bool; sr_objs : gmap Z SRTM_ITEM; sr_fresh : Z }.
#[export] Instance eta_srtm : Eta QUIC_SRTM := fun m => mkSrtm (sr_items_fwd m) (sr_items_rev m) (sr_alloc_failed m) (sr_objs m) (sr_fresh m).

(** ** Operations

    [None] is the use of an item that has been freed, or of a missing one.  [ok]
    says which allocations succeed, those of the insertions into the hash tables
    included. *)

Section Ops.
(** The blinding permutation, AES-128-ECB under a random key; it may fail. *)
Context (blind : bytes -> option bytes).

(** The random key, the structure, the cipher, its context, its initialisation, and the two tables may fail. *)
Definition ossl_quic_srtm_new (ok : nat -> bool) : option QUIC_SRTM :=
  if ok 0%nat && ok 1%nat && ok 2%nat && ok 3%nat && ok 4%nat && ok 5%nat && ok 6%nat then Some (mkSrtm ∅ ∅ false ∅ 0) else None.

(** [srtm_check_lh] after an insertion that failed. *)
Definition fail_alloc (m : QUIC_SRTM) : QUIC_SRTM := m <| sr_alloc_failed := true |>.

Definition free_item (m : QUIC_SRTM) (a : Z) : QUIC_SRTM := m <| sr_objs := delete a (sr_objs m) |>.

(** The item with the sequence number, and the one before it or before its place. *)
Fixpoint find_walk (objs : gmap Z SRTM_ITEM) (l : list Z) (seq_num : Z) (prev : option Z) : option (option Z * option Z) :=
  match l with
  | [] => Some (None, prev)
  | a :: l =>
      item ← objs !! a;
      if it_seq_num item =? seq_num then Some (Some a, prev)
      else if it_seq_num item <? seq_num then Some (None, prev)
      else find_walk objs l seq_num (Some a)
  end.

Definition srtm_find (m : QUIC_SRTM) (opaque seq_num : Z) : option (option Z * option Z) :=
  find_walk (sr_objs m) (default [] (sr_items_fwd m !! opaque)) seq_num None.

(** The two kinds of lists differ in the field they are sorted by, descending; a new item goes before its equals. *)
Fixpoint sorted_insert (field : SRTM_ITEM -> Z) (objs : gmap Z SRTM_ITEM) (l : list Z) (a v : Z) : option (list Z) :=
  match l with
  | [] => Some [a]
  | x :: l' => cur ← objs !! x; if v <? field cur then cons x <$> sorted_insert field objs l' a v else Some (a :: l)
  end.

Definition sorted_insert_seq_num : gmap Z SRTM_ITEM -> list Z -> Z -> Z -> option (list Z) := sorted_insert it_seq_num.
Definition sorted_insert_srt : gmap Z SRTM_ITEM -> list Z -> Z -> Z -> option (list Z) := sorted_insert it_opaque.

Definition srtm_compute_blinded (token : bytes) : option bytes := blind token.

(** The item [a] linked in front of or into the list of its key; only a new head needs an insertion into the table.  [None] is a failed insertion. *)
Definition insert_fwd (ok : bool) (m : QUIC_SRTM) (a opaque seq_num : Z) : option (option QUIC_SRTM) :=
  match sr_items_fwd m !! opaque with
  | None => if ok then Some (Some (m <| sr_items_fwd := <[opaque := [a]]> (sr_items_fwd m) |>)) else Some None
  | Some l =>
      l' ← sorted_insert_seq_num (sr_objs m) l a seq_num;
      if bool_decide (head l' <> head l) && negb ok then Some None else Some (Some (m <| sr_items_fwd := <[opaque := l']> (sr_items_fwd m) |>))
  end.

Definition insert_rev (ok : bool) (m : QUIC_SRTM) (a opaque : Z) (blinded : bytes) : option (option QUIC_SRTM) :=
  match sr_items_rev m !! blinded with
  | None => if ok then Some (Some (m <| sr_items_rev := <[blinded := [a]]> (sr_items_rev m) |>)) else Some None
  | Some l =>
      l' ← sorted_insert_srt (sr_objs m) l a opaque;
      if bool_decide (head l' <> head l) && negb ok then Some None else Some (Some (m <| sr_items_rev := <[blinded := l']> (sr_items_rev m) |>))
  end.

Definition ossl_quic_srtm_add (ok : nat -> bool) (m : QUIC_SRTM) (opaque seq_num : Z) (token : bytes) : option (QUIC_SRTM * bool) :=
  if sr_alloc_failed m then Some (m, false)
  else
    '(item, _) ← srtm_find m opaque seq_num;
    match item with
    | Some _ => Some (m, false)
    | None =>
        if negb (ok 0%nat) then Some (m, false)
        else
          match srtm_compute_blinded token with
          | None => Some (m, false)
          | Some blinded =>
              let a := sr_fresh m in
              let m := m <| sr_objs := <[a := mkItem opaque seq_num token blinded]> (sr_objs m) |> <| sr_fresh := a + 1 |> in
              r ← insert_fwd (ok 1%nat) m a opaque seq_num;
              match r with
              | None => Some (free_item (fail_alloc m) a, false)
              | Some m =>
                  r ← insert_rev (ok 2%nat) m a opaque blinded;
                  match r with None => Some (fail_alloc m, false) | Some m => Some (m, true) end
              end
          end
    end.

(** The walk to the item before [a]; it runs off the end of a list that does not have [a]. *)
Fixpoint unlink (objs : gmap Z SRTM_ITEM) (l : list Z) (a : Z) : option (list Z) :=
  match l with
  | x :: (y :: l') as t => _ ← objs !! x; if y =? a then Some (x :: l') else cons x <$> unlink objs t a
  | _ => None
  end.

Definition srtm_remove_from_rev (ok : bool) (m : QUIC_SRTM) (a : Z) : option (QUIC_SRTM * bool) :=
  item ← sr_objs m !! a;
  l ← sr_items_rev m !! it_srt_blinded item;
  rh ← head l;
  _ ← sr_objs m !! rh;
  if rh =? a then
    match tail l with
    | [] => Some (m <| sr_items_rev := delete (it_srt_blinded item) (sr_items_rev m) |>, true)
    | t => if ok then Some (m <| sr_items_rev := <[it_srt_blinded item := t]> (sr_items_rev m) |>, true) else Some (fail_alloc m, false)
    end
  else l' ← unlink (sr_objs m) l a; Some (m <| sr_items_rev := <[it_srt_blinded item := l']> (sr_items_rev m) |>, true).

Definition ossl_quic_srtm_remove (ok : nat -> bool) (m : QUIC_SRTM) (opaque seq_num : Z) : option (QUIC_SRTM * bool) :=
  if sr_alloc_failed m then Some (m, false)
  else
    '(item, prev) ← srtm_find m opaque seq_num;
    match item with
    | None => Some (m, false)
    | Some a =>
        l ← sr_items_fwd m !! opaque;
        r ← match prev with
            | None => match tail l with
                      | [] => Some (Some (m <| sr_items_fwd := delete opaque (sr_items_fwd m) |>))
                      | t => if ok 0%nat then Some (Some (m <| sr_items_fwd := <[opaque := t]> (sr_items_fwd m) |>)) else Some None
                      end
            | Some _ => l' ← unlink (sr_objs m) l a; Some (Some (m <| sr_items_fwd := <[opaque := l']> (sr_items_fwd m) |>))
            end;
        match r with
        | None => Some (fail_alloc m, false)
        | Some m =>
            '(m, b) ← srtm_remove_from_rev (ok 1%nat) m a;
            if negb b then Some (m, false) else Some (free_item m a, true)
        end
    end.

(** Items removed from the lists of their tokens and freed, whether or not the removal succeeds. *)
Fixpoint cull_loop (ok : nat -> bool) (n : nat) (m : QUIC_SRTM) (l : list Z) : option QUIC_SRTM :=
  match l with
  | [] => Some m
  | a :: l => '(m, _) ← srtm_remove_from_rev (ok n) m a; cull_loop ok (S n) (free_item m a) l
  end.

Definition ossl_quic_srtm_cull (ok : nat -> bool) (m : QUIC_SRTM) (opaque : Z) : option (QUIC_SRTM * bool) :=
  if sr_alloc_failed m then Some (m, false)
  else
    match sr_items_fwd m !! opaque with
    | None => Some (m, true)
    | Some l =>
        ihead ← head l;
        m ← cull_loop ok 1 m (tail l);
        let m := m <| sr_items_fwd := delete opaque (sr_items_fwd m) |> in
        m ← cull_loop ok 0 m [ihead];
        Some (m, true)
    end.

(** Connection and sequence number of the [idx]th item with the token. *)
Definition ossl_quic_srtm_lookup (m : QUIC_SRTM) (token : bytes) (idx : nat) : option (option (Z * Z)) :=
  if sr_alloc_failed m then Some None
  else
    match srtm_compute_blinded token with
    | None => Some None
    | Some blinded =>
        match default [] (sr_items_rev m !! blinded) !! idx with
        | None => Some None
        | Some a => item ← sr_objs m !! a; Some (Some (it_opaque item, it_seq_num item))
        end
    end.

(** The memory left when the lists of all connections have been freed. *)
Definition ossl_quic_srtm_free (m : QUIC_SRTM) : gmap Z SRTM_ITEM := foldr delete (sr_objs m) (concat (map_to_list (sr_items_fwd m)).*2).
End Ops.

(** ** Sorted lists of items *)

Definition desc (field : SRTM_ITEM -> Z) (objs : gmap Z SRTM_ITEM) (a b : Z) : Prop := exists x y, objs !! a = Some x /\ objs !! b = Some y /\ field y <= field x.
Definition live (objs : gmap Z SRTM_ITEM) (l : list Z) : Prop := forall a, a ∈ l -> is_Some (objs !! a).

Lemma sorted_insert_spec field objs l a v : live objs l -> StronglySorted (desc field objs) l -> exists l1 l2, l = l1 ++ l2 /\ sorted_insert field objs l a v = Some (l1 ++ a :: l2) /\
  (forall x i, x ∈ l1 -> objs !! x = Some i -> v < field i) /\ (forall x i, x ∈ l2 -> objs !! x = Some i -> field i <= v).
Proof.
  intros Hl Hs. induction Hs as [|x l Hs IH Hx]; [exists [], []; split_and!; try done; intros; set_solver|].
  destruct (Hl x ltac:(left)) as [i Hi]. cbn [sorted_insert]. rewrite Hi. cbn [mbind option_bind]. destruct (Z.ltb_spec v (field i)) as [Hv|Hv].
  - destruct IH as (l1 & l2 & -> & -> & H1 & H2); [intros ? ?; apply Hl; by right|]. exists (x :: l1), l2. split_and!; try done.
    intros y j [->|Hy]%elem_of_cons Hj; [by simplify_eq|by eapply H1].
  - exists [], (x :: l). split_and!; try done; [intros; set_solver|]. intros y j [->|Hy]%elem_of_cons Hj; [by simplify_eq|].
    rewrite Forall_forall in Hx. destruct (Hx y Hy) as (i' & j' & ? & ? & ?). simplify_eq. lia.
Qed.

Lemma desc_weaken field objs objs' l : (forall a, a ∈ l -> objs' !! a = objs !! a) -> StronglySorted (desc field objs) l -> StronglySorted (desc field objs') l.
Proof.
  intros He Hs. induction Hs as [|x l Hs IH Hx]; [constructor|]. constructor; [apply IH; intros; apply He; by right|].
  rewrite Forall_forall in *. intros y Hy. destruct (Hx y Hy) as (i & j & ? & ? & ?). exists i, j. rewrite !He; [done|by right|by left].
Qed.

Lemma sorted_app_mid {A} (R : A -> A -> Prop) (l1 l2 : list A) a : StronglySorted R (l1 ++ a :: l2) <-> StronglySorted R (l1 ++ l2) /\ (forall x, x ∈ l1 -> R x a) /\ (forall x, x ∈ l2 -> R a x).
Proof.
  induction l1 as [|y l1 IH]; cbn.
  - split; [intros [Hs Hf]%StronglySorted_inv; rewrite Forall_forall in Hf; split_and!; try done; intros; set_solver|].
    intros (Hs & _ & Hf). constructor; [done|]. by rewrite Forall_forall.
  - split.
    + intros [Hs Hf]%StronglySorted_inv. apply IH in Hs as (Hs & H1 & H2). rewrite Forall_forall in Hf. split_and!; try done.
      * constructor; [done|]. rewrite Forall_forall. intros x Hx. apply Hf. set_solver.
      * intros x [->|Hx]%elem_of_cons; [apply Hf; set_solver|by apply H1].
    + intros ([Hs Hf]%StronglySorted_inv & H1 & H2). constructor; [apply IH; split_and!; try done; intros; apply H1; by right|].
      rewrite Forall_forall in Hf |- *. intros x Hx. apply elem_of_app in Hx as [Hx|[->|Hx]%elem_of_cons]; [apply Hf; set_solver|apply H1; by left|apply Hf; set_solver].
Qed.

Lemma unlink_cons objs x y l a : unlink objs (x :: y :: l) a = (_ ← objs !! x; if y =? a then Some (x :: l) else cons x <$> unlink objs (y :: l) a).
Proof. done. Qed.

Lemma unlink_spec objs l1 a l2 : l1 <> [] -> live objs (l1 ++ a :: l2) -> a ∉ l1 -> unlink objs (l1 ++ a :: l2) a = Some (l1 ++ l2).
Proof.
  intros Hne Hl Ha. induction l1 as [|x l1 IH]; [done|]. apply not_elem_of_cons in Ha as [Hax Ha]. destruct (Hl x ltac:(left)) as [i Hi]. destruct l1 as [|y l1]; cbn [app]; rewrite unlink_cons, Hi; cbn [mbind option_bind].
  - by rewrite Z.eqb_refl.
  - apply not_elem_of_cons in Ha as [Hay Ha']. rewrite (proj2 (Z.eqb_neq _ _)) by congruence.
    change (y :: l1 ++ a :: l2) with ((y :: l1) ++ a :: l2). rewrite IH; [done|done| |by apply not_elem_of_cons]. intros z Hz. apply Hl. by right.
Qed.

Lemma Forall2_elem_r {A B} (P : A -> B -> Prop) l k y : Forall2 P l k -> y ∈ k -> exists x, x ∈ l /\ P x y.
Proof. intros HF [i Hi]%list_elem_of_lookup_1. destruct (Forall2_lookup_r _ _ _ _ _ HF Hi) as (x & Hx & ?). exists x. split; [|done]. by eapply list_elem_of_lookup_2. Qed.

Lemma Forall2_elem_l {A B} (P : A -> B -> Prop) l k x : Forall2 P l k -> x ∈ l -> exists y, y ∈ k /\ P x y.
Proof. intros HF Hx. apply Forall2_flip in HF. exact (Forall2_elem_r (flip P) k l x HF Hx). Qed.

(** ** Tables of sorted lists *)

Section Bucket.
Context {K : Type} `{Countable K} (key : SRTM_ITEM -> K) (field : SRTM_ITEM -> Z).
Implicit Types tab : gmap K (list Z).

(** Every item is in the list of its key, once, and the lists are not empty and in order. *)
Record bucket_ok (objs : gmap Z SRTM_ITEM) tab : Prop := {
  bk_mem a it : objs !! a = Some it -> exists l, tab !! key it = Some l /\ a ∈ l;
  bk_list k l : tab !! k = Some l -> l <> [] /\ NoDup l /\ StronglySorted (desc field objs) l /\ forall a, a ∈ l -> exists it, objs !! a = Some it /\ key it = k }.

Definition tab_set tab (k : K) (l : list Z) : gmap K (list Z) := match l with [] => delete k tab | _ => <[k := l]> tab end.

Lemma bk_live objs tab k l : bucket_ok objs tab -> tab !! k = Some l -> live objs l.
Proof. intros Hb Hk a Ha. destruct (bk_list _ _ Hb k l Hk) as (_ & _ & _ & Hi). destruct (Hi a Ha) as (it & ? & _). by exists it. Qed.

Lemma bucket_add objs tab a it l1 l2 : bucket_ok objs tab -> objs !! a = None -> default [] (tab !! key it) = l1 ++ l2 ->
  (forall x i, x ∈ l1 -> objs !! x = Some i -> field it < field i) -> (forall x i, x ∈ l2 -> objs !! x = Some i -> field i <= field it) ->
  bucket_ok (<[a := it]> objs) (<[key it := l1 ++ a :: l2]> tab).
Proof.
  intros Hb Ha Hd H1 H2. pose proof Hb as [B1 B2].
  assert (Hl : forall x, x ∈ l1 ++ l2 -> exists i, objs !! x = Some i /\ key i = key it).
  { intros x Hx. rewrite <- Hd in Hx. destruct (tab !! key it) as [l|] eqn:E; [|set_solver]. by apply (B2 _ _ E). }
  assert (Hold : NoDup (l1 ++ l2) /\ StronglySorted (desc field objs) (l1 ++ l2)).
  { rewrite <- Hd. destruct (tab !! key it) as [l|] eqn:E; cbn; [|split; constructor]. by destruct (B2 _ _ E) as (_ & ? & ? & _). }
  assert (Han : a ∉ l1 ++ l2) by (intros Hx; destruct (Hl a Hx) as (i & ? & _); congruence).
  assert (Hne : forall x i, objs !! x = Some i -> <[a := it]> objs !! x = Some i) by (intros x i Hx; rewrite lookup_insert_ne; [done|congruence]).
  split.
  - intros b i [[<- <-]|[Hab Hb']]%lookup_insert_Some; [rewrite lookup_insert_eq; eexists; split; [done|set_solver]|].
    destruct (B1 b i Hb') as (l & Hk & Hbl). destruct (decide (key i = key it)) as [He|Hk']; [|exists l; by rewrite lookup_insert_ne].
    rewrite He, lookup_insert_eq. eexists. split; [done|]. rewrite He in Hk. rewrite Hk in Hd. cbn in Hd. subst l. set_solver.
  - intros k l [[<- <-]|[Hkn Hk]]%lookup_insert_Some.
    + split_and!; [by destruct l1| | |].
      * rewrite <- Permutation_middle. apply NoDup_cons. split; [done|apply Hold].
      * apply sorted_app_mid. split_and!; [eapply desc_weaken; [|apply Hold]; intros x Hx; destruct (Hl x Hx) as (i & Hi & _); rewrite Hi; by apply Hne| |].
        -- intros x Hx. destruct (Hl x ltac:(set_solver)) as (i & Hi & _). exists i, it. rewrite lookup_insert_eq, (Hne _ _ Hi). specialize (H1 x i Hx Hi). split_and!; try done. lia.
        -- intros x Hx. destruct (Hl x ltac:(set_solver)) as (i & Hi & _). exists it, i. rewrite lookup_insert_eq, (Hne _ _ Hi). split_and!; try done. by eapply H2.
      * intros x Hx. destruct (decide (x = a)) as [->|]; [exists it; by rewrite lookup_insert_eq|]. destruct (Hl x ltac:(set_solver)) as (i & Hi & ?). exists i. auto.
    + destruct (B2 k l Hk) as (? & ? & Hs & Hi). split_and!; try done.
      * eapply desc_weaken; [|exact Hs]. intros x Hx. destruct (Hi x Hx) as (i & Hxi & _). rewrite Hxi. by apply Hne.
      * intros x Hx. destruct (Hi x Hx) as (i & Hxi & ?). exists i. auto.
Qed.

Lemma bucket_del objs tab a it l1 l2 : bucket_ok objs tab -> objs !! a = Some it -> tab !! key it = Some (l1 ++ a :: l2) -> bucket_ok (delete a objs) (tab_set tab (key it) (l1 ++ l2)).
Proof.
  intros [B1 B2] Ha Hk. destruct (B2 _ _ Hk) as (_ & Hnd & Hs & Hi). rewrite <- Permutation_middle in Hnd. apply NoDup_cons in Hnd as [Han Hnd].
  apply sorted_app_mid in Hs as (Hs & _ & _).
  assert (Hset : forall k l, tab_set tab (key it) (l1 ++ l2) !! k = Some l <-> (k = key it /\ l = l1 ++ l2 /\ l <> []) \/ (k <> key it /\ tab !! k = Some l)).
  { intros k l. unfold tab_set. destruct (l1 ++ l2) as [|y t]; [rewrite lookup_delete_Some; naive_solver|]. rewrite lookup_insert_Some. naive_solver. }
  split.
  - intros b i [Hab Hb]%lookup_delete_Some. destruct (B1 b i Hb) as (l & Hl & Hbl). destruct (decide (key i = key it)) as [He|Hne].
    + rewrite He in Hl. assert (l = l1 ++ a :: l2) as -> by congruence. exists (l1 ++ l2). assert (b ∈ l1 ++ l2) by set_solver. split; [|done]. apply Hset. left. split_and!; try done.
      intros Hn. rewrite Hn in *. set_solver.
    + exists l. split; [|done]. apply Hset. by right.
  - intros k l [(-> & -> & Hn)|[Hne Hl]]%Hset.
    + split_and!; try done; [eapply desc_weaken; [|exact Hs]; intros x Hx; rewrite lookup_delete_ne; [done|congruence]|].
      intros x Hx. destruct (Hi x ltac:(set_solver)) as (i & ? & ?). exists i. rewrite lookup_delete_ne by congruence. done.
    + destruct (B2 k l Hl) as (? & ? & Hs' & Hi'). assert (Hal : a ∉ l). { intros Hal. destruct (Hi' a Hal) as (i & ? & ?). congruence. }
      split_and!; try done; [eapply desc_weaken; [|exact Hs']; intros x Hx; rewrite lookup_delete_ne; [done|congruence]|].
      intros x Hx. destruct (Hi' x Hx) as (i & ? & ?). exists i. rewrite lookup_delete_ne by congruence. done.
Qed.
End Bucket.

Lemma find_walk_spec objs l s prev : live objs l -> StronglySorted (desc it_seq_num objs) l -> exists r p, find_walk objs l s prev = Some (r, p) /\
  match r with
  | Some a => exists l1 l2 it, l = l1 ++ a :: l2 /\ objs !! a = Some it /\ it_seq_num it = s /\ (l1 = [] -> p = prev) /\ (l1 <> [] -> is_Some p)
  | None => forall a it, a ∈ l -> objs !! a = Some it -> it_seq_num it <> s
  end.
Proof.
  intros Hl Hs. revert prev. induction Hs as [|x l Hs IH Hx]; intros prev; [exists None, prev; split; [done|intros; set_solver]|].
  destruct (Hl x ltac:(left)) as [i Hi]. cbn [find_walk]. rewrite Hi. cbn [mbind option_bind]. rewrite Forall_forall in Hx. destruct (Z.eqb_spec (it_seq_num i) s) as [He|Hne].
  { exists (Some x), prev. split; [done|]. exists [], l, i. by split_and!. }
  destruct (Z.ltb_spec (it_seq_num i) s) as [Hlt|Hge].
  - exists None, prev. split; [done|]. intros a it [->|Ha]%elem_of_cons Hit; [by simplify_eq|]. destruct (Hx a Ha) as (i' & it' & ? & ? & ?). simplify_eq. lia.
  - destruct (IH ltac:(intros ? ?; apply Hl; by right) (Some x)) as (r & p & -> & Hr). exists r, p. split; [done|]. destruct r as [a|].
    + destruct Hr as (l1 & l2 & it & -> & ? & ? & H1 & H2). exists (x :: l1), l2, it. split_and!; try done. intros _. destruct l1; [rewrite H1 by done; by eexists|by apply H2].
    + intros a it [->|Ha]%elem_of_cons Hit; [by simplify_eq|]. by eapply Hr.
Qed.

(** ** The manager as a finite map *)

(** The pairs of connection and sequence number with their tokens. *)
Abbreviation srts := (gmap (Z * Z) bytes).

Section Rep.
Context (blind : bytes -> option bytes).

Implicit Types M : srts.

Record srtm_rep (m : QUIC_SRTM) M : Prop := {
  rp_ok : sr_alloc_failed m = false;
  rp_fwd : bucket_ok it_opaque it_seq_num (sr_objs m) (sr_items_fwd m);
  rp_rev : bucket_ok it_srt_blinded it_opaque (sr_objs m) (sr_items_rev m);
  rp_obj a it : sr_objs m !! a = Some it -> a < sr_fresh m /\ blind (it_srt it) = Some (it_srt_blinded it);
  rp_unique a b x y : sr_objs m !! a = Some x -> sr_objs m !! b = Some y -> it_opaque x = it_opaque y -> it_seq_num x = it_seq_num y -> a = b;
  rp_map o s t : M !! (o, s) = Some t <-> exists a it, sr_objs m !! a = Some it /\ it_opaque it = o /\ it_seq_num it = s /\ it_srt it = t }.

Lemma find_spec m M o s : srtm_rep m M -> exists r p, srtm_find m o s = Some (r, p) /\
  match r with
  | Some a => exists l1 l2 it, sr_items_fwd m !! o = Some (l1 ++ a :: l2) /\ sr_objs m !! a = Some it /\ it_opaque it = o /\ it_seq_num it = s /\ M !! (o, s) = Some (it_srt it) /\
      (l1 = [] -> p = None) /\ (l1 <> [] -> is_Some p)
  | None => M !! (o, s) = None
  end.
Proof.
  intros [R0 R1 R2 R3 R4 R5]. unfold srtm_find. destruct (sr_items_fwd m !! o) as [l|] eqn:Hl; simpl.
  - destruct (bk_list _ _ _ _ R1 _ _ Hl) as (_ & _ & Hs & Hi). destruct (find_walk_spec (sr_objs m) l s None) as (r & p & -> & Hr); [exact (bk_live _ _ _ _ _ _ R1 Hl)|done|].
    exists r, p. split; [done|]. destruct r as [a|].
    + destruct Hr as (l1 & l2 & it & -> & Ha & ? & ? & ?). destruct (Hi a ltac:(set_solver)) as (it' & Ha' & ?). assert (it' = it) as -> by congruence.
      exists l1, l2, it. split_and!; try done. apply R5. by exists a, it.
    + apply eq_None_not_Some. intros [t (a & it & Ha & Ho & Hs' & _)%R5]. destruct (bk_mem _ _ _ _ R1 _ _ Ha) as (l' & Hl' & Hal). rewrite Ho in Hl'.
      assert (l' = l) as -> by congruence. by eapply Hr.
  - exists None, None. split; [done|]. apply eq_None_not_Some. intros [t (a & it & Ha & Ho & Hs' & _)%R5]. destruct (bk_mem _ _ _ _ R1 _ _ Ha) as (l' & Hl' & _). congruence.
Qed.

Definition nomem (ok : nat -> bool) : Prop := exists i, ok i = false.

(** The insertion into either table, with the result of the sorted insertion. *)
Lemma insert_table {K} `{Countable K} (key : SRTM_ITEM -> K) field objs (tab : gmap K (list Z)) a it ok : bucket_ok key field objs tab -> objs !! a = None ->
  let objs' := <[a := it]> objs in
  match tab !! key it with
  | None => bucket_ok key field objs' (<[key it := [a]]> tab)
  | Some l => exists l', sorted_insert field objs' l a (field it) = Some l' /\ bucket_ok key field objs' (<[key it := l']> tab) /\ (bool_decide (head l' <> head l) && negb ok = true -> ok = false)
  end.
Proof.
  intros Hb Ha objs'. destruct (tab !! key it) as [l|] eqn:Hl.
  - destruct (bk_list _ _ _ _ Hb _ _ Hl) as (_ & _ & Hs & Hi). assert (Hne : forall x, x ∈ l -> objs' !! x = objs !! x).
    { intros x Hx. destruct (Hi x Hx) as (i & Hxi & _). unfold objs'. rewrite lookup_insert_ne; [done|congruence]. }
    destruct (sorted_insert_spec field objs' l a (field it)) as (l1 & l2 & -> & -> & H1 & H2).
    + intros x Hx. rewrite Hne by done. destruct (Hi x Hx) as (i & ? & _). by exists i.
    + by eapply desc_weaken.
    + exists (l1 ++ a :: l2). split_and!; try done; [|by destruct ok; rewrite ?andb_false_r].
      apply bucket_add; try done; [by rewrite Hl| |]; intros x i Hx Hxi; [eapply H1|eapply H2]; try done; rewrite Hne by set_solver; done.
  - pose proof (bucket_add key field objs tab a it [] [] Hb Ha) as Hadd. apply Hadd; [by rewrite Hl|intros; set_solver|intros; set_solver].
Qed.

Lemma add_refines ok m o s t M : srtm_rep m M -> exists m' b, ossl_quic_srtm_add blind ok m o s t = Some (m', b) /\
  if b then M !! (o, s) = None /\ srtm_rep m' (<[(o, s) := t]> M)
  else (srtm_rep m' M /\ (is_Some (M !! (o, s)) \/ ok 0%nat = false \/ blind t = None)) \/ (sr_alloc_failed m' = true /\ nomem ok).
Proof.
  intros Hr. pose proof Hr as [R0 R1 R2 R3 R4 R5]. unfold ossl_quic_srtm_add. rewrite R0. destruct (find_spec m M o s Hr) as ([a|] & p & -> & Hf); cbn [mbind option_bind].
  { destruct Hf as (_ & _ & it & _ & _ & _ & _ & HM & _). exists m, false. split; [done|]. left. split; [done|]. left. by exists (it_srt it). }
  destruct (ok 0%nat) eqn:Hok0; cbn [negb]; [|exists m, false; split; [done|]; left; auto]. unfold srtm_compute_blinded. destruct (blind t) as [bl|] eqn:Hbl; [|exists m, false; split; [done|]; left; auto].
  assert (Hfr : sr_objs m !! sr_fresh m = None). { apply eq_None_not_Some. intros [i [? _]%R3]. lia. }
  set (it := mkItem o s t bl). set (a := sr_fresh m) in *. set (objs' := <[a := it]> (sr_objs m)).
  pose proof (insert_table it_opaque it_seq_num (sr_objs m) (sr_items_fwd m) a it (ok 1%nat) R1 Hfr) as Hfw. pose proof (insert_table it_srt_blinded it_opaque (sr_objs m) (sr_items_rev m) a it (ok 2%nat) R2 Hfr) as Hrv.
  cbn zeta in Hfw, Hrv. fold objs' in Hfw, Hrv. change (it_opaque it) with o in Hfw, Hrv. change (it_srt_blinded it) with bl in Hrv. change (it_seq_num it) with s in Hfw.
  assert (exists r, insert_fwd (ok 1%nat) (m <| sr_objs := objs' |> <| sr_fresh := a + 1 |>) a o s = Some r /\
    match r with Some m1 => exists tab, m1 = m <| sr_objs := objs' |> <| sr_fresh := a + 1 |> <| sr_items_fwd := tab |> /\ bucket_ok it_opaque it_seq_num objs' tab | None => nomem ok end) as (r & Hins & Hr1).
  { unfold insert_fwd. cbn. destruct (sr_items_fwd m !! o) as [l|].
    - destruct Hfw as (l' & Hsi & Hb' & Hno). unfold sorted_insert_seq_num. rewrite Hsi. cbn [mbind option_bind]. destruct (bool_decide _ && _); [eexists; split; [done|]; exists 1%nat; auto|].
      eexists. split; [done|]. by eexists.
    - destruct (ok 1%nat) eqn:Hok1; eexists; (split; [done|]); [by eexists|by exists 1%nat]. }
  cbn in Hins |- *. rewrite Hins. cbn [mbind option_bind]. destruct r as [m1|]; [|do 2 eexists; split; [done|]; right; split; [done|done]]. destruct Hr1 as (fwd & -> & Hb1).
  assert (exists r, insert_rev (ok 2%nat) (m <| sr_objs := objs' |> <| sr_fresh := a + 1 |> <| sr_items_fwd := fwd |>) a o bl = Some r /\
    match r with Some m1 => exists tab, m1 = m <| sr_objs := objs' |> <| sr_fresh := a + 1 |> <| sr_items_fwd := fwd |> <| sr_items_rev := tab |> /\ bucket_ok it_srt_blinded it_opaque objs' tab
    | None => nomem ok end) as (r & Hins2 & Hr2).
  { unfold insert_rev. cbn. destruct (sr_items_rev m !! bl) as [l|].
    - destruct Hrv as (l' & Hsi & Hb' & Hno). unfold sorted_insert_srt. rewrite Hsi. cbn [mbind option_bind]. destruct (bool_decide _ && _); [eexists; split; [done|]; exists 2%nat; auto|].
      eexists. split; [done|]. by eexists.
    - destruct (ok 2%nat) eqn:Hok2; eexists; (split; [done|]); [by eexists|by exists 2%nat]. }
  cbn in Hins2 |- *. rewrite Hins2. cbn [mbind option_bind]. destruct r as [m2|]; [|do 2 eexists; split; [done|]; right; split; [done|done]]. destruct Hr2 as (rev & -> & Hb2).
  do 2 eexists. split; [done|]. split; [done|]. split; cbn; try done.
  - intros x i [[<- <-]|[Hne Hx]]%lookup_insert_Some; [split; [lia|done]|]. destruct (R3 x i Hx). split; [lia|done].
  - assert (Hnew : forall x y, sr_objs m !! x = Some y -> ~ (it_opaque y = o /\ it_seq_num y = s)).
    { intros x y Hx [Ho Hs]. assert (M !! (o, s) = Some (it_srt y)) by (apply R5; by exists x, y). congruence. }
    intros x y i j [[<- <-]|[Hne Hx]]%lookup_insert_Some [[<- <-]|[Hne' Hy]]%lookup_insert_Some Ho Hs; try done; [by destruct (Hnew y j Hy)|by destruct (Hnew x i Hx)|by eapply R4].
  - intros o' s' t'. rewrite lookup_insert_Some, R5. unfold objs'. split.
    + intros [[[= <- <-] <-]|[Hne (x & i & Hx & ? & ? & ?)]]; [exists a, it; by rewrite lookup_insert_eq|]. exists x, i. rewrite lookup_insert_ne; [done|]. intros <-. congruence.
    + intros (x & i & [[<- <-]|[Hne Hx]]%lookup_insert_Some & <- & <- & <-); [by left|]. right. split; [|by exists x, i].
      intros [= Ho Hs]. assert (M !! (o, s) = Some (it_srt i)) by (apply R5; by exists x, i). congruence.
Qed.

Lemma remove_rev_spec ok m a it : bucket_ok it_srt_blinded it_opaque (sr_objs m) (sr_items_rev m) -> sr_objs m !! a = Some it ->
  exists m' b, srtm_remove_from_rev ok m a = Some (m', b) /\
    if b then exists tab, m' = m <| sr_items_rev := tab |> /\ bucket_ok it_srt_blinded it_opaque (delete a (sr_objs m)) tab else m' = fail_alloc m /\ ok = false.
Proof.
  intros Hb Ha. unfold srtm_remove_from_rev. rewrite Ha. cbn [mbind option_bind]. destruct (bk_mem _ _ _ _ Hb a it Ha) as (l & Hl & Hal). rewrite Hl. cbn [mbind option_bind].
  pose proof (bk_live _ _ _ _ _ _ Hb Hl) as Hlive. destruct (bk_list _ _ _ _ Hb _ _ Hl) as (_ & Hnd & _). apply list_elem_of_split in Hal as (l1 & l2 & ->).
  pose proof (bucket_del _ _ _ _ a it l1 l2 Hb Ha Hl) as Hdel. rewrite <- Permutation_middle in Hnd. apply NoDup_cons in Hnd as [Han _].
  destruct l1 as [|x l1]; cbn [app head tail mbind option_bind] in *.
  - rewrite Ha. cbn [mbind option_bind]. rewrite Z.eqb_refl. destruct l2 as [|y l2]; [do 2 eexists; split; [done|]; by eexists|].
    destruct ok; do 2 eexists; (split; [done|]); [by eexists|done].
  - destruct (Hlive x ltac:(left)) as [i Hx]. rewrite Hx. cbn [mbind option_bind]. rewrite (proj2 (Z.eqb_neq _ _)) by set_solver.
    change (x :: l1 ++ a :: l2) with ((x :: l1) ++ a :: l2). rewrite unlink_spec by (done || set_solver). cbn [mbind option_bind]. do 2 eexists. split; [done|]. by eexists.
Qed.

Lemma remove_refines ok m o s M : srtm_rep m M -> exists m' b, ossl_quic_srtm_remove ok m o s = Some (m', b) /\
  if b then is_Some (M !! (o, s)) /\ srtm_rep m' (delete (o, s) M) else (m' = m /\ M !! (o, s) = None) \/ (sr_alloc_failed m' = true /\ nomem ok).
Proof.
  intros Hr. pose proof Hr as [R0 R1 R2 R3 R4 R5]. unfold ossl_quic_srtm_remove. rewrite R0. destruct (find_spec m M o s Hr) as ([a|] & p & -> & Hf); cbn [mbind option_bind]; [|by exists m, false; auto].
  destruct Hf as (l1 & l2 & it & Hl & Ha & Ho & Hs & HM & Hp0 & Hp1). rewrite Hl. cbn [mbind option_bind].
  pose proof (bk_live _ _ _ _ _ _ R1 Hl) as Hlive. destruct (bk_list _ _ _ _ R1 _ _ Hl) as (_ & Hnd & _). rewrite <- Permutation_middle in Hnd. apply NoDup_cons in Hnd as [Han _].
  rewrite <- Ho in Hl. pose proof (bucket_del _ _ _ _ a it l1 l2 R1 Ha Hl) as Hdel. rewrite Ho in Hdel, Hl.
  match goal with |- exists _ _, mbind _ ?r = _ /\ _ => assert (exists x, r = Some x /\ match x with
    | Some m1 => exists tab : gmap Z (list Z), m1 = m <| sr_items_fwd := tab |> /\ bucket_ok it_opaque it_seq_num (delete a (sr_objs m)) tab | None => nomem ok end) as (x & -> & Hx) end.
  { destruct l1 as [|y l1].
    - rewrite (Hp0 eq_refl). cbn [app tail] in *. destruct l2 as [|z l2]; [eexists; split; [done|]; by eexists|].
      destruct (ok 0%nat) eqn:E; eexists; (split; [done|]); [by eexists|by exists 0%nat].
    - destruct (Hp1 ltac:(done)) as [pa ->]. rewrite unlink_spec by (done || set_solver). eexists. split; [done|]. by eexists. }
  cbn [mbind option_bind]. destruct x as [m1|]; [|do 2 eexists; split; [done|]; by right]. destruct Hx as (fwd & -> & Hb1).
  match goal with |- context [srtm_remove_from_rev _ ?m1 _] => destruct (remove_rev_spec (ok 1%nat) m1 a it R2 Ha) as (m2 & b & -> & Hb2) end. cbn [mbind option_bind]. destruct b; cbn [negb].
  2: { destruct Hb2 as [-> Hok]. do 2 eexists. split; [done|]. right. split; [done|by exists 1%nat]. }
  destruct Hb2 as (rev & -> & Hb2). do 2 eexists. split; [done|]. split; [by eexists|]. split; cbn; try done.
  - intros x i [_ Hx]%lookup_delete_Some. by eapply R3.
  - intros x y i j [_ Hx]%lookup_delete_Some [_ Hy]%lookup_delete_Some. by eapply R4.
  - intros o' s' t'. rewrite lookup_delete_Some, R5. setoid_rewrite lookup_delete_Some. split.
    + intros [Hne (x & i & Hx & <- & <- & <-)]. exists x, i. split_and!; try done. intros <-. by simplify_eq.
    + intros (x & i & [Hne Hx] & <- & <- & <-). split; [|by exists x, i]. intros [= Ho2 Hs2]. apply Hne. eapply R4; [done..| |]; congruence.
Qed.

Lemma cull_loop_spec ok n m l : (forall i, ok i = true) -> bucket_ok it_srt_blinded it_opaque (sr_objs m) (sr_items_rev m) -> NoDup l -> live (sr_objs m) l ->
  exists rev, cull_loop ok n m l = Some (m <| sr_items_rev := rev |> <| sr_objs := foldr delete (sr_objs m) l |>) /\ bucket_ok it_srt_blinded it_opaque (foldr delete (sr_objs m) l) rev.
Proof.
  intros Hok. revert n m. induction l as [|a l IH]; intros n m Hb Hnd Hl; [exists (sr_items_rev m); split; [by destruct m|done]|].
  apply NoDup_cons in Hnd as [Hal Hnd]. destruct (Hl a ltac:(left)) as [it Ha]. cbn [cull_loop]. destruct (remove_rev_spec (ok n) m a it Hb Ha) as (m1 & b & -> & Hr). cbn [mbind option_bind].
  destruct b; [|destruct Hr as [_ Hf]; by rewrite Hok in Hf]. destruct Hr as (rev & -> & Hb1).
  set (m2 := free_item (m <| sr_items_rev := rev |>) a). destruct (IH (S n) m2 Hb1 Hnd) as (rev' & -> & Hb2).
  { intros x Hx. cbn. rewrite lookup_delete_ne by (intros ->; done). apply Hl. by right. }
  assert (He : foldr delete (delete a (sr_objs m)) l = delete a (foldr delete (sr_objs m) l)). { clear. induction l as [|b l IH]; cbn; [done|]. by rewrite IH, delete_delete. }
  exists rev'. cbn in *. rewrite He in Hb2 |- *. done.
Qed.

Lemma foldr_delete_lookup {B} (objs : gmap Z B) l a x : ((foldr delete objs l) !! a) = Some x <-> ((a ∉ l) /\ objs !! a = Some x).
Proof. induction l as [|b l IH]; cbn; [set_solver|]. rewrite lookup_delete_Some, IH, not_elem_of_cons. naive_solver. Qed.

Lemma bucket_drop {K} `{Countable K} (key : SRTM_ITEM -> K) field objs (tab : gmap K (list Z)) k l : bucket_ok key field objs tab -> tab !! k = Some l ->
  bucket_ok key field (foldr delete objs l) (delete k tab) /\ forall a it, objs !! a = Some it -> (a ∈ l <-> key it = k).
Proof.
  intros [B1 B2] Hk. destruct (B2 _ _ Hk) as (_ & _ & _ & Hi).
  assert (Hiff : forall a it, objs !! a = Some it -> (a ∈ l <-> key it = k)).
  { intros a it Ha. split; [intros Hal; destruct (Hi a Hal) as (i & ? & ?); congruence|]. intros <-. destruct (B1 a it Ha) as (l' & ? & ?). congruence. }
  split; [split|done].
  - intros a it [Hal Ha]%foldr_delete_lookup. destruct (B1 a it Ha) as (l' & Hl' & ?). exists l'. rewrite lookup_delete_ne; [done|]. intros Hke. by apply Hal, (Hiff a it Ha).
  - intros k' l' [Hne Hk']%lookup_delete_Some. destruct (B2 _ _ Hk') as (? & ? & Hs & Hi').
    assert (Hsame : forall a, a ∈ l' -> foldr delete objs l !! a = objs !! a).
    { intros a Ha. destruct (Hi' a Ha) as (i & Hx & Hki). rewrite Hx. apply foldr_delete_lookup. split; [|done]. intros Hal. apply (Hiff a i Hx) in Hal. congruence. }
    split_and!; try done; [by eapply desc_weaken|]. intros a Ha. rewrite Hsame by done. by apply Hi'.
Qed.

Lemma srtm_cull_refines ok m o M : srtm_rep m M -> (forall i, ok i = true) -> exists m', ossl_quic_srtm_cull ok m o = Some (m', true) /\ srtm_rep m' (filter (fun p => p.1.1 <> o) M).
Proof.
  intros Hr Hok. pose proof Hr as [R0 R1 R2 R3 R4 R5]. unfold ossl_quic_srtm_cull. rewrite R0. destruct (sr_items_fwd m !! o) as [l|] eqn:Hl.
  2: { exists m. split; [done|]. rewrite map_filter_id; [done|]. intros [o' s] t (a & it & Ha & Ho & _)%R5. cbn. intros ->.
       destruct (bk_mem _ _ _ _ R1 a it Ha) as (l & ? & _). congruence. }
  destruct (bk_list _ _ _ _ R1 _ _ Hl) as (Hne & Hnd & _ & _). pose proof (bk_live _ _ _ _ _ _ R1 Hl) as Hlive. destruct (bucket_drop _ _ _ _ _ _ R1 Hl) as [Hfwd Hiff].
  destruct l as [|h l]; [done|]. cbn [head tail mbind option_bind]. apply NoDup_cons in Hnd as [Hhl Hnd].
  destruct (cull_loop_spec ok 1 m l Hok R2 Hnd) as (rev1 & -> & Hb1); [intros x Hx; apply Hlive; by right|]. cbn [mbind option_bind].
  set (m1 := _ <| sr_items_fwd := _ |>). destruct (cull_loop_spec ok 0 m1 [h] Hok Hb1) as (rev2 & H2 & Hb2); [apply NoDup_singleton| |].
  { intros x ->%list_elem_of_singleton. destruct (Hlive h ltac:(left)) as [i Hi]. exists i. by apply foldr_delete_lookup. }
  rewrite H2. cbn [mbind option_bind]. eexists. split; [done|]. cbn in Hb2, Hfwd |- *. split; cbn; try done.
  - intros x i Hx. change (foldr delete (sr_objs m) (h :: l) !! x = Some i) in Hx. apply foldr_delete_lookup in Hx as [_ Hx]. by eapply R3.
  - intros x y i j Hx Hy. change (foldr delete (sr_objs m) (h :: l) !! x = Some i) in Hx. change (foldr delete (sr_objs m) (h :: l) !! y = Some j) in Hy.
    apply foldr_delete_lookup in Hx as [_ Hx]. apply foldr_delete_lookup in Hy as [_ Hy]. by eapply R4.
  - intros o' s t. assert (Hobj : forall x i, delete h (foldr delete (sr_objs m) l) !! x = Some i <-> ((x ∉ h :: l) /\ sr_objs m !! x = Some i)) by (intros; apply (foldr_delete_lookup (sr_objs m) (h :: l))).
    rewrite map_lookup_filter_Some, R5. cbn. split.
    + intros [(x & i & Hx & <- & <- & <-) Ho]. exists x, i. split_and!; try done. apply Hobj. split; [|done]. intros Hin. by apply Ho, (Hiff x i Hx).
    + intros (x & i & [Hin Hx]%Hobj & <- & <- & <-). split; [by exists x, i|]. intros Ho. by apply Hin, (Hiff x i Hx).
Qed.

Lemma srtm_new_rep ok m : ossl_quic_srtm_new ok = Some m -> srtm_rep m ∅.
Proof.
  unfold ossl_quic_srtm_new. case_match; [|done]. intros [= <-]. split; cbn; try done; try by split.
  intros o s t. split; [done|]. by intros (a & it & ? & _).
Qed.

(** The entries with a token, in the order in which a lookup enumerates them. *)
Lemma lookup_spec m M token bl : srtm_rep m M -> blind token = Some bl -> (forall t b, blind t = Some b -> blind token = Some b -> t = token) ->
  exists L, NoDup L /\ StronglySorted (fun p q => q.1 <= p.1) L /\ (forall p, p ∈ L <-> M !! p = Some token) /\ forall idx, ossl_quic_srtm_lookup blind m token idx = Some (L !! idx).
Proof.
  intros [R0 R1 R2 R3 R4 R5] Hbl Hinj. set (l := default [] (sr_items_rev m !! bl)). set (pair_of := fun a => it ← sr_objs m !! a; Some (it_opaque it, it_seq_num it)).
  assert (Hl : NoDup l /\ StronglySorted (desc it_opaque (sr_objs m)) l /\ forall a, a ∈ l <-> exists it, sr_objs m !! a = Some it /\ it_srt_blinded it = bl).
  { unfold l. destruct (sr_items_rev m !! bl) as [k|] eqn:E; cbn.
    - destruct (bk_list _ _ _ _ R2 _ _ E) as (_ & ? & ? & Hi). split_and!; try done. intros a. split; [apply Hi|]. intros (it & Ha & <-). destruct (bk_mem _ _ _ _ R2 a it Ha) as (k' & ? & ?). congruence.
    - split_and!; [constructor|constructor|]. intros a. split; [set_solver|]. intros (it & Ha & <-). destruct (bk_mem _ _ _ _ R2 a it Ha) as (k' & ? & ?). congruence. }
  destruct Hl as (Hnd & Hs & Hmem). assert (HL : exists L, Forall2 (fun a p => pair_of a = Some p) l L).
  { destruct (mapM_is_Some_2 pair_of l) as [L HL]; [|exists L; by apply mapM_Some_1]. apply Forall_forall. intros a (it & Ha & _)%Hmem. change (is_Some (pair_of a)). unfold pair_of. rewrite Ha. by eexists. }
  destruct HL as [L HL]. exists L. split_and!.
  - clear Hs. assert (Hsub : forall a, a ∈ l -> is_Some (sr_objs m !! a)) by (intros a (it & Ha & _)%Hmem; by exists it). clear Hmem.
    induction HL as [|a p l' L' Hp HL IH]; [constructor|]. apply NoDup_cons in Hnd as [Hal Hnd]. apply NoDup_cons. split; [|apply IH; [done|intros; apply Hsub; by right]].
    intros Hin. destruct (Forall2_elem_r _ _ _ p HL Hin) as (b & Hb & Hpb). apply Hal. destruct (Hsub a ltac:(left)) as [x Hx], (Hsub b ltac:(by right)) as [y Hy].
    unfold pair_of in Hp, Hpb. rewrite Hx in Hp. rewrite Hy in Hpb. cbn in Hp, Hpb. simplify_eq. assert (a = b) as -> by (eapply R4; done). done.
  - clear Hnd Hmem. induction HL as [|a p l' L' Hp HL IH]; [constructor|]. apply StronglySorted_inv in Hs as [Hs Hf]. constructor; [by apply IH|]. apply Forall_forall.
    intros q Hq. destruct (Forall2_elem_r _ _ _ q HL Hq) as (b & Hb & Hqb). destruct (proj1 (Forall_forall _ _) Hf b Hb) as (x & y & Hx & Hy & ?). unfold pair_of in *. rewrite Hx in Hp. rewrite Hy in Hqb. cbn in *. by simplify_eq.
  - intros [o s]. rewrite R5. split.
    + intros Hin. destruct (Forall2_elem_r _ _ _ _ HL Hin) as (a & (it & Ha & Hb)%Hmem & Hp). unfold pair_of in Hp. rewrite Ha in Hp. cbn in Hp. simplify_eq. exists a, it. split_and!; try done.
      destruct (R3 a it Ha) as [_ Hbi]. by apply (Hinj _ (it_srt_blinded it)).
    + intros (a & it & Ha & <- & <- & Ht). destruct (R3 a it Ha) as [_ Hbi]. rewrite Ht in Hbi. assert (Hal : a ∈ l) by (apply Hmem; exists it; split; [done|congruence]).
      destruct (Forall2_elem_l _ _ _ a HL Hal) as (p & Hp & Hpa). unfold pair_of in Hpa. rewrite Ha in Hpa. cbn in Hpa. by simplify_eq.
  - intros idx. unfold ossl_quic_srtm_lookup, srtm_compute_blinded. rewrite R0, Hbl. fold l. destruct (l !! idx) as [a|] eqn:E.
    + destruct (Forall2_lookup_l _ _ _ _ _ HL E) as (p & -> & Hp). unfold pair_of in Hp. destruct (sr_objs m !! a); [|done]. cbn in *. by simplify_eq.
    + apply lookup_ge_None in E. rewrite (Forall2_length _ _ _ HL) in E. by rewrite lookup_ge_None_2.
Qed.

(** Every item is in the list of its connection, so that all are freed. *)
Lemma free_spec m M : srtm_rep m M -> ossl_quic_srtm_free m = ∅.
Proof.
  intros [_ R1 _ _ _ _]. apply map_empty. intros a. apply eq_None_not_Some. intros [it [Hal Ha]%foldr_delete_lookup]. apply Hal.
  destruct (bk_mem _ _ _ _ R1 a it Ha) as (l & Hl & Hin). apply list_elem_of_In, in_concat. exists l. rewrite <- !list_elem_of_In. split; [|done].
  apply list_elem_of_fmap. exists (it_opaque it, l). split; [done|]. by apply elem_of_map_to_list.
Qed.
End Rep.

(** ** Histories *)

(** An operation with the allocations that succeed in it. *)
Inductive srtm_op :=
| SAdd (ok : nat -> bool) (opaque seq_num : Z) (token : bytes)
| SRemove (ok : nat -> bool) (opaque seq_num : Z)
| SCull (ok : nat -> bool) (opaque : Z).

Section History.
Context (blind : bytes -> option bytes).

Definition srtm_apply (m : QUIC_SRTM) (op : srtm_op) : option (QUIC_SRTM * bool) :=
  match op with
  | SAdd ok o s t => ossl_quic_srtm_add blind ok m o s t
  | SRemove ok o s => ossl_quic_srtm_remove ok m o s
  | SCull ok o => ossl_quic_srtm_cull ok m o
  end.

Fixpoint srtm_run (m : QUIC_SRTM) (ops : list srtm_op) : option (QUIC_SRTM * list bool) :=
  match ops with
  | [] => Some (m, [])
  | op :: ops => '(m, b) ← srtm_apply m op; '(m, bs) ← srtm_run m ops; Some (m, b :: bs)
  end.

(** What the header promises: a map from connection and sequence number to
    token, [None] once a table could not be extended. *)
Inductive srtm_step : option srts -> srtm_op -> bool -> option srts -> Prop :=
| st_failed op : srtm_step None op false None
| st_add M ok o s t : M !! (o, s) = None -> srtm_step (Some M) (SAdd ok o s t) true (Some (<[(o, s) := t]> M))
| st_add_refused M ok o s t : is_Some (M !! (o, s)) \/ ok 0%nat = false \/ blind t = None -> srtm_step (Some M) (SAdd ok o s t) false (Some M)
| st_add_failed M ok o s t : nomem ok -> srtm_step (Some M) (SAdd ok o s t) false None
| st_remove M ok o s : is_Some (M !! (o, s)) -> srtm_step (Some M) (SRemove ok o s) true (Some (delete (o, s) M))
| st_remove_absent M ok o s : M !! (o, s) = None -> srtm_step (Some M) (SRemove ok o s) false (Some M)
| st_remove_failed M ok o s : nomem ok -> srtm_step (Some M) (SRemove ok o s) false None
| st_cull M ok o : srtm_step (Some M) (SCull ok o) true (Some (filter (fun p => p.1.1 <> o) M)).

Inductive srtm_trace : option srts -> list srtm_op -> list bool -> option srts -> Prop :=
| tr_nil S : srtm_trace S [] [] S
| tr_cons S op b S1 ops bs S2 : srtm_step S op b S1 -> srtm_trace S1 ops bs S2 -> srtm_trace S (op :: ops) (b :: bs) S2.

(** A cull ignores the failures of its insertions; see [cull_uses_freed_item]. *)
Definition cull_has_memory (op : srtm_op) : Prop := match op with SCull ok _ => forall i, ok i = true | _ => True end.

Definition srtm_abs (m : QUIC_SRTM) (S : option srts) : Prop := match S with Some M => srtm_rep blind m M | None => sr_alloc_failed m = true end.

Lemma apply_refines m S op : srtm_abs m S -> cull_has_memory op -> exists m' b S', srtm_apply m op = Some (m', b) /\ srtm_step S op b S' /\ srtm_abs m' S'.
Proof.
  intros Hm Hok. destruct S as [M|].
  2: { exists m, false, None. split; [|split; [constructor|done]]. cbn in Hm. destruct op; cbn; unfold ossl_quic_srtm_add, ossl_quic_srtm_remove, ossl_quic_srtm_cull; by rewrite Hm. }
  destruct op as [ok o s t|ok o s|ok o]; cbn in Hm, Hok |- *.
  - destruct (add_refines blind ok m o s t M Hm) as (m' & b & -> & H). destruct b; [destruct H as [? ?]; exists m', true, (Some (<[(o, s) := t]> M)); split_and!; [done|by constructor|done]|].
    destruct H as [[? ?]|[? ?]]; [exists m', false, (Some M)|exists m', false, None]; split_and!; try done; by constructor.
  - destruct (remove_refines blind ok m o s M Hm) as (m' & b & -> & H). destruct b; [destruct H as [? ?]; exists m', true, (Some (delete (o, s) M)); split_and!; [done|by constructor|done]|].
    destruct H as [[-> ?]|[? ?]]; [exists m, false, (Some M)|exists m', false, None]; split_and!; try done; by constructor.
  - destruct (srtm_cull_refines blind ok m o M Hm Hok) as (m' & -> & ?). exists m', true, (Some (filter (fun p => p.1.1 <> o) M)). split_and!; [done|constructor|done].
Qed.

Lemma run_refines ops : Forall cull_has_memory ops -> forall m S, srtm_abs m S -> exists m' bs S', srtm_run m ops = Some (m', bs) /\ srtm_trace S ops bs S' /\ srtm_abs m' S'.
Proof.
  induction 1 as [|op ops Hop _ IH]; intros m S Hm; [exists m, [], S; split_and!; [done|constructor|done]|].
  destruct (apply_refines m S op Hm Hop) as (m1 & b & S1 & H1 & Hst & Hm1). destruct (IH m1 S1 Hm1) as (m2 & bs & S2 & H2 & Htr & Hm2).
  exists m2, (b :: bs), S2. cbn [srtm_run]. rewrite H1. cbn [mbind option_bind]. rewrite H2. split_and!; [done|by econstructor|done].
Qed.

(** C18. The token manager is a finite map. After any sequence of additions, removals and
    culls on a new manager in which the table insertions of the culls find memory, no operation has used an item that was freed, each result is
    the one that a map from connections and sequence numbers to tokens gives (a duplicate
    is refused, an absent entry cannot be removed, a cull removes all entries of its
    connection), a lookup with the indices 0, 1, ... enumerates the entries with a token,
    each once, by descending connection pointer. If a table could not be extended in an addition or
    a removal, every later call fails instead; as long as that has not happened, releasing the manager frees every
    item (afterwards it may not: [remove_leaks_item]). The blinding
    is injective, as a permutation is. The assumption on the culls is needed: a cull whose insertion fails goes on
    to read an item it has freed ([cull_uses_freed_item]). *)
Theorem srtm_refines (Hinj : forall t t' b, blind t = Some b -> blind t' = Some b -> t = t') ok m0 ops : ossl_quic_srtm_new ok = Some m0 -> Forall cull_has_memory ops ->
  exists m bs S, srtm_run m0 ops = Some (m, bs) /\ srtm_trace (Some ∅) ops bs S /\
  match S with
  | Some M => ossl_quic_srtm_free m = ∅ /\ forall token, is_Some (blind token) -> exists L, NoDup L /\ StronglySorted (fun p q => q.1 <= p.1) L /\
      (forall p, p ∈ L <-> M !! p = Some token) /\ forall idx, ossl_quic_srtm_lookup blind m token idx = Some (L !! idx)
  | None => forall token idx, ossl_quic_srtm_lookup blind m token idx = Some None
  end.
Proof.
  intros Hnew Hops. destruct (run_refines ops Hops m0 (Some ∅) (srtm_new_rep blind ok m0 Hnew)) as (m & bs & S & Hrun & Htr & Hm). exists m, bs, S. split_and!; try done.
  destruct S as [M|]; cbn in Hm.
  - split; [by eapply free_spec|]. intros token [bl Hbl]. eapply lookup_spec; [done..|]. intros t b Ht Hb. by eapply Hinj.
  - intros token idx. unfold ossl_quic_srtm_lookup. by rewrite Hm.
Qed.
End History.

(** ** Concrete runs *)

Definition all_ok : nat -> bool := fun _ => true.
Definition demo_ops : list srtm_op :=
  [SAdd all_ok 1 0 [7]; SAdd all_ok 2 0 [7]; SAdd all_ok 1 1 [8]; SAdd all_ok 1 0 [9]; SAdd all_ok 2 3 [7]; SRemove all_ok 2 0; SRemove all_ok 2 0; SCull all_ok 1].
Definition demo_new : QUIC_SRTM := mkSrtm ∅ ∅ false ∅ 0.

Example demo_run_results : exists m, srtm_run Some demo_new demo_ops = Some (m, [true; true; true; false; true; true; false; true]) /\
  ossl_quic_srtm_lookup Some m [7] 0 = Some (Some (2, 3)) /\ ossl_quic_srtm_lookup Some m [7] 1 = Some None /\ ossl_quic_srtm_lookup Some m [8] 0 = Some None.
Proof. eexists. split; [vm_compute; reflexivity|]. split_and!; vm_compute; reflexivity. Qed.

Lemma srtm_refines_witness : ossl_quic_srtm_new all_ok = Some demo_new /\ exists m bs S, srtm_run Some demo_new demo_ops = Some (m, bs) /\ srtm_trace Some (Some ∅) demo_ops bs S /\
  match S with
  | Some M => ossl_quic_srtm_free m = ∅ /\ forall token, is_Some (Some token : option bytes) -> exists L, NoDup L /\ StronglySorted (fun p q => q.1 <= p.1) L /\
      (forall p, p ∈ L <-> M !! p = Some token) /\ forall idx, ossl_quic_srtm_lookup Some m token idx = Some (L !! idx)
  | None => forall token idx, ossl_quic_srtm_lookup Some m token idx = Some None
  end.
Proof. split; [reflexivity|]. apply (srtm_refines Some) with (ok := all_ok); [intros; congruence|reflexivity|repeat constructor]. Defined.

(** A cull frees an item that it could not unlink: with two equal tokens on one
    connection and one failed insertion, the next step reads the freed item. *)
Example cull_uses_freed_item : srtm_run Some demo_new [SAdd all_ok 1 0 [7]; SAdd all_ok 1 1 [7]; SAdd all_ok 1 2 [8]; SAdd all_ok 1 3 [9]; SCull (fun i => negb (i =? 2)%nat) 1] = None.
Proof. vm_compute. reflexivity. Qed.

(** A removal whose second insertion fails has already unlinked the item from its connection, so that it is not freed with the manager. *)
Example remove_leaks_item : (p ← srtm_run Some demo_new [SAdd all_ok 1 0 [7]; SAdd all_ok 2 0 [7]; SRemove (fun i => negb (i =? 1)%nat) 2 0]; Some (size (ossl_quic_srtm_free p.1))) = Some 1%nat.
Proof. vm_compute. reflexivity. Qed.
